(* ===== verification/_CoqProject ===== *)
-Q . S2P
Prelude.v
GoStrings.v
Sha256.v
Base64.v
GoJson.v
AgentState.v
Protocol.v
RelayCrypto.v
Secrets.v
PeerWitness.v
Ownership.v
OwnershipSystem.v
ControlMode.v
RuntimeState.v
AgentCommands.v
Schema.v
Leases.v
Handoffs.v
Commands.v
Leadership.v
Rebuilds.v
Credentials.v
AgentApi.v
Handover.v
CommandChannel.v
WorkflowSchema.v
SnapshotStore.v
SnapshotLife.v
Procs.v
RelayTransfers.v
SnapshotExecutor.v
RelayPlane.v
RecoverySchema.v
DataFaults.v
Protection.v
RestoreStore.v
RecoverySystem.v
RecoveryFaults.v
RecoveryHomes.v
RecoveryMoves.v
RecoveryRuns.v
ReplicaCleanup.v
ReplicaIntegrity.v
RetentionFrame.v
RetentionSafety.v
RetentionSystem.v
RetentionRuns.v
StorageRepair.v
RepairSystem.v
RepairRuns.v
StoreSystem.v
Handles.v
NodeModes.v
Lockout.v
RateLimit.v
