(* ===== verification/Prelude.v ===== *)
(** * stcontrol: a verification of its coordination core

    stcontrol runs many SillyTavern nodes under one Controller.  The Controller
    (src/internal/controller over the PostgreSQL store of src/internal/store)
    decides which node may write a user's data: it hands out activity leases with
    a growing epoch, sends browsers to nodes with one-time login handoffs, and is
    itself fenced by a generation that a promotion to a standby raises.  Each node
    runs an Agent (src/internal/agent) that reports by signed heartbeats
    (src/internal/protocol), loses and regains its Controller, may open disaster
    logins when a quorum of peers confirms the loss, and lets a user take a session
    over by a majority of nodes.  Agents poll the Controller for commands, sealed
    with a per-node secret that is enrolled once and rotated.  A user's data is
    copied from node to node by snapshot workflows: the Controller's executor
    (controller/backup.go, snapshot_relay.go) drives them through the store and the
    Agents, and when two nodes cannot reach each other the archive travels through
    the Controller's relay (controller/relay.go) as a sealed stream
    (src/internal/crypto).  When a home node is lost or its data is reported corrupt
    the store freezes the user, shows the newest recovery point, and moves the home by
    a confirmed takeover or by a restore (store/protection.go, restores.go,
    user_data_faults.go).  Copies that are no longer needed are deleted from their
    nodes, the archives are read again to see that they are whole, and a user without
    one gets one (store/replica_cleanup.go, replica_integrity.go, storage_repair.go).
    This library models that core: who may act, under which
    epoch, generation, mode and credential, what is copied where, where a user's data
    is authoritative, and what survives crashes and retries.

    ** Files

    - Prelude, GoStrings, Sha256: 64 bit integers with wrap-around, Go time and
      durations, results, the tactic [b2p] and the hint database [stc]; strings as
      bytes, [ToLower], [TrimSpace], hexadecimal, identifier validators; SHA-256,
      executable.  Base64, GoJson: the encodings of Go's base64 package and the
      recogniser behind [json.Valid].
    - AgentState: the Agent's persistent state (runtime_state.go) as records, its
      configuration, its disk image and audit log; [restart] loses memory and keeps
      the disk.
    - Protocol: request signing and verification (protocol.go), HMAC-SHA256.
    - RelayCrypto, Secrets: crypto/relay.go, the framed and authenticated stream a
      snapshot is relayed in, with its readers and writers; the rest of crypto/:
      secrets sealed under the master key, its recovery envelope, derived keys,
      fingerprints, generated passwords.
    - PeerWitness: peer_witness.go, the signed endpoint by which peers confirm the
      loss of the Controller, its nonce cache, and the quorum.
    - Ownership: activity_ownership.go, claims and their identities, the local
      compare-and-set, the peer endpoint, quorum query, broadcast, user-confirmed
      takeover with journal and audit.  OwnershipSystem: clusters of Agents that
      observe claims, save, fail to save and restart.
    - ControlMode: control_mode.go and activity_leases.go, the Agent's mode machine
      (managed, controller-unreachable, independent, independent-draining) driven by
      failed and answered heartbeats, and the lease confirmations it keeps.
    - RuntimeState: runtime_state.go, start-up validation and repair, snapshot
      transfers and their capabilities, the command result cache, credential
      rotation.  AgentCommands: agent/commands.go, how a command is opened, run and
      reported, with the commands of one process in flight as a step relation.
    - Schema: the tables as finite maps, transactions as a state and error monad
      whose failure rolls back, [Postgres] as a class with the two server
      functions the claims depend on (timestamp rounding, UUID input).
    - Leases, Handoffs, Leadership: leases.go with transaction_retry.go,
      handoffs.go, leadership.go with sessions.go; every statement of their SQL
      is an update of the tables.  Commands: store/commands.go, with an abstract
      command and what each operation may make of it.  Rebuilds: controller_rebuilds.go and
      the readiness query.  Credentials: agent_credentials.go, enrollment.go,
      nonces.go and the revocations of a retired node.  StoreSystem: runs of
      store operations by any callers, with the advisory lock.
    - WorkflowSchema, SnapshotStore: the tables of the workflows, with the rows of
      users' homes, replicas and accounts on nodes; every operation of
      store/snapshots.go, with the jobs of backups.go.  SnapshotLife: the abstract
      life of a snapshot workflow, the move each operation stands for, and the
      theorem that the store makes no other.
    - RelayTransfers: store/relay.go, the records of relayed transfers, and the
      abstract life they refine.
    - Procs: procedures that call the store, the Agents and the file system, as
      trees of actions; their interleaving in a pool; and a rule of invariants that
      survive what the others do.  SnapshotExecutor: the executor of a snapshot, its
      retries, lease keeper, recovery and reconciler, the provision of the target
      account and the choice of a target (controller/backup.go, snapshot_relay.go,
      parts of offline_backups.go and storage_repair.go), as such procedures over
      the tables.  RelayPlane: the handlers of controller/relay.go over the same
      tables and a file system with inodes, temporary files, links and failures.
    - RecoverySchema: the tables of protection, takeovers, restores, data faults and
      conflicts beside those of the workflows, and the statements they share.
      DataFaults, Protection, RestoreStore: store/user_data_faults.go, protection.go
      and restores.go.  RecoverySystem: runs of all their operations with the snapshot
      workflows and any change of the core tables.  RecoveryFaults: the abstract life
      of a data fault and its refinement.  RecoveryHomes, RecoveryMoves: what every
      operation does to the places where a user's data is authoritative.
      RecoveryRuns: concrete recoveries, and what the store cannot record.
    - ReplicaCleanup, ReplicaIntegrity: store/replica_cleanup.go and
      replica_integrity.go with their workers of the same names under controller/.
      RetentionFrame, RetentionSafety: what the operations of the snapshots and of the
      recovery leave alone while a copy is being deleted.  RetentionSystem: runs of
      all of them with the claims and answers of the workers.  RetentionRuns: a
      concrete cleanup, and one that fails.
    - StorageRepair: store/storage_repair.go with the round of
      controller/storage_repair.go, over the tables of the recovery, the tasks and the
      disks of the nodes.  RepairSystem: runs of its operations, the abstract life of a
      repair, and what a claim reserves.  RepairRuns: two users and one storage node.
    - AgentApi, CommandChannel: the Controller's handlers over these tables -
      controller/middleware.go (authentication of Agents), registration, offer and
      confirmation of a credential (controller/agent.go), and the command channel
      (controller/commands.go).  Handover: the Agent's side of a rotation
      (heartbeat.go) joined with them.
    - Handles, NodeModes: handle.go; the mode handshake, from the Agent's report
      through the normalisation in the heartbeat handler (controller/agent.go) and
      the decision of control_modes.go back to the Agent.
    - Lockout, RateLimit: login_lockout.go with the login handlers of auth.go and
      admin_auth.go; the fixed-window limiter of ratelimit.go.

    Definitions carry the names of the Go functions; record fields the Go field
    names behind a short prefix.  A function that returns a value and an error
    returns a [result]; one that changes the Agent or the database takes and returns
    it.  Loops over lists are structural; the retry loop of serializable
    transactions and the lockout's backoff run on fuel equal to the bound in the
    source; [trim_seqs] on the length of its input, of which each step removes at
    least one byte.  The loops of the relay stream run on fuel one more than the
    bytes left to read, and are proved never to run out of it; [json_valid] runs on
    twice the length of its input, with a lemma that more fuel changes nothing.  The
    doubling of a retry delay runs on 16 steps, of which nine reach its limit.

    ** What the theorems show

    - Single writer (StoreSystem, Leases): an epoch identifies one writer, session
      and generation; an unexpired lease is not taken from its writer; a superseded
      session cannot renew, report or redeem; requests are idempotent; a free lease
      is granted.
    - Handoffs (Handoffs, StoreSystem): a fresh handoff can be redeemed by the node
      it names, and carries the same facts; a ticket is redeemed once; a retry gets
      the first answer.
    - Generations (StoreSystem): one active generation, raised only by promotion; a
      promotion fences sessions and tickets; a restart continues a generation only
      after a clean stop by the holder of the lock.
    - Ownership (Ownership, OwnershipSystem): majorities cannot acknowledge rivals
      for one slot while saves succeed, and one failed save is enough to break it;
      a committed claim is not overlooked later; decisions rest on majorities and
      not on the order of maps; takeovers are committed by majorities, idempotent, and
      leave a loadable state.
    - Modes (ControlMode, NodeModes): independence needs a sustained, witnessed
      loss; the way back drains; the mode generation identifies the mode; Agent and
      Controller agree after each answered heartbeat and a quiet node is managed
      again after three; the echo sent to a previous-generation credential leaves
      an independent node whose reports are refused.
    - Signatures and witnesses (Protocol, PeerWitness): round trips, binding of all
      signed parts, no replay, majority of distinct witnesses.
    - Durability (RuntimeState): what was accepted once starts again; transfers
      stay loadable, capabilities are single use, published transfers are final,
      except for the unguarded [finishTransfer]; credentials move forward.
    - Relay and secrets (RelayCrypto, Secrets): what was sealed arrives, both ends
      always stop; of a stream without forged frames nothing but a prefix of the
      sender's plaintext is written and success means all of it; sizes are exact; sealed values and the master key are
      recovered; fingerprints identify what they were made of.
    - Commands (Commands, CommandChannel, AgentCommands): rows stay typed, and each
      operation does to a command exactly what the abstract queue lets it do: a
      running command has one worker, only its holder writes a result, only a failed
      or expired one is delivered again, and success is final; the payload that is enqueued is
      the one the Agent opens, and one process executes it at most once while its
      cache of results is not full.
    - Credentials (Credentials, AgentApi, Handover): one live credential per node,
      single-use tokens; accepted requests are signed by a live secret of the node,
      with the limits of pending and old-generation ones, and never replayed; a
      rotation that nothing disturbs leaves both ends with the same secret.  An enrollment strands a
      pending rotation, and a promotion strands the Agent that holds one.
    - Snapshots (SnapshotLife, SnapshotExecutor): each operation of the store makes
      the one move of the abstract life it stands for, a finished workflow stays
      finished, a publication writes the replica, its account and its job together
      and a repeated one changes nothing; executors that interleave with recovery
      and reconcilers keep the constraints of the tables; the capability a command carries opens the transfer it names.  A node whose
      storage is to be retired never begins its backups, and a workflow left between
      two attempts never reaches the bound of its attempts.
    - Relayed transfers (RelayTransfers, RelayPlane): the records refine the
      abstract life, a download is of the upload it was recorded for; with any
      number of handlers at work, what the spool holds under a transfer's name is
      what the record says; parts are accepted exactly once and add up; a path
      never leaves the spool.  A completion whose answer is lost deletes the file.
    - Recovery (RecoveryFaults, RecoveryMoves, RecoveryRuns): the faults refine their
      life; the home, the home replica and the authoritative copy of a user agree in
      every run, and a home moves only for a user nobody can write for, with the old
      lease and tickets closed.  A fault frozen without a recovery point is never
      recovered from, a failed restore is never recorded, and the completion
      of one does not depend on what the user did meanwhile, which it replaces.
    - Retention (RetentionSystem, ReplicaIntegrity, RetentionRuns): while a copy is
      being deleted it is not the home, not authoritative, not ready to take over and
      not the target of a restore; a claim leaves a verified archive on another
      healthy node; the retries back off up to six hours.  A cleanup that fails for
      good is pending again after the next round that selects its copy.
    - Repairs (RepairSystem, RepairRuns): the tasks refine the life of a repair with
      its limit of attempts; the reservations of a claim fit the disk and the quota of
      its target; after a reconciliation none outlives its workflow.  Claims that
      overlap reserve the same space, each as if it were alone.
    - Rebuilds (Rebuilds): progress is reported truthfully, and a recovery heartbeat
      is enough to defer a node.
    - Admission (Lockout, RateLimit): what the lockout rejects and what it lets
      through; the bound of the limiter.

    ** Assumptions

    Time is an input of every operation, as are the outcomes of disk writes, peer
    replies and server aborts; no theorem assumes an order of clocks it does not
    state.  SHA-256 is executable; where a claim needs it, the absence of collisions
    among the values of the run is a hypothesis.  Lower-casing outside ASCII
    ([UnicodeTables]) and the server functions ([Postgres]) are parameters, and so are
    AES-GCM, X25519, HKDF ([RelayPrimitives], with [RelayLaws] as their documented
    behaviour), scrypt, Unicode normalisation, PostgreSQL's [jsonb] input and the
    parsing of URLs.  The bytes of a request's body and the failures of the disk are
    answers of the environment of a procedure; so are the answers of Agents.  Random
    names and tokens are inputs; the names of temporary files never repeat, where
    os.CreateTemp only avoids those that exist.  That a received stream holds no forged
    frame, and that [jsonb] and the JSON decoder return the base64 text of a command's
    envelope, are hypotheses of the theorems that need them.  A
    handler of the Agent runs under its state mutex, a store operation in a
    serializable transaction: each is one step, and runs interleave steps; so is an
    ownership query, although the code releases the mutex while it waits for the peers
    (their answers may come from any moment), and the
    reconciliation of protection states, which runs at READ COMMITTED.  The claim of a
    storage repair, which does too, is one step whose choice of a target may have read
    an older database.  A parameter of
    a statement that is only an argument of a function of any type has no type the
    server could infer, and the statement is refused.  Users are not deleted within a
    run of the store, and keep their legacy ids.

    ** Not modelled

    The fields of the runtime state for disaster users, Controller backups and
    quotas; the records of disaster synchronizations and takeovers written together
    with a mode decision; audit rows other than those of promotions, rebuilds and
    recoveries; the encoding of texts (an error text cut at 512 bytes may end inside a
    UTF-8 sequence, which PostgreSQL would refuse); the column updated_at of
    user_replicas, which no statement reads; the
    process-local admission gate; HTTP framing, file-system work of the Agent
    (archives, restores, conflict evidence), administration, OAuth and passkeys, AI
    supervision, the web front end.  Display names of the accounts an executor
    provisions.  The conflict and import workflows of the store, node
    retirement, the recording of disaster takeovers
    (independent_takeovers.go), and the Agent's side of a relayed upload
    (relay_multipart.go): they are not needed by what is modelled, and the tables they
    share with it are. *)

From stdpp Require Import base decidable list gmap strings.
From Stdlib Require Import ZArith Lia.

#[global] Open Scope Z_scope.

(** ** Machine integers

    Go's [int] and [int64] are 64 bit two's complement on the platforms the
    program is built for.  Arithmetic that can leave the range in the source is
    written with [wrap64]; comparisons and copies need no wrapping. *)

Definition MaxInt64 : Z := 2 ^ 63 - 1.
Definition MinInt64 : Z := - 2 ^ 63.
Definition MaxInt32 : Z := 2 ^ 31 - 1.
Definition int64 (z : Z) : Prop := MinInt64 <= z <= MaxInt64.
Definition wrap64 (z : Z) : Z := (z + 2 ^ 63) mod 2 ^ 64 - 2 ^ 63.

Lemma wrap64_id (z : Z) : int64 z -> wrap64 z = z.
Proof.
  unfold int64, wrap64, MinInt64, MaxInt64. intros H.
  rewrite Z.mod_small; lia.
Qed.

Lemma wrap64_int64 (z : Z) : int64 (wrap64 z).
Proof.
  unfold int64, wrap64, MinInt64, MaxInt64.
  pose proof (Z.mod_pos_bound (z + 2 ^ 63) (2 ^ 64) ltac:(lia)). lia.
Qed.

Lemma wrap64_over x : MaxInt64 < x <= MaxInt64 + 2 ^ 64 -> wrap64 x = x - 2 ^ 64.
Proof.
  unfold wrap64, MaxInt64. intros Hx. rewrite (Z.mod_eq _ (2 ^ 64)) by lia.
  assert ((x + 2 ^ 63) / 2 ^ 64 = 1) as -> by (Z.to_euclidean_division_equations; lia). lia.
Qed.

(** ** Time

    A [time.Time] is the number of nanoseconds since Go's zero time (1 January
    of year 1, UTC), so [IsZero] is equality with 0.  [Sub] saturates at the
    range of [time.Duration], as the Go implementation does. *)

Definition time := Z.
Definition duration := Z.

Definition Second : duration := 1000000000.
Definition Minute : duration := 60 * Second.
Definition Hour : duration := 60 * Minute.

Definition is_zero (t : time) : bool := t =? 0.
Definition after (t u : time) : bool := u <? t.
Definition before (t u : time) : bool := t <? u.
Definition time_sub (t u : time) : duration :=
  Z.min MaxInt64 (Z.max MinInt64 (t - u)).

(** Seconds between Go's zero time and the Unix epoch. *)
Definition unix_to_internal : Z := 62135596800.
Definition unix_milli (t : time) : Z := (t - unix_to_internal * Second) / 1000000.
Definition of_unix_milli (ms : Z) : time := ms * 1000000 + unix_to_internal * Second.
(** [time.Unix] adds the offset in [int64] seconds, so it wraps. *)
Definition of_unix (s : Z) : time := wrap64 (s + unix_to_internal) * Second.

(** ** Results

    A Go function returning [(T, error)] returns a [result].  [Fail] carries the
    identity of the error value (its message or sentinel). *)

Inductive result (A : Type) : Type :=
| Ok (a : A)
| Fail (e : string).
Arguments Ok {A} a.
Arguments Fail {A} e.

Definition is_ok {A} (r : result A) : bool :=
  match r with Ok _ => true | Fail _ => false end.

Definition rbind {A B} (m : result A) (k : A -> result B) : result B :=
  match m with Ok a => k a | Fail e => Fail e end.

Declare Scope go_scope.
Notation "'try' x ':=' m 'in' k" := (rbind m (fun x => k))
  (at level 10, x pattern, m at level 100, k at level 200,
   format "'[v' 'try'  x  ':='  m  'in' '/' k ']'") : go_scope.
#[global] Open Scope go_scope.

Lemma rbind_ok {A B} (m : result A) (k : A -> result B) (b : B) :
  rbind m k = Ok b <-> exists a, m = Ok a /\ k a = Ok b.
Proof.
  destruct m as [a|e]; simpl; split.
  - intros Hk. by exists a.
  - intros (a' & Ha & Hk). by simplify_eq.
  - done.
  - by intros (a' & Ha & _).
Qed.

(** ** Automation

    The database [stc] collects, for each store operation, what it writes and the
    steps it makes; runs are proved by it. *)

Create HintDb stc.

(** Bounds of machine integers. *)
Ltac int64_lia := unfold int64, MinInt64, MaxInt64 in *; lia.

(** Pass the guards of a handler, in a hypothesis or before an arrow, when the
    result excludes the branch of the guard. *)
Ltac guards_in H :=
  repeat match type of H with
  | (if ?b then _ else _) = _ => let G := fresh "G" in destruct b eqn:G; [done|]
  end.
Ltac guards :=
  repeat match goal with
  | |- (if ?b then _ else _) = _ -> _ => let G := fresh "G" in destruct b eqn:G; [done|]
  end.

(** Turn boolean tests of the source into propositions. *)
Ltac b2p :=
  repeat match goal with
  | H : _ && _ = true |- _ => apply andb_true_iff in H; destruct H
  | H : _ || _ = false |- _ => apply orb_false_iff in H; destruct H
  | H : negb _ = true |- _ => apply negb_true_iff in H
  | H : negb _ = false |- _ => apply negb_false_iff in H
  | H : (_ =? _) = true |- _ => apply Z.eqb_eq in H
  | H : (_ =? _) = false |- _ => apply Z.eqb_neq in H
  | H : (_ <? _) = true |- _ => apply Z.ltb_lt in H
  | H : (_ <? _) = false |- _ => apply Z.ltb_ge in H
  | H : (_ <=? _) = true |- _ => apply Z.leb_le in H
  | H : (_ <=? _) = false |- _ => apply Z.leb_gt in H
  | H : String.eqb _ _ = true |- _ => apply String.eqb_eq in H
  | H : String.eqb _ _ = false |- _ => apply String.eqb_neq in H
  | H : bool_decide _ = true |- _ => apply bool_decide_eq_true in H
  | H : bool_decide _ = false |- _ => apply bool_decide_eq_false in H
  end.

(** Split the tests and matches of an unfolded handler, discarding the branches
    the hypotheses exclude. *)
Ltac split_code :=
  repeat (first [progress simplify_eq/= | case_match]); b2p; simplify_eq/=.

(** ** Lists *)

(** Sorting is by the source's comparison; several components need that a
    boolean filter keeps exactly the elements passing its test. *)
Fixpoint find_first {A} (p : A -> bool) (l : list A) : option A :=
  match l with
  | [] => None
  | x :: l => if p x then Some x else find_first p l
  end.

Lemma find_first_some {A} (p : A -> bool) (l : list A) (x : A) :
  find_first p l = Some x -> x ∈ l /\ p x = true.
Proof.
  induction l as [|y l IH]; simpl; [done|].
  destruct (p y) eqn:E; intros H; simplify_eq.
  - split; [apply list_elem_of_here | done].
  - destruct (IH H). split; [by apply list_elem_of_further | done].
Qed.

Lemma find_first_none {A} (p : A -> bool) (l : list A) :
  find_first p l = None <-> forall x, x ∈ l -> p x = false.
Proof.
  induction l as [|y l IH]; simpl.
  - split; [intros _ x Hx; by apply elem_of_nil in Hx | done].
  - destruct (p y) eqn:E.
    + split; [done|]. intros H. rewrite (H y) in E; [done|apply list_elem_of_here].
    + rewrite IH. split.
      * intros H x [->|Hx]%elem_of_cons; auto.
      * intros H x Hx. apply H. by apply list_elem_of_further.
Qed.

(** Cutting a list at the first, respectively the last, occurrence of a
    separator is unique. *)
Lemma app_sep_inj_l {A} (sep : A) (l1 l2 r1 r2 : list A) :
  sep ∉ l1 -> sep ∉ l2 -> l1 ++ sep :: r1 = l2 ++ sep :: r2 -> l1 = l2 /\ r1 = r2.
Proof.
  revert l2. induction l1 as [|x l1 IH]; intros [|y l2] H1 H2 E; simplify_eq/=; try set_solver.
  destruct (IH l2) as [-> ->]; set_solver.
Qed.

Lemma app_sep_inj_r {A} (sep : A) (l1 l2 r1 r2 : list A) :
  sep ∉ r1 -> sep ∉ r2 -> l1 ++ sep :: r1 = l2 ++ sep :: r2 -> l1 = l2 /\ r1 = r2.
Proof.
  intros H1 H2 E. apply (f_equal reverse) in E.
  rewrite !reverse_app, !reverse_cons, <- !(assoc_L (++)) in E. simpl in E.
  apply app_sep_inj_l in E as [E1 E2]; [|by rewrite elem_of_reverse..].
  by apply (inj reverse) in E1; apply (inj reverse) in E2.
Qed.
