(* ===== verification/GoStrings.v ===== *)
(** * Go byte strings

    Strings are Go byte strings (one [ascii] per byte).  The file models what
    the program uses of [strings], [unicode/utf8], [encoding/hex] and [fmt], and
    the small validators the agent and the store share:
    [validUUID] / [validUUIDText] (src/internal/agent/snapshot.go,
    src/internal/store/identity_recovery.go), [validHandle],
    [safeInventoryString] and the 32-byte hex digest test. *)

From Stdlib Require Import ZArith Lia Ascii String.
From stdpp Require Import base list strings pretty.
From S2P Require Import Prelude.
#[local] Open Scope Z_scope.

Definition bytes_of (s : string) : list ascii := list_ascii_of_string s.
Definition of_bytes (l : list ascii) : string := string_of_list_ascii l.
Definition byte_val (c : ascii) : Z := Z.of_N (N_of_ascii c).
Definition byte_of (z : Z) : ascii := ascii_of_N (Z.to_N z).
Definition slen (s : string) : Z := Z.of_nat (String.length s).

Definition is_ascii (s : string) : bool :=
  forallb (fun c => byte_val c <? 128) (bytes_of s).

(** [strings.ToLower] maps ASCII strings byte by byte and hands any other string
    to the Unicode case tables of the Go release, which are a parameter. *)
Class UnicodeTables := map_to_lower : string -> string.

Definition ascii_lower (c : ascii) : ascii :=
  if (65 <=? byte_val c) && (byte_val c <=? 90) then byte_of (byte_val c + 32) else c.

Definition to_lower `{UnicodeTables} (s : string) : string :=
  if is_ascii s then of_bytes (map ascii_lower (bytes_of s)) else map_to_lower s.

(** The UTF-8 encodings of the Unicode White_Space code points, which is what
    [strings.TrimSpace] removes at both ends. *)
Definition space_seqs : list (list ascii) :=
  map (map byte_of)
    ([[9]; [10]; [11]; [12]; [13]; [32]; [194; 133]; [194; 160]; [225; 154; 128]]
     ++ map (fun k => [226; 128; k])
          [128; 129; 130; 131; 132; 133; 134; 135; 136; 137; 138; 168; 169; 175]
     ++ [[226; 129; 159]; [227; 128; 128]]).

Fixpoint strip_prefix (p l : list ascii) : option (list ascii) :=
  match p, l with
  | [], _ => Some l
  | c :: p, d :: l => if Ascii.eqb c d then strip_prefix p l else None
  | _ :: _, [] => None
  end.

Fixpoint strip_any (ps : list (list ascii)) (l : list ascii) : option (list ascii) :=
  match ps with
  | [] => None
  | p :: ps => match strip_prefix p l with Some r => Some r | None => strip_any ps l end
  end.

Fixpoint trim_seqs (fuel : nat) (ps : list (list ascii)) (l : list ascii) : list ascii :=
  match fuel with
  | O => l
  | S fuel => match strip_any ps l with Some r => trim_seqs fuel ps r | None => l end
  end.

Definition trim_space (s : string) : string :=
  let l := bytes_of s in
  let l := trim_seqs (length l) space_seqs l in
  let r := rev l in
  of_bytes (rev (trim_seqs (length r) (map (@rev ascii) space_seqs) r)).

(** ** Hexadecimal *)

Definition hex_val (c : ascii) : option Z :=
  let v := byte_val c in
  if (48 <=? v) && (v <=? 57) then Some (v - 48)
  else if (97 <=? v) && (v <=? 102) then Some (v - 87)
  else if (65 <=? v) && (v <=? 70) then Some (v - 55)
  else None.

Fixpoint hex_decode_bytes (l : list ascii) : option (list ascii) :=
  match l with
  | [] => Some []
  | [_] => None
  | a :: b :: l =>
      match hex_val a, hex_val b, hex_decode_bytes l with
      | Some x, Some y, Some r => Some (byte_of (16 * x + y) :: r)
      | _, _, _ => None
      end
  end.

(** [hex.DecodeString]. *)
Definition hex_decode (s : string) : option string :=
  of_bytes <$> hex_decode_bytes (bytes_of s).

Definition hex_digit (v : Z) : ascii := byte_of (if v <? 10 then v + 48 else v + 87).

(** [hex.EncodeToString]. *)
Definition hex_encode (s : string) : string :=
  of_bytes (flat_map (fun c => [hex_digit (byte_val c / 16); hex_digit (byte_val c mod 16)])
              (bytes_of s)).

(** ** Validators *)

Definition dash : ascii := byte_of 45.
Definition char_at (s : string) (i : nat) : option ascii := String.get i s.
Definition is_char (s : string) (i : nat) (c : ascii) : bool :=
  match char_at s i with Some d => Ascii.eqb c d | None => false end.

Definition remove_char (c : ascii) (s : string) : string :=
  of_bytes (List.filter (fun d => negb (Ascii.eqb c d)) (bytes_of s)).

Definition validUUID (value : string) : bool :=
  if negb (slen value =? 36) || negb (is_char value 8 dash) || negb (is_char value 13 dash)
     || negb (is_char value 18 dash) || negb (is_char value 23 dash)
  then false
  else match hex_decode (remove_char dash value) with
       | Some decoded => slen decoded =? 16
       | None => false
       end.

(** [validOwnershipDigest], [validCapabilityHash] and [validInventoryDigest]
    have this body. *)
Definition valid_sha256_hex (value : string) : bool :=
  match hex_decode value with Some d => slen d =? 32 | None => false end.

Definition handle_char (c : ascii) : bool :=
  let v := byte_val c in
  ((97 <=? v) && (v <=? 122)) || ((48 <=? v) && (v <=? 57)) || (v =? 45).

(** [validHandle] ranges over runes: a rune outside ASCII fails the test, and so
    does each byte of its encoding. *)
Definition validHandle (handle : string) : bool :=
  if (slen handle <? 1) || (64 <? slen handle) || String.eqb handle "." || String.eqb handle ".."
  then false
  else forallb handle_char (bytes_of handle).

Definition safeInventoryString (value : string) (limit : Z) : bool :=
  if String.eqb value "" || (limit <? slen value) || negb (String.eqb (trim_space value) value)
  then false
  else forallb (fun c => negb ((byte_val c <? 32) || (byte_val c =? 127))) (bytes_of value).

Example validUUID_ok : validUUID "123e4567-e89b-12d3-a456-426614174000" = true.
Proof. vm_compute. reflexivity. Qed.
Example validUUID_bad : validUUID "123e4567-e89b-12d3-a456-42661417400-" = false.
Proof. vm_compute. reflexivity. Qed.
Example trim_ex : trim_space (String "009" (" a b" ++ String "194" (String "160" " "))) = "a b"%string.
Proof. vm_compute. reflexivity. Qed.

(** ** Lemmas *)

Lemma of_bytes_of (s : string) : of_bytes (bytes_of s) = s.
Proof. apply string_of_list_ascii_of_string. Qed.

Lemma bytes_of_bytes (l : list ascii) : bytes_of (of_bytes l) = l.
Proof. apply list_ascii_of_string_of_list_ascii. Qed.

Lemma bytes_of_inj (s t : string) : bytes_of s = bytes_of t -> s = t.
Proof. intros H. by rewrite <- (of_bytes_of s), H, of_bytes_of. Qed.

Lemma byte_val_range (c : ascii) : 0 <= byte_val c < 256.
Proof. unfold byte_val. pose proof (N_ascii_bounded c). lia. Qed.

Lemma byte_of_val (c : ascii) : byte_of (byte_val c) = c.
Proof. unfold byte_of, byte_val. rewrite N2Z.id. apply ascii_N_embedding. Qed.

Lemma byte_val_of (z : Z) : 0 <= z < 256 -> byte_val (byte_of z) = z.
Proof. intros H. unfold byte_val, byte_of. rewrite N_ascii_embedding; lia. Qed.

Lemma hex_val_digit (v : Z) : 0 <= v < 16 -> hex_val (hex_digit v) = Some v.
Proof.
  intros H.
  assert (v = 0 \/ v = 1 \/ v = 2 \/ v = 3 \/ v = 4 \/ v = 5 \/ v = 6 \/ v = 7 \/ v = 8 \/
          v = 9 \/ v = 10 \/ v = 11 \/ v = 12 \/ v = 13 \/ v = 14 \/ v = 15) as Hv by lia.
  repeat (destruct Hv as [->|Hv]; [reflexivity|]). by subst.
Qed.

(** [hex.DecodeString] inverts [hex.EncodeToString] on every byte string. *)
Lemma hex_decode_encode (s : string) : hex_decode (hex_encode s) = Some s.
Proof.
  unfold hex_decode, hex_encode. rewrite bytes_of_bytes.
  enough (hex_decode_bytes (flat_map (fun c => [hex_digit (byte_val c / 16);
            hex_digit (byte_val c mod 16)]) (bytes_of s)) = Some (bytes_of s)) as ->.
  { simpl. by rewrite of_bytes_of. }
  induction (bytes_of s) as [|c l IH]; [done|].
  cbn [flat_map app hex_decode_bytes].
  pose proof (byte_val_range c).
  rewrite !hex_val_digit by (first [apply Z.mod_pos_bound; lia
    | split; [apply Z.div_pos; lia | apply Z.div_lt_upper_bound; lia]]).
  rewrite IH. rewrite <- (Z.div_mod (byte_val c) 16) by lia. by rewrite byte_of_val.
Qed.

Lemma slen_of_bytes (l : list ascii) : slen (of_bytes l) = Z.of_nat (length l).
Proof.
  unfold slen, of_bytes. f_equal. induction l as [|c l IH]; simpl; [done|]. by rewrite IH.
Qed.

Lemma slen_bytes_of (s : string) : slen s = Z.of_nat (length (bytes_of s)).
Proof. by rewrite <- (of_bytes_of s) at 1; rewrite slen_of_bytes. Qed.

Lemma valid_sha256_hex_encode (d : string) :
  slen d = 32 -> valid_sha256_hex (hex_encode d) = true.
Proof. intros H. unfold valid_sha256_hex. rewrite hex_decode_encode, H. done. Qed.
