(* ===== verification/Sha256.v ===== *)
(** * SHA-256

    [crypto/sha256.Sum256] as FIPS 180-4 defines it, on Go byte strings.  The
    function is executable, so digests that occur in witnesses are computed; no
    theorem assumes that it is injective.  Where a property needs the absence of
    a collision, it states it for the finitely many strings involved. *)

From Stdlib Require Import ZArith Lia Ascii String.
From stdpp Require Import base list strings.
From S2P Require Import Prelude GoStrings.
#[local] Open Scope Z_scope.

Definition m32 (z : Z) : Z := Z.land z (2 ^ 32 - 1).
Definition add32 (a b : Z) : Z := m32 (a + b).
Definition rotr (n x : Z) : Z := Z.lor (Z.shiftr x n) (m32 (Z.shiftl x (32 - n))).
Definition not32 (x : Z) : Z := Z.lxor x (2 ^ 32 - 1).

Definition Ch (x y z : Z) : Z := Z.lxor (Z.land x y) (Z.land (not32 x) z).
Definition Maj (x y z : Z) : Z := Z.lxor (Z.lxor (Z.land x y) (Z.land x z)) (Z.land y z).
Definition bsig0 (x : Z) : Z := Z.lxor (Z.lxor (rotr 2 x) (rotr 13 x)) (rotr 22 x).
Definition bsig1 (x : Z) : Z := Z.lxor (Z.lxor (rotr 6 x) (rotr 11 x)) (rotr 25 x).
Definition ssig0 (x : Z) : Z := Z.lxor (Z.lxor (rotr 7 x) (rotr 18 x)) (Z.shiftr x 3).
Definition ssig1 (x : Z) : Z := Z.lxor (Z.lxor (rotr 17 x) (rotr 19 x)) (Z.shiftr x 10).

(** The constants are the first 32 bits of the fractional parts of the cube
    roots (rounds) and square roots (initial state) of the first primes. *)
Fixpoint cube_root (bits : nat) (n : Z) : Z :=
  match bits with
  | O => 0
  | S k => let r := 2 * cube_root k (Z.shiftr n 3) in
           if (r + 1) * (r + 1) * (r + 1) <=? n then r + 1 else r
  end.

Definition is_prime (n : nat) : bool :=
  (2 <=? n)%nat && forallb (fun d => negb (n mod d =? 0)%nat) (seq 2 (n - 2)).
Definition primes64 : list Z := map Z.of_nat (List.filter is_prime (seq 0 312)).

Definition K256 : list Z :=
  Eval vm_compute in map (fun p => m32 (cube_root 36 (p * 2 ^ 96))) primes64.

Record hstate := HS { ha : Z; hb : Z; hc : Z; hd : Z; he : Z; hf : Z; hg : Z; hh : Z }.

Definition H0 : hstate := Eval vm_compute in
  match map (fun p => m32 (Z.sqrt (p * 2 ^ 64))) (take 8 primes64) with
  | [a; b; c; d; e; f; g; h] => HS a b c d e f g h
  | _ => HS 0 0 0 0 0 0 0 0
  end.

(** One round, with the round constant and the message word. *)
Definition round (s : hstate) (kw : Z * Z) : hstate :=
  let t1 := add32 (add32 (add32 (add32 (hh s) (bsig1 (he s))) (Ch (he s) (hf s) (hg s))) (fst kw))
              (snd kw) in
  let t2 := add32 (bsig0 (ha s)) (Maj (ha s) (hb s) (hc s)) in
  HS (add32 t1 t2) (ha s) (hb s) (hc s) (add32 (hd s) t1) (he s) (hf s) (hg s).

(** The message schedule as a sliding window of the last sixteen words. *)
Fixpoint schedule (n : nat) (w : list Z) : list Z :=
  match n with
  | O => w
  | S n =>
      let word i := default 0 (w !! i) in
      let next := add32 (add32 (ssig1 (word 14%nat)) (word 9%nat))
                    (add32 (ssig0 (word 1%nat)) (word 0%nat)) in
      word 0%nat :: schedule n (tail w ++ [next])
  end.

Definition compress (s : hstate) (block : list Z) : hstate :=
  let r := fold_left round (combine K256 (schedule 48 block)) s in
  HS (add32 (ha s) (ha r)) (add32 (hb s) (hb r)) (add32 (hc s) (hc r)) (add32 (hd s) (hd r))
     (add32 (he s) (he r)) (add32 (hf s) (hf r)) (add32 (hg s) (hg r)) (add32 (hh s) (hh r)).

Fixpoint words_of (l : list Z) : list Z :=
  match l with
  | a :: b :: c :: d :: l => (((a * 256 + b) * 256 + c) * 256 + d) :: words_of l
  | _ => []
  end.

Fixpoint blocks_of (fuel : nat) (w : list Z) : list (list Z) :=
  match fuel, w with
  | O, _ => []
  | _, [] => []
  | S fuel, _ => take 16 w :: blocks_of fuel (drop 16 w)
  end.

(** Big-endian encoding of [v] in [n] bytes. *)
Fixpoint be_bytes (n : nat) (v : Z) : list Z :=
  match n with
  | O => []
  | S n => Z.land (Z.shiftr v (8 * Z.of_nat n)) 255 :: be_bytes n v
  end.

Definition pad (l : list Z) : list Z :=
  let len := Z.of_nat (length l) in
  let zeros := Z.to_nat ((55 - len) mod 64) in
  l ++ [128] ++ replicate zeros 0 ++ be_bytes 8 (8 * len).

Definition digest_of (s : hstate) : list Z :=
  flat_map (be_bytes 4) [ha s; hb s; hc s; hd s; he s; hf s; hg s; hh s].

Definition sha256 (s : string) : string :=
  let w := words_of (pad (map byte_val (bytes_of s))) in
  let h := fold_left compress (blocks_of (length w) w) H0 in
  of_bytes (map byte_of (digest_of h)).

(** FIPS 180-4 test vectors: the empty string, "abc" and the two-block message. *)
Example sha256_empty : hex_encode (sha256 "")
  = "e3b0c44298fc1c149afbf4c8996fb92427ae41e4649b934ca495991b7852b855"%string.
Proof. vm_compute. reflexivity. Qed.
Example sha256_abc : hex_encode (sha256 "abc")
  = "ba7816bf8f01cfea414140de5dae2223b00361a396177a9cb410ff61f20015ad"%string.
Proof. vm_compute. reflexivity. Qed.
Example sha256_two_blocks :
  hex_encode (sha256 "abcdbcdecdefdefgefghfghighijhijkijkljklmklmnlmnomnopnopq")
  = "248d6a61d20638b8e5c026930c3e6039a33ce45964ff2167f6ecedd419db06c1"%string.
Proof. vm_compute. reflexivity. Qed.

(** A digest has 32 bytes. *)
Lemma sha256_length (s : string) : slen (sha256 s) = 32.
Proof. unfold sha256. rewrite slen_of_bytes, length_map. reflexivity. Qed.

Definition sha256_hex (s : string) : string := hex_encode (sha256 s).

Lemma sha256_hex_valid (s : string) : valid_sha256_hex (sha256_hex s) = true.
Proof. apply valid_sha256_hex_encode, sha256_length. Qed.

(** Sealed for conversion: [vm_compute] still evaluates it. *)
#[global] Opaque sha256.
