(* ===== verification/Base64.v ===== *)
(** * Base 64

    [encoding/base64] as the program uses it: RawStdEncoding (no padding) and
    StdEncoding (padded), encoding and decoding.  The decoders skip carriage returns
    and line feeds and ignore the unused low bits of a final partial group, as Go's
    do without [Strict]. *)

From Stdlib Require Import ZArith Lia Ascii String.
From stdpp Require Import base list strings.
From S2P Require Import Prelude GoStrings.
#[local] Open Scope Z_scope.

Definition b64_char (v : Z) : ascii :=
  byte_of (if v <? 26 then v + 65 else if v <? 52 then v + 71 else if v <? 62 then v - 4
           else if v =? 62 then 43 else 47).

Definition b64_val (c : ascii) : option Z :=
  let v := byte_val c in
  if (65 <=? v) && (v <=? 90) then Some (v - 65)
  else if (97 <=? v) && (v <=? 122) then Some (v - 71)
  else if (48 <=? v) && (v <=? 57) then Some (v + 4)
  else if v =? 43 then Some 62
  else if v =? 47 then Some 63
  else None.

Definition pad_char : ascii := byte_of 61.

(** Three bytes make four characters; [padded] fills the last group. *)
Fixpoint b64_encode (padded : bool) (l : list ascii) : list ascii :=
  match l with
  | a :: b :: c :: r =>
      b64_char (byte_val a / 4) :: b64_char (byte_val a mod 4 * 16 + byte_val b / 16)
      :: b64_char (byte_val b mod 16 * 4 + byte_val c / 64) :: b64_char (byte_val c mod 64)
      :: b64_encode padded r
  | [a; b] =>
      b64_char (byte_val a / 4) :: b64_char (byte_val a mod 4 * 16 + byte_val b / 16)
      :: b64_char (byte_val b mod 16 * 4) :: (if padded then [pad_char] else [])
  | [a] =>
      b64_char (byte_val a / 4) :: b64_char (byte_val a mod 4 * 16)
      :: (if padded then [pad_char; pad_char] else [])
  | [] => []
  end.

Definition b64_two (x y : Z) : ascii := byte_of (x * 4 + y / 16).
Definition b64_three (y z : Z) : ascii := byte_of (y mod 16 * 16 + z / 4).

Fixpoint b64_decode_groups (padded : bool) (l : list ascii) : option (list ascii) :=
  match l with
  | [] => Some []
  | a :: b :: c :: d :: r =>
      match b64_val a, b64_val b, b64_val c, b64_val d with
      | Some x, Some y, Some z, Some w =>
          match b64_decode_groups padded r with
          | Some t => Some (b64_two x y :: b64_three y z :: byte_of (z mod 4 * 64 + w) :: t)
          | None => None
          end
      | Some x, Some y, Some z, None =>
          if padded && Ascii.eqb d pad_char && match r with [] => true | _ => false end
          then Some [b64_two x y; b64_three y z] else None
      | Some x, Some y, None, _ =>
          if padded && Ascii.eqb c pad_char && Ascii.eqb d pad_char
             && match r with [] => true | _ => false end
          then Some [b64_two x y] else None
      | _, _, _, _ => None
      end
  | [a; b; c] =>
      match b64_val a, b64_val b, b64_val c with
      | Some x, Some y, Some z => if padded then None else Some [b64_two x y; b64_three y z]
      | _, _, _ => None
      end
  | [a; b] =>
      match b64_val a, b64_val b with
      | Some x, Some y => if padded then None else Some [b64_two x y]
      | _, _ => None
      end
  | [_] => None
  end.

Definition not_line_break (c : ascii) : bool := negb ((byte_val c =? 10) || (byte_val c =? 13)).

Definition b64_decode (padded : bool) (l : list ascii) : option (list ascii) :=
  b64_decode_groups padded (List.filter not_line_break l).

(** RFC 4648, section 10. *)
Example b64_foobar : of_bytes (b64_encode true (bytes_of "fooba")) = "Zm9vYmE="%string.
Proof. vm_compute. reflexivity. Qed.
Example b64_foob : b64_decode false (bytes_of "Zm9vYg") = Some (bytes_of "foob").
Proof. vm_compute. reflexivity. Qed.
Example b64_short : b64_decode true (bytes_of "Zm9vYg") = None.
Proof. vm_compute. reflexivity. Qed.

(** ** Round trip *)

Lemma b64_val_char v : 0 <= v < 64 -> b64_val (b64_char v) = Some v.
Proof.
  intros Hv. assert (forallb (fun v => bool_decide (b64_val (b64_char v) = Some v)) (seqZ 0 64) = true) as Hall
    by (vm_compute; reflexivity).
  rewrite forallb_forall in Hall. specialize (Hall v). apply bool_decide_eq_true in Hall; [done|].
  apply list_elem_of_In, elem_of_seqZ. lia.
Qed.

Lemma b64_char_plain v : 0 <= v < 64 -> not_line_break (b64_char v) = true.
Proof.
  intros Hv. assert (forallb (fun v => not_line_break (b64_char v)) (seqZ 0 64) = true) as Hall
    by (vm_compute; reflexivity).
  rewrite forallb_forall in Hall. apply Hall. apply list_elem_of_In, elem_of_seqZ. lia.
Qed.

(** The groups of the encoding, for an induction in steps of three. *)
Lemma triples_ind (P : list ascii -> Prop) :
  P [] -> (forall a, P [a]) -> (forall a b, P [a; b]) ->
  (forall a b c r, P r -> P (a :: b :: c :: r)) -> forall l, P l.
Proof.
  intros H0 H1 H2 H3. fix IH 1. intros [|a [|b [|c r]]]; [exact H0|apply H1|apply H2|apply H3, IH].
Qed.

Lemma sextets a b c :
  0 <= byte_val a / 4 < 64 /\ 0 <= byte_val a mod 4 * 16 < 64
  /\ 0 <= byte_val a mod 4 * 16 + byte_val b / 16 < 64
  /\ 0 <= byte_val b mod 16 * 4 < 64 /\ 0 <= byte_val b mod 16 * 4 + byte_val c / 64 < 64
  /\ 0 <= byte_val c mod 64 < 64.
Proof.
  pose proof (byte_val_range a). pose proof (byte_val_range b). pose proof (byte_val_range c).
  Z.to_euclidean_division_equations. lia.
Qed.

Lemma first_octet a y : 0 <= y < 16 -> b64_two (byte_val a / 4) (byte_val a mod 4 * 16 + y) = a.
Proof.
  intros Hy. unfold b64_two. rewrite <- (byte_of_val a) at 3. f_equal.
  pose proof (byte_val_range a). Z.to_euclidean_division_equations. lia.
Qed.

Lemma second_octet a b z : 0 <= z < 4 ->
  b64_three (byte_val a mod 4 * 16 + byte_val b / 16) (byte_val b mod 16 * 4 + z) = b.
Proof.
  intros Hz. unfold b64_three. rewrite <- (byte_of_val b) at 3. f_equal.
  pose proof (byte_val_range b). Z.to_euclidean_division_equations. lia.
Qed.

Lemma third_octet b c :
  byte_of ((byte_val b mod 16 * 4 + byte_val c / 64) mod 4 * 64 + byte_val c mod 64) = c.
Proof.
  rewrite <- (byte_of_val c) at 3. f_equal. pose proof (byte_val_range c).
  Z.to_euclidean_division_equations. lia.
Qed.

Lemma decode_groups_encode padded l : b64_decode_groups padded (b64_encode padded l) = Some l.
Proof.
  induction l as [|a|a b|a b c r IH] using triples_ind; [done| | |].
  - destruct (sextets a a a) as (H1 & H2 & _). pose proof (first_octet a 0 ltac:(lia)) as F.
    rewrite Z.add_0_r in F.
    destruct padded; cbn [b64_encode b64_decode_groups]; rewrite !b64_val_char by done;
      change (b64_val pad_char) with (@None Z); cbn; by rewrite F.
  - destruct (sextets a b a) as (H1 & _ & H2 & H3 & _).
    pose proof (second_octet a b 0 ltac:(lia)) as S. rewrite Z.add_0_r in S.
    pose proof (first_octet a (byte_val b / 16)) as F.
    assert (0 <= byte_val b / 16 < 16) as Hb
      by (pose proof (byte_val_range b); Z.to_euclidean_division_equations; lia).
    destruct padded; cbn [b64_encode b64_decode_groups]; rewrite !b64_val_char by done;
      change (b64_val pad_char) with (@None Z); cbn; by rewrite F, S.
  - destruct (sextets a b c) as (H1 & _ & H2 & _ & H3 & H4).
    assert (0 <= byte_val b / 16 < 16 /\ 0 <= byte_val c / 64 < 4) as [Hb Hc]
      by (pose proof (byte_val_range b); pose proof (byte_val_range c);
          Z.to_euclidean_division_equations; lia).
    cbn [b64_encode b64_decode_groups]. rewrite !b64_val_char by done.
    by rewrite IH, first_octet, second_octet, third_octet.
Qed.

Lemma b64_encode_plain padded l : List.filter not_line_break (b64_encode padded l) = b64_encode padded l.
Proof.
  induction l as [|a|a b|a b c r IH] using triples_ind; [done| | |];
    [destruct (sextets a a a) as (H1 & H2 & _)|destruct (sextets a b a) as (H1 & _ & H2 & H3 & _)
    |destruct (sextets a b c) as (H1 & _ & H2 & _ & H3 & H4)]; cbn [b64_encode List.filter];
    rewrite !b64_char_plain by done; [by destruct padded..|by rewrite IH].
Qed.

(** Decoding inverts encoding, with and without padding. *)
Lemma b64_decode_encode padded l : b64_decode padded (b64_encode padded l) = Some l.
Proof. unfold b64_decode. rewrite b64_encode_plain. apply decode_groups_encode. Qed.
