(* ===== verification/GoJson.v ===== *)
(** * JSON texts

    [json.Valid] of the Go standard library: the scanner's grammar, which accepts any
    bytes above the control characters inside a string and nests at most 10000
    deep. *)

From Stdlib Require Import ZArith Lia Ascii String.
From stdpp Require Import base list strings.
From S2P Require Import Prelude GoStrings.
#[local] Open Scope Z_scope.

Definition jbytes := list ascii.

Definition is_byte (v : Z) (c : ascii) : bool := byte_val c =? v.
Definition json_space (c : ascii) : bool :=
  is_byte 32 c || is_byte 9 c || is_byte 10 c || is_byte 13 c.
Definition json_digit (c : ascii) : bool := (48 <=? byte_val c) && (byte_val c <=? 57).
Definition json_hex (c : ascii) : bool :=
  json_digit c || ((65 <=? byte_val c) && (byte_val c <=? 70))
  || ((97 <=? byte_val c) && (byte_val c <=? 102)).

Fixpoint skip (p : ascii -> bool) (l : jbytes) : jbytes :=
  match l with
  | c :: r => if p c then skip p r else l
  | [] => []
  end.

(** What is left after a string whose opening quote was read. *)
Fixpoint json_string (l : jbytes) : option jbytes :=
  match l with
  | [] => None
  | c :: r =>
      if is_byte 34 c then Some r
      else if byte_val c <? 32 then None
      else if is_byte 92 c then
        match r with
        | e :: r1 =>
            if existsb (fun v => is_byte v e) [34; 92; 47; 98; 102; 110; 114; 116] then json_string r1
            else if is_byte 117 e then
              match r1 with
              | a :: b :: c :: d :: r2 =>
                  if json_hex a && json_hex b && json_hex c && json_hex d then json_string r2 else None
              | _ => None
              end
            else None
        | [] => None
        end
      else json_string r
  end.

(** One or more digits. *)
Definition json_digits (l : jbytes) : option jbytes :=
  match l with
  | c :: r => if json_digit c then Some (skip json_digit r) else None
  | [] => None
  end.

Definition json_exponent (l : jbytes) : option jbytes :=
  match l with
  | c :: r =>
      if is_byte 101 c || is_byte 69 c
      then json_digits (match r with s :: r' => if is_byte 43 s || is_byte 45 s then r' else r | [] => [] end)
      else Some l
  | [] => Some []
  end.

Definition json_fraction (l : jbytes) : option jbytes :=
  match l with
  | c :: r => if is_byte 46 c then match json_digits r with Some r' => json_exponent r' | None => None end
              else json_exponent l
  | [] => Some []
  end.

Definition json_number (l : jbytes) : option jbytes :=
  let l := match l with c :: r => if is_byte 45 c then r else l | [] => [] end in
  match l with
  | c :: r => if is_byte 48 c then json_fraction r
              else if json_digit c then json_fraction (skip json_digit r) else None
  | [] => None
  end.

Fixpoint json_literal (word l : jbytes) : option jbytes :=
  match word, l with
  | [], _ => Some l
  | w :: word, c :: l => if Ascii.eqb w c then json_literal word l else None
  | _, _ => None
  end.

Definition maxNestingDepth : nat := 10000.

(** A value, and the rest of an array or object whose bracket was read.  Every call
    but the one that opens an element or member reads a byte, so twice the length of
    the text is enough fuel. *)
Fixpoint json_value (fuel depth : nat) (l : jbytes) : option jbytes :=
  match fuel with
  | O => None
  | S fuel =>
      match skip json_space l with
      | [] => None
      | c :: r =>
          if is_byte 34 c then json_string r
          else if is_byte 123 c then
            match depth with
            | O => None
            | S depth =>
                match skip json_space r with
                | c' :: r' => if is_byte 125 c' then Some r' else json_members fuel depth r
                | [] => None
                end
            end
          else if is_byte 91 c then
            match depth with
            | O => None
            | S depth =>
                match skip json_space r with
                | c' :: r' => if is_byte 93 c' then Some r' else json_elements fuel depth r
                | [] => None
                end
            end
          else if is_byte 116 c then json_literal (bytes_of "rue") r
          else if is_byte 102 c then json_literal (bytes_of "alse") r
          else if is_byte 110 c then json_literal (bytes_of "ull") r
          else json_number (c :: r)
      end
  end
with json_members (fuel depth : nat) (l : jbytes) : option jbytes :=
  match fuel with
  | O => None
  | S fuel =>
      match skip json_space l with
      | c :: r =>
          if is_byte 34 c then
            match json_string r with
            | None => None
            | Some r1 =>
                match skip json_space r1 with
                | c1 :: r2 =>
                    if is_byte 58 c1 then
                      match json_value fuel depth r2 with
                      | None => None
                      | Some r3 =>
                          match skip json_space r3 with
                          | c3 :: r4 => if is_byte 44 c3 then json_members fuel depth r4
                                        else if is_byte 125 c3 then Some r4 else None
                          | [] => None
                          end
                      end
                    else None
                | [] => None
                end
            end
          else None
      | [] => None
      end
  end
with json_elements (fuel depth : nat) (l : jbytes) : option jbytes :=
  match fuel with
  | O => None
  | S fuel =>
      match json_value fuel depth l with
      | None => None
      | Some r =>
          match skip json_space r with
          | c :: r1 => if is_byte 44 c then json_elements fuel depth r1
                       else if is_byte 93 c then Some r1 else None
          | [] => None
          end
      end
  end.

Definition json_valid (s : string) : bool :=
  let l := bytes_of s in
  match json_value (2 * length l + 2) maxNestingDepth l with
  | Some r => match skip json_space r with [] => true | _ => false end
  | None => false
  end.

(** A text with every [q] replaced by a quote. *)
Definition quoted (s : string) : string :=
  of_bytes (map (fun c => if is_byte 113 c then byte_of 34 else c) (bytes_of s)).

Example json_valid_object :
  json_valid (quoted "{qokq:true, qnq:[1,-2.5e3,null,{}],qsq:qa\u00e9\nq}") = true.
Proof. vm_compute. reflexivity. Qed.
Example json_invalid_texts :
  map json_valid [""; "{"; "01"; "1."; "[1,]"; quoted "{qaq}"; quoted "q\xq"; "true false"; "[]]"]
  = replicate 9 false.
Proof. vm_compute. reflexivity. Qed.

(** ** The fuel is enough *)

Lemma skip_length p l : (length (skip p l) <= length l)%nat.
Proof. induction l as [|c l IH]; cbn; [lia|]. destruct (p c); cbn; lia. Qed.

Lemma json_string_length : forall l r, json_string l = Some r -> (length r < length l)%nat.
Proof.
  enough (forall n l r, (length l <= n)%nat -> json_string l = Some r -> (length r < length l)%nat) by eauto.
  induction n as [|n IH]; intros [|c l] r Hn; cbn [json_string length] in *; try done; [lia|].
  destruct (is_byte 34 c); [intros [= <-]; lia|]. destruct (byte_val c <? 32); [done|].
  destruct (is_byte 92 c); [|intros E%IH; lia].
  destruct l as [|e l]; [done|]. cbn [length] in *. destruct (existsb _ _); [intros E%IH; lia|].
  destruct (is_byte 117 e); [|done]. destruct l as [|a [|b [|c' [|d l]]]]; try done. cbn [length] in *.
  destruct (_ && _ && _ && _); [|done]. intros E%IH; lia.
Qed.

Lemma json_digits_length l r : json_digits l = Some r -> (length r < length l)%nat.
Proof.
  destruct l as [|c l]; cbn; [done|]. destruct (json_digit c); [|done]. intros [= <-].
  pose proof (skip_length json_digit l). lia.
Qed.

Lemma json_exponent_length l r : json_exponent l = Some r -> (length r <= length l)%nat.
Proof.
  destruct l as [|c l]; cbn [json_exponent]; [intros [= <-]; done|].
  destruct (_ || _); [|intros [= <-]; done]. intros E%json_digits_length.
  destruct l as [|s l]; cbn [length] in *; [lia|]. destruct (_ || _); cbn [length] in *; lia.
Qed.

Lemma json_fraction_length l r : json_fraction l = Some r -> (length r <= length l)%nat.
Proof.
  destruct l as [|c l]; cbn [json_fraction]; [intros [= <-]; done|].
  destruct (is_byte 46 c); [|apply json_exponent_length].
  destruct (json_digits l) as [r'|] eqn:E; [|done]. apply json_digits_length in E.
  intros E'%json_exponent_length. cbn. lia.
Qed.

Lemma json_number_length l r : json_number l = Some r -> (length r < length l)%nat.
Proof.
  unfold json_number. set (l' := match l with c :: r => if is_byte 45 c then r else l | [] => [] end).
  assert (length l' <= length l)%nat as Hl.
  { subst l'. destruct l as [|c l]; [done|]. destruct (is_byte 45 c); cbn; lia. }
  destruct l' as [|c l']; [done|]. cbn [length] in Hl.
  destruct (is_byte 48 c); [intros E%json_fraction_length; lia|].
  destruct (json_digit c); [|done]. intros E%json_fraction_length.
  pose proof (skip_length json_digit l'). lia.
Qed.

Lemma json_literal_length w l r : json_literal w l = Some r -> (length r <= length l)%nat.
Proof.
  revert l. induction w as [|c w IH]; intros [|d l]; cbn; try (intros [= <-]; cbn; lia).
  destruct (Ascii.eqb c d); [|done]. intros E%IH. lia.
Qed.

(** Split on the next byte of the text. *)
Ltac json_next l c r :=
  pose proof (skip_length json_space l);
  destruct (skip json_space l) as [|c r]; [done|]; cbn [length] in *.

Lemma json_shrinks fuel :
  (forall depth l r, json_value fuel depth l = Some r -> (length r < length l)%nat)
  /\ (forall depth l r, json_members fuel depth l = Some r -> (length r < length l)%nat)
  /\ (forall depth l r, json_elements fuel depth l = Some r -> (length r < length l)%nat).
Proof.
  induction fuel as [|fuel (IHv & IHm & IHe)]; [done|]. split_and!; intros depth l r;
    cbn [json_value json_members json_elements].
  - json_next l a l0. destruct (is_byte 34 a); [intros E%json_string_length; lia|].
    destruct (is_byte 123 a).
    { destruct depth; [done|]. json_next l0 b l1. destruct (is_byte 125 b); [intros [= <-]; lia|].
      intros E%IHm. lia. }
    destruct (is_byte 91 a).
    { destruct depth; [done|]. json_next l0 b l1. destruct (is_byte 93 b); [intros [= <-]; lia|].
      intros E%IHe. lia. }
    do 3 (destruct (is_byte _ a); [intros E%json_literal_length; lia|]).
    intros E%json_number_length. cbn [length] in E. lia.
  - json_next l a l0. destruct (is_byte 34 a); [|done].
    destruct (json_string l0) as [r1|] eqn:E1; [|done]. apply json_string_length in E1. json_next r1 b l1.
    destruct (is_byte 58 b); [|done]. destruct (json_value fuel depth l1) as [r3|] eqn:E3; [|done].
    apply IHv in E3. json_next r3 c l3. destruct (is_byte 44 c); [intros E%IHm; lia|].
    destruct (is_byte 125 c); [|done]. intros [= <-]. lia.
  - destruct (json_value fuel depth l) as [r1|] eqn:E1; [|done]. apply IHv in E1. json_next r1 a l1.
    destruct (is_byte 44 a); [intros E%IHe; lia|]. destruct (is_byte 93 a); [|done]. intros [= <-]. lia.
Qed.

(** More fuel than two per byte changes nothing. *)
Lemma json_fuel n : forall l, (length l <= n)%nat -> forall depth f1 f2,
  (2 * length l < f1 -> 2 * length l < f2 ->
   json_value f1 depth l = json_value f2 depth l /\ json_members f1 depth l = json_members f2 depth l)%nat
  /\ (2 * length l + 1 < f1 -> 2 * length l + 1 < f2 ->
      json_elements f1 depth l = json_elements f2 depth l)%nat.
Proof.
  induction n as [n IHn] using (well_founded_induction lt_wf). intros l Hn depth.
  assert (forall l', (length l' < length l)%nat -> forall depth f1 f2,
    (2 * length l' < f1 -> 2 * length l' < f2 ->
     json_value f1 depth l' = json_value f2 depth l' /\ json_members f1 depth l' = json_members f2 depth l')%nat
    /\ (2 * length l' + 1 < f1 -> 2 * length l' + 1 < f2 ->
        json_elements f1 depth l' = json_elements f2 depth l')%nat) as IH.
  { intros l' Hl. apply (IHn (length l')); lia. }
  clear IHn.
  assert (forall f1 f2, (2 * length l < f1)%nat -> (2 * length l < f2)%nat ->
    json_value f1 depth l = json_value f2 depth l) as Hv.
  { intros [|f1] [|f2] H1 H2; try lia. cbn [json_value]. pose proof (skip_length json_space l).
    destruct (skip json_space l) as [|c r] eqn:E; [done|]. cbn [length] in *.
    destruct (is_byte 34 c); [done|]. destruct (is_byte 123 c).
    { destruct depth as [|depth]; [done|]. destruct (skip json_space r); [done|]. destruct (is_byte _ _); [done|].
      apply (IH r); lia. }
    destruct (is_byte 91 c); [|done].
    destruct depth as [|depth]; [done|]. destruct (skip json_space r); [done|]. destruct (is_byte _ _); [done|].
    apply (IH r); lia. }
  intros f1 f2. split.
  - intros H1 H2. split; [auto|]. destruct f1 as [|f1]; [lia|]. destruct f2 as [|f2]; [lia|].
    cbn [json_members]. pose proof (skip_length json_space l). destruct (skip json_space l) as [|c r]; [done|].
    cbn [length] in *. destruct (is_byte 34 c); [|done].
    destruct (json_string r) as [r1|] eqn:E1; [|done]. apply json_string_length in E1.
    pose proof (skip_length json_space r1). destruct (skip json_space r1) as [|c1 r2]; [done|].
    cbn [length] in *. destruct (is_byte 58 c1); [|done].
    destruct (IH r2 ltac:(lia) depth f1 f2) as [Hr2 _]. destruct Hr2 as [-> _]; [lia..|].
    destruct (json_value f2 depth r2) as [r3|] eqn:E3; [|done]. apply (proj1 (json_shrinks f2)) in E3.
    pose proof (skip_length json_space r3). destruct (skip json_space r3) as [|c3 r4]; [done|].
    cbn [length] in *. destruct (is_byte 44 c3); [|done]. apply (IH r4); lia.
  - intros H1 H2. destruct f1 as [|f1]; [lia|]. destruct f2 as [|f2]; [lia|]. cbn [json_elements].
    rewrite (Hv f1 f2) by lia. destruct (json_value f2 depth l) as [r|] eqn:E; [|done].
    apply (proj1 (json_shrinks f2)) in E. pose proof (skip_length json_space r).
    destruct (skip json_space r) as [|c r1]; [done|]. cbn [length] in *.
    destruct (is_byte 44 c); [|done]. apply (IH r1); lia.
Qed.

(** The test does not depend on the fuel it is run with. *)
Lemma json_valid_fuel s fuel :
  (2 * length (bytes_of s) < fuel)%nat ->
  json_valid s = match json_value fuel maxNestingDepth (bytes_of s) with
                 | Some r => match skip json_space r with [] => true | _ => false end
                 | None => false
                 end.
Proof.
  intros Hf. unfold json_valid.
  destruct (json_fuel (length (bytes_of s)) (bytes_of s) ltac:(lia) maxNestingDepth
    (2 * length (bytes_of s) + 2) fuel) as [Hv _].
  destruct Hv as [-> _]; [lia..|]. done.
Qed.
