(* ===== verification/AgentState.v ===== *)
(** * The Agent's durable runtime state

    Data of src/internal/agent/runtime_state.go, control_mode.go,
    activity_ownership.go, activity_leases.go and agent.go: the records, the
    in-memory copy and the copy on disk, and [saveRuntimeStateLocked].

    Every handler that mutates the state ends in [saveRuntimeStateLocked], which
    writes a temporary file and renames it over runtime-state.json: it either
    replaces the whole file or returns an error and leaves the old one.  Whether
    the write succeeds is the environment's choice, so the handlers take it as an
    argument [sv : bool].  A process restart keeps only the disk copy. *)

From stdpp Require Import base list gmap strings.
From Stdlib Require Import ZArith Lia.
From S2P Require Import Prelude GoStrings.
#[local] Open Scope Z_scope.

Definition NodeModeManaged : string := "managed".
Definition NodeModeControllerUnreachable : string := "controller-unreachable".
Definition NodeModeIndependent : string := "independent".
Definition NodeModeIndependentDraining : string := "independent-draining".

(** ** Configuration (the fields the modelled handlers read) *)

Record AgentDisasterPolicy := {
  pol_UnreachableAfterSec : Z;
  pol_IndependentAfterSec : Z;
  pol_MinFailedHeartbeats : Z;
  pol_PeerWitnessURLs : list string;
}.

Record AgentConfig := {
  cfg_NodeID : Z;
  cfg_Role : string;
  cfg_AgentPSK : string;
  cfg_CredentialVersion : Z;
  cfg_ControllerGeneration : Z;
  cfg_Disaster : AgentDisasterPolicy;
}.

(** ** Activity ownership *)

Record activityOwnershipClaim := {
  cl_ClaimID : string;
  cl_Handle : string;
  cl_OwnerNodeID : Z;
  cl_ControllerGeneration : Z;
  cl_ActivityEpoch : Z;
  cl_TakeoverSequence : Z;
  cl_Kind : string;
  cl_ParentClaimID : string;
  cl_OperationID : string;
  cl_ObservedAt : Z;
}.

Record ownershipTakeoverOperation := {
  to_OperationID : string;
  to_ParentClaimID : string;
  to_Claim : activityOwnershipClaim;
  to_Succeeded : bool;
  to_Audited : bool;
  to_UpdatedAt : Z;
}.

(** ** Control mode *)

Record agentControlModeState := {
  cm_Mode : string;
  cm_AdapterMode : string;
  cm_AdapterControllerGeneration : Z;
  cm_ModeGeneration : Z;
  cm_ControllerGeneration : Z;
  cm_ReasonCode : string;
  cm_ConsecutiveHeartbeatFails : Z;
  cm_ConsecutiveHealthProbeFails : Z;
  cm_ConsecutivePeerWitnessFails : Z;
  cm_OutageStartedAt : time;
  cm_ConfirmedOutageStartedAt : time;
  cm_LastControllerSuccessAt : time;
  cm_IndependentSince : time;
  cm_ChangedAt : time;
  cm_ActiveIndependentSessions : Z;
  cm_PendingUserSyncs : Z;
}.

(** ** Credentials, transfers, cached results, confirmed leases *)

Record agentCredentialState := {
  cr_CurrentPSK : string;
  cr_CurrentVersion : Z;
  cr_CurrentGeneration : Z;
  cr_PendingPSK : string;
  cr_PendingVersion : Z;
  cr_PendingGeneration : Z;
  cr_PendingExpiresAt : time;
}.

Record SnapshotTransferReceipt := {
  rc_OK : bool;
  rc_SnapshotID : string;
  rc_ManifestSHA256 : string;
  rc_ArchiveSHA256 : string;
  rc_FileCount : Z;
  rc_TotalBytes : Z;
  rc_RelayPending : bool;
}.

Record pendingTransfer := {
  tr_WorkflowID : string;
  tr_SnapshotID : string;
  tr_GlobalUserID : Z;
  tr_TargetNodeID : Z;
  tr_Handle : string;
  tr_DestinationKind : string;
  tr_SourceNodeID : Z;
  tr_ActivityEpoch : Z;
  tr_CapabilityHash : string;
  tr_ExpiresAt : time;
  tr_RelayTaskID : string;
  tr_RelayPrivateKey : string;
  tr_RelayPublicKey : string;
  tr_State : string;
  tr_UpdatedAt : time;
  tr_Receipt : option SnapshotTransferReceipt;
}.

Record cachedCommandResult := {
  cc_Succeeded : bool;
  cc_Result : string;
  cc_ControllerGeneration : Z;
  cc_CompletedAt : time;
}.

Record ActivityLeaseConfirmation := {
  lc_Handle : string;
  lc_SessionID : string;
  lc_ActivityEpoch : Z;
  lc_ControllerGeneration : Z;
  lc_LeaseExpiresAt : Z;
}.

Record agentActivityLeaseState := {
  al_ControllerGeneration : Z;
  al_ConfirmedAt : Z;
  al_Leases : list ActivityLeaseConfirmation;
  al_AdapterConfirmedAt : Z;
}.

Record agentRuntimeState := {
  rs_WorkerID : string;
  rs_HighestGeneration : Z;
  rs_Completed : gmap string cachedCommandResult;
  rs_Transfers : gmap string pendingTransfer;
  rs_ControlMode : agentControlModeState;
  rs_Credential : agentCredentialState;
  rs_ActivityOwnership : gmap string activityOwnershipClaim;
  rs_OwnershipTakeovers : gmap string ownershipTakeoverOperation;
  rs_ActivityLeases : agentActivityLeaseState;
  rs_CancelledBackups : gmap Z time;
}.

(** The part of a local audit record the ownership code writes. *)
Record localAuditEvent := {
  au_Event : string;
  au_OperationID : string;
  au_ControllerGeneration : Z;
  au_Succeeded : option bool;
}.

(** ** The agent: configuration, memory, disk *)

Record Agent := {
  ag_Cfg : AgentConfig;
  ag_state : agentRuntimeState;
  ag_disk : option agentRuntimeState;
  ag_audit : list localAuditEvent;
  ag_witnessNonces : gmap string time;
  ag_witnessSecret : string;
}.

(** ** Field updates *)

Definition with_state (a : Agent) (s : agentRuntimeState) : Agent :=
  {| ag_Cfg := ag_Cfg a; ag_state := s; ag_disk := ag_disk a; ag_audit := ag_audit a;
     ag_witnessNonces := ag_witnessNonces a; ag_witnessSecret := ag_witnessSecret a |}.
Definition with_disk (a : Agent) (d : option agentRuntimeState) : Agent :=
  {| ag_Cfg := ag_Cfg a; ag_state := ag_state a; ag_disk := d; ag_audit := ag_audit a;
     ag_witnessNonces := ag_witnessNonces a; ag_witnessSecret := ag_witnessSecret a |}.
Definition with_audit (a : Agent) (l : list localAuditEvent) : Agent :=
  {| ag_Cfg := ag_Cfg a; ag_state := ag_state a; ag_disk := ag_disk a; ag_audit := l;
     ag_witnessNonces := ag_witnessNonces a; ag_witnessSecret := ag_witnessSecret a |}.
Definition with_nonces (a : Agent) (m : gmap string time) : Agent :=
  {| ag_Cfg := ag_Cfg a; ag_state := ag_state a; ag_disk := ag_disk a; ag_audit := ag_audit a;
     ag_witnessNonces := m; ag_witnessSecret := ag_witnessSecret a |}.
Definition with_cfg (a : Agent) (c : AgentConfig) : Agent :=
  {| ag_Cfg := c; ag_state := ag_state a; ag_disk := ag_disk a; ag_audit := ag_audit a;
     ag_witnessNonces := ag_witnessNonces a; ag_witnessSecret := ag_witnessSecret a |}.

Definition with_HighestGeneration (s : agentRuntimeState) (x : Z) : agentRuntimeState :=
  {| rs_WorkerID := rs_WorkerID s; rs_HighestGeneration := x; rs_Completed := rs_Completed s;
     rs_Transfers := rs_Transfers s; rs_ControlMode := rs_ControlMode s;
     rs_Credential := rs_Credential s; rs_ActivityOwnership := rs_ActivityOwnership s;
     rs_OwnershipTakeovers := rs_OwnershipTakeovers s; rs_ActivityLeases := rs_ActivityLeases s;
     rs_CancelledBackups := rs_CancelledBackups s |}.
Definition with_Completed (s : agentRuntimeState) (x : gmap string cachedCommandResult)
  : agentRuntimeState :=
  {| rs_WorkerID := rs_WorkerID s; rs_HighestGeneration := rs_HighestGeneration s;
     rs_Completed := x;
     rs_Transfers := rs_Transfers s; rs_ControlMode := rs_ControlMode s;
     rs_Credential := rs_Credential s; rs_ActivityOwnership := rs_ActivityOwnership s;
     rs_OwnershipTakeovers := rs_OwnershipTakeovers s; rs_ActivityLeases := rs_ActivityLeases s;
     rs_CancelledBackups := rs_CancelledBackups s |}.
Definition with_Transfers (s : agentRuntimeState) (x : gmap string pendingTransfer)
  : agentRuntimeState :=
  {| rs_WorkerID := rs_WorkerID s; rs_HighestGeneration := rs_HighestGeneration s;
     rs_Completed := rs_Completed s;
     rs_Transfers := x; rs_ControlMode := rs_ControlMode s;
     rs_Credential := rs_Credential s; rs_ActivityOwnership := rs_ActivityOwnership s;
     rs_OwnershipTakeovers := rs_OwnershipTakeovers s; rs_ActivityLeases := rs_ActivityLeases s;
     rs_CancelledBackups := rs_CancelledBackups s |}.
Definition with_ControlMode (s : agentRuntimeState) (x : agentControlModeState)
  : agentRuntimeState :=
  {| rs_WorkerID := rs_WorkerID s; rs_HighestGeneration := rs_HighestGeneration s;
     rs_Completed := rs_Completed s;
     rs_Transfers := rs_Transfers s; rs_ControlMode := x;
     rs_Credential := rs_Credential s; rs_ActivityOwnership := rs_ActivityOwnership s;
     rs_OwnershipTakeovers := rs_OwnershipTakeovers s; rs_ActivityLeases := rs_ActivityLeases s;
     rs_CancelledBackups := rs_CancelledBackups s |}.
Definition with_Credential (s : agentRuntimeState) (x : agentCredentialState)
  : agentRuntimeState :=
  {| rs_WorkerID := rs_WorkerID s; rs_HighestGeneration := rs_HighestGeneration s;
     rs_Completed := rs_Completed s;
     rs_Transfers := rs_Transfers s; rs_ControlMode := rs_ControlMode s;
     rs_Credential := x; rs_ActivityOwnership := rs_ActivityOwnership s;
     rs_OwnershipTakeovers := rs_OwnershipTakeovers s; rs_ActivityLeases := rs_ActivityLeases s;
     rs_CancelledBackups := rs_CancelledBackups s |}.
Definition with_ActivityOwnership (s : agentRuntimeState) (x : gmap string activityOwnershipClaim)
  : agentRuntimeState :=
  {| rs_WorkerID := rs_WorkerID s; rs_HighestGeneration := rs_HighestGeneration s;
     rs_Completed := rs_Completed s;
     rs_Transfers := rs_Transfers s; rs_ControlMode := rs_ControlMode s;
     rs_Credential := rs_Credential s; rs_ActivityOwnership := x;
     rs_OwnershipTakeovers := rs_OwnershipTakeovers s; rs_ActivityLeases := rs_ActivityLeases s;
     rs_CancelledBackups := rs_CancelledBackups s |}.
Definition with_OwnershipTakeovers (s : agentRuntimeState)
  (x : gmap string ownershipTakeoverOperation) : agentRuntimeState :=
  {| rs_WorkerID := rs_WorkerID s; rs_HighestGeneration := rs_HighestGeneration s;
     rs_Completed := rs_Completed s;
     rs_Transfers := rs_Transfers s; rs_ControlMode := rs_ControlMode s;
     rs_Credential := rs_Credential s; rs_ActivityOwnership := rs_ActivityOwnership s;
     rs_OwnershipTakeovers := x; rs_ActivityLeases := rs_ActivityLeases s;
     rs_CancelledBackups := rs_CancelledBackups s |}.
Definition with_ActivityLeases (s : agentRuntimeState) (x : agentActivityLeaseState)
  : agentRuntimeState :=
  {| rs_WorkerID := rs_WorkerID s; rs_HighestGeneration := rs_HighestGeneration s;
     rs_Completed := rs_Completed s;
     rs_Transfers := rs_Transfers s; rs_ControlMode := rs_ControlMode s;
     rs_Credential := rs_Credential s; rs_ActivityOwnership := rs_ActivityOwnership s;
     rs_OwnershipTakeovers := rs_OwnershipTakeovers s; rs_ActivityLeases := x;
     rs_CancelledBackups := rs_CancelledBackups s |}.
Definition with_CancelledBackups (s : agentRuntimeState) (x : gmap Z time) : agentRuntimeState :=
  {| rs_WorkerID := rs_WorkerID s; rs_HighestGeneration := rs_HighestGeneration s;
     rs_Completed := rs_Completed s;
     rs_Transfers := rs_Transfers s; rs_ControlMode := rs_ControlMode s;
     rs_Credential := rs_Credential s; rs_ActivityOwnership := rs_ActivityOwnership s;
     rs_OwnershipTakeovers := rs_OwnershipTakeovers s; rs_ActivityLeases := rs_ActivityLeases s;
     rs_CancelledBackups := x |}.

(** ** Persistence *)

(** [saveRuntimeStateLocked]: marshal the state, write and sync a temporary
    file, rename it.  [sv = false] is any failure before the rename. *)
Definition saveRuntimeStateLocked (sv : bool) (a : Agent) : result unit * Agent :=
  if sv then (Ok tt, with_disk a (Some (ag_state a))) else (Fail "save runtime state", a).

(** What is left of the agent when the process dies: the disk copy. *)
Definition restart (a : Agent) (fresh : agentRuntimeState) : Agent :=
  with_nonces (with_state a (default fresh (ag_disk a))) ∅.

Lemma save_state (sv : bool) (a : Agent) : ag_state (snd (saveRuntimeStateLocked sv a)) = ag_state a.
Proof. by destruct sv. Qed.

Lemma save_cfg (sv : bool) (a : Agent) : ag_Cfg (snd (saveRuntimeStateLocked sv a)) = ag_Cfg a.
Proof. by destruct sv. Qed.

(** ** A concrete agent, used by the witnesses *)

Definition initial_control_mode : agentControlModeState :=
  {| cm_Mode := NodeModeManaged; cm_AdapterMode := NodeModeManaged;
     cm_AdapterControllerGeneration := 0; cm_ModeGeneration := 1; cm_ControllerGeneration := 0;
     cm_ReasonCode := ""; cm_ConsecutiveHeartbeatFails := 0; cm_ConsecutiveHealthProbeFails := 0;
     cm_ConsecutivePeerWitnessFails := 0; cm_OutageStartedAt := 0; cm_ConfirmedOutageStartedAt := 0;
     cm_LastControllerSuccessAt := 0; cm_IndependentSince := 0; cm_ChangedAt := 0;
     cm_ActiveIndependentSessions := 0; cm_PendingUserSyncs := 0 |}.

Definition initial_runtime_state : agentRuntimeState :=
  {| rs_WorkerID := "worker"; rs_HighestGeneration := 1; rs_Completed := ∅; rs_Transfers := ∅;
     rs_ControlMode := initial_control_mode;
     rs_Credential := {| cr_CurrentPSK := "psk"; cr_CurrentVersion := 1; cr_CurrentGeneration := 1;
                         cr_PendingPSK := ""; cr_PendingVersion := 0; cr_PendingGeneration := 0;
                         cr_PendingExpiresAt := 0 |};
     rs_ActivityOwnership := ∅; rs_OwnershipTakeovers := ∅;
     rs_ActivityLeases := {| al_ControllerGeneration := 0; al_ConfirmedAt := 0; al_Leases := [];
                             al_AdapterConfirmedAt := 0 |};
     rs_CancelledBackups := ∅ |}.

Definition demo_agent (id : Z) (urls : list string) : Agent :=
  {| ag_Cfg := {| cfg_NodeID := id; cfg_Role := "compute"; cfg_AgentPSK := "psk";
                  cfg_CredentialVersion := 1; cfg_ControllerGeneration := 1;
                  cfg_Disaster := {| pol_UnreachableAfterSec := 45; pol_IndependentAfterSec := 900;
                                     pol_MinFailedHeartbeats := 4; pol_PeerWitnessURLs := urls |} |};
     ag_state := initial_runtime_state; ag_disk := Some initial_runtime_state; ag_audit := [];
     ag_witnessNonces := ∅; ag_witnessSecret := "0123456789abcdef0123456789abcdef" |}.
