(* ===== verification/Protocol.v ===== *)
(** * Signed control-channel requests

    src/internal/protocol/protocol.go, "HMAC signature" part: the canonical
    string, [Sign], the headers [SignRequest] sets and [VerifyRequest].
    HMAC-SHA256 (RFC 2104) is built on the executable [sha256].  An HTTP request
    is represented by what these functions read: method, decoded URL path, the
    four headers (an absent header reads as the empty string) and the body. *)

From Stdlib Require Import ZArith Lia Ascii String.
From stdpp Require Import base list strings pretty.
From S2P Require Import Prelude GoStrings Sha256.
#[local] Open Scope Z_scope.

Definition MaxClockSkew : duration := 60 * Second.
Definition nl : ascii := byte_of 10.
Definition newline : string := String nl EmptyString.

(** ** HMAC-SHA256 *)

Definition xor_pad (pad : Z) (key : list Z) : list Z :=
  map (fun k => Z.lxor k pad) (key ++ replicate (64 - length key) 0).

Definition hmac_sha256 (key msg : string) : string :=
  let k0 := if 64 <? slen key then sha256 key else key in
  let k := map byte_val (bytes_of k0) in
  let inner := sha256 (of_bytes (map byte_of (xor_pad 54 k)) +:+ msg) in
  sha256 (of_bytes (map byte_of (xor_pad 92 k)) +:+ inner).

(** RFC 4231, test case 2. *)
Example hmac_rfc4231 : hex_encode (hmac_sha256 "Jefe" "what do ya want for nothing?")
  = "5bdcc146bf60754e6a042426089575c75a003f089d2739839dec58b964ec3843"%string.
Proof. vm_compute. reflexivity. Qed.

(** ** Decimal integers *)

Definition digit_val (c : ascii) : option Z :=
  if (48 <=? byte_val c) && (byte_val c <=? 57) then Some (byte_val c - 48) else None.

Fixpoint digits_val (acc : Z) (l : list ascii) : option Z :=
  match l with
  | [] => Some acc
  | c :: l => match digit_val c with Some d => digits_val (10 * acc + d) l | None => None end
  end.

(** [strconv.ParseInt(s, 10, 64)]. *)
Definition parse_int64 (s : string) : option Z :=
  let parse l := match l with [] => None | _ :: _ => digits_val 0 l end in
  let v := match bytes_of s with
           | c :: l => if Ascii.eqb c (byte_of 45) then Z.opp <$> parse l
                       else if Ascii.eqb c (byte_of 43) then parse l
                       else parse (c :: l)
           | [] => None
           end in
  match v with
  | Some z => if (MinInt64 <=? z) && (z <=? MaxInt64) then Some z else None
  | None => None
  end.

(** ** Requests *)

Record httpRequest := {
  rq_Method : string;
  rq_Path : string;
  rq_AgentID : string;
  rq_Timestamp : string;
  rq_Nonce : string;
  rq_Signature : string;
  rq_Body : string;
}.

Definition bodyHash (body : string) : string := sha256_hex body.

Definition canonicalString (method path timestamp nonce body : string) : string :=
  method +:+ newline +:+ path +:+ newline +:+ timestamp +:+ newline +:+ nonce +:+ newline
  +:+ bodyHash body.

Definition Sign (psk method path timestamp nonce body : string) : string :=
  hex_encode (hmac_sha256 psk (canonicalString method path timestamp nonce body)).

(** [SignRequest] with the clock reading (Unix seconds) and the sixteen random
    bytes of [randomNonce] made explicit. *)
Definition SignRequest (req : httpRequest) (agentID : Z) (psk : string)
  (unix_now : Z) (random16 : string) : httpRequest :=
  let ts := pretty unix_now in
  let nonce := hex_encode random16 in
  {| rq_Method := rq_Method req; rq_Path := rq_Path req;
     rq_AgentID := pretty agentID; rq_Timestamp := ts; rq_Nonce := nonce;
     rq_Signature := Sign psk (rq_Method req) (rq_Path req) ts nonce (rq_Body req);
     rq_Body := rq_Body req |}.

Definition VerifyRequest (r : httpRequest) (psk : string) (now : time) : result unit :=
  let ts := rq_Timestamp r in
  let nonce := rq_Nonce r in
  let sig := rq_Signature r in
  if String.eqb ts "" || String.eqb nonce "" || String.eqb sig "" then
    Fail "missing signature headers"
  else if negb (match hex_decode nonce with Some b => slen b =? 16 | None => false end) then
    Fail "invalid nonce"
  else match parse_int64 ts with
  | None => Fail "invalid timestamp"
  | Some tsInt =>
      let d := time_sub now (of_unix tsInt) in
      if (MaxClockSkew <? d) || (d <? - MaxClockSkew) then Fail "timestamp out of range"
      else if negb (String.eqb (Sign psk (rq_Method r) (rq_Path r) ts nonce (rq_Body r)) sig) then
        Fail "signature mismatch"
      else Ok tt
  end.

(** ** Lemmas *)

Lemma bytes_of_app (s t : string) : bytes_of (s +:+ t) = bytes_of s ++ bytes_of t.
Proof.
  induction s as [|c s IH]; [done|].
  change (bytes_of (String c s +:+ t)) with (c :: bytes_of (s +:+ t)). by rewrite IH.
Qed.

Lemma bytes_of_newline : bytes_of newline = [nl].
Proof. reflexivity. Qed.

Definition no_newline (s : string) : Prop := nl ∉ bytes_of s.

Lemma canonical_bytes m p t n b :
  bytes_of (canonicalString m p t n b)
  = bytes_of m ++ nl :: (bytes_of p ++ nl :: (bytes_of t ++ nl :: (bytes_of n ++ nl ::
      bytes_of (bodyHash b)))).
Proof. unfold canonicalString. by rewrite !bytes_of_app, !bytes_of_newline. Qed.

Lemma bodyHash_length (b : string) : length (bytes_of (bodyHash b)) = 64%nat.
Proof.
  unfold bodyHash, sha256_hex, hex_encode. rewrite bytes_of_bytes.
  assert (H : length (bytes_of (sha256 b)) = 32%nat).
  { pose proof (sha256_length b) as H. rewrite slen_bytes_of in H. lia. }
  revert H. generalize (bytes_of (sha256 b)) as l. intros l Hl.
  rewrite (flat_map_constant_length (c := 2%nat)), Hl; done.
Qed.

(** The canonical string determines every signed part when the method, the
    timestamp and the nonce contain no newline; the path may contain one. *)
Lemma canonical_parts m p t n b m' p' t' n' b' :
  no_newline m -> no_newline m' -> no_newline t -> no_newline t' ->
  no_newline n -> no_newline n' ->
  canonicalString m p t n b = canonicalString m' p' t' n' b' ->
  m = m' /\ p = p' /\ t = t' /\ n = n' /\ bodyHash b = bodyHash b'.
Proof.
  intros Hm Hm' Ht Ht' Hn Hn' E. apply (f_equal bytes_of) in E. rewrite !canonical_bytes in E.
  apply app_sep_inj_l in E as [E1 E]; [|done..].
  assert (forall p t n h : list ascii, p ++ nl :: (t ++ nl :: (n ++ nl :: h))
            = ((p ++ nl :: t) ++ nl :: n) ++ nl :: h) as Hassoc.
  { intros. by rewrite <- !(assoc_L (++)). }
  rewrite !Hassoc in E. apply app_inj_2 in E as [E Eh]; [|cbn [length]; by rewrite !bodyHash_length].
  apply (f_equal tail) in Eh. cbn [tail] in Eh. apply app_sep_inj_r in E as [E En]; [|done..].
  apply app_sep_inj_r in E as [Ep Et]; [|done..].
  split_and!; apply bytes_of_inj; assumption.
Qed.

(** ** Decimal round trip *)

Definition is_digit (c : ascii) : Prop := 48 <= byte_val c <= 57.

Lemma pretty_char_digit (x : N) : (x < 10)%N ->
  byte_val (pretty_N_char x) = 48 + Z.of_N x.
Proof.
  intros H. assert (x = 0 \/ x = 1 \/ x = 2 \/ x = 3 \/ x = 4 \/ x = 5 \/ x = 6 \/ x = 7
    \/ x = 8 \/ x = 9)%N as Hx by lia.
  repeat (destruct Hx as [->|Hx]; [reflexivity|]). by subst.
Qed.

Lemma pretty_go_digits (x : N) : forall s,
  digits_val 0 (bytes_of (pretty_N_go x s)) = digits_val (Z.of_N x) (bytes_of s) /\
  (Forall is_digit (bytes_of s) -> Forall is_digit (bytes_of (pretty_N_go x s))) /\
  (x <> 0%N -> bytes_of (pretty_N_go x s) <> []) /\
  (bytes_of s <> [] -> bytes_of (pretty_N_go x s) <> []).
Proof.
  induction (N.lt_wf_0 x) as [x _ IH]; intros s.
  destruct (decide (x = 0)%N) as [->|Hx]; [by rewrite pretty_N_go_0|].
  rewrite pretty_N_go_step by lia.
  pose proof (N.mod_lt x 10 ltac:(done)) as Hm.
  pose proof (pretty_char_digit _ Hm) as Hc.
  destruct (IH (x `div` 10)%N (N.div_lt x 10 ltac:(lia) ltac:(lia))
    (String (pretty_N_char (x `mod` 10)) s)) as (Hv & Hd & _ & Hne).
  assert (bytes_of (String (pretty_N_char (x `mod` 10)) s)
    = pretty_N_char (x `mod` 10) :: bytes_of s) as Hb by done.
  rewrite Hb in Hv, Hd, Hne. clear Hb IH. split_and!.
  - rewrite Hv. cbn [digits_val]. unfold digit_val. rewrite Hc.
    pose proof (N.div_mod x 10 ltac:(done)) as Hdm.
    generalize dependent (x `mod` 10)%N. intros r **.
    rewrite (proj2 (Z.leb_le 48 (48 + Z.of_N r))), (proj2 (Z.leb_le (48 + Z.of_N r) 57)) by lia.
    cbn [andb]. f_equal. lia.
  - intros Hs. apply Hd. constructor; [|done]. unfold is_digit. rewrite Hc.
    clear -Hm. generalize dependent (x `mod` 10)%N. lia.
  - intros _. by apply Hne.
  - intros _. by apply Hne.
Qed.

Lemma pretty_N_digits (x : N) :
  digits_val 0 (bytes_of (pretty x)) = Some (Z.of_N x) /\
  Forall is_digit (bytes_of (pretty x)) /\ bytes_of (pretty x) <> [].
Proof.
  unfold pretty, pretty_N. case_decide as Hx.
  - subst. split; [done|]. split; [|done]. repeat constructor; compute; congruence.
  - destruct (pretty_go_digits x "") as (Hv & Hd & Hne & _).
    rewrite Hv. split; [done|]. split; [by apply Hd; constructor|]. by apply Hne.
Qed.

Lemma digit_not (c d : ascii) : is_digit c -> byte_val d < 48 -> Ascii.eqb c d = false.
Proof. intros Hc Hd. apply Ascii.eqb_neq. intros ->. unfold is_digit in Hc. lia. Qed.

Lemma parse_pretty (z : Z) : int64 z -> parse_int64 (pretty z) = Some z.
Proof.
  intros Hz. unfold parse_int64.
  assert (forall x : N, exists c l, bytes_of (pretty x) = c :: l /\ is_digit c /\
            digits_val 0 (c :: l) = Some (Z.of_N x)) as Hx.
  { intros x. destruct (pretty_N_digits x) as (Hv & Hd & Hne).
    destruct (bytes_of (pretty x)) as [|c l] eqn:E; [done|].
    exists c, l. by inversion Hd. }
  assert (Hr : (MinInt64 <=? z) && (z <=? MaxInt64) = true).
  { apply andb_true_iff; split; apply Z.leb_le; apply Hz. }
  destruct z as [|p|p].
  - reflexivity.
  - destruct (Hx (Npos p)) as (c & l & E & Hc & Hv).
    replace (bytes_of (pretty (Z.pos p))) with (c :: l) by (symmetry; exact E).
    rewrite !digit_not by (done || (compute; congruence)).
    rewrite Hv. cbn [Z.of_N]. by rewrite Hr.
  - destruct (Hx (Npos p)) as (c & l & E & Hc & Hv).
    replace (bytes_of (pretty (Z.neg p))) with (byte_of 45 :: c :: l).
    2: { symmetry. change (pretty (Z.neg p)) with (String (byte_of 45) (pretty (Npos p))).
         change (bytes_of (String ?c ?s)) with (c :: bytes_of s). by rewrite E. }
    rewrite Ascii.eqb_refl, Hv.
    change (Z.opp <$> Some (Z.of_N (N.pos p))) with (Some (Z.neg p)). cbv beta iota. by rewrite Hr.
Qed.

Lemma hex_digit_not_nl (v : Z) : 0 <= v < 16 -> hex_digit v <> nl.
Proof.
  intros H E. apply (f_equal byte_val) in E. unfold hex_digit in E.
  change (byte_val nl) with 10 in E.
  destruct (v <? 10) eqn:Hv; b2p; rewrite byte_val_of in E; lia.
Qed.

Lemma hex_encode_no_newline (s : string) : no_newline (hex_encode s).
Proof.
  unfold no_newline, hex_encode. rewrite bytes_of_bytes.
  induction (bytes_of s) as [|c l IH]; [apply not_elem_of_nil|].
  pose proof (byte_val_range c).
  assert (0 <= byte_val c / 16 < 16).
  { split; [apply Z.div_pos; lia | apply Z.div_lt_upper_bound; lia]. }
  pose proof (Z.mod_pos_bound (byte_val c) 16 ltac:(lia)).
  cbn [flat_map app]. rewrite !not_elem_of_cons. repeat split; [..|exact IH];
    intros E; symmetry in E; revert E; by apply hex_digit_not_nl.
Qed.

Lemma digits_no_nl (l : list ascii) : forall acc z, digits_val acc l = Some z -> nl ∉ l.
Proof.
  induction l as [|c l IH]; intros acc z H; [apply not_elem_of_nil|].
  cbn in H. destruct (digit_val c) as [d|] eqn:E; [|done].
  rewrite not_elem_of_cons. split; [intros <-; by vm_compute in E|]. by eapply IH.
Qed.

Lemma parse_int64_no_newline (s : string) (z : Z) : parse_int64 s = Some z -> no_newline s.
Proof.
  unfold parse_int64, no_newline. intros H.
  destruct (bytes_of s) as [|c l]; [apply not_elem_of_nil|].
  rewrite not_elem_of_cons.
  destruct (Ascii.eqb_spec c (byte_of 45)) as [->|].
  { destruct l as [|d l]; [done|].
    destruct (digits_val 0 (d :: l)) eqn:E; [|done]. split; [by compute|]. by eapply digits_no_nl. }
  destruct (Ascii.eqb_spec c (byte_of 43)) as [->|].
  { destruct l as [|d l]; [done|].
    destruct (digits_val 0 (d :: l)) eqn:E; [|done]. split; [by compute|]. by eapply digits_no_nl. }
  destruct (digits_val 0 (c :: l)) eqn:E; [|done].
  apply digits_no_nl in E. by rewrite not_elem_of_cons in E.
Qed.

Lemma hex_decode_no_nl (n : nat) : forall l d,
  (length l <= n)%nat -> hex_decode_bytes l = Some d -> nl ∉ l.
Proof.
  assert (hex_val nl = None) as Hnl by reflexivity.
  induction n as [|n IH]; intros [|a [|b l]] d Hl H; cbn in H, Hl; try apply not_elem_of_nil;
    try done; try lia.
  destruct (hex_val a) eqn:Ea; [|done]. destruct (hex_val b) eqn:Eb; [|done].
  destruct (hex_decode_bytes l) eqn:El; [|done].
  rewrite !not_elem_of_cons. split_and!; [congruence..|]. eapply IH; [|exact El]. lia.
Qed.

Lemma hex_decode_no_newline (s d : string) : hex_decode s = Some d -> no_newline s.
Proof.
  unfold hex_decode. destruct (hex_decode_bytes (bytes_of s)) eqn:E; [|done].
  intros _. by eapply hex_decode_no_nl.
Qed.

(** What a passed verification tells about the request. *)
Lemma VerifyRequest_ok (r : httpRequest) (psk : string) (now : time) :
  VerifyRequest r psk now = Ok tt ->
  (exists ts, parse_int64 (rq_Timestamp r) = Some ts /\
     - MaxClockSkew <= time_sub now (of_unix ts) <= MaxClockSkew) /\
  (exists b, hex_decode (rq_Nonce r) = Some b /\ slen b = 16) /\
  rq_Signature r = Sign psk (rq_Method r) (rq_Path r) (rq_Timestamp r) (rq_Nonce r) (rq_Body r).
Proof.
  unfold VerifyRequest. intros H.
  destruct (_ || _ || _); [done|].
  destruct (hex_decode (rq_Nonce r)) as [b|]; [|done].
  destruct (slen b =? 16) eqn:Hb; [|done]. cbn [negb] in H.
  destruct (parse_int64 (rq_Timestamp r)) as [ts|]; [|done].
  destruct (_ || _) eqn:Hd in H; [done|].
  destruct (String.eqb _ _) eqn:Hs in H; [|done].
  b2p. split_and!; [exists ts; split; [done|lia]|by exists b|done].
Qed.

(** ** Properties *)

(** A request signed by [SignRequest] passes [VerifyRequest] under the same
    pre-shared key at every receiver whose clock is within 60 seconds of the
    sender's, whatever the method, path and body. *)
Theorem sign_verify_roundtrip (req : httpRequest) (agentID unix_now : Z) (psk random16 : string)
  (now : time)
  (Hrandom : slen random16 = 16)
  (Hclock : int64 unix_now)
  (Hskew : - MaxClockSkew <= time_sub now (of_unix unix_now) <= MaxClockSkew) :
  VerifyRequest (SignRequest req agentID psk unix_now random16) psk now = Ok tt.
Proof.
  unfold VerifyRequest, SignRequest.
  cbn [rq_Timestamp rq_Nonce rq_Signature rq_Method rq_Path rq_Body].
  rewrite hex_decode_encode, Hrandom, parse_pretty by done.
  destruct (String.eqb_spec (pretty unix_now) "") as [E|_].
  { exfalso. pose proof (parse_pretty unix_now Hclock) as H. by rewrite E in H. }
  destruct (String.eqb_spec (hex_encode random16) "") as [E|_].
  { exfalso. pose proof (hex_decode_encode random16) as H. rewrite E in H.
    cbn in H. injection H as <-. by vm_compute in Hrandom. }
  destruct (String.eqb_spec (Sign psk (rq_Method req) (rq_Path req) (pretty unix_now)
    (hex_encode random16) (rq_Body req)) "") as [E|_].
  { exfalso. unfold Sign in E. apply (f_equal hex_decode) in E. rewrite hex_decode_encode in E.
    apply (inj Some) in E. apply (f_equal slen) in E. unfold hmac_sha256 in E.
    by rewrite sha256_length in E. }
  cbn [orb negb]. change (16 =? 16) with true. cbn [negb].
  rewrite (proj2 (Z.ltb_ge _ _)), (proj2 (Z.ltb_ge _ _)) by lia. cbn [orb].
  by rewrite String.eqb_refl.
Qed.

(** A signature binds the whole request.  If two requests pass verification
    under one key with the same signature, and HMAC-SHA256 does not collide on
    their two canonical strings, they agree on method, path, timestamp, nonce
    and body hash: no part can be moved between fields.  HTTP methods contain no
    newline; the path is unrestricted. *)
Theorem signature_binds_request (r r' : httpRequest) (psk : string) (now now' : time)
  (Hok : VerifyRequest r psk now = Ok tt)
  (Hok' : VerifyRequest r' psk now' = Ok tt)
  (Hm : no_newline (rq_Method r)) (Hm' : no_newline (rq_Method r'))
  (Hsig : rq_Signature r = rq_Signature r')
  (Hnocoll :
     let c := canonicalString (rq_Method r) (rq_Path r) (rq_Timestamp r) (rq_Nonce r) (rq_Body r) in
     let c' := canonicalString (rq_Method r') (rq_Path r') (rq_Timestamp r') (rq_Nonce r')
                 (rq_Body r') in
     hmac_sha256 psk c = hmac_sha256 psk c' -> c = c') :
  rq_Method r = rq_Method r' /\ rq_Path r = rq_Path r' /\ rq_Timestamp r = rq_Timestamp r' /\
  rq_Nonce r = rq_Nonce r' /\ bodyHash (rq_Body r) = bodyHash (rq_Body r').
Proof.
  apply VerifyRequest_ok in Hok as ((ts & Hts & _) & (b & Hb & _) & Es).
  apply VerifyRequest_ok in Hok' as ((ts' & Hts' & _) & (b' & Hb' & _) & Es').
  rewrite Es, Es' in Hsig. unfold Sign in Hsig. apply (f_equal hex_decode) in Hsig.
  rewrite !hex_decode_encode in Hsig. apply (inj Some) in Hsig. apply Hnocoll in Hsig.
  apply canonical_parts in Hsig; eauto using parse_int64_no_newline, hex_decode_no_newline.
Qed.

Definition demo_request : httpRequest :=
  {| rq_Method := "POST"; rq_Path := "/api/agent/heartbeat"; rq_AgentID := ""; rq_Timestamp := "";
     rq_Nonce := ""; rq_Signature := ""; rq_Body := "{}" |}.

Lemma sign_verify_roundtrip_witness :
  VerifyRequest (SignRequest demo_request 7 "psk" 1700000000 "0123456789abcdef") "psk"
    (of_unix 1700000042) = Ok tt.
Proof.
  apply (sign_verify_roundtrip demo_request 7 1700000000 "psk" "0123456789abcdef"
    (of_unix 1700000042)); [reflexivity| |]; vm_compute; split; congruence.
Defined.

(** The agent identity header is not part of the signed string: the second
    request differs from the first in it and still verifies. *)
Definition demo_signed : httpRequest :=
  SignRequest demo_request 7 "psk" 1700000000 "0123456789abcdef".
Definition demo_relabelled : httpRequest :=
  {| rq_Method := rq_Method demo_signed; rq_Path := rq_Path demo_signed; rq_AgentID := "9";
     rq_Timestamp := rq_Timestamp demo_signed; rq_Nonce := rq_Nonce demo_signed;
     rq_Signature := rq_Signature demo_signed; rq_Body := rq_Body demo_signed |}.

Lemma demo_verifies :
  VerifyRequest demo_signed "psk" (of_unix 1700000042) = Ok tt /\
  VerifyRequest demo_relabelled "psk" (of_unix 1700000042) = Ok tt /\
  forallb (fun c => negb (Ascii.eqb nl c)) (bytes_of "POST") = true.
Proof. vm_compute. auto. Qed.

Lemma forallb_no_newline (s : string) :
  forallb (fun c => negb (Ascii.eqb nl c)) (bytes_of s) = true -> no_newline s.
Proof.
  unfold no_newline. intros H Hin. rewrite forallb_forall in H.
  apply list_elem_of_In in Hin. specialize (H _ Hin). by rewrite Ascii.eqb_refl in H.
Qed.

Lemma signature_binds_request_witness :
  rq_Method demo_signed = rq_Method demo_relabelled /\ rq_Path demo_signed = rq_Path demo_relabelled /\
  rq_Timestamp demo_signed = rq_Timestamp demo_relabelled /\
  rq_Nonce demo_signed = rq_Nonce demo_relabelled /\
  bodyHash (rq_Body demo_signed) = bodyHash (rq_Body demo_relabelled).
Proof.
  destruct demo_verifies as (H1 & H2 & H3).
  apply (signature_binds_request demo_signed demo_relabelled "psk" _ _ H1 H2).
  - exact (forallb_no_newline "POST" H3).
  - exact (forallb_no_newline "POST" H3).
  - exact (eq_refl (rq_Signature demo_signed)).
  - intros c c' _. exact (eq_refl c).
Defined.
