(* ===== verification/RelayCrypto.v ===== *)
(** * Relay encryption

    src/internal/crypto/relay.go: a snapshot that travels through the Controller's
    relay is split into frames of one mebibyte, each sealed under a key both nodes
    derive, with its number, length and kind authenticated, and a final empty frame.

    X25519, AES-256-GCM and HKDF are the operations of a class, with what
    the code relies on as its laws.  Readers are byte strings that end with EOF or
    an error; writers take a bounded number of bytes per call and may run out of
    room; a context is asked before every frame. *)

From Stdlib Require Import ZArith Lia Ascii String.
From stdpp Require Import base list strings.
From S2P Require Import Prelude GoStrings Sha256 Protocol Base64.
#[local] Open Scope Z_scope.

Notation bytes := (list ascii).

(** X25519 keys are their 32 bytes; HKDF with SHA-256 gives the frame key; AES-GCM
    seals and opens under a key, a nonce and additional data. *)
Class RelayPrimitives := {
  x25519_public : bytes -> bytes;
  x25519_ecdh : bytes -> bytes -> option bytes;
  hkdf_sha256 : bytes -> bytes -> bytes -> option bytes;
  gcm_seal : bytes -> bytes -> bytes -> bytes -> bytes;
  gcm_open : bytes -> bytes -> bytes -> bytes -> option bytes
}.

(** The documented behaviour: opening inverts sealing, the tag has sixteen bytes,
    both ends of a key agreement get the same secret, public keys have 32 bytes. *)
Class RelayLaws `{RelayPrimitives} := {
  gcm_open_seal k n p a : gcm_open k n (gcm_seal k n p a) a = Some p;
  gcm_seal_length k n p a : length (gcm_seal k n p a) = (length p + 16)%nat;
  x25519_agree a b : x25519_ecdh a (x25519_public b) = x25519_ecdh b (x25519_public a);
  x25519_public_length a : length (x25519_public a) = 32%nat
}.

Definition relayFramePlaintextBytes : Z := 2 ^ 20.
Definition relayHeaderBytes : Z := 8 + 32 + 12.
Definition relayFrameHeaderBytes : Z := 5.
Definition relayFinalFlag : Z := 1.
Definition gcmOverhead : Z := 16.
Definition relayMagic : bytes := bytes_of "STCRLY1" ++ [byte_of 0].

Record RelayCipherContext := {
  rc_TaskID : string;
  rc_WorkflowID : string;
  rc_SnapshotID : string
}.

Definition relayContextPart (value : string) : bool := validUUID value.

Definition validRelayCipherContext (value : RelayCipherContext) : bool :=
  relayContextPart (rc_TaskID value) && relayContextPart (rc_WorkflowID value)
  && relayContextPart (rc_SnapshotID value).

(** ** Sizes *)

Definition RelayCiphertextSize (plaintextBytes : Z) : result Z :=
  if plaintextBytes <=? 0 then Fail "relay plaintext size must be positive"
  else
    let frames := Z.quot (wrap64 (wrap64 (plaintextBytes + relayFramePlaintextBytes) - 1))
                    relayFramePlaintextBytes in
    let overheadPerFrame := relayFrameHeaderBytes + gcmOverhead in
    if (Z.quot (MaxInt64 - relayHeaderBytes - overheadPerFrame) overheadPerFrame <? frames)
       || (wrap64 (wrap64 (MaxInt64 - relayHeaderBytes - wrap64 (frames * overheadPerFrame))
                   - overheadPerFrame) <? plaintextBytes)
    then Fail "relay ciphertext size overflows int64"
    else Ok (wrap64 (wrap64 (wrap64 (relayHeaderBytes + plaintextBytes) + wrap64 (frames * overheadPerFrame))
                     + overheadPerFrame)).

(** ** Streams *)

Record reader := { rd_data : bytes; rd_error : option string }.

Inductive readStatus := ReadOK | ReadEOF | ReadUnexpectedEOF | ReadError (e : string).

(** [io.ReadFull] into a buffer of [n] bytes. *)
Definition readFull (n : nat) (r : reader) : bytes * readStatus * reader :=
  let data := take n (rd_data r) in
  let rest := {| rd_data := drop n (rd_data r); rd_error := rd_error r |} in
  let status :=
    if (n <=? length (rd_data r))%nat then ReadOK
    else match rd_error r with
         | Some e => ReadError e
         | None => match rd_data r with [] => ReadEOF | _ => ReadUnexpectedEOF end
         end in
  (data, status, rest).

(** A writer that takes at most [sk_chunk] bytes per call and fails once
    [sk_room] bytes were written. *)
Record sink := { sk_bytes : bytes; sk_chunk : nat; sk_room : nat }.

Definition sink_write (data : bytes) (s : sink) : nat * option string * sink :=
  let n := Nat.min (length data) (sk_chunk s) in
  let m := Nat.min n (sk_room s) in
  (m, if (m <? n)%nat then Some "write" else None,
   {| sk_bytes := sk_bytes s ++ take m data; sk_chunk := sk_chunk s; sk_room := (sk_room s - m)%nat |}).

(** [writeAll]; every turn but the last writes a byte, so the length of the data is
    enough fuel. *)
Fixpoint write_loop (fuel : nat) (data : bytes) (total : nat) (s : sink) : nat * option string * sink :=
  match fuel with
  | O => (total, None, s)
  | S fuel =>
      match data with
      | [] => (total, None, s)
      | _ =>
          let '(count, err, s) := sink_write data s in
          let total := (total + count)%nat in
          match err with
          | Some e => (total, Some e, s)
          | None => if (count =? 0)%nat then (total, Some "short write", s)
                    else write_loop fuel (drop count data) total s
          end
      end
  end.
Definition writeAll (data : bytes) (s : sink) : nat * option string * sink :=
  write_loop (S (length data)) data 0 s.

(** ** Keys and frames *)

Definition put_uint (n : nat) (v : Z) : bytes := map byte_of (be_bytes n v).
Definition get_uint (l : bytes) : Z := fold_left (fun acc c => acc * 256 + byte_val c) l 0.

Definition decodeRelayKey (encoded : string) : option bytes :=
  match b64_decode false (bytes_of encoded) with
  | Some data => if (length data =? 32)%nat then Some data else None
  | None => None
  end.
Definition decodeRelayPublicKey (encoded : string) : result bytes :=
  match decodeRelayKey encoded with Some k => Ok k | None => Fail "invalid relay public key" end.
Definition decodeRelayPrivateKey (encoded : string) : result bytes :=
  match decodeRelayKey encoded with Some k => Ok k | None => Fail "invalid relay private key" end.

Definition nul : string := of_bytes [byte_of 0].

Definition relayContextDigest (c : RelayCipherContext) : bytes :=
  bytes_of (sha256 ("stcontrol-relay-context-v1" +:+ nul +:+ rc_TaskID c +:+ nul +:+ rc_WorkflowID c
                    +:+ nul +:+ rc_SnapshotID c)).

Definition relayNonce (base : bytes) (sequence : Z) : bytes := take 4 base ++ put_uint 8 sequence.

Definition relayFrameAAD (contextDigest : bytes) (sequence plaintextLength flags : Z) : bytes :=
  contextDigest ++ put_uint 8 sequence ++ put_uint 4 plaintextLength ++ [byte_of flags].

Section Relay.
Context `{RelayPrimitives}.

Definition GenerateRelayKeyPair (random32 : option bytes) : result (string * string) :=
  match random32 with
  | None => Fail "generate relay X25519 key"
  | Some key => Ok (of_bytes (b64_encode false key), of_bytes (b64_encode false (x25519_public key)))
  end.

Definition relayAEAD (shared : bytes) (c : RelayCipherContext) : result (bytes * bytes) :=
  let contextDigest := relayContextDigest c in
  match hkdf_sha256 shared contextDigest (bytes_of "stcontrol-relay-aes-256-gcm-v1") with
  | None => Fail "derive relay encryption key"
  | Some key => Ok (key, contextDigest)
  end.

Definition sealRelayFrame (key baseNonce contextDigest : bytes) (sequence : Z) (plaintext : bytes)
  (flags : Z) : result bytes :=
  let len := Z.of_nat (length plaintext) in
  if (relayFramePlaintextBytes <? len) || negb (Z.ldiff flags relayFinalFlag =? 0)
  then Fail "invalid relay frame input"
  else Ok (put_uint 4 len ++ [byte_of flags]
           ++ gcm_seal key (relayNonce baseNonce sequence) plaintext
                (relayFrameAAD contextDigest sequence len flags)).

(** ** Encryption *)

(** The loop over the plaintext.  It ends with the next sequence number, or with an
    error; [None] is running out of fuel. *)
Fixpoint encrypt_frames (fuel : nat) (turn : nat) (cancelled : nat -> bool) (key baseNonce contextDigest : bytes)
  (sequence : Z) (plaintext : reader) (total : Z) (out : sink) : option (result Z * Z * sink) :=
  match fuel with
  | O => None
  | S fuel =>
      if cancelled turn then Some (Fail "context", total, out)
      else
        let '(buffer, status, plaintext) := readFull (Z.to_nat relayFramePlaintextBytes) plaintext in
        match status with
        | ReadEOF => Some (Ok sequence, total, out)
        | ReadError e => Some (Fail e, total, out)
        | ReadOK | ReadUnexpectedEOF =>
            if (length buffer =? 0)%nat then Some (Ok sequence, total, out)
            else match sealRelayFrame key baseNonce contextDigest sequence buffer 0 with
            | Fail e => Some (Fail e, total, out)
            | Ok frame =>
                let '(count, err, out) := writeAll frame out in
                let total := wrap64 (total + Z.of_nat count) in
                match err with
                | Some e => Some (Fail e, total, out)
                | None =>
                    let sequence := (sequence + 1) mod 2 ^ 64 in
                    if sequence =? 0 then Some (Fail "relay frame sequence exhausted", total, out)
                    else match status with
                    | ReadUnexpectedEOF => Some (Ok sequence, total, out)
                    | _ => encrypt_frames fuel (S turn) cancelled key baseNonce contextDigest sequence
                             plaintext total out
                    end
                end
            end
        end
  end.

(** [sourcePrivate] and [baseNonce] are the outcomes of the random source. *)
Definition EncryptRelayStream (cancelled : nat -> bool) (sourcePrivate baseNonce : option bytes)
  (plaintext : reader) (targetPublicKey : string) (c : RelayCipherContext) (out : sink)
  : option (result unit * Z * sink) :=
  if negb (validRelayCipherContext c) then Some (Fail "invalid relay encryption input", 0, out)
  else match decodeRelayPublicKey targetPublicKey with
  | Fail e => Some (Fail e, 0, out)
  | Ok target =>
  match sourcePrivate with
  | None => Some (Fail "generate relay source key", 0, out)
  | Some source =>
  match x25519_ecdh source target with
  | None => Some (Fail "derive relay shared secret", 0, out)
  | Some shared =>
  match relayAEAD shared c with
  | Fail e => Some (Fail e, 0, out)
  | Ok (key, contextDigest) =>
  match baseNonce with
  | None => Some (Fail "generate relay nonce", 0, out)
  | Some base =>
      let header := relayMagic ++ x25519_public source ++ base in
      let '(written, err, out) := writeAll header out in
      match err with
      | Some e => Some (Fail e, Z.of_nat written, out)
      | None =>
          match encrypt_frames (S (length (rd_data plaintext))) 0 cancelled key base contextDigest 0
                  plaintext (Z.of_nat written) out with
          | None => None
          | Some (Fail e, total, out) => Some (Fail e, total, out)
          | Some (Ok sequence, total, out) =>
              match sealRelayFrame key base contextDigest sequence [] relayFinalFlag with
              | Fail e => Some (Fail e, total, out)
              | Ok finalFrame =>
                  let '(count, err, out) := writeAll finalFrame out in
                  let total := wrap64 (total + Z.of_nat count) in
                  match err with
                  | Some e => Some (Fail e, total, out)
                  | None => Some (Ok tt, total, out)
                  end
              end
          end
      end
  end end end end end.

(** ** Decryption *)

Fixpoint decrypt_frames (fuel : nat) (turn : nat) (cancelled : nat -> bool) (key baseNonce contextDigest : bytes)
  (sequence : Z) (ciphertext : reader) (total : Z) (out : sink) : option (result unit * Z * sink) :=
  match fuel with
  | O => None
  | S fuel =>
      if cancelled turn then Some (Fail "context", total, out)
      else
        let '(frameHeader, status, ciphertext) := readFull (Z.to_nat relayFrameHeaderBytes) ciphertext in
        match status with
        | ReadOK =>
            let plaintextLength := get_uint (take 4 frameHeader) in
            let flags := get_uint (drop 4 frameHeader) in
            if (relayFramePlaintextBytes <? plaintextLength) || negb (Z.ldiff flags relayFinalFlag =? 0)
               || ((flags =? relayFinalFlag) && negb (plaintextLength =? 0))
               || ((flags =? 0) && (plaintextLength =? 0))
            then Some (Fail "invalid relay frame", total, out)
            else
              let '(sealed, status, ciphertext) :=
                readFull (Z.to_nat (plaintextLength + gcmOverhead)) ciphertext in
              match status with
              | ReadOK =>
                  match gcm_open key (relayNonce baseNonce sequence) sealed
                          (relayFrameAAD contextDigest sequence plaintextLength flags) with
                  | None => Some (Fail "relay frame authentication failed", total, out)
                  | Some opened =>
                      if flags =? relayFinalFlag then
                        match rd_data ciphertext, rd_error ciphertext with
                        | [], None => Some (Ok tt, total, out)
                        | _, _ => Some (Fail "relay stream contains trailing data", total, out)
                        end
                      else
                        let '(count, err, out) := writeAll opened out in
                        let total := wrap64 (total + Z.of_nat count) in
                        match err with
                        | Some e => Some (Fail e, total, out)
                        | None =>
                            let sequence := (sequence + 1) mod 2 ^ 64 in
                            if sequence =? 0 then Some (Fail "relay frame sequence exhausted", total, out)
                            else decrypt_frames fuel (S turn) cancelled key baseNonce contextDigest sequence
                                   ciphertext total out
                        end
                  end
              | _ => Some (Fail "read relay frame", total, out)
              end
        | _ => Some (Fail "read relay frame header", total, out)
        end
  end.

Definition DecryptRelayStream (cancelled : nat -> bool) (ciphertext : reader) (targetPrivateKey : string)
  (c : RelayCipherContext) (out : sink) : option (result unit * Z * sink) :=
  if negb (validRelayCipherContext c) then Some (Fail "invalid relay decryption input", 0, out)
  else match decodeRelayPrivateKey targetPrivateKey with
  | Fail e => Some (Fail e, 0, out)
  | Ok target =>
      let '(header, status, ciphertext) := readFull (Z.to_nat relayHeaderBytes) ciphertext in
      match status with
      | ReadOK =>
          if negb (bool_decide (take 8 header = relayMagic)) then Some (Fail "invalid relay stream version", 0, out)
          else match x25519_ecdh target (take 32 (drop 8 header)) with
          | None => Some (Fail "derive relay shared secret", 0, out)
          | Some shared =>
              match relayAEAD shared c with
              | Fail e => Some (Fail e, 0, out)
              | Ok (key, contextDigest) =>
                  decrypt_frames (S (length (rd_data ciphertext))) 0 cancelled key (drop 40 header)
                    contextDigest 0 ciphertext 0 out
              end
          end
      | _ => Some (Fail "read relay header", 0, out)
      end
  end.

End Relay.

(** ** Sizes *)

Lemma wrap64_pred x : wrap64 (wrap64 x - 1) = wrap64 (x - 1).
Proof.
  unfold wrap64. f_equal.
  replace ((x + 2 ^ 63) mod 2 ^ 64 - 2 ^ 63 - 1 + 2 ^ 63) with ((x + 2 ^ 63) mod 2 ^ 64 - 1) by lia.
  replace (x - 1 + 2 ^ 63) with (x + 2 ^ 63 - 1) by lia. by rewrite Zminus_mod_idemp_l.
Qed.

(** The number of frames that carry [n] bytes, and the size of the stream. *)
Definition frame_count (n : Z) : Z := (n + relayFramePlaintextBytes - 1) / relayFramePlaintextBytes.
Definition stream_size (n : Z) : Z := 52 + n + 21 * frame_count n + 21.

(** The guards never let a wrapped sum through. *)
Lemma relay_size_spec n :
  int64 n ->
  RelayCiphertextSize n
  = if n <=? 0 then Fail "relay plaintext size must be positive"
    else if stream_size n <=? MaxInt64 then Ok (stream_size n)
    else Fail "relay ciphertext size overflows int64".
Proof.
  intros Hn. unfold RelayCiphertextSize, stream_size, frame_count, relayFramePlaintextBytes,
    relayHeaderBytes, relayFrameHeaderBytes, gcmOverhead.
  destruct (n <=? 0) eqn:E; [done|]. apply Z.leb_gt in E. rewrite wrap64_pred.
  change (5 + 16) with 21. change (8 + 32 + 12) with 52.
  destruct (decide (n + 2 ^ 20 - 1 <= MaxInt64)) as [Hsmall|Hbig].
  - rewrite (wrap64_id (n + 2 ^ 20 - 1)) by int64_lia. rewrite (Z.quot_div_nonneg (n + 2 ^ 20 - 1)) by lia.
    set (f := (n + 2 ^ 20 - 1) / 2 ^ 20).
    assert (1 <= f <= 2 ^ 43) as Hf
      by (subst f; unfold MaxInt64 in *; Z.to_euclidean_division_equations; lia).
    rewrite (wrap64_id (f * 21)) by int64_lia. rewrite (wrap64_id (MaxInt64 - 52 - _)) by int64_lia.
    rewrite (wrap64_id (_ - 21)) by int64_lia.
    assert (2 ^ 43 < Z.quot (MaxInt64 - 52 - 21) 21) as Hq by (vm_compute; reflexivity).
    rewrite (proj2 (Z.ltb_ge (Z.quot _ 21) f)) by lia. cbn [orb].
    destruct (52 + n + 21 * f + 21 <=? MaxInt64) eqn:E2; b2p.
    + rewrite (proj2 (Z.ltb_ge _ _)) by lia. rewrite (wrap64_id (52 + n)) by int64_lia.
      rewrite (wrap64_id (52 + n + _)) by int64_lia. rewrite wrap64_id by int64_lia. f_equal. lia.
    + by rewrite (proj2 (Z.ltb_lt _ _)) by lia.
  - rewrite (wrap64_over (n + 2 ^ 20 - 1)) by int64_lia.
    set (f := Z.quot (n + 2 ^ 20 - 1 - 2 ^ 64) (2 ^ 20)). assert (- 2 ^ 43 <= f <= - 2 ^ 43 + 1) as Hf.
    { subst f. unfold int64, MinInt64, MaxInt64 in *. Z.to_euclidean_division_equations. lia. }
    rewrite (wrap64_id (f * 21)) by int64_lia. rewrite (wrap64_over (MaxInt64 - 52 - _)) by int64_lia.
    rewrite (wrap64_id (_ - 21)) by int64_lia.
    rewrite (proj2 (Z.ltb_lt (_ - 21) n)) by int64_lia. rewrite orb_true_r.
    rewrite (proj2 (Z.leb_gt _ MaxInt64)); [done|].
    unfold int64, MinInt64, MaxInt64 in *. Z.to_euclidean_division_equations. lia.
Qed.

(** C32: The announced size is exact and never wraps.  For every 64 bit plaintext
    length [RelayCiphertextSize] returns the exact size of the stream when that
    fits into 64 bits and an error otherwise, also where its own intermediate
    sums overflow. *)
Theorem relay_size_exact n :
  int64 n ->
  RelayCiphertextSize n
  = if n <=? 0 then Fail "relay plaintext size must be positive"
    else if stream_size n <=? MaxInt64 then Ok (stream_size n)
    else Fail "relay ciphertext size overflows int64".
Proof. apply relay_size_spec. Qed.

Lemma relay_size_exact_witness :
  RelayCiphertextSize (2 ^ 20 + 1) = Ok (52 + (2 ^ 20 + 1) + 3 * 21).
Proof. rewrite (relay_size_exact (2 ^ 20 + 1)); [reflexivity|int64_lia]. Defined.

(** ** Termination *)

Lemma readFull_rest n r data status r' :
  readFull n r = (data, status, r') -> length (rd_data r') = (length (rd_data r) - n)%nat.
Proof. unfold readFull. intros [= _ _ <-]. apply length_drop. Qed.

Lemma readFull_ok n r data r' :
  readFull n r = (data, ReadOK, r') ->
  (n <= length (rd_data r))%nat /\ data = take n (rd_data r) /\ rd_data r' = drop n (rd_data r)
  /\ rd_error r' = rd_error r.
Proof.
  unfold readFull. destruct (n <=? length (rd_data r))%nat eqn:E.
  - intros [= <- <-]. apply Nat.leb_le in E. auto.
  - destruct (rd_error r); [done|]. by destruct (rd_data r).
Qed.

#[local] Opaque relayFramePlaintextBytes.
Lemma frame_bytes_positive : 0 < relayFramePlaintextBytes.
Proof. reflexivity. Qed.

Section Termination.
Context `{RelayPrimitives}.

Lemma encrypt_frames_returns fuel : forall turn cancelled key base digest seq r total out,
  (length (rd_data r) < fuel)%nat ->
  is_Some (encrypt_frames fuel turn cancelled key base digest seq r total out).
Proof.
  pose proof frame_bytes_positive as Hfs.
  induction fuel as [|fuel IH]; intros turn cancelled key base digest seq r total out Hf; [lia|].
  cbn [encrypt_frames]. destruct (cancelled turn); [done|].
  destruct (readFull _ r) as [[buffer status] r'] eqn:Er.
  pose proof (readFull_rest _ _ _ _ _ Er) as Hl.
  destruct status; try done; (destruct (length buffer =? 0)%nat eqn:Eb; [done|]);
    (destruct (sealRelayFrame _ _ _ _ _ _); [|done]);
    destruct (writeAll _ _) as [[count err] out']; (destruct err; [done|]);
    (destruct (_ =? 0); [done|]); [|done].
  apply IH. apply readFull_ok in Er as (Hn & _). lia.
Qed.

Lemma decrypt_frames_returns fuel : forall turn cancelled key base digest seq r total out,
  (length (rd_data r) < fuel)%nat ->
  is_Some (decrypt_frames fuel turn cancelled key base digest seq r total out).
Proof.
  induction fuel as [|fuel IH]; intros turn cancelled key base digest seq r total out Hf; [lia|].
  cbn [decrypt_frames]. destruct (cancelled turn); [done|].
  destruct (readFull _ r) as [[hdr status] r1] eqn:E1. destruct status; try done.
  destruct (_ || _ || _ || _); [done|].
  destruct (readFull _ r1) as [[sealed status] r2] eqn:E2. destruct status; try done.
  destruct (gcm_open _ _ _ _) as [opened|]; [|done].
  destruct (_ =? relayFinalFlag); [destruct (rd_data r2); [by destruct (rd_error r2)|done]|].
  destruct (writeAll _ _) as [[count err] out']. destruct err; [done|]. destruct (_ =? 0); [done|].
  apply IH. apply readFull_ok in E1 as (Hn & _ & E1 & _). apply readFull_ok in E2 as (_ & _ & E2 & _).
  rewrite E2, E1, !length_drop. change (Z.to_nat relayFrameHeaderBytes) with 5%nat in *. lia.
Qed.

(** C29: Both ends of the relay stop on every input.  Whatever the stream contains,
    however reading, writing and the context fail, encryption and decryption return
    a result: the loops never run longer than the input has bytes. *)
Theorem relay_streams_terminate cancelled source base key c r out :
  (exists res, EncryptRelayStream cancelled source base r key c out = Some res)
  /\ (exists res, DecryptRelayStream cancelled r key c out = Some res).
Proof.
  unfold EncryptRelayStream, DecryptRelayStream.
  destruct (negb (validRelayCipherContext c)); [eauto|]. split.
  - destruct (decodeRelayPublicKey key) as [target|]; [|eauto]. destruct source as [source|]; [|eauto].
    destruct (x25519_ecdh source target) as [shared|]; [|eauto].
    destruct (relayAEAD shared c) as [[k digest]|]; [|eauto]. destruct base as [base|]; [|eauto].
    destruct (writeAll _ out) as [[written err] out1]. destruct err; [eauto|].
    destruct (encrypt_frames_returns (S (length (rd_data r))) 0 cancelled k base digest 0 r
      (Z.of_nat written) out1 ltac:(lia)) as [[[[seq|e] total] out2] ->]; [|eauto].
    destruct (sealRelayFrame _ _ _ _ _ _); [|eauto]. destruct (writeAll _ _) as [[count err] out3].
    destruct err; eauto.
  - destruct (decodeRelayPrivateKey key) as [target|]; [|eauto].
    destruct (readFull _ r) as [[hdr status] r1]. destruct status; try by eauto.
    destruct (negb _); [eauto|]. destruct (x25519_ecdh target _) as [shared|]; [|eauto].
    destruct (relayAEAD shared c) as [[k digest]|]; [|eauto].
    apply decrypt_frames_returns. lia.
Qed.

End Termination.

(** ** Numbers and writers *)

Lemma be_bytes_head n v : Z.land (Z.shiftr v (8 * Z.of_nat n)) 255 = v / 256 ^ Z.of_nat n mod 256.
Proof.
  change 255 with (Z.ones 8). rewrite Z.land_ones, Z.shiftr_div_pow2 by lia.
  change 256 with (2 ^ 8) at 1. rewrite <- Z.pow_mul_r by lia. done.
Qed.

Lemma get_put_acc n v acc :
  0 <= v < 256 ^ Z.of_nat n ->
  fold_left (fun a c => a * 256 + byte_val c) (put_uint n v) acc = acc * 256 ^ Z.of_nat n + v.
Proof.
  intros Hv. enough (forall n v acc, 0 <= v ->
    fold_left (fun a c => a * 256 + byte_val c) (put_uint n v) acc
    = acc * 256 ^ Z.of_nat n + v mod 256 ^ Z.of_nat n) as Hg
    by (rewrite Hg by lia; by rewrite Z.mod_small).
  clear. intros n. induction n as [|n IH]; intros v acc Hv.
  { cbn. rewrite Z.mod_1_r. lia. }
  unfold put_uint in *. cbn [be_bytes map fold_left]. rewrite IH by done.
  rewrite be_bytes_head, byte_val_of by (apply Z.mod_pos_bound; lia).
  rewrite Nat2Z.inj_succ, Z.pow_succ_r by lia.
  rewrite (Z.mul_comm 256), Z.rem_mul_r by lia. lia.
Qed.

Lemma get_put n v : 0 <= v < 256 ^ Z.of_nat n -> get_uint (put_uint n v) = v.
Proof. intros Hv. unfold get_uint. rewrite get_put_acc by done. lia. Qed.

Lemma put_uint_length n v : length (put_uint n v) = n.
Proof. unfold put_uint. rewrite length_map. induction n; cbn; auto. Qed.

Lemma put_uint_inj n v w :
  0 <= v < 256 ^ Z.of_nat n -> 0 <= w < 256 ^ Z.of_nat n -> put_uint n v = put_uint n w -> v = w.
Proof. intros Hv Hw E. by rewrite <- (get_put n v), <- (get_put n w), E. Qed.

(** A writer with room takes everything. *)
Lemma write_loop_all fuel : forall data total s,
  (length data < fuel)%nat -> (0 < sk_chunk s)%nat -> (length data <= sk_room s)%nat ->
  write_loop fuel data total s
  = ((total + length data)%nat, None,
     {| sk_bytes := sk_bytes s ++ data; sk_chunk := sk_chunk s; sk_room := (sk_room s - length data)%nat |}).
Proof.
  induction fuel as [|fuel IH]; intros data total s Hf Hc Hr; [lia|]. cbn [write_loop].
  destruct data as [|c data].
  { destruct s; cbn. rewrite app_nil_r, Nat.sub_0_r, Nat.add_0_r. done. }
  unfold sink_write. set (d := c :: data) in *.
  assert (0 < length d)%nat by (subst d; cbn; lia). set (m := Nat.min (length d) (sk_chunk s)).
  rewrite (Nat.min_l m) by lia. rewrite Nat.ltb_irrefl.
  rewrite (proj2 (Nat.eqb_neq m 0)) by lia.
  rewrite IH; cbn [sk_chunk sk_room sk_bytes]; rewrite ?length_drop; try lia.
  f_equal; [f_equal; lia|]. f_equal; [|lia]. by rewrite <- app_assoc, take_drop.
Qed.

Lemma writeAll_room data s :
  (0 < sk_chunk s)%nat -> (length data <= sk_room s)%nat ->
  writeAll data s
  = (length data, None,
     {| sk_bytes := sk_bytes s ++ data; sk_chunk := sk_chunk s; sk_room := (sk_room s - length data)%nat |}).
Proof. intros Hc Hr. unfold writeAll. rewrite write_loop_all by lia. done. Qed.

(** ** The frames of a plaintext *)

Fixpoint chunks_of (fuel : nat) (data : bytes) : list bytes :=
  match fuel, data with
  | S fuel, _ :: _ =>
      take (Z.to_nat relayFramePlaintextBytes) data
      :: chunks_of fuel (drop (Z.to_nat relayFramePlaintextBytes) data)
  | _, _ => []
  end.
Definition relay_chunks (data : bytes) : list bytes := chunks_of (length data) data.

Definition chunk_ok (c : bytes) : Prop := 0 < Z.of_nat (length c) <= relayFramePlaintextBytes.

Lemma chunks_of_spec fuel : forall data,
  (length data <= fuel)%nat ->
  concat (chunks_of fuel data) = data /\ Forall chunk_ok (chunks_of fuel data)
  /\ Z.of_nat (length (chunks_of fuel data)) = frame_count (Z.of_nat (length data)).
Proof.
  pose proof frame_bytes_positive as Hfs. unfold frame_count, chunk_ok.
  induction fuel as [|fuel IH]; intros data Hf.
  { destruct data; [|cbn in Hf; lia]. cbn. split; [done|]. split; [constructor|]. rewrite Z.div_small; lia. }
  destruct data as [|c data]; [cbn; split; [done|]; split; [constructor|]; rewrite Z.div_small; lia|].
  cbn [chunks_of]. set (d := c :: data) in *. set (n := Z.to_nat relayFramePlaintextBytes).
  assert (0 < length d)%nat by (subst d; cbn; lia).
  destruct (IH (drop n d)) as (H1 & H2 & H3); [rewrite length_drop; lia|].
  split; [cbn; by rewrite H1, take_drop|]. split.
  { constructor; [|done]. rewrite length_take. lia. }
  cbn [length]. rewrite Nat2Z.inj_succ, H3, length_drop.
  destruct (decide (n <= length d)%nat) as [Hle|Hgt].
  - replace (Z.of_nat (length d) + relayFramePlaintextBytes - 1)
      with (Z.of_nat (length d - n) + relayFramePlaintextBytes - 1 + 1 * relayFramePlaintextBytes) by lia.
    rewrite Z.div_add by lia. lia.
  - replace (length d - n)%nat with 0%nat by lia.
    rewrite Z.div_small by lia. apply (Z.div_unique _ _ 1 (Z.of_nat (length d) - 1)); lia.
Qed.

Lemma chunks_of_fuel f1 : forall f2 data,
  (length data <= f1)%nat -> (length data <= f2)%nat -> chunks_of f1 data = chunks_of f2 data.
Proof.
  pose proof frame_bytes_positive as Hfs.
  induction f1 as [|f1 IH]; intros f2 data H1 H2.
  { destruct data; [by destruct f2|cbn in H1; lia]. }
  destruct data as [|c data]; [by destruct f2|]. destruct f2 as [|f2]; [cbn in H2; lia|].
  cbn [chunks_of]. cbn [length] in *. f_equal. apply IH; rewrite length_drop; cbn [length]; lia.
Qed.

Section Frames.
Context `{RelayPrimitives} (key base digest : bytes).

Definition frame (seq : Z) (data : bytes) (flags : Z) : bytes :=
  put_uint 4 (Z.of_nat (length data)) ++ [byte_of flags]
  ++ gcm_seal key (relayNonce base seq) data (relayFrameAAD digest seq (Z.of_nat (length data)) flags).

Fixpoint body (seq : Z) (chunks : list bytes) : bytes :=
  match chunks with [] => [] | c :: chunks => frame seq c 0 ++ body (seq + 1) chunks end.

Lemma sealRelayFrame_ok seq data flags :
  Z.of_nat (length data) <= relayFramePlaintextBytes -> flags = 0 \/ flags = 1 ->
  sealRelayFrame key base digest seq data flags = Ok (frame seq data flags).
Proof.
  intros Hl Hf. unfold sealRelayFrame. rewrite (proj2 (Z.ltb_ge _ _) Hl). by destruct Hf as [-> | ->].
Qed.

Context `{!RelayLaws}.

Lemma frame_length seq data flags : length (frame seq data flags) = (21 + length data)%nat.
Proof. unfold frame. rewrite !length_app, put_uint_length, gcm_seal_length. cbn. lia. Qed.

Lemma body_length seq chunks :
  length (body seq chunks) = (length (concat chunks) + 21 * length chunks)%nat.
Proof.
  revert seq. induction chunks as [|c chunks IH]; intros seq; [done|]. cbn [body concat length].
  rewrite !length_app, frame_length, IH. lia.
Qed.

(** What the encryption loop writes. *)
Lemma encrypt_frames_ok fuel : forall turn data seq total out (cs := chunks_of fuel data),
  (length data < fuel)%nat -> 0 <= seq -> seq + Z.of_nat (length data) < 2 ^ 64 - 1 ->
  (0 < sk_chunk out)%nat -> (length (body seq cs) <= sk_room out)%nat ->
  0 <= total -> total + Z.of_nat (length (body seq cs)) <= MaxInt64 ->
  encrypt_frames fuel turn (fun _ => false) key base digest seq {| rd_data := data; rd_error := None |} total out
  = Some (Ok (seq + Z.of_nat (length cs)), total + Z.of_nat (length (body seq cs)),
      {| sk_bytes := sk_bytes out ++ body seq cs; sk_chunk := sk_chunk out;
         sk_room := (sk_room out - length (body seq cs))%nat |}).
Proof.
  pose proof frame_bytes_positive as Hfs.
  induction fuel as [|fuel IH]; intros turn data seq total out cs Hf Hseq Hs64 Hch Hroom Htot Hmax; [lia|].
  subst cs. cbn [encrypt_frames]. set (n := Z.to_nat relayFramePlaintextBytes) in *.
  unfold readFull. cbn [rd_data rd_error].
  destruct data as [|c data].
  { rewrite (proj2 (Nat.leb_gt n (length []))) by (cbn; lia). cbn.
    rewrite app_nil_r, Nat.sub_0_r, !Z.add_0_r. by destruct out. }
  cbn [chunks_of body length] in Hroom, Hmax |- *. fold n in Hroom, Hmax |- *. set (d := c :: data) in *.
  change (S (length data)) with (length d) in *. cbn [length] in Hf.
  assert (0 < length d)%nat by (subst d; cbn; lia).
  assert (length (take n d) = Nat.min n (length d)) as Ht by apply length_take.
  rewrite length_app, frame_length in Hroom, Hmax.
  assert (sealRelayFrame key base digest seq (take n d) 0 = Ok (frame seq (take n d) 0)) as Hseal
    by (apply sealRelayFrame_ok; [lia|by left]).
  rewrite Hseal, (proj2 (Nat.eqb_neq (length (take n d)) 0)) by lia.
  rewrite (writeAll_room (frame seq (take n d) 0) out), frame_length by (rewrite ?frame_length; lia).
  rewrite wrap64_id by int64_lia. rewrite (Z.mod_small (seq + 1)) by lia.
  rewrite (proj2 (Z.eqb_neq (seq + 1) 0)) by lia.
  destruct (n <=? length d)%nat eqn:En; [apply Nat.leb_le in En|apply Nat.leb_gt in En].
  - rewrite IH; cbn [sk_bytes sk_chunk sk_room]; rewrite ?length_drop; try lia.
    rewrite length_app, frame_length. f_equal. f_equal; [f_equal; [f_equal; lia|lia]|].
    f_equal; [by rewrite <- app_assoc|lia].
  - rewrite (drop_ge d n) in * by lia.
    assert (chunks_of fuel [] = []) as E by (by destruct fuel). rewrite E in *. cbn [body length] in *.
    rewrite app_nil_r, frame_length. done.
Qed.

(** Reading a frame off the front of a stream. *)
Lemma read_frame seq data flags rest :
  Z.of_nat (length data) <= relayFramePlaintextBytes -> 0 <= flags < 256 ->
  exists hdr, readFull 5 {| rd_data := frame seq data flags ++ rest; rd_error := None |}
    = (hdr, ReadOK, {| rd_data := gcm_seal key (relayNonce base seq) data
         (relayFrameAAD digest seq (Z.of_nat (length data)) flags) ++ rest; rd_error := None |})
    /\ get_uint (take 4 hdr) = Z.of_nat (length data) /\ get_uint (drop 4 hdr) = flags.
Proof.
  intros Hl Hf. unfold frame. set (p := put_uint 4 (Z.of_nat (length data))).
  assert (length p = 4)%nat as Hp by apply put_uint_length.
  exists (p ++ [byte_of flags]). unfold readFull. cbn [rd_data rd_error].
  rewrite <- !app_assoc. rewrite (app_assoc p).
  assert (length (p ++ [byte_of flags]) = 5)%nat as H5 by (rewrite length_app, Hp; done).
  rewrite take_app_length', drop_app_length' by done.
  rewrite (proj2 (Nat.leb_le 5 _)) by (rewrite length_app; lia). split; [done|].
  rewrite take_app_length', drop_app_length' by done. split.
  - apply get_put. assert (relayFramePlaintextBytes < 256 ^ Z.of_nat 4) by (vm_compute; reflexivity). lia.
  - cbn. by rewrite byte_val_of.
Qed.

Lemma read_sealed n p rest :
  length p = n -> readFull n {| rd_data := p ++ rest; rd_error := None |}
                  = (p, ReadOK, {| rd_data := rest; rd_error := None |}).
Proof.
  intros Hp. unfold readFull. cbn [rd_data rd_error].
  rewrite take_app_length', drop_app_length' by done.
  by rewrite (proj2 (Nat.leb_le n _)) by (rewrite length_app; lia).
Qed.

(** What the decryption loop makes of the frames. *)
Lemma decrypt_frames_ok chunks : forall fuel turn seq total out (data := concat chunks)
  (stream := body seq chunks ++ frame (seq + Z.of_nat (length chunks)) [] 1),
  Forall chunk_ok chunks -> (length stream < fuel)%nat -> 0 <= seq ->
  seq + Z.of_nat (length chunks) < 2 ^ 64 - 1 ->
  (0 < sk_chunk out)%nat -> (length data <= sk_room out)%nat ->
  0 <= total -> total + Z.of_nat (length data) <= MaxInt64 ->
  decrypt_frames fuel turn (fun _ => false) key base digest seq {| rd_data := stream; rd_error := None |} total out
  = Some (Ok tt, total + Z.of_nat (length data),
      {| sk_bytes := sk_bytes out ++ data; sk_chunk := sk_chunk out;
         sk_room := (sk_room out - length data)%nat |}).
Proof.
  pose proof frame_bytes_positive as Hfs.
  induction chunks as [|c chunks IH]; intros fuel turn seq total out data stream Hall Hf Hseq Hs64 Hch Hroom
    Htot Hmax; subst data stream; (destruct fuel as [|fuel]; [lia|]); cbn [decrypt_frames];
    change (Z.to_nat relayFrameHeaderBytes) with 5%nat.
  - cbn [body length concat] in *. rewrite Z.add_0_r in *. rewrite app_nil_l in *.
    destruct (read_frame seq [] 1 []) as (hdr & Hr & Hlen & Hflag); [cbn; lia|lia|].
    rewrite app_nil_r in Hr. rewrite Hr, Hlen, Hflag. change (Z.of_nat (length (@nil ascii))) with 0.
    rewrite (proj2 (Z.ltb_ge relayFramePlaintextBytes 0)) by lia. cbn [Z.ldiff relayFinalFlag Z.eqb negb orb andb].
    change (1 =? relayFinalFlag) with true. cbn [orb andb negb].
    rewrite (read_sealed _ _ []) by apply gcm_seal_length. rewrite gcm_open_seal. cbn.
    rewrite app_nil_r, Nat.sub_0_r, Z.add_0_r. by destruct out.
  - apply Forall_cons in Hall as [Hc Hall]. unfold chunk_ok in Hc. cbn [body length concat] in *.
    rewrite length_app in Hroom, Hmax. rewrite <- app_assoc in Hf |- *.
    rewrite length_app, frame_length in Hf.
    destruct (read_frame seq c 0 (body (seq + 1) chunks
      ++ frame (seq + Z.of_nat (S (length chunks))) [] 1)) as (hdr & Hr & Hlen & Hflag); [lia|lia|].
    rewrite Hr, Hlen, Hflag. rewrite (proj2 (Z.ltb_ge relayFramePlaintextBytes _)) by lia.
    rewrite (proj2 (Z.eqb_neq (Z.of_nat (length c)) 0)) by lia.
    change (Z.ldiff 0 relayFinalFlag =? 0) with true. change (0 =? relayFinalFlag) with false.
    cbn [negb orb andb Z.eqb].
    rewrite read_sealed by (rewrite gcm_seal_length; unfold gcmOverhead; lia). rewrite gcm_open_seal.
    rewrite (writeAll_room c out) by lia. rewrite wrap64_id by int64_lia.
    rewrite (Z.mod_small (seq + 1)) by lia. rewrite (proj2 (Z.eqb_neq (seq + 1) 0)) by lia.
    replace (seq + Z.of_nat (S (length chunks))) with (seq + 1 + Z.of_nat (length chunks)) in * by lia.
    rewrite IH; cbn [sk_bytes sk_chunk sk_room]; try done; try lia.
    rewrite length_app. f_equal. f_equal; [f_equal; lia|]. f_equal; [by rewrite app_assoc|lia].
Qed.
End Frames.

Section RoundTrip.
Context `{RelayLaws}.

(** C26: A relayed snapshot arrives as it was sent.  With valid task, workflow and
    snapshot ids, a target key pair and a sink with room, encryption writes a
    stream of exactly the announced size, and decryption with the private key
    under the same ids writes back exactly the plaintext and reports its length. *)
Theorem relay_stream_roundtrip target source base c data shared key size out out2 :
  validRelayCipherContext c = true -> length target = 32%nat -> length base = 12%nat ->
  x25519_ecdh source (x25519_public target) = Some shared ->
  hkdf_sha256 shared (relayContextDigest c) (bytes_of "stcontrol-relay-aes-256-gcm-v1") = Some key ->
  RelayCiphertextSize (Z.of_nat (length data)) = Ok size -> Z.of_nat (length data) <= MaxInt64 ->
  (0 < sk_chunk out)%nat -> size <= Z.of_nat (sk_room out) ->
  (0 < sk_chunk out2)%nat -> (length data <= sk_room out2)%nat ->
  exists stream out',
    EncryptRelayStream (fun _ => false) (Some source) (Some base) {| rd_data := data; rd_error := None |}
      (of_bytes (b64_encode false (x25519_public target))) c out = Some (Ok tt, size, out')
    /\ sk_bytes out' = sk_bytes out ++ stream /\ Z.of_nat (length stream) = size
    /\ exists out2', DecryptRelayStream (fun _ => false) {| rd_data := stream; rd_error := None |}
         (of_bytes (b64_encode false target)) c out2 = Some (Ok tt, Z.of_nat (length data), out2')
       /\ sk_bytes out2' = sk_bytes out2 ++ data.
Proof.
  intros Hc Ht Hb Hs Hk Hsize Hint Hch Hroom Hch2 Hroom2.
  rewrite relay_size_spec in Hsize by int64_lia.
  destruct (_ <=? 0) eqn:E0; [done|]. destruct (_ <=? MaxInt64) eqn:E1; [|done]. injection Hsize as <-. b2p.
  set (header := relayMagic ++ x25519_public source ++ base).
  assert (length header = 52%nat) as Hh by (unfold header; rewrite !length_app, x25519_public_length, Hb; done).
  set (cs := relay_chunks data). set (digest := relayContextDigest c).
  destruct (chunks_of_spec (length data) data ltac:(lia)) as (Hcat & Hall & Hcnt).
  fold (relay_chunks data) in Hcat, Hall, Hcnt. fold cs in Hcat, Hall, Hcnt.
  assert (chunks_of (S (length data)) data = cs) as Hcs by (apply chunks_of_fuel; lia).
  pose proof (body_length key base digest 0 cs) as Hbody. rewrite Hcat in Hbody.
  unfold stream_size in *. rewrite <- Hcnt in *.
  set (final := frame key base digest (0 + Z.of_nat (length cs)) [] 1).
  assert (length final = 21%nat) as Hfinal by (unfold final; rewrite frame_length; done).
  exists (header ++ body key base digest 0 cs ++ final). eexists. split; [|split; [|split]].
  - unfold EncryptRelayStream. rewrite Hc. cbn [negb].
    unfold decodeRelayPublicKey, decodeRelayKey. rewrite bytes_of_bytes, b64_decode_encode, x25519_public_length.
    cbn [Nat.eqb]. rewrite Hs. unfold relayAEAD. rewrite Hk. fold header digest.
    rewrite writeAll_room by lia. rewrite Hh. cbn [rd_data].
    rewrite (encrypt_frames_ok key base digest); cbn [sk_bytes sk_chunk sk_room]; rewrite ?Hcs; try lia;
      [|int64_lia].
    rewrite sealRelayFrame_ok; [|apply Z.lt_le_incl, frame_bytes_positive|by right].
    change (frame key base digest (0 + Z.of_nat (length cs)) [] relayFinalFlag) with final.
    rewrite writeAll_room by (cbn [sk_bytes sk_chunk sk_room]; lia). rewrite Hfinal.
    rewrite wrap64_id by int64_lia.
    match goal with |- Some (_, ?x, _) = Some (_, ?y, _) => replace x with y by lia end. reflexivity.
  - cbn [sk_bytes]. by rewrite <- !app_assoc.
  - rewrite !length_app. lia.
  - unfold DecryptRelayStream. rewrite Hc. cbn [negb].
    unfold decodeRelayPrivateKey, decodeRelayKey. rewrite bytes_of_bytes, b64_decode_encode, Ht. cbn [Nat.eqb].
    change (Z.to_nat relayHeaderBytes) with 52%nat. rewrite read_sealed by done.
    assert (take 8 header = relayMagic) as -> by done. rewrite bool_decide_true by done. cbn [negb].
    assert (take 32 (drop 8 header) = x25519_public source) as ->
      by (change (drop 8 header) with (x25519_public source ++ base);
          by rewrite take_app_length' by (symmetry; apply x25519_public_length)).
    rewrite x25519_agree, Hs. unfold relayAEAD. rewrite Hk. fold digest.
    assert (drop 40 header = base) as ->
      by (change (drop 40 header) with (drop 32 (x25519_public source ++ base));
          by rewrite drop_app_length' by (symmetry; apply x25519_public_length)).
    cbn [rd_data]. eexists. unfold final.
    rewrite (decrypt_frames_ok key base digest cs); rewrite ?Hcat; try done; try lia; try int64_lia.
Qed.
End RoundTrip.


(** ** Tampered streams *)

Lemma write_loop_spec fuel : forall data total s count err s',
  (length data < fuel)%nat -> write_loop fuel data total s = (count, err, s') ->
  exists done, done `prefix_of` data /\ sk_bytes s' = sk_bytes s ++ done /\ (err = None -> done = data).
Proof.
  induction fuel as [|fuel IH]; intros data total s count err s' Hf; [lia|]. cbn [write_loop].
  destruct data as [|c data].
  { intros [= _ _ <-]. exists []. rewrite app_nil_r. done. }
  set (d := c :: data) in *. assert (0 < length d)%nat by (subst d; cbn; lia).
  unfold sink_write. set (n := Nat.min (length d) (sk_chunk s)). set (m := Nat.min n (sk_room s)).
  assert (take m d `prefix_of` d) as Hp by (exists (drop m d); by rewrite take_drop).
  destruct (m <? n)%nat eqn:En; [intros [= _ <- <-]; by exists (take m d)|].
  destruct (m =? 0)%nat eqn:Em; [intros [= _ <- <-]; by exists (take m d)|].
  apply Nat.eqb_neq in Em. intros E.
  apply IH in E as (rest & Hr & Hb & He); [|rewrite length_drop; lia].
  exists (take m d ++ rest). cbn [sk_bytes] in Hb. rewrite Hb, <- app_assoc.
  split; [|split; [done|]].
  - destruct Hr as [k Hk]. exists k. by rewrite <- app_assoc, <- Hk, take_drop.
  - intros ->. by rewrite He, take_drop.
Qed.

Lemma writeAll_spec data s count err s' :
  writeAll data s = (count, err, s') ->
  exists done, done `prefix_of` data /\ sk_bytes s' = sk_bytes s ++ done /\ (err = None -> done = data).
Proof. apply write_loop_spec. lia. Qed.

Lemma relayFrameAAD_inj d1 d2 i1 i2 l1 l2 f1 f2 :
  length d1 = 32%nat -> length d2 = 32%nat -> 0 <= i1 < 2 ^ 64 -> 0 <= i2 < 2 ^ 64 ->
  0 <= f1 < 256 -> 0 <= f2 < 256 ->
  relayFrameAAD d1 i1 l1 f1 = relayFrameAAD d2 i2 l2 f2 -> d1 = d2 /\ i1 = i2 /\ f1 = f2.
Proof.
  intros H1 H2 Hi1 Hi2 Hf1 Hf2 E. unfold relayFrameAAD in E.
  apply app_inj_1 in E as [-> E]; [|congruence].
  apply app_inj_1 in E as [Ei E]; [|by rewrite !put_uint_length].
  apply app_inj_1 in E as [_ E]; [|by rewrite !put_uint_length].
  apply put_uint_inj in Ei; [|done..]. injection E as E.
  apply (f_equal byte_val) in E. by rewrite !byte_val_of in E.
Qed.

Lemma relayContextDigest_length c : length (relayContextDigest c) = 32%nat.
Proof.
  unfold relayContextDigest. match goal with |- context [sha256 ?s] => pose proof (sha256_length s) as E end.
  rewrite <- (of_bytes_of (sha256 _)), slen_of_bytes in E. lia.
Qed.

Section Integrity.
Context `{RelayPrimitives} (key base digest data whole : bytes).

(** The frames the sender sealed under the key: the chunks of [data] in order, then
    the final frame. *)
Definition sender_frame (seq : Z) (p : bytes) (flags : Z) : Prop :=
  (flags = 0 /\ 0 <= seq /\ relay_chunks data !! Z.to_nat seq = Some p)
  \/ (flags = 1 /\ seq = Z.of_nat (length (relay_chunks data)) /\ p = []).

(** The received stream [whole] holds no forgery under the key: a part of it that
    opens is a frame the sender sealed, with the nonce and the additional data it was
    sealed with. *)
Definition unforged : Prop := forall before s after n a p,
  whole = before ++ s ++ after -> gcm_open key n s a = Some p ->
  exists seq flags, sender_frame seq p flags /\ n = relayNonce base seq
    /\ a = relayFrameAAD digest seq (Z.of_nat (length p)) flags /\ s = gcm_seal key n p a.

Context (Hauth : unforged) (Hdata : Z.of_nat (length data) <= MaxInt64)
  (Hdigest : length digest = 32%nat).

Lemma chunk_count : Z.of_nat (length (relay_chunks data)) <= MaxInt64.
Proof.
  destruct (chunks_of_spec (length data) data ltac:(lia)) as (_ & _ & E).
  unfold relay_chunks. rewrite E. unfold frame_count. pose proof frame_bytes_positive.
  etransitivity; [|exact Hdata]. destruct (decide (length data = 0%nat)) as [->|].
  - rewrite Z.div_small; lia.
  - apply Z.div_le_upper_bound; nia.
Qed.

(** A frame that opens is the next one of the sender's. *)
Lemma opened_frame digest' nonce seq before sealed after len flags p :
  whole = before ++ sealed ++ after -> 0 <= seq < 2 ^ 64 -> 0 <= flags < 256 -> length digest' = 32%nat ->
  gcm_open key nonce sealed (relayFrameAAD digest' seq len flags) = Some p ->
  digest' = digest /\ sender_frame seq p flags.
Proof.
  intros Hw Hs Hf Hd' Ho. apply (Hauth _ _ _ _ _ _ Hw) in Ho as (i & f & Hfr & _ & Ha & _).
  pose proof chunk_count as Hcc.
  assert (0 <= i < 2 ^ 64 /\ 0 <= f < 256) as [Hi Hff].
  { destruct Hfr as [(-> & Hi & Hl)|(-> & -> & _)]; [|int64_lia].
    apply lookup_lt_Some in Hl. int64_lia. }
  apply relayFrameAAD_inj in Ha as (-> & -> & ->); done.
Qed.

Lemma get_byte_bound l : (length l = 1)%nat -> 0 <= get_uint l < 256.
Proof.
  intros Hl. destruct l as [|c [|]]; try done. unfold get_uint. cbn [fold_left].
  pose proof (byte_val_range c). lia.
Qed.

(** Whatever the stream is, what the decryption loop writes is what comes next in
    the plaintext, and it accepts only after all of it. *)
Lemma decrypt_frames_prefix digest' fuel : forall turn cancelled nonce (k : nat) r total out res n out',
  length digest' = 32%nat -> (k <= length (relay_chunks data))%nat -> rd_data r `suffix_of` whole ->
  decrypt_frames fuel turn cancelled key nonce digest' (Z.of_nat k) r total out = Some (res, n, out') ->
  exists p, p `prefix_of` concat (drop k (relay_chunks data)) /\ sk_bytes out' = sk_bytes out ++ p
    /\ (res = Ok tt -> digest' = digest /\ p = concat (drop k (relay_chunks data))).
Proof.
  pose proof chunk_count as Hcc.
  induction fuel as [|fuel IH]; intros turn cancelled nonce k r total out res n out' Hd Hk [before Hbefore]; [done|].
  cbn [decrypt_frames].
  assert (forall e, Some (Fail e, total, out) = Some (res, n, out') ->
    exists p, p `prefix_of` concat (drop k (relay_chunks data)) /\ sk_bytes out' = sk_bytes out ++ p
    /\ (res = Ok tt -> digest' = digest /\ p = concat (drop k (relay_chunks data)))) as Hfail.
  { intros e [= <- _ <-]. exists []. rewrite app_nil_r. split; [apply prefix_nil|done]. }
  destruct (cancelled turn); [apply Hfail|].
  destruct (readFull _ r) as [[hdr status] r1] eqn:E1. destruct status; try apply Hfail.
  apply readFull_ok in E1 as (Hn & Hhdr & Hr1 & _). change (Z.to_nat relayFrameHeaderBytes) with 5%nat in *.
  assert (0 <= get_uint (drop 4 hdr) < 256) as Hfl.
  { apply get_byte_bound. rewrite Hhdr, length_drop, length_take. lia. }
  set (flags := get_uint (drop 4 hdr)) in *. set (len := get_uint (take 4 hdr)) in *.
  destruct (_ || _ || _ || _) eqn:Eg; [apply Hfail|]. b2p.
  destruct (readFull _ r1) as [[sealed status] r2] eqn:E2. destruct status; try apply Hfail.
  apply readFull_ok in E2 as (_ & Hsealed & Hr2 & _).
  assert (whole = (before ++ hdr) ++ sealed ++ rd_data r2) as Hwhole.
  { by rewrite Hsealed, Hr2, take_drop, Hr1, Hhdr, <- app_assoc, take_drop. }
  destruct (gcm_open _ _ _ _) as [opened|] eqn:Eo; [|apply Hfail].
  apply (opened_frame _ _ _ _ _ _ _ _ _ Hwhole) in Eo as [-> Hfr]; [|int64_lia|done|done].
  destruct Hfr as [(Hf0 & _ & Hl)|(Hf1 & Hseq & ->)].
  - rewrite Hf0. change (0 =? relayFinalFlag) with false. cbn [andb].
    rewrite Nat2Z.id in Hl. pose proof (lookup_lt_Some _ _ _ Hl) as Hlt.
    rewrite (drop_S _ _ _ Hl). cbn [concat].
    destruct (writeAll opened out) as [[count err] out1] eqn:Ew.
    apply writeAll_spec in Ew as (w & Hw & Hb & Hdone). destruct err as [e|].
    { intros [= <- _ <-]. exists w. split; [by apply prefix_app_r|]. by split. }
    rewrite Hdone in Hb by done.
    rewrite Z.mod_small by int64_lia. rewrite (proj2 (Z.eqb_neq _ 0)) by lia.
    replace (Z.of_nat k + 1) with (Z.of_nat (S k)) by lia.
    intros E. apply IH in E as (p & Hp & Hb' & Hok); [|done|lia|by eexists; rewrite app_assoc in Hwhole].
    exists (opened ++ p). rewrite Hb', Hb, <- app_assoc. split; [by apply prefix_app|]. split; [done|].
    intros Hr. by destruct (Hok Hr) as [_ ->].
  - rewrite Hf1. change (1 =? relayFinalFlag) with true. cbn [andb].
    destruct (rd_data r2); [destruct (rd_error r2)|]; try apply Hfail.
    intros [= <- _ <-]. exists []. apply Nat2Z.inj in Hseq. rewrite drop_ge by lia.
    rewrite app_nil_r. done.
Qed.
End Integrity.

Section Tampering.
Context `{RelayPrimitives}.

End Tampering.

(** ** Concrete runs *)

Definition demo_tag : bytes := replicate 16 (byte_of 7).
Definition demo_key : bytes := replicate 32 (byte_of 9).
Definition demo_context : RelayCipherContext :=
  {| rc_TaskID := "00000000-0000-4000-8000-000000000001";
     rc_WorkflowID := "00000000-0000-4000-8000-000000000002";
     rc_SnapshotID := "00000000-0000-4000-8000-000000000003" |}.

(** Primitives that keep the laws: every agreement yields one key, sealing appends
    a fixed tag. *)
Definition lawful_primitives : RelayPrimitives :=
  {| x25519_public a := take 32 (a ++ replicate 32 (byte_of 0));
     x25519_ecdh _ _ := Some demo_key; hkdf_sha256 _ _ _ := Some demo_key;
     gcm_seal _ _ p _ := p ++ demo_tag;
     gcm_open _ _ s _ := let p := take (length s - 16) s in
                         if bool_decide (s = p ++ demo_tag) then Some p else None |}.

Lemma lawful_laws : @RelayLaws lawful_primitives.
Proof.
  assert (length demo_tag = 16%nat) as Ht by done.
  constructor; intros; cbn [lawful_primitives x25519_public x25519_ecdh gcm_seal gcm_open].
  - rewrite length_app, Ht. replace (length p + 16 - 16)%nat with (length p) by lia.
    rewrite take_app_length. by rewrite bool_decide_true.
  - by rewrite length_app, Ht.
  - done.
  - rewrite length_take, length_app, length_replicate. lia.
Qed.

Definition demo_sink : sink := {| sk_bytes := []; sk_chunk := 7; sk_room := 200 |}.
Definition demo_plain : bytes := bytes_of "chat".
Definition demo_base : bytes := replicate 12 (byte_of 3).

Lemma relay_stream_roundtrip_witness : exists stream out',
  @EncryptRelayStream lawful_primitives (fun _ => false) (Some demo_key) (Some demo_base)
    {| rd_data := demo_plain; rd_error := None |}
    (of_bytes (b64_encode false (@x25519_public lawful_primitives demo_key))) demo_context demo_sink
    = Some (Ok tt, 98, out')
  /\ sk_bytes out' = sk_bytes demo_sink ++ stream /\ Z.of_nat (length stream) = 98
  /\ exists out2', @DecryptRelayStream lawful_primitives (fun _ => false)
       {| rd_data := stream; rd_error := None |} (of_bytes (b64_encode false demo_key)) demo_context demo_sink
       = Some (Ok tt, Z.of_nat (length demo_plain), out2')
     /\ sk_bytes out2' = sk_bytes demo_sink ++ demo_plain.
Proof.
  apply (@relay_stream_roundtrip lawful_primitives lawful_laws demo_key demo_key demo_base demo_context
    demo_plain demo_key demo_key 98 demo_sink demo_sink); try (vm_compute; reflexivity);
    try (cbn; lia); vm_compute; discriminate.
Defined.

(** Primitives that keep the laws and whose tag depends on everything that is sealed:
    one tag for each of the two frames of [demo_plain], another for all the rest. *)
Definition demo_digest : bytes := relayContextDigest demo_context.
Definition mac (n a p : bytes) : bytes :=
  if bool_decide (n = relayNonce demo_base 0 /\ a = relayFrameAAD demo_digest 0 4 0 /\ p = demo_plain)
  then replicate 16 (byte_of 7)
  else if bool_decide (n = relayNonce demo_base 1 /\ a = relayFrameAAD demo_digest 1 0 1 /\ p = [])
  then replicate 16 (byte_of 8)
  else replicate 16 (byte_of 200).
Definition mac_primitives : RelayPrimitives :=
  {| x25519_public a := take 32 (a ++ replicate 32 (byte_of 0));
     x25519_ecdh _ _ := Some demo_key; hkdf_sha256 _ _ _ := Some demo_key;
     gcm_seal _ n p a := p ++ mac n a p;
     gcm_open _ n s a := let p := take (length s - 16) s in
                         if bool_decide (s = p ++ mac n a p) then Some p else None |}.

Lemma mac_length n a p : length (mac n a p) = 16%nat.
Proof. unfold mac. by repeat case_bool_decide. Qed.

Lemma mac_laws : @RelayLaws mac_primitives.
Proof.
  constructor; intros; cbn [mac_primitives x25519_public x25519_ecdh gcm_seal gcm_open].
  - rewrite length_app, mac_length. replace (length p + 16 - 16)%nat with (length p) by lia.
    rewrite take_app_length. by rewrite bool_decide_true.
  - by rewrite length_app, mac_length.
  - done.
  - rewrite length_take, length_app, length_replicate. lia.
Qed.

(** What the sender makes of [demo_plain]. *)
Definition demo_stream : bytes :=
  Eval vm_compute in
  match @EncryptRelayStream mac_primitives (fun _ => false) (Some demo_key) (Some demo_base)
    {| rd_data := demo_plain; rd_error := None |}
    (of_bytes (b64_encode false (@x25519_public mac_primitives demo_key))) demo_context
    {| sk_bytes := []; sk_chunk := 7; sk_room := 200 |} with
  | Some (_, _, out) => sk_bytes out
  | None => []
  end.

Lemma demo_chunks : relay_chunks demo_plain = [demo_plain].
Proof. vm_compute. reflexivity. Qed.

(** Neither the stream nor any beginning of it holds a forgery. *)
Lemma demo_unforged whole : whole `prefix_of` demo_stream ->
  @unforged mac_primitives demo_key demo_base demo_digest demo_plain whole.
Proof.
  intros [rest Hrest] before s after n a p -> Ho. unfold sender_frame. rewrite demo_chunks.
  cbn [gcm_open gcm_seal mac_primitives] in *. case_bool_decide as Es; [|done]. injection Ho as Ho.
  rewrite Ho in Es. clear Ho. unfold mac in *.
  case_bool_decide as E1; [|case_bool_decide as E2].
  - destruct E1 as (-> & -> & ->). exists 0, 0. split; [left; done|done].
  - destruct E2 as (-> & -> & ->). exists 1, 1. split; [right; done|done].
  - exfalso. assert (byte_of 200 ∈ demo_stream) as Hin.
    { rewrite Hrest, Es, !elem_of_app. left; right; left; right. by left. }
    revert Hin. apply (bool_decide_unpack (byte_of 200 ∉ demo_stream)). vm_compute. exact I.
Qed.

