(* ===== verification/Secrets.v ===== *)
(** * Secrets at rest and derived keys

    src/internal/crypto/crypto.go, inventory.go, master_key_recovery.go, sha.go and
    sillytavern_password.go: sealing credentials under the master key, the recovery
    envelope of the master key, generated passwords, the keys derived from a node's
    pre-shared key, and the fingerprints of the account inventory.

    AES-GCM is the class of RelayCrypto; scrypt and Unicode normalisation are
    arguments.  [rand n] is what the random source yields for [n] bytes. *)

From Stdlib Require Import ZArith Lia Ascii String.
From stdpp Require Import base sets list strings.
From S2P Require Import Prelude GoStrings Sha256 Protocol Base64 RelayCrypto.
#[local] Open Scope Z_scope.

Definition sha256Of (s : string) : string := sha256 s.

(** ** Derived keys *)

Definition DeriveAgentCommandKey (psk : string) : string := sha256Of ("stcontrol-agent-command:v1:" +:+ psk).
Definition DeriveAgentCommandAuthKey (psk : string) : string :=
  sha256Of ("stcontrol-agent-command-auth:v1:" +:+ psk).
Definition DeriveAgentCredentialRotationKey (psk : string) : string :=
  sha256Of ("stcontrol-agent-credential-rotation:v1:" +:+ psk).
Definition DeriveAgentInventoryKey (psk : string) : string := sha256Of ("stcontrol-agent-inventory:v1:" +:+ psk).

(** ** Inventory fingerprints *)

Fixpoint fingerprint_parts (parts : list string) : string :=
  match parts with
  | [] => ""
  | part :: parts => of_bytes (put_uint 8 (slen part)) +:+ part +:+ fingerprint_parts parts
  end.

Definition fingerprint_message (purpose : string) (parts : list string) : string :=
  "stcontrol-agent-inventory-fingerprint:v1" +:+ newline +:+ purpose +:+ fingerprint_parts parts.

Definition AgentInventoryFingerprint (psk purpose : string) (parts : list string) : string :=
  hex_encode (hmac_sha256 (DeriveAgentInventoryKey psk) (fingerprint_message purpose parts)).

(** ** The master key *)

Definition LoadKey (b64 : string) : result bytes :=
  match b64_decode true (bytes_of b64) with
  | None => Fail "decode secret key"
  | Some key => if (length key =? 32)%nat then Ok key else Fail "secret key must be 32 bytes"
  end.

Definition GenerateKey (rand : nat -> option bytes) : result string :=
  match rand 32%nat with
  | None => Fail "rand"
  | Some b => Ok (of_bytes (b64_encode true b))
  end.

(** RawURLEncoding differs from RawStdEncoding in two characters of its alphabet. *)
Definition url_char (c : ascii) : ascii :=
  if byte_val c =? 43 then byte_of 45 else if byte_val c =? 47 then byte_of 95 else c.

Definition RandomPassword (rand : nat -> option bytes) (n : Z) : result string :=
  let n := if n <=? 0 then 24 else n in
  match rand (Z.to_nat n) with
  | None => Fail "rand"
  | Some b =>
      let s := map url_char (b64_encode false b) in
      Ok (of_bytes (if n <? Z.of_nat (length s) then take (Z.to_nat n) s else s))
  end.

(** ** Sealed values *)

Definition gcmNonceSize : nat := 12.
Definition aes_key (key : bytes) : bool :=
  (length key =? 16)%nat || (length key =? 24)%nat || (length key =? 32)%nat.

Record MasterKeyRecoveryEnvelope := {
  mk_FormatVersion : Z;
  mk_ScryptN : Z;
  mk_ScryptR : Z;
  mk_ScryptP : Z;
  mk_SaltB64 : string;
  mk_CiphertextB64 : string
}.

Section Secrets.
Context `{RelayPrimitives}.
Context (scrypt_key : string -> bytes -> Z -> Z -> Z -> Z -> option bytes) (nfc : string -> string).

Definition Encrypt (rand : nat -> option bytes) (key plaintext : bytes) : result string :=
  if negb (aes_key key) then Fail "aes key size"
  else match rand gcmNonceSize with
  | None => Fail "rand"
  | Some nonce => Ok (of_bytes (b64_encode true (nonce ++ gcm_seal key nonce plaintext [])))
  end.

Definition Decrypt (key : bytes) (encoded : string) : result bytes :=
  match b64_decode true (bytes_of encoded) with
  | None => Fail "base64"
  | Some data =>
      if negb (aes_key key) then Fail "aes key size"
      else if (length data <? gcmNonceSize)%nat then Fail "ciphertext too short"
      else match gcm_open key (take gcmNonceSize data) (drop gcmNonceSize data) [] with
           | None => Fail "cipher: message authentication failed"
           | Some plaintext => Ok plaintext
           end
  end.

Definition SealMasterKeyRecovery (rand : nat -> option bytes) (passphrase : string) (masterKey : bytes)
  : result MasterKeyRecoveryEnvelope :=
  if slen passphrase <? 8 then Fail "recovery passphrase must be at least 8 characters"
  else if negb (length masterKey =? 32)%nat then Fail "master key must be 32 bytes"
  else match rand 16%nat with
  | None => Fail "rand"
  | Some salt =>
  match scrypt_key passphrase salt (2 ^ 17) 8 1 32 with
  | None => Fail "scrypt"
  | Some derived =>
  if negb (aes_key derived) then Fail "aes key size"
  else match rand gcmNonceSize with
  | None => Fail "rand"
  | Some nonce =>
      Ok {| mk_FormatVersion := 1; mk_ScryptN := 2 ^ 17; mk_ScryptR := 8; mk_ScryptP := 1;
            mk_SaltB64 := of_bytes (b64_encode true salt);
            mk_CiphertextB64 := of_bytes (b64_encode true (nonce ++ gcm_seal derived nonce masterKey [])) |}
  end end end.

Definition OpenMasterKeyRecovery (passphrase : string) (envelope : option MasterKeyRecoveryEnvelope)
  : result bytes :=
  match envelope with
  | None => Fail "unsupported master key recovery envelope"
  | Some e =>
  if negb (mk_FormatVersion e =? 1) then Fail "unsupported master key recovery envelope"
  else if slen passphrase <? 8 then Fail "recovery passphrase must be at least 8 characters"
  else if (mk_ScryptN e <=? 0) || (mk_ScryptR e <=? 0) || (mk_ScryptP e <=? 0)
          || (2 ^ 20 <? mk_ScryptN e) || (64 <? mk_ScryptR e) || (4 <? mk_ScryptP e)
  then Fail "invalid recovery KDF parameters"
  else match b64_decode true (bytes_of (mk_SaltB64 e)) with
  | None => Fail "invalid recovery salt"
  | Some salt =>
  if (length salt <? 8)%nat then Fail "invalid recovery salt"
  else match scrypt_key passphrase salt (mk_ScryptN e) (mk_ScryptR e) (mk_ScryptP e) 32 with
  | None => Fail "scrypt"
  | Some derived =>
  if negb (aes_key derived) then Fail "aes key size"
  else match b64_decode true (bytes_of (mk_CiphertextB64 e)) with
  | None => Fail "invalid recovery ciphertext"
  | Some raw =>
  if (length raw <? gcmNonceSize)%nat then Fail "invalid recovery ciphertext"
  else match gcm_open derived (take gcmNonceSize raw) (drop gcmNonceSize raw) [] with
  | None => Fail "recovery passphrase incorrect or envelope corrupted"
  | Some plaintext =>
      if negb (length plaintext =? 32)%nat then Fail "unwrapped master key has invalid length"
      else Ok plaintext
  end end end end end.

Definition SillyTavernPasswordMaterial (rand : nat -> option bytes) (password : string)
  : result (string * string) :=
  match rand 16%nat with
  | None => Fail "generate password salt"
  | Some saltBytes =>
      let salt := of_bytes (b64_encode true saltBytes) in
      match scrypt_key (nfc password) (bytes_of salt) (2 ^ 14) 8 1 64 with
      | None => Fail "derive SillyTavern password hash"
      | Some hashBytes => Ok (of_bytes (b64_encode true hashBytes), salt)
      end
  end.

(** ** Round trips *)

(** A random source that yields the bytes it is asked for, or fails. *)
Definition honest (rand : nat -> option bytes) : Prop := forall n b, rand n = Some b -> length b = n.

Context `{!RelayLaws} (rand : nat -> option bytes) (Hrand : honest rand).

Lemma nonce_split (nonce rest : bytes) :
  length nonce = gcmNonceSize ->
  take gcmNonceSize (nonce ++ rest) = nonce /\ drop gcmNonceSize (nonce ++ rest) = rest
  /\ (length (nonce ++ rest) <? gcmNonceSize)%nat = false.
Proof.
  intros Hn. rewrite take_app_length', drop_app_length' by done.
  split; [done|]. split; [done|]. apply Nat.ltb_ge. rewrite length_app. lia.
Qed.

Lemma Decrypt_Encrypt key plaintext c : Encrypt rand key plaintext = Ok c -> Decrypt key c = Ok plaintext.
Proof.
  unfold Encrypt, Decrypt. guards. destruct (rand gcmNonceSize) as [nonce|] eqn:En; [|done].
  intros [= <-]. rewrite bytes_of_bytes, b64_decode_encode.
  destruct (nonce_split nonce (gcm_seal key nonce plaintext [])) as (-> & -> & ->); [by apply Hrand|].
  by rewrite gcm_open_seal.
Qed.

(** Secrets survive storage.  What Encrypt seals under a key, Decrypt opens under
    it; and a recovery envelope sealed for the master key opens, with the same
    passphrase, to exactly that master key: the key that is loaded afterwards is the
    key that was lost. *)
Theorem secrets_roundtrip key plaintext passphrase masterKey :
  (forall c, Encrypt rand key plaintext = Ok c -> Decrypt key c = Ok plaintext)
  /\ (forall e, SealMasterKeyRecovery rand passphrase masterKey = Ok e ->
        OpenMasterKeyRecovery passphrase (Some e) = Ok masterKey
        /\ LoadKey (of_bytes (b64_encode true masterKey)) = Ok masterKey).
Proof.
  split.
  - apply Decrypt_Encrypt.
  - intros e. unfold SealMasterKeyRecovery. guards. b2p. destruct (rand 16%nat) as [salt|] eqn:Es; [|done].
    destruct (scrypt_key _ _ _ _ _ _) as [derived|] eqn:Ed; [|done].
    destruct (negb (aes_key derived)) eqn:Ea; [done|].
    destruct (rand gcmNonceSize) as [nonce|] eqn:En; [|done]. intros [= <-]. split.
    + unfold OpenMasterKeyRecovery. cbn [mk_FormatVersion mk_ScryptN mk_ScryptR mk_ScryptP mk_SaltB64 mk_CiphertextB64].
      rewrite (proj2 (Z.ltb_ge _ _)) by done. rewrite !bytes_of_bytes, !b64_decode_encode.
      rewrite (Hrand _ _ Es). change (negb (1 =? 1)) with false. change (16 <? 8)%nat with false. cbn [orb Z.leb Z.ltb].
      change (_ || (4 <? 1)) with false. rewrite Ed, Ea.
      destruct (nonce_split nonce (gcm_seal derived nonce masterKey [])) as (-> & -> & ->); [by apply Hrand|].
      rewrite gcm_open_seal. by rewrite G0.
    + unfold LoadKey. rewrite bytes_of_bytes, b64_decode_encode. by rewrite G0.
Qed.
End Secrets.

(** Nothing but a 32 byte key ever comes out of a recovery envelope, and only under
    bounded key derivation costs. *)
Lemma recovered_key_bounds `{RelayPrimitives} scrypt_key passphrase e key :
  OpenMasterKeyRecovery scrypt_key passphrase (Some e) = Ok key ->
  length key = 32%nat /\ 0 < mk_ScryptN e <= 2 ^ 20 /\ 0 < mk_ScryptR e <= 64 /\ 0 < mk_ScryptP e <= 4.
Proof.
  unfold OpenMasterKeyRecovery. guards. destruct (b64_decode _ _) as [salt|]; [|done]. guards.
  destruct (scrypt_key _ _ _ _ _ _) as [derived|]; [|done]. guards.
  destruct (b64_decode _ _) as [raw|]; [|done]. guards.
  destruct (gcm_open _ _ _ _) as [p|]; [|done]. guards. intros [= <-]. b2p.
  apply Nat.eqb_eq in G5. lia.
Qed.

(** ** Generated passwords *)

Lemma b64_encode_length l : (length l <= length (b64_encode false l))%nat.
Proof.
  revert l. fix IH 1. intros [|a [|b [|c l]]]; cbn; try lia. specialize (IH l). lia.
Qed.

(** Generated passwords have the requested length, whatever it is; a length
    that is not positive means 24. *)
Theorem random_password_length rand n pw :
  honest rand -> RandomPassword rand n = Ok pw -> slen pw = if n <=? 0 then 24 else n.
Proof.
  intros Hr. unfold RandomPassword. set (m := if n <=? 0 then 24 else n).
  assert (0 < m) by (subst m; destruct (n <=? 0) eqn:E; b2p; lia).
  destruct (rand (Z.to_nat m)) as [b|] eqn:Eb; [|done]. intros [= <-]. rewrite slen_of_bytes.
  pose proof (b64_encode_length b) as Hl. apply Hr in Eb. rewrite length_map.
  destruct (m <? _) eqn:E; b2p; rewrite ?length_take, ?length_map; lia.
Qed.

(** ** Fingerprints *)

Lemma fingerprint_parts_inj parts : forall parts',
  Forall (fun s => slen s < 2 ^ 64) parts -> Forall (fun s => slen s < 2 ^ 64) parts' ->
  fingerprint_parts parts = fingerprint_parts parts' -> parts = parts'.
Proof.
  assert (forall s r r' : string, of_bytes (put_uint 8 (slen s)) +:+ r = r' ->
    bytes_of r' = put_uint 8 (slen s) ++ bytes_of r) as Hb.
  { intros s r r' <-. by rewrite bytes_of_app, bytes_of_bytes. }
  induction parts as [|s parts IH]; intros [|s' parts'] Hf Hf' E; [done|..];
    apply (f_equal bytes_of) in E; cbn [fingerprint_parts] in E.
  - by rewrite (Hb _ _ _ eq_refl) in E.
  - by rewrite (Hb _ _ _ eq_refl) in E.
  - rewrite !(Hb _ _ _ eq_refl) in E. apply Forall_cons in Hf as [Hs Hf]. apply Forall_cons in Hf' as [Hs' Hf'].
    apply app_inj_1 in E as [El E]; [|by rewrite !put_uint_length].
    apply put_uint_inj in El; [|unfold slen in *; lia..].
    rewrite !bytes_of_app in E. apply app_inj_1 in E as [E1 E2].
    2: { apply Nat2Z.inj. by rewrite <- !slen_of_bytes, !of_bytes_of. }
    apply bytes_of_inj in E1 as ->. apply bytes_of_inj in E2. by rewrite (IH parts').
Qed.

Lemma put_uint_small v : 0 <= v < 2 ^ 56 -> exists r, put_uint 8 v = byte_of 0 :: r.
Proof.
  intros Hv. unfold put_uint. cbn [be_bytes map]. rewrite be_bytes_head.
  rewrite (Z.div_small v) by (change (256 ^ Z.of_nat 7) with (2 ^ 56); lia). by eexists.
Qed.

(** A text without the separator ends where the separator or the end comes. *)
Lemma sep_prefix_inj {A} (sep : A) (p p' x x' : list A) :
  sep ∉ p -> sep ∉ p' -> (x = [] \/ exists r, x = sep :: r) -> (x' = [] \/ exists r, x' = sep :: r) ->
  p ++ x = p' ++ x' -> p = p' /\ x = x'.
Proof.
  revert p'. induction p as [|c p IH]; intros [|c' p'] Hp Hp' Hx Hx' E.
  - done.
  - destruct Hx as [-> | [r ->]]; [done|]. cbn in E. simplify_eq. set_solver.
  - destruct Hx' as [-> | [r ->]]; [done|]. cbn in E. simplify_eq. set_solver.
  - cbn in E. simplify_eq. destruct (IH p') as [-> ->]; set_solver.
Qed.

Lemma hex_encode_inj (s t : string) : hex_encode s = hex_encode t -> s = t.
Proof. intros E. apply (inj Some). by rewrite <- !hex_decode_encode, E. Qed.

(** A fingerprint identifies its purpose and its parts.  Two fingerprints under
    one node's key are equal only when both the purpose and the list of parts are
    the same: no boundary between parts can be moved, and no purpose runs into the
    parts that follow it.  The messages are taken not to collide under HMAC. *)
Theorem fingerprint_identifies psk purpose purpose' parts parts' :
  let key := DeriveAgentInventoryKey psk in
  byte_of 0 ∉ bytes_of purpose -> byte_of 0 ∉ bytes_of purpose' ->
  Forall (fun s => slen s < 2 ^ 56) parts -> Forall (fun s => slen s < 2 ^ 56) parts' ->
  (hmac_sha256 key (fingerprint_message purpose parts) = hmac_sha256 key (fingerprint_message purpose' parts') ->
   fingerprint_message purpose parts = fingerprint_message purpose' parts') ->
  AgentInventoryFingerprint psk purpose parts = AgentInventoryFingerprint psk purpose' parts' ->
  purpose = purpose' /\ parts = parts'.
Proof.
  intros key Hn Hn' Hp Hp' Hmac E. unfold AgentInventoryFingerprint in E.
  apply hex_encode_inj, Hmac in E. unfold fingerprint_message in E.
  apply (f_equal bytes_of) in E. rewrite !bytes_of_app in E. apply app_inv_head in E. apply app_inv_head in E.
  assert (forall l, Forall (fun s => slen s < 2 ^ 56) l ->
    bytes_of (fingerprint_parts l) = [] \/ exists r, bytes_of (fingerprint_parts l) = byte_of 0 :: r) as Hz.
  { intros [|s l] Hl; [by left|]. right. apply Forall_cons in Hl as [Hl _]. cbn [fingerprint_parts].
    destruct (put_uint_small (slen s)) as [r Hr]; [unfold slen in *; lia|].
    rewrite bytes_of_app, bytes_of_bytes, Hr. by eexists. }
  apply (sep_prefix_inj (byte_of 0)) in E as [E1 E2]; auto. split; [by apply bytes_of_inj|].
  apply bytes_of_inj in E2. apply fingerprint_parts_inj; [..|done];
    (eapply Forall_impl; [eassumption|]); intros s Hs; cbn in *; lia.
Qed.

Lemma fingerprint_identifies_witness :
  AgentInventoryFingerprint "psk" "oauth" ["github"; "42"]
  = AgentInventoryFingerprint "psk" "oauth" ["github"; "42"]
  /\ ("oauth"%string = "oauth"%string /\ ["github"; "42"]%string = ["github"; "42"]%string).
Proof.
  split; [reflexivity|].
  apply (fingerprint_identifies "psk" "oauth" "oauth" ["github"; "42"] ["github"; "42"]).
  1-2: apply (bool_decide_eq_true_1 _); reflexivity.
  1-2: repeat constructor.
  - intros _. reflexivity.
  - reflexivity.
Defined.

(** The boundary between parts is part of the fingerprint. *)
Example fingerprint_boundary :
  String.eqb (AgentInventoryFingerprint "psk" "oauth" ["ab"; "c"])
             (AgentInventoryFingerprint "psk" "oauth" ["a"; "bc"]) = false.
Proof. vm_compute. reflexivity. Qed.

Definition demo_rand (n : nat) : option bytes := Some (replicate n (byte_of 5)).

Lemma demo_rand_honest : honest demo_rand.
Proof. intros n b [= <-]. apply length_replicate. Qed.

Lemma secrets_roundtrip_witness :
  let scrypt := fun _ _ _ _ _ _ => Some demo_key in
  exists c e, @Encrypt lawful_primitives demo_rand demo_key demo_plain = Ok c
    /\ @Decrypt lawful_primitives demo_key c = Ok demo_plain
    /\ @SealMasterKeyRecovery lawful_primitives scrypt demo_rand "passphrase" demo_key = Ok e
    /\ @OpenMasterKeyRecovery lawful_primitives scrypt "passphrase" (Some e) = Ok demo_key.
Proof.
  intros scrypt.
  destruct (@secrets_roundtrip lawful_primitives scrypt lawful_laws demo_rand demo_rand_honest
    demo_key demo_plain "passphrase" demo_key) as [H1 H2].
  do 2 eexists. split; [reflexivity|]. split; [apply H1; reflexivity|].
  split; [reflexivity|]. apply H2. reflexivity.
Defined.

Lemma random_password_length_witness : exists pw, RandomPassword demo_rand 48 = Ok pw /\ slen pw = 48.
Proof. eexists. split; [reflexivity|]. apply (random_password_length demo_rand 48); [apply demo_rand_honest|done]. Defined.
