(* ===== verification/PeerWitness.v ===== *)
(** * Peer witnesses of a Controller outage

    src/internal/agent/peer_witness.go: the replay cache for witness requests,
    the witness endpoint, the check of a witness's signed answer and the quorum
    rule.  [marshal]/[unmarshal] stand for [encoding/json] on the response type
    ([unmarshal] is the strict decode: unknown fields and trailing data refused);
    [url_parse] stands for [net/url.Parse] followed by the accessors the code
    reads. *)

From Stdlib Require Import ZArith Lia Ascii String.
From stdpp Require Import base list gmap strings pretty.
From S2P Require Import Prelude GoStrings Sha256 Protocol AgentState.
#[local] Open Scope Z_scope.

Definition peerWitnessRoute : string := "/agent/disaster-witness/v1".
Definition maxPeerWitnessRequestBytes : Z := 4096.
Definition maxPeerWitnessResponseBytes : Z := 4096.
Definition maxPeerWitnesses : Z := 8.
Definition minimumPeerWitnessSecretBytes : Z := 32.

(** ** Replay cache *)

Definition maxWitnessNonces : nat := 4096.

(** Every entry whose expiry is not after [now] is deleted before the lookup. *)
Definition live_nonces (m : gmap string time) (now : time) : gmap string time :=
  filter (fun kv => now < snd kv) m.

Definition consumeWitnessNonce (nonce : string) (now : time) (a : Agent) : bool * Agent :=
  let m := live_nonces (ag_witnessNonces a) now in
  if bool_decide (is_Some (m !! nonce)) || bool_decide (maxWitnessNonces <= size m)%nat
  then (false, with_nonces a m)
  else (true, with_nonces a (<[nonce := now + 2 * MaxClockSkew]> m)).

(** ** Policy *)

(** What [peerWitnessEndpoint] reads of a parsed URL. *)
Record parsedURL := {
  u_Scheme : string;
  u_Host : string;
  u_HasUser : bool;
  u_RawQuery : string;
  u_Fragment : string;
  u_Path : string;
  u_Loopback : bool;           (* hostname is "localhost" or a loopback address *)
  u_WithPath : string -> string (* String() after Path is replaced *)
}.

Section Witness.
Context (url_parse : string -> option parsedURL).

Definition peerWitnessEndpoint (raw : string) : result string :=
  match url_parse raw with
  | None => Fail "invalid peer witness URL"
  | Some u =>
      if String.eqb (u_Host u) "" || u_HasUser u || negb (String.eqb (u_RawQuery u) "")
         || negb (String.eqb (u_Fragment u) "")
         || (negb (String.eqb (u_Path u) "") && negb (String.eqb (u_Path u) "/"))
      then Fail "invalid peer witness URL"
      else if negb (String.eqb (u_Scheme u) "https")
              && negb (String.eqb (u_Scheme u) "http" && u_Loopback u)
      then Fail "peer witness URL must use HTTPS"
      else Ok (u_WithPath u peerWitnessRoute)
  end.

Fixpoint checkEndpoints (seen : list string) (raws : list string) : result unit :=
  match raws with
  | [] => Ok tt
  | raw :: raws =>
      try endpoint := peerWitnessEndpoint raw in
      if bool_decide (endpoint ∈ seen) then Fail "duplicate peer witness URL"
      else checkEndpoints (endpoint :: seen) raws
  end.

(** The last test of [validatePeerWitnessPolicy] reads only the name of the
    environment variable that holds the secret; [envNameOK] is its outcome. *)
Definition validatePeerWitnessPolicy (policy : AgentDisasterPolicy) (envNameOK : bool)
  : result unit :=
  if maxPeerWitnesses <? Z.of_nat (length (pol_PeerWitnessURLs policy)) then
    Fail "too many peer witnesses"
  else
    try _ := checkEndpoints [] (pol_PeerWitnessURLs policy) in
    if envNameOK then Ok tt else Fail "invalid peer witness secret environment variable".

(** ** The witness endpoint *)

Record peerWitnessResponse := {
  pw_OK : bool;
  pw_WitnessNodeID : Z;
  pw_ControllerFingerprint : string;
  pw_ControllerAvailable : bool;
  pw_ObservedAt : Z;
}.

Context (marshal : peerWitnessResponse -> string).
Context (unmarshal : string -> option peerWitnessResponse).

(** The request facts [handlePeerWitness] reads beside the signed headers.
    [wq_Fingerprint] is the strictly decoded body, [None] when decoding fails. *)
Record witnessRequest := {
  wq_RawQuery : string;
  wq_ContentType : string;
  wq_ContentLength : Z;
  wq_ReadOK : bool;
  wq_Http : httpRequest;
  wq_Fingerprint : option string;
}.

(** Status, response body and the two response headers. *)
Record witnessReply := {
  wr_Status : Z;
  wr_Body : string;
  wr_Timestamp : string;
  wr_Signature : string;
}.

Definition witness_error (status : Z) : witnessReply :=
  {| wr_Status := status; wr_Body := "error"; wr_Timestamp := ""; wr_Signature := "" |}.

Definition witness_answer (a : Agent) (localfp : string) (available : bool) (now : time)
  : peerWitnessResponse :=
  {| pw_OK := true; pw_WitnessNodeID := cfg_NodeID (ag_Cfg a);
     pw_ControllerFingerprint := localfp; pw_ControllerAvailable := available;
     pw_ObservedAt := unix_milli now |}.

(** [fingerprint] is the result of [controllerFingerprint], [slotFree] whether a
    [witnessSlots] token is available, [available] the answer of the local
    Controller health probe. *)
Definition handlePeerWitness (a : Agent) (rq : witnessRequest) (fingerprint : option string)
  (slotFree available : bool) (now : time) : witnessReply * Agent :=
  if slen (ag_witnessSecret a) <? minimumPeerWitnessSecretBytes then (witness_error 503, a)
  else if negb (String.eqb (wq_RawQuery rq) "")
          || negb (String.eqb (wq_ContentType rq) "application/json")
          || (wq_ContentLength rq <=? 0) || (maxPeerWitnessRequestBytes <? wq_ContentLength rq)
  then (witness_error 400, a)
  else
    let h := wq_Http rq in
    let authenticated :=
      wq_ReadOK rq &&
      match parse_int64 (rq_AgentID h) with
      | Some id => negb (id <=? 0) && negb (id =? cfg_NodeID (ag_Cfg a))
      | None => false
      end && is_ok (VerifyRequest h (ag_witnessSecret a) now) in
    if negb authenticated then (witness_error 401, a)
    else
      let '(fresh, a) := consumeWitnessNonce (rq_Nonce h) now a in
      if negb fresh then (witness_error 401, a)
      else match wq_Fingerprint rq, fingerprint with
      | Some fp, Some localfp =>
          if negb (slen fp =? 64) || negb (String.eqb fp localfp) then (witness_error 400, a)
          else if negb slotFree then (witness_error 429, a)
          else
            let response := witness_answer a localfp available now in
            let timestamp := pretty (Z.quot (unix_milli now) 1000) in
            ({| wr_Status := 200; wr_Body := marshal response; wr_Timestamp := timestamp;
                wr_Signature := Sign (ag_witnessSecret a) "RESPONSE" peerWitnessRoute timestamp
                                  (rq_Nonce h) (marshal response) |}, a)
      | _, _ => (witness_error 400, a)
      end.

(** ** Checking an answer *)

Record peerWitnessResult := {
  pr_valid : bool;
  pr_controllerAvailable : bool;
  pr_witnessNodeID : Z;
}.

Definition no_result : peerWitnessResult :=
  {| pr_valid := false; pr_controllerAvailable := false; pr_witnessNodeID := 0 |}.

Definition absDuration (d : duration) : duration := if d <? 0 then wrap64 (- d) else d.

(** [probePeerWitness] after the HTTP exchange.  [reply = None] is a transport
    error; [nonce] is the nonce of the signed request it sent. *)
Definition probePeerWitness (a : Agent) (fingerprint nonce : string)
  (reply : option witnessReply) (now : time) : peerWitnessResult :=
  match reply with
  | None => no_result
  | Some r =>
      if (maxPeerWitnessResponseBytes <? slen (wr_Body r)) || negb (wr_Status r =? 200)
      then no_result
      else match parse_int64 (wr_Timestamp r) with
      | None => no_result
      | Some ts =>
          if MaxClockSkew <? absDuration (time_sub now (of_unix ts)) then no_result
          else if negb (String.eqb (Sign (ag_witnessSecret a) "RESPONSE" peerWitnessRoute
                     (wr_Timestamp r) nonce (wr_Body r)) (wr_Signature r))
          then no_result
          else match unmarshal (wr_Body r) with
          | None => no_result
          | Some res =>
              if negb (pw_OK res) || (pw_WitnessNodeID res <=? 0)
                 || (pw_WitnessNodeID res =? cfg_NodeID (ag_Cfg a))
                 || negb (String.eqb (pw_ControllerFingerprint res) fingerprint)
                 || negb (Z.quot (pw_ObservedAt res) 1000 =? ts)
                 || (MaxClockSkew <? absDuration (time_sub now (of_unix_milli (pw_ObservedAt res))))
              then no_result
              else {| pr_valid := true; pr_controllerAvailable := pw_ControllerAvailable res;
                      pr_witnessNodeID := pw_WitnessNodeID res |}
          end
      end
  end.

(** ** Quorum *)

(** The collecting loop.  [arrivals] are the probe results in the order they are
    received; [pending] counts the answers still awaited.  When it stays positive
    after the last arrival the context has expired, which returns false. *)
Fixpoint collectWitnesses (pending : nat) (arrivals : list peerWitnessResult)
  (confirmed : gset Z) : option (gset Z) :=
  match pending with
  | O => Some confirmed
  | S pending =>
      match arrivals with
      | [] => None
      | r :: arrivals =>
          if negb (pr_valid r) then collectWitnesses pending arrivals confirmed
          else if pr_controllerAvailable r then None
          else collectWitnesses pending arrivals ({[pr_witnessNodeID r]} ∪ confirmed)
      end
  end.

Definition requiredPeerConfirmations (peers : nat) : Z := (Z.of_nat peers + 1) / 2.

Definition peerWitnessQuorumConfirmsLoss (a : Agent) (envNameOK : bool)
  (fingerprint : option string) (arrivals : list peerWitnessResult) : bool :=
  let urls := pol_PeerWitnessURLs (cfg_Disaster (ag_Cfg a)) in
  if (slen (ag_witnessSecret a) <? minimumPeerWitnessSecretBytes)
     || bool_decide (length urls = 0)%nat
     || negb (is_ok (validatePeerWitnessPolicy (cfg_Disaster (ag_Cfg a)) envNameOK))
  then false
  else match fingerprint with
  | None => false
  | Some _ =>
      match collectWitnesses (length urls) arrivals ∅ with
      | None => false
      | Some confirmed =>
          requiredPeerConfirmations (length urls) <=? Z.of_nat (size confirmed)
      end
  end.

(** ** Replay-cache lemmas *)

Lemma live_lookup (m : gmap string time) (now : time) (k : string) (e : time) :
  live_nonces m now !! k = Some e <-> m !! k = Some e /\ now < e.
Proof. unfold live_nonces. rewrite map_lookup_filter_Some. done. Qed.

Lemma live_size (m : gmap string time) (now : time) : (size (live_nonces m now) <= size m)%nat.
Proof. unfold live_nonces. apply map_size_filter. Qed.

Lemma consume_remembers (nonce : string) (now : time) (a : Agent) :
  fst (consumeWitnessNonce nonce now a) = true ->
  ag_witnessNonces (snd (consumeWitnessNonce nonce now a)) !! nonce
  = Some (now + 2 * MaxClockSkew).
Proof.
  unfold consumeWitnessNonce. destruct (_ || _); [done|]. intros _. apply lookup_insert_eq.
Qed.

Lemma consume_keeps (nonce other : string) (now e : time) (a : Agent) :
  ag_witnessNonces a !! nonce = Some e -> now < e ->
  exists e', ag_witnessNonces (snd (consumeWitnessNonce other now a)) !! nonce = Some e' /\ e <= e'.
Proof.
  intros Hm Hlt.
  assert (live_nonces (ag_witnessNonces a) now !! nonce = Some e) as Hl by by apply live_lookup.
  unfold consumeWitnessNonce. destruct (decide (other = nonce)) as [->|Hne].
  - rewrite bool_decide_true by (rewrite Hl; eauto). exists e. split; [exact Hl|lia].
  - exists e. split; [|lia]. destruct (_ || _); [exact Hl|].
    cbn [snd ag_witnessNonces with_nonces]. by rewrite lookup_insert_ne.
Qed.

Lemma consume_rejects (nonce : string) (now e : time) (a : Agent) :
  ag_witnessNonces a !! nonce = Some e -> now < e ->
  fst (consumeWitnessNonce nonce now a) = false.
Proof.
  intros Hm Hlt. unfold consumeWitnessNonce.
  rewrite bool_decide_true; [done|]. exists e. by apply live_lookup.
Qed.

Lemma consume_bounded (nonce : string) (now : time) (a : Agent) :
  (size (ag_witnessNonces a) <= maxWitnessNonces)%nat ->
  (size (ag_witnessNonces (snd (consumeWitnessNonce nonce now a))) <= maxWitnessNonces)%nat.
Proof.
  intros H. unfold consumeWitnessNonce.
  pose proof (live_size (ag_witnessNonces a) now) as Hs.
  destruct (bool_decide (is_Some _)) eqn:E1; [simpl; lia|].
  destruct (bool_decide (maxWitnessNonces <= _)%nat) eqn:E2; [simpl; lia|]. b2p.
  cbn [orb snd ag_witnessNonces with_nonces]. rewrite map_size_insert_None; [lia|].
  by apply eq_None_not_Some.
Qed.

(** What [handlePeerWitness] does to the cache: at most one [consume]. *)
Lemma handle_nonces a rq fp slot av now :
  snd (handlePeerWitness a rq fp slot av now) = a \/
  snd (handlePeerWitness a rq fp slot av now)
  = snd (consumeWitnessNonce (rq_Nonce (wq_Http rq)) now a).
Proof.
  unfold handlePeerWitness. destruct (_ <? _); [by left|].
  destruct (_ || _ || _ || _); [by left|].
  destruct (negb _); [by left|]. right.
  destruct (consumeWitnessNonce _ now a) as [fresh a'].
  destruct fresh; [|done]. cbn [negb].
  destruct (wq_Fingerprint rq), fp; try done. destruct (_ || _); [done|]. by destruct slot.
Qed.

(** A 200 answer means that the request authenticated and its nonce was new. *)
Lemma handle_ok a rq fp slot av now :
  wr_Status (fst (handlePeerWitness a rq fp slot av now)) = 200 ->
  VerifyRequest (wq_Http rq) (ag_witnessSecret a) now = Ok tt /\
  fst (consumeWitnessNonce (rq_Nonce (wq_Http rq)) now a) = true /\
  snd (handlePeerWitness a rq fp slot av now)
  = snd (consumeWitnessNonce (rq_Nonce (wq_Http rq)) now a).
Proof.
  unfold handlePeerWitness. destruct (_ <? _); [done|].
  destruct (_ || _ || _ || _); [done|].
  destruct (negb _) eqn:Hauth; [done|].
  apply negb_false_iff in Hauth. apply andb_true_iff in Hauth as [_ Hauth].
  destruct (VerifyRequest _ _ _) as [[]|]; [|done].
  destruct (consumeWitnessNonce _ now a) as [fresh a']. destruct fresh; [|done]. cbn [negb].
  destruct (wq_Fingerprint rq), fp; try done. destruct (_ || _); [done|]. by destruct slot.
Qed.

Lemma consume_secret nonce now a :
  ag_witnessSecret (snd (consumeWitnessNonce nonce now a)) = ag_witnessSecret a.
Proof. unfold consumeWitnessNonce. by destruct (_ || _). Qed.

(** A sequence of witness requests served by one process. *)
Record witnessCall := {
  wc_Request : witnessRequest;
  wc_Fingerprint : option string;
  wc_SlotFree : bool;
  wc_Available : bool;
  wc_Now : time;
}.

Definition serve (a : Agent) (c : witnessCall) : Agent :=
  snd (handlePeerWitness a (wc_Request c) (wc_Fingerprint c) (wc_SlotFree c) (wc_Available c)
         (wc_Now c)).

Lemma serve_keeps (calls : list witnessCall) : forall (a : Agent) (nonce : string) (e : time),
  ag_witnessNonces a !! nonce = Some e ->
  Forall (fun c => wc_Now c < e) calls ->
  exists e', ag_witnessNonces (foldl serve a calls) !! nonce = Some e' /\ e <= e'.
Proof.
  induction calls as [|c calls IH]; intros a nonce e Hm Hc; [exists e; simpl; split; [done|lia]|].
  inversion_clear Hc as [|?? Hlt Hrest]. simpl.
  assert (exists e', ag_witnessNonces (serve a c) !! nonce = Some e' /\ e <= e') as (e1 & H1 & Hle).
  { unfold serve. edestruct handle_nonces as [->| ->]; [exists e; split; [done|lia]|].
    by apply consume_keeps. }
  destruct (IH (serve a c) nonce e1 H1) as (e2 & H2 & Hle2).
  - eapply Forall_impl; [exact Hrest|]. simpl. lia.
  - exists e2. split; [done|lia].
Qed.

Lemma collect_spec (n : nat) : forall arrivals acc s,
  collectWitnesses n arrivals acc = Some s ->
  (n <= length arrivals)%nat /\
  (forall r, r ∈ take n arrivals -> pr_valid r = true -> pr_controllerAvailable r = false) /\
  (forall id, id ∈ s <-> id ∈ acc \/
     exists r, r ∈ take n arrivals /\ pr_valid r = true /\ pr_witnessNodeID r = id).
Proof.
  induction n as [|n IH]; intros arrivals acc s H; simpl in H.
  - simplify_eq. split_and!; [lia|set_solver|]. intros id. set_solver.
  - destruct arrivals as [|r arrivals]; [done|].
    destruct (pr_valid r) eqn:Hv; simpl in H.
    + destruct (pr_controllerAvailable r) eqn:Ha; [done|].
      apply IH in H as (Hl & Hav & Hs). simpl. split_and!; [lia| |].
      * intros r' [->|Hin]%elem_of_cons ?; [done|]. by eapply Hav.
      * intros id. rewrite Hs. set_solver.
    + apply IH in H as (Hl & Hav & Hs). simpl. split_and!; [lia| |].
      * intros r' [->|Hin]%elem_of_cons ?; [congruence|]. by eapply Hav.
      * intros id. rewrite Hs. split; [set_solver|].
        intros [?|(r' & [->|Hin]%elem_of_cons & ? & ?)]; [by left|congruence|].
        right. by exists r'.
Qed.

(** ** Properties *)

(** A confirmed loss rests on a strict majority.  When
    [peerWitnessQuorumConfirmsLoss] answers true, all configured peers answered
    in time, no valid answer saw the Controller alive, and the distinct peers
    that confirmed the outage, with this node, are more than half of the group
    of the node and its configured peers. *)
Theorem witness_quorum_majority (a : Agent) (envNameOK : bool) (fp : option string)
  (arrivals : list peerWitnessResult)
  (Hconf : peerWitnessQuorumConfirmsLoss a envNameOK fp arrivals = true) :
  let peers := length (pol_PeerWitnessURLs (cfg_Disaster (ag_Cfg a))) in
  (forall r, r ∈ take peers arrivals -> pr_valid r = true -> pr_controllerAvailable r = false) /\
  exists confirmed : gset Z,
    (forall id, id ∈ confirmed -> exists r, r ∈ take peers arrivals /\ pr_valid r = true /\
       pr_controllerAvailable r = false /\ pr_witnessNodeID r = id) /\
    Z.of_nat peers + 1 < 2 * (Z.of_nat (size confirmed) + 1).
Proof.
  unfold peerWitnessQuorumConfirmsLoss in Hconf. intros peers.
  destruct (_ || _ || _); [done|]. destruct fp as [fp|]; [|done].
  destruct (collectWitnesses _ _ _) as [s|] eqn:E; [|done].
  apply collect_spec in E as (Hl & Hav & Hs). split; [exact Hav|].
  exists s. split.
  - intros id [?|(r & Hr & Hv & Hid)]%Hs; [set_solver|]. exists r.
    split_and!; [done..|by apply Hav|done].
  - b2p. unfold requiredPeerConfirmations in Hconf. fold peers in Hconf.
    pose proof (Z.div_mod (Z.of_nat peers + 1) 2 ltac:(lia)).
    pose proof (Z.mod_pos_bound (Z.of_nat peers + 1) 2 ltac:(lia)). lia.
Qed.

(** A witness request is answered at most once.  After a request has been
    answered at time [t1], and after any further requests served by the same
    process before its nonce entry expires at [t1] plus twice the clock skew,
    submitting the same nonce again before that instant is not answered with
    200.  (The entry is dropped exactly at that instant, while [VerifyRequest]
    still accepts a timestamp exactly one skew away, so the bound is strict.) *)
Theorem witness_no_replay (a : Agent) (c : witnessCall) (calls : list witnessCall)
  (again : witnessCall)
  (Hserved : wr_Status (fst (handlePeerWitness a (wc_Request c) (wc_Fingerprint c)
               (wc_SlotFree c) (wc_Available c) (wc_Now c))) = 200)
  (Hcalls : Forall (fun d => wc_Now d < wc_Now c + 2 * MaxClockSkew) calls)
  (Hagain : wc_Now again < wc_Now c + 2 * MaxClockSkew)
  (Hnonce : rq_Nonce (wq_Http (wc_Request again)) = rq_Nonce (wq_Http (wc_Request c))) :
  wr_Status (fst (handlePeerWitness (foldl serve (serve a c) calls) (wc_Request again)
    (wc_Fingerprint again) (wc_SlotFree again) (wc_Available again) (wc_Now again))) <> 200.
Proof.
  apply handle_ok in Hserved as (_ & Hfresh & Heq).
  pose proof (consume_remembers _ _ _ Hfresh) as Hm. rewrite <- Heq in Hm.
  change (snd (handlePeerWitness _ _ _ _ _ _)) with (serve a c) in Hm.
  destruct (serve_keeps calls _ _ _ Hm Hcalls) as (e & He & Hle).
  intros Hs. apply handle_ok in Hs as (_ & Hf & _). rewrite Hnonce in Hf.
  rewrite (consume_rejects _ _ e) in Hf; [done|exact He|lia].
Qed.

(** The answer of an honest witness is accepted.  A 200 answer to a request
    with nonce [n] passes [probePeerWitness] at any other node of the group that
    shares the secret and the Controller fingerprint, as long as the encoded
    body is within 4 KiB, decoding inverts encoding on it and the two clocks
    differ by at most the skew; the result carries the witness's node id and its
    observation unchanged. *)
Theorem honest_witness_accepted (a b : Agent) (rq : witnessRequest) (fp : string)
  (slot available : bool) (t t' : time)
  (Hreply : wr_Status (fst (handlePeerWitness a rq (Some fp) slot available t)) = 200)
  (Hsecret : ag_witnessSecret b = ag_witnessSecret a)
  (Hnode : cfg_NodeID (ag_Cfg b) <> cfg_NodeID (ag_Cfg a))
  (Hpos : 0 < cfg_NodeID (ag_Cfg a))
  (Hrange : 0 <= unix_milli t <= MaxInt64)
  (Hjson : unmarshal (marshal (witness_answer a fp available t))
           = Some (witness_answer a fp available t))
  (Hsize : slen (marshal (witness_answer a fp available t)) <= maxPeerWitnessResponseBytes)
  (Hskew : - MaxClockSkew <= t' - t <= MaxClockSkew - Second) :
  probePeerWitness b fp (rq_Nonce (wq_Http rq))
    (Some (fst (handlePeerWitness a rq (Some fp) slot available t))) t'
  = {| pr_valid := true; pr_controllerAvailable := available;
       pr_witnessNodeID := cfg_NodeID (ag_Cfg a) |}.
Proof.
  unfold handlePeerWitness in *.
  destruct (_ <? _) in *; [done|]. destruct (_ || _ || _ || _) in *; [done|].
  destruct (negb _) in *; [done|].
  assert (Ha : forall n, ag_witnessSecret (snd (consumeWitnessNonce n t a)) = ag_witnessSecret a
    /\ cfg_NodeID (ag_Cfg (snd (consumeWitnessNonce n t a))) = cfg_NodeID (ag_Cfg a)).
  { intros n. unfold consumeWitnessNonce. by destruct (_ || _). }
  destruct (Ha (rq_Nonce (wq_Http rq))) as [Hsec Hid].
  destruct (consumeWitnessNonce _ t a) as [fresh a']. cbn [snd] in Hsec, Hid.
  destruct fresh; [|done]. cbn [negb] in *.
  destruct (wq_Fingerprint rq) as [fp'|]; [|done].
  destruct (_ || _) in *; [done|]. destruct slot; [|done]. cbn [negb fst] in *.
  assert (Hans : witness_answer a' fp available t = witness_answer a fp available t)
    by (unfold witness_answer; by rewrite Hid).
  rewrite Hans in *. clear Hans.
  set (ms := unix_milli t) in *.
  assert (Hq : Z.quot ms 1000 = ms / 1000) by (apply Z.quot_div_nonneg; lia).
  assert (Hms : t - 1000000 < of_unix_milli ms <= t).
  { subst ms. unfold of_unix_milli, unix_milli, unix_to_internal, Second.
    pose proof (Z.div_mod (t - 62135596800 * 1000000000) 1000000 ltac:(lia)).
    pose proof (Z.mod_pos_bound (t - 62135596800 * 1000000000) 1000000 ltac:(lia)). lia. }
  assert (Hdiv : ms - 1000 < 1000 * (ms / 1000) <= ms).
  { pose proof (Z.div_mod ms 1000 ltac:(lia)). pose proof (Z.mod_pos_bound ms 1000 ltac:(lia)). lia. }
  assert (Hts : t - Second <= of_unix (ms / 1000) <= t).
  { unfold of_unix, of_unix_milli, unix_to_internal, Second in *. unfold MaxInt64 in Hrange.
    rewrite wrap64_id; [|unfold int64, MinInt64, MaxInt64]; lia. }
  unfold MaxClockSkew, Second in Hskew, Hts.
  assert (Habs : forall u, t - 1000000000 <= u <= t -> absDuration (time_sub t' u) <= MaxClockSkew).
  { intros u Hu. unfold absDuration, time_sub, MaxClockSkew, Second, MaxInt64, MinInt64.
    destruct (_ <? 0) eqn:E; b2p; rewrite ?wrap64_id; int64_lia. }
  unfold probePeerWitness. cbn [wr_Body wr_Status wr_Timestamp wr_Signature].
  rewrite Hq. rewrite (proj2 (Z.ltb_ge _ _) Hsize). cbn [orb negb].
  change (200 =? 200) with true. cbn [negb].
  rewrite parse_pretty by int64_lia.
  rewrite (proj2 (Z.ltb_ge _ _) (Habs _ Hts)).
  rewrite Hsecret, <- Hsec, String.eqb_refl, Hjson.
  unfold witness_answer. fold ms.
  cbn [pw_OK pw_WitnessNodeID pw_ControllerFingerprint pw_ControllerAvailable pw_ObservedAt negb orb].
  rewrite Hq, String.eqb_refl, Z.eqb_refl.
  rewrite (proj2 (Z.leb_gt _ _) Hpos), (proj2 (Z.eqb_neq _ _)) by congruence.
  rewrite (proj2 (Z.ltb_ge _ _) (Habs (of_unix_milli ms) ltac:(lia))). done.
Qed.

End Witness.

(** ** Witnesses *)

Definition demo_url (raw : string) : option parsedURL :=
  Some {| u_Scheme := "https"; u_Host := raw; u_HasUser := false; u_RawQuery := "";
          u_Fragment := ""; u_Path := ""; u_Loopback := false;
          u_WithPath := fun p => "https://" +:+ raw +:+ p |}.

Definition confirms (id : Z) : peerWitnessResult :=
  {| pr_valid := true; pr_controllerAvailable := false; pr_witnessNodeID := id |}.

Lemma witness_quorum_majority_witness :
  let a := demo_agent 1 ["b"; "c"; "d"] in
  exists confirmed : gset Z, 3 + 1 < 2 * (Z.of_nat (size confirmed) + 1).
Proof.
  intros a.
  destruct (witness_quorum_majority demo_url a true (Some "fp")
    [confirms 2; no_result; confirms 4]) as (_ & s & _ & Hs); [vm_compute; reflexivity|].
  exists s. exact Hs.
Defined.

Definition demo_fingerprint : string := sha256_hex "https://controller".
Definition demo_marshal (r : peerWitnessResponse) : string :=
  pretty (pw_WitnessNodeID r) +:+ (if pw_ControllerAvailable r then "1" else "0").
Definition demo_unmarshal (fp : string) (t : time) (s : string) : option peerWitnessResponse :=
  Some {| pw_OK := true; pw_WitnessNodeID := 2; pw_ControllerFingerprint := fp;
          pw_ControllerAvailable := false; pw_ObservedAt := unix_milli t |}.

Definition demo_witness_call (t : time) : witnessCall :=
  {| wc_Request :=
       {| wq_RawQuery := ""; wq_ContentType := "application/json"; wq_ContentLength := 10;
          wq_ReadOK := true;
          wq_Http := SignRequest {| rq_Method := "POST"; rq_Path := peerWitnessRoute;
              rq_AgentID := ""; rq_Timestamp := ""; rq_Nonce := ""; rq_Signature := "";
              rq_Body := "{}" |} 1 "0123456789abcdef0123456789abcdef" 1700000000 "0123456789abcdef";
          wq_Fingerprint := Some demo_fingerprint |};
     wc_Fingerprint := Some demo_fingerprint; wc_SlotFree := true; wc_Available := false;
     wc_Now := t |}.

Lemma witness_no_replay_witness :
  let c := demo_witness_call (of_unix 1700000000) in
  let again := demo_witness_call (of_unix 1700000050) in
  wr_Status (fst (handlePeerWitness demo_marshal (serve demo_marshal (demo_agent 2 ["a"]) c)
    (wc_Request again) (wc_Fingerprint again) true false (of_unix 1700000050))) <> 200.
Proof.
  intros c again.
  apply (witness_no_replay demo_marshal (demo_agent 2 ["a"]) c [] again).
  - vm_compute. reflexivity.
  - constructor.
  - vm_compute. reflexivity.
  - reflexivity.
Defined.

Lemma honest_witness_accepted_witness :
  let c := demo_witness_call (of_unix 1700000000) in
  probePeerWitness (demo_unmarshal demo_fingerprint (of_unix 1700000000)) (demo_agent 1 ["b"])
    demo_fingerprint (rq_Nonce (wq_Http (wc_Request c)))
    (Some (fst (handlePeerWitness demo_marshal (demo_agent 2 ["a"]) (wc_Request c)
      (Some demo_fingerprint) true false (of_unix 1700000000)))) (of_unix 1700000030)
  = {| pr_valid := true; pr_controllerAvailable := false; pr_witnessNodeID := 2 |}.
Proof.
  intros c.
  apply (honest_witness_accepted demo_marshal (demo_unmarshal demo_fingerprint (of_unix 1700000000))
    (demo_agent 2 ["a"]) (demo_agent 1 ["b"])); try (vm_compute; (reflexivity || (split; congruence)));
    vm_compute; congruence.
Defined.
