(* ===== verification/Ownership.v ===== *)
(** * Activity ownership

    src/internal/agent/activity_ownership.go: immutable ownership claims, their
    order, the local compare-and-set [applyActivityOwnershipClaim], the peer
    endpoints, the quorum query and the user-confirmed takeover.

    Network exchanges are inputs: the answers of the peers arrive as lists in
    the order they are received, a list shorter than the number of configured
    peers meaning that the context expired first.  Go iterates over a map in an
    unspecified order, so the loop over collected claims takes the order as an
    argument.  [sv] arguments are the outcomes of [saveRuntimeStateLocked]. *)

From Stdlib Require Import ZArith Lia Ascii String.
From stdpp Require Import base list gmap strings pretty.
From S2P Require Import Prelude GoStrings Sha256 Protocol AgentState PeerWitness.
#[local] Open Scope Z_scope.

Definition maxOwnershipRequestBytes : Z := 8192.
Definition maxOwnershipResponseBytes : Z := 16384.
Definition maxOwnershipTakeovers : nat := 1000.
Definition peerOwnershipQueryRoute : string := "/agent/activity-ownership/v1/query".
Definition peerOwnershipObserveRoute : string := "/agent/activity-ownership/v1/observe".

Section Ownership.
Context `{UnicodeTables}.

(** ** Claims *)

Definition claim_canonical (claim : activityOwnershipClaim) : string :=
  "stcontrol-activity-owner:v1" +:+ newline +:+ cl_Handle claim +:+ newline
  +:+ pretty (cl_OwnerNodeID claim) +:+ newline +:+ pretty (cl_ControllerGeneration claim)
  +:+ newline +:+ pretty (cl_ActivityEpoch claim) +:+ newline
  +:+ pretty (cl_TakeoverSequence claim) +:+ newline +:+ cl_Kind claim +:+ newline
  +:+ cl_ParentClaimID claim +:+ newline +:+ cl_OperationID claim.

Definition activityOwnershipClaimID (claim : activityOwnershipClaim) : string :=
  sha256_hex (claim_canonical claim).

Definition validOwnershipHandle (handle : string) : bool :=
  safeInventoryString handle 128 && String.eqb (to_lower handle) handle.

Definition validateActivityOwnershipClaim (claim : activityOwnershipClaim) : result unit :=
  if negb (safeInventoryString (cl_Handle claim) 128)
     || negb (String.eqb (to_lower (cl_Handle claim)) (cl_Handle claim))
     || (cl_OwnerNodeID claim <=? 0) || (cl_ControllerGeneration claim <=? 0)
     || (cl_ActivityEpoch claim <=? 0) || (cl_TakeoverSequence claim <? 0)
     || (cl_ObservedAt claim <=? 0)
     || negb (String.eqb (cl_ClaimID claim) (activityOwnershipClaimID claim))
  then Fail "invalid activity ownership claim"
  else if String.eqb (cl_Kind claim) "controller_grant" then
    if negb (cl_TakeoverSequence claim =? 0) || negb (String.eqb (cl_ParentClaimID claim) "")
       || negb (String.eqb (cl_OperationID claim) "")
    then Fail "invalid controller ownership grant" else Ok tt
  else if String.eqb (cl_Kind claim) "user_confirmed_takeover" then
    if (cl_TakeoverSequence claim <=? 0) || negb (valid_sha256_hex (cl_ParentClaimID claim))
       || negb (validUUID (cl_OperationID claim))
    then Fail "invalid user-confirmed ownership takeover" else Ok tt
  else Fail "invalid activity ownership kind".

Definition with_ClaimID (c : activityOwnershipClaim) (id : string) : activityOwnershipClaim :=
  {| cl_ClaimID := id; cl_Handle := cl_Handle c; cl_OwnerNodeID := cl_OwnerNodeID c;
     cl_ControllerGeneration := cl_ControllerGeneration c; cl_ActivityEpoch := cl_ActivityEpoch c;
     cl_TakeoverSequence := cl_TakeoverSequence c; cl_Kind := cl_Kind c;
     cl_ParentClaimID := cl_ParentClaimID c; cl_OperationID := cl_OperationID c;
     cl_ObservedAt := cl_ObservedAt c |}.

Definition makeActivityOwnershipClaim (handle : string)
  (ownerNodeID controllerGeneration activityEpoch takeoverSequence : Z)
  (kind parentClaimID operationID : string) (now : time) : result activityOwnershipClaim :=
  let claim :=
    {| cl_ClaimID := ""; cl_Handle := handle; cl_OwnerNodeID := ownerNodeID;
       cl_ControllerGeneration := controllerGeneration; cl_ActivityEpoch := activityEpoch;
       cl_TakeoverSequence := takeoverSequence; cl_Kind := kind;
       cl_ParentClaimID := parentClaimID; cl_OperationID := operationID;
       cl_ObservedAt := unix_milli now |} in
  let claim := with_ClaimID claim (activityOwnershipClaimID claim) in
  try _ := validateActivityOwnershipClaim claim in
  Ok claim.

(** [compareActivityOwnership]: -1, 0, 1 in the lexicographic order of
    generation, epoch and sequence; 2 when the three agree but the claims are
    different. *)
Definition compareActivityOwnership (left right : activityOwnershipClaim) : Z :=
  if cl_ControllerGeneration left <? cl_ControllerGeneration right then -1
  else if cl_ControllerGeneration right <? cl_ControllerGeneration left then 1
  else if cl_ActivityEpoch left <? cl_ActivityEpoch right then -1
  else if cl_ActivityEpoch right <? cl_ActivityEpoch left then 1
  else if cl_TakeoverSequence left <? cl_TakeoverSequence right then -1
  else if cl_TakeoverSequence right <? cl_TakeoverSequence left then 1
  else if String.eqb (cl_ClaimID left) (cl_ClaimID right) then 0
  else 2.

(** ** Local compare-and-set *)

Definition store_claim (a : Agent) (claim : activityOwnershipClaim) : Agent :=
  with_state a (with_ActivityOwnership (ag_state a)
    (<[cl_Handle claim := claim]> (rs_ActivityOwnership (ag_state a)))).

(** Returns the pair [(bool, error)] of the Go function. *)
Definition applyActivityOwnershipClaim (sv : bool) (claim : activityOwnershipClaim)
  (requireParent : bool) (a : Agent) : (bool * result unit) * Agent :=
  match validateActivityOwnershipClaim claim with
  | Fail e => ((false, Fail e), a)
  | Ok _ =>
      let put := let '(err, a') := saveRuntimeStateLocked sv (store_claim a claim) in
                 ((true, err), a') in
      match rs_ActivityOwnership (ag_state a) !! cl_Handle claim with
      | Some current =>
          if String.eqb (cl_ClaimID current) (cl_ClaimID claim) then ((true, Ok tt), a)
          else if requireParent && negb (String.eqb (cl_ClaimID current) (cl_ParentClaimID claim))
          then ((false, Ok tt), a)
          else
            let comparison := compareActivityOwnership claim current in
            if (comparison <=? 0) || (comparison =? 2) then ((false, Ok tt), a) else put
      | None => if requireParent then ((false, Ok tt), a) else put
      end
  end.

Definition currentActivityOwnership (a : Agent) (handle : string) : option activityOwnershipClaim :=
  rs_ActivityOwnership (ag_state a) !! handle.

(** ** Peer messages *)

Record ownershipPeerRequest := {
  oq_ControllerFingerprint : string;
  oq_Handle : string;
  oq_Claim : option activityOwnershipClaim;
}.

Record ownershipPeerResponse := {
  or_OK : bool;
  or_WitnessNodeID : Z;
  or_Found : bool;
  or_Claim : option activityOwnershipClaim;
  or_AdapterAvailable : bool;
  or_Accepted : bool;
  or_ObservedAt : Z;
}.

Record ownershipResolveResponse := {
  rr_OK : bool;
  rr_Decision : string;
  rr_ClaimID : string;
  rr_ReasonCode : string;
}.

Record ownershipTakeoverRequest := {
  tq_Handle : string;
  tq_ParentClaimID : string;
  tq_OperationID : string;
}.

(** The request facts the peer endpoints read; [ph_Decoded] is the strictly
    decoded body. *)
Record peerHttp := {
  ph_RawQuery : string;
  ph_ContentType : string;
  ph_ContentLength : Z;
  ph_ReadOK : bool;
  ph_Http : httpRequest;
  ph_Decoded : option ownershipPeerRequest;
}.

Definition authenticatePeerOwnershipRequest (a : Agent) (r : peerHttp)
  (fingerprint : option string) (now : time) : (Z + ownershipPeerRequest) * Agent :=
  if (slen (ag_witnessSecret a) <? minimumPeerWitnessSecretBytes)
     || negb (String.eqb (ph_RawQuery r) "")
     || negb (String.eqb (ph_ContentType r) "application/json")
     || (ph_ContentLength r <=? 0) || (maxOwnershipRequestBytes <? ph_ContentLength r)
  then (inl 400, a)
  else
    let h := ph_Http r in
    let authenticated :=
      ph_ReadOK r &&
      match parse_int64 (rq_AgentID h) with
      | Some id => negb (id <=? 0) && negb (id =? cfg_NodeID (ag_Cfg a))
      | None => false
      end && is_ok (VerifyRequest h (ag_witnessSecret a) now) in
    if negb authenticated then (inl 401, a)
    else
      let '(fresh, a) := consumeWitnessNonce (rq_Nonce h) now a in
      if negb fresh then (inl 401, a)
      else match ph_Decoded r, fingerprint with
      | Some request, Some fp =>
          if String.eqb (oq_ControllerFingerprint request) fp then (inr request, a)
          else (inl 400, a)
      | _, _ => (inl 400, a)
      end.

(** The endpoints return a status or the response that is signed and sent. *)
Definition handlePeerOwnershipQuery (a : Agent) (r : peerHttp) (fingerprint : option string)
  (adapterAvailable : bool) (now : time) : (Z + ownershipPeerResponse) * Agent :=
  let '(auth, a) := authenticatePeerOwnershipRequest a r fingerprint now in
  match auth with
  | inl status => (inl status, a)
  | inr request =>
      if bool_decide (is_Some (oq_Claim request)) || negb (validOwnershipHandle (oq_Handle request))
      then (inl 400, a)
      else
        let claim := currentActivityOwnership a (oq_Handle request) in
        (inr {| or_OK := true; or_WitnessNodeID := cfg_NodeID (ag_Cfg a);
                or_Found := bool_decide (is_Some claim); or_Claim := claim;
                or_AdapterAvailable := adapterAvailable; or_Accepted := false;
                or_ObservedAt := unix_milli now |}, a)
  end.

Definition handlePeerOwnershipObserve (sv : bool) (a : Agent) (r : peerHttp)
  (fingerprint : option string) (now : time) : (Z + ownershipPeerResponse) * Agent :=
  let '(auth, a) := authenticatePeerOwnershipRequest a r fingerprint now in
  match auth with
  | inl status => (inl status, a)
  | inr request =>
      match oq_Claim request with
      | None => (inl 400, a)
      | Some claim =>
          if negb (String.eqb (oq_Handle request) "") || String.eqb (cl_Handle claim) ""
             || negb (is_ok (validateActivityOwnershipClaim claim))
          then (inl 400, a)
          else
            let requireParent := String.eqb (cl_Kind claim) "user_confirmed_takeover" in
            let '((accepted, err), a) := applyActivityOwnershipClaim sv claim requireParent a in
            if negb (is_ok err) then (inl 500, a)
            else
              let current := currentActivityOwnership a (cl_Handle claim) in
              (inr {| or_OK := true; or_WitnessNodeID := cfg_NodeID (ag_Cfg a);
                      or_Found := bool_decide (is_Some current); or_Claim := current;
                      or_AdapterAvailable := false; or_Accepted := accepted;
                      or_ObservedAt := unix_milli now |}, a)
      end
  end.

(** ** Asking the peers *)

(** What [callOwnershipPeer] checks on the reply: [pp_SignatureOK] is the
    comparison with the expected response signature, [pp_Decoded] the strict
    decode of the body, [pp_Timestamp] the parsed time header. *)
Record peerReply := {
  pp_Status : Z;
  pp_BodyLen : Z;
  pp_Timestamp : option Z;
  pp_SignatureOK : bool;
  pp_Decoded : option ownershipPeerResponse;
}.

Definition callOwnershipPeer (a : Agent) (reply : option peerReply) (now : time)
  : option ownershipPeerResponse :=
  match reply with
  | None => None
  | Some p =>
      if (maxOwnershipResponseBytes <? pp_BodyLen p) || negb (pp_Status p =? 200) then None
      else match pp_Timestamp p with
      | None => None
      | Some ts =>
          if (MaxClockSkew <? absDuration (time_sub now (of_unix ts))) || negb (pp_SignatureOK p)
          then None
          else match pp_Decoded p with
          | None => None
          | Some res =>
              if negb (or_OK res) || (or_WitnessNodeID res <=? 0)
                 || (or_WitnessNodeID res =? cfg_NodeID (ag_Cfg a))
                 || negb (Z.quot (or_ObservedAt res) 1000 =? ts)
                 || (MaxClockSkew <? absDuration (time_sub now (of_unix_milli (or_ObservedAt res))))
                 || (or_Found res && match or_Claim res with
                                     | Some c => negb (is_ok (validateActivityOwnershipClaim c))
                                     | None => true
                                     end)
                 || (negb (or_Found res) && bool_decide (is_Some (or_Claim res)))
              then None
              else Some res
          end
      end
  end.

(** The loop over the collected claims, in the given iteration order. *)
Definition maximal_step (st : option activityOwnershipClaim * bool) (claim : activityOwnershipClaim)
  : option activityOwnershipClaim * bool :=
  match st with
  | (None, conflict) => (Some claim, conflict)
  | (Some maximal, conflict) =>
      let comparison := compareActivityOwnership claim maximal in
      if comparison =? 1 then (Some claim, false)
      else if comparison =? 2 then (Some maximal, true)
      else (Some maximal, conflict)
  end.

Definition maximal_claim (claims : list activityOwnershipClaim)
  : option activityOwnershipClaim * bool :=
  foldl maximal_step (None, false) claims.

(** Collecting the peer answers: the maps [claims] and [availability]. *)
Fixpoint collectClaims (pending : nat) (arrivals : list (option ownershipPeerResponse))
  (claims : gmap Z activityOwnershipClaim) (availability : gmap Z bool)
  : option (gmap Z activityOwnershipClaim * gmap Z bool) :=
  match pending with
  | O => Some (claims, availability)
  | S pending =>
      match arrivals with
      | [] => None
      | None :: arrivals => collectClaims pending arrivals claims availability
      | Some r :: arrivals =>
          let availability := <[or_WitnessNodeID r := or_AdapterAvailable r]> availability in
          let claims := match or_Claim r with
                        | Some c => if or_Found r then <[or_WitnessNodeID r := c]> claims else claims
                        | None => claims
                        end in
          collectClaims pending arrivals claims availability
      end
  end.

Definition unavailable (reason : string) : ownershipResolveResponse :=
  {| rr_OK := false; rr_Decision := "unavailable"; rr_ClaimID := ""; rr_ReasonCode := reason |}.

Definition requiredOwners (urls : nat) : Z := (Z.of_nat urls + 1) / 2 + 1.

(** The maps start with the node's own claim. *)
Definition collectedClaims (handle : string) (arrivals : list (option ownershipPeerResponse))
  (a : Agent) : option (gmap Z activityOwnershipClaim * gmap Z bool) :=
  let self := cfg_NodeID (ag_Cfg a) in
  let urls := length (pol_PeerWitnessURLs (cfg_Disaster (ag_Cfg a))) in
  match currentActivityOwnership a handle with
  | Some local => collectClaims urls arrivals {[self := local]} {[self := true]}
  | None => collectClaims urls arrivals ∅ ∅
  end.

(** The nodes whose claim is the maximal one, this node included. *)
Definition matchingNodes (self : Z) (claims : gmap Z activityOwnershipClaim) (id : string) : gset Z :=
  {[self]} ∪ dom (filter (fun kv => cl_ClaimID (snd kv) = id) claims).

(** [order] is the iteration order of the claims map; it is applied to the map's
    bindings and is meant to be a permutation.  The code releases the mutex while it
    waits for the peers; here [arrivals] are their answers and the query is one step. *)
Definition queryOwnershipQuorum (sv : bool) (order : list (Z * activityOwnershipClaim) ->
    list (Z * activityOwnershipClaim)) (handle : string) (fingerprint : option string)
  (arrivals : list (option ownershipPeerResponse)) (a : Agent)
  : ownershipResolveResponse * Agent :=
  let urls := length (pol_PeerWitnessURLs (cfg_Disaster (ag_Cfg a))) in
  let self := cfg_NodeID (ag_Cfg a) in
  if negb (validOwnershipHandle handle) || bool_decide (urls = 0)%nat
     || (slen (ag_witnessSecret a) <? minimumPeerWitnessSecretBytes)
     || bool_decide (fingerprint = None)
  then (unavailable "ownership_quorum_unavailable", a)
  else
    match collectedClaims handle arrivals a with
    | None => (unavailable "ownership_quorum_unavailable", a)
    | Some (claims, availability) =>
        match maximal_claim (snd <$> order (map_to_list claims)) with
        | (Some maximal, false) =>
            let '((accepted, _), a) := applyActivityOwnershipClaim sv maximal false a in
            if negb accepted then (unavailable "ownership_fact_conflict", a)
            else
              let matching := matchingNodes self claims (cl_ClaimID maximal) in
              if Z.of_nat (size matching) <? requiredOwners urls then
                (unavailable "ownership_quorum_unavailable", a)
              else if cl_OwnerNodeID maximal =? self then
                ({| rr_OK := true; rr_Decision := "automatic"; rr_ClaimID := cl_ClaimID maximal;
                    rr_ReasonCode := "last_active_owner" |}, a)
              else if default false (availability !! cl_OwnerNodeID maximal) then
                ({| rr_OK := true; rr_Decision := "owner_available";
                    rr_ClaimID := cl_ClaimID maximal;
                    rr_ReasonCode := "last_active_owner_available" |}, a)
              else
                ({| rr_OK := true; rr_Decision := "takeover_required";
                    rr_ClaimID := cl_ClaimID maximal;
                    rr_ReasonCode := "last_active_owner_unavailable" |}, a)
        | _ => (unavailable "ownership_fact_conflict", a)
        end
    end.

(** [broadcastOwnershipClaim]: the number of distinct nodes holding the claim,
    this node included without a check.  Expiry of the context returns the count
    reached so far, so the arrivals may be fewer than the peers. *)
Definition acknowledges (claim : activityOwnershipClaim) (r : ownershipPeerResponse) : bool :=
  or_Found r && match or_Claim r with
                | Some c => String.eqb (cl_ClaimID c) (cl_ClaimID claim)
                | None => false
                end && or_Accepted r.

Definition ack_nodes (self : Z) (claim : activityOwnershipClaim)
  (arrivals : list (option ownershipPeerResponse)) : gset Z :=
  foldl (fun nodes r => match r with
                        | Some r => if acknowledges claim r then {[or_WitnessNodeID r]} ∪ nodes
                                    else nodes
                        | None => nodes
                        end) {[self]} arrivals.

Definition broadcastOwnershipClaim (a : Agent) (claim : activityOwnershipClaim)
  (fingerprint : option string) (arrivals : list (option ownershipPeerResponse)) : Z :=
  let urls := length (pol_PeerWitnessURLs (cfg_Disaster (ag_Cfg a))) in
  if bool_decide (urls = 0)%nat || (slen (ag_witnessSecret a) <? minimumPeerWitnessSecretBytes)
     || bool_decide (fingerprint = None)
  then 1
  else Z.of_nat (size (ack_nodes (cfg_NodeID (ag_Cfg a)) claim (take urls arrivals))).

Definition recordControllerOwnershipGrant (sv : bool) (handle : string)
  (controllerGeneration activityEpoch : Z) (now : time) (a : Agent) : result unit * Agent :=
  match makeActivityOwnershipClaim (to_lower handle) (cfg_NodeID (ag_Cfg a)) controllerGeneration
          activityEpoch 0 "controller_grant" "" "" now with
  | Fail e => (Fail e, a)
  | Ok claim =>
      let '((_, err), a) := applyActivityOwnershipClaim sv claim false a in
      match err with
      | Fail e => (Fail e, a)
      | Ok _ => (Ok tt, a)   (* the broadcast's outcome is ignored *)
      end
  end.

(** ** User-confirmed takeover *)

(** What the environment decides during one call: the outcomes of the writes, of
    the audit append, the clock at each read, and the peers' answers. *)
Record takeoverEnv := {
  te_saveQuery : bool; te_saveClaim : bool; te_saveJournal : bool; te_saveSucceeded : bool;
  te_saveAudited : bool; te_auditOK : bool;
  te_nowClaim : time; te_nowJournal : time; te_nowSucceeded : time; te_nowAudited : time;
  te_fingerprint : option string;
  te_order : list (Z * activityOwnershipClaim) -> list (Z * activityOwnershipClaim);
  te_queryArrivals : list (option ownershipPeerResponse);
  te_ackArrivals : list (option ownershipPeerResponse);
}.

Definition put_takeover (a : Agent) (op : ownershipTakeoverOperation) (id : string) : Agent :=
  with_state a (with_OwnershipTakeovers (ag_state a)
    (<[id := op]> (rs_OwnershipTakeovers (ag_state a)))).

Definition with_succeeded (op : ownershipTakeoverOperation) (at_ : Z) : ownershipTakeoverOperation :=
  {| to_OperationID := to_OperationID op; to_ParentClaimID := to_ParentClaimID op;
     to_Claim := to_Claim op; to_Succeeded := true; to_Audited := to_Audited op;
     to_UpdatedAt := at_ |}.
Definition with_audited (op : ownershipTakeoverOperation) (at_ : Z) : ownershipTakeoverOperation :=
  {| to_OperationID := to_OperationID op; to_ParentClaimID := to_ParentClaimID op;
     to_Claim := to_Claim op; to_Succeeded := to_Succeeded op; to_Audited := true;
     to_UpdatedAt := at_ |}.

(** Reading an absent key of a Go map yields the zero value. *)
Definition zero_operation : ownershipTakeoverOperation :=
  {| to_OperationID := ""; to_ParentClaimID := "";
     to_Claim := {| cl_ClaimID := ""; cl_Handle := ""; cl_OwnerNodeID := 0;
       cl_ControllerGeneration := 0; cl_ActivityEpoch := 0; cl_TakeoverSequence := 0; cl_Kind := "";
       cl_ParentClaimID := ""; cl_OperationID := ""; cl_ObservedAt := 0 |};
     to_Succeeded := false; to_Audited := false; to_UpdatedAt := 0 |}.

Definition ensureOwnershipTakeoverAudit (e : takeoverEnv) (operation : ownershipTakeoverOperation)
  (a : Agent) : result unit * Agent :=
  if to_Audited operation then (Ok tt, a)
  else if negb (te_auditOK e) then (Fail "persist activity takeover audit", a)
  else
    let a := with_audit a (ag_audit a ++
      [{| au_Event := "user_confirmed_activity_takeover"; au_OperationID := to_OperationID operation;
          au_ControllerGeneration := cl_ControllerGeneration (to_Claim operation);
          au_Succeeded := Some true |}]) in
    match rs_OwnershipTakeovers (ag_state a) !! to_OperationID operation with
    | None => (Fail "activity takeover audit state changed", a)
    | Some current =>
        if negb (String.eqb (cl_ClaimID (to_Claim current)) (cl_ClaimID (to_Claim operation)))
           || negb (to_Succeeded current)
        then (Fail "activity takeover audit state changed", a)
        else saveRuntimeStateLocked (te_saveAudited e)
               (put_takeover a (with_audited current (unix_milli (te_nowAudited e)))
                  (to_OperationID operation))
    end.

Definition takeover_committed (op : ownershipTakeoverOperation) : ownershipResolveResponse :=
  {| rr_OK := true; rr_Decision := "takeover_committed"; rr_ClaimID := cl_ClaimID (to_Claim op);
     rr_ReasonCode := "user_confirmed_last_owner_failure" |}.

Definition new_operation (e : takeoverEnv) (request : ownershipTakeoverRequest)
  (parent claim : activityOwnershipClaim) : ownershipTakeoverOperation :=
  {| to_OperationID := tq_OperationID request; to_ParentClaimID := cl_ClaimID parent;
     to_Claim := claim; to_Succeeded := false; to_Audited := false;
     to_UpdatedAt := unix_milli (te_nowJournal e) |}.

(** First half: find the journalled operation or create it. *)
Definition prepareTakeover (e : takeoverEnv) (request : ownershipTakeoverRequest) (a : Agent)
  : result ownershipTakeoverOperation * Agent :=
  match rs_OwnershipTakeovers (ag_state a) !! tq_OperationID request with
  | Some operation =>
      if negb (String.eqb (cl_Handle (to_Claim operation)) (tq_Handle request))
         || negb (String.eqb (to_ParentClaimID operation) (tq_ParentClaimID request))
      then (Fail "ownership takeover operation conflict", a)
      else (Ok operation, a)
  | None =>
      let '(decision, a) := queryOwnershipQuorum (te_saveQuery e) (te_order e) (tq_Handle request)
                              (te_fingerprint e) (te_queryArrivals e) a in
      if negb (rr_OK decision) || negb (String.eqb (rr_Decision decision) "takeover_required")
         || negb (String.eqb (rr_ClaimID decision) (tq_ParentClaimID request))
      then (Fail "ownership takeover precondition changed", a)
      else match currentActivityOwnership a (tq_Handle request) with
      | None => (Fail "ownership takeover parent unavailable", a)
      | Some parent =>
          if negb (String.eqb (cl_ClaimID parent) (tq_ParentClaimID request))
          then (Fail "ownership takeover parent unavailable", a)
          else match makeActivityOwnershipClaim (tq_Handle request) (cfg_NodeID (ag_Cfg a))
                       (cl_ControllerGeneration parent) (cl_ActivityEpoch parent)
                       (wrap64 (cl_TakeoverSequence parent + 1)) "user_confirmed_takeover"
                       (cl_ClaimID parent) (tq_OperationID request) (te_nowClaim e) with
          | Fail err => (Fail err, a)
          | Ok claim =>
              let '((accepted, err), a) :=
                applyActivityOwnershipClaim (te_saveClaim e) claim true a in
              if negb (is_ok err) || negb accepted
              then (Fail "ownership takeover local CAS failed", a)
              else
                let operation := new_operation e request parent claim in
                if bool_decide (maxOwnershipTakeovers <=
                     size (rs_OwnershipTakeovers (ag_state a)))%nat
                then (Fail "ownership takeover journal full", a)
                else
                  let '(err, a) := saveRuntimeStateLocked (te_saveJournal e)
                                     (put_takeover a operation (tq_OperationID request)) in
                  match err with Ok _ => (Ok operation, a) | Fail m => (Fail m, a) end
          end
      end
  end.

Definition performUserConfirmedTakeover (e : takeoverEnv) (request : ownershipTakeoverRequest)
  (a : Agent) : result ownershipResolveResponse * Agent :=
  let '(prepared, a) := prepareTakeover e request a in
  match prepared with
  | Fail m => (Fail m, a)
  | Ok operation =>
      if to_Succeeded operation then
        let '(err, a) := ensureOwnershipTakeoverAudit e operation a in
        match err with Ok _ => (Ok (takeover_committed operation), a) | Fail m => (Fail m, a) end
      else
        let urls := length (pol_PeerWitnessURLs (cfg_Disaster (ag_Cfg a))) in
        if broadcastOwnershipClaim a (to_Claim operation) (te_fingerprint e) (te_ackArrivals e)
           <? requiredOwners urls
        then (Fail "ownership takeover quorum unavailable", a)
        else
          let current := default zero_operation
            (rs_OwnershipTakeovers (ag_state a) !! tq_OperationID request) in
          let current := with_succeeded current (unix_milli (te_nowSucceeded e)) in
          let '(err, a) := saveRuntimeStateLocked (te_saveSucceeded e)
                             (put_takeover a current (tq_OperationID request)) in
          match err with
          | Fail m => (Fail m, a)
          | Ok _ =>
              let '(err, a) := ensureOwnershipTakeoverAudit e current a in
              match err with
              | Ok _ => (Ok (takeover_committed current), a)
              | Fail m => (Fail m, a)
              end
          end
  end.

(** The adapter endpoint in front of it. *)
Definition handleAdapterOwnershipTakeover (e : takeoverEnv) (authenticated : bool)
  (request : ownershipTakeoverRequest) (a : Agent) : (Z + ownershipResolveResponse) * Agent :=
  if negb authenticated then (inl 401, a)
  else if negb (validOwnershipHandle (tq_Handle request))
          || negb (valid_sha256_hex (tq_ParentClaimID request))
          || negb (validUUID (tq_OperationID request))
  then (inl 400, a)
  else if negb (String.eqb (cm_Mode (rs_ControlMode (ag_state a))) NodeModeIndependent)
  then (inl 409, a)
  else
    let '(res, a) := performUserConfirmedTakeover e request a in
    match res with Ok r => (inr r, a) | Fail _ => (inl 409, a) end.

Definition handleAdapterOwnershipResolve (sv : bool) (order : list (Z * activityOwnershipClaim) ->
    list (Z * activityOwnershipClaim)) (authenticated : bool) (handle : string)
  (fingerprint : option string) (arrivals : list (option ownershipPeerResponse)) (a : Agent)
  : (Z + ownershipResolveResponse) * Agent :=
  if negb authenticated then (inl 401, a)
  else if negb (validOwnershipHandle handle) then (inl 400, a)
  else if negb (String.eqb (cm_Mode (rs_ControlMode (ag_state a))) NodeModeIndependent)
  then (inl 409, a)
  else let '(r, a) := queryOwnershipQuorum sv order handle fingerprint arrivals a in (inr r, a).

(** What [loadRuntimeState] requires of a persisted claim and of a persisted
    takeover (src/internal/agent/runtime_state.go). *)
Definition validOwnershipEntry (handle : string) (claim : activityOwnershipClaim) : bool :=
  String.eqb handle (cl_Handle claim) && is_ok (validateActivityOwnershipClaim claim).

Definition validTakeoverEntry (operationID : string) (operation : ownershipTakeoverOperation) : bool :=
  String.eqb operationID (to_OperationID operation) && validUUID operationID
  && is_ok (validateActivityOwnershipClaim (to_Claim operation))
  && String.eqb (cl_Kind (to_Claim operation)) "user_confirmed_takeover"
  && String.eqb (cl_OperationID (to_Claim operation)) operationID
  && negb (to_UpdatedAt operation <=? 0)
  && negb (to_Audited operation && negb (to_Succeeded operation))
  && negb (String.eqb (to_ParentClaimID operation) "")
  && String.eqb (to_ParentClaimID operation) (cl_ParentClaimID (to_Claim operation)).

(** ** The order of claims *)

Definition claim_lt (c d : activityOwnershipClaim) : Prop :=
  cl_ControllerGeneration c < cl_ControllerGeneration d \/
  (cl_ControllerGeneration c = cl_ControllerGeneration d /\
   (cl_ActivityEpoch c < cl_ActivityEpoch d \/
    (cl_ActivityEpoch c = cl_ActivityEpoch d /\
     cl_TakeoverSequence c < cl_TakeoverSequence d))).

(** Same generation, epoch and sequence: the slot a claim competes for. *)
Definition same_slot (c d : activityOwnershipClaim) : Prop :=
  cl_ControllerGeneration c = cl_ControllerGeneration d /\
  cl_ActivityEpoch c = cl_ActivityEpoch d /\
  cl_TakeoverSequence c = cl_TakeoverSequence d.

(** Everything a claim states except when it was observed. *)
Definition same_facts (c d : activityOwnershipClaim) : Prop :=
  cl_Handle c = cl_Handle d /\ cl_OwnerNodeID c = cl_OwnerNodeID d /\ same_slot c d /\
  cl_Kind c = cl_Kind d /\ cl_ParentClaimID c = cl_ParentClaimID d /\
  cl_OperationID c = cl_OperationID d.

Lemma compare_spec (c d : activityOwnershipClaim) :
  (compareActivityOwnership c d = -1 /\ claim_lt c d) \/
  (compareActivityOwnership c d = 1 /\ claim_lt d c) \/
  (compareActivityOwnership c d = 0 /\ same_slot c d /\ cl_ClaimID c = cl_ClaimID d) \/
  (compareActivityOwnership c d = 2 /\ same_slot c d /\ cl_ClaimID c <> cl_ClaimID d).
Proof.
  unfold compareActivityOwnership, claim_lt, same_slot.
  repeat case_match; b2p;
    first [ left; split; [done|lia] | right; left; split; [done|lia]
          | right; right; left; split_and!; (done || lia)
          | right; right; right; split_and!; (done || lia) ].
Qed.

Lemma slot_trichotomy (c d : activityOwnershipClaim) : claim_lt c d \/ same_slot c d \/ claim_lt d c.
Proof. unfold claim_lt, same_slot. lia. Qed.

Lemma claim_lt_trans (c d e : activityOwnershipClaim) : claim_lt c d -> claim_lt d e -> claim_lt c e.
Proof. unfold claim_lt. lia. Qed.

Lemma claim_lt_irrefl (c : activityOwnershipClaim) : ~ claim_lt c c.
Proof. unfold claim_lt. lia. Qed.

(** ** The local compare-and-set *)

(** [holds a c]: the node's claim for [c]'s handle is at least [c], and it is [c]
    itself (same identity) when it sits in [c]'s slot. *)
Definition holds (m : gmap string activityOwnershipClaim) (c : activityOwnershipClaim) : Prop :=
  exists cur, m !! cl_Handle c = Some cur /\
    ((same_slot cur c /\ cl_ClaimID cur = cl_ClaimID c) \/ claim_lt c cur).

Definition owned (a : Agent) : gmap string activityOwnershipClaim := rs_ActivityOwnership (ag_state a).

(** A claim identity fixes the slot on the set of claims [P]. *)
Definition no_collision (P : activityOwnershipClaim -> Prop) : Prop :=
  forall c d, P c -> P d -> cl_ClaimID c = cl_ClaimID d -> same_facts c d.

Lemma owned_store (a : Agent) (c : activityOwnershipClaim) (sv : bool) :
  owned (snd (saveRuntimeStateLocked sv (store_claim a c))) = <[cl_Handle c := c]> (owned a).
Proof. by destruct sv. Qed.

(** Every outcome of [applyActivityOwnershipClaim]: nothing changes, or a valid
    claim strictly above the current one (or the first one) is stored. *)
Lemma apply_cases (sv rp : bool) (c : activityOwnershipClaim) (a : Agent) :
  let '((acc, err), a') := applyActivityOwnershipClaim sv c rp a in
  (a' = a /\ (acc = true -> err = Ok tt /\ validateActivityOwnershipClaim c = Ok tt /\
     exists cur, owned a !! cl_Handle c = Some cur /\ cl_ClaimID cur = cl_ClaimID c)) \/
  (acc = true /\ validateActivityOwnershipClaim c = Ok tt /\ (err = Ok tt <-> sv = true) /\
   a' = snd (saveRuntimeStateLocked sv (store_claim a c)) /\
   match owned a !! cl_Handle c with
   | Some cur => cl_ClaimID cur <> cl_ClaimID c /\ claim_lt cur c /\
                 (rp = true -> cl_ParentClaimID c = cl_ClaimID cur)
   | None => rp = false
   end).
Proof.
  unfold applyActivityOwnershipClaim, owned.
  destruct (validateActivityOwnershipClaim c) as [[]|e]; [|left; by split].
  destruct (rs_ActivityOwnership (ag_state a) !! cl_Handle c) as [cur|] eqn:Hcur.
  - destruct (String.eqb_spec (cl_ClaimID cur) (cl_ClaimID c)) as [He|He].
    { left. split; [done|]. intros _. eauto. }
    destruct (rp && _) eqn:Hp; [left; by split|].
    destruct (compare_spec c cur) as [[-> _]|[[-> Hlt]|[(-> & _)|(-> & _)]]];
      cbn [orb Z.leb Z.eqb Z.compare]; try (left; by split).
    destruct (saveRuntimeStateLocked sv (store_claim a c)) as [err a'] eqn:Hsv. right.
    split_and!; [done|done| |done|done|done|].
    + destruct sv; simpl in Hsv; simplify_eq; by split.
    + intros ->. simpl in Hp. b2p. congruence.
  - destruct rp; [left; by split|].
    destruct (saveRuntimeStateLocked sv (store_claim a c)) as [err a'] eqn:Hsv. right.
    split_and!; [done|done| |done|done].
    destruct sv; simpl in Hsv; simplify_eq; by split.
Qed.

Lemma holds_refl (m : gmap string activityOwnershipClaim) (c : activityOwnershipClaim) :
  holds (<[cl_Handle c := c]> m) c.
Proof. exists c. rewrite lookup_insert_eq. split; [done|]. left. by unfold same_slot. Qed.

Lemma holds_insert (m : gmap string activityOwnershipClaim) (c d : activityOwnershipClaim) :
  holds m c ->
  (forall cur, m !! cl_Handle d = Some cur -> claim_lt cur d) ->
  holds (<[cl_Handle d := d]> m) c.
Proof.
  intros (cur & Hc & Hcase) Hd. destruct (decide (cl_Handle d = cl_Handle c)) as [He|Hne].
  - rewrite He in *. specialize (Hd _ Hc). exists d. rewrite lookup_insert_eq. split; [done|].
    right. destruct Hcase as [[Hs _]|Hlt]; [|by eapply claim_lt_trans].
    unfold same_slot, claim_lt in *. lia.
  - exists cur. by rewrite lookup_insert_ne.
Qed.

(** Two claims for one handle and one slot that a node holds are the same claim. *)
Lemma holds_slot (m : gmap string activityOwnershipClaim) (c d : activityOwnershipClaim) :
  holds m c -> holds m d -> cl_Handle c = cl_Handle d -> same_slot c d ->
  (exists cur, m !! cl_Handle c = Some cur /\ claim_lt c cur) \/ cl_ClaimID c = cl_ClaimID d.
Proof.
  intros (cur & Hc & H1) (cur' & Hd & H2) Hh Hs. rewrite <- Hh in Hd.
  assert (cur' = cur) as -> by congruence.
  destruct H1 as [[_ H1]|H1]; [|left; by exists cur].
  destruct H2 as [[_ H2]|H2]; [right; congruence|].
  left. exists cur. split; [done|]. unfold same_slot, claim_lt in *. lia.
Qed.

(** ** The maximal claim *)

Lemma same_slot_sym (c d : activityOwnershipClaim) : same_slot c d -> same_slot d c.
Proof. unfold same_slot. lia. Qed.

Lemma same_slot_trans (c d e : activityOwnershipClaim) :
  same_slot c d -> same_slot d e -> same_slot c e.
Proof. unfold same_slot. lia. Qed.

Lemma slot_lt (c d : activityOwnershipClaim) : same_slot c d -> ~ claim_lt c d.
Proof. unfold claim_lt, same_slot. lia. Qed.

(** What the loop has established after the prefix [l]. *)
Definition maximal_of (l : list activityOwnershipClaim)
  (st : option activityOwnershipClaim * bool) : Prop :=
  match st with
  | (None, conflict) => l = [] /\ conflict = false
  | (Some m, conflict) =>
      m ∈ l /\ (forall d, d ∈ l -> ~ claim_lt m d) /\
      (conflict = true <-> exists d, d ∈ l /\ same_slot d m /\ cl_ClaimID d <> cl_ClaimID m)
  end.

Lemma maximal_of_step (l : list activityOwnershipClaim) st (c : activityOwnershipClaim) :
  maximal_of l st -> maximal_of (l ++ [c]) (maximal_step st c).
Proof.
  destruct st as [[m|] conflict]; simpl.
  2: { intros [-> ->]. simpl. split_and!; [set_solver| |].
       - intros d ->%list_elem_of_singleton. apply claim_lt_irrefl.
       - split; [done|]. intros (d & ->%list_elem_of_singleton & _ & Hd). done. }
  intros (Hm & Hmax & Hconf).
  destruct (compare_spec c m) as [[-> Hlt]|[[-> Hlt]|[(-> & Hs & Hid)|(-> & Hs & Hid)]]]; simpl.
  - split_and!; [set_solver| |].
    + intros d [Hd| ->%list_elem_of_singleton]%elem_of_app; [by apply Hmax|].
      unfold claim_lt in *. lia.
    + rewrite Hconf. split; intros (d & Hd & Hs & Hne).
      * exists d. set_solver.
      * apply elem_of_app in Hd as [Hd| ->%list_elem_of_singleton]; [by exists d|].
        by apply slot_lt in Hs.
  - split_and!; [set_solver| |].
    + intros d [Hd| ->%list_elem_of_singleton]%elem_of_app; [|apply claim_lt_irrefl].
      specialize (Hmax d Hd). unfold claim_lt in *. lia.
    + split; [done|]. intros (d & [Hd| ->%list_elem_of_singleton]%elem_of_app & Hs & Hne); [|done].
      specialize (Hmax d Hd). unfold claim_lt, same_slot in *. lia.
  - split_and!; [set_solver| |].
    + intros d [Hd| ->%list_elem_of_singleton]%elem_of_app; [by apply Hmax|].
      by apply slot_lt, same_slot_sym.
    + rewrite Hconf. split; intros (d & Hd & Hs' & Hne).
      * exists d. set_solver.
      * apply elem_of_app in Hd as [Hd| ->%list_elem_of_singleton]; [by exists d|done].
  - split_and!; [set_solver| |].
    + intros d [Hd| ->%list_elem_of_singleton]%elem_of_app; [by apply Hmax|].
      by apply slot_lt, same_slot_sym.
    + split; [|done]. intros _. exists c. set_solver.
Qed.

Lemma maximal_claim_spec (l : list activityOwnershipClaim) : maximal_of l (maximal_claim l).
Proof.
  unfold maximal_claim. induction l as [|c l IH] using rev_ind; [done|].
  rewrite foldl_app. simpl. by apply maximal_of_step.
Qed.

(** Two iteration orders of the same claims agree on the conflict flag and, when
    there is none, on the identity and the slot of the maximum. *)
Lemma maximal_claim_perm (l1 l2 : list activityOwnershipClaim) :
  l1 ≡ₚ l2 ->
  match maximal_claim l1, maximal_claim l2 with
  | (None, false), (None, false) => True
  | (Some m1, c1), (Some m2, c2) =>
      m1 ∈ l1 /\ m2 ∈ l1 /\ c1 = c2 /\ same_slot m1 m2 /\
      (c1 = false -> cl_ClaimID m1 = cl_ClaimID m2)
  | _, _ => False
  end.
Proof.
  intros Hp. pose proof (maximal_claim_spec l1) as H1. pose proof (maximal_claim_spec l2) as H2.
  destruct (maximal_claim l1) as [[m1|] c1], (maximal_claim l2) as [[m2|] c2]; simpl in *.
  - destruct H1 as (Hm1 & Hx1 & Hc1), H2 as (Hm2 & Hx2 & Hc2).
    assert (Hm2' : m2 ∈ l1) by (by rewrite Hp). assert (Hm1' : m1 ∈ l2) by (by rewrite <- Hp).
    assert (Hs : same_slot m1 m2).
    { specialize (Hx1 m2 Hm2'). specialize (Hx2 m1 Hm1').
      destruct (slot_trichotomy m1 m2) as [?|[?|?]]; done. }
    assert (Hid : c1 = false \/ c2 = false -> cl_ClaimID m1 = cl_ClaimID m2).
    { intros Hf. destruct (decide (cl_ClaimID m1 = cl_ClaimID m2)) as [He|Hne]; [done|].
      destruct Hf as [-> | ->].
      - enough (false = true) by done. apply Hc1. exists m2. split_and!; [done| |congruence].
        by apply same_slot_sym.
      - enough (false = true) by done. apply Hc2. exists m1. by split_and!. }
    split_and!; [done|done| |done|by auto].
    destruct c1, c2; try done.
    + symmetry. rewrite Hc2. destruct Hc1 as [(d & Hd & Hsd & Hne) _]; [done|].
      exists d. split_and!; [by rewrite <- Hp|by eapply same_slot_trans|]. rewrite <- Hid; auto.
    + rewrite Hc1. destruct Hc2 as [(d & Hd & Hsd & Hne) _]; [done|].
      exists d. split_and!; [by rewrite Hp| |rewrite Hid; auto].
      eapply same_slot_trans; [done|by apply same_slot_sym].
  - destruct H2 as [-> _]. apply Permutation_nil_r in Hp as ->. destruct H1 as [H1 _]. set_solver.
  - destruct H1 as [-> _]. symmetry in Hp. apply Permutation_nil_r in Hp as ->.
    destruct H2 as [H2 _]. set_solver.
  - by destruct H1 as [_ ->], H2 as [_ ->].
Qed.

(** ** The quorum query *)

Definition peers (a : Agent) : nat := length (pol_PeerWitnessURLs (cfg_Disaster (ag_Cfg a))).

Lemma elem_of_matching (self n : Z) (claims : gmap Z activityOwnershipClaim) (id : string) :
  n ∈ matchingNodes self claims id <->
  n = self \/ exists c, claims !! n = Some c /\ cl_ClaimID c = id.
Proof.
  unfold matchingNodes. rewrite elem_of_union, elem_of_singleton, elem_of_dom.
  apply or_iff_compat_l. split.
  - intros [c Hc]. apply map_lookup_filter_Some in Hc as [? ?]. eauto.
  - intros (c & ? & ?). exists c. by apply map_lookup_filter_Some.
Qed.

Lemma elem_of_order (order : list (Z * activityOwnershipClaim) -> list (Z * activityOwnershipClaim))
  (claims : gmap Z activityOwnershipClaim) (c : activityOwnershipClaim) :
  (forall l, order l ≡ₚ l) ->
  c ∈ (order (map_to_list claims)).*2 <-> exists n, claims !! n = Some c.
Proof.
  intros Ho. rewrite Ho, list_elem_of_fmap. split.
  - intros ([n d] & -> & Hd%elem_of_map_to_list). by exists n.
  - intros [n Hn%elem_of_map_to_list]. by exists (n, c).
Qed.

Lemma requiredOwners_majority (k : nat) (x : Z) :
  requiredOwners k <= x -> Z.of_nat k + 1 < 2 * x.
Proof.
  unfold requiredOwners. intros Hx.
  pose proof (Z.div_mod (Z.of_nat k + 1) 2 ltac:(lia)).
  pose proof (Z.mod_pos_bound (Z.of_nat k + 1) 2 ltac:(lia)). lia.
Qed.

(** Acceptance leaves the claim in place, whatever the save does. *)
Lemma apply_accepted_current (sv rp : bool) (c : activityOwnershipClaim) (a a' : Agent) err :
  applyActivityOwnershipClaim sv c rp a = ((true, err), a') ->
  exists cur, owned a' !! cl_Handle c = Some cur /\ cl_ClaimID cur = cl_ClaimID c.
Proof.
  intros E. pose proof (apply_cases sv rp c a) as Hc. rewrite E in Hc.
  destruct Hc as [[-> Hc]|(_ & _ & _ & -> & _)].
  - by destruct (Hc eq_refl) as (_ & _ & ?).
  - exists c. rewrite owned_store, lookup_insert_eq. done.
Qed.

(** The outcome of a successful query, unfolded once for the theorems below. *)
Lemma query_ok_inv sv order handle fp arrivals (a a' : Agent) r :
  queryOwnershipQuorum sv order handle fp arrivals a = (r, a') -> rr_OK r = true ->
  exists claims availability m err,
    collectedClaims handle arrivals a = Some (claims, availability) /\
    maximal_claim (order (map_to_list claims)).*2 = (Some m, false) /\
    applyActivityOwnershipClaim sv m false a = ((true, err), a') /\
    requiredOwners (peers a) <=
      Z.of_nat (size (matchingNodes (cfg_NodeID (ag_Cfg a')) claims (cl_ClaimID m))) /\
    rr_ClaimID r = cl_ClaimID m /\
    rr_Decision r = (if (cl_OwnerNodeID m =? cfg_NodeID (ag_Cfg a))%Z then "automatic"
                     else if default false (availability !! cl_OwnerNodeID m)
                          then "owner_available" else "takeover_required").
Proof.
  unfold queryOwnershipQuorum. intros E Hok.
  destruct (_ || _); [by simplify_eq|].
  destruct (collectedClaims handle arrivals a) as [[claims availability]|] eqn:Hcol;
    [|by simplify_eq].
  destruct (maximal_claim _) as [[m|] [|]] eqn:Hm; try by simplify_eq.
  destruct (applyActivityOwnershipClaim sv m false a) as [[acc err] a1] eqn:Hap.
  destruct acc; cbn [negb] in E; [|by simplify_eq].
  destruct (Z.of_nat _ <? _) eqn:Hq; [by simplify_eq|]. b2p.
  exists claims, availability, m, err.
  assert (Hcfg : ag_Cfg a1 = ag_Cfg a).
  { pose proof (apply_cases sv false m a) as Hc. rewrite Hap in Hc.
    destruct Hc as [[-> _]|(_ & _ & _ & -> & _)]; [done|]. cbn [snd]. by rewrite save_cfg. }
  assert (Ha : a1 = a') by (repeat case_match; by simplify_eq). subst a1.
  rewrite Hcfg. split_and!; [done|done|done|exact Hq|..]; repeat case_match; by simplify_eq.
Qed.

(** Claims that state the same facts get the same answer. *)
Lemma compare_same_facts (c d e : activityOwnershipClaim) :
  same_slot c d -> cl_ClaimID c = cl_ClaimID d ->
  compareActivityOwnership c e = compareActivityOwnership d e.
Proof.
  unfold same_slot, compareActivityOwnership. by intros (-> & -> & ->) ->.
Qed.

Lemma apply_same_answer (sv rp : bool) (c d : activityOwnershipClaim) (a : Agent) :
  validateActivityOwnershipClaim c = Ok tt -> validateActivityOwnershipClaim d = Ok tt ->
  same_facts c d -> cl_ClaimID c = cl_ClaimID d ->
  fst (applyActivityOwnershipClaim sv c rp a) = fst (applyActivityOwnershipClaim sv d rp a).
Proof.
  intros Hc Hd (Hh & _ & Hs & _ & Hp & _) Hid. unfold applyActivityOwnershipClaim.
  rewrite Hc, Hd, Hh, Hid, Hp.
  destruct (rs_ActivityOwnership _ !! _) as [cur|]; [|by destruct rp, sv].
  rewrite (compare_same_facts c d cur) by done.
  destruct (String.eqb _ _); [done|]. destruct (rp && _); [done|].
  destruct (_ || _); [done|]. by destruct sv.
Qed.

(** C31: the answer of the ownership query does not depend on the order in which
    Go iterates over the map of collected claims: two iteration orders give the
    same response, provided the collected claims are valid (each peer claim is
    validated on arrival) and no two different claims share a SHA-256 identity. *)
Theorem query_order_irrelevant sv order1 order2 handle fp arrivals (a : Agent) :
  (forall l, order1 l ≡ₚ l) -> (forall l, order2 l ≡ₚ l) ->
  (forall claims availability n c, collectedClaims handle arrivals a = Some (claims, availability) ->
     claims !! n = Some c -> validateActivityOwnershipClaim c = Ok tt) ->
  no_collision (fun c => exists claims availability n,
     collectedClaims handle arrivals a = Some (claims, availability) /\ claims !! n = Some c) ->
  fst (queryOwnershipQuorum sv order1 handle fp arrivals a) =
  fst (queryOwnershipQuorum sv order2 handle fp arrivals a).
Proof.
  intros H1 H2 Hv Hnc. unfold queryOwnershipQuorum. destruct (_ || _); [done|].
  destruct (collectedClaims handle arrivals a) as [[claims av]|] eqn:Hcol; [|done].
  assert (Hl : (order1 (map_to_list claims)).*2 ≡ₚ (order2 (map_to_list claims)).*2)
    by (apply fmap_Permutation; by rewrite H1, H2).
  pose proof (maximal_claim_perm _ _ Hl) as Hperm.
  destruct (maximal_claim (order1 _).*2) as [[m1|] c1], (maximal_claim (order2 _).*2) as [[m2|] c2];
    try (by destruct c1); try (by destruct c1, c2).
  destruct Hperm as (Hi1 & Hi2 & <- & Hs & Hid). destruct c1; [done|]. specialize (Hid eq_refl).
  apply elem_of_order in Hi1 as [n1 Hn1]; [|done]. apply elem_of_order in Hi2 as [n2 Hn2]; [|done].
  assert (Hf : same_facts m1 m2) by (apply Hnc; eauto 6).
  pose proof (apply_same_answer sv false m1 m2 a (Hv _ _ _ _ eq_refl Hn1) (Hv _ _ _ _ eq_refl Hn2)
    Hf Hid) as Ha.
  destruct (applyActivityOwnershipClaim sv m1 false a) as [[acc1 e1] a1],
    (applyActivityOwnershipClaim sv m2 false a) as [[acc2 e2] a2]. cbn [fst] in Ha.
  assert (acc1 = acc2) as <- by congruence. destruct Hf as (_ & Hown & _). rewrite <- Hid, <- Hown.
  destruct acc1; [|done]. simpl. by repeat case_match.
Qed.

(** An ownership query that returns a decision is backed by a majority.  The
    decided claim was reported by some node, no reported claim is newer and none
    contests its slot, the nodes reporting it (this node included, which holds it
    afterwards) are more than half of the cluster of this node and its configured
    peers, and the decision is "automatic" exactly when this node is the owner. *)
Theorem query_quorum_sound sv order handle fp arrivals (a a' : Agent) r :
  (forall l, order l ≡ₚ l) ->
  queryOwnershipQuorum sv order handle fp arrivals a = (r, a') -> rr_OK r = true ->
  exists claims availability m nodes,
    collectedClaims handle arrivals a = Some (claims, availability) /\
    rr_ClaimID r = cl_ClaimID m /\ (exists n, claims !! n = Some m) /\
    (forall n d, claims !! n = Some d ->
       ~ claim_lt m d /\ (same_slot d m -> cl_ClaimID d = cl_ClaimID m)) /\
    (forall n, n ∈ nodes -> n = cfg_NodeID (ag_Cfg a) \/
       exists c, claims !! n = Some c /\ cl_ClaimID c = cl_ClaimID m) /\
    Z.of_nat (peers a) + 1 < 2 * Z.of_nat (size (nodes : gset Z)) /\
    (exists cur, owned a' !! cl_Handle m = Some cur /\ cl_ClaimID cur = cl_ClaimID m) /\
    (rr_Decision r = "automatic" <-> cl_OwnerNodeID m = cfg_NodeID (ag_Cfg a)).
Proof.
  intros Ho E Hok.
  destruct (query_ok_inv _ _ _ _ _ _ _ _ E Hok)
    as (claims & av & m & err & Hcol & Hmax & Hap & Hq & Hid & Hdec).
  pose proof (apply_cases sv false m a) as Hcfg. rewrite Hap in Hcfg.
  assert (Hself : ag_Cfg a' = ag_Cfg a).
  { destruct Hcfg as [[-> _]|(_ & _ & _ & -> & _)]; [done|]. cbn [snd]. by rewrite save_cfg. }
  pose proof (maximal_claim_spec (order (map_to_list claims)).*2) as Hspec. rewrite Hmax in Hspec.
  destruct Hspec as (Hin & Hup & Hconf).
  exists claims, av, m, (matchingNodes (cfg_NodeID (ag_Cfg a')) claims (cl_ClaimID m)).
  split_and!; [done|done|by apply elem_of_order in Hin| | | | |].
  - intros n d Hd. assert (Hdin : d ∈ (order (map_to_list claims)).*2)
      by (apply elem_of_order; eauto). split; [by apply Hup|].
    intros Hs. destruct (decide (cl_ClaimID d = cl_ClaimID m)) as [|Hne]; [done|].
    assert (false = true); [|done]. apply Hconf. eauto.
  - intros n Hn. rewrite Hself in Hn. by apply elem_of_matching.
  - by apply requiredOwners_majority.
  - by eapply apply_accepted_current.
  - rewrite Hdec. destruct (Z.eqb_spec (cl_OwnerNodeID m) (cfg_NodeID (ag_Cfg a))); [done|].
    split; [|done]. by destruct (default false _).
Qed.

(** ** The takeover journal *)

Definition journal (a : Agent) : gmap string ownershipTakeoverOperation :=
  rs_OwnershipTakeovers (ag_state a).

Definition journal_ok (a : Agent) : Prop :=
  forall k op, journal a !! k = Some op -> validTakeoverEntry k op = true.

Definition claims_ok (a : Agent) : Prop :=
  forall h c, owned a !! h = Some c -> validOwnershipEntry h c = true.

(** What the local compare-and-set and the query leave alone. *)
Record claim_step (a a' : Agent) : Prop := {
  cs_journal : journal a' = journal a;
  cs_cfg : ag_Cfg a' = ag_Cfg a;
  cs_audit : ag_audit a' = ag_audit a;
  cs_secret : ag_witnessSecret a' = ag_witnessSecret a;
  cs_claims : claims_ok a -> claims_ok a';
}.

Lemma claim_step_refl (a : Agent) : claim_step a a.
Proof. by constructor. Qed.

Lemma claim_step_trans (a b c : Agent) : claim_step a b -> claim_step b c -> claim_step a c.
Proof.
  intros [] []. constructor; [congruence..|]. auto.
Qed.

Lemma apply_step (sv rp : bool) (c : activityOwnershipClaim) (a : Agent) :
  claim_step a (snd (applyActivityOwnershipClaim sv c rp a)).
Proof.
  pose proof (apply_cases sv rp c a) as Hc.
  destruct (applyActivityOwnershipClaim sv c rp a) as [[acc err] a'].
  destruct Hc as [[-> _]|(_ & Hv & _ & -> & _)]; [apply claim_step_refl|]. cbn [snd].
  constructor; [by destruct sv..|]. intros Hok h d. rewrite owned_store.
  destruct (decide (cl_Handle c = h)) as [<-|Hne].
  - rewrite lookup_insert_eq. intros Hd. assert (d = c) as -> by congruence.
    unfold validOwnershipEntry. by rewrite String.eqb_refl, Hv.
  - rewrite lookup_insert_ne by done. apply Hok.
Qed.

Lemma query_step sv order handle fp arrivals (a : Agent) :
  claim_step a (snd (queryOwnershipQuorum sv order handle fp arrivals a)).
Proof.
  unfold queryOwnershipQuorum. destruct (_ || _); [apply claim_step_refl|].
  destruct (collectedClaims _ _ _) as [[claims av]|]; [|apply claim_step_refl].
  destruct (maximal_claim _) as [[m|] [|]]; try apply claim_step_refl.
  pose proof (apply_step sv false m a) as Hs.
  destruct (applyActivityOwnershipClaim sv m false a) as [[acc err] a1]. cbn [snd] in Hs.
  destruct (negb acc); [done|]. by repeat case_match.
Qed.

(** A claim built by [makeActivityOwnershipClaim] has the requested fields. *)
Lemma make_claim_inv handle owner gen epoch seq kind parent op now c :
  makeActivityOwnershipClaim handle owner gen epoch seq kind parent op now = Ok c ->
  validateActivityOwnershipClaim c = Ok tt /\ cl_Handle c = handle /\ cl_OwnerNodeID c = owner /\
  cl_ControllerGeneration c = gen /\ cl_ActivityEpoch c = epoch /\ cl_TakeoverSequence c = seq /\
  cl_Kind c = kind /\ cl_ParentClaimID c = parent /\ cl_OperationID c = op.
Proof.
  unfold makeActivityOwnershipClaim. set (c' := with_ClaimID _ _).
  destruct (validateActivityOwnershipClaim c') as [[]|e] eqn:Hv; cbn [rbind]; [|done].
  intros Hc. assert (c = c') as -> by congruence. by split_and!.
Qed.

(** The request passed the adapter endpoint's checks. *)
Definition valid_takeover_request (request : ownershipTakeoverRequest) : Prop :=
  validUUID (tq_OperationID request) = true /\ valid_sha256_hex (tq_ParentClaimID request) = true.

Definition clocks_positive (e : takeoverEnv) : Prop :=
  0 < unix_milli (te_nowJournal e) /\ 0 < unix_milli (te_nowSucceeded e) /\
  0 < unix_milli (te_nowAudited e).

Lemma put_takeover_journal (a : Agent) op id :
  journal (put_takeover a op id) = <[id := op]> (journal a).
Proof. done. Qed.

Lemma entry_operation_id (k : string) op : validTakeoverEntry k op = true -> to_OperationID op = k.
Proof. unfold validTakeoverEntry. intros Hv. by b2p. Qed.

Lemma sha256_hex_nonempty (s : string) : valid_sha256_hex s = true -> s <> "".
Proof. by intros Hv ->. Qed.

(** The operation a call journals when the id is new. *)
Definition fresh_operation (e : takeoverEnv) (request : ownershipTakeoverRequest) (a : Agent)
  (op : ownershipTakeoverOperation) : Prop :=
  exists parent claim, op = new_operation e request parent claim /\
    validateActivityOwnershipClaim claim = Ok tt /\ cl_Kind claim = "user_confirmed_takeover" /\
    cl_OperationID claim = tq_OperationID request /\ cl_ParentClaimID claim = cl_ClaimID parent /\
    cl_OwnerNodeID claim = cfg_NodeID (ag_Cfg a).

(** Both ways [prepareTakeover] can succeed: the journalled operation, or a fresh
    one journalled and saved. *)
Lemma prepare_inv (e : takeoverEnv) request (a a1 : Agent) op :
  prepareTakeover e request a = (Ok op, a1) ->
  cl_Handle (to_Claim op) = tq_Handle request /\ to_ParentClaimID op = tq_ParentClaimID request /\
  ((a1 = a /\ journal a !! tq_OperationID request = Some op) \/
   (journal a !! tq_OperationID request = None /\ fresh_operation e request a op /\
    exists a0, claim_step a a0 /\ a1 = snd (saveRuntimeStateLocked true
                 (put_takeover a0 op (tq_OperationID request))))).
Proof.
  unfold prepareTakeover.
  change (rs_OwnershipTakeovers (ag_state a)) with (journal a).
  destruct (journal a !! tq_OperationID request) as [op0|] eqn:Hj.
  { destruct (_ || _) eqn:Hc; [done|]. intros E. assert (op0 = op) as -> by congruence.
    assert (a1 = a) as -> by congruence. b2p. split_and!; [done..|]. by left. }
  pose proof (query_step (te_saveQuery e) (te_order e) (tq_Handle request)
    (te_fingerprint e) (te_queryArrivals e) a) as Hq.
  destruct (queryOwnershipQuorum _ _ _ _ _ a) as [decision a2]. cbn [snd] in Hq.
  destruct (_ || _); [done|].
  destruct (currentActivityOwnership a2 _) as [parent|]; [|done].
  destruct (negb _) eqn:Hp; [done|]. b2p.
  destruct (makeActivityOwnershipClaim _ _ _ _ _ _ _ _ _) as [claim|] eqn:Hmk; [|done].
  apply make_claim_inv in Hmk as (Hval & Hhandle & Howner & _ & _ & _ & Hkind & Hpar & Hop).
  pose proof (apply_step (te_saveClaim e) true claim a2) as Ha.
  destruct (applyActivityOwnershipClaim _ claim true a2) as [[acc err] a3]. cbn [snd] in Ha.
  destruct (_ || _); [done|]. destruct (bool_decide _); [done|].
  destruct (te_saveJournal e); cbn [saveRuntimeStateLocked]; [|done].
  set (o := new_operation e request parent claim). set (b := with_disk _ _). intros E.
  assert (op = o /\ a1 = b) as [-> ->] by (split; congruence).
  split_and!; [done|done|]. right. split_and!; [done| |exists a3; split; [|done]].
  - exists parent, claim. split_and!; try done. by rewrite <- (cs_cfg _ _ Hq).
  - by eapply claim_step_trans.
Qed.

Lemma ack_nodes_spec (self n : Z) (claim : activityOwnershipClaim) arrivals :
  n ∈ ack_nodes self claim arrivals ->
  n = self \/ exists r, Some r ∈ arrivals /\ acknowledges claim r = true /\ or_WitnessNodeID r = n.
Proof.
  unfold ack_nodes. induction arrivals as [|x l IH] using rev_ind.
  - cbn [foldl]. intros Hn. left. by apply elem_of_singleton in Hn.
  - rewrite foldl_app. cbn [foldl]. intros Hn.
    destruct (decide (n ∈ foldl (fun nodes r => match r with
      | Some r => if acknowledges claim r then {[or_WitnessNodeID r]} ∪ nodes else nodes
      | None => nodes end) ({[self]} : gset Z) l)) as [Hl|Hl].
    + destruct (IH Hl) as [->|(r & Hr & ? & ?)]; [by left|].
      right. exists r. by rewrite elem_of_app; auto.
    + destruct x as [r|]; [destruct (acknowledges claim r) eqn:Ha|]; try done.
      apply elem_of_union in Hn as [->%elem_of_singleton|Hn]; [|done].
      right. exists r. split_and!; [|done..]. apply elem_of_app. right. constructor.
Qed.

Lemma broadcast_frame (a a' : Agent) claim fp arrivals :
  ag_Cfg a' = ag_Cfg a -> ag_witnessSecret a' = ag_witnessSecret a ->
  broadcastOwnershipClaim a' claim fp arrivals = broadcastOwnershipClaim a claim fp arrivals.
Proof. unfold broadcastOwnershipClaim. by intros -> ->. Qed.

(** A broadcast that reaches the required count was acknowledged by a majority. *)
Lemma broadcast_majority (a : Agent) claim fp arrivals :
  requiredOwners (peers a) <= broadcastOwnershipClaim a claim fp arrivals ->
  exists nodes : gset Z, Z.of_nat (peers a) + 1 < 2 * Z.of_nat (size nodes) /\
    forall n, n ∈ nodes -> n = cfg_NodeID (ag_Cfg a) \/
      exists r, Some r ∈ arrivals /\ acknowledges claim r = true /\ or_WitnessNodeID r = n.
Proof.
  unfold broadcastOwnershipClaim. intros Hq%requiredOwners_majority. destruct (_ || _).
  - exists {[cfg_NodeID (ag_Cfg a)]}. rewrite size_singleton. split; [lia|]. set_solver.
  - eexists. split; [exact Hq|]. intros n [->|(r & Hr & ? & ?)]%ack_nodes_spec; [by left|].
    right. exists r. split_and!; [|done..]. by eapply elem_of_take in Hr as (? & ?%list_elem_of_lookup_2 & _).
Qed.

Lemma audit_inv (e : takeoverEnv) op (a a' : Agent) :
  ensureOwnershipTakeoverAudit e op a = (Ok tt, a') ->
  journal a !! to_OperationID op = Some op ->
  (a' = a /\ to_Audited op = true) \/
  (to_Audited op = false /\ to_Succeeded op = true /\ ag_disk a' = Some (ag_state a') /\
   journal a' = <[to_OperationID op := with_audited op (unix_milli (te_nowAudited e))]> (journal a)).
Proof.
  unfold ensureOwnershipTakeoverAudit, journal. intros E Hj.
  destruct (to_Audited op); [left; split; [congruence|done]|].
  destruct (negb _); [done|]. cbn [ag_state with_audit] in E. rewrite Hj in E.
  destruct (negb (_ =? _)%string || _) eqn:Hs; [done|]. b2p.
  destruct (te_saveAudited e); cbn [saveRuntimeStateLocked] in E; [|done].
  right. set (b := with_disk _ _) in E. assert (a' = b) as -> by congruence. by split_and!.
Qed.

(** What a committed takeover leaves in the journal. *)
Lemma commit_inv (e : takeoverEnv) request (a a' : Agent) r :
  journal_ok a -> performUserConfirmedTakeover e request a = (Ok r, a') ->
  exists op, journal a' !! tq_OperationID request = Some op /\ to_Succeeded op = true /\
    to_Audited op = true /\ r = takeover_committed op /\
    cl_Handle (to_Claim op) = tq_Handle request /\ to_ParentClaimID op = tq_ParentClaimID request /\
    (a' = a \/ ag_disk a' = Some (ag_state a')) /\
    ((exists op0, journal a !! tq_OperationID request = Some op0 /\ to_Succeeded op0 = true) \/
     requiredOwners (peers a) <= broadcastOwnershipClaim a (to_Claim op) (te_fingerprint e)
       (te_ackArrivals e)).
Proof.
  intros Hjok. unfold performUserConfirmedTakeover.
  destruct (prepareTakeover e request a) as [[op|m] a1] eqn:Hprep; [|done].
  apply prepare_inv in Hprep as (Hh & Hp & Hcase).
  assert (Hbase : journal a1 !! tq_OperationID request = Some op /\
    to_OperationID op = tq_OperationID request /\ ag_Cfg a1 = ag_Cfg a /\
    ag_witnessSecret a1 = ag_witnessSecret a /\
    (to_Succeeded op = true -> a1 = a)).
  { destruct Hcase as [[-> Hj]|(Hnone & (parent & claim & -> & _) & a0 & [] & ->)].
    - split_and!; try done. by apply entry_operation_id, Hjok.
    - cbn [snd saveRuntimeStateLocked]. split_and!; try done. apply lookup_insert_eq. }
  destruct Hbase as (Hj1 & Hid & Hcfg & Hsec & Hsame).
  destruct (to_Succeeded op) eqn:Hsucc.
  - specialize (Hsame eq_refl) as ->.
    destruct (ensureOwnershipTakeoverAudit e op a) as [[[]|m] a2] eqn:Haud; [|done].
    intros E. assert (a' = a2 /\ r = takeover_committed op) as [-> ->] by (split; congruence).
    apply audit_inv in Haud; [|by rewrite Hid].
    destruct Haud as [[-> Haud]|(Haud & _ & Hd & Hj2)].
    + exists op. split_and!; try done; [by left|left; eauto].
    + exists (with_audited op (unix_milli (te_nowAudited e))). rewrite Hj2, Hid, lookup_insert_eq.
      split_and!; try done; [by right|left; eauto].
  - destruct (_ <? _) eqn:Hq; [done|]. b2p.
    change (rs_OwnershipTakeovers (ag_state a1)) with (journal a1). rewrite Hj1. cbn [default].
    destruct (te_saveSucceeded e); cbn [saveRuntimeStateLocked]; [|done].
    set (op1 := with_succeeded _ _). set (a2 := with_disk _ _).
    destruct (ensureOwnershipTakeoverAudit e op1 a2) as [[[]|m] a3] eqn:Haud; [|done].
    intros E. assert (a' = a3 /\ r = takeover_committed op1) as [-> ->] by (split; congruence).
    assert (Hj2 : journal a2 !! to_OperationID op1 = Some op1).
    { subst a2 op1. cbn. rewrite Hid. apply lookup_insert_eq. }
    apply audit_inv in Haud; [|done]. rewrite Hcfg in Hq. fold (peers a) in Hq.
    rewrite (broadcast_frame a a1) in Hq by done.
    assert (Hid1 : to_OperationID op1 = tq_OperationID request) by done. rewrite Hid1 in *.
    destruct Haud as [[-> Haud]|(Haud & _ & Hd & Hj3)].
    + exists op1. split_and!; try done; by right.
    + exists (with_audited op1 (unix_milli (te_nowAudited e))). rewrite Hj3, lookup_insert_eq.
      split_and!; try done; by right.
Qed.

(** A user-confirmed takeover is committed only by a majority.  When the call
    succeeds the journal holds the operation, marked succeeded and audited, for
    the requested handle and parent, the response carries its claim, the state on
    disk is the state in memory unless nothing changed, and either the operation
    had already been marked succeeded or more than half of the cluster (this node
    and its peers, counted by distinct node id) acknowledged this very claim. *)
Theorem takeover_commit_sound (e : takeoverEnv) request (a a' : Agent) r :
  journal_ok a -> performUserConfirmedTakeover e request a = (Ok r, a') ->
  exists op, journal a' !! tq_OperationID request = Some op /\ to_Succeeded op = true /\
    to_Audited op = true /\ r = takeover_committed op /\
    cl_Handle (to_Claim op) = tq_Handle request /\ to_ParentClaimID op = tq_ParentClaimID request /\
    (a' = a \/ ag_disk a' = Some (ag_state a')) /\
    ((exists op0, journal a !! tq_OperationID request = Some op0 /\ to_Succeeded op0 = true) \/
     exists nodes : gset Z, Z.of_nat (peers a) + 1 < 2 * Z.of_nat (size nodes) /\
       forall n, n ∈ nodes -> n = cfg_NodeID (ag_Cfg a) \/
         exists ack, Some ack ∈ te_ackArrivals e /\ acknowledges (to_Claim op) ack = true /\
                     or_WitnessNodeID ack = n).
Proof.
  intros Hj E. destruct (commit_inv _ _ _ _ _ Hj E) as (op & H1 & H2 & H3 & H4 & H5 & H6 & H7 & H8).
  exists op. split_and!; try done.
  destruct H8 as [H8|H8]; [by left|right]. by apply broadcast_majority in H8.
Qed.

(** Retrying a committed takeover is idempotent.  Once a call succeeded,
    the same request succeeds again with the same response in any environment
    (unreachable peers and failing disk included) and changes nothing: no second
    claim, journal entry or audit record. *)
Theorem takeover_retry_idempotent (e e' : takeoverEnv) request (a a' : Agent) r :
  journal_ok a -> performUserConfirmedTakeover e request a = (Ok r, a') ->
  performUserConfirmedTakeover e' request a' = (Ok r, a').
Proof.
  intros Hj E. destruct (commit_inv _ _ _ _ _ Hj E) as (op & H1 & H2 & H3 & -> & H5 & H6 & _).
  unfold performUserConfirmedTakeover, prepareTakeover.
  change (rs_OwnershipTakeovers (ag_state a')) with (journal a').
  rewrite H1, H5, H6, !String.eqb_refl. cbn [negb orb]. rewrite H2.
  unfold ensureOwnershipTakeoverAudit. by rewrite H3.
Qed.

(** ** Every outcome keeps the persisted state loadable *)

Lemma journal_ok_put (a : Agent) op k :
  journal_ok a -> validTakeoverEntry k op = true -> journal_ok (put_takeover a op k).
Proof.
  intros Hj Hv k' op'. rewrite put_takeover_journal.
  destruct (decide (k = k')) as [<-|Hne].
  - rewrite lookup_insert_eq. intros Ho. by assert (op' = op) as -> by congruence.
  - rewrite lookup_insert_ne by done. apply Hj.
Qed.

Lemma journal_ok_ext (a a' : Agent) : journal a' = journal a -> journal_ok a -> journal_ok a'.
Proof. unfold journal_ok. by intros ->. Qed.

Lemma claims_ok_ext (a a' : Agent) : owned a' = owned a -> claims_ok a -> claims_ok a'.
Proof. unfold claims_ok. by intros ->. Qed.

Lemma valid_with_succeeded k op t :
  validTakeoverEntry k op = true -> 0 < t -> validTakeoverEntry k (with_succeeded op t) = true.
Proof.
  unfold validTakeoverEntry. intros Hv Ht. b2p.
  rewrite !andb_true_iff. cbn. rewrite andb_false_r, negb_true_iff. split_and!; auto.
  - by apply String.eqb_eq.
  - by apply String.eqb_eq.
  - by apply String.eqb_eq.
  - lia.
  - by apply negb_true_iff, String.eqb_neq.
  - by apply String.eqb_eq.
Qed.

Lemma valid_with_audited k op t :
  validTakeoverEntry k op = true -> to_Succeeded op = true -> 0 < t ->
  validTakeoverEntry k (with_audited op t) = true.
Proof.
  intros Hv Hs Ht. apply (valid_with_succeeded _ _ t) in Hv; [|done].
  revert Hv. unfold validTakeoverEntry. cbn. rewrite Hs. simpl. by rewrite andb_false_r.
Qed.

Lemma valid_fresh (e : takeoverEnv) request (parent claim : activityOwnershipClaim) :
  valid_takeover_request request -> clocks_positive e ->
  validateActivityOwnershipClaim claim = Ok tt -> cl_Kind claim = "user_confirmed_takeover" ->
  cl_OperationID claim = tq_OperationID request -> cl_ParentClaimID claim = cl_ClaimID parent ->
  cl_ClaimID parent = tq_ParentClaimID request ->
  validTakeoverEntry (tq_OperationID request) (new_operation e request parent claim) = true.
Proof.
  intros [Hu Hp] (Ht & _) Hval Hk Ho Hpar Hpp. unfold validTakeoverEntry. cbn.
  rewrite Hu, Hval, Hk, Ho, Hpar, Hpp, !String.eqb_refl. cbn.
  rewrite andb_true_r, andb_true_iff, !negb_true_iff. split; [lia|].
  by apply String.eqb_neq, sha256_hex_nonempty.
Qed.

Definition ownership_ok (a : Agent) : Prop := journal_ok a /\ claims_ok a.

Lemma ownership_ok_save sv (a : Agent) :
  ownership_ok a -> ownership_ok (snd (saveRuntimeStateLocked sv a)).
Proof. by destruct sv. Qed.

Lemma ownership_ok_put (a : Agent) op k :
  ownership_ok a -> validTakeoverEntry k op = true -> ownership_ok (put_takeover a op k).
Proof. intros [Hj Hc] Hv. split; [by apply journal_ok_put|done]. Qed.

Lemma ownership_ok_step (a a' : Agent) : claim_step a a' -> ownership_ok a -> ownership_ok a'.
Proof. intros [] [Hj Hc]. split; [by eapply journal_ok_ext|auto]. Qed.

Lemma prepare_keeps (e : takeoverEnv) request (a : Agent) :
  valid_takeover_request request -> clocks_positive e -> ownership_ok a ->
  ownership_ok (snd (prepareTakeover e request a)).
Proof.
  intros Hr Ht Hok. unfold prepareTakeover. destruct (rs_OwnershipTakeovers _ !! _); [by destruct (_ || _)|].
  pose proof (query_step (te_saveQuery e) (te_order e) (tq_Handle request)
    (te_fingerprint e) (te_queryArrivals e) a) as Hq.
  destruct (queryOwnershipQuorum _ _ _ _ _ a) as [decision a2]. cbn [snd] in Hq.
  assert (Hok2 : ownership_ok a2) by (by eapply ownership_ok_step).
  destruct (_ || _); [done|].
  destruct (currentActivityOwnership a2 _) as [parent|]; [|done].
  destruct (negb _) eqn:Hp; [done|]. b2p.
  destruct (makeActivityOwnershipClaim _ _ _ _ _ _ _ _ _) as [claim|] eqn:Hmk; [|done].
  apply make_claim_inv in Hmk as (Hval & _ & _ & _ & _ & _ & Hkind & Hpar & Hop).
  pose proof (apply_step (te_saveClaim e) true claim a2) as Ha.
  destruct (applyActivityOwnershipClaim _ claim true a2) as [[acc err] a3]. cbn [snd] in Ha.
  assert (Hok3 : ownership_ok a3) by (by eapply ownership_ok_step).
  destruct (_ || _); [done|]. destruct (bool_decide _); [done|].
  pose proof (ownership_ok_save (te_saveJournal e) (put_takeover a3
    (new_operation e request parent claim) (tq_OperationID request))) as Hs.
  destruct (saveRuntimeStateLocked _ _) as [[]?]; apply Hs; apply ownership_ok_put; try done;
    by apply valid_fresh.
Qed.

Lemma audit_keeps (e : takeoverEnv) op (a : Agent) :
  clocks_positive e -> ownership_ok a ->
  ownership_ok (snd (ensureOwnershipTakeoverAudit e op a)).
Proof.
  intros (_ & _ & Ht) Hok. unfold ensureOwnershipTakeoverAudit.
  destruct (to_Audited op); [done|]. destruct (negb _); [done|].
  cbn [ag_state with_audit]. destruct (rs_OwnershipTakeovers _ !! _) as [cur|] eqn:Hcur; [|done].
  destruct (_ || _) eqn:Hc; [done|]. b2p.
  apply ownership_ok_save, ownership_ok_put; [done|].
  apply valid_with_audited; [|done..]. by apply (proj1 Hok).
Qed.

(** Every outcome of a takeover request, errors and failed writes included,
    leaves a state that passes the checks [loadRuntimeState] makes at start-up on
    ownership claims and on the takeover journal. *)
Theorem takeover_keeps_loadable (e : takeoverEnv) request (a : Agent) :
  valid_takeover_request request -> clocks_positive e -> ownership_ok a ->
  ownership_ok (snd (performUserConfirmedTakeover e request a)).
Proof.
  intros Hr Ht Hok. pose proof (prepare_keeps e request a Hr Ht Hok) as Hk.
  unfold performUserConfirmedTakeover.
  destruct (prepareTakeover e request a) as [[op|m] a1] eqn:Hprep; [|done]. cbn [snd] in Hk.
  destruct (to_Succeeded op).
  { pose proof (audit_keeps e op a1 Ht Hk) as Ha.
    by destruct (ensureOwnershipTakeoverAudit e op a1) as [[]]. }
  destruct (_ <? _); [done|].
  assert (Hj : journal a1 !! tq_OperationID request = Some op).
  { apply prepare_inv in Hprep as (_ & _ & [[-> Hj]|(_ & _ & a0 & _ & ->)]); [done|].
    apply lookup_insert_eq. }
  change (rs_OwnershipTakeovers (ag_state a1)) with (journal a1). rewrite Hj. cbn [default].
  set (op1 := with_succeeded _ _).
  assert (Hs : forall sv, ownership_ok
    (snd (saveRuntimeStateLocked sv (put_takeover a1 op1 (tq_OperationID request))))).
  { intros sv. apply ownership_ok_save, ownership_ok_put; [done|].
    apply valid_with_succeeded; [by apply (proj1 Hk)|]. by destruct Ht as (_ & ? & _). }
  specialize (Hs (te_saveSucceeded e)). destruct (saveRuntimeStateLocked _ _) as [[u|m] a2]; [|done].
  pose proof (audit_keeps e op1 a2 Ht Hs) as Ha.
  by destruct (ensureOwnershipTakeoverAudit e op1 a2) as [[]].
Qed.

End Ownership.

(** ** Witnesses

    Node 1 with peers 2 and 3: the Controller granted alice's activity to node 2,
    which is now unreachable; the user confirms the takeover on node 1. *)

#[local] Instance ascii_tables : UnicodeTables := fun s => s.

Definition demo_now : time := of_unix 1700000000.
Definition demo_claim (r : result activityOwnershipClaim) : activityOwnershipClaim :=
  match r with Ok c => c | Fail _ => to_Claim zero_operation end.
Definition demo_grant : activityOwnershipClaim :=
  demo_claim (makeActivityOwnershipClaim "alice" 2 1 1 0 "controller_grant" "" "" demo_now).
Definition demo_operation_id : string := "00000000-0000-4000-8000-000000000001".
Definition demo_takeover : activityOwnershipClaim :=
  demo_claim (makeActivityOwnershipClaim "alice" 1 1 1 1 "user_confirmed_takeover"
    (cl_ClaimID demo_grant) demo_operation_id demo_now).
Definition demo_reply (node : Z) (claim : activityOwnershipClaim) (accepted : bool)
  : ownershipPeerResponse :=
  {| or_OK := true; or_WitnessNodeID := node; or_Found := true; or_Claim := Some claim;
     or_AdapterAvailable := false; or_Accepted := accepted; or_ObservedAt := unix_milli demo_now |}.
Definition demo_node1 : Agent := demo_agent 1 ["https://n2"; "https://n3"].
Definition demo_request : ownershipTakeoverRequest :=
  {| tq_Handle := "alice"; tq_ParentClaimID := cl_ClaimID demo_grant;
     tq_OperationID := demo_operation_id |}.
Definition demo_env : takeoverEnv :=
  {| te_saveQuery := true; te_saveClaim := true; te_saveJournal := true; te_saveSucceeded := true;
     te_saveAudited := true; te_auditOK := true; te_nowClaim := demo_now; te_nowJournal := demo_now;
     te_nowSucceeded := demo_now; te_nowAudited := demo_now; te_fingerprint := Some "fp";
     te_order := fun l => l;
     te_queryArrivals := [None; Some (demo_reply 3 demo_grant false)];
     te_ackArrivals := [None; Some (demo_reply 3 demo_takeover true)] |}.

Lemma ok_eq {A} (p : result A * Agent) (r : A) : fst p = Ok r -> p = (Ok r, snd p).
Proof. destruct p. by intros [= ->]. Qed.

Lemma query_quorum_sound_witness :
  exists claims availability m nodes,
    collectedClaims "alice" (te_queryArrivals demo_env) demo_node1 = Some (claims, availability) /\
    cl_ClaimID demo_grant = cl_ClaimID m /\ (exists n, claims !! n = Some m) /\
    Z.of_nat (peers demo_node1) + 1 < 2 * Z.of_nat (size (nodes : gset Z)).
Proof.
  destruct (queryOwnershipQuorum true (fun l => l) "alice" (Some "fp") (te_queryArrivals demo_env)
    demo_node1) as [r a'] eqn:E.
  assert (Hr : fst (queryOwnershipQuorum true (fun l => l) "alice" (Some "fp")
    (te_queryArrivals demo_env) demo_node1) =
    {| rr_OK := true; rr_Decision := "takeover_required"; rr_ClaimID := cl_ClaimID demo_grant;
       rr_ReasonCode := "last_active_owner_unavailable" |}) by (vm_compute; reflexivity).
  rewrite E in Hr. cbn [fst] in Hr. subst r.
  destruct (query_quorum_sound true (fun l => l) "alice" (Some "fp") (te_queryArrivals demo_env)
    demo_node1 a' _ (fun l => reflexivity l) E eq_refl)
    as (claims & av & m & nodes & H1 & H2 & H3 & _ & _ & H4 & _).
  exists claims, av, m, nodes. by split_and!.
Defined.

Lemma takeover_commit_sound_witness :
  exists op a', performUserConfirmedTakeover demo_env demo_request demo_node1 =
    (Ok (takeover_committed op), a') /\
    journal a' !! demo_operation_id = Some op /\ to_Succeeded op = true.
Proof.
  assert (Hr : fst (performUserConfirmedTakeover demo_env demo_request demo_node1) =
    Ok {| rr_OK := true; rr_Decision := "takeover_committed"; rr_ClaimID := cl_ClaimID demo_takeover;
          rr_ReasonCode := "user_confirmed_last_owner_failure" |}) by (vm_compute; reflexivity).
  apply ok_eq in Hr. set (a' := snd _) in Hr. clearbody a'.
  destruct (takeover_commit_sound demo_env demo_request demo_node1 a' _ ltac:(done) Hr)
    as (op & H1 & H2 & _ & H3 & _).
  exists op, a'. rewrite Hr, H3. by split_and!.
Defined.

Lemma takeover_retry_idempotent_witness :
  exists r a', performUserConfirmedTakeover demo_env demo_request demo_node1 = (Ok r, a') /\
    performUserConfirmedTakeover demo_env demo_request a' = (Ok r, a').
Proof.
  assert (Hr : fst (performUserConfirmedTakeover demo_env demo_request demo_node1) =
    Ok {| rr_OK := true; rr_Decision := "takeover_committed"; rr_ClaimID := cl_ClaimID demo_takeover;
          rr_ReasonCode := "user_confirmed_last_owner_failure" |}) by (vm_compute; reflexivity).
  apply ok_eq in Hr. set (a' := snd _) in Hr. clearbody a'.
  eexists _, a'. split; [exact Hr|].
  exact (takeover_retry_idempotent demo_env demo_env demo_request demo_node1 a' _ ltac:(done) Hr).
Defined.

Lemma takeover_keeps_loadable_witness :
  ownership_ok (snd (performUserConfirmedTakeover demo_env demo_request demo_node1)).
Proof.
  apply (takeover_keeps_loadable demo_env demo_request demo_node1); [|by vm_compute|done].
  split; vm_compute; reflexivity.
Defined.

Lemma query_order_irrelevant_witness :
  let arrivals := [Some (demo_reply 2 demo_takeover false); Some (demo_reply 3 demo_grant false)] in
  fst (queryOwnershipQuorum true (fun l => l) "alice" (Some "fp") arrivals demo_node1) =
  fst (queryOwnershipQuorum true reverse "alice" (Some "fp") arrivals demo_node1).
Proof.
  intros arrivals.
  assert (Hin : forall claims availability n c,
    collectedClaims "alice" arrivals demo_node1 = Some (claims, availability) ->
    claims !! n = Some c -> c = demo_takeover \/ c = demo_grant).
  { intros claims av n c Hcol Hc.
    assert (Heq : collectedClaims "alice" arrivals demo_node1 =
      Some (<[3 := demo_grant]> (<[2 := demo_takeover]> ∅), <[3 := false]> (<[2 := false]> ∅)))
      by reflexivity.
    assert (claims = <[3 := demo_grant]> (<[2 := demo_takeover]> ∅)) as -> by congruence.
    apply lookup_insert_Some in Hc as [[_ <-]|[_ Hc]]; [by right|].
    apply lookup_insert_Some in Hc as [[_ <-]|[_ Hc]]; [by left|]. rewrite lookup_empty in Hc. discriminate Hc. }
  refine (query_order_irrelevant true (fun l => l) reverse "alice" (Some "fp") arrivals demo_node1
    _ _ _ _).
  - done.
  - intros l. apply reverse_Permutation.
  - intros claims av n c Hcol Hc. destruct (Hin _ _ _ _ Hcol Hc) as [-> | ->];
      vm_compute; reflexivity.
  - intros c d (c1 & a1 & n1 & H1 & H2) (c2 & a2 & n2 & H3 & H4) Hid.
    destruct (Hin _ _ _ _ H1 H2) as [-> | ->], (Hin _ _ _ _ H3 H4) as [-> | ->];
      try (exfalso; revert Hid; vm_compute; discriminate); by repeat split.
Defined.
