(* ===== verification/OwnershipSystem.v ===== *)
(** * Ownership across the cluster

    Nodes running src/internal/agent/activity_ownership.go together: claims are
    observed by nodes one at a time in any order, other handlers save the runtime
    state in between, processes restart from their disk copy.  The file shows
    what an acknowledged majority guarantees when saves succeed, and the run in
    which it does not hold when one save fails. *)

From Stdlib Require Import ZArith Lia Ascii String.
From stdpp Require Import base list gmap strings pretty.
From S2P Require Import Prelude GoStrings Sha256 Protocol AgentState PeerWitness Ownership.
#[local] Open Scope Z_scope.

Section Identity.
Context `{UnicodeTables}.

(** ** A claim's identity binds its facts *)

Lemma pretty_N_no_newline (x : N) : no_newline (pretty x).
Proof.
  destruct (pretty_N_digits x) as (_ & Hd & _). unfold no_newline. intros Hin.
  rewrite Forall_forall in Hd. specialize (Hd nl Hin). unfold is_digit in Hd.
  change (byte_val nl) with 10 in Hd. lia.
Qed.

Lemma pretty_Z_no_newline (z : Z) : no_newline (pretty z).
Proof.
  destruct z as [|p|p]; unfold pretty, pretty_Z; cbn.
  - apply forallb_no_newline. reflexivity.
  - apply (pretty_N_no_newline (N.pos p)).
  - change (nl ∉ bytes_of ("-" +:+ pretty (N.pos p))). rewrite bytes_of_app, not_elem_of_app.
    split; [by apply (forallb_no_newline "-")|apply (pretty_N_no_newline (N.pos p))].
Qed.

Lemma safe_no_newline (s : string) (n : Z) : safeInventoryString s n = true -> no_newline s.
Proof.
  unfold safeInventoryString. destruct (_ || _); [done|]. intros Hs Hin.
  rewrite forallb_forall in Hs. apply list_elem_of_In in Hin. by specialize (Hs nl Hin).
Qed.

Lemma valid_claim_fields (c : activityOwnershipClaim) :
  validateActivityOwnershipClaim c = Ok tt ->
  no_newline (cl_Handle c) /\ no_newline (cl_Kind c) /\ no_newline (cl_ParentClaimID c) /\
  cl_ClaimID c = activityOwnershipClaimID c.
Proof.
  unfold validateActivityOwnershipClaim. destruct (_ || _) eqn:Hbase; [done|]. b2p. intros Hv.
  split_and!; [by eapply safe_no_newline| | |done].
  - destruct (String.eqb_spec (cl_Kind c) "controller_grant") as [->|_];
      [by apply forallb_no_newline|].
    destruct (String.eqb_spec (cl_Kind c) "user_confirmed_takeover") as [->|_]; [|done].
    by apply forallb_no_newline.
  - destruct (String.eqb _ "controller_grant").
    { destruct (_ || _) eqn:Hkind; [done|]. b2p.
      match goal with E : cl_ParentClaimID c = "" |- _ => rewrite E end.
      by apply forallb_no_newline. }
    destruct (String.eqb _ _); [|done]. destruct (_ || _) eqn:Hkind; [done|]. b2p.
    match goal with E : valid_sha256_hex _ = true |- _ => unfold valid_sha256_hex in E end.
    destruct (hex_decode _) eqn:Hd; [|done]. by eapply hex_decode_no_newline.
Qed.

Lemma sep_inj (s t x y : string) : no_newline s -> no_newline t ->
  s +:+ newline +:+ x = t +:+ newline +:+ y -> s = t /\ x = y.
Proof.
  intros Hs Ht E. apply (f_equal bytes_of) in E.
  rewrite !bytes_of_app, !bytes_of_newline in E.
  apply app_sep_inj_l in E as [E1 E2]; [|done..]. by split; apply bytes_of_inj.
Qed.

Lemma canonical_facts (c d : activityOwnershipClaim) :
  validateActivityOwnershipClaim c = Ok tt -> validateActivityOwnershipClaim d = Ok tt ->
  claim_canonical c = claim_canonical d -> same_facts c d.
Proof.
  intros (H1 & H2 & H3 & _)%valid_claim_fields (H1' & H2' & H3' & _)%valid_claim_fields.
  unfold claim_canonical. intros E.
  assert (Hv : no_newline "stcontrol-activity-owner:v1") by by apply forallb_no_newline.
  repeat (apply sep_inj in E as [?%(inj pretty) E] || apply sep_inj in E as [? E];
    try done; try apply pretty_Z_no_newline).
Qed.

(** No two claims of [P] with different canonical texts share a digest. *)
Definition digest_injective (P : activityOwnershipClaim -> Prop) : Prop :=
  forall c d, P c -> P d -> sha256_hex (claim_canonical c) = sha256_hex (claim_canonical d) ->
  claim_canonical c = claim_canonical d.

Definition valid_claims (P : activityOwnershipClaim -> Prop) : Prop :=
  forall c, P c -> validateActivityOwnershipClaim c = Ok tt.

Lemma identity_binds (P : activityOwnershipClaim -> Prop) :
  valid_claims P -> digest_injective P -> no_collision P.
Proof.
  intros Hv Hi c d Hc Hd Hid. apply canonical_facts; [by apply Hv..|].
  apply Hi; [done..|]. destruct (valid_claim_fields c (Hv c Hc)) as (_ & _ & _ & E1).
  destruct (valid_claim_fields d (Hv d Hd)) as (_ & _ & _ & E2).
  unfold activityOwnershipClaimID in *. congruence.
Qed.

End Identity.

(** ** The system *)

Section System.
Context `{UnicodeTables}.

(** [Observe]: a node runs the compare-and-set (a peer's observe request, a
    Controller grant, the adoption step of a query, a takeover).  [Other]: any
    other handler leaves the runtime state [s] (its ownership map is the current
    one) and saves it.  [Restart]: the process dies and loads its disk copy. *)
Inductive action :=
| Observe (n : Z) (c : activityOwnershipClaim) (requireParent sv : bool)
| Other (n : Z) (s : agentRuntimeState) (sv : bool)
| Restart (n : Z).

Record cluster := {
  cu_nodes : gmap Z Agent;
  cu_acks : list (Z * activityOwnershipClaim);  (* answers (true, nil) given so far *)
}.

Definition set_node (s : cluster) (n : Z) (a : Agent) : gmap Z Agent := <[n := a]> (cu_nodes s).

Definition cluster_do (s : cluster) (act : action) : cluster :=
  match act with
  | Observe n c rp sv =>
      match cu_nodes s !! n with
      | None => s
      | Some a =>
          let '((accepted, err), a') := applyActivityOwnershipClaim sv c rp a in
          {| cu_nodes := set_node s n a';
             cu_acks := if accepted && is_ok err then (n, c) :: cu_acks s else cu_acks s |}
      end
  | Other n st sv =>
      match cu_nodes s !! n with
      | None => s
      | Some a =>
          let a' := with_state a (with_ActivityOwnership st (owned a)) in
          {| cu_nodes := set_node s n (snd (saveRuntimeStateLocked sv a')); cu_acks := cu_acks s |}
      end
  | Restart n =>
      match cu_nodes s !! n with
      | None => s
      | Some a => {| cu_nodes := set_node s n (restart a initial_runtime_state); cu_acks := cu_acks s |}
      end
  end.

Definition cluster_run (s : cluster) (acts : list action) : cluster := foldl cluster_do s acts.

(** Every save of the run succeeds and every claim is one of [P]. *)
Definition action_ok (P : activityOwnershipClaim -> Prop) (act : action) : Prop :=
  match act with
  | Observe _ c _ sv => P c /\ sv = true
  | Other _ _ sv => sv = true
  | Restart _ => True
  end.

(** A node is settled when its disk holds the claims of its memory, all of [P]. *)
Definition settled (P : activityOwnershipClaim -> Prop) (a : Agent) : Prop :=
  (exists d, ag_disk a = Some d /\ rs_ActivityOwnership d = owned a) /\
  forall h c, owned a !! h = Some c -> P c /\ h = cl_Handle c.

Definition cluster_inv (P : activityOwnershipClaim -> Prop) (s : cluster) : Prop :=
  (forall n a, cu_nodes s !! n = Some a -> settled P a) /\
  (forall n c, (n, c) ∈ cu_acks s -> P c /\
     exists a, cu_nodes s !! n = Some a /\ holds (owned a) c) /\
  forall n c d, (n, c) ∈ cu_acks s -> (n, d) ∈ cu_acks s ->
    cl_Handle c = cl_Handle d -> same_slot c d -> cl_ClaimID c = cl_ClaimID d.

Lemma majorities_meet (N A B : gset Z) :
  A ⊆ N -> B ⊆ N -> (size N < size A + size B)%nat -> exists n, n ∈ A /\ n ∈ B.
Proof.
  intros HA HB Hsz. destruct (decide (A ∩ B = ∅)) as [He|Hne].
  - assert (size (A ∪ B) <= size N)%nat by (apply subseteq_size; set_solver).
    rewrite size_union in * by set_solver. lia.
  - apply set_choose_L in Hne as [n Hn]. exists n. set_solver.
Qed.

(** Acknowledgements are never withdrawn. *)
Lemma acks_grow (acts : list action) : forall s x,
  x ∈ cu_acks s -> x ∈ cu_acks (cluster_run s acts).
Proof.
  unfold cluster_run. induction acts as [|act acts IH]; intros s x Hx; [done|]. cbn. apply IH.
  destruct act as [n c rp sv|n st sv|n]; cbn; (destruct (cu_nodes s !! n) as [a|]; [|done]);
    try done.
  destruct (applyActivityOwnershipClaim sv c rp a) as [[[] []] a']; cbn; try done.
  by apply list_elem_of_further.
Qed.

(** The nodes of [A] answered "accepted" for the claim [c]. *)
Definition acknowledged (s : cluster) (c : activityOwnershipClaim) (A : gset Z) : Prop :=
  forall n, n ∈ A -> exists c', (n, c') ∈ cu_acks s /\ cl_ClaimID c' = cl_ClaimID c.

Lemma acknowledged_mono (s : cluster) c A acts :
  acknowledged s c A -> acknowledged (cluster_run s acts) c A.
Proof.
  intros Ha n Hn. destruct (Ha n Hn) as (c' & Hc & Hid). exists c'. split; [by apply acks_grow|done].
Qed.

Lemma holds_id (m : gmap string activityOwnershipClaim) (c c' : activityOwnershipClaim) :
  same_facts c c' -> cl_ClaimID c = cl_ClaimID c' -> holds m c -> holds m c'.
Proof.
  intros (Hh & _ & Hs & _) Hid (cur & Hl & Hcase). exists cur. rewrite <- Hh. split; [done|].
  unfold same_slot, claim_lt in *. destruct Hcase as [[H1 H2]|H1]; [left|right; lia].
  split; [lia|congruence].
Qed.

Section Safety.
Variable P : activityOwnershipClaim -> Prop.
Hypothesis Hvalid : valid_claims P.
Hypothesis Hdigest : digest_injective P.

Let Hcoll : no_collision P := identity_binds P Hvalid Hdigest.

Lemma apply_settled (rp acc : bool) (c : activityOwnershipClaim) err (a a' : Agent) :
  settled P a -> P c -> applyActivityOwnershipClaim true c rp a = ((acc, err), a') ->
  settled P a' /\ (forall d, holds (owned a) d -> holds (owned a') d) /\
  (acc = true -> holds (owned a') c).
Proof.
  intros [Hdisk Hcl] Hc E. pose proof (apply_cases true rp c a) as Hcase. rewrite E in Hcase.
  destruct Hcase as [[-> Hacc]|(-> & _ & _ & -> & Hcur)].
  - split_and!; [done|done|]. intros Ha. destruct (Hacc Ha) as (_ & _ & cur & Hl & Hid).
    exists cur. split; [done|]. left. split; [|done].
    destruct (Hcl _ _ Hl) as [HP _]. by destruct (Hcoll cur c HP Hc Hid) as (_ & _ & ? & _).
  - rewrite owned_store. split_and!.
    + split; [by eexists|]. rewrite owned_store. intros h d.
      destruct (decide (cl_Handle c = h)) as [<-|Hne].
      * rewrite lookup_insert_eq. intros Hd. by assert (d = c) as -> by congruence.
      * rewrite lookup_insert_ne by done. apply Hcl.
    + intros d Hd. apply holds_insert; [done|]. intros cur Hl. rewrite Hl in Hcur.
      by destruct Hcur as (_ & ? & _).
    + intros _. apply holds_refl.
Qed.

(** A node that acknowledges [c] while it holds [d] of the same slot has one claim. *)
Lemma ack_unique (rp : bool) (c d : activityOwnershipClaim) err (a a' : Agent) :
  settled P a -> P c -> applyActivityOwnershipClaim true c rp a = ((true, err), a') ->
  holds (owned a) d -> cl_Handle c = cl_Handle d -> same_slot c d -> cl_ClaimID c = cl_ClaimID d.
Proof.
  intros Hs Hc E Hd Hh Hslot. destruct (apply_settled rp true c err a a' Hs Hc E) as (Hs' & Hm & _).
  destruct (apply_accepted_current _ _ _ _ _ _ E) as (cur & Hcur & Hid).
  destruct (proj2 Hs' _ _ Hcur) as [HP _].
  destruct (Hcoll cur c HP Hc Hid) as (_ & _ & Hsc & _).
  destruct (Hm d Hd) as (cur' & Hcur' & Hcase). rewrite <- Hh in Hcur'.
  assert (cur' = cur) as -> by congruence.
  destruct Hcase as [[_ Hcd]|Hlt]; [congruence|].
  unfold claim_lt, same_slot in *. lia.
Qed.

(** Settledness, and everything acknowledged, survive every action. *)
Lemma cluster_do_inv (s : cluster) (act : action) :
  cluster_inv P s -> action_ok P act -> cluster_inv P (cluster_do s act).
Proof.
  intros (Hn & Ha & Hu) Hok.
  assert (Hset : forall n a b, cu_nodes s !! n = Some a -> settled P b ->
    (forall d, holds (owned a) d -> holds (owned b) d) ->
    cluster_inv P {| cu_nodes := set_node s n b; cu_acks := cu_acks s |}).
  { intros n a b Hl Hb Hmono. split_and!; cbn; unfold set_node; [| |done].
    - intros m x [[<- <-]|[_ Hx]]%lookup_insert_Some; [done|by eapply Hn].
    - intros m c Hm. destruct (Ha m c Hm) as (HP & x & Hx & Hh). split; [done|].
      destruct (decide (n = m)) as [<-|Hne].
      + exists b. rewrite lookup_insert_eq. split; [done|]. apply Hmono. congruence.
      + exists x. by rewrite lookup_insert_ne. }
  destruct act as [n c rp sv|n st sv|n]; cbn in Hok |- *;
    (destruct (cu_nodes s !! n) as [a|] eqn:Hl; [|done]).
  - destruct Hok as [HP ->]. destruct (applyActivityOwnershipClaim true c rp a) as [[acc err] a'] eqn:E.
    destruct (apply_settled rp acc c err a a' (Hn n a Hl) HP E) as (Hs & Hmono & Hacc).
    destruct (acc && is_ok err) eqn:Hb; [|by eapply Hset].
    apply andb_true_iff in Hb as [-> _]. destruct (Hset n a a' Hl Hs Hmono) as (H1 & H2 & H3).
    assert (Hnew : forall d, (n, d) ∈ cu_acks s -> cl_Handle c = cl_Handle d -> same_slot c d ->
      cl_ClaimID c = cl_ClaimID d).
    { intros d Hd. destruct (Ha n d Hd) as (_ & x & Hx & Hh). assert (x = a) as -> by congruence.
      by eapply ack_unique; [apply (Hn n a Hl)|..]. }
    split_and!; cbn [cu_nodes cu_acks]; [done| |].
    + intros m d [[= -> ->]|Hm]%elem_of_cons; [|by apply H2].
      split; [done|]. exists a'. unfold set_node. rewrite lookup_insert_eq. auto.
    + intros m d d' [Hd|Hd]%elem_of_cons [Hd'|Hd']%elem_of_cons Hh Hs'; simplify_eq; [done|..].
      * by apply Hnew.
      * symmetry. apply Hnew; [done..|by apply same_slot_sym].
      * by eapply H3.
  - subst sv. eapply Hset; [done| |done]. destruct (Hn n a Hl) as [_ Hcl]. split; [by eexists|done].
  - eapply Hset; [done| |].
    + destruct (Hn n a Hl) as [(d & Hd & He) Hcl]. unfold settled, restart, owned in *. cbn.
      rewrite Hd. cbn. rewrite He. split; [by exists d|done].
    + destruct (Hn n a Hl) as [(d & Hd & He) _]. intros x. unfold restart, owned in *. cbn.
      rewrite Hd. cbn. by rewrite He.
Qed.

Lemma cluster_run_inv (acts : list action) : forall s,
  cluster_inv P s -> Forall (action_ok P) acts -> cluster_inv P (cluster_run s acts).
Proof.
  unfold cluster_run. induction acts as [|act acts IH]; intros s Hs Hacts; [done|].
  apply Forall_cons in Hacts as [H1 H2]. cbn. apply IH; [|done]. by apply cluster_do_inv.
Qed.

(** A node that acknowledged [c] holds it, at least, from then on. *)
Lemma acknowledged_holds (s : cluster) c A acts n :
  cluster_inv P s -> P c -> acknowledged s c A -> Forall (action_ok P) acts -> n ∈ A ->
  exists a, cu_nodes (cluster_run s acts) !! n = Some a /\ settled P a /\ holds (owned a) c.
Proof.
  intros Hs Hc Ha Hacts Hn. pose proof (cluster_run_inv acts s Hs Hacts) as (H1 & H2 & _).
  destruct (Ha n Hn) as (c' & Hack & Hid).
  destruct (H2 n c') as (HP & a & Hl & Hh); [by apply acks_grow|].
  exists a. split_and!; [done|by eapply H1|]. by eapply holds_id; [apply Hcoll|..].
Qed.

End Safety.

(** C2: two majorities never acknowledge different claims for one slot.  Along
    any run of the cluster (claims observed in any order, other handlers saving,
    processes restarting) in which saves succeed, if a majority acknowledged [c]
    and a majority acknowledged [d], for the same handle, generation, epoch and
    takeover sequence, then [c] and [d] are the same claim.  The only assumption
    on SHA-256 is that it has no collision among the claims of the run. *)
Theorem slot_agreement (P : activityOwnershipClaim -> Prop) (s0 : cluster) (acts : list action)
  (N A B : gset Z) (c d : activityOwnershipClaim) :
  valid_claims P -> digest_injective P ->
  cluster_inv P s0 -> Forall (action_ok P) acts -> P c -> P d ->
  A ⊆ N -> B ⊆ N -> (size N < 2 * size A)%nat -> (size N < 2 * size B)%nat ->
  acknowledged (cluster_run s0 acts) c A -> acknowledged (cluster_run s0 acts) d B ->
  cl_Handle c = cl_Handle d -> same_slot c d -> cl_ClaimID c = cl_ClaimID d.
Proof.
  intros Hv Hi Hs0 Hacts Hc Hd HA HB HsA HsB Hca Hdb Hh Hslot.
  destruct (majorities_meet N A B HA HB) as (n & HnA & HnB); [lia|].
  destruct (Hca n HnA) as (c' & Hc' & Hidc), (Hdb n HnB) as (d' & Hd' & Hidd).
  pose proof (cluster_run_inv P Hv Hi acts s0 Hs0 Hacts) as (_ & Hp & Hu).
  pose proof (identity_binds P Hv Hi) as Hcoll.
  destruct (Hp _ _ Hc') as [HPc _], (Hp _ _ Hd') as [HPd _].
  destruct (Hcoll c' c HPc Hc Hidc) as (Hh1 & _ & Hs1 & _).
  destruct (Hcoll d' d HPd Hd Hidd) as (Hh2 & _ & Hs2 & _).
  rewrite <- Hidc, <- Hidd. apply (Hu n); [done|done|congruence|].
  unfold same_slot in *. lia.
Qed.

(** ** Queries after a commit *)

Lemma collect_other (n : Z) (k : nat) : forall arrivals claims av claims' av',
  (forall r, Some r ∈ arrivals -> or_WitnessNodeID r <> n) ->
  collectClaims k arrivals claims av = Some (claims', av') -> claims' !! n = claims !! n.
Proof.
  induction k as [|k IH]; intros [|[r|] arrivals] claims av claims' av' Hr E; cbn in E;
    try (by simplify_eq).
  - rewrite (IH _ _ _ _ _ ltac:(intros x Hx; apply Hr; by apply list_elem_of_further) E).
    assert (or_WitnessNodeID r <> n) by (apply Hr; apply list_elem_of_here).
    destruct (or_Claim r); [|done]. destruct (or_Found r); [|done]. by rewrite lookup_insert_ne.
  - eapply IH; [|done]. intros x Hx. apply Hr. by apply list_elem_of_further.
Qed.

(** A reply that names this node as its author is discarded. *)
Lemma call_not_self (a : Agent) reply now r :
  callOwnershipPeer a reply now = Some r -> or_WitnessNodeID r <> cfg_NodeID (ag_Cfg a).
Proof.
  unfold callOwnershipPeer. destruct reply as [p|]; [|done]. destruct (_ || _); [done|].
  destruct (pp_Timestamp p); [|done]. destruct (_ || _); [done|].
  destruct (pp_Decoded p) as [res|]; [|done]. destruct (_ || _) eqn:Hb; [done|]. intros [= <-].
  b2p. congruence.
Qed.

Lemma collected_self (a : Agent) handle arrivals claims av local :
  (forall r, Some r ∈ arrivals -> or_WitnessNodeID r <> cfg_NodeID (ag_Cfg a)) ->
  collectedClaims handle arrivals a = Some (claims, av) ->
  owned a !! handle = Some local -> claims !! cfg_NodeID (ag_Cfg a) = Some local.
Proof.
  unfold collectedClaims, currentActivityOwnership, owned. intros Hr E Hl. rewrite Hl in E.
  rewrite (collect_other _ _ _ _ _ _ _ Hr E). apply lookup_singleton_eq.
Qed.

(** The reports a query works with: node [n]'s claim for the handle, read at some
    moment after the state [s]. *)
Definition reported_after (P : activityOwnershipClaim -> Prop) (s : cluster) (handle : string)
  (n : Z) (d : activityOwnershipClaim) : Prop :=
  exists acts a, Forall (action_ok P) acts /\
    cu_nodes (cluster_run s acts) !! n = Some a /\ owned a !! handle = Some d.

(** A report by a node that acknowledged [c] is not older than [c]. *)
Lemma report_not_older (P : activityOwnershipClaim -> Prop) (s : cluster) c A n d :
  valid_claims P -> digest_injective P -> cluster_inv P s -> P c -> acknowledged s c A -> n ∈ A ->
  reported_after P s (cl_Handle c) n d ->
  P d /\ ((same_slot d c /\ cl_ClaimID d = cl_ClaimID c) \/ claim_lt c d).
Proof.
  intros Hv Hi Hs Hc Ha Hn (acts & a & Hacts & Hl & Hd).
  destruct (acknowledged_holds P Hv Hi s c A acts n Hs Hc Ha Hacts Hn)
    as (a' & Hl' & Hset & cur & Hcur & Hcase).
  assert (a' = a) as -> by congruence. assert (cur = d) as -> by congruence.
  split; [|done]. by apply (proj2 Hset _ _ Hd).
Qed.

Lemma reported_P (P : activityOwnershipClaim -> Prop) (s : cluster) h n d :
  valid_claims P -> digest_injective P -> cluster_inv P s -> reported_after P s h n d ->
  P d /\ h = cl_Handle d.
Proof.
  intros Hv Hi Hs (acts & a & Hacts & Hl & Hd).
  destruct (cluster_run_inv P Hv Hi acts s Hs Hacts) as (Hn & _). by apply (proj2 (Hn _ _ Hl) _ _ Hd).
Qed.


End System.

(** ** Witnesses and the failed save *)

#[local] Existing Instance ascii_tables.

(** Three nodes that all hold the Controller's grant of alice to node 4. *)
Definition demo_parent : activityOwnershipClaim :=
  demo_claim (makeActivityOwnershipClaim "alice" 4 1 1 0 "controller_grant" "" "" demo_now).
Definition demo_take (owner : Z) (op : string) : activityOwnershipClaim :=
  demo_claim (makeActivityOwnershipClaim "alice" owner 1 1 1 "user_confirmed_takeover"
    (cl_ClaimID demo_parent) op demo_now).
Definition take1 : activityOwnershipClaim := demo_take 1 "00000000-0000-4000-8000-000000000001".
Definition take2 : activityOwnershipClaim := demo_take 2 "00000000-0000-4000-8000-000000000002".

Definition demo_member (id : Z) (urls : list string) : Agent :=
  snd (saveRuntimeStateLocked true (store_claim (demo_agent id urls) demo_parent)).
Definition demo_cluster : cluster :=
  {| cu_nodes := <[1 := demo_member 1 ["https://n2"; "https://n3"]]>
                 (<[2 := demo_member 2 ["https://n1"; "https://n3"]]>
                 (<[3 := demo_member 3 ["https://n1"; "https://n2"]]> ∅));
     cu_acks := [] |}.

Definition demo_acts : list action :=
  [Observe 1 take1 true true; Observe 3 take1 true true; Restart 3; Observe 2 take1 true true].

Definition demo_P (c : activityOwnershipClaim) : Prop := c = demo_parent \/ c = take1.

Lemma demo_P_valid : valid_claims demo_P.
Proof. intros c [-> | ->]; vm_compute; reflexivity. Qed.

Lemma demo_P_injective : digest_injective demo_P.
Proof.
  intros c d [-> | ->] [-> | ->] E; try reflexivity; exfalso; revert E; vm_compute; discriminate.
Qed.

Lemma demo_cluster_inv : cluster_inv demo_P demo_cluster.
Proof.
  split_and!; [|by intros ? ? ?%elem_of_nil|by intros ? ? ? ?%elem_of_nil].
  assert (Hm : forall id urls, settled demo_P (demo_member id urls)).
  { intros id urls. split; [by eexists|]. unfold demo_member. rewrite owned_store. intros h c.
    intros [[<- <-]|[_ Hc]]%lookup_insert_Some; [split; [by left|done]|].
    assert (He : owned (demo_agent id urls) = ∅) by reflexivity. by rewrite He, lookup_empty in Hc. }
  intros n a Ha. cbn [demo_cluster cu_nodes] in Ha.
  apply lookup_insert_Some in Ha as [[_ <-]|[_ Ha]]; [apply Hm|].
  apply lookup_insert_Some in Ha as [[_ <-]|[_ Ha]]; [apply Hm|].
  apply lookup_insert_Some in Ha as [[_ <-]|[_ Ha]]; [apply Hm|]. by rewrite lookup_empty in Ha.
Qed.

(** Acknowledgements by identity, which evaluates. *)
Definition ack_ids (s : cluster) : list (Z * string) :=
  (fun p => (fst p, cl_ClaimID (snd p))) <$> cu_acks s.

Lemma acknowledged_ids (s : cluster) (c : activityOwnershipClaim) (A : gset Z) :
  (forall n, n ∈ A -> (n, cl_ClaimID c) ∈ ack_ids s) -> acknowledged s c A.
Proof.
  intros Ha n Hn. apply Ha in Hn as ([n' c'] & E & Hc)%list_elem_of_fmap.
  cbn in E. exists c'. split; congruence.
Qed.

Definition save_fails (act : action) : bool :=
  match act with Observe _ _ _ sv | Other _ _ sv => negb sv | Restart _ => false end.

(** Node 3 fails to write take1, answers an error, then acknowledges the retry
    from memory; it restarts and acknowledges take2. *)
Definition lost_acts : list action :=
  [Observe 1 take1 true true; Observe 3 take1 true false; Observe 3 take1 true true; Restart 3;
   Observe 2 take2 true true; Observe 3 take2 true true].

Lemma pair_subset (x y : Z) (l : list (Z * string)) (id : string) :
  bool_decide ((x, id) ∈ l) && bool_decide ((y, id) ∈ l) = true ->
  forall n, n ∈ ({[x; y]} : gset Z) -> (n, id) ∈ l.
Proof. intros Hb n Hn. b2p. set_solver. Qed.

(** One failed save is enough to break the agreement.  In a cluster of three
    there is a run with exactly one failed write after which two majorities have
    acknowledged two different takeovers of the same handle in the same slot:
    [applyActivityOwnershipClaim] puts the claim in memory before it saves, and
    a retry that finds the claim in memory answers (true, nil) without saving. *)
Theorem failed_save_breaks_agreement :
  exists acts c d (A B : gset Z),
    length (List.filter save_fails acts) = 1%nat /\
    validateActivityOwnershipClaim c = Ok tt /\ validateActivityOwnershipClaim d = Ok tt /\
    size A = 2%nat /\ size B = 2%nat /\ A ∪ B = {[1; 2; 3]} /\
    acknowledged (cluster_run demo_cluster acts) c A /\
    acknowledged (cluster_run demo_cluster acts) d B /\
    cl_Handle c = cl_Handle d /\ same_slot c d /\ cl_ClaimID c <> cl_ClaimID d.
Proof.
  exists lost_acts, take1, take2, {[1; 3]}, {[2; 3]}.
  split_and!; try (vm_compute; reflexivity).
  - apply acknowledged_ids, pair_subset. vm_compute. reflexivity.
  - apply acknowledged_ids, pair_subset. vm_compute. reflexivity.
  - vm_compute. auto.
  - vm_compute. discriminate.
Qed.

Lemma demo_acts_ok : Forall (action_ok demo_P) demo_acts.
Proof.
  assert (Ht : demo_P take1) by (right; reflexivity).
  unfold demo_acts. repeat (apply Forall_cons; split; [first [exact I|split; [exact Ht|reflexivity]]|]).
  apply Forall_nil_2.
Qed.

Lemma slot_agreement_witness : cl_ClaimID take1 = cl_ClaimID take1.
Proof.
  apply (slot_agreement demo_P demo_cluster demo_acts {[1; 2; 3]} {[1; 3]} {[2; 3]} take1 take1
    demo_P_valid demo_P_injective demo_cluster_inv demo_acts_ok); try (right; reflexivity).
  - set_solver.
  - set_solver.
  - by apply Nat.ltb_lt.
  - by apply Nat.ltb_lt.
  - apply acknowledged_ids, pair_subset. vm_compute. reflexivity.
  - apply acknowledged_ids, pair_subset. vm_compute. reflexivity.
  - reflexivity.
  - by repeat split.
Defined.

Definition demo_committed : cluster :=
  cluster_run demo_cluster [Observe 1 take1 true true; Observe 3 take1 true true].
Definition demo_replies : list (option peerReply) :=
  [None; Some {| pp_Status := 200; pp_BodyLen := 100; pp_Timestamp := Some 1700000000;
                 pp_SignatureOK := true; pp_Decoded := Some (demo_reply 3 take1 false) |}].
Definition demo_q : Agent := demo_member 2 ["https://n1"; "https://n3"].

Lemma demo_committed_inv : cluster_inv demo_P demo_committed.
Proof.
  apply (cluster_run_inv demo_P demo_P_valid demo_P_injective); [apply demo_cluster_inv|].
  assert (Ht : demo_P take1) by (right; reflexivity).
  repeat (apply Forall_cons; split; [by split|]). apply Forall_nil_2.
Qed.

Lemma demo_reports claims av n d :
  collectedClaims "alice" ((fun reply => callOwnershipPeer demo_q reply demo_now) <$> demo_replies)
    demo_q = Some (claims, av) ->
  claims !! n = Some d -> n ∈ ({[1; 2; 3]} : gset Z) /\ reported_after demo_P demo_committed "alice" n d.
Proof.
  intros Hcol Hn.
  assert (He : collectedClaims "alice"
    ((fun reply => callOwnershipPeer demo_q reply demo_now) <$> demo_replies) demo_q =
    Some (<[3 := take1]> {[2 := demo_parent]}, <[3 := false]> {[2 := true]}))
    by (vm_compute; reflexivity).
  assert (claims = <[3 := take1]> {[2 := demo_parent]}) as -> by congruence. clear He Hcol.
  assert (Hread : forall k x, (cu_nodes demo_committed !! k ≫= fun a => owned a !! "alice") = Some x ->
    reported_after demo_P demo_committed "alice" k x).
  { intros k x Hx. apply bind_Some in Hx as (a & Ha & Hx).
    exists [], a. split; [apply Forall_nil_2|]. split; [exact Ha|exact Hx]. }
  apply lookup_insert_Some in Hn as [[<- <-]|[_ Hn]].
  - split; [set_solver|]. apply Hread. vm_compute. reflexivity.
  - apply lookup_singleton_Some in Hn as [<- <-]. split; [set_solver|].
    apply Hread. vm_compute. reflexivity.
Qed.

