(* ===== verification/ControlMode.v ===== *)
(** * The Agent's control mode

    src/internal/agent/control_mode.go and activity_leases.go, with
    [acceptGeneration] of runtime_state.go: how failed and successful heartbeats
    move a node between managed, controller-unreachable, independent and
    independent-draining, which commands each mode lets through, and the
    Controller-confirmed activity leases.

    [sv] arguments are the outcomes of [saveRuntimeStateLocked]; [now] and
    [clock] are readings of the local clock.  Go's [int] and [int64] counters
    wrap at 64 bits. *)

From Stdlib Require Import ZArith Lia Ascii String.
From stdpp Require Import base list gmap strings.
From S2P Require Import Prelude GoStrings Sha256 Protocol AgentState PeerWitness Ownership.
#[local] Open Scope Z_scope.

Section ControlMode.
Context `{UnicodeTables}.

(** ** Policy *)

Record normalizedDisasterPolicy := {
  nd_unreachableAfter : duration;
  nd_independentAfter : duration;
  nd_minFailures : Z;
}.

(** The disaster part of [config.DefaultAgent]. *)
Definition default_UnreachableAfterSec : Z := 45.
Definition default_IndependentAfterSec : Z := 15 * 60.
Definition default_MinFailedHeartbeats : Z := 4.

Definition normalizeDisasterPolicy (policy : AgentDisasterPolicy) : normalizedDisasterPolicy :=
  let unreachable := if pol_UnreachableAfterSec policy <=? 0 then default_UnreachableAfterSec
                     else pol_UnreachableAfterSec policy in
  let independent := if pol_IndependentAfterSec policy <=? unreachable
                     then default_IndependentAfterSec else pol_IndependentAfterSec policy in
  let failures := if pol_MinFailedHeartbeats policy <? 2 then default_MinFailedHeartbeats
                  else pol_MinFailedHeartbeats policy in
  {| nd_unreachableAfter := wrap64 (unreachable * Second);
     nd_independentAfter := wrap64 (independent * Second);
     nd_minFailures := failures |}.

Definition validNodeControlMode (mode : string) : bool :=
  String.eqb mode NodeModeManaged || String.eqb mode NodeModeControllerUnreachable
  || String.eqb mode NodeModeIndependent || String.eqb mode NodeModeIndependentDraining.

(** ** Which commands a mode lets through *)

Definition agent_mode (a : Agent) : string := cm_Mode (rs_ControlMode (ag_state a)).

Definition managedCommandsAllowed (a : Agent) : bool := String.eqb (agent_mode a) NodeModeManaged.

Definition commandChannelAllowed (a : Agent) : bool :=
  String.eqb (agent_mode a) NodeModeManaged || String.eqb (agent_mode a) NodeModeIndependentDraining.

Definition reconciliation_commands : list string :=
  ["prepare_snapshot_receive"; "start_snapshot"; "start_relay_receive"; "get_snapshot_receipt";
   "verify_replica_integrity"; "verify_replica_integrity_v2"; "complete_independent_sync";
   "freeze_user_data"; "release_user_data"; "capture_conflict_evidence";
   "read_conflict_evidence_page"; "start_conflict_evidence_transfer";
   "prepare_conflict_resolution"; "apply_conflict_resolution_decisions";
   "publish_conflict_resolution"].

Definition independentReconciliationCommand (commandType : string) : bool :=
  bool_decide (commandType ∈ reconciliation_commands).

Definition commandAllowed (a : Agent) (commandType : string) : bool :=
  if String.eqb (agent_mode a) NodeModeManaged then true
  else String.eqb (agent_mode a) NodeModeIndependentDraining
       && independentReconciliationCommand commandType.

(** ** A failed heartbeat *)

(** The evidence after this failure. *)
Definition failure_confirmedAt (now : time) (healthProbeFailed peerQuorumConfirmed : bool)
  (s : agentControlModeState) : time :=
  if healthProbeFailed && peerQuorumConfirmed then
    if (cm_ConsecutivePeerWitnessFails s =? 0) || is_zero (cm_ConfirmedOutageStartedAt s)
    then now else cm_ConfirmedOutageStartedAt s
  else 0.
Definition failure_heartbeats (s : agentControlModeState) : Z :=
  wrap64 (cm_ConsecutiveHeartbeatFails s + 1).
Definition failure_health (healthProbeFailed : bool) (s : agentControlModeState) : Z :=
  if healthProbeFailed then wrap64 (cm_ConsecutiveHealthProbeFails s + 1) else 0.
Definition failure_witness (healthProbeFailed peerQuorumConfirmed : bool)
  (s : agentControlModeState) : Z :=
  if healthProbeFailed && peerQuorumConfirmed then wrap64 (cm_ConsecutivePeerWitnessFails s + 1)
  else 0.
Definition failure_outageAt (now : time) (s : agentControlModeState) : time :=
  if is_zero (cm_OutageStartedAt s) then now else cm_OutageStartedAt s.

(** The local variables [mode] and [reason] after the first two tests. *)
Definition failure_demoted (policy : normalizedDisasterPolicy) (now : time)
  (healthProbeFailed peerQuorumConfirmed : bool) (s : agentControlModeState) : string * string :=
  let elapsed := time_sub now (failure_outageAt now s) in
  let st :=
    if String.eqb (cm_Mode s) NodeModeIndependent
       && (negb healthProbeFailed || negb peerQuorumConfirmed)
    then (NodeModeIndependentDraining, "controller_loss_evidence_disputed")
    else (cm_Mode s, cm_ReasonCode s) in
  if String.eqb (fst st) NodeModeManaged && (nd_unreachableAfter policy <=? elapsed)
  then (NodeModeControllerUnreachable, "controller_heartbeat_timeout")
  else st.

(** The third test: the promotion to independent. *)
Definition failure_promotes (policy : normalizedDisasterPolicy) (role mode : string) (now : time)
  (healthProbeFailed peerQuorumConfirmed : bool) (s : agentControlModeState) : bool :=
  let confirmedAt := failure_confirmedAt now healthProbeFailed peerQuorumConfirmed s in
  let confirmedElapsed := if is_zero confirmedAt then 0 else time_sub now confirmedAt in
  String.eqb role "compute" && negb (String.eqb mode NodeModeIndependentDraining)
  && negb (is_zero confirmedAt) && (nd_independentAfter policy <=? confirmedElapsed)
  && (nd_minFailures policy <=? failure_heartbeats s)
  && (nd_minFailures policy <=? failure_health healthProbeFailed s)
  && (nd_minFailures policy <=? failure_witness healthProbeFailed peerQuorumConfirmed s).

Definition failure_state (policy : normalizedDisasterPolicy) (role : string) (now : time)
  (healthProbeFailed peerQuorumConfirmed : bool) (s : agentControlModeState)
  : agentControlModeState :=
  let demoted := failure_demoted policy now healthProbeFailed peerQuorumConfirmed s in
  let independent := failure_promotes policy role (fst demoted) now healthProbeFailed
                       peerQuorumConfirmed s in
  let final := if independent
               then (NodeModeIndependent, "sustained_peer_confirmed_controller_loss")
               else demoted in
  let changed := negb (String.eqb (fst final) (cm_Mode s)) in
  {| cm_Mode := fst final;
     cm_AdapterMode := if changed then "" else cm_AdapterMode s;
     cm_AdapterControllerGeneration := cm_AdapterControllerGeneration s;
     cm_ModeGeneration := if changed then wrap64 (cm_ModeGeneration s + 1) else cm_ModeGeneration s;
     cm_ControllerGeneration := cm_ControllerGeneration s;
     cm_ReasonCode := snd final;
     cm_ConsecutiveHeartbeatFails := failure_heartbeats s;
     cm_ConsecutiveHealthProbeFails := failure_health healthProbeFailed s;
     cm_ConsecutivePeerWitnessFails := failure_witness healthProbeFailed peerQuorumConfirmed s;
     cm_OutageStartedAt := failure_outageAt now s;
     cm_ConfirmedOutageStartedAt := failure_confirmedAt now healthProbeFailed peerQuorumConfirmed s;
     cm_LastControllerSuccessAt := cm_LastControllerSuccessAt s;
     cm_IndependentSince := if independent && is_zero (cm_IndependentSince s) then now
                            else cm_IndependentSince s;
     cm_ChangedAt := if changed then now else cm_ChangedAt s;
     cm_ActiveIndependentSessions := cm_ActiveIndependentSessions s;
     cm_PendingUserSyncs := cm_PendingUserSyncs s |}.

Definition set_mode (a : Agent) (s : agentControlModeState) : Agent :=
  with_state a (with_ControlMode (ag_state a) s).

Definition recordControllerFailure (sv : bool) (now : time)
  (healthProbeFailed peerQuorumConfirmed : bool) (a : Agent) : result unit * Agent :=
  saveRuntimeStateLocked sv
    (set_mode a (failure_state (normalizeDisasterPolicy (cfg_Disaster (ag_Cfg a)))
                   (cfg_Role (ag_Cfg a)) now healthProbeFailed peerQuorumConfirmed
                   (rs_ControlMode (ag_state a)))).

(** ** Controller generations *)

Definition acceptGeneration (sv : bool) (generation : Z) (a : Agent) : bool * Agent :=
  let highest := rs_HighestGeneration (ag_state a) in
  if generation <? highest then (false, a)
  else if highest <? generation then
    let a' := with_state a (with_HighestGeneration (ag_state a) generation) in
    let '(err, a') := saveRuntimeStateLocked sv a' in
    if is_ok err then (true, a')
    else (false, with_state a' (with_HighestGeneration (ag_state a') highest))
  else (true, a).

(** ** Confirmed activity leases *)

Definition maxActivityLeaseConfirmations : nat := 10 * 1000.
Definition maxConfirmedActivityLease : duration := 24 * Hour + 6 * Minute.

Fixpoint validConfirmedLeases (generation confirmedAt : Z) (seen : gset string)
  (leases : list ActivityLeaseConfirmation) : result unit :=
  match leases with
  | [] => Ok tt
  | lease :: leases =>
      if negb (validOwnershipHandle (lc_Handle lease)) || negb (validUUID (lc_SessionID lease))
         || (lc_ActivityEpoch lease <=? 0)
         || negb (lc_ControllerGeneration lease =? generation)
         || (lc_LeaseExpiresAt lease <=? confirmedAt)
         || (maxConfirmedActivityLease / 1000000 <? wrap64 (lc_LeaseExpiresAt lease - confirmedAt))
      then Fail "invalid confirmed lease"
      else if bool_decide (lc_Handle lease ∈ seen) then Fail "duplicate confirmed lease"
      else validConfirmedLeases generation confirmedAt ({[lc_Handle lease]} ∪ seen) leases
  end.

Definition validateAgentActivityLeaseState (state : agentActivityLeaseState) : result unit :=
  if al_ConfirmedAt state =? 0 then
    if negb (al_ControllerGeneration state =? 0) || negb (al_AdapterConfirmedAt state =? 0)
       || negb (bool_decide (length (al_Leases state) = 0)%nat)
    then Fail "empty confirmation has state" else Ok tt
  else if (al_ControllerGeneration state <=? 0) || (al_ConfirmedAt state <? 0)
          || (al_AdapterConfirmedAt state <? 0)
          || (al_ConfirmedAt state <? al_AdapterConfirmedAt state)
          || (maxActivityLeaseConfirmations <? length (al_Leases state))%nat
  then Fail "invalid confirmation envelope"
  else validConfirmedLeases (al_ControllerGeneration state) (al_ConfirmedAt state) ∅ (al_Leases state).

#[global] Instance lease_confirmation_eq_dec : EqDecision ActivityLeaseConfirmation.
Proof. solve_decision. Defined.

(** The fields of [protocol.HeartbeatResponse] this component reads. *)
Record HeartbeatResponse := {
  hr_ControllerGeneration : Z;
  hr_DesiredMode : string;
  hr_ModeGeneration : Z;
  hr_AcknowledgedTakeoverOperations : list string;
  hr_ActivityLeaseConfirmedAt : Z;
  hr_ActivityLeaseConfirmations : list ActivityLeaseConfirmation;
}.

Definition recordActivityLeaseConfirmations (clock now : time) (response : HeartbeatResponse)
  (a : Agent) : result unit * Agent :=
  if hr_ActivityLeaseConfirmedAt response =? 0 then
    if negb (bool_decide (length (hr_ActivityLeaseConfirmations response) = 0)%nat)
    then (Fail "activity lease confirmations lack observation time", a) else (Ok tt, a)
  else
    let now := if is_zero now then clock else now in
    let state := {| al_ControllerGeneration := hr_ControllerGeneration response;
                    al_ConfirmedAt := hr_ActivityLeaseConfirmedAt response;
                    al_Leases := hr_ActivityLeaseConfirmations response;
                    al_AdapterConfirmedAt := 0 |} in
    if unix_milli (now + Minute) <? hr_ActivityLeaseConfirmedAt response
    then (Fail "activity lease observation is in the future", a)
    else match validateAgentActivityLeaseState state with
    | Fail e => (Fail e, a)
    | Ok _ =>
        let current := rs_ActivityLeases (ag_state a) in
        if al_ConfirmedAt state <? al_ConfirmedAt current
        then (Fail "activity lease confirmation rollback rejected", a)
        else if al_ConfirmedAt state =? al_ConfirmedAt current then
          if negb (al_ControllerGeneration state =? al_ControllerGeneration current)
             || negb (bool_decide (al_Leases state = al_Leases current))
          then (Fail "activity lease confirmation time reused", a) else (Ok tt, a)
        else (Ok tt, with_state a (with_ActivityLeases (ag_state a) state))
    end.

(** ** A successful heartbeat *)

Fixpoint checkAcknowledgements (seen : gset string) (l : list string) : result (gset string) :=
  match l with
  | [] => Ok seen
  | id :: l =>
      if negb (validUUID id) then Fail "invalid takeover acknowledgements"
      else if bool_decide (id ∈ seen) then Fail "duplicate takeover acknowledgement"
      else checkAcknowledgements ({[id]} ∪ seen) l
  end.

(** Acknowledged takeovers leave the journal once committed and audited. *)
Definition drop_acknowledged (seen : gset string) (j : gmap string ownershipTakeoverOperation)
  : gmap string ownershipTakeoverOperation :=
  filter (fun kv => ~ (fst kv ∈ seen /\ to_Succeeded (snd kv) = true /\ to_Audited (snd kv) = true)) j.

Definition success_state (now : time) (response : HeartbeatResponse) (desired : string)
  (s : agentControlModeState) : agentControlModeState :=
  let changed := negb (String.eqb desired (cm_Mode s)) in
  {| cm_Mode := desired;
     cm_AdapterMode := if changed then "" else cm_AdapterMode s;
     cm_AdapterControllerGeneration := cm_AdapterControllerGeneration s;
     cm_ModeGeneration := if changed then hr_ModeGeneration response else cm_ModeGeneration s;
     cm_ControllerGeneration := hr_ControllerGeneration response;
     cm_ReasonCode :=
       if changed && String.eqb desired NodeModeManaged then "controller_reconciled"
       else if changed && String.eqb desired NodeModeIndependentDraining then "controller_recovered"
       else cm_ReasonCode s;
     cm_ConsecutiveHeartbeatFails := 0;
     cm_ConsecutiveHealthProbeFails := 0;
     cm_ConsecutivePeerWitnessFails := 0;
     cm_OutageStartedAt := 0;
     cm_ConfirmedOutageStartedAt := 0;
     cm_LastControllerSuccessAt := now;
     cm_IndependentSince := if changed && String.eqb desired NodeModeManaged then 0
                            else cm_IndependentSince s;
     cm_ChangedAt := if changed then now else cm_ChangedAt s;
     cm_ActiveIndependentSessions := cm_ActiveIndependentSessions s;
     cm_PendingUserSyncs := cm_PendingUserSyncs s |}.

Definition recordControllerSuccess (svGeneration sv : bool) (clock now : time)
  (response : HeartbeatResponse) (a : Agent) : result unit * Agent :=
  if hr_ControllerGeneration response <=? 0
  then (Fail "controller generation rollback rejected", a)
  else
    let '(accepted, a) := acceptGeneration svGeneration (hr_ControllerGeneration response) a in
    if negb accepted then (Fail "controller generation rollback rejected", a)
    else if negb (validNodeControlMode (hr_DesiredMode response)) || (hr_ModeGeneration response <=? 0)
    then (Fail "invalid controller mode response", a)
    else if (maxOwnershipTakeovers <? length (hr_AcknowledgedTakeoverOperations response))%nat
    then (Fail "invalid takeover acknowledgements", a)
    else match checkAcknowledgements ∅ (hr_AcknowledgedTakeoverOperations response) with
    | Fail e => (Fail e, a)
    | Ok seen =>
        let s := rs_ControlMode (ag_state a) in
        if hr_ModeGeneration response <? cm_ModeGeneration s
        then (Fail "node mode generation rollback rejected", a)
        else
          let desired :=
            if String.eqb (cm_Mode s) NodeModeIndependent
               && String.eqb (hr_DesiredMode response) NodeModeManaged
            then NodeModeIndependentDraining else hr_DesiredMode response in
          if String.eqb (cm_Mode s) NodeModeIndependentDraining && String.eqb desired NodeModeManaged
             && ((0 <? cm_ActiveIndependentSessions s) || (0 <? cm_PendingUserSyncs s))
          then (Fail "controller attempted to skip independent session draining", a)
          else if (hr_ModeGeneration response =? cm_ModeGeneration s)
                  && negb (String.eqb desired (cm_Mode s))
          then (Fail "node mode generation reuse rejected", a)
          else
            let '(err, a) := recordActivityLeaseConfirmations clock now response a in
            match err with
            | Fail e => (Fail e, a)
            | Ok _ =>
                let a := with_state a (with_OwnershipTakeovers (ag_state a)
                           (drop_acknowledged seen (rs_OwnershipTakeovers (ag_state a)))) in
                saveRuntimeStateLocked sv
                  (set_mode a (success_state now response desired (rs_ControlMode (ag_state a))))
            end
    end.

(** ** Delivery to the local adapter *)

Record ApplyNodeControlModeResponse := {
  ap_OK : bool;
  ap_AppliedMode : string;
  ap_ModeGeneration : Z;
  ap_ActiveIndependentSessions : Z;
  ap_PendingUserSyncs : Z;
}.

Definition with_adapter (s : agentControlModeState) (mode : string) (generation : Z)
  (counts : option (Z * Z)) : agentControlModeState :=
  {| cm_Mode := cm_Mode s; cm_AdapterMode := mode; cm_AdapterControllerGeneration := generation;
     cm_ModeGeneration := cm_ModeGeneration s; cm_ControllerGeneration := cm_ControllerGeneration s;
     cm_ReasonCode := cm_ReasonCode s;
     cm_ConsecutiveHeartbeatFails := cm_ConsecutiveHeartbeatFails s;
     cm_ConsecutiveHealthProbeFails := cm_ConsecutiveHealthProbeFails s;
     cm_ConsecutivePeerWitnessFails := cm_ConsecutivePeerWitnessFails s;
     cm_OutageStartedAt := cm_OutageStartedAt s;
     cm_ConfirmedOutageStartedAt := cm_ConfirmedOutageStartedAt s;
     cm_LastControllerSuccessAt := cm_LastControllerSuccessAt s;
     cm_IndependentSince := cm_IndependentSince s; cm_ChangedAt := cm_ChangedAt s;
     cm_ActiveIndependentSessions :=
       match counts with Some (n, _) => n | None => cm_ActiveIndependentSessions s end;
     cm_PendingUserSyncs := match counts with Some (_, n) => n | None => cm_PendingUserSyncs s end |}.

(** The adapter call releases the state lock: [during] is what other handlers do
    to the agent in the meantime, [reply] the adapter's answer. *)
Definition syncTavernControlMode (sv : bool) (reply : option ApplyNodeControlModeResponse)
  (during : Agent -> Agent) (a : Agent) : result unit * Agent :=
  let state := rs_ControlMode (ag_state a) in
  let controllerGeneration := rs_HighestGeneration (ag_state a) in
  if String.eqb (cm_AdapterMode state) (cm_Mode state)
     && (controllerGeneration <=? cm_AdapterControllerGeneration state)
  then (Ok tt, a)
  else
    let a := during a in
    if String.eqb (cfg_Role (ag_Cfg a)) "storage" then
      saveRuntimeStateLocked sv
        (set_mode a (with_adapter (rs_ControlMode (ag_state a)) (cm_Mode state)
                       controllerGeneration None))
    else match reply with
    | None => (Fail "adapter call failed", a)
    | Some response =>
        if negb (ap_OK response) || negb (String.eqb (ap_AppliedMode response) (cm_Mode state))
           || negb (ap_ModeGeneration response =? cm_ModeGeneration state)
           || (ap_ActiveIndependentSessions response <? 0) || (ap_PendingUserSyncs response <? 0)
        then (Fail "node adapter returned invalid control mode state", a)
        else
          let current := rs_ControlMode (ag_state a) in
          if negb (String.eqb (cm_Mode current) (cm_Mode state))
             || negb (cm_ModeGeneration current =? cm_ModeGeneration state)
          then (Ok tt, a)
          else saveRuntimeStateLocked sv
                 (set_mode a (with_adapter current (ap_AppliedMode response) controllerGeneration
                    (Some (ap_ActiveIndependentSessions response, ap_PendingUserSyncs response))))
    end.

Record ApplyActivityLeaseConfirmationsResponse := {
  av_OK : bool;
  av_ConfirmedAt : Z;
  av_AppliedLeases : Z;
}.

Definition with_AdapterConfirmedAt (l : agentActivityLeaseState) (t : Z) : agentActivityLeaseState :=
  {| al_ControllerGeneration := al_ControllerGeneration l; al_ConfirmedAt := al_ConfirmedAt l;
     al_Leases := al_Leases l; al_AdapterConfirmedAt := t |}.

Definition syncTavernActivityLeases (sv : bool) (reply : option ApplyActivityLeaseConfirmationsResponse)
  (during : Agent -> Agent) (a : Agent) : result unit * Agent :=
  let state := rs_ActivityLeases (ag_state a) in
  if (al_ConfirmedAt state =? 0) || (al_AdapterConfirmedAt state =? al_ConfirmedAt state)
  then (Ok tt, a)
  else
    let a := during a in
    let current := rs_ActivityLeases (ag_state a) in
    let confirmed := with_state a (with_ActivityLeases (ag_state a)
                       (with_AdapterConfirmedAt current (al_ConfirmedAt state))) in
    if String.eqb (cfg_Role (ag_Cfg a)) "storage" then
      saveRuntimeStateLocked sv
        (if al_ConfirmedAt current =? al_ConfirmedAt state then confirmed else a)
    else match reply with
    | None => (Fail "adapter call failed", a)
    | Some response =>
        if negb (av_OK response) || negb (av_ConfirmedAt response =? al_ConfirmedAt state)
           || (av_AppliedLeases response <? 0)
           || (Z.of_nat (length (al_Leases state)) <? av_AppliedLeases response)
        then (Fail "invalid adapter activity lease confirmation response", a)
        else if negb (al_ConfirmedAt current =? al_ConfirmedAt state) then (Ok tt, a)
        else saveRuntimeStateLocked sv confirmed
    end.

(** ** Runs of heartbeats *)

Inductive heartbeat :=
| Failed (now : time) (healthProbeFailed peerQuorumConfirmed sv : bool)
| Answered (clock now : time) (response : HeartbeatResponse) (svGeneration sv : bool).

(** What the history keeps, newest first: failures with their time and whether
    all three observations agreed, and accepted answers. *)
Inductive outcome :=
| Lost (at_ : time) (confirmed : bool)
| Reached.

Definition beat (st : Agent * list outcome) (e : heartbeat) : Agent * list outcome :=
  let '(a, h) := st in
  match e with
  | Failed now hp pq sv => (snd (recordControllerFailure sv now hp pq a), Lost now (hp && pq) :: h)
  | Answered clock now response svg sv =>
      let '(err, a') := recordControllerSuccess svg sv clock now response a in
      (a', if is_ok err then Reached :: h else h)
  end.

Definition beats (a : Agent) (evs : list heartbeat) : Agent * list outcome := foldl beat (a, []) evs.

(** The uninterrupted run of confirmed failures at the head of the history. *)
Fixpoint confirmed_run (h : list outcome) : list time :=
  match h with
  | Lost t true :: h => t :: confirmed_run h
  | _ => []
  end.

Definition mode_of (a : Agent) : agentControlModeState := rs_ControlMode (ag_state a).

Lemma wrap64_succ_le (z : Z) : int64 z -> wrap64 (z + 1) <= z + 1.
Proof.
  unfold int64, wrap64, MinInt64, MaxInt64. intros Hz.
  pose proof (Z.mod_le (z + 1 + 2 ^ 63) (2 ^ 64)). lia.
Qed.

(** The counter of witness failures never exceeds the confirmed run, and the
    start of the confirmed outage is the time of a failure in it. *)
Definition evidence (a : Agent) (h : list outcome) : Prop :=
  int64 (cm_ConsecutivePeerWitnessFails (mode_of a)) /\
  cm_ConsecutivePeerWitnessFails (mode_of a) <= Z.of_nat (length (confirmed_run h)) /\
  (cm_ConfirmedOutageStartedAt (mode_of a) <> 0 ->
   cm_ConfirmedOutageStartedAt (mode_of a) ∈ confirmed_run h).

Lemma failure_mode (sv : bool) now hp pq (a : Agent) :
  mode_of (snd (recordControllerFailure sv now hp pq a)) =
  failure_state (normalizeDisasterPolicy (cfg_Disaster (ag_Cfg a))) (cfg_Role (ag_Cfg a)) now hp pq
    (mode_of a).
Proof. unfold recordControllerFailure, mode_of. by rewrite save_state. Qed.

Lemma failure_cfg (sv : bool) now hp pq (a : Agent) :
  ag_Cfg (snd (recordControllerFailure sv now hp pq a)) = ag_Cfg a.
Proof. unfold recordControllerFailure. by rewrite save_cfg. Qed.

Lemma int64_0 : int64 0.
Proof. by unfold int64, MinInt64, MaxInt64. Qed.

Lemma failure_evidence (sv : bool) now hp pq (a : Agent) h :
  evidence a h -> evidence (snd (recordControllerFailure sv now hp pq a)) (Lost now (hp && pq) :: h).
Proof.
  intros (H1 & H2 & H3). unfold evidence. rewrite failure_mode.
  cbn [failure_state cm_ConsecutivePeerWitnessFails cm_ConfirmedOutageStartedAt].
  unfold failure_witness, failure_confirmedAt. destruct (hp && pq); cbn [confirmed_run length].
  - split_and!; [apply wrap64_int64|pose proof (wrap64_succ_le _ H1); lia|].
    destruct (_ || _); intros Hz; [apply list_elem_of_here|].
    apply list_elem_of_further; auto.
  - split_and!; [apply int64_0|cbn; lia|done].
Qed.

(** ** Successful heartbeats *)

Lemma accept_generation_state (sv : bool) g (a a' : Agent) b :
  acceptGeneration sv g a = (b, a') ->
  mode_of a' = mode_of a /\ ag_Cfg a' = ag_Cfg a /\
  rs_ActivityLeases (ag_state a') = rs_ActivityLeases (ag_state a) /\
  rs_HighestGeneration (ag_state a') =
    (if b then Z.max g (rs_HighestGeneration (ag_state a)) else rs_HighestGeneration (ag_state a)) /\
  (b = true -> rs_HighestGeneration (ag_state a) <= g).
Proof.
  unfold acceptGeneration. intros E. destruct (_ <? _) eqn:H1; [simplify_eq; done|].
  destruct (rs_HighestGeneration (ag_state a) <? g) eqn:H2; b2p.
  - destruct sv; cbn in E; simplify_eq/=; split_and!; (done || lia).
  - simplify_eq/=. split_and!; (done || lia).
Qed.

Lemma record_leases_state clock now response (a : Agent) :
  mode_of (snd (recordActivityLeaseConfirmations clock now response a)) = mode_of a /\
  ag_Cfg (snd (recordActivityLeaseConfirmations clock now response a)) = ag_Cfg a /\
  rs_HighestGeneration (ag_state (snd (recordActivityLeaseConfirmations clock now response a))) =
    rs_HighestGeneration (ag_state a).
Proof.
  unfold recordActivityLeaseConfirmations.
  destruct (_ =? 0); [by destruct (negb _)|]. destruct (_ <? _); [done|].
  destruct (validateAgentActivityLeaseState _); [|done].
  destruct (_ <? _); [done|]. destruct (_ =? _); [|done]. by destruct (_ || _).
Qed.

(** An answer either leaves the mode alone or passes every check. *)
Lemma success_mode svg sv clock now response (a : Agent) :
  let '(err, a') := recordControllerSuccess svg sv clock now response a in
  ag_Cfg a' = ag_Cfg a /\
  ((mode_of a' = mode_of a /\ err <> Ok tt) \/
   exists desired, mode_of a' = success_state now response desired (mode_of a) /\
     (err = Ok tt <-> sv = true) /\
     rs_HighestGeneration (ag_state a) <= hr_ControllerGeneration response /\
     rs_HighestGeneration (ag_state a') = hr_ControllerGeneration response /\
     cm_ModeGeneration (mode_of a) <= hr_ModeGeneration response /\ 0 < hr_ModeGeneration response /\
     (desired <> cm_Mode (mode_of a) -> cm_ModeGeneration (mode_of a) < hr_ModeGeneration response) /\
     validNodeControlMode desired = true /\
     desired = (if String.eqb (cm_Mode (mode_of a)) NodeModeIndependent
                   && String.eqb (hr_DesiredMode response) NodeModeManaged
                then NodeModeIndependentDraining else hr_DesiredMode response) /\
     (cm_Mode (mode_of a) = NodeModeIndependentDraining -> desired = NodeModeManaged ->
        cm_ActiveIndependentSessions (mode_of a) <= 0 /\ cm_PendingUserSyncs (mode_of a) <= 0)).
Proof.
  unfold recordControllerSuccess.
  destruct (_ <=? 0); [split; [done|by left]|].
  destruct (acceptGeneration svg _ a) as [b a1] eqn:Hacc.
  apply accept_generation_state in Hacc as (Hm & Hc & _ & Hg & Hle).
  destruct b; cbn [negb]; [|split; [done|left; by split]]. specialize (Hle eq_refl).
  destruct (negb _ || _) eqn:Hvalid; [split; [done|left; by split]|].
  destruct (_ <? _)%nat; [split; [done|left; by split]|].
  destruct (checkAcknowledgements _ _) as [seen|]; [|split; [done|left; by split]].
  change (rs_ControlMode (ag_state a1)) with (mode_of a1). rewrite Hm.
  destruct (_ <? _) eqn:Hroll; [split; [done|left; by split]|].
  set (desired := if _ && _ then NodeModeIndependentDraining else _).
  destruct (_ && _ && _) eqn:Hskip; [split; [done|left; by split]|].
  destruct (_ && negb _) eqn:Hreuse; [split; [done|left; by split]|].
  pose proof (record_leases_state clock now response a1) as (Hl1 & Hl2 & Hl3).
  destruct (recordActivityLeaseConfirmations clock now response a1) as [[u|e] a2]; cbn [snd] in *;
    [|split; [congruence|left; split; [congruence|done]]].
  destruct (saveRuntimeStateLocked sv _) as [err a3] eqn:Hsave.
  assert (Ha3 : a3 = snd (saveRuntimeStateLocked sv (set_mode (with_state a2
    (with_OwnershipTakeovers (ag_state a2) (drop_acknowledged seen
      (rs_OwnershipTakeovers (ag_state a2))))) (success_state now response desired (mode_of a2)))))
    by (symmetry; exact (f_equal snd Hsave)).
  split; [rewrite Ha3, save_cfg; cbn; congruence|]. right. exists desired.
  apply orb_false_iff in Hvalid as [Hv1 Hv2]. b2p.
  split_and!.
  - rewrite Ha3. unfold mode_of at 1. rewrite save_state. cbn. by rewrite Hl1, Hm.
  - destruct sv; cbn in Hsave; simplify_eq; by split.
  - done.
  - rewrite Ha3, save_state. cbn. rewrite Hl3, Hg. lia.
  - lia.
  - lia.
  - intros Hne. apply andb_false_iff in Hreuse as [Hr|Hr]; b2p; [lia|done].
  - unfold desired. destruct (_ && _); [reflexivity|]. done.
  - done.
  - intros Hd1 Hd2. rewrite Hd1, Hd2, !String.eqb_refl in Hskip. cbn in Hskip. b2p. lia.
Qed.

(** Accepted or not, an answer never lowers the highest Controller generation. *)
Lemma success_highest svg sv clock now response (a : Agent) :
  rs_HighestGeneration (ag_state a) <=
  rs_HighestGeneration (ag_state (snd (recordControllerSuccess svg sv clock now response a))).
Proof.
  unfold recordControllerSuccess. destruct (_ <=? 0); [done|].
  destruct (acceptGeneration svg _ a) as [b a1] eqn:Hacc.
  apply accept_generation_state in Hacc as (_ & _ & _ & Hg & _).
  assert (Hle : rs_HighestGeneration (ag_state a) <= rs_HighestGeneration (ag_state a1))
    by (destruct b; lia).
  destruct (negb b); [done|]. destruct (_ || _); [done|]. destruct (_ <? _)%nat; [done|].
  destruct (checkAcknowledgements _ _); [|done]. destruct (_ <? _); [done|].
  destruct (_ && _ && _); [done|]. destruct (_ && negb _); [done|].
  pose proof (record_leases_state clock now response a1) as (_ & _ & Hl).
  destruct (recordActivityLeaseConfirmations clock now response a1) as [[u|e] a2]; cbn [snd] in *;
    [|lia].
  rewrite save_state. cbn. lia.
Qed.

Lemma success_evidence svg sv clock now response (a : Agent) h :
  evidence a h ->
  let '(err, a') := recordControllerSuccess svg sv clock now response a in
  evidence a' (if is_ok err then Reached :: h else h).
Proof.
  intros He. pose proof (success_mode svg sv clock now response a) as Hs.
  destruct (recordControllerSuccess svg sv clock now response a) as [err a'].
  destruct Hs as [_ [[Hm Herr]|(desired & Hm & _)]].
  - destruct err as [[]|]; [done|]. unfold evidence. by rewrite Hm.
  - unfold evidence. rewrite Hm.
    split_and!; cbn; [apply int64_0|destruct (is_ok err); cbn; lia|done].
Qed.

Lemma beat_keeps (a : Agent) h e :
  evidence a h -> evidence (fst (beat (a, h) e)) (snd (beat (a, h) e)) /\
                  ag_Cfg (fst (beat (a, h) e)) = ag_Cfg a.
Proof.
  intros He. destruct e as [now hp pq sv|clock now response svg sv]; cbn.
  - split; [by apply failure_evidence|apply failure_cfg].
  - pose proof (success_evidence svg sv clock now response a h He) as Hs.
    pose proof (success_mode svg sv clock now response a) as Hm.
    destruct (recordControllerSuccess svg sv clock now response a) as [err a']. by destruct Hm.
Qed.

Lemma beats_evidence (evs : list heartbeat) (a : Agent) :
  evidence a [] -> evidence (fst (beats a evs)) (snd (beats a evs)) /\
                   ag_Cfg (fst (beats a evs)) = ag_Cfg a.
Proof.
  unfold beats. generalize (@nil outcome). revert a.
  induction evs as [|e evs IH]; intros a h He; [done|]. cbn [foldl].
  destruct (beat_keeps a h e He) as [H1 H2]. destruct (beat (a, h) e) as [a' h'].
  destruct (IH a' h' H1) as [H3 H4]. split; [done|]. by rewrite H4.
Qed.

Lemma min_failures_two (p : AgentDisasterPolicy) : 2 <= nd_minFailures (normalizeDisasterPolicy p).
Proof. cbn. destruct (_ <? 2) eqn:Hb; b2p; [done|lia]. Qed.

(** C4: a node opens disaster logins only after a sustained, witnessed loss.
    Starting without recorded evidence, after any sequence of failed and answered
    heartbeats, a failure that makes the node independent is itself confirmed by
    the health probe and by the peer quorum, the node is a compute node, and it
    ends an uninterrupted run of confirmed failures, with no accepted answer in
    between, that is at least the configured number long and reaches back at
    least the configured time. *)
Theorem independent_requires_sustained_loss (a0 : Agent) (evs : list heartbeat) sv now hp pq :
  cm_ConsecutivePeerWitnessFails (mode_of a0) = 0 -> cm_ConfirmedOutageStartedAt (mode_of a0) = 0 ->
  let '(a, h) := beats a0 evs in
  let policy := normalizeDisasterPolicy (cfg_Disaster (ag_Cfg a0)) in
  agent_mode a <> NodeModeIndependent ->
  agent_mode (snd (recordControllerFailure sv now hp pq a)) = NodeModeIndependent ->
  hp = true /\ pq = true /\ cfg_Role (ag_Cfg a0) = "compute" /\
  2 <= nd_minFailures policy <= Z.of_nat (length (confirmed_run (Lost now true :: h))) /\
  exists t, t ∈ confirmed_run (Lost now true :: h) /\ nd_independentAfter policy <= time_sub now t.
Proof.
  intros Hz1 Hz2. pose proof (beats_evidence evs a0) as Hev.
  destruct (beats a0 evs) as [a h]. cbn [fst snd] in Hev.
  destruct Hev as [Hev Hcfg].
  { unfold evidence. rewrite Hz1, Hz2. split_and!; [apply int64_0|done|done]. }
  intros policy Hold Hnew.
  assert (Hn : cm_Mode (mode_of (snd (recordControllerFailure sv now hp pq a))) = NodeModeIndependent)
    by exact Hnew.
  pose proof (failure_evidence sv now hp pq a h Hev) as (_ & Hcount & Hstart).
  rewrite failure_mode, Hcfg in Hn, Hcount, Hstart. cbn [failure_state cm_Mode] in Hn.
  cbn [failure_state cm_ConsecutivePeerWitnessFails cm_ConfirmedOutageStartedAt] in Hcount, Hstart.
  fold policy in Hn, Hcount, Hstart.
  destruct (failure_promotes _ _ _ _ _ _ _) eqn:Hp.
  2: { unfold failure_demoted in Hn. change (cm_Mode (mode_of a) <> NodeModeIndependent) in Hold.
       destruct (String.eqb_spec (cm_Mode (mode_of a)) NodeModeIndependent) as [|_]; [done|].
       cbn [andb fst] in Hn. destruct (_ && _); cbn in Hn; done. }
  unfold failure_promotes in Hp. b2p.
  destruct (is_zero (failure_confirmedAt now hp pq (mode_of a))) eqn:Hzc; [done|].
  assert (Hc : hp && pq = true).
  { destruct (hp && pq) eqn:Hb; [done|]. unfold failure_confirmedAt in Hzc. by rewrite Hb in Hzc. }
  rewrite Hc in *. apply andb_true_iff in Hc as [-> ->].
  pose proof (min_failures_two (cfg_Disaster (ag_Cfg a0))) as Htwo. fold policy in Htwo.
  split_and!; [done|done|done|lia|lia|].
  exists (failure_confirmedAt now true true (mode_of a)). split; [|done].
  apply Hstart. unfold is_zero in Hzc. by b2p.
Qed.

(** ** Transitions *)

Lemma failure_from_draining policy role now hp pq s :
  cm_Mode s = NodeModeIndependentDraining ->
  cm_Mode (failure_state policy role now hp pq s) = NodeModeIndependentDraining.
Proof.
  intros Hm. cbn. unfold failure_demoted. rewrite Hm. cbn. unfold failure_promotes.
  rewrite String.eqb_refl. cbn. by rewrite !andb_false_r.
Qed.

Lemma failure_disputed policy role now hp pq s :
  cm_Mode s = NodeModeIndependent -> hp && pq = false ->
  cm_Mode (failure_state policy role now hp pq s) = NodeModeIndependentDraining.
Proof.
  intros Hm Hd. cbn. unfold failure_demoted. rewrite Hm.
  replace (negb hp || negb pq) with true by (destruct hp, pq; done). cbn.
  unfold failure_promotes. rewrite String.eqb_refl. cbn. by rewrite !andb_false_r.
Qed.

Lemma failure_never_managed policy role now hp pq s :
  cm_Mode s <> NodeModeManaged -> cm_Mode (failure_state policy role now hp pq s) <> NodeModeManaged.
Proof.
  intros Hm. cbn. destruct (failure_promotes _ _ _ _ _ _ _); [done|]. unfold failure_demoted.
  destruct (_ && (negb hp || negb pq)); cbn; [done|].
  destruct (_ && _); cbn; done.
Qed.

(** The way back from independence goes through draining.  For one heartbeat,
    failed or answered: an independent node never becomes managed; a disputed
    failure (health probe answered, or no witness quorum) of an independent node
    puts it into draining at once; a draining node stays draining on every
    failure; and a draining node becomes managed only when no independent session
    and no unsynchronised user is left. *)
Theorem return_through_draining (a : Agent) h e :
  let a' := fst (beat (a, h) e) in
  (agent_mode a = NodeModeIndependent -> agent_mode a' <> NodeModeManaged) /\
  (forall now hp pq sv, e = Failed now hp pq sv -> hp && pq = false ->
     agent_mode a = NodeModeIndependent -> agent_mode a' = NodeModeIndependentDraining) /\
  (forall now hp pq sv, e = Failed now hp pq sv ->
     agent_mode a = NodeModeIndependentDraining -> agent_mode a' = NodeModeIndependentDraining) /\
  (agent_mode a = NodeModeIndependentDraining -> agent_mode a' = NodeModeManaged ->
     cm_ActiveIndependentSessions (mode_of a) <= 0 /\ cm_PendingUserSyncs (mode_of a) <= 0).
Proof.
  change (agent_mode a) with (cm_Mode (mode_of a)).
  intros a'. destruct e as [now hp pq sv|clock now response svg sv]; cbn [beat] in a'.
  - change (agent_mode a') with (cm_Mode (mode_of a')). subst a'. cbn [fst].
    rewrite failure_mode. split_and!.
    + intros Hm. apply failure_never_managed. by rewrite Hm.
    + intros ? ? ? ? [= <- <- <- <-] Hd Hm. by apply failure_disputed.
    + intros ? ? ? ? [= <- <- <- <-] Hm. by apply failure_from_draining.
    + intros Hm. by rewrite failure_from_draining.
  - pose proof (success_mode svg sv clock now response a) as Hs. subst a'.
    destruct (recordControllerSuccess svg sv clock now response a) as [err a'].
    cbn [fst]. change (agent_mode a') with (cm_Mode (mode_of a')).
    destruct Hs as [_ [[-> _]|(desired & -> & _ & _ & _ & _ & _ & _ & _ & Hd & Hdrain)]].
    + split_and!; try done; intros Hm; rewrite Hm; done.
    + split_and!; try done; intros Hm.
      cbn. rewrite Hm in Hd. cbn in Hd. subst desired.
      by destruct (String.eqb_spec (hr_DesiredMode response) NodeModeManaged).
Qed.

(** ** Mode generations *)

(** One heartbeat: the generation grows, strictly when the mode changes. *)
Lemma beat_generation (a : Agent) h e (B : Z) :
  cm_ModeGeneration (mode_of a) <= B -> int64 (cm_ModeGeneration (mode_of a)) -> B < MaxInt64 ->
  (forall clock now r svg sv, e = Answered clock now r svg sv -> hr_ModeGeneration r <= B) ->
  let a' := fst (beat (a, h) e) in
  cm_ModeGeneration (mode_of a) <= cm_ModeGeneration (mode_of a') <= B + 1 /\
  (cm_ModeGeneration (mode_of a) = cm_ModeGeneration (mode_of a') ->
   cm_Mode (mode_of a) = cm_Mode (mode_of a')) /\
  rs_HighestGeneration (ag_state a) <= rs_HighestGeneration (ag_state a').
Proof.
  intros HB Hint Hmax Hr. intros a'. destruct e as [now hp pq sv|clock now response svg sv]; cbn [beat] in a'.
  - subst a'. cbn [fst]. rewrite failure_mode.
    unfold recordControllerFailure. rewrite save_state. cbn [failure_state cm_ModeGeneration cm_Mode].
    set (final := if failure_promotes _ _ _ _ _ _ _ then _ else _).
    destruct (String.eqb_spec (fst final) (cm_Mode (mode_of a))) as [->|Hne]; cbn [negb].
    + split_and!; try done; lia.
    + assert (Hw : wrap64 (cm_ModeGeneration (mode_of a) + 1) = cm_ModeGeneration (mode_of a) + 1)
        by (apply wrap64_id; unfold int64 in *; lia).
      rewrite Hw. split_and!; try lia. cbn. lia.
  - pose proof (success_mode svg sv clock now response a) as Hs. subst a'.
    pose proof (success_highest svg sv clock now response a) as Hh.
    destruct (recordControllerSuccess svg sv clock now response a) as [err a'].
    cbn [fst snd] in *. specialize (Hr _ _ _ _ _ eq_refl).
    destruct Hs as [_ [[-> _]|(desired & -> & _ & _ & _ & Hle & _ & Hlt & _)]].
    + split_and!; (done || lia).
    + cbn. destruct (String.eqb_spec desired (cm_Mode (mode_of a))) as [->|Hne]; cbn [negb].
      * split_and!; (done || lia).
      * specialize (Hlt Hne). split_and!; (done || lia).
Qed.

Definition answers_bounded (B : Z) (evs : list heartbeat) : Prop :=
  forall clock now r svg sv, Answered clock now r svg sv ∈ evs -> hr_ModeGeneration r <= B.

Lemma beats_generation (evs : list heartbeat) : forall (a : Agent) h (B : Z),
  cm_ModeGeneration (mode_of a) <= B -> int64 (cm_ModeGeneration (mode_of a)) ->
  B + Z.of_nat (length evs) <= MaxInt64 -> answers_bounded B evs ->
  let a' := fst (foldl beat (a, h) evs) in
  cm_ModeGeneration (mode_of a) <= cm_ModeGeneration (mode_of a') <= B + Z.of_nat (length evs) /\
  (cm_ModeGeneration (mode_of a) = cm_ModeGeneration (mode_of a') ->
   cm_Mode (mode_of a) = cm_Mode (mode_of a')) /\
  rs_HighestGeneration (ag_state a) <= rs_HighestGeneration (ag_state a').
Proof.
  induction evs as [|e evs IH]; intros a h B HB Hint Hmax Hr; cbn [foldl length].
  { cbn. split_and!; (done || lia). }
  cbn [length] in Hmax.
  destruct (beat_generation a h e B HB Hint) as ([H1 H2] & H3 & H4); [lia| |].
  { intros clock now r svg sv ->. apply (Hr clock now r svg sv), list_elem_of_here. }
  destruct (beat (a, h) e) as [a1 h1]. cbn [fst] in *.
  destruct (IH a1 h1 (B + 1)) as ([H5 H6] & H7 & H8); [lia| |lia| |].
  { unfold int64 in *. lia. }
  { intros clock now r svg sv Hin.
    pose proof (Hr clock now r svg sv (list_elem_of_further _ _ _ Hin)). lia. }
  split_and!; [lia|lia| |lia].
  intros Heq. rewrite H3 by lia. apply H7. lia.
Qed.

(** Along any sequence of heartbeats the mode generation never decreases and
    identifies the mode: two moments with the same generation have the same mode.
    The highest Controller generation never decreases either.  The bound [B]
    keeps the 64-bit generation from wrapping within the run. *)
Theorem mode_generation_identifies_mode (a0 : Agent) (evs1 evs2 : list heartbeat) (B : Z) :
  cm_ModeGeneration (mode_of a0) <= B -> int64 (cm_ModeGeneration (mode_of a0)) ->
  B + Z.of_nat (length (evs1 ++ evs2)) <= MaxInt64 -> answers_bounded B (evs1 ++ evs2) ->
  let a1 := fst (beats a0 evs1) in
  let a2 := fst (beats a0 (evs1 ++ evs2)) in
  cm_ModeGeneration (mode_of a1) <= cm_ModeGeneration (mode_of a2) /\
  (cm_ModeGeneration (mode_of a1) = cm_ModeGeneration (mode_of a2) -> agent_mode a1 = agent_mode a2) /\
  rs_HighestGeneration (ag_state a1) <= rs_HighestGeneration (ag_state a2).
Proof.
  intros HB Hint Hmax Hr a1 a2. rewrite length_app in Hmax.
  destruct (beats_generation evs1 a0 [] B HB Hint) as ([H1 H2] & _ & _); [lia| |].
  { intros clock now r svg sv Hin. eapply Hr, elem_of_app. eauto. }
  subst a2. unfold beats. rewrite foldl_app. fold (beats a0 evs1).
  subst a1. fold (beats a0 evs1) in H1, H2. destruct (beats a0 evs1) as [a1 h1]. cbn [fst] in *.
  destruct (beats_generation evs2 a1 h1 (B + Z.of_nat (length evs1))) as ([H3 H4] & H5 & H6);
    [lia|unfold int64 in *; lia|lia| |done].
  intros clock now r svg sv Hin.
  pose proof (Hr clock now r svg sv ltac:(apply elem_of_app; eauto)). lia.
Qed.

(** ** Confirmed leases *)

(** The set of confirmed leases the agent holds passes the loader's check. *)
Definition leases_ok (a : Agent) : Prop :=
  validateAgentActivityLeaseState (rs_ActivityLeases (ag_state a)) = Ok tt.

Lemma valid_leases_spec g c (leases : list ActivityLeaseConfirmation) : forall seen,
  validConfirmedLeases g c seen leases = Ok tt -> 0 <= c ->
  (forall l, l ∈ leases -> lc_LeaseExpiresAt l <= MaxInt64) ->
  (forall l, l ∈ leases -> lc_ControllerGeneration l = g /\
     c < lc_LeaseExpiresAt l <= c + maxConfirmedActivityLease / 1000000 /\ lc_Handle l ∉ seen) /\
  NoDup (lc_Handle <$> leases).
Proof.
  induction leases as [|x leases IH]; intros seen E Hc Hmax; cbn in E.
  { split; [by intros l ?%elem_of_nil|constructor]. }
  destruct (_ || _) eqn:Hb; [done|]. b2p. destruct (bool_decide _) eqn:Hs; [done|]. b2p.
  destruct (IH _ E Hc) as [Hl1 Hl2]; [intros l Hl; apply Hmax; by apply list_elem_of_further|].
  assert (Hx : lc_LeaseExpiresAt x <= MaxInt64) by (apply Hmax, list_elem_of_here).
  match goal with Hw : wrap64 _ <= _ |- _ => rewrite wrap64_id in Hw by (unfold int64, MinInt64; lia) end.
  split.
  - intros l [->|Hl]%elem_of_cons; [split_and!; (done || lia)|].
    destruct (Hl1 l Hl) as (? & ? & ?). split_and!; [done|lia|lia|set_solver].
  - cbn. constructor; [|done]. intros (l & Hh & Hl)%list_elem_of_fmap.
    destruct (Hl1 l Hl) as (_ & _ & Hn). set_solver.
Qed.

(** Controller-confirmed leases only move forward.  A heartbeat answer that
    is processed leaves a lease set that passes the start-up check, observed no
    earlier than the previous one, and identical to it when observed at the same
    time; every lease of an accepted new set belongs to the answer's generation,
    expires after the observation and at most 24 h 6 min after it, and no handle
    occurs twice. *)
Theorem lease_confirmations_forward clock now response (a : Agent) :
  leases_ok a -> (forall l, l ∈ hr_ActivityLeaseConfirmations response -> lc_LeaseExpiresAt l <= MaxInt64) ->
  let '(err, a') := recordActivityLeaseConfirmations clock now response a in
  let old := rs_ActivityLeases (ag_state a) in
  let new := rs_ActivityLeases (ag_state a') in
  leases_ok a' /\ al_ConfirmedAt old <= al_ConfirmedAt new /\
  (al_ConfirmedAt new = al_ConfirmedAt old -> new = old) /\
  (err <> Ok tt -> a' = a) /\
  (new <> old -> al_ControllerGeneration new = hr_ControllerGeneration response /\
     NoDup (lc_Handle <$> al_Leases new) /\
     forall l, l ∈ al_Leases new -> lc_ControllerGeneration l = hr_ControllerGeneration response /\
       al_ConfirmedAt new < lc_LeaseExpiresAt l <= al_ConfirmedAt new + 86760000).
Proof.
  intros Hok Hmax. unfold recordActivityLeaseConfirmations.
  destruct (_ =? 0) eqn:Hz; [destruct (negb _); split_and!; (done || lia)|].
  destruct (_ <? _); [split_and!; (done || lia)|].
  destruct (validateAgentActivityLeaseState _) as [[]|] eqn:Hv; [|split_and!; (done || lia)].
  destruct (_ <? _) eqn:Hroll; [split_and!; (done || lia)|].
  destruct (al_ConfirmedAt _ =? al_ConfirmedAt _) eqn:Heq; [destruct (_ || _); split_and!; (done || lia)|].
  b2p. cbn in Hroll, Heq. cbn.
  split_and!; [exact Hv|lia|lia|done|]. intros _.
  unfold validateAgentActivityLeaseState in Hv. cbn in Hv.
  destruct (_ =? 0) eqn:Hz2 in Hv; b2p; [done|]. destruct (_ || _) eqn:Henv in Hv; [done|]. b2p.
  destruct (valid_leases_spec _ _ _ _ Hv) as [Hl1 Hl2]; [lia|done|].
  split_and!; [done|done|]. intros l Hl. by destruct (Hl1 l Hl) as (? & ? & _).
Qed.

(** ** The policy thresholds *)

(** The normalised thresholds are ordered, controller-unreachable before
    independent, exactly when the configured pair is ordered or the configured
    unreachable threshold is below the default independent threshold of 900 s;
    the repair [IndependentAfterSec = 900] does not restore the order otherwise. *)
Theorem normalized_thresholds_ordered (p : AgentDisasterPolicy) :
  pol_UnreachableAfterSec p <= 9000000000 -> pol_IndependentAfterSec p <= 9000000000 ->
  (nd_unreachableAfter (normalizeDisasterPolicy p) < nd_independentAfter (normalizeDisasterPolicy p) <->
   pol_UnreachableAfterSec p < pol_IndependentAfterSec p \/ pol_UnreachableAfterSec p < 900).
Proof.
  intros Hu Hi. unfold normalizeDisasterPolicy. cbn [nd_unreachableAfter nd_independentAfter].
  unfold default_UnreachableAfterSec, default_IndependentAfterSec.
  assert (Hw : forall x, 0 < x <= 9000000000 -> wrap64 (x * Second) = x * Second).
  { intros x Hx. apply wrap64_id. unfold int64, MinInt64, MaxInt64, Second. lia. }
  destruct (pol_UnreachableAfterSec p <=? 0) eqn:E1; destruct (pol_IndependentAfterSec p <=? _) eqn:E2;
    b2p; rewrite !Hw by lia; unfold Second; lia.
Qed.

End ControlMode.

(** ** Witnesses *)

#[local] Existing Instance ascii_tables.

Definition demo_compute : Agent := demo_agent 1 ["https://n2"].
Definition demo_failures : list heartbeat :=
  [Failed demo_now true true true; Failed (demo_now + 300 * Second) true true true;
   Failed (demo_now + 600 * Second) true true true].

Lemma independent_requires_sustained_loss_witness :
  let '(a, h) := beats demo_compute demo_failures in
  exists t, t ∈ confirmed_run (Lost (demo_now + 901 * Second) true :: h) /\
    900 * Second <= time_sub (demo_now + 901 * Second) t.
Proof.
  pose proof (independent_requires_sustained_loss demo_compute demo_failures true
    (demo_now + 901 * Second) true true eq_refl eq_refl) as Hthm.
  destruct (beats demo_compute demo_failures) as [a h] eqn:E.
  assert (Ha : a = fst (beats demo_compute demo_failures)) by (by rewrite E).
  destruct Hthm as (_ & _ & _ & _ & Ht).
  - rewrite Ha. vm_compute. discriminate.
  - rewrite Ha. vm_compute. reflexivity.
  - exact Ht.
Defined.

Definition demo_response : HeartbeatResponse :=
  {| hr_ControllerGeneration := 1; hr_DesiredMode := NodeModeManaged; hr_ModeGeneration := 1;
     hr_AcknowledgedTakeoverOperations := []; hr_ActivityLeaseConfirmedAt := unix_milli demo_now;
     hr_ActivityLeaseConfirmations :=
       [{| lc_Handle := "alice"; lc_SessionID := demo_operation_id; lc_ActivityEpoch := 1;
           lc_ControllerGeneration := 1; lc_LeaseExpiresAt := unix_milli demo_now + 60000 |}] |}.

Lemma mode_generation_identifies_mode_witness :
  let a1 := fst (beats demo_compute demo_failures) in
  let a2 := fst (beats demo_compute (demo_failures ++
              [Failed (demo_now + 901 * Second) true true true])) in
  cm_ModeGeneration (mode_of a1) <= cm_ModeGeneration (mode_of a2).
Proof.
  intros a1 a2.
  refine (proj1 (mode_generation_identifies_mode demo_compute demo_failures
           [Failed (demo_now + 901 * Second) true true true] 1 _ _ _ _)).
  - vm_compute. discriminate.
  - vm_compute. split; discriminate.
  - vm_compute. discriminate.
  - intros clock now r svg sv Hin. unfold demo_failures in Hin. cbn in Hin.
    repeat (apply elem_of_cons in Hin as [Hin|Hin]; [discriminate|]). by apply elem_of_nil in Hin.
Defined.

Lemma lease_confirmations_forward_witness :
  let '(err, a') := recordActivityLeaseConfirmations demo_now demo_now demo_response demo_compute in
  err = Ok tt /\ leases_ok a' /\ NoDup (lc_Handle <$> al_Leases (rs_ActivityLeases (ag_state a'))).
Proof.
  pose proof (lease_confirmations_forward demo_now demo_now demo_response demo_compute) as Hthm.
  assert (Hr : recordActivityLeaseConfirmations demo_now demo_now demo_response demo_compute =
    (Ok tt, with_state demo_compute (with_ActivityLeases (ag_state demo_compute)
      {| al_ControllerGeneration := 1; al_ConfirmedAt := unix_milli demo_now;
         al_Leases := hr_ActivityLeaseConfirmations demo_response; al_AdapterConfirmedAt := 0 |})))
    by (vm_compute; reflexivity).
  rewrite Hr in *. destruct Hthm as (H1 & _ & _ & _ & H2).
  - vm_compute. reflexivity.
  - intros l [->|[]%elem_of_nil]%elem_of_cons. vm_compute. discriminate.
  - split_and!; [done|done|]. apply H2. vm_compute. discriminate.
Defined.

Lemma normalized_thresholds_ordered_witness :
  ~ (nd_unreachableAfter (normalizeDisasterPolicy
       {| pol_UnreachableAfterSec := 1800; pol_IndependentAfterSec := 600;
          pol_MinFailedHeartbeats := 4; pol_PeerWitnessURLs := [] |}) <
     nd_independentAfter (normalizeDisasterPolicy
       {| pol_UnreachableAfterSec := 1800; pol_IndependentAfterSec := 600;
          pol_MinFailedHeartbeats := 4; pol_PeerWitnessURLs := [] |})).
Proof. rewrite normalized_thresholds_ordered; cbn; lia. Defined.
