(* ===== verification/RuntimeState.v ===== *)
(** * Transfers, credentials and cached results

    src/internal/agent/runtime_state.go: the life of a snapshot transfer
    capability (prepared, consumed, published or failed), the rotation of the
    Controller credential, backup cancellation marks, the bounded cache of
    command results, and [loadRuntimeState], which validates and repairs the
    persisted state at start-up.  The [prepare_snapshot_receive] command of
    commands.go builds the transfers that enter the state.

    Each operation reads the clock once here ([now]); key generation, file-system
    recovery and the outcomes of writes are arguments. *)

From Stdlib Require Import ZArith Lia Ascii String.
From stdpp Require Import base list gmap strings sorting.
From S2P Require Import Prelude GoStrings Sha256 Protocol AgentState PeerWitness Ownership ControlMode.
#[local] Open Scope Z_scope.

Section RuntimeState.
Context `{UnicodeTables}.

(** ** Transfers *)

Definition str_in (s : string) (l : list string) : bool := bool_decide (s ∈ l).

Definition validatePendingTransferState (transfer : pendingTransfer) (nodeID : Z) : result unit :=
  let validState := str_in (tr_State transfer) ["prepared"; "consumed"; "failed"; "published"] in
  let validKind := str_in (tr_DestinationKind transfer)
                     ["archive"; "hot_standby"; "restore"; "conflict_input"] in
  let published := String.eqb (tr_State transfer) "published" in
  let receipt := bool_decide (is_Some (tr_Receipt transfer)) in
  if negb (validUUID (tr_WorkflowID transfer)) || negb (validUUID (tr_SnapshotID transfer))
     || (tr_GlobalUserID transfer <=? 0) || (tr_TargetNodeID transfer <=? 0)
     || ((0 <? nodeID) && negb (tr_TargetNodeID transfer =? nodeID))
     || negb (validHandle (tr_Handle transfer)) || negb validKind
     || (tr_SourceNodeID transfer <=? 0) || (tr_ActivityEpoch transfer <=? 0)
     || negb (valid_sha256_hex (tr_CapabilityHash transfer))
     || is_zero (tr_ExpiresAt transfer) || is_zero (tr_UpdatedAt transfer) || negb validState
     || (published && negb receipt) || (negb published && receipt)
  then Fail "invalid snapshot transfer state"
  else if negb (String.eqb (tr_RelayTaskID transfer) "")
          && (negb (validUUID (tr_RelayTaskID transfer))
              || String.eqb (tr_RelayPrivateKey transfer) "" || String.eqb (tr_RelayPublicKey transfer) "")
  then Fail "invalid relay transfer state"
  else Ok tt.

Definition sameTransferScope (left right : pendingTransfer) : bool :=
  String.eqb (tr_WorkflowID left) (tr_WorkflowID right)
  && String.eqb (tr_SnapshotID left) (tr_SnapshotID right)
  && (tr_GlobalUserID left =? tr_GlobalUserID right)
  && (tr_TargetNodeID left =? tr_TargetNodeID right)
  && String.eqb (tr_Handle left) (tr_Handle right)
  && String.eqb (tr_DestinationKind left) (tr_DestinationKind right)
  && (tr_SourceNodeID left =? tr_SourceNodeID right)
  && (tr_ActivityEpoch left =? tr_ActivityEpoch right).

(** Assign the state, the time and the receipt of a transfer. *)
Definition move (t : pendingTransfer) (state : string) (at_ : time)
  (receipt : option SnapshotTransferReceipt) : pendingTransfer :=
  {| tr_WorkflowID := tr_WorkflowID t; tr_SnapshotID := tr_SnapshotID t;
     tr_GlobalUserID := tr_GlobalUserID t; tr_TargetNodeID := tr_TargetNodeID t;
     tr_Handle := tr_Handle t; tr_DestinationKind := tr_DestinationKind t;
     tr_SourceNodeID := tr_SourceNodeID t; tr_ActivityEpoch := tr_ActivityEpoch t;
     tr_CapabilityHash := tr_CapabilityHash t; tr_ExpiresAt := tr_ExpiresAt t;
     tr_RelayTaskID := tr_RelayTaskID t; tr_RelayPrivateKey := tr_RelayPrivateKey t;
     tr_RelayPublicKey := tr_RelayPublicKey t; tr_State := state; tr_UpdatedAt := at_;
     tr_Receipt := receipt |}.

Definition with_relay (t : pendingTransfer) (task private public : string) : pendingTransfer :=
  {| tr_WorkflowID := tr_WorkflowID t; tr_SnapshotID := tr_SnapshotID t;
     tr_GlobalUserID := tr_GlobalUserID t; tr_TargetNodeID := tr_TargetNodeID t;
     tr_Handle := tr_Handle t; tr_DestinationKind := tr_DestinationKind t;
     tr_SourceNodeID := tr_SourceNodeID t; tr_ActivityEpoch := tr_ActivityEpoch t;
     tr_CapabilityHash := tr_CapabilityHash t; tr_ExpiresAt := tr_ExpiresAt t;
     tr_RelayTaskID := task; tr_RelayPrivateKey := private; tr_RelayPublicKey := public;
     tr_State := tr_State t; tr_UpdatedAt := tr_UpdatedAt t; tr_Receipt := tr_Receipt t |}.

Definition transfers (a : Agent) : gmap string pendingTransfer := rs_Transfers (ag_state a).

Definition put_transfer (a : Agent) (k : string) (t : pendingTransfer) : Agent :=
  with_state a (with_Transfers (ag_state a) (<[k := t]> (transfers a))).

(** Whether a stored transfer may give way to the incoming one; [None] means the
    incoming one is the stored one already. *)
Definition may_replace (now : time) (existing transfer : pendingTransfer) : option bool :=
  let state s := String.eqb (tr_State existing) s in
  let scope := sameTransferScope existing transfer in
  let restore := String.eqb (tr_DestinationKind existing) "restore"
                 && String.eqb (tr_DestinationKind transfer) "restore" in
  let relay := negb (String.eqb (tr_RelayTaskID transfer) "") in
  let expired := negb (after (tr_ExpiresAt existing) now) in
  let sameCapability := String.eqb (tr_WorkflowID existing) (tr_WorkflowID transfer)
                        && String.eqb (tr_CapabilityHash existing) (tr_CapabilityHash transfer) in
  let replace :=
    let exactRetry := scope
      && ((state "failed" && (negb sameCapability
             || (relay && negb (String.eqb (tr_RelayTaskID existing) (tr_RelayTaskID transfer)))))
          || (state "prepared" && (negb sameCapability || relay))) in
    let expiredRestore := scope && restore && state "consumed" && expired in
    let preparedRestore := scope && restore && state "prepared" && negb sameCapability in
    let expiredPrepared := scope && state "prepared" && expired in
    exactRetry || expiredPrepared || expiredRestore || preparedRestore in
  if sameCapability && state "prepared" then
    if scope && String.eqb (tr_RelayTaskID existing) (tr_RelayTaskID transfer)
       && String.eqb (tr_RelayPrivateKey existing) (tr_RelayPrivateKey transfer)
       && String.eqb (tr_RelayPublicKey existing) (tr_RelayPublicKey transfer)
    then None
    else if negb relay || negb scope then Some false
    else Some replace
  else Some replace.

Definition prepareTransferLocked (sv : bool) (now : time) (transfer : pendingTransfer) (a : Agent)
  : result unit * Agent :=
  let arm := saveRuntimeStateLocked sv
    (put_transfer a (tr_SnapshotID transfer) (move transfer "prepared" now (tr_Receipt transfer))) in
  match transfers a !! tr_SnapshotID transfer with
  | None => arm
  | Some existing =>
      match may_replace now existing transfer with
      | None => (Ok tt, a)
      | Some false => (Fail "snapshot transfer identity already exists", a)
      | Some true => arm
      end
  end.

Definition prepareTransfer := prepareTransferLocked.

(** [keys] is the result of [GenerateRelayKeyPair]. *)
Definition prepareRelayTransfer (sv : bool) (now : time) (keys : option (string * string))
  (transfer : pendingTransfer) (taskID : string) (a : Agent) : result string * Agent :=
  if negb (validUUID taskID) then (Fail "invalid relay task identity", a)
  else
    let fresh :=
      match keys with
      | None => (Fail "relay key generation failed", a)
      | Some (privateKey, publicKey) =>
          let '(err, a) := prepareTransferLocked sv now
                             (with_relay transfer taskID privateKey publicKey) a in
          match err with Ok _ => (Ok publicKey, a) | Fail e => (Fail e, a) end
      end in
    match transfers a !! tr_SnapshotID transfer with
    | Some existing =>
        if String.eqb (tr_WorkflowID existing) (tr_WorkflowID transfer)
           && String.eqb (tr_CapabilityHash existing) (tr_CapabilityHash transfer)
           && String.eqb (tr_State existing) "prepared"
           && String.eqb (tr_RelayTaskID existing) taskID
           && negb (String.eqb (tr_RelayPrivateKey existing) "")
           && negb (String.eqb (tr_RelayPublicKey existing) "")
        then (Ok (tr_RelayPublicKey existing), a) else fresh
    | None => fresh
    end.

Definition relayTransfer (sv : bool) (now : time) (snapshotID workflowID taskID : string) (a : Agent)
  : result pendingTransfer * Agent :=
  match transfers a !! snapshotID with
  | None => (Fail "relay transfer state unavailable", a)
  | Some transfer =>
      if negb (String.eqb (tr_WorkflowID transfer) workflowID)
         || negb (String.eqb (tr_RelayTaskID transfer) taskID)
         || String.eqb (tr_RelayPrivateKey transfer) ""
      then (Fail "relay transfer state unavailable", a)
      else if String.eqb (tr_State transfer) "consumed" then
        let '(err, a) := saveRuntimeStateLocked sv
          (put_transfer a snapshotID (move transfer "failed" now (tr_Receipt transfer))) in
        match err with
        | Fail e => (Fail e, a)
        | Ok _ => (Fail "interrupted relay transfer requires retry", a)
        end
      else if negb (String.eqb (tr_State transfer) "prepared")
      then (Fail "relay transfer state unavailable", a)
      else (Ok transfer, a)
  end.

Definition consumeTransfer (sv : bool) (snapshotID workflowID token : string) (now : time) (a : Agent)
  : result pendingTransfer * Agent :=
  match transfers a !! snapshotID with
  | None => (Fail "transfer capability unavailable", a)
  | Some transfer =>
      if negb (String.eqb (tr_WorkflowID transfer) workflowID)
         || negb (String.eqb (tr_State transfer) "prepared")
         || negb (after (tr_ExpiresAt transfer) now)
      then (Fail "transfer capability unavailable", a)
      else match hex_decode (tr_CapabilityHash transfer) with
      | None => (Fail "invalid transfer capability state", a)
      | Some want =>
          if negb (slen want =? 32) then (Fail "invalid transfer capability state", a)
          else if negb (String.eqb want (sha256 token)) then (Fail "transfer capability rejected", a)
          else
            let transfer := move transfer "consumed" now (tr_Receipt transfer) in
            let '(err, a) := saveRuntimeStateLocked sv (put_transfer a snapshotID transfer) in
            match err with Ok _ => (Ok transfer, a) | Fail e => (Fail e, a) end
      end
  end.

Definition finishTransfer (sv : bool) (now : time) (snapshotID state : string) (a : Agent)
  : result unit * Agent :=
  match transfers a !! snapshotID with
  | None => (Fail "transfer state not found", a)
  | Some transfer =>
      saveRuntimeStateLocked sv (put_transfer a snapshotID (move transfer state now (tr_Receipt transfer)))
  end.

Definition failTransferIfIncomplete (sv : bool) (now : time) (snapshotID : string) (a : Agent) : Agent :=
  match transfers a !! snapshotID with
  | None => a
  | Some transfer =>
      if str_in (tr_State transfer) ["prepared"; "consumed"]
      then snd (saveRuntimeStateLocked sv
             (put_transfer a snapshotID (move transfer "failed" now (tr_Receipt transfer))))
      else a
  end.

Definition publishTransfer (sv : bool) (now : time) (snapshotID : string)
  (receipt : SnapshotTransferReceipt) (a : Agent) : result unit * Agent :=
  match transfers a !! snapshotID with
  | None => (Fail "transfer state not consumable", a)
  | Some transfer =>
      if negb (String.eqb (tr_State transfer) "consumed")
      then (Fail "transfer state not consumable", a)
      else saveRuntimeStateLocked sv
             (put_transfer a snapshotID (move transfer "published" now (Some receipt)))
  end.

Definition snapshotReceipt (a : Agent) (workflowID snapshotID : string)
  : option SnapshotTransferReceipt :=
  match transfers a !! snapshotID with
  | None => None
  | Some transfer =>
      if negb (String.eqb (tr_WorkflowID transfer) workflowID)
         || negb (String.eqb (tr_State transfer) "published")
      then None else tr_Receipt transfer
  end.

(** ** The command that creates transfers *)

Record PrepareSnapshotReceiveRequest := {
  pq_WorkflowID : string;
  pq_SnapshotID : string;
  pq_GlobalUserID : Z;
  pq_Handle : string;
  pq_DestinationKind : string;
  pq_SourceNodeID : Z;
  pq_ActivityEpoch : Z;
  pq_CapabilityHash : string;
  pq_ExpiresAt : time;
  pq_RelayTaskID : string;
}.

Definition transfer_of (a : Agent) (p : PrepareSnapshotReceiveRequest) : pendingTransfer :=
  {| tr_WorkflowID := pq_WorkflowID p; tr_SnapshotID := pq_SnapshotID p;
     tr_GlobalUserID := pq_GlobalUserID p; tr_TargetNodeID := cfg_NodeID (ag_Cfg a);
     tr_Handle := pq_Handle p; tr_DestinationKind := pq_DestinationKind p;
     tr_SourceNodeID := pq_SourceNodeID p; tr_ActivityEpoch := pq_ActivityEpoch p;
     tr_CapabilityHash := pq_CapabilityHash p; tr_ExpiresAt := pq_ExpiresAt p;
     tr_RelayTaskID := ""; tr_RelayPrivateKey := ""; tr_RelayPublicKey := "";
     tr_State := ""; tr_UpdatedAt := 0; tr_Receipt := None |}.

(** [None] is a payload that does not decode; the result is the safe code sent
    back, or the relay public key ("" without relay). *)
Definition prepareSnapshotReceive (sv : bool) (now : time) (keys : option (string * string))
  (payload : option PrepareSnapshotReceiveRequest) (a : Agent) : result string * Agent :=
  match payload with
  | None => (Fail "invalid_command_payload", a)
  | Some p =>
      let role r := String.eqb (cfg_Role (ag_Cfg a)) r in
      let kind k := String.eqb (pq_DestinationKind p) k in
      if negb (validUUID (pq_WorkflowID p)) || negb (validUUID (pq_SnapshotID p))
         || (pq_GlobalUserID p <=? 0) || negb (validHandle (pq_Handle p))
         || (pq_SourceNodeID p <=? 0) || (pq_ActivityEpoch p <=? 0)
         || (negb (kind "archive") && negb (kind "hot_standby") && negb (kind "restore")
             && negb (kind "conflict_input"))
         || (kind "archive" && negb (role "storage")) || (kind "hot_standby" && negb (role "compute"))
         || (kind "restore" && negb (role "compute")) || (kind "conflict_input" && negb (role "compute"))
         || negb (valid_sha256_hex (pq_CapabilityHash p))
         || negb (after (pq_ExpiresAt p) now) || after (pq_ExpiresAt p) (now + 9 * Hour)
      then (Fail "invalid_command_payload", a)
      else if negb (String.eqb (pq_RelayTaskID p) "") then
        let '(r, a) := prepareRelayTransfer sv now keys (transfer_of a p) (pq_RelayTaskID p) a in
        match r with Ok k => (Ok k, a) | Fail _ => (Fail "prepare_transfer_failed", a) end
      else
        let '(r, a) := prepareTransfer sv now (transfer_of a p) a in
        match r with Ok _ => (Ok "", a) | Fail _ => (Fail "prepare_transfer_failed", a) end
  end.

(** ** Controller credential *)

Definition controllerCredential (a : Agent) : string * Z :=
  let c := rs_Credential (ag_state a) in
  if String.eqb (cr_CurrentPSK c) "" then
    (cfg_AgentPSK (ag_Cfg a),
     if cfg_CredentialVersion (ag_Cfg a) <=? 0 then 1 else cfg_CredentialVersion (ag_Cfg a))
  else (cr_CurrentPSK c, cr_CurrentVersion c).

Definition raise_generation (generation : Z) (s : agentRuntimeState) : agentRuntimeState :=
  if rs_HighestGeneration s <? generation then with_HighestGeneration s generation else s.

Definition persistInitialControllerCredential (sv : bool) (psk : string) (version generation : Z)
  (a : Agent) : result unit * Agent :=
  if String.eqb psk "" || (version <=? 0) || (generation <=? 0)
  then (Fail "invalid initial controller credential", a)
  else
    let c := {| cr_CurrentPSK := psk; cr_CurrentVersion := version; cr_CurrentGeneration := generation;
                cr_PendingPSK := ""; cr_PendingVersion := 0; cr_PendingGeneration := 0;
                cr_PendingExpiresAt := 0 |} in
    saveRuntimeStateLocked sv
      (with_state a (raise_generation generation (with_Credential (ag_state a) c))).

Definition with_pending (c : agentCredentialState) (psk : string) (version generation : Z)
  (expiresAt : time) : agentCredentialState :=
  {| cr_CurrentPSK := cr_CurrentPSK c; cr_CurrentVersion := cr_CurrentVersion c;
     cr_CurrentGeneration := cr_CurrentGeneration c; cr_PendingPSK := psk;
     cr_PendingVersion := version; cr_PendingGeneration := generation;
     cr_PendingExpiresAt := expiresAt |}.

Definition persistPendingControllerCredential (sv : bool) (now : time) (psk : string)
  (version generation : Z) (expiresAt : time) (a : Agent) : result unit * Agent :=
  let c := rs_Credential (ag_state a) in
  if String.eqb psk "" || (version <=? 0) || (generation <=? 0) || negb (after expiresAt now)
  then (Fail "invalid pending controller credential", a)
  else if version <=? cr_CurrentVersion c
  then (Fail "controller credential version rollback", a)
  else if negb (String.eqb (cr_PendingPSK c) "")
          && (negb (cr_PendingVersion c =? version) || negb (String.eqb (cr_PendingPSK c) psk))
  then (Fail "conflicting pending controller credential", a)
  else saveRuntimeStateLocked sv
         (with_state a (with_Credential (ag_state a) (with_pending c psk version generation expiresAt))).

(** [cfgSave] is the outcome of rewriting the configuration file (true also when
    no path is configured). *)
Definition activatePendingControllerCredential (sv cfgSave : bool) (version generation : Z) (a : Agent)
  : result unit * Agent :=
  let c := rs_Credential (ag_state a) in
  if String.eqb (cr_PendingPSK c) "" || negb (cr_PendingVersion c =? version)
     || negb (cr_PendingGeneration c =? generation)
  then if (cr_CurrentVersion c =? version) && (cr_CurrentGeneration c =? generation)
       then (Ok tt, a) else (Fail "pending controller credential mismatch", a)
  else
    let cfg := ag_Cfg a in
    let a := with_cfg a {| cfg_NodeID := cfg_NodeID cfg; cfg_Role := cfg_Role cfg;
                           cfg_AgentPSK := cr_PendingPSK c;
                           cfg_CredentialVersion := cr_PendingVersion c;
                           cfg_ControllerGeneration := cr_PendingGeneration c;
                           cfg_Disaster := cfg_Disaster cfg |} in
    if negb cfgSave then (Fail "persist rotated controller credential", a)
    else
      let c' := {| cr_CurrentPSK := cr_PendingPSK c; cr_CurrentVersion := cr_PendingVersion c;
                   cr_CurrentGeneration := cr_PendingGeneration c; cr_PendingPSK := "";
                   cr_PendingVersion := 0; cr_PendingGeneration := 0; cr_PendingExpiresAt := 0 |} in
      saveRuntimeStateLocked sv
        (with_state a (raise_generation generation (with_Credential (ag_state a) c'))).

Definition clearPendingControllerCredential (sv : bool) (version : Z) (a : Agent)
  : result unit * Agent :=
  let c := rs_Credential (ag_state a) in
  if negb (cr_PendingVersion c =? version) then (Ok tt, a)
  else saveRuntimeStateLocked sv
         (with_state a (with_Credential (ag_state a) (with_pending c "" 0 0 0))).

(** ** Cancelled backups *)

Definition backupCancellationRetention : duration := 24 * Hour.

Definition backupCancelled (a : Agent) (jobID : Z) : bool :=
  bool_decide (is_Some (rs_CancelledBackups (ag_state a) !! jobID)).

Definition live_cancellations (now : time) (m : gmap Z time) : gmap Z time :=
  filter (fun kv => before (snd kv) (now - backupCancellationRetention) = false) m.

Definition persistBackupCancellation (sv : bool) (jobID : Z) (now : time) (a : Agent)
  : result unit * Agent :=
  if (jobID <=? 0) || is_zero now then (Fail "invalid backup cancellation", a)
  else
    let m := rs_CancelledBackups (ag_state a) in
    let m := match m !! jobID with Some _ => m | None => <[jobID := now]> m end in
    saveRuntimeStateLocked sv
      (with_state a (with_CancelledBackups (ag_state a) (live_cancellations now m))).

(** ** Cached command results *)

Definition maxCompleted : nat := 1000.

Definition cachedResult (a : Agent) (commandID : string) : option cachedCommandResult :=
  rs_Completed (ag_state a) !! commandID.

(** The entries in the order [sort.Slice] leaves them: by completion time, with
    equal times in any order. *)
Definition older (x y : string * cachedCommandResult) : Prop :=
  cc_CompletedAt (snd x) <= cc_CompletedAt (snd y).

Definition rememberResult (sv : bool)
  (sortSlice : list (string * cachedCommandResult) -> list (string * cachedCommandResult))
  (commandID : string) (result : cachedCommandResult) (a : Agent) : Prelude.result unit * Agent :=
  let m := <[commandID := result]> (rs_Completed (ag_state a)) in
  let m := if (maxCompleted <? size m)%nat then
             foldr (fun old m => delete (fst old) m) m
               (take (size m - maxCompleted) (sortSlice (map_to_list m)))
           else m in
  saveRuntimeStateLocked sv (with_state a (with_Completed (ag_state a) m)).

(** ** Start-up *)

(** The environment of a start: the clock, a generated worker id, and for each
    transfer whether its destination paths resolve and an interrupted
    publication could be recovered. *)
Record startEnv := {
  se_now : time;
  se_workerID : option string;
  se_recover : pendingTransfer -> bool;
  se_save : bool;
}.

Definition rearm (now : time) (t : pendingTransfer) : pendingTransfer :=
  if String.eqb (tr_State t) "consumed"
  then move t (if after (tr_ExpiresAt t) now then "prepared" else "failed") now (tr_Receipt t)
  else t.

Definition transfer_loads (cfg : AgentConfig) (recover : pendingTransfer -> bool)
  (kv : string * pendingTransfer) : bool :=
  let '(snapshotID, t) := kv in
  String.eqb snapshotID (tr_SnapshotID t) && is_ok (validatePendingTransferState t (cfg_NodeID cfg))
  && (negb (String.eqb (cfg_Role cfg) "compute" || String.eqb (cfg_Role cfg) "storage") || recover t).

Definition cancellation_loads (now : time) (kv : Z * time) : bool :=
  negb (fst kv <=? 0) && negb (is_zero (snd kv)) && negb (after (snd kv) (now + 5 * Minute)).

Definition load_credential (cfg : AgentConfig) (c : agentCredentialState) : agentCredentialState :=
  if String.eqb (cr_CurrentPSK c) "" && negb (String.eqb (cfg_AgentPSK cfg) "") then
    {| cr_CurrentPSK := cfg_AgentPSK cfg;
       cr_CurrentVersion := if cfg_CredentialVersion cfg <=? 0 then 1 else cfg_CredentialVersion cfg;
       cr_CurrentGeneration :=
         if cfg_ControllerGeneration cfg <=? 0 then 1 else cfg_ControllerGeneration cfg;
       cr_PendingPSK := cr_PendingPSK c; cr_PendingVersion := cr_PendingVersion c;
       cr_PendingGeneration := cr_PendingGeneration c; cr_PendingExpiresAt := cr_PendingExpiresAt c |}
  else c.

Definition credential_loads (c : agentCredentialState) : bool :=
  negb (negb (String.eqb (cr_CurrentPSK c) "") && (cr_CurrentVersion c <=? 0))
  && negb (negb (String.eqb (cr_PendingPSK c) "")
           && ((cr_PendingVersion c <=? cr_CurrentVersion c) || (cr_PendingGeneration c <=? 0)
               || is_zero (cr_PendingExpiresAt c))).

Definition with_mode_fields (s : agentControlModeState) (mode adapter : string) (generation : Z)
  (reason : string) (changedAt : time) : agentControlModeState :=
  {| cm_Mode := mode; cm_AdapterMode := adapter;
     cm_AdapterControllerGeneration := cm_AdapterControllerGeneration s;
     cm_ModeGeneration := generation; cm_ControllerGeneration := cm_ControllerGeneration s;
     cm_ReasonCode := reason;
     cm_ConsecutiveHeartbeatFails := cm_ConsecutiveHeartbeatFails s;
     cm_ConsecutiveHealthProbeFails := cm_ConsecutiveHealthProbeFails s;
     cm_ConsecutivePeerWitnessFails := cm_ConsecutivePeerWitnessFails s;
     cm_OutageStartedAt := cm_OutageStartedAt s;
     cm_ConfirmedOutageStartedAt := cm_ConfirmedOutageStartedAt s;
     cm_LastControllerSuccessAt := cm_LastControllerSuccessAt s;
     cm_IndependentSince := cm_IndependentSince s; cm_ChangedAt := changedAt;
     cm_ActiveIndependentSessions := cm_ActiveIndependentSessions s;
     cm_PendingUserSyncs := cm_PendingUserSyncs s |}.

Definition load_mode (now : time) (s : agentControlModeState) : agentControlModeState :=
  let s := if String.eqb (cm_Mode s) ""
           then with_mode_fields s NodeModeManaged NodeModeManaged 1 (cm_ReasonCode s) now else s in
  if String.eqb (cm_Mode s) NodeModeIndependent && (cm_ConsecutivePeerWitnessFails s <=? 0)
  then with_mode_fields s NodeModeIndependentDraining "" (wrap64 (cm_ModeGeneration s + 1))
         "legacy_independent_without_peer_witness" now
  else s.

Definition mode_loads (s : agentControlModeState) : bool :=
  negb ((cm_ModeGeneration s <=? 0) || negb (validNodeControlMode (cm_Mode s))
        || (negb (String.eqb (cm_AdapterMode s) "") && negb (validNodeControlMode (cm_AdapterMode s)))).

(** [loadRuntimeState], from the state decoded from disk (the zero state when
    there is no file) to the state in memory. *)
Definition loadRuntimeState (e : startEnv) (a : Agent) : result unit * Agent :=
  let s := ag_state a in
  let now := se_now e in
  if negb (forallb (transfer_loads (ag_Cfg a) (se_recover e)) (map_to_list (rs_Transfers s)))
  then (Fail "invalid persisted snapshot transfer", a)
  else if negb (forallb (cancellation_loads now) (map_to_list (rs_CancelledBackups s)))
  then (Fail "invalid persisted cancelled backup job", a)
  else if negb (forallb (fun kv => validOwnershipEntry (fst kv) (snd kv))
                  (map_to_list (rs_ActivityOwnership s)))
  then (Fail "invalid persisted activity ownership claim", a)
  else if negb (forallb (fun kv => validTakeoverEntry (fst kv) (snd kv))
                  (map_to_list (rs_OwnershipTakeovers s)))
  then (Fail "invalid persisted activity ownership takeover", a)
  else if negb (is_ok (validateAgentActivityLeaseState (rs_ActivityLeases s)))
  then (Fail "invalid persisted activity lease confirmations", a)
  else
    let worker := if String.eqb (rs_WorkerID s) "" then se_workerID e else Some (rs_WorkerID s) in
    match worker with
    | None => (Fail "generate worker identity", a)
    | Some worker =>
        let c := load_credential (ag_Cfg a) (rs_Credential s) in
        let m := load_mode now (rs_ControlMode s) in
        if negb (credential_loads c) then (Fail "invalid persisted controller credential", a)
        else if negb (mode_loads m) then (Fail "invalid persisted node control mode", a)
        else
          let s' :=
            {| rs_WorkerID := worker;
               rs_HighestGeneration :=
                 Z.max (cfg_ControllerGeneration (ag_Cfg a)) (rs_HighestGeneration s);
               rs_Completed := rs_Completed s;
               rs_Transfers := rearm now <$> rs_Transfers s;
               rs_ControlMode := m; rs_Credential := c;
               rs_ActivityOwnership := rs_ActivityOwnership s;
               rs_OwnershipTakeovers := rs_OwnershipTakeovers s;
               rs_ActivityLeases := rs_ActivityLeases s;
               rs_CancelledBackups := live_cancellations now (rs_CancelledBackups s) |} in
          saveRuntimeStateLocked (se_save e) (with_state a s')
    end.

(** ** Transfer calls *)

Inductive transferCall :=
| CPrepare (sv : bool) (now : time) (keys : option (string * string))
    (payload : option PrepareSnapshotReceiveRequest)
| CRelay (sv : bool) (now : time) (snapshotID workflowID taskID : string)
| CConsume (sv : bool) (snapshotID workflowID token : string) (now : time)
| CPublish (sv : bool) (now : time) (snapshotID : string) (receipt : SnapshotTransferReceipt)
| CFailIncomplete (sv : bool) (now : time) (snapshotID : string)
| CFinish (sv : bool) (now : time) (snapshotID : string).

Definition do_transfer (a : Agent) (c : transferCall) : Agent :=
  match c with
  | CPrepare sv now keys payload => snd (prepareSnapshotReceive sv now keys payload a)
  | CRelay sv now s w t => snd (relayTransfer sv now s w t a)
  | CConsume sv s w token now => snd (consumeTransfer sv s w token now a)
  | CPublish sv now s r => snd (publishTransfer sv now s r a)
  | CFailIncomplete sv now s => failTransferIfIncomplete sv now s a
  | CFinish sv now s => snd (finishTransfer sv now s "failed" a)
  end.

Definition transfer_ok (nodeID : Z) (k : string) (t : pendingTransfer) : Prop :=
  k = tr_SnapshotID t /\ validatePendingTransferState t nodeID = Ok tt.

Definition transfers_ok (a : Agent) : Prop :=
  forall k t, transfers a !! k = Some t -> transfer_ok (cfg_NodeID (ag_Cfg a)) k t.

(** The clock is not Go's zero time; generated keys are not empty; a failure is
    recorded for an attempt that has not been published in the meantime. *)
Definition call_ok (a : Agent) (c : transferCall) : Prop :=
  match c with
  | CPrepare _ now keys _ => 0 < now /\
      forall priv pub, keys = Some (priv, pub) -> priv <> "" /\ pub <> ""
  | CRelay _ now _ _ _ | CConsume _ _ _ _ now | CPublish _ now _ _ | CFailIncomplete _ now _ => now <> 0
  | CFinish _ now s => now <> 0 /\
      forall t, transfers a !! s = Some t -> tr_State t <> "published"
  end.

Lemma save_transfers sv (a : Agent) : transfers (snd (saveRuntimeStateLocked sv a)) = transfers a.
Proof. unfold transfers. by rewrite save_state. Qed.

Lemma put_ok sv (a : Agent) k t :
  transfers_ok a -> transfer_ok (cfg_NodeID (ag_Cfg a)) k t ->
  transfers_ok (snd (saveRuntimeStateLocked sv (put_transfer a k t))).
Proof.
  intros Ha Ht k' t'. rewrite save_transfers, save_cfg. unfold put_transfer, transfers. cbn.
  intros [[<- <-]|[_ Hl]]%lookup_insert_Some; [done|by apply Ha].
Qed.

(** The part of the validity check that does not read state, time and receipt. *)
Definition scope_valid (nodeID : Z) (t : pendingTransfer) : bool :=
  validUUID (tr_WorkflowID t) && validUUID (tr_SnapshotID t)
  && negb (tr_GlobalUserID t <=? 0) && negb (tr_TargetNodeID t <=? 0)
  && negb ((0 <? nodeID) && negb (tr_TargetNodeID t =? nodeID))
  && validHandle (tr_Handle t)
  && str_in (tr_DestinationKind t) ["archive"; "hot_standby"; "restore"; "conflict_input"]
  && negb (tr_SourceNodeID t <=? 0) && negb (tr_ActivityEpoch t <=? 0)
  && valid_sha256_hex (tr_CapabilityHash t) && negb (is_zero (tr_ExpiresAt t))
  && negb (negb (String.eqb (tr_RelayTaskID t) "")
           && (negb (validUUID (tr_RelayTaskID t)) || String.eqb (tr_RelayPrivateKey t) ""
               || String.eqb (tr_RelayPublicKey t) "")).

Definition state_valid (t : pendingTransfer) : Prop :=
  tr_UpdatedAt t <> 0 /\
  ((tr_State t = "published" /\ is_Some (tr_Receipt t)) \/
   (tr_State t ∈ ["prepared"; "consumed"; "failed"]%string /\ tr_Receipt t = None)).

Lemma not_published (s : string) : s ∈ ["prepared"; "consumed"; "failed"]%string -> s <> "published".
Proof.
  intros Hs ->. repeat (apply elem_of_cons in Hs as [Hs|Hs]; [discriminate|]).
  by apply elem_of_nil in Hs.
Qed.

Lemma validate_spec nodeID t :
  validatePendingTransferState t nodeID = Ok tt <-> scope_valid nodeID t = true /\ state_valid t.
Proof.
  unfold validatePendingTransferState, scope_valid, state_valid.
  set (relay := negb (String.eqb (tr_RelayTaskID t) "") && _). split.
  - match goal with |- (if ?b then _ else _) = _ -> _ => destruct b eqn:Hb; [done|] end.
    destruct relay eqn:Hrelay; [done|]. intros _. split.
    + repeat (apply orb_false_iff in Hb as [Hb ?]).
      repeat match goal with Hx : negb _ = false |- _ => apply negb_false_iff in Hx end.
      rewrite !andb_true_iff, !negb_true_iff. by split_and!.
    + b2p. unfold is_zero in *. b2p. split; [done|].
      destruct (decide (tr_State t = "published")) as [He|Hne].
      * left. split; [done|]. rewrite He in *. cbn [andb] in *.
        destruct (tr_Receipt t); [by eexists|done].
      * right. destruct (String.eqb_spec (tr_State t) "published"); [done|]. cbn [andb negb] in *.
        destruct (tr_Receipt t); [done|]. split; [|done]. unfold str_in in *. b2p. set_solver.
  - intros (Hs & Hu & Hst). rewrite !andb_true_iff, !negb_true_iff in Hs. destruct_and! Hs.
    assert (Hz : is_zero (tr_UpdatedAt t) = false) by (unfold is_zero; by apply Z.eqb_neq).
    repeat match goal with Hx : ?x = true |- context [?x] => rewrite Hx
                         | Hx : ?x = false |- context [?x] => rewrite Hx end.
    cbn [negb orb]. destruct Hst as [[-> [r ->]]|[Hin ->]]; [done|].
    destruct (String.eqb_spec (tr_State t) "published") as [He|_]; [by apply not_published in Hin|].
    unfold str_in. rewrite bool_decide_true; [done|]. rewrite !elem_of_cons in *. tauto.
Qed.

(** Moving a transfer keeps it valid when the new state and receipt match. *)
Lemma move_valid nodeID k t state now receipt :
  transfer_ok nodeID k t -> now <> 0 ->
  (state = "published" /\ is_Some receipt) \/
  (state ∈ ["prepared"; "consumed"; "failed"]%string /\ receipt = None) ->
  transfer_ok nodeID k (move t state now receipt).
Proof.
  intros [-> [Hs _]%validate_spec] Hnow Hst. split; [done|]. by apply validate_spec.
Qed.

Lemma valid_no_receipt nodeID k t :
  transfer_ok nodeID k t -> tr_State t <> "published" -> tr_Receipt t = None.
Proof. intros [_ [_ [_ [[? _]|[_ ?]]]]%validate_spec] Hne; done. Qed.

Ltac in_list := rewrite !elem_of_cons; tauto.

Lemma prepare_locked_ok sv now t (a : Agent) :
  transfers_ok a -> transfer_ok (cfg_NodeID (ag_Cfg a)) (tr_SnapshotID t) (move t "prepared" now (tr_Receipt t)) ->
  transfers_ok (snd (prepareTransferLocked sv now t a)).
Proof.
  intros Ha Ht. unfold prepareTransferLocked.
  destruct (transfers a !! tr_SnapshotID t) as [x|]; [|by apply put_ok].
  destruct (may_replace now x t) as [[]|]; [by apply put_ok|done|done].
Qed.

(** A payload that passes the command's checks arms a valid transfer. *)
Lemma payload_valid (a : Agent) now p task priv pub :
  now <> 0 -> 0 < now -> 0 < cfg_NodeID (ag_Cfg a) ->
  validUUID (pq_WorkflowID p) = true -> validUUID (pq_SnapshotID p) = true ->
  (pq_GlobalUserID p <=? 0) = false -> validHandle (pq_Handle p) = true ->
  (pq_SourceNodeID p <=? 0) = false -> (pq_ActivityEpoch p <=? 0) = false ->
  str_in (pq_DestinationKind p) ["archive"; "hot_standby"; "restore"; "conflict_input"] = true ->
  valid_sha256_hex (pq_CapabilityHash p) = true -> after (pq_ExpiresAt p) now = true ->
  (task = "" \/ (validUUID task = true /\ priv <> "" /\ pub <> "")) ->
  transfer_ok (cfg_NodeID (ag_Cfg a)) (pq_SnapshotID p)
    (move (with_relay (transfer_of a p) task priv pub) "prepared" now None).
Proof.
  intros Hz Hpos Hnode H1 H2 H3 H4 H5 H6 H7 H8 H9 Hrelay. split; [done|]. apply validate_spec. split.
  - unfold scope_valid. cbn. rewrite H1, H2, H3, H4, H5, H6, H7, H8, Z.eqb_refl. cbn.
    unfold after in H9. b2p.
    assert (Hn : (cfg_NodeID (ag_Cfg a) <=? 0) = false) by (by apply Z.leb_gt).
    assert (He : is_zero (pq_ExpiresAt p) = false) by (unfold is_zero; apply Z.eqb_neq; lia).
    rewrite Hn, He, andb_false_r. cbn. destruct Hrelay as [->|(Hu & Hpr & Hpu)]; [done|].
    apply String.eqb_neq in Hpr, Hpu. rewrite Hu, Hpr, Hpu. cbn. by rewrite andb_false_r.
  - split; [done|]. right. split; [in_list|done].
Qed.

Lemma prepare_receive_ok sv now keys payload (a : Agent) :
  0 < now -> 0 < cfg_NodeID (ag_Cfg a) ->
  (forall priv pub, keys = Some (priv, pub) -> priv <> "" /\ pub <> "") ->
  transfers_ok a -> transfers_ok (snd (prepareSnapshotReceive sv now keys payload a)).
Proof.
  intros Hnow Hnode Hkeys Ha. unfold prepareSnapshotReceive. destruct payload as [p|]; [|done].
  match goal with |- context [if ?b then (Fail "invalid_command_payload", a) else _] =>
    destruct b eqn:Hb; [done|] end.
  repeat (apply orb_false_iff in Hb as [Hb ?]).
  repeat match goal with Hx : negb _ = false |- _ => apply negb_false_iff in Hx end.
  assert (Hkind : str_in (pq_DestinationKind p)
    ["archive"; "hot_standby"; "restore"; "conflict_input"] = true).
  { unfold str_in. apply bool_decide_eq_true. rewrite !elem_of_cons.
    destruct (String.eqb_spec (pq_DestinationKind p) "archive"); [auto|].
    destruct (String.eqb_spec (pq_DestinationKind p) "hot_standby"); [auto|].
    destruct (String.eqb_spec (pq_DestinationKind p) "restore"); [auto|].
    destruct (String.eqb_spec (pq_DestinationKind p) "conflict_input"); [auto|done]. }
  assert (Hval : forall task priv pub,
    task = "" \/ (validUUID task = true /\ priv <> "" /\ pub <> "") ->
    transfer_ok (cfg_NodeID (ag_Cfg a)) (pq_SnapshotID p)
      (move (with_relay (transfer_of a p) task priv pub) "prepared" now None)).
  { intros. apply payload_valid; try done. lia. }
  destruct (negb (String.eqb (pq_RelayTaskID p) "")).
  - unfold prepareRelayTransfer. destruct (validUUID (pq_RelayTaskID p)) eqn:Hu; cbn [negb]; [|done].
    assert (Hfresh : transfers_ok (snd (match keys with
      | None => (Fail "relay key generation failed", a)
      | Some (privateKey, publicKey) =>
          let '(err, a) := prepareTransferLocked sv now
            (with_relay (transfer_of a p) (pq_RelayTaskID p) privateKey publicKey) a in
          match err with Ok _ => (Ok publicKey, a) | Fail e => (Fail e, a) end end))).
    { destruct keys as [[priv pub]|]; [|done]. destruct (Hkeys priv pub eq_refl) as [Hp1 Hp2].
      pose proof (prepare_locked_ok sv now
        (with_relay (transfer_of a p) (pq_RelayTaskID p) priv pub) a Ha) as Hl.
      destruct (prepareTransferLocked sv now _ a) as [[] ?]; apply Hl; apply Hval; auto. }
    destruct (transfers a !! tr_SnapshotID (transfer_of a p)) as [x|];
      [destruct (_ && negb (String.eqb (tr_RelayPublicKey x) ""))|]; [done|..];
      destruct (match keys with Some _ => _ | None => _ end) as [[] ?]; exact Hfresh.
  - pose proof (prepare_locked_ok sv now (transfer_of a p) a Ha) as Hl. unfold prepareTransfer.
    destruct (prepareTransferLocked sv now _ a) as [[] ?]; apply Hl;
      apply (Hval "" "" ""); by left.
Qed.

(** Every transfer call keeps the transfer table loadable: whatever the
    command, relay and receive handlers do, with failed writes included, each
    entry sits under its snapshot id and passes [validatePendingTransferState],
    so the next start-up does not reject it. *)
Theorem transfers_stay_loadable (a : Agent) (c : transferCall) :
  0 < cfg_NodeID (ag_Cfg a) -> call_ok a c -> transfers_ok a -> transfers_ok (do_transfer a c).
Proof.
  intros Hnode Hc Ha. destruct c as [sv now keys p|sv now s w t|sv s w tok now|sv now s r|sv now s|sv now s];
    cbn in Hc |- *.
  - destruct Hc. by apply prepare_receive_ok.
  - unfold relayTransfer. destruct (transfers a !! s) as [x|] eqn:Hx; [|done].
    destruct (_ || _); [done|]. pose proof (Ha s x Hx) as Hok.
    destruct (String.eqb_spec (tr_State x) "consumed") as [Hst|]; [|by destruct (negb _)].
    assert (Hr : tr_Receipt x = None) by (eapply valid_no_receipt; [done|by rewrite Hst]).
    pose proof (put_ok sv a s (move x "failed" now (tr_Receipt x)) Ha) as Hput.
    destruct (saveRuntimeStateLocked _ _) as [[] ?]; apply Hput; apply move_valid; try done;
      right; (split; [in_list|done]).
  - unfold consumeTransfer. destruct (transfers a !! s) as [x|] eqn:Hx; [|done].
    destruct (_ || _) eqn:Hg; [done|]. apply orb_false_iff in Hg as [Hg _]. b2p.
    pose proof (Ha s x Hx) as Hok.
    destruct (hex_decode _) as [want|]; [|done]. destruct (negb _); [done|]. destruct (negb _); [done|].
    assert (Hr : tr_Receipt x = None) by (eapply valid_no_receipt; [done|congruence]).
    pose proof (put_ok sv a s (move x "consumed" now (tr_Receipt x)) Ha) as Hput.
    destruct (saveRuntimeStateLocked _ _) as [[] ?]; apply Hput; apply move_valid; try done;
      right; (split; [in_list|done]).
  - unfold publishTransfer. destruct (transfers a !! s) as [x|] eqn:Hx; [|done].
    destruct (negb _); [done|]. apply put_ok; [done|]. apply move_valid; [by apply Ha|done|left; eauto].
  - unfold failTransferIfIncomplete. destruct (transfers a !! s) as [x|] eqn:Hx; [|done].
    destruct (str_in _ _) eqn:Hin; [|done]. pose proof (Ha s x Hx) as Hok. unfold str_in in Hin. b2p.
    apply put_ok; [done|]. apply move_valid; [done|done|]. right. split; [in_list|].
    eapply valid_no_receipt; [done|]. rewrite !elem_of_cons in Hin.
    intros He. rewrite He in Hin. destruct Hin as [?|[?|Hn]]; [done|done|by apply elem_of_nil in Hn].
  - unfold finishTransfer. destruct (transfers a !! s) as [x|] eqn:Hx; [|done].
    destruct Hc as [Hnow Hns]. apply put_ok; [done|]. apply move_valid; [by apply Ha|done|].
    right. split; [in_list|]. eapply valid_no_receipt; [by apply Ha|by apply Hns].
Qed.

(** ** Capabilities are used once *)

Definition rearms (c : transferCall) : bool := match c with CPrepare _ _ _ _ => true | _ => false end.

(** Not armed: no later consumption without a new prepare. *)
Definition disarmed (a : Agent) (s : string) : Prop :=
  forall t, transfers a !! s = Some t -> tr_State t <> "prepared".

Lemma put_disarmed sv (a : Agent) k s t :
  disarmed a s -> tr_State t <> "prepared" ->
  disarmed (snd (saveRuntimeStateLocked sv (put_transfer a k t))) s.
Proof.
  intros Ha Ht t'. rewrite save_transfers. unfold put_transfer, transfers. cbn.
  intros [[_ <-]|[_ Hl]]%lookup_insert_Some; [done|by apply Ha].
Qed.

Lemma do_transfer_disarmed (a : Agent) s c :
  rearms c = false -> disarmed a s -> disarmed (do_transfer a c) s.
Proof.
  intros Hr Ha. destruct c as [sv now keys p|sv now k w t|sv k w tok now|sv now k r|sv now k|sv now k];
    cbn in Hr |- *; [done|..].
  - unfold relayTransfer. destruct (transfers a !! k) as [x|]; [|done]. destruct (_ || _); [done|].
    destruct (String.eqb _ _); [|by destruct (negb _)].
    pose proof (put_disarmed sv a k s (move x "failed" now (tr_Receipt x)) Ha) as Hput.
    by destruct (saveRuntimeStateLocked _ _) as [[] ?]; apply Hput.
  - unfold consumeTransfer. destruct (transfers a !! k) as [x|]; [|done]. destruct (_ || _); [done|].
    destruct (hex_decode _) as [want|]; [|done]. destruct (negb _); [done|]. destruct (negb _); [done|].
    pose proof (put_disarmed sv a k s (move x "consumed" now (tr_Receipt x)) Ha) as Hput.
    by destruct (saveRuntimeStateLocked _ _) as [[] ?]; apply Hput.
  - unfold publishTransfer. destruct (transfers a !! k) as [x|]; [|done]. destruct (negb _); [done|].
    by apply put_disarmed.
  - unfold failTransferIfIncomplete. destruct (transfers a !! k) as [x|]; [|done].
    destruct (str_in _ _); [|done]. by apply put_disarmed.
  - unfold finishTransfer. destruct (transfers a !! k) as [x|]; [|done]. by apply put_disarmed.
Qed.

Lemma consume_inv sv s w token now (a a' : Agent) t :
  consumeTransfer sv s w token now a = (Ok t, a') ->
  exists x want, transfers a !! s = Some x /\ tr_WorkflowID x = w /\ tr_State x = "prepared" /\
    now < tr_ExpiresAt x /\ hex_decode (tr_CapabilityHash x) = Some want /\ want = sha256 token /\
    t = move x "consumed" now (tr_Receipt x) /\ transfers a' !! s = Some t /\
    ag_disk a' = Some (ag_state a').
Proof.
  unfold consumeTransfer. destruct (transfers a !! s) as [x|]; [|done].
  destruct (_ || _) eqn:Hg; [done|]. b2p.
  destruct (hex_decode _) as [want|] eqn:Hdec; [|done]. destruct (negb (_ =? 32)); [done|].
  destruct (negb (String.eqb want _)) eqn:Hw; [done|]. b2p.
  destruct sv; cbn [saveRuntimeStateLocked]; [|done]. set (b := with_disk _ _). intros E.
  assert (a' = b) as -> by congruence.
  assert (t = move x "consumed" now (tr_Receipt x)) as -> by congruence.
  exists x, want. unfold after in *. b2p. split_and!; try done.
  unfold b, transfers. cbn. apply lookup_insert_eq.
Qed.

(** A transfer capability is consumed at most once.  A successful
    [consumeTransfer] presented a token whose SHA-256 is the stored hash, for the
    right workflow, before expiry, and its effect is on disk; after it, whatever
    calls follow except a new prepare command, no token consumes that snapshot's
    capability again. *)
Theorem capability_single_use sv s w token now (a a' : Agent) t calls sv' w' token' now' :
  consumeTransfer sv s w token now a = (Ok t, a') ->
  forallb (fun c => negb (rearms c)) calls = true ->
  (exists x, transfers a !! s = Some x /\ tr_WorkflowID x = w /\ tr_State x = "prepared" /\
     now < tr_ExpiresAt x /\ hex_decode (tr_CapabilityHash x) = Some (sha256 token)) /\
  ag_disk a' = Some (ag_state a') /\
  is_ok (fst (consumeTransfer sv' s w' token' now' (foldl do_transfer a' calls))) = false.
Proof.
  intros E Hcalls.
  destruct (consume_inv _ _ _ _ _ _ _ _ E) as (x & want & H1 & H2 & H3 & H4 & H5 & -> & -> & H7 & H8).
  split_and!; [eauto 10|done|].
  assert (Hd : disarmed a' s) by (intros y Hy; assert (y = move x "consumed" now (tr_Receipt x)) as ->
    by congruence; done).
  clear E H7 H8. revert a' Hd Hcalls. induction calls as [|c calls IH]; intros a' Hd Hcalls; cbn.
  - destruct (consumeTransfer sv' s w' token' now' a') as [[y|e] a''] eqn:E; [|done].
    destruct (consume_inv _ _ _ _ _ _ _ _ E) as (z & _ & Hz & _ & Hst & _).
    by destruct (Hd z Hz).
  - cbn in Hcalls. apply andb_true_iff in Hcalls as [Hc Hcalls]. apply IH; [|done].
    apply do_transfer_disarmed; [|done]. by apply negb_true_iff in Hc.
Qed.

(** ** Published receipts *)

Lemma put_other sv (a : Agent) k s t x :
  k <> s -> transfers a !! s = Some x ->
  transfers (snd (saveRuntimeStateLocked sv (put_transfer a k t))) !! s = Some x.
Proof.
  intros Hne Hx. rewrite save_transfers. unfold put_transfer, transfers in *. cbn.
  by rewrite lookup_insert_ne.
Qed.

Lemma published_not_replaced now x t : tr_State x = "published" -> may_replace now x t = Some false.
Proof.
  intros Hx. unfold may_replace. rewrite Hx.
  change ("published" =? "prepared")%string with false.
  change ("published" =? "failed")%string with false.
  change ("published" =? "consumed")%string with false.
  by rewrite ?andb_false_r, ?andb_false_l, ?andb_false_r.
Qed.

Lemma prepare_locked_published sv now t (a : Agent) s x :
  transfers a !! s = Some x -> tr_State x = "published" ->
  transfers (snd (prepareTransferLocked sv now t a)) !! s = Some x.
Proof.
  intros Hx Hst. unfold prepareTransferLocked.
  destruct (decide (tr_SnapshotID t = s)) as [->|Hne].
  - rewrite Hx, published_not_replaced; done.
  - destruct (transfers a !! tr_SnapshotID t) as [y|]; [|by apply put_other].
    destruct (may_replace now y t) as [[]|]; [by apply put_other|done|done].
Qed.

Lemma prepare_receive_published sv now keys payload (a : Agent) s x :
  transfers a !! s = Some x -> tr_State x = "published" ->
  transfers (snd (prepareSnapshotReceive sv now keys payload a)) !! s = Some x.
Proof.
  intros Hx Hst. unfold prepareSnapshotReceive. destruct payload as [p|]; [|done].
  destruct (_ || _); [done|]. destruct (negb (String.eqb (pq_RelayTaskID p) "")).
  - unfold prepareRelayTransfer. destruct (negb _); [done|].
    assert (Hk : transfers (snd (match keys with
      | None => (Fail "relay key generation failed", a)
      | Some (privateKey, publicKey) =>
          let '(err, a) := prepareTransferLocked sv now
            (with_relay (transfer_of a p) (pq_RelayTaskID p) privateKey publicKey) a in
          match err with Ok _ => (Ok publicKey, a) | Fail e => (Fail e, a) end end)) !! s = Some x).
    { destruct keys as [[priv pub]|]; [|done].
      pose proof (prepare_locked_published sv now
        (with_relay (transfer_of a p) (pq_RelayTaskID p) priv pub) a s x Hx Hst) as Hl.
      by destruct (prepareTransferLocked sv now _ a) as [[] ?]. }
    destruct (transfers a !! tr_SnapshotID (transfer_of a p)) as [y|];
      [destruct (_ && negb (String.eqb (tr_RelayPublicKey y) ""))|]; [done|..];
      destruct (match keys with Some _ => _ | None => _ end) as [[] ?]; exact Hk.
  - unfold prepareTransfer. pose proof (prepare_locked_published sv now (transfer_of a p) a s x Hx Hst).
    by destruct (prepareTransferLocked sv now _ a) as [[] ?].
Qed.

(** A published transfer is final.  No prepare command, relay, consume,
    publish or failure of an incomplete attempt changes it, so the receipt the
    Controller reads is the same from then on; only [finishTransfer], which has
    no state guard, is excluded. *)
Theorem published_is_final (a : Agent) s t w c :
  transfers a !! s = Some t -> tr_State t = "published" -> tr_WorkflowID t = w ->
  (forall sv now, c <> CFinish sv now s) ->
  transfers (do_transfer a c) !! s = Some t /\
  snapshotReceipt (do_transfer a c) w s = tr_Receipt t.
Proof.
  intros Ht Hst Hw Hc. enough (Hk : transfers (do_transfer a c) !! s = Some t).
  { split; [done|]. unfold snapshotReceipt. by rewrite Hk, Hw, Hst, !String.eqb_refl. }
  destruct c as [sv now keys p|sv now k w' tk|sv k w' tok now|sv now k r|sv now k|sv now k]; cbn.
  - by apply prepare_receive_published.
  - unfold relayTransfer. destruct (transfers a !! k) as [x|] eqn:Hx; [|done]. destruct (_ || _); [done|].
    destruct (String.eqb_spec (tr_State x) "consumed") as [Hx'|]; [|by destruct (negb _)].
    pose proof (put_other sv a k s (move x "failed" now (tr_Receipt x)) t) as Hput.
    assert (Hne : k <> s) by (intros ->; congruence).
    by destruct (saveRuntimeStateLocked _ _) as [[] ?]; apply Hput.
  - unfold consumeTransfer. destruct (transfers a !! k) as [x|] eqn:Hx; [|done].
    destruct (_ || _) eqn:Hg; [done|]. apply orb_false_iff in Hg as [Hg _]. b2p.
    destruct (hex_decode _) as [want|]; [|done]. destruct (negb _); [done|]. destruct (negb _); [done|].
    pose proof (put_other sv a k s (move x "consumed" now (tr_Receipt x)) t) as Hput.
    assert (Hne : k <> s) by (intros ->; congruence).
    by destruct (saveRuntimeStateLocked _ _) as [[] ?]; apply Hput.
  - unfold publishTransfer. destruct (transfers a !! k) as [x|] eqn:Hx; [|done].
    destruct (String.eqb_spec (tr_State x) "consumed") as [Hx'|]; [|done].
    apply put_other; [intros ->; congruence|done].
  - unfold failTransferIfIncomplete. destruct (transfers a !! k) as [x|] eqn:Hx; [|done].
    destruct (str_in _ _) eqn:Hin; [|done]. unfold str_in in Hin. b2p.
    apply put_other; [|done]. intros ->. assert (x = t) as -> by congruence. rewrite Hst in Hin.
    repeat (apply elem_of_cons in Hin as [Hin|Hin]; [discriminate|]). by apply elem_of_nil in Hin.
  - unfold finishTransfer. destruct (transfers a !! k) as [x|]; [|done].
    apply put_other; [|done]. intros ->. by apply (Hc sv now).
Qed.

(** ** The result cache *)

Lemma foldr_delete_lookup (l : list (string * cachedCommandResult)) (m : gmap string cachedCommandResult) k :
  foldr (fun old m => delete (fst old) m) m l !! k = if decide (k ∈ l.*1) then None else m !! k.
Proof.
  induction l as [|[x v] l IH]; cbn; [done|].
  destruct (decide (x = k)) as [->|Hne].
  - rewrite lookup_delete_eq, decide_True; [done|apply list_elem_of_here].
  - rewrite lookup_delete_ne by done. rewrite IH.
    destruct (decide (k ∈ l.*1)) as [Hin|Hin].
    + rewrite decide_True; [done|by apply list_elem_of_further].
    + rewrite decide_False; [done|]. intros [?|?]%elem_of_cons; congruence.
Qed.

Lemma foldr_delete_size (l : list (string * cachedCommandResult)) (m : gmap string cachedCommandResult) :
  NoDup l.*1 -> (forall k, k ∈ l.*1 -> is_Some (m !! k)) ->
  size (foldr (fun old m => delete (fst old) m) m l) = (size m - length l)%nat.
Proof.
  induction l as [|[x v] l IH]; intros Hnd Hin; cbn in *; [lia|].
  apply NoDup_cons in Hnd as [Hx Hnd]. rewrite map_size_delete, foldr_delete_lookup.
  rewrite decide_False by done. destruct (Hin x) as [y ->]; [apply list_elem_of_here|].
  rewrite IH; [lia|done|]. intros k Hk. apply Hin. by apply list_elem_of_further.
Qed.

(** The cache of command results is bounded and drops the oldest.  After
    [rememberResult] it has at most 1000 entries if it had at most 1000 before,
    no other entry changes, and every dropped entry is at least as old as every
    entry kept.  [sortSlice] is any sort by completion time. *)
Theorem remember_result_bounded sv sortSlice id r (a : Agent) :
  (forall l, sortSlice l ≡ₚ l) -> (forall l, StronglySorted older (sortSlice l)) ->
  (size (rs_Completed (ag_state a)) <= maxCompleted)%nat ->
  let all := <[id := r]> (rs_Completed (ag_state a)) in
  let kept := rs_Completed (ag_state (snd (rememberResult sv sortSlice id r a))) in
  (size kept <= maxCompleted)%nat /\ kept ⊆ all /\
  forall k v k' v', all !! k = Some v -> kept !! k = None -> kept !! k' = Some v' ->
    cc_CompletedAt v <= cc_CompletedAt v'.
Proof.
  intros Hperm Hsort Hsize all kept. unfold kept, rememberResult. rewrite save_state.
  cbn [ag_state with_state rs_Completed with_Completed]. fold all.
  assert (Hall : (size all <= S maxCompleted)%nat).
  { unfold all. destruct (rs_Completed (ag_state a) !! id) eqn:Hi.
    - rewrite map_size_insert_Some by eauto. lia.
    - rewrite map_size_insert_None by done. lia. }
  destruct (Nat.ltb_spec maxCompleted (size all)) as [Hgt|Hle].
  2: { split_and!; [lia|done|]. intros k v k' v' H1 H2 _. congruence. }
  set (sorted := sortSlice (map_to_list all)). set (n := (size all - maxCompleted)%nat).
  assert (Hp : sorted ≡ₚ map_to_list all) by apply Hperm.
  assert (Hnd : NoDup sorted.*1) by (rewrite Hp; apply NoDup_fst_map_to_list).
  assert (Hlen : length sorted = size all) by (by rewrite Hp, length_map_to_list).
  split_and!.
  - rewrite foldr_delete_size.
    + rewrite length_take. lia.
    + rewrite fmap_take. eapply sublist_NoDup; [exact Hnd|apply sublist_take].
    + intros k ([k' v] & -> & Hin%elem_of_take)%list_elem_of_fmap. destruct Hin as (j & Hj & _).
      apply list_elem_of_lookup_2 in Hj. rewrite Hp in Hj. exists v. by apply elem_of_map_to_list.
  - apply map_subseteq_spec. intros k v. rewrite foldr_delete_lookup. by case_decide.
  - intros k v k' v' Hk. rewrite !foldr_delete_lookup.
    case_decide as Hd; [|congruence]. intros _. case_decide as Hd'; [done|]. intros Hk'.
    apply list_elem_of_fmap in Hd as ([k1 v1] & E1 & Hin). cbn in E1. subst k1.
    assert (v1 = v) as ->.
    { apply elem_of_take in Hin as (j & Hj & _). apply list_elem_of_lookup_2 in Hj.
      rewrite Hp in Hj. apply elem_of_map_to_list in Hj. congruence. }
    assert (Hdrop : (k', v') ∈ drop n sorted).
    { assert (Hs : (k', v') ∈ take n sorted ++ drop n sorted).
      { rewrite take_drop, Hp. by apply elem_of_map_to_list. }
      apply elem_of_app in Hs as [Hs|Hs]; [|done]. exfalso. apply Hd'.
      apply list_elem_of_fmap. by exists (k', v'). }
    pose proof (Hsort (map_to_list all)) as Hss. fold sorted in Hss.
    rewrite <- (take_drop n sorted) in Hss.
    exact (StronglySorted_app_1_elem_of _ _ _ _ _ Hss Hin Hdrop).
Qed.

(** ** Credential rotation *)

Lemma raise_credential g s : rs_Credential (raise_generation g s) = rs_Credential s.
Proof. unfold raise_generation. by destruct (_ <? _). Qed.

Lemma save_credential sv (a : Agent) :
  rs_Credential (ag_state (snd (saveRuntimeStateLocked sv a))) = rs_Credential (ag_state a).
Proof. by rewrite save_state. Qed.

(** Credential rotation moves forward and can be retried.  From a loadable
    credential, activating the pending one switches the agent to exactly the
    pending key and to a strictly higher version, leaves nothing pending, keeps
    the credential loadable, never lowers the highest Controller generation, and
    a repeated activation succeeds without changing anything. *)
Theorem activation_forward sv cfgSave version generation (a a' : Agent) :
  credential_loads (rs_Credential (ag_state a)) = true -> 0 < version ->
  cr_PendingPSK (rs_Credential (ag_state a)) <> "" ->
  cr_PendingVersion (rs_Credential (ag_state a)) = version ->
  cr_PendingGeneration (rs_Credential (ag_state a)) = generation ->
  activatePendingControllerCredential sv cfgSave version generation a = (Ok tt, a') ->
  let c := rs_Credential (ag_state a) in
  let c' := rs_Credential (ag_state a') in
  controllerCredential a' = (cr_PendingPSK c, version) /\ cr_CurrentVersion c < cr_CurrentVersion c' /\
  cr_PendingPSK c' = "" /\ credential_loads c' = true /\
  rs_HighestGeneration (ag_state a) <= rs_HighestGeneration (ag_state a') /\
  ag_disk a' = Some (ag_state a') /\
  forall sv' cfgSave', activatePendingControllerCredential sv' cfgSave' version generation a' = (Ok tt, a').
Proof.
  intros Hl Hpos Hp Hv Hg. unfold activatePendingControllerCredential.
  rewrite Hv, Hg, !Z.eqb_refl. apply String.eqb_neq in Hp as Hpe. rewrite Hpe. cbn [negb orb].
  destruct cfgSave; cbn [negb]; [|done]. destruct sv; cbn [saveRuntimeStateLocked]; [|done].
  set (b := with_disk _ _). intros E. assert (a' = b) as -> by congruence. clear E.
  set (c := rs_Credential (ag_state a)) in *.
  assert (Hc : rs_Credential (ag_state b) =
    {| cr_CurrentPSK := cr_PendingPSK c; cr_CurrentVersion := version;
       cr_CurrentGeneration := generation; cr_PendingPSK := "";
       cr_PendingVersion := 0; cr_PendingGeneration := 0; cr_PendingExpiresAt := 0 |}).
  { unfold b. cbn. by rewrite raise_credential. }
  unfold credential_loads in Hl. rewrite Hpe in Hl. cbn [negb andb] in Hl.
  apply andb_true_iff in Hl as [_ Hl2]. apply negb_true_iff, orb_false_iff in Hl2 as [Hl2 _].
  apply orb_false_iff in Hl2 as [Hl2 _]. apply Z.leb_gt in Hl2.
  cbn zeta. unfold controllerCredential. rewrite Hc. cbn [cr_CurrentPSK cr_CurrentVersion
    cr_CurrentGeneration cr_PendingPSK cr_PendingVersion cr_PendingGeneration]. rewrite Hpe.
  split_and!; [done|lia|done| | |done|].
  - unfold credential_loads. cbn. rewrite Hpe. cbn. rewrite andb_true_r, negb_true_iff.
    by apply Z.leb_gt.
  - unfold b. cbn. unfold raise_generation. destruct (_ <? _) eqn:Hr; b2p; cbn in *; lia.
  - intros sv' cfg'. cbn. by rewrite !Z.eqb_refl.
Qed.

(** ** Start-up *)

Lemma rearm_valid nodeID now k t :
  now <> 0 -> transfer_ok nodeID k t -> transfer_ok nodeID k (rearm now t).
Proof.
  intros Hnow Ht. unfold rearm. destruct (String.eqb_spec (tr_State t) "consumed") as [Hs|]; [|done].
  apply move_valid; [done|done|]. right.
  split; [destruct (after _ _); in_list|]. eapply valid_no_receipt; [done|by rewrite Hs].
Qed.

Lemma load_mode_idem now now' m :
  mode_loads (load_mode now m) = true -> load_mode now' (load_mode now m) = load_mode now m.
Proof.
  intros Hl. assert (Hv : validNodeControlMode (cm_Mode (load_mode now m)) = true).
  { unfold mode_loads in Hl. b2p. done. }
  assert (Hind : (String.eqb (cm_Mode (load_mode now m)) NodeModeIndependent
    && (cm_ConsecutivePeerWitnessFails (load_mode now m) <=? 0)) = false).
  { unfold load_mode. set (m1 := if String.eqb (cm_Mode m) "" then _ else m).
    destruct (String.eqb (cm_Mode m1) NodeModeIndependent && _) eqn:E; [done|exact E]. }
  set (m' := load_mode now m) in *. unfold load_mode.
  destruct (String.eqb_spec (cm_Mode m') "") as [He|_]; [by rewrite He in Hv|]. by rewrite Hind.
Qed.

Lemma load_credential_idem cfg c : load_credential cfg (load_credential cfg c) = load_credential cfg c.
Proof.
  unfold load_credential at 2 3. destruct (_ && _) eqn:E; [|unfold load_credential; by rewrite E].
  apply andb_true_iff in E as [_ E]. apply negb_true_iff in E.
  unfold load_credential. cbn. by rewrite E.
Qed.

Lemma forallb_map_to_list `{Countable K} {V} (p : K * V -> bool) (m : gmap K V) :
  forallb p (map_to_list m) = true <-> forall k v, m !! k = Some v -> p (k, v) = true.
Proof.
  rewrite forallb_forall. split.
  - intros Hp k v Hv. apply Hp, list_elem_of_In. by apply elem_of_map_to_list.
  - intros Hp [k v] Hin. apply Hp. by apply elem_of_map_to_list, list_elem_of_In.
Qed.

(** What a successful start leaves: every check passed, the normalised state in
    memory and on disk. *)
Lemma load_inv e (a a' : Agent) :
  loadRuntimeState e a = (Ok tt, a') ->
  se_save e = true /\ ag_Cfg a' = ag_Cfg a /\ ag_disk a' = Some (ag_state a') /\
  forallb (transfer_loads (ag_Cfg a) (se_recover e)) (map_to_list (rs_Transfers (ag_state a))) = true /\
  forallb (cancellation_loads (se_now e)) (map_to_list (rs_CancelledBackups (ag_state a))) = true /\
  forallb (fun kv => validOwnershipEntry (fst kv) (snd kv))
    (map_to_list (rs_ActivityOwnership (ag_state a))) = true /\
  forallb (fun kv => validTakeoverEntry (fst kv) (snd kv))
    (map_to_list (rs_OwnershipTakeovers (ag_state a))) = true /\
  validateAgentActivityLeaseState (rs_ActivityLeases (ag_state a)) = Ok tt /\
  credential_loads (load_credential (ag_Cfg a) (rs_Credential (ag_state a))) = true /\
  mode_loads (load_mode (se_now e) (rs_ControlMode (ag_state a))) = true /\
  exists worker, ag_state a' =
    {| rs_WorkerID := worker;
       rs_HighestGeneration :=
         Z.max (cfg_ControllerGeneration (ag_Cfg a)) (rs_HighestGeneration (ag_state a));
       rs_Completed := rs_Completed (ag_state a);
       rs_Transfers := rearm (se_now e) <$> rs_Transfers (ag_state a);
       rs_ControlMode := load_mode (se_now e) (rs_ControlMode (ag_state a));
       rs_Credential := load_credential (ag_Cfg a) (rs_Credential (ag_state a));
       rs_ActivityOwnership := rs_ActivityOwnership (ag_state a);
       rs_OwnershipTakeovers := rs_OwnershipTakeovers (ag_state a);
       rs_ActivityLeases := rs_ActivityLeases (ag_state a);
       rs_CancelledBackups := live_cancellations (se_now e) (rs_CancelledBackups (ag_state a)) |}.
Proof.
  unfold loadRuntimeState.
  destruct (forallb (transfer_loads _ _) _) eqn:H1; cbn [negb]; [|done].
  destruct (forallb (cancellation_loads _) _) eqn:H2; cbn [negb]; [|done].
  destruct (forallb (fun kv => validOwnershipEntry _ _) _) eqn:H3; cbn [negb]; [|done].
  destruct (forallb (fun kv => validTakeoverEntry _ _) _) eqn:H4; cbn [negb]; [|done].
  destruct (validateAgentActivityLeaseState _) as [[]|] eqn:H5; cbn [is_ok negb]; [|done].
  destruct (if String.eqb (rs_WorkerID _) "" then _ else _) as [worker|]; [|done].
  destruct (credential_loads _) eqn:H6; cbn [negb]; [|done].
  destruct (mode_loads _) eqn:H7; cbn [negb]; [|done].
  destruct (se_save e); cbn [saveRuntimeStateLocked]; [|done].
  set (b := with_disk _ _). intros E. assert (a' = b) as -> by congruence.
  split_and!; try done. by exists worker.
Qed.

(** A node that started once starts again.  If [loadRuntimeState] accepted
    the persisted state, then after a crash the file it wrote is accepted by every
    later start whose clock is not behind, whose file-system recovery and write
    succeed and which can generate a worker id; nothing is repaired twice: mode
    and credential are as the first start left them. *)
Theorem start_again (e e' : startEnv) (a a' : Agent) (fresh : agentRuntimeState) :
  loadRuntimeState e a = (Ok tt, a') ->
  0 < se_now e -> se_now e <= se_now e' -> (forall t, se_recover e' t = true) ->
  is_Some (se_workerID e') -> se_save e' = true ->
  exists a'', loadRuntimeState e' (restart a' fresh) = (Ok tt, a'') /\
    mode_of a'' = mode_of a' /\ rs_Credential (ag_state a'') = rs_Credential (ag_state a') /\
    rs_ActivityOwnership (ag_state a'') = rs_ActivityOwnership (ag_state a').
Proof.
  intros E Hnow Hlater Hrec [wid Hwid] Hsave.
  destruct (load_inv _ _ _ E) as (_ & Hcfg & Hdisk & H1 & H2 & H3 & H4 & H5 & H6 & H7 & worker & Hst).
  unfold restart. rewrite Hdisk. cbn [default]. set (r := with_nonces _ _).
  assert (Hr : ag_state r = ag_state a') by done. assert (Hrc : ag_Cfg r = ag_Cfg a) by done.
  unfold loadRuntimeState. rewrite Hr, Hrc, Hst. cbn [rs_Transfers rs_CancelledBackups
    rs_ActivityOwnership rs_OwnershipTakeovers rs_ActivityLeases rs_WorkerID rs_Credential
    rs_ControlMode rs_HighestGeneration rs_Completed].
  rewrite H3, H4, H5, load_credential_idem, H6, load_mode_idem, H7 by done.
  assert (H1' : forallb (transfer_loads (ag_Cfg a) (se_recover e'))
    (map_to_list (rearm (se_now e) <$> rs_Transfers (ag_state a))) = true).
  { apply forallb_map_to_list. intros k t (t0 & <- & Ht)%lookup_fmap_Some.
    rewrite forallb_map_to_list in H1. specialize (H1 k t0 Ht). unfold transfer_loads in *. b2p.
    rewrite Hrec, orb_true_r, andb_true_r.
    destruct (validatePendingTransferState t0 _) as [[]|] eqn:Hv; [|done].
    destruct (rearm_valid (cfg_NodeID (ag_Cfg a)) (se_now e) k t0) as [Hk Hv']; [lia|by split|].
    rewrite Hv'. cbn. rewrite andb_true_r. by apply String.eqb_eq. }
  assert (H2' : forallb (cancellation_loads (se_now e'))
    (map_to_list (live_cancellations (se_now e) (rs_CancelledBackups (ag_state a)))) = true).
  { apply forallb_map_to_list. intros k t [Ht _]%map_lookup_filter_Some.
    rewrite forallb_map_to_list in H2. specialize (H2 k t Ht). unfold cancellation_loads, after in *.
    cbn in *. b2p. rewrite !andb_true_iff, !negb_true_iff. split_and!; [by apply Z.leb_gt|done|].
    apply Z.ltb_ge. lia. }
  rewrite H1', H2', Hwid, Hsave. cbn [negb is_ok].
  destruct (String.eqb worker ""); cbn [saveRuntimeStateLocked]; eexists; split; [reflexivity| |reflexivity|];
    unfold mode_of; cbn; rewrite Hst; done.
Qed.

End RuntimeState.

(** ** A stale failure report, and witnesses *)

#[local] Existing Instance ascii_tables.

Definition uuid_w : string := "00000000-0000-4000-8000-00000000000a".
Definition uuid_s : string := "00000000-0000-4000-8000-00000000000b".

Definition demo_payload (token : string) (expires : time) : PrepareSnapshotReceiveRequest :=
  {| pq_WorkflowID := uuid_w; pq_SnapshotID := uuid_s; pq_GlobalUserID := 7; pq_Handle := "alice";
     pq_DestinationKind := "restore"; pq_SourceNodeID := 2; pq_ActivityEpoch := 1;
     pq_CapabilityHash := sha256_hex token; pq_ExpiresAt := expires; pq_RelayTaskID := "" |}.

Definition demo_receipt : SnapshotTransferReceipt :=
  {| rc_OK := true; rc_SnapshotID := uuid_s; rc_ManifestSHA256 := ""; rc_ArchiveSHA256 := "";
     rc_FileCount := 1; rc_TotalBytes := 1; rc_RelayPending := false |}.

(** A receive attempt starts, its capability expires while the upload is still
    running, the Controller prepares the restore again, the second attempt
    publishes, and only then the first attempt reports its failure. *)
Definition stale_calls : list transferCall :=
  [CPrepare true demo_now None (Some (demo_payload "one" (demo_now + Hour)));
   CConsume true uuid_s uuid_w "one" (demo_now + Minute);
   CPrepare true (demo_now + 2 * Hour) None (Some (demo_payload "two" (demo_now + 3 * Hour)));
   CConsume true uuid_s uuid_w "two" (demo_now + 2 * Hour + Minute);
   CPublish true (demo_now + 2 * Hour + 2 * Minute) uuid_s demo_receipt;
   CFinish true (demo_now + 2 * Hour + 3 * Minute) uuid_s].

Definition demo_start (now : time) : startEnv :=
  {| se_now := now; se_workerID := Some "w"; se_recover := fun _ => true; se_save := true |}.

(** The missing state guard of [finishTransfer] can keep the agent from
    starting.  After the run [stale_calls] the published receipt has been moved
    to state "failed", [loadRuntimeState] rejects the file it finds at the next
    start, and the start fails although every write and every check of the run
    succeeded. *)
Theorem stale_finish_blocks_start :
  let a := foldl do_transfer demo_compute stale_calls in
  (exists t, transfers a !! uuid_s = Some t /\ tr_State t = "failed" /\ tr_Receipt t = Some demo_receipt) /\
  fst (loadRuntimeState (demo_start (demo_now + 3 * Hour)) (restart a initial_runtime_state)) =
    Fail "invalid persisted snapshot transfer".
Proof.
  split.
  - eexists. vm_compute. split_and!; reflexivity.
  - vm_compute. reflexivity.
Qed.

Lemma demo_no_transfers (urls : list string) (id : Z) : transfers_ok (demo_agent id urls).
Proof. intros k t Ht. unfold transfers in Ht. cbn in Ht. by rewrite lookup_empty in Ht. Qed.

Lemma transfers_stay_loadable_witness :
  transfers_ok (do_transfer demo_compute
    (CPrepare true demo_now None (Some (demo_payload "one" (demo_now + Hour))))).
Proof.
  apply (transfers_stay_loadable demo_compute
    (CPrepare true demo_now None (Some (demo_payload "one" (demo_now + Hour))))).
  - reflexivity.
  - split; [reflexivity|discriminate].
  - apply demo_no_transfers.
Defined.

Definition demo_armed : Agent :=
  do_transfer demo_compute (CPrepare true demo_now None (Some (demo_payload "one" (demo_now + Hour)))).

Lemma capability_single_use_witness :
  exists t a', consumeTransfer true uuid_s uuid_w "one" (demo_now + Minute) demo_armed = (Ok t, a') /\
    is_ok (fst (consumeTransfer true uuid_s uuid_w "one" (demo_now + 2 * Minute)
      (foldl do_transfer a' [CFailIncomplete true (demo_now + Minute) uuid_s]))) = false.
Proof.
  assert (Hok : is_ok (fst (consumeTransfer true uuid_s uuid_w "one" (demo_now + Minute) demo_armed))
    = true) by (vm_compute; reflexivity).
  destruct (consumeTransfer true uuid_s uuid_w "one" (demo_now + Minute) demo_armed) as [[t|m] a'] eqn:E;
    [|discriminate Hok].
  exists t, a'. split; [reflexivity|].
  exact (proj2 (proj2 (capability_single_use true uuid_s uuid_w "one" (demo_now + Minute) demo_armed a' t
    [CFailIncomplete true (demo_now + Minute) uuid_s] true uuid_w "one" (demo_now + 2 * Minute)
    E eq_refl))).
Defined.

Definition demo_published : Agent := foldl do_transfer demo_compute (take 5 stale_calls).

Lemma published_is_final_witness :
  exists t, transfers demo_published !! uuid_s = Some t /\
    snapshotReceipt (do_transfer demo_published (CFailIncomplete true demo_now uuid_s)) uuid_w uuid_s
    = tr_Receipt t.
Proof.
  assert (Hs : (fun t => (tr_State t, tr_WorkflowID t)) <$> (transfers demo_published !! uuid_s)
    = Some ("published", uuid_w)%string) by (vm_compute; reflexivity).
  destruct (transfers demo_published !! uuid_s) as [t|] eqn:Ht; [|discriminate Hs].
  cbn [fmap option_fmap option_map] in Hs.
  assert (H1 : tr_State t = "published") by congruence.
  assert (H2 : tr_WorkflowID t = uuid_w) by congruence.
  exists t. split; [reflexivity|].
  exact (proj2 (published_is_final demo_published uuid_s t uuid_w (CFailIncomplete true demo_now uuid_s)
    Ht H1 H2 ltac:(discriminate))).
Defined.

Definition demo_result (t : time) : cachedCommandResult :=
  {| cc_Succeeded := true; cc_Result := "{}"; cc_ControllerGeneration := 1; cc_CompletedAt := t |}.

#[local] Instance older_dec x y : Decision (older x y).
Proof. unfold older. apply _. Defined.
#[local] Instance older_trans : Transitive older.
Proof. intros x y z. unfold older. lia. Qed.
#[local] Instance older_total : Total older.
Proof. intros x y. unfold older. lia. Qed.

Lemma remember_result_bounded_witness :
  let kept := rs_Completed (ag_state (snd (rememberResult true (merge_sort older) "c"
                (demo_result demo_now) demo_compute))) in
  (size kept <= maxCompleted)%nat.
Proof.
  refine (proj1 (remember_result_bounded true (merge_sort older) "c" (demo_result demo_now) demo_compute
    _ _ _)).
  - intros l. apply merge_sort_Permutation.
  - intros l. apply StronglySorted_merge_sort; apply _.
  - apply Nat.leb_le. vm_compute. reflexivity.
Defined.

Definition demo_rotating : Agent :=
  snd (persistPendingControllerCredential true demo_now "new" 2 3 (demo_now + Hour) demo_compute).

Lemma activation_forward_witness :
  exists a', activatePendingControllerCredential true true 2 3 demo_rotating = (Ok tt, a') /\
    controllerCredential a' = ("new", 2).
Proof.
  eexists. split; [reflexivity|].
  refine (proj1 (activation_forward true true 2 3 demo_rotating _ _ _ _ _ _ _)); try reflexivity.
  discriminate.
Defined.

Lemma start_again_witness :
  exists a', loadRuntimeState (demo_start demo_now) demo_armed = (Ok tt, a') /\
  exists a'', loadRuntimeState (demo_start (demo_now + Hour)) (restart a' initial_runtime_state)
    = (Ok tt, a'').
Proof.
  assert (Hok : is_ok (fst (loadRuntimeState (demo_start demo_now) demo_armed)) = true)
    by (vm_compute; reflexivity).
  destruct (loadRuntimeState (demo_start demo_now) demo_armed) as [[[]|m] a'] eqn:E; [|discriminate Hok].
  exists a'. split; [reflexivity|].
  destruct (start_again (demo_start demo_now) (demo_start (demo_now + Hour)) demo_armed a'
    initial_runtime_state E) as (a'' & H1 & _).
  - reflexivity.
  - vm_compute. discriminate.
  - reflexivity.
  - eexists. reflexivity.
  - reflexivity.
  - exists a''. exact H1.
Defined.
