(* ===== verification/AgentCommands.v ===== *)
(** * The Agent's command channel

    src/internal/agent/commands.go: a polled command is opened with the node's secret,
    runs once, and its result is kept and delivered until the Controller has it.

    [executeCommand] ends in file system, process and adapter work; what that work
    returns is an argument.  JSON decoding of the envelope is [unmarshal_envelope]. *)

From Stdlib Require Import ZArith Lia Ascii String.
From stdpp Require Import base list gmap strings pretty.
From S2P Require Import Prelude GoStrings Sha256 AgentState Protocol Base64 RelayCrypto Secrets ControlMode RuntimeState.
#[local] Open Scope Z_scope.

(** [protocol.AgentCommand], what a lease hands out. *)
Record AgentCommandMessage := {
  am_ID : string;
  am_OperationID : string;
  am_CommandType : string;
  am_EncryptedPayload : string;
  am_PayloadSHA256 : string;
  am_Attempt : Z;
  am_ControllerGeneration : Z;
  am_LeaseUntil : time;
  am_ExpiresAt : time
}.

Record FinishCommandRequest := {
  fr_WorkerID : string;
  fr_ControllerGeneration : Z;
  fr_Succeeded : bool;
  fr_Result : string
}.

Definition commandSlots : nat := 8.
Definition maxReportAttempts : nat := 8.

Definition shouldCacheCommandResult (commandType : string) : bool :=
  negb (String.eqb commandType "read_conflict_evidence_page").

Definition quote : string := String (byte_of 34) EmptyString.
(** [json.Marshal] of an envelope; base64 needs no escapes. *)
Definition marshal_envelope (version : Z) (ciphertext : string) : string :=
  "{" +:+ quote +:+ "version" +:+ quote +:+ ":" +:+ pretty version +:+ "," +:+ quote +:+ "ciphertext" +:+ quote
  +:+ ":" +:+ quote +:+ ciphertext +:+ quote +:+ "}".

Section AgentCommands.
Context `{RelayPrimitives} (unmarshal_envelope : string -> option (Z * string)).

Definition decryptCommand (command : AgentCommandMessage) (a : Agent) : result bytes :=
  match unmarshal_envelope (am_EncryptedPayload command) with
  | None => Fail "invalid envelope"
  | Some (version, ciphertext) =>
      if (negb (version =? 1) && negb (version =? 2)) || String.eqb ciphertext "" then Fail "invalid envelope"
      else
      let '(psk, _) := controllerCredential a in
      match Decrypt (bytes_of (DeriveAgentCommandKey psk)) ciphertext with
      | Fail e => Fail e
      | Ok plaintext =>
      match hex_decode (am_PayloadSHA256 command) with
      | None => Fail "invalid payload digest"
      | Some want =>
          if negb (slen want =? 32) then Fail "invalid payload digest"
          else
          let got := if version =? 1 then sha256 (of_bytes plaintext)
                     else hmac_sha256 (DeriveAgentCommandAuthKey psk) (of_bytes plaintext) in
          if negb (String.eqb got want) then Fail "payload digest mismatch" else Ok plaintext
      end end
  end.

(** [run] is the branch of the switch for the command type and the opened payload. *)
Definition executeCommand (run : string -> string -> bytes -> bool * string) (command : AgentCommandMessage) (a : Agent)
  : bool * string :=
  match decryptCommand command a with
  | Fail _ => (false, "{" +:+ quote +:+ "ok" +:+ quote +:+ ":false," +:+ quote +:+ "code" +:+ quote +:+ ":" +:+ quote
                      +:+ "invalid_command_payload" +:+ quote +:+ "}")
  | Ok plaintext => run (am_CommandType command) (am_ID command) plaintext
  end.
End AgentCommands.

(** ** Delivering the result *)

(** One attempt: whether the Controller confirmed, and the highest generation the
    Agent knows afterwards. *)
Inductive delivery := Delivered | Superseded | Unconfirmed (attempts : nat).

Fixpoint deliver (generation : Z) (attempts : list (bool * Z)) (tried : nat) : delivery :=
  match attempts with
  | [] => Unconfirmed tried
  | (confirmed, highest) :: rest =>
      if (maxReportAttempts <=? tried)%nat then Unconfirmed tried
      else if confirmed : bool then Delivered
      else if generation <? highest then Superseded
      else deliver generation rest (S tried)
  end.

(** The pause after an unconfirmed attempt. *)
Definition next_backoff (backoff : duration) : duration :=
  if backoff <? 30 * Second then backoff * 2 else backoff.

Definition finish_request (workerID : string) (r : cachedCommandResult) : FinishCommandRequest :=
  {| fr_WorkerID := workerID; fr_ControllerGeneration := cc_ControllerGeneration r;
     fr_Succeeded := cc_Succeeded r; fr_Result := cc_Result r |}.

(** ** Commands in flight

    The commands a process is working on, by id: [beginCommand] admits one execution
    per id, a slot admits eight.  The steps are those of [pollAndRunCommand] and
    [executeAndReportCommand]; between them the steps of other commands run. *)

Inductive command_phase := Begun | Slotted | Executing | Reporting (r : cachedCommandResult).

Record channel := {
  cn_agent : Agent;
  cn_running : gmap string command_phase;
  cn_started : list string
}.

Definition holds_slot (ph : command_phase) : bool := match ph with Begun => false | _ => true end.
Definition slots_used (m : gmap string command_phase) : nat :=
  size (filter (fun kv : string * command_phase => holds_slot kv.2 = true) m).

Section Channel.
Context (sortSlice : list (string * cachedCommandResult) -> list (string * cachedCommandResult)).
Context (commandType : string -> string).

Definition cacheResult (id : string) : bool := shouldCacheCommandResult (commandType id).

Inductive channel_step : channel -> channel -> Prop :=
(** [beginCommand]; a command already running is only acknowledged again *)
| step_begin a m l id : m !! id = None ->
    channel_step {| cn_agent := a; cn_running := m; cn_started := l |}
                 {| cn_agent := a; cn_running := <[id := Begun]> m; cn_started := l |}
(** the acknowledgement fails, or the process stops before a slot is free *)
| step_give_up a m l id : m !! id = Some Begun ->
    channel_step {| cn_agent := a; cn_running := m; cn_started := l |}
                 {| cn_agent := a; cn_running := delete id m; cn_started := l |}
| step_slot a m l id : m !! id = Some Begun -> (slots_used m < commandSlots)%nat ->
    channel_step {| cn_agent := a; cn_running := m; cn_started := l |}
                 {| cn_agent := a; cn_running := <[id := Slotted]> m; cn_started := l |}
(** the result is there already *)
| step_cached a m l id r : m !! id = Some Slotted -> cacheResult id = true -> cachedResult a id = Some r ->
    channel_step {| cn_agent := a; cn_running := m; cn_started := l |}
                 {| cn_agent := a; cn_running := <[id := Reporting r]> m; cn_started := l |}
| step_execute a m l id : m !! id = Some Slotted -> (cacheResult id = true -> cachedResult a id = None) ->
    channel_step {| cn_agent := a; cn_running := m; cn_started := l |}
                 {| cn_agent := a; cn_running := <[id := Executing]> m; cn_started := l ++ [id] |}
(** the result is remembered if it is to be, and on disk if [sv] *)
| step_complete sv a a' out m l id r : m !! id = Some Executing ->
    (if cacheResult id then rememberResult sv sortSlice id r a else (Ok tt, a)) = (out, a') ->
    channel_step {| cn_agent := a; cn_running := m; cn_started := l |}
                 {| cn_agent := a'; cn_running := <[id := Reporting r]> m; cn_started := l |}
(** [endCommand] after delivery, or after it was given up *)
| step_end a m l id r : m !! id = Some (Reporting r) ->
    channel_step {| cn_agent := a; cn_running := m; cn_started := l |}
                 {| cn_agent := a; cn_running := delete id m; cn_started := l |}
(** everything else the Agent does leaves the results alone *)
| step_other a a' m l : rs_Completed (ag_state a') = rs_Completed (ag_state a) ->
    channel_step {| cn_agent := a; cn_running := m; cn_started := l |}
                 {| cn_agent := a'; cn_running := m; cn_started := l |}.

(** ** At most once *)

Definition executions (s : channel) : list string := filter (fun id => cacheResult id = true) (cn_started s).

Record channel_inv (known : gset string) (s : channel) : Prop := {
  ci_known : dom (rs_Completed (ag_state (cn_agent s))) ⊆ known ∪ list_to_set (executions s);
  ci_old : known ⊆ dom (rs_Completed (ag_state (cn_agent s)));
  ci_fresh : forall id, id ∈ executions s -> id ∉ known;
  ci_kept : forall id, id ∈ executions s -> cn_running s !! id <> Some Executing ->
    is_Some (rs_Completed (ag_state (cn_agent s)) !! id);
  ci_executing : forall id, cn_running s !! id = Some Executing -> cacheResult id = true -> id ∈ executions s;
  ci_once : NoDup (executions s)
}.

Lemma remembered sv id r a out a' :
  rememberResult sv sortSlice id r a = (out, a') ->
  (size (<[id := r]> (rs_Completed (ag_state a))) <= maxCompleted)%nat ->
  rs_Completed (ag_state a') = <[id := r]> (rs_Completed (ag_state a)).
Proof.
  unfold rememberResult. intros E Hs. apply (f_equal snd) in E. cbn [snd] in E. rewrite <- E, save_state.
  cbn [ag_state with_state rs_Completed with_Completed].
  by destruct (Nat.ltb_spec maxCompleted (size (<[id := r]> (rs_Completed (ag_state a))))) as [Hgt|_]; [lia|].
Qed.

Lemma known_size known (s : channel) id r :
  dom (rs_Completed (ag_state (cn_agent s))) ⊆ known ∪ list_to_set (executions s) -> NoDup (executions s) -> id ∈ executions s ->
  (size known + length (executions s) <= maxCompleted)%nat ->
  (size (<[id := r]> (rs_Completed (ag_state (cn_agent s)))) <= maxCompleted)%nat.
Proof.
  intros Hk Hnd Hin Hle. rewrite <- size_dom, dom_insert.
  assert ({[id]} ∪ dom (rs_Completed (ag_state (cn_agent s))) ⊆ known ∪ list_to_set (executions s)) as Hsub.
  { apply union_subseteq. split; [|done]. apply singleton_subseteq_l, elem_of_union_r, elem_of_list_to_set, Hin. }
  apply subseteq_size in Hsub. pose proof (size_union_alt known (list_to_set (executions s) : gset string)).
  pose proof (subseteq_size (list_to_set (executions s) ∖ known : gset string) (list_to_set (executions s))
    ltac:(set_solver)). pose proof (size_list_to_set (C:=gset string) (executions s) Hnd). lia.
Qed.

(** The number of executions only grows. *)
Lemma step_grows s s' : channel_step s s' -> (length (executions s) <= length (executions s'))%nat.
Proof.
  unfold executions. destruct 1; cbn [cn_started]; try lia. rewrite filter_app, length_app. lia.
Qed.

(** Steps that start and end no execution. *)
Lemma channel_inv_frame known s s' :
  rs_Completed (ag_state (cn_agent s')) = rs_Completed (ag_state (cn_agent s)) -> cn_started s' = cn_started s ->
  (forall id, cn_running s' !! id = Some Executing <-> cn_running s !! id = Some Executing) ->
  channel_inv known s -> channel_inv known s'.
Proof.
  intros Ec Es Er [Hk Ho Hf Hkept Hx Hnd]. unfold executions in *.
  constructor; unfold executions; rewrite ?Ec, ?Es; [done|done|done|..|done]; intros id; rewrite Er; auto.
Qed.

Lemma executing_insert (m : gmap string command_phase) id ph ph' i :
  m !! id = ph -> ph <> Some Executing -> ph' <> Executing ->
  <[id := ph']> m !! i = Some Executing <-> m !! i = Some Executing.
Proof. intros Hid Hph Hph'. rewrite lookup_insert_Some. split; [naive_solver|]. intros Hi. right. split; [congruence|done]. Qed.

Lemma executing_delete (m : gmap string command_phase) id ph i :
  m !! id = ph -> ph <> Some Executing -> delete id m !! i = Some Executing <-> m !! i = Some Executing.
Proof. intros Hid Hph. rewrite lookup_delete_Some. split; [naive_solver|]. intros Hi. split; [congruence|done]. Qed.

Lemma channel_inv_execute known a m l id :
  m !! id = Some Slotted -> (cacheResult id = true -> cachedResult a id = None) ->
  channel_inv known {| cn_agent := a; cn_running := m; cn_started := l |} ->
  channel_inv known {| cn_agent := a; cn_running := <[id := Executing]> m; cn_started := l ++ [id] |}.
Proof.
  intros Hid Hno [Hk Ho Hf Hkept Hx Hnd]. unfold executions in *; cbn [cn_agent cn_running cn_started] in *.
  assert (forall i, i ∈ filter (fun id => cacheResult id = true) [id] <-> i = id /\ cacheResult id = true) as Hone.
  { intros i. rewrite list_elem_of_filter, list_elem_of_singleton. naive_solver. }
  constructor; unfold executions; cbn [cn_agent cn_running cn_started]; rewrite ?filter_app, ?list_to_set_app_L.
  - set_solver.
  - done.
  - intros i [Hi|[-> Hc]%Hone]%elem_of_app; [auto|]. intros Hin. apply Ho, elem_of_dom in Hin.
    specialize (Hno Hc). unfold cachedResult in Hno. rewrite Hno in Hin. by destruct Hin.
  - intros i Hi Hne. rewrite lookup_insert_Some in Hne. apply elem_of_app in Hi as [Hi|Hi].
    + apply Hkept; [done|]. intros Hr. apply Hne. right. split; [congruence|done].
    + apply Hone in Hi as [-> _]. destruct Hne. by left.
  - intros i. rewrite lookup_insert_Some, elem_of_app, Hone. intros [[<- _]|[_ Hr]] Hc; [by right|left; auto].
  - apply NoDup_app. split; [done|]. split; [|apply NoDup_filter, NoDup_singleton].
    intros i Hi [-> Hc]%Hone. destruct (Hkept id Hi) as [r Hr]; [congruence|].
    specialize (Hno Hc). unfold cachedResult in Hno. congruence.
Qed.

Lemma channel_inv_complete known sv a a' out m l id r :
  m !! id = Some Executing ->
  (if cacheResult id then rememberResult sv sortSlice id r a else (Ok tt, a)) = (out, a') ->
  (size known + length (executions {| cn_agent := a; cn_running := m; cn_started := l |}) <= maxCompleted)%nat ->
  channel_inv known {| cn_agent := a; cn_running := m; cn_started := l |} ->
  channel_inv known {| cn_agent := a'; cn_running := <[id := Reporting r]> m; cn_started := l |}.
Proof.
  intros Hid E Hle [Hk Ho Hf Hkept Hx Hnd]. unfold executions in *; cbn [cn_agent cn_running cn_started] in *.
  destruct (cacheResult id) eqn:Hc.
  - assert (rs_Completed (ag_state a') = <[id := r]> (rs_Completed (ag_state a))) as Ec.
    { eapply remembered; [exact E|]. apply (known_size known {| cn_agent := a; cn_running := m; cn_started := l |}); auto. }
    constructor; unfold executions; cbn [cn_agent cn_running cn_started]; rewrite ?Ec, ?dom_insert; [|set_solver|done|intros i..|done].
    + apply union_subseteq. split; [|done]. apply singleton_subseteq_l, elem_of_union_r, elem_of_list_to_set. auto.
    + intros Hi Hne. rewrite lookup_insert_is_Some. destruct (decide (id = i)) as [|Hn]; [by left|]. right. split; [done|].
      apply Hkept; [done|]. by rewrite lookup_insert_ne in Hne.
    + rewrite lookup_insert_Some. intros [[_ ?]|[_ Hr]] Hci; [done|auto].
  - injection E as _ <-. constructor; unfold executions; cbn [cn_agent cn_running cn_started]; [done|done|done|intros i..|done].
    + intros Hi Hne. apply Hkept; [done|]. destruct (decide (id = i)) as [<-|Hn]; [|by rewrite lookup_insert_ne in Hne].
      apply list_elem_of_filter in Hi as [Hi _]. congruence.
    + rewrite lookup_insert_Some. intros [[_ ?]|[_ Hr]] Hci; [done|auto].
Qed.

Lemma channel_inv_step known s s' :
  channel_step s s' -> (size known + length (executions s') <= maxCompleted)%nat ->
  channel_inv known s -> channel_inv known s'.
Proof.
  intros Hstep Hle Hinv. destruct Hstep as [a m l id Hid|a m l id Hid|a m l id Hid _|a m l id r Hid _ _
    |a m l id Hid Hno|sv a a' out m l id r Hid E|a m l id r Hid|a a' m l E].
  - eapply channel_inv_frame; [..|exact Hinv]; cbn; try done. intros i. by eapply executing_insert.
  - eapply channel_inv_frame; [..|exact Hinv]; cbn; try done. intros i. by eapply executing_delete.
  - eapply channel_inv_frame; [..|exact Hinv]; cbn; try done. intros i. by eapply executing_insert.
  - eapply channel_inv_frame; [..|exact Hinv]; cbn; try done. intros i. by eapply executing_insert.
  - by eapply channel_inv_execute.
  - by eapply channel_inv_complete.
  - eapply channel_inv_frame; [..|exact Hinv]; cbn; try done. intros i. by eapply executing_delete.
  - by eapply channel_inv_frame; [..|exact Hinv].
Qed.

Lemma slots_step s s' :
  channel_step s s' -> (slots_used (cn_running s) <= commandSlots)%nat -> (slots_used (cn_running s') <= commandSlots)%nat.
Proof.
  assert (forall (m : gmap string command_phase) id ph, m !! id = Some ph -> holds_slot ph = true ->
    forall ph', slots_used (<[id := ph']> m) <= slots_used m)%nat as Hins.
  { intros m id ph Hid Hh ph'. unfold slots_used. rewrite map_filter_insert.
    assert (filter (fun kv : string * command_phase => holds_slot kv.2 = true) m !! id = Some ph) as Hl
      by (by apply map_lookup_filter_Some). case_decide.
    - by rewrite map_size_insert_Some by (by rewrite Hl).
    - rewrite map_filter_delete. apply map_subseteq_size, delete_subseteq. }
  assert (forall (m : gmap string command_phase) id, slots_used (delete id m) <= slots_used m)%nat as Hdel.
  { intros m id. unfold slots_used. rewrite map_filter_delete. apply map_subseteq_size, delete_subseteq. }
  assert (forall (m : gmap string command_phase) id ph, slots_used (<[id := ph]> m) <= S (slots_used m))%nat as Hadd.
  { intros m id ph. unfold slots_used. rewrite map_filter_insert. case_decide.
    - rewrite map_size_insert. case_match; unfold Datatypes.id; lia.
    - rewrite map_filter_delete. apply Nat.le_le_succ_r, map_subseteq_size, delete_subseteq. }
  destruct 1 as [a m l id Hid|a m l id Hid|a m l id Hid Hs|a m l id r Hid _ _
    |a m l id Hid Hno|sv a a' out m l id r Hid E|a m l id r Hid|a a' m l E]; cbn [cn_running]; intros Hle.
  - unfold slots_used. rewrite map_filter_insert. cbn. rewrite map_filter_delete.
    etrans; [apply map_subseteq_size, delete_subseteq|done].
  - etrans; [apply Hdel|done].
  - etrans; [apply Hadd|lia].
  - etrans; [by eapply Hins|done].
  - etrans; [by eapply Hins|done].
  - etrans; [by eapply Hins|done].
  - etrans; [apply Hdel|done].
  - done.
Qed.

Lemma channel_runs s s' known :
  rtc channel_step s s' -> (size known + length (executions s') <= maxCompleted)%nat -> channel_inv known s ->
  (slots_used (cn_running s) <= commandSlots)%nat ->
  channel_inv known s' /\ (slots_used (cn_running s') <= commandSlots)%nat.
Proof.
  induction 1 as [s|s1 s2 s3 H12 H23 IH]; intros Hle Hinv Hsl; [done|].
  assert (length (executions s2) <= length (executions s3))%nat as Hg.
  { clear -H23. induction H23 as [|x y z Hxy _ IH]; [lia|]. apply step_grows in Hxy. lia. }
  apply IH; [done| |by eapply slots_step]. eapply channel_inv_step; [done|lia|done].
Qed.

(** C17: As long as the cache of results is not full, one process of an Agent runs a
    command at most once.  Let the results known at the start and the executions since
    be at most a thousand together, so that nothing is dropped from the cache.  Then,
    however deliveries repeat and the work on different commands interleaves, no id
    whose result is to be remembered is executed twice, none whose result was known at
    the start is executed at all, and at most eight commands run at a time.  Beyond a
    thousand the oldest results are forgotten, and the theorem says nothing. *)
Theorem command_executes_once a s :
  rtc channel_step {| cn_agent := a; cn_running := ∅; cn_started := [] |} s ->
  (size (rs_Completed (ag_state a)) + length (executions s) <= maxCompleted)%nat ->
  NoDup (executions s) /\ (forall id, id ∈ executions s -> cachedResult a id = None)
  /\ (slots_used (cn_running s) <= commandSlots)%nat.
Proof.
  intros Hrun Hle.
  destruct (channel_runs _ _ (dom (rs_Completed (ag_state a))) Hrun) as [[_ _ Hf _ _ Hnd] Hs].
  - by rewrite size_dom.
  - constructor; cbn; [set_solver|done|by intros id ?%elem_of_nil|by intros id ?%elem_of_nil|..].
    + intros id. by rewrite lookup_empty.
    + apply NoDup_nil_2.
  - unfold slots_used. cbn. rewrite map_filter_empty, map_size_empty. lia.
  - split; [done|]. split; [|done]. intros id Hin. apply not_elem_of_dom. by apply Hf.
Qed.
End Channel.

(** ** A concrete run: a command is executed, delivered again and answered from the
    remembered result. *)

Definition demo_done : cachedCommandResult := demo_result 5.
Definition demo_later_agent (a : Agent) : Agent := (rememberResult true id "c" demo_done a).2.

Definition demo_channel_end : channel :=
  {| cn_agent := demo_later_agent demo_compute; cn_running := {[ "c" := Reporting demo_done ]}; cn_started := ["c"] |}.

Lemma demo_channel_run :
  rtc (channel_step id (fun _ => "ping")) {| cn_agent := demo_compute; cn_running := ∅; cn_started := [] |} demo_channel_end.
Proof.
  eapply rtc_l; [by apply (step_begin _ _ demo_compute ∅ [] "c")|].
  eapply rtc_l; [apply (step_slot _ _ demo_compute _ [] "c"); [reflexivity|vm_compute; lia]|]. rewrite insert_insert_eq.
  eapply rtc_l; [apply (step_execute _ _ demo_compute _ [] "c"); [reflexivity|intros _; reflexivity]|]. rewrite insert_insert_eq.
  eapply rtc_l; [apply (step_complete _ _ true demo_compute (demo_later_agent demo_compute) (Ok tt) _ ["c"] "c" demo_done);
    [reflexivity|vm_compute; reflexivity]|]. rewrite insert_insert_eq.
  eapply rtc_l; [by eapply (step_end _ _ _ _ ["c"] "c"); reflexivity|]. rewrite delete_insert_id by done.
  eapply rtc_l; [by apply (step_begin _ _ _ ∅ ["c"] "c")|].
  eapply rtc_l; [apply (step_slot _ _ _ _ ["c"] "c"); [reflexivity|vm_compute; lia]|]. rewrite insert_insert_eq.
  eapply rtc_l; [apply (step_cached _ _ _ _ ["c"] "c" demo_done); reflexivity|]. rewrite insert_insert_eq.
  reflexivity.
Qed.

Lemma command_executes_once_witness :
  executions (fun _ => "ping") demo_channel_end = ["c"] /\ NoDup (executions (fun _ => "ping") demo_channel_end).
Proof.
  split; [reflexivity|].
  apply (command_executes_once id (fun _ => "ping") demo_compute demo_channel_end demo_channel_run).
  vm_compute. lia.
Defined.
