(* ===== verification/Schema.v ===== *)
(** * The Controller database

    The tables of src/internal/store that the modelled statements read and
    write, one record per row type and one finite map per table, keyed by the
    column the statements look rows up by.  The columns, [CHECK] constraints,
    foreign keys and unique indexes are those of src/internal/store/migrations;
    a statement that would violate one fails, and a failing statement rolls its
    transaction back ([runTx]).

    PostgreSQL is a parameter ([Postgres]): how a timestamp is rounded when it
    becomes a [timestamptz], and how text becomes a [uuid].

    Every operation of the store is one step here.  The source runs it as one
    statement, as a serializable transaction, or under row locks taken first, so
    concurrent operations take effect in some order; a run of the system is a
    list of steps. *)

From Stdlib Require Import ZArith Lia Ascii String.
From stdpp Require Import base list gmap strings.
From S2P Require Import Prelude GoStrings.
#[local] Open Scope Z_scope.

(** ** What the code relies on in PostgreSQL *)

Class Postgres := {
  (** rounding of an instant to the resolution of [timestamptz] *)
  ts : time -> time;
  ts_mono : forall t u, t <= u -> ts t <= ts u;
  ts_idem : forall t, ts (ts t) = ts t;
  (** the canonical text of a [uuid] given as text, or a syntax error *)
  uuid_in : string -> option string;
  uuid_canonical : forall s c, uuid_in s = Some c -> uuid_in c = Some c
}.

(** Microseconds, halves upwards. *)
Definition micro (t : time) : time := (t + 500) / 1000 * 1000.

Lemma micro_mono (t u : time) : t <= u -> micro t <= micro u.
Proof.
  intros Htu. unfold micro. apply Z.mul_le_mono_nonneg_r; [lia|].
  apply Z.div_le_mono; lia.
Qed.

Lemma micro_idem (t : time) : micro (micro t) = micro t.
Proof.
  unfold micro. f_equal. rewrite Z.div_add_l by lia. change (500 / 1000) with 0. lia.
Qed.

(** identity_recovery.go has the Agent's UUID test under another name. *)
Definition validUUIDText (value : string) : bool := validUUID value.

(** ** Rows *)

Record ActivityLease := {
  ls_UserID : Z;
  ls_WriterNodeID : Z;
  ls_SessionID : string;
  ls_ActivityEpoch : Z;
  ls_State : string;
  ls_LeaseExpiresAt : time;
  ls_LastPageHeartbeatAt : time;
  ls_LastRequestAt : time;
  ls_InFlightReads : Z;
  ls_InFlightWrites : Z;
  ls_ControllerGeneration : Z;
  ls_UpdatedAt : time
}.

Record LeaseOperation := {
  lo_UserID : Z;
  lo_RequestedNodeID : Z;
  lo_RequestedSessionID : string;
  lo_Outcome : string;
  lo_ResultWriterNodeID : option Z;
  lo_ResultSessionID : option string;
  lo_ResultActivityEpoch : option Z;
  lo_CreatedAt : time
}.

Record GlobalUser := {
  gu_UUID : string;
  gu_LegacyUserID : option Z;
  gu_Status : string
}.

Record LegacyUser := { us_Username : string; us_Status : string }.
Record Admin := { ad_Username : string; ad_Status : string }.
Record NodeAccount := { na_LocalHandle : string; na_Status : string }.

(** The capacity columns of a node, which are what evaluateNodeCapacity reads and
    writes. *)
Record nodeCapacityCursor := {
  cc_State : string;
  cc_Reason : string;
  cc_PressureSince : option time;
  cc_RecoverySince : option time;
  cc_ChangedAt : time;
  cc_CooldownUntil : option time
}.

(** The control-mode columns of a node. *)
Record NodeControl := {
  nc_ControlMode : string;
  nc_ControlModeGeneration : Z;
  nc_DesiredControlMode : string;
  nc_DesiredModeGeneration : Z;
  nc_ReasonCode : option string;
  nc_ChangedAt : time;
  nc_OutageStartedAt : option time;
  nc_LastControllerSuccessAt : option time;
  nc_IndependentSince : option time;
  nc_HeartbeatFailures : Z;
  nc_HealthProbeFailures : Z;
  nc_ActiveIndependentSessions : Z;
  nc_PendingIndependentSyncs : Z;
  nc_ConfirmedOutageStartedAt : option time;
  nc_PeerWitnessFailures : Z
}.

Record Node := {
  nd_Role : string;
  nd_BaseURL : string;
  nd_Status : string;
  nd_ConnectivityState : string;
  nd_OperationalState : string;
  nd_CompatibilityState : string;
  nd_ControllerGeneration : Z;
  nd_AgentVersion : option string;
  nd_TavernVersion : option string;
  nd_LastSeenAt : option time;
  nd_Control : NodeControl;
  nd_Capacity : nodeCapacityCursor
}.

Record ControllerEpoch := {
  ep_OperationID : string;
  ep_ControllerID : string;
  ep_Source : string;
  ep_State : string;
  ep_SigningKeyVersion : Z;
  ep_ActivatedAt : time;
  ep_RevokedAt : option time;
  ep_CleanShutdownAt : option time
}.

Record ControlTicket := {
  tk_OperationID : string;
  tk_SecretHash : string;
  tk_TicketType : string;
  tk_Issuer : string;
  tk_Audience : string;
  tk_Subject : string;
  tk_UserID : option Z;
  tk_TargetNodeID : Z;
  tk_SessionID : option string;
  tk_ActivityEpoch : option Z;
  tk_KeyID : string;
  tk_ControllerGeneration : Z;
  tk_IssuedAt : time;
  tk_NotBefore : time;
  tk_ExpiresAt : time;
  tk_ConsumedAt : option time;
  tk_ConsumedByNodeID : option Z;
  tk_RevokedAt : option time
}.

Record SessionRow := {
  se_UserID : option Z;
  se_AdminID : option Z;
  se_TokenHash : string;
  se_CSRFHash : string;
  se_ExpiresAt : time;
  se_RevokedAt : option time;
  se_LastSeenAt : time;
  se_CreatedAt : time;
  se_ControllerGeneration : Z
}.

Record AgentCommand := {
  co_ID : string;
  co_NodeID : Z;
  co_CommandType : string;
  co_Payload : string;
  co_PayloadSHA256 : string;
  co_State : string;
  co_ControllerGeneration : Z;
  co_LeaseOwner : option string;
  co_LeaseUntil : option time;
  co_Attempt : Z;
  co_ExpiresAt : time;
  co_ResultSummary : option string;
  co_ResultDigest : option string;
  co_CreatedAt : time;
  co_UpdatedAt : time
}.

Record CredentialRow := {
  cr_NodeID : Z;
  cr_Version : Z;
  cr_Ciphertext : string;
  cr_ControllerGeneration : Z;
  cr_ExpiresAt : option time;
  cr_RevokedAt : option time;
  cr_CreatedAt : time
}.

Record RotationRow := {
  ro_OperationID : string;
  ro_NodeID : Z;
  ro_Version : Z;
  ro_Ciphertext : string;
  ro_ControllerGeneration : Z;
  ro_State : string;
  ro_ExpiresAt : time;
  ro_CreatedAt : time;
  ro_ConfirmedAt : option time
}.

Record RebuildOperation := {
  rb_OperationID : string;
  rb_Generation : Z;
  rb_PreviousGeneration : Z;
  rb_Source : string;
  rb_State : string;
  rb_TotalNodes : Z;
  rb_ReconciledNodes : Z;
  rb_ErrorCode : option string;
  rb_StartedAt : time;
  rb_UpdatedAt : time;
  rb_CompletedAt : option time
}.

Record RebuildNode := {
  rn_PreviousCredentialGeneration : Z;
  rn_State : string;
  rn_AuthenticatedGeneration : option Z;
  rn_CredentialVersion : option Z;
  rn_LastHeartbeatAt : option time;
  rn_CredentialActivatedAt : option time;
  rn_ReconciledAt : option time;
  rn_UpdatedAt : time
}.

Record EnrollmentToken := {
  en_OperationID : string;
  en_TokenHash : string;
  en_ExpectedNodeID : option Z;
  en_ExpectedRole : string;
  en_ExpectedFingerprint : option string;
  en_ExpiresAt : time;
  en_ConsumedAt : option time;
  en_ConsumedNodeID : option Z;
  en_CreatedByAdminID : option Z;
  en_CreatedAt : time
}.

Record NonceRow := { no_SignedAt : time; no_ExpiresAt : time }.

(** A value of the JSON detail of an audit event. *)
Inductive detail_value := DText (s : string) | DInt (z : Z) | DTime (t : time).

Record AuditEvent := {
  ae_Action : string;
  ae_TargetID : Z;
  ae_OperationID : string;
  ae_ControllerGeneration : Z;
  ae_Detail : list (string * detail_value)
}.

(** ** The database *)

Record DB := {
  db_users : gmap Z GlobalUser;               (* global_users, by id *)
  db_legacy : gmap Z LegacyUser;              (* users, by id *)
  db_admins : gmap Z Admin;                   (* admins, by id *)
  db_nodes : gmap Z Node;                     (* nodes, by id *)
  db_accounts : gmap (Z * Z) NodeAccount;     (* node_accounts, by user and node *)
  db_epochs : gmap Z ControllerEpoch;         (* controller_epochs, by generation *)
  db_leases : gmap Z ActivityLease;           (* user_activity_leases, by user *)
  db_lease_ops : gmap string LeaseOperation;  (* activity_lease_operations *)
  db_tickets : gmap string ControlTicket;     (* control_tickets, by jti *)
  db_sessions : gmap string SessionRow;       (* controller_sessions, by id *)
  db_commands : gmap string AgentCommand;     (* agent_commands, by operation_id *)
  db_credentials : gmap string CredentialRow; (* agent_credentials, by id *)
  db_rotations : gmap string RotationRow;     (* agent_credential_rotations, by id *)
  db_rebuilds : gmap string RebuildOperation; (* controller_rebuild_operations *)
  db_rebuild_nodes : gmap (string * Z) RebuildNode; (* controller_rebuild_nodes *)
  db_enrollments : gmap string EnrollmentToken; (* enrollment_tokens, by id *)
  db_nonces : gmap (Z * string) NonceRow;     (* agent_request_nonces *)
  db_audit : list AuditEvent                  (* audit_events, newest first *)
}.

(** Replacing one table. *)
Definition set_nodes (x : gmap Z Node) (d : DB) : DB :=
  Build_DB (db_users d) (db_legacy d) (db_admins d) x (db_accounts d) (db_epochs d)
    (db_leases d) (db_lease_ops d) (db_tickets d) (db_sessions d) (db_commands d)
    (db_credentials d) (db_rotations d) (db_rebuilds d) (db_rebuild_nodes d)
    (db_enrollments d) (db_nonces d) (db_audit d).
Definition set_epochs (x : gmap Z ControllerEpoch) (d : DB) : DB :=
  Build_DB (db_users d) (db_legacy d) (db_admins d) (db_nodes d) (db_accounts d) x
    (db_leases d) (db_lease_ops d) (db_tickets d) (db_sessions d) (db_commands d)
    (db_credentials d) (db_rotations d) (db_rebuilds d) (db_rebuild_nodes d)
    (db_enrollments d) (db_nonces d) (db_audit d).
Definition set_leases (x : gmap Z ActivityLease) (d : DB) : DB :=
  Build_DB (db_users d) (db_legacy d) (db_admins d) (db_nodes d) (db_accounts d)
    (db_epochs d) x (db_lease_ops d) (db_tickets d) (db_sessions d) (db_commands d)
    (db_credentials d) (db_rotations d) (db_rebuilds d) (db_rebuild_nodes d)
    (db_enrollments d) (db_nonces d) (db_audit d).
Definition set_lease_ops (x : gmap string LeaseOperation) (d : DB) : DB :=
  Build_DB (db_users d) (db_legacy d) (db_admins d) (db_nodes d) (db_accounts d)
    (db_epochs d) (db_leases d) x (db_tickets d) (db_sessions d) (db_commands d)
    (db_credentials d) (db_rotations d) (db_rebuilds d) (db_rebuild_nodes d)
    (db_enrollments d) (db_nonces d) (db_audit d).
Definition set_tickets (x : gmap string ControlTicket) (d : DB) : DB :=
  Build_DB (db_users d) (db_legacy d) (db_admins d) (db_nodes d) (db_accounts d)
    (db_epochs d) (db_leases d) (db_lease_ops d) x (db_sessions d) (db_commands d)
    (db_credentials d) (db_rotations d) (db_rebuilds d) (db_rebuild_nodes d)
    (db_enrollments d) (db_nonces d) (db_audit d).
Definition set_sessions (x : gmap string SessionRow) (d : DB) : DB :=
  Build_DB (db_users d) (db_legacy d) (db_admins d) (db_nodes d) (db_accounts d)
    (db_epochs d) (db_leases d) (db_lease_ops d) (db_tickets d) x (db_commands d)
    (db_credentials d) (db_rotations d) (db_rebuilds d) (db_rebuild_nodes d)
    (db_enrollments d) (db_nonces d) (db_audit d).
Definition set_commands (x : gmap string AgentCommand) (d : DB) : DB :=
  Build_DB (db_users d) (db_legacy d) (db_admins d) (db_nodes d) (db_accounts d)
    (db_epochs d) (db_leases d) (db_lease_ops d) (db_tickets d) (db_sessions d) x
    (db_credentials d) (db_rotations d) (db_rebuilds d) (db_rebuild_nodes d)
    (db_enrollments d) (db_nonces d) (db_audit d).
Definition set_credentials (x : gmap string CredentialRow) (d : DB) : DB :=
  Build_DB (db_users d) (db_legacy d) (db_admins d) (db_nodes d) (db_accounts d)
    (db_epochs d) (db_leases d) (db_lease_ops d) (db_tickets d) (db_sessions d)
    (db_commands d) x (db_rotations d) (db_rebuilds d) (db_rebuild_nodes d)
    (db_enrollments d) (db_nonces d) (db_audit d).
Definition set_rotations (x : gmap string RotationRow) (d : DB) : DB :=
  Build_DB (db_users d) (db_legacy d) (db_admins d) (db_nodes d) (db_accounts d)
    (db_epochs d) (db_leases d) (db_lease_ops d) (db_tickets d) (db_sessions d)
    (db_commands d) (db_credentials d) x (db_rebuilds d) (db_rebuild_nodes d)
    (db_enrollments d) (db_nonces d) (db_audit d).
Definition set_rebuilds (x : gmap string RebuildOperation) (d : DB) : DB :=
  Build_DB (db_users d) (db_legacy d) (db_admins d) (db_nodes d) (db_accounts d)
    (db_epochs d) (db_leases d) (db_lease_ops d) (db_tickets d) (db_sessions d)
    (db_commands d) (db_credentials d) (db_rotations d) x (db_rebuild_nodes d)
    (db_enrollments d) (db_nonces d) (db_audit d).
Definition set_rebuild_nodes (x : gmap (string * Z) RebuildNode) (d : DB) : DB :=
  Build_DB (db_users d) (db_legacy d) (db_admins d) (db_nodes d) (db_accounts d)
    (db_epochs d) (db_leases d) (db_lease_ops d) (db_tickets d) (db_sessions d)
    (db_commands d) (db_credentials d) (db_rotations d) (db_rebuilds d) x
    (db_enrollments d) (db_nonces d) (db_audit d).
Definition set_enrollments (x : gmap string EnrollmentToken) (d : DB) : DB :=
  Build_DB (db_users d) (db_legacy d) (db_admins d) (db_nodes d) (db_accounts d)
    (db_epochs d) (db_leases d) (db_lease_ops d) (db_tickets d) (db_sessions d)
    (db_commands d) (db_credentials d) (db_rotations d) (db_rebuilds d)
    (db_rebuild_nodes d) x (db_nonces d) (db_audit d).
Definition set_nonces (x : gmap (Z * string) NonceRow) (d : DB) : DB :=
  Build_DB (db_users d) (db_legacy d) (db_admins d) (db_nodes d) (db_accounts d)
    (db_epochs d) (db_leases d) (db_lease_ops d) (db_tickets d) (db_sessions d)
    (db_commands d) (db_credentials d) (db_rotations d) (db_rebuilds d)
    (db_rebuild_nodes d) (db_enrollments d) x (db_audit d).
Definition set_audit (x : list AuditEvent) (d : DB) : DB :=
  Build_DB (db_users d) (db_legacy d) (db_admins d) (db_nodes d) (db_accounts d)
    (db_epochs d) (db_leases d) (db_lease_ops d) (db_tickets d) (db_sessions d)
    (db_commands d) (db_credentials d) (db_rotations d) (db_rebuilds d)
    (db_rebuild_nodes d) (db_enrollments d) (db_nonces d) x.

(** ** Statements and transactions

    A transaction reads and writes a state, which is a database or the database
    with the tables of the workflows, and either yields a value or fails; [runTx] commits the first and rolls back the second. *)

Definition TxS (S A : Type) : Type := S -> result (A * S).
Definition Tx (A : Type) : Type := TxS DB A.

Definition tx_ret {S A} (a : A) : TxS S A := fun d => Ok (a, d).
Definition tx_fail {S A} (e : string) : TxS S A := fun _ => Fail e.
Definition tx_bind {S A B} (m : TxS S A) (k : A -> TxS S B) : TxS S B :=
  fun d => match m d with Ok (a, d') => k a d' | Fail e => Fail e end.
Definition tx_read {S A} (f : S -> A) : TxS S A := fun d => Ok (f d, d).
Definition tx_write {S} (f : S -> S) : TxS S unit := fun d => Ok (tt, f d).
Definition tx_lift {S A} (r : result A) : TxS S A :=
  fun d => match r with Ok a => Ok (a, d) | Fail e => Fail e end.

Definition runTx {S A} (m : TxS S A) (d : S) : result A * S :=
  match m d with Ok (a, d') => (Ok a, d') | Fail e => (Fail e, d) end.

Declare Scope tx_scope.
Notation "'let!' x ':=' m 'in' k" := (tx_bind m (fun x => k))
  (at level 10, x pattern, m at level 100, k at level 200,
   format "'[v' 'let!'  x  ':='  m  'in' '/' k ']'") : tx_scope.
#[global] Open Scope tx_scope.

(** An error the server reports: a violated constraint or malformed text. *)
Definition sql_error : string := "sql error".

Definition require {S} (b : bool) (e : string) : TxS S unit :=
  if b then tx_ret tt else tx_fail e.

Lemma tx_bind_ok {S A B} (m : TxS S A) (k : A -> TxS S B) d b d2 :
  tx_bind m k d = Ok (b, d2) <-> exists a d1, m d = Ok (a, d1) /\ k a d1 = Ok (b, d2).
Proof.
  unfold tx_bind. destruct (m d) as [[a d1]|e]; split.
  - intros Hk. by exists a, d1.
  - intros (a' & d1' & E & Hk). by simplify_eq.
  - done.
  - by intros (a' & d1' & E & _).
Qed.

(** Decompose a committed transaction into its statements. *)
Ltac tx_inv :=
  repeat match goal with
  | H : tx_bind _ _ _ = Ok (_, _) |- _ => apply tx_bind_ok in H as (? & ? & ? & ?)
  | H : tx_ret _ _ = Ok _ |- _ => unfold tx_ret in H; injection H as ? ?; subst
  | H : tx_read _ _ = Ok _ |- _ => unfold tx_read in H; injection H as ? ?; subst
  | H : tx_write _ _ = Ok _ |- _ => unfold tx_write in H; injection H as ? ?; subst
  | H : tx_fail _ _ = Ok _ |- _ => discriminate H
  | H : Fail _ = Ok _ |- _ => discriminate H
  end.

Lemma tx_read_ok {S A} (f : S -> A) d a d' : tx_read f d = Ok (a, d') -> a = f d /\ d' = d.
Proof. by intros [= <- <-]. Qed.
Lemma tx_write_ok {S} (f : S -> S) d u d' : tx_write f d = Ok (u, d') -> u = tt /\ d' = f d.
Proof. by intros [= <- <-]. Qed.
Lemma tx_ret_ok {S A} (x : A) (d : S) a d' : tx_ret x d = Ok (a, d') -> a = x /\ d' = d.
Proof. by intros [= <- <-]. Qed.

(** The same, keeping the names of the states that were there first. *)
Ltac tx_go :=
  repeat match goal with
  | H : tx_bind _ _ _ = Ok (_, _) |- _ => apply tx_bind_ok in H as (? & ? & ? & ?)
  | H : tx_ret _ _ = Ok (_, _) |- _ => apply tx_ret_ok in H as [-> ->]
  | H : tx_read _ _ = Ok (_, _) |- _ => apply tx_read_ok in H as [-> ->]
  | H : tx_write _ _ = Ok (_, _) |- _ => apply tx_write_ok in H as [-> ->]
  | H : tx_fail _ _ = Ok _ |- _ => discriminate H
  | H : Fail _ = Ok _ |- _ => discriminate H
  end.

(** What holds of the state before and of every committed state after holds of
    the state a transaction leaves behind. *)
Lemma runTx_rel {S A} (P : S -> Prop) (m : TxS S A) d :
  P d -> (forall a d', m d = Ok (a, d') -> P d') -> P (runTx m d).2.
Proof.
  intros H0 H1. unfold runTx. destruct (m d) as [[a d']|e] eqn:E; simpl; eauto.
Qed.

Section Schema.
Context `{Postgres}.

Definition uuid_param {S} (s : string) : TxS S string :=
  match uuid_in s with Some c => tx_ret c | None => tx_fail sql_error end.

Lemma uuid_param_ok {S} s (d : S) c d' : uuid_param s d = Ok (c, d') <-> uuid_in s = Some c /\ d' = d.
Proof.
  unfold uuid_param, tx_ret, tx_fail. destruct (uuid_in s); split.
  - intros E. by simplify_eq.
  - intros [E ->]. by simplify_eq.
  - done.
  - by intros [E _].
Qed.

(** The epochs [WHERE state='active'], at most one by the unique index
    idx_controller_one_active. *)
Definition active_epochs (d : DB) : list (Z * ControllerEpoch) :=
  List.filter (fun e => String.eqb (ep_State e.2) "active") (map_to_list (db_epochs d)).

Definition active_epoch (d : DB) : option (Z * ControllerEpoch) := head (active_epochs d).

(** [SELECT generation FROM controller_epochs WHERE state='active']. *)
Definition active_generation (d : DB) : option Z := fst <$> active_epoch d.

End Schema.

(** Split on the test a statement of the transaction makes. *)
Ltac tx_if E :=
  match goal with
  | Hif : (if ?b then _ else _) = Ok _ |- _ => destruct b eqn:E
  | Hif : (if ?b then _ else _) _ = Ok _ |- _ => destruct b eqn:E
  end; tx_inv.

(** The same as [tx_inv], with text parameters that were valid UUIDs. *)
Ltac tx_inv_uuid :=
  repeat (tx_inv; try match goal with
  | H : uuid_param _ _ = Ok (_, _) |- _ => apply uuid_param_ok in H as [? ?]; subst
  end).

(** [UPDATE ... SET f WHERE p] on a whole table. *)
Definition update_where `{Countable K} {V} (p : K -> V -> bool) (f : V -> V) (m : gmap K V) : gmap K V :=
  map_imap (fun k v => Some (if p k v then f v else v)) m.

(** The rows [WHERE p]. *)
Definition rows_where `{Countable K} {V} (p : K -> V -> bool) (m : gmap K V) : list (K * V) :=
  List.filter (fun kv => p kv.1 kv.2) (map_to_list m).

Lemma update_where_lookup `{Countable K} {V} p f (m : gmap K V) k :
  update_where p f m !! k = (fun v => if p k v then f v else v) <$> m !! k.
Proof. unfold update_where. rewrite map_lookup_imap. by destruct (m !! k). Qed.

Lemma rows_where_elem `{Countable K} {V} p (m : gmap K V) k v :
  (k, v) ∈ rows_where p m <-> m !! k = Some v /\ p k v = true.
Proof.
  unfold rows_where. rewrite list_elem_of_In, filter_In, <- list_elem_of_In, elem_of_map_to_list.
  simpl. tauto.
Qed.

(** A query that at most one row answers. *)
Lemma rows_where_head `{Countable K} {V} p (m : gmap K V) k v :
  m !! k = Some v -> p k v = true ->
  (forall k' v', m !! k' = Some v' -> p k' v' = true -> k' = k) ->
  head (rows_where p m) = Some (k, v).
Proof.
  intros Hl Hp Hu.
  assert ((k, v) ∈ rows_where p m) as Hin by (by apply rows_where_elem).
  destruct (rows_where p m) as [|[k' v'] rows] eqn:E; [by apply elem_of_nil in Hin|]. simpl.
  assert ((k', v') ∈ rows_where p m) as Hin' by (rewrite E; apply list_elem_of_here).
  apply rows_where_elem in Hin' as [Hl' Hp']. rewrite (Hu _ _ Hl' Hp') in Hl' |- *. by simplify_eq.
Qed.

Lemma rows_where_NoDup `{Countable K} {V} p (m : gmap K V) : NoDup (rows_where p m).
Proof. unfold rows_where. apply NoDup_ListNoDup, List.NoDup_filter, NoDup_ListNoDup, NoDup_map_to_list. Qed.

(** A query that one row answers. *)
Lemma rows_where_single `{Countable K} {V} p (m : gmap K V) k v :
  m !! k = Some v -> p k v = true ->
  (forall k' v', m !! k' = Some v' -> p k' v' = true -> k' = k) ->
  rows_where p m = [(k, v)].
Proof.
  intros Hl Hp Hu. pose proof (rows_where_head p m k v Hl Hp Hu) as Hh. pose proof (rows_where_NoDup p m) as Hnd.
  destruct (rows_where p m) as [|kv [|[k' v'] rows]] eqn:E; simplify_eq/=; [done|].
  assert ((k', v') ∈ rows_where p m) as Hin by (rewrite E; apply list_elem_of_further, list_elem_of_here).
  apply rows_where_elem in Hin as [Hl' Hp']. pose proof (Hu _ _ Hl' Hp'). simplify_eq.
  apply NoDup_cons in Hnd as [Hnd _]. destruct Hnd. apply list_elem_of_here.
Qed.

Lemma rows_where_empty `{Countable K} {V} p (m : gmap K V) :
  (forall k v, m !! k = Some v -> p k v = false) -> rows_where p m = [].
Proof.
  intros Hn. destruct (rows_where p m) as [|[k v] rows] eqn:E; [done|].
  assert ((k, v) ∈ rows_where p m) as Hin by (rewrite E; apply list_elem_of_here).
  apply rows_where_elem in Hin as [Hl Hp]. by rewrite (Hn _ _ Hl) in Hp.
Qed.

Lemma rows_where_none `{Countable K} {V} p (m : gmap K V) k v :
  Nat.eqb (length (rows_where p m)) 0 = true -> m !! k = Some v -> p k v = false.
Proof.
  intros E Hl. apply Nat.eqb_eq, length_zero_iff_nil in E.
  destruct (p k v) eqn:Ep; [|done].
  assert ((k, v) ∈ rows_where p m) as Hin by (by apply rows_where_elem).
  rewrite E in Hin. by apply elem_of_nil in Hin.
Qed.

(** Membership of a literal state in a list of states. *)
Ltac state_dec :=
  match goal with
  | |- ?x ∈ ?l => apply (bool_decide_eq_true_1 (x ∈ l)); reflexivity
  | |- ?x ∈ ?l -> _ => let Hin := fresh in
      intros Hin; apply (bool_decide_eq_true_2 (x ∈ l)) in Hin; discriminate Hin
  end.

(** A column that keeps its value once set. *)
Definition coalesce (old : option time) (new : time) : option time :=
  match old with Some t => Some t | None => Some new end.

(** ** Well-formed controller epochs *)

(** One generation is active; every other one is revoked and smaller. *)
Record epochs_wf (d : DB) (g : Z) : Prop := {
  ew_active : exists e, db_epochs d !! g = Some e /\ ep_State e = "active";
  ew_unique : forall g' e, db_epochs d !! g' = Some e -> ep_State e = "active" -> g' = g;
  ew_max : forall g' e, db_epochs d !! g' = Some e -> 0 < g' <= g;
  ew_int64 : int64 g
}.

Lemma active_epoch_some d g e :
  active_epoch d = Some (g, e) -> db_epochs d !! g = Some e /\ ep_State e = "active".
Proof.
  unfold active_epoch. intros Hh.
  assert ((g, e) ∈ active_epochs d) as Hin.
  { destruct (active_epochs d); simplify_eq/=. apply list_elem_of_here. }
  unfold active_epochs in Hin.
  rewrite list_elem_of_In, filter_In, <- list_elem_of_In, elem_of_map_to_list in Hin.
  destruct Hin as [Hl Hs]. simpl in Hs. by b2p.
Qed.

Lemma active_epoch_none d g e :
  active_epoch d = None -> db_epochs d !! g = Some e -> ep_State e <> "active".
Proof.
  unfold active_epoch. intros Hh Hl Hs.
  assert ((g, e) ∈ active_epochs d) as Hin.
  { unfold active_epochs. rewrite list_elem_of_In, filter_In, <- list_elem_of_In, elem_of_map_to_list.
    simpl. rewrite Hs. done. }
  destruct (active_epochs d); simplify_eq/=. by apply elem_of_nil in Hin.
Qed.

Lemma epochs_wf_active d g :
  epochs_wf d g -> exists e, active_epoch d = Some (g, e) /\ db_epochs d !! g = Some e.
Proof.
  intros [[e [Hl Hs]] Hu _ _]. destruct (active_epoch d) as [[g' e']|] eqn:E.
  - destruct (active_epoch_some _ _ _ E) as [Hl' Hs'].
    assert (g' = g) as -> by (by eapply Hu). exists e. by simplify_eq.
  - by destruct (active_epoch_none _ _ _ E Hl).
Qed.

Lemma epochs_wf_generation d g : epochs_wf d g -> active_generation d = Some g.
Proof.
  intros Hw. destruct (epochs_wf_active _ _ Hw) as (e & He & _).
  unfold active_generation. by rewrite He.
Qed.

(** A server that rounds to microseconds and takes canonical UUIDs only. *)
Definition demo_uuid_in (s : string) : option string :=
  if validUUID s && String.eqb (of_bytes (map ascii_lower (bytes_of s))) s then Some s else None.

Lemma demo_uuid_canonical (s c : string) : demo_uuid_in s = Some c -> demo_uuid_in c = Some c.
Proof.
  unfold demo_uuid_in. intros Hs.
  destruct (validUUID s && _) eqn:E; [|done]. injection Hs as <-. by rewrite E.
Qed.

Definition demo_postgres : Postgres :=
  {| ts := micro; ts_mono := micro_mono; ts_idem := micro_idem;
     uuid_in := demo_uuid_in; uuid_canonical := demo_uuid_canonical |}.

Definition empty_db : DB :=
  Build_DB ∅ ∅ ∅ ∅ ∅ ∅ ∅ ∅ ∅ ∅ ∅ ∅ ∅ ∅ ∅ ∅ ∅ [].

(** ** A small deployment, for concrete runs *)

Definition store_now : time := of_unix 1700000000.
Definition id_op : string := "00000000-0000-4000-8000-000000000001".
Definition id_op2 : string := "00000000-0000-4000-8000-000000000002".
Definition id_sid : string := "00000000-0000-4000-8000-0000000000a1".
Definition id_sid2 : string := "00000000-0000-4000-8000-0000000000a2".
Definition id_jti : string := "00000000-0000-4000-8000-0000000000b1".
Definition id_user : string := "00000000-0000-4000-8000-0000000000c1".
Definition digest32 : string := "0123456789abcdef0123456789abcdef".

Definition demo_control : NodeControl :=
  {| nc_ControlMode := "managed"; nc_ControlModeGeneration := 1; nc_DesiredControlMode := "managed";
     nc_DesiredModeGeneration := 1; nc_ReasonCode := None; nc_ChangedAt := store_now;
     nc_OutageStartedAt := None; nc_LastControllerSuccessAt := None; nc_IndependentSince := None;
     nc_HeartbeatFailures := 0; nc_HealthProbeFailures := 0; nc_ActiveIndependentSessions := 0;
     nc_PendingIndependentSyncs := 0; nc_ConfirmedOutageStartedAt := None;
     nc_PeerWitnessFailures := 0 |}.

Definition demo_node : Node :=
  {| nd_Role := "compute"; nd_BaseURL := "https://n1.example"; nd_Status := "online";
     nd_ConnectivityState := "online"; nd_OperationalState := "active";
     nd_CompatibilityState := "compatible"; nd_ControllerGeneration := 4;
     nd_AgentVersion := None; nd_TavernVersion := None; nd_LastSeenAt := None; nd_Control := demo_control;
     nd_Capacity := {| cc_State := "open"; cc_Reason := ""; cc_PressureSince := None;
                       cc_RecoverySince := None; cc_ChangedAt := store_now; cc_CooldownUntil := None |} |}.

Definition demo_epoch : ControllerEpoch :=
  {| ep_OperationID := "00000000-0000-4000-8000-0000000000e4"; ep_ControllerID := id_op;
     ep_Source := "initial"; ep_State := "active"; ep_SigningKeyVersion := 4;
     ep_ActivatedAt := store_now; ep_RevokedAt := None; ep_CleanShutdownAt := None |}.

(** One user with accounts on two nodes, generation 4 active. *)
Definition demo_db : DB :=
  Build_DB {[ 7 := {| gu_UUID := id_user; gu_LegacyUserID := Some 3; gu_Status := "active" |} ]}
    {[ 3 := {| us_Username := "alice"; us_Status := "active" |} ]} ∅
    (<[1 := demo_node]> {[ 2 := demo_node ]})
    (<[(7, 1) := {| na_LocalHandle := "alice"; na_Status := "active" |}]>
       {[ (7, 2) := {| na_LocalHandle := "alice"; na_Status := "active" |} ]})
    {[ 4 := demo_epoch ]} ∅ ∅ ∅ ∅ ∅ ∅ ∅ ∅ ∅ ∅ ∅ [].

Lemma demo_epochs_wf : epochs_wf demo_db 4.
Proof.
  constructor; cbn.
  - exists demo_epoch. done.
  - intros g e [<- _]%lookup_singleton_Some. done.
  - intros g e [<- _]%lookup_singleton_Some. lia.
  - unfold int64, MinInt64, MaxInt64. lia.
Qed.
