(* ===== verification/Leases.v ===== *)
(** * Activity leases

    src/internal/store/leases.go: the durable single-writer lease of a user.
    Acquiring it is idempotent under an operation id, never replaces an
    unexpired writer, and counts an epoch up; renewing, reporting telemetry and
    ending are conditional updates that name the whole identity of the lease.
    transaction_retry.go retries a transaction the server aborted.

    The other writers of the table (user_data_faults.go, imports.go,
    node_retirements.go, conflict_resolutions.go, snapshots.go, restores.go,
    protection.go) only end a lease or mark it in conflict; they are the step
    [fenceLease]. *)

From Stdlib Require Import ZArith Lia Ascii String.
From stdpp Require Import base list gmap strings.
From S2P Require Import Prelude GoStrings Schema.
#[local] Open Scope Z_scope.

Record AcquireActivityLeaseParams := {
  ap_OperationID : string;
  ap_UserID : Z;
  ap_WriterNodeID : Z;
  ap_SessionID : string;
  ap_ControllerGeneration : Z;
  ap_TTL : duration;
  ap_ExistingWriterOnly : bool;
  ap_Now : time
}.

Record AcquireActivityLeaseResult := {
  ar_Lease : ActivityLease;
  ar_Acquired : bool;
  ar_Existing : bool
}.

Record ActivityLeaseTelemetry := {
  lt_UserID : Z;
  lt_WriterNodeID : Z;
  lt_SessionID : string;
  lt_ActivityEpoch : Z;
  lt_ControllerGeneration : Z;
  lt_LastPageHeartbeatAt : time;
  lt_LastRequestAt : time;
  lt_InFlightReads : Z;
  lt_InFlightWrites : Z;
  lt_Online : bool;
  lt_Now : time;
  lt_TTL : duration
}.

Definition ErrInvalidLeaseInput : string := "invalid activity lease input".
Definition ErrGlobalUserNotFound : string := "global user not found".
Definition ErrLeaseOperationConflict : string :=
  "activity lease operation conflicts with the original request".
Definition ErrExistingWriterRequired : string :=
  "an existing writer is required for this login handoff".

(** [if now.IsZero() { now = time.Now().UTC() }]. *)
Definition now_or (clock now : time) : time := if is_zero now then clock else now.

(** ** Retrying aborted transactions (transaction_retry.go) *)

Definition serializableRetryLimit : nat := 8.
Definition serializableRetryBaseDelay : duration := 25000000.
Definition serializableRetryMaxDelay : duration := 750000000.

Definition isRetryableTransactionError (e : string) : bool :=
  String.eqb e "40001" || String.eqb e "40P01".

Definition retry_delay (attempt : nat) : duration :=
  let delay := Z.shiftl serializableRetryBaseDelay (Z.of_nat attempt) in
  if serializableRetryMaxDelay <? delay then serializableRetryMaxDelay else delay.

(** What an attempt meets: the server may abort it with an error code, and the
    caller may have gone when it returns or while the code waits. *)
Record attempt := { at_abort : option string; at_gone : option string }.

Fixpoint retry_loop {A} (op : Tx A) (env : nat -> attempt) (fuel n : nat) (err : string) (d : DB)
  : result A * DB * list duration :=
  match fuel with
  | O => (Fail err, d, [])
  | S fuel =>
      let '(r, d') := match at_abort (env n) with
                      | Some e => (Fail e, d)
                      | None => runTx op d
                      end in
      match r with
      | Ok a => (Ok a, d', [])
      | Fail e =>
          if negb (isRetryableTransactionError e) then (Fail e, d', [])
          else match at_gone (env n) with
               | Some ctxErr => (Fail ctxErr, d', [])
               | None =>
                   let '(r, d'', ds) := retry_loop op env fuel (S n) e d' in
                   (r, d'', retry_delay n :: ds)
               end
      end
  end.

Definition retrySerializable {A} (op : Tx A) (env : nat -> attempt) (d : DB)
  : result A * DB * list duration :=
  retry_loop op env serializableRetryLimit 0 "" d.

Section Leases.
Context `{Postgres}.

(** ** Constraints of the tables *)

Definition lease_states : list string :=
  ["active"; "quiescing"; "drained"; "ended"; "conflict"; "independent"].

Definition int4 (z : Z) : bool := (- 2 ^ 31 <=? z) && (z <=? 2 ^ 31 - 1).

(** The [CHECK]s and references of user_activity_leases. *)
Definition lease_allowed (d : DB) (l : ActivityLease) : bool :=
  (0 <? ls_ActivityEpoch l) && bool_decide (ls_State l ∈ lease_states)
  && (0 <=? ls_InFlightReads l) && int4 (ls_InFlightReads l)
  && (0 <=? ls_InFlightWrites l) && int4 (ls_InFlightWrites l)
  && (0 <? ls_ControllerGeneration l)
  && bool_decide (is_Some (db_users d !! ls_UserID l))
  && bool_decide (is_Some (db_nodes d !! ls_WriterNodeID l)).

(** The columns in the form the server stores. *)
Definition stored (l : ActivityLease) (sid : string) : ActivityLease :=
  {| ls_UserID := ls_UserID l; ls_WriterNodeID := ls_WriterNodeID l; ls_SessionID := sid;
     ls_ActivityEpoch := ls_ActivityEpoch l; ls_State := ls_State l;
     ls_LeaseExpiresAt := ts (ls_LeaseExpiresAt l);
     ls_LastPageHeartbeatAt := ts (ls_LastPageHeartbeatAt l);
     ls_LastRequestAt := ts (ls_LastRequestAt l); ls_InFlightReads := ls_InFlightReads l;
     ls_InFlightWrites := ls_InFlightWrites l;
     ls_ControllerGeneration := ls_ControllerGeneration l; ls_UpdatedAt := ts (ls_UpdatedAt l) |}.

(** Write the row of a user. *)
Definition put_lease (l : ActivityLease) : Tx unit :=
  let! sid := uuid_param (ls_SessionID l) in
  fun d =>
    if lease_allowed d (stored l sid)
    then Ok (tt, set_leases (<[ls_UserID l := stored l sid]> (db_leases d)) d)
    else Fail sql_error.

(** ** Reading *)

Definition GetActivityLease (userID : Z) (d : DB) : result (option ActivityLease) :=
  if userID <=? 0 then Fail ErrInvalidLeaseInput else Ok (db_leases d !! userID).

Definition lockGlobalUser (userID : Z) : Tx unit := fun d =>
  match db_users d !! userID with
  | Some _ => Ok (tt, d)
  | None => Fail ErrGlobalUserNotFound
  end.

Definition getActivityLeaseForUpdate (userID : Z) : Tx (option ActivityLease) :=
  tx_read (fun d => db_leases d !! userID).

Definition leaseBlocksNewWriter (lease : ActivityLease) (now : time) : bool :=
  if bool_decide (ls_State lease ∈ ["active"; "quiescing"; "drained"; "independent"])
  then after (ls_LeaseExpiresAt lease) now
  else false.

(** ** The operation journal *)

(** The answer rebuilt from the journal. *)
Definition replayed_result (o : LeaseOperation) : AcquireActivityLeaseResult :=
  {| ar_Lease :=
       {| ls_UserID := 0; ls_WriterNodeID := default 0 (lo_ResultWriterNodeID o);
          ls_SessionID := default ""%string (lo_ResultSessionID o);
          ls_ActivityEpoch := default 0 (lo_ResultActivityEpoch o);
          ls_State := ""; ls_LeaseExpiresAt := 0; ls_LastPageHeartbeatAt := 0;
          ls_LastRequestAt := 0; ls_InFlightReads := 0; ls_InFlightWrites := 0;
          ls_ControllerGeneration := 0; ls_UpdatedAt := 0 |};
     ar_Acquired := String.eqb (lo_Outcome o) "acquired";
     ar_Existing := String.eqb (lo_Outcome o) "existing" || String.eqb (lo_Outcome o) "renewed" |}.

Definition getLeaseOperation (p : AcquireActivityLeaseParams)
  : Tx (option AcquireActivityLeaseResult) :=
  let! opid := uuid_param (ap_OperationID p) in
  let! row := tx_read (fun d => db_lease_ops d !! opid) in
  match row with
  | None => tx_ret None
  | Some o =>
      if negb (lo_UserID o =? ap_UserID p) || negb (lo_RequestedNodeID o =? ap_WriterNodeID p)
         || negb (String.eqb (lo_RequestedSessionID o) (ap_SessionID p))
      then tx_fail ErrLeaseOperationConflict
      else tx_ret (Some (replayed_result o))
  end.

Definition operation_row (p : AcquireActivityLeaseParams) (requested outcome : string)
  (lease : ActivityLease) (sid : string) : LeaseOperation :=
  {| lo_UserID := ap_UserID p; lo_RequestedNodeID := ap_WriterNodeID p;
     lo_RequestedSessionID := requested; lo_Outcome := outcome;
     lo_ResultWriterNodeID := Some (ls_WriterNodeID lease); lo_ResultSessionID := Some sid;
     lo_ResultActivityEpoch := Some (ls_ActivityEpoch lease); lo_CreatedAt := ts (ap_Now p) |}.

Definition recordLeaseOperation (p : AcquireActivityLeaseParams) (outcome : string)
  (lease : ActivityLease) : Tx unit :=
  let! opid := uuid_param (ap_OperationID p) in
  let! requested := uuid_param (ap_SessionID p) in
  let! sid := uuid_param (ls_SessionID lease) in
  fun d =>
    if bool_decide (is_Some (db_lease_ops d !! opid))
       || negb (bool_decide (outcome ∈ ["acquired"; "existing"; "rejected"; "ended"; "renewed"]))
       || negb (bool_decide (is_Some (db_users d !! ap_UserID p)))
       || negb (bool_decide (is_Some (db_nodes d !! ap_WriterNodeID p)))
       || negb (bool_decide (is_Some (db_nodes d !! ls_WriterNodeID lease)))
    then Fail sql_error
    else Ok (tt, set_lease_ops
           (<[opid := operation_row p requested outcome lease sid]> (db_lease_ops d)) d).

(** ** Acquiring *)

Definition validateActivityLeaseParams (p : AcquireActivityLeaseParams) : result unit :=
  if String.eqb (ap_OperationID p) "" || String.eqb (ap_SessionID p) "" || (ap_UserID p <=? 0)
     || (ap_WriterNodeID p <=? 0) || (ap_ControllerGeneration p <=? 0) || (ap_TTL p <=? 0)
  then Fail ErrInvalidLeaseInput else Ok tt.

(** The lease a request establishes: [node] writes from now on under [epoch]. *)
Definition granted (p : AcquireActivityLeaseParams) (node epoch : Z) : ActivityLease :=
  {| ls_UserID := ap_UserID p; ls_WriterNodeID := node; ls_SessionID := ap_SessionID p;
     ls_ActivityEpoch := epoch; ls_State := "active"; ls_LeaseExpiresAt := ap_Now p + ap_TTL p;
     ls_LastPageHeartbeatAt := ap_Now p; ls_LastRequestAt := ap_Now p; ls_InFlightReads := 0;
     ls_InFlightWrites := 0; ls_ControllerGeneration := ap_ControllerGeneration p;
     ls_UpdatedAt := ap_Now p |}.

Definition acquireActivityLeaseLocked (p : AcquireActivityLeaseParams)
  : Tx (AcquireActivityLeaseResult * bool) :=
  let! replay := getLeaseOperation p in
  match replay with
  | Some r => tx_ret (r, true)
  | None =>
      let! found := getActivityLeaseForUpdate (ap_UserID p) in
      match found with
      | Some lease =>
          if leaseBlocksNewWriter lease (ap_Now p) && String.eqb (ls_State lease) "active"
             && (ls_ControllerGeneration lease <? ap_ControllerGeneration p)
          then
            let renewed := granted p (ls_WriterNodeID lease) (wrap64 (ls_ActivityEpoch lease + 1)) in
            let! _ := put_lease renewed in
            let! _ := recordLeaseOperation p "renewed" renewed in
            tx_ret ({| ar_Lease := renewed; ar_Acquired := false; ar_Existing := true |}, false)
          else if leaseBlocksNewWriter lease (ap_Now p)
          then
            let! _ := recordLeaseOperation p "existing" lease in
            tx_ret ({| ar_Lease := lease; ar_Acquired := false; ar_Existing := true |}, false)
          else if ap_ExistingWriterOnly p then tx_fail ErrExistingWriterRequired
          else
            let next := granted p (ap_WriterNodeID p) (wrap64 (ls_ActivityEpoch lease + 1)) in
            let! _ := put_lease next in
            let! _ := recordLeaseOperation p "acquired" next in
            tx_ret ({| ar_Lease := next; ar_Acquired := true; ar_Existing := false |}, false)
      | None =>
          if ap_ExistingWriterOnly p then tx_fail ErrExistingWriterRequired
          else
            let next := granted p (ap_WriterNodeID p) 1 in
            let! _ := put_lease next in
            let! _ := recordLeaseOperation p "acquired" next in
            tx_ret ({| ar_Lease := next; ar_Acquired := true; ar_Existing := false |}, false)
      end
  end.

Definition acquireActivityLeaseOnce (p : AcquireActivityLeaseParams)
  : Tx AcquireActivityLeaseResult :=
  let! _ := lockGlobalUser (ap_UserID p) in
  let! (result, _) := acquireActivityLeaseLocked p in
  tx_ret result.

Definition with_now (clock : time) (p : AcquireActivityLeaseParams) : AcquireActivityLeaseParams :=
  {| ap_OperationID := ap_OperationID p; ap_UserID := ap_UserID p;
     ap_WriterNodeID := ap_WriterNodeID p; ap_SessionID := ap_SessionID p;
     ap_ControllerGeneration := ap_ControllerGeneration p; ap_TTL := ap_TTL p;
     ap_ExistingWriterOnly := ap_ExistingWriterOnly p; ap_Now := now_or clock (ap_Now p) |}.

Definition AcquireActivityLease (clock : time) (env : nat -> attempt)
  (p : AcquireActivityLeaseParams) (d : DB) : result AcquireActivityLeaseResult * DB :=
  match validateActivityLeaseParams p with
  | Fail e => (Fail e, d)
  | Ok _ => (retrySerializable (acquireActivityLeaseOnce (with_now clock p)) env d).1
  end.

(** ** Conditional updates *)

(** The fence every update names. *)
Definition fenced (l : ActivityLease) (writer : Z) (sid : string) (epoch generation : Z) : bool :=
  (ls_WriterNodeID l =? writer) && String.eqb (ls_SessionID l) sid
  && (ls_ActivityEpoch l =? epoch) && (ls_ControllerGeneration l =? generation).

Definition set_times (l : ActivityLease) (state : string) (expires page request updated : time)
  (reads writes : Z) : ActivityLease :=
  {| ls_UserID := ls_UserID l; ls_WriterNodeID := ls_WriterNodeID l; ls_SessionID := ls_SessionID l;
     ls_ActivityEpoch := ls_ActivityEpoch l; ls_State := state; ls_LeaseExpiresAt := expires;
     ls_LastPageHeartbeatAt := page; ls_LastRequestAt := request; ls_InFlightReads := reads;
     ls_InFlightWrites := writes; ls_ControllerGeneration := ls_ControllerGeneration l;
     ls_UpdatedAt := updated |}.

Definition RenewActivityLease (clock : time) (userID writerNodeID : Z) (sessionID : string)
  (activityEpoch controllerGeneration : Z) (now : time) (ttl : duration) (d : DB)
  : result bool * DB :=
  if (userID <=? 0) || (writerNodeID <=? 0) || String.eqb sessionID "" || (activityEpoch <=? 0)
     || (controllerGeneration <=? 0) || (ttl <=? 0)
  then (Fail ErrInvalidLeaseInput, d)
  else
    let now := now_or clock now in
    match uuid_in sessionID with
    | None => (Fail sql_error, d)
    | Some sid =>
        match db_leases d !! userID with
        | None => (Ok false, d)
        | Some l =>
            if fenced l writerNodeID sid activityEpoch controllerGeneration
               && String.eqb (ls_State l) "active"
            then (Ok true,
                  set_leases (<[userID := set_times l (ls_State l) (ts (now + ttl)) (ts now)
                                (ls_LastRequestAt l) (ts now) (ls_InFlightReads l)
                                (ls_InFlightWrites l)]> (db_leases d)) d)
            else (Ok false, d)
        end
    end.

Definition UpdateActivityLeaseTelemetry (clock : time) (p : ActivityLeaseTelemetry) (d : DB)
  : result (time * bool) * DB :=
  if (lt_UserID p <=? 0) || (lt_WriterNodeID p <=? 0) || String.eqb (lt_SessionID p) ""
     || (lt_ActivityEpoch p <=? 0) || (lt_ControllerGeneration p <=? 0) || (lt_InFlightReads p <? 0)
     || (lt_InFlightWrites p <? 0) || (lt_TTL p <=? 0)
  then (Fail ErrInvalidLeaseInput, d)
  else
    let now := now_or clock (lt_Now p) in
    let page := if is_zero (lt_LastPageHeartbeatAt p) then now - lt_TTL p else lt_LastPageHeartbeatAt p in
    let request := if is_zero (lt_LastRequestAt p) then now - lt_TTL p else lt_LastRequestAt p in
    match uuid_in (lt_SessionID p) with
    | None => (Fail sql_error, d)
    | Some sid =>
        if negb (int4 (lt_InFlightReads p)) || negb (int4 (lt_InFlightWrites p))
        then (Fail sql_error, d)
        else
          match db_leases d !! lt_UserID p with
          | None => (Ok (0, false), d)
          | Some l =>
              if fenced l (lt_WriterNodeID p) sid (lt_ActivityEpoch p) (lt_ControllerGeneration p)
                 && String.eqb (ls_State l) "active"
              then
                let expires := if lt_Online p then Z.max (ls_LeaseExpiresAt l) (ts (now + lt_TTL p))
                               else ls_LeaseExpiresAt l in
                (Ok (expires, true),
                 set_leases (<[lt_UserID p := set_times l (ls_State l) expires (ts page) (ts request)
                               (ts now) (lt_InFlightReads p) (lt_InFlightWrites p)]> (db_leases d)) d)
              else (Ok (0, false), d)
          end
    end.

Definition EndActivityLease (clock : time) (userID writerNodeID : Z) (sessionID : string)
  (activityEpoch controllerGeneration : Z) (now : time) (d : DB) : result bool * DB :=
  if (userID <=? 0) || (writerNodeID <=? 0) || String.eqb sessionID "" || (activityEpoch <=? 0)
     || (controllerGeneration <=? 0)
  then (Fail ErrInvalidLeaseInput, d)
  else
    let now := now_or clock now in
    match uuid_in sessionID with
    | None => (Fail sql_error, d)
    | Some sid =>
        match db_leases d !! userID with
        | None => (Ok false, d)
        | Some l =>
            if fenced l writerNodeID sid activityEpoch controllerGeneration
               && bool_decide (ls_State l ∈ ["active"; "quiescing"; "drained"; "independent"])
            then (Ok true,
                  set_leases (<[userID := set_times l "ended" (ts now) (ls_LastPageHeartbeatAt l)
                                (ls_LastRequestAt l) (ts now) (ls_InFlightReads l)
                                (ls_InFlightWrites l)]> (db_leases d)) d)
            else (Ok false, d)
        end
    end.

(** The statement of the other components: end the lease of a user or mark it in
    conflict, at once; the resolution of a conflict also names the node that
    holds the surviving data. *)
Definition fenceLease (userID : Z) (conflict : bool) (writer : option Z) (clear : bool) (now : time)
  (d : DB) : DB :=
  match db_leases d !! userID with
  | None => d
  | Some l =>
      let l' := {| ls_UserID := ls_UserID l; ls_WriterNodeID := default (ls_WriterNodeID l) writer;
                   ls_SessionID := ls_SessionID l; ls_ActivityEpoch := ls_ActivityEpoch l;
                   ls_State := if conflict then "conflict" else "ended";
                   ls_LeaseExpiresAt := ts now;
                   ls_LastPageHeartbeatAt := ls_LastPageHeartbeatAt l;
                   ls_LastRequestAt := ls_LastRequestAt l;
                   ls_InFlightReads := if clear then 0 else ls_InFlightReads l;
                   ls_InFlightWrites := if clear then 0 else ls_InFlightWrites l;
                   ls_ControllerGeneration := ls_ControllerGeneration l; ls_UpdatedAt := ts now |} in
      set_leases (<[userID := l']> (db_leases d)) d
  end.

(** ** What every operation keeps *)

(** The lease of a user moves forward: its epoch grows, or it stays and then an
    active lease was the same active lease before. *)
Definition lease_le (l l' : ActivityLease) : Prop :=
  ls_ActivityEpoch l < ls_ActivityEpoch l'
  \/ (ls_ActivityEpoch l = ls_ActivityEpoch l'
      /\ (ls_State l' = "active" ->
          ls_State l = "active" /\ ls_WriterNodeID l = ls_WriterNodeID l'
          /\ ls_SessionID l = ls_SessionID l'
          /\ ls_ControllerGeneration l = ls_ControllerGeneration l')).

Definition leases_le (d d' : DB) : Prop :=
  forall u l, db_leases d !! u = Some l ->
    exists l', db_leases d' !! u = Some l' /\ lease_le l l'.

(** Rows sit under their key, hold a positive 64 bit epoch and a canonical UUID. *)
Definition lease_rows_ok (d : DB) : Prop :=
  forall u l, db_leases d !! u = Some l ->
    ls_UserID l = u /\ 0 < ls_ActivityEpoch l <= MaxInt64
    /\ uuid_in (ls_SessionID l) = Some (ls_SessionID l).

(** The journal only grows. *)
Definition ops_le (d d' : DB) : Prop :=
  forall k o, db_lease_ops d !! k = Some o -> db_lease_ops d' !! k = Some o.

Definition lease_step (d d' : DB) : Prop :=
  ops_le d d' /\ (lease_rows_ok d -> lease_rows_ok d' /\ leases_le d d').

#[export] Instance lease_le_preorder : PreOrder lease_le.
Proof.
  split.
  - intros l. right. auto.
  - intros l1 l2 l3 [H12|[E12 H12]] [H23|[E23 H23]]; [left; lia..|].
    right. split; [lia|]. intros Ha.
    destruct (H23 Ha) as (Ha2 & W2 & S2 & G2). destruct (H12 Ha2) as (Ha1 & W1 & S1 & G1).
    repeat split; congruence.
Qed.

#[export] Instance lease_step_preorder : PreOrder lease_step.
Proof.
  split.
  - intros d. split; [by intros k o|]. intros Hok. split; [done|]. intros u l Hl. by exists l.
  - intros d1 d2 d3 [O12 L12] [O23 L23]. split; [intros k o Hk; auto|].
    intros Hok. destruct (L12 Hok) as [Hok2 Hle12]. destruct (L23 Hok2) as [Hok3 Hle23].
    split; [done|]. intros u l Hl. destruct (Hle12 _ _ Hl) as (l2 & Hl2 & H12).
    destruct (Hle23 _ _ Hl2) as (l3 & Hl3 & H23). exists l3. split; [done|by etrans].
Qed.

Lemma lease_step_frame (d d' : DB) :
  db_leases d' = db_leases d -> db_lease_ops d' = db_lease_ops d -> lease_step d d'.
Proof.
  intros El Eo. split; [intros k o; by rewrite Eo|]. intros Hok. split.
  - intros u l. rewrite El. apply Hok.
  - intros u l Hl. exists l. by rewrite El.
Qed.

(** Replacing the row of one user by a row that moves forward. *)
Lemma lease_step_insert (d : DB) u l' :
  (lease_rows_ok d -> ls_UserID l' = u /\ 0 < ls_ActivityEpoch l' <= MaxInt64
     /\ uuid_in (ls_SessionID l') = Some (ls_SessionID l')
     /\ forall l, db_leases d !! u = Some l -> lease_le l l') ->
  lease_step d (set_leases (<[u := l']> (db_leases d)) d).
Proof.
  intros Hnew. split; [by intros k o|]. intros Hok. destruct (Hnew Hok) as (Hu & He & Hs & Hle). split.
  - intros v l. cbn. rewrite lookup_insert_Some. intros [[<- <-]|[_ Hl]]; [done|by apply Hok].
  - intros v l Hl. cbn. destruct (decide (u = v)) as [<-|Hne].
    + exists l'. rewrite lookup_insert_eq. auto.
    + exists l. by rewrite lookup_insert_ne.
Qed.

(** ** The branches of an acquisition *)

Lemma put_lease_ok l d x d' :
  put_lease l d = Ok (x, d') ->
  exists sid, uuid_in (ls_SessionID l) = Some sid /\ lease_allowed d (stored l sid) = true
    /\ d' = set_leases (<[ls_UserID l := stored l sid]> (db_leases d)) d.
Proof.
  intros Hp. unfold put_lease in Hp. tx_inv_uuid.
  tx_if E. simplify_eq. eauto.
Qed.

Lemma recordLeaseOperation_ok p outcome l d x d' :
  recordLeaseOperation p outcome l d = Ok (x, d') ->
  exists opid requested sid,
    uuid_in (ap_OperationID p) = Some opid /\ uuid_in (ap_SessionID p) = Some requested
    /\ uuid_in (ls_SessionID l) = Some sid /\ db_lease_ops d !! opid = None
    /\ d' = set_lease_ops (<[opid := operation_row p requested outcome l sid]> (db_lease_ops d)) d.
Proof.
  intros Hr. unfold recordLeaseOperation in Hr. tx_inv_uuid.
  tx_if E. simplify_eq. apply orb_false_iff in E as [E _]. apply orb_false_iff in E as [E _].
  apply orb_false_iff in E as [E _]. apply orb_false_iff in E as [E _]. b2p.
  apply eq_None_not_Some in E. eauto 10.
Qed.

(** What a request may do: answer from the journal, keep the writer and count the
    epoch up, keep the lease, or establish the requested node. *)
Inductive acquire_case (p : AcquireActivityLeaseParams) (d : DB)
  : AcquireActivityLeaseResult -> bool -> DB -> Prop :=
| AC_replayed opid o :
    uuid_in (ap_OperationID p) = Some opid -> db_lease_ops d !! opid = Some o ->
    lo_UserID o = ap_UserID p -> lo_RequestedNodeID o = ap_WriterNodeID p ->
    lo_RequestedSessionID o = ap_SessionID p ->
    acquire_case p d (replayed_result o) true d
| AC_kept l d' :
    db_leases d !! ap_UserID p = Some l -> leaseBlocksNewWriter l (ap_Now p) = true ->
    (ls_State l <> "active" \/ ap_ControllerGeneration p <= ls_ControllerGeneration l) ->
    recordLeaseOperation p "existing" l d = Ok (tt, d') ->
    acquire_case p d {| ar_Lease := l; ar_Acquired := false; ar_Existing := true |} false d'
| AC_renewed l d1 d' (g := granted p (ls_WriterNodeID l) (wrap64 (ls_ActivityEpoch l + 1))) :
    db_leases d !! ap_UserID p = Some l -> leaseBlocksNewWriter l (ap_Now p) = true ->
    ls_State l = "active" -> ls_ControllerGeneration l < ap_ControllerGeneration p ->
    put_lease g d = Ok (tt, d1) -> recordLeaseOperation p "renewed" g d1 = Ok (tt, d') ->
    acquire_case p d {| ar_Lease := g; ar_Acquired := false; ar_Existing := true |} false d'
| AC_acquired epoch d1 d' (g := granted p (ap_WriterNodeID p) epoch) :
    ap_ExistingWriterOnly p = false ->
    match db_leases d !! ap_UserID p with
    | Some l => leaseBlocksNewWriter l (ap_Now p) = false /\ epoch = wrap64 (ls_ActivityEpoch l + 1)
    | None => epoch = 1
    end ->
    put_lease g d = Ok (tt, d1) -> recordLeaseOperation p "acquired" g d1 = Ok (tt, d') ->
    acquire_case p d {| ar_Lease := g; ar_Acquired := true; ar_Existing := false |} false d'.

Lemma acquire_cases p d r rep d' :
  acquireActivityLeaseLocked p d = Ok ((r, rep), d') -> acquire_case p d r rep d'.
Proof.
  intros Ha. unfold acquireActivityLeaseLocked in Ha.
  apply tx_bind_ok in Ha as (replay & d0 & Hg & Ha).
  unfold getLeaseOperation in Hg. tx_inv_uuid.
  match goal with Ho : context [db_lease_ops ?d !! ?k] |- _ =>
    destruct (db_lease_ops d !! k) as [o|] eqn:Eo end; tx_inv.
  - tx_if E. b2p. by econstructor.
  - unfold getActivityLeaseForUpdate in *. tx_inv.
    match goal with Hl : context [db_leases ?d !! ?u] |- _ =>
      destruct (db_leases d !! u) as [l|] eqn:El end.
    + tx_if Er; [|tx_if Eb; [|tx_if Ee]];
        repeat match goal with u : () |- _ => destruct u end.
      * apply andb_true_iff in Er as [Er Eg]. apply andb_true_iff in Er as [Eb Es]. b2p.
        by eapply AC_renewed.
      * eapply AC_kept; [done|done| |done]. simpl in Er.
        apply andb_false_iff in Er as [Er|Er]; b2p; [by left|by right].
      * eapply AC_acquired; [done| |done|done]. by rewrite El.
    + tx_if Ee. repeat match goal with u : () |- _ => destruct u end.
      eapply AC_acquired; [done| |done|done]. by rewrite El.
Qed.

(** The epoch after a positive 64 bit epoch is the next one, or not positive. *)
Lemma wrap64_next (e : Z) : 0 < e <= MaxInt64 -> 0 < wrap64 (e + 1) -> wrap64 (e + 1) = e + 1 /\ e < MaxInt64.
Proof.
  intros He Hpos. destruct (decide (e = MaxInt64)) as [->|Hne].
  - vm_compute in Hpos. done.
  - split; [|lia]. apply wrap64_id. unfold int64, MinInt64, MaxInt64 in *. lia.
Qed.

Lemma put_lease_step l d x d' :
  put_lease l d = Ok (x, d') ->
  (forall l0, db_leases d !! ls_UserID l = Some l0 ->
     ls_ActivityEpoch l = wrap64 (ls_ActivityEpoch l0 + 1)) ->
  (db_leases d !! ls_UserID l = None -> ls_ActivityEpoch l <= MaxInt64) ->
  lease_step d d'.
Proof.
  intros Hp Hnext Hfirst. apply put_lease_ok in Hp as (sid & Hsid & Hal & ->).
  assert (0 < ls_ActivityEpoch l) as Hpos.
  { unfold lease_allowed in Hal. b2p. simpl in *. lia. }
  apply uuid_canonical in Hsid.
  apply lease_step_insert. intros Hok. split; [done|]. simpl.
  destruct (db_leases d !! ls_UserID l) as [l0|] eqn:E0.
  - destruct (Hok _ _ E0) as (_ & He0 & _). rewrite (Hnext _ eq_refl) in Hpos |- *.
    destruct (wrap64_next _ He0 Hpos) as [-> Hlt]. split; [lia|]. split; [done|].
    intros l1 [= <-]. left. simpl. rewrite (Hnext _ eq_refl).
    destruct (wrap64_next _ He0 Hpos) as [-> _]. lia.
  - split; [auto|]. split; [done|]. by intros l1.
Qed.

Lemma recordLeaseOperation_step p outcome l d x d' :
  recordLeaseOperation p outcome l d = Ok (x, d') -> lease_step d d' /\ db_leases d' = db_leases d.
Proof.
  intros Hr. apply recordLeaseOperation_ok in Hr as (opid & req & sid & _ & _ & _ & Hnone & ->).
  split; [|done]. split.
  - intros k o Hk. cbn. rewrite lookup_insert_ne; [done|]. intros <-. by rewrite Hnone in Hk.
  - intros Hok. split; [done|]. intros u l0 Hl0. by exists l0.
Qed.

Lemma acquire_step p d r rep d' : acquire_case p d r rep d' -> lease_step d d'.
Proof.
  intros [opid o _ _ _ _ _|l d0 _ _ _ Hr|l d1 d0 g El _ _ _ Hp Hr|epoch d1 d0 g _ Hm Hp Hr].
  - reflexivity.
  - by apply recordLeaseOperation_step in Hr as [? _].
  - apply recordLeaseOperation_step in Hr as [Hr _]. etrans; [|done].
    eapply put_lease_step; [done|..]; cbn; rewrite El; [|done]. intros l0 [= <-]. done.
  - apply recordLeaseOperation_step in Hr as [Hr _]. etrans; [|done].
    eapply put_lease_step; [done|..]; cbn; destruct (db_leases d !! ap_UserID p) as [l|]; try done.
    + intros l0 [= <-]. by destruct Hm.
    + intros _. subst epoch. vm_compute. done.
Qed.

(** ** Retries *)

(** A retried transaction leaves the state alone or takes effect once, whatever
    the server aborts, and waits at most the maximal delay each time. *)
Lemma retry_loop_spec {A} (op : Tx A) env fuel n err d :
  let '(r, d', ds) := retry_loop op env fuel n err d in
  (match r with Ok a => op d = Ok (a, d') | Fail _ => d' = d end)
  /\ Forall (fun t => 0 < t <= serializableRetryMaxDelay) ds /\ (length ds <= fuel)%nat.
Proof.
  revert n err. induction fuel as [|fuel IH]; intros n err; simpl; [by auto|].
  assert (0 < retry_delay n <= serializableRetryMaxDelay) as Hdelay.
  { unfold retry_delay, serializableRetryMaxDelay, serializableRetryBaseDelay.
    destruct (_ <? _) eqn:E; b2p; [lia|]. split; [|lia].
    rewrite Z.shiftl_mul_pow2 by lia. apply Z.mul_pos_pos; [lia|apply Z.pow_pos_nonneg; lia]. }
  assert (forall e, let '(r, d', ds) :=
            (if negb (isRetryableTransactionError e) then (Fail e, d, [])
             else match at_gone (env n) with
                  | Some ctxErr => (Fail ctxErr, d, [])
                  | None => let '(r, d'', ds) := retry_loop op env fuel (S n) e d in
                            (r, d'', retry_delay n :: ds)
                  end) in
          (match r with Ok a => op d = Ok (a, d') | Fail _ => d' = d end)
          /\ Forall (fun t => 0 < t <= serializableRetryMaxDelay) ds /\ (length ds <= S fuel)%nat) as Hcont.
  { intros e. destruct (negb _); [simpl; auto with lia|].
    destruct (at_gone (env n)); [simpl; auto with lia|].
    specialize (IH (S n) e). destruct (retry_loop op env fuel (S n) e d) as [[r d''] ds].
    destruct IH as (IH1 & IH2 & IH3). split; [done|]. split; [by constructor|simpl; lia]. }
  destruct (at_abort (env n)) as [e|]; [apply Hcont|].
  unfold runTx. destruct (op d) as [[a d']|e] eqn:Eop; [|apply Hcont]. simpl. auto with lia.
Qed.

Lemma retrySerializable_spec {A} (op : Tx A) env d r d' :
  (retrySerializable op env d).1 = (r, d') ->
  match r with Ok a => op d = Ok (a, d') | Fail _ => d' = d end.
Proof.
  unfold retrySerializable. pose proof (retry_loop_spec op env serializableRetryLimit 0 "" d) as Hs.
  destruct (retry_loop _ _ _ _ _ _) as [[r0 d0] ds]. cbn. intros [= <- <-]. by destruct Hs.
Qed.

Lemma retrySerializable_rel {A} (R : DB -> DB -> Prop) `{!Reflexive R} (op : Tx A) env d :
  (forall a d', op d = Ok (a, d') -> R d d') -> R d (retrySerializable op env d).1.2.
Proof.
  intros Hop. destruct (retrySerializable op env d).1 as [r d'] eqn:E.
  apply retrySerializable_spec in E. cbn. destruct r; [eauto|by subst].
Qed.

(** ** Every operation is a step *)

Lemma acquireOnce_cases p d r d' :
  acquireActivityLeaseOnce p d = Ok (r, d') ->
  is_Some (db_users d !! ap_UserID p) /\ exists rep, acquire_case p d r rep d'.
Proof.
  intros Ha. unfold acquireActivityLeaseOnce, lockGlobalUser in Ha. tx_inv.
  match goal with Hu : match ?u with Some _ => _ | None => _ end = _ |- _ => destruct u eqn:E; tx_inv end.
  simplify_eq. match goal with Hl : (let '(_, _) := ?x in _) _ = _ |- _ => destruct x as [r0 rep] end.
  tx_inv. split; [done|]. exists rep. by apply acquire_cases.
Qed.

(** The statements of this file write two tables. *)
Definition lease_writes (d d' : DB) : Prop :=
  exists leases ops, d' = set_lease_ops ops (set_leases leases d).

Lemma lease_writes_refl d : lease_writes d d.
Proof. exists (db_leases d), (db_lease_ops d). by destruct d. Qed.

Lemma acquire_writes p d r rep d' : acquire_case p d r rep d' -> lease_writes d d'.
Proof.
  intros [? ? ? ? ? ? ?|? ? ? ? ? Hr|? ? ? ? ? ? ? ? Hp Hr|? ? ? ? ? ? Hp Hr]; [apply lease_writes_refl|..];
    apply recordLeaseOperation_ok in Hr as (? & ? & ? & _ & _ & _ & _ & ->); unfold lease_writes.
  - exists (db_leases d). eexists. by destruct d.
  - apply put_lease_ok in Hp as (? & _ & _ & ->). eauto.
  - apply put_lease_ok in Hp as (? & _ & _ & ->). eauto.
Qed.

(** An answer and its later replay agree. *)
Definition same_answer (r r' : AcquireActivityLeaseResult) : Prop :=
  ls_WriterNodeID (ar_Lease r) = ls_WriterNodeID (ar_Lease r')
  /\ ls_SessionID (ar_Lease r) = ls_SessionID (ar_Lease r')
  /\ ls_ActivityEpoch (ar_Lease r) = ls_ActivityEpoch (ar_Lease r')
  /\ ar_Acquired r = ar_Acquired r' /\ ar_Existing r = ar_Existing r'.

(** Every answer is in the journal. *)
Lemma acquire_journal p d r rep d' :
  acquire_case p d r rep d' -> lease_rows_ok d -> uuid_in (ap_SessionID p) = Some (ap_SessionID p) ->
  exists opid o, uuid_in (ap_OperationID p) = Some opid /\ db_lease_ops d' !! opid = Some o
    /\ lo_UserID o = ap_UserID p /\ lo_RequestedNodeID o = ap_WriterNodeID p
    /\ lo_RequestedSessionID o = ap_SessionID p /\ same_answer r (replayed_result o).
Proof.
  intros Hc Hok Hcan.
  destruct Hc as [opid o Ho Hl Hu Hn Hs|l d0 El Hb _ Hr|l d1 d0 g El _ _ _ Hp Hr|epoch d1 d0 g _ Hm Hp Hr].
  { exists opid, o. do 5 (split; [done|]). by repeat split. }
  all: apply recordLeaseOperation_ok in Hr as (opid & req & sid & Hop & Hreq & Hsid & _ & ->);
    rewrite Hcan in Hreq; injection Hreq as <-;
    exists opid; eexists; (split; [done|]); cbn; rewrite lookup_insert_eq; do 4 (split; [done|]).
  - destruct (Hok _ _ El) as (_ & _ & Hcl). rewrite Hcl in Hsid. injection Hsid as <-. done.
  - cbn in Hsid. rewrite Hcan in Hsid. injection Hsid as <-. done.
  - cbn in Hsid. rewrite Hcan in Hsid. injection Hsid as <-. done.
Qed.

(** A request in the journal is answered from it. *)
Lemma acquireOnce_replay p d opid o :
  is_Some (db_users d !! ap_UserID p) -> uuid_in (ap_OperationID p) = Some opid ->
  db_lease_ops d !! opid = Some o -> lo_UserID o = ap_UserID p ->
  lo_RequestedNodeID o = ap_WriterNodeID p -> lo_RequestedSessionID o = ap_SessionID p ->
  acquireActivityLeaseOnce p d = Ok (replayed_result o, d).
Proof.
  intros [gu Hu] Hop Ho Hou Hon Hos.
  unfold acquireActivityLeaseOnce, lockGlobalUser. unfold tx_bind at 1. rewrite Hu.
  unfold acquireActivityLeaseLocked, getLeaseOperation, uuid_param, tx_bind. rewrite Hop.
  unfold tx_ret at 1, tx_read at 1. rewrite Ho, Hou, Hon, Hos, !Z.eqb_refl, String.eqb_refl. done.
Qed.

(** The row behind a new answer is the lease it reports. *)
Lemma acquire_row p d r d' :
  acquire_case p d r false d' -> lease_rows_ok d ->
  exists l, db_leases d' !! ap_UserID p = Some l
    /\ ls_WriterNodeID l = ls_WriterNodeID (ar_Lease r)
    /\ ls_ActivityEpoch l = ls_ActivityEpoch (ar_Lease r)
    /\ ls_ControllerGeneration l = ls_ControllerGeneration (ar_Lease r)
    /\ uuid_in (ls_SessionID (ar_Lease r)) = Some (ls_SessionID l).
Proof.
  intros Hc Hok.
  inversion Hc as [|l d0 El ? ? Hr|l d1 d0 g El ? ? ? Hp Hr|epoch d1 d0 g ? ? Hp Hr]; subst;
    apply recordLeaseOperation_step in Hr as [_ ->].
  - exists l. destruct (Hok _ _ El) as (_ & _ & Hcan). auto.
  - apply put_lease_ok in Hp as (sid & Hsid & _ & ->). cbn. eexists. by rewrite lookup_insert_eq.
  - apply put_lease_ok in Hp as (sid & Hsid & _ & ->). cbn. eexists. by rewrite lookup_insert_eq.
Qed.

(** What a request does to a lease that blocks new writers. *)
Lemma acquire_blocked p d r rep d' l :
  acquire_case p d r rep d' -> lease_rows_ok d ->
  db_leases d !! ap_UserID p = Some l -> leaseBlocksNewWriter l (ap_Now p) = true ->
  (rep = false -> ar_Acquired r = false /\ ls_WriterNodeID (ar_Lease r) = ls_WriterNodeID l)
  /\ exists l', db_leases d' !! ap_UserID p = Some l' /\ ls_WriterNodeID l' = ls_WriterNodeID l
    /\ (l' = l
        \/ (ls_State l = "active" /\ ls_ControllerGeneration l < ap_ControllerGeneration p
            /\ ls_ActivityEpoch l' = ls_ActivityEpoch l + 1
            /\ uuid_in (ap_SessionID p) = Some (ls_SessionID l')
            /\ ls_ControllerGeneration l' = ap_ControllerGeneration p)).
Proof.
  intros Hc Hok Hl Hb. destruct Hc as [opid o _ _ _ _ _|l0 d0 El _ _ Hr|l0 d1 d0 g El _ Hs Hg Hp Hr|epoch d1 d0 g _ Hm Hp Hr].
  - split; [done|]. exists l. auto.
  - simplify_eq. split; [done|]. exists l0.
    apply recordLeaseOperation_step in Hr as [_ ->]. auto.
  - simplify_eq. split; [done|]. apply recordLeaseOperation_step in Hr as [_ ->].
    apply put_lease_ok in Hp as (sid & Hsid & Hal & ->). cbn.
    exists (stored g sid). rewrite lookup_insert_eq. split; [done|]. split; [done|]. right.
    destruct (Hok _ _ ltac:(eassumption)) as (_ & He & _). unfold lease_allowed in Hal. b2p. cbn in *.
    destruct (wrap64_next _ He) as [-> _]; [done|]. auto.
  - rewrite Hl in Hm. destruct Hm as [Hm _]. congruence.
Qed.

(** Which leases block a new writer. *)
Lemma unexpired_blocks l now :
  ls_State l ∈ ["active"; "quiescing"; "drained"; "independent"] -> now < ls_LeaseExpiresAt l ->
  leaseBlocksNewWriter l now = true.
Proof.
  intros Hst Hexp. unfold leaseBlocksNewWriter. rewrite bool_decide_true by done.
  by apply Z.ltb_lt.
Qed.

Lemma free_unblocked l now :
  ls_State l ∉ ["active"; "quiescing"; "drained"; "independent"] \/ ls_LeaseExpiresAt l <= now ->
  leaseBlocksNewWriter l now = false.
Proof.
  intros Hf. unfold leaseBlocksNewWriter. case_bool_decide as Hst; [|done].
  destruct Hf as [Hf|Hf]; [done|]. by apply Z.ltb_ge.
Qed.

(** An unexpired lease is never taken from its writer.  Whatever the server
    aborts and however the request is retried, a request made while the lease
    is held and unexpired leaves the writer node of the row as it was; the row
    itself is unchanged, or it is the same writer's active lease of an older
    Controller generation, reissued to the requesting session under the next
    epoch and the current generation.  A request not answered from the journal
    reports the writer it found and does not claim to have acquired the lease. *)
Theorem unexpired_writer_kept clock env p d r d' l :
  lease_rows_ok d -> AcquireActivityLease clock env p d = (r, d') ->
  db_leases d !! ap_UserID p = Some l ->
  ls_State l ∈ ["active"; "quiescing"; "drained"; "independent"] ->
  now_or clock (ap_Now p) < ls_LeaseExpiresAt l ->
  (exists l', db_leases d' !! ap_UserID p = Some l' /\ ls_WriterNodeID l' = ls_WriterNodeID l
    /\ (l' = l
        \/ (ls_State l = "active" /\ ls_ControllerGeneration l < ap_ControllerGeneration p
            /\ ls_ActivityEpoch l' = ls_ActivityEpoch l + 1
            /\ uuid_in (ap_SessionID p) = Some (ls_SessionID l')
            /\ ls_ControllerGeneration l' = ap_ControllerGeneration p)))
  /\ forall ok opid, r = Ok ok -> uuid_in (ap_OperationID p) = Some opid ->
       db_lease_ops d !! opid = None ->
       ar_Acquired ok = false /\ ls_WriterNodeID (ar_Lease ok) = ls_WriterNodeID l.
Proof.
  intros Hok Ha Hl Hst Hexp. pose proof (unexpired_blocks _ _ Hst Hexp) as Hb.
  unfold AcquireActivityLease in Ha.
  assert (d' = d /\ (forall ok, r <> Ok ok) \/ exists ok rep, r = Ok ok /\ acquire_case (with_now clock p) d ok rep d')
    as [[-> Hno]|(ok & rep & -> & Hc)].
  { destruct (validateActivityLeaseParams p); [|left; by simplify_eq].
    apply retrySerializable_spec in Ha. destruct r as [ok|e]; [right|left; by subst].
    apply acquireOnce_cases in Ha as (_ & rep & Hc). eauto. }
  - split; [exists l; auto|]. intros ok opid E. by destruct (Hno ok).
  - destruct (acquire_blocked _ _ _ _ _ _ Hc Hok Hl Hb) as [Hres Hrow]. split; [exact Hrow|].
    intros ok' opid [= <-] Hop Hfresh. apply Hres. destruct rep; [|done].
    inversion Hc as [opid' o Hop' Ho| | |]. cbn in Hop'. congruence.
Qed.

(** A request finds the lease free: absent, ended, in conflict or expired. *)
Definition lease_free (d : DB) (u : Z) (now : time) : Prop :=
  match db_leases d !! u with
  | Some l => (ls_State l ∉ ["active"; "quiescing"; "drained"; "independent"] \/ ls_LeaseExpiresAt l <= now)
              /\ ls_ActivityEpoch l < MaxInt64
  | None => True
  end.

Definition next_epoch (d : DB) (u : Z) : Z :=
  match db_leases d !! u with Some l => ls_ActivityEpoch l + 1 | None => 1 end.

Lemma grant_allowed p d node epoch sid :
  0 < epoch -> 0 < ap_ControllerGeneration p ->
  is_Some (db_users d !! ap_UserID p) -> is_Some (db_nodes d !! node) ->
  lease_allowed d (stored (granted p node epoch) sid) = true.
Proof.
  intros He Hg Hu Hn. unfold lease_allowed. cbn.
  rewrite (proj2 (Z.ltb_lt _ _) He), (proj2 (Z.ltb_lt _ _) Hg).
  rewrite !bool_decide_true by (done || (unfold lease_states; set_solver)). done.
Qed.

(** The two statements that grant a lease. *)
Lemma grant_and_record p node epoch outcome d opid sid r (g := granted p node epoch) :
  uuid_in (ap_OperationID p) = Some opid -> uuid_in (ap_SessionID p) = Some sid ->
  db_lease_ops d !! opid = None -> 0 < epoch -> 0 < ap_ControllerGeneration p ->
  is_Some (db_users d !! ap_UserID p) -> is_Some (db_nodes d !! node) ->
  is_Some (db_nodes d !! ap_WriterNodeID p) ->
  outcome ∈ ["acquired"; "existing"; "rejected"; "ended"; "renewed"] ->
  (let! _ := put_lease g in let! _ := recordLeaseOperation p outcome g in
   tx_ret (r : AcquireActivityLeaseResult, false)) d
  = Ok ((r, false), set_lease_ops (<[opid := operation_row p sid outcome g sid]> (db_lease_ops d))
                      (set_leases (<[ap_UserID p := stored g sid]> (db_leases d)) d)).
Proof.
  intros Hop Hsid Hfresh He Hg Hu Hn Hw Hout.
  unfold tx_bind, put_lease, recordLeaseOperation, tx_bind, uuid_param.
  subst g. change (ls_SessionID (granted p node epoch)) with (ap_SessionID p).
  rewrite Hsid. cbn [tx_ret].
  rewrite (grant_allowed p d node epoch sid) by done. rewrite Hop. cbn.
  rewrite Hfresh, (bool_decide_false (is_Some None)) by apply is_Some_None.
  rewrite !bool_decide_true by done. done.
Qed.

(** A new request that finds the lease free grants the next epoch. *)
Lemma acquireOnce_free q d opid :
  is_Some (db_users d !! ap_UserID q) -> uuid_in (ap_OperationID q) = Some opid ->
  db_lease_ops d !! opid = None -> ap_ExistingWriterOnly q = false ->
  (match db_leases d !! ap_UserID q with
   | Some l => leaseBlocksNewWriter l (ap_Now q) = false | None => True end) ->
  (forall l, db_leases d !! ap_UserID q = Some l -> 0 < ls_ActivityEpoch l < MaxInt64) ->
  let g := granted q (ap_WriterNodeID q) (next_epoch d (ap_UserID q)) in
  acquireActivityLeaseOnce q d
  = match (let! _ := put_lease g in let! _ := recordLeaseOperation q "acquired" g in
           tx_ret ({| ar_Lease := g; ar_Acquired := true; ar_Existing := false |}, false)) d with
    | Ok ((r, _), d') => Ok (r, d')
    | Fail e => Fail e
    end.
Proof.
  intros [gu Hu] Hop Hfresh Hew Hfree Hep g.
  unfold acquireActivityLeaseOnce, lockGlobalUser. unfold tx_bind at 1. rewrite Hu.
  unfold tx_bind at 1. unfold acquireActivityLeaseLocked. unfold tx_bind at 1.
  unfold getLeaseOperation, uuid_param. rewrite Hop. unfold tx_bind at 1. cbn. rewrite Hfresh.
  unfold tx_ret at 1. unfold tx_bind at 1. unfold getActivityLeaseForUpdate, tx_read.
  unfold g, next_epoch. destruct (db_leases d !! ap_UserID q) as [l|] eqn:El.
  - rewrite Hfree, Hew. cbn [andb]. rewrite wrap64_id;
      [by match goal with |- match ?x with _ => _ end = _ => destruct x as [[[? ?] ?]|?] end|].
    destruct (Hep _ eq_refl). unfold int64, MinInt64, MaxInt64 in *. lia.
  - rewrite Hew. by match goal with |- match ?x with _ => _ end = _ => destruct x as [[[? ?] ?]|?] end.
Qed.

(** A free lease is acquired.  A valid, new request for an existing user and
    node, with no server abort, succeeds when no lease blocks it: the row becomes
    the requested writer's and session's active lease with the next epoch, and
    the journal holds the answer. *)
Theorem free_lease_acquired clock env p d opid sid :
  let now := now_or clock (ap_Now p) in
  lease_rows_ok d -> validateActivityLeaseParams p = Ok tt ->
  at_abort (env 0%nat) = None ->
  is_Some (db_users d !! ap_UserID p) -> is_Some (db_nodes d !! ap_WriterNodeID p) ->
  uuid_in (ap_OperationID p) = Some opid -> uuid_in (ap_SessionID p) = Some sid ->
  db_lease_ops d !! opid = None -> ap_ExistingWriterOnly p = false ->
  lease_free d (ap_UserID p) now ->
  exists d', AcquireActivityLease clock env p d
      = (Ok {| ar_Lease := granted (with_now clock p) (ap_WriterNodeID p) (next_epoch d (ap_UserID p));
               ar_Acquired := true; ar_Existing := false |}, d')
    /\ db_leases d' !! ap_UserID p
       = Some (stored (granted (with_now clock p) (ap_WriterNodeID p) (next_epoch d (ap_UserID p))) sid)
    /\ is_Some (db_lease_ops d' !! opid).
Proof.
  intros now Hok Hv Hab Hu Hn Hop Hsid Hfresh Hew Hfree.
  set (q := with_now clock p).
  assert (0 < ap_ControllerGeneration q) as Hgen.
  { unfold validateActivityLeaseParams in Hv.
    match type of Hv with (if ?b then _ else _) = _ => destruct b eqn:E; [done|] end. by b2p. }
  assert (0 < next_epoch d (ap_UserID p)) as Hep.
  { unfold next_epoch. destruct (db_leases d !! ap_UserID p) as [l|] eqn:El; [|lia].
    destruct (Hok _ _ El). lia. }
  pose proof (grant_and_record q (ap_WriterNodeID q) (next_epoch d (ap_UserID q)) "acquired" d opid sid
    {| ar_Lease := granted q (ap_WriterNodeID q) (next_epoch d (ap_UserID q));
       ar_Acquired := true; ar_Existing := false |} Hop Hsid Hfresh Hep Hgen Hu Hn Hn
    ltac:(set_solver)) as Hput.
  match type of Hput with _ = Ok (_, ?d') => exists d' end.
  split; [|split; [apply lookup_insert_eq|cbn; by rewrite lookup_insert_eq]].
  unfold AcquireActivityLease. rewrite Hv. fold q. unfold retrySerializable, serializableRetryLimit.
  cbn [retry_loop]. rewrite Hab. unfold runTx.
  rewrite (acquireOnce_free q d opid); [by rewrite Hput|done..| |].
  - unfold lease_free in Hfree |- *. destruct (db_leases d !! _); [|done]. by apply free_unblocked, Hfree.
  - change (ap_UserID q) with (ap_UserID p). intros l El. destruct (Hok _ _ El).
    unfold lease_free in Hfree. rewrite El in Hfree. lia.
Qed.

Lemma AcquireActivityLease_step clock env p d :
  lease_step d (AcquireActivityLease clock env p d).2.
Proof.
  unfold AcquireActivityLease. destruct (validateActivityLeaseParams p); [|reflexivity].
  apply retrySerializable_rel; [apply _|]. intros r d' Hr.
  apply acquireOnce_cases in Hr as (_ & rep & Hc). by apply acquire_step in Hc.
Qed.

Lemma AcquireActivityLease_writes clock env p d :
  lease_writes d (AcquireActivityLease clock env p d).2.
Proof.
  unfold AcquireActivityLease. destruct (validateActivityLeaseParams p); [|apply lease_writes_refl].
  apply (@retrySerializable_rel _ lease_writes); [intros ?; apply lease_writes_refl|]. intros r d' Hr.
  apply acquireOnce_cases in Hr as (_ & rep & Hc). by apply acquire_writes in Hc.
Qed.

(** Updates that keep the identity of the row, and keep it active at most. *)
Lemma lease_step_update d u l l' :
  db_leases d !! u = Some l ->
  ls_UserID l' = ls_UserID l -> ls_ActivityEpoch l' = ls_ActivityEpoch l ->
  ls_SessionID l' = ls_SessionID l ->
  (ls_State l' = "active" -> ls_State l = "active" /\ ls_WriterNodeID l = ls_WriterNodeID l'
     /\ ls_SessionID l = ls_SessionID l' /\ ls_ControllerGeneration l = ls_ControllerGeneration l') ->
  lease_step d (set_leases (<[u := l']> (db_leases d)) d).
Proof.
  intros Hl Hu He Hs Hi. apply lease_step_insert. intros Hok. destruct (Hok _ _ Hl) as (Hlu & Hle & Hcan).
  rewrite Hu, He, Hs. split; [done|]. split; [done|]. split; [done|]. intros l0 Hl0. simplify_eq. right. auto.
Qed.

Ltac lease_update :=
  repeat (case_match; try reflexivity); cbn [snd];
  (eapply lease_step_update; [eassumption|done|done|done|cbn; naive_solver]).

Lemma RenewActivityLease_step clock u w s e g now ttl d :
  lease_step d (RenewActivityLease clock u w s e g now ttl d).2.
Proof. unfold RenewActivityLease. lease_update. Qed.

Lemma UpdateActivityLeaseTelemetry_step clock p d :
  lease_step d (UpdateActivityLeaseTelemetry clock p d).2.
Proof. unfold UpdateActivityLeaseTelemetry. lease_update. Qed.

Lemma EndActivityLease_step clock u w s e g now d :
  lease_step d (EndActivityLease clock u w s e g now d).2.
Proof. unfold EndActivityLease. lease_update. Qed.

Lemma set_leases_writes d leases : lease_writes d (set_leases leases d).
Proof. exists leases, (db_lease_ops d). by destruct d. Qed.

Lemma RenewActivityLease_writes clock u w s e g now ttl d :
  lease_writes d (RenewActivityLease clock u w s e g now ttl d).2.
Proof.
  unfold RenewActivityLease.
  repeat (case_match; try apply lease_writes_refl); apply set_leases_writes.
Qed.

Lemma UpdateActivityLeaseTelemetry_writes clock p d :
  lease_writes d (UpdateActivityLeaseTelemetry clock p d).2.
Proof.
  unfold UpdateActivityLeaseTelemetry.
  repeat (case_match; try apply lease_writes_refl); apply set_leases_writes.
Qed.

Lemma EndActivityLease_writes clock u w s e g now d :
  lease_writes d (EndActivityLease clock u w s e g now d).2.
Proof.
  unfold EndActivityLease.
  repeat (case_match; try apply lease_writes_refl); apply set_leases_writes.
Qed.

Lemma fenceLease_writes u c w cl now d : lease_writes d (fenceLease u c w cl now d).
Proof. unfold fenceLease. destruct (db_leases d !! u); [apply set_leases_writes|apply lease_writes_refl]. Qed.

Lemma fenceLease_step u c w cl now d : lease_step d (fenceLease u c w cl now d).
Proof.
  unfold fenceLease. destruct (db_leases d !! u) as [l|] eqn:E; [|reflexivity].
  eapply lease_step_update; [done|done|done|done|]. by destruct c.
Qed.

End Leases.

#[export] Hint Resolve AcquireActivityLease_writes RenewActivityLease_writes
  UpdateActivityLeaseTelemetry_writes EndActivityLease_writes fenceLease_writes
  AcquireActivityLease_step RenewActivityLease_step UpdateActivityLeaseTelemetry_step
  EndActivityLease_step fenceLease_step : stc.

(** ** Concrete runs *)

Definition no_abort : nat -> attempt := fun _ => {| at_abort := None; at_gone := None |}.

Definition lease_request (op sid : string) (node gen : Z) (now : time) : AcquireActivityLeaseParams :=
  {| ap_OperationID := op; ap_UserID := 7; ap_WriterNodeID := node; ap_SessionID := sid;
     ap_ControllerGeneration := gen; ap_TTL := 5 * Minute; ap_ExistingWriterOnly := false; ap_Now := now |}.

(** Node 1 writes for user 7. *)
Definition demo_leased : DB :=
  (@AcquireActivityLease demo_postgres 0 no_abort (lease_request id_op id_sid 1 4 store_now) demo_db).2.

Lemma demo_db_lease_rows_ok : @lease_rows_ok demo_postgres demo_db.
Proof. by intros u l. Qed.

Lemma demo_leased_ok : @lease_rows_ok demo_postgres demo_leased.
Proof. by apply (AcquireActivityLease_step (H := demo_postgres) 0 no_abort), demo_db_lease_rows_ok. Qed.

(** A second request, for node 2, aborted once by the server, keeps node 1. *)
Lemma unexpired_writer_kept_witness :
  let p := lease_request id_op2 id_sid2 2 4 (store_now + Second) in
  let env n := {| at_abort := if Nat.eqb n 0 then Some "40001"%string else None; at_gone := None |} in
  let res := @AcquireActivityLease demo_postgres 0 env p demo_leased in
  exists ok l', res.1 = Ok ok /\ ar_Acquired ok = false
    /\ db_leases res.2 !! 7 = Some l' /\ ls_WriterNodeID l' = 1.
Proof.
  intros p env res.
  assert (exists l, db_leases demo_leased !! 7 = Some l /\ ls_State l ∈ ["active"; "quiescing"; "drained"; "independent"]
    /\ ap_Now p < ls_LeaseExpiresAt l /\ ls_WriterNodeID l = 1) as (l & Hl & Hst & Hb & Hw)
    by (eexists; split; [vm_compute; reflexivity|split_and!; [cbn; set_solver|vm_compute; reflexivity..]]).
  assert (exists ok, res.1 = Ok ok) as [ok Hres] by (eexists; vm_compute; reflexivity).
  assert (res = (Ok ok, res.2)) as E by (destruct res; cbn in *; congruence).
  destruct (unexpired_writer_kept (H := demo_postgres) 0 env p demo_leased (Ok ok) res.2 l
              demo_leased_ok E Hl Hst Hb) as [(l' & Hl' & Hw' & _) Hnew].
  destruct (Hnew ok id_op2 eq_refl ltac:(vm_compute; reflexivity) ltac:(vm_compute; reflexivity)) as [Ha _].
  exists ok, l'. split; [exact Hres|]. split; [exact Ha|]. split; [exact Hl'|congruence].
Defined.

Lemma free_lease_acquired_witness :
  exists d' l, @AcquireActivityLease demo_postgres 0 no_abort (lease_request id_op id_sid 1 4 store_now) demo_db
      = (Ok {| ar_Lease := granted (lease_request id_op id_sid 1 4 store_now) 1 1;
               ar_Acquired := true; ar_Existing := false |}, d')
    /\ db_leases d' !! 7 = Some l /\ ls_ActivityEpoch l = 1.
Proof.
  destruct (free_lease_acquired (H := demo_postgres) 0 no_abort (lease_request id_op id_sid 1 4 store_now)
    demo_db id_op id_sid demo_db_lease_rows_ok) as (d' & Ha & Hl & _);
    [vm_compute; reflexivity|reflexivity|by eexists|by eexists|vm_compute; reflexivity
    |vm_compute; reflexivity|reflexivity|reflexivity|exact I|].
  eexists d', _. split; [exact Ha|]. split; [exact Hl|reflexivity].
Defined.
