(* ===== verification/Handoffs.v ===== *)
(** * Login handoffs

    src/internal/store/handoffs.go: a browser is sent to the node that may write
    for the user with a one-use ticket.  Creating the ticket acquires (or keeps)
    the activity lease in the same transaction; the node consumes the ticket in
    one statement that checks the node, the Controller generation, the account
    and the live lease, and renews the lease. *)

From Stdlib Require Import ZArith Lia Ascii String.
From stdpp Require Import base list gmap strings.
From S2P Require Import Prelude GoStrings Schema Leases.
#[local] Open Scope Z_scope.

Record CreateLoginHandoffParams := {
  hp_OperationID : string;
  hp_JTI : string;
  hp_SecretHash : string;
  hp_UserID : Z;
  hp_RequestedNodeID : Z;
  hp_SessionID : string;
  hp_Issuer : string;
  hp_Subject : string;
  hp_KeyID : string;
  hp_TicketTTL : duration;
  hp_LeaseTTL : duration;
  hp_ExistingWriterOnly : bool;
  hp_Now : time
}.

Record LoginHandoff := {
  lh_OperationID : string;
  lh_JTI : string;
  lh_UserID : Z;
  lh_TargetNodeID : Z;
  lh_NodeBaseURL : string;
  lh_Subject : string;
  lh_SessionID : string;
  lh_ActivityEpoch : Z;
  lh_ControllerGeneration : Z;
  lh_ExpiresAt : time;
  lh_Acquired : bool;
  lh_Existing : bool;
  lh_Replayed : bool
}.

Record LoginRedemption := {
  lr_UserID : Z;
  lr_UserUUID : string;
  lr_Handle : string;
  lr_SessionID : string;
  lr_ActivityEpoch : Z;
  lr_ControllerGeneration : Z;
  lr_LeaseConfirmedAt : time;
  lr_LeaseExpiresAt : time
}.

Definition ErrInvalidLoginHandoff : string := "invalid login handoff input".
Definition ErrLoginHandoffUnavailable : string := "login handoff unavailable".
Definition ErrNoActiveController : string := "no active controller generation".
Definition ErrStaleControllerLease : string :=
  "activity lease belongs to a stale controller generation".

Section Handoffs.
Context `{Postgres}.

(** [SELECT generation FROM controller_epochs WHERE state='active' FOR SHARE]. *)
Definition selectActiveGeneration (missing : string) : Tx Z := fun d =>
  match active_generation d with Some g => Ok (g, d) | None => Fail missing end.

(** The node row the ticket may name: [existing] is whether the lease was there
    before. *)
Definition handoff_node (d : DB) (existing : bool) (n : Node) : bool :=
  String.eqb (nd_Role n) "compute" && String.eqb (nd_Status n) "online"
  && String.eqb (nd_ConnectivityState n) "online"
  && bool_decide (active_generation d = Some (nd_ControllerGeneration n))
  && String.eqb (nd_CompatibilityState n) "compatible"
  && String.eqb (nc_ControlMode (nd_Control n)) "managed"
  && String.eqb (nc_DesiredControlMode (nd_Control n)) "managed"
  && (String.eqb (nd_OperationalState n) "active"
      || (existing && bool_decide (nd_OperationalState n ∈ ["draining"; "retiring"]))).

Definition selectHandoffNode (target : Z) (existing : bool) : Tx string := fun d =>
  match db_nodes d !! target with
  | Some n => if handoff_node d existing n then Ok (nd_BaseURL n, d)
              else Fail ErrLoginHandoffUnavailable
  | None => Fail ErrLoginHandoffUnavailable
  end.

Definition uuid_param_opt (o : option string) : Tx (option string) := fun d =>
  match o with
  | None => Ok (None, d)
  | Some s => match uuid_in s with Some c => Ok (Some c, d) | None => Fail sql_error end
  end.

(** The row of a new ticket. *)
Definition ticket_row (t : ControlTicket) (opid : string) (sid : option string) : ControlTicket :=
  {| tk_OperationID := opid; tk_SecretHash := tk_SecretHash t; tk_TicketType := tk_TicketType t;
     tk_Issuer := tk_Issuer t; tk_Audience := tk_Audience t; tk_Subject := tk_Subject t;
     tk_UserID := tk_UserID t; tk_TargetNodeID := tk_TargetNodeID t; tk_SessionID := sid;
     tk_ActivityEpoch := tk_ActivityEpoch t; tk_KeyID := tk_KeyID t;
     tk_ControllerGeneration := tk_ControllerGeneration t; tk_IssuedAt := ts (tk_IssuedAt t);
     tk_NotBefore := ts (tk_NotBefore t); tk_ExpiresAt := ts (tk_ExpiresAt t);
     tk_ConsumedAt := None; tk_ConsumedByNodeID := None; tk_RevokedAt := None |}.

(** [INSERT INTO control_tickets]: keys, references and checks. *)
Definition insert_ticket (jti : string) (t : ControlTicket) : Tx unit :=
  let! jti := uuid_param jti in
  let! opid := uuid_param (tk_OperationID t) in
  let! sid := uuid_param_opt (tk_SessionID t) in
  fun d =>
    let row := ticket_row t opid sid in
    if bool_decide (is_Some (db_tickets d !! jti))
       || negb (Nat.eqb (length (rows_where (fun _ u => String.eqb (tk_OperationID u) opid)
                                  (db_tickets d))) 0)
       || negb (tk_NotBefore row >=? tk_IssuedAt row) || negb (tk_ExpiresAt row >? tk_NotBefore row)
       || negb (0 <? tk_ControllerGeneration row)
       || negb (bool_decide (is_Some (db_nodes d !! tk_TargetNodeID row)))
       || match tk_UserID row with
          | Some u => negb (bool_decide (is_Some (db_users d !! u)))
          | None => false
          end
    then Fail sql_error
    else Ok (tt, set_tickets (<[jti := row]> (db_tickets d)) d).

(** [outcome] as the two flags of the result. *)
Definition handoff_of_ticket (jti : string) (t : ControlTicket) (n : Node) (outcome : string)
  : LoginHandoff :=
  {| lh_OperationID := tk_OperationID t; lh_JTI := jti; lh_UserID := default 0 (tk_UserID t);
     lh_TargetNodeID := tk_TargetNodeID t; lh_NodeBaseURL := nd_BaseURL n;
     lh_Subject := tk_Subject t; lh_SessionID := default ""%string (tk_SessionID t);
     lh_ActivityEpoch := default 0 (tk_ActivityEpoch t);
     lh_ControllerGeneration := tk_ControllerGeneration t; lh_ExpiresAt := tk_ExpiresAt t;
     lh_Acquired := String.eqb outcome "acquired";
     lh_Existing := String.eqb outcome "existing" || String.eqb outcome "renewed";
     lh_Replayed := false |}.

Definition getLoginHandoffByOperation (operationID : string) (userID requestedNodeID : Z) (now : time)
  : Tx LoginHandoff :=
  let! opid := uuid_param operationID in
  fun d =>
    let open (_ : string) (t : ControlTicket) :=
      String.eqb (tk_OperationID t) opid && String.eqb (tk_TicketType t) "user_login"
      && bool_decide (tk_ConsumedAt t = None) && bool_decide (tk_RevokedAt t = None)
      && (tk_ExpiresAt t >? ts now) in
    match head (rows_where open (db_tickets d)), db_lease_ops d !! opid with
    | Some (jti, t), Some o =>
        if (lo_UserID o =? userID) && (lo_RequestedNodeID o =? requestedNodeID) then
          match db_nodes d !! tk_TargetNodeID t with
          | Some n => Ok (handoff_of_ticket jti t n (lo_Outcome o), d)
          | None => Fail ErrLoginHandoffUnavailable
          end
        else Fail ErrLoginHandoffUnavailable
    | _, _ => Fail ErrLoginHandoffUnavailable
    end.

Definition mark_replayed (h : LoginHandoff) : LoginHandoff :=
  {| lh_OperationID := lh_OperationID h; lh_JTI := lh_JTI h; lh_UserID := lh_UserID h;
     lh_TargetNodeID := lh_TargetNodeID h; lh_NodeBaseURL := lh_NodeBaseURL h;
     lh_Subject := lh_Subject h; lh_SessionID := lh_SessionID h;
     lh_ActivityEpoch := lh_ActivityEpoch h; lh_ControllerGeneration := lh_ControllerGeneration h;
     lh_ExpiresAt := lh_ExpiresAt h; lh_Acquired := lh_Acquired h; lh_Existing := lh_Existing h;
     lh_Replayed := true |}.

(** The lease request a handoff makes. *)
Definition leaseParams (p : CreateLoginHandoffParams) (generation : Z) : AcquireActivityLeaseParams :=
  {| ap_OperationID := hp_OperationID p; ap_UserID := hp_UserID p;
     ap_WriterNodeID := hp_RequestedNodeID p; ap_SessionID := hp_SessionID p;
     ap_ControllerGeneration := generation; ap_TTL := hp_LeaseTTL p;
     ap_ExistingWriterOnly := hp_ExistingWriterOnly p; ap_Now := hp_Now p |}.

(** The ticket of a lease. *)
Definition ticket_for (p : CreateLoginHandoffParams) (lease : ActivityLease) (nodeBaseURL : string)
  (generation : Z) : ControlTicket :=
  {| tk_OperationID := hp_OperationID p; tk_SecretHash := hp_SecretHash p;
     tk_TicketType := "user_login"; tk_Issuer := hp_Issuer p; tk_Audience := nodeBaseURL;
     tk_Subject := hp_Subject p; tk_UserID := Some (hp_UserID p);
     tk_TargetNodeID := ls_WriterNodeID lease; tk_SessionID := Some (ls_SessionID lease);
     tk_ActivityEpoch := Some (ls_ActivityEpoch lease); tk_KeyID := hp_KeyID p;
     tk_ControllerGeneration := generation; tk_IssuedAt := hp_Now p; tk_NotBefore := hp_Now p;
     tk_ExpiresAt := hp_Now p + hp_TicketTTL p; tk_ConsumedAt := None;
     tk_ConsumedByNodeID := None; tk_RevokedAt := None |}.

(** The answer to a new request. *)
Definition new_handoff (p : CreateLoginHandoffParams) (r : AcquireActivityLeaseResult)
  (nodeBaseURL : string) (generation : Z) : LoginHandoff :=
  {| lh_OperationID := hp_OperationID p; lh_JTI := hp_JTI p; lh_UserID := hp_UserID p;
     lh_TargetNodeID := ls_WriterNodeID (ar_Lease r); lh_NodeBaseURL := nodeBaseURL;
     lh_Subject := hp_Subject p; lh_SessionID := ls_SessionID (ar_Lease r);
     lh_ActivityEpoch := ls_ActivityEpoch (ar_Lease r); lh_ControllerGeneration := generation;
     lh_ExpiresAt := hp_Now p + hp_TicketTTL p; lh_Acquired := ar_Acquired r;
     lh_Existing := ar_Existing r; lh_Replayed := false |}.

Definition createLoginHandoffOnce (p : CreateLoginHandoffParams) : Tx LoginHandoff :=
  let! _ := lockGlobalUser (hp_UserID p) in
  let! generation := selectActiveGeneration ErrNoActiveController in
  let! (leaseResult, replayed) := acquireActivityLeaseLocked (leaseParams p generation) in
  if (replayed : bool) then
    let! handoff := getLoginHandoffByOperation (hp_OperationID p) (hp_UserID p)
                      (hp_RequestedNodeID p) (hp_Now p) in
    tx_ret (mark_replayed handoff)
  else
    let lease := ar_Lease leaseResult in
    let! _ := require (ls_ControllerGeneration lease =? generation) ErrStaleControllerLease in
    let! nodeBaseURL := selectHandoffNode (ls_WriterNodeID lease) (ar_Existing leaseResult) in
    let! _ := insert_ticket (hp_JTI p) (ticket_for p lease nodeBaseURL generation) in
    tx_ret (new_handoff p leaseResult nodeBaseURL generation).

Definition handoff_now (clock : time) (p : CreateLoginHandoffParams) : CreateLoginHandoffParams :=
  {| hp_OperationID := hp_OperationID p; hp_JTI := hp_JTI p; hp_SecretHash := hp_SecretHash p;
     hp_UserID := hp_UserID p; hp_RequestedNodeID := hp_RequestedNodeID p;
     hp_SessionID := hp_SessionID p; hp_Issuer := hp_Issuer p; hp_Subject := hp_Subject p;
     hp_KeyID := hp_KeyID p; hp_TicketTTL := hp_TicketTTL p; hp_LeaseTTL := hp_LeaseTTL p;
     hp_ExistingWriterOnly := hp_ExistingWriterOnly p; hp_Now := now_or clock (hp_Now p) |}.

Definition CreateLoginHandoff (clock : time) (env : nat -> attempt) (p : CreateLoginHandoffParams)
  (d : DB) : result LoginHandoff * DB :=
  if negb (validUUIDText (hp_OperationID p)) || negb (validUUIDText (hp_JTI p))
     || negb (slen (hp_SecretHash p) =? 32) || (hp_UserID p <=? 0) || (hp_RequestedNodeID p <=? 0)
     || negb (validUUIDText (hp_SessionID p)) || String.eqb (hp_Issuer p) ""
     || negb (validUUIDText (hp_Subject p)) || String.eqb (hp_KeyID p) ""
     || (hp_TicketTTL p <=? 0) || (hp_LeaseTTL p <=? 0)
  then (Fail ErrInvalidLoginHandoff, d)
  else (retrySerializable (createLoginHandoffOnce (handoff_now clock p)) env d).1.

(** ** Consuming *)

(** The conditions of the statement on the ticket, the lease, the epoch, the
    node, the user and the account. *)
Definition redeemable (d : DB) (t : ControlTicket) (secretHash : string) (nodeID : Z)
  (issuer keyID : string) (now : time) : option (Z * ActivityLease * GlobalUser * NodeAccount) :=
  match tk_UserID t, tk_SessionID t, tk_ActivityEpoch t with
  | Some uid, Some sid, Some epoch =>
      match db_leases d !! uid, db_users d !! uid, db_accounts d !! (uid, tk_TargetNodeID t),
            db_nodes d !! tk_TargetNodeID t, active_generation d with
      | Some l, Some gu, Some account, Some n, Some generation =>
          if (tk_TargetNodeID t =? nodeID) && String.eqb (tk_SecretHash t) secretHash
             && String.eqb (tk_TicketType t) "user_login" && (tk_NotBefore t <=? ts now)
             && (tk_ExpiresAt t >? ts now) && (tk_IssuedAt t <=? ts now)
             && String.eqb (tk_Issuer t) issuer && String.eqb (tk_KeyID t) keyID
             && bool_decide (tk_ConsumedAt t = None) && bool_decide (tk_RevokedAt t = None)
             && (generation =? tk_ControllerGeneration t)
             && String.eqb (nd_BaseURL n) (tk_Audience t)
             && String.eqb (gu_UUID gu) (tk_Subject t) && String.eqb (gu_Status gu) "active"
             && String.eqb (na_Status account) "active"
             && fenced l (tk_TargetNodeID t) sid epoch (tk_ControllerGeneration t)
             && String.eqb (ls_State l) "active" && (ls_LeaseExpiresAt l >? ts now)
          then Some (uid, l, gu, account) else None
      | _, _, _, _, _ => None
      end
  | _, _, _ => None
  end.

Definition consume (t : ControlTicket) (nodeID : Z) (at_ : time) : ControlTicket :=
  {| tk_OperationID := tk_OperationID t; tk_SecretHash := tk_SecretHash t;
     tk_TicketType := tk_TicketType t; tk_Issuer := tk_Issuer t; tk_Audience := tk_Audience t;
     tk_Subject := tk_Subject t; tk_UserID := tk_UserID t; tk_TargetNodeID := tk_TargetNodeID t;
     tk_SessionID := tk_SessionID t; tk_ActivityEpoch := tk_ActivityEpoch t; tk_KeyID := tk_KeyID t;
     tk_ControllerGeneration := tk_ControllerGeneration t; tk_IssuedAt := tk_IssuedAt t;
     tk_NotBefore := tk_NotBefore t; tk_ExpiresAt := tk_ExpiresAt t; tk_ConsumedAt := Some at_;
     tk_ConsumedByNodeID := Some nodeID; tk_RevokedAt := tk_RevokedAt t |}.

Definition revoke (at_ : time) (t : ControlTicket) : ControlTicket :=
  {| tk_OperationID := tk_OperationID t; tk_SecretHash := tk_SecretHash t;
     tk_TicketType := tk_TicketType t; tk_Issuer := tk_Issuer t; tk_Audience := tk_Audience t;
     tk_Subject := tk_Subject t; tk_UserID := tk_UserID t; tk_TargetNodeID := tk_TargetNodeID t;
     tk_SessionID := tk_SessionID t; tk_ActivityEpoch := tk_ActivityEpoch t; tk_KeyID := tk_KeyID t;
     tk_ControllerGeneration := tk_ControllerGeneration t; tk_IssuedAt := tk_IssuedAt t;
     tk_NotBefore := tk_NotBefore t; tk_ExpiresAt := tk_ExpiresAt t;
     tk_ConsumedAt := tk_ConsumedAt t; tk_ConsumedByNodeID := tk_ConsumedByNodeID t;
     tk_RevokedAt := coalesce (tk_RevokedAt t) at_ |}.

Definition ConsumeLoginHandoff (clock : time) (jti secretHash : string) (nodeID : Z)
  (expectedIssuer expectedKeyID : string) (now : time) (leaseTTL : duration) (d : DB)
  : result (option LoginRedemption) * DB :=
  if negb (validUUIDText jti) || negb (slen secretHash =? 32) || (nodeID <=? 0)
     || String.eqb expectedIssuer "" || String.eqb expectedKeyID "" || (leaseTTL <=? 0)
  then (Fail ErrInvalidLoginHandoff, d)
  else
    let now := now_or clock now in
    match uuid_in jti with
    | None => (Fail sql_error, d)
    | Some jti =>
        match db_tickets d !! jti with
        | None => (Ok None, d)
        | Some t =>
            match redeemable d t secretHash nodeID expectedIssuer expectedKeyID now with
            | None => (Ok None, d)
            | Some (uid, l, gu, account) =>
                (Ok (Some {| lr_UserID := uid; lr_UserUUID := gu_UUID gu;
                             lr_Handle := na_LocalHandle account; lr_SessionID := ls_SessionID l;
                             lr_ActivityEpoch := ls_ActivityEpoch l;
                             lr_ControllerGeneration := tk_ControllerGeneration t;
                             lr_LeaseConfirmedAt := ts now; lr_LeaseExpiresAt := ts (now + leaseTTL) |}),
                 set_leases (<[uid :=
                    set_times l (ls_State l) (ts (now + leaseTTL)) (ls_LastPageHeartbeatAt l) (ts now)
                      (ts now) (ls_InFlightReads l) (ls_InFlightWrites l)]> (db_leases d))
                   (set_tickets (<[jti := consume t nodeID (ts now)]> (db_tickets d)) d))
            end
        end
    end.

(** The statement with which other components revoke open tickets (of a user, of
    a node, of an administrator). *)
Definition revokeTickets (p : string -> ControlTicket -> bool) (now : time) (d : DB) : DB :=
  set_tickets (update_where (fun jti t => p jti t && bool_decide (tk_ConsumedAt t = None))
                 (revoke (ts now)) (db_tickets d)) d.

(** ** What every operation keeps of tickets *)

(** The columns no statement changes after the insertion. *)
Definition ticket_core (t : ControlTicket) : ControlTicket :=
  {| tk_OperationID := tk_OperationID t; tk_SecretHash := tk_SecretHash t;
     tk_TicketType := tk_TicketType t; tk_Issuer := tk_Issuer t; tk_Audience := tk_Audience t;
     tk_Subject := tk_Subject t; tk_UserID := tk_UserID t; tk_TargetNodeID := tk_TargetNodeID t;
     tk_SessionID := tk_SessionID t; tk_ActivityEpoch := tk_ActivityEpoch t; tk_KeyID := tk_KeyID t;
     tk_ControllerGeneration := tk_ControllerGeneration t; tk_IssuedAt := tk_IssuedAt t;
     tk_NotBefore := tk_NotBefore t; tk_ExpiresAt := tk_ExpiresAt t; tk_ConsumedAt := None;
     tk_ConsumedByNodeID := None; tk_RevokedAt := None |}.

Definition ticket_le (t t' : ControlTicket) : Prop :=
  ticket_core t = ticket_core t'
  /\ (tk_ConsumedAt t <> None -> tk_ConsumedAt t' = tk_ConsumedAt t)
  /\ (tk_RevokedAt t <> None -> tk_RevokedAt t' = tk_RevokedAt t).

Definition tickets_step (d d' : DB) : Prop :=
  forall jti t, db_tickets d !! jti = Some t ->
    exists t', db_tickets d' !! jti = Some t' /\ ticket_le t t'.

#[export] Instance ticket_le_preorder : PreOrder ticket_le.
Proof.
  split; [by intros t|]. intros t1 t2 t3 (C1 & U1 & R1) (C2 & U2 & R2).
  split; [congruence|]. split.
  - intros Hc. pose proof (U1 Hc) as E1. rewrite <- E1. apply U2. by rewrite E1.
  - intros Hr. pose proof (R1 Hr) as E1. rewrite <- E1. apply R2. by rewrite E1.
Qed.

#[export] Instance tickets_step_preorder : PreOrder tickets_step.
Proof.
  split; [intros d jti t Ht; by exists t|].
  intros d1 d2 d3 H12 H23 jti t Ht. destruct (H12 _ _ Ht) as (t2 & Ht2 & L12).
  destruct (H23 _ _ Ht2) as (t3 & Ht3 & L23). exists t3. split; [done|by etrans].
Qed.

Lemma tickets_step_frame (d d' : DB) : db_tickets d' = db_tickets d -> tickets_step d d'.
Proof. intros E jti t Ht. exists t. by rewrite E. Qed.

Lemma tickets_step_update (d : DB) jti t t' (d' : DB) :
  db_tickets d' = <[jti := t']> (db_tickets d) -> db_tickets d !! jti = Some t -> ticket_le t t' ->
  tickets_step d d'.
Proof.
  intros E Ht Hle k u Hu. rewrite E. destruct (decide (jti = k)) as [<-|Hne].
  - exists t'. rewrite lookup_insert_eq. by simplify_eq.
  - exists u. by rewrite lookup_insert_ne.
Qed.

Lemma revoke_le now t : ticket_le t (revoke now t).
Proof. split; [done|]. split; [done|]. intros Hr. simpl. by destruct (tk_RevokedAt t). Qed.

Lemma tickets_step_revoke (p : string -> ControlTicket -> bool) now (d d' : DB) :
  db_tickets d' = update_where p (revoke now) (db_tickets d) -> tickets_step d d'.
Proof.
  intros E jti t Ht. rewrite E, update_where_lookup, Ht. simpl. eexists. split; [done|].
  destruct (p jti t); [apply revoke_le|done].
Qed.

Lemma revokeTickets_step p now d : tickets_step d (revokeTickets p now d).
Proof. by eapply tickets_step_revoke. Qed.

Lemma insert_ticket_ok jti t d x d' :
  insert_ticket jti t d = Ok (x, d') ->
  exists jti' opid sid,
    uuid_in jti = Some jti' /\ uuid_in (tk_OperationID t) = Some opid
    /\ (forall s, tk_SessionID t = Some s -> sid = uuid_in s)
    /\ db_tickets d !! jti' = None
    /\ (forall k u, db_tickets d !! k = Some u -> tk_OperationID u <> opid)
    /\ d' = set_tickets (<[jti' := ticket_row t opid sid]> (db_tickets d)) d.
Proof.
  intros Hi. unfold insert_ticket in Hi. tx_inv_uuid.
  match goal with Ho : uuid_param_opt _ _ = Ok (?c, ?d1) |- _ =>
    assert (d1 = d /\ forall s, tk_SessionID t = Some s -> c = uuid_in s) as [-> Hsid] end.
  { unfold uuid_param_opt in *. repeat case_match; simplify_eq; split; try done; intros; by simplify_eq. }
  match goal with Hif : (if ?b then _ else _) = Ok _ |- _ =>
    destruct b eqn:E; [done|]; injection Hif as _ <- end.
  repeat (apply orb_false_iff in E as [E ?]). b2p. apply eq_None_not_Some in E.
  do 3 eexists. repeat (split; [eassumption|]). split; [|done]. intros k u Hu.
  match goal with Hn : Nat.eqb _ _ = true |- _ => pose proof (rows_where_none _ _ _ _ Hn Hu) as Hne end.
  simpl in Hne. by b2p.
Qed.

(** ** The branches of a handoff *)

Inductive handoff_case (p : CreateLoginHandoffParams) (d : DB) (g : Z) : LoginHandoff -> DB -> Prop :=
| HC_replayed r h :
    acquire_case (leaseParams p g) d r true d ->
    getLoginHandoffByOperation (hp_OperationID p) (hp_UserID p) (hp_RequestedNodeID p) (hp_Now p) d
      = Ok (h, d) ->
    handoff_case p d g (mark_replayed h) d
| HC_new r d1 d' url :
    acquire_case (leaseParams p g) d r false d1 ->
    ls_ControllerGeneration (ar_Lease r) = g ->
    selectHandoffNode (ls_WriterNodeID (ar_Lease r)) (ar_Existing r) d1 = Ok (url, d1) ->
    insert_ticket (hp_JTI p) (ticket_for p (ar_Lease r) url g) d1 = Ok (tt, d') ->
    handoff_case p d g (new_handoff p r url g) d'.

Lemma selectHandoffNode_ok target existing d url d' :
  selectHandoffNode target existing d = Ok (url, d') ->
  d' = d /\ exists n, db_nodes d !! target = Some n /\ handoff_node d existing n = true
    /\ nd_BaseURL n = url.
Proof. unfold selectHandoffNode. intros Hs. repeat case_match; simplify_eq. eauto. Qed.

Lemma getLoginHandoffByOperation_state o u n now d h d' :
  getLoginHandoffByOperation o u n now d = Ok (h, d') -> d' = d.
Proof.
  unfold getLoginHandoffByOperation. intros Hg. tx_inv_uuid. repeat case_match; by simplify_eq.
Qed.

Lemma createLoginHandoffOnce_cases p d h d' :
  createLoginHandoffOnce p d = Ok (h, d') ->
  is_Some (db_users d !! hp_UserID p)
  /\ exists g, active_generation d = Some g /\ handoff_case p d g h d'.
Proof.
  intros Hc. unfold createLoginHandoffOnce in Hc.
  apply tx_bind_ok in Hc as (u & d0 & Hu & Hc).
  unfold lockGlobalUser in Hu. destruct (db_users d !! hp_UserID p) as [gu|] eqn:Eu; [|done].
  injection Hu as _ <-. split; [done|].
  apply tx_bind_ok in Hc as (g & d0 & Hg & Hc). unfold selectActiveGeneration in Hg.
  destruct (active_generation d) as [g'|] eqn:Eg; [|done]. injection Hg as -> <-.
  exists g. split; [done|].
  apply tx_bind_ok in Hc as ([r rep] & d1 & Ha & Hc). apply acquire_cases in Ha. destruct rep.
  - apply tx_bind_ok in Hc as (h0 & d2 & Hh & Hc). tx_inv.
    assert (d1 = d) as -> by (by inversion Ha).
    pose proof (getLoginHandoffByOperation_state _ _ _ _ _ _ _ Hh) as E. subst.
    by eapply HC_replayed.
  - apply tx_bind_ok in Hc as (u1 & d2 & Hr & Hc). unfold require in Hr.
    destruct (_ =? g) eqn:Egen; tx_inv. b2p.
    match goal with Hs : selectHandoffNode _ _ _ = Ok _ |- _ =>
      pose proof (selectHandoffNode_ok _ _ _ _ _ Hs) as [E _]; subst end.
    repeat match goal with u : () |- _ => destruct u end.
    by eapply HC_new.
Qed.

Lemma handoff_steps p d g h d' : handoff_case p d g h d' -> lease_step d d' /\ tickets_step d d'.
Proof.
  intros [r h0 _ _|r d1 d2 url Ha _ _ Hi]; [done|].
  apply insert_ticket_ok in Hi as (jti' & opid & sid & _ & _ & _ & Hnone & _ & ->).
  pose proof (acquire_step _ _ _ _ _ Ha) as Hl.
  assert (db_tickets d1 = db_tickets d) as Et by (by destruct (acquire_writes _ _ _ _ _ Ha) as (? & ? & ->)).
  split.
  - etrans; [exact Hl|]. by apply lease_step_frame.
  - intros jti t Ht. cbn. rewrite Et in Hnone |- *. exists t. rewrite lookup_insert_ne; [done|].
    intros ->. congruence.
Qed.

(** The statements of this file write three tables. *)
Definition handoff_writes (d d' : DB) : Prop :=
  exists tickets d1, lease_writes d d1 /\ d' = set_tickets tickets d1.

Lemma handoff_writes_refl d : handoff_writes d d.
Proof. exists (db_tickets d), d. split; [apply lease_writes_refl|by destruct d]. Qed.

Lemma CreateLoginHandoff_writes clock env p d :
  handoff_writes d (CreateLoginHandoff clock env p d).2.
Proof.
  unfold CreateLoginHandoff.
  match goal with |- context [if ?b then _ else _] => destruct b end; [apply handoff_writes_refl|].
  apply (@retrySerializable_rel _ handoff_writes); [intros ?; apply handoff_writes_refl|].
  intros h d' Hh. apply createLoginHandoffOnce_cases in Hh as (_ & g & _ & Hc).
  destruct Hc as [r h0 _ _|r d1 d2 url Ha _ _ Hi]; [apply handoff_writes_refl|].
  apply insert_ticket_ok in Hi as (? & ? & ? & _ & _ & _ & _ & _ & ->).
  eexists _, d1. split; [by eapply acquire_writes|done].
Qed.

Lemma CreateLoginHandoff_steps clock env p d :
  lease_step d (CreateLoginHandoff clock env p d).2 /\ tickets_step d (CreateLoginHandoff clock env p d).2.
Proof.
  unfold CreateLoginHandoff. match goal with |- context [if ?b then _ else _] => destruct b end; [done|].
  assert (Reflexive (fun d d' => lease_step d d' /\ tickets_step d d')) as Hrefl by (intros d0; by split).
  apply (@retrySerializable_rel _ _ Hrefl).
  intros h d' Hh. apply createLoginHandoffOnce_cases in Hh as (_ & g & _ & Hc). by eapply handoff_steps.
Qed.

(** What the consuming statement checks, as facts. *)
Lemma redeemable_facts d t h n iss key now uid l gu a :
  redeemable d t h n iss key now = Some (uid, l, gu, a) ->
  tk_UserID t = Some uid /\ tk_SessionID t = Some (ls_SessionID l)
  /\ tk_ActivityEpoch t = Some (ls_ActivityEpoch l)
  /\ tk_TargetNodeID t = n /\ ls_WriterNodeID l = n
  /\ tk_SecretHash t = h /\ tk_TicketType t = "user_login"
  /\ tk_ConsumedAt t = None /\ tk_RevokedAt t = None /\ ts now < tk_ExpiresAt t
  /\ db_leases d !! uid = Some l /\ db_users d !! uid = Some gu
  /\ db_accounts d !! (uid, n) = Some a
  /\ ls_State l = "active" /\ ts now < ls_LeaseExpiresAt l
  /\ active_generation d = Some (ls_ControllerGeneration l)
  /\ tk_ControllerGeneration t = ls_ControllerGeneration l
  /\ gu_UUID gu = tk_Subject t /\ gu_Status gu = "active" /\ na_Status a = "active".
Proof.
  unfold redeemable. intros Hr.
  destruct (tk_UserID t) as [u|], (tk_SessionID t) as [sid|], (tk_ActivityEpoch t) as [e|]; try done.
  destruct (db_leases d !! u) as [l0|] eqn:El; [|done]. destruct (db_users d !! u) as [gu0|] eqn:Eu; [|done].
  destruct (db_accounts d !! _) as [a0|] eqn:Ea; [|done].
  destruct (db_nodes d !! _) as [nd|] eqn:En; [|done].
  destruct (active_generation d) as [g|] eqn:Eg; [|done].
  match type of Hr with (if ?b then _ else _) = _ => destruct b eqn:E; [|done] end.
  injection Hr as -> -> -> ->. unfold fenced in E. rewrite !Z.gtb_ltb in E. b2p. subst.
  repeat split; congruence || lia || auto.
Qed.

Lemma ConsumeLoginHandoff_cases clock jti h n iss key now ttl d r d' :
  ConsumeLoginHandoff clock jti h n iss key now ttl d = (r, d') ->
  (d' = d /\ (forall lr, r <> Ok (Some lr)))
  \/ exists jti' t uid l gu a,
       uuid_in jti = Some jti' /\ db_tickets d !! jti' = Some t
       /\ redeemable d t h n iss key (now_or clock now) = Some (uid, l, gu, a)
       /\ d' = set_leases (<[uid :=
                  set_times l (ls_State l) (ts (now_or clock now + ttl)) (ls_LastPageHeartbeatAt l)
                    (ts (now_or clock now)) (ts (now_or clock now)) (ls_InFlightReads l)
                    (ls_InFlightWrites l)]> (db_leases d))
                (set_tickets (<[jti' := consume t n (ts (now_or clock now))]> (db_tickets d)) d)
       /\ r = Ok (Some {| lr_UserID := uid; lr_UserUUID := gu_UUID gu;
                lr_Handle := na_LocalHandle a; lr_SessionID := ls_SessionID l;
                lr_ActivityEpoch := ls_ActivityEpoch l;
                lr_ControllerGeneration := tk_ControllerGeneration t;
                lr_LeaseConfirmedAt := ts (now_or clock now);
                lr_LeaseExpiresAt := ts (now_or clock now + ttl) |}).
Proof.
  unfold ConsumeLoginHandoff. match goal with |- context [if ?b then _ else _] => destruct b end.
  { intros [= <- <-]. by left. }
  destruct (uuid_in jti) as [jti'|] eqn:Ej; [|intros [= <- <-]; by left].
  destruct (db_tickets d !! jti') as [t|] eqn:Et; [|intros [= <- <-]; by left].
  destruct (redeemable _ _ _ _ _ _ _) as [[[[uid l] gu] a]|] eqn:Er; [|intros [= <- <-]; by left].
  intros [= <- <-]. right. by exists jti', t, uid, l, gu, a.
Qed.

Lemma ConsumeLoginHandoff_writes clock jti h n iss key now ttl d :
  handoff_writes d (ConsumeLoginHandoff clock jti h n iss key now ttl d).2.
Proof.
  destruct (ConsumeLoginHandoff _ _ _ _ _ _ _ _ _) as [r d'] eqn:E. cbn.
  apply ConsumeLoginHandoff_cases in E
    as [[-> _]|(jti' & t & uid & l & gu & a & _ & Ht & Hr & -> & _)]; [apply handoff_writes_refl|].
  eexists _, (set_leases _ d). split; [apply set_leases_writes|done].
Qed.

Lemma ConsumeLoginHandoff_steps clock jti h n iss key now ttl d :
  let d' := (ConsumeLoginHandoff clock jti h n iss key now ttl d).2 in
  lease_step d d' /\ tickets_step d d'.
Proof.
  destruct (ConsumeLoginHandoff _ _ _ _ _ _ _ _ _) as [r d'] eqn:E. cbn.
  apply ConsumeLoginHandoff_cases in E as [[-> _]|(jti' & t & uid & l & gu & a & _ & Ht & Hr & -> & _)];
    [done|].
  apply redeemable_facts in Hr as (_ & _ & _ & _ & _ & _ & _ & Hc & Hv & _ & Hl & _).
  set (d1 := set_tickets (<[jti' := consume t n (ts (now_or clock now))]> (db_tickets d)) d).
  split.
  - trans d1; [by apply lease_step_frame|]. apply (lease_step_update d1 uid l); [done|done|done|done|].
    cbn. auto.
  - trans d1; [|by apply tickets_step_frame].
    eapply tickets_step_update; [done|done|]. split; [done|]. by rewrite Hc, Hv.
Qed.

(** The state after a new handoff. *)
Lemma handoff_new_state p d r d1 d' url g :
  acquire_case (leaseParams p g) d r false d1 ->
  insert_ticket (hp_JTI p) (ticket_for p (ar_Lease r) url g) d1 = Ok (tt, d') ->
  exists jti opid sid req outcome,
    uuid_in (hp_JTI p) = Some jti /\ uuid_in (hp_OperationID p) = Some opid
    /\ uuid_in (ls_SessionID (ar_Lease r)) = Some sid /\ uuid_in (hp_SessionID p) = Some req
    /\ db_tickets d' !! jti = Some (ticket_row (ticket_for p (ar_Lease r) url g) opid (Some sid))
    /\ (forall k u, db_tickets d' !! k = Some u -> tk_OperationID u = opid -> k = jti)
    /\ db_lease_ops d' !! opid = Some (operation_row (leaseParams p g) req outcome (ar_Lease r) sid)
    /\ ar_Acquired r = String.eqb outcome "acquired"
    /\ ar_Existing r = String.eqb outcome "existing" || String.eqb outcome "renewed"
    /\ db_leases d' = db_leases d1 /\ db_nodes d' = db_nodes d1 /\ db_users d' = db_users d
    /\ db_accounts d' = db_accounts d /\ active_generation d' = active_generation d.
Proof.
  intros Ha Hi.
  apply insert_ticket_ok in Hi as (jti & opid & sid & Hj & Hop & Hs & Hnone & Huniq & ->).
  cbn in Hop. specialize (Hs _ eq_refl). cbn in Hs.
  assert (exists req sid1 outcome, uuid_in (hp_SessionID p) = Some req
    /\ uuid_in (ls_SessionID (ar_Lease r)) = Some sid1
    /\ db_lease_ops d1 !! opid = Some (operation_row (leaseParams p g) req outcome (ar_Lease r) sid1)
    /\ ar_Acquired r = String.eqb outcome "acquired"
    /\ ar_Existing r = String.eqb outcome "existing" || String.eqb outcome "renewed"
    /\ db_users d1 = db_users d /\ db_accounts d1 = db_accounts d /\ db_epochs d1 = db_epochs d)
    as (req & sid1 & outcome & Hreq & Hsid1 & Hops & Hacq & Hex & Eu & Ea & Ee).
  { inversion Ha as [|? ? ? ? ? Hr|? ? ? gg ? ? ? ? Hp Hr|? ? ? gg ? ? Hp Hr]; subst;
      apply recordLeaseOperation_ok in Hr as (opid1 & req & sid1 & Hop1 & Hreq & Hs1 & _ & ->);
      cbn in Hop1, Hreq; rewrite Hop in Hop1; injection Hop1 as <-;
      exists req, sid1; eexists; (split; [done|]); (split; [done|]);
      cbn; rewrite lookup_insert_eq; (split; [done|]); (split; [done|]); (split; [done|]);
      try done; by apply put_lease_ok in Hp as (? & _ & _ & ->). }
  exists jti, opid, sid1, req, outcome. rewrite Hsid1 in Hs. subst sid.
  repeat (split; [done|]). split; [cbn; by rewrite lookup_insert_eq|].
  split; [|repeat (split; [done|]); unfold active_generation, active_epoch, active_epochs;
    cbn [db_epochs set_tickets]; by rewrite Ee].
  intros k u. cbn. rewrite lookup_insert_Some. intros [[-> _]|[_ Hk]]; [done|].
  intros Eo. by destruct (Huniq _ _ Hk).
Qed.

(** A committed request that was not answered from the journal. *)
Lemma CreateLoginHandoff_new clock env p d h d' (q := handoff_now clock p) :
  CreateLoginHandoff clock env p d = (Ok h, d') -> lh_Replayed h = false ->
  validUUIDText (hp_JTI p) = true /\ slen (hp_SecretHash p) = 32
  /\ hp_Issuer p <> ""%string /\ hp_KeyID p <> ""%string
  /\ exists g r d1 url, active_generation d = Some g
    /\ acquire_case (leaseParams q g) d r false d1 /\ ls_ControllerGeneration (ar_Lease r) = g
    /\ selectHandoffNode (ls_WriterNodeID (ar_Lease r)) (ar_Existing r) d1 = Ok (url, d1)
    /\ insert_ticket (hp_JTI q) (ticket_for q (ar_Lease r) url g) d1 = Ok (tt, d')
    /\ h = new_handoff q r url g.
Proof.
  intros Hc Hrep. unfold CreateLoginHandoff in Hc.
  match type of Hc with (if ?b then _ else _) = _ => destruct b eqn:E; [done|] end.
  b2p. repeat (split; [done|]). apply retrySerializable_spec in Hc.
  apply createLoginHandoffOnce_cases in Hc as (_ & g & Hg & Hc).
  destruct Hc as [r h0 _ _|r d1 d2 url Ha Hgen Hnode Hins]; [done|].
  exists g, r, d1, url. done.
Qed.

(** A fresh handoff can be redeemed, and what the node learns is what the
    browser was sent with.  After a request that was not a retry, the node the
    handoff names, presenting the secret, issuer and key of the request before
    the ticket and the lease expire, consumes the ticket: provided the user and
    the account on that node are active and the subject is the user's UUID, the
    answer carries the user, session, epoch and generation of the handoff, and
    the lease is renewed for the same writer. *)
Theorem fresh_handoff_redeems clock env p d h d' l gu a clock2 now2 ttl jti :
  lease_rows_ok d -> CreateLoginHandoff clock env p d = (Ok h, d') -> lh_Replayed h = false ->
  uuid_in (hp_JTI p) = Some jti ->
  db_leases d' !! hp_UserID p = Some l -> ls_State l = "active" ->
  db_users d !! hp_UserID p = Some gu -> gu_UUID gu = hp_Subject p -> gu_Status gu = "active" ->
  db_accounts d !! (hp_UserID p, lh_TargetNodeID h) = Some a -> na_Status a = "active" ->
  0 < lh_TargetNodeID h -> 0 < ttl ->
  let now := now_or clock (hp_Now p) in
  let at_ := now_or clock2 now2 in
  now <= at_ -> ts at_ < ts (now + hp_TicketTTL p) -> ts at_ < ls_LeaseExpiresAt l ->
  exists d2, ConsumeLoginHandoff clock2 (hp_JTI p) (hp_SecretHash p) (lh_TargetNodeID h)
       (hp_Issuer p) (hp_KeyID p) now2 ttl d'
     = (Ok (Some {| lr_UserID := hp_UserID p; lr_UserUUID := hp_Subject p;
          lr_Handle := na_LocalHandle a; lr_SessionID := ls_SessionID l;
          lr_ActivityEpoch := lh_ActivityEpoch h;
          lr_ControllerGeneration := lh_ControllerGeneration h;
          lr_LeaseConfirmedAt := ts at_; lr_LeaseExpiresAt := ts (at_ + ttl) |}), d2)
    /\ uuid_in (lh_SessionID h) = Some (ls_SessionID l)
    /\ exists l2, db_leases d2 !! hp_UserID p = Some l2
         /\ ls_WriterNodeID l2 = lh_TargetNodeID h /\ ls_LeaseExpiresAt l2 = ts (at_ + ttl).
Proof.
  intros Hok Hc Hrep Hj Hl Hst Hgu Huuid Hgs Ha Hast Hn Httl now at_ Hle Htk Hlx.
  apply CreateLoginHandoff_new in Hc
    as (Hvj & Hvs & Hvi & Hvk & g & r & d1 & url & Hg & Hacq & Hgen & Hnode & Hins & ->); [|done].
  destruct (handoff_new_state _ _ _ _ _ _ _ Hacq Hins)
    as (jti' & opid & sid & req & outcome & Hj' & _ & Hsid & _ & Htick & _ & _ & _ & _ & El & En & Eu & Ea & Eg).
  cbn in Hj'. rewrite Hj in Hj'. injection Hj' as <-. rewrite El in Hl.
  destruct (acquire_row _ _ _ _ Hacq Hok) as (l0 & Hl0 & Hw & He & Hcg & Hs0). cbn in Hl0.
  rewrite Hl0 in Hl. injection Hl as ->. rewrite Hs0 in Hsid. injection Hsid as <-.
  apply selectHandoffNode_ok in Hnode as (_ & n & Hn0 & _ & Hurl).
  cbn [new_handoff lh_TargetNodeID lh_ActivityEpoch lh_ControllerGeneration lh_SessionID] in *.
  set (t := ticket_row _ _ _) in Htick.
  assert (redeemable d' t (hp_SecretHash p) (ls_WriterNodeID (ar_Lease r)) (hp_Issuer p) (hp_KeyID p) at_
          = Some (hp_UserID p, l, gu, a)) as Hred.
  { unfold now in Htk, Hle. unfold redeemable, t. cbn. rewrite El, Hl0, Eu, Hgu, Ea, Ha, En, Hn0, Eg, Hg.
    cbn. rewrite Hurl, Huuid, Hgs, Hast, Hst. unfold fenced. rewrite Hw, He, Hcg, Hgen.
    rewrite !Z.eqb_refl, !String.eqb_refl, !Z.gtb_ltb.
    rewrite (proj2 (Z.ltb_lt _ _) Htk), (proj2 (Z.ltb_lt _ _) Hlx).
    rewrite (proj2 (Z.leb_le _ _) (ts_mono _ _ Hle)). done. }
  unfold ConsumeLoginHandoff. rewrite Hvj, Hvs, Hj.
  rewrite (proj2 (String.eqb_neq _ _) Hvi), (proj2 (String.eqb_neq _ _) Hvk).
  rewrite (proj2 (Z.leb_gt _ _) Hn), (proj2 (Z.leb_gt _ _) Httl). cbn [negb orb Z.eqb Pos.eqb].
  cbn in Htick. rewrite Htick. fold at_. rewrite Hred. eexists. split; [|split; [exact Hs0|]].
  - rewrite He, Huuid. done.
  - eexists. split; [cbn; by rewrite lookup_insert_eq|]. done.
Qed.

(** A request whose operation id is in the journal and whose ticket is open is
    answered from both. *)
Lemma createLoginHandoffOnce_replay p d opid jti o t n gu g :
  uuid_in (hp_OperationID p) = Some opid -> db_lease_ops d !! opid = Some o ->
  lo_UserID o = hp_UserID p -> lo_RequestedNodeID o = hp_RequestedNodeID p ->
  lo_RequestedSessionID o = hp_SessionID p ->
  db_tickets d !! jti = Some t -> tk_OperationID t = opid -> tk_TicketType t = "user_login" ->
  db_users d !! hp_UserID p = Some gu ->
  tk_ConsumedAt t = None -> tk_RevokedAt t = None ->
  active_generation d = Some g -> db_nodes d !! tk_TargetNodeID t = Some n ->
  (forall k u, db_tickets d !! k = Some u -> tk_OperationID u = opid -> k = jti) ->
  tk_ExpiresAt t >? ts (hp_Now p) = true ->
  createLoginHandoffOnce p d = Ok (mark_replayed (handoff_of_ticket jti t n (lo_Outcome o)), d).
Proof.
  intros Hop Ho Hou Hon Hos Ht Hto Htt Hgu Htc Htr Hg Hn Huniq Hexp.
  unfold createLoginHandoffOnce, lockGlobalUser. unfold tx_bind at 1. rewrite Hgu.
  unfold tx_bind at 1, selectActiveGeneration. rewrite Hg. unfold tx_bind at 1.
  unfold acquireActivityLeaseLocked, getLeaseOperation, uuid_param. unfold tx_bind at 1 2.
  cbn [ap_OperationID leaseParams]. rewrite Hop. unfold tx_ret at 1, tx_bind at 1, tx_read at 1.
  rewrite Ho. cbn [ap_UserID ap_WriterNodeID ap_SessionID leaseParams].
  rewrite Hou, Hon, Hos, !Z.eqb_refl, String.eqb_refl. cbn [negb orb]. unfold tx_ret at 1 2.
  unfold tx_bind, getLoginHandoffByOperation, tx_bind, uuid_param. rewrite Hop. unfold tx_ret at 1.
  rewrite (rows_where_head _ _ jti t Ht).
  - rewrite Ho, Hou, Hon, !Z.eqb_refl. cbn [andb]. by rewrite Hn.
  - rewrite Hto, Htt, Htc, Htr, Hexp, String.eqb_refl. done.
  - intros k u Hk Hp. b2p. by eapply Huniq.
Qed.

(** A retried login handoff gets the first answer.  Repeating a request that
    was answered, before its ticket expires and without a server abort, returns
    the same ticket, node, session, epoch and generation, marked as a replay, and
    changes nothing: no second lease transition and no second ticket. *)
Theorem handoff_retry_same clock env p d h d' clock2 env2 jti opid :
  lease_rows_ok d -> CreateLoginHandoff clock env p d = (Ok h, d') -> lh_Replayed h = false ->
  uuid_in (hp_JTI p) = Some jti -> uuid_in (hp_OperationID p) = Some opid ->
  uuid_in (hp_SessionID p) = Some (hp_SessionID p) ->
  at_abort (env2 0%nat) = None ->
  ts (now_or clock2 (hp_Now p)) < ts (now_or clock (hp_Now p) + hp_TicketTTL p) ->
  exists sid, uuid_in (lh_SessionID h) = Some sid
    /\ CreateLoginHandoff clock2 env2 p d'
       = (Ok {| lh_OperationID := opid; lh_JTI := jti; lh_UserID := lh_UserID h;
                lh_TargetNodeID := lh_TargetNodeID h; lh_NodeBaseURL := lh_NodeBaseURL h;
                lh_Subject := lh_Subject h; lh_SessionID := sid;
                lh_ActivityEpoch := lh_ActivityEpoch h;
                lh_ControllerGeneration := lh_ControllerGeneration h;
                lh_ExpiresAt := ts (lh_ExpiresAt h); lh_Acquired := lh_Acquired h;
                lh_Existing := lh_Existing h; lh_Replayed := true |}, d').
Proof.
  intros Hok Hc Hrep Hj Hop Hses Hab Htk. pose proof Hc as Hc0.
  apply CreateLoginHandoff_new in Hc
    as (_ & _ & _ & _ & g & r & d1 & url & Hg & Hacq & Hgen & Hnode & Hins & ->); [|done].
  destruct (handoff_new_state _ _ _ _ _ _ _ Hacq Hins)
    as (jti' & opid' & sid & req & outcome & Hj' & Hop' & Hsid & Hreq & Htick & Huniq & Hops
        & Hout1 & Hout2 & El & En & Eu & Ea & Eg).
  cbn in Hj', Hop', Hreq. rewrite Hj in Hj'. rewrite Hop in Hop'. rewrite Hses in Hreq.
  injection Hj' as <-. injection Hop' as <-. injection Hreq as <-.
  apply selectHandoffNode_ok in Hnode as (_ & n & Hn & _ & Hurl).
  exists sid. split; [exact Hsid|]. unfold CreateLoginHandoff in Hc0 |- *.
  match goal with |- (if ?b then _ else _) = _ => destruct b; [done|] end.
  apply retrySerializable_spec, createLoginHandoffOnce_cases in Hc0 as ([gu Hgu] & _).
  unfold retrySerializable, serializableRetryLimit. cbn [retry_loop]. rewrite Hab. unfold runTx.
  rewrite (createLoginHandoffOnce_replay (handoff_now clock2 p) d' opid jti _ _ n gu g
             Hop Hops (eq_refl _) (eq_refl _) (eq_refl _) Htick); [|done|done| |done|done|..].
  - unfold mark_replayed, handoff_of_ticket. cbn. rewrite Hout1, Hout2, Hurl. done.
  - rewrite Eu. exact Hgu.
  - rewrite Eg. done.
  - rewrite En. done.
  - intros k u Hk Hopid. by apply (Huniq k u).
  - cbn. rewrite Z.gtb_ltb. by apply Z.ltb_lt.
Qed.

End Handoffs.

#[export] Hint Resolve CreateLoginHandoff_writes ConsumeLoginHandoff_writes revokeTickets_step : stc.
#[export] Hint Extern 1 (lease_step _ (snd (CreateLoginHandoff _ _ _ _))) =>
  apply CreateLoginHandoff_steps : stc.
#[export] Hint Extern 1 (tickets_step _ (snd (CreateLoginHandoff _ _ _ _))) =>
  apply CreateLoginHandoff_steps : stc.
#[export] Hint Extern 1 (lease_step _ (snd (ConsumeLoginHandoff _ _ _ _ _ _ _ _ _))) =>
  apply ConsumeLoginHandoff_steps : stc.
#[export] Hint Extern 1 (tickets_step _ (snd (ConsumeLoginHandoff _ _ _ _ _ _ _ _ _))) =>
  apply ConsumeLoginHandoff_steps : stc.

(** ** Concrete runs *)

Definition demo_handoff : CreateLoginHandoffParams :=
  {| hp_OperationID := id_op; hp_JTI := id_jti; hp_SecretHash := digest32; hp_UserID := 7;
     hp_RequestedNodeID := 1; hp_SessionID := id_sid; hp_Issuer := "https://controller.example";
     hp_Subject := id_user; hp_KeyID := "k1"; hp_TicketTTL := Minute; hp_LeaseTTL := 5 * Minute;
     hp_ExistingWriterOnly := false; hp_Now := store_now |}.

Definition demo_handed : result LoginHandoff * DB :=
  @CreateLoginHandoff demo_postgres 0 no_abort demo_handoff demo_db.

Lemma demo_handed_ok : exists h, demo_handed = (Ok h, demo_handed.2) /\ lh_Replayed h = false
  /\ lh_TargetNodeID h = 1 /\ lh_ActivityEpoch h = 1.
Proof.
  assert (exists h, demo_handed.1 = Ok h /\ lh_Replayed h = false /\ lh_TargetNodeID h = 1
    /\ lh_ActivityEpoch h = 1) as (h & E & Hr & Ht & He)
    by (eexists; split; [vm_compute; reflexivity|repeat split; vm_compute; reflexivity]).
  exists h. split; [|done]. destruct demo_handed; cbn in *. congruence.
Qed.

Lemma fresh_handoff_redeems_witness :
  exists lr d2, @ConsumeLoginHandoff demo_postgres 0 id_jti digest32 1 "https://controller.example" "k1"
      (store_now + Second) (5 * Minute) demo_handed.2 = (Ok (Some lr), d2)
    /\ lr_Handle lr = "alice" /\ lr_ActivityEpoch lr = 1.
Proof.
  destruct demo_handed_ok as (h & Hh & Hr & Ht & He).
  assert (exists l, db_leases demo_handed.2 !! 7 = Some l /\ ls_State l = "active"
    /\ ls_LeaseExpiresAt l = store_now + 5 * Minute) as (l & Hl & Hs & Hx)
    by (eexists; split; [vm_compute; reflexivity|repeat split; vm_compute; reflexivity]).
  destruct (fresh_handoff_redeems (H := demo_postgres) 0 no_abort demo_handoff demo_db h demo_handed.2 l
    {| gu_UUID := id_user; gu_LegacyUserID := Some 3; gu_Status := "active" |}
    {| na_LocalHandle := "alice"; na_Status := "active" |} 0 (store_now + Second) (5 * Minute) id_jti
    demo_db_lease_rows_ok Hh Hr) as (d2 & Hc & _).
  - vm_compute. reflexivity.
  - exact Hl.
  - exact Hs.
  - reflexivity.
  - reflexivity.
  - reflexivity.
  - rewrite Ht. reflexivity.
  - reflexivity.
  - rewrite Ht. reflexivity.
  - reflexivity.
  - vm_compute. discriminate.
  - vm_compute. reflexivity.
  - rewrite Hx. vm_compute. reflexivity.
  - rewrite Ht in Hc. eexists _, d2. split; [exact Hc|]. split; [reflexivity|exact He].
Defined.

Lemma handoff_retry_same_witness :
  exists h, @CreateLoginHandoff demo_postgres (store_now + Second) no_abort demo_handoff demo_handed.2
      = (Ok h, demo_handed.2) /\ lh_JTI h = id_jti /\ lh_Replayed h = true.
Proof.
  destruct demo_handed_ok as (h & Hh & Hr & _).
  destruct (handoff_retry_same (H := demo_postgres) 0 no_abort demo_handoff demo_db h demo_handed.2
    (store_now + Second) no_abort id_jti id_op demo_db_lease_rows_ok Hh Hr) as (sid & _ & Hc);
    [vm_compute; reflexivity..|].
  eexists. split; [exact Hc|]. split; reflexivity.
Defined.
