(* ===== verification/Commands.v ===== *)
(** * The command queue of the Agents

    src/internal/store/commands.go: the Controller enqueues commands for a node, the
    node's Agent leases, acknowledges and finishes them, the Controller reads the
    result.  The other statements of the store that write the table are the expiry
    of a node's commands (agent_credentials.go, node_retirements.go) and the
    redaction of results (conflict_evidence.go).

    A row is one command, keyed by its operation id; its id names one delivery.
    [jsonb_in] is PostgreSQL's conversion of a JSON text to [jsonb].  The abstract
    command ([command]) and [command_does] say what each operation may make of a
    command; every operation does exactly that for every operation id. *)

From Stdlib Require Import ZArith Lia Ascii String.
From stdpp Require Import base list gmap strings relations.
From S2P Require Import Prelude GoStrings GoJson Schema Leases Handoffs.
#[local] Open Scope Z_scope.

Definition ErrInvalidAgentCommand : string := "invalid agent command input".
Definition ErrAgentCommandConflict : string := "agent command state conflict".

Record EnqueueAgentCommandParams := {
  eq_ID : string;
  eq_OperationID : string;
  eq_NodeID : Z;
  eq_CommandType : string;
  eq_EncryptedPayload : string;
  eq_PayloadSHA256 : string;
  eq_ExpiresAt : time;
  eq_Now : time;
  eq_ExpectedControllerGeneration : Z;
  eq_RequeueRetryableTerminal : bool
}.

Record AgentCommandLease := {
  al_ID : string;
  al_OperationID : string;
  al_CommandType : string;
  al_EncryptedPayload : string;
  al_PayloadSHA256 : string;
  al_Attempt : Z;
  al_ControllerGeneration : Z;
  al_LeaseUntil : time;
  al_ExpiresAt : time
}.

Record FinishAgentCommandParams := {
  fi_ID : string;
  fi_NodeID : Z;
  fi_WorkerID : string;
  fi_ControllerGeneration : Z;
  fi_Succeeded : bool;
  fi_ResultSummary : string;
  fi_ResultDigest : string;
  fi_Now : time
}.

Record AgentCommandResult := { cres_State : string; cres_ResultSummary : string; cres_UpdatedAt : time }.

(** ** Rows *)

(** The lease columns, the state and the result change; the rest of a row stays. *)
Definition with_lease (state : string) (owner : option string) (until : option time) (attempt : Z)
  (updated : time) (c : AgentCommand) : AgentCommand :=
  {| co_ID := co_ID c; co_NodeID := co_NodeID c; co_CommandType := co_CommandType c;
     co_Payload := co_Payload c; co_PayloadSHA256 := co_PayloadSHA256 c; co_State := state;
     co_ControllerGeneration := co_ControllerGeneration c; co_LeaseOwner := owner;
     co_LeaseUntil := until; co_Attempt := attempt; co_ExpiresAt := co_ExpiresAt c;
     co_ResultSummary := co_ResultSummary c; co_ResultDigest := co_ResultDigest c;
     co_CreatedAt := co_CreatedAt c; co_UpdatedAt := updated |}.

Definition with_result (state summary digest : string) (updated : time) (c : AgentCommand) : AgentCommand :=
  {| co_ID := co_ID c; co_NodeID := co_NodeID c; co_CommandType := co_CommandType c;
     co_Payload := co_Payload c; co_PayloadSHA256 := co_PayloadSHA256 c; co_State := state;
     co_ControllerGeneration := co_ControllerGeneration c; co_LeaseOwner := None;
     co_LeaseUntil := None; co_Attempt := co_Attempt c; co_ExpiresAt := co_ExpiresAt c;
     co_ResultSummary := Some summary; co_ResultDigest := Some digest;
     co_CreatedAt := co_CreatedAt c; co_UpdatedAt := updated |}.

(** A requeued row: a new delivery of the same command. *)
Definition requeued (id payload : string) (expires updated : time) (c : AgentCommand) : AgentCommand :=
  {| co_ID := id; co_NodeID := co_NodeID c; co_CommandType := co_CommandType c; co_Payload := payload;
     co_PayloadSHA256 := co_PayloadSHA256 c; co_State := "queued";
     co_ControllerGeneration := co_ControllerGeneration c; co_LeaseOwner := None; co_LeaseUntil := None;
     co_Attempt := 0; co_ExpiresAt := expires; co_ResultSummary := None; co_ResultDigest := None;
     co_CreatedAt := co_CreatedAt c; co_UpdatedAt := updated |}.

Definition put_command (op : string) (c : AgentCommand) (d : DB) : DB :=
  set_commands (<[op := c]> (db_commands d)) d.

(** The primary key: another command has this id. *)
Definition id_taken (d : DB) (op id : string) : bool :=
  negb (Nat.eqb (length (rows_where (fun op' c => negb (String.eqb op' op) && String.eqb (co_ID c) id)
                           (db_commands d))) 0).

Definition claimed (state : string) : bool := bool_decide (state ∈ ["leased"; "acked"; "running"]).

Section Commands.
Context `{Postgres} (jsonb_in : string -> option string).

(** ** Enqueueing *)

(** [bytes.Equal] on digests is equality. *)
Definition same_command (p : EnqueueAgentCommandParams) (c : AgentCommand) : bool :=
  (co_NodeID c =? eq_NodeID p) && String.eqb (co_CommandType c) (eq_CommandType p)
  && String.eqb (co_PayloadSHA256 c) (eq_PayloadSHA256 p).

(** The INSERT ... ON CONFLICT statement: the generation it returns, if it wrote a
    row. *)
Definition enqueue_statement (p : EnqueueAgentCommandParams) : Tx (option Z) :=
  let! id := uuid_param (eq_ID p) in
  let! op := uuid_param (eq_OperationID p) in
  match jsonb_in (eq_EncryptedPayload p) with
  | None => tx_fail sql_error
  | Some payload =>
      fun d =>
        match active_generation d with
        | None => Ok (None, d)
        | Some generation =>
            if negb ((eq_ExpectedControllerGeneration p =? 0)
                     || (generation =? eq_ExpectedControllerGeneration p))
            then Ok (None, d)
            else if generation <=? 0 then Fail sql_error
            else match db_commands d !! op with
            | Some c =>
                if same_command p c && (co_ControllerGeneration c =? generation)
                   && eq_RequeueRetryableTerminal p
                   && bool_decide (co_State c ∈ ["failed"; "expired"])
                then if id_taken d op id then Fail sql_error
                     else Ok (Some generation,
                              put_command op (requeued id payload (ts (eq_ExpiresAt p)) (ts (eq_Now p)) c) d)
                else Ok (None, d)
            | None =>
                if id_taken d op id || negb (bool_decide (is_Some (db_nodes d !! eq_NodeID p)))
                then Fail sql_error
                else Ok (Some generation, put_command op
                  {| co_ID := id; co_NodeID := eq_NodeID p; co_CommandType := eq_CommandType p;
                     co_Payload := payload; co_PayloadSHA256 := eq_PayloadSHA256 p; co_State := "queued";
                     co_ControllerGeneration := generation; co_LeaseOwner := None; co_LeaseUntil := None;
                     co_Attempt := 0; co_ExpiresAt := ts (eq_ExpiresAt p); co_ResultSummary := None;
                     co_ResultDigest := None; co_CreatedAt := ts (eq_Now p);
                     co_UpdatedAt := ts (eq_Now p) |} d)
            end
        end
  end.

(** The statement that answers a repeated enqueue. *)
Definition enqueue_lookup (p : EnqueueAgentCommandParams) (d : DB) : result Z :=
  match uuid_in (eq_OperationID p) with
  | None => Fail sql_error
  | Some op =>
      match db_commands d !! op with
      | None => Fail ErrNoActiveController
      | Some c =>
          if negb (same_command p c)
             || ((0 <? eq_ExpectedControllerGeneration p)
                 && negb (co_ControllerGeneration c =? eq_ExpectedControllerGeneration p))
          then Fail ErrAgentCommandConflict
          else Ok (co_ControllerGeneration c)
      end
  end.

(** [later] is what other transactions made of the database before the second
    statement reads it. *)
Definition EnqueueAgentCommand (clock : time) (p : EnqueueAgentCommandParams) (later : DB -> DB) (d : DB)
  : result Z * DB :=
  if String.eqb (eq_ID p) "" || String.eqb (eq_OperationID p) "" || (eq_NodeID p <=? 0)
     || String.eqb (eq_CommandType p) "" || negb (json_valid (eq_EncryptedPayload p))
     || negb (slen (eq_PayloadSHA256 p) =? 32) || is_zero (eq_ExpiresAt p)
     || (eq_ExpectedControllerGeneration p <? 0)
  then (Fail ErrInvalidAgentCommand, d)
  else
    let now := now_or clock (eq_Now p) in
    if negb (after (eq_ExpiresAt p) now) then (Fail ErrInvalidAgentCommand, d)
    else
      let p := {| eq_ID := eq_ID p; eq_OperationID := eq_OperationID p; eq_NodeID := eq_NodeID p;
                  eq_CommandType := eq_CommandType p; eq_EncryptedPayload := eq_EncryptedPayload p;
                  eq_PayloadSHA256 := eq_PayloadSHA256 p; eq_ExpiresAt := eq_ExpiresAt p; eq_Now := now;
                  eq_ExpectedControllerGeneration := eq_ExpectedControllerGeneration p;
                  eq_RequeueRetryableTerminal := eq_RequeueRetryableTerminal p |} in
      match runTx (enqueue_statement p) d with
      | (Fail e, d) => (Fail e, d)
      | (Ok (Some generation), d) => (Ok generation, d)
      | (Ok None, d) => (enqueue_lookup p (later d), d)
      end.

(** ** Leasing *)

(** The commands a draining node may still work on. *)
Definition draining_commands : list string :=
  ["prepare_snapshot_receive"; "start_snapshot"; "start_relay_receive"; "get_snapshot_receipt";
   "complete_independent_sync"; "capture_conflict_evidence"; "read_conflict_evidence_page";
   "start_conflict_evidence_transfer"; "prepare_conflict_resolution";
   "apply_conflict_resolution_decisions"; "publish_conflict_resolution"; "freeze_user_data";
   "release_user_data"].

(** The rows the Agent of [nodeID] may take at [now]. *)
Definition leasable (d : DB) (nodeID : Z) (now : time) (c : AgentCommand) : bool :=
  (co_NodeID c =? nodeID)
  && match db_epochs d !! co_ControllerGeneration c, db_nodes d !! nodeID with
     | Some e, Some n =>
         String.eqb (ep_State e) "active"
         && (nd_ControllerGeneration n =? co_ControllerGeneration c)
         && (String.eqb (nc_ControlMode (nd_Control n)) "managed"
             || (String.eqb (nc_ControlMode (nd_Control n)) "independent-draining"
                 && bool_decide (co_CommandType c ∈ draining_commands)))
     | _, _ => false
     end
  && ((String.eqb (co_State c) "queued" && (co_ExpiresAt c >? ts now))
      || (claimed (co_State c)
          && match co_LeaseUntil c with Some u => u <=? ts now | None => false end)).

(** The oldest of some rows. *)
Definition older (best : option (string * AgentCommand)) (x : string * AgentCommand) :=
  match best with
  | Some b => if co_CreatedAt x.2 <? co_CreatedAt b.2 then Some x else best
  | None => Some x
  end.

(** The row FOR UPDATE ... SKIP LOCKED LIMIT 1; [locked] are the operations whose
    rows other transactions hold. *)
Definition next_command (d : DB) (nodeID : Z) (now : time) (locked : string -> bool)
  : option (string * AgentCommand) :=
  foldl older None
    (rows_where (fun op c => negb (locked op) && leasable d nodeID now c) (db_commands d)).

Definition LeaseAgentCommand (clock : time) (locked : string -> bool) (nodeID : Z) (workerID : string)
  (now : time) (leaseTTL : duration) (d : DB) : result (option AgentCommandLease) * DB :=
  if (nodeID <=? 0) || String.eqb workerID "" || (leaseTTL <=? 0)
  then (Fail ErrInvalidAgentCommand, d)
  else
    let now := now_or clock now in
    match next_command d nodeID now locked with
    | None => (Ok None, d)
    | Some (op, c) =>
        let attempt := co_Attempt c + 1 in
        let until := now + leaseTTL in
        if MaxInt32 <? attempt then (Fail sql_error, d)
        else (Ok (Some {| al_ID := co_ID c; al_OperationID := op; al_CommandType := co_CommandType c;
                          al_EncryptedPayload := co_Payload c; al_PayloadSHA256 := co_PayloadSHA256 c;
                          al_Attempt := attempt; al_ControllerGeneration := co_ControllerGeneration c;
                          al_LeaseUntil := until; al_ExpiresAt := co_ExpiresAt c |}),
              set_commands (update_where (fun _ c' => String.eqb (co_ID c') (co_ID c))
                (with_lease "leased" (Some workerID) (Some (ts until)) attempt (ts now))
                (db_commands d)) d)
    end.

(** ** Acknowledging and finishing *)

(** The row the holder of a delivery may still write. *)
Definition held_by (id : string) (nodeID : Z) (workerID : string) (generation : Z) (c : AgentCommand) : bool :=
  String.eqb (co_ID c) id && (co_NodeID c =? nodeID)
  && bool_decide (co_LeaseOwner c = Some workerID) && (co_ControllerGeneration c =? generation).

(** [UPDATE] and the number of rows it changed. *)
Definition update_commands (p : string -> AgentCommand -> bool) (f : AgentCommand -> AgentCommand) (d : DB)
  : result bool * DB :=
  (Ok (Nat.eqb (length (rows_where p (db_commands d))) 1), set_commands (update_where p f (db_commands d)) d).

Definition AckAgentCommand (clock : time) (id : string) (nodeID : Z) (workerID : string) (generation : Z)
  (now : time) (runTTL : duration) (d : DB) : result bool * DB :=
  if String.eqb id "" || (nodeID <=? 0) || String.eqb workerID "" || (generation <=? 0) || (runTTL <=? 0)
  then (Fail ErrInvalidAgentCommand, d)
  else
    let now := now_or clock now in
    match uuid_in id with
    | None => (Fail sql_error, d)
    | Some id =>
        update_commands
          (fun _ c => held_by id nodeID workerID generation c
                      && bool_decide (co_State c ∈ ["leased"; "running"])
                      && match co_LeaseUntil c with Some u => u >? ts now | None => false end)
          (fun c => with_lease "running" (co_LeaseOwner c) (Some (ts (now + runTTL))) (co_Attempt c) (ts now) c) d
    end.

Definition ClampAgentCommandRunLeases (clock : time) (nodeID : Z) (now : time) (maxTTL : duration) (d : DB)
  : result unit * DB :=
  if (nodeID <=? 0) || (maxTTL <=? 0) then (Fail ErrInvalidAgentCommand, d)
  else
    let now := now_or clock now in
    (Ok tt, set_commands (update_where
       (fun _ c => (co_NodeID c =? nodeID) && bool_decide (co_State c ∈ ["acked"; "running"])
                   && match co_LeaseUntil c with Some u => u >? ts (now + maxTTL) | None => false end)
       (fun c => with_lease (co_State c) (co_LeaseOwner c) (Some (ts (now + maxTTL))) (co_Attempt c) (ts now) c)
       (db_commands d)) d).

Definition FinishAgentCommand (clock : time) (p : FinishAgentCommandParams) (d : DB) : result bool * DB :=
  if String.eqb (fi_ID p) "" || (fi_NodeID p <=? 0) || String.eqb (fi_WorkerID p) ""
     || (fi_ControllerGeneration p <=? 0) || negb (json_valid (fi_ResultSummary p))
     || negb (slen (fi_ResultDigest p) =? 32)
  then (Fail ErrInvalidAgentCommand, d)
  else
    let now := now_or clock (fi_Now p) in
    let state := if fi_Succeeded p then "succeeded"%string else "failed"%string in
    match uuid_in (fi_ID p), jsonb_in (fi_ResultSummary p) with
    | Some id, Some summary =>
        update_commands
          (fun _ c => held_by id (fi_NodeID p) (fi_WorkerID p) (fi_ControllerGeneration p) c
                      && claimed (co_State c))
          (with_result state summary (fi_ResultDigest p) (ts now)) d
    | _, _ => (Fail sql_error, d)
    end.

(** ** Reading the result *)

Definition expire (now : time) (c : AgentCommand) : AgentCommand :=
  with_lease "expired" (co_LeaseOwner c) (co_LeaseUntil c) (co_Attempt c) (ts now) c.

(** [clock] is the server's [now()].  The SELECT reads the snapshot the statement
    started with, so it does not see the expiry the same statement makes. *)
Definition GetAgentCommandResult (clock : time) (operationID : string) (d : DB)
  : result (option AgentCommandResult) * DB :=
  if String.eqb operationID "" then (Fail ErrInvalidAgentCommand, d)
  else match uuid_in operationID with
  | None => (Fail sql_error, d)
  | Some op =>
      (Ok ((fun c => {| cres_State := co_State c;
                        cres_ResultSummary := default "{}"%string (co_ResultSummary c);
                        cres_UpdatedAt := co_UpdatedAt c |}) <$> db_commands d !! op),
       set_commands (update_where
         (fun op' c => String.eqb op' op && String.eqb (co_State c) "queued" && (co_ExpiresAt c <=? ts clock))
         (expire clock) (db_commands d)) d)
  end.

(** ** Statements of other files *)

(** The expiry of a node's open commands when its credential is replaced or it is
    retired. *)
Definition expireNodeCommands (nodeID : Z) (now : time) (d : DB) : DB :=
  set_commands (update_where
    (fun _ c => (co_NodeID c =? nodeID) && (String.eqb (co_State c) "queued" || claimed (co_State c)))
    (expire now) (db_commands d)) d.

(** The redaction of ingested results. *)
Definition redactResults (ops : list string) (summary digest : string) (now : time) (d : DB) : DB :=
  set_commands (update_where
    (fun op c => bool_decide (op ∈ ops) && String.eqb (co_State c) "succeeded")
    (fun c => {| co_ID := co_ID c; co_NodeID := co_NodeID c; co_CommandType := co_CommandType c;
                 co_Payload := co_Payload c; co_PayloadSHA256 := co_PayloadSHA256 c; co_State := co_State c;
                 co_ControllerGeneration := co_ControllerGeneration c; co_LeaseOwner := co_LeaseOwner c;
                 co_LeaseUntil := co_LeaseUntil c; co_Attempt := co_Attempt c; co_ExpiresAt := co_ExpiresAt c;
                 co_ResultSummary := Some summary; co_ResultDigest := Some digest;
                 co_CreatedAt := co_CreatedAt c; co_UpdatedAt := ts now |})
    (db_commands d)) d.

(** ** Runs *)

Inductive command_event :=
| CEnqueue (clock : time) (p : EnqueueAgentCommandParams) (later : DB -> DB)
| CLease (clock : time) (locked : string -> bool) (nodeID : Z) (workerID : string) (now : time) (ttl : duration)
| CAck (clock : time) (id : string) (nodeID : Z) (workerID : string) (generation : Z) (now : time) (ttl : duration)
| CClamp (clock : time) (nodeID : Z) (now : time) (maxTTL : duration)
| CFinish (clock : time) (p : FinishAgentCommandParams)
| CGet (clock : time) (operationID : string)
| CExpireNode (nodeID : Z) (now : time)
| CRedact (ops : list string) (summary digest : string) (now : time)
| COther (f : DB -> DB).

Definition command_effect (ev : command_event) (d : DB) : DB :=
  match ev with
  | CEnqueue clock p later => (EnqueueAgentCommand clock p later d).2
  | CLease clock locked n w now ttl => (LeaseAgentCommand clock locked n w now ttl d).2
  | CAck clock id n w g now ttl => (AckAgentCommand clock id n w g now ttl d).2
  | CClamp clock n now ttl => (ClampAgentCommandRunLeases clock n now ttl d).2
  | CFinish clock p => (FinishAgentCommand clock p d).2
  | CGet clock op => (GetAgentCommandResult clock op d).2
  | CExpireNode n now => expireNodeCommands n now d
  | CRedact ops s g now => redactResults ops s g now d
  | COther f => set_commands (db_commands d) (f d)
  end.

Definition command_run (d : DB) (evs : list command_event) : DB := foldl (fun d ev => command_effect ev d) d evs.

(** ** Well-formed rows *)

Definition command_states : list string :=
  ["queued"; "leased"; "acked"; "running"; "succeeded"; "failed"; "cancelled"; "expired"].

(** The CHECK constraints, and the columns each state uses. *)
Record command_wf (c : AgentCommand) : Prop := {
  cw_state : co_State c ∈ command_states;
  cw_generation : 0 < co_ControllerGeneration c;
  cw_attempt : 0 <= co_Attempt c <= MaxInt32;
  cw_queued : co_State c = "queued" ->
    co_LeaseOwner c = None /\ co_LeaseUntil c = None /\ co_ResultDigest c = None;
  cw_claimed : claimed (co_State c) = true ->
    is_Some (co_LeaseOwner c) /\ is_Some (co_LeaseUntil c) /\ 0 < co_Attempt c /\ co_ResultDigest c = None;
  cw_finished : co_State c ∈ ["succeeded"; "failed"] ->
    co_LeaseOwner c = None /\ co_LeaseUntil c = None /\ is_Some (co_ResultDigest c)
}.

Record commands_wf (d : DB) : Prop := {
  csw_rows : forall op c, db_commands d !! op = Some c -> command_wf c;
  csw_ids : forall op op' c c', db_commands d !! op = Some c -> db_commands d !! op' = Some c' ->
    co_ID c = co_ID c' -> op = op'
}.

(** The operations by what they do to a row. *)
Inductive row_kind := KEnqueue | KLease | KRenew | KFinish | KExpire | KRedact | KNone.

#[export] Instance row_kind_eq_dec : EqDecision row_kind.
Proof. solve_decision. Defined.

(** What an operation may make of a row. *)
Inductive row_step (k : row_kind) : option AgentCommand -> option AgentCommand -> Prop :=
| RS_same o : row_step k o o
| RS_new c : k = KEnqueue -> co_State c = "queued" -> co_Attempt c = 0 -> co_LeaseOwner c = None -> co_LeaseUntil c = None ->
    co_ResultDigest c = None -> 0 < co_ControllerGeneration c -> row_step k None (Some c)
| RS_requeue c id payload expires updated : k = KEnqueue -> co_State c ∈ ["failed"; "expired"] ->
    row_step k (Some c) (Some (requeued id payload expires updated c))
| RS_lease c w until updated : k = KLease -> co_State c = "queued" \/ claimed (co_State c) = true ->
    co_Attempt c + 1 <= MaxInt32 ->
    row_step k (Some c) (Some (with_lease "leased" (Some w) (Some until) (co_Attempt c + 1) updated c))
| RS_renew c state until updated : k = KRenew -> claimed (co_State c) = true -> claimed state = true ->
    row_step k (Some c) (Some (with_lease state (co_LeaseOwner c) (Some until) (co_Attempt c) updated c))
| RS_finish c state summary digest updated : k = KFinish -> claimed (co_State c) = true -> state ∈ ["succeeded"; "failed"] ->
    row_step k (Some c) (Some (with_result state summary digest updated c))
| RS_expire c now : k = KExpire -> co_State c = "queued" \/ claimed (co_State c) = true -> row_step k (Some c) (Some (expire now c))
| RS_redact c summary digest updated : k = KRedact -> co_State c = "succeeded" ->
    row_step k (Some c) (Some
      {| co_ID := co_ID c; co_NodeID := co_NodeID c; co_CommandType := co_CommandType c;
         co_Payload := co_Payload c; co_PayloadSHA256 := co_PayloadSHA256 c; co_State := co_State c;
         co_ControllerGeneration := co_ControllerGeneration c; co_LeaseOwner := co_LeaseOwner c;
         co_LeaseUntil := co_LeaseUntil c; co_Attempt := co_Attempt c; co_ExpiresAt := co_ExpiresAt c;
         co_ResultSummary := Some summary; co_ResultDigest := Some digest;
         co_CreatedAt := co_CreatedAt c; co_UpdatedAt := updated |}).

(** An UPDATE of the table steps every row it selects. *)
Lemma update_row_step k (p : string -> AgentCommand -> bool) f (m : gmap string AgentCommand) op :
  (forall c, m !! op = Some c -> p op c = true -> row_step k (Some c) (Some (f c))) ->
  row_step k (m !! op) (update_where p f m !! op).
Proof.
  intros Hf. rewrite update_where_lookup. destruct (m !! op) as [c|]; [|constructor]. cbn.
  destruct (p op c) eqn:E; [auto|constructor].
Qed.

Lemma id_taken_false d op id op' c :
  id_taken d op id = false -> db_commands d !! op' = Some c -> co_ID c = id -> op' = op.
Proof.
  unfold id_taken. intros Ht Hl Hid. apply negb_false_iff in Ht.
  pose proof (rows_where_none _ _ _ _ Ht Hl) as Hp. cbn in Hp.
  destruct (String.eqb_spec op' op) as [->|]; [done|]. cbn in Hp. b2p. done.
Qed.

(** What the enqueue statement writes. *)
Lemma enqueue_statement_cases p d r d' :
  enqueue_statement p d = Ok (r, d') ->
  d' = d \/ exists op c', uuid_in (eq_OperationID p) = Some op /\ d' = put_command op c' d
    /\ id_taken d op (co_ID c') = false /\ row_step KEnqueue (db_commands d !! op) (Some c')
    /\ (forall c, db_commands d !! op = Some c -> eq_RequeueRetryableTerminal p = true).
Proof.
  unfold enqueue_statement. intros E. tx_inv_uuid.
  destruct (jsonb_in _) as [payload|]; [|done].
  match goal with E0 : uuid_in (eq_OperationID p) = Some ?x |- _ => rename x into op; rename E0 into Hop end.
  match goal with E0 : match active_generation ?d0 with _ => _ end = _ |- _ =>
    rename E0 into E; destruct (active_generation d0) as [g|] eqn:Eg end; [|by injection E as <- <-; left].
  destruct (negb _); [by injection E as <- <-; left|]. destruct (g <=? 0) eqn:Hg; [done|]. b2p.
  destruct (db_commands _ !! op) as [c|] eqn:Ec.
  - destruct (_ && _ && _ && _) eqn:Eb; [|by injection E as <- <-; left]. b2p.
    destruct (id_taken _ _ _) eqn:Et; [done|]. injection E as _ <-. right. eexists op, _.
    split; [done|]. split; [reflexivity|]. split; [done|]. rewrite Ec. split; [by constructor|done].
  - destruct (_ || _) eqn:Eb; [done|]. b2p. injection E as _ <-. right. eexists op, _.
    split; [done|]. split; [reflexivity|]. split; [done|]. rewrite Ec. split; [by constructor|done].
Qed.

Lemma EnqueueAgentCommand_cases clock p later d (d' := (EnqueueAgentCommand clock p later d).2) :
  d' = d \/ exists op c', uuid_in (eq_OperationID p) = Some op /\ d' = put_command op c' d
    /\ id_taken d op (co_ID c') = false /\ row_step KEnqueue (db_commands d !! op) (Some c')
    /\ (forall c, db_commands d !! op = Some c -> eq_RequeueRetryableTerminal p = true).
Proof.
  subst d'. unfold EnqueueAgentCommand.
  match goal with |- context [if ?b then _ else _] => destruct b end; [by left|].
  destruct (negb _); [by left|]. unfold runTx.
  match goal with |- context [enqueue_statement ?q d] =>
    destruct (enqueue_statement q d) as [[r d1]|e] eqn:E end; [|by left].
  apply enqueue_statement_cases in E. destruct r; exact E.
Qed.

Lemma older_fold l : forall best x,
  foldl older best l = Some x ->
  (Some x = best \/ x ∈ l)
  /\ (forall b, best = Some b -> co_CreatedAt x.2 <= co_CreatedAt b.2)
  /\ (forall y, y ∈ l -> co_CreatedAt x.2 <= co_CreatedAt y.2).
Proof.
  induction l as [|y l IH]; intros best x; cbn [foldl].
  { intros ->. split; [by left|]. split; [intros b [= ->]; lia|]. intros y Hy. by apply elem_of_nil in Hy. }
  intros E. destruct (IH _ _ E) as (Hin & Hb & Hl). clear E IH.
  assert (co_CreatedAt x.2 <= co_CreatedAt y.2 /\ (forall b, best = Some b -> co_CreatedAt x.2 <= co_CreatedAt b.2))
    as [Hy Hbest].
  { unfold older in *. destruct best as [b|].
    - destruct (_ <? _) eqn:E; b2p; specialize (Hb _ eq_refl); (split; [lia|]); intros b' [= <-]; lia.
    - specialize (Hb _ eq_refl). by split. }
  split; [|split; [done|]].
  - destruct Hin as [Hin|Hin]; [|right; by apply list_elem_of_further].
    unfold older in Hin. destruct best as [b|]; [destruct (_ <? _)|]; simplify_eq; auto;
      right; apply list_elem_of_here.
  - intros z [->|Hz]%elem_of_cons; auto.
Qed.

Lemma older_fold_none l best : foldl older best l = None -> best = None /\ l = [].
Proof.
  revert best. induction l as [|y l IH]; intros best; cbn [foldl]; [done|].
  intros [E _]%IH. unfold older in E. by destruct best as [b|]; [destruct (_ <? _)|].
Qed.

Lemma next_command_some d n now locked op c :
  next_command d n now locked = Some (op, c) ->
  db_commands d !! op = Some c /\ locked op = false /\ leasable d n now c = true
  /\ (forall op' c', db_commands d !! op' = Some c' -> locked op' = false -> leasable d n now c' = true ->
      co_CreatedAt c <= co_CreatedAt c').
Proof.
  unfold next_command. intros E. destruct (older_fold _ _ _ E) as ([E'|Hin] & _ & Hmin); [done|].
  apply rows_where_elem in Hin as [Hl Hp]. b2p. split_and!; try done.
  intros op' c' Hl' Hlk Hle. apply (Hmin (op', c')). apply rows_where_elem. by rewrite Hlk, Hle.
Qed.

Lemma next_command_none d n now locked op c :
  next_command d n now locked = None -> db_commands d !! op = Some c -> locked op = false ->
  leasable d n now c = false.
Proof.
  unfold next_command. intros [_ E]%older_fold_none Hl Hlk. destruct (leasable d n now c) eqn:El; [|done].
  assert ((op, c) ∈ rows_where (fun op c => negb (locked op) && leasable d n now c) (db_commands d)) as Hin.
  { apply rows_where_elem. by rewrite Hlk, El. }
  rewrite E in Hin. by apply elem_of_nil in Hin.
Qed.

Lemma leasable_state d n now c :
  leasable d n now c = true ->
  (co_State c = "queued" \/ claimed (co_State c) = true)
  /\ co_NodeID c = n
  /\ (exists e nd, db_epochs d !! co_ControllerGeneration c = Some e /\ ep_State e = "active"
        /\ db_nodes d !! n = Some nd /\ nd_ControllerGeneration nd = co_ControllerGeneration c
        /\ (nc_ControlMode (nd_Control nd) = "managed"
            \/ nc_ControlMode (nd_Control nd) = "independent-draining" /\ co_CommandType c ∈ draining_commands))
  /\ (co_State c = "queued" -> ts now < co_ExpiresAt c)
  /\ (claimed (co_State c) = true -> exists u, co_LeaseUntil c = Some u /\ u <= ts now).
Proof.
  unfold leasable. intros E. apply andb_true_iff in E as [E E3]. apply andb_true_iff in E as [E1 E2].
  destruct (db_epochs d !! _) as [e|]; [|done]. destruct (db_nodes d !! n) as [nd|]; [|done]. b2p.
  assert (claimed "queued" = false) as Hq by reflexivity.
  apply orb_true_iff in E3 as [E3|E3]; rewrite ?Z.gtb_ltb in E3; b2p.
  - match goal with Hs : co_State c = _ |- _ => rewrite Hs, ?Hq end.
    split_and!; try done; [by left|]. exists e, nd. split_and!; try done.
    match goal with Ho : _ || _ = true |- _ => apply orb_true_iff in Ho as [Ho|Ho] end; b2p; auto.
  - split_and!; try done; [by right| | |].
    + exists e, nd. split_and!; try done.
      match goal with Ho : _ || _ = true |- _ => apply orb_true_iff in Ho as [Ho|Ho] end; b2p; auto.
    + intros Hs. by rewrite Hs in *.
    + intros _. destruct (co_LeaseUntil c) as [u|]; [|done]. exists u. b2p. done.
Qed.

(** What a lease writes. *)
Lemma LeaseAgentCommand_cases clock locked n w now ttl d r d' :
  LeaseAgentCommand clock locked n w now ttl d = (r, d') ->
  (d' = d /\ forall l, r <> Ok (Some l))
  \/ exists op c (t := now_or clock now), next_command d n t locked = Some (op, c)
     /\ co_Attempt c + 1 <= MaxInt32
     /\ r = Ok (Some {| al_ID := co_ID c; al_OperationID := op; al_CommandType := co_CommandType c;
                        al_EncryptedPayload := co_Payload c; al_PayloadSHA256 := co_PayloadSHA256 c;
                        al_Attempt := co_Attempt c + 1; al_ControllerGeneration := co_ControllerGeneration c;
                        al_LeaseUntil := t + ttl; al_ExpiresAt := co_ExpiresAt c |})
     /\ d' = set_commands (update_where (fun _ c' => String.eqb (co_ID c') (co_ID c))
               (with_lease "leased" (Some w) (Some (ts (t + ttl))) (co_Attempt c + 1) (ts t)) (db_commands d)) d.
Proof.
  unfold LeaseAgentCommand. destruct (_ || _ || _); [intros [= <- <-]; by left|].
  destruct (next_command _ _ _ _) as [[op c]|] eqn:E; [|intros [= <- <-]; by left].
  destruct (MaxInt32 <? co_Attempt c + 1) eqn:Ea; [intros [= <- <-]; by left|]. b2p.
  intros [= <- <-]. right. exists op, c. by split_and!.
Qed.

Definition event_kind (ev : command_event) : row_kind :=
  match ev with
  | CEnqueue _ _ _ => KEnqueue
  | CLease _ _ _ _ _ _ => KLease
  | CAck _ _ _ _ _ _ _ | CClamp _ _ _ _ => KRenew
  | CFinish _ _ => KFinish
  | CGet _ _ | CExpireNode _ _ => KExpire
  | CRedact _ _ _ _ => KRedact
  | COther _ => KNone
  end.

(** Every operation steps every row. *)
Lemma event_row_step ev d op :
  commands_wf d -> row_step (event_kind ev) (db_commands d !! op) (db_commands (command_effect ev d) !! op).
Proof.
  intros Hwf. destruct ev; cbn [command_effect].
  - destruct (EnqueueAgentCommand_cases clock p later d) as [->|(op' & c' & _ & -> & _ & Hs & _)]; [constructor|].
    cbn. destruct (decide (op' = op)) as [->|Hne]; [by rewrite lookup_insert_eq|].
    rewrite lookup_insert_ne by done. constructor.
  - destruct (LeaseAgentCommand clock locked nodeID workerID now ttl d) as [r d'] eqn:E. cbn [snd].
    apply LeaseAgentCommand_cases in E as [[-> _]|(op' & c & Hn & Ha & _ & ->)]; [constructor|].
    apply next_command_some in Hn as (Hl & _ & Hle & _). apply leasable_state in Hle as (Hst & _).
    apply update_row_step. intros c' Hl' Hid. b2p.
    assert (op = op') as -> by (by eapply (csw_ids _ Hwf)). simplify_eq. by constructor.
  - unfold AckAgentCommand. repeat (case_match; try constructor).
    apply update_row_step. intros c _ Hp. b2p. apply RS_renew; [done| |done].
    unfold claimed. apply bool_decide_eq_true. set_unfold. naive_solver.
  - unfold ClampAgentCommandRunLeases. case_match; [constructor|]. apply update_row_step. intros c _ Hp. b2p.
    assert (claimed (co_State c) = true) as Hc
      by (unfold claimed; apply bool_decide_eq_true; set_unfold; naive_solver).
    by apply RS_renew.
  - unfold FinishAgentCommand. repeat (case_match; try constructor);
      apply update_row_step; intros c _ Hp; b2p; (apply RS_finish; [done|done|set_solver]).
  - unfold GetAgentCommandResult. repeat (case_match; try constructor).
    apply update_row_step. intros c _ Hp. b2p. apply RS_expire; [done|]. by left.
  - apply update_row_step. intros c _ Hp. b2p. apply RS_expire; [done|].
    match goal with Ho : _ || _ = true |- _ => apply orb_true_iff in Ho as [Ho|Ho] end; b2p; auto.
  - apply update_row_step. intros c _ Hp. b2p. by apply RS_redact.
  - constructor.
Qed.

(** ** The abstract command *)

Inductive phase :=
| Queued
| Held (stage worker : string) (until : time)
| Done (ok : bool) (digest : string)
| Expired
| Cancelled.

(** What is asked of which node, under which generation. *)
Record request := { rq_node : Z; rq_type : string; rq_payload_digest : string; rq_generation : Z }.

Record command := Cmd {
  ab_request : request;
  ab_delivery : string;
  ab_phase : phase;
  ab_attempt : Z;
  ab_expires : time
}.

Definition in_phase (ph : phase) (c : command) : command :=
  Cmd (ab_request c) (ab_delivery c) ph (ab_attempt c) (ab_expires c).

(** The caller is the worker that holds this delivery for its node and generation. *)
Definition holds (id : string) (nodeID : Z) (workerID : string) (generation : Z) (c : command) : bool :=
  bool_decide (uuid_in id = Some (ab_delivery c)) && (rq_node (ab_request c) =? nodeID)
  && match ab_phase c with Held _ w _ => String.eqb w workerID | _ => false end
  && (rq_generation (ab_request c) =? generation).

(** The calls that reach the table. *)
Definition ack_valid (id : string) (nodeID : Z) (workerID : string) (generation : Z) (ttl : duration) : bool :=
  negb (String.eqb id "") && (0 <? nodeID) && negb (String.eqb workerID "") && (0 <? generation) && (0 <? ttl).
Definition finish_valid (p : FinishAgentCommandParams) : bool :=
  negb (String.eqb (fi_ID p) "") && (0 <? fi_NodeID p) && negb (String.eqb (fi_WorkerID p) "")
  && (0 <? fi_ControllerGeneration p) && json_valid (fi_ResultSummary p) && (slen (fi_ResultDigest p) =? 32)
  && bool_decide (is_Some (jsonb_in (fi_ResultSummary p))).

(** What the operations that change a command by its own state make of it. *)
Definition command_becomes (ev : command_event) (op : string) (c : command) : command :=
  match ev with
  | CAck clock id n w g now ttl =>
      let t := now_or clock now in
      match ab_phase c with
      | Held stage w' until =>
          if ack_valid id n w g ttl && holds id n w g c && bool_decide (stage ∈ ["leased"; "running"])
             && (ts t <? until)
          then in_phase (Held "running" w' (ts (t + ttl))) c else c
      | _ => c
      end
  | CClamp clock n now maxTTL =>
      let bound := ts (now_or clock now + maxTTL) in
      match ab_phase c with
      | Held stage w until =>
          if (0 <? n) && (0 <? maxTTL) && (rq_node (ab_request c) =? n)
             && bool_decide (stage ∈ ["acked"; "running"]) && (bound <? until)
          then in_phase (Held stage w bound) c else c
      | _ => c
      end
  | CFinish _ p =>
      if finish_valid p && holds (fi_ID p) (fi_NodeID p) (fi_WorkerID p) (fi_ControllerGeneration p) c
      then in_phase (Done (fi_Succeeded p) (fi_ResultDigest p)) c else c
  | CGet clock operationID =>
      match ab_phase c with
      | Queued =>
          if negb (String.eqb operationID "") && bool_decide (uuid_in operationID = Some op)
             && (ab_expires c <=? ts clock)
          then in_phase Expired c else c
      | _ => c
      end
  | CExpireNode n _ =>
      match ab_phase c with
      | Queued | Held _ _ _ => if rq_node (ab_request c) =? n then in_phase Expired c else c
      | _ => c
      end
  | CRedact ops _ digest _ =>
      match ab_phase c with
      | Done true _ => if bool_decide (op ∈ ops) then in_phase (Done true digest) c else c
      | _ => c
      end
  | _ => c
  end.

Definition asked (p : EnqueueAgentCommandParams) (generation : Z) : request :=
  {| rq_node := eq_NodeID p; rq_type := eq_CommandType p; rq_payload_digest := eq_PayloadSHA256 p;
     rq_generation := generation |}.

(** A failed or expired command may be delivered again. *)
Definition retryable (ph : phase) : bool :=
  match ph with Done false _ | Expired => true | _ => false end.

(** A command may be handed out when it waits and has not expired, or when the lease
    of the worker that holds it has ended. *)
Definition due (now : time) (c : command) : bool :=
  match ab_phase c with
  | Queued => ts now <? ab_expires c
  | Held _ _ until => until <=? ts now
  | _ => false
  end.

(** What one operation makes of the command of one operation id, in the database
    [d].  An enqueue creates the command it names, under the active generation, or
    delivers the same request again under the new delivery id if the caller asks for
    that and the command has failed or expired; a lease hands a command that is due,
    of this node and of an active generation, to the worker that calls; every other
    operation has the one outcome [command_becomes]. *)
Definition command_does (d : DB) (ev : command_event) (op : string) (o o' : option command) : Prop :=
  match ev with
  | CEnqueue _ p _ =>
      o' = o \/ exists id g, uuid_in (eq_OperationID p) = Some op /\ uuid_in (eq_ID p) = Some id
        /\ active_generation d = Some g
        /\ (eq_ExpectedControllerGeneration p = 0 \/ eq_ExpectedControllerGeneration p = g)
        /\ o' = Some (Cmd (asked p g) id Queued 0 (ts (eq_ExpiresAt p)))
        /\ (o = None \/ exists c, o = Some c /\ ab_request c = asked p g
              /\ eq_RequeueRetryableTerminal p = true /\ retryable (ab_phase c) = true)
  | CLease clock locked n w now ttl =>
      let t := now_or clock now in
      o' = o \/ exists c e, o = Some c /\ rq_node (ab_request c) = n /\ locked op = false
        /\ db_epochs d !! rq_generation (ab_request c) = Some e /\ ep_State e = "active"
        /\ due t c = true
        /\ o' = Some (Cmd (ab_request c) (ab_delivery c) (Held "leased" w (ts (t + ttl)))
                         (ab_attempt c + 1) (ab_expires c))
  | _ => o' = command_becomes ev op <$> o
  end.

Definition phase_of (c : AgentCommand) : phase :=
  if String.eqb (co_State c) "queued" then Queued
  else if claimed (co_State c)
  then Held (co_State c) (default ""%string (co_LeaseOwner c)) (default 0 (co_LeaseUntil c))
  else if String.eqb (co_State c) "succeeded" then Done true (default ""%string (co_ResultDigest c))
  else if String.eqb (co_State c) "failed" then Done false (default ""%string (co_ResultDigest c))
  else if String.eqb (co_State c) "expired" then Expired
  else Cancelled.

Definition abstract_command (c : AgentCommand) : command :=
  Cmd {| rq_node := co_NodeID c; rq_type := co_CommandType c; rq_payload_digest := co_PayloadSHA256 c;
         rq_generation := co_ControllerGeneration c |} (co_ID c) (phase_of c) (co_Attempt c) (co_ExpiresAt c).

Definition command_at (d : DB) (op : string) : option command := abstract_command <$> db_commands d !! op.

(** A well-formed row by its phase. *)
Lemma phase_cases c (Hwf : command_wf c) :
  (co_State c = "queued" /\ phase_of c = Queued)
  \/ (claimed (co_State c) = true /\ exists w u, co_LeaseOwner c = Some w /\ co_LeaseUntil c = Some u
      /\ phase_of c = Held (co_State c) w u)
  \/ (co_State c = "succeeded" /\ phase_of c = Done true (default ""%string (co_ResultDigest c)))
  \/ (co_State c = "failed" /\ phase_of c = Done false (default ""%string (co_ResultDigest c)))
  \/ (co_State c = "expired" /\ phase_of c = Expired)
  \/ (co_State c = "cancelled" /\ phase_of c = Cancelled).
Proof.
  destruct Hwf as [W1 _ _ _ W5 _]. unfold phase_of.
  destruct (claimed (co_State c)) eqn:Ec.
  - right; left. destruct (W5 eq_refl) as ([w ->] & [u ->] & _). split; [done|]. exists w, u.
    assert (String.eqb (co_State c) "queued" = false) as ->
      by (apply String.eqb_neq; intros E; by rewrite E in Ec).
    done.
  - unfold command_states in W1. set_unfold in W1.
    destruct W1 as [->|[E|[E|[E|[->|[->|[->|[->|[]]]]]]]]]; try (by rewrite E in Ec); cbn; tauto.
Qed.

(** An UPDATE of the table, seen on the abstract command. *)
Lemma update_becomes (p : string -> AgentCommand -> bool) f (m : gmap string AgentCommand) op h :
  (forall c, m !! op = Some c -> abstract_command (if p op c then f c else c) = h (abstract_command c)) ->
  abstract_command <$> update_where p f m !! op = h <$> (abstract_command <$> m !! op).
Proof.
  intros Hf. rewrite update_where_lookup. destruct (m !! op) as [c|]; [|done]. cbn. f_equal. by apply Hf.
Qed.

(** ** The table stays well formed *)

Lemma row_step_wf k o c' :
  (forall c, o = Some c -> command_wf c) -> row_step k o (Some c') -> command_wf c'.
Proof.
  intros Ho Hs. inversion Hs; subst; try (specialize (Ho _ eq_refl); destruct Ho as [W1 W2 W3 W4 W5 W6]).
  - by constructor.
  - constructor; try congruence; try done.
    + match goal with E : co_State c' = _ |- _ => rewrite E end. set_solver.
    + match goal with E : co_Attempt c' = _ |- _ => rewrite E end. done.
    + match goal with E : co_State c' = _ |- _ => rewrite E end. done.
    + match goal with E : co_State c' = _ |- _ => rewrite E end. set_solver.
  - constructor; cbn; try done; set_solver.
  - constructor; cbn -[Z.add]; try done; [set_solver|lia| |set_solver]. intros _.
    split; [by eexists|]. split; [by eexists|]. split; [lia|].
    match goal with Ho : _ \/ _ |- _ => destruct Ho as [Hq|Hc] end; [by apply W4|by apply W5].
  - destruct (W5 ltac:(done)) as (How & Hun & Hat & Hdg).
    assert (state ∈ ["leased"; "acked"; "running"]) as Hin 
      by (match goal with E : claimed state = true |- _ => by apply bool_decide_eq_true_1 in E end).
    clear W1 W4 W5 W6. constructor; cbn; try done; set_unfold; naive_solver.
  - constructor; cbn; try done; [set_solver| |]; set_unfold; naive_solver.
  - clear W1 W4 W5 W6. constructor; cbn; try done; set_solver.
  - match goal with E : co_State c = _ |- _ => rename E into Hst end. rewrite Hst in *.
    destruct W6 as (How & Hun & _); [set_solver|].
    constructor; cbn; rewrite ?Hst; done.
Qed.

Lemma commands_wf_step ev d : commands_wf d -> commands_wf (command_effect ev d).
Proof.
  intros Hwf. constructor.
  - intros op c Hl. pose proof (event_row_step ev d op Hwf) as Hs. rewrite Hl in Hs.
    eapply row_step_wf; [|exact Hs]. intros c0. apply (csw_rows _ Hwf).
  - destruct (decide (event_kind ev = KEnqueue)) as [Ek|Ek].
    + destruct ev; try done. cbn [command_effect].
      destruct (EnqueueAgentCommand_cases clock p later d) as [->|(op0 & c0 & _ & -> & Ht & _)];
        [apply (csw_ids _ Hwf)|]. cbn.
      intros op op' c c'. rewrite !lookup_insert_Some.
      intros [[<- <-]|[Hn Hl]] [[<- <-]|[Hn' Hl']] Hid; [done|..].
      * symmetry. by eapply id_taken_false.
      * by eapply id_taken_false.
      * by eapply (csw_ids _ Hwf).
    + intros op op' c c' Hl Hl' Hid.
      assert (forall op c, db_commands (command_effect ev d) !! op = Some c ->
        exists c0, db_commands d !! op = Some c0 /\ co_ID c0 = co_ID c) as Hback.
      { intros op1 c1 Hl1. pose proof (event_row_step ev d op1 Hwf) as Hs. rewrite Hl1 in Hs.
        inversion Hs; subst; try done; by eexists. }
      destruct (Hback _ _ Hl) as (c1 & H1 & E1). destruct (Hback _ _ Hl') as (c2 & H2 & E2).
      eapply (csw_ids _ Hwf); [done..|congruence].
Qed.

Lemma command_run_wf evs : forall d, commands_wf d -> commands_wf (command_run d evs).
Proof.
  induction evs as [|ev evs IH]; intros d Hwf; [done|]. apply (IH (command_effect ev d)).
  by apply commands_wf_step.
Qed.

(** The holder of a delivery, in the row and in the abstract command. *)
Lemma holds_row id id' n w g c :
  uuid_in id = Some id' -> command_wf c -> claimed (co_State c) = true ->
  holds id n w g (abstract_command c) = held_by id' n w g c.
Proof.
  intros Hid Hwf Hc. destruct (cw_claimed _ Hwf Hc) as ([w' Hw] & [u Hu] & _).
  unfold holds, held_by. rewrite Hid. cbn -[phase_of]. unfold phase_of.
  assert (String.eqb (co_State c) "queued" = false) as ->
    by (apply String.eqb_neq; intros E; by rewrite E in Hc).
  rewrite Hc, Hw. cbn. apply eq_true_iff_eq. rewrite !andb_true_iff, !bool_decide_eq_true, !String.eqb_eq, !Z.eqb_eq.
  naive_solver.
Qed.

Lemma not_held id n w g c :
  (forall stage w' u, phase_of c <> Held stage w' u) -> holds id n w g (abstract_command c) = false.
Proof.
  intros Hp. unfold holds. cbn -[phase_of]. destruct (phase_of c); try (by destruct (Hp stage worker until));
    by rewrite andb_false_r.
Qed.

Lemma no_delivery_held id n w g c : uuid_in id = None -> holds id n w g c = false.
Proof. intros E. unfold holds. rewrite E. by rewrite bool_decide_false. Qed.

(** Enqueueing, seen on the abstract command. *)
Lemma enqueue_statement_does p d r d' op clock later :
  (forall op c, db_commands d !! op = Some c -> command_wf c) -> enqueue_statement p d = Ok (r, d') ->
  command_does d (CEnqueue clock p later) op (command_at d op) (command_at d' op).
Proof.
  intros Hwf. unfold enqueue_statement. intros E. tx_inv_uuid.
  destruct (jsonb_in _) as [payload|]; [|done].
  match goal with E0 : uuid_in (eq_OperationID p) = Some ?x |- _ => rename x into op'; rename E0 into Hop end.
  match goal with E0 : match active_generation ?d0 with _ => _ end = _ |- _ =>
    rename E0 into E; destruct (active_generation d0) as [g|] eqn:Eg end; [|by injection E as <- <-; left].
  destruct (negb _) eqn:Ee; [by injection E as <- <-; left|]. destruct (g <=? 0) eqn:Hg; [done|].
  apply negb_false_iff, orb_true_iff in Ee.
  assert (forall c', command_at (put_command op' c' d) op =
    if decide (op' = op) then Some (abstract_command c') else command_at d op) as Hput.
  { intros c'. unfold command_at, put_command. cbn. case_decide as Hd; [subst; by rewrite lookup_insert_eq|].
    by rewrite lookup_insert_ne. }
  destruct (db_commands _ !! op') as [c|] eqn:Ec.
  - destruct (_ && _ && _ && _) eqn:Eb; [|by injection E as <- <-; left].
    destruct (id_taken _ _ _) eqn:Et; [done|]. injection E as _ <-. rewrite Hput.
    case_decide as Hd; [subst op'|by left]. right. do 2 eexists. do 3 (split; [done|]).
    unfold same_command in Eb. b2p. split; [by destruct Ee; b2p; [left|right]|].
    assert (Hr : ab_request (abstract_command c) = asked p g) by (unfold asked; cbn; congruence).
    split; [f_equal; unfold abstract_command, phase_of, asked; cbn; congruence|]. right.
    exists (abstract_command c). unfold command_at. rewrite Ec. split_and!; try done.
    match goal with Hs : co_State c ∈ _ |- _ => set_unfold in Hs; destruct Hs as [Hs|[Hs|[]]];
      cbn; unfold phase_of; by rewrite Hs end.
  - destruct (_ || _) eqn:Eb; [done|]. injection E as _ <-. rewrite Hput.
    case_decide as Hd; [subst op'|by left]. right. do 2 eexists. do 3 (split; [done|]).
    split; [by destruct Ee; b2p; [left|right]|]. split; [done|]. left. unfold command_at. by rewrite Ec.
Qed.

Lemma enqueue_does clock p later d op :
  (forall op c, db_commands d !! op = Some c -> command_wf c) ->
  command_does d (CEnqueue clock p later) op (command_at d op)
    (command_at (EnqueueAgentCommand clock p later d).2 op).
Proof.
  intros Hwf. unfold EnqueueAgentCommand.
  match goal with |- context [if ?b then _ else _] => destruct b end; [by left|].
  destruct (negb _); [by left|]. unfold runTx.
  match goal with |- context [enqueue_statement ?q d] =>
    destruct (enqueue_statement q d) as [[r d1]|e] eqn:E end; [|by left].
  apply (enqueue_statement_does _ _ _ _ op clock later Hwf) in E. destruct r; exact E.
Qed.

(** Leasing, seen on the abstract command. *)
Lemma lease_does clock locked n w now ttl d op :
  commands_wf d ->
  command_does d (CLease clock locked n w now ttl) op (command_at d op)
    (command_at (LeaseAgentCommand clock locked n w now ttl d).2 op).
Proof.
  intros Hwf. destruct (LeaseAgentCommand clock locked n w now ttl d) as [r d'] eqn:E. cbn [snd].
  apply LeaseAgentCommand_cases in E as [[-> _]|(op' & c & Hn & _ & _ & ->)]; [by left|].
  apply next_command_some in Hn as (Hl & Hlk & Hle & _).
  destruct (leasable_state _ _ _ _ Hle) as (Hst & Hnode & (e & nd & He & Hes & _) & Hq & Hcl).
  unfold command_at. cbn. rewrite update_where_lookup.
  destruct (db_commands d !! op) as [c'|] eqn:Hl'; [|by left]. cbn.
  destruct (String.eqb_spec (co_ID c') (co_ID c)) as [Hid|]; [|by left].
  assert (op = op') as -> by (by eapply (csw_ids _ Hwf)). simplify_eq. right.
  exists (abstract_command c), e. split_and!; try done. unfold due. cbn -[phase_of].
  destruct (phase_cases c (csw_rows _ Hwf _ _ Hl)) as [[Hs ->]|[(Hs & w' & u & _ & Hu & ->)|Hrest]].
  - by apply Z.ltb_lt, Hq.
  - destruct (Hcl Hs) as (u' & Hu' & Hle'). simplify_eq. by apply Z.leb_le.
  - exfalso. destruct Hrest as [[Hs _]|[[Hs _]|[[Hs _]|[Hs _]]]]; rewrite Hs in Hst; by destruct Hst.
Qed.

Lemma ack_does clock id n w g now ttl d op :
  commands_wf d ->
  command_at (AckAgentCommand clock id n w g now ttl d).2 op
  = command_becomes (CAck clock id n w g now ttl) op <$> command_at d op.
Proof.
  intros Hwf. unfold AckAgentCommand, command_at.
  assert (Hv : ack_valid id n w g ttl = negb (String.eqb id "" || (n <=? 0) || String.eqb w "" || (g <=? 0) || (ttl <=? 0)))
    by (unfold ack_valid; by rewrite !Z.ltb_antisym, !negb_orb).
  destruct (_ || _ || _ || _ || _); cbn [negb] in Hv; [|destruct (uuid_in id) as [id'|] eqn:Eid].
  1, 3: cbn [snd]; destruct (db_commands d !! op) as [c|] eqn:Hl; [|done]; cbn -[abstract_command]; f_equal;
    cbn -[phase_of holds ack_valid]; rewrite Hv, ?no_delivery_held by done; by destruct (phase_of c).
  apply update_becomes. intros c Hl. pose proof (csw_rows _ Hwf _ _ Hl) as Hc. cbn -[abstract_command holds finish_valid].
  destruct (phase_cases c Hc) as [[Hs Hp]|[(Hs & w' & u & Hw & Hu & Hp)|Hrest]].
  - rewrite Hs. cbn -[phase_of]. rewrite andb_false_r. cbn -[phase_of]. by rewrite Hp.
  - rewrite <- (holds_row id id' n w g c Eid Hc Hs), Hv, Hu. cbn -[holds phase_of abstract_command].
    change (ab_phase (abstract_command c)) with (phase_of c). rewrite Hp, Z.gtb_ltb.
    destruct (holds _ _ _ _ _ && _ && _); [|done].
    unfold in_phase, abstract_command, phase_of. cbn. by rewrite Hw.
  - assert (bool_decide (co_State c ∈ ["leased"; "running"]) = false) as ->
      by (apply bool_decide_eq_false; destruct Hrest as [[-> _]|[[-> _]|[[-> _]|[-> _]]]]; set_solver).
    rewrite andb_false_r. cbn -[phase_of]. by destruct Hrest as [[_ ->]|[[_ ->]|[[_ ->]|[_ ->]]]].
Qed.

Lemma clamp_does clock n now ttl d op :
  commands_wf d ->
  command_at (ClampAgentCommandRunLeases clock n now ttl d).2 op
  = command_becomes (CClamp clock n now ttl) op <$> command_at d op.
Proof.
  intros Hwf. unfold ClampAgentCommandRunLeases, command_at.
  assert (Hv : (0 <? n) && (0 <? ttl) = negb ((n <=? 0) || (ttl <=? 0))) by (by rewrite !Z.ltb_antisym, negb_orb).
  destruct (_ || _); cbn [negb snd] in *.
  { destruct (db_commands d !! op) as [c|]; [|done]. cbn -[abstract_command]. f_equal.
    cbn -[phase_of]. rewrite Hv. by destruct (phase_of c). }
  apply update_becomes. intros c Hl. cbn -[abstract_command]. change (ab_phase (abstract_command c)) with (phase_of c).
  destruct (phase_cases c (csw_rows _ Hwf _ _ Hl)) as [[Hs Hp]|[(Hs & w' & u & Hw & Hu & Hp)|Hrest]].
  - rewrite Hp, Hs. by rewrite andb_false_r.
  - rewrite Hp, Hv, Hu, Z.gtb_ltb. cbn -[phase_of abstract_command].
    destruct (_ && _ && _) eqn:Eb; [|done]. unfold in_phase, abstract_command. cbn.
    f_equal. unfold phase_of. cbn. b2p.
    match goal with Hin : co_State c ∈ _ |- _ => set_unfold in Hin; destruct Hin as [Hin|[Hin|[]]];
      rewrite Hin end; by rewrite Hw.
  - assert (bool_decide (co_State c ∈ ["acked"; "running"]) = false) as ->
      by (apply bool_decide_eq_false; destruct Hrest as [[-> _]|[[-> _]|[[-> _]|[-> _]]]]; set_solver).
    rewrite andb_false_r. by destruct Hrest as [[_ ->]|[[_ ->]|[[_ ->]|[_ ->]]]].
Qed.

Lemma finish_does clock p d op :
  commands_wf d ->
  command_at (FinishAgentCommand clock p d).2 op = command_becomes (CFinish clock p) op <$> command_at d op.
Proof.
  intros Hwf. unfold FinishAgentCommand, command_at. cbn -[abstract_command holds finish_valid slen].
  assert (Hv : finish_valid p = negb (String.eqb (fi_ID p) "" || (fi_NodeID p <=? 0) || String.eqb (fi_WorkerID p) ""
     || (fi_ControllerGeneration p <=? 0) || negb (json_valid (fi_ResultSummary p))
     || negb (slen (fi_ResultDigest p) =? 32)) && bool_decide (is_Some (jsonb_in (fi_ResultSummary p))))
    by (unfold finish_valid; by rewrite !Z.ltb_antisym, !negb_orb, !negb_involutive).
  destruct (_ || _ || _ || _ || _ || _); cbn [negb snd] in *.
  { destruct (db_commands d !! op) as [c|]; [|done]. cbn -[abstract_command holds finish_valid]. by rewrite Hv. }
  destruct (uuid_in (fi_ID p)) as [id|] eqn:Eid; [destruct (jsonb_in _) as [js|] eqn:Ej|].
  2, 3: cbn [snd]; destruct (db_commands d !! op) as [c|]; [|done]; cbn -[abstract_command holds finish_valid];
    rewrite ?no_delivery_held by done; rewrite Hv; cbn -[abstract_command holds finish_valid]; try done; by rewrite andb_false_r.
  apply update_becomes. intros c Hl. pose proof (csw_rows _ Hwf _ _ Hl) as Hc.
  cbn [command_becomes]. rewrite Hv, bool_decide_true by done. cbn -[abstract_command holds].
  destruct (claimed (co_State c)) eqn:Hs.
  - rewrite (holds_row _ id _ _ _ c Eid Hc Hs), andb_true_r. destruct (held_by _ _ _ _ _); [|done].
    unfold in_phase, abstract_command, phase_of. cbn. by destruct (fi_Succeeded p).
  - rewrite andb_false_r, not_held; [done|]. intros stage w u Hp. unfold phase_of in Hp. rewrite Hs in Hp.
    by repeat (case_match; try done).
Qed.

Lemma get_does clock id d op :
  commands_wf d ->
  command_at (GetAgentCommandResult clock id d).2 op = command_becomes (CGet clock id) op <$> command_at d op.
Proof.
  intros Hwf. unfold GetAgentCommandResult, command_at. cbn -[abstract_command].
  destruct (String.eqb id "") eqn:Ei; [|destruct (uuid_in id) as [op'|] eqn:Eid]; cbn [snd].
  1, 3: destruct (db_commands d !! op) as [c|]; [|done]; cbn -[abstract_command]; f_equal; cbn -[phase_of];
    rewrite Ei, ?Eid, ?(bool_decide_false (None = Some _)) by done; by destruct (phase_of c).
  apply update_becomes. intros c Hl. cbn -[abstract_command]. change (ab_phase (abstract_command c)) with (phase_of c).
  rewrite Ei, Eid.
  assert (bool_decide (Some op' = Some op) = String.eqb op op') as ->
    by (apply eq_true_iff_eq; rewrite bool_decide_eq_true, String.eqb_eq; naive_solver).
  destruct (phase_cases c (csw_rows _ Hwf _ _ Hl)) as [[Hs Hp]|[(Hs & w' & u & Hw & Hu & Hp)|Hrest]].
  - rewrite Hp, Hs, andb_true_r. by destruct (String.eqb op op'); [destruct (_ <=? _)|].
  - rewrite Hp. assert (String.eqb (co_State c) "queued" = false) as ->
      by (apply String.eqb_neq; intros E; by rewrite E in Hs). by rewrite andb_false_r.
  - assert (String.eqb (co_State c) "queued" = false) as ->
      by (by destruct Hrest as [[-> _]|[[-> _]|[[-> _]|[-> _]]]]).
    rewrite andb_false_r. by destruct Hrest as [[_ ->]|[[_ ->]|[[_ ->]|[_ ->]]]].
Qed.

(** Every operation does to every command what the abstract queue says. *)
Lemma command_effect_does ev d op :
  commands_wf d -> command_does d ev op (command_at d op) (command_at (command_effect ev d) op).
Proof.
  intros Hwf. destruct ev; cbn [command_effect].
  - apply enqueue_does, (csw_rows _ Hwf).
  - by apply lease_does.
  - by apply ack_does.
  - by apply clamp_does.
  - by apply finish_does.
  - by apply get_does.
  - unfold expireNodeCommands, command_at. apply update_becomes. intros c Hl. cbn -[abstract_command].
    change (ab_phase (abstract_command c)) with (phase_of c).
    destruct (phase_cases c (csw_rows _ Hwf _ _ Hl)) as [[Hs Hp]|[(Hs & w' & u & Hw & Hu & Hp)|Hrest]].
    + rewrite Hp, Hs. cbn -[abstract_command]. rewrite andb_true_r. by destruct (_ =? _).
    + rewrite Hp, Hs, orb_true_r, andb_true_r. by destruct (_ =? _).
    + destruct Hrest as [[-> ->]|[[-> ->]|[[-> ->]|[-> ->]]]]; by rewrite andb_false_r.
  - unfold redactResults, command_at. apply update_becomes. intros c Hl. cbn -[abstract_command].
    change (ab_phase (abstract_command c)) with (phase_of c).
    destruct (phase_cases c (csw_rows _ Hwf _ _ Hl)) as [[Hs Hp]|[(Hs & w' & u & Hw & Hu & Hp)|Hrest]].
    + rewrite Hp, Hs. by rewrite andb_false_r.
    + rewrite Hp. assert (String.eqb (co_State c) "succeeded" = false) as ->
        by (apply String.eqb_neq; intros E; by rewrite E in Hs). by rewrite andb_false_r.
    + destruct Hrest as [[Hs Hp]|[[Hs Hp]|[[Hs Hp]|[Hs Hp]]]]; rewrite Hs, Hp; rewrite ?andb_false_r; try done.
      rewrite andb_true_r. case_bool_decide; [|done].
      unfold in_phase, abstract_command, phase_of. cbn. by rewrite ?Hs.
  - unfold command_at. cbn. by destruct (db_commands d !! op).
Qed.

(** C30: The command table keeps its type.  Along any sequence of operations, with any
    inputs, every row satisfies the schema's checks and uses exactly the columns its
    state calls for - a queued command has no holder, a claimed one a holder, a lease
    end and an attempt, a finished one a result and no holder - and delivery ids stay
    unique. *)
Theorem commands_stay_typed d evs : commands_wf d -> commands_wf (command_run d evs).
Proof. apply command_run_wf. Qed.

(** C16: The queue implements the abstract command.  At every point of any run, with
    whatever operations interleaved in whatever order and with whatever clocks, each
    operation does to the command of each operation id exactly what the abstract queue
    lets it do.  An enqueue leaves the command, creates the one it names, or - only if
    the caller asks for it, and only a failed or expired one with the same request -
    delivers it again under the new delivery id; a lease leaves it or hands it to the
    caller, from the queue before it expires or from another worker after that worker's
    lease ended; an acknowledgement renews and a result finishes exactly the delivery
    that the caller holds; reading a result expires exactly a queued command past its
    expiry, replacing a node's credential exactly the open commands of the node. *)
Theorem commands_refine d evs ev op (d' := command_run d evs) :
  commands_wf d -> command_does d' ev op (command_at d' op) (command_at (command_effect ev d') op).
Proof. intros Hwf. by apply command_effect_does, command_run_wf. Qed.

(** ** Consequences of the refinement *)

Definition succeeded (c : command) : bool := match ab_phase c with Done true _ => true | _ => false end.

(** What an operation leaves of a command: the request and, if it succeeded, the
    delivery and the attempt. *)
Lemma command_does_forward d ev op c o' :
  command_does d ev op (Some c) o' -> exists c', o' = Some c' /\ ab_request c' = ab_request c
    /\ (succeeded c = true -> succeeded c' = true /\ ab_delivery c' = ab_delivery c /\ ab_attempt c' = ab_attempt c).
Proof.
  assert (Hb : exists c', command_becomes ev op <$> Some c = Some c' /\ ab_request c' = ab_request c
    /\ (succeeded c = true -> succeeded c' = true /\ ab_delivery c' = ab_delivery c /\ ab_attempt c' = ab_attempt c)).
  { eexists. split; [reflexivity|]. unfold succeeded, command_becomes, holds.
    destruct ev; cbn; repeat case_match; cbn; try done; b2p; try done;
      repeat match goal with Hm : match _ with _ => _ end = true |- _ => by case_match end. }
  destruct ev; cbn [command_does]; try (by intros ->); clear Hb.
  - intros [->|(id & g & _ & _ & _ & _ & -> & [?|(c' & [= <-] & Hr & _ & Hp)])]; [by exists c|done|].
    eexists. split; [done|]. cbn. split; [done|]. unfold succeeded. by destruct (ab_phase c) as [| |[]| |].
  - intros [->|(c' & e & [= <-] & _ & _ & _ & _ & Hd & ->)]; [by exists c|].
    eexists. split; [done|]. cbn. split; [done|]. unfold succeeded. unfold due in Hd. by destruct (ab_phase c) as [| |[]| |].
Qed.

Lemma command_run_forward evs : forall d op c, commands_wf d -> command_at d op = Some c ->
  exists c', command_at (command_run d evs) op = Some c' /\ ab_request c' = ab_request c
    /\ (succeeded c = true -> succeeded c' = true /\ ab_delivery c' = ab_delivery c /\ ab_attempt c' = ab_attempt c).
Proof.
  induction evs as [|ev evs IH]; intros d op c Hwf Hc; [by exists c|].
  pose proof (command_effect_does ev d op Hwf) as Hd. rewrite Hc in Hd.
  destruct (command_does_forward _ _ _ _ _ Hd) as (c1 & Hc1 & Hr & Hs).
  destruct (IH (command_effect ev d) op c1 (commands_wf_step ev d Hwf) Hc1) as (c' & Hc' & Hr' & Hs').
  exists c'. split; [done|]. split; [congruence|]. intros Hc0. destruct (Hs Hc0) as (H1 & H2 & H3).
  destruct (Hs' H1) as (H4 & H5 & H6). split; [done|]. split; congruence.
Qed.

(** An operation id stands for one request, and success is final.  Once a command
    exists it never disappears, its node, type, payload digest and generation never
    change, and once it has succeeded it stays succeeded under the same delivery and
    attempt, however often it is enqueued again. *)
Theorem success_is_final d evs op c :
  commands_wf d -> command_at d op = Some c ->
  exists c', command_at (command_run d evs) op = Some c' /\ ab_request c' = ab_request c
    /\ (succeeded c = true ->
        succeeded c' = true /\ ab_delivery c' = ab_delivery c /\ ab_attempt c' = ab_attempt c).
Proof. apply command_run_forward. Qed.

(** A result comes from the worker that holds the command.  Whenever an operation
    turns a command into a finished one, it was FinishAgentCommand called for this
    delivery by the node, worker and generation of the current lease, and the result
    stored is the one it brought. *)
Theorem result_from_holder ev d op c c' :
  commands_wf d -> db_commands d !! op = Some c -> db_commands (command_effect ev d) !! op = Some c' ->
  co_State c' ∈ ["succeeded"; "failed"] -> co_State c <> co_State c' ->
  exists clock p, ev = CFinish clock p /\ uuid_in (fi_ID p) = Some (co_ID c)
    /\ co_NodeID c = fi_NodeID p /\ co_LeaseOwner c = Some (fi_WorkerID p)
    /\ co_ControllerGeneration c = fi_ControllerGeneration p /\ claimed (co_State c) = true
    /\ co_State c' = (if fi_Succeeded p then "succeeded" else "failed")%string
    /\ co_ResultSummary c' = jsonb_in (fi_ResultSummary p) /\ co_ResultDigest c' = Some (fi_ResultDigest p).
Proof.
  intros Hwf Hl Hl' Hst Hne. assert (db_commands d !! op <> Some c') as Hdiff by congruence.
  pose proof (event_row_step ev d op Hwf) as Hs. rewrite Hl, Hl' in Hs.
  inversion Hs; subst; try done; cbn in Hst.
  - set_solver.
  - set_solver.
  - match goal with Hc : claimed ?s = true, Hin : ?s ∈ ["succeeded"; "failed"] |- _ =>
      apply bool_decide_eq_true_1 in Hc; clear -Hc Hin; set_solver end.
  - destruct ev; try done. cbn [command_effect] in Hl'. unfold FinishAgentCommand in Hl'.
    match type of Hl' with context [if ?b then _ else _] => destruct b end; [done|].
    destruct (uuid_in (fi_ID p)) as [id|] eqn:Eid; [|done].
    destruct (jsonb_in (fi_ResultSummary p)) as [js|] eqn:Ej; [|done].
    cbn in Hl'. rewrite update_where_lookup, Hl in Hl'. cbn in Hl'.
    destruct (held_by _ _ _ _ c && claimed (co_State c)) eqn:Eh; [|congruence].
    unfold held_by in Eh. b2p. subst id. exists clock, p. apply (inj Some) in Hl'.
    rewrite <- Hl'. by split_and!.
  - set_solver.
Qed.

(** ** What a lease hands out *)

(** A worker gets the oldest command that is due, and only under the active
    generation.  A command is handed out only to its own node while the node has
    confirmed the command's generation, that generation is active, and the node is
    managed or the command belongs to draining; it was queued and not expired, or its
    previous lease had ended.  No eligible unlocked command is older, the row records
    worker, lease end and attempt, every other row stays, and a worker goes away
    empty-handed only when no unlocked command is eligible. *)
Theorem lease_hands_out clock locked n w now ttl d r d' (t := now_or clock now) :
  commands_wf d -> LeaseAgentCommand clock locked n w now ttl d = (r, d') ->
  (forall l, r = Ok (Some l) -> exists c e nd,
     db_commands d !! al_OperationID l = Some c /\ locked (al_OperationID l) = false
     /\ co_NodeID c = n /\ al_ID l = co_ID c /\ al_ControllerGeneration l = co_ControllerGeneration c
     /\ db_epochs d !! al_ControllerGeneration l = Some e /\ ep_State e = "active"
     /\ db_nodes d !! n = Some nd /\ nd_ControllerGeneration nd = al_ControllerGeneration l
     /\ (nc_ControlMode (nd_Control nd) = "managed"
         \/ nc_ControlMode (nd_Control nd) = "independent-draining" /\ al_CommandType l ∈ draining_commands)
     /\ (co_State c = "queued" /\ ts t < co_ExpiresAt c
         \/ claimed (co_State c) = true /\ exists u, co_LeaseUntil c = Some u /\ u <= ts t)
     /\ (forall op' c', db_commands d !! op' = Some c' -> locked op' = false -> leasable d n t c' = true ->
         co_CreatedAt c <= co_CreatedAt c')
     /\ db_commands d' = <[al_OperationID l :=
          with_lease "leased" (Some w) (Some (ts (t + ttl))) (co_Attempt c + 1) (ts t) c]> (db_commands d))
  /\ (r = Ok None -> d' = d /\ forall op c, db_commands d !! op = Some c -> locked op = false ->
        leasable d n t c = false).
Proof.
  intros Hwf E. split.
  - intros l Hr. apply LeaseAgentCommand_cases in E as [[_ Hn]|(op & c & Hn & _ & Hr' & ->)]; [by apply Hn in Hr|].
    rewrite Hr in Hr'. injection Hr' as ->. cbn [al_OperationID al_ID al_ControllerGeneration al_CommandType].
    apply next_command_some in Hn as (Hl & Hlk & Hle & Hmin).
    destruct (leasable_state _ _ _ _ Hle) as (Hst & Hnode & (e & nd & He & Hes & Hnd & Hng & Hmode) & Hq & Hcl).
    exists c, e, nd. split_and!; try done.
    + destruct Hst as [Hst|Hst]; [left|right]; auto.
    + apply map_eq. intros op'. cbn. rewrite update_where_lookup.
      destruct (decide (op = op')) as [<-|Hne].
      * rewrite Hl, lookup_insert_eq. cbn. by rewrite String.eqb_refl.
      * rewrite lookup_insert_ne by done. destruct (db_commands d !! op') as [c'|] eqn:Hl'; [|done]. cbn.
        destruct (String.eqb_spec (co_ID c') (co_ID c)) as [Hid|]; [|done].
        destruct Hne. by eapply (csw_ids _ Hwf).
  - intros ->. unfold LeaseAgentCommand in E. destruct (_ || _ || _); [done|].
    destruct (next_command _ _ _ _) as [[op c]|] eqn:En; [by destruct (_ <? _)|].
    injection E as <-. split; [done|]. intros op c. by apply next_command_none.
Qed.

(** ** A running command is not handed out twice *)

(** The command is not queued, and whoever holds it holds it until [u]. *)
Definition held_until (d : DB) (op : string) (u : time) : Prop :=
  exists c, db_commands d !! op = Some c /\ co_State c <> "queued"
    /\ (claimed (co_State c) = true -> exists v, co_LeaseUntil c = Some v /\ u <= v).

(** Operations before [u] that do not cut the lease short or deliver the command
    again. *)
Definition keeps_lease (op : string) (u : time) (ev : command_event) : Prop :=
  match ev with
  | CEnqueue _ p _ => eq_RequeueRetryableTerminal p = true -> uuid_in (eq_OperationID p) <> Some op
  | CLease clock _ _ _ now _ => ts (now_or clock now) < u
  | CAck clock _ _ _ _ now ttl | CClamp clock _ now ttl => u <= ts (now_or clock now + ttl)
  | _ => True
  end.

Lemma update_held_until (p : string -> AgentCommand -> bool) f d op u :
  (forall c, p op c = true -> co_State (f c) <> "queued"
     /\ (claimed (co_State (f c)) = true -> exists v, co_LeaseUntil (f c) = Some v /\ u <= v)) ->
  held_until d op u -> held_until (set_commands (update_where p f (db_commands d)) d) op u.
Proof.
  intros Hf (c & Hl & Hq & Hu). exists (if p op c then f c else c). cbn. rewrite update_where_lookup, Hl.
  split; [done|]. destruct (p op c) eqn:E; [by apply Hf|done].
Qed.

Lemma held_not_leased d n now locked op u op' c :
  held_until d op u -> ts now < u -> next_command d n now locked = Some (op', c) -> op' <> op.
Proof.
  intros (c0 & Hl & Hq & Hu) Hlt Hn ->. apply next_command_some in Hn as (Hl' & _ & Hle & _). simplify_eq.
  destruct (leasable_state _ _ _ _ Hle) as (Hst & _ & _ & _ & Hcl). destruct Hst as [Hst|Hst]; [done|].
  destruct (Hcl Hst) as (v & Hv & Hle'). destruct (Hu Hst) as (v' & Hv' & Hge). simplify_eq. lia.
Qed.

Lemma keeps_lease_step ev d op u :
  commands_wf d -> keeps_lease op u ev -> held_until d op u -> held_until (command_effect ev d) op u.
Proof.
  intros Hwf Hk Hh. assert (claimed "expired" = false) as Hex by reflexivity.
  destruct ev; cbn [command_effect keeps_lease] in *.
  - destruct (EnqueueAgentCommand_cases clock p later d) as [->|(op' & c' & Hop & -> & _ & _ & Hre)]; [done|].
    destruct Hh as (c & Hl & Hq). exists c. cbn. rewrite lookup_insert_ne; [done|].
    intros ->. by apply Hk in Hop; [|by eapply Hre].
  - destruct (LeaseAgentCommand clock locked nodeID workerID now ttl d) as [r d'] eqn:E. cbn [snd].
    apply LeaseAgentCommand_cases in E as [[-> _]|(op' & c & Hn & _ & _ & ->)]; [done|].
    pose proof (held_not_leased _ _ _ _ _ _ _ _ Hh Hk Hn) as Hne.
    apply next_command_some in Hn as (Hl' & _). destruct Hh as (c0 & Hl & Hq). exists c0. cbn.
    rewrite update_where_lookup, Hl. split; [|done]. cbn.
    destruct (String.eqb_spec (co_ID c0) (co_ID c)) as [Hid|]; [|done]. destruct Hne. by eapply (csw_ids _ Hwf).
  - unfold AckAgentCommand. repeat (case_match; try done). apply update_held_until; [|done].
    intros c _. cbn. split; [done|]. intros _. by eexists.
  - unfold ClampAgentCommandRunLeases. case_match; [done|]. apply update_held_until; [|done].
    intros c Hp. cbn. b2p. split; [match goal with E : co_State c ∈ _ |- _ => set_unfold in E; by destruct E as [E|[E|[]]]; rewrite E end|]. intros _. by eexists.
  - unfold FinishAgentCommand. repeat (case_match; try done); (apply update_held_until; [|done]); done.
  - unfold GetAgentCommandResult. repeat (case_match; try done). apply update_held_until; [|done].
    intros c _. cbn. by rewrite Hex.
  - apply update_held_until; [|done]. intros c _. cbn. by rewrite Hex.
  - apply update_held_until; [|done]. intros c Hp. b2p. cbn. match goal with E : co_State c = _ |- _ => by rewrite E end.
  - done.
Qed.

Lemma keeps_lease_run evs op u : forall d,
  commands_wf d -> held_until d op u -> Forall (keeps_lease op u) evs -> held_until (command_run d evs) op u.
Proof.
  induction evs as [|ev evs IH]; intros d Hwf Hh Hall; [done|]. apply Forall_cons in Hall as [Hev Hall].
  apply (IH (command_effect ev d)); [by apply commands_wf_step|by apply keeps_lease_step|done].
Qed.

(** A running command has one worker.  When a worker's acknowledgement is
    accepted, then until the end of the lease it got no worker, itself included, is
    handed this command again: not by any sequence of operations at times before
    that end, short of an explicit redelivery after it failed or a clamp to an
    earlier end. *)
Theorem running_command_exclusive clock id n w g now ttl d0 d op c evs pre clock' locked n' w' now' ttl' post l
  (u := ts (now_or clock now + ttl)) :
  commands_wf d0 -> AckAgentCommand clock id n w g now ttl d0 = (Ok true, d) ->
  db_commands d0 !! op = Some c -> uuid_in id = Some (co_ID c) ->
  Forall (keeps_lease op u) evs -> evs = pre ++ CLease clock' locked n' w' now' ttl' :: post ->
  fst (LeaseAgentCommand clock' locked n' w' now' ttl' (command_run d pre)) = Ok (Some l) ->
  al_OperationID l <> op.
Proof.
  intros Hwf Hack Hl Hid Hall -> Hlease.
  assert (d = command_effect (CAck clock id n w g now ttl) d0) as Hd by (cbn; by rewrite Hack).
  assert (held_until d op u) as Hh.
  { unfold AckAgentCommand in Hack. destruct (_ || _ || _ || _ || _); [done|]. rewrite Hid in Hack.
    unfold update_commands in Hack. injection Hack as Hone <-. apply Nat.eqb_eq in Hone.
    set (p := fun (_ : string) c' => held_by (co_ID c) n w g c' && _ && _) in *.
    destruct (rows_where p (db_commands d0)) as [|[op' c'] rest] eqn:Er; [done|].
    assert ((op', c') ∈ rows_where p (db_commands d0)) as Hin by (rewrite Er; apply list_elem_of_here).
    apply rows_where_elem in Hin as [Hl' Hp].
    assert (op' = op) as ->.
    { unfold p, held_by in Hp. b2p. by eapply (csw_ids _ Hwf). }
    simplify_eq. eexists. cbn. rewrite update_where_lookup, Hl. cbn. rewrite Hp. split; [done|].
    split; [done|]. intros _. by eexists. }
  apply Forall_app in Hall as [Hpre Hpost]. apply Forall_cons in Hpost as [Hlt _]. cbn in Hlt.
  assert (commands_wf d) as Hwfd by (rewrite Hd; by apply commands_wf_step).
  pose proof (keeps_lease_run pre op u d Hwfd Hh Hpre) as Hh'.
  destruct (LeaseAgentCommand clock' locked n' w' now' ttl' (command_run d pre)) as [r d'] eqn:E.
  cbn in Hlease. subst r.
  apply LeaseAgentCommand_cases in E as [[_ Hn]|(op' & c' & Hn & _ & Hr & _)]; [by destruct (Hn l)|].
  injection Hr as ->. cbn. by eapply held_not_leased.
Qed.
End Commands.

(** ** Concrete runs *)

Definition demo_worker : string := "worker-0123456789".

Definition demo_command : AgentCommand :=
  {| co_ID := id_op2; co_NodeID := 1; co_CommandType := "start_snapshot"; co_Payload := "{}";
     co_PayloadSHA256 := digest32; co_State := "leased"; co_ControllerGeneration := 4;
     co_LeaseOwner := Some demo_worker; co_LeaseUntil := Some (store_now + 45 * Second); co_Attempt := 1;
     co_ExpiresAt := store_now + 10 * Minute; co_ResultSummary := None; co_ResultDigest := None;
     co_CreatedAt := store_now; co_UpdatedAt := store_now |}.

(** The deployment with one command handed to a worker of node 1. *)
Definition demo_queue : DB := put_command id_op demo_command demo_db.

Lemma demo_queue_wf : commands_wf demo_queue.
Proof.
  constructor.
  - intros op c Hl. cbn in Hl. apply lookup_insert_Some in Hl as [[_ <-]|[_ Hl]]; [|done].
    constructor; cbn; try done; try set_solver; unfold MaxInt32; lia.
  - intros op op' c c' Hl Hl' _. cbn in *.
    apply lookup_insert_Some in Hl as [[<- _]|[_ Hl]]; [|done].
    by apply lookup_insert_Some in Hl' as [[<- _]|[_ Hl']].
Qed.

Definition demo_ack : command_event := CAck 0 id_op2 1 demo_worker 4 (store_now + Second) (2 * Minute).
Definition demo_finish : command_event :=
  CFinish 0 {| fi_ID := id_op2; fi_NodeID := 1; fi_WorkerID := demo_worker; fi_ControllerGeneration := 4;
               fi_Succeeded := true; fi_ResultSummary := "{}"; fi_ResultDigest := digest32;
               fi_Now := store_now + Minute |}.

(** What the run leaves of the row. *)
Definition demo_phases (evs : list command_event) : option (phase * Z) :=
  (fun c => (ab_phase c, ab_attempt c))
  <$> command_at (@command_run demo_postgres Some demo_queue evs) id_op.

Example demo_run_phases :
  demo_phases [] = Some (Held "leased" demo_worker (store_now + 45 * Second), 1)
  /\ demo_phases [demo_ack] = Some (Held "running" demo_worker (store_now + 121 * Second), 1)
  /\ demo_phases [demo_ack; demo_finish] = Some (Done true digest32, 1).
Proof. split_and!; vm_compute; reflexivity. Qed.

Lemma commands_stay_typed_witness :
  commands_wf (@command_run demo_postgres Some demo_queue [demo_ack; demo_finish]).
Proof. apply (@commands_stay_typed demo_postgres Some), demo_queue_wf. Defined.

Lemma commands_refine_witness :
  let d' := @command_run demo_postgres Some demo_queue [demo_ack] in
  @command_does demo_postgres Some d' demo_finish id_op (command_at d' id_op)
    (command_at (@command_effect demo_postgres Some demo_finish d') id_op)
  /\ (ab_phase <$> command_at (@command_effect demo_postgres Some demo_finish d') id_op) = Some (Done true digest32).
Proof.
  split; [|vm_compute; reflexivity].
  apply (@commands_refine demo_postgres Some), demo_queue_wf.
Defined.

Lemma success_is_final_witness :
  exists c', command_at (@command_run demo_postgres Some demo_queue [demo_ack; demo_finish]) id_op = Some c'
    /\ ab_request c' = ab_request (abstract_command demo_command)
    /\ (succeeded (abstract_command demo_command) = true -> succeeded c' = true
        /\ ab_delivery c' = ab_delivery (abstract_command demo_command)
        /\ ab_attempt c' = ab_attempt (abstract_command demo_command)).
Proof.
  apply (@success_is_final demo_postgres Some demo_queue [demo_ack; demo_finish] id_op);
    [apply demo_queue_wf|reflexivity].
Defined.

Lemma result_from_holder_witness :
  exists c', db_commands (@command_effect demo_postgres Some demo_finish demo_queue) !! id_op = Some c'
  /\ exists clock p, demo_finish = CFinish clock p /\ demo_uuid_in (fi_ID p) = Some (co_ID demo_command)
    /\ co_NodeID demo_command = fi_NodeID p /\ co_LeaseOwner demo_command = Some (fi_WorkerID p)
    /\ co_ControllerGeneration demo_command = fi_ControllerGeneration p
    /\ claimed (co_State demo_command) = true
    /\ co_State c' = (if fi_Succeeded p then "succeeded" else "failed")%string
    /\ co_ResultSummary c' = Some (fi_ResultSummary p) /\ co_ResultDigest c' = Some (fi_ResultDigest p).
Proof.
  eexists. split; [vm_compute; reflexivity|].
  apply (@result_from_holder demo_postgres Some demo_finish demo_queue id_op demo_command);
    [apply demo_queue_wf|reflexivity|vm_compute; reflexivity|cbn; set_solver|done].
Defined.

Definition demo_queued : AgentCommand := requeued id_op2 "{}" (store_now + 10 * Minute) store_now demo_command.
Definition demo_waiting : DB := put_command id_op demo_queued demo_db.

Lemma demo_waiting_wf : commands_wf demo_waiting.
Proof.
  constructor.
  - intros op c Hl. cbn in Hl. apply lookup_insert_Some in Hl as [[_ <-]|[_ Hl]]; [|done].
    constructor; cbn; try done; try set_solver; unfold MaxInt32; lia.
  - intros op op' c c' Hl Hl' _. cbn in *.
    apply lookup_insert_Some in Hl as [[<- _]|[_ Hl]]; [|done].
    by apply lookup_insert_Some in Hl' as [[<- _]|[_ Hl']].
Qed.

Lemma lease_hands_out_witness : exists l d',
  @LeaseAgentCommand demo_postgres 0 (fun _ => false) 1 demo_worker (store_now + Second) (45 * Second) demo_waiting
  = (Ok (Some l), d')
  /\ db_commands d' = <[al_OperationID l :=
       with_lease "leased" (Some demo_worker) (Some (store_now + 46 * Second)) 1 (store_now + Second) demo_queued]>
       (db_commands demo_waiting).
Proof.
  do 2 eexists. split; [vm_compute; reflexivity|].
  destruct (@lease_hands_out demo_postgres 0 (fun _ => false) 1 demo_worker (store_now + Second) (45 * Second)
    demo_waiting _ _ demo_waiting_wf ltac:(vm_compute; reflexivity)) as [H1 _].
  destruct (H1 _ eq_refl) as (c & e & nd & Hl & H2). vm_compute in Hl. injection Hl as <-. apply H2.
Defined.

Lemma running_command_exclusive_witness : exists d r,
  @AckAgentCommand demo_postgres 0 id_op2 1 demo_worker 4 (store_now + Second) (2 * Minute) demo_queue = (Ok true, d)
  /\ fst (@LeaseAgentCommand demo_postgres 0 (fun _ => false) 1 "another-worker" (store_now + Minute) Minute d) = r
  /\ forall l, r = Ok (Some l) -> al_OperationID l <> id_op.
Proof.
  do 2 eexists. split; [vm_compute; reflexivity|]. split; [reflexivity|]. intros l.
  apply (@running_command_exclusive demo_postgres Some 0 id_op2 1 demo_worker 4 (store_now + Second) (2 * Minute)
    demo_queue _ id_op demo_command [CLease 0 (fun _ => false) 1 "another-worker" (store_now + Minute) Minute]
    [] 0 (fun _ => false) 1 "another-worker" (store_now + Minute) Minute [] l);
    [apply demo_queue_wf|vm_compute; reflexivity|reflexivity|reflexivity| |reflexivity].
  repeat constructor.
Defined.
