(* ===== verification/Leadership.v ===== *)
(** * Controller generations and sessions

    src/internal/store/leadership.go: a Controller process leads while its
    connection holds an advisory lock.  A planned stop marks the active
    generation; the next leader resumes a generation whose mark is recent, and
    otherwise promotes a new one, which revokes every browser session and open
    ticket and starts the rebuild of the nodes.  sessions.go: browser sessions
    bound to a generation. *)

From Stdlib Require Import ZArith Lia Ascii String.
From stdpp Require Import base list gmap strings.
From S2P Require Import Prelude GoStrings Schema Leases Handoffs.
#[local] Open Scope Z_scope.

(** ** The advisory lock *)

(** The connection that holds the lock, if one does. *)
Definition Advisory := option Z.

(** [pg_try_advisory_lock]: a session may take a lock it already holds. *)
Definition TryAcquireControllerLeadership (conn : Z) (lock : Advisory) : bool * Advisory :=
  match lock with
  | None => (true, Some conn)
  | Some holder => (holder =? conn, lock)
  end.

(** Unlocking, and the release when a connection is lost. *)
Definition Close (conn : Z) (lock : Advisory) : Advisory :=
  if bool_decide (lock = Some conn) then None else lock.

Section Leadership.
Context `{Postgres}.

Definition set_shutdown (e : ControllerEpoch) (t : option time) : ControllerEpoch :=
  {| ep_OperationID := ep_OperationID e; ep_ControllerID := ep_ControllerID e;
     ep_Source := ep_Source e; ep_State := ep_State e;
     ep_SigningKeyVersion := ep_SigningKeyVersion e; ep_ActivatedAt := ep_ActivatedAt e;
     ep_RevokedAt := ep_RevokedAt e; ep_CleanShutdownAt := t |}.

Definition put_epoch (g : Z) (e : ControllerEpoch) (d : DB) : DB :=
  set_epochs (<[g := e]> (db_epochs d)) d.

(** [conn] is the connection of the leadership value, [lock] the lock table. *)
Definition MarkCleanShutdown (clock : time) (lock : Advisory) (conn : Z) (generation : Z) (now : time)
  (d : DB) : result bool * DB :=
  if generation <=? 0 then (Fail "invalid controller generation", d)
  else
    let now := now_or clock now in
    match db_epochs d !! generation with
    | Some e =>
        if String.eqb (ep_State e) "active" && bool_decide (lock = Some conn)
        then (Ok true, put_epoch generation (set_shutdown e (Some (ts now))) d)
        else (Ok false, d)
    | None => (Ok false, d)
    end.

Definition resumedEvent (generation : Z) (source : string) (shutdown : time) : AuditEvent :=
  {| ae_Action := "controller-generation-resumed"; ae_TargetID := generation; ae_OperationID := "";
     ae_ControllerGeneration := generation;
     ae_Detail := [("source"%string, DText source); ("clean_shutdown_at"%string, DTime shutdown)] |}.

(** The gap of a restart the code continues the generation over. *)
Definition resumable (now shutdown : time) (maxGap : duration) : bool :=
  let gap := time_sub now shutdown in (- Minute <=? gap) && (gap <=? maxGap).

Definition ResumeControllerEpoch (clock : time) (source : string) (maxGap : duration) (now : time)
  (d : DB) : result (option Z) * DB :=
  if String.eqb source "" || (128 <? slen source) || (maxGap <=? 0)
  then (Fail "invalid controller resume request", d)
  else
    let now := now_or clock now in
    match active_epoch d with
    | None => (Ok None, d)
    | Some (generation, e) =>
        match ep_CleanShutdownAt e with
        | None => (Ok None, d)
        | Some shutdown =>
            let d1 := put_epoch generation (set_shutdown e None) d in
            if resumable now shutdown maxGap
            then (Ok (Some generation), set_audit (resumedEvent generation source shutdown :: db_audit d1) d1)
            else (Ok None, d1)
        end
    end.

(** ** Promotion *)

Definition revoked_epoch (e : ControllerEpoch) (now : time) : ControllerEpoch :=
  {| ep_OperationID := ep_OperationID e; ep_ControllerID := ep_ControllerID e;
     ep_Source := ep_Source e; ep_State := "revoked";
     ep_SigningKeyVersion := ep_SigningKeyVersion e; ep_ActivatedAt := ep_ActivatedAt e;
     ep_RevokedAt := Some (ts now); ep_CleanShutdownAt := ep_CleanShutdownAt e |}.

(** [INSERT INTO controller_epochs] with its key, its checks and the index that
    keeps one epoch active. *)
Definition insert_epoch (g : Z) (e : ControllerEpoch) : Tx unit := fun d =>
  if bool_decide (is_Some (db_epochs d !! g)) || negb (0 <? g)
     || negb (0 <? ep_SigningKeyVersion e)
     || bool_decide (is_Some (active_epoch d))
     || negb (Nat.eqb (length (rows_where (fun _ e' => String.eqb (ep_OperationID e') (ep_OperationID e))
                                (db_epochs d))) 0)
  then Fail sql_error
  else Ok (tt, put_epoch g e d).

Definition revoke_session (at_ : time) (s : SessionRow) : SessionRow :=
  {| se_UserID := se_UserID s; se_AdminID := se_AdminID s; se_TokenHash := se_TokenHash s;
     se_CSRFHash := se_CSRFHash s; se_ExpiresAt := se_ExpiresAt s;
     se_RevokedAt := coalesce (se_RevokedAt s) at_; se_LastSeenAt := se_LastSeenAt s;
     se_CreatedAt := se_CreatedAt s; se_ControllerGeneration := se_ControllerGeneration s |}.

Definition set_rotation_state (st : string) (r : RotationRow) : RotationRow :=
  {| ro_OperationID := ro_OperationID r; ro_NodeID := ro_NodeID r; ro_Version := ro_Version r;
     ro_Ciphertext := ro_Ciphertext r; ro_ControllerGeneration := ro_ControllerGeneration r;
     ro_State := st; ro_ExpiresAt := ro_ExpiresAt r; ro_CreatedAt := ro_CreatedAt r;
     ro_ConfirmedAt := ro_ConfirmedAt r |}.

Definition open_rebuild (r : RebuildOperation) : bool :=
  bool_decide (rb_State r ∈ ["reconciling"; "ready_with_deferred"]).

Definition fail_rebuild (at_ : time) (r : RebuildOperation) : RebuildOperation :=
  {| rb_OperationID := rb_OperationID r; rb_Generation := rb_Generation r;
     rb_PreviousGeneration := rb_PreviousGeneration r; rb_Source := rb_Source r;
     rb_State := "failed"; rb_TotalNodes := rb_TotalNodes r; rb_ReconciledNodes := rb_ReconciledNodes r;
     rb_ErrorCode := Some "superseded_by_generation"%string; rb_StartedAt := rb_StartedAt r;
     rb_UpdatedAt := at_; rb_CompletedAt := Some at_ |}.

(** The usable credential of a node with the highest version. *)
Definition newer (best : option CredentialRow) (c : CredentialRow) : option CredentialRow :=
  match best with
  | Some b => if cr_Version b <? cr_Version c then Some c else best
  | None => Some c
  end.

Definition usable_credential (d : DB) (node : Z) (now : time) : option CredentialRow :=
  foldl newer None
    (map snd (rows_where
       (fun _ c => (cr_NodeID c =? node) && bool_decide (cr_RevokedAt c = None)
                   && match cr_ExpiresAt c with None => true | Some e => e >? ts now end)
       (db_credentials d))).

(** The row of a node in a new rebuild, for the nodes that take part. *)
Definition rebuild_row (d : DB) (now : time) (id : Z) (n : Node) : option RebuildNode :=
  if bool_decide (nd_Role n ∈ ["compute"; "storage"])
     && negb (bool_decide (nd_OperationalState n ∈ ["decommissioned"; "retired"]))
  then match usable_credential d id now with
       | Some c => Some
           {| rn_PreviousCredentialGeneration := cr_ControllerGeneration c;
              rn_State := if String.eqb (nd_ConnectivityState n) "online"
                          then "awaiting_heartbeat" else "deferred";
              rn_AuthenticatedGeneration := None; rn_CredentialVersion := None;
              rn_LastHeartbeatAt := None; rn_CredentialActivatedAt := None; rn_ReconciledAt := None;
              rn_UpdatedAt := ts now |}
       | None => None
       end
  else None.

Definition rebuild_nodes_of (rebuildID : string) (d : DB) (now : time)
  : gmap (string * Z) RebuildNode :=
  list_to_map (omap (fun x : Z * Node => (fun r => ((rebuildID, x.1), r)) <$> rebuild_row d now x.1 x.2)
                 (map_to_list (db_nodes d))).

Definition fenced_node (now : time) (n : Node) : Node :=
  {| nd_Role := nd_Role n; nd_BaseURL := nd_BaseURL n; nd_Status := "offline";
     nd_ConnectivityState := "offline"; nd_OperationalState := nd_OperationalState n;
     nd_CompatibilityState := nd_CompatibilityState n; nd_ControllerGeneration := 0;
     nd_AgentVersion := nd_AgentVersion n; nd_TavernVersion := nd_TavernVersion n;
     nd_LastSeenAt := nd_LastSeenAt n; nd_Control := nd_Control n;
     nd_Capacity := {| cc_State := "unknown"; cc_Reason := "controller_generation_promoted";
                       cc_PressureSince := None; cc_RecoverySince := None;
                       cc_ChangedAt := ts now; cc_CooldownUntil := None |} |}.

(** The progress of a rebuild, counted over its rows. *)
Definition rebuild_counts (rebuildID : string) (d : DB) : Z * Z * Z :=
  let rows := rows_where (fun k (_ : RebuildNode) => String.eqb k.1 rebuildID) (db_rebuild_nodes d) in
  let among (states : list string) :=
    Z.of_nat (length (List.filter (fun kv : (string * Z) * RebuildNode =>
                                     bool_decide (rn_State kv.2 ∈ states)) rows)) in
  (Z.of_nat (length rows), among ["reconciled"], among ["reconciled"; "deferred"]).

Definition rebuild_progress (counts : Z * Z * Z) (at_ : time) (r : RebuildOperation) : RebuildOperation :=
  let '(total, reconciled, ready) := counts in
  {| rb_OperationID := rb_OperationID r; rb_Generation := rb_Generation r;
     rb_PreviousGeneration := rb_PreviousGeneration r; rb_Source := rb_Source r;
     rb_State := if total =? reconciled then "succeeded"
                 else if total =? ready then "ready_with_deferred" else "reconciling";
     rb_TotalNodes := total; rb_ReconciledNodes := reconciled; rb_ErrorCode := rb_ErrorCode r;
     rb_StartedAt := rb_StartedAt r; rb_UpdatedAt := at_;
     rb_CompletedAt := if total =? reconciled then Some at_ else None |}.

Definition promotedEvent (next current : Z) (operationID source rebuildID : string) : AuditEvent :=
  {| ae_Action := "controller-generation-promoted"; ae_TargetID := next;
     ae_OperationID := operationID; ae_ControllerGeneration := next;
     ae_Detail := [("previous_generation"%string, DInt current); ("source"%string, DText source);
                   ("rebuild_id"%string, DText rebuildID)] |}.

Definition insert_rebuild (id : string) (r : RebuildOperation) : Tx unit := fun d =>
  if bool_decide (is_Some (db_rebuilds d !! id))
     || negb (Nat.eqb (length (rows_where
           (fun _ r' => (rb_Generation r' =? rb_Generation r)
                        || String.eqb (rb_OperationID r') (rb_OperationID r)) (db_rebuilds d))) 0)
  then Fail sql_error
  else Ok (tt, set_rebuilds (<[id := r]> (db_rebuilds d)) d).

(** The statements that fence browser credentials and tickets. *)
Definition fence_sessions (now : time) (d : DB) : DB :=
  set_sessions (update_where (fun _ s => bool_decide (se_RevokedAt s = None))
                  (revoke_session (ts now)) (db_sessions d)) d.

Definition fence_tickets (now : time) (d : DB) : DB :=
  set_tickets (update_where (fun _ t => bool_decide (tk_ConsumedAt t = None)
                                        && bool_decide (tk_RevokedAt t = None))
                 (revoke (ts now)) (db_tickets d)) d.

Definition fence_rotations (current : Z) (d : DB) : DB :=
  set_rotations (update_where (fun _ r => String.eqb (ro_State r) "pending"
                                          && (ro_ControllerGeneration r =? current))
                   (set_rotation_state "revoked") (db_rotations d)) d.

Definition fail_open_rebuilds (now : time) (d : DB) : DB :=
  set_rebuilds (update_where (fun _ r => open_rebuild r) (fail_rebuild (ts now)) (db_rebuilds d)) d.

Definition add_rebuild_nodes (rebuildID : string) (now : time) (d : DB) : DB :=
  set_rebuild_nodes (rebuild_nodes_of rebuildID d now ∪ db_rebuild_nodes d) d.

Definition fence_nodes (rebuildID : string) (next : Z) (now : time) (d : DB) : DB :=
  set_nodes (update_where
    (fun id n => bool_decide (is_Some (db_rebuild_nodes d !! (rebuildID, id)))
                 || (String.eqb (nd_ConnectivityState n) "online"
                     && negb (nd_ControllerGeneration n =? next)))
    (fenced_node now) (db_nodes d)) d.

Definition count_rebuild (rebuildID : string) (now : time) (d : DB) : DB :=
  set_rebuilds (alter (rebuild_progress (rebuild_counts rebuildID d) (ts now)) rebuildID
                  (db_rebuilds d)) d.

(** [operationID], [rebuildID] and [controllerID] are the random UUIDs the server
    generates. *)
Definition promoteTx (operationID rebuildID controllerID source : string) (now : time) : Tx Z :=
  let! active := tx_read active_epoch in
  match active with
  | None => tx_fail "sql: no rows in result set"
  | Some (current, e) =>
      let next := wrap64 (current + 1) in
      let! _ := tx_write (put_epoch current (revoked_epoch e now)) in
      let! _ := insert_epoch next
                  {| ep_OperationID := operationID; ep_ControllerID := controllerID;
                     ep_Source := source; ep_State := "active";
                     ep_SigningKeyVersion := wrap64 (ep_SigningKeyVersion e + 1);
                     ep_ActivatedAt := ts now; ep_RevokedAt := None; ep_CleanShutdownAt := None |} in
      let! _ := tx_write (fence_sessions now) in
      let! _ := tx_write (fence_tickets now) in
      let! _ := tx_write (fence_rotations current) in
      let! _ := tx_write (fail_open_rebuilds now) in
      let! _ := insert_rebuild rebuildID
                  {| rb_OperationID := operationID; rb_Generation := next;
                     rb_PreviousGeneration := current; rb_Source := source;
                     rb_State := "reconciling"; rb_TotalNodes := 0; rb_ReconciledNodes := 0;
                     rb_ErrorCode := None; rb_StartedAt := ts now; rb_UpdatedAt := ts now;
                     rb_CompletedAt := None |} in
      let! _ := tx_write (add_rebuild_nodes rebuildID now) in
      let! _ := tx_write (fence_nodes rebuildID next now) in
      let! _ := tx_write (count_rebuild rebuildID now) in
      let! _ := tx_write (fun d => set_audit
                            (promotedEvent next current operationID source rebuildID :: db_audit d) d) in
      tx_ret next
  end.

Definition PromoteControllerEpoch (clock : time) (operationID rebuildID controllerID source : string)
  (now : time) (d : DB) : result Z * DB :=
  if String.eqb source "" || (128 <? slen source)
  then (Fail "invalid controller promotion source", d)
  else runTx (promoteTx operationID rebuildID controllerID source (now_or clock now)) d.

(** ** Browser sessions (sessions.go) *)

Record CreateControllerSessionParams := {
  sp_ID : string;
  sp_UserID : option Z;
  sp_AdminID : option Z;
  sp_TokenHash : string;
  sp_CSRFHash : string;
  sp_ExpiresAt : time;
  sp_Now : time
}.

Record ControllerSession := {
  cs_ID : string;
  cs_LegacyUserID : Z;
  cs_GlobalUserID : Z;
  cs_AdminID : Z;
  cs_Username : string;
  cs_IsAdmin : bool;
  cs_CSRFHash : string;
  cs_ExpiresAt : time;
  cs_LastSeenAt : time;
  cs_ControllerGeneration : Z
}.

Definition ErrInvalidControllerSession : string := "invalid controller session input".

Definition principals (p : CreateControllerSessionParams) : Z :=
  let one (o : option Z) := match o with Some i => if 0 <? i then 1 else 0 | None => 0 end in
  one (sp_UserID p) + one (sp_AdminID p).

Definition insert_session (id : string) (s : SessionRow) (d : DB) : result DB :=
  if bool_decide (is_Some (db_sessions d !! id))
     || negb (Nat.eqb (length (rows_where (fun _ s' => String.eqb (se_TokenHash s') (se_TokenHash s))
                                (db_sessions d))) 0)
     || negb (xorb (bool_decide (is_Some (se_UserID s))) (bool_decide (is_Some (se_AdminID s))))
     || match se_UserID s with Some u => negb (bool_decide (is_Some (db_users d !! u))) | None => false end
     || match se_AdminID s with Some a => negb (bool_decide (is_Some (db_admins d !! a))) | None => false end
  then Fail sql_error
  else Ok (set_sessions (<[id := s]> (db_sessions d)) d).

Definition CreateControllerSession (clock : time) (p : CreateControllerSessionParams) (d : DB)
  : result Z * DB :=
  if String.eqb (sp_ID p) "" || negb (principals p =? 1) || negb (slen (sp_TokenHash p) =? 32)
     || negb (slen (sp_CSRFHash p) =? 32) || is_zero (sp_ExpiresAt p)
  then (Fail ErrInvalidControllerSession, d)
  else
    let now := now_or clock (sp_Now p) in
    if negb (after (sp_ExpiresAt p) now) then (Fail ErrInvalidControllerSession, d)
    else
      match uuid_in (sp_ID p), active_generation d with
      | None, _ => (Fail sql_error, d)
      | Some _, None => (Fail ErrNoActiveController, d)
      | Some id, Some generation =>
          match insert_session id
                  {| se_UserID := sp_UserID p; se_AdminID := sp_AdminID p;
                     se_TokenHash := sp_TokenHash p; se_CSRFHash := sp_CSRFHash p;
                     se_ExpiresAt := ts (sp_ExpiresAt p); se_RevokedAt := None; se_LastSeenAt := ts now;
                     se_CreatedAt := ts now; se_ControllerGeneration := generation |} d with
          | Ok d' => (Ok generation, d')
          | Fail e => (Fail e, d)
          end
      end.

(** The user or administrator behind a session, while active. *)
Definition session_user (d : DB) (s : SessionRow) : option (Z * LegacyUser) :=
  uid ← se_UserID s;
  gu ← db_users d !! uid;
  if String.eqb (gu_Status gu) "active" then
    legacy ← gu_LegacyUserID gu;
    u ← db_legacy d !! legacy;
    if String.eqb (us_Status u) "active" then Some (legacy, u) else None
  else None.

Definition session_admin (d : DB) (s : SessionRow) : option Admin :=
  aid ← se_AdminID s;
  a ← db_admins d !! aid;
  if String.eqb (ad_Status a) "active" then Some a else None.

(** The rows the lookup of a cookie digest may return. *)
Definition session_live (d : DB) (tokenHash : string) (now : time) (s : SessionRow) : bool :=
  String.eqb (se_TokenHash s) tokenHash
  && bool_decide (active_generation d = Some (se_ControllerGeneration s))
  && bool_decide (se_RevokedAt s = None) && (se_ExpiresAt s >? ts now)
  && (bool_decide (is_Some (session_user d s)) || bool_decide (is_Some (session_admin d s))).

Definition GetControllerSession (clock : time) (tokenHash : string) (now : time) (d : DB)
  : result (option ControllerSession) :=
  if negb (slen tokenHash =? 32) then Fail ErrInvalidControllerSession
  else
    let now := now_or clock now in
    match head (rows_where (fun _ s => session_live d tokenHash now s) (db_sessions d)) with
    | None => Ok None
    | Some (id, s) =>
        let legacy := match se_UserID s with
                      | Some uid => gu ← db_users d !! uid;
                                    if String.eqb (gu_Status gu) "active" then gu_LegacyUserID gu else None
                      | None => None
                      end in
        Ok (Some
          {| cs_ID := id; cs_LegacyUserID := default 0 legacy;
             cs_GlobalUserID := default 0 (se_UserID s); cs_AdminID := default 0 (se_AdminID s);
             cs_Username := match session_user d s, session_admin d s with
                            | Some (_, u), _ => us_Username u
                            | None, Some a => ad_Username a
                            | None, None => ""%string
                            end;
             cs_IsAdmin := bool_decide (is_Some (se_AdminID s)); cs_CSRFHash := se_CSRFHash s;
             cs_ExpiresAt := se_ExpiresAt s; cs_LastSeenAt := se_LastSeenAt s;
             cs_ControllerGeneration := se_ControllerGeneration s |})
    end.

Definition touch_session (at_ : time) (s : SessionRow) : SessionRow :=
  {| se_UserID := se_UserID s; se_AdminID := se_AdminID s; se_TokenHash := se_TokenHash s;
     se_CSRFHash := se_CSRFHash s; se_ExpiresAt := se_ExpiresAt s; se_RevokedAt := se_RevokedAt s;
     se_LastSeenAt := at_; se_CreatedAt := se_CreatedAt s;
     se_ControllerGeneration := se_ControllerGeneration s |}.

Definition TouchControllerSession (clock : time) (id : string) (now : time) (d : DB) : result unit * DB :=
  if String.eqb id "" then (Fail ErrInvalidControllerSession, d)
  else
    let now := now_or clock now in
    match uuid_in id with
    | None => (Fail sql_error, d)
    | Some id =>
        (Ok tt, set_sessions (update_where
           (fun k s => String.eqb k id && bool_decide (se_RevokedAt s = None) && (se_ExpiresAt s >? ts now))
           (touch_session (ts now)) (db_sessions d)) d)
    end.

Definition RevokeControllerSession (clock : time) (tokenHash : string) (now : time) (d : DB)
  : result unit * DB :=
  if negb (slen tokenHash =? 32) then (Fail ErrInvalidControllerSession, d)
  else
    let now := now_or clock now in
    (Ok tt, set_sessions (update_where (fun _ s => String.eqb (se_TokenHash s) tokenHash)
              (revoke_session (ts now)) (db_sessions d)) d).

(** The rows the cleanup keeps. *)
Definition session_kept (now : time) (s : SessionRow) : bool :=
  negb ((se_ExpiresAt s <=? ts now)
        || match se_RevokedAt s with Some t => t <=? ts (now - 24 * Hour) | None => false end).

Definition CleanupControllerSessions (clock now : time) (d : DB) : result Z * DB :=
  let now := now_or clock now in
  let gone := rows_where (fun _ s => negb (session_kept now s)) (db_sessions d) in
  (Ok (Z.of_nat (length gone)),
   set_sessions (filter (fun kv => session_kept now kv.2 = true) (db_sessions d)) d).

(** ** What the operations keep *)

(** The active generation never goes back. *)
Definition epoch_step (d d' : DB) : Prop :=
  forall g, epochs_wf d g -> exists g', g <= g' /\ epochs_wf d' g'.

(** A session is bound to a generation that was active. *)
Definition sessions_ok (d : DB) (g : Z) : Prop :=
  forall id s, db_sessions d !! id = Some s -> se_ControllerGeneration s <= g.

#[export] Instance epoch_step_preorder : PreOrder epoch_step.
Proof.
  split; [intros d g Hw; by exists g|].
  intros d1 d2 d3 H12 H23 g Hw. destruct (H12 _ Hw) as (g2 & L12 & Hw2).
  destruct (H23 _ Hw2) as (g3 & L23 & Hw3). exists g3. split; [lia|done].
Qed.

Lemma epochs_wf_frame d d' g : db_epochs d' = db_epochs d -> epochs_wf d g -> epochs_wf d' g.
Proof. intros E [Ha Hu Hm Hi]. constructor; by rewrite ?E. Qed.

Lemma epochs_wf_shutdown d g e t :
  epochs_wf d g -> db_epochs d !! g = Some e -> epochs_wf (put_epoch g (set_shutdown e t) d) g.
Proof.
  intros [(e0 & He0 & Hs0) Hu Hm Hi] He. simplify_eq. constructor; cbn; [| | |done].
  - eexists. rewrite lookup_insert_eq. done.
  - intros g' e'. rewrite lookup_insert_Some. intros [[<- _]|[_ Hl]]; [done|by eapply Hu].
  - intros g' e'. rewrite lookup_insert_Some. intros [[<- _]|[_ Hl]]; by eapply Hm.
Qed.

Lemma MarkCleanShutdown_wf clock lock conn gen now d g :
  epochs_wf d g -> epochs_wf (MarkCleanShutdown clock lock conn gen now d).2 g.
Proof.
  intros Hw. unfold MarkCleanShutdown. destruct (gen <=? 0); [done|].
  destruct (db_epochs d !! gen) as [e|] eqn:E; [|done].
  destruct (String.eqb (ep_State e) "active") eqn:Es; [|done].
  destruct (bool_decide _); [|done]. b2p. cbn.
  assert (gen = g) as -> by (by eapply ew_unique). by apply epochs_wf_shutdown.
Qed.

Lemma ResumeControllerEpoch_wf clock source gap now d g :
  epochs_wf d g -> epochs_wf (ResumeControllerEpoch clock source gap now d).2 g.
Proof.
  intros Hw. unfold ResumeControllerEpoch.
  match goal with |- context [if ?b then _ else _] => destruct b end; [done|].
  destruct (epochs_wf_active _ _ Hw) as (e & -> & He).
  destruct (ep_CleanShutdownAt e) as [t|]; [|done].
  pose proof (epochs_wf_shutdown d g e None Hw He) as Hw1.
  destruct (resumable _ _ _); [|done]. cbn [snd]. by eapply epochs_wf_frame; [|exact Hw1].
Qed.

(** What a promotion leaves behind. *)
Record promotion (d : DB) (current next : Z) (now : time) (d' : DB) : Prop := {
  pr_next : next = wrap64 (current + 1) /\ 0 < next;
  pr_current : exists e e', db_epochs d !! current = Some e /\ ep_State e = "active"
    /\ ep_State e' = "active" /\ db_epochs d !! next = None /\ next <> current
    /\ db_epochs d' = <[next := e']> (<[current := revoked_epoch e now]> (db_epochs d))
    /\ ep_CleanShutdownAt e' = None;
  pr_sessions : db_sessions d' = update_where (fun _ s => bool_decide (se_RevokedAt s = None))
                  (revoke_session (ts now)) (db_sessions d);
  pr_tickets : db_tickets d' = update_where (fun _ t => bool_decide (tk_ConsumedAt t = None)
                  && bool_decide (tk_RevokedAt t = None)) (revoke (ts now)) (db_tickets d);
  pr_leases : db_leases d' = db_leases d;
  pr_ops : db_lease_ops d' = db_lease_ops d
}.

Lemma promoteTx_promotion op rb ct source now d next d' :
  promoteTx op rb ct source now d = Ok (next, d') ->
  exists current, active_generation d = Some current /\ promotion d current next now d'.
Proof.
  intros Hp. unfold promoteTx in Hp. tx_inv.
  match goal with Ha : context [active_epoch ?d0] |- _ =>
    destruct (active_epoch d0) as [[current e]|] eqn:E end; tx_inv.
  destruct (active_epoch_some _ _ _ E) as [Hl Hs].
  exists current. split; [unfold active_generation; by rewrite E|].
  repeat match goal with Hi : insert_epoch _ _ _ = Ok _ |- _ => unfold insert_epoch in Hi; tx_if E1
    | Hi : insert_rebuild _ _ _ = Ok _ |- _ => unfold insert_rebuild in Hi; tx_if E2 end.
  simplify_eq. repeat (apply orb_false_iff in E1 as [E1 ?]). b2p.
  apply eq_None_not_Some in E1. cbn in E1. apply lookup_insert_None in E1 as [Hnone Hne].
  constructor; try done.
  refine (ex_intro _ e (ex_intro _ _ (conj Hl (conj Hs (conj _ (conj Hnone (conj _ (conj eq_refl _)))))))); done.
Qed.

Lemma promotion_wf d current next now d' :
  promotion d current next now d' -> epochs_wf d current -> epochs_wf d' next /\ current < next.
Proof.
  intros [[Hn Hpos] (e & e' & Hl & Hs & Hs' & Hnone & Hne & He & _) _ _ _ _] Hw.
  assert (0 < current <= MaxInt64) as Hc.
  { destruct (ew_max _ _ Hw _ _ Hl). destruct (ew_int64 _ _ Hw). lia. }
  destruct (wrap64_next current) as [Hnx Hlt]; [done|lia|]. rewrite Hnx in Hn. subst next.
  split; [|lia]. constructor.
  - exists e'. by rewrite He, lookup_insert_eq.
  - intros g' e0. rewrite He, lookup_insert_Some. intros [[<- _]|[_ Hg]]; [done|].
    rewrite lookup_insert_Some in Hg. destruct Hg as [[<- <-]|[Hng Hg]]; [done|].
    intros Ha. by destruct (ew_unique _ _ Hw _ _ Hg Ha).
  - intros g' e0. rewrite He, lookup_insert_Some. intros [[<- _]|[_ Hg]]; [lia|].
    rewrite lookup_insert_Some in Hg. destruct Hg as [[<- _]|[_ Hg]]; [lia|].
    destruct (ew_max _ _ Hw _ _ Hg). lia.
  - unfold int64, MinInt64. lia.
Qed.

Lemma PromoteControllerEpoch_cases clock op rb ct source now d r d' :
  PromoteControllerEpoch clock op rb ct source now d = (r, d') ->
  (d' = d /\ forall next, r <> Ok next)
  \/ exists current next, r = Ok next /\ active_generation d = Some current
       /\ promotion d current next (now_or clock now) d'.
Proof.
  unfold PromoteControllerEpoch.
  match goal with |- context [if ?b then _ else _] => destruct b end; [intros [= <- <-]; by left|].
  unfold runTx. destruct (promoteTx _ _ _ _ _ d) as [[next d0]|e] eqn:E; intros [= <- <-]; [|by left].
  right. destruct (promoteTx_promotion _ _ _ _ _ _ _ _ E) as (current & Hg & Hp). eauto.
Qed.

(** ** Sessions *)

Definition session_writes (d d' : DB) : Prop := exists sessions, d' = set_sessions sessions d.

Lemma session_writes_refl d : session_writes d d.
Proof. exists (db_sessions d). by destruct d. Qed.

Lemma CreateControllerSession_writes clock p d : session_writes d (CreateControllerSession clock p d).2.
Proof.
  unfold CreateControllerSession.
  repeat match goal with |- context [if ?b then _ else _] => destruct b; [apply session_writes_refl|] end.
  destruct (uuid_in (sp_ID p)), (active_generation d); try apply session_writes_refl.
  destruct (insert_session _ _ _) as [d'|e] eqn:E; [|apply session_writes_refl].
  unfold insert_session in E.
  match type of E with (if ?b then _ else _) = _ => destruct b; [done|] end. injection E as <-. by eexists.
Qed.

Lemma TouchControllerSession_writes clock id now d :
  session_writes d (TouchControllerSession clock id now d).2.
Proof.
  unfold TouchControllerSession. repeat (case_match; try apply session_writes_refl). by eexists.
Qed.

Lemma RevokeControllerSession_writes clock tok now d :
  session_writes d (RevokeControllerSession clock tok now d).2.
Proof.
  unfold RevokeControllerSession. case_match; [apply session_writes_refl|by eexists].
Qed.

Lemma CleanupControllerSessions_writes clock now d :
  session_writes d (CleanupControllerSessions clock now d).2.
Proof. by eexists. Qed.

(** Marking and resuming write epochs and the audit trail. *)
Definition epoch_writes (d d' : DB) : Prop :=
  exists epochs audit, d' = set_audit audit (set_epochs epochs d).

Lemma epoch_writes_refl d : epoch_writes d d.
Proof. exists (db_epochs d), (db_audit d). by destruct d. Qed.

Lemma put_epoch_writes d g e : epoch_writes d (put_epoch g e d).
Proof. exists (<[g := e]> (db_epochs d)), (db_audit d). by destruct d. Qed.

Lemma MarkCleanShutdown_writes clock lock conn g now d :
  epoch_writes d (MarkCleanShutdown clock lock conn g now d).2.
Proof.
  unfold MarkCleanShutdown. repeat (case_match; try apply epoch_writes_refl).
  apply put_epoch_writes.
Qed.

Lemma ResumeControllerEpoch_writes clock source gap now d :
  epoch_writes d (ResumeControllerEpoch clock source gap now d).2.
Proof.
  unfold ResumeControllerEpoch.
  match goal with |- context [if ?b then _ else _] => destruct b end; [apply epoch_writes_refl|].
  destruct (active_epoch d) as [[g e]|]; [|apply epoch_writes_refl].
  destruct (ep_CleanShutdownAt e); [|apply epoch_writes_refl].
  destruct (resumable _ _ _); [by eexists _, _|]. apply put_epoch_writes.
Qed.

(** What a lookup that finds a session has checked. *)
Lemma GetControllerSession_found clock tok now d s :
  GetControllerSession clock tok now d = Ok (Some s) ->
  exists row, db_sessions d !! cs_ID s = Some row /\ se_TokenHash row = tok
    /\ se_RevokedAt row = None /\ active_generation d = Some (se_ControllerGeneration row)
    /\ cs_ControllerGeneration s = se_ControllerGeneration row
    /\ ts (now_or clock now) < se_ExpiresAt row.
Proof.
  unfold GetControllerSession. destruct (negb _); [done|].
  destruct (head _) as [[id row]|] eqn:E; [|done]. intros [= <-]. cbn.
  assert ((id, row) ∈ rows_where (fun _ s => session_live d tok (now_or clock now) s) (db_sessions d)) as Hin.
  { destruct (rows_where _ _); simplify_eq/=. apply list_elem_of_here. }
  apply rows_where_elem in Hin as [Hl Hp]. unfold session_live in Hp. rewrite Z.gtb_ltb in Hp. b2p.
  exists row. auto 10.
Qed.

End Leadership.

#[export] Hint Resolve MarkCleanShutdown_writes ResumeControllerEpoch_writes
  CreateControllerSession_writes TouchControllerSession_writes RevokeControllerSession_writes
  CleanupControllerSessions_writes : stc.
