(* ===== verification/Rebuilds.v ===== *)
(** * Rebuilding the control plane after a promotion

    src/internal/store/controller_rebuilds.go: after a promotion every node has a row
    in the rebuild of the new generation and moves from its first heartbeat over the
    rotation of its credential to a managed heartbeat under the new generation; the
    rebuild succeeds when every row is reconciled, and is ready when the others are
    deferred.  IsControlPlaneReady of control_modes.go reads it. *)

From Stdlib Require Import ZArith Lia Ascii String.
From stdpp Require Import base list gmap strings sorting.
From S2P Require Import Prelude GoStrings Schema Leases Handoffs Leadership.
#[local] Open Scope Z_scope.

Section Rebuilds.
Context `{Postgres}.

(** The rows of [nodeID] in the open rebuild of [generation]; a generation has one
    rebuild. *)
Definition rebuild_item (d : DB) (nodeID generation : Z) (k : string * Z) : bool :=
  (k.2 =? nodeID)
  && match db_rebuilds d !! k.1 with
     | Some r => (rb_Generation r =? generation) && open_rebuild r
     | None => false
     end.

Definition controllerRebuildAllowsOldCredentialLocked (nodeID activeGeneration authenticatedGeneration : Z)
  (d : DB) : bool :=
  negb (Nat.eqb (length (rows_where
    (fun k item => rebuild_item d nodeID activeGeneration k && negb (String.eqb (rn_State item) "reconciled")
                   && (rn_PreviousCredentialGeneration item =? authenticatedGeneration))
    (db_rebuild_nodes d))) 0)
  && negb (Nat.eqb (length (rows_where
       (fun _ c => (cr_NodeID c =? nodeID) && (cr_ControllerGeneration c =? authenticatedGeneration)
                   && bool_decide (cr_RevokedAt c = None)) (db_credentials d))) 0).

(** ** Finishing *)

Definition defer_item (now : time) (item : RebuildNode) : RebuildNode :=
  {| rn_PreviousCredentialGeneration := rn_PreviousCredentialGeneration item; rn_State := "deferred";
     rn_AuthenticatedGeneration := rn_AuthenticatedGeneration item;
     rn_CredentialVersion := rn_CredentialVersion item; rn_LastHeartbeatAt := rn_LastHeartbeatAt item;
     rn_CredentialActivatedAt := rn_CredentialActivatedAt item; rn_ReconciledAt := rn_ReconciledAt item;
     rn_UpdatedAt := ts now |}.

(** Rows of nodes that were heard of and are no longer online. *)
Definition deferrable (d : DB) (rebuildID : string) (k : string * Z) (item : RebuildNode) : bool :=
  String.eqb k.1 rebuildID && negb (bool_decide (rn_State item ∈ ["deferred"; "reconciled"]))
  && bool_decide (is_Some (rn_LastHeartbeatAt item))
  && match db_nodes d !! k.2 with
     | Some n => negb (String.eqb (nd_ConnectivityState n) "online")
     | None => false
     end.

Definition set_progress (total reconciled : Z) (now : time) (r : RebuildOperation) : RebuildOperation :=
  {| rb_OperationID := rb_OperationID r; rb_Generation := rb_Generation r;
     rb_PreviousGeneration := rb_PreviousGeneration r; rb_Source := rb_Source r; rb_State := rb_State r;
     rb_TotalNodes := total; rb_ReconciledNodes := reconciled; rb_ErrorCode := rb_ErrorCode r;
     rb_StartedAt := rb_StartedAt r; rb_UpdatedAt := ts now; rb_CompletedAt := rb_CompletedAt r |}.

Definition set_rebuild_state (state : string) (completed : option time) (now : time) (r : RebuildOperation)
  : RebuildOperation :=
  {| rb_OperationID := rb_OperationID r; rb_Generation := rb_Generation r;
     rb_PreviousGeneration := rb_PreviousGeneration r; rb_Source := rb_Source r; rb_State := state;
     rb_TotalNodes := rb_TotalNodes r; rb_ReconciledNodes := rb_ReconciledNodes r;
     rb_ErrorCode := rb_ErrorCode r; rb_StartedAt := rb_StartedAt r; rb_UpdatedAt := ts now;
     rb_CompletedAt := completed |}.

Definition completedEvent (rebuildID : string) (r : RebuildOperation) (reconciled : Z) : AuditEvent :=
  {| ae_Action := "controller-rebuild-completed"; ae_TargetID := rb_Generation r;
     ae_OperationID := rb_OperationID r; ae_ControllerGeneration := rb_Generation r;
     ae_Detail := [("rebuild_id"%string, DText rebuildID); ("reconciled_nodes"%string, DInt reconciled)] |}.

Definition finishControllerRebuildIfReadyLocked (rebuildID : string) (now : time) (d : DB) : DB :=
  let d := set_rebuild_nodes (update_where (deferrable d rebuildID) (defer_item now) (db_rebuild_nodes d)) d in
  let '(total, reconciled, ready) := rebuild_counts rebuildID d in
  let d := set_rebuilds (alter (set_progress total reconciled now) rebuildID (db_rebuilds d)) d in
  match db_rebuilds d !! rebuildID with
  | None => d
  | Some r =>
      if negb (open_rebuild r) then d
      else if negb (total =? reconciled) then
        set_rebuilds (<[rebuildID := set_rebuild_state
          (if ready =? total then "ready_with_deferred" else "reconciling") None now r]> (db_rebuilds d)) d
      else
        set_audit (completedEvent rebuildID r reconciled :: db_audit d)
          (set_rebuilds (<[rebuildID := set_rebuild_state "succeeded" (Some (ts now)) now r]> (db_rebuilds d)) d)
  end.

(** The rebuild an UPDATE ... RETURNING reports. *)
Definition touched_rebuild (d : DB) (nodeID generation : Z) : option string :=
  (fun kv : (string * Z) * RebuildNode => kv.1.1)
  <$> head (rows_where (fun k _ => rebuild_item d nodeID generation k) (db_rebuild_nodes d)).

Definition mark_items (d : DB) (nodeID generation : Z) (f : RebuildNode -> RebuildNode) : DB :=
  set_rebuild_nodes (update_where (fun k _ => rebuild_item d nodeID generation k) f (db_rebuild_nodes d)) d.

(** ** Heartbeats *)

Definition heartbeat_item (active authenticated : Z) (reported desired : string) (now : time)
  (item : RebuildNode) : RebuildNode :=
  let current := authenticated =? active in
  let managed := current && String.eqb reported "managed" && String.eqb desired "managed" in
  {| rn_PreviousCredentialGeneration := rn_PreviousCredentialGeneration item;
     rn_State := if String.eqb (rn_State item) "reconciled" then rn_State item
                 else if managed then "reconciled"
                 else if current then "draining"
                 else if String.eqb (rn_State item) "deferred" then rn_State item
                 else if String.eqb (rn_State item) "rotation_pending" then rn_State item
                 else "heartbeat_verified";
     rn_AuthenticatedGeneration := Some authenticated; rn_CredentialVersion := rn_CredentialVersion item;
     rn_LastHeartbeatAt := Some (ts now);
     rn_CredentialActivatedAt := if current then coalesce (rn_CredentialActivatedAt item) (ts now)
                                 else rn_CredentialActivatedAt item;
     rn_ReconciledAt := if managed then coalesce (rn_ReconciledAt item) (ts now) else rn_ReconciledAt item;
     rn_UpdatedAt := ts now |}.

Definition markControllerRebuildHeartbeatLocked (nodeID activeGeneration authenticatedGeneration : Z)
  (reportedMode desiredMode : string) (now : time) (d : DB) : DB :=
  let d' := mark_items d nodeID activeGeneration
              (heartbeat_item activeGeneration authenticatedGeneration reportedMode desiredMode now) in
  match touched_rebuild d nodeID activeGeneration with
  | None => d'
  | Some rebuildID => finishControllerRebuildIfReadyLocked rebuildID now d'
  end.

(** ** Credential rotation *)

Definition rotation_item (credentialVersion : Z) (now : time) (item : RebuildNode) : RebuildNode :=
  {| rn_PreviousCredentialGeneration := rn_PreviousCredentialGeneration item;
     rn_State := if bool_decide (rn_State item ∈ ["reconciled"; "draining"; "credential_activated"; "deferred"])
                 then rn_State item else "rotation_pending";
     rn_AuthenticatedGeneration := rn_AuthenticatedGeneration item;
     rn_CredentialVersion := Some credentialVersion; rn_LastHeartbeatAt := rn_LastHeartbeatAt item;
     rn_CredentialActivatedAt := rn_CredentialActivatedAt item; rn_ReconciledAt := rn_ReconciledAt item;
     rn_UpdatedAt := ts now |}.

Definition markControllerRebuildRotationPendingLocked (nodeID generation credentialVersion : Z) (now : time)
  (d : DB) : DB := mark_items d nodeID generation (rotation_item credentialVersion now).

Definition activated_item (online : bool) (generation credentialVersion : Z) (now : time)
  (item : RebuildNode) : RebuildNode :=
  {| rn_PreviousCredentialGeneration := rn_PreviousCredentialGeneration item;
     rn_State := if online then "credential_activated" else "deferred";
     rn_AuthenticatedGeneration := Some generation; rn_CredentialVersion := Some credentialVersion;
     rn_LastHeartbeatAt := rn_LastHeartbeatAt item;
     rn_CredentialActivatedAt := coalesce (rn_CredentialActivatedAt item) (ts now);
     rn_ReconciledAt := None; rn_UpdatedAt := ts now |}.

Definition markControllerRebuildCredentialActivatedLocked (nodeID generation credentialVersion : Z)
  (now : time) (d : DB) : DB :=
  match db_nodes d !! nodeID with
  | None => d
  | Some n =>
      let d' := mark_items d nodeID generation
                  (activated_item (String.eqb (nd_ConnectivityState n) "online") generation credentialVersion now) in
      match touched_rebuild d nodeID generation with
      | None => d'
      | Some rebuildID => finishControllerRebuildIfReadyLocked rebuildID now d'
      end
  end.

(** ** Reading *)

Definition newer_rebuild (best : option (string * RebuildOperation)) (x : string * RebuildOperation) :=
  match best with
  | Some b => if rb_Generation b.2 <? rb_Generation x.2 then Some x else best
  | None => Some x
  end.

Definition by_node (x y : Z * RebuildNode) : Prop := x.1 <= y.1.
#[local] Instance by_node_dec : RelDecision by_node.
Proof. intros x y. apply Z.le_dec. Defined.

(** The newest rebuild and the rows of its nodes that still exist, ordered by node. *)
Definition GetLatestControllerRebuild (d : DB) : option (string * RebuildOperation * list (Z * RebuildNode)) :=
  match foldl newer_rebuild None (map_to_list (db_rebuilds d)) with
  | None => None
  | Some (id, r) =>
      let rows := omap (fun kv : (string * Z) * RebuildNode =>
                          match db_nodes d !! kv.1.2 with Some _ => Some (kv.1.2, kv.2) | None => None end)
                    (rows_where (fun k _ => String.eqb k.1 id) (db_rebuild_nodes d)) in
      Some (id, r, take 1000 (merge_sort by_node rows))
  end.

Definition blocks_readiness (d : DB) (generation : Z) (id : Z) (n : Node) : bool :=
  String.eqb (nd_Role n) "compute"
  && negb (bool_decide (nd_OperationalState n ∈ ["decommissioned"; "retired"]))
  && String.eqb (nd_ConnectivityState n) "online"
  && negb (Nat.eqb (length (rows_where (fun _ c => (cr_NodeID c =? id) && bool_decide (cr_RevokedAt c = None))
                              (db_credentials d))) 0)
  && (negb (String.eqb (nc_ControlMode (nd_Control n)) "managed")
      || negb (String.eqb (nc_DesiredControlMode (nd_Control n)) "managed")
      || negb (nd_ControllerGeneration n =? generation)).

Definition IsControlPlaneReady (d : DB) : bool :=
  match active_generation d with
  | None => false
  | Some generation =>
      Nat.eqb (length (rows_where (fun _ r => (rb_Generation r =? generation)
                 && negb (bool_decide (rb_State r ∈ ["succeeded"; "ready_with_deferred"]))) (db_rebuilds d))) 0
      && Nat.eqb (length (rows_where (blocks_readiness d generation) (db_nodes d))) 0
  end.

(** ** Nodes that fall silent (nodes.go) *)

Definition offline_node (reason : string) (now : time) (n : Node) : Node :=
  {| nd_Role := nd_Role n; nd_BaseURL := nd_BaseURL n; nd_Status := "offline";
     nd_ConnectivityState := "offline"; nd_OperationalState := nd_OperationalState n;
     nd_CompatibilityState := nd_CompatibilityState n; nd_ControllerGeneration := nd_ControllerGeneration n;
     nd_AgentVersion := nd_AgentVersion n; nd_TavernVersion := nd_TavernVersion n;
     nd_LastSeenAt := nd_LastSeenAt n; nd_Control := nd_Control n;
     nd_Capacity := {| cc_State := "unknown"; cc_Reason := reason; cc_PressureSince := None;
                       cc_RecoverySince := None; cc_ChangedAt := ts now; cc_CooldownUntil := None |} |}.

Definition stale_item (d : DB) (cutoff : time) (k : string * Z) (item : RebuildNode) : bool :=
  negb (bool_decide (rn_State item ∈ ["deferred"; "reconciled"]))
  && match db_rebuilds d !! k.1, db_nodes d !! k.2 with
     | Some r, Some n =>
         bool_decide (active_generation d = Some (rb_Generation r)) && open_rebuild r
         && negb (String.eqb (nd_ConnectivityState n) "online")
         && (default (rb_StartedAt r) (nd_LastSeenAt n) <? ts cutoff)
     | _, _ => false
     end.

Definition MarkStaleNodesOffline (now : time) (timeout : duration) (d : DB) : result unit * DB :=
  if timeout <=? 0 then (Fail "invalid node heartbeat timeout", d)
  else
    let cutoff := now - timeout in
    let d := set_nodes (update_where
               (fun _ n => String.eqb (nd_ConnectivityState n) "online"
                           && match nd_LastSeenAt n with Some t => t <? ts cutoff | None => false end)
               (offline_node "heartbeat_stale" now) (db_nodes d)) d in
    let ids := remove_dups (map (fun kv : (string * Z) * RebuildNode => kv.1.1)
                 (rows_where (stale_item d cutoff) (db_rebuild_nodes d))) in
    let d := set_rebuild_nodes (update_where (stale_item d cutoff) (defer_item now) (db_rebuild_nodes d)) d in
    (Ok tt, foldl (fun d id => finishControllerRebuildIfReadyLocked id now d) d ids).

(** ** Invariant *)

(** The states an item may be in when its rebuild is reported as done or ready. *)
Definition allowed_items (state : string) (item : RebuildNode) : Prop :=
  (state = "succeeded" -> rn_State item = "reconciled")
  /\ (state = "ready_with_deferred" -> rn_State item ∈ ["reconciled"; "deferred"]).

Definition rebuild_states : list string := ["reconciling"; "ready_with_deferred"; "succeeded"; "failed"].

(** The columns of a rebuild alone. *)
Record rebuild_row_wf (r : RebuildOperation) : Prop := {
  rw_state : rb_State r ∈ rebuild_states;
  rw_completed : rb_State r ∈ ["succeeded"; "failed"] <-> is_Some (rb_CompletedAt r);
  rw_counts : 0 <= rb_ReconciledNodes r <= rb_TotalNodes r
}.

Definition items_ok (d : DB) (id : string) (r : RebuildOperation) : Prop :=
  forall n item, db_rebuild_nodes d !! (id, n) = Some item -> allowed_items (rb_State r) item.

(** Rebuilds in [dirty] have items that changed since the rebuild was last counted;
    only open ones may be. *)
Definition wf_except (dirty : string -> Prop) (d : DB) : Prop :=
  forall id r, db_rebuilds d !! id = Some r ->
    rebuild_row_wf r /\ (open_rebuild r = false \/ ~ dirty id -> items_ok d id r).

Definition generations_unique (d : DB) : Prop :=
  forall id id' r r', db_rebuilds d !! id = Some r -> db_rebuilds d !! id' = Some r' ->
    rb_Generation r = rb_Generation r' -> id = id'.

(** Every rebuild reported as succeeded has only reconciled nodes, every rebuild
    reported as ready only reconciled and deferred ones. *)
Record rebuilds_wf (d : DB) : Prop := {
  rbw_rows : wf_except (fun _ => False) d;
  rbw_generations : generations_unique d
}.

(** What the counts say of every row. *)
Lemma rebuild_counts_spec id d total reconciled ready :
  rebuild_counts id d = (total, reconciled, ready) ->
  0 <= reconciled <= total
  /\ (total = reconciled -> forall n item, db_rebuild_nodes d !! (id, n) = Some item -> rn_State item = "reconciled")
  /\ (ready = total -> forall n item, db_rebuild_nodes d !! (id, n) = Some item ->
      rn_State item ∈ ["reconciled"; "deferred"]).
Proof.
  unfold rebuild_counts. set (rows := rows_where _ _). intros [= <- <- <-].
  assert (forall states : list string, (length (List.filter (fun kv : (string * Z) * RebuildNode =>
      bool_decide (rn_State kv.2 ∈ states)) rows) <= length rows)%nat) as Hle
    by (intros states; apply filter_length_le).
  assert (forall states : list string, length (List.filter (fun kv : (string * Z) * RebuildNode =>
      bool_decide (rn_State kv.2 ∈ states)) rows) = length rows ->
      forall n item, db_rebuild_nodes d !! (id, n) = Some item -> rn_State item ∈ states) as Hall.
  { intros states Hlen n item Hl. assert (((id, n), item) ∈ rows) as Hin.
    { apply rows_where_elem. cbn. by rewrite String.eqb_refl. }
    apply filter_length_forallb in Hlen. rewrite forallb_forall in Hlen.
    apply list_elem_of_In in Hin. apply Hlen in Hin. cbn in Hin. by b2p. }
  split; [specialize (Hle ["reconciled"]); lia|]. split.
  - intros E n item Hl. assert (rn_State item ∈ ["reconciled"]) as Hs
      by (eapply Hall; [|exact Hl]; lia). by apply list_elem_of_singleton in Hs.
  - intros E. apply Hall. lia.
Qed.

Lemma open_rebuild_state r : open_rebuild r = true -> rb_State r <> "succeeded" /\ rb_State r <> "failed".
Proof. unfold open_rebuild. intros E%bool_decide_eq_true_1. set_unfold. destruct E as [->|[->|[]]]; done. Qed.

(** Deferring touches neither reconciled nor deferred items, and only this rebuild. *)
Lemma deferred_items d id now r state :
  items_ok d id r -> state = rb_State r ->
  forall n item, update_where (deferrable d id) (defer_item now) (db_rebuild_nodes d) !! (id, n) = Some item ->
  allowed_items state item.
Proof.
  intros Hok -> n item. rewrite update_where_lookup. destruct (db_rebuild_nodes d !! (id, n)) as [it|] eqn:E; [|done].
  cbn. specialize (Hok _ _ E). destruct (deferrable d id (id, n) it) eqn:Ed; intros [= <-]; [|done].
  destruct Hok as [H1 H2]. unfold deferrable in Ed. b2p. split; cbn; [|intros _; set_solver].
  intros Es. match goal with Hn : rn_State it ∉ _ |- _ => destruct Hn; rewrite (H1 Es); set_solver end.
Qed.

Lemma other_items d id id' now n :
  id' <> id -> update_where (deferrable d id) (defer_item now) (db_rebuild_nodes d) !! (id', n)
               = db_rebuild_nodes d !! (id', n).
Proof.
  intros Hne. rewrite update_where_lookup. destruct (db_rebuild_nodes d !! (id', n)) as [it|]; [|done]. cbn.
  unfold deferrable. cbn. by rewrite (proj2 (String.eqb_neq _ _) Hne).
Qed.

(** Counting a rebuild again cleans it. *)
Lemma finish_cleans dirty id now d :
  wf_except dirty d ->
  wf_except (fun x => dirty x /\ x <> id) (finishControllerRebuildIfReadyLocked id now d).
Proof.
  intros Hwf. unfold finishControllerRebuildIfReadyLocked.
  set (d1 := set_rebuild_nodes _ d). destruct (rebuild_counts id d1) as [[total reconciled] ready] eqn:Ec.
  destruct (rebuild_counts_spec _ _ _ _ _ Ec) as (Hcnt & Hrec & Hready).
  set (d2 := set_rebuilds (alter _ _ _) d1).
  assert (forall id' r', id' <> id -> db_rebuilds d !! id' = Some r' ->
    rebuild_row_wf r' /\ (open_rebuild r' = false \/ ~ (dirty id' /\ id' <> id) -> items_ok d1 id' r')) as Hother.
  { intros id' r' Hne Hl. destruct (Hwf _ _ Hl) as [Hr Hi]. split; [done|]. intros Hc n item.
    cbn. rewrite other_items by done. apply Hi. tauto. }
  assert (forall dd, db_rebuild_nodes dd = db_rebuild_nodes d1 ->
    (forall id', id' <> id -> db_rebuilds dd !! id' = db_rebuilds d !! id') ->
    (forall r, db_rebuilds dd !! id = Some r -> rebuild_row_wf r /\ items_ok d1 id r) ->
    wf_except (fun x => dirty x /\ x <> id) dd) as Hfin.
  { intros dd Hn Hr Hid id' r' Hl. destruct (decide (id' = id)) as [->|Hne].
    - destruct (Hid _ Hl) as [H1 H2]. split; [done|]. intros _ n item. rewrite Hn. apply H2.
    - rewrite Hr in Hl by done. destruct (Hother _ _ Hne Hl) as [H1 H2]. split; [done|]. intros Hc n item.
      rewrite Hn. by apply H2. }
  assert (forall id', id' <> id -> db_rebuilds d2 !! id' = db_rebuilds d !! id') as Hd2
    by (intros id' Hne; cbn; by rewrite lookup_alter_ne).
  destruct (db_rebuilds d2 !! id) as [r|] eqn:El.
  2: { apply Hfin; [done|done|]. intros r Hr. by rewrite El in Hr. }
  assert (rebuild_row_wf r /\ (open_rebuild r = false -> items_ok d1 id r)) as [Hrow Hclosed].
  { cbn in El. apply lookup_alter_Some in El as [(_ & r0 & Hr0 & ->)|[Hn _]]; [|done].
    destruct (Hwf _ _ Hr0) as [[W1 W2 W3] Hi]. split; [constructor; cbn; done|].
    intros Ho. intros n item Hl. eapply (deferred_items d id now r0); [|done|exact Hl]. apply Hi. by left. }
  destruct (open_rebuild r) eqn:Eo; cbn [negb].
  2: { apply Hfin; [done|done|]. intros r' Hr'. rewrite El in Hr'. simplify_eq. auto. }
  destruct (total =? reconciled) eqn:Et; cbn [negb]; b2p; (apply Hfin; [done| |]).
  1, 3: intros id' Hne; cbn; rewrite lookup_insert_ne by done; by apply Hd2.
  - cbn. intros r'. rewrite lookup_insert_eq. intros [= <-]. destruct Hrow as [W1 W2 W3]. split.
    + constructor; cbn; [set_solver| |done]. split; [by eexists|set_solver].
    + intros n item Hl. split; [intros _; by eapply Hrec|done].
  - cbn. intros r'. rewrite lookup_insert_eq. intros [= <-]. destruct Hrow as [W1 W2 W3]. split.
    + constructor; cbn; [destruct (_ =? _); set_solver| |done].
      split; [|by intros [? ?]]. destruct (_ =? _); set_solver.
    + intros n item Hl. split; cbn; destruct (ready =? total) eqn:Er; try done. b2p.
      intros _. by eapply Hready.
Qed.

Lemma wf_except_weaken (P Q : string -> Prop) d :
  (forall id, P id -> Q id) -> wf_except P d -> wf_except Q d.
Proof.
  intros Hpq Hwf id r Hl. destruct (Hwf _ _ Hl) as [H1 H2]. split; [done|]. intros Hc. apply H2.
  destruct Hc; [by left|]. right. auto.
Qed.

(** Operations that keep the generation of every rebuild. *)
Definition same_generations (d d' : DB) : Prop :=
  forall id r', db_rebuilds d' !! id = Some r' ->
    exists r, db_rebuilds d !! id = Some r /\ rb_Generation r = rb_Generation r'.

Lemma generations_kept d d' : same_generations d d' -> generations_unique d -> generations_unique d'.
Proof.
  intros Hs Hu id id' r r' Hl Hl' E. destruct (Hs _ _ Hl) as (r0 & H0 & E0).
  destruct (Hs _ _ Hl') as (r0' & H0' & E0'). eapply Hu; [done..|congruence].
Qed.

Lemma finish_generations id now d : same_generations d (finishControllerRebuildIfReadyLocked id now d).
Proof.
  intros id' r'. unfold finishControllerRebuildIfReadyLocked.
  destruct (rebuild_counts _ _) as [[total reconciled] ready]. set (d2 := set_rebuilds (alter _ _ _) _).
  assert (forall id' r', db_rebuilds d2 !! id' = Some r' ->
    exists r, db_rebuilds d !! id' = Some r /\ rb_Generation r = rb_Generation r') as Hd2.
  { intros x y. cbn. intros [(<- & r0 & Hr0 & ->)|[_ Hl]]%lookup_alter_Some; eauto. }
  destruct (db_rebuilds d2 !! id) as [r|] eqn:El; [|apply Hd2].
  destruct (negb (open_rebuild r)); [apply Hd2|].
  destruct (negb (total =? reconciled)); cbn; (intros [[<- <-]|[_ Hl]]%lookup_insert_Some; [|by apply Hd2]);
    destruct (Hd2 _ _ El) as (r0 & H0 & E0); by exists r0.
Qed.

Lemma mark_items_lookup d n g f k :
  db_rebuild_nodes (mark_items d n g f) !! k
  = (fun it => if rebuild_item d n g k then f it else it) <$> db_rebuild_nodes d !! k.
Proof. unfold mark_items. cbn. by rewrite update_where_lookup. Qed.

(** The rebuild that is reported is the only one that changed. *)
Lemma touched_unique d n g id m item :
  generations_unique d -> db_rebuild_nodes d !! (id, m) = Some item -> rebuild_item d n g (id, m) = true ->
  touched_rebuild d n g = Some id.
Proof.
  intros Hu Hl Hi. unfold touched_rebuild. set (rows := rows_where _ _).
  assert (((id, m), item) ∈ rows) as Hin by (by apply rows_where_elem).
  destruct rows as [|[[id' m'] item'] rest] eqn:E; [by apply elem_of_nil in Hin|]. cbn.
  assert (((id', m'), item') ∈ rows) as Hin' by (rewrite E; apply list_elem_of_here).
  subst rows. apply rows_where_elem in Hin' as [_ Hi']. unfold rebuild_item in *. b2p. cbn in *.
  destruct (db_rebuilds d !! id) as [r|] eqn:Er; [|done]. destruct (db_rebuilds d !! id') as [r'|] eqn:Er'; [|done].
  b2p. f_equal. eapply Hu; [done..|congruence].
Qed.

Lemma mark_items_dirty d n g f :
  rebuilds_wf d -> wf_except (fun id => touched_rebuild d n g = Some id) (mark_items d n g f).
Proof.
  intros [Hwf Hu] id r Hl. destruct (Hwf _ _ Hl) as [Hr Hi]. split; [done|]. intros Hc m item.
  rewrite mark_items_lookup. destruct (db_rebuild_nodes d !! (id, m)) as [it|] eqn:E; [|done]. cbn.
  destruct (rebuild_item d n g (id, m)) eqn:Ei.
  - pose proof (touched_unique _ _ _ _ _ _ Hu E Ei) as Ht. destruct Hc as [Hc|Hc]; [|done].
    unfold rebuild_item in Ei. b2p. cbn in *. rewrite Hl in *. b2p. congruence.
  - intros [= <-]. eapply (Hi ltac:(auto)). exact E.
Qed.

(** Marking items and counting their rebuild keeps the invariant. *)
Lemma mark_and_finish_wf d n g f now :
  rebuilds_wf d ->
  rebuilds_wf (match touched_rebuild d n g with
               | None => mark_items d n g f
               | Some id => finishControllerRebuildIfReadyLocked id now (mark_items d n g f)
               end).
Proof.
  intros Hwf. pose proof (mark_items_dirty d n g f Hwf) as Hd.
  destruct (touched_rebuild d n g) as [id|].
  - constructor.
    + eapply wf_except_weaken; [|apply finish_cleans, Hd]. intros x [[= ->] Hx]. done.
    + eapply generations_kept; [apply finish_generations|]. apply Hwf.
  - constructor; [|apply Hwf]. eapply wf_except_weaken; [|exact Hd]. done.
Qed.

Lemma heartbeat_wf n g a rep des now d :
  rebuilds_wf d -> rebuilds_wf (markControllerRebuildHeartbeatLocked n g a rep des now d).
Proof. apply mark_and_finish_wf. Qed.

Lemma activated_wf n g v now d :
  rebuilds_wf d -> rebuilds_wf (markControllerRebuildCredentialActivatedLocked n g v now d).
Proof.
  intros Hwf. unfold markControllerRebuildCredentialActivatedLocked.
  destruct (db_nodes d !! n); [|done]. by apply mark_and_finish_wf.
Qed.

Lemma rotation_wf n g v now d :
  rebuilds_wf d -> rebuilds_wf (markControllerRebuildRotationPendingLocked n g v now d).
Proof.
  intros [Hwf Hu]. constructor; [|done]. intros id r Hl. destruct (Hwf _ _ Hl) as [Hr Hi]. split; [done|].
  intros Hc m item. unfold markControllerRebuildRotationPendingLocked. rewrite mark_items_lookup.
  destruct (db_rebuild_nodes d !! (id, m)) as [it|] eqn:E; [|done]. cbn.
  destruct (Hi ltac:(auto) _ _ E) as [H1 H2]. intros [= <-].
  destruct (rebuild_item d n g (id, m)) eqn:Ei; [|done].
  unfold rebuild_item in Ei. b2p. cbn in *. rewrite Hl in *. b2p.
  match goal with Ho : open_rebuild r = true |- _ => destruct (open_rebuild_state _ Ho) as [Hs _] end.
  split; [done|]. intros Hrd. cbn. specialize (H2 Hrd). rewrite bool_decide_true; [done|].
  clear -H2. set_solver.
Qed.

Lemma finish_all_wf ids now : forall d dirty,
  wf_except dirty d -> generations_unique d -> (forall id, dirty id -> id ∈ ids) ->
  rebuilds_wf (foldl (fun d id => finishControllerRebuildIfReadyLocked id now d) d ids).
Proof.
  induction ids as [|id ids IH]; intros d dirty Hwf Hu Hin; cbn [foldl].
  - constructor; [|done]. eapply wf_except_weaken; [|exact Hwf]. intros x Hx. by apply Hin, elem_of_nil in Hx.
  - eapply IH; [by apply finish_cleans|by eapply generations_kept; [apply finish_generations|]|].
    intros x [Hx Hne]. apply Hin, elem_of_cons in Hx as [->|Hx]; done.
Qed.

Lemma stale_wf now timeout d : rebuilds_wf d -> rebuilds_wf (MarkStaleNodesOffline now timeout d).2.
Proof.
  intros [Hwf Hu]. unfold MarkStaleNodesOffline. destruct (timeout <=? 0); [done|]. cbn [snd].
  set (d1 := set_nodes _ d). set (ids := map _ _).
  eapply (finish_all_wf _ _ _ (fun id => id ∈ ids)); [|done|intros id; by rewrite elem_of_remove_dups].
  intros id r Hl. destruct (Hwf _ _ Hl) as [Hr Hi]. split; [done|]. intros Hc m item. cbn.
  rewrite update_where_lookup. destruct (db_rebuild_nodes d !! (id, m)) as [it|] eqn:E; [|done]. cbn.
  destruct (stale_item d1 _ (id, m) it) eqn:Es; intros [= <-]; [|by eapply (Hi ltac:(auto))].
  destruct Hc as [Hc|Hc].
  - change (db_rebuilds d !! id = Some r) in Hl. unfold stale_item in Es. cbn [fst snd] in Es.
    change (db_rebuilds d1) with (db_rebuilds d) in Es. rewrite Hl in Es.
    destruct (db_nodes d1 !! m); b2p; [congruence|done].
  - destruct Hc. unfold ids. apply list_elem_of_fmap. exists ((id, m), it). split; [done|].
    by apply rows_where_elem.
Qed.

(** The statements of a promotion before the rebuild is inserted leave its tables. *)
Lemma fences_frame now current x (y := fence_rotations current (fence_tickets now (fence_sessions now x))) :
  db_rebuilds y = db_rebuilds x /\ db_rebuild_nodes y = db_rebuild_nodes x.
Proof. done. Qed.

Lemma put_epoch_frame g e x :
  db_rebuilds (put_epoch g e x) = db_rebuilds x /\ db_rebuild_nodes (put_epoch g e x) = db_rebuild_nodes x.
Proof. done. Qed.

(** The statements after it. *)
Lemma promotion_tail rb next now a x
  (dc := fence_nodes rb next now (add_rebuild_nodes rb now x)) (d' := set_audit a (count_rebuild rb now dc)) :
  db_rebuild_nodes d' = db_rebuild_nodes dc
  /\ db_rebuild_nodes dc = rebuild_nodes_of rb x now ∪ db_rebuild_nodes x
  /\ db_rebuilds d' = alter (rebuild_progress (rebuild_counts rb dc) (ts now)) rb (db_rebuilds x).
Proof. done. Qed.

Lemma insert_rebuild_ok id r d d' :
  insert_rebuild id r d = Ok (tt, d') ->
  db_rebuilds d !! id = None /\ d' = set_rebuilds (<[id := r]> (db_rebuilds d)) d
  /\ (forall id' r', db_rebuilds d !! id' = Some r' -> rb_Generation r' <> rb_Generation r).
Proof.
  unfold insert_rebuild. destruct (_ || _) eqn:E; [done|]. intros [= <-]. b2p. split; [by apply eq_None_not_Some|].
  split; [done|]. intros id' r' Hl. match goal with Hn : Nat.eqb _ _ = true |- _ => 
    pose proof (rows_where_none _ _ _ _ Hn Hl) as Hp end. cbn in Hp. apply orb_false_iff in Hp as [Hp _]. by b2p.
Qed.

(** What a promotion makes of the rebuilds. *)
Lemma promoteTx_rebuilds op rb ct source now d next d' :
  promoteTx op rb ct source now d = Ok (next, d') ->
  exists r0 dc, rb_State r0 = "reconciling" /\ rb_CompletedAt r0 = None
    /\ db_rebuilds d !! rb = None
    /\ (forall id r, db_rebuilds d !! id = Some r -> rb_Generation r <> rb_Generation r0)
    /\ db_rebuild_nodes d' = db_rebuild_nodes dc
    /\ (forall k item, k.1 <> rb -> db_rebuild_nodes d' !! k = Some item -> db_rebuild_nodes d !! k = Some item)
    /\ db_rebuilds d' = alter (rebuild_progress (rebuild_counts rb dc) (ts now)) rb
         (<[rb := r0]> (update_where (fun _ r => open_rebuild r) (fail_rebuild (ts now)) (db_rebuilds d))).
Proof.
  intros Hp. unfold promoteTx in Hp. tx_inv.
  match goal with Ha : context [active_epoch ?d0] |- _ =>
    rename d0 into dd; destruct (active_epoch dd) as [[current e]|] eqn:E end; tx_inv.
  match goal with Hi : insert_epoch _ _ _ = Ok _ |- _ => unfold insert_epoch in Hi; tx_if E1; injection Hi as _ <- end.
  match goal with Hi : insert_rebuild _ ?r (fail_open_rebuilds _ ?y) = Ok (_, ?dr) |- _ =>
    set (x := y) in Hi; set (r0 := r) in Hi; rename Hi into Hins; rename dr into dr end.
  destruct (fences_frame now current (put_epoch (wrap64 (current + 1))
    {| ep_OperationID := op; ep_ControllerID := ct; ep_Source := source; ep_State := "active";
       ep_SigningKeyVersion := wrap64 (ep_SigningKeyVersion e + 1); ep_ActivatedAt := ts now;
       ep_RevokedAt := None; ep_CleanShutdownAt := None |} (put_epoch current (revoked_epoch e now) dd)))
    as [Hx1 Hx2]. fold x in Hx1, Hx2.
  rewrite (proj1 (put_epoch_frame _ _ _)), (proj1 (put_epoch_frame _ _ _)) in Hx1.
  rewrite (proj2 (put_epoch_frame _ _ _)), (proj2 (put_epoch_frame _ _ _)) in Hx2. clearbody x.
  match goal with u : unit |- _ => destruct u end || idtac.
  apply insert_rebuild_ok in Hins as (Hnone & -> & Hgen).
  cbn [db_rebuilds fail_open_rebuilds set_rebuilds] in Hnone, Hgen.
  rewrite Hx1 in Hnone, Hgen. rewrite update_where_lookup, fmap_None in Hnone.
  match goal with |- context [set_audit ?ev (count_rebuild rb now
    (fence_nodes rb ?nx now (add_rebuild_nodes rb now ?y)))] =>
    destruct (promotion_tail rb nx now ev y) as (Hn1 & Hn2 & Hr1);
    exists r0, (fence_nodes rb nx now (add_rebuild_nodes rb now y)); set (z := y) in * end.
  split; [done|]. split; [done|]. split; [done|]. split; [|split; [exact Hn1|split]].
  - intros id r Hl. specialize (Hgen id (if open_rebuild r then fail_rebuild (ts now) r else r)).
    rewrite update_where_lookup, Hl in Hgen. specialize (Hgen eq_refl). by destruct (open_rebuild r).
  - intros [k m] item Hne. rewrite Hn1, Hn2. cbn [fst] in Hne.
    intros [Hl|[_ Hl]]%lookup_union_Some_raw; [|by rewrite <- Hx2].
    apply elem_of_list_to_map_2, list_elem_of_omap in Hl as ([y n] & _ & Hy). cbn in Hy.
    by destruct (rebuild_row _ _ _ _); cbn in Hy; simplify_eq.
  - rewrite Hr1. f_equal. by rewrite <- Hx1.
Qed.

Lemma promote_wf op rb ct source now d next d' :
  promoteTx op rb ct source now d = Ok (next, d') -> rebuilds_wf d -> rebuilds_wf d'.
Proof.
  intros Hp [Hwf Hu].
  destruct (promoteTx_rebuilds _ _ _ _ _ _ _ _ Hp) as (r0 & dc & Hs0 & Hc0 & Hnone & Hgen & Hnodes & Hold & Hrb).
  assert (forall id r, id <> rb -> db_rebuilds d' !! id = Some r ->
    exists r1, db_rebuilds d !! id = Some r1 /\ r = if open_rebuild r1 then fail_rebuild (ts now) r1 else r1) as Hother.
  { intros id r Hne. rewrite Hrb, lookup_alter_ne, lookup_insert_ne, update_where_lookup by done.
    destruct (db_rebuilds d !! id) as [r1|]; [|done]. intros [= <-]. by exists r1. }
  assert (forall r, db_rebuilds d' !! rb = Some r ->
    r = rebuild_progress (rebuild_counts rb dc) (ts now) r0) as Hnew.
  { intros r. rewrite Hrb, lookup_alter_eq, lookup_insert_eq. by intros [= <-]. }
  constructor.
  - intros id r Hl. destruct (decide (id = rb)) as [->|Hne].
    + rewrite (Hnew _ Hl). destruct (rebuild_counts rb dc) as [[total reconciled] ready] eqn:Ec.
      destruct (rebuild_counts_spec _ _ _ _ _ Ec) as (Hcnt & Hrec & Hready). unfold rebuild_progress.
      destruct (total =? reconciled) eqn:E1; [|destruct (total =? ready) eqn:E2]; b2p; cbn; split;
        try (constructor; cbn; [state_dec| |done]; split; [state_dec|by intros [? ?]]).
      * constructor; cbn; [state_dec| |done]. split; [by eexists|intros _; state_dec].
      * intros _ n item. rewrite Hnodes. intros Hi. split; [intros _; by eapply Hrec|done].
      * intros _ n item. rewrite Hnodes. intros Hi. split; [done|intros _; by eapply Hready].
      * intros _ n item _. by split.
    + destruct (Hother _ _ Hne Hl) as (r1 & Hl1 & ->). destruct (Hwf _ _ Hl1) as [[W1 W2 W3] Hi].
      destruct (open_rebuild r1).
      * split; [constructor; cbn; [state_dec| |done]; split; [by eexists|intros _; state_dec]|].
        intros _ n item _. by split.
      * split; [done|]. intros Hc n item Hit. apply (Hi ltac:(auto) n). by apply (Hold (id, n)).
  - intros id id' r r' Hl Hl' Hg.
    assert (forall r, db_rebuilds d' !! rb = Some r -> rb_Generation r = rb_Generation r0) as Hgr.
    { intros x Hx. rewrite (Hnew _ Hx). by destruct (rebuild_counts rb dc) as [[? ?] ?]. }
    assert (forall id r, id <> rb -> db_rebuilds d' !! id = Some r ->
      exists r1, db_rebuilds d !! id = Some r1 /\ rb_Generation r1 = rb_Generation r) as Hgo.
    { intros x y Hx Hy. destruct (Hother _ _ Hx Hy) as (r1 & H1 & ->). exists r1. by destruct (open_rebuild r1). }
    destruct (decide (id = rb)) as [->|Hn], (decide (id' = rb)) as [->|Hn']; [done|..].
    + destruct (Hgo _ _ Hn' Hl') as (r1 & H1 & E1). destruct (Hgen _ _ H1). rewrite E1, <- Hg. auto.
    + destruct (Hgo _ _ Hn Hl) as (r1 & H1 & E1). destruct (Hgen _ _ H1). rewrite E1, Hg. auto.
    + destruct (Hgo _ _ Hn Hl) as (r1 & H1 & E1). destruct (Hgo _ _ Hn' Hl') as (r1' & H1' & E1').
      eapply Hu; [done..|congruence].
Qed.

(** ** Runs *)

Inductive rebuild_event :=
| RHeartbeat (nodeID active authenticated : Z) (reported desired : string) (now : time)
| RRotation (nodeID generation version : Z) (now : time)
| RActivated (nodeID generation version : Z) (now : time)
| RStale (now : time) (timeout : duration)
| RPromote (clock : time) (op rb ct source : string) (now : time)
| ROther (f : DB -> DB).

Definition rebuild_effect (ev : rebuild_event) (d : DB) : DB :=
  match ev with
  | RHeartbeat n g a rep des now => markControllerRebuildHeartbeatLocked n g a rep des now d
  | RRotation n g v now => markControllerRebuildRotationPendingLocked n g v now d
  | RActivated n g v now => markControllerRebuildCredentialActivatedLocked n g v now d
  | RStale now timeout => (MarkStaleNodesOffline now timeout d).2
  | RPromote clock op rb ct source now => (PromoteControllerEpoch clock op rb ct source now d).2
  | ROther f => set_rebuilds (db_rebuilds d) (set_rebuild_nodes (db_rebuild_nodes d) (f d))
  end.

Definition rebuild_run (d : DB) (evs : list rebuild_event) : DB := foldl (fun d ev => rebuild_effect ev d) d evs.

Lemma rebuild_effect_wf ev d : rebuilds_wf d -> rebuilds_wf (rebuild_effect ev d).
Proof.
  intros Hwf. destruct ev; cbn [rebuild_effect].
  - by apply heartbeat_wf.
  - by apply rotation_wf.
  - by apply activated_wf.
  - by apply stale_wf.
  - unfold PromoteControllerEpoch. destruct (_ || _); [done|]. unfold runTx.
    destruct (promoteTx _ _ _ _ _ d) as [[next d']|e] eqn:E; [|done]. by eapply promote_wf.
  - destruct Hwf as [Hr Hu]. constructor; [|done]. intros id r Hl. exact (Hr id r Hl).
Qed.

(** A rebuild is reported done only when it is.  Along any sequence of heartbeats,
    rotations, activations, silent nodes and promotions, a rebuild that says it
    succeeded has every node reconciled and is the only kind, with a failed one, that
    has a completion time; one that says it is ready has every node reconciled or
    deferred; the counts it shows are consistent, and each generation has one
    rebuild. *)
Theorem rebuild_reports_truthful d evs :
  rebuilds_wf d -> rebuilds_wf (rebuild_run d evs).
Proof.
  revert d. induction evs as [|ev evs IH]; intros d Hwf; [done|]. apply (IH (rebuild_effect ev d)).
  by apply rebuild_effect_wf.
Qed.

(** ** Which tables the marks write *)

Definition rebuild_writes (d d' : DB) : Prop :=
  exists items rebuilds audit, d' = set_audit audit (set_rebuilds rebuilds (set_rebuild_nodes items d)).

Lemma rebuild_writes_refl d : rebuild_writes d d.
Proof. exists (db_rebuild_nodes d), (db_rebuilds d), (db_audit d). by destruct d. Qed.

Lemma mark_items_writes d n g f : rebuild_writes d (mark_items d n g f).
Proof.
  exists (update_where (fun k _ => rebuild_item d n g k) f (db_rebuild_nodes d)), (db_rebuilds d), (db_audit d).
  by destruct d.
Qed.

Lemma finish_writes d0 id now d :
  rebuild_writes d0 d -> rebuild_writes d0 (finishControllerRebuildIfReadyLocked id now d).
Proof.
  intros (a & b & c & ->). unfold finishControllerRebuildIfReadyLocked.
  destruct (rebuild_counts _ _) as [[total reconciled] ready].
  destruct (_ !! id) as [r|]; [|by eexists _, _, _]. destruct (negb (open_rebuild r)); [by eexists _, _, _|].
  destruct (negb (total =? reconciled)); by eexists _, _, _.
Qed.

Lemma marks_writes n g v now d :
  rebuild_writes d (markControllerRebuildRotationPendingLocked n g v now d)
  /\ rebuild_writes d (markControllerRebuildCredentialActivatedLocked n g v now d).
Proof.
  split; [apply mark_items_writes|]. unfold markControllerRebuildCredentialActivatedLocked.
  destruct (db_nodes d !! n); [|apply rebuild_writes_refl].
  destruct (touched_rebuild d n g); [apply finish_writes|]; apply mark_items_writes.
Qed.

Lemma heartbeat_writes n g a rep des now d :
  rebuild_writes d (markControllerRebuildHeartbeatLocked n g a rep des now d).
Proof.
  unfold markControllerRebuildHeartbeatLocked.
  destruct (touched_rebuild d n g); [apply finish_writes|]; apply mark_items_writes.
Qed.

(** ** Recovery heartbeats *)

Lemma finish_items id now d :
  db_rebuild_nodes (finishControllerRebuildIfReadyLocked id now d)
  = update_where (deferrable d id) (defer_item now) (db_rebuild_nodes d).
Proof.
  unfold finishControllerRebuildIfReadyLocked. destruct (rebuild_counts _ _) as [[total reconciled] ready].
  destruct (_ !! id) as [r|]; [|done]. destruct (negb (open_rebuild r)); [done|].
  by destruct (negb (total =? reconciled)).
Qed.

(** A heartbeat with the old credential defers its node.  While a node is still
    fenced offline, the recovery heartbeat that its previous-generation credential
    may send moves its row to "deferred", from which it no longer holds back the
    readiness of the control plane, although its credential was not rotated. *)
Theorem recovery_heartbeat_defers n active authenticated reported desired now d id item nd :
  rebuilds_wf d -> db_rebuild_nodes d !! (id, n) = Some item -> rebuild_item d n active (id, n) = true ->
  rn_State item <> "reconciled" -> authenticated <> active ->
  db_nodes d !! n = Some nd -> nd_ConnectivityState nd <> "online" ->
  exists item', db_rebuild_nodes (markControllerRebuildHeartbeatLocked n active authenticated reported desired now d)
      !! (id, n) = Some item'
    /\ rn_State item' = "deferred" /\ rn_CredentialActivatedAt item' = rn_CredentialActivatedAt item
    /\ rn_CredentialVersion item' = rn_CredentialVersion item.
Proof.
  intros Hwf Hl Hi Hst Hauth Hn Hoff. unfold markControllerRebuildHeartbeatLocked.
  rewrite (touched_unique _ _ _ _ _ _ (rbw_generations _ Hwf) Hl Hi), finish_items, update_where_lookup,
    mark_items_lookup, Hl. cbn [fmap option_fmap option_map]. rewrite Hi.
  set (it := heartbeat_item active authenticated reported desired now item).
  assert (rn_State it <> "reconciled" /\ rn_CredentialActivatedAt it = rn_CredentialActivatedAt item) as [Hs Ha].
  { unfold it, heartbeat_item. rewrite (proj2 (Z.eqb_neq _ _) Hauth). cbn.
    destruct (String.eqb_spec (rn_State item) "reconciled") as [|_]; [done|]. split; [|done].
    destruct (String.eqb_spec (rn_State item) "deferred") as [->|_]; [done|].
    by destruct (String.eqb_spec (rn_State item) "rotation_pending") as [->|_]. }
  unfold deferrable. cbn [fst snd]. rewrite String.eqb_refl. change (db_nodes (mark_items _ _ _ _)) with (db_nodes d).
  rewrite Hn, (proj2 (String.eqb_neq _ _) Hoff). rewrite (bool_decide_true (is_Some _)) by by eexists.
  cbn [negb andb].
  destruct (decide (rn_State it = "deferred")) as [Hd|Hd].
  - rewrite bool_decide_true by (rewrite Hd; state_dec). exists it. by rewrite Hd.
  - rewrite bool_decide_false by (intros Hin; set_unfold in Hin; naive_solver).
    eexists. split; [reflexivity|]. split; [done|]. done.
Qed.
End Rebuilds.

(** ** Concrete runs *)

Definition demo_credential : CredentialRow :=
  {| cr_NodeID := 1; cr_Version := 1; cr_Ciphertext := "sealed"; cr_ControllerGeneration := 4;
     cr_ExpiresAt := None; cr_RevokedAt := None; cr_CreatedAt := store_now |}.

(** The deployment with a credential for node 1, before and after a promotion. *)
Definition before_promotion : DB := set_credentials {[ id_sid := demo_credential ]} demo_db.
Definition demo_promotion : rebuild_event :=
  RPromote 0 id_op id_sid2 id_op2 "failover" (store_now + Second).
Definition after_promotion : DB := @rebuild_effect demo_postgres demo_promotion before_promotion.
Definition recovery : rebuild_event := RHeartbeat 1 5 4 "managed" "managed" (store_now + 2 * Second).

Lemma before_promotion_wf : rebuilds_wf before_promotion.
Proof.
  constructor; [intros id r Hl|intros id id' r r' Hl]; exfalso; revert Hl; cbn; by rewrite lookup_empty.
Qed.

Definition rebuild_state (d : DB) : option string := rb_State <$> db_rebuilds d !! id_sid2.

(** After the promotion the control plane waits for node 1; its first recovery
    heartbeat opens it, with the credential still the old one. *)
Example readiness_after_recovery :
  rebuild_state after_promotion = Some "reconciling"%string
  /\ IsControlPlaneReady after_promotion = false
  /\ rebuild_state (@rebuild_effect demo_postgres recovery after_promotion) = Some "ready_with_deferred"%string
  /\ IsControlPlaneReady (@rebuild_effect demo_postgres recovery after_promotion) = true
  /\ db_credentials (@rebuild_effect demo_postgres recovery after_promotion) !! id_sid = Some demo_credential.
Proof. split_and!; vm_compute; reflexivity. Qed.

Lemma rebuild_reports_truthful_witness :
  rebuilds_wf (@rebuild_run demo_postgres before_promotion [demo_promotion; recovery]).
Proof. apply (@rebuild_reports_truthful demo_postgres), before_promotion_wf. Defined.

Lemma recovery_heartbeat_defers_witness : exists item item',
  db_rebuild_nodes after_promotion !! (id_sid2, 1) = Some item /\ rn_State item = "awaiting_heartbeat"
  /\ db_rebuild_nodes (@markControllerRebuildHeartbeatLocked demo_postgres 1 5 4 "managed" "managed"
       (store_now + 2 * Second) after_promotion) !! (id_sid2, 1) = Some item'
  /\ rn_State item' = "deferred" /\ rn_CredentialActivatedAt item' = rn_CredentialActivatedAt item
  /\ rn_CredentialVersion item' = rn_CredentialVersion item.
Proof.
  assert (rebuilds_wf after_promotion) as Hwf
    by (apply (@rebuild_effect_wf demo_postgres), before_promotion_wf).
  eexists. destruct (@recovery_heartbeat_defers demo_postgres 1 5 4 "managed" "managed" (store_now + 2 * Second)
    after_promotion id_sid2 _ _ Hwf ltac:(vm_compute; reflexivity) ltac:(vm_compute; reflexivity)
    ltac:(vm_compute; discriminate) ltac:(discriminate) ltac:(vm_compute; reflexivity)
    ltac:(vm_compute; discriminate)) as (item' & Hi).
  exists item'. split; [vm_compute; reflexivity|]. split; [reflexivity|]. exact Hi.
Defined.
