(* ===== verification/Credentials.v ===== *)
(** * Agent credentials

    src/internal/store/agent_credentials.go: the credential an Agent authenticates
    with and its rotation - a pending successor is offered, persisted by the Agent,
    and activated once the Agent proves it has it.  enrollment.go: single-use tokens
    that give a node its first or a new credential.  nonces.go: nonces of signed
    requests.  The part of revokeNodeAccessLocked (node_retirements.go) that takes
    a retired node's access away. *)

From Stdlib Require Import ZArith Lia Ascii String.
From stdpp Require Import base list gmap strings sorting.
From S2P Require Import Prelude GoStrings Sha256 Schema Leases Handoffs Leadership Commands Rebuilds.
#[local] Open Scope Z_scope.

Definition ErrAgentCredentialRotation : string := "agent credential rotation rejected".
Definition ErrInvalidEnrollment : string := "invalid agent enrollment input".
Definition ErrEnrollmentRejected : string := "agent enrollment rejected".
Definition ErrInvalidAgentNonce : string := "invalid agent nonce input".
Definition no_rows : string := "sql: no rows in result set".

Definition agentCredentialMaxAge : duration := 30 * 24 * Hour.

Record AgentAuthenticationCredential := {
  aa_ID : string;
  aa_Ciphertext : string;
  aa_CredentialVersion : Z;
  aa_ControllerGeneration : Z;
  aa_Pending : bool
}.

Record AgentCredentialRotation := {
  ar_ID : string;
  ar_CredentialVersion : Z;
  ar_Ciphertext : string;
  ar_ControllerGeneration : Z;
  ar_ExpiresAt : time
}.

Record EnsureAgentCredentialRotationParams := {
  ep_ID : string;
  ep_RotationOperationID : string;
  ep_NodeID : Z;
  ep_ProposedCiphertext : string;
  ep_ControllerGeneration : Z;
  ep_Now : time;
  ep_ExpiresAt : time
}.

Record CreateEnrollmentTokenParams := {
  et_ID : string;
  et_OperationID : string;
  et_TokenHash : string;
  et_ExpectedNodeID : Z;
  et_ExpectedRole : string;
  et_ExpectedFingerprint : string;
  et_ExpiresAt : time;
  et_CreatedByAdminID : option Z;
  et_Now : time
}.

Record EnrollAgentParams := {
  ea_TokenHash : string;
  ea_PresentedRole : string;
  ea_PresentedFingerprint : string;
  ea_CredentialID : string;
  ea_CredentialCiphertext : string;
  ea_AgentVersion : string;
  ea_TavernVersion : string;
  ea_BaseURLGuess : string;
  ea_Now : time
}.

Record AgentEnrollment := { ae_NodeID : Z; ae_CredentialVersion : Z; ae_Generation : Z }.

Section Credentials.
Context `{Postgres}.

(** ** Rows *)

Definition no_row `{Countable K} {V} (p : K -> V -> bool) (m : gmap K V) : bool :=
  Nat.eqb (length (rows_where p m)) 0.

Definition revoke_credential (now : time) (c : CredentialRow) : CredentialRow :=
  {| cr_NodeID := cr_NodeID c; cr_Version := cr_Version c; cr_Ciphertext := cr_Ciphertext c;
     cr_ControllerGeneration := cr_ControllerGeneration c; cr_ExpiresAt := cr_ExpiresAt c;
     cr_RevokedAt := coalesce (cr_RevokedAt c) (ts now); cr_CreatedAt := cr_CreatedAt c |}.

(** [UPDATE agent_credentials SET revoked_at WHERE node_id AND revoked_at IS NULL]. *)
Definition revoke_node_credentials (nodeID : Z) (now : time) (d : DB) : DB :=
  set_credentials (update_where
    (fun _ c => (cr_NodeID c =? nodeID) && bool_decide (cr_RevokedAt c = None))
    (revoke_credential now) (db_credentials d)) d.

(** [INSERT INTO agent_credentials] with its keys, checks and the index that keeps one
    unrevoked credential per node. *)
Definition insert_credential (id : string) (c : CredentialRow) : Tx unit := fun d =>
  if bool_decide (is_Some (db_credentials d !! id))
     || negb (no_row (fun _ c' => (cr_NodeID c' =? cr_NodeID c)
                                  && ((cr_Version c' =? cr_Version c) || bool_decide (cr_RevokedAt c' = None)))
                (db_credentials d))
     || negb (bool_decide (is_Some (db_nodes d !! cr_NodeID c)))
     || (cr_Version c <=? 0) || (cr_ControllerGeneration c <=? 0)
  then Fail sql_error
  else Ok (tt, set_credentials (<[id := c]> (db_credentials d)) d).

(** [INSERT INTO agent_credential_rotations], likewise. *)
Definition insert_rotation (id : string) (r : RotationRow) : Tx unit := fun d =>
  if bool_decide (is_Some (db_rotations d !! id))
     || negb (no_row (fun _ r' => String.eqb (ro_OperationID r') (ro_OperationID r)) (db_rotations d))
     || negb (no_row (fun _ r' => (ro_NodeID r' =? ro_NodeID r)
                                  && ((ro_Version r' =? ro_Version r) || String.eqb (ro_State r') "pending"))
                (db_rotations d))
     || negb (bool_decide (is_Some (db_nodes d !! ro_NodeID r)))
     || (ro_Version r <=? 0) || (ro_ControllerGeneration r <=? 0)
  then Fail sql_error
  else Ok (tt, set_rotations (<[id := r]> (db_rotations d)) d).

(** [MAX(version)] over the rows of a node, or 0. *)
Definition max_of (l : list Z) : Z := foldl Z.max 0 l.
Definition max_credential (d : DB) (nodeID : Z) : Z :=
  max_of (map (fun kv => cr_Version kv.2) (rows_where (fun _ c => cr_NodeID c =? nodeID) (db_credentials d))).
Definition max_rotation (d : DB) (nodeID : Z) : Z :=
  max_of (map (fun kv => ro_Version kv.2) (rows_where (fun _ r => ro_NodeID r =? nodeID) (db_rotations d))).

(** [bigint] addition fails when it overflows. *)
Definition bigint (z : Z) : Tx Z := if z <=? MaxInt64 then tx_ret z else tx_fail sql_error.

(** ** Reading *)

Definition GetAgentCredentialForGeneration (nodeID generation : Z) (d : DB) : result (option string) :=
  if (nodeID <=? 0) || (generation <=? 0) then Fail ErrAgentCredentialRotation
  else Ok (cr_Ciphertext <$> foldl newer None
         (map snd (rows_where (fun _ c => (cr_NodeID c =? nodeID) && (cr_ControllerGeneration c =? generation))
                     (db_credentials d)))).

Definition live_credential (nodeID : Z) (now : time) (c : CredentialRow) : bool :=
  (cr_NodeID c =? nodeID) && bool_decide (cr_RevokedAt c = None)
  && match cr_ExpiresAt c with None => true | Some e => e >? ts now end.

Definition live_rotation (nodeID : Z) (now : time) (r : RotationRow) : bool :=
  (ro_NodeID r =? nodeID) && String.eqb (ro_State r) "pending" && (ro_ExpiresAt r >? ts now).

Definition newest_first (x y : AgentAuthenticationCredential) : Prop :=
  aa_CredentialVersion y <= aa_CredentialVersion x.
#[local] Instance newest_first_dec : RelDecision newest_first.
Proof. intros x y. apply Z.le_dec. Defined.

Definition ListAgentAuthenticationCredentials (nodeID : Z) (now : time) (d : DB)
  : result (list AgentAuthenticationCredential) :=
  if (nodeID <=? 0) || is_zero now then Fail ErrAgentCredentialRotation
  else Ok (merge_sort newest_first
    (map (fun kv => {| aa_ID := kv.1; aa_Ciphertext := cr_Ciphertext kv.2;
                       aa_CredentialVersion := cr_Version kv.2;
                       aa_ControllerGeneration := cr_ControllerGeneration kv.2; aa_Pending := false |})
       (rows_where (fun _ c => live_credential nodeID now c) (db_credentials d))
     ++ map (fun kv => {| aa_ID := kv.1; aa_Ciphertext := ro_Ciphertext kv.2;
                          aa_CredentialVersion := ro_Version kv.2;
                          aa_ControllerGeneration := ro_ControllerGeneration kv.2; aa_Pending := true |})
       (rows_where (fun _ r => live_rotation nodeID now r) (db_rotations d)))).

Definition GetActiveAgentCredential (clock : time) (nodeID : Z) (d : DB) : result (option (string * Z * Z)) :=
  if nodeID <=? 0 then Fail ErrInvalidEnrollment
  else Ok ((fun c => (cr_Ciphertext c, cr_Version c, cr_ControllerGeneration c))
           <$> usable_credential d nodeID clock).

Definition GetActiveControllerGeneration (d : DB) : result Z :=
  match active_generation d with Some g => Ok g | None => Fail ErrNoActiveController end.

(** ** Rotation *)

Definition expire_rotations (nodeID : Z) (now : time) (d : DB) : DB :=
  set_rotations (update_where
    (fun _ r => (ro_NodeID r =? nodeID) && String.eqb (ro_State r) "pending" && (ro_ExpiresAt r <=? ts now))
    (set_rotation_state "expired") (db_rotations d)) d.

Definition pending_rotation (nodeID : Z) (d : DB) : option (string * RotationRow) :=
  head (rows_where (fun _ r => (ro_NodeID r =? nodeID) && String.eqb (ro_State r) "pending") (db_rotations d)).

Definition rotation_tx (p : EnsureAgentCredentialRotationParams) : Tx (option AgentCredentialRotation) :=
  let! node := tx_read (fun d => db_nodes d !! ep_NodeID p) in
  match node with
  | None => tx_fail no_rows
  | Some n =>
  if bool_decide (nd_OperationalState n ∈ ["retired"; "decommissioned"]) then tx_fail ErrAgentCredentialRotation
  else
  let! active := tx_read active_generation in
  match active with
  | None => tx_fail no_rows
  | Some activeGeneration =>
  if negb (activeGeneration =? ep_ControllerGeneration p) then tx_fail ErrAgentCredentialRotation
  else
  let! _ := tx_write (expire_rotations (ep_NodeID p) (ep_Now p)) in
  let! pending := tx_read (pending_rotation (ep_NodeID p)) in
  match pending with
  | Some (id, r) =>
      if negb (ro_ControllerGeneration r =? activeGeneration) || negb (after (ro_ExpiresAt r) (ep_Now p))
      then tx_fail ErrAgentCredentialRotation
      else
      let! _ := tx_write (markControllerRebuildRotationPendingLocked (ep_NodeID p) activeGeneration
                            (ro_Version r) (ep_Now p)) in
      tx_ret (Some {| ar_ID := id; ar_CredentialVersion := ro_Version r; ar_Ciphertext := ro_Ciphertext r;
                      ar_ControllerGeneration := ro_ControllerGeneration r; ar_ExpiresAt := ro_ExpiresAt r |})
  | None =>
  let! current := tx_read (fun d => usable_credential d (ep_NodeID p) (ep_Now p)) in
  match current with
  | None => tx_fail no_rows
  | Some c =>
  if (cr_ControllerGeneration c =? activeGeneration)
     && after (cr_CreatedAt c) (ep_Now p - agentCredentialMaxAge)
  then tx_ret None
  else
  let! highest := tx_read (fun d => Z.max (max_credential d (ep_NodeID p)) (max_rotation d (ep_NodeID p))) in
  let! version := bigint (highest + 1) in
  if version <=? cr_Version c then tx_fail "invalid next agent credential version"
  else
  let! id := uuid_param (ep_ID p) in
  let! operation := uuid_param (ep_RotationOperationID p) in
  let! _ := insert_rotation id
              {| ro_OperationID := operation; ro_NodeID := ep_NodeID p; ro_Version := version;
                 ro_Ciphertext := ep_ProposedCiphertext p; ro_ControllerGeneration := activeGeneration;
                 ro_State := "pending"; ro_ExpiresAt := ts (ep_ExpiresAt p); ro_CreatedAt := ts (ep_Now p);
                 ro_ConfirmedAt := None |} in
  let! _ := tx_write (markControllerRebuildRotationPendingLocked (ep_NodeID p) activeGeneration version (ep_Now p)) in
  tx_ret (Some {| ar_ID := ep_ID p; ar_CredentialVersion := version; ar_Ciphertext := ep_ProposedCiphertext p;
                  ar_ControllerGeneration := activeGeneration; ar_ExpiresAt := ep_ExpiresAt p |})
  end end end end.

Definition EnsureAgentCredentialRotation (p : EnsureAgentCredentialRotationParams) (d : DB)
  : result (option AgentCredentialRotation) * DB :=
  if String.eqb (ep_ID p) "" || String.eqb (ep_RotationOperationID p) "" || (ep_NodeID p <=? 0)
     || (slen (ep_ProposedCiphertext p) =? 0) || (ep_ControllerGeneration p <=? 0) || is_zero (ep_Now p)
     || negb (after (ep_ExpiresAt p) (ep_Now p)) || after (ep_ExpiresAt p) (ep_Now p + 25 * Hour)
  then (Fail ErrAgentCredentialRotation, d)
  else runTx (rotation_tx p) d.

Definition activated_rotation (now : time) (r : RotationRow) : RotationRow :=
  {| ro_OperationID := ro_OperationID r; ro_NodeID := ro_NodeID r; ro_Version := ro_Version r;
     ro_Ciphertext := ro_Ciphertext r; ro_ControllerGeneration := ro_ControllerGeneration r;
     ro_State := "activated"; ro_ExpiresAt := ro_ExpiresAt r; ro_CreatedAt := ro_CreatedAt r;
     ro_ConfirmedAt := Some (ts now) |}.

Definition set_node_generation (nodeID generation : Z) (d : DB) : DB :=
  set_nodes (alter (fun n =>
    {| nd_Role := nd_Role n; nd_BaseURL := nd_BaseURL n; nd_Status := nd_Status n;
       nd_ConnectivityState := nd_ConnectivityState n; nd_OperationalState := nd_OperationalState n;
       nd_CompatibilityState := nd_CompatibilityState n; nd_ControllerGeneration := generation;
       nd_AgentVersion := nd_AgentVersion n; nd_TavernVersion := nd_TavernVersion n;
       nd_LastSeenAt := nd_LastSeenAt n; nd_Control := nd_Control n; nd_Capacity := nd_Capacity n |})
    nodeID (db_nodes d)) d.

Definition activation_tx (nodeID credentialVersion : Z) (now : time) : Tx Z :=
  let! active := tx_read active_generation in
  match active with
  | None => tx_fail no_rows
  | Some activeGeneration =>
  let! rotation := tx_read (fun d => head (rows_where
                     (fun _ r => (ro_NodeID r =? nodeID) && (ro_Version r =? credentialVersion)) (db_rotations d))) in
  match rotation with
  | None => tx_fail ErrAgentCredentialRotation
  | Some (rotationID, r) =>
  if String.eqb (ro_State r) "activated" then
    let! missing := tx_read (fun d => no_row (fun _ c => (cr_NodeID c =? nodeID)
                      && (cr_Version c =? credentialVersion) && bool_decide (cr_RevokedAt c = None))
                      (db_credentials d)) in
    if missing : bool then tx_fail ErrAgentCredentialRotation
    else
    let! _ := tx_write (markControllerRebuildCredentialActivatedLocked nodeID activeGeneration
                          credentialVersion now) in
    tx_ret activeGeneration
  else if negb (String.eqb (ro_State r) "pending") || negb (after (ro_ExpiresAt r) now)
          || negb (ro_ControllerGeneration r =? activeGeneration)
  then tx_fail ErrAgentCredentialRotation
  else
  let! _ := tx_write (revoke_node_credentials nodeID now) in
  let! _ := insert_credential rotationID
              {| cr_NodeID := nodeID; cr_Version := credentialVersion; cr_Ciphertext := ro_Ciphertext r;
                 cr_ControllerGeneration := activeGeneration; cr_ExpiresAt := None; cr_RevokedAt := None;
                 cr_CreatedAt := ts now |} in
  let! _ := tx_write (fun d => set_rotations (alter (activated_rotation now) rotationID (db_rotations d)) d) in
  let! _ := tx_write (set_node_generation nodeID activeGeneration) in
  let! _ := tx_write (expireNodeCommands nodeID now) in
  let! _ := tx_write (markControllerRebuildCredentialActivatedLocked nodeID activeGeneration
                        credentialVersion now) in
  tx_ret activeGeneration
  end end.

Definition ActivateAgentCredentialRotation (nodeID credentialVersion : Z) (now : time) (d : DB)
  : result Z * DB :=
  if (nodeID <=? 0) || (credentialVersion <=? 0) || is_zero now
  then (Fail ErrAgentCredentialRotation, d)
  else runTx (activation_tx nodeID credentialVersion now) d.

(** ** Enrollment *)

Definition valid_role (role : string) : bool :=
  bool_decide (role ∈ ["compute"; "storage"; "passive_controller"]).

Definition CreateEnrollmentToken (clock : time) (p : CreateEnrollmentTokenParams) (d : DB) : result unit * DB :=
  if String.eqb (et_ID p) "" || String.eqb (et_OperationID p) "" || negb (slen (et_TokenHash p) =? 32)
     || (et_ExpectedNodeID p <=? 0) || negb (valid_role (et_ExpectedRole p)) || is_zero (et_ExpiresAt p)
  then (Fail ErrInvalidEnrollment, d)
  else
    let now := now_or clock (et_Now p) in
    if negb (after (et_ExpiresAt p) now) then (Fail ErrInvalidEnrollment, d)
    else runTx (
      let! id := uuid_param (et_ID p) in
      let! operation := uuid_param (et_OperationID p) in
      fun d =>
        if bool_decide (is_Some (db_enrollments d !! id))
           || negb (no_row (fun _ e => String.eqb (en_OperationID e) operation
                                       || String.eqb (en_TokenHash e) (et_TokenHash p)) (db_enrollments d))
           || negb (bool_decide (is_Some (db_nodes d !! et_ExpectedNodeID p)))
        then Fail sql_error
        else Ok (tt, set_enrollments (<[id :=
          {| en_OperationID := operation; en_TokenHash := et_TokenHash p;
             en_ExpectedNodeID := Some (et_ExpectedNodeID p); en_ExpectedRole := et_ExpectedRole p;
             en_ExpectedFingerprint := if String.eqb (et_ExpectedFingerprint p) "" then None
                                       else Some (et_ExpectedFingerprint p);
             en_ExpiresAt := ts (et_ExpiresAt p); en_ConsumedAt := None; en_ConsumedNodeID := None;
             en_CreatedByAdminID := et_CreatedByAdminID p; en_CreatedAt := ts now |}]> (db_enrollments d)) d)) d.

Definition usable_token (tokenHash : string) (now : time) (e : EnrollmentToken) : bool :=
  String.eqb (en_TokenHash e) tokenHash && bool_decide (en_ConsumedAt e = None) && (en_ExpiresAt e >? ts now).

Definition consume_token (nodeID : Z) (now : time) (e : EnrollmentToken) : EnrollmentToken :=
  {| en_OperationID := en_OperationID e; en_TokenHash := en_TokenHash e;
     en_ExpectedNodeID := en_ExpectedNodeID e; en_ExpectedRole := en_ExpectedRole e;
     en_ExpectedFingerprint := en_ExpectedFingerprint e; en_ExpiresAt := en_ExpiresAt e;
     en_ConsumedAt := Some (ts now); en_ConsumedNodeID := Some nodeID;
     en_CreatedByAdminID := en_CreatedByAdminID e; en_CreatedAt := en_CreatedAt e |}.

Definition enrolled_node (p : EnrollAgentParams) (generation : Z) (now : time) (n : Node) : Node :=
  {| nd_Role := nd_Role n; nd_BaseURL := if String.eqb (nd_BaseURL n) "" then ea_BaseURLGuess p else nd_BaseURL n;
     nd_Status := "online"; nd_ConnectivityState := "online"; nd_OperationalState := "active";
     nd_CompatibilityState := nd_CompatibilityState n; nd_ControllerGeneration := generation;
     nd_AgentVersion := Some (ea_AgentVersion p); nd_TavernVersion := Some (ea_TavernVersion p);
     nd_LastSeenAt := Some (ts now); nd_Control := nd_Control n; nd_Capacity := nd_Capacity n |}.

Definition enroll_tx (p : EnrollAgentParams) (now : time) : Tx AgentEnrollment :=
  let! token := tx_read (fun d => head (rows_where (fun _ e => usable_token (ea_TokenHash p) now e)
                                          (db_enrollments d))) in
  match token with
  | None => tx_fail ErrEnrollmentRejected
  | Some (tokenID, e) =>
  match en_ExpectedNodeID e with
  | None => tx_fail ErrEnrollmentRejected
  | Some nodeID =>
  if negb (String.eqb (en_ExpectedRole e) (ea_PresentedRole p))
     || match en_ExpectedFingerprint e with
        | Some f => negb (String.eqb f (ea_PresentedFingerprint p))
        | None => false
        end
  then tx_fail ErrEnrollmentRejected
  else
  let! node := tx_read (fun d => db_nodes d !! nodeID) in
  match node with
  | None => tx_fail ErrEnrollmentRejected
  | Some n =>
  if negb (String.eqb (nd_Role n) (en_ExpectedRole e)) then tx_fail ErrEnrollmentRejected
  else
  let! active := tx_read active_generation in
  match active with
  | None => tx_fail ErrNoActiveController
  | Some generation =>
  let! highest := tx_read (fun d => max_credential d nodeID) in
  let! version := bigint (highest + 1) in
  let! _ := tx_write (revoke_node_credentials nodeID now) in
  let! id := uuid_param (ea_CredentialID p) in
  let! _ := insert_credential id
              {| cr_NodeID := nodeID; cr_Version := version; cr_Ciphertext := ea_CredentialCiphertext p;
                 cr_ControllerGeneration := generation; cr_ExpiresAt := None; cr_RevokedAt := None;
                 cr_CreatedAt := ts now |} in
  let! _ := tx_write (fun d => set_enrollments (alter (consume_token nodeID now) tokenID (db_enrollments d)) d) in
  let! _ := tx_write (fun d => set_nodes (alter (enrolled_node p generation now) nodeID (db_nodes d)) d) in
  tx_ret {| ae_NodeID := nodeID; ae_CredentialVersion := version; ae_Generation := generation |}
  end end end end.

Definition EnrollAgent (clock : time) (p : EnrollAgentParams) (d : DB) : result AgentEnrollment * DB :=
  if negb (slen (ea_TokenHash p) =? 32) || String.eqb (ea_CredentialID p) ""
     || (slen (ea_CredentialCiphertext p) =? 0) || negb (valid_role (ea_PresentedRole p))
  then (Fail ErrInvalidEnrollment, d)
  else runTx (enroll_tx p (now_or clock (ea_Now p))) d.

(** ** Nonces *)

(** [clock] is the server's [now()].  The INSERT looks for a conflict in the rows the
    statement started with, the cleanup deletes among the same rows. *)
Definition ConsumeAgentNonce (clock : time) (nodeID : Z) (nonce : string) (signedAt expiresAt : time) (d : DB)
  : result bool * DB :=
  if (nodeID <=? 0) || String.eqb nonce "" || is_zero signedAt || negb (after expiresAt signedAt)
  then (Fail ErrInvalidAgentNonce, d)
  else
    let key := (nodeID, sha256 nonce) in
    let kept := filter (fun kv : (Z * string) * NonceRow => (no_ExpiresAt kv.2 <=? ts clock) = false) (db_nonces d) in
    if bool_decide (is_Some (db_nonces d !! key)) then (Ok false, set_nonces kept d)
    else if negb (bool_decide (is_Some (db_nodes d !! nodeID))) || negb (after (ts expiresAt) (ts signedAt))
    then (Fail sql_error, d)
    else (Ok true, set_nonces (<[key := {| no_SignedAt := ts signedAt; no_ExpiresAt := ts expiresAt |}]> kept) d).

(** ** Retirement *)

(** The statements of revokeNodeAccessLocked on the tables modelled here. *)
Definition revokeNodeAccess (nodeID : Z) (now : time) (d : DB) : DB :=
  let d := set_credentials (update_where (fun _ c => cr_NodeID c =? nodeID) (revoke_credential now)
                              (db_credentials d)) d in
  let d := set_rotations (update_where (fun _ r => (ro_NodeID r =? nodeID) && String.eqb (ro_State r) "pending")
                            (set_rotation_state "revoked") (db_rotations d)) d in
  let d := set_enrollments (filter (fun kv : string * EnrollmentToken =>
             bool_decide (en_ExpectedNodeID kv.2 = Some nodeID) && bool_decide (en_ConsumedAt kv.2 = None) = false)
             (db_enrollments d)) d in
  let d := expireNodeCommands nodeID now d in
  revokeTickets (fun _ t => (tk_TargetNodeID t =? nodeID) && bool_decide (tk_ConsumedAt t = None)) now d.

(** ** What the transactions do *)

(** The changes of rotations, apart from new ones. *)
Definition rotation_kept (r r' : RotationRow) : Prop :=
  ro_NodeID r' = ro_NodeID r /\ ro_Version r' = ro_Version r /\ ro_Ciphertext r' = ro_Ciphertext r
  /\ ro_ControllerGeneration r' = ro_ControllerGeneration r
  /\ (ro_State r' = "pending" -> ro_State r = "pending").


Lemma max_of_acc l : forall a, a <= foldl Z.max a l /\ forall x, x ∈ l -> x <= foldl Z.max a l.
Proof.
  induction l as [|y l IH]; intros a; cbn [foldl].
  - split; [lia|]. intros x Hx. by apply elem_of_nil in Hx.
  - destruct (IH (Z.max a y)) as [H1 H2]. split; [lia|]. intros x [->|Hx]%elem_of_cons; [lia|auto].
Qed.

Lemma max_credential_ge d n id c :
  db_credentials d !! id = Some c -> cr_NodeID c = n -> cr_Version c <= max_credential d n.
Proof.
  intros Hl Hn. unfold max_credential, max_of.
  apply (max_of_acc (map (fun kv => cr_Version kv.2) _) 0), list_elem_of_fmap.
  exists (id, c). split; [done|]. apply rows_where_elem. split; [done|]. by apply Z.eqb_eq.
Qed.

Lemma max_rotation_ge d n id r :
  db_rotations d !! id = Some r -> ro_NodeID r = n -> ro_Version r <= max_rotation d n.
Proof.
  intros Hl Hn. unfold max_rotation, max_of.
  apply (max_of_acc (map (fun kv => ro_Version kv.2) _) 0), list_elem_of_fmap.
  exists (id, r). split; [done|]. apply rows_where_elem. split; [done|]. by apply Z.eqb_eq.
Qed.

Lemma bigint_ok z d v d' : bigint z d = Ok (v, d') -> v = z /\ d' = d.
Proof. unfold bigint. destruct (z <=? MaxInt64); [|done]. by intros [= <- <-]. Qed.

Lemma insert_rotation_ok id r d u d' :
  insert_rotation id r d = Ok (u, d') ->
  d' = set_rotations (<[id := r]> (db_rotations d)) d /\ db_rotations d !! id = None
  /\ (forall id' r', db_rotations d !! id' = Some r' -> ro_NodeID r' = ro_NodeID r ->
      ro_Version r' <> ro_Version r /\ ro_State r' <> "pending")
  /\ 0 < ro_Version r.
Proof.
  unfold insert_rotation. destruct (_ || _ || _ || _ || _ || _) eqn:E; [done|]. intros [= _ <-]. b2p.
  split; [done|]. split; [by apply eq_None_not_Some|]. split; [|done]. intros id' r' Hl Hn.
  match goal with Hr : no_row (fun _ r' => (ro_NodeID r' =? _) && _) _ = true |- _ =>
    pose proof (rows_where_none _ _ _ _ Hr Hl) as Hp end. cbn in Hp. rewrite Hn, Z.eqb_refl in Hp. cbn in Hp. by b2p.
Qed.

Lemma insert_credential_ok id c d u d' :
  insert_credential id c d = Ok (u, d') ->
  d' = set_credentials (<[id := c]> (db_credentials d)) d /\ db_credentials d !! id = None
  /\ (forall id' c', db_credentials d !! id' = Some c' -> cr_NodeID c' = cr_NodeID c ->
      cr_Version c' <> cr_Version c /\ cr_RevokedAt c' <> None)
  /\ is_Some (db_nodes d !! cr_NodeID c) /\ 0 < cr_Version c.
Proof.
  unfold insert_credential. destruct (_ || _ || _ || _ || _) eqn:E; [done|]. intros [= _ <-]. b2p.
  split; [done|]. split; [by apply eq_None_not_Some|]. split; [|done]. intros id' c' Hl Hn.
  match goal with Hr : no_row _ _ = true |- _ =>
    pose proof (rows_where_none _ _ _ _ Hr Hl) as Hp end. cbn in Hp. rewrite Hn, Z.eqb_refl in Hp. cbn in Hp. by b2p.
Qed.

(** The writes of a mark leave the tables of this file. *)
Lemma rebuild_writes_frame d d' :
  rebuild_writes d d' ->
  db_credentials d' = db_credentials d /\ db_rotations d' = db_rotations d
  /\ db_enrollments d' = db_enrollments d /\ db_nodes d' = db_nodes d /\ db_commands d' = db_commands d
  /\ db_nonces d' = db_nonces d /\ db_epochs d' = db_epochs d /\ db_tickets d' = db_tickets d.
Proof. by intros (a & b & c & ->). Qed.

(** The tables of this file after a rotation was ensured. *)
Lemma Ensure_cases p d r d' :
  EnsureAgentCredentialRotation p d = (r, d') ->
  d' = d
  \/ exists d1, d1 = expire_rotations (ep_NodeID p) (ep_Now p) d
     /\ db_credentials d' = db_credentials d /\ db_enrollments d' = db_enrollments d /\ db_nonces d' = db_nonces d
     /\ (db_rotations d' = db_rotations d1
         \/ exists id row g, active_generation d = Some g
            /\ db_rotations d1 !! id = None
            /\ db_rotations d' = <[id := row]> (db_rotations d1)
            /\ ro_NodeID row = ep_NodeID p /\ ro_State row = "pending" /\ ro_ControllerGeneration row = g
            /\ 0 < ro_Version row
            /\ (forall id' r', db_rotations d1 !! id' = Some r' -> ro_NodeID r' = ep_NodeID p ->
                ro_Version r' < ro_Version row /\ ro_State r' <> "pending")
            /\ (forall id' c, db_credentials d !! id' = Some c -> cr_NodeID c = ep_NodeID p ->
                cr_Version c < ro_Version row)).
Proof.
  unfold EnsureAgentCredentialRotation.
  match goal with |- context [if ?b then _ else _] => destruct b end; [intros [= _ <-]; by left|].
  unfold runTx. destruct (rotation_tx p d) as [[o d2]|e] eqn:E; intros [= _ <-]; [|by left].
  right. exists (expire_rotations (ep_NodeID p) (ep_Now p) d). split; [done|].
  unfold rotation_tx in E. tx_go. destruct (db_nodes d !! ep_NodeID p) as [n|]; tx_go.
  destruct (bool_decide (nd_OperationalState n ∈ _)); tx_go.
  destruct (active_generation d) as [g|] eqn:Eg; tx_go. destruct (negb (g =? _)); tx_go.
  set (d1 := expire_rotations (ep_NodeID p) (ep_Now p) d) in *.
  destruct (pending_rotation (ep_NodeID p) d1) as [[rid row]|]; tx_go.
  { destruct (_ || _); tx_go.
    match goal with |- context [markControllerRebuildRotationPendingLocked ?a ?b ?c ?t d1] =>
      destruct (rebuild_writes_frame _ _ (proj1 (marks_writes a b c t d1))) as (-> & -> & -> & _ & _ & -> & _) end. by auto. }
  destruct (usable_credential d1 (ep_NodeID p) (ep_Now p)) as [c|]; tx_go.
  destruct (_ && _); tx_go; [by auto|].
  match goal with Hb : bigint _ _ = Ok _ |- _ => apply bigint_ok in Hb as [-> ->] end.
  destruct (_ <=? cr_Version c); tx_go; repeat match goal with Hu : uuid_param _ _ = Ok _ |- _ => apply uuid_param_ok in Hu as [? ->] end.
  match goal with Hi : insert_rotation _ _ _ = Ok _ |- _ => apply insert_rotation_ok in Hi as (-> & Hnone & Huniq & Hpos) end.
  match goal with |- context [markControllerRebuildRotationPendingLocked ?a ?b ?c ?t ?y] =>
      destruct (rebuild_writes_frame _ _ (proj1 (marks_writes a b c t y))) as (-> & -> & -> & _ & _ & -> & _) end.
  split; [done|]. split; [done|]. split; [done|]. right. eexists _, _, g. split; [done|]. split; [exact Hnone|].
  split; [reflexivity|]. split; [done|]. split; [done|]. split; [done|]. split; [done|]. cbn [ro_Version ro_NodeID]. split.
  - intros id' r' Hl Hn. split; [|by eapply Huniq]. pose proof (max_rotation_ge _ _ _ _ Hl Hn). lia.
  - intros id' c' Hl Hn. pose proof (max_credential_ge d1 _ _ _ Hl Hn). lia.
Qed.

Lemma active_generation_frame d d' : db_epochs d' = db_epochs d -> active_generation d' = active_generation d.
Proof. unfold active_generation, active_epoch, active_epochs. by intros ->. Qed.

(** A rotation that is offered is stored, pending, under the active generation. *)
Lemma Ensure_offers p d o d' :
  EnsureAgentCredentialRotation p d = (Ok (Some o), d') ->
  exists id row, db_rotations d' !! id = Some row /\ ro_NodeID row = ep_NodeID p /\ ro_State row = "pending"
    /\ ro_Version row = ar_CredentialVersion o /\ ro_Ciphertext row = ar_Ciphertext o
    /\ ro_ControllerGeneration row = ar_ControllerGeneration o
    /\ active_generation d' = Some (ar_ControllerGeneration o) /\ 0 < ar_ControllerGeneration o
    /\ db_nodes d' = db_nodes d /\ is_Some (db_nodes d !! ep_NodeID p) /\ 0 < ep_NodeID p.
Proof.
  unfold EnsureAgentCredentialRotation.
  match goal with |- context [if ?b then _ else _] => destruct b eqn:Ev end; [done|].
  assert (0 < ep_ControllerGeneration p /\ 0 < ep_NodeID p) as [Hg0 Hn0] by (b2p; lia). clear Ev.
  unfold runTx. destruct (rotation_tx p d) as [[o' d2]|e] eqn:E; [|done]. intros [= -> <-].
  unfold rotation_tx in E. tx_go. destruct (db_nodes d !! ep_NodeID p) as [n|]; tx_go.
  destruct (bool_decide (nd_OperationalState n ∈ _)); tx_go.
  destruct (active_generation d) as [g|] eqn:Eg; tx_go. destruct (negb (g =? _)) eqn:Egp; tx_go. b2p. subst g.
  set (d1 := expire_rotations (ep_NodeID p) (ep_Now p) d) in *.
  destruct (pending_rotation (ep_NodeID p) d1) as [[rid row]|] eqn:Ep; tx_go.
  - destruct (_ || _) eqn:Eb; tx_go. b2p.
    assert ((rid, row) ∈ rows_where (fun _ r => (ro_NodeID r =? ep_NodeID p) && String.eqb (ro_State r) "pending")
              (db_rotations d1)) as Hin.
    { unfold pending_rotation in Ep. destruct (rows_where _ _); simplify_eq/=. apply list_elem_of_here. }
    apply rows_where_elem in Hin as [Hl Hp]. b2p.
    match goal with He : tx_ret _ _ = Ok _ |- _ => injection He as <- <- end.
    match goal with |- context [markControllerRebuildRotationPendingLocked ?a ?b ?c ?t d1] =>
      destruct (rebuild_writes_frame _ _ (proj1 (marks_writes a b c t d1))) as (_ & Er & _ & En & _ & _ & Ee & _) end.
    exists rid, row. rewrite Er, En, (active_generation_frame _ _ Ee). change (active_generation d1) with (active_generation d).
    cbn [ar_CredentialVersion ar_Ciphertext ar_ControllerGeneration].
    split_and!; try done; [congruence|lia].
  - destruct (usable_credential d1 (ep_NodeID p) (ep_Now p)) as [c|]; tx_go. destruct (_ && _); tx_go; [done|].
    match goal with Hb : bigint _ _ = Ok _ |- _ => apply bigint_ok in Hb as [-> ->] end.
    destruct (_ <=? cr_Version c); tx_go; repeat match goal with Hu : uuid_param _ _ = Ok _ |- _ => apply uuid_param_ok in Hu as [? ->] end.
    match goal with Hi : insert_rotation ?i _ _ = Ok _ |- _ => apply insert_rotation_ok in Hi as (-> & Hnone & _); rename i into rid end.
    match goal with He : tx_ret _ _ = Ok _ |- _ => injection He as <- <- end.
    match goal with |- context [markControllerRebuildRotationPendingLocked ?a ?b ?c ?t ?y] =>
      destruct (rebuild_writes_frame _ _ (proj1 (marks_writes a b c t y))) as (_ & Er & _ & En & _ & _ & Ee & _) end.
    eexists rid, _. rewrite Er, En. cbn [set_rotations db_rotations]. rewrite lookup_insert_eq. split; [reflexivity|].
    rewrite (active_generation_frame _ _ Ee). cbn -[active_generation]. split_and!; done.
Qed.

(** The tables of this file after an activation. *)
Lemma Activate_cases n v now d r d' :
  ActivateAgentCredentialRotation n v now d = (r, d') ->
  (d' = d /\ exists e, r = Fail e)
  \/ (rebuild_writes d d' /\ exists id row g, r = Ok g /\ db_rotations d !! id = Some row
      /\ ro_NodeID row = n /\ ro_Version row = v /\ ro_State row = "activated")
  \/ exists id row g, r = Ok g /\ active_generation d = Some g
     /\ db_rotations d !! id = Some row /\ ro_NodeID row = n /\ ro_Version row = v
     /\ ro_State row = "pending" /\ now < ro_ExpiresAt row /\ ro_ControllerGeneration row = g
     /\ db_credentials d !! id = None /\ is_Some (db_nodes d !! n) /\ 0 < v
     /\ (forall id' c, db_credentials d !! id' = Some c -> cr_NodeID c = n -> cr_Version c <> v)
     /\ db_credentials d' = <[id := {| cr_NodeID := n; cr_Version := v; cr_Ciphertext := ro_Ciphertext row;
          cr_ControllerGeneration := g; cr_ExpiresAt := None; cr_RevokedAt := None; cr_CreatedAt := ts now |}]>
          (db_credentials (revoke_node_credentials n now d))
     /\ db_rotations d' = alter (activated_rotation now) id (db_rotations d)
     /\ db_enrollments d' = db_enrollments d /\ db_nonces d' = db_nonces d
     /\ db_nodes d' = db_nodes (set_node_generation n g d)
     /\ db_commands d' = db_commands (expireNodeCommands n now d).
Proof.
  unfold ActivateAgentCredentialRotation. destruct (_ || _ || _); [intros [= <- <-]; left; by eauto|].
  unfold runTx. destruct (activation_tx n v now d) as [[g d2]|e] eqn:E; intros [= <- <-]; [|left; by eauto]. right.
  unfold activation_tx in E. tx_go. destruct (active_generation d) as [ag|] eqn:Eg; tx_go.
  destruct (head _) as [[id row]|] eqn:Er; tx_go.
  assert ((id, row) ∈ rows_where (fun _ r => (ro_NodeID r =? n) && (ro_Version r =? v)) (db_rotations d)) as Hin.
  { destruct (rows_where _ _); simplify_eq/=. apply list_elem_of_here. }
  apply rows_where_elem in Hin as [Hl Hp]. b2p.
  destruct (String.eqb (ro_State row) "activated") eqn:Ea; tx_go.
  { b2p. destruct (no_row _ _); tx_go. left. split; [apply marks_writes|by eauto 10]. }
  destruct (_ || _ || _) eqn:Eb; tx_go. right. unfold after in Eb. b2p.
  match goal with Hi : insert_credential _ _ _ = Ok _ |- _ =>
    apply insert_credential_ok in Hi as (-> & Hnone & Huniq & Hnode & Hpos) end.
  match goal with |- context [markControllerRebuildCredentialActivatedLocked ?a ?b ?c ?t ?y] =>
      destruct (rebuild_writes_frame _ _ (proj2 (marks_writes a b c t y))) as (-> & -> & -> & -> & -> & -> & _) end.
  assert (forall id', db_credentials d !! id' = None <-> db_credentials (revoke_node_credentials n now d) !! id' = None)
    as Hrn by (intros id'; cbn; rewrite update_where_lookup; by destruct (db_credentials d !! id')).
  exists id, row, ag. split_and!; try done; [by apply Hrn|].
  intros id' c Hc Hcn.
  destruct (Huniq id' (if (cr_NodeID c =? n) && bool_decide (cr_RevokedAt c = None) then revoke_credential now c else c))
    as [Hv _]; cbn.
  - rewrite update_where_lookup, Hc. done.
  - by destruct (_ && _).
  - by destruct (_ && _) in Hv.
Qed.

Lemma Enroll_cases clock p d r d' (now := now_or clock (ea_Now p)) :
  EnrollAgent clock p d = (r, d') ->
  (d' = d /\ exists e, r = Fail e)
  \/ exists tid e n id g nd, db_enrollments d !! tid = Some e /\ en_TokenHash e = ea_TokenHash p
     /\ en_ConsumedAt e = None /\ ts now < en_ExpiresAt e /\ en_ExpectedNodeID e = Some n
     /\ en_ExpectedRole e = ea_PresentedRole p
     /\ (forall f, en_ExpectedFingerprint e = Some f -> f = ea_PresentedFingerprint p)
     /\ db_nodes d !! n = Some nd /\ nd_Role nd = en_ExpectedRole e /\ active_generation d = Some g
     /\ db_credentials d !! id = None
     /\ r = Ok {| ae_NodeID := n; ae_CredentialVersion := max_credential d n + 1; ae_Generation := g |}
     /\ db_credentials d' = <[id := {| cr_NodeID := n; cr_Version := max_credential d n + 1;
          cr_Ciphertext := ea_CredentialCiphertext p; cr_ControllerGeneration := g; cr_ExpiresAt := None;
          cr_RevokedAt := None; cr_CreatedAt := ts now |}]> (db_credentials (revoke_node_credentials n now d))
     /\ db_rotations d' = db_rotations d
     /\ db_enrollments d' = alter (consume_token n now) tid (db_enrollments d)
     /\ db_nonces d' = db_nonces d.
Proof.
  unfold EnrollAgent. destruct (_ || _ || _ || _); [intros [= <- <-]; left; by eauto|]. fold now.
  unfold runTx. destruct (enroll_tx p now d) as [[x d2]|e0] eqn:E; intros [= <- <-]; [|left; by eauto]. right.
  unfold enroll_tx in E. tx_go. destruct (head _) as [[tid e]|] eqn:Et; tx_go.
  assert ((tid, e) ∈ rows_where (fun _ e => usable_token (ea_TokenHash p) now e) (db_enrollments d)) as Hin.
  { destruct (rows_where _ _); simplify_eq/=. apply list_elem_of_here. }
  apply rows_where_elem in Hin as [Hl Hp]. unfold usable_token in Hp. rewrite Z.gtb_ltb in Hp. b2p.
  destruct (en_ExpectedNodeID e) as [n|] eqn:En; tx_go. destruct (_ || _) eqn:Ef; tx_go. b2p.
  destruct (db_nodes d !! n) as [nd|] eqn:End; tx_go. destruct (negb (String.eqb (nd_Role nd) _)) eqn:Erl; tx_go. b2p.
  destruct (active_generation d) as [g|] eqn:Eg; tx_go.
  match goal with Hb : bigint _ _ = Ok _ |- _ => apply bigint_ok in Hb as [-> ->] end.
  repeat match goal with Hu : uuid_param _ _ = Ok _ |- _ => apply uuid_param_ok in Hu as [? ->] end.
  match goal with Hi : insert_credential ?i _ _ = Ok _ |- _ =>
    apply insert_credential_ok in Hi as (-> & Hnone & _); rename i into id end.
  exists tid, e, n, id, g, nd. split_and!; try done.
  - intros f Hf. rewrite Hf in *. by b2p.
  - cbn in Hnone. rewrite update_where_lookup, fmap_None in Hnone. done.
Qed.

(** ** Runs *)

Inductive credential_event :=
| KEnsure (p : EnsureAgentCredentialRotationParams)
| KActivate (nodeID version : Z) (now : time)
| KToken (clock : time) (p : CreateEnrollmentTokenParams)
| KEnroll (clock : time) (p : EnrollAgentParams)
| KRetire (nodeID : Z) (now : time)
| KPromote (clock : time) (op rb ct source : string) (now : time)
| KUse (clock : time) (nodeID : Z) (nonce : string) (signedAt expiresAt : time)
| KChange (f : DB -> DB).

Definition credential_effect (ev : credential_event) (d : DB) : DB :=
  match ev with
  | KEnsure p => (EnsureAgentCredentialRotation p d).2
  | KActivate n v now => (ActivateAgentCredentialRotation n v now d).2
  | KToken clock p => (CreateEnrollmentToken clock p d).2
  | KEnroll clock p => (EnrollAgent clock p d).2
  | KRetire n now => revokeNodeAccess n now d
  | KPromote clock op rb ct source now => (PromoteControllerEpoch clock op rb ct source now d).2
  | KUse clock n nonce s e => (ConsumeAgentNonce clock n nonce s e d).2
  | KChange f => set_credentials (db_credentials d) (set_rotations (db_rotations d)
                   (set_enrollments (db_enrollments d) (set_nonces (db_nonces d) (f d))))
  end.

Definition credential_run (d : DB) (evs : list credential_event) : DB :=
  foldl (fun d ev => credential_effect ev d) d evs.

Lemma promote_frame clock op rb ct source now d (d' := (PromoteControllerEpoch clock op rb ct source now d).2) :
  db_credentials d' = db_credentials d /\ db_enrollments d' = db_enrollments d /\ db_nonces d' = db_nonces d
  /\ (db_rotations d' = db_rotations d
      \/ exists current, db_rotations d' = db_rotations (fence_rotations current d)).
Proof.
  subst d'. unfold PromoteControllerEpoch. destruct (_ || _); [by auto|]. unfold runTx.
  destruct (promoteTx _ _ _ _ _ d) as [[next d']|e] eqn:E; [|by auto]. cbn [snd].
  unfold promoteTx in E. tx_go. destruct (active_epoch d) as [[current ep]|]; tx_go.
  match goal with Hi : insert_epoch _ _ _ = Ok _ |- _ => unfold insert_epoch in Hi; tx_if E1; injection Hi as _ <- end.
  match goal with Hi : insert_rebuild _ _ ?y = Ok _ |- _ => unfold insert_rebuild in Hi; tx_if E2; injection Hi as _ <- end.
  split; [reflexivity|]. split; [reflexivity|]. split; [reflexivity|]. right. exists current. reflexivity.
Qed.

(** ** Invariant *)

Definition newer_than_all (d : DB) (n v : Z) : Prop :=
  forall id c, db_credentials d !! id = Some c -> cr_NodeID c = n -> cr_Version c < v.

Record credentials_wf (d : DB) : Prop := {
  cwf_newest : forall id c id' c', db_credentials d !! id = Some c -> cr_RevokedAt c = None ->
    db_credentials d !! id' = Some c' -> cr_NodeID c' = cr_NodeID c -> cr_Version c' <= cr_Version c;
  cwf_version : forall id c id' c', db_credentials d !! id = Some c -> db_credentials d !! id' = Some c' ->
    cr_NodeID c' = cr_NodeID c -> cr_Version c' = cr_Version c -> id = id';
  rwf_positive : forall id r, db_rotations d !! id = Some r -> 0 < ro_Version r;
  rwf_version : forall id r id' r', db_rotations d !! id = Some r -> db_rotations d !! id' = Some r' ->
    ro_NodeID r' = ro_NodeID r -> ro_Version r' = ro_Version r -> id = id';
  rwf_pending : forall id r id' r', db_rotations d !! id = Some r -> ro_State r = "pending" ->
    db_rotations d !! id' = Some r' -> ro_State r' = "pending" -> ro_NodeID r' = ro_NodeID r -> id = id';
  rwf_ahead : forall id r, db_rotations d !! id = Some r -> ro_State r = "pending" ->
    newer_than_all d (ro_NodeID r) (ro_Version r)
    \/ exists id' c, db_credentials d !! id' = Some c /\ cr_NodeID c = ro_NodeID r /\ cr_Version c = ro_Version r
}.

(** A credential, once stored, keeps its node, version, secret and generation, and
    once revoked stays exactly as it is. *)
Definition credential_kept (c c' : CredentialRow) : Prop :=
  cr_NodeID c' = cr_NodeID c /\ cr_Version c' = cr_Version c /\ cr_Ciphertext c' = cr_Ciphertext c
  /\ cr_ControllerGeneration c' = cr_ControllerGeneration c
  /\ (cr_RevokedAt c <> None -> cr_RevokedAt c' = cr_RevokedAt c)
  /\ (cr_RevokedAt c' = None -> cr_RevokedAt c = None).

Definition credentials_step (d d' : DB) : Prop :=
  forall id c, db_credentials d !! id = Some c -> exists c', db_credentials d' !! id = Some c' /\ credential_kept c c'.

#[export] Instance credentials_step_preorder : PreOrder credentials_step.
Proof.
  split.
  - intros d id c Hl. exists c. by repeat split.
  - intros d1 d2 d3 H12 H23 id c Hl. destruct (H12 _ _ Hl) as (c2 & Hl2 & K1 & K2 & K3 & K4 & K5 & K6).
    destruct (H23 _ _ Hl2) as (c3 & Hl3 & L1 & L2 & L3 & L4 & L5 & L6). exists c3. split; [done|].
    split_and!; try congruence; [|auto]. intros Hr. rewrite L5; [auto|]. by rewrite K5.
Qed.

Lemma revoked_kept now c : credential_kept c (revoke_credential now c).
Proof. repeat split; cbn; destruct (cr_RevokedAt c); done. Qed.

(** Revoking credentials, all of a node's or only the live ones. *)
Lemma update_revoke_step (p : string -> CredentialRow -> bool) now d d' :
  db_credentials d' = update_where p (revoke_credential now) (db_credentials d) -> credentials_step d d'.
Proof.
  intros E id c Hl. rewrite E, update_where_lookup, Hl. cbn. eexists. split; [reflexivity|].
  destruct (p id c); [apply revoked_kept|]. by repeat split.
Qed.

(** A step that only revokes keeps the invariant on credentials. *)
Lemma credentials_back d d' :
  credentials_step d d' -> (forall id, db_credentials d !! id = None -> db_credentials d' !! id = None) ->
  forall id c', db_credentials d' !! id = Some c' ->
  exists c, db_credentials d !! id = Some c /\ credential_kept c c'.
Proof.
  intros Hs Hn id c' Hl. destruct (db_credentials d !! id) as [c|] eqn:E.
  - destruct (Hs _ _ E) as (c1 & Hl1 & Hk). simplify_eq. by exists c.
  - rewrite Hn in Hl; done.
Qed.

(** Pending rotations of the second state were pending in the first. *)
Definition no_new_pending (d d' : DB) : Prop :=
  forall id r', db_rotations d' !! id = Some r' -> ro_State r' = "pending" ->
    exists r, db_rotations d !! id = Some r /\ ro_State r = "pending"
      /\ ro_NodeID r' = ro_NodeID r /\ ro_Version r' = ro_Version r.

(** Rotations of the second state are those of the first, in another state perhaps. *)
Definition same_versions (d d' : DB) : Prop :=
  forall id r', db_rotations d' !! id = Some r' ->
    exists r, db_rotations d !! id = Some r /\ ro_Version r' = ro_Version r /\ ro_NodeID r' = ro_NodeID r.

Lemma no_new_pending_eq d d' : db_rotations d' = db_rotations d -> no_new_pending d d' /\ same_versions d d'.
Proof. intros E. split; intros id r; rewrite E; eauto. Qed.

Lemma update_no_new_pending (p : string -> RotationRow -> bool) st d d' :
  st <> "pending" -> db_rotations d' = update_where p (set_rotation_state st) (db_rotations d) ->
  no_new_pending d d' /\ same_versions d d'.
Proof.
  intros Hst E. split.
  - intros id r' Hl Hp. rewrite E, update_where_lookup in Hl.
    destruct (db_rotations d !! id) as [r|]; [|done]. cbn in Hl. destruct (p id r); injection Hl as <-; [done|by exists r].
  - intros id r' Hl. rewrite E, update_where_lookup in Hl. destruct (db_rotations d !! id) as [r|]; [|done].
    cbn in Hl. destruct (p id r); simplify_eq; eauto.
Qed.

Lemma wf_revoking d d' :
  credentials_wf d -> credentials_step d d' ->
  (forall id, db_credentials d !! id = None -> db_credentials d' !! id = None) ->
  no_new_pending d d' /\ same_versions d d' -> credentials_wf d'.
Proof.
  intros [W1 W2 W0 Wv W3 W4] Hs Hn [Hp Hv]. pose proof (credentials_back d d' Hs Hn) as Hb. constructor.
  - intros id c id' c' Hl Hr Hl' E. destruct (Hb _ _ Hl) as (c0 & H0 & K1 & K2 & _ & _ & _ & K6).
    destruct (Hb _ _ Hl') as (c0' & H0' & L1 & L2 & _). rewrite K2, L2.
    eapply W1; [exact H0|by apply K6|exact H0'|congruence].
  - intros id c id' c' Hl Hl' E Ev. destruct (Hb _ _ Hl) as (c0 & H0 & K1 & K2 & _).
    destruct (Hb _ _ Hl') as (c0' & H0' & L1 & L2 & _). eapply W2; [exact H0|exact H0'|congruence..].
  - intros id r Hl. destruct (Hv _ _ Hl) as (r0 & H0 & -> & _). by eapply W0.
  - intros id r id' r' Hl Hl' En Ev. destruct (Hv _ _ Hl) as (r0 & H0 & V0 & N0).
    destruct (Hv _ _ Hl') as (r0' & H0' & V0' & N0'). eapply Wv; [exact H0|exact H0'|congruence..].
  - intros id r id' r' Hl Hst Hl' Hst' E. destruct (Hp _ _ Hl Hst) as (r0 & H0 & P0 & N0 & _).
    destruct (Hp _ _ Hl' Hst') as (r0' & H0' & P0' & N0' & _). eapply W3; [exact H0|done|exact H0'|done|congruence].
  - intros id r Hl Hst. destruct (Hp _ _ Hl Hst) as (r0 & H0 & P0 & -> & ->).
    destruct (W4 _ _ H0 P0) as [Ha|(id' & c & Hc & Hcn & Hcv)].
    + left. intros id' c' Hc' Hn'. destruct (Hb _ _ Hc') as (c & Hc & K1 & -> & _). eapply Ha; [exact Hc|congruence].
    + right. destruct (Hs _ _ Hc) as (c' & Hc' & K1 & K2 & _). exists id', c'. split; [done|]. split; congruence.
Qed.

(** A new credential that is newer than all of its node, the others of which are
    revoked. *)
Lemma wf_inserting d d' id0 c0 now (n := cr_NodeID c0) :
  credentials_wf d -> db_credentials d !! id0 = None -> newer_than_all d n (cr_Version c0) ->
  db_credentials d' = <[id0 := c0]> (db_credentials (revoke_node_credentials n now d)) ->
  no_new_pending d d' /\ same_versions d d' ->
  (forall id r, db_rotations d' !! id = Some r -> ro_State r = "pending" -> ro_NodeID r = n ->
     newer_than_all d n (ro_Version r) -> cr_Version c0 <= ro_Version r) ->
  credentials_wf d' /\ credentials_step d d'.
Proof.
  intros Hwf Hnone Hnew E [Hp Hv] Hahead. set (d1 := revoke_node_credentials n now d) in *.
  assert (credentials_step d d1) as Hs1 by (by eapply update_revoke_step).
  assert (forall id, db_credentials d !! id = None -> db_credentials d1 !! id = None) as Hn1.
  { intros id Hid. cbn. by rewrite update_where_lookup, Hid. }
  assert (credentials_wf d1) as [W1 W2 W0 Wv W3 W4] by (by apply (wf_revoking d); [..|apply no_new_pending_eq]).
  pose proof (credentials_back d d1 Hs1 Hn1) as Hb.
  assert (newer_than_all d1 n (cr_Version c0)) as Hnew1.
  { intros id c Hl Hcn. destruct (Hb _ _ Hl) as (c1 & Hl1 & K1 & -> & _). eapply Hnew; [exact Hl1|congruence]. }
  assert (forall id c, db_credentials d1 !! id = Some c -> cr_NodeID c = n -> cr_RevokedAt c <> None) as Hrev.
  { intros id c. cbn. rewrite update_where_lookup. destruct (db_credentials d !! id) as [c1|]; [|done]. cbn.
    intros [= <-] Hcn. destruct (_ && _) eqn:Eb; cbn.
    - by destruct (cr_RevokedAt c1).
    - apply andb_false_iff in Eb as [Eb|Eb]; b2p; done. }
  split.
  - constructor.
    + intros id c id' c'. rewrite E, !lookup_insert_Some.
      intros [[<- <-]|[Hne Hl]] Hr [[<- <-]|[Hne' Hl']] En; [lia|..].
      * assert (cr_Version c' < cr_Version c0); [by eapply Hnew1|lia].
      * destruct (Hrev _ _ Hl); [by rewrite <- En|done].
      * by eapply W1.
    + intros id c id' c'. rewrite E, !lookup_insert_Some.
      intros [[<- <-]|[Hne Hl]] [[<- <-]|[Hne' Hl']] En Ev; [done|..].
      * assert (cr_Version c' < cr_Version c0); [by eapply Hnew1|lia].
      * assert (cr_Version c < cr_Version c0); [by eapply Hnew1|lia].
      * by eapply W2.
    + intros id r Hl. destruct (Hv _ _ Hl) as (r0 & H0 & -> & _). by eapply (W0 id).
    + intros id r id' r' Hl Hl' En Ev. destruct (Hv _ _ Hl) as (r0 & H0 & V0 & N0).
      destruct (Hv _ _ Hl') as (r0' & H0' & V0' & N0'). eapply (Wv id r0 id'); [exact H0|exact H0'|congruence..].
    + intros id r id' r' Hl Hst Hl' Hst' En. destruct (Hp _ _ Hl Hst) as (r0 & H0 & P0 & N0 & _).
      destruct (Hp _ _ Hl' Hst') as (r0' & H0' & P0' & N0' & _). eapply W3; [exact H0|done|exact H0'|done|congruence].
    + intros id r Hl Hst. destruct (Hp _ _ Hl Hst) as (r0 & H0 & P0 & Nr & Vr).
      destruct (W4 _ _ H0 P0) as [Ha|(id' & c & Hc & Hcn & Hcv)]; rewrite <- ?Nr, <- ?Vr in *.
      * destruct (decide (ro_NodeID r = n)) as [En|En].
        -- destruct (decide (cr_Version c0 = ro_Version r)) as [Ev|Ev].
           ++ right. exists id0, c0. rewrite E, lookup_insert_eq. done.
           ++ left. intros id' c' Hc' Hcn'. rewrite E, lookup_insert_Some in Hc'.
              destruct Hc' as [[<- <-]|[_ Hc']]; [|by eapply Ha].
              assert (cr_Version c0 <= ro_Version r); [|lia]. apply (Hahead _ _ Hl Hst En).
              intros i1 c1 Hc1 Hcn1. destruct (Hs1 _ _ Hc1) as (c2 & Hc2 & K1 & <- & _). eapply Ha; [exact Hc2|congruence].
        -- left. intros id' c' Hc' Hcn'. rewrite E, lookup_insert_Some in Hc'.
           destruct Hc' as [[<- <-]|[_ Hc']]; [done|by eapply Ha].
      * right. exists id', c. rewrite E, lookup_insert_ne; [done|]. intros <-. by rewrite Hn1 in Hc.
  - etrans; [exact Hs1|]. intros id c Hl. exists c. rewrite E, lookup_insert_ne; [by repeat split|].
    intros <-. by rewrite Hn1 in Hl.
Qed.

(** Nothing of the credentials changed. *)
Lemma wf_frame d d' :
  db_credentials d' = db_credentials d -> no_new_pending d d' /\ same_versions d d' -> credentials_wf d ->
  credentials_wf d' /\ credentials_step d d'.
Proof.
  intros E Hp Hwf. assert (credentials_step d d') as Hs by (intros id c Hl; exists c; rewrite E; by repeat split).
  split; [|done]. apply (wf_revoking d); try done. intros id. by rewrite E.
Qed.

Lemma max_of_attained l : forall a, foldl Z.max a l = a \/ foldl Z.max a l ∈ l.
Proof.
  induction l as [|y l IH]; intros a; cbn [foldl]; [by left|].
  destruct (IH (Z.max a y)) as [E|Hin]; [|right; by apply list_elem_of_further]. rewrite E.
  destruct (Z.max_spec a y) as [[_ ->]|[_ ->]]; [right; apply list_elem_of_here|by left].
Qed.

Lemma max_credential_below d n v : 0 < v -> newer_than_all d n v -> max_credential d n < v.
Proof.
  intros Hv Hn. unfold max_credential, max_of.
  destruct (max_of_attained (map (fun kv : string * CredentialRow => cr_Version kv.2)
    (rows_where (fun _ c => cr_NodeID c =? n) (db_credentials d))) 0) as [->|Hin]; [done|].
  apply list_elem_of_fmap in Hin as ([id c] & -> & Hc). apply rows_where_elem in Hc as [Hl Hcn]. b2p. by eapply Hn.
Qed.

Lemma credential_effect_wf ev d :
  credentials_wf d -> credentials_wf (credential_effect ev d) /\ credentials_step d (credential_effect ev d).
Proof.
  intros Hwf. assert (credentials_wf d /\ credentials_step d d) as Hid by (split; [done|reflexivity]).
  destruct ev; cbn [credential_effect].
  - destruct (EnsureAgentCredentialRotation p d) as [r d'] eqn:E. cbn [snd].
    apply Ensure_cases in E as [->|(d1 & Hd1 & Ec & _ & _ & Hr)]; [done|].
    assert (no_new_pending d d1 /\ same_versions d d1) as Hp1
      by (subst d1; by eapply update_no_new_pending; [|reflexivity]).
    assert (credentials_wf d1) as Hwf1 by (apply (wf_frame d d1); by subst d1).
    destruct Hr as [Er|(id & row & g & _ & Hnone & Er & Hn & Hst & _ & Hpos & Hv & Hc)].
    { apply wf_frame; [done| |done]. destruct Hp1 as [Hp Hs].
      split; intros i r0; rewrite Er; [apply Hp|apply Hs]. }
    destruct Hwf1 as [W1 W2 W0 Wv W3 W4]. assert (db_credentials d1 = db_credentials d) as Ed1 by (by subst d1).
    split; [|intros i c Hl; exists c; rewrite Ec; by repeat split].
    constructor; unfold newer_than_all; rewrite ?Ec, <- ?Ed1; [exact W1|exact W2|..]; rewrite Er.
    + intros i r0. rewrite lookup_insert_Some. intros [[<- <-]|[_ Hl]]; [done|by eapply W0].
    + intros i r0 i' r0'. rewrite !lookup_insert_Some.
      intros [[<- <-]|[_ Hl]] [[<- <-]|[_ Hl']] En Ev; [done|..|by eapply Wv].
      * destruct (Hv _ _ Hl'); [congruence|lia].
      * destruct (Hv _ _ Hl); [congruence|lia].
    + intros i r0 i' r0'. rewrite !lookup_insert_Some.
      intros [[<- <-]|[_ Hl]] Hs0 [[<- <-]|[_ Hl']] Hs0' En; [done|..|by eapply W3].
      * destruct (Hv _ _ Hl'); [congruence|done].
      * destruct (Hv _ _ Hl); [congruence|done].
    + intros i r0. rewrite lookup_insert_Some. intros [[<- <-]|[_ Hl]] Hs0; [|by eapply W4].
      left. intros i' c'. rewrite Ed1, Hn. apply Hc.
  - destruct (ActivateAgentCredentialRotation nodeID version now d) as [r d'] eqn:E. cbn [snd].
    apply Activate_cases in E as [[-> _]|[[Hw _]|(id & row & g & _ & _ & Hl & Hn & Hv & Hst & _ & _ & Hnone & _ & Hpos
      & Huniq & Ec & Er & _)]]; [done|..].
    { destruct (rebuild_writes_frame _ _ Hw) as (Ec & Er & _). apply wf_frame; [done|by apply no_new_pending_eq|done]. }
    assert (newer_than_all d nodeID version) as Hnew.
    { destruct (rwf_ahead _ Hwf _ _ Hl Hst) as [Ha|(id' & c & Hc & Hcn & Hcv)]; [by rewrite Hn, Hv in Ha|].
      destruct (Huniq id' c Hc); congruence. }
    assert (no_new_pending d d' /\ same_versions d d') as [Hp Hs].
    { split; intros i r0; rewrite Er, lookup_alter_Some; intros [(<- & r1 & Hl1 & ->)|[_ Hl1]]; try done; eauto. }
    refine (wf_inserting d d' id _ now Hwf Hnone _ Ec (conj Hp Hs) _); [done|].
    intros i r0 Hl0 Hs0 Hn0 _. cbn in Hn0. rewrite Er, lookup_alter_Some in Hl0.
    destruct Hl0 as [(<- & r1 & _ & ->)|[Hne Hl0]]; [done|]. destruct Hne.
    eapply (rwf_pending _ Hwf); [exact Hl|done|exact Hl0|done|congruence].
  - unfold CreateEnrollmentToken. destruct (_ || _ || _ || _ || _ || _); [done|]. destruct (negb _); [done|].
    unfold runTx. match goal with |- context [match ?t d with _ => _ end] => destruct (t d) as [[u d']|e] eqn:E end; [|done].
    cbn [snd]. tx_go. repeat match goal with Hu : uuid_param _ _ = Ok _ |- _ => apply uuid_param_ok in Hu as [? ->] end.
    destruct (_ || _ || _); [done|]. simplify_eq. apply wf_frame; [done|by apply no_new_pending_eq|done].
  - destruct (EnrollAgent clock p d) as [r d'] eqn:E. cbn [snd].
    apply Enroll_cases in E as [[-> _]|(tid & e & n & id & g & nd & _ & _ & _ & _ & _ & _ & _ & _ & _ & _ & Hnone & _
      & Ec & Er & _)]; [done|].
    refine (wf_inserting d d' id _ _ Hwf Hnone _ Ec (no_new_pending_eq _ _ Er) _).
    + intros i c Hl Hcn. cbn [cr_Version cr_NodeID] in *. pose proof (max_credential_ge _ _ _ _ Hl Hcn). lia.
    + intros i r0 Hl0 Hs0 Hn0 Ha. cbn [cr_Version cr_NodeID] in *. rewrite Er in Hl0.
      pose proof (max_credential_below d n (ro_Version r0) (rwf_positive _ Hwf _ _ Hl0) Ha). lia.
  - assert (credentials_step d (revokeNodeAccess nodeID now d)) as Hs by (by eapply update_revoke_step).
    split; [|done]. apply (wf_revoking d); [done|done| |by eapply update_no_new_pending; [|reflexivity]].
    intros i Hi. cbn. by rewrite update_where_lookup, Hi.
  - destruct (promote_frame clock op rb ct source now d) as (Ec & _ & _ & Hr). apply wf_frame; [done| |done].
    destruct Hr as [Er|[current Er]]; [by apply no_new_pending_eq|]. by eapply update_no_new_pending; [|exact Er].
  - apply wf_frame; [| |done]; unfold ConsumeAgentNonce; repeat case_match; try done; by apply no_new_pending_eq.
  - apply wf_frame; [done|by apply no_new_pending_eq|done].
Qed.

Lemma credential_run_wf evs : forall d,
  credentials_wf d -> credentials_wf (credential_run d evs) /\ credentials_step d (credential_run d evs).
Proof.
  induction evs as [|ev evs IH]; intros d Hwf; cbn; [by split|].
  destruct (credential_effect_wf ev d Hwf) as [Hwf1 Hs1]. destruct (IH _ Hwf1) as [Hwf2 Hs2].
  split; [done|by etrans].
Qed.

(** Only one credential of a node is unrevoked. *)
Lemma live_unique d id c id' c' :
  credentials_wf d -> db_credentials d !! id = Some c -> cr_RevokedAt c = None ->
  db_credentials d !! id' = Some c' -> cr_RevokedAt c' = None -> cr_NodeID c' = cr_NodeID c -> id = id'.
Proof.
  intros Hwf Hl Hr Hl' Hr' En.
  pose proof (cwf_newest _ Hwf _ _ _ _ Hl Hr Hl' En). pose proof (cwf_newest _ Hwf _ _ _ _ Hl' Hr' Hl (eq_sym En)).
  eapply (cwf_version _ Hwf); [done|done|done|lia].
Qed.

(** ** Tokens *)

Definition tokens_wf (d : DB) : Prop :=
  forall id e id' e', db_enrollments d !! id = Some e -> db_enrollments d !! id' = Some e' ->
    en_TokenHash e = en_TokenHash e' -> id = id'.

(** Tokens of the second state with their hash, and consumed ones stay. *)
Definition tokens_step (d d' : DB) : Prop :=
  forall id e, db_enrollments d !! id = Some e -> en_ConsumedAt e <> None -> db_enrollments d' !! id = Some e.

Lemma tokens_frame d d' : db_enrollments d' = db_enrollments d -> tokens_wf d -> tokens_wf d' /\ tokens_step d d'.
Proof. intros E Hwf. unfold tokens_wf, tokens_step. rewrite E. by split. Qed.

Lemma tokens_consume d d' tid e n now :
  db_enrollments d !! tid = Some e -> en_ConsumedAt e = None ->
  db_enrollments d' = alter (consume_token n now) tid (db_enrollments d) ->
  tokens_wf d -> tokens_wf d' /\ tokens_step d d'.
Proof.
  intros Hl Hc E Hwf. split.
  - intros i e1 i' e1'. rewrite E, !lookup_alter_Some.
    intros [(<- & e2 & Hl2 & ->)|[Hne Hl2]] [(<- & e2' & Hl2' & ->)|[Hne' Hl2']] Eh; [done|..]; by eapply Hwf.
  - intros i e1 Hl1 Hc1. rewrite E, lookup_alter_Some. right. split; [|done]. intros <-. by simplify_eq.
Qed.

Lemma credential_effect_tokens ev d :
  tokens_wf d -> tokens_wf (credential_effect ev d) /\ tokens_step d (credential_effect ev d).
Proof.
  intros Hwf. assert (tokens_wf d /\ tokens_step d d) as Hid by (split; [done|by intros ??]).
  destruct ev; cbn [credential_effect].
  - destruct (EnsureAgentCredentialRotation p d) as [r d'] eqn:E. cbn [snd].
    apply Ensure_cases in E as [->|(d1 & _ & _ & Ee & _)]; [done|]. by apply tokens_frame.
  - destruct (ActivateAgentCredentialRotation nodeID version now d) as [r d'] eqn:E. cbn [snd].
    apply Activate_cases in E as [[-> _]|[[Hw _]|(id & row & g & Hr)]]; [done|..]; apply tokens_frame; try done.
    + by destruct (rebuild_writes_frame _ _ Hw) as (_ & _ & Ee & _).
    + by destruct_and! Hr.
  - unfold CreateEnrollmentToken. destruct (_ || _ || _ || _ || _ || _); [done|]. destruct (negb _); [done|].
    unfold runTx. match goal with |- context [match ?t d with _ => _ end] => destruct (t d) as [[u d']|e] eqn:E end; [|done].
    cbn [snd]. tx_go. repeat match goal with Hu : uuid_param _ _ = Ok _ |- _ => apply uuid_param_ok in Hu as [? ->] end.
    destruct (_ || _ || _) eqn:Eb; [done|]. simplify_eq. b2p.
    assert (forall i e, db_enrollments d !! i = Some e -> en_TokenHash e <> et_TokenHash p) as Hfresh.
    { intros i e Hl. match goal with Hr : no_row _ _ = true |- _ =>
        pose proof (rows_where_none _ _ _ _ Hr Hl) as Hp end. cbn in Hp. by b2p. }
    split.
    + intros i e i' e'. cbn. rewrite !lookup_insert_Some.
      intros [[<- <-]|[_ Hl]] [[<- <-]|[_ Hl']]; cbn; intros Eh; [done|..|by eapply Hwf]; by destruct (Hfresh _ _ ltac:(eassumption)).
    + intros i e Hl Hc. cbn. rewrite lookup_insert_ne; [done|]. intros <-. rewrite Hl in *. naive_solver.
  - destruct (EnrollAgent clock p d) as [r d'] eqn:E. cbn [snd].
    apply Enroll_cases in E as [[-> _]|(tid & e & n & id & g & nd & Hl & _ & Hc & _ & _ & _ & _ & _ & _ & _ & _ & _
      & _ & _ & Ee & _)]; [done|]. by eapply tokens_consume.
  - split.
    + intros i e i' e'. cbn. rewrite !map_lookup_filter_Some. intros [Hl _] [Hl' _]. by apply Hwf.
    + intros i e Hl Hc. cbn. rewrite map_lookup_filter_Some. split; [done|]. cbn.
      by rewrite (bool_decide_false (en_ConsumedAt e = None)), andb_false_r.
  - destruct (promote_frame clock op rb ct source now d) as (_ & Ee & _). by apply tokens_frame.
  - apply tokens_frame; [|done]. unfold ConsumeAgentNonce. by repeat case_match.
  - by apply tokens_frame.
Qed.

Lemma credential_run_tokens evs : forall d,
  tokens_wf d -> tokens_wf (credential_run d evs) /\ tokens_step d (credential_run d evs).
Proof.
  induction evs as [|ev evs IH]; intros d Hwf; cbn; [split; [done|by intros ??]|].
  destruct (credential_effect_tokens ev d Hwf) as [Hwf1 Hs1]. destruct (IH _ Hwf1) as [Hwf2 Hs2].
  split; [done|]. intros i e Hl Hc. auto.
Qed.

Lemma credential_run_app d evs evs' : credential_run d (evs ++ evs') = credential_run (credential_run d evs) evs'.
Proof. apply foldl_app. Qed.

(** Revocation leaves no credential of the node unrevoked. *)
Lemma revoke_node_credentials_all n now d id c :
  db_credentials (revoke_node_credentials n now d) !! id = Some c -> cr_NodeID c = n -> cr_RevokedAt c <> None.
Proof.
  cbn. rewrite update_where_lookup. destruct (db_credentials d !! id) as [c1|]; [|done]. cbn.
  intros [= <-] Hcn. destruct (_ && _) eqn:Eb; cbn.
  - by destruct (cr_RevokedAt c1).
  - apply andb_false_iff in Eb as [Eb|Eb]; b2p; done.
Qed.

Lemma expireNodeCommands_none n now d op c :
  db_commands (expireNodeCommands n now d) !! op = Some c -> co_NodeID c = n ->
  co_State c <> "queued" /\ claimed (co_State c) = false.
Proof.
  cbn. rewrite update_where_lookup. destruct (db_commands d !! op) as [c1|]; [|done]. cbn.
  intros [= <-]. destruct (_ && _) eqn:Eb; cbn; [done|]. intros <-. rewrite Z.eqb_refl in Eb. cbn in Eb. by b2p.
Qed.

(** ** Nonces *)

(** A nonce stays until the server's clock reaches its expiry. *)
Definition before_expiry (e : time) (ev : credential_event) : Prop :=
  match ev with KUse clock _ _ _ _ => ts clock < e | _ => True end.

Lemma credential_effect_nonces ev d :
  db_nonces (credential_effect ev d) = db_nonces d \/ exists clock n nonce s e, ev = KUse clock n nonce s e.
Proof.
  destruct ev; cbn [credential_effect]; [left..|right; by eauto 10|by left].
  - destruct (EnsureAgentCredentialRotation p d) as [r d'] eqn:E. cbn [snd].
    by apply Ensure_cases in E as [->|(d1 & _ & _ & _ & En & _)].
  - destruct (ActivateAgentCredentialRotation nodeID version now d) as [r d'] eqn:E. cbn [snd].
    apply Activate_cases in E as [[-> _]|[[Hw _]|(id & row & g & Hr)]]; [done|..].
    + by destruct (rebuild_writes_frame _ _ Hw) as (_ & _ & _ & _ & _ & En & _).
    + by destruct_and! Hr.
  - unfold CreateEnrollmentToken. destruct (_ || _ || _ || _ || _ || _); [done|]. destruct (negb _); [done|].
    unfold runTx. match goal with |- context [match ?t d with _ => _ end] => destruct (t d) as [[u d']|e] eqn:E end; [|done].
    cbn [snd]. tx_go. repeat match goal with Hu : uuid_param _ _ = Ok _ |- _ => apply uuid_param_ok in Hu as [? ->] end.
    destruct (_ || _ || _); [done|]. by simplify_eq.
  - destruct (EnrollAgent clock p d) as [r d'] eqn:E. cbn [snd].
    apply Enroll_cases in E as [[-> _]|(tid & e & n & id & g & nd & Hr)]; [done|]. by destruct_and! Hr.
  - reflexivity.
  - by destruct (promote_frame clock op rb ct source now d) as (_ & _ & En & _).
Qed.

Lemma nonce_kept ev d k row :
  db_nonces d !! k = Some row -> before_expiry (no_ExpiresAt row) ev ->
  db_nonces (credential_effect ev d) !! k = Some row.
Proof.
  intros Hl Hb. destruct (credential_effect_nonces ev d) as [->|(clock & n & nonce & s & e & ->)]; [done|].
  cbn in Hb |- *. unfold ConsumeAgentNonce. destruct (_ || _ || _ || _); [done|].
  assert (filter (fun kv : (Z * string) * NonceRow => (no_ExpiresAt kv.2 <=? ts clock) = false) (db_nonces d) !! k = Some row)
    as Hf by (apply map_lookup_filter_Some; split; [done|]; cbn; lia).
  destruct (bool_decide _) eqn:Eb; [done|]. destruct (_ || _); [done|]. cbn [snd]. cbn -[sha256].
  rewrite lookup_insert_ne; [done|]. intros <-. b2p. rewrite Hl in *. by destruct Eb.
Qed.

Lemma nonce_kept_run evs k row : forall d,
  db_nonces d !! k = Some row -> Forall (before_expiry (no_ExpiresAt row)) evs ->
  db_nonces (credential_run d evs) !! k = Some row.
Proof.
  induction evs as [|ev evs IH]; intros d Hl Hb; [done|]. apply Forall_cons in Hb as [H1 H2].
  cbn. apply IH; [by apply nonce_kept|done].
Qed.

(** ** Theorems *)

(** C20: Along any run of rotations, activations, enrollments, retirements and
    promotions a node has at most one credential that is not revoked, no credential
    of the node has a higher version, and a revoked credential stays revoked. *)
Theorem one_live_credential d evs (d' := credential_run d evs) :
  credentials_wf d ->
  (forall id c id' c', db_credentials d' !! id = Some c -> cr_RevokedAt c = None ->
     db_credentials d' !! id' = Some c' -> cr_NodeID c' = cr_NodeID c ->
     cr_Version c' <= cr_Version c /\ (cr_RevokedAt c' = None -> id' = id))
  /\ (forall id c, db_credentials d !! id = Some c -> cr_RevokedAt c <> None ->
     exists c', db_credentials d' !! id = Some c' /\ cr_RevokedAt c' <> None).
Proof.
  intros Hwf. destruct (credential_run_wf evs d Hwf) as [Hwf' Hs]. fold d' in Hwf', Hs. split.
  - intros id c id' c' Hl Hr Hl' En. split; [by eapply (cwf_newest _ Hwf')|]. intros Hr'. symmetry.
    by eapply live_unique.
  - intros id c Hl Hr. destruct (Hs _ _ Hl) as (c' & Hl' & _ & _ & _ & _ & Hk & _). exists c'. by rewrite Hk.
Qed.

(** A pending rotation of the active generation that no credential of its node has
    outrun can be activated until it expires. *)
Lemma Activate_succeeds d id row now g :
  credentials_wf d -> db_rotations d !! id = Some row -> ro_State row = "pending" -> now < ro_ExpiresAt row ->
  active_generation d = Some g -> ro_ControllerGeneration row = g -> 0 < g -> 0 < ro_NodeID row -> is_zero now = false ->
  newer_than_all d (ro_NodeID row) (ro_Version row) -> db_credentials d !! id = None ->
  is_Some (db_nodes d !! ro_NodeID row) ->
  exists d', ActivateAgentCredentialRotation (ro_NodeID row) (ro_Version row) now d = (Ok g, d').
Proof.
  intros Hwf Hl Hst Hexp Hg Hrg Hg0 Hn0 Hz Hnew Hid Hnode. pose proof (rwf_positive _ Hwf _ _ Hl) as Hv0.
  unfold ActivateAgentCredentialRotation. rewrite Hz.
  destruct (Z.leb_spec (ro_NodeID row) 0); [lia|]. destruct (Z.leb_spec (ro_Version row) 0); [lia|]. cbn [orb].
  unfold runTx, activation_tx. cbn [tx_bind tx_read]. unfold tx_bind, tx_read, tx_write, tx_ret, tx_fail. rewrite Hg.
  rewrite (rows_where_head _ _ id row); [|done|by rewrite !Z.eqb_refl|].
  2:{ intros id' r' Hl' Hp. b2p. symmetry. by eapply (rwf_version _ Hwf). }
  rewrite Hst. cbn [String.eqb Ascii.eqb Bool.eqb negb orb]. unfold after. rewrite (proj2 (Z.ltb_lt _ _) Hexp).
  rewrite Hrg, Z.eqb_refl. cbn [negb orb].
  unfold insert_credential. cbn [cr_NodeID cr_Version cr_ControllerGeneration].
  rewrite (bool_decide_false (is_Some (db_credentials _ !! id)))
    by (cbn; rewrite update_where_lookup, Hid; by intros [? ?]).
  unfold no_row. rewrite rows_where_empty.
  2:{ intros i c Hc. destruct (cr_NodeID c =? ro_NodeID row) eqn:En; [|done]. b2p. cbn [andb].
      rewrite (bool_decide_false (cr_RevokedAt c = None)) by (by eapply revoke_node_credentials_all).
      cbn in Hc. rewrite update_where_lookup in Hc. destruct (db_credentials d !! i) as [c1|] eqn:Ec1; [|done].
      assert (cr_NodeID c1 = cr_NodeID c /\ cr_Version c1 = cr_Version c) as [E1 E2]
        by (cbn in Hc; injection Hc as <-; by destruct (_ && _)).
      assert (cr_Version c1 < ro_Version row) by (eapply Hnew; [exact Ec1|congruence]).
      destruct (Z.eqb_spec (cr_Version c) (ro_Version row)); [lia|done]. }
  cbn [length Nat.eqb negb orb]. rewrite bool_decide_true by done.
  destruct (Z.leb_spec (ro_Version row) 0); [lia|]. destruct (Z.leb_spec g 0); [lia|]. cbn [negb orb]. by eexists.
Qed.

#[local] Instance newest_first_total : Total newest_first.
Proof. intros x y. unfold newest_first. lia. Qed.
#[local] Instance newest_first_trans : Transitive newest_first.
Proof. intros x y z. unfold newest_first. lia. Qed.

Lemma newest_head x l :
  x ∈ l -> (forall y, y ∈ l -> y = x \/ aa_CredentialVersion y < aa_CredentialVersion x) ->
  exists rest, merge_sort newest_first l = x :: rest.
Proof.
  intros Hin Hbest. pose proof (merge_sort_Permutation newest_first l) as Hp.
  pose proof (StronglySorted_merge_sort newest_first l) as Hs. rewrite <- Hp in Hin.
  assert (forall y, y ∈ merge_sort newest_first l -> y = x \/ aa_CredentialVersion y < aa_CredentialVersion x) as Hb
    by (intros y Hy; apply Hbest; by rewrite <- Hp).
  destruct (merge_sort newest_first l) as [|y rest]; [by apply elem_of_nil in Hin|].
  destruct (Hb y) as [->|Hy]; [apply list_elem_of_here|by exists rest|].
  apply elem_of_cons in Hin as [->|Hin]; [by exists rest|]. inversion Hs as [|?? _ Hall]; subst.
  pose proof (proj1 (Forall_forall _ _) Hall x Hin) as Hle. unfold newest_first in Hle. lia.
Qed.

(** A rotation no credential of its node has outrun is tried first. *)
Lemma pending_listed_first d id row now :
  credentials_wf d -> db_rotations d !! id = Some row -> live_rotation (ro_NodeID row) now row = true ->
  newer_than_all d (ro_NodeID row) (ro_Version row) -> 0 < ro_NodeID row -> is_zero now = false ->
  exists rest, ListAgentAuthenticationCredentials (ro_NodeID row) now d =
    Ok ({| aa_ID := id; aa_Ciphertext := ro_Ciphertext row; aa_CredentialVersion := ro_Version row;
           aa_ControllerGeneration := ro_ControllerGeneration row; aa_Pending := true |} :: rest).
Proof.
  intros Hwf Hl Hlive Hnew Hn0 Hz. unfold ListAgentAuthenticationCredentials. rewrite Hz.
  destruct (Z.leb_spec (ro_NodeID row) 0); [lia|]. cbn [orb].
  edestruct newest_head as [rest Hr]; [| |rewrite Hr; by exists rest].
  - apply elem_of_app. right. apply list_elem_of_fmap. exists (id, row). split; [done|]. by apply rows_where_elem.
  - intros y Hy. apply elem_of_app in Hy as [Hy|Hy]; apply list_elem_of_fmap in Hy as ([i r0] & -> & Hr);
      apply rows_where_elem in Hr as [Hl0 Hp].
    + right. cbn. unfold live_credential in Hp. b2p. by eapply Hnew.
    + left. unfold live_rotation in Hp, Hlive. b2p.
      assert (i = id) as -> by (by eapply (rwf_pending _ Hwf)). by simplify_eq.
Qed.

(** What an activation leaves. *)
Lemma activated d id row now g d' (n := ro_NodeID row) (v := ro_Version row) :
  credentials_wf d -> db_rotations d !! id = Some row -> ro_State row = "pending" ->
  ActivateAgentCredentialRotation n v now d = (Ok g, d') ->
  active_generation d = Some g
  /\ (forall t, 0 < n -> is_zero t = false -> ListAgentAuthenticationCredentials n t d' =
       Ok [{| aa_ID := id; aa_Ciphertext := ro_Ciphertext row; aa_CredentialVersion := v;
              aa_ControllerGeneration := g; aa_Pending := false |}])
  /\ nd_ControllerGeneration <$> db_nodes d' !! n = Some g
  /\ (forall op c, db_commands d' !! op = Some c -> co_NodeID c = n ->
      co_State c <> "queued" /\ claimed (co_State c) = false).
Proof.
  intros Hwf Hl Hst E. apply Activate_cases in E as
    [[_ [e He]]|[[_ (i & r & g' & _ & Hi & Hn & Hv & Ha)]|(i & r & g' & [= <-] & Hg & Hi & Hn & Hv & Hp & _ & _ & _ & Hnode
      & _ & _ & Ec & Er & _ & _ & En & Eo)]]; [done|..].
  { rewrite (rwf_version _ Hwf _ _ _ _ Hl Hi Hn Hv), Hi in Hl. simplify_eq. by rewrite Ha in Hst. }
  assert (i = id) as -> by (symmetry; by eapply (rwf_version _ Hwf)). rewrite Hl in Hi. injection Hi as <-.
  split; [done|]. split; [|split].
  - intros t Hn0 Ht. unfold ListAgentAuthenticationCredentials. rewrite Ht. destruct (Z.leb_spec n 0); [lia|]. cbn [orb].
    erewrite rows_where_single; [|rewrite Ec; apply lookup_insert_eq|..].
    + rewrite rows_where_empty; [reflexivity|]. intros i r'. rewrite Er, lookup_alter_Some. unfold live_rotation.
      intros [(<- & r1 & _ & ->)|[Hne Hl1]]; [by rewrite andb_false_r|].
      destruct (_ && _) eqn:Eb; [|done]. b2p. destruct Hne. by eapply (rwf_pending _ Hwf).
    + unfold live_credential. cbn. by rewrite Z.eqb_refl.
    + intros i c. rewrite Ec, lookup_insert_Some. intros [[<- <-]|[_ Hl1]]; [done|]. unfold live_credential. intros Hb.
      b2p. by destruct (revoke_node_credentials_all _ _ _ _ _ Hl1).
  - rewrite En. cbn. rewrite lookup_alter_eq. by destruct Hnode as [nd ->].
  - intros op c. rewrite Eo. apply expireNodeCommands_none.
Qed.

Lemma activated_list d id row now g d' u :
  credentials_wf d -> db_rotations d !! id = Some row -> ro_State row = "pending" ->
  ActivateAgentCredentialRotation (ro_NodeID row) (ro_Version row) now d = (Ok g, d') -> 0 < ro_NodeID row -> is_zero u = false ->
  ListAgentAuthenticationCredentials (ro_NodeID row) u d' =
    Ok [{| aa_ID := id; aa_Ciphertext := ro_Ciphertext row; aa_CredentialVersion := ro_Version row;
           aa_ControllerGeneration := g; aa_Pending := false |}].
Proof. intros Hwf Hl Hst E Hn0 Hu. by apply (activated d id row now g d' Hwf Hl Hst E). Qed.

(** Activating the rotation an Agent proved to have makes its secret the one
    credential the node authenticates with - the previous one and the rotation itself
    are gone - under the active generation, which the node row takes, and leaves no
    command of the node queued or claimed. *)
Theorem activation_takes_over d id row now g d' (n := ro_NodeID row) (v := ro_Version row) :
  credentials_wf d -> db_rotations d !! id = Some row -> ro_State row = "pending" ->
  ActivateAgentCredentialRotation n v now d = (Ok g, d') ->
  active_generation d = Some g
  /\ (forall t, 0 < n -> is_zero t = false -> ListAgentAuthenticationCredentials n t d' =
       Ok [{| aa_ID := id; aa_Ciphertext := ro_Ciphertext row; aa_CredentialVersion := v;
              aa_ControllerGeneration := g; aa_Pending := false |}])
  /\ nd_ControllerGeneration <$> db_nodes d' !! n = Some g
  /\ (forall op c, db_commands d' !! op = Some c -> co_NodeID c = n ->
      co_State c <> "queued" /\ claimed (co_State c) = false).
Proof. apply activated. Qed.

(** An enrollment token works once: after an enrollment with it, no enrollment
    with its hash succeeds, at any time and after any run. *)
Theorem enrollment_token_single_use clock p x d d1 evs clock' p' (d2 := credential_run d1 evs) :
  tokens_wf d -> EnrollAgent clock p d = (Ok x, d1) -> ea_TokenHash p' = ea_TokenHash p ->
  exists e, EnrollAgent clock' p' d2 = (Fail e, d2).
Proof.
  intros Hwf E Eh. destruct (EnrollAgent clock' p' d2) as [r d3] eqn:E2.
  apply Enroll_cases in E as [[_ [e He]]|(tid & e & n & id & g & nd & Hl & Hh & Hc & _ & _ & _ & _ & _ & _ & _ & _ & _
      & _ & _ & Ee & _)]; [done|].
  destruct (tokens_consume _ _ _ _ _ _ Hl Hc Ee Hwf) as [Hwf1 _].
  destruct (credential_run_tokens evs d1 Hwf1) as [Hwf2 Hs2]. fold d2 in Hwf2, Hs2.
  apply Enroll_cases in E2 as [[-> [e2 ->]]|(tid2 & e2 & _ & _ & _ & _ & Hl2 & Hh2 & Hc2 & _)]; [by exists e2|].
  assert (db_enrollments d2 !! tid = Some (consume_token n (now_or clock (ea_Now p)) e)) as Hl3.
  { apply Hs2; [|done]. rewrite Ee, lookup_alter_eq, Hl. done. }
  assert (tid2 = tid) as -> by (eapply Hwf2; [exact Hl2|exact Hl3|]; cbn; congruence). rewrite Hl3 in Hl2. by simplify_eq.
Qed.

(** An enrollment leaves the node's pending rotation as it is.  When the rotation
    is of the version the enrollment just used, which it is unless an earlier rotation
    expired, no activation of it succeeds at any time. *)
Theorem enrollment_strands_rotation clock p x d d1 id row now :
  EnrollAgent clock p d = (Ok x, d1) ->
  db_rotations d !! id = Some row -> ro_NodeID row = ae_NodeID x -> ro_Version row = ae_CredentialVersion x ->
  credentials_wf d -> ro_State row = "pending" ->
  db_rotations d1 !! id = Some row
  /\ exists e, ActivateAgentCredentialRotation (ro_NodeID row) (ro_Version row) now d1 = (Fail e, d1).
Proof.
  intros E Hl Hn Hv Hwf Hst.
  assert (credentials_wf d1) as Hwf1.
  { pose proof (proj1 (credential_effect_wf (KEnroll clock p) d Hwf)) as Hw. cbn in Hw. by rewrite E in Hw. }
  apply Enroll_cases in E as [[_ [e He]]|(tid & e & n & i & g & nd & _ & _ & _ & _ & _ & _ & _ & _ & _ & _ & _ & [= ->]
      & Ec & Er & _)]; [done|]. cbn [ae_NodeID ae_CredentialVersion] in Hn, Hv.
  split; [by rewrite Er|]. destruct (ActivateAgentCredentialRotation (ro_NodeID row) (ro_Version row) now d1) as [r d2] eqn:E.
  apply Activate_cases in E as [[-> [e1 ->]]|[[_ (i1 & r1 & g' & _ & Hi & Hn1 & Hv1 & Ha)]
    |(i1 & r1 & g' & _ & _ & _ & _ & _ & _ & _ & _ & _ & _ & _ & Huniq & _)]]; [by exists e1|..]; exfalso.
  - rewrite <- Er in Hl. rewrite <- (rwf_version _ Hwf1 _ _ _ _ Hl Hi Hn1 Hv1), Hl in Hi. simplify_eq. by rewrite Hst in Ha.
  - eapply Huniq; [rewrite Ec; apply lookup_insert_eq|done|]. cbn [cr_Version]. congruence.
Qed.
End Credentials.

(** ** Concrete runs *)

(** Node 1 with the credential of version 1, whose rotation is due after a month. *)
Definition demo_later : time := store_now + 31 * 24 * Hour.
Definition id_rot : string := "00000000-0000-4000-8000-0000000000d1".
Definition id_rot2 : string := "00000000-0000-4000-8000-0000000000d2".
Definition id_new : string := "00000000-0000-4000-8000-0000000000d3".
Definition demo_ensure (id op : string) (now : time) : credential_event :=
  KEnsure {| ep_ID := id; ep_RotationOperationID := op; ep_NodeID := 1; ep_ProposedCiphertext := append "sealed " id;
             ep_ControllerGeneration := 4; ep_Now := now; ep_ExpiresAt := now + 24 * Hour |}.
Definition demo_token (now : time) : credential_event :=
  KToken 0 {| et_ID := id_op; et_OperationID := id_op2; et_TokenHash := digest32; et_ExpectedNodeID := 1;
              et_ExpectedRole := "compute"; et_ExpectedFingerprint := ""; et_ExpiresAt := now + Hour;
              et_CreatedByAdminID := None; et_Now := now |}.
Definition demo_enrollment (now : time) : EnrollAgentParams :=
  {| ea_TokenHash := digest32; ea_PresentedRole := "compute"; ea_PresentedFingerprint := "";
     ea_CredentialID := id_new; ea_CredentialCiphertext := "fresh"; ea_AgentVersion := "1"; ea_TavernVersion := "1";
     ea_BaseURLGuess := ""; ea_Now := now |}.
Definition with_token : DB := @credential_run demo_postgres before_promotion [demo_token demo_later].
Definition rotating : DB := @credential_run demo_postgres with_token [demo_ensure id_rot id_sid2 demo_later].

Lemma before_promotion_credentials : credentials_wf before_promotion /\ tokens_wf before_promotion.
Proof.
  split; [constructor|]; cbn; try (intros ??; intros; exfalso; by match goal with H : (∅ : gmap _ _) !! _ = Some _ |- _ => rewrite lookup_empty in H end).
  - intros id c id' c' [<- <-]%lookup_singleton_Some _ [<- <-]%lookup_singleton_Some. lia.
  - intros id c id' c' [<- <-]%lookup_singleton_Some [<- <-]%lookup_singleton_Some. done.
  - intros id e id' e' Hl. exfalso. revert Hl. cbn. by rewrite lookup_empty.
Qed.

Lemma rotating_wf : credentials_wf rotating.
Proof. do 2 apply (@credential_run_wf demo_postgres). apply before_promotion_credentials. Qed.

Lemma one_live_credential_witness :
  (forall id c id' c', db_credentials (@credential_run demo_postgres before_promotion
       [demo_ensure id_rot id_sid2 demo_later; KActivate 1 2 (demo_later + Second)]) !! id = Some c -> cr_RevokedAt c = None ->
     db_credentials (@credential_run demo_postgres before_promotion
       [demo_ensure id_rot id_sid2 demo_later; KActivate 1 2 (demo_later + Second)]) !! id' = Some c' ->
     cr_NodeID c' = cr_NodeID c -> cr_Version c' <= cr_Version c /\ (cr_RevokedAt c' = None -> id' = id))
  /\ map (fun kv => (kv.1, bool_decide (cr_RevokedAt kv.2 = None))) (map_to_list (db_credentials
       (@credential_run demo_postgres before_promotion
         [demo_ensure id_rot id_sid2 demo_later; KActivate 1 2 (demo_later + Second)])))
     = [(id_sid, false); (id_rot, true)].
Proof.
  split; [|vm_compute; reflexivity].
  exact (proj1 (@one_live_credential demo_postgres before_promotion
    [demo_ensure id_rot id_sid2 demo_later; KActivate 1 2 (demo_later + Second)] (proj1 before_promotion_credentials))).
Defined.

Definition demo_rotation : RotationRow :=
  {| ro_OperationID := id_sid2; ro_NodeID := 1; ro_Version := 2; ro_Ciphertext := append "sealed " id_rot;
     ro_ControllerGeneration := 4; ro_State := "pending"; ro_ExpiresAt := demo_later + 24 * Hour;
     ro_CreatedAt := demo_later; ro_ConfirmedAt := None |}.

Lemma activation_takes_over_witness : exists d',
  @ActivateAgentCredentialRotation demo_postgres 1 2 (demo_later + Second) rotating = (Ok 4, d')
  /\ @ListAgentAuthenticationCredentials demo_postgres 1 (demo_later + Minute) d' =
     Ok [{| aa_ID := id_rot; aa_Ciphertext := append "sealed " id_rot; aa_CredentialVersion := 2;
            aa_ControllerGeneration := 4; aa_Pending := false |}].
Proof.
  eexists. split; [vm_compute; reflexivity|].
  refine (proj1 (proj2 (@activation_takes_over demo_postgres rotating id_rot demo_rotation (demo_later + Second) 4 _
    rotating_wf _ _ _)) (demo_later + Minute) _ _); vm_compute; reflexivity.
Defined.

Lemma enrollment_token_single_use_witness : exists x d1 e,
  @EnrollAgent demo_postgres 0 (demo_enrollment demo_later) with_token = (Ok x, d1)
  /\ @EnrollAgent demo_postgres 0 (demo_enrollment (demo_later + Second)) (@credential_run demo_postgres d1 []) = (Fail e, d1).
Proof.
  assert (tokens_wf with_token) as Hwf
    by (apply (@credential_run_tokens demo_postgres), before_promotion_credentials).
  eexists _, _. destruct (@enrollment_token_single_use demo_postgres 0 (demo_enrollment demo_later) _ with_token _ [] 0
    (demo_enrollment (demo_later + Second)) Hwf ltac:(vm_compute; reflexivity) eq_refl) as [e He].
  exists e. split; [vm_compute; reflexivity|]. exact He.
Defined.

Lemma enrollment_strands_rotation_witness : exists x d1 e,
  @EnrollAgent demo_postgres 0 (demo_enrollment (demo_later + Second)) rotating = (Ok x, d1)
  /\ @ActivateAgentCredentialRotation demo_postgres 1 2 (demo_later + Minute) d1 = (Fail e, d1).
Proof.
  eexists _, _. destruct (@enrollment_strands_rotation demo_postgres 0 (demo_enrollment (demo_later + Second)) _ rotating _
    id_rot demo_rotation (demo_later + Minute) ltac:(vm_compute; reflexivity) ltac:(vm_compute; reflexivity)
    ltac:(reflexivity) ltac:(reflexivity) rotating_wf ltac:(reflexivity)) as [_ [e He]].
  exists e. split; [vm_compute; reflexivity|]. exact He.
Defined.

(** With an earlier rotation expired, the rotation offered before the enrollment is
    still activated after it, and the fresh credential is revoked. *)
Example rotation_displaces_enrollment :
  let now := demo_later + 25 * Hour in
  let d1 := @credential_run demo_postgres before_promotion
    [demo_ensure id_rot id_sid2 demo_later; demo_ensure id_rot2 id_op now; demo_token now] in
  let d2 := @credential_run demo_postgres d1 [KEnroll 0 (demo_enrollment (now + Second))] in
  let d3 := @credential_run demo_postgres d2 [KActivate 1 3 (now + Minute)] in
  @GetActiveAgentCredential demo_postgres (now + Second) 1 d2 = Ok (Some ("fresh"%string, 2, 4))
  /\ @GetActiveAgentCredential demo_postgres (now + Minute) 1 d3 = Ok (Some (append "sealed " id_rot2, 3, 4)).
Proof. vm_compute. split; reflexivity. Qed.
