(* ===== verification/AgentApi.v ===== *)
(** * The Agent API of the Controller

    src/internal/controller/middleware.go (authentication of Agent requests),
    agent.go (registration, the offer and the confirmation of a credential rotation)
    and commands.go (the command channel: enqueueing, leasing, acknowledging and
    finishing).  A handler answers with a status and a message or with its reply.

    The clock readings, random bytes and generated identifiers of a request are
    arguments; JSON decoding of request bodies is too.  Audit rows and the
    process-local admission gate are left out. *)

From Stdlib Require Import ZArith Lia Ascii String.
From stdpp Require Import base list gmap strings sorting.
From S2P Require Import Prelude GoStrings Sha256 Protocol Base64 RelayCrypto Secrets GoJson Schema Leases Handoffs Leadership Commands Rebuilds Credentials.
#[local] Open Scope Z_scope.

Inductive http (A : Type) : Type :=
| Reply (a : A)
| Rejected (status : Z) (message : string).
Arguments Reply {A} a.
Arguments Rejected {A} status message.

Definition maxAgentRequestBody : Z := 2 ^ 20.
Definition agentCommandLeaseTTL : duration := 45 * Second.
Definition agentCommandRunTTL : duration := 2 * Minute.
Definition agentCommandLegacyRunTTL : duration := 9 * Hour.
Definition agentCommandTTL : duration := 10 * Minute.
Definition minimumSelfUpdatingAgentVersion : string := "0.4.0".
Definition confirm_path : string := "/api/agent/credentials/confirm".
Definition heartbeat_path : string := "/api/agent/heartbeat".

Definition isUUID (value : string) : bool := validUUID value.

(** What the middleware puts into the context of a request. *)
Record AgentContext := {
  ac_NodeID : Z;
  ac_CredentialVersion : Z;
  ac_CredentialGeneration : Z;
  ac_Pending : bool;
  ac_PSK : string;
  ac_ActiveGeneration : Z
}.

Record AgentCredentialRotationOffer := {
  of_CredentialVersion : Z;
  of_ControllerGeneration : Z;
  of_EncryptedPSK : string;
  of_ExpiresAt : time
}.

Record NodeInfo := {
  ni_OS : string;
  ni_Arch : string;
  ni_DataRoot : string;
  ni_TavernVersion : string;
  ni_BaseURLGuess : string
}.

Definition NodeFingerprint (info : NodeInfo) : string :=
  sha256_hex (ni_OS info +:+ newline +:+ ni_Arch info +:+ newline +:+ ni_DataRoot info +:+ newline
              +:+ ni_TavernVersion info).

Record RegisterAgentRequest := {
  ra_Token : string;
  ra_Role : string;
  ra_Fingerprint : string;
  ra_Info : NodeInfo
}.

Record RegisterAgentResponse := {
  rr_NodeID : Z;
  rr_AgentPSK : string;
  rr_CredentialVersion : Z;
  rr_ControllerGeneration : Z
}.

(** ** Agent versions *)

Fixpoint split_dots (acc : bytes) (l : bytes) : list string :=
  match l with
  | [] => [of_bytes (rev acc)]
  | c :: l => if byte_val c =? 46 then of_bytes (rev acc) :: split_dots [] l else split_dots (c :: acc) l
  end.

Definition version_number (part : string) : option Z :=
  if String.eqb part "" || ((1 <? slen part) && is_char part 0 (byte_of 48)) then None
  else match parse_int64 part with
       | Some n => if (n <? 0) || (9999 <? n) then None else Some n
       | None => None
       end.

Definition parseControllerAgentVersion (value : string) : option (Z * Z * Z) :=
  if 32 <? slen value then None
  else match split_dots [] (bytes_of value) with
  | [a; b; c] =>
      match version_number a, version_number b, version_number c with
      | Some a, Some b, Some c => Some (a, b, c)
      | _, _, _ => None
      end
  | _ => None
  end.

(** The first component that differs decides. *)
Definition compare_components (l r : list Z) : Z :=
  foldr (fun '(a, b) rest => if a <? b then -1 else if b <? a then 1 else rest) 0 (zip l r).

Definition compareControllerAgentVersions (left right : string) : Z :=
  match parseControllerAgentVersion left with
  | None => -1
  | Some (l0, l1, l2) =>
      match parseControllerAgentVersion right with
      | None => 1
      | Some (r0, r1, r2) => compare_components [l0; l1; l2] [r0; r1; r2]
      end
  end.

Definition self_updating (n : Node) : bool :=
  match nd_AgentVersion n with
  | Some v => 0 <=? compareControllerAgentVersions v minimumSelfUpdatingAgentVersion
  | None => false
  end.

Section AgentApi.
Context `{Postgres} `{RelayPrimitives} (secretKey : bytes).

(** ** Authentication *)

(** The first credential whose secret verifies the request; [clock i] is the reading
    at the [i]-th attempt. *)
Fixpoint matchCredential (clock : nat -> time) (i : nat) (r : httpRequest)
  (credentials : list AgentAuthenticationCredential) : option (AgentAuthenticationCredential * string) :=
  match credentials with
  | [] => None
  | c :: rest =>
      match Decrypt secretKey (aa_Ciphertext c) with
      | Ok plaintext =>
          match VerifyRequest r (of_bytes plaintext) (clock i) with
          | Ok _ => Some (c, of_bytes plaintext)
          | Fail _ => matchCredential clock (S i) r rest
          end
      | Fail _ => matchCredential clock (S i) r rest
      end
  end.

(** [now]: the reading for the credentials, [db_clock]: the server's [now()] when the
    nonce is consumed. *)
Definition agentAuthMiddleware (now : time) (clock : nat -> time) (db_clock : time) (r : httpRequest) (d : DB)
  : http AgentContext * DB :=
  match parse_int64 (rq_AgentID r) with
  | None => (Rejected 401 "缺少或非法的 Agent ID", d)
  | Some agentID =>
  match db_nodes d !! agentID with
  | None => (Rejected 401 "未知节点", d)
  | Some _ =>
  if maxAgentRequestBody <? slen (rq_Body r) then (Rejected 400 "读取请求体失败", d)
  else match ListAgentAuthenticationCredentials agentID now d with
  | Fail _ => (Rejected 503 "节点认证暂不可用", d)
  | Ok credentials =>
  match matchCredential clock 0 r credentials with
  | None => (Rejected 401 "签名校验失败", d)
  | Some (matched, psk) =>
  if aa_Pending matched && negb (String.eqb (rq_Path r) confirm_path) then (Rejected 401 "签名校验失败", d)
  else match GetActiveControllerGeneration d with
  | Fail _ => (Rejected 503 "节点认证暂不可用", d)
  | Ok activeGeneration =>
  if negb (aa_ControllerGeneration matched =? activeGeneration)
     && (aa_Pending matched || (activeGeneration <? aa_ControllerGeneration matched)
         || negb (String.eqb (rq_Path r) heartbeat_path))
  then (Rejected 401 "节点凭据世代已失效", d)
  else match parse_int64 (rq_Timestamp r) with
  | None => (Rejected 401 "签名校验失败", d)
  | Some signedUnix =>
  let signedAt := of_unix signedUnix in
  match ConsumeAgentNonce db_clock agentID (rq_Nonce r) signedAt (signedAt + 2 * MaxClockSkew) d with
  | (Fail _, d) => (Rejected 503 "节点认证暂不可用", d)
  | (Ok false, d) => (Rejected 401 "请求签名已使用", d)
  | (Ok true, d) =>
      (Reply {| ac_NodeID := agentID; ac_CredentialVersion := aa_CredentialVersion matched;
                ac_CredentialGeneration := aa_ControllerGeneration matched; ac_Pending := aa_Pending matched;
                ac_PSK := psk; ac_ActiveGeneration := activeGeneration |}, d)
  end end end end end end end.

(** The secret commands of a node are sealed with; empty when it has none. *)
Definition agentPSK (clock : time) (nodeID : Z) (d : DB) : result string :=
  match GetActiveAgentCredential clock nodeID d with
  | Fail e => Fail e
  | Ok None => Ok ""
  | Ok (Some (ciphertext, _, _)) =>
      if slen ciphertext =? 0 then Ok ""
      else match Decrypt secretKey ciphertext with
           | Fail e => Fail e
           | Ok plaintext => Ok (of_bytes plaintext)
           end
  end.

(** ** Registration *)

(** Random bytes and identifiers: [None] is a failing source. *)
Definition handleAgentRegister (clock now : time) (rand_psk rand_seal : nat -> option bytes)
  (credentialID : option string) (decoded : option RegisterAgentRequest) (d : DB)
  : http RegisterAgentResponse * DB :=
  match decoded with
  | None => (Rejected 400 "请求格式错误", d)
  | Some req =>
  if String.eqb (ra_Token req) "" || String.eqb (ra_Fingerprint req) ""
     || negb (String.eqb (ra_Fingerprint req) (NodeFingerprint (ra_Info req)))
  then (Rejected 403 "注册令牌无效或已过期", d)
  else match RandomPassword rand_psk 48 with
  | Fail _ => (Rejected 500 "生成密钥失败", d)
  | Ok psk =>
  if negb (String.eqb (ra_Role req) "compute") && negb (String.eqb (ra_Role req) "storage")
  then (Rejected 403 "注册令牌与节点角色不匹配", d)
  else match credentialID with
  | None => (Rejected 500 "生成凭据失败", d)
  | Some credentialID =>
  match Encrypt rand_seal secretKey (bytes_of psk) with
  | Fail _ => (Rejected 500 "加密凭据失败", d)
  | Ok ciphertext =>
  match EnrollAgent clock
    {| ea_TokenHash := sha256 (ra_Token req); ea_PresentedRole := ra_Role req;
       ea_PresentedFingerprint := ra_Fingerprint req; ea_CredentialID := credentialID;
       ea_CredentialCiphertext := ciphertext; ea_AgentVersion := ni_OS (ra_Info req) +:+ "/" +:+ ni_Arch (ra_Info req);
       ea_TavernVersion := ni_TavernVersion (ra_Info req); ea_BaseURLGuess := ni_BaseURLGuess (ra_Info req);
       ea_Now := now |} d with
  | (Fail _, d) => (Rejected 403 "注册令牌无效或已过期", d)
  | (Ok e, d) =>
      (Reply {| rr_NodeID := ae_NodeID e; rr_AgentPSK := psk; rr_CredentialVersion := ae_CredentialVersion e;
                rr_ControllerGeneration := ae_Generation e |}, d)
  end end end end end.

(** ** Rotation *)

Definition agentCredentialRotationOffer (rand_psk rand_seal rand_wrap : nat -> option bytes)
  (rotationID operationID : option string) (nodeID : Z) (currentPSK : string) (controllerGeneration : Z)
  (now : time) (d : DB) : result (option AgentCredentialRotationOffer) * DB :=
  if String.eqb currentPSK "" || (controllerGeneration <=? 0) then (Fail ErrAgentCredentialRotation, d)
  else match RandomPassword rand_psk 48 with
  | Fail e => (Fail e, d)
  | Ok newPSK =>
  match Encrypt rand_seal secretKey (bytes_of newPSK) with
  | Fail e => (Fail e, d)
  | Ok ciphertext =>
  match rotationID, operationID with
  | Some rotationID, Some operationID =>
      match EnsureAgentCredentialRotation
        {| ep_ID := rotationID; ep_RotationOperationID := operationID; ep_NodeID := nodeID;
           ep_ProposedCiphertext := ciphertext; ep_ControllerGeneration := controllerGeneration;
           ep_Now := now; ep_ExpiresAt := now + 24 * Hour |} d with
      | (Fail e, d) => (Fail e, d)
      | (Ok None, d) => (Ok None, d)
      | (Ok (Some rotation), d) =>
          match Decrypt secretKey (ar_Ciphertext rotation) with
          | Fail e => (Fail e, d)
          | Ok plaintext =>
          match Encrypt rand_wrap (bytes_of (DeriveAgentCredentialRotationKey currentPSK)) plaintext with
          | Fail e => (Fail e, d)
          | Ok wrapped =>
              (Ok (Some {| of_CredentialVersion := ar_CredentialVersion rotation;
                           of_ControllerGeneration := ar_ControllerGeneration rotation;
                           of_EncryptedPSK := wrapped; of_ExpiresAt := ar_ExpiresAt rotation |}), d)
          end end
      end
  | _, _ => (Fail "uuid", d)
  end end end.

(** [decoded]: the credential version of the request body. *)
Definition handleAgentConfirmCredential (ctx : AgentContext) (decoded : option Z) (now : time) (d : DB)
  : http (Z * Z) * DB :=
  match decoded with
  | None => (Rejected 400 "凭据轮换确认无效", d)
  | Some version =>
      if (version <=? 0) || negb (version =? ac_CredentialVersion ctx)
      then (Rejected 400 "凭据轮换确认无效", d)
      else match ActivateAgentCredentialRotation (ac_NodeID ctx) version now d with
           | (Fail _, d) => (Rejected 409 "凭据轮换已失效，请等待重新协商", d)
           | (Ok generation, d) => (Reply (version, generation), d)
           end
  end.

(** ** What an accepted request shows *)

Lemma matchCredential_sound clock r cs : forall i c psk,
  matchCredential clock i r cs = Some (c, psk) ->
  c ∈ cs /\ Decrypt secretKey (aa_Ciphertext c) = Ok (bytes_of psk)
  /\ exists j, VerifyRequest r psk (clock j) = Ok tt.
Proof.
  induction cs as [|c0 cs IH]; intros i c psk; [done|]. cbn [matchCredential].
  destruct (Decrypt secretKey (aa_Ciphertext c0)) as [p|] eqn:Ed.
  - destruct (VerifyRequest r (of_bytes p) (clock i)) as [[]|] eqn:Ev.
    + intros [= <- <-]. split; [apply list_elem_of_here|]. split; [by rewrite bytes_of_bytes|by exists i].
    + intros Hm. destruct (IH _ _ _ Hm) as [Hin Hr]. split; [by apply list_elem_of_further|done].
  - intros Hm. destruct (IH _ _ _ Hm) as [Hin Hr]. split; [by apply list_elem_of_further|done].
Qed.

(** Where a credential that authenticates comes from. *)
Definition credential_source (nodeID : Z) (now : time) (d : DB) (c : AgentAuthenticationCredential) : Prop :=
  if aa_Pending c
  then exists row, db_rotations d !! aa_ID c = Some row /\ live_rotation nodeID now row = true
       /\ ro_Ciphertext row = aa_Ciphertext c /\ ro_Version row = aa_CredentialVersion c
       /\ ro_ControllerGeneration row = aa_ControllerGeneration c
  else exists row, db_credentials d !! aa_ID c = Some row /\ live_credential nodeID now row = true
       /\ cr_Ciphertext row = aa_Ciphertext c /\ cr_Version row = aa_CredentialVersion c
       /\ cr_ControllerGeneration row = aa_ControllerGeneration c.

Lemma listed_source nodeID now d cs c :
  ListAgentAuthenticationCredentials nodeID now d = Ok cs -> c ∈ cs -> credential_source nodeID now d c.
Proof.
  unfold ListAgentAuthenticationCredentials. destruct (_ || _); [done|]. intros [= <-] Hin.
  rewrite merge_sort_Permutation, elem_of_app in Hin. unfold credential_source.
  destruct Hin as [Hin|Hin]; apply list_elem_of_fmap in Hin as ([id row] & -> & Hr);
    apply rows_where_elem in Hr as [Hl Hp]; cbn; by eauto 10.
Qed.

Lemma ConsumeAgentNonce_fresh clock n nonce s e d d' :
  ConsumeAgentNonce clock n nonce s e d = (Ok true, d') ->
  db_nonces d !! (n, sha256 nonce) = None
  /\ db_nonces d' !! (n, sha256 nonce) = Some {| no_SignedAt := ts s; no_ExpiresAt := ts e |}
  /\ d' = set_nonces (db_nonces d') d.
Proof.
  unfold ConsumeAgentNonce. destruct (_ || _ || _ || _); [done|]. destruct (bool_decide _) eqn:Eb; [done|].
  destruct (_ || _); [done|]. intros [= <-]. b2p. split; [by apply eq_None_not_Some|].
  cbn -[sha256]. by rewrite lookup_insert_eq.
Qed.

(** All that acceptance by the middleware says. *)
Lemma middleware_accepts now clock db_clock r d ctx d' :
  agentAuthMiddleware now clock db_clock r d = (Reply ctx, d') ->
  exists c signedUnix,
    parse_int64 (rq_AgentID r) = Some (ac_NodeID ctx) /\ parse_int64 (rq_Timestamp r) = Some signedUnix
    /\ Decrypt secretKey (aa_Ciphertext c) = Ok (bytes_of (ac_PSK ctx))
    /\ (exists j, VerifyRequest r (ac_PSK ctx) (clock j) = Ok tt)
    /\ credential_source (ac_NodeID ctx) now d c
    /\ aa_CredentialVersion c = ac_CredentialVersion ctx /\ aa_ControllerGeneration c = ac_CredentialGeneration ctx
    /\ aa_Pending c = ac_Pending ctx /\ active_generation d = Some (ac_ActiveGeneration ctx)
    /\ (ac_Pending ctx = true -> rq_Path r = confirm_path /\ ac_CredentialGeneration ctx = ac_ActiveGeneration ctx)
    /\ (ac_CredentialGeneration ctx = ac_ActiveGeneration ctx
        \/ ac_CredentialGeneration ctx < ac_ActiveGeneration ctx /\ rq_Path r = heartbeat_path)
    /\ ConsumeAgentNonce db_clock (ac_NodeID ctx) (rq_Nonce r) (of_unix signedUnix)
         (of_unix signedUnix + 2 * MaxClockSkew) d = (Ok true, d').
Proof.
  unfold agentAuthMiddleware. destruct (parse_int64 (rq_AgentID r)) as [n|] eqn:En; [|done].
  destruct (db_nodes d !! n) eqn:Hn; [|done]. destruct (_ <? slen _); [done|].
  destruct (ListAgentAuthenticationCredentials n now d) as [cs|] eqn:El; [|done].
  destruct (matchCredential clock 0 r cs) as [[c psk]|] eqn:Em; [|done].
  destruct (aa_Pending c && _) eqn:Ep; [done|].
  unfold GetActiveControllerGeneration. destruct (active_generation d) as [g|] eqn:Eg; [|done].
  destruct (negb _ && _) eqn:Eb; [done|]. destruct (parse_int64 (rq_Timestamp r)) as [su|] eqn:Et; [|done].
  destruct (ConsumeAgentNonce _ _ _ _ _ _) as [[[]|] d2] eqn:Ec; [|done|done]. intros [= <- <-].
  destruct (matchCredential_sound _ _ _ _ _ _ Em) as (Hin & Hd & Hv).
  exists c, su. cbn [ac_NodeID ac_CredentialVersion ac_CredentialGeneration ac_Pending ac_PSK ac_ActiveGeneration].
  assert (aa_ControllerGeneration c = g \/ aa_Pending c = false /\ aa_ControllerGeneration c < g /\ rq_Path r = heartbeat_path)
    as Hg.
  { destruct (Z.eqb_spec (aa_ControllerGeneration c) g) as [|Hne]; [by left|]. right. cbn in Eb. b2p. split; [done|].
    split; [lia|done]. }
  split_and!; try done; [by eapply listed_source|..].
  - intros Hp. rewrite Hp in Ep. cbn in Ep. b2p. split; [done|]. destruct Hg as [|(Hf & _)]; [done|congruence].
  - tauto.
Qed.

(** ** Theorems *)

(** C14: An accepted Agent request is signed with a secret the Controller holds for
    that node: the current credential - which, if it is of an earlier generation, only
    opens the heartbeat - or the pending rotation of the active generation, which only
    opens the confirmation.  Revoked and expired credentials open nothing, and
    acceptance writes nothing but the nonce. *)
Theorem agent_request_authentic now clock db_clock r d ctx d' (n := ac_NodeID ctx) :
  agentAuthMiddleware now clock db_clock r d = (Reply ctx, d') ->
  parse_int64 (rq_AgentID r) = Some n
  /\ (exists j, VerifyRequest r (ac_PSK ctx) (clock j) = Ok tt)
  /\ active_generation d = Some (ac_ActiveGeneration ctx)
  /\ d' = set_nonces (db_nonces d') d
  /\ if ac_Pending ctx
     then rq_Path r = confirm_path
       /\ exists id row, db_rotations d !! id = Some row /\ ro_NodeID row = n /\ ro_State row = "pending"
          /\ ts now < ro_ExpiresAt row /\ ro_Version row = ac_CredentialVersion ctx
          /\ ro_ControllerGeneration row = ac_ActiveGeneration ctx
          /\ Decrypt secretKey (ro_Ciphertext row) = Ok (bytes_of (ac_PSK ctx))
     else exists id row, db_credentials d !! id = Some row /\ cr_NodeID row = n /\ cr_RevokedAt row = None
          /\ (forall e, cr_ExpiresAt row = Some e -> ts now < e) /\ cr_Version row = ac_CredentialVersion ctx
          /\ Decrypt secretKey (cr_Ciphertext row) = Ok (bytes_of (ac_PSK ctx))
          /\ (cr_ControllerGeneration row = ac_ActiveGeneration ctx
              \/ cr_ControllerGeneration row < ac_ActiveGeneration ctx /\ rq_Path r = heartbeat_path).
Proof.
  intros (c & su & Hid & _ & Hd & Hv & Hs & Ev & Eg & Ep & Ha & Hp & Hg & Hc)%middleware_accepts.
  apply ConsumeAgentNonce_fresh in Hc as (_ & _ & Hset). do 4 (split; [done|]).
  unfold credential_source in Hs. rewrite Ep in Hs.
  destruct (ac_Pending ctx).
  - destruct (Hp eq_refl) as [Hpath Hgen]. split; [done|]. destruct Hs as (row & Hl & Hlive & Ec & Evr & Egr).
    unfold live_rotation in Hlive. rewrite Z.gtb_ltb in Hlive. b2p. exists (aa_ID c), row.
    split_and!; try done; try congruence.
  - destruct Hs as (row & Hl & Hlive & Ec & Evr & Egr). unfold live_credential in Hlive. b2p.
    exists (aa_ID c), row. split_and!; try done; try congruence.
    intros e He. rewrite He, Z.gtb_ltb in *. by b2p.
Qed.

(** C15: A request is accepted once.  After it was, the same Agent id, timestamp and
    nonce are rejected - whatever happened to credentials and nonces in between - as
    long as the database's clock does not run backwards and is less than a minute
    ahead of the Controller's. *)
Theorem replay_rejected now clock db_clock r d ctx d1 evs now' clock' db_clock' r' (d2 := credential_run d1 evs) :
  agentAuthMiddleware now clock db_clock r d = (Reply ctx, d1) ->
  rq_AgentID r' = rq_AgentID r -> rq_Timestamp r' = rq_Timestamp r -> rq_Nonce r' = rq_Nonce r ->
  Forall (fun ev => forall c n nonce s e, ev = KUse c n nonce s e -> ts c <= ts db_clock') evs ->
  (forall j, ts db_clock' < ts (clock' j + MaxClockSkew)) ->
  exists status message, (agentAuthMiddleware now' clock' db_clock' r' d2).1 = Rejected status message.
Proof.
  intros Hacc Eid Et En Hmono Hdrift.
  apply middleware_accepts in Hacc as (c & su & Hid & Htime & _ & _ & _ & _ & _ & _ & _ & _ & _ & Hc).
  apply ConsumeAgentNonce_fresh in Hc as (_ & Hl & _).
  destruct (agentAuthMiddleware now' clock' db_clock' r' d2) as [[ctx'|st m] d3] eqn:E2; [|by exists st, m]. exfalso.
  apply middleware_accepts in E2 as (c2 & su2 & Hid2 & Htime2 & _ & [j Hv] & _ & _ & _ & _ & _ & _ & _ & Hc2).
  apply ConsumeAgentNonce_fresh in Hc2 as (Hnone & _ & _).
  rewrite Eid, Hid in Hid2. rewrite Et, Htime in Htime2. injection Hid2 as Hid2. injection Htime2 as <-.
  apply VerifyRequest_ok in Hv as ((su2 & Htime2 & Hskew) & _). rewrite Et, Htime in Htime2. injection Htime2 as <-.
  assert (ts db_clock' < ts (of_unix su + 2 * MaxClockSkew)) as Hlate.
  { eapply Z.lt_le_trans; [apply (Hdrift j)|]. apply ts_mono. unfold time_sub, MaxClockSkew, Second, MinInt64, MaxInt64 in *. lia. }
  unfold d2 in Hnone. rewrite <- Hid2, En in Hnone. rewrite (nonce_kept_run evs _ _ d1 Hl) in Hnone by
    (eapply Forall_impl; [exact Hmono|]; intros [] Hev; cbn; try done; specialize (Hev _ _ _ _ _ eq_refl); lia).
  done.
Qed.

(** ** Handing over a new secret *)

(** What an Agent does with an offer before it confirms it. *)
Definition unwrapped (currentPSK : string) (offer : AgentCredentialRotationOffer) : result bytes :=
  Decrypt (bytes_of (DeriveAgentCredentialRotationKey currentPSK)) (of_EncryptedPSK offer).

Lemma offer_stored `{!RelayLaws} rand_psk rand_seal rand_wrap rotationID operationID n currentPSK g now d offer d1 :
  honest rand_wrap ->
  agentCredentialRotationOffer rand_psk rand_seal rand_wrap rotationID operationID n currentPSK g now d
    = (Ok (Some offer), d1) ->
  exists id row secret, unwrapped currentPSK offer = Ok secret /\ Decrypt secretKey (ro_Ciphertext row) = Ok secret
    /\ db_rotations d1 !! id = Some row /\ ro_NodeID row = n /\ ro_State row = "pending"
    /\ ro_Version row = of_CredentialVersion offer /\ ro_ControllerGeneration row = of_ControllerGeneration offer
    /\ active_generation d1 = Some (of_ControllerGeneration offer) /\ 0 < of_ControllerGeneration offer
    /\ is_Some (db_nodes d1 !! n) /\ 0 < n
    /\ d1 = (EnsureAgentCredentialRotation
         {| ep_ID := default "" rotationID; ep_RotationOperationID := default "" operationID; ep_NodeID := n;
            ep_ProposedCiphertext := match RandomPassword rand_psk 48 with
              | Ok psk => match Encrypt rand_seal secretKey (bytes_of psk) with Ok c => c | Fail _ => ""%string end
              | Fail _ => ""%string end;
            ep_ControllerGeneration := g; ep_Now := now; ep_ExpiresAt := now + 24 * Hour |} d).2.
Proof.
  intros Hrand. unfold agentCredentialRotationOffer. destruct (_ || _); [done|].
  destruct (RandomPassword rand_psk 48) as [psk|]; [|done].
  destruct (Encrypt rand_seal secretKey (bytes_of psk)) as [ct|]; [|done].
  destruct rotationID as [rid|]; [|done]. destruct operationID as [oid|]; [|done]. cbn [default].
  destruct (EnsureAgentCredentialRotation _ d) as [[[rot|]|] d2] eqn:Ee; [|done|done].
  destruct (Decrypt secretKey (ar_Ciphertext rot)) as [plain|] eqn:Ed; [|done].
  destruct (Encrypt rand_wrap _ plain) as [wrapped|] eqn:Ew; [|done]. intros [= <- <-].
  apply Ensure_offers in Ee as (id & row & Hl & Hn & Hst & Hv & Hc & Hg & Ha & Hg0 & En & Hnode & Hn0).
  exists id, row, plain. cbn [of_EncryptedPSK of_CredentialVersion of_ControllerGeneration ep_NodeID] in *.
  split_and!; try done; [|by rewrite Hc|by rewrite En]. by apply (Decrypt_Encrypt rand_wrap).
Qed.

(** A rotation completes.  The Agent that unwraps the offer with its current secret
    has the secret the Controller stored; a confirmation signed with it is accepted as
    the pending credential (unless a newer credential of the node was issued), and
    activates it: from then on it is the only secret that authenticates the node. *)
Lemma offer_confirmed `{!RelayLaws} rand_psk rand_seal rand_wrap rotationID operationID n currentPSK g now d offer d1 :
  honest rand_wrap -> credentials_wf d ->
  agentCredentialRotationOffer rand_psk rand_seal rand_wrap rotationID operationID n currentPSK g now d
    = (Ok (Some offer), d1) ->
  exists id row secret, unwrapped currentPSK offer = Ok secret /\ db_rotations d1 !! id = Some row /\
  forall t clock db_clock r,
    newer_than_all d1 n (of_CredentialVersion offer) -> db_credentials d1 !! id = None ->
    parse_int64 (rq_AgentID r) = Some n -> rq_Path r = confirm_path -> slen (rq_Body r) <= maxAgentRequestBody ->
    VerifyRequest r (of_bytes secret) (clock 0%nat) = Ok tt ->
    ts t < ro_ExpiresAt row -> is_zero t = false ->
    (forall su, parse_int64 (rq_Timestamp r) = Some su ->
       (ConsumeAgentNonce db_clock n (rq_Nonce r) (of_unix su) (of_unix su + 2 * MaxClockSkew) d1).1 = Ok true) ->
    exists ctx d2, agentAuthMiddleware t clock db_clock r d1 = (Reply ctx, d2)
      /\ ac_Pending ctx = true /\ ac_CredentialVersion ctx = of_CredentialVersion offer
      /\ forall t', t' < ro_ExpiresAt row -> is_zero t' = false ->
         exists d3, handleAgentConfirmCredential ctx (Some (of_CredentialVersion offer)) t' d2
                    = (Reply (of_CredentialVersion offer, of_ControllerGeneration offer), d3)
           /\ forall u, is_zero u = false -> exists c, ListAgentAuthenticationCredentials n u d3 = Ok [c]
                /\ Decrypt secretKey (aa_Ciphertext c) = Ok secret.
Proof.
  intros Hrand Hwf Hoff. apply (offer_stored _ _ _ _ _ _ _ _ _ _ _ _ Hrand) in Hoff
    as (id & row & secret & Hun & Hdec & Hl & Hn & Hst & Hv & Hrg & Ha & Hg0 & Hnode & Hn0 & Hd1).
  assert (credentials_wf d1) as Hwf1 by (rewrite Hd1; exact (proj1 (credential_effect_wf (KEnsure _) d Hwf))).
  exists id, row, secret. split; [done|]. split; [done|]. subst n.
  intros t clock db_clock r Hnew Hfresh Hid Hpath Hbody Hver Hexp Hz Hnonce.
  assert (exists su, parse_int64 (rq_Timestamp r) = Some su) as [su Hsu]
    by (apply VerifyRequest_ok in Hver as ((su & ? & _) & _); by exists su).
  specialize (Hnonce _ Hsu). rewrite <- Hv in Hnew.
  assert (live_rotation (ro_NodeID row) t row = true) as Hlive.
  { unfold live_rotation. rewrite Z.eqb_refl, Hst, Z.gtb_ltb. by apply Z.ltb_lt. }
  destruct (pending_listed_first _ _ _ _ Hwf1 Hl Hlive Hnew Hn0 Hz) as [rest Hlist].
  destruct (ConsumeAgentNonce _ _ _ _ _ d1) as [rn d2] eqn:Ec. cbn in Hnonce. subst rn.
  exists {| ac_NodeID := ro_NodeID row; ac_CredentialVersion := ro_Version row;
            ac_CredentialGeneration := of_ControllerGeneration offer; ac_Pending := true;
            ac_PSK := of_bytes secret; ac_ActiveGeneration := of_ControllerGeneration offer |}, d2.
  split; [|cbn [ac_Pending ac_CredentialVersion]; split; [reflexivity|split; [exact Hv|]]].
  - unfold agentAuthMiddleware. rewrite Hid. destruct Hnode as [nd ->].
    destruct (Z.ltb_spec maxAgentRequestBody (slen (rq_Body r))); [lia|]. rewrite Hlist.
    cbn [matchCredential aa_Ciphertext]. rewrite Hdec, Hver. cbn [aa_Pending aa_ControllerGeneration andb].
    rewrite Hpath, String.eqb_refl. cbn [negb]. unfold GetActiveControllerGeneration. rewrite Ha, Hrg, Z.eqb_refl. cbn [negb andb].
    rewrite Hsu, Ec. reflexivity.
  - apply ConsumeAgentNonce_fresh in Ec as (_ & _ & Hd2).
    assert (exists nn, d2 = set_nonces nn d1) as [nn ->] by (by eexists). clear Hd2.
    intros t' Hexp' Hz'. assert (credentials_wf (set_nonces nn d1)) as Hwf2
      by (apply (wf_frame d1); [done|by apply no_new_pending_eq|done]).
    destruct (Activate_succeeds (set_nonces nn d1) id row t' (of_ControllerGeneration offer)) as [d3 Hact]; try done.
    exists d3. split.
    + unfold handleAgentConfirmCredential. cbn [ac_CredentialVersion ac_NodeID].
      pose proof (rwf_positive _ Hwf1 _ _ Hl). rewrite <- Hv. destruct (Z.leb_spec (ro_Version row) 0); [lia|].
      rewrite Z.eqb_refl. cbn [negb orb]. by rewrite Hact.
    + intros u Hu. eexists. split; [by apply (activated_list (set_nonces nn d1) id row t')|]. done.
Qed.

End AgentApi.

(** ** Concrete runs *)

Definition sealed_with (key : bytes) (secret : string) : string :=
  match @Encrypt lawful_primitives demo_rand key (bytes_of secret) with Ok c => c | Fail _ => "" end.

(** Node 1 with a sealed credential whose rotation is due. *)
Definition guarded_db : DB :=
  set_credentials {[ id_sid :=
    {| cr_NodeID := 1; cr_Version := 1; cr_Ciphertext := sealed_with demo_key "current secret";
       cr_ControllerGeneration := 4; cr_ExpiresAt := None; cr_RevokedAt := None; cr_CreatedAt := store_now |} ]} demo_db.

Definition later_unix : Z := 1700000000 + 31 * 86400.
Definition signed (path secret : string) (unix_now : Z) : httpRequest :=
  SignRequest {| rq_Method := "POST"; rq_Path := path; rq_AgentID := ""; rq_Timestamp := ""; rq_Nonce := "";
                 rq_Signature := ""; rq_Body := "{}" |} 1 secret unix_now "0123456789abcdef".
Definition demo_clock (_ : nat) : time := demo_later + Second.
#[local] Notation authenticate := (@agentAuthMiddleware demo_postgres lawful_primitives demo_key).

Lemma guarded_wf : credentials_wf guarded_db.
Proof.
  constructor; cbn; try (intros ??; intros; exfalso; by match goal with H : (∅ : gmap _ _) !! _ = Some _ |- _ => rewrite lookup_empty in H end).
  - intros id c id' c' [<- <-]%lookup_singleton_Some _ [<- <-]%lookup_singleton_Some. lia.
  - intros id c id' c' [<- <-]%lookup_singleton_Some [<- <-]%lookup_singleton_Some. done.
Qed.

(** The same secret opens a heartbeat, a wrong one nothing, and the second use of a
    nonce is refused. *)
Example authentication :
  (authenticate demo_later demo_clock demo_later (signed heartbeat_path "wrong secret" later_unix) guarded_db).1
    = Rejected 401 "签名校验失败"
  /\ (authenticate demo_later demo_clock demo_later (signed heartbeat_path "current secret" (later_unix - 120)) guarded_db).1
    = Rejected 401 "签名校验失败"
  /\ (authenticate demo_later demo_clock demo_later (signed heartbeat_path "current secret" later_unix)
        (authenticate demo_later demo_clock demo_later (signed heartbeat_path "current secret" later_unix) guarded_db).2).1
    = Rejected 401 "请求签名已使用".
Proof. vm_compute. auto. Qed.

Definition demo_heartbeat : httpRequest := signed heartbeat_path "current secret" later_unix.
#[local] Notation accepted := (authenticate demo_later demo_clock demo_later demo_heartbeat guarded_db).
Definition demo_after : DB := accepted.2.
Definition demo_ctx : AgentContext :=
  {| ac_NodeID := 1; ac_CredentialVersion := 1; ac_CredentialGeneration := 4; ac_Pending := false;
     ac_PSK := "current secret"; ac_ActiveGeneration := 4 |}.

Lemma demo_accepted_eq : accepted = (Reply demo_ctx, demo_after).
Proof. vm_compute. reflexivity. Qed.

Lemma agent_request_authentic_witness :
  accepted = (Reply demo_ctx, demo_after)
  /\ demo_after = set_nonces (db_nonces demo_after) guarded_db
  /\ exists id row, db_credentials guarded_db !! id = Some row /\ cr_NodeID row = 1 /\ cr_RevokedAt row = None.
Proof.
  destruct (@agent_request_authentic demo_postgres lawful_primitives demo_key demo_later demo_clock demo_later
    demo_heartbeat guarded_db demo_ctx demo_after demo_accepted_eq)
    as (_ & _ & _ & Hd & id & row & Hl & Hn & Hr & _).
  split; [apply demo_accepted_eq|]. split; [exact Hd|]. exists id, row. exact (conj Hl (conj Hn Hr)).
Defined.

Lemma replay_rejected_witness : exists status message,
  (authenticate demo_later demo_clock (demo_later + Minute) demo_heartbeat
     (@credential_run demo_postgres demo_after
        [KUse (demo_later + Second) 1 "other" demo_later (demo_later + Hour)])).1
  = Rejected status message.
Proof.
  apply (@replay_rejected demo_postgres lawful_primitives demo_key demo_later demo_clock demo_later
    demo_heartbeat guarded_db demo_ctx demo_after
    [KUse (demo_later + Second) 1 "other" demo_later (demo_later + Hour)] demo_later demo_clock (demo_later + Minute)
    demo_heartbeat demo_accepted_eq eq_refl eq_refl eq_refl).
  - apply Forall_singleton. intros c n nonce s e [= <- _ _ _ _]. vm_compute. discriminate.
  - intros j. vm_compute. reflexivity.
Defined.

#[local] Notation demo_offer := (@agentCredentialRotationOffer demo_postgres lawful_primitives demo_key demo_rand demo_rand demo_rand
  (Some id_rot) (Some id_op) 1 "current secret" 4 demo_later guarded_db).
Definition demo_offered : DB := demo_offer.2.
Definition demo_secret : string := match RandomPassword demo_rand 48 with Ok pw => pw | Fail _ => "" end.
Definition demo_wrapped : AgentCredentialRotationOffer :=
  {| of_CredentialVersion := 2; of_ControllerGeneration := 4;
     of_EncryptedPSK := sealed_with (bytes_of (DeriveAgentCredentialRotationKey "current secret")) demo_secret;
     of_ExpiresAt := demo_later + 24 * Hour |}.

Lemma demo_offer_eq : demo_offer = (Ok (Some demo_wrapped), demo_offered).
Proof. vm_compute. reflexivity. Qed.

Lemma demo_unwraps : @unwrapped lawful_primitives "current secret" demo_wrapped = Ok (bytes_of demo_secret).
Proof. vm_compute. reflexivity. Qed.

(** The rotations and credentials the offer leaves. *)
Lemma demo_offer_rows :
  (forall id row, db_rotations demo_offered !! id = Some row ->
     id = id_rot /\ ro_ExpiresAt row = demo_later + 24 * Hour)
  /\ db_credentials demo_offered = db_credentials guarded_db.
Proof.
  split; [|vm_compute; reflexivity]. intros id row Hl. apply elem_of_map_to_list in Hl.
  assert (map_to_list (db_rotations demo_offered) = [(id_rot,
    {| ro_OperationID := id_op; ro_NodeID := 1; ro_Version := 2; ro_Ciphertext := sealed_with demo_key demo_secret;
       ro_ControllerGeneration := 4; ro_State := "pending"; ro_ExpiresAt := demo_later + 24 * Hour;
       ro_CreatedAt := demo_later; ro_ConfirmedAt := None |})]) as E by (vm_compute; reflexivity).
  rewrite E in Hl. apply list_elem_of_singleton in Hl. injection Hl as -> ->. split; reflexivity.
Qed.
