(* ===== verification/Handover.v ===== *)
(** * Handing a credential over to the Agent

    src/internal/agent/heartbeat.go, acceptControllerCredentialRotation and
    resumeControllerCredentialRotation: the Agent checks and unwraps an offer, keeps
    it as its pending credential and confirms it with a request signed by it; joined
    with the Controller's side of the exchange (AgentApi). *)

From Stdlib Require Import ZArith Lia Ascii String.
From stdpp Require Import base list gmap strings pretty.
From S2P Require Import Prelude GoStrings Sha256 AgentState Protocol Base64 RelayCrypto Secrets ControlMode RuntimeState Schema Leases Handoffs Leadership Commands Rebuilds Credentials AgentApi.
#[local] Open Scope Z_scope.

(** What the confirmation request came back with: no answer, or a status and the body
    if it decodes: whether it is positive, the version and the generation. *)
Inductive confirm_reply :=
| NoAnswer
| Answered (status : Z) (body : option (bool * Z * Z)).

(** The outcome of a save and of rewriting the configuration file. *)
Record saves := { sv_state : bool; sv_config : bool }.

Section Handover.
Context `{RelayPrimitives}.

Definition resumeControllerCredentialRotation (s : saves) (now : time) (reply : confirm_reply) (a : Agent)
  : result unit * Agent :=
  let credential := rs_Credential (ag_state a) in
  if String.eqb (cr_PendingPSK credential) "" then (Ok tt, a)
  else if negb (after (cr_PendingExpiresAt credential) now)
  then clearPendingControllerCredential (sv_state s) (cr_PendingVersion credential) a
  else match reply with
  | NoAnswer => (Fail "credential confirmation", a)
  | Answered status body =>
      if (status =? 409) || (status =? 410)
      then clearPendingControllerCredential (sv_state s) (cr_PendingVersion credential) a
      else if negb (status =? 200) then (Fail "credential confirmation returned status", a)
      else match body with
      | Some (true, version, generation) =>
          if negb (version =? cr_PendingVersion credential) || negb (generation =? cr_PendingGeneration credential)
          then (Fail "invalid credential confirmation response", a)
          else activatePendingControllerCredential (sv_state s) (sv_config s) version generation a
      | _ => (Fail "invalid credential confirmation response", a)
      end
  end.

(** [now]: the readings of the checks, of the save and of the confirmation. *)
Definition acceptControllerCredentialRotation (s s' : saves) (now now' now'' : time) (generation : Z)
  (offer : option AgentCredentialRotationOffer) (reply : confirm_reply) (a : Agent) : result unit * Agent :=
  match offer with
  | None => (Ok tt, a)
  | Some offer =>
  let '(currentPSK, currentVersion) := controllerCredential a in
  if (of_CredentialVersion offer <=? currentVersion) || negb (of_ControllerGeneration offer =? generation)
     || (of_ControllerGeneration offer <=? 0) || negb (after (of_ExpiresAt offer) now)
     || after (of_ExpiresAt offer) (now + 25 * Hour) || String.eqb (of_EncryptedPSK offer) ""
  then (Fail "invalid controller credential rotation offer", a)
  else match unwrapped currentPSK offer with
  | Fail _ => (Fail "decrypt controller credential rotation offer", a)
  | Ok plaintext =>
      if (length plaintext <? 32)%nat || (128 <? length plaintext)%nat
      then (Fail "decrypt controller credential rotation offer", a)
      else match persistPendingControllerCredential (sv_state s) now' (of_bytes plaintext)
                   (of_CredentialVersion offer) (of_ControllerGeneration offer) (of_ExpiresAt offer) a with
      | (Fail e, a) => (Fail e, a)
      | (Ok _, a) => resumeControllerCredentialRotation s' now'' reply a
      end
  end end.

(** The credential part of one heartbeat: the pending credential is confirmed first;
    if the heartbeat was answered the offer in the answer is taken. *)
Record rotation_round := {
  rr_saves : saves;
  rr_now : time;
  rr_reply : confirm_reply;
  rr_generation : Z;
  rr_offer : option AgentCredentialRotationOffer;
  rr_offer_reply : confirm_reply
}.

Definition do_round (r : rotation_round) (a : Agent) : Agent :=
  let a := (resumeControllerCredentialRotation (rr_saves r) (rr_now r) (rr_reply r) a).2 in
  (acceptControllerCredentialRotation (rr_saves r) (rr_saves r) (rr_now r) (rr_now r) (rr_now r) (rr_generation r)
     (rr_offer r) (rr_offer_reply r) a).2.

Definition do_rounds (rs : list rotation_round) (a : Agent) : Agent := foldl (fun a r => do_round r a) a rs.

(** ** Both ends *)

Context `{Postgres} (secretKey : bytes).

(** The confirmation request of an Agent through the Controller's middleware and
    handler. *)
Definition confirm_exchange (now : time) (clock : nat -> time) (db_clock : time) (r : httpRequest) (version : Z) (d : DB)
  : confirm_reply * DB :=
  match agentAuthMiddleware secretKey now clock db_clock r d with
  | (Rejected status _, d) => (Answered status None, d)
  | (Reply ctx, d) =>
      match handleAgentConfirmCredential ctx (Some version) now d with
      | (Rejected status _, d) => (Answered status None, d)
      | (Reply (version, generation), d) => (Answered 200 (Some (true, version, generation)), d)
      end
  end.

(** ** The Agent's side *)

#[local] Notation saved := {| sv_state := true; sv_config := true |}.

Lemma agent_activates (a : Agent) psk v g (c := rs_Credential (ag_state a)) :
  cr_PendingPSK c = psk -> psk <> "" -> cr_PendingVersion c = v -> cr_PendingGeneration c = g ->
  exists a', activatePendingControllerCredential true true v g a = (Ok tt, a')
    /\ controllerCredential a' = (psk, v) /\ cr_PendingPSK (rs_Credential (ag_state a')) = "".
Proof.
  intros Hp Hne Hv Hg. unfold activatePendingControllerCredential. fold c.
  rewrite Hp, Hv, Hg, !Z.eqb_refl, (proj2 (String.eqb_neq _ _) Hne). cbn [negb orb saveRuntimeStateLocked].
  eexists. split; [reflexivity|]. unfold controllerCredential. cbn. rewrite raise_credential. cbn.
  by rewrite (proj2 (String.eqb_neq _ _) Hne).
Qed.

Lemma agent_accepts (a : Agent) offer psk cv secret t (c := rs_Credential (ag_state a)) :
  controllerCredential a = (psk, cv) -> cv < of_CredentialVersion offer ->
  cr_CurrentVersion c < of_CredentialVersion offer -> 0 < of_CredentialVersion offer -> cr_PendingPSK c = "" ->
  0 < of_ControllerGeneration offer -> unwrapped psk offer = Ok secret -> (32 <= length secret <= 128)%nat ->
  of_EncryptedPSK offer <> "" -> t < of_ExpiresAt offer <= t + 25 * Hour ->
  exists a', acceptControllerCredentialRotation saved saved t t t (of_ControllerGeneration offer) (Some offer)
      (Answered 200 (Some (true, of_CredentialVersion offer, of_ControllerGeneration offer))) a = (Ok tt, a')
    /\ controllerCredential a' = (of_bytes secret, of_CredentialVersion offer)
    /\ cr_PendingPSK (rs_Credential (ag_state a')) = "".
Proof.
  intros Hcur Hcv Hstate Hpos Hpend Hg0 Hun Hlen Hne Hwin.
  assert (of_bytes secret <> "") as Hsec.
  { intros E. apply (f_equal bytes_of) in E. rewrite bytes_of_bytes in E. cbn in E. subst secret. cbn in Hlen. lia. }
  unfold acceptControllerCredentialRotation. rewrite Hcur, Z.eqb_refl, Hun. unfold after.
  rewrite (proj2 (Z.leb_gt _ _) Hcv), (proj2 (Z.leb_gt _ _) Hg0), (proj2 (Z.ltb_lt _ _) (proj1 Hwin)),
    (proj2 (Z.ltb_ge _ _) (proj2 Hwin)), (proj2 (String.eqb_neq _ _) Hne). cbn [negb orb].
  rewrite (proj2 (Nat.ltb_ge _ _) (proj1 Hlen)), (proj2 (Nat.ltb_ge _ _) (proj2 Hlen)). cbn [orb].
  unfold persistPendingControllerCredential. fold c. rewrite (proj2 (String.eqb_neq _ _) Hsec), Hpend. unfold after.
  rewrite (proj2 (Z.ltb_lt _ _) (proj1 Hwin)), (proj2 (Z.leb_gt _ _) Hpos), (proj2 (Z.leb_gt _ _) Hg0),
    (proj2 (Z.leb_gt _ _) Hstate). cbn [orb negb andb sv_state saveRuntimeStateLocked String.eqb].
  unfold resumeControllerCredentialRotation. cbn [ag_state with_state with_disk rs_Credential with_Credential with_pending
    cr_PendingPSK cr_PendingExpiresAt cr_PendingVersion cr_PendingGeneration].
  rewrite (proj2 (String.eqb_neq _ _) Hsec). unfold after. rewrite (proj2 (Z.ltb_lt _ _) (proj1 Hwin)), !Z.eqb_refl.
  cbn [negb orb]. change (_ || (200 =? 410)) with false. cbn [negb]. by apply agent_activates.
Qed.

(** ** Theorems *)

(** C18: A rotation that nothing disturbs leaves both ends with the same secret.  Let the
    Controller have made an offer to a node whose Agent authenticates with the secret the
    offer is wrapped with, holds no pending credential and has only older versions; let
    the unwrapped secret have 32 to 128 bytes, the offer and its row be in time (at most
    25 hours), no credential of the node have its version or its id; let every save
    of the Agent succeed and its confirmation arrive as a well-formed request signed
    with the new secret and with a fresh nonce.  Then the Agent takes the offer, the
    confirmation is accepted, nothing is pending afterwards, and the Agent authenticates
    with exactly the secret that is the only one the Controller accepts from the node.
    The conditions matter: an Agent with a pending credential that the Controller revoked
    takes no offer ([stale_pending_blocks_rotation]). *)
Theorem handover_agrees `{!RelayLaws} rand_psk rand_seal rand_wrap rotationID operationID n currentPSK g now d offer d1
  (a : Agent) cv (c := rs_Credential (ag_state a)) :
  honest rand_wrap -> credentials_wf d ->
  agentCredentialRotationOffer secretKey rand_psk rand_seal rand_wrap rotationID operationID n currentPSK g now d
    = (Ok (Some offer), d1) ->
  controllerCredential a = (currentPSK, cv) -> cv < of_CredentialVersion offer ->
  cr_CurrentVersion c < of_CredentialVersion offer -> 0 < of_CredentialVersion offer -> cr_PendingPSK c = "" ->
  exists id row secret, unwrapped currentPSK offer = Ok secret /\ db_rotations d1 !! id = Some row /\
  forall t clock db_clock r,
    (32 <= length secret <= 128)%nat -> of_EncryptedPSK offer <> "" ->
    t < of_ExpiresAt offer <= t + 25 * Hour -> ts t < ro_ExpiresAt row -> t < ro_ExpiresAt row -> is_zero t = false ->
    newer_than_all d1 n (of_CredentialVersion offer) -> db_credentials d1 !! id = None ->
    parse_int64 (rq_AgentID r) = Some n -> rq_Path r = confirm_path -> slen (rq_Body r) <= maxAgentRequestBody ->
    VerifyRequest r (of_bytes secret) (clock 0%nat) = Ok tt ->
    (forall su, parse_int64 (rq_Timestamp r) = Some su ->
       (ConsumeAgentNonce db_clock n (rq_Nonce r) (of_unix su) (of_unix su + 2 * MaxClockSkew) d1).1 = Ok true) ->
    exists reply d2 a', confirm_exchange t clock db_clock r (of_CredentialVersion offer) d1 = (reply, d2)
      /\ acceptControllerCredentialRotation saved saved t t t (of_ControllerGeneration offer) (Some offer) reply a = (Ok tt, a')
      /\ controllerCredential a' = (of_bytes secret, of_CredentialVersion offer)
      /\ cr_PendingPSK (rs_Credential (ag_state a')) = ""
      /\ forall u, is_zero u = false -> exists cred, ListAgentAuthenticationCredentials n u d2 = Ok [cred]
           /\ Decrypt secretKey (aa_Ciphertext cred) = Ok (bytes_of (controllerCredential a').1).
Proof.
  intros Hrand Hwf Hoff Hcur Hcv Hstate Hpos Hpend.
  destruct (offer_confirmed _ _ _ _ _ _ _ _ _ _ _ _ _ Hrand Hwf Hoff) as (id & row & secret & Hun & Hl & Hgo).
  pose proof (offer_stored _ _ _ _ _ _ _ _ _ _ _ _ _ Hrand Hoff) as
    (_ & _ & _ & _ & _ & _ & _ & _ & _ & _ & _ & Hg0 & _).
  exists id, row, secret. split; [done|]. split; [done|].
  intros t clock db_clock r Hlen Hne Hwin Hexp Hexp' Hz Hnew Hfresh Hid Hpath Hbody Hver Hnonce.
  destruct (Hgo t clock db_clock r) as (ctx & d2 & Hauth & Hp & Hv & Hconf); try done.
  destruct (Hconf t Hexp' Hz) as (d3 & Hc & Hlist).
  destruct (agent_accepts a offer currentPSK cv secret t) as (a' & Hacc & Hcred & Hnone); try done.
  eexists _, d3, a'. split; [unfold confirm_exchange; by rewrite Hauth, Hc|]. split; [exact Hacc|].
  split; [done|]. split; [done|]. intros u Hu. destruct (Hlist u Hu) as (cred & Hone & Hdec). exists cred.
  split; [done|]. rewrite Hcred. cbn [fst]. by rewrite bytes_of_bytes.
Qed.

Definition unconfirmed (r : confirm_reply) : Prop :=
  match r with NoAnswer => True | Answered status _ => status ∉ [200; 409; 410] end.

(** A pending credential the Controller no longer knows blocks the Agent.  While it
    has not expired, and its confirmation is answered with anything but 200, 409 or
    410 - the Controller answers 401 -, no round changes the Agent: every offer of
    another version is refused, so it keeps its old credential. *)
Theorem stale_pending_blocks_rotation (a : Agent) rs (c := rs_Credential (ag_state a)) :
  cr_PendingPSK c <> "" ->
  Forall (fun r => rr_now r < cr_PendingExpiresAt c /\ unconfirmed (rr_reply r)
    /\ forall o, rr_offer r = Some o -> of_CredentialVersion o <> cr_PendingVersion c) rs ->
  do_rounds rs a = a.
Proof.
  intros Hp. induction rs as [|r rs IH]; [done|]. intros [(Hnow & Hun & Hoff) Hall]%Forall_cons.
  assert (do_round r a = a) as Hr; [|cbn [do_rounds foldl]; rewrite Hr; by apply IH]. unfold do_round.
  assert ((resumeControllerCredentialRotation (rr_saves r) (rr_now r) (rr_reply r) a).2 = a) as ->.
  { unfold resumeControllerCredentialRotation. fold c. rewrite (proj2 (String.eqb_neq _ _) Hp). unfold after.
    rewrite (proj2 (Z.ltb_lt _ _) Hnow). cbn [negb]. destruct (rr_reply r) as [|st body]; [done|]. cbn in Hun.
    rewrite !not_elem_of_cons in Hun. destruct Hun as (H200 & H409 & H410 & _).
    by rewrite (proj2 (Z.eqb_neq _ _) H200), (proj2 (Z.eqb_neq _ _) H409), (proj2 (Z.eqb_neq _ _) H410). }
  unfold acceptControllerCredentialRotation. destruct (rr_offer r) as [o|]; [|done].
  destruct (controllerCredential a) as [psk cv]. destruct (_ || _); [done|].
  destruct (unwrapped psk o) as [plain|]; [|done]. destruct (_ || _); [done|].
  unfold persistPendingControllerCredential. fold c. destruct (_ || _); [done|]. destruct (_ <=? _); [done|].
  rewrite (proj2 (String.eqb_neq _ _) Hp). specialize (Hoff o eq_refl).
  by rewrite (proj2 (Z.eqb_neq _ _) (fun E => Hoff (eq_sym E))).
Qed.
End Handover.

(** ** Concrete runs *)

(** The Agent of node 1 with the credential of [guarded_db]. *)
Definition holder : Agent := (persistInitialControllerCredential true "current secret" 1 4 demo_compute).2.

Lemma holder_credential : controllerCredential holder = ("current secret"%string, 1).
Proof. vm_compute. reflexivity. Qed.

Lemma handover_agrees_witness : exists reply d2 a',
  @confirm_exchange lawful_primitives demo_postgres demo_key demo_later demo_clock demo_later
    (signed confirm_path demo_secret later_unix) 2 demo_offered = (reply, d2)
  /\ @acceptControllerCredentialRotation lawful_primitives {| sv_state := true; sv_config := true |}
       {| sv_state := true; sv_config := true |} demo_later demo_later demo_later 4 (Some demo_wrapped) reply holder
     = (Ok tt, a')
  /\ controllerCredential a' = (demo_secret, 2).
Proof.
  destruct (@handover_agrees lawful_primitives demo_postgres demo_key lawful_laws demo_rand demo_rand demo_rand
    (Some id_rot) (Some id_op) 1 "current secret" 4 demo_later guarded_db demo_wrapped demo_offered holder 1
    demo_rand_honest guarded_wf demo_offer_eq holder_credential) as (id & row & secret & Hun & Hl & Hgo);
    [vm_compute; reflexivity..|].
  rewrite demo_unwraps in Hun. injection Hun as <-. destruct demo_offer_rows as [Hrow Hcred].
  destruct (Hrow _ _ Hl) as [-> Hexp].
  destruct (Hgo demo_later demo_clock demo_later (signed confirm_path demo_secret later_unix))
    as (reply & d2 & a' & Hx & Ha & Hc & _).
  - vm_compute. lia.
  - vm_compute. discriminate.
  - split; vm_compute; [reflexivity|discriminate].
  - rewrite Hexp. vm_compute. reflexivity.
  - rewrite Hexp. vm_compute. reflexivity.
  - vm_compute. reflexivity.
  - intros i c. rewrite Hcred. unfold guarded_db. cbn [set_credentials db_credentials].
    intros [<- <-]%lookup_singleton_Some _. vm_compute. reflexivity.
  - rewrite Hcred. vm_compute. reflexivity.
  - vm_compute. reflexivity.
  - reflexivity.
  - vm_compute. discriminate.
  - vm_compute. reflexivity.
  - intros su Hsu. assert (su = later_unix) as -> by (vm_compute in Hsu; by injection Hsu as <-). vm_compute. reflexivity.
  - exists reply, d2, a'. split; [exact Hx|]. split; [exact Ha|]. etrans; [exact Hc|vm_compute; reflexivity].
Defined.

(** The Agent took the offer but its confirmation never reached the Controller. *)
Definition waiting_agent : Agent :=
  (@acceptControllerCredentialRotation lawful_primitives {| sv_state := true; sv_config := true |}
     {| sv_state := true; sv_config := true |} demo_later demo_later demo_later 4 (Some demo_wrapped) NoAnswer holder).2.
(** A standby Controller takes over: generation 5. *)
Definition failed_over : DB :=
  (@PromoteControllerEpoch demo_postgres 0 id_op2 id_sid2 id_new "failover" (demo_later + Minute) demo_offered).2.
#[local] Notation next_offer := (@agentCredentialRotationOffer demo_postgres lawful_primitives demo_key demo_rand demo_rand
  demo_rand (Some id_rot2) (Some id_jti) 1 "current secret" 5 (demo_later + 2 * Minute) failed_over).
Definition next_wrapped : AgentCredentialRotationOffer :=
  {| of_CredentialVersion := 3; of_ControllerGeneration := 5; of_EncryptedPSK := of_EncryptedPSK demo_wrapped;
     of_ExpiresAt := demo_later + 2 * Minute + 24 * Hour |}.

(** The confirmation is answered with 401 and the successor the new Controller offers
    is refused: the Agent is stuck with the credential of generation 4. *)
Example failover_strands_agent :
  (@confirm_exchange lawful_primitives demo_postgres demo_key (demo_later + 2 * Minute)
     (fun _ => demo_later + 2 * Minute) (demo_later + 2 * Minute)
     (signed confirm_path demo_secret (later_unix + 120)) 2 failed_over).1 = Answered 401 None
  /\ next_offer.1 = Ok (Some next_wrapped)
  /\ (@acceptControllerCredentialRotation lawful_primitives {| sv_state := true; sv_config := true |}
       {| sv_state := true; sv_config := true |} (demo_later + 2 * Minute) (demo_later + 2 * Minute) (demo_later + 2 * Minute)
       5 (Some next_wrapped) NoAnswer waiting_agent).1 = Fail "conflicting pending controller credential".
Proof. vm_compute. auto. Qed.

Definition stuck_round : rotation_round :=
  {| rr_saves := {| sv_state := true; sv_config := true |}; rr_now := demo_later + 2 * Minute;
     rr_reply := Answered 401 None; rr_generation := 5; rr_offer := Some next_wrapped; rr_offer_reply := NoAnswer |}.

Lemma stale_pending_blocks_rotation_witness :
  @do_rounds lawful_primitives [stuck_round; stuck_round] waiting_agent = waiting_agent
  /\ controllerCredential waiting_agent = ("current secret"%string, 1).
Proof.
  split; [|vm_compute; reflexivity].
  apply (@stale_pending_blocks_rotation lawful_primitives waiting_agent [stuck_round; stuck_round]).
  - vm_compute. discriminate.
  - repeat apply Forall_cons_2; [..|apply Forall_nil_2]; (split; [vm_compute; reflexivity|]);
      (split; [cbn; rewrite !not_elem_of_cons; repeat split; try discriminate; apply not_elem_of_nil|]);
      intros o [= <-]; vm_compute; discriminate.
Defined.
