(* ===== verification/CommandChannel.v ===== *)
(** * The Controller's side of the command channel

    src/internal/controller/commands.go: commands are sealed with the secret of the
    node they go to, handed out on request, acknowledged and finished; the caller
    waits for the result.

    Clock readings, what other transactions do between two statements, and the
    decoding of JSON bodies are arguments. *)

From Stdlib Require Import ZArith Lia Ascii String.
From stdpp Require Import base list gmap strings pretty.
From S2P Require Import Prelude GoStrings Sha256 AgentState Protocol Base64 RelayCrypto Secrets GoJson ControlMode RuntimeState AgentCommands Schema Leases Handoffs Leadership Commands Rebuilds Credentials AgentApi.
#[local] Open Scope Z_scope.

Definition invalid_result : string := "agent command failed: invalid_result".
Definition credential_unavailable : string := "agent credential unavailable".
Definition deadline_exceeded : string := "context deadline exceeded".

(** The fields of a result summary that decide the outcome. *)
Record agentCommandSummary := { sm_OK : bool; sm_Code : string; sm_Text : string }.

(** [agentCommandError] with its code. *)
Definition agentCommandError (code : string) : string :=
  if String.eqb code "" then "agent command failed" else "agent command failed: " +:+ code.

(** What one poll of the queue finds. *)
Record queue_poll := {
  qp_others : DB -> DB;
  qp_now : time;
  qp_clock : time;
  qp_locked : string -> bool
}.

Section CommandChannel.
Context `{Postgres} `{RelayPrimitives} (jsonb_in : string -> option string) (secretKey : bytes).

(** ** Enqueueing *)

(** [plaintext] is the marshalled payload, [commandID] a fresh identifier. *)
Definition enqueueAgentCommandAtGeneration (clock now : time) (rand : nat -> option bytes) (commandID : option string)
  (later : DB -> DB) (nodeID : Z) (commandType : string) (plaintext : option bytes) (operationID : string)
  (expectedGeneration : Z) (requeueRetryableTerminal : bool) (d : DB) : result Z * DB :=
  if String.eqb commandType "" || negb (isUUID operationID) then (Fail ErrInvalidAgentCommand, d)
  else match plaintext with
  | None => (Fail "json: unsupported type", d)
  | Some plaintext =>
  match agentPSK secretKey clock nodeID d with
  | Fail _ => (Fail credential_unavailable, d)
  | Ok psk =>
  if String.eqb psk "" then (Fail credential_unavailable, d)
  else match Encrypt rand (bytes_of (DeriveAgentCommandKey psk)) plaintext with
  | Fail e => (Fail e, d)
  | Ok ciphertext =>
  match commandID with
  | None => (Fail "uuid", d)
  | Some commandID =>
      EnqueueAgentCommand jsonb_in clock
        {| eq_ID := commandID; eq_OperationID := operationID; eq_NodeID := nodeID; eq_CommandType := commandType;
           eq_EncryptedPayload := marshal_envelope 2 ciphertext;
           eq_PayloadSHA256 := hmac_sha256 (DeriveAgentCommandAuthKey psk) (of_bytes plaintext);
           eq_ExpiresAt := now + agentCommandTTL; eq_Now := now;
           eq_ExpectedControllerGeneration := expectedGeneration;
           eq_RequeueRetryableTerminal := requeueRetryableTerminal |} later d
  end end end end.

Definition enqueueAgentCommand (clock now : time) (rand : nat -> option bytes) (commandID : option string)
  (later : DB -> DB) (nodeID : Z) (commandType : string) (plaintext : option bytes) (operationID : string) (d : DB)
  : result Z * DB :=
  enqueueAgentCommandAtGeneration clock now rand commandID later nodeID commandType plaintext operationID 0 false d.

(** ** Handing out *)

Definition command_message (l : AgentCommandLease) : AgentCommandMessage :=
  {| am_ID := Commands.al_ID l; am_OperationID := al_OperationID l; am_CommandType := al_CommandType l;
     am_EncryptedPayload := al_EncryptedPayload l; am_PayloadSHA256 := hex_encode (al_PayloadSHA256 l);
     am_Attempt := al_Attempt l; am_ControllerGeneration := Commands.al_ControllerGeneration l;
     am_LeaseUntil := al_LeaseUntil l; am_ExpiresAt := al_ExpiresAt l |}.

(** The loop until a command, the deadline or the end of the request; nothing is an
    answer without content. *)
Fixpoint poll_queue (nodeID : Z) (workerID : string) (polls : list queue_poll) (d : DB)
  : http (option AgentCommandMessage) * DB :=
  match polls with
  | [] => (Reply None, d)
  | p :: polls =>
      match LeaseAgentCommand (qp_clock p) (qp_locked p) nodeID workerID (qp_now p) agentCommandLeaseTTL (qp_others p d) with
      | (Fail _, d) => (Rejected 503 "命令队列暂不可用", d)
      | (Ok (Some l), d) => (Reply (Some (command_message l)), d)
      | (Ok None, d) => poll_queue nodeID workerID polls d
      end
  end.

(** [decoded]: worker id and highest generation of the request body. *)
Definition handleAgentLeaseCommand (ctx : AgentContext) (node : Node) (decoded : option (string * Z)) (clock now : time)
  (polls : list queue_poll) (d : DB) : http (option AgentCommandMessage) * DB :=
  match decoded with
  | None => (Rejected 400 "请求格式错误", d)
  | Some (workerID, highestGeneration) =>
  if (slen workerID <? 16) || (128 <? slen workerID) then (Rejected 400 "请求格式错误", d)
  else match GetActiveControllerGeneration d with
  | Fail _ => (Rejected 503 "总控当前为只读状态", d)
  | Ok generation =>
  if generation <? highestGeneration then (Rejected 409 "总控世代低于节点已确认世代", d)
  else
  let clamped := if self_updating node
                 then ClampAgentCommandRunLeases clock (ac_NodeID ctx) now agentCommandRunTTL d
                 else (Ok tt, d) in
  match clamped with
  | (Fail _, d) => (Rejected 503 "命令租约恢复暂不可用", d)
  | (Ok _, d) => poll_queue (ac_NodeID ctx) workerID polls d
  end end end.

(** [decoded]: worker id and generation. *)
Definition handleAgentAckCommand (ctx : AgentContext) (node : Node) (id : string) (decoded : option (string * Z))
  (clock now : time) (d : DB) : http unit * DB :=
  if negb (isUUID id) then (Rejected 400 "命令 ID 无效", d)
  else match decoded with
  | None => (Rejected 400 "请求格式错误", d)
  | Some (workerID, generation) =>
      let runTTL := if self_updating node then agentCommandRunTTL else agentCommandLegacyRunTTL in
      match AckAgentCommand clock id (ac_NodeID ctx) workerID generation now runTTL d with
      | (Fail _, d) => (Rejected 503 "命令确认失败", d)
      | (Ok false, d) => (Rejected 409 "命令租约已失效", d)
      | (Ok true, d) => (Reply tt, d)
      end
  end.

Definition handleAgentFinishCommand (ctx : AgentContext) (id : string) (decoded : option FinishCommandRequest)
  (clock now : time) (d : DB) : http unit * DB :=
  if negb (isUUID id) then (Rejected 400 "命令 ID 无效", d)
  else match decoded with
  | None => (Rejected 400 "请求格式错误", d)
  | Some req =>
  if negb (json_valid (fr_Result req)) then (Rejected 400 "请求格式错误", d)
  else match FinishAgentCommand jsonb_in clock
    {| fi_ID := id; fi_NodeID := ac_NodeID ctx; fi_WorkerID := fr_WorkerID req;
       fi_ControllerGeneration := fr_ControllerGeneration req; fi_Succeeded := fr_Succeeded req;
       fi_ResultSummary := fr_Result req; fi_ResultDigest := sha256 (fr_Result req); fi_Now := now |} d with
  | (Fail _, d) => (Rejected 503 "命令结果保存失败", d)
  | (Ok false, d) => (Rejected 409 "命令租约已失效", d)
  | (Ok true, d) => (Reply tt, d)
  end end.

(** ** Waiting *)

Definition terminal_state (state : string) : bool :=
  bool_decide (state ∈ ["succeeded"; "failed"; "cancelled"; "expired"]).

(** Each reading: what happened since, and the server's clock.  The list ends with
    the timeout. *)
Fixpoint waitAgentCommand (operationID : string) (readings : list ((DB -> DB) * time)) (d : DB)
  : result AgentCommandResult * DB :=
  match readings with
  | [] => (Fail deadline_exceeded, d)
  | (others, clock) :: readings =>
      match GetAgentCommandResult clock operationID (others d) with
      | (Fail e, d) => (Fail e, d)
      | (Ok (Some r), d) => if terminal_state (cres_State r) then (Ok r, d) else waitAgentCommand operationID readings d
      | (Ok None, d) => waitAgentCommand operationID readings d
      end
  end.

(** [decode] is [json.Unmarshal] into a summary. *)
Definition waitAgentCommandSummary (decode : string -> option agentCommandSummary) (operationID : string)
  (readings : list ((DB -> DB) * time)) (d : DB) : result agentCommandSummary * DB :=
  match waitAgentCommand operationID readings d with
  | (Fail e, d) => (Fail e, d)
  | (Ok r, d) =>
      (match decode (cres_ResultSummary r) with
       | None => Fail invalid_result
       | Some summary =>
           if negb (String.eqb (cres_State r) "succeeded") || negb (sm_OK summary)
           then Fail (agentCommandError (sm_Code summary)) else Ok summary
       end, d)
  end.

Definition runAgentCommandWithOperation (decode : string -> option agentCommandSummary) (clock now : time)
  (rand : nat -> option bytes) (commandID : option string) (later : DB -> DB) (nodeID : Z) (commandType : string)
  (plaintext : option bytes) (operationID : string) (readings : list ((DB -> DB) * time)) (d : DB)
  : result agentCommandSummary * DB :=
  match enqueueAgentCommand clock now rand commandID later nodeID commandType plaintext operationID d with
  | (Fail e, d) => (Fail e, d)
  | (Ok _, d) => waitAgentCommandSummary decode operationID readings d
  end.

Definition runRetryableAgentCommandWithOperationAtGeneration (decode : string -> option agentCommandSummary)
  (clock now : time) (rand : nat -> option bytes) (commandID : option string) (later : DB -> DB) (nodeID : Z)
  (commandType : string) (plaintext : option bytes) (operationID : string) (expectedGeneration : Z)
  (readings : list ((DB -> DB) * time)) (d : DB) : result agentCommandSummary * DB :=
  if (expectedGeneration <=? 0)
     || (negb (String.eqb commandType "freeze_user_data") && negb (String.eqb commandType "release_user_data"))
  then (Fail ErrInvalidAgentCommand, d)
  else match enqueueAgentCommandAtGeneration clock now rand commandID later nodeID commandType plaintext operationID
               expectedGeneration true d with
  | (Fail e, d) => (Fail e, d)
  | (Ok generation, d) =>
      if negb (generation =? expectedGeneration) then (Fail ErrAgentCommandConflict, d)
      else waitAgentCommandSummary decode operationID readings d
  end.

(** ** What is enqueued *)

Lemma enqueued_row clock p later d r d1 op c :
  EnqueueAgentCommand jsonb_in clock p later d = (r, d1) -> uuid_in (eq_OperationID p) = Some op ->
  db_commands d !! op = None -> db_commands d1 !! op = Some c ->
  jsonb_in (eq_EncryptedPayload p) = Some (co_Payload c) /\ co_PayloadSHA256 c = eq_PayloadSHA256 p
  /\ co_NodeID c = eq_NodeID p /\ co_CommandType c = eq_CommandType p /\ slen (eq_PayloadSHA256 p) = 32.
Proof.
  unfold EnqueueAgentCommand. intros E Hop Hnone Hc.
  match type of E with context [if ?b then _ else _] => destruct b eqn:Eb end; [by simplify_eq|].
  assert (slen (eq_PayloadSHA256 p) = 32) as Hlen by (by b2p). clear Eb.
  destruct (negb _); [by simplify_eq|]. unfold runTx in E.
  match type of E with context [enqueue_statement _ ?q d] =>
    destruct (enqueue_statement jsonb_in q d) as [[o d2]|e] eqn:Es end; [|by simplify_eq].
  assert (d1 = d2) as -> by (by destruct o; simplify_eq). clear E.
  unfold enqueue_statement in Es. tx_go.
  repeat match goal with Hu : uuid_param _ _ = Ok _ |- _ => apply uuid_param_ok in Hu as [? ->] end.
  cbn [eq_EncryptedPayload eq_OperationID eq_ID eq_NodeID eq_CommandType eq_PayloadSHA256 eq_ExpiresAt eq_Now
       eq_ExpectedControllerGeneration eq_RequeueRetryableTerminal] in *. simplify_eq.
  destruct (jsonb_in (eq_EncryptedPayload p)) as [payload|] eqn:Ej; [|done].
  destruct (active_generation d) as [g|]; [|by simplify_eq]. destruct (negb _); [by simplify_eq|].
  destruct (g <=? 0); [done|]. rewrite Hnone in *. destruct (_ || _); [done|]. simplify_eq.
  cbn in Hc. rewrite lookup_insert_eq in Hc. by simplify_eq.
Qed.

(** The payload opens with the secret it was sealed with. *)
Lemma opens_sealed `{!RelayLaws} unmarshal rand psk plaintext ciphertext m (a : Agent) v :
  honest rand -> Encrypt rand (bytes_of (DeriveAgentCommandKey psk)) plaintext = Ok ciphertext ->
  unmarshal (am_EncryptedPayload m) = Some (2, ciphertext) -> ciphertext <> "" ->
  am_PayloadSHA256 m = hex_encode (hmac_sha256 (DeriveAgentCommandAuthKey psk) (of_bytes plaintext)) ->
  slen (hmac_sha256 (DeriveAgentCommandAuthKey psk) (of_bytes plaintext)) = 32 ->
  controllerCredential a = (psk, v) -> decryptCommand unmarshal m a = Ok plaintext.
Proof.
  intros Hr He Hu Hne Hd Hlen Ha. unfold decryptCommand. rewrite Hu, Ha. cbn [negb andb].
  rewrite (proj2 (String.eqb_neq _ _) Hne). rewrite (Decrypt_Encrypt rand Hr _ _ _ He). cbn [orb].
  rewrite Hd, hex_decode_encode, Hlen. by rewrite String.eqb_refl.
Qed.

Lemma Encrypt_nonempty rand key plaintext c : honest rand -> Encrypt rand key plaintext = Ok c -> c <> "".
Proof.
  unfold Encrypt. intros Hr. destruct (negb _); [done|]. destruct (rand gcmNonceSize) as [nonce|] eqn:E; [|done].
  intros [= <-]. apply Hr in E. intros Hn. apply (f_equal bytes_of) in Hn. rewrite bytes_of_bytes in Hn.
  destruct nonce as [|x [|y [|z nonce]]]; done.
Qed.

(** A ciphertext is base64 text. *)
Definition base64_text (data : bytes) : string := of_bytes (b64_encode true data).

Lemma Encrypt_base64 rand key plaintext c : Encrypt rand key plaintext = Ok c -> exists data, c = base64_text data.
Proof.
  unfold Encrypt. destruct (negb _); [done|]. destruct (rand gcmNonceSize) as [nonce|]; [|done].
  intros [= <-]. by eexists.
Qed.

(** The envelope of base64 text survives the database and the wire: what the [jsonb]
    column stores of it is decoded to the same version and text.  Base64 needs no
    escaping in JSON, so [marshal_envelope] is [json.Marshal] there. *)
Definition envelope_survives (unmarshal : string -> option (Z * string)) : Prop :=
  forall data payload, jsonb_in (marshal_envelope 2 (base64_text data)) = Some payload ->
    unmarshal payload = Some (2, base64_text data).

(** ** Theorems *)

(** C27: What the Controller enqueues is what the Agent opens.  A first enqueue of an
    operation stores one row for the node; whenever a lease hands that row out, the
    Agent that authenticates with the secret the command was sealed with recovers
    exactly the payload, and the digest it checks agrees.  Of PostgreSQL and the JSON
    decoder it assumes only that the envelope of a base64 text comes back as it was
    ([envelope_survives]). *)
Theorem command_payload_delivered `{!RelayLaws} unmarshal clock now rand commandID later n commandType plaintext operationID
  expected requeue d r d1 op c psk :
  honest rand ->
  envelope_survives unmarshal ->
  agentPSK secretKey clock n d = Ok psk ->
  enqueueAgentCommandAtGeneration clock now rand commandID later n commandType (Some plaintext) operationID
    expected requeue d = (r, d1) ->
  uuid_in operationID = Some op -> db_commands d !! op = None -> db_commands d1 !! op = Some c ->
  co_NodeID c = n /\ co_CommandType c = commandType
  /\ forall clock' locked n' w now' ttl d2 l d3 a v,
     (exists c2, db_commands d2 !! op = Some c2 /\ co_Payload c2 = co_Payload c /\ co_PayloadSHA256 c2 = co_PayloadSHA256 c) ->
     LeaseAgentCommand clock' locked n' w now' ttl d2 = (Ok (Some l), d3) -> al_OperationID l = op ->
     controllerCredential a = (psk, v) ->
     decryptCommand unmarshal (command_message l) a = Ok plaintext.
Proof.
  intros Hrand Hjson Hpsk E Hop Hnone Hc. unfold enqueueAgentCommandAtGeneration in E.
  destruct (_ || _); [by simplify_eq|]. rewrite Hpsk in E. destruct (String.eqb psk ""); [by simplify_eq|].
  destruct (Encrypt rand _ plaintext) as [ct|] eqn:Ee; [|by simplify_eq]. destruct commandID as [cid|]; [|by simplify_eq].
  destruct (enqueued_row _ _ _ _ _ _ _ _ E Hop Hnone Hc) as (Hpay & Hdig & Hn & Ht & Hlen).
  cbn [eq_EncryptedPayload eq_PayloadSHA256 eq_NodeID eq_CommandType] in *. split; [done|]. split; [done|].
  intros clock' locked n' w now' ttl d2 l d3 a v (c2 & Hc2 & Hp2 & Hd2) Hl Hlop Ha.
  apply LeaseAgentCommand_cases in Hl as [[_ Hno]|(op2 & c3 & Hnext & _ & [= ->] & _)]; [by destruct (Hno l)|].
  cbn in Hlop. subst op2. apply next_command_some in Hnext as (Hc3 & _). rewrite Hc2 in Hc3. injection Hc3 as <-.
  eapply opens_sealed; [done|exact Ee| |by eapply Encrypt_nonempty|..]; cbn.
  - rewrite Hp2. destruct (Encrypt_base64 _ _ _ _ Ee) as [sealed ->]. by apply Hjson.
  - by rewrite Hd2, Hdig.
  - done.
  - exact Ha.
Qed.

(** What the Agent accepts as a payload is authentic: its digest under the command
    authentication key is the one the command carries. *)
Lemma opened_authentic unmarshal m (a : Agent) plaintext ct :
  unmarshal (am_EncryptedPayload m) = Some (2, ct) -> decryptCommand unmarshal m a = Ok plaintext ->
  hex_decode (am_PayloadSHA256 m)
  = Some (hmac_sha256 (DeriveAgentCommandAuthKey (controllerCredential a).1) (of_bytes plaintext)).
Proof.
  unfold decryptCommand. intros ->. destruct (controllerCredential a) as [psk v]. destruct (_ || _); [done|].
  destruct (Decrypt _ _) as [p|]; [|done]. destruct (hex_decode _) as [want|]; [|done].
  destruct (negb (slen want =? 32)); [done|]. change (2 =? 1) with false. cbv iota.
  destruct (negb _) eqn:Eb; [done|]. intros [= <-]. b2p. cbn [fst]. by rewrite Eb.
Qed.

(** A caller that is told of success can rely on it: at the reading that answered
    it the command's row was [succeeded] - which only its holder's result makes it -
    and the summary it gets is the stored one and reports success.  Every other
    terminal state is an error. *)
Theorem success_reported_is_stored decode operationID readings : forall d s d',
  waitAgentCommandSummary decode operationID readings d = (Ok s, d') ->
  exists op d0 c, uuid_in operationID = Some op /\ db_commands d0 !! op = Some c /\ co_State c = "succeeded"
    /\ decode (default "{}"%string (co_ResultSummary c)) = Some s /\ sm_OK s = true
    /\ exists others clock, (others, clock) ∈ readings /\ d' = (GetAgentCommandResult clock operationID d0).2.
Proof.
  unfold waitAgentCommandSummary. intros d s d'.
  destruct (waitAgentCommand operationID readings d) as [[r|e] d1] eqn:E; [|done].
  destruct (decode (cres_ResultSummary r)) as [summary|] eqn:Ed; [|done].
  destruct (_ || _) eqn:Eb; [done|]. intros [= -> ->]. b2p. revert d E.
  induction readings as [|[others clock] readings IH]; intros d E; [done|]. cbn [waitAgentCommand] in E.
  destruct (GetAgentCommandResult clock operationID (others d)) as [[[r1|]|] d2] eqn:Eg; [..|done].
  - destruct (terminal_state (cres_State r1)).
    + injection E as -> ->. unfold GetAgentCommandResult in Eg. destruct (String.eqb operationID "") eqn:Hid; [done|].
      destruct (uuid_in operationID) as [op|] eqn:Hop; [|done].
      destruct (db_commands (others d) !! op) as [c|] eqn:Hc; [|done]. injection Eg as <- <-.
      exists op, (others d), c. split_and!; try done. exists others, clock. split; [apply list_elem_of_here|].
      unfold GetAgentCommandResult. by rewrite Hid, Hop.
    + destruct (IH _ E) as (op & d0 & c & Q1 & Q2 & Q3 & Q4 & Q5 & o2 & k2 & Hin & Q6).
      exists op, d0, c. split_and!; try done. exists o2, k2. split; [by apply list_elem_of_further|done].
  - destruct (IH _ E) as (op & d0 & c & Q1 & Q2 & Q3 & Q4 & Q5 & o2 & k2 & Hin & Q6).
    exists op, d0, c. split_and!; try done. exists o2, k2. split; [by apply list_elem_of_further|done].
Qed.
End CommandChannel.

(** ** Concrete runs *)

Definition demo_payload : bytes := bytes_of "hello".
Definition demo_sealed : string :=
  sealed_with (bytes_of (DeriveAgentCommandKey "current secret")) "hello".
(** What lies between two fixed parts of a text. *)
Definition between (l r t : bytes) : option bytes :=
  let x := take (length t - length l - length r) (drop (length l) t) in
  if bool_decide (t = l ++ x ++ r) then Some x else None.

Lemma between_app l r x : between l r (l ++ x ++ r) = Some x.
Proof.
  unfold between. rewrite !length_app, drop_app_length.
  replace (length l + (length x + length r) - length l - length r)%nat with (length x) by lia.
  rewrite take_app_length. by rewrite bool_decide_true.
Qed.

(** The column and the decoder on envelopes: [jsonb] prints a space after each colon
    and comma; a text with a quote, a backslash or a control character is not one of
    these. *)
Definition plain_char (c : ascii) : bool := (32 <=? byte_val c) && negb (is_byte 34 c) && negb (is_byte 92 c).
Definition stored_head : bytes := bytes_of (quoted "{qversionq: 2, qciphertextq: q").
Definition stored_tail : bytes := bytes_of (quoted "q}").
Definition demo_jsonb (t : string) : option string :=
  x ← between (bytes_of (quoted "{qversionq:2,qciphertextq:q")) stored_tail (bytes_of t);
  if forallb plain_char x then Some (of_bytes (stored_head ++ x ++ stored_tail)) else None.
Definition demo_unmarshal (t : string) : option (Z * string) :=
  x ← between stored_head stored_tail (bytes_of t);
  if forallb plain_char x then Some (2, of_bytes x) else None.

Lemma demo_survives : envelope_survives demo_jsonb demo_unmarshal.
Proof.
  intros data payload. unfold demo_jsonb, base64_text. set (x := b64_encode true data).
  assert (bytes_of (marshal_envelope 2 (of_bytes x)) = bytes_of (quoted "{qversionq:2,qciphertextq:q") ++ x ++ stored_tail) as ->.
  { unfold marshal_envelope. rewrite !bytes_of_app, bytes_of_bytes.
    change (bytes_of (quoted "{qversionq:2,qciphertextq:q")) with
      (bytes_of "{" ++ bytes_of quote ++ bytes_of "version" ++ bytes_of quote ++ bytes_of ":" ++ bytes_of (pretty 2)
       ++ bytes_of "," ++ bytes_of quote ++ bytes_of "ciphertext" ++ bytes_of quote ++ bytes_of ":" ++ bytes_of quote).
    by rewrite <- !app_assoc. }
  rewrite between_app. cbn [mbind option_bind]. destruct (forallb plain_char x) eqn:Ex; [|done].
  intros Hp. apply (inj Some) in Hp. subst payload.
  unfold demo_unmarshal. rewrite bytes_of_bytes, between_app. cbn [mbind option_bind]. by rewrite Ex.
Qed.

#[local] Notation demo_enqueue := (@enqueueAgentCommandAtGeneration demo_postgres lawful_primitives demo_jsonb demo_key
  demo_later demo_later demo_rand (Some id_rot) id 1 "ping" (Some demo_payload) id_op2 0 false guarded_db).
Definition demo_enqueued : DB := demo_enqueue.2.
Definition demo_row : AgentCommand :=
  {| co_ID := id_rot; co_NodeID := 1; co_CommandType := "ping"; co_Payload := of_bytes (stored_head ++ bytes_of demo_sealed ++ stored_tail);
     co_PayloadSHA256 := hmac_sha256 (DeriveAgentCommandAuthKey "current secret") "hello"; co_State := "queued";
     co_ControllerGeneration := 4; co_LeaseOwner := None; co_LeaseUntil := None; co_Attempt := 0;
     co_ExpiresAt := demo_later + 10 * Minute; co_ResultSummary := None; co_ResultDigest := None;
     co_CreatedAt := demo_later; co_UpdatedAt := demo_later |}.
Definition demo_credentialed : Agent := (persistInitialControllerCredential true "current secret" 1 4 demo_compute).2.
Definition demo_lease : AgentCommandLease :=
  {| al_ID := id_rot; al_OperationID := id_op2; al_CommandType := "ping";
     al_EncryptedPayload := of_bytes (stored_head ++ bytes_of demo_sealed ++ stored_tail);
     al_PayloadSHA256 := hmac_sha256 (DeriveAgentCommandAuthKey "current secret") "hello"; al_Attempt := 1;
     al_ControllerGeneration := 4; al_LeaseUntil := demo_later + 45 * Second;
     al_ExpiresAt := demo_later + 10 * Minute |}.
#[local] Notation demo_leased := (@LeaseAgentCommand demo_postgres demo_later (fun _ => false) 1 "worker-0123456789"
  demo_later agentCommandLeaseTTL demo_enqueued).
Definition demo_leased_db : DB := demo_leased.2.

Lemma demo_enqueue_eq : demo_enqueue = (Ok 4, demo_enqueued).
Proof. vm_compute. reflexivity. Qed.
Lemma demo_row_eq : db_commands demo_enqueued !! id_op2 = Some demo_row.
Proof. vm_compute. reflexivity. Qed.
Lemma demo_leased_eq : demo_leased = (Ok (Some demo_lease), demo_leased_db).
Proof. vm_compute. reflexivity. Qed.

Lemma command_payload_delivered_witness :
  @decryptCommand lawful_primitives demo_unmarshal (command_message demo_lease) demo_credentialed = Ok demo_payload.
Proof.
  destruct (@command_payload_delivered demo_postgres lawful_primitives demo_jsonb demo_key lawful_laws demo_unmarshal
    demo_later demo_later demo_rand (Some id_rot) id 1 "ping" demo_payload id_op2 0 false guarded_db (Ok 4) demo_enqueued
    id_op2 demo_row "current secret" demo_rand_honest) as (_ & _ & Hopen).
  - exact demo_survives.
  - vm_compute. reflexivity.
  - exact demo_enqueue_eq.
  - vm_compute. reflexivity.
  - vm_compute. reflexivity.
  - exact demo_row_eq.
  - apply (Hopen demo_later (fun _ => false) 1 "worker-0123456789" demo_later agentCommandLeaseTTL demo_enqueued demo_lease
      demo_leased_db demo_credentialed 1).
    + exists demo_row. split; [exact demo_row_eq|split; reflexivity].
    + exact demo_leased_eq.
    + reflexivity.
    + vm_compute. reflexivity.
Defined.

Definition demo_decode (t : string) : option agentCommandSummary := Some {| sm_OK := true; sm_Code := ""; sm_Text := t |}.
(** The queue after the worker of [demo_queue] finished its command. *)
Definition demo_finished : DB := @command_run demo_postgres Some demo_queue [demo_ack; demo_finish].

Lemma success_reported_is_stored_witness : exists op d0 c,
  demo_uuid_in id_op = Some op /\ db_commands d0 !! op = Some c /\ co_State c = "succeeded".
Proof.
  destruct (@success_reported_is_stored demo_postgres demo_decode id_op [(id, demo_later)] demo_finished
    {| sm_OK := true; sm_Code := ""; sm_Text := "{}" |}
    (@waitAgentCommandSummary demo_postgres demo_decode id_op [(id, demo_later)] demo_finished).2)
    as (op & d0 & c & Hop & Hc & Hs & _).
  - vm_compute. reflexivity.
  - exists op, d0, c. exact (conj Hop (conj Hc Hs)).
Defined.
