(* ===== verification/WorkflowSchema.v ===== *)
(** * The workflow tables

    The tables of src/internal/store/migrations that the snapshot workflows, the
    relay and the replicas use, beside the ones of Schema.v: one record per row
    type, one finite map per table, and the constraints of the tables as decidable
    checks that a statement makes before it commits.  A row is changed one column at
    a time ([wf_set_...], [st_set_...], [rt_set_...]), so an UPDATE reads like its SET clause.

    Columns that no modelled statement reads or writes are left out, and two tables
    of Schema.v get their further columns here ([wd_transfer], [wd_homes],
    [wd_materials]). *)

From Stdlib Require Import ZArith Lia Ascii String.
From stdpp Require Import base list gmap strings.
From S2P Require Import Prelude GoStrings Schema.
#[local] Open Scope Z_scope.

(** ** Rows *)

Record NodeTransfer := { nt_TransferURL : string; nt_IsBackupTarget : bool }.

Record Workflow := {
  wf_OperationID : string;
  wf_Type : string;
  wf_State : string;
  wf_UserID : option Z;
  wf_SourceNodeID : option Z;
  wf_TargetNodeID : option Z;
  wf_ActivityEpoch : option Z;
  wf_ControllerGeneration : Z;
  wf_Attempt : Z;
  wf_NextAttemptAt : option time;
  wf_ErrorCode : option string;
  wf_ErrorSummary : option string;
  wf_CleanupState : string;
  wf_LeaseOwner : option string;
  wf_LeaseUntil : option time;
  wf_ResumeState : option string;
  wf_TransferMode : string;
  wf_GenerationRecoveryCount : Z;
  wf_CreatedAt : time;
  wf_UpdatedAt : time;
  wf_FinishedAt : option time
}.

Record WorkflowStep := {
  st_State : string;
  st_Attempt : Z;
  st_LeaseOwner : option string;
  st_LeaseUntil : option time;
  st_ErrorCode : option string;
  st_StartedAt : option time;
  st_FinishedAt : option time;
  st_UpdatedAt : time
}.

Record SnapshotManifest := {
  sm_WorkflowID : string;
  sm_UserID : Z;
  sm_SourceNodeID : Z;
  sm_ActivityEpoch : Z;
  sm_FormatVersion : Z;
  sm_ManifestSHA256 : string;
  sm_ArchiveSHA256 : option string;
  sm_FileCount : Z;
  sm_TotalBytes : Z;
  sm_State : string;
  sm_CreatedAt : time
}.

Record TransferCapability := {
  tc_WorkflowID : string;
  tc_SnapshotID : string;
  tc_SourceNodeID : Z;
  tc_TargetNodeID : Z;
  tc_TokenHash : string;
  tc_State : string;
  tc_ControllerGeneration : Z;
  tc_ExpiresAt : time;
  tc_ConsumedAt : option time;
  tc_CreatedAt : time
}.

Record RelayTransfer := {
  rt_WorkflowID : string;
  rt_TransportScopeID : string;
  rt_SnapshotID : string;
  rt_SourceNodeID : Z;
  rt_TargetNodeID : Z;
  rt_Attempt : Z;
  rt_State : string;
  rt_UploadTokenHash : string;
  rt_DownloadTokenHash : string;
  rt_ControllerGeneration : Z;
  rt_MaxCiphertextBytes : Z;
  rt_PlaintextBytes : option Z;
  rt_CiphertextBytes : option Z;
  rt_ArchiveSHA256 : option string;
  rt_CiphertextSHA256 : option string;
  rt_StoragePath : option string;
  rt_UploadLeaseUntil : option time;
  rt_DownloadLeaseUntil : option time;
  rt_ExpiresAt : time;
  rt_CreatedAt : time;
  rt_UpdatedAt : time;
  rt_ConsumedAt : option time
}.

Record BackupJob := {
  bj_UserID : Z;
  bj_SrcNodeID : Z;
  bj_DstNodeID : Z;
  bj_Trigger : string;
  bj_Status : string;
  bj_DataVersion : option Z;
  bj_Bytes : option Z;
  bj_FileCount : option Z;
  bj_Error : option string;
  bj_StartedAt : option time;
  bj_FinishedAt : option time;
  bj_CreatedAt : time;
  bj_WorkflowID : option string;
  bj_SnapshotID : option string;
  bj_ActivityEpoch : option Z
}.

Record UserReplica := {
  ur_Kind : string;
  ur_DataVersion : Z;
  ur_State : string;
  ur_LastSyncAt : option time;
  ur_Checksum : option string;
  ur_SizeBytes : option Z
}.

(** The integrity columns of a replica. *)
Record Integrity := {
  ig_State : string;
  ig_CheckKind : string;
  ig_OperationID : option string;
  ig_ControllerGeneration : option Z;
  ig_LeaseUntil : option time;
  ig_Attempt : Z;
  ig_CheckedAt : option time;
  ig_LastLightAt : option time;
  ig_LastDeepAt : option time;
  ig_NextCheckAt : time;
  ig_DeepCheckAt : option time;
  ig_ErrorCode : option string
}.

Record ReplicaCopy := {
  rc_ID : string;
  rc_SnapshotID : option string;
  rc_Kind : string;
  rc_State : string;
  rc_Origin : string;
  rc_IsAuthoritative : bool;
  rc_CompatibilityState : string;
  rc_PublishedAt : option time;
  rc_VerifiedAt : option time;
  rc_CreatedAt : time;
  rc_UpdatedAt : time;
  rc_Integrity : Integrity
}.

(** The columns of a cleanup task that only its worker writes. *)
Record CleanupProgress := {
  pg_Attempt : Z;
  pg_OperationID : option string;
  pg_ControllerGeneration : option Z;
  pg_AgentOutcome : option string
}.

(** Their defaults. *)
Definition new_run : CleanupProgress :=
  {| pg_Attempt := 0; pg_OperationID := None; pg_ControllerGeneration := None; pg_AgentOutcome := None |}.

Record CleanupTask := {
  ct_ReplicaID : string;
  ct_UserID : Z;
  ct_LegacyUserID : Z;
  ct_NodeID : Z;
  ct_SnapshotID : string;
  ct_Handle : string;
  ct_ReplicaKind : string;
  ct_ReasonCode : string;
  ct_State : string;
  ct_NextAttemptAt : time;
  ct_LeaseOwner : option string;
  ct_LeaseUntil : option time;
  ct_ErrorCode : option string;
  ct_CreatedAt : time;
  ct_UpdatedAt : time;
  ct_FinishedAt : option time;
  ct_Run : CleanupProgress
}.

Record Reconciliation := {
  ir_NodeID : Z;
  ir_UserID : option Z;
  ir_Marker : string;
  ir_State : string;
  ir_WorkflowID : option string;
  ir_NextAttemptAt : option time;
  ir_ErrorCode : option string;
  ir_ControllerGeneration : Z;
  ir_UpdatedAt : time
}.

Record RetirementOperation := { op_NodeID : Z; op_State : string; op_ControllerGeneration : Z }.

Record RetirementItem := {
  it_RetirementID : string;
  it_UserID : Z;
  it_LegacyUserID : option Z;
  it_SourceNodeID : Z;
  it_TargetNodeID : option Z;
  it_ItemKind : string;
  it_State : string;
  it_WorkflowID : option string;
  it_NextAttemptAt : option time;
  it_ErrorCode : option string;
  it_UpdatedAt : time
}.

Record Alert := { at_State : string; at_ResolvedAt : option time; at_LastSeenAt : time }.

(** The JSON object of linked subjects is a list of pairs. *)
Record AccountMaterial := {
  am_AccountVersion : Z;
  am_PasswordMaterialVersion : Z;
  am_PasswordHash : option string;
  am_PasswordSalt : option string;
  am_OAuthSubjects : list (string * string);
  am_ProvisioningWorkflowID : option string;
  am_LocalUserID : option string;
  am_UpdatedAt : time
}.

Record AuthIdentity := {
  ai_UserID : Z;
  ai_Provider : string;
  ai_Subject : string;
  ai_Status : string
}.

Record ConflictOperation := { cf_WorkflowID : string; cf_ConflictID : string; cf_BaseNodeID : Z }.
Record ConflictSource := { cs_EvidenceID : option string; cs_EvidenceState : string }.

(** ** The database *)

Record WDB := {
  wd_core : DB;  (* the tables of Schema.v *)
  wd_transfer : gmap Z NodeTransfer;  (* nodes: transfer_url, is_backup_target *)
  wd_homes : gmap Z Z;  (* users: home_node_id, by id, where not null *)
  wd_workflows : gmap string Workflow;  (* workflows, by id *)
  wd_steps : gmap (string * string) WorkflowStep;  (* workflow_steps *)
  wd_manifests : gmap string SnapshotManifest;  (* snapshot_manifests, by id *)
  wd_caps : gmap string TransferCapability;  (* snapshot_transfer_capabilities, by id *)
  wd_relays : gmap string RelayTransfer;  (* relay_transfers, by id *)
  wd_jobs : gmap Z BackupJob;  (* backup_jobs, by id *)
  wd_job_seq : Z;  (* the sequence of backup_jobs.id *)
  wd_replicas : gmap (Z * Z) UserReplica;  (* user_replicas, by legacy user and node *)
  wd_copies : gmap (Z * Z) ReplicaCopy;  (* replica_copies, by user and node *)
  wd_cleanups : gmap string CleanupTask;  (* replica_cleanup_tasks, by id *)
  wd_reconciliations : gmap string Reconciliation;  (* independent_user_reconciliations *)
  wd_retirements : gmap string RetirementOperation;  (* node_retirement_operations, by id *)
  wd_items : gmap string RetirementItem;  (* node_retirement_items, by id *)
  wd_alerts : gmap string Alert;  (* alerts, by deduplication_key *)
  wd_materials : gmap (Z * Z) AccountMaterial;  (* node_accounts: the provisioning columns *)
  wd_identities : list AuthIdentity;  (* auth_identities *)
  wd_conflicts : gmap string ConflictOperation;  (* conflict_resolution_operations *)
  wd_evidence : gmap (string * Z) ConflictSource   (* replica_conflict_sources *)
}.

(** Replacing one table. *)
Definition put_core (x : DB) (d : WDB) : WDB :=
  Build_WDB x (wd_transfer d) (wd_homes d) (wd_workflows d) (wd_steps d) (wd_manifests d)
    (wd_caps d) (wd_relays d) (wd_jobs d) (wd_job_seq d) (wd_replicas d) (wd_copies d)
    (wd_cleanups d) (wd_reconciliations d) (wd_retirements d) (wd_items d) (wd_alerts d)
    (wd_materials d) (wd_identities d) (wd_conflicts d) (wd_evidence d).
Definition put_transfer (x : gmap Z NodeTransfer) (d : WDB) : WDB :=
  Build_WDB (wd_core d) x (wd_homes d) (wd_workflows d) (wd_steps d) (wd_manifests d) (wd_caps d)
    (wd_relays d) (wd_jobs d) (wd_job_seq d) (wd_replicas d) (wd_copies d) (wd_cleanups d)
    (wd_reconciliations d) (wd_retirements d) (wd_items d) (wd_alerts d) (wd_materials d)
    (wd_identities d) (wd_conflicts d) (wd_evidence d).
Definition put_homes (x : gmap Z Z) (d : WDB) : WDB :=
  Build_WDB (wd_core d) (wd_transfer d) x (wd_workflows d) (wd_steps d) (wd_manifests d) (wd_caps d)
    (wd_relays d) (wd_jobs d) (wd_job_seq d) (wd_replicas d) (wd_copies d) (wd_cleanups d)
    (wd_reconciliations d) (wd_retirements d) (wd_items d) (wd_alerts d) (wd_materials d)
    (wd_identities d) (wd_conflicts d) (wd_evidence d).
Definition put_workflows (x : gmap string Workflow) (d : WDB) : WDB :=
  Build_WDB (wd_core d) (wd_transfer d) (wd_homes d) x (wd_steps d) (wd_manifests d) (wd_caps d)
    (wd_relays d) (wd_jobs d) (wd_job_seq d) (wd_replicas d) (wd_copies d) (wd_cleanups d)
    (wd_reconciliations d) (wd_retirements d) (wd_items d) (wd_alerts d) (wd_materials d)
    (wd_identities d) (wd_conflicts d) (wd_evidence d).
Definition put_steps (x : gmap (string * string) WorkflowStep) (d : WDB) : WDB :=
  Build_WDB (wd_core d) (wd_transfer d) (wd_homes d) (wd_workflows d) x (wd_manifests d) (wd_caps d)
    (wd_relays d) (wd_jobs d) (wd_job_seq d) (wd_replicas d) (wd_copies d) (wd_cleanups d)
    (wd_reconciliations d) (wd_retirements d) (wd_items d) (wd_alerts d) (wd_materials d)
    (wd_identities d) (wd_conflicts d) (wd_evidence d).
Definition put_manifests (x : gmap string SnapshotManifest) (d : WDB) : WDB :=
  Build_WDB (wd_core d) (wd_transfer d) (wd_homes d) (wd_workflows d) (wd_steps d) x (wd_caps d)
    (wd_relays d) (wd_jobs d) (wd_job_seq d) (wd_replicas d) (wd_copies d) (wd_cleanups d)
    (wd_reconciliations d) (wd_retirements d) (wd_items d) (wd_alerts d) (wd_materials d)
    (wd_identities d) (wd_conflicts d) (wd_evidence d).
Definition put_caps (x : gmap string TransferCapability) (d : WDB) : WDB :=
  Build_WDB (wd_core d) (wd_transfer d) (wd_homes d) (wd_workflows d) (wd_steps d) (wd_manifests d)
    x (wd_relays d) (wd_jobs d) (wd_job_seq d) (wd_replicas d) (wd_copies d) (wd_cleanups d)
    (wd_reconciliations d) (wd_retirements d) (wd_items d) (wd_alerts d) (wd_materials d)
    (wd_identities d) (wd_conflicts d) (wd_evidence d).
Definition put_relays (x : gmap string RelayTransfer) (d : WDB) : WDB :=
  Build_WDB (wd_core d) (wd_transfer d) (wd_homes d) (wd_workflows d) (wd_steps d) (wd_manifests d)
    (wd_caps d) x (wd_jobs d) (wd_job_seq d) (wd_replicas d) (wd_copies d) (wd_cleanups d)
    (wd_reconciliations d) (wd_retirements d) (wd_items d) (wd_alerts d) (wd_materials d)
    (wd_identities d) (wd_conflicts d) (wd_evidence d).
Definition put_jobs (x : gmap Z BackupJob) (d : WDB) : WDB :=
  Build_WDB (wd_core d) (wd_transfer d) (wd_homes d) (wd_workflows d) (wd_steps d) (wd_manifests d)
    (wd_caps d) (wd_relays d) x (wd_job_seq d) (wd_replicas d) (wd_copies d) (wd_cleanups d)
    (wd_reconciliations d) (wd_retirements d) (wd_items d) (wd_alerts d) (wd_materials d)
    (wd_identities d) (wd_conflicts d) (wd_evidence d).
Definition put_job_seq (x : Z) (d : WDB) : WDB :=
  Build_WDB (wd_core d) (wd_transfer d) (wd_homes d) (wd_workflows d) (wd_steps d) (wd_manifests d)
    (wd_caps d) (wd_relays d) (wd_jobs d) x (wd_replicas d) (wd_copies d) (wd_cleanups d)
    (wd_reconciliations d) (wd_retirements d) (wd_items d) (wd_alerts d) (wd_materials d)
    (wd_identities d) (wd_conflicts d) (wd_evidence d).
Definition put_replicas (x : gmap (Z * Z) UserReplica) (d : WDB) : WDB :=
  Build_WDB (wd_core d) (wd_transfer d) (wd_homes d) (wd_workflows d) (wd_steps d) (wd_manifests d)
    (wd_caps d) (wd_relays d) (wd_jobs d) (wd_job_seq d) x (wd_copies d) (wd_cleanups d)
    (wd_reconciliations d) (wd_retirements d) (wd_items d) (wd_alerts d) (wd_materials d)
    (wd_identities d) (wd_conflicts d) (wd_evidence d).
Definition put_copies (x : gmap (Z * Z) ReplicaCopy) (d : WDB) : WDB :=
  Build_WDB (wd_core d) (wd_transfer d) (wd_homes d) (wd_workflows d) (wd_steps d) (wd_manifests d)
    (wd_caps d) (wd_relays d) (wd_jobs d) (wd_job_seq d) (wd_replicas d) x (wd_cleanups d)
    (wd_reconciliations d) (wd_retirements d) (wd_items d) (wd_alerts d) (wd_materials d)
    (wd_identities d) (wd_conflicts d) (wd_evidence d).
Definition put_cleanups (x : gmap string CleanupTask) (d : WDB) : WDB :=
  Build_WDB (wd_core d) (wd_transfer d) (wd_homes d) (wd_workflows d) (wd_steps d) (wd_manifests d)
    (wd_caps d) (wd_relays d) (wd_jobs d) (wd_job_seq d) (wd_replicas d) (wd_copies d) x
    (wd_reconciliations d) (wd_retirements d) (wd_items d) (wd_alerts d) (wd_materials d)
    (wd_identities d) (wd_conflicts d) (wd_evidence d).
Definition put_reconciliations (x : gmap string Reconciliation) (d : WDB) : WDB :=
  Build_WDB (wd_core d) (wd_transfer d) (wd_homes d) (wd_workflows d) (wd_steps d) (wd_manifests d)
    (wd_caps d) (wd_relays d) (wd_jobs d) (wd_job_seq d) (wd_replicas d) (wd_copies d)
    (wd_cleanups d) x (wd_retirements d) (wd_items d) (wd_alerts d) (wd_materials d)
    (wd_identities d) (wd_conflicts d) (wd_evidence d).
Definition put_retirements (x : gmap string RetirementOperation) (d : WDB) : WDB :=
  Build_WDB (wd_core d) (wd_transfer d) (wd_homes d) (wd_workflows d) (wd_steps d) (wd_manifests d)
    (wd_caps d) (wd_relays d) (wd_jobs d) (wd_job_seq d) (wd_replicas d) (wd_copies d)
    (wd_cleanups d) (wd_reconciliations d) x (wd_items d) (wd_alerts d) (wd_materials d)
    (wd_identities d) (wd_conflicts d) (wd_evidence d).
Definition put_items (x : gmap string RetirementItem) (d : WDB) : WDB :=
  Build_WDB (wd_core d) (wd_transfer d) (wd_homes d) (wd_workflows d) (wd_steps d) (wd_manifests d)
    (wd_caps d) (wd_relays d) (wd_jobs d) (wd_job_seq d) (wd_replicas d) (wd_copies d)
    (wd_cleanups d) (wd_reconciliations d) (wd_retirements d) x (wd_alerts d) (wd_materials d)
    (wd_identities d) (wd_conflicts d) (wd_evidence d).
Definition put_alerts (x : gmap string Alert) (d : WDB) : WDB :=
  Build_WDB (wd_core d) (wd_transfer d) (wd_homes d) (wd_workflows d) (wd_steps d) (wd_manifests d)
    (wd_caps d) (wd_relays d) (wd_jobs d) (wd_job_seq d) (wd_replicas d) (wd_copies d)
    (wd_cleanups d) (wd_reconciliations d) (wd_retirements d) (wd_items d) x (wd_materials d)
    (wd_identities d) (wd_conflicts d) (wd_evidence d).
Definition put_materials (x : gmap (Z * Z) AccountMaterial) (d : WDB) : WDB :=
  Build_WDB (wd_core d) (wd_transfer d) (wd_homes d) (wd_workflows d) (wd_steps d) (wd_manifests d)
    (wd_caps d) (wd_relays d) (wd_jobs d) (wd_job_seq d) (wd_replicas d) (wd_copies d)
    (wd_cleanups d) (wd_reconciliations d) (wd_retirements d) (wd_items d) (wd_alerts d) x
    (wd_identities d) (wd_conflicts d) (wd_evidence d).
Definition put_identities (x : list AuthIdentity) (d : WDB) : WDB :=
  Build_WDB (wd_core d) (wd_transfer d) (wd_homes d) (wd_workflows d) (wd_steps d) (wd_manifests d)
    (wd_caps d) (wd_relays d) (wd_jobs d) (wd_job_seq d) (wd_replicas d) (wd_copies d)
    (wd_cleanups d) (wd_reconciliations d) (wd_retirements d) (wd_items d) (wd_alerts d)
    (wd_materials d) x (wd_conflicts d) (wd_evidence d).
Definition put_conflicts (x : gmap string ConflictOperation) (d : WDB) : WDB :=
  Build_WDB (wd_core d) (wd_transfer d) (wd_homes d) (wd_workflows d) (wd_steps d) (wd_manifests d)
    (wd_caps d) (wd_relays d) (wd_jobs d) (wd_job_seq d) (wd_replicas d) (wd_copies d)
    (wd_cleanups d) (wd_reconciliations d) (wd_retirements d) (wd_items d) (wd_alerts d)
    (wd_materials d) (wd_identities d) x (wd_evidence d).
Definition put_evidence (x : gmap (string * Z) ConflictSource) (d : WDB) : WDB :=
  Build_WDB (wd_core d) (wd_transfer d) (wd_homes d) (wd_workflows d) (wd_steps d) (wd_manifests d)
    (wd_caps d) (wd_relays d) (wd_jobs d) (wd_job_seq d) (wd_replicas d) (wd_copies d)
    (wd_cleanups d) (wd_reconciliations d) (wd_retirements d) (wd_items d) (wd_alerts d)
    (wd_materials d) (wd_identities d) (wd_conflicts d) x.

(** One column of a row of workflows. *)
Definition wf_set_OperationID (x : string) (r : Workflow) : Workflow :=
  Build_Workflow x (wf_Type r) (wf_State r) (wf_UserID r) (wf_SourceNodeID r) (wf_TargetNodeID r)
    (wf_ActivityEpoch r) (wf_ControllerGeneration r) (wf_Attempt r) (wf_NextAttemptAt r)
    (wf_ErrorCode r) (wf_ErrorSummary r) (wf_CleanupState r) (wf_LeaseOwner r) (wf_LeaseUntil r)
    (wf_ResumeState r) (wf_TransferMode r) (wf_GenerationRecoveryCount r) (wf_CreatedAt r)
    (wf_UpdatedAt r) (wf_FinishedAt r).
Definition wf_set_Type (x : string) (r : Workflow) : Workflow :=
  Build_Workflow (wf_OperationID r) x (wf_State r) (wf_UserID r) (wf_SourceNodeID r)
    (wf_TargetNodeID r) (wf_ActivityEpoch r) (wf_ControllerGeneration r) (wf_Attempt r)
    (wf_NextAttemptAt r) (wf_ErrorCode r) (wf_ErrorSummary r) (wf_CleanupState r) (wf_LeaseOwner r)
    (wf_LeaseUntil r) (wf_ResumeState r) (wf_TransferMode r) (wf_GenerationRecoveryCount r)
    (wf_CreatedAt r) (wf_UpdatedAt r) (wf_FinishedAt r).
Definition wf_set_State (x : string) (r : Workflow) : Workflow :=
  Build_Workflow (wf_OperationID r) (wf_Type r) x (wf_UserID r) (wf_SourceNodeID r)
    (wf_TargetNodeID r) (wf_ActivityEpoch r) (wf_ControllerGeneration r) (wf_Attempt r)
    (wf_NextAttemptAt r) (wf_ErrorCode r) (wf_ErrorSummary r) (wf_CleanupState r) (wf_LeaseOwner r)
    (wf_LeaseUntil r) (wf_ResumeState r) (wf_TransferMode r) (wf_GenerationRecoveryCount r)
    (wf_CreatedAt r) (wf_UpdatedAt r) (wf_FinishedAt r).
Definition wf_set_UserID (x : option Z) (r : Workflow) : Workflow :=
  Build_Workflow (wf_OperationID r) (wf_Type r) (wf_State r) x (wf_SourceNodeID r)
    (wf_TargetNodeID r) (wf_ActivityEpoch r) (wf_ControllerGeneration r) (wf_Attempt r)
    (wf_NextAttemptAt r) (wf_ErrorCode r) (wf_ErrorSummary r) (wf_CleanupState r) (wf_LeaseOwner r)
    (wf_LeaseUntil r) (wf_ResumeState r) (wf_TransferMode r) (wf_GenerationRecoveryCount r)
    (wf_CreatedAt r) (wf_UpdatedAt r) (wf_FinishedAt r).
Definition wf_set_SourceNodeID (x : option Z) (r : Workflow) : Workflow :=
  Build_Workflow (wf_OperationID r) (wf_Type r) (wf_State r) (wf_UserID r) x (wf_TargetNodeID r)
    (wf_ActivityEpoch r) (wf_ControllerGeneration r) (wf_Attempt r) (wf_NextAttemptAt r)
    (wf_ErrorCode r) (wf_ErrorSummary r) (wf_CleanupState r) (wf_LeaseOwner r) (wf_LeaseUntil r)
    (wf_ResumeState r) (wf_TransferMode r) (wf_GenerationRecoveryCount r) (wf_CreatedAt r)
    (wf_UpdatedAt r) (wf_FinishedAt r).
Definition wf_set_TargetNodeID (x : option Z) (r : Workflow) : Workflow :=
  Build_Workflow (wf_OperationID r) (wf_Type r) (wf_State r) (wf_UserID r) (wf_SourceNodeID r) x
    (wf_ActivityEpoch r) (wf_ControllerGeneration r) (wf_Attempt r) (wf_NextAttemptAt r)
    (wf_ErrorCode r) (wf_ErrorSummary r) (wf_CleanupState r) (wf_LeaseOwner r) (wf_LeaseUntil r)
    (wf_ResumeState r) (wf_TransferMode r) (wf_GenerationRecoveryCount r) (wf_CreatedAt r)
    (wf_UpdatedAt r) (wf_FinishedAt r).
Definition wf_set_ActivityEpoch (x : option Z) (r : Workflow) : Workflow :=
  Build_Workflow (wf_OperationID r) (wf_Type r) (wf_State r) (wf_UserID r) (wf_SourceNodeID r)
    (wf_TargetNodeID r) x (wf_ControllerGeneration r) (wf_Attempt r) (wf_NextAttemptAt r)
    (wf_ErrorCode r) (wf_ErrorSummary r) (wf_CleanupState r) (wf_LeaseOwner r) (wf_LeaseUntil r)
    (wf_ResumeState r) (wf_TransferMode r) (wf_GenerationRecoveryCount r) (wf_CreatedAt r)
    (wf_UpdatedAt r) (wf_FinishedAt r).
Definition wf_set_ControllerGeneration (x : Z) (r : Workflow) : Workflow :=
  Build_Workflow (wf_OperationID r) (wf_Type r) (wf_State r) (wf_UserID r) (wf_SourceNodeID r)
    (wf_TargetNodeID r) (wf_ActivityEpoch r) x (wf_Attempt r) (wf_NextAttemptAt r) (wf_ErrorCode r)
    (wf_ErrorSummary r) (wf_CleanupState r) (wf_LeaseOwner r) (wf_LeaseUntil r) (wf_ResumeState r)
    (wf_TransferMode r) (wf_GenerationRecoveryCount r) (wf_CreatedAt r) (wf_UpdatedAt r)
    (wf_FinishedAt r).
Definition wf_set_Attempt (x : Z) (r : Workflow) : Workflow :=
  Build_Workflow (wf_OperationID r) (wf_Type r) (wf_State r) (wf_UserID r) (wf_SourceNodeID r)
    (wf_TargetNodeID r) (wf_ActivityEpoch r) (wf_ControllerGeneration r) x (wf_NextAttemptAt r)
    (wf_ErrorCode r) (wf_ErrorSummary r) (wf_CleanupState r) (wf_LeaseOwner r) (wf_LeaseUntil r)
    (wf_ResumeState r) (wf_TransferMode r) (wf_GenerationRecoveryCount r) (wf_CreatedAt r)
    (wf_UpdatedAt r) (wf_FinishedAt r).
Definition wf_set_NextAttemptAt (x : option time) (r : Workflow) : Workflow :=
  Build_Workflow (wf_OperationID r) (wf_Type r) (wf_State r) (wf_UserID r) (wf_SourceNodeID r)
    (wf_TargetNodeID r) (wf_ActivityEpoch r) (wf_ControllerGeneration r) (wf_Attempt r) x
    (wf_ErrorCode r) (wf_ErrorSummary r) (wf_CleanupState r) (wf_LeaseOwner r) (wf_LeaseUntil r)
    (wf_ResumeState r) (wf_TransferMode r) (wf_GenerationRecoveryCount r) (wf_CreatedAt r)
    (wf_UpdatedAt r) (wf_FinishedAt r).
Definition wf_set_ErrorCode (x : option string) (r : Workflow) : Workflow :=
  Build_Workflow (wf_OperationID r) (wf_Type r) (wf_State r) (wf_UserID r) (wf_SourceNodeID r)
    (wf_TargetNodeID r) (wf_ActivityEpoch r) (wf_ControllerGeneration r) (wf_Attempt r)
    (wf_NextAttemptAt r) x (wf_ErrorSummary r) (wf_CleanupState r) (wf_LeaseOwner r)
    (wf_LeaseUntil r) (wf_ResumeState r) (wf_TransferMode r) (wf_GenerationRecoveryCount r)
    (wf_CreatedAt r) (wf_UpdatedAt r) (wf_FinishedAt r).
Definition wf_set_ErrorSummary (x : option string) (r : Workflow) : Workflow :=
  Build_Workflow (wf_OperationID r) (wf_Type r) (wf_State r) (wf_UserID r) (wf_SourceNodeID r)
    (wf_TargetNodeID r) (wf_ActivityEpoch r) (wf_ControllerGeneration r) (wf_Attempt r)
    (wf_NextAttemptAt r) (wf_ErrorCode r) x (wf_CleanupState r) (wf_LeaseOwner r) (wf_LeaseUntil r)
    (wf_ResumeState r) (wf_TransferMode r) (wf_GenerationRecoveryCount r) (wf_CreatedAt r)
    (wf_UpdatedAt r) (wf_FinishedAt r).
Definition wf_set_CleanupState (x : string) (r : Workflow) : Workflow :=
  Build_Workflow (wf_OperationID r) (wf_Type r) (wf_State r) (wf_UserID r) (wf_SourceNodeID r)
    (wf_TargetNodeID r) (wf_ActivityEpoch r) (wf_ControllerGeneration r) (wf_Attempt r)
    (wf_NextAttemptAt r) (wf_ErrorCode r) (wf_ErrorSummary r) x (wf_LeaseOwner r) (wf_LeaseUntil r)
    (wf_ResumeState r) (wf_TransferMode r) (wf_GenerationRecoveryCount r) (wf_CreatedAt r)
    (wf_UpdatedAt r) (wf_FinishedAt r).
Definition wf_set_LeaseOwner (x : option string) (r : Workflow) : Workflow :=
  Build_Workflow (wf_OperationID r) (wf_Type r) (wf_State r) (wf_UserID r) (wf_SourceNodeID r)
    (wf_TargetNodeID r) (wf_ActivityEpoch r) (wf_ControllerGeneration r) (wf_Attempt r)
    (wf_NextAttemptAt r) (wf_ErrorCode r) (wf_ErrorSummary r) (wf_CleanupState r) x
    (wf_LeaseUntil r) (wf_ResumeState r) (wf_TransferMode r) (wf_GenerationRecoveryCount r)
    (wf_CreatedAt r) (wf_UpdatedAt r) (wf_FinishedAt r).
Definition wf_set_LeaseUntil (x : option time) (r : Workflow) : Workflow :=
  Build_Workflow (wf_OperationID r) (wf_Type r) (wf_State r) (wf_UserID r) (wf_SourceNodeID r)
    (wf_TargetNodeID r) (wf_ActivityEpoch r) (wf_ControllerGeneration r) (wf_Attempt r)
    (wf_NextAttemptAt r) (wf_ErrorCode r) (wf_ErrorSummary r) (wf_CleanupState r) (wf_LeaseOwner r)
    x (wf_ResumeState r) (wf_TransferMode r) (wf_GenerationRecoveryCount r) (wf_CreatedAt r)
    (wf_UpdatedAt r) (wf_FinishedAt r).
Definition wf_set_ResumeState (x : option string) (r : Workflow) : Workflow :=
  Build_Workflow (wf_OperationID r) (wf_Type r) (wf_State r) (wf_UserID r) (wf_SourceNodeID r)
    (wf_TargetNodeID r) (wf_ActivityEpoch r) (wf_ControllerGeneration r) (wf_Attempt r)
    (wf_NextAttemptAt r) (wf_ErrorCode r) (wf_ErrorSummary r) (wf_CleanupState r) (wf_LeaseOwner r)
    (wf_LeaseUntil r) x (wf_TransferMode r) (wf_GenerationRecoveryCount r) (wf_CreatedAt r)
    (wf_UpdatedAt r) (wf_FinishedAt r).
Definition wf_set_TransferMode (x : string) (r : Workflow) : Workflow :=
  Build_Workflow (wf_OperationID r) (wf_Type r) (wf_State r) (wf_UserID r) (wf_SourceNodeID r)
    (wf_TargetNodeID r) (wf_ActivityEpoch r) (wf_ControllerGeneration r) (wf_Attempt r)
    (wf_NextAttemptAt r) (wf_ErrorCode r) (wf_ErrorSummary r) (wf_CleanupState r) (wf_LeaseOwner r)
    (wf_LeaseUntil r) (wf_ResumeState r) x (wf_GenerationRecoveryCount r) (wf_CreatedAt r)
    (wf_UpdatedAt r) (wf_FinishedAt r).
Definition wf_set_GenerationRecoveryCount (x : Z) (r : Workflow) : Workflow :=
  Build_Workflow (wf_OperationID r) (wf_Type r) (wf_State r) (wf_UserID r) (wf_SourceNodeID r)
    (wf_TargetNodeID r) (wf_ActivityEpoch r) (wf_ControllerGeneration r) (wf_Attempt r)
    (wf_NextAttemptAt r) (wf_ErrorCode r) (wf_ErrorSummary r) (wf_CleanupState r) (wf_LeaseOwner r)
    (wf_LeaseUntil r) (wf_ResumeState r) (wf_TransferMode r) x (wf_CreatedAt r) (wf_UpdatedAt r)
    (wf_FinishedAt r).
Definition wf_set_CreatedAt (x : time) (r : Workflow) : Workflow :=
  Build_Workflow (wf_OperationID r) (wf_Type r) (wf_State r) (wf_UserID r) (wf_SourceNodeID r)
    (wf_TargetNodeID r) (wf_ActivityEpoch r) (wf_ControllerGeneration r) (wf_Attempt r)
    (wf_NextAttemptAt r) (wf_ErrorCode r) (wf_ErrorSummary r) (wf_CleanupState r) (wf_LeaseOwner r)
    (wf_LeaseUntil r) (wf_ResumeState r) (wf_TransferMode r) (wf_GenerationRecoveryCount r) x
    (wf_UpdatedAt r) (wf_FinishedAt r).
Definition wf_set_UpdatedAt (x : time) (r : Workflow) : Workflow :=
  Build_Workflow (wf_OperationID r) (wf_Type r) (wf_State r) (wf_UserID r) (wf_SourceNodeID r)
    (wf_TargetNodeID r) (wf_ActivityEpoch r) (wf_ControllerGeneration r) (wf_Attempt r)
    (wf_NextAttemptAt r) (wf_ErrorCode r) (wf_ErrorSummary r) (wf_CleanupState r) (wf_LeaseOwner r)
    (wf_LeaseUntil r) (wf_ResumeState r) (wf_TransferMode r) (wf_GenerationRecoveryCount r)
    (wf_CreatedAt r) x (wf_FinishedAt r).
Definition wf_set_FinishedAt (x : option time) (r : Workflow) : Workflow :=
  Build_Workflow (wf_OperationID r) (wf_Type r) (wf_State r) (wf_UserID r) (wf_SourceNodeID r)
    (wf_TargetNodeID r) (wf_ActivityEpoch r) (wf_ControllerGeneration r) (wf_Attempt r)
    (wf_NextAttemptAt r) (wf_ErrorCode r) (wf_ErrorSummary r) (wf_CleanupState r) (wf_LeaseOwner r)
    (wf_LeaseUntil r) (wf_ResumeState r) (wf_TransferMode r) (wf_GenerationRecoveryCount r)
    (wf_CreatedAt r) (wf_UpdatedAt r) x.

(** One column of a row of workflow_steps. *)
Definition st_set_State (x : string) (r : WorkflowStep) : WorkflowStep :=
  Build_WorkflowStep x (st_Attempt r) (st_LeaseOwner r) (st_LeaseUntil r) (st_ErrorCode r)
    (st_StartedAt r) (st_FinishedAt r) (st_UpdatedAt r).
Definition st_set_Attempt (x : Z) (r : WorkflowStep) : WorkflowStep :=
  Build_WorkflowStep (st_State r) x (st_LeaseOwner r) (st_LeaseUntil r) (st_ErrorCode r)
    (st_StartedAt r) (st_FinishedAt r) (st_UpdatedAt r).
Definition st_set_LeaseOwner (x : option string) (r : WorkflowStep) : WorkflowStep :=
  Build_WorkflowStep (st_State r) (st_Attempt r) x (st_LeaseUntil r) (st_ErrorCode r)
    (st_StartedAt r) (st_FinishedAt r) (st_UpdatedAt r).
Definition st_set_LeaseUntil (x : option time) (r : WorkflowStep) : WorkflowStep :=
  Build_WorkflowStep (st_State r) (st_Attempt r) (st_LeaseOwner r) x (st_ErrorCode r)
    (st_StartedAt r) (st_FinishedAt r) (st_UpdatedAt r).
Definition st_set_ErrorCode (x : option string) (r : WorkflowStep) : WorkflowStep :=
  Build_WorkflowStep (st_State r) (st_Attempt r) (st_LeaseOwner r) (st_LeaseUntil r) x
    (st_StartedAt r) (st_FinishedAt r) (st_UpdatedAt r).
Definition st_set_StartedAt (x : option time) (r : WorkflowStep) : WorkflowStep :=
  Build_WorkflowStep (st_State r) (st_Attempt r) (st_LeaseOwner r) (st_LeaseUntil r)
    (st_ErrorCode r) x (st_FinishedAt r) (st_UpdatedAt r).
Definition st_set_FinishedAt (x : option time) (r : WorkflowStep) : WorkflowStep :=
  Build_WorkflowStep (st_State r) (st_Attempt r) (st_LeaseOwner r) (st_LeaseUntil r)
    (st_ErrorCode r) (st_StartedAt r) x (st_UpdatedAt r).
Definition st_set_UpdatedAt (x : time) (r : WorkflowStep) : WorkflowStep :=
  Build_WorkflowStep (st_State r) (st_Attempt r) (st_LeaseOwner r) (st_LeaseUntil r)
    (st_ErrorCode r) (st_StartedAt r) (st_FinishedAt r) x.

(** One column of a row of relay_transfers. *)
Definition rt_set_WorkflowID (x : string) (r : RelayTransfer) : RelayTransfer :=
  Build_RelayTransfer x (rt_TransportScopeID r) (rt_SnapshotID r) (rt_SourceNodeID r)
    (rt_TargetNodeID r) (rt_Attempt r) (rt_State r) (rt_UploadTokenHash r) (rt_DownloadTokenHash r)
    (rt_ControllerGeneration r) (rt_MaxCiphertextBytes r) (rt_PlaintextBytes r)
    (rt_CiphertextBytes r) (rt_ArchiveSHA256 r) (rt_CiphertextSHA256 r) (rt_StoragePath r)
    (rt_UploadLeaseUntil r) (rt_DownloadLeaseUntil r) (rt_ExpiresAt r) (rt_CreatedAt r)
    (rt_UpdatedAt r) (rt_ConsumedAt r).
Definition rt_set_TransportScopeID (x : string) (r : RelayTransfer) : RelayTransfer :=
  Build_RelayTransfer (rt_WorkflowID r) x (rt_SnapshotID r) (rt_SourceNodeID r) (rt_TargetNodeID r)
    (rt_Attempt r) (rt_State r) (rt_UploadTokenHash r) (rt_DownloadTokenHash r)
    (rt_ControllerGeneration r) (rt_MaxCiphertextBytes r) (rt_PlaintextBytes r)
    (rt_CiphertextBytes r) (rt_ArchiveSHA256 r) (rt_CiphertextSHA256 r) (rt_StoragePath r)
    (rt_UploadLeaseUntil r) (rt_DownloadLeaseUntil r) (rt_ExpiresAt r) (rt_CreatedAt r)
    (rt_UpdatedAt r) (rt_ConsumedAt r).
Definition rt_set_SnapshotID (x : string) (r : RelayTransfer) : RelayTransfer :=
  Build_RelayTransfer (rt_WorkflowID r) (rt_TransportScopeID r) x (rt_SourceNodeID r)
    (rt_TargetNodeID r) (rt_Attempt r) (rt_State r) (rt_UploadTokenHash r) (rt_DownloadTokenHash r)
    (rt_ControllerGeneration r) (rt_MaxCiphertextBytes r) (rt_PlaintextBytes r)
    (rt_CiphertextBytes r) (rt_ArchiveSHA256 r) (rt_CiphertextSHA256 r) (rt_StoragePath r)
    (rt_UploadLeaseUntil r) (rt_DownloadLeaseUntil r) (rt_ExpiresAt r) (rt_CreatedAt r)
    (rt_UpdatedAt r) (rt_ConsumedAt r).
Definition rt_set_SourceNodeID (x : Z) (r : RelayTransfer) : RelayTransfer :=
  Build_RelayTransfer (rt_WorkflowID r) (rt_TransportScopeID r) (rt_SnapshotID r) x
    (rt_TargetNodeID r) (rt_Attempt r) (rt_State r) (rt_UploadTokenHash r) (rt_DownloadTokenHash r)
    (rt_ControllerGeneration r) (rt_MaxCiphertextBytes r) (rt_PlaintextBytes r)
    (rt_CiphertextBytes r) (rt_ArchiveSHA256 r) (rt_CiphertextSHA256 r) (rt_StoragePath r)
    (rt_UploadLeaseUntil r) (rt_DownloadLeaseUntil r) (rt_ExpiresAt r) (rt_CreatedAt r)
    (rt_UpdatedAt r) (rt_ConsumedAt r).
Definition rt_set_TargetNodeID (x : Z) (r : RelayTransfer) : RelayTransfer :=
  Build_RelayTransfer (rt_WorkflowID r) (rt_TransportScopeID r) (rt_SnapshotID r)
    (rt_SourceNodeID r) x (rt_Attempt r) (rt_State r) (rt_UploadTokenHash r)
    (rt_DownloadTokenHash r) (rt_ControllerGeneration r) (rt_MaxCiphertextBytes r)
    (rt_PlaintextBytes r) (rt_CiphertextBytes r) (rt_ArchiveSHA256 r) (rt_CiphertextSHA256 r)
    (rt_StoragePath r) (rt_UploadLeaseUntil r) (rt_DownloadLeaseUntil r) (rt_ExpiresAt r)
    (rt_CreatedAt r) (rt_UpdatedAt r) (rt_ConsumedAt r).
Definition rt_set_Attempt (x : Z) (r : RelayTransfer) : RelayTransfer :=
  Build_RelayTransfer (rt_WorkflowID r) (rt_TransportScopeID r) (rt_SnapshotID r)
    (rt_SourceNodeID r) (rt_TargetNodeID r) x (rt_State r) (rt_UploadTokenHash r)
    (rt_DownloadTokenHash r) (rt_ControllerGeneration r) (rt_MaxCiphertextBytes r)
    (rt_PlaintextBytes r) (rt_CiphertextBytes r) (rt_ArchiveSHA256 r) (rt_CiphertextSHA256 r)
    (rt_StoragePath r) (rt_UploadLeaseUntil r) (rt_DownloadLeaseUntil r) (rt_ExpiresAt r)
    (rt_CreatedAt r) (rt_UpdatedAt r) (rt_ConsumedAt r).
Definition rt_set_State (x : string) (r : RelayTransfer) : RelayTransfer :=
  Build_RelayTransfer (rt_WorkflowID r) (rt_TransportScopeID r) (rt_SnapshotID r)
    (rt_SourceNodeID r) (rt_TargetNodeID r) (rt_Attempt r) x (rt_UploadTokenHash r)
    (rt_DownloadTokenHash r) (rt_ControllerGeneration r) (rt_MaxCiphertextBytes r)
    (rt_PlaintextBytes r) (rt_CiphertextBytes r) (rt_ArchiveSHA256 r) (rt_CiphertextSHA256 r)
    (rt_StoragePath r) (rt_UploadLeaseUntil r) (rt_DownloadLeaseUntil r) (rt_ExpiresAt r)
    (rt_CreatedAt r) (rt_UpdatedAt r) (rt_ConsumedAt r).
Definition rt_set_UploadTokenHash (x : string) (r : RelayTransfer) : RelayTransfer :=
  Build_RelayTransfer (rt_WorkflowID r) (rt_TransportScopeID r) (rt_SnapshotID r)
    (rt_SourceNodeID r) (rt_TargetNodeID r) (rt_Attempt r) (rt_State r) x (rt_DownloadTokenHash r)
    (rt_ControllerGeneration r) (rt_MaxCiphertextBytes r) (rt_PlaintextBytes r)
    (rt_CiphertextBytes r) (rt_ArchiveSHA256 r) (rt_CiphertextSHA256 r) (rt_StoragePath r)
    (rt_UploadLeaseUntil r) (rt_DownloadLeaseUntil r) (rt_ExpiresAt r) (rt_CreatedAt r)
    (rt_UpdatedAt r) (rt_ConsumedAt r).
Definition rt_set_DownloadTokenHash (x : string) (r : RelayTransfer) : RelayTransfer :=
  Build_RelayTransfer (rt_WorkflowID r) (rt_TransportScopeID r) (rt_SnapshotID r)
    (rt_SourceNodeID r) (rt_TargetNodeID r) (rt_Attempt r) (rt_State r) (rt_UploadTokenHash r) x
    (rt_ControllerGeneration r) (rt_MaxCiphertextBytes r) (rt_PlaintextBytes r)
    (rt_CiphertextBytes r) (rt_ArchiveSHA256 r) (rt_CiphertextSHA256 r) (rt_StoragePath r)
    (rt_UploadLeaseUntil r) (rt_DownloadLeaseUntil r) (rt_ExpiresAt r) (rt_CreatedAt r)
    (rt_UpdatedAt r) (rt_ConsumedAt r).
Definition rt_set_ControllerGeneration (x : Z) (r : RelayTransfer) : RelayTransfer :=
  Build_RelayTransfer (rt_WorkflowID r) (rt_TransportScopeID r) (rt_SnapshotID r)
    (rt_SourceNodeID r) (rt_TargetNodeID r) (rt_Attempt r) (rt_State r) (rt_UploadTokenHash r)
    (rt_DownloadTokenHash r) x (rt_MaxCiphertextBytes r) (rt_PlaintextBytes r)
    (rt_CiphertextBytes r) (rt_ArchiveSHA256 r) (rt_CiphertextSHA256 r) (rt_StoragePath r)
    (rt_UploadLeaseUntil r) (rt_DownloadLeaseUntil r) (rt_ExpiresAt r) (rt_CreatedAt r)
    (rt_UpdatedAt r) (rt_ConsumedAt r).
Definition rt_set_MaxCiphertextBytes (x : Z) (r : RelayTransfer) : RelayTransfer :=
  Build_RelayTransfer (rt_WorkflowID r) (rt_TransportScopeID r) (rt_SnapshotID r)
    (rt_SourceNodeID r) (rt_TargetNodeID r) (rt_Attempt r) (rt_State r) (rt_UploadTokenHash r)
    (rt_DownloadTokenHash r) (rt_ControllerGeneration r) x (rt_PlaintextBytes r)
    (rt_CiphertextBytes r) (rt_ArchiveSHA256 r) (rt_CiphertextSHA256 r) (rt_StoragePath r)
    (rt_UploadLeaseUntil r) (rt_DownloadLeaseUntil r) (rt_ExpiresAt r) (rt_CreatedAt r)
    (rt_UpdatedAt r) (rt_ConsumedAt r).
Definition rt_set_PlaintextBytes (x : option Z) (r : RelayTransfer) : RelayTransfer :=
  Build_RelayTransfer (rt_WorkflowID r) (rt_TransportScopeID r) (rt_SnapshotID r)
    (rt_SourceNodeID r) (rt_TargetNodeID r) (rt_Attempt r) (rt_State r) (rt_UploadTokenHash r)
    (rt_DownloadTokenHash r) (rt_ControllerGeneration r) (rt_MaxCiphertextBytes r) x
    (rt_CiphertextBytes r) (rt_ArchiveSHA256 r) (rt_CiphertextSHA256 r) (rt_StoragePath r)
    (rt_UploadLeaseUntil r) (rt_DownloadLeaseUntil r) (rt_ExpiresAt r) (rt_CreatedAt r)
    (rt_UpdatedAt r) (rt_ConsumedAt r).
Definition rt_set_CiphertextBytes (x : option Z) (r : RelayTransfer) : RelayTransfer :=
  Build_RelayTransfer (rt_WorkflowID r) (rt_TransportScopeID r) (rt_SnapshotID r)
    (rt_SourceNodeID r) (rt_TargetNodeID r) (rt_Attempt r) (rt_State r) (rt_UploadTokenHash r)
    (rt_DownloadTokenHash r) (rt_ControllerGeneration r) (rt_MaxCiphertextBytes r)
    (rt_PlaintextBytes r) x (rt_ArchiveSHA256 r) (rt_CiphertextSHA256 r) (rt_StoragePath r)
    (rt_UploadLeaseUntil r) (rt_DownloadLeaseUntil r) (rt_ExpiresAt r) (rt_CreatedAt r)
    (rt_UpdatedAt r) (rt_ConsumedAt r).
Definition rt_set_ArchiveSHA256 (x : option string) (r : RelayTransfer) : RelayTransfer :=
  Build_RelayTransfer (rt_WorkflowID r) (rt_TransportScopeID r) (rt_SnapshotID r)
    (rt_SourceNodeID r) (rt_TargetNodeID r) (rt_Attempt r) (rt_State r) (rt_UploadTokenHash r)
    (rt_DownloadTokenHash r) (rt_ControllerGeneration r) (rt_MaxCiphertextBytes r)
    (rt_PlaintextBytes r) (rt_CiphertextBytes r) x (rt_CiphertextSHA256 r) (rt_StoragePath r)
    (rt_UploadLeaseUntil r) (rt_DownloadLeaseUntil r) (rt_ExpiresAt r) (rt_CreatedAt r)
    (rt_UpdatedAt r) (rt_ConsumedAt r).
Definition rt_set_CiphertextSHA256 (x : option string) (r : RelayTransfer) : RelayTransfer :=
  Build_RelayTransfer (rt_WorkflowID r) (rt_TransportScopeID r) (rt_SnapshotID r)
    (rt_SourceNodeID r) (rt_TargetNodeID r) (rt_Attempt r) (rt_State r) (rt_UploadTokenHash r)
    (rt_DownloadTokenHash r) (rt_ControllerGeneration r) (rt_MaxCiphertextBytes r)
    (rt_PlaintextBytes r) (rt_CiphertextBytes r) (rt_ArchiveSHA256 r) x (rt_StoragePath r)
    (rt_UploadLeaseUntil r) (rt_DownloadLeaseUntil r) (rt_ExpiresAt r) (rt_CreatedAt r)
    (rt_UpdatedAt r) (rt_ConsumedAt r).
Definition rt_set_StoragePath (x : option string) (r : RelayTransfer) : RelayTransfer :=
  Build_RelayTransfer (rt_WorkflowID r) (rt_TransportScopeID r) (rt_SnapshotID r)
    (rt_SourceNodeID r) (rt_TargetNodeID r) (rt_Attempt r) (rt_State r) (rt_UploadTokenHash r)
    (rt_DownloadTokenHash r) (rt_ControllerGeneration r) (rt_MaxCiphertextBytes r)
    (rt_PlaintextBytes r) (rt_CiphertextBytes r) (rt_ArchiveSHA256 r) (rt_CiphertextSHA256 r) x
    (rt_UploadLeaseUntil r) (rt_DownloadLeaseUntil r) (rt_ExpiresAt r) (rt_CreatedAt r)
    (rt_UpdatedAt r) (rt_ConsumedAt r).
Definition rt_set_UploadLeaseUntil (x : option time) (r : RelayTransfer) : RelayTransfer :=
  Build_RelayTransfer (rt_WorkflowID r) (rt_TransportScopeID r) (rt_SnapshotID r)
    (rt_SourceNodeID r) (rt_TargetNodeID r) (rt_Attempt r) (rt_State r) (rt_UploadTokenHash r)
    (rt_DownloadTokenHash r) (rt_ControllerGeneration r) (rt_MaxCiphertextBytes r)
    (rt_PlaintextBytes r) (rt_CiphertextBytes r) (rt_ArchiveSHA256 r) (rt_CiphertextSHA256 r)
    (rt_StoragePath r) x (rt_DownloadLeaseUntil r) (rt_ExpiresAt r) (rt_CreatedAt r)
    (rt_UpdatedAt r) (rt_ConsumedAt r).
Definition rt_set_DownloadLeaseUntil (x : option time) (r : RelayTransfer) : RelayTransfer :=
  Build_RelayTransfer (rt_WorkflowID r) (rt_TransportScopeID r) (rt_SnapshotID r)
    (rt_SourceNodeID r) (rt_TargetNodeID r) (rt_Attempt r) (rt_State r) (rt_UploadTokenHash r)
    (rt_DownloadTokenHash r) (rt_ControllerGeneration r) (rt_MaxCiphertextBytes r)
    (rt_PlaintextBytes r) (rt_CiphertextBytes r) (rt_ArchiveSHA256 r) (rt_CiphertextSHA256 r)
    (rt_StoragePath r) (rt_UploadLeaseUntil r) x (rt_ExpiresAt r) (rt_CreatedAt r) (rt_UpdatedAt r)
    (rt_ConsumedAt r).
Definition rt_set_ExpiresAt (x : time) (r : RelayTransfer) : RelayTransfer :=
  Build_RelayTransfer (rt_WorkflowID r) (rt_TransportScopeID r) (rt_SnapshotID r)
    (rt_SourceNodeID r) (rt_TargetNodeID r) (rt_Attempt r) (rt_State r) (rt_UploadTokenHash r)
    (rt_DownloadTokenHash r) (rt_ControllerGeneration r) (rt_MaxCiphertextBytes r)
    (rt_PlaintextBytes r) (rt_CiphertextBytes r) (rt_ArchiveSHA256 r) (rt_CiphertextSHA256 r)
    (rt_StoragePath r) (rt_UploadLeaseUntil r) (rt_DownloadLeaseUntil r) x (rt_CreatedAt r)
    (rt_UpdatedAt r) (rt_ConsumedAt r).
Definition rt_set_CreatedAt (x : time) (r : RelayTransfer) : RelayTransfer :=
  Build_RelayTransfer (rt_WorkflowID r) (rt_TransportScopeID r) (rt_SnapshotID r)
    (rt_SourceNodeID r) (rt_TargetNodeID r) (rt_Attempt r) (rt_State r) (rt_UploadTokenHash r)
    (rt_DownloadTokenHash r) (rt_ControllerGeneration r) (rt_MaxCiphertextBytes r)
    (rt_PlaintextBytes r) (rt_CiphertextBytes r) (rt_ArchiveSHA256 r) (rt_CiphertextSHA256 r)
    (rt_StoragePath r) (rt_UploadLeaseUntil r) (rt_DownloadLeaseUntil r) (rt_ExpiresAt r) x
    (rt_UpdatedAt r) (rt_ConsumedAt r).
Definition rt_set_UpdatedAt (x : time) (r : RelayTransfer) : RelayTransfer :=
  Build_RelayTransfer (rt_WorkflowID r) (rt_TransportScopeID r) (rt_SnapshotID r)
    (rt_SourceNodeID r) (rt_TargetNodeID r) (rt_Attempt r) (rt_State r) (rt_UploadTokenHash r)
    (rt_DownloadTokenHash r) (rt_ControllerGeneration r) (rt_MaxCiphertextBytes r)
    (rt_PlaintextBytes r) (rt_CiphertextBytes r) (rt_ArchiveSHA256 r) (rt_CiphertextSHA256 r)
    (rt_StoragePath r) (rt_UploadLeaseUntil r) (rt_DownloadLeaseUntil r) (rt_ExpiresAt r)
    (rt_CreatedAt r) x (rt_ConsumedAt r).
Definition rt_set_ConsumedAt (x : option time) (r : RelayTransfer) : RelayTransfer :=
  Build_RelayTransfer (rt_WorkflowID r) (rt_TransportScopeID r) (rt_SnapshotID r)
    (rt_SourceNodeID r) (rt_TargetNodeID r) (rt_Attempt r) (rt_State r) (rt_UploadTokenHash r)
    (rt_DownloadTokenHash r) (rt_ControllerGeneration r) (rt_MaxCiphertextBytes r)
    (rt_PlaintextBytes r) (rt_CiphertextBytes r) (rt_ArchiveSHA256 r) (rt_CiphertextSHA256 r)
    (rt_StoragePath r) (rt_UploadLeaseUntil r) (rt_DownloadLeaseUntil r) (rt_ExpiresAt r)
    (rt_CreatedAt r) (rt_UpdatedAt r) x.

(** ** Statements *)

Notation WTx := (TxS WDB).

Definition ErrNoRows : string := "sql: no rows in result set".

(** [QueryRow ... Scan] of a query with at most one row. *)
Definition select1 {A} (q : WDB -> option A) (missing : string) : WTx A :=
  fun d => match q d with Some a => Ok (a, d) | None => Fail missing end.

(** ** Constraints *)

Definition terminal_states : list string := ["succeeded"; "cancelled"; "failed"].

(** [state IN ('succeeded','cancelled','failed')]. *)
Definition is_terminal (state : string) : bool := bool_decide (state ∈ terminal_states).
Definition is_open (w : Workflow) : bool := negb (is_terminal (wf_State w)).

Definition workflow_types : list string :=
  ["registration"; "password_sync"; "snapshot"; "restore"; "replica_move"; "conflict_resolution";
   "node_retirement"; "controller_rebuild"].
Definition workflow_states : list string :=
  ["scheduled"; "quiescing"; "drained"; "snapshotting"; "transferring"; "verifying"; "publishing";
   "retry_wait"; "cancelled"; "failed"; "succeeded"].

(** The CHECK constraints of a row of workflows. *)
Definition workflow_ok (w : Workflow) : bool :=
  bool_decide (wf_Type w ∈ workflow_types) && bool_decide (wf_State w ∈ workflow_states)
  && (0 <? wf_ControllerGeneration w) && (0 <=? wf_Attempt w) && (wf_Attempt w <=? MaxInt32)
  && (0 <=? wf_GenerationRecoveryCount w) && (wf_GenerationRecoveryCount w <=? wf_Attempt w)
  && bool_decide (wf_CleanupState w ∈ ["not_required"; "pending"; "running"; "succeeded"; "failed"])
  && bool_decide (wf_TransferMode w ∈ ["direct"; "relay"]).

(** The rows idx_workflows_one_user_snapshot keeps one of per user. *)
Definition holds_user (u : Z) (w : Workflow) : bool :=
  bool_decide (wf_Type w ∈ ["snapshot"; "restore"; "conflict_resolution"]) && is_open w
  && bool_decide (wf_UserID w = Some u).

(** Two rows of one user are in the index. *)
Definition shares_user (m : gmap string Workflow) (id : string) (w : Workflow) : bool :=
  match wf_UserID w with
  | Some u => holds_user u w
              && negb (Nat.eqb (length (rows_where (fun id' w' => negb (String.eqb id' id) && holds_user u w') m)) 0)
  | None => false
  end.

Definition workflows_ok (m : gmap string Workflow) : bool :=
  Nat.eqb (length (rows_where (fun id w => negb (workflow_ok w) || shares_user m id w
    || negb (Nat.eqb (length (rows_where (fun id' w' => negb (String.eqb id' id)
         && String.eqb (wf_OperationID w') (wf_OperationID w)) m)) 0)) m)) 0.

(** A statement that leaves the table [m]. *)
Definition write_workflows (m : gmap string Workflow) : WTx unit := fun d =>
  if workflows_ok m then Ok (tt, put_workflows m d) else Fail sql_error.

(** [UPDATE workflows SET f WHERE p], and the number of rows. *)
Definition update_workflows (p : WDB -> string -> Workflow -> bool) (f : Workflow -> Workflow) : WTx nat :=
  fun d =>
    match write_workflows (update_where (p d) f (wd_workflows d)) d with
    | Ok (_, d') => Ok (length (rows_where (p d) (wd_workflows d)), d')
    | Fail e => Fail e
    end.

(** The CHECK constraint on attempt is the only one of a step that an UPDATE of
    literal states can violate. *)
Definition step_ok (s : WorkflowStep) : bool := (0 <=? st_Attempt s) && (st_Attempt s <=? MaxInt32).

Definition update_steps (p : string * string -> WorkflowStep -> bool) (f : WorkflowStep -> WorkflowStep)
  : WTx nat := fun d =>
  let m := update_where p f (wd_steps d) in
  if Nat.eqb (length (rows_where (fun _ s => negb (step_ok s)) m)) 0
  then Ok (length (rows_where p (wd_steps d)), put_steps m d) else Fail sql_error.

(** The unique indexes of snapshot_transfer_capabilities: by token, and one prepared
    row per workflow. *)
Definition caps_ok (m : gmap string TransferCapability) : bool :=
  Nat.eqb (length (rows_where (fun id c => negb (Nat.eqb (length (rows_where (fun id' c' =>
    negb (String.eqb id' id)
    && (String.eqb (tc_TokenHash c') (tc_TokenHash c)
        || (String.eqb (tc_WorkflowID c') (tc_WorkflowID c) && String.eqb (tc_State c) "prepared"
            && String.eqb (tc_State c') "prepared"))) m)) 0)) m)) 0.

Definition write_caps (m : gmap string TransferCapability) : WTx unit := fun d =>
  if caps_ok m then Ok (tt, put_caps m d) else Fail sql_error.

Definition cap_set_state (state : string) (consumed : option time) (c : TransferCapability) : TransferCapability :=
  {| tc_WorkflowID := tc_WorkflowID c; tc_SnapshotID := tc_SnapshotID c;
     tc_SourceNodeID := tc_SourceNodeID c; tc_TargetNodeID := tc_TargetNodeID c;
     tc_TokenHash := tc_TokenHash c; tc_State := state;
     tc_ControllerGeneration := tc_ControllerGeneration c; tc_ExpiresAt := tc_ExpiresAt c;
     tc_ConsumedAt := consumed; tc_CreatedAt := tc_CreatedAt c |}.

(** The generation of a row is the active one. *)
Definition generation_active (g : Z) (d : WDB) : bool :=
  match db_epochs (wd_core d) !! g with
  | Some e => String.eqb (ep_State e) "active"
  | None => false
  end.

(** Replacing the table of node accounts. *)
Definition set_accounts (x : gmap (Z * Z) NodeAccount) (d : DB) : DB :=
  Build_DB (db_users d) (db_legacy d) (db_admins d) (db_nodes d) x (db_epochs d)
    (db_leases d) (db_lease_ops d) (db_tickets d) (db_sessions d) (db_commands d)
    (db_credentials d) (db_rotations d) (db_rebuilds d) (db_rebuild_nodes d)
    (db_enrollments d) (db_nonces d) (db_audit d).

(** ** Statements as relations

    What a transaction does to a part of the database is a preorder that each of its
    statements respects. *)

Definition tx_rel {S A} (R : S -> S -> Prop) (m : TxS S A) : Prop :=
  forall d a d', m d = Ok (a, d') -> R d d'.

Create HintDb tx_frame discriminated.
#[export] Hint Constants Opaque : tx_frame.

Section Relations.
Context {S : Type} (R : S -> S -> Prop) `{!PreOrder R}.

Lemma tx_rel_ret {A} (a : A) : tx_rel R (tx_ret a).
Proof. intros d b d' E. apply tx_ret_ok in E as [_ ->]. reflexivity. Qed.

Lemma tx_rel_fail {A} (e : string) : tx_rel R (A := A) (tx_fail e).
Proof. by intros d b d' E. Qed.

Lemma tx_rel_read {A} (f : S -> A) : tx_rel R (tx_read f).
Proof. intros d b d' E. apply tx_read_ok in E as [_ ->]. reflexivity. Qed.

Lemma tx_rel_bind {A B} (m : TxS S A) (k : A -> TxS S B) :
  tx_rel R m -> (forall a, tx_rel R (k a)) -> tx_rel R (tx_bind m k).
Proof.
  intros Hm Hk d b d' E. apply tx_bind_ok in E as (a & d1 & E1 & E2).
  etrans; [by eapply Hm | by eapply Hk].
Qed.

Lemma tx_rel_require (b : bool) (e : string) : tx_rel R (require b e).
Proof. unfold require. destruct b; [apply tx_rel_ret | apply tx_rel_fail]. Qed.

Lemma tx_rel_lift {A} (r : result A) : tx_rel R (tx_lift r).
Proof. intros d a d' E. unfold tx_lift in E. destruct r; [|done]. injection E as _ <-. reflexivity. Qed.

Lemma tx_rel_uuid `{Postgres} (s : string) : tx_rel R (uuid_param s).
Proof. unfold uuid_param. destruct (uuid_in s); [apply tx_rel_ret | apply tx_rel_fail]. Qed.

Lemma tx_rel_run {A} (m : TxS S A) d : tx_rel R m -> R d (runTx m d).2.
Proof. intros Hm. apply runTx_rel; [reflexivity|]. intros a d'. apply Hm. Qed.

End Relations.

Lemma tx_rel_select1 {A} R `{!PreOrder R} (q : WDB -> option A) e : tx_rel R (select1 q e).
Proof. intros d a d' E. unfold select1 in E. destruct (q d); [|done]. injection E as _ <-. reflexivity. Qed.

Lemma select1_ok {A} (q : WDB -> option A) e d a d' :
  select1 q e d = Ok (a, d') <-> q d = Some a /\ d' = d.
Proof. unfold select1. destruct (q d); naive_solver. Qed.

Lemma require_ok {S} (b : bool) e (d : S) u d' : require b e d = Ok (u, d') -> b = true /\ d' = d.
Proof. unfold require. destruct b; [intros E; by apply tx_ret_ok in E as [_ ->] | done]. Qed.

(** The statements of a transaction, one after the other. *)
Ltac tx_frame :=
  repeat match goal with
  | |- tx_rel _ (tx_bind _ _) => apply tx_rel_bind; [exact _ | | intros ?]
  | |- tx_rel _ (tx_ret _) => apply tx_rel_ret; exact _
  | |- tx_rel _ (tx_fail _) => apply tx_rel_fail
  | |- tx_rel _ (tx_read _) => apply tx_rel_read; exact _
  | |- tx_rel _ (tx_lift _) => apply tx_rel_lift; exact _
  | |- tx_rel _ (require _ _) => apply tx_rel_require; exact _
  | |- tx_rel _ (uuid_param _) => apply tx_rel_uuid; exact _
  | |- tx_rel _ (select1 _ _) => apply tx_rel_select1; exact _
  | |- tx_rel _ (if ?b then _ else _) => destruct b
  | |- tx_rel _ (match ?x with _ => _ end) => destruct x
  | |- tx_rel _ _ => solve [eauto 4 with tx_frame]
  end.

(** Take a committed transaction apart, with its reads and tests. *)
Ltac tx_split :=
  repeat (tx_go; match goal with
  | H : uuid_param _ _ = Ok (_, _) |- _ => apply uuid_param_ok in H as [? ->]
  | H : select1 _ _ _ = Ok (_, _) |- _ => apply select1_ok in H as [? ->]
  | H : require _ _ _ = Ok (_, _) |- _ => apply require_ok in H as [? ->]
  end); tx_go.

(** ** What the checked writes do *)

Lemma update_workflows_ok p f d n d' :
  update_workflows p f d = Ok (n, d') ->
  workflows_ok (update_where (p d) f (wd_workflows d)) = true
  /\ n = length (rows_where (p d) (wd_workflows d))
  /\ d' = put_workflows (update_where (p d) f (wd_workflows d)) d.
Proof.
  unfold update_workflows, write_workflows. destruct (workflows_ok _) eqn:E; [|done]. by intros [= <- <-].
Qed.

Lemma update_steps_ok p f d n d' :
  update_steps p f d = Ok (n, d') ->
  n = length (rows_where p (wd_steps d)) /\ d' = put_steps (update_where p f (wd_steps d)) d.
Proof. unfold update_steps. destruct (Nat.eqb _ 0); [|done]. by intros [= <- <-]. Qed.

(** The rows of workflows and of capabilities. *)
Definition same_flow (d d' : WDB) : Prop :=
  wd_workflows d' = wd_workflows d /\ wd_caps d' = wd_caps d.

#[export] Instance same_flow_preorder : PreOrder same_flow.
Proof. split; [done|]. intros d1 d2 d3 [E1 E2] [E3 E4]. split; congruence. Qed.

Lemma update_steps_flow p f : tx_rel same_flow (update_steps p f).
Proof. intros d n d' E. by apply update_steps_ok in E as [_ ->]. Qed.

#[export] Hint Resolve update_steps_flow : tx_frame.
