(* ===== verification/SnapshotStore.v ===== *)
(** * Snapshot workflows in the store

    src/internal/store/snapshots.go, with the parts of restores.go, backups.go and
    nodes.go it calls: a snapshot of one user's data travels from a source node to a
    target node as one row of workflows with its steps, its manifest and its
    transfer capability, and every phase change is a guarded statement.

    Ids that the server makes ([gen_random_uuid]) are arguments.  The server's
    [now()] and Go's [time.Now] are the argument [clock]. *)

From Stdlib Require Import ZArith Lia Ascii String.
From stdpp Require Import base list gmap strings.
From S2P Require Import Prelude GoStrings AgentState Schema Leases Handoffs WorkflowSchema.
#[local] Open Scope Z_scope.

Definition ErrInvalidSnapshotWorkflow : string := "invalid snapshot workflow input".
Definition ErrSnapshotUserActive : string := "snapshot user is active".
Definition ErrSnapshotStateConflict : string := "snapshot workflow state conflict".
Definition ErrNodeRetirementState : string := "node retirement state conflict".
Definition ErrIndependentReconciliationState : string := "independent reconciliation state conflict".
Definition ErrInvalidRestoreWorkflow : string := "invalid restore workflow input".
Definition ErrRestoreUnavailable : string := "restore source or target unavailable".
Definition ErrRestoreConflict : string := "restore operation conflicts with existing facts".
Definition ErrInvalidBackupJob : string := "invalid backup job".
Definition ErrBackupJobTerminal : string := "backup job is already terminal".

Record CreateSnapshotWorkflowParams := {
  sp_WorkflowID : string;
  sp_OperationID : string;
  sp_SnapshotID : string;
  sp_CapabilityID : string;
  sp_CapabilityHash : string;
  sp_LegacyBackupJobID : Z;
  sp_LegacyUserID : Z;
  sp_GlobalUserID : Z;
  sp_SourceNodeID : Z;
  sp_TargetNodeID : Z;
  sp_DestinationKind : string;
  sp_TransferMode : string;
  sp_IndependentReconciliationID : string;
  sp_IndependentMarker : string;
  sp_RetirementItemID : string;
  sp_RetirementTrigger : string;
  sp_CapabilityExpires : time;
  sp_Now : time
}.

Record SnapshotWorkflow := {
  sw_WorkflowID : string;
  sw_SnapshotID : string;
  sw_ActivityEpoch : Z;
  sw_ControllerGeneration : Z
}.

Definition nullIfEmpty (value : string) : option string :=
  if String.eqb value "" then None else Some value.

(** The first 512 bytes of an error text, which may end inside a character: the
    encoding of texts is not modelled. *)
Definition clip (s : string) : string := if 512 <? slen s then substring 0 512 s else s.

(** [^[a-z][a-z0-9_]{0,63}$]. *)
Definition reason_byte (first : bool) (c : ascii) : bool :=
  let n := Z.of_nat (nat_of_ascii c) in
  ((97 <=? n) && (n <=? 122)) || (negb first && (((48 <=? n) && (n <=? 57)) || (n =? 95))).

Definition ValidMachineReasonCode (value : string) : bool :=
  match bytes_of value with
  | [] => false
  | c :: l => reason_byte true c && forallb (reason_byte false) l && (Z.of_nat (length l) <=? 63)
  end.

(** ** What the statements ask of nodes *)

Definition node_of (d : WDB) (id : Z) : option Node := db_nodes (wd_core d) !! id.

Definition transfer_of (d : WDB) (id : Z) : NodeTransfer :=
  default {| nt_TransferURL := ""; nt_IsBackupTarget := false |} (wd_transfer d !! id).

Definition reachable (n : Node) : bool :=
  String.eqb (nd_ConnectivityState n) "online" && String.eqb (nd_CompatibilityState n) "compatible".

Definition managed (n : Node) : bool :=
  String.eqb (nc_ControlMode (nd_Control n)) "managed"
  && String.eqb (nc_DesiredControlMode (nd_Control n)) "managed".

Definition has_capacity (n : Node) : bool := bool_decide (cc_State (nd_Capacity n) ∈ ["open"; "busy"]).

(** The transfer predicate a transfer mode adds. *)
Definition transferable (d : WDB) (mode : string) (id : Z) : bool :=
  String.eqb mode "relay" || negb (String.eqb (nt_TransferURL (transfer_of d id)) "").

(** A cleanup task that is still open. *)
Definition cleanup_open (c : CleanupTask) : bool :=
  bool_decide (ct_State c ∈ ["pending"; "running"; "retry_wait"]).

Definition cleanup_active (d : WDB) (user : Z) (nodes : list Z) : bool :=
  negb (Nat.eqb (length (rows_where (fun _ c => (ct_UserID c =? user) && bool_decide (ct_NodeID c ∈ nodes)
                                               && cleanup_open c) (wd_cleanups d))) 0).

(** The two flags of the eligibility query of a retirement snapshot. *)
Definition retirement_source_eligible (kind : string) (n : Node) : bool :=
  String.eqb (nd_Role n) "compute" && reachable n && managed n
  && String.eqb (nd_OperationalState n) (if String.eqb kind "authoritative_home" then "retiring" else "active").

Definition retirement_target_eligible (d : WDB) (mode kind : string) (id : Z) (n : Node) : bool :=
  String.eqb (nd_Role n) (if String.eqb kind "authoritative_home" then "compute" else "storage")
  && reachable n && String.eqb (nd_OperationalState n) "active" && managed n && has_capacity n
  && transferable d mode id
  && (String.eqb kind "authoritative_home" || nt_IsBackupTarget (transfer_of d id)).

(** The target of an independent reconciliation. *)
Definition reconciliation_target_eligible (d : WDB) (mode : string) (id : Z) (n : Node) : bool :=
  String.eqb (nd_Role n) "storage" && nt_IsBackupTarget (transfer_of d id) && reachable n
  && String.eqb (nd_OperationalState n) "active" && has_capacity n && transferable d mode id.

(** The two flags of the query of an ordinary snapshot. *)
Definition snapshot_source_eligible (n : Node) : bool :=
  String.eqb (nd_Role n) "compute" && reachable n && String.eqb (nd_OperationalState n) "active" && managed n.

Definition snapshot_target_eligible (d : WDB) (mode kind : string) (user id : Z) (n : Node) : bool :=
  String.eqb (nd_Role n) (if String.eqb kind "archive" then "storage" else "compute")
  && reachable n && String.eqb (nd_OperationalState n) "active" && managed n && has_capacity n
  && transferable d mode id
  && (negb (String.eqb kind "archive") || nt_IsBackupTarget (transfer_of d id))
  && negb (cleanup_active d user [id]).

(** ** Rows the transactions insert *)

Definition set_job_workflow (wid sid : string) (epoch : Z) (j : BackupJob) : BackupJob :=
  {| bj_UserID := bj_UserID j; bj_SrcNodeID := bj_SrcNodeID j; bj_DstNodeID := bj_DstNodeID j;
     bj_Trigger := bj_Trigger j; bj_Status := bj_Status j; bj_DataVersion := bj_DataVersion j;
     bj_Bytes := bj_Bytes j; bj_FileCount := bj_FileCount j; bj_Error := bj_Error j;
     bj_StartedAt := bj_StartedAt j; bj_FinishedAt := bj_FinishedAt j; bj_CreatedAt := bj_CreatedAt j;
     bj_WorkflowID := Some wid; bj_SnapshotID := Some sid; bj_ActivityEpoch := Some epoch |}.

Definition set_job_status (status : string) (error : option string) (finished : option time) (j : BackupJob)
  : BackupJob :=
  {| bj_UserID := bj_UserID j; bj_SrcNodeID := bj_SrcNodeID j; bj_DstNodeID := bj_DstNodeID j;
     bj_Trigger := bj_Trigger j; bj_Status := status; bj_DataVersion := bj_DataVersion j;
     bj_Bytes := bj_Bytes j; bj_FileCount := bj_FileCount j; bj_Error := error;
     bj_StartedAt := bj_StartedAt j; bj_FinishedAt := finished; bj_CreatedAt := bj_CreatedAt j;
     bj_WorkflowID := bj_WorkflowID j; bj_SnapshotID := bj_SnapshotID j; bj_ActivityEpoch := bj_ActivityEpoch j |}.

(** [UPDATE user_replicas SET state]. *)
Definition replica_set_state (state : string) (r : UserReplica) : UserReplica :=
  {| ur_Kind := ur_Kind r; ur_DataVersion := ur_DataVersion r; ur_State := state;
     ur_LastSyncAt := ur_LastSyncAt r; ur_Checksum := ur_Checksum r; ur_SizeBytes := ur_SizeBytes r |}.

Definition user_exists (d : WDB) (u : Z) : bool := bool_decide (is_Some (db_users (wd_core d) !! u)).
Definition legacy_exists (d : WDB) (u : Z) : bool := bool_decide (is_Some (db_legacy (wd_core d) !! u)).
Definition node_exists (d : WDB) (n : Z) : bool := bool_decide (is_Some (node_of d n)).

Section SnapshotStore.
Context `{Postgres}.

(** [INSERT INTO backup_jobs ... RETURNING id]. *)
Definition insert_job (user src dst : Z) (trigger status : string) (created : time) : WTx Z := fun d =>
  if legacy_exists d user && node_exists d src && node_exists d dst
  then let id := wd_job_seq d in
       Ok (id, put_job_seq (id + 1) (put_jobs (<[id :=
         {| bj_UserID := user; bj_SrcNodeID := src; bj_DstNodeID := dst; bj_Trigger := trigger;
            bj_Status := status; bj_DataVersion := None; bj_Bytes := None; bj_FileCount := None;
            bj_Error := None; bj_StartedAt := None; bj_FinishedAt := None; bj_CreatedAt := ts created;
            bj_WorkflowID := None; bj_SnapshotID := None; bj_ActivityEpoch := None |}]> (wd_jobs d)) d))
  else Fail sql_error.

(** [INSERT INTO workflows]; the columns left out take their defaults. *)
Definition insert_workflow (id op type : string) (user source target epoch generation : Z) (mode : string)
  (now : time) : WTx unit := fun d =>
  match wd_workflows d !! id with
  | Some _ => Fail sql_error
  | None =>
      if user_exists d user && node_exists d source && node_exists d target
      then write_workflows (<[id :=
        {| wf_OperationID := op; wf_Type := type; wf_State := "scheduled"; wf_UserID := Some user;
           wf_SourceNodeID := Some source; wf_TargetNodeID := Some target; wf_ActivityEpoch := Some epoch;
           wf_ControllerGeneration := generation; wf_Attempt := 0; wf_NextAttemptAt := None;
           wf_ErrorCode := None; wf_ErrorSummary := None; wf_CleanupState := "not_required";
           wf_LeaseOwner := None; wf_LeaseUntil := None; wf_ResumeState := None; wf_TransferMode := mode;
           wf_GenerationRecoveryCount := 0; wf_CreatedAt := ts now; wf_UpdatedAt := ts now;
           wf_FinishedAt := None |}]> (wd_workflows d)) d
      else Fail sql_error
  end.

(** [INSERT INTO workflow_steps]. *)
Definition insert_step (wid step state : string) (now : time) : WTx unit := fun d =>
  match wd_steps d !! (wid, step) with
  | Some _ => Fail sql_error
  | None => Ok (tt, put_steps (<[(wid, step) :=
      {| st_State := state; st_Attempt := 0; st_LeaseOwner := None; st_LeaseUntil := None;
         st_ErrorCode := None; st_StartedAt := None; st_FinishedAt := None; st_UpdatedAt := ts now |}]>
      (wd_steps d)) d)
  end.

Fixpoint insert_steps (wid : string) (steps : list (string * string)) (now : time) : WTx unit :=
  match steps with
  | [] => tx_ret tt
  | (step, state) :: rest => let! _ := insert_step wid step state now in insert_steps wid rest now
  end.

(** [make([]byte, 32)]. *)
Definition zero_digest : string := of_bytes (repeat (ascii_of_nat 0) 32).

(** [INSERT INTO snapshot_manifests]: the id and the workflow are unique. *)
Definition insert_manifest (sid wid : string) (user source epoch : Z) (now : time) : WTx unit := fun d =>
  match wd_manifests d !! sid with
  | Some _ => Fail sql_error
  | None =>
      if Nat.eqb (length (rows_where (fun _ s => String.eqb (sm_WorkflowID s) wid) (wd_manifests d))) 0
      then Ok (tt, put_manifests (<[sid :=
        {| sm_WorkflowID := wid; sm_UserID := user; sm_SourceNodeID := source; sm_ActivityEpoch := epoch;
           sm_FormatVersion := 1; sm_ManifestSHA256 := zero_digest; sm_ArchiveSHA256 := None;
           sm_FileCount := 0; sm_TotalBytes := 0; sm_State := "building"; sm_CreatedAt := ts now |}]>
        (wd_manifests d)) d)
      else Fail sql_error
  end.

(** [INSERT INTO snapshot_transfer_capabilities]. *)
Definition insert_cap (cid wid sid : string) (source target : Z) (hash : string) (generation : Z)
  (expires now : time) : WTx unit := fun d =>
  match wd_caps d !! cid with
  | Some _ => Fail sql_error
  | None => write_caps (<[cid :=
      {| tc_WorkflowID := wid; tc_SnapshotID := sid; tc_SourceNodeID := source; tc_TargetNodeID := target;
         tc_TokenHash := hash; tc_State := "prepared"; tc_ControllerGeneration := generation;
         tc_ExpiresAt := ts expires; tc_ConsumedAt := None; tc_CreatedAt := ts now |}]> (wd_caps d)) d
  end.

(** ** The account on the target of a hot standby *)

Definition newer_material (best : option AccountMaterial) (x : (Z * Z) * AccountMaterial) : option AccountMaterial :=
  match best with
  | Some b => if (am_PasswordMaterialVersion b <? am_PasswordMaterialVersion x.2)
                 || ((am_PasswordMaterialVersion b =? am_PasswordMaterialVersion x.2)
                     && (am_UpdatedAt b <? am_UpdatedAt x.2)) then Some x.2 else best
  | None => Some x.2
  end.

(** The newest password material of a user. *)
Definition password_material (d : WDB) (user : Z) : option AccountMaterial :=
  foldl newer_material None (rows_where (fun un m => (un.1 =? user)
    && bool_decide (is_Some (am_PasswordHash m)) && bool_decide (is_Some (am_PasswordSalt m))) (wd_materials d)).

(** The linked identity, discord before linuxdo. *)
Definition oauth_identity (d : WDB) (user : Z) : option (string * string) :=
  let linked (provider : string) :=
    head (List.filter (fun i => (ai_UserID i =? user) && String.eqb (ai_Status i) "active"
                                && String.eqb (ai_Provider i) provider) (wd_identities d)) in
  match linked "discord"%string, linked "linuxdo"%string with
  | Some i, _ => Some (ai_Provider i, ai_Subject i)
  | None, Some i => Some (ai_Provider i, ai_Subject i)
  | None, None => None
  end.

(** Another account of the node has the handle. *)
Definition handle_taken (d : WDB) (user node : Z) (handle : string) : bool :=
  negb (Nat.eqb (length (rows_where (fun un a => (un.2 =? node) && negb (un.1 =? user)
                                                && String.eqb (na_LocalHandle a) handle)
                           (db_accounts (wd_core d)))) 0).

(** The INSERT ... ON CONFLICT that makes the account pending. *)
Definition put_pending_account (wid : string) (user node : Z) (handle : string) (version : Z)
  (hash salt : option string) (subjects : list (string * string)) (now : time) : WTx unit := fun d =>
  if negb (user_exists d user && node_exists d node) || handle_taken d user node handle
  then Fail sql_error
  else
    let account_version :=
      match db_accounts (wd_core d) !! (user, node) with
      | Some _ => match wd_materials d !! (user, node) with Some m => am_AccountVersion m | None => 0 end + 1
      | None => 1
      end in
    Ok (tt,
      put_materials (<[(user, node) :=
        {| am_AccountVersion := account_version; am_PasswordMaterialVersion := version;
           am_PasswordHash := hash; am_PasswordSalt := salt; am_OAuthSubjects := subjects;
           am_ProvisioningWorkflowID := Some wid;
           am_LocalUserID := wd_materials d !! (user, node) ≫= am_LocalUserID;
           am_UpdatedAt := ts now |}]> (wd_materials d))
      (put_core (set_accounts (<[(user, node) := {| na_LocalHandle := handle; na_Status := "pending" |}]>
         (db_accounts (wd_core d))) (wd_core d)) d)).

Definition prepareWorkflowTargetAccount (wid : string) (globalUserID targetNodeID : Z) (handle : string)
  (now : time) : WTx bool := fun d =>
  let status := na_Status <$> db_accounts (wd_core d) !! (globalUserID, targetNodeID) in
  if bool_decide (status = Some "active"%string) then Ok (false, d)
  else if bool_decide (status = Some "disabled"%string) || bool_decide (status = Some "conflict"%string)
  then Fail ErrRestoreUnavailable
  else
    match password_material d globalUserID with
    | Some m =>
        (let! _ := put_pending_account wid globalUserID targetNodeID handle (am_PasswordMaterialVersion m)
           (nullIfEmpty (default ""%string (am_PasswordHash m)))
           (nullIfEmpty (default ""%string (am_PasswordSalt m))) [] now in
         tx_ret true) d
    | None =>
        match oauth_identity d globalUserID with
        | None => Fail ErrRestoreUnavailable
        | Some subject =>
            (let! _ := put_pending_account wid globalUserID targetNodeID handle 0 None None [subject] now in
             tx_ret true) d
        end
    end.

(** ** Creating a workflow *)

Definition retirement_snapshot (p : CreateSnapshotWorkflowParams) : bool :=
  negb (String.eqb (sp_RetirementItemID p) "") || negb (String.eqb (sp_RetirementTrigger p) "").
Definition independent_reconciliation (p : CreateSnapshotWorkflowParams) : bool :=
  negb (String.eqb (sp_IndependentReconciliationID p) "") || negb (String.eqb (sp_IndependentMarker p) "").
Definition transfer_mode (p : CreateSnapshotWorkflowParams) : string :=
  if String.eqb (sp_TransferMode p) "" then "direct" else sp_TransferMode p.

(** The checks before the transaction. *)
Definition create_valid (p : CreateSnapshotWorkflowParams) (now : time) : bool :=
  negb (String.eqb (sp_WorkflowID p) "") && negb (String.eqb (sp_OperationID p) "")
  && negb (String.eqb (sp_SnapshotID p) "") && negb (String.eqb (sp_CapabilityID p) "")
  && (slen (sp_CapabilityHash p) =? 32) && (retirement_snapshot p || (0 <? sp_LegacyBackupJobID p))
  && (0 <? sp_LegacyUserID p) && (0 <? sp_GlobalUserID p) && (0 <? sp_SourceNodeID p)
  && (0 <? sp_TargetNodeID p) && negb (sp_SourceNodeID p =? sp_TargetNodeID p)
  && bool_decide (sp_DestinationKind p ∈ ["archive"; "hot_standby"])
  && bool_decide (transfer_mode p ∈ ["direct"; "relay"])
  && (negb (retirement_snapshot p)
      || (validUUIDText (sp_RetirementItemID p) && (sp_LegacyBackupJobID p =? 0)
          && bool_decide (sp_RetirementTrigger p ∈ ["node_retirement"; "node_retirement_storage"])))
  && (negb (independent_reconciliation p)
      || (negb (String.eqb (sp_IndependentReconciliationID p) "")
          && negb (String.eqb (sp_IndependentMarker p) "")
          && String.eqb (sp_DestinationKind p) "archive"))
  && after (sp_CapabilityExpires p) now.

(** The item of a retirement, its operation and the home of its user. *)
Definition retirement_row (item : string) (d : WDB) : option (RetirementItem * RetirementOperation * Z) :=
  match wd_items d !! item with
  | Some i =>
      match it_WorkflowID i, wd_retirements d !! it_RetirementID i with
      | None, Some o =>
          Some (i, o, match it_LegacyUserID i with
                      | Some u => match db_legacy (wd_core d) !! u with
                                  | Some _ => default 0 (wd_homes d !! u)
                                  | None => 0
                                  end
                      | None => 0
                      end)
      | _, _ => None
      end
  | None => None
  end.

Definition item_open (state : string) : bool :=
  bool_decide (state ∈ ["pending"; "waiting_offline"; "retry_wait"; "provisioning"]).

(** The scope of a retirement snapshot: its item, and the nodes it may use. *)
Definition retirement_scope (p : CreateSnapshotWorkflowParams) (generation : Z)
  (row : RetirementItem * RetirementOperation * Z) : bool :=
  let '(i, o, home) := row in
  (it_UserID i =? sp_GlobalUserID p) && (default 0 (it_LegacyUserID i) =? sp_LegacyUserID p)
  && String.eqb (op_State o) "migrating" && (op_ControllerGeneration o =? generation)
  && item_open (it_State i)
  && negb (String.eqb (it_ItemKind i) "authoritative_home"
           && (negb (op_NodeID o =? sp_SourceNodeID p)
               || negb (String.eqb (sp_DestinationKind p) "hot_standby")))
  && negb (String.eqb (it_ItemKind i) "archive_replica"
           && ((op_NodeID o =? sp_SourceNodeID p) || negb (home =? sp_SourceNodeID p)
               || (op_NodeID o =? sp_TargetNodeID p) || negb (String.eqb (sp_DestinationKind p) "archive")))
  && bool_decide (it_ItemKind i ∈ ["authoritative_home"; "archive_replica"]).

(** The branch of a retirement snapshot; it makes the backup job itself. *)
Definition create_retirement (p : CreateSnapshotWorkflowParams) (generation : Z) (now : time) : WTx Z :=
  let! item := uuid_param (sp_RetirementItemID p) in
  let! row := select1 (retirement_row item) ErrNoRows in
  let! _ := require (retirement_scope p generation row) ErrNodeRetirementState in
  let! nodes := select1 (fun d => match node_of d (sp_SourceNodeID p), node_of d (sp_TargetNodeID p) with
                                  | Some s, Some t => Some (s, t) | _, _ => None end) ErrNoRows in
  let! d := tx_read (fun d : WDB => d) in
  let! _ := require (retirement_source_eligible (it_ItemKind row.1.1) nodes.1
                     && retirement_target_eligible d (transfer_mode p) (it_ItemKind row.1.1)
                          (sp_TargetNodeID p) nodes.2) ErrNodeRetirementState in
  insert_job (sp_LegacyUserID p) (sp_SourceNodeID p) (sp_TargetNodeID p) (sp_RetirementTrigger p)
    "pending" now.

(** The reconciliation a snapshot may be made for. *)
Definition reconciliation_open (r : Reconciliation) : bool :=
  bool_decide (ir_State r ∈ ["pending"; "retry_wait"]) && bool_decide (ir_WorkflowID r = None).

(** The branch of an independent reconciliation: every failure is one error. *)
Definition reconciliation_ready (p : CreateSnapshotWorkflowParams) (generation : Z) (d : WDB) : bool :=
  match uuid_in (sp_IndependentReconciliationID p) with
  | None => false
  | Some id =>
      match wd_reconciliations d !! id, node_of d (sp_SourceNodeID p), node_of d (sp_TargetNodeID p) with
      | Some r, Some n, Some t =>
          reconciliation_open r && bool_decide (ir_UserID r = Some (sp_GlobalUserID p))
          && (ir_NodeID r =? sp_SourceNodeID p) && String.eqb (ir_Marker r) (sp_IndependentMarker p)
          && (ir_ControllerGeneration r =? generation)
          && String.eqb (nc_ControlMode (nd_Control n)) NodeModeIndependentDraining
          && (nc_ActiveIndependentSessions (nd_Control n) =? 0)
          && reconciliation_target_eligible d (transfer_mode p) (sp_TargetNodeID p) t
      | _, _, _ => false
      end
  end.

Definition snapshot_nodes_ready (p : CreateSnapshotWorkflowParams) (d : WDB) : result bool :=
  match node_of d (sp_SourceNodeID p), node_of d (sp_TargetNodeID p) with
  | Some s, Some t =>
      Ok (snapshot_source_eligible s
          && snapshot_target_eligible d (transfer_mode p) (sp_DestinationKind p) (sp_GlobalUserID p)
               (sp_TargetNodeID p) t)
  | _, _ => Fail ErrNoRows
  end.

(** The lease of a user whose independent activity is being reconciled is ended. *)
Definition end_lease (now : time) (l : ActivityLease) : ActivityLease :=
  {| ls_UserID := ls_UserID l; ls_WriterNodeID := ls_WriterNodeID l; ls_SessionID := ls_SessionID l;
     ls_ActivityEpoch := ls_ActivityEpoch l; ls_State := "ended"; ls_LeaseExpiresAt := ts now;
     ls_LastPageHeartbeatAt := ls_LastPageHeartbeatAt l; ls_LastRequestAt := ls_LastRequestAt l;
     ls_InFlightReads := 0; ls_InFlightWrites := 0; ls_ControllerGeneration := ls_ControllerGeneration l;
     ls_UpdatedAt := ts now |}.

(** The user must be idle on the source; the result is the activity epoch. *)
Definition snapshot_epoch (p : CreateSnapshotWorkflowParams) (now : time) : WTx Z := fun d =>
  match db_leases (wd_core d) !! sp_GlobalUserID p with
  | None => Ok (1, d)
  | Some l =>
      let busy := negb (ls_WriterNodeID l =? sp_SourceNodeID p) || negb (ls_InFlightReads l =? 0)
                  || negb (ls_InFlightWrites l =? 0) || String.eqb (ls_State l) "quiescing" in
      if independent_reconciliation p
      then if busy || (after (ls_LeaseExpiresAt l) now && negb (String.eqb (ls_State l) "independent"))
           then Fail ErrSnapshotUserActive
           else Ok (ls_ActivityEpoch l,
                    put_core (set_leases (<[sp_GlobalUserID p := end_lease now l]> (db_leases (wd_core d)))
                                (wd_core d)) d)
      else if busy || after (ls_LeaseExpiresAt l) now || String.eqb (ls_State l) "independent"
      then Fail ErrSnapshotUserActive
      else Ok (ls_ActivityEpoch l, d)
  end.

(** The user name the target account gets. *)
Definition standby_handle (p : CreateSnapshotWorkflowParams) (d : WDB) : option string :=
  match db_users (wd_core d) !! sp_GlobalUserID p with
  | Some g => if bool_decide (gu_LegacyUserID g = Some (sp_LegacyUserID p))
              then us_Username <$> db_legacy (wd_core d) !! sp_LegacyUserID p else None
  | None => None
  end.

Definition snapshot_steps : list string :=
  ["quiesce"; "snapshot"; "prepare_target"; "transfer"; "verify"; "publish"; "cleanup"].

(** The steps and the state each starts in. *)
Definition workflow_plan (kind : string) (provision : bool) : list (string * string) :=
  (if String.eqb kind "hot_standby"
   then [("provision_account", if provision then "pending" else "succeeded")] else [])%string
  ++ map (fun s => (s, "pending"%string)) snapshot_steps.

(** The job of the workflow: [UPDATE backup_jobs] must find it. *)
Definition link_job (jid : Z) (p : CreateSnapshotWorkflowParams) (wid sid : string) (epoch : Z) : WTx unit := fun d =>
  match wd_jobs d !! jid with
  | Some j =>
      if (bj_UserID j =? sp_LegacyUserID p) && (bj_SrcNodeID j =? sp_SourceNodeID p)
         && (bj_DstNodeID j =? sp_TargetNodeID p)
      then Ok (tt, put_jobs (<[jid := set_job_workflow wid sid epoch j]> (wd_jobs d)) d)
      else Fail ErrInvalidSnapshotWorkflow
  | None => Fail ErrInvalidSnapshotWorkflow
  end.

(** The replica row of the target: a ready one keeps its kind and state. *)
Definition upsert_replica (user node : Z) (kind : string) : WTx unit := fun d =>
  if negb (legacy_exists d user && node_exists d node) then Fail sql_error
  else Ok (tt, put_replicas (<[(user, node) :=
    match wd_replicas d !! (user, node) with
    | Some r => if String.eqb (ur_State r) "ready" then r
                else {| ur_Kind := kind; ur_DataVersion := ur_DataVersion r; ur_State := "syncing";
                        ur_LastSyncAt := ur_LastSyncAt r; ur_Checksum := ur_Checksum r;
                        ur_SizeBytes := ur_SizeBytes r |}
    | None => {| ur_Kind := kind; ur_DataVersion := 0; ur_State := "syncing"; ur_LastSyncAt := None;
                 ur_Checksum := None; ur_SizeBytes := None |}
    end]> (wd_replicas d)) d).

(** The reconciliation takes the workflow. *)
Definition take_reconciliation (p : CreateSnapshotWorkflowParams) (wid : string) (now : time) : WTx unit :=
  let! id := uuid_param (sp_IndependentReconciliationID p) in
  fun d => match wd_reconciliations d !! id with
  | Some r =>
      if reconciliation_open r
      then Ok (tt, put_reconciliations (<[id :=
        {| ir_NodeID := ir_NodeID r; ir_UserID := ir_UserID r; ir_Marker := ir_Marker r;
           ir_State := "snapshotting"; ir_WorkflowID := Some wid; ir_NextAttemptAt := None;
           ir_ErrorCode := None; ir_ControllerGeneration := ir_ControllerGeneration r;
           ir_UpdatedAt := ts now |}]> (wd_reconciliations d)) d)
      else Fail ErrIndependentReconciliationState
  | None => Fail ErrIndependentReconciliationState
  end.

(** The retirement item takes the workflow; its target differs from its source. *)
Definition take_item (p : CreateSnapshotWorkflowParams) (wid : string) (now : time) : WTx unit :=
  let! id := uuid_param (sp_RetirementItemID p) in
  fun d => match wd_items d !! id with
  | Some i =>
      if bool_decide (it_WorkflowID i = None) && item_open (it_State i)
      then if it_SourceNodeID i =? sp_TargetNodeID p then Fail sql_error
           else Ok (tt, put_items (<[id :=
        {| it_RetirementID := it_RetirementID i; it_UserID := it_UserID i;
           it_LegacyUserID := it_LegacyUserID i; it_SourceNodeID := it_SourceNodeID i;
           it_TargetNodeID := Some (sp_TargetNodeID p); it_ItemKind := it_ItemKind i;
           it_State := "snapshotting"; it_WorkflowID := Some wid; it_NextAttemptAt := None;
           it_ErrorCode := None; it_UpdatedAt := ts now |}]> (wd_items d)) d)
      else Fail ErrNodeRetirementState
  | None => Fail ErrNodeRetirementState
  end.

Definition when {A} (b : bool) (m : WTx A) (other : A) : WTx A := if b then m else tx_ret other.

(** The transaction of CreateSnapshotWorkflow. *)
Definition create_tx (p : CreateSnapshotWorkflowParams) (now : time) : WTx SnapshotWorkflow :=
  let! _ := select1 (fun d => db_users (wd_core d) !! sp_GlobalUserID p) ErrInvalidSnapshotWorkflow in
  let! generation := select1 (fun d => active_generation (wd_core d)) ErrNoActiveController in
  let! jid := when (retirement_snapshot p) (create_retirement p generation now) (sp_LegacyBackupJobID p) in
  let! _ := when (independent_reconciliation p)
              (let! ready := tx_read (reconciliation_ready p generation) in
               require ready ErrIndependentReconciliationState) tt in
  let! _ := when (negb (retirement_snapshot p) && negb (independent_reconciliation p))
              (let! ready := (fun d => tx_lift (snapshot_nodes_ready p d) d) in
               require ready ErrInvalidSnapshotWorkflow) tt in
  let! busy := tx_read (fun d => cleanup_active d (sp_GlobalUserID p) [sp_SourceNodeID p; sp_TargetNodeID p]) in
  let! _ := require (negb busy) ErrSnapshotStateConflict in
  let! epoch := snapshot_epoch p now in
  let! wid := uuid_param (sp_WorkflowID p) in
  let! op := uuid_param (sp_OperationID p) in
  let! _ := insert_workflow wid op "snapshot" (sp_GlobalUserID p) (sp_SourceNodeID p) (sp_TargetNodeID p)
              epoch generation (transfer_mode p) now in
  let! provision := when (String.eqb (sp_DestinationKind p) "hot_standby")
              (let! handle := select1 (standby_handle p) ErrInvalidSnapshotWorkflow in
               prepareWorkflowTargetAccount wid (sp_GlobalUserID p) (sp_TargetNodeID p) handle now) false in
  let! _ := insert_steps wid (workflow_plan (sp_DestinationKind p) provision) now in
  let! sid := uuid_param (sp_SnapshotID p) in
  let! _ := insert_manifest sid wid (sp_GlobalUserID p) (sp_SourceNodeID p) epoch now in
  let! cid := uuid_param (sp_CapabilityID p) in
  let! _ := insert_cap cid wid sid (sp_SourceNodeID p) (sp_TargetNodeID p) (sp_CapabilityHash p) generation
              (sp_CapabilityExpires p) now in
  let! _ := link_job jid p wid sid epoch in
  let! _ := upsert_replica (sp_LegacyUserID p) (sp_TargetNodeID p) (sp_DestinationKind p) in
  let! _ := when (independent_reconciliation p) (take_reconciliation p wid now) tt in
  let! _ := when (retirement_snapshot p) (take_item p wid now) tt in
  tx_ret {| sw_WorkflowID := sp_WorkflowID p; sw_SnapshotID := sp_SnapshotID p; sw_ActivityEpoch := epoch;
            sw_ControllerGeneration := generation |}.

Definition CreateSnapshotWorkflow (clock : time) (p : CreateSnapshotWorkflowParams) (d : WDB)
  : result SnapshotWorkflow * WDB :=
  let now := now_or clock (sp_Now p) in
  if create_valid p now then runTx (create_tx p now) d else (Fail ErrInvalidSnapshotWorkflow, d).

(** ** Reading the execution state *)

Record SnapshotWorkflowExecution := {
  ex_WorkflowID : string;
  ex_State : string;
  ex_Attempt : Z;
  ex_GenerationRecoveries : Z;
  ex_ErrorCode : string;
  ex_SnapshotID : string;
  ex_ActivityEpoch : Z;
  ex_ControllerGeneration : Z;
  ex_GlobalUserID : Z;
  ex_LegacyUserID : Z;
  ex_Handle : string;
  ex_SourceNodeID : Z;
  ex_TargetNodeID : Z;
  ex_CapabilityID : string;
  ex_CapabilityHash : string;
  ex_CapabilityExpires : time;
  ex_CapabilityState : string;
  ex_LegacyBackupJobID : Z;
  ex_Trigger : string;
  ex_DestinationKind : string;
  ex_TransferMode : string
}.

(** [ORDER BY created_at DESC,expires_at DESC,id DESC LIMIT 1]. *)
Definition later_cap (best : option (string * TransferCapability)) (x : string * TransferCapability) :=
  match best with
  | Some b =>
      if (tc_CreatedAt b.2 <? tc_CreatedAt x.2)
         || ((tc_CreatedAt b.2 =? tc_CreatedAt x.2)
             && ((tc_ExpiresAt b.2 <? tc_ExpiresAt x.2)
                 || ((tc_ExpiresAt b.2 =? tc_ExpiresAt x.2) && String.ltb b.1 x.1)))
      then Some x else best
  | None => Some x
  end.

Definition latest_cap (d : WDB) (wid : string) : option (string * TransferCapability) :=
  foldl later_cap None (rows_where (fun _ c => String.eqb (tc_WorkflowID c) wid) (wd_caps d)).

Definition manifest_of (d : WDB) (wid : string) : option (string * SnapshotManifest) :=
  head (rows_where (fun _ s => String.eqb (sm_WorkflowID s) wid) (wd_manifests d)).

Definition job_of (d : WDB) (wid : string) : option (Z * BackupJob) :=
  head (rows_where (fun _ j => bool_decide (bj_WorkflowID j = Some wid)) (wd_jobs d)).

(** The kind of the destination, from the replica or else from the target's role. *)
Definition destination_kind (d : WDB) (legacy target : Z) (n : Node) : string :=
  match wd_replicas d !! (legacy, target) with
  | Some r => ur_Kind r
  | None => if String.eqb (nd_Role n) "storage" then "archive" else "hot_standby"
  end.

(** The joins of the query; a null column that is scanned into an integer is an
    error, which [Some None] stands for. *)
Definition joined_execution (d : WDB) (wid : string) (w : Workflow) : option (option SnapshotWorkflowExecution) :=
  match manifest_of d wid, (wf_UserID w ≫= fun u => (fun g => (u, g)) <$> db_users (wd_core d) !! u),
        (wf_TargetNodeID w ≫= fun t => (fun n => (t, n)) <$> node_of d t), job_of d wid, latest_cap d wid with
  | Some (sid, _), Some (u, g), Some (t, n), Some (jid, j), Some (cid, c) =>
      match gu_LegacyUserID g ≫= fun l => (fun us => (l, us)) <$> db_legacy (wd_core d) !! l with
      | None => None
      | Some (l, us) =>
          Some (match wf_ActivityEpoch w, wf_SourceNodeID w with
          | Some epoch, Some source =>
              Some {| ex_WorkflowID := wid; ex_State := wf_State w; ex_Attempt := wf_Attempt w;
                 ex_GenerationRecoveries := wf_GenerationRecoveryCount w;
                 ex_ErrorCode := default ""%string (wf_ErrorCode w); ex_SnapshotID := sid;
                 ex_ActivityEpoch := epoch; ex_ControllerGeneration := wf_ControllerGeneration w;
                 ex_GlobalUserID := u; ex_LegacyUserID := l; ex_Handle := us_Username us;
                 ex_SourceNodeID := source; ex_TargetNodeID := t; ex_CapabilityID := cid;
                 ex_CapabilityHash := tc_TokenHash c; ex_CapabilityExpires := tc_ExpiresAt c;
                 ex_CapabilityState := tc_State c; ex_LegacyBackupJobID := jid;
                 ex_Trigger := bj_Trigger j; ex_DestinationKind := destination_kind d l t n;
                 ex_TransferMode := wf_TransferMode w |}
          | _, _ => None
          end)
      end
  | _, _, _, _, _ => None
  end.

Definition execution_of (d : WDB) (wid : string) : option (option SnapshotWorkflowExecution) :=
  match wd_workflows d !! wid with
  | None => None
  | Some w => joined_execution d wid w
  end.

Definition GetSnapshotWorkflowExecution (workflowID : string) (d : WDB)
  : result (option SnapshotWorkflowExecution) :=
  if String.eqb workflowID "" then Fail ErrInvalidSnapshotWorkflow
  else match uuid_in workflowID with
  | None => Fail sql_error
  | Some wid => match execution_of d wid with
                | None => Ok None
                | Some (Some e) => Ok (Some e)
                | Some None => Fail sql_error
                end
  end.

(** ** Claims *)

(** A snapshot workflow that the active Controller may still work on. *)
Definition workable (d : WDB) (w : Workflow) : bool :=
  String.eqb (wf_Type w) "snapshot" && is_open w && generation_active (wf_ControllerGeneration w) d.

(** One statement that updates the row of one workflow, outside a transaction. *)
Definition update_workflow (workflowID : string) (p : WDB -> Workflow -> bool) (f : Workflow -> Workflow) : WTx bool :=
  let! wid := uuid_param workflowID in
  let! n := update_workflows (fun d id w => String.eqb id wid && p d w) f in
  tx_ret (Nat.eqb n 1).

Definition lease_free (now : time) (w : Workflow) : bool :=
  match wf_LeaseUntil w with None => true | Some u => u <=? ts now end.
Definition lease_held (worker : string) (now : time) (w : Workflow) : bool :=
  bool_decide (wf_LeaseOwner w = Some worker)
  && match wf_LeaseUntil w with None => false | Some u => u >? ts now end.

Definition ClaimSnapshotWorkflow (workflowID workerID : string) (now : time) (ttl : duration) (d : WDB)
  : result bool * WDB :=
  if String.eqb workflowID "" || String.eqb workerID "" || (ttl <=? 0)
  then (Fail ErrInvalidSnapshotWorkflow, d)
  else runTx (update_workflow workflowID (fun d w => workable d w && lease_free now w)
         (fun w => wf_set_LeaseOwner (Some workerID) (wf_set_LeaseUntil (Some (ts (now + ttl)))
                     (wf_set_UpdatedAt (ts now) w)))) d.

(** [later] is what other transactions made of the database before the second
    statement reads it. *)
Definition RenewSnapshotWorkflow (workflowID workerID : string) (now : time) (ttl : duration)
  (later : WDB -> WDB) (d : WDB) : result unit * WDB :=
  if String.eqb workflowID "" || String.eqb workerID "" || is_zero now || (ttl <=? 0)
  then (Fail ErrInvalidSnapshotWorkflow, d)
  else match runTx (update_workflow workflowID (fun d w => workable d w && lease_held workerID now w)
         (fun w => wf_set_LeaseUntil (Some (ts (now + ttl))) (wf_set_UpdatedAt (ts now) w))) d with
  | (Ok true, d) => (Ok tt, d)
  | (Fail e, d) => (Fail e, d)
  | (Ok false, d) =>
      (match uuid_in workflowID ≫= fun wid => wd_workflows (later d) !! wid with
       | Some w => if String.eqb (wf_Type w) "snapshot" && String.eqb (wf_State w) "succeeded" then Ok tt
                   else Fail ErrSnapshotStateConflict
       | None => Fail ErrSnapshotStateConflict
       end, d)
  end.

Definition ReleaseSnapshotWorkflow (workflowID workerID : string) (d : WDB) : result unit * WDB :=
  if String.eqb workflowID "" || String.eqb workerID "" then (Fail ErrInvalidSnapshotWorkflow, d)
  else runTx (let! _ := update_workflow workflowID (fun _ w => bool_decide (wf_LeaseOwner w = Some workerID))
                (fun w => wf_set_LeaseOwner None (wf_set_LeaseUntil None w)) in
              tx_ret tt) d.

(** ** What the recovery and retry transactions share *)

(** Unfinished relay transfers of the workflow expire now. *)
Definition relay_open (t : RelayTransfer) : bool :=
  negb (bool_decide (rt_State t ∈ ["consumed"; "expired"; "failed"])).

Definition fence_relays (wid : string) (now : time) : WTx unit := tx_write (fun d =>
  put_relays (update_where (fun _ t => String.eqb (rt_WorkflowID t) wid && relay_open t)
    (fun t => rt_set_ExpiresAt (Z.min (rt_ExpiresAt t) (ts now)) (rt_set_UploadLeaseUntil None
                (rt_set_DownloadLeaseUntil None (rt_set_UpdatedAt (ts now) t)))) (wd_relays d)) d).

(** [UPDATE snapshot_transfer_capabilities SET state='revoked' ... AND state='prepared']. *)
Definition prepared_for (wid : string) (c : TransferCapability) : bool :=
  String.eqb (tc_WorkflowID c) wid && String.eqb (tc_State c) "prepared".

Definition revoke_caps (wid : string) : WTx nat := fun d =>
  Ok (length (rows_where (fun _ => prepared_for wid) (wd_caps d)),
      put_caps (update_where (fun _ => prepared_for wid) (fun c => cap_set_state "revoked" (tc_ConsumedAt c) c)
                  (wd_caps d)) d).

(** The steps of a workflow with one of some names. *)
Definition step_in (wid : string) (names : list string) (k : string * string) (s : WorkflowStep) : bool :=
  String.eqb k.1 wid && bool_decide (k.2 ∈ names).

(** A step is put back for a later attempt. *)
Definition step_retry (code : string) (now : time) (s : WorkflowStep) : WorkflowStep :=
  st_set_State "retry_wait" (st_set_Attempt (st_Attempt s + 1) (st_set_ErrorCode (Some code)
    (st_set_LeaseOwner None (st_set_LeaseUntil None (st_set_StartedAt None (st_set_FinishedAt None
      (st_set_UpdatedAt (ts now) s))))))).

Definition retried_steps : list string :=
  ["quiesce"; "snapshot"; "prepare_target"; "transfer"; "verify"; "publish"].

Definition update_jobs (p : Z -> BackupJob -> bool) (f : BackupJob -> BackupJob) : WTx nat := fun d =>
  Ok (length (rows_where p (wd_jobs d)), put_jobs (update_where p f (wd_jobs d)) d).

Definition of_workflow (wid : string) (j : BackupJob) : bool := bool_decide (bj_WorkflowID j = Some wid).

(** ** Cancelling *)

Definition cancelSnapshotWorkflowTx (wid reason : string) (now : time) : WTx unit :=
  let! _ := update_workflows (fun _ id w => String.eqb id wid && is_open w)
    (fun w => wf_set_State "cancelled" (wf_set_ErrorCode (Some "user_returned") (wf_set_ErrorSummary (nullIfEmpty reason)
                (wf_set_CleanupState "pending" (wf_set_LeaseOwner None (wf_set_LeaseUntil None
                  (wf_set_UpdatedAt (ts now) (wf_set_FinishedAt (Some (ts now)) w)))))))) in
  let! _ := update_steps (fun k s => String.eqb k.1 wid && negb (is_terminal (st_State s)))
    (fun s => st_set_State "cancelled" (st_set_FinishedAt (Some (ts now)) (st_set_UpdatedAt (ts now) s))) in
  let! _ := revoke_caps wid in
  tx_ret tt.

Definition CancelSnapshotWorkflow (clock : time) (workflowID reason : string) (now : time) (d : WDB)
  : result unit * WDB :=
  if String.eqb workflowID "" then (Fail ErrInvalidSnapshotWorkflow, d)
  else runTx (let! wid := uuid_param workflowID in
              cancelSnapshotWorkflowTx wid (clip reason) (now_or clock now)) d.

(** ** Backup jobs *)

Definition CreateBackupJob (clock : time) (user src dst : Z) (trigger status : string) (d : WDB)
  : result Z * WDB := runTx (insert_job user src dst trigger status clock) d.

Definition nullableInt64 (v : Z) : option Z := if v =? 0 then None else Some v.

Definition UpdateBackupJobStatus (clock : time) (id : Z) (status : string) (dataVersion bytes fileCount : Z)
  (errMsg : string) (d : WDB) : result unit * WDB :=
  let finishing := bool_decide (status ∈ ["done"; "failed"; "aborted"]) in
  (Ok tt, put_jobs (update_where (fun jid _ => jid =? id)
    (fun j => {| bj_UserID := bj_UserID j; bj_SrcNodeID := bj_SrcNodeID j; bj_DstNodeID := bj_DstNodeID j;
       bj_Trigger := bj_Trigger j; bj_Status := status; bj_DataVersion := nullableInt64 dataVersion;
       bj_Bytes := nullableInt64 bytes; bj_FileCount := nullableInt64 fileCount; bj_Error := nullIfEmpty errMsg;
       bj_StartedAt := if String.eqb status "running" then Some (ts clock) else bj_StartedAt j;
       bj_FinishedAt := if finishing then Some (ts clock) else bj_FinishedAt j; bj_CreatedAt := bj_CreatedAt j;
       bj_WorkflowID := bj_WorkflowID j; bj_SnapshotID := bj_SnapshotID j;
       bj_ActivityEpoch := bj_ActivityEpoch j |}) (wd_jobs d)) d).

Definition AbortBackupJobAndSnapshotWorkflow (clock : time) (id : Z) (reason : string) (now : time) (d : WDB)
  : result unit * WDB :=
  if id <=? 0 then (Fail ErrInvalidBackupJob, d)
  else
    let now := now_or clock now in
    let reason := clip reason in
    runTx (
      let! j := select1 (fun d => wd_jobs d !! id) ErrInvalidBackupJob in
      let! state := tx_read (fun d => default ""%string (bj_WorkflowID j ≫= fun wid => wf_State <$> wd_workflows d !! wid)) in
      let! _ := require (negb (bool_decide (bj_Status j ∈ ["done"; "failed"; "aborted"]) || is_terminal state))
                  ErrBackupJobTerminal in
      let! _ := update_jobs (fun jid _ => jid =? id)
                  (fun j => set_job_status "aborted" (nullIfEmpty reason) (coalesce (bj_FinishedAt j) (ts now)) j) in
      match bj_WorkflowID j with
      | Some wid => if String.eqb wid "" then tx_ret tt else cancelSnapshotWorkflowTx wid reason now
      | None => tx_ret tt
      end) d.

(** ** Recovery after a change of Controller generation *)

Definition generation_recovery : string := "controller_generation_recovery".
Definition generation_retry : string := "controller_generation_retry".

(** [ORDER BY updated_at,id]. *)
Definition row_before (x y : string * Workflow) : bool :=
  (wf_UpdatedAt x.2 <? wf_UpdatedAt y.2)
  || ((wf_UpdatedAt x.2 =? wf_UpdatedAt y.2) && negb (String.ltb y.1 x.1)).

Fixpoint insert_row (x : string * Workflow) (l : list (string * Workflow)) : list (string * Workflow) :=
  match l with
  | [] => [x]
  | y :: r => if row_before x y then x :: y :: r else y :: insert_row x r
  end.

Definition order_rows (l : list (string * Workflow)) : list (string * Workflow) := foldr insert_row [] l.

Definition batch (limit : Z) : nat := Z.to_nat (if (limit <=? 0) || (1000 <? limit) then 100 else limit).

(** The open snapshot workflows of another generation, oldest first; [locked] are
    the rows other transactions hold. *)
Definition stale_workflows (locked : string -> bool) (limit : Z) (generation : Z) (d : WDB) : list string :=
  map fst (take (batch limit) (order_rows (rows_where (fun id w => negb (locked id) && String.eqb (wf_Type w) "snapshot"
    && is_open w && negb (wf_ControllerGeneration w =? generation)) (wd_workflows d)))).

Definition adopted (generation : Z) (now : time) (w : Workflow) : Workflow :=
  wf_set_ControllerGeneration generation (wf_set_ErrorCode (Some generation_recovery)
    (wf_set_ErrorSummary (Some "主控换代，正在核对目标节点快照回执") (wf_set_NextAttemptAt (Some (ts now))
      (wf_set_LeaseOwner None (wf_set_LeaseUntil None (wf_set_UpdatedAt (ts now) w)))))).

Definition AdoptStaleSnapshotWorkflows (clock : time) (locked : string -> bool) (now : time) (limit : Z) (d : WDB)
  : result nat * WDB :=
  let now := now_or clock now in
  match active_generation (wd_core d) with
  | None => (Ok 0%nat, d)
  | Some g =>
      let ids := stale_workflows locked limit g d in
      runTx (update_workflows (fun _ id _ => bool_decide (id ∈ ids)) (adopted g now)) d
  end.

(** The steps a receipt of the target proves. *)
Definition step_succeeded (now : time) (s : WorkflowStep) : WorkflowStep :=
  st_set_State "succeeded" (st_set_FinishedAt (coalesce (st_FinishedAt s) (ts now)) (st_set_ErrorCode None
    (st_set_LeaseOwner None (st_set_LeaseUntil None (st_set_UpdatedAt (ts now) s))))).
Definition step_running (now : time) (s : WorkflowStep) : WorkflowStep :=
  st_set_State "running" (st_set_StartedAt (coalesce (st_StartedAt s) (ts now)) (st_set_FinishedAt None
    (st_set_ErrorCode None (st_set_UpdatedAt (ts now) s)))).

Definition PrepareRecoveredSnapshotCompletion (clock : time) (workflowID : string) (controllerGeneration : Z)
  (now : time) (d : WDB) : result unit * WDB :=
  if String.eqb workflowID "" || (controllerGeneration <=? 0) then (Fail ErrInvalidSnapshotWorkflow, d)
  else
    let now := now_or clock now in
    runTx (
      let! wid := uuid_param workflowID in
      let! n := update_workflows (fun d id w => String.eqb id wid && String.eqb (wf_Type w) "snapshot"
                  && (wf_ControllerGeneration w =? controllerGeneration)
                  && generation_active controllerGeneration d
                  && bool_decide (wf_ErrorCode w = Some generation_recovery)
                  && bool_decide (wf_State w ∈ ["transferring"; "verifying"; "publishing"]))
                (fun w => wf_set_State "publishing" (wf_set_ErrorCode None (wf_set_ErrorSummary None
                            (wf_set_NextAttemptAt None (wf_set_UpdatedAt (ts now) w))))) in
      let! _ := fence_relays wid now in
      let! _ := require (Nat.eqb n 1) ErrSnapshotStateConflict in
      let! _ := update_steps (step_in wid ["quiesce"; "snapshot"; "prepare_target"; "transfer"; "verify"])
                  (step_succeeded now) in
      let! _ := update_steps (step_in wid ["publish"])
                  (fun s => st_set_LeaseOwner None (st_set_LeaseUntil None (step_running now s))) in
      tx_ret tt) d.

(** The workflow the reset is for, with its job. *)
Definition recovering_job (wid : string) (controllerGeneration : Z) (d : WDB) : option BackupJob :=
  match wd_workflows d !! wid, job_of d wid with
  | Some w, Some (_, j) =>
      if String.eqb (wf_Type w) "snapshot" && (wf_ControllerGeneration w =? controllerGeneration)
         && generation_active controllerGeneration d && bool_decide (wf_ErrorCode w = Some generation_recovery)
         && is_open w then Some j else None
  | _, _ => None
  end.

Definition ResetRecoveredSnapshotWorkflow (clock : time) (workflowID : string) (controllerGeneration : Z)
  (now : time) (d : WDB) : result unit * WDB :=
  if String.eqb workflowID "" || (controllerGeneration <=? 0) then (Fail ErrInvalidSnapshotWorkflow, d)
  else
    let now := now_or clock now in
    runTx (
      let! wid := uuid_param workflowID in
      let! j := select1 (recovering_job wid controllerGeneration) ErrNoRows in
      let! _ := fence_relays wid now in
      if String.eqb (bj_Status j) "aborted"
      then cancelSnapshotWorkflowTx wid "用户恢复使用，取消换代中的未发布快照" now
      else
        let! _ := revoke_caps wid in
        let! n := update_workflows (fun _ id w => String.eqb id wid
                    && (wf_ControllerGeneration w =? controllerGeneration)
                    && bool_decide (wf_ErrorCode w = Some generation_recovery))
                  (fun w => wf_set_State "retry_wait" (wf_set_ResumeState (Some "quiescing")
                     (wf_set_Attempt (wf_Attempt w + 1)
                     (wf_set_GenerationRecoveryCount (wf_GenerationRecoveryCount w + 1)
                     (wf_set_NextAttemptAt (Some (ts now)) (wf_set_ErrorCode (Some generation_retry)
                     (wf_set_ErrorSummary (Some "主控换代且目标无已发布回执，已安排安全重试")
                     (wf_set_LeaseOwner None (wf_set_LeaseUntil None (wf_set_UpdatedAt (ts now) w)))))))))) in
        let! _ := require (Nat.eqb n 1) ErrSnapshotStateConflict in
        let! _ := update_steps (step_in wid retried_steps) (step_retry generation_retry now) in
        let! _ := update_jobs (fun _ j => of_workflow wid j && negb (bool_decide (bj_Status j ∈ ["done"; "aborted"])))
                    (set_job_status "pending" None None) in
        tx_ret tt) d.

(** The workflows the reconciler may take; [clock] is the server's [now()]. *)
Definition resumable_states : list string :=
  ["scheduled"; "quiescing"; "drained"; "snapshotting"; "transferring"; "verifying"; "publishing"; "retry_wait"].

Definition ListResumableSnapshotWorkflowIDs (clock : time) (limit : Z) (d : WDB) : list string :=
  map fst (take (batch limit) (order_rows (rows_where (fun _ w => String.eqb (wf_Type w) "snapshot"
    && generation_active (wf_ControllerGeneration w) d && bool_decide (wf_State w ∈ resumable_states)
    && match wf_NextAttemptAt w with None => true | Some t => t <=? ts clock end) (wd_workflows d)))).

(** ** Retrying *)

(** What a retry of a workflow resumes in, and the steps it repeats. *)
Definition retry_plan (type : string) : option (string * list string) :=
  if String.eqb type "snapshot" then Some ("quiescing"%string, retried_steps)
  else if String.eqb type "restore"
  then Some ("scheduled"%string, ["prepare_target"; "transfer"; "verify"; "publish"])
  else if String.eqb type "conflict_resolution"
  then Some ("scheduled"%string, ["transfer_evidence"; "prepare"; "apply_decisions"; "publish"; "finalize"])
  else None.

Definition ScheduleSnapshotRetry (workflowID errorCode errorSummary : string) (now : time) (delay : duration) (d : WDB)
  : result Z * WDB :=
  if String.eqb workflowID "" || String.eqb errorCode "" || (delay <=? 0)
  then (Fail ErrInvalidSnapshotWorkflow, d)
  else
    let summary := nullIfEmpty (clip errorSummary) in
    runTx (
      let! wid := uuid_param workflowID in
      let! w := select1 (fun d => match wd_workflows d !! wid with
                  | Some w => if is_open w && negb (String.eqb (wf_State w) "retry_wait") then Some w else None
                  | None => None end) ErrSnapshotStateConflict in
      match retry_plan (wf_Type w) with
      | None => tx_fail ErrSnapshotStateConflict
      | Some (resume, steps) =>
          let! _ := update_workflows (fun _ id w' => String.eqb id wid && String.eqb (wf_Type w') (wf_Type w))
            (fun w => wf_set_ResumeState (Some resume) (wf_set_State "retry_wait" (wf_set_Attempt (wf_Attempt w + 1)
               (wf_set_NextAttemptAt (Some (ts (now + delay))) (wf_set_ErrorCode (Some errorCode)
               (wf_set_ErrorSummary summary (wf_set_UpdatedAt (ts now)
               (wf_set_LeaseOwner None (wf_set_LeaseUntil None w))))))))) in
          let! _ := when (bool_decide (wf_Type w ∈ ["snapshot"; "restore"]))
                      (let! n := revoke_caps wid in require (Nat.eqb n 1) ErrSnapshotStateConflict) tt in
          let! _ := fence_relays wid now in
          let! n := update_steps (step_in wid steps) (step_retry errorCode now) in
          let! _ := require (Nat.eqb n (length steps)) ErrSnapshotStateConflict in
          tx_ret (wf_Attempt w + 1)
      end) d.

Definition ResumeSnapshotRetry (workflowID : string) (now : time) (d : WDB) : result unit * WDB :=
  if String.eqb workflowID "" || is_zero now then (Fail ErrInvalidSnapshotWorkflow, d)
  else runTx (
    let! wid := uuid_param workflowID in
    let due (w : Workflow) := String.eqb (wf_State w) "retry_wait" && bool_decide (is_Some (wf_ResumeState w))
                              && match wf_NextAttemptAt w with Some t => t <=? ts now | None => false end in
    let! w := select1 (fun d => match wd_workflows d !! wid with
                | Some w => if due w then Some w else None | None => None end) ErrSnapshotStateConflict in
    let! _ := update_workflows (fun _ id w => String.eqb id wid && due w)
      (fun w => wf_set_State (default (wf_State w) (wf_ResumeState w)) (wf_set_ResumeState None
         (wf_set_NextAttemptAt None (wf_set_ErrorCode None (wf_set_ErrorSummary None
         (wf_set_UpdatedAt (ts now) w)))))) in
    match retry_plan (wf_Type w) with
    | None => tx_fail ErrSnapshotStateConflict
    | Some (_, steps) =>
        let! _ := fence_relays wid now in
        let! n := update_steps (fun k s => String.eqb k.1 wid && String.eqb (st_State s) "retry_wait")
                    (fun s => st_set_State "pending" (st_set_ErrorCode None (st_set_UpdatedAt (ts now) s))) in
        require (Nat.eqb n (length steps)) ErrSnapshotStateConflict
    end) d.

(** One guarded UPDATE; no row is a conflict. *)
Definition guarded_update (workflowID : string) (p : WDB -> Workflow -> bool) (f : Workflow -> Workflow) (d : WDB)
  : result unit * WDB :=
  runTx (let! one := update_workflow workflowID p f in require one ErrSnapshotStateConflict) d.

Definition DeferSnapshotWorkflow (clock : time) (workflowID errorCode errorSummary : string) (now : time)
  (delay : duration) (d : WDB) : result unit * WDB :=
  if String.eqb workflowID "" || negb (ValidMachineReasonCode errorCode) || (delay <=? 0)
  then (Fail ErrInvalidSnapshotWorkflow, d)
  else
    let now := now_or clock now in
    guarded_update workflowID workable
      (fun w => wf_set_NextAttemptAt (Some (ts (now + delay))) (wf_set_ErrorCode (Some errorCode)
         (wf_set_ErrorSummary (nullIfEmpty (clip errorSummary)) (wf_set_LeaseOwner None (wf_set_LeaseUntil None
         (wf_set_UpdatedAt (ts now) w)))))) d.

Definition ClearSnapshotWorkflowDeferral (clock : time) (workflowID : string) (now : time) (d : WDB)
  : result unit * WDB :=
  if String.eqb workflowID "" then (Fail ErrInvalidSnapshotWorkflow, d)
  else
    let now := now_or clock now in
    guarded_update workflowID
      (fun d w => String.eqb (wf_Type w) "snapshot"
                  && bool_decide (wf_ErrorCode w ∈ [Some "source_not_ready"; Some "target_not_ready"]%string)
                  && generation_active (wf_ControllerGeneration w) d)
      (fun w => wf_set_NextAttemptAt None (wf_set_ErrorCode None (wf_set_ErrorSummary None
                  (wf_set_UpdatedAt (ts now) w)))) d.

Definition SwitchSnapshotWorkflowToRelay (clock : time) (workflowID : string) (now : time) (d : WDB)
  : result unit * WDB :=
  if String.eqb workflowID "" then (Fail ErrInvalidSnapshotWorkflow, d)
  else
    let now := now_or clock now in
    guarded_update workflowID
      (fun d w => bool_decide (wf_TransferMode w ∈ ["direct"; "relay"]) && workable d w)
      (fun w => wf_set_TransferMode "relay" (wf_set_UpdatedAt (ts now) w)) d.

(** ** Capabilities *)

Definition rotation_scope (wid : string) (d : WDB) : option (string * Z * Z * Z) :=
  match wd_workflows d !! wid, manifest_of d wid with
  | Some w, Some (sid, _) =>
      match wf_SourceNodeID w, wf_TargetNodeID w with
      | Some s, Some t => if is_open w && generation_active (wf_ControllerGeneration w) d
                          then Some (sid, s, t, wf_ControllerGeneration w) else None
      | _, _ => None
      end
  | _, _ => None
  end.

Definition RotateSnapshotCapability (workflowID capabilityID tokenHash : string) (expiresAt now : time) (d : WDB)
  : result unit * WDB :=
  if String.eqb workflowID "" || String.eqb capabilityID "" || negb (slen tokenHash =? 32)
     || negb (after expiresAt now)
  then (Fail ErrInvalidSnapshotWorkflow, d)
  else runTx (
    let! wid := uuid_param workflowID in
    let! (sid, source, target, generation) := select1 (rotation_scope wid) ErrNoRows in
    let! _ := revoke_caps wid in
    let! cid := uuid_param capabilityID in
    insert_cap cid wid sid source target tokenHash generation expiresAt now) d.

(** ** Phases *)

Definition SetSnapshotWorkflowState (clock : time) (workflowID fromState toState : string) (now : time) (d : WDB)
  : result unit * WDB :=
  if String.eqb workflowID "" || String.eqb fromState "" || String.eqb toState ""
  then (Fail ErrInvalidSnapshotWorkflow, d)
  else
    let now := now_or clock now in
    runTx (
      let! wid := uuid_param workflowID in
      let! n := update_workflows (fun d id w => String.eqb id wid && String.eqb (wf_State w) fromState
                    && generation_active (wf_ControllerGeneration w) d)
                  (fun w => wf_set_State toState (wf_set_UpdatedAt (ts now) w)) in
      let! _ := require (Nat.eqb n 1) ErrSnapshotStateConflict in
      let running := if String.eqb toState "quiescing" then Some "quiesce"%string
                     else if String.eqb toState "transferring" then Some "transfer"%string else None in
      match running with
      | None => tx_ret tt
      | Some step =>
          let! n := update_steps (fun k s => step_in wid [step] k s
                      && bool_decide (st_State s ∈ ["pending"; "retry_wait"; "running"])) (step_running now) in
          require (Nat.eqb n 1) ErrSnapshotStateConflict
      end) d.

(** The phase a report may leave, and the node that may report it. *)
Inductive reporter := Source | Target.

#[export] Instance reporter_eq_dec : EqDecision reporter.
Proof. solve_decision. Defined.

Definition allowed (toState : string) : option (string * reporter) :=
  if String.eqb toState "drained" then Some ("quiescing"%string, Source)
  else if String.eqb toState "snapshotting" then Some ("drained"%string, Source)
  else if String.eqb toState "transferring" then Some ("snapshotting"%string, Source)
  else if String.eqb toState "verifying" then Some ("transferring"%string, Target)
  else if String.eqb toState "publishing" then Some ("verifying"%string, Target)
  else None.

Definition completed_step (toState : string) : option string :=
  if String.eqb toState "drained" then Some "quiesce"%string
  else if String.eqb toState "transferring" then Some "snapshot"%string
  else if String.eqb toState "verifying" then Some "transfer"%string
  else if String.eqb toState "publishing" then Some "verify"%string
  else None.

Definition running_step (toState : string) : option string :=
  if String.eqb toState "snapshotting" then Some "snapshot"%string
  else if String.eqb toState "transferring" then Some "transfer"%string
  else if String.eqb toState "verifying" then Some "verify"%string
  else if String.eqb toState "publishing" then Some "publish"%string
  else None.

(** One step of the workflow changes, and there is one. *)
Definition one_step (wid : string) (step : option string) (f : WorkflowStep -> WorkflowStep) : WTx unit :=
  match step with
  | None => tx_ret tt
  | Some step => let! n := update_steps (step_in wid [step]) f in require (Nat.eqb n 1) ErrSnapshotStateConflict
  end.

Definition finish_step (now : time) (s : WorkflowStep) : WorkflowStep :=
  st_set_State "succeeded" (st_set_FinishedAt (Some (ts now)) (st_set_UpdatedAt (ts now) s)).

(** The row the report is about: its state, source, target and generation. *)
Definition progress_row (wid sid : string) (d : WDB) : option (string * Z * Z * Z) :=
  match wd_workflows d !! wid, wd_manifests d !! sid with
  | Some w, Some s =>
      match wf_SourceNodeID w, wf_TargetNodeID w with
      | Some source, Some target =>
          if String.eqb (sm_WorkflowID s) wid
          then Some (wf_State w, source, target, wf_ControllerGeneration w) else None
      | _, _ => None
      end
  | _, _ => None
  end.

Definition setSnapshotWorkflowProgressOnce (workflowID snapshotID : string) (nodeID : Z) (toState : string)
  (now : time) : WTx unit :=
  let! wid := uuid_param workflowID in
  let! sid := uuid_param snapshotID in
  let! (state, source, target, generation) := select1 (progress_row wid sid) ErrNoRows in
  let! active := select1 (fun d => active_generation (wd_core d)) ErrNoRows in
  let! _ := require (generation =? active) ErrSnapshotStateConflict in
  match allowed toState with
  | None => tx_fail ErrSnapshotStateConflict
  | Some (from, actor) =>
      let! _ := require ((match actor with Source => source | Target => target end) =? nodeID)
                  ErrSnapshotStateConflict in
      if String.eqb state toState then tx_ret tt
      else
        let! _ := require (String.eqb from state) ErrSnapshotStateConflict in
        let! _ := update_workflows (fun _ id _ => String.eqb id wid)
                    (fun w => wf_set_State toState (wf_set_UpdatedAt (ts now) w)) in
        let! _ := one_step wid (completed_step toState) (finish_step now) in
        one_step wid (running_step toState) (step_running now)
  end.

(** [retrySerializable] repeats the transaction only after the server rolled it
    back, so one that took effect is one run of it. *)
Definition SetSnapshotWorkflowProgress (clock : time) (workflowID snapshotID : string) (nodeID : Z)
  (toState : string) (now : time) (d : WDB) : result unit * WDB :=
  if String.eqb workflowID "" || String.eqb snapshotID "" || (nodeID <=? 0)
  then (Fail ErrInvalidSnapshotWorkflow, d)
  else runTx (setSnapshotWorkflowProgressOnce workflowID snapshotID nodeID toState (now_or clock now)) d.

(** [later] as in [RenewSnapshotWorkflow]. *)
Definition CompleteSnapshotWorkflowStep (clock : time) (workflowID stepName : string) (now : time)
  (later : WDB -> WDB) (d : WDB) : result unit * WDB :=
  if String.eqb workflowID "" || String.eqb stepName "" then (Fail ErrInvalidSnapshotWorkflow, d)
  else
    let now := now_or clock now in
    match uuid_in workflowID with
    | None => (Fail sql_error, d)
    | Some wid =>
        match runTx (update_steps (fun k s => step_in wid [stepName] k s
                       && bool_decide (st_State s ∈ ["pending"; "running"; "retry_wait"])) (finish_step now)) d with
        | (Fail e, d) => (Fail e, d)
        | (Ok 1%nat, d) => (Ok tt, d)
        | (Ok _, d) =>
            (match wd_steps (later d) !! (wid, stepName) with
             | None => Fail ErrNoRows
             | Some s => if String.eqb (st_State s) "succeeded" then Ok tt else Fail ErrSnapshotStateConflict
             end, d)
        end
    end.

(** ** Failing *)

Definition FailSnapshotWorkflow (clock : time) (workflowID errorCode errorSummary : string) (now : time) (d : WDB)
  : result unit * WDB :=
  if String.eqb workflowID "" || String.eqb errorCode "" then (Fail ErrInvalidSnapshotWorkflow, d)
  else
    let now := now_or clock now in
    let summary := nullIfEmpty (clip errorSummary) in
    runTx (
      let! wid := uuid_param workflowID in
      let! w := select1 (fun d => wd_workflows d !! wid) ErrNoRows in
      let! _ := require (negb (bool_decide (wf_State w ∈ ["succeeded"; "cancelled"]))) ErrSnapshotStateConflict in
      let! _ := update_workflows (fun _ id w => String.eqb id wid && is_open w)
        (fun w => wf_set_State "failed" (wf_set_ErrorCode (Some errorCode) (wf_set_ErrorSummary summary
           (wf_set_CleanupState "pending" (wf_set_LeaseOwner None (wf_set_LeaseUntil None
           (wf_set_UpdatedAt (ts now) (wf_set_FinishedAt (Some (ts now)) w)))))))) in
      let! _ := update_steps (fun k s => String.eqb k.1 wid && negb (is_terminal (st_State s)))
        (fun s => st_set_State "failed" (st_set_FinishedAt (Some (ts now)) (st_set_UpdatedAt (ts now) s))) in
      let! _ := revoke_caps wid in
      let! _ := update_jobs (fun _ j => of_workflow wid j && negb (bool_decide (bj_Status j ∈ ["done"; "aborted"])))
                  (set_job_status "failed" summary (Some (ts now))) in
      tx_write (fun d =>
        match (wf_UserID w ≫= fun u => (fun g => (u, g)) <$> db_users (wd_core d) !! u), wf_TargetNodeID w with
        | Some (u, g), Some t =>
            let kept := match wd_copies d !! (u, t) with
                        | Some c => String.eqb (rc_State c) "ready" && bool_decide (is_Some (rc_SnapshotID c))
                        | None => false
                        end in
            if kept then d
            else put_replicas (update_where (fun k _ => bool_decide (gu_LegacyUserID g = Some k.1) && (k.2 =? t))
                   (fun r => {| ur_Kind := ur_Kind r; ur_DataVersion := 0; ur_State := "error";
                                ur_LastSyncAt := Some (ts now); ur_Checksum := None; ur_SizeBytes := Some 0 |})
                   (wd_replicas d)) d
        | _, _ => d
        end)) d.

(** ** Publishing *)

Record CompleteSnapshotWorkflowParams := {
  cp_WorkflowID : string;
  cp_SnapshotID : string;
  cp_CapabilityHash : string;
  cp_TargetNodeID : Z;
  cp_ReplicaKind : string;
  cp_ReplicaOrigin : string;
  cp_ManifestSHA256 : string;
  cp_ArchiveSHA256 : string;
  cp_FileCount : Z;
  cp_TotalBytes : Z;
  cp_Now : time
}.

Definition complete_valid (p : CompleteSnapshotWorkflowParams) : bool :=
  negb (String.eqb (cp_WorkflowID p) "") && negb (String.eqb (cp_SnapshotID p) "")
  && (slen (cp_CapabilityHash p) =? 32) && (0 <? cp_TargetNodeID p)
  && bool_decide (cp_ReplicaKind p ∈ ["archive"; "hot_standby"]) && (slen (cp_ManifestSHA256 p) =? 32)
  && bool_decide (cp_ReplicaOrigin p ∈ ["configured"; "temporary_failure_protection"; "migration"; "automatic_repair"])
  && (slen (cp_ArchiveSHA256 p) =? 32) && (0 <=? cp_FileCount p) && (0 <=? cp_TotalBytes p).

(** The manifest becomes immutable. *)
Definition seal_manifest (p : CompleteSnapshotWorkflowParams) (wid sid : string) : WTx unit := fun d =>
  match wd_manifests d !! sid with
  | Some s =>
      if String.eqb (sm_WorkflowID s) wid && String.eqb (sm_State s) "building"
      then Ok (tt, put_manifests (<[sid :=
        {| sm_WorkflowID := sm_WorkflowID s; sm_UserID := sm_UserID s; sm_SourceNodeID := sm_SourceNodeID s;
           sm_ActivityEpoch := sm_ActivityEpoch s; sm_FormatVersion := sm_FormatVersion s;
           sm_ManifestSHA256 := cp_ManifestSHA256 p; sm_ArchiveSHA256 := Some (cp_ArchiveSHA256 p);
           sm_FileCount := cp_FileCount p; sm_TotalBytes := cp_TotalBytes p; sm_State := "immutable";
           sm_CreatedAt := sm_CreatedAt s |}]> (wd_manifests d)) d)
      else Fail ErrSnapshotStateConflict
  | None => Fail ErrSnapshotStateConflict
  end.

(** [COALESCE(MAX(data_version),0)+1] over the replicas of a user. *)
Definition max_version (d : WDB) (legacy : Z) : Z :=
  match map (fun kr => ur_DataVersion kr.2) (rows_where (fun k _ => k.1 =? legacy) (wd_replicas d)) with
  | [] => 0
  | v :: vs => foldl Z.max v vs
  end.
Definition next_version (d : WDB) (legacy : Z) : Z := max_version d legacy + 1.

(** Open cleanups of the copy that is being replaced are cancelled; a running one
    is a conflict. *)
Definition cancel_cleanups (user node : Z) (now : time) : WTx unit := fun d =>
  let here (c : CleanupTask) := (ct_UserID c =? user) && (ct_NodeID c =? node) in
  let m := update_where (fun _ c => here c && bool_decide (ct_State c ∈ ["pending"; "retry_wait"]))
    (fun c => {| ct_ReplicaID := ct_ReplicaID c; ct_UserID := ct_UserID c; ct_LegacyUserID := ct_LegacyUserID c;
       ct_NodeID := ct_NodeID c; ct_SnapshotID := ct_SnapshotID c; ct_Handle := ct_Handle c;
       ct_ReplicaKind := ct_ReplicaKind c; ct_ReasonCode := ct_ReasonCode c; ct_State := "cancelled";
       ct_NextAttemptAt := ct_NextAttemptAt c; ct_LeaseOwner := None; ct_LeaseUntil := None;
       ct_ErrorCode := Some "replica_replaced"%string; ct_CreatedAt := ct_CreatedAt c; ct_UpdatedAt := ts now;
       ct_FinishedAt := Some (ts now); ct_Run := ct_Run c |}) (wd_cleanups d) in
  if Nat.eqb (length (rows_where (fun _ c => here c && String.eqb (ct_State c) "running") m)) 0
  then Ok (tt, put_cleanups m d) else Fail ErrSnapshotStateConflict.

(** The other ready archives of the user. *)
Definition other_archive (user node : Z) (k : Z * Z) (c : ReplicaCopy) : bool :=
  (k.1 =? user) && negb (k.2 =? node) && String.eqb (rc_Kind c) "archive" && String.eqb (rc_State c) "ready".

Definition copy_stale (now : time) (c : ReplicaCopy) : ReplicaCopy :=
  {| rc_ID := rc_ID c; rc_SnapshotID := rc_SnapshotID c; rc_Kind := rc_Kind c; rc_State := "stale";
     rc_Origin := rc_Origin c; rc_IsAuthoritative := rc_IsAuthoritative c;
     rc_CompatibilityState := rc_CompatibilityState c; rc_PublishedAt := rc_PublishedAt c;
     rc_VerifiedAt := rc_VerifiedAt c; rc_CreatedAt := rc_CreatedAt c; rc_UpdatedAt := ts now;
     rc_Integrity := rc_Integrity c |}.

(** One superseded archive is scheduled for cleanup, once per node, snapshot and
    kind. *)
Definition schedule_cleanup (newid : Z -> string) (now : time) (acc : WDB) (x : (Z * Z) * ReplicaCopy) : WDB :=
  let '((user, node), c) := x in
  match rc_SnapshotID c, (db_users (wd_core acc) !! user) ≫= gu_LegacyUserID with
  | Some sid, Some legacy =>
      match db_legacy (wd_core acc) !! legacy with
      | None => acc
      | Some us =>
          if negb (Nat.eqb (length (rows_where (fun _ t => (ct_NodeID t =? node) && String.eqb (ct_SnapshotID t) sid
                       && String.eqb (ct_ReplicaKind t) (rc_Kind c)) (wd_cleanups acc))) 0)
          then acc
          else put_cleanups (<[newid node :=
            {| ct_ReplicaID := rc_ID c; ct_UserID := user; ct_LegacyUserID := legacy; ct_NodeID := node;
               ct_SnapshotID := sid; ct_Handle := us_Username us; ct_ReplicaKind := rc_Kind c;
               ct_ReasonCode := "superseded_archive"; ct_State := "pending"; ct_NextAttemptAt := ts now;
               ct_LeaseOwner := None; ct_LeaseUntil := None; ct_ErrorCode := None; ct_CreatedAt := ts now;
               ct_UpdatedAt := ts now; ct_FinishedAt := None; ct_Run := new_run |}]> (wd_cleanups acc)) acc
      end
  | _, _ => acc
  end.

(** The random ids of the new tasks are new. *)
Definition fresh_ids (newid : Z -> string) (stale : list ((Z * Z) * ReplicaCopy)) (d : WDB) : bool :=
  forallb (fun x => bool_decide (wd_cleanups d !! newid x.1.2 = None)) stale
  && bool_decide (NoDup (map (fun x => newid x.1.2) stale)).

(** The statements of a published archive about the archives it supersedes. *)
Definition supersede_archives (newid : Z -> string) (user legacy node : Z) (now : time) : WTx unit := fun d =>
  let stale := rows_where (other_archive user node) (wd_copies d) in
  if fresh_ids newid stale d
  then
    let d := put_copies (update_where (other_archive user node) (copy_stale now) (wd_copies d)) d in
    let d := foldl (schedule_cleanup newid now) d stale in
    Ok (tt, put_replicas (update_where (fun k r => (k.1 =? legacy) && negb (k.2 =? node)
                             && String.eqb (ur_Kind r) "archive" && String.eqb (ur_State r) "ready")
                            (replica_set_state "stale") (wd_replicas d)) d)
  else Fail sql_error.

Definition ReplicaIntegrityLightInterval : duration := 24 * Hour.
Definition ReplicaIntegrityDeepInterval : duration := 30 * 24 * Hour.

(** The integrity columns of a copy that was just published. *)
Definition verified_now (now : time) : Integrity :=
  {| ig_State := "verified"; ig_CheckKind := "deep"; ig_OperationID := None; ig_ControllerGeneration := None;
     ig_LeaseUntil := None; ig_Attempt := 0; ig_CheckedAt := Some (ts now); ig_LastLightAt := Some (ts now);
     ig_LastDeepAt := Some (ts now); ig_NextCheckAt := ts (now + ReplicaIntegrityLightInterval);
     ig_DeepCheckAt := Some (ts (now + ReplicaIntegrityDeepInterval)); ig_ErrorCode := None |}.

(** The ready archives of a user. *)
Definition ready_archive (user : Z) (k : Z * Z) (c : ReplicaCopy) : bool :=
  (k.1 =? user) && String.eqb (rc_Kind c) "archive" && String.eqb (rc_State c) "ready".

(** [INSERT INTO replica_copies ... ON CONFLICT (user_id,node_id) DO UPDATE], under
    the index of one ready archive per user. *)
Definition publish_copy (copy_id : string) (p : CompleteSnapshotWorkflowParams) (user : Z) (sid : string)
  (now : time) : WTx unit := fun d =>
  let old := wd_copies d !! (user, cp_TargetNodeID p) in
  let m := <[(user, cp_TargetNodeID p) :=
    {| rc_ID := match old with Some c => rc_ID c | None => copy_id end; rc_SnapshotID := Some sid;
       rc_Kind := cp_ReplicaKind p; rc_State := "ready"; rc_Origin := cp_ReplicaOrigin p;
       rc_IsAuthoritative := match old with Some c => rc_IsAuthoritative c | None => false end;
       rc_CompatibilityState := "compatible"; rc_PublishedAt := Some (ts now); rc_VerifiedAt := Some (ts now);
       rc_CreatedAt := match old with Some c => rc_CreatedAt c | None => ts now end; rc_UpdatedAt := ts now;
       rc_Integrity := verified_now now |}]> (wd_copies d) in
  if node_exists d (cp_TargetNodeID p)
     && negb (Nat.ltb 1 (length (rows_where (ready_archive user) m)))
     && (bool_decide (is_Some old)
         || Nat.eqb (length (rows_where (fun _ c => String.eqb (rc_ID c) copy_id) (wd_copies d))) 0)
  then Ok (tt, put_copies m d) else Fail sql_error.

Definition alert_key (copy : ReplicaCopy) : string := ("replica-integrity:" ++ rc_ID copy)%string.

Definition resolve_alert (user node : Z) (now : time) : WTx unit := tx_write (fun d =>
  match wd_copies d !! (user, node) with
  | None => d
  | Some c => put_alerts (update_where (fun k a => String.eqb k (alert_key c)
                  && bool_decide (at_State a ∈ ["open"; "acknowledged"]))
                (fun _ => {| at_State := "resolved"; at_ResolvedAt := Some (ts now); at_LastSeenAt := ts now |})
                (wd_alerts d)) d
  end).

(** The manifest of the copy that was replaced is deleted. *)
Definition delete_manifest (old : option string) (sid : string) : WTx unit := tx_write (fun d =>
  match old with
  | Some o =>
      if String.eqb o sid then d
      else put_manifests (update_where (fun id _ => String.eqb id o)
             (fun s => {| sm_WorkflowID := sm_WorkflowID s; sm_UserID := sm_UserID s;
                sm_SourceNodeID := sm_SourceNodeID s; sm_ActivityEpoch := sm_ActivityEpoch s;
                sm_FormatVersion := sm_FormatVersion s; sm_ManifestSHA256 := sm_ManifestSHA256 s;
                sm_ArchiveSHA256 := sm_ArchiveSHA256 s; sm_FileCount := sm_FileCount s;
                sm_TotalBytes := sm_TotalBytes s; sm_State := "deleted"; sm_CreatedAt := sm_CreatedAt s |})
             (wd_manifests d)) d
  | None => d
  end).

(** The capability that authorised the transfer is consumed. *)
Definition consume_cap (wid hash : string) (now : time) : WTx unit := fun d =>
  let p (_ : string) c := prepared_for wid c && String.eqb (tc_TokenHash c) hash in
  if Nat.eqb (length (rows_where p (wd_caps d))) 1
  then Ok (tt, put_caps (update_where p (cap_set_state "consumed" (Some (ts now))) (wd_caps d)) d)
  else Fail ErrSnapshotStateConflict.

Definition finish_job (wid : string) (version bytes files : Z) (now : time) : WTx unit :=
  let! _ := require (files <=? MaxInt32) sql_error in
  let! n := update_jobs (fun _ => of_workflow wid)
    (fun j => {| bj_UserID := bj_UserID j; bj_SrcNodeID := bj_SrcNodeID j; bj_DstNodeID := bj_DstNodeID j;
       bj_Trigger := bj_Trigger j; bj_Status := "done"; bj_DataVersion := Some version; bj_Bytes := Some bytes;
       bj_FileCount := Some files; bj_Error := None; bj_StartedAt := bj_StartedAt j;
       bj_FinishedAt := Some (ts now); bj_CreatedAt := bj_CreatedAt j; bj_WorkflowID := bj_WorkflowID j;
       bj_SnapshotID := bj_SnapshotID j; bj_ActivityEpoch := bj_ActivityEpoch j |}) in
  require (Nat.eqb n 1) ErrSnapshotStateConflict.

Definition finish_replica (legacy node version : Z) (checksum : string) (bytes : Z) (now : time) : WTx unit := fun d =>
  match wd_replicas d !! (legacy, node) with
  | Some r => Ok (tt, put_replicas (<[(legacy, node) :=
      {| ur_Kind := ur_Kind r; ur_DataVersion := version; ur_State := "ready"; ur_LastSyncAt := Some (ts now);
         ur_Checksum := Some checksum; ur_SizeBytes := Some bytes |}]> (wd_replicas d)) d)
  | None => Fail ErrSnapshotStateConflict
  end.

(** The publication proper, once the workflow may publish. *)
Definition publish_tx (newid : Z -> string) (copy_id : string) (p : CompleteSnapshotWorkflowParams)
  (wid : string) (user legacy : Z) (now : time) : WTx Z :=
  let! sid := uuid_param (cp_SnapshotID p) in
  let! _ := seal_manifest p wid sid in
  let! old := tx_read (fun d => wd_copies d !! (user, cp_TargetNodeID p) ≫= rc_SnapshotID) in
  let! version := tx_read (fun d => next_version d legacy) in
  let! _ := require (version <=? MaxInt64) sql_error in
  let! _ := cancel_cleanups user (cp_TargetNodeID p) now in
  let! _ := when (String.eqb (cp_ReplicaKind p) "archive")
              (supersede_archives newid user legacy (cp_TargetNodeID p) now) tt in
  let! _ := publish_copy copy_id p user sid now in
  let! _ := resolve_alert user (cp_TargetNodeID p) now in
  let! _ := delete_manifest old sid in
  let! _ := consume_cap wid (cp_CapabilityHash p) now in
  let! _ := finish_job wid version (cp_TotalBytes p) (cp_FileCount p) now in
  let! _ := finish_replica legacy (cp_TargetNodeID p) version (hex_encode (cp_ManifestSHA256 p)) (cp_TotalBytes p) now in
  let! _ := update_workflows (fun _ id _ => String.eqb id wid)
    (fun w => wf_set_State "succeeded" (wf_set_CleanupState "succeeded" (wf_set_UpdatedAt (ts now)
       (wf_set_FinishedAt (Some (ts now)) w)))) in
  let! _ := update_steps (fun k _ => String.eqb k.1 wid) (finish_step now) in
  tx_ret version.

(** The workflow and the legacy id of its user. *)
Definition completion_row (wid : string) (d : WDB) : option (Workflow * Z * Z) :=
  match wd_workflows d !! wid with
  | Some w => match wf_UserID w ≫= fun u => (fun g => (u, g)) <$> db_users (wd_core d) !! u with
              | Some (u, g) => (fun l => (w, u, l)) <$> gu_LegacyUserID g
              | None => None
              end
  | None => None
  end.

Definition complete_tx (newid : Z -> string) (copy_id : string) (p : CompleteSnapshotWorkflowParams) (now : time)
  : WTx Z :=
  let! wid := uuid_param (cp_WorkflowID p) in
  let! (w, user, legacy) := select1 (completion_row wid) ErrNoRows in
  if String.eqb (wf_State w) "succeeded"
  then let! j := select1 (fun d => job_of d wid) ErrNoRows in
       match bj_DataVersion j.2 with Some v => tx_ret v | None => tx_fail ErrSnapshotStateConflict end
  else
    let! _ := require (String.eqb (wf_State w) "publishing") ErrSnapshotStateConflict in
    let! active := select1 (fun d => active_generation (wd_core d)) ErrNoRows in
    let! _ := require (wf_ControllerGeneration w =? active) ErrSnapshotStateConflict in
    publish_tx newid copy_id p wid user legacy now.

Definition CompleteSnapshotWorkflow (clock : time) (newid : Z -> string) (copy_id : string)
  (p : CompleteSnapshotWorkflowParams) (d : WDB) : result Z * WDB :=
  if complete_valid p then runTx (complete_tx newid copy_id p (now_or clock (cp_Now p))) d
  else (Fail ErrInvalidSnapshotWorkflow, d).

End SnapshotStore.
