(* ===== verification/SnapshotLife.v ===== *)
(** * The life of a snapshot workflow

    What the operations of SnapshotStore.v promise together.  A run is a list of
    events: every operation of src/internal/store/snapshots.go and backups.go, the
    statements of other files that touch the same rows (the inserts of a storage
    repair, the cancellations of superseded reconciliations, the revocation of a
    retired node's capabilities), and any other change, which leaves the rows of
    snapshot workflows and their capabilities alone.

    The abstract workflow ([flow]) is its phase and the number of ordinary retries;
    every event leaves a workflow as it is or makes the one move its label allows of
    a workflow it names ([event_label], [flow_does]). *)

From Stdlib Require Import ZArith Lia Ascii String.
From stdpp Require Import base list gmap strings relations.
From S2P Require Import Prelude GoStrings AgentState Schema Leases Handoffs WorkflowSchema SnapshotStore.
#[local] Open Scope Z_scope.

(** ** Statements that leave workflows and capabilities alone *)

(** A statement that is one test and one write. *)
Ltac one_write :=
  intros ? ? ? Hw; cbv beta zeta in Hw;
  repeat match type of Hw with
  | (match ?x with _ => _ end) = Ok _ => destruct x eqn:?; try discriminate Hw
  end; injection Hw as ? <-; split; reflexivity.

Section Frames.
Context `{Postgres}.

Lemma insert_job_flow u s t tr st now : tx_rel same_flow (insert_job u s t tr st now).
Proof. unfold insert_job. one_write. Qed.

Lemma insert_step_flow wid step state now : tx_rel same_flow (insert_step wid step state now).
Proof. unfold insert_step. one_write. Qed.

Lemma insert_steps_flow wid steps now : tx_rel same_flow (insert_steps wid steps now).
Proof.
  induction steps as [|[step state] steps IH]; cbn; [apply tx_rel_ret; exact _|].
  apply tx_rel_bind; [exact _ | apply insert_step_flow | done].
Qed.

Lemma insert_manifest_flow sid wid u s e now : tx_rel same_flow (insert_manifest sid wid u s e now).
Proof. unfold insert_manifest. one_write. Qed.

Lemma put_pending_account_flow wid u n h v ph ps sub now :
  tx_rel same_flow (put_pending_account wid u n h v ph ps sub now).
Proof. unfold put_pending_account. one_write. Qed.

Lemma snapshot_epoch_flow p now : tx_rel same_flow (snapshot_epoch p now).
Proof. unfold snapshot_epoch. one_write. Qed.

Lemma link_job_flow jid p wid sid e : tx_rel same_flow (link_job jid p wid sid e).
Proof. unfold link_job. one_write. Qed.

Lemma upsert_replica_flow u n k : tx_rel same_flow (upsert_replica u n k).
Proof. unfold upsert_replica. one_write. Qed.

Lemma fence_relays_flow wid now : tx_rel same_flow (fence_relays wid now).
Proof. unfold fence_relays, tx_write. one_write. Qed.

Lemma update_jobs_flow p f : tx_rel same_flow (update_jobs p f).
Proof. unfold update_jobs. one_write. Qed.

#[local] Hint Resolve insert_job_flow insert_step_flow insert_steps_flow insert_manifest_flow
  put_pending_account_flow snapshot_epoch_flow link_job_flow upsert_replica_flow fence_relays_flow
  update_jobs_flow : tx_frame.

Lemma take_reconciliation_flow p wid now : tx_rel same_flow (take_reconciliation p wid now).
Proof. unfold take_reconciliation. apply tx_rel_bind; [exact _ | apply tx_rel_uuid; exact _ | intros id]. one_write. Qed.

Lemma take_item_flow p wid now : tx_rel same_flow (take_item p wid now).
Proof. unfold take_item. apply tx_rel_bind; [exact _ | apply tx_rel_uuid; exact _ | intros id]. one_write. Qed.

Lemma prepareWorkflowTargetAccount_flow wid u n h now :
  tx_rel same_flow (prepareWorkflowTargetAccount wid u n h now).
Proof.
  intros d b d' E. unfold prepareWorkflowTargetAccount in E. cbv zeta in E.
  destruct (bool_decide _); [by injection E as <- <-|]. destruct (_ || _); [done|].
  assert (forall v ph ps sub, tx_rel same_flow
    (tx_bind (put_pending_account wid u n h v ph ps sub now) (fun _ => tx_ret true))) as Hput by (intros; tx_frame).
  destruct (password_material d u); [by eapply Hput|].
  destruct (oauth_identity d u); [by eapply Hput | done].
Qed.

Lemma create_retirement_flow p g now : tx_rel same_flow (create_retirement p g now).
Proof. unfold create_retirement. tx_frame. Qed.

Lemma when_flow {A} b (m : WTx A) other : tx_rel same_flow m -> tx_rel same_flow (when b m other).
Proof. unfold when. destruct b; [done | intros _; apply tx_rel_ret; exact _]. Qed.

Lemma seal_manifest_flow p wid sid : tx_rel same_flow (seal_manifest p wid sid).
Proof. unfold seal_manifest. one_write. Qed.

Lemma cancel_cleanups_flow u n now : tx_rel same_flow (cancel_cleanups u n now).
Proof. unfold cancel_cleanups. one_write. Qed.

Lemma schedule_cleanup_flow newid now d x : same_flow d (schedule_cleanup newid now d x).
Proof.
  destruct x as [[u n] c]. cbn. destruct (rc_SnapshotID c), (db_users (wd_core d) !! u ≫= gu_LegacyUserID); try done.
  destruct (db_legacy (wd_core d) !! _); [|done]. by destruct (negb _).
Qed.

Lemma supersede_archives_flow newid u l n now : tx_rel same_flow (supersede_archives newid u l n now).
Proof.
  intros d a d' E. unfold supersede_archives in E. destruct (fresh_ids _ _ _); [|done]. injection E as _ <-.
  assert (forall rows d0, same_flow d0 (foldl (schedule_cleanup newid now) d0 rows)) as Hfold.
  { intros rows. induction rows as [|x rows IH]; intros d0; cbn; [done|].
    etrans; [apply schedule_cleanup_flow | apply IH]. }
  etrans; [|done]. etrans; [|apply Hfold]. done.
Qed.

Lemma publish_copy_flow cid p u sid now : tx_rel same_flow (publish_copy cid p u sid now).
Proof. unfold publish_copy. one_write. Qed.

Lemma resolve_alert_flow u n now : tx_rel same_flow (resolve_alert u n now).
Proof.
  intros d a d' E. unfold resolve_alert in E. apply tx_write_ok in E as [_ ->].
  by destruct (wd_copies d !! (u, n)).
Qed.

Lemma delete_manifest_flow old sid : tx_rel same_flow (delete_manifest old sid).
Proof.
  intros d a d' E. unfold delete_manifest in E. apply tx_write_ok in E as [_ ->].
  destruct old as [o|]; [|done]. by destruct (String.eqb o sid).
Qed.

Lemma finish_job_flow wid v b f now : tx_rel same_flow (finish_job wid v b f now).
Proof. unfold finish_job. tx_frame. Qed.

Lemma finish_replica_flow l n v c b now : tx_rel same_flow (finish_replica l n v c b now).
Proof. unfold finish_replica. one_write. Qed.

End Frames.

#[export] Hint Resolve insert_job_flow insert_step_flow insert_steps_flow insert_manifest_flow
  put_pending_account_flow snapshot_epoch_flow link_job_flow upsert_replica_flow fence_relays_flow
  update_jobs_flow take_reconciliation_flow take_item_flow prepareWorkflowTargetAccount_flow
  create_retirement_flow when_flow seal_manifest_flow cancel_cleanups_flow supersede_archives_flow
  publish_copy_flow resolve_alert_flow delete_manifest_flow finish_job_flow finish_replica_flow : tx_frame.

(** ** The abstract workflow *)

Inductive phase :=
  Scheduled | Quiescing | Drained | Snapshotting | Transferring | Verifying | Publishing
| Waiting | Succeeded | Failed | Cancelled.

#[export] Instance phase_eq_dec : EqDecision phase.
Proof. solve_decision. Defined.

Definition phases : list phase :=
  [Scheduled; Quiescing; Drained; Snapshotting; Transferring; Verifying; Publishing; Waiting; Succeeded;
   Failed; Cancelled].

Definition phase_name (ph : phase) : string :=
  match ph with
  | Scheduled => "scheduled" | Quiescing => "quiescing" | Drained => "drained"
  | Snapshotting => "snapshotting" | Transferring => "transferring" | Verifying => "verifying"
  | Publishing => "publishing" | Waiting => "retry_wait" | Succeeded => "succeeded"
  | Failed => "failed" | Cancelled => "cancelled"
  end.

Definition phase_of (state : string) : option phase :=
  head (List.filter (fun ph => String.eqb (phase_name ph) state) phases).

Definition finished (ph : phase) : bool :=
  match ph with Succeeded | Failed | Cancelled => true | _ => false end.

(** The phases the nodes report, in the order of one attempt. *)
Definition next_phase (ph : phase) : option phase :=
  match ph with
  | Quiescing => Some Drained | Drained => Some Snapshotting
  | Snapshotting => Some Transferring | Transferring => Some Verifying | Verifying => Some Publishing
  | _ => None
  end.

(** A workflow: its phase, and how many ordinary attempts have failed. *)
Record flow := Flow { fl_phase : phase; fl_retries : Z }.

(** The moves of a workflow, one for each kind of operation. *)
Inductive flow_move :=
| MStay
| MCreate
| MBegin
| MReport (to : phase)
| MReceive
| MRetry
| MRegenerate
| MResume
| MPublish
| MFail
| MCancel.

(** What a move takes a workflow from and to: it is created scheduled; begun; taken
    to the next phase of the attempt by a report; taken to publishing by the receipt
    of a transfer that was under way; put back for another attempt, which counts as a
    retry unless a change of generation caused it; resumed; published; given up. *)
Inductive move_step : flow_move -> option flow -> option flow -> Prop :=
| M_create : move_step MCreate None (Some (Flow Scheduled 0))
| M_begin n : move_step MBegin (Some (Flow Scheduled n)) (Some (Flow Quiescing n))
| M_report ph ph' n : next_phase ph = Some ph' -> move_step (MReport ph') (Some (Flow ph n)) (Some (Flow ph' n))
| M_receive ph n : ph = Transferring \/ ph = Verifying ->
    move_step MReceive (Some (Flow ph n)) (Some (Flow Publishing n))
| M_retry ph n : finished ph = false -> ph <> Waiting ->
    move_step MRetry (Some (Flow ph n)) (Some (Flow Waiting (n + 1)))
| M_regenerate ph n : finished ph = false -> move_step MRegenerate (Some (Flow ph n)) (Some (Flow Waiting n))
| M_resume n : move_step MResume (Some (Flow Waiting n)) (Some (Flow Quiescing n))
| M_publish n : move_step MPublish (Some (Flow Publishing n)) (Some (Flow Succeeded n))
| M_fail ph n : finished ph = false -> move_step MFail (Some (Flow ph n)) (Some (Flow Failed n))
| M_cancel ph n : finished ph = false -> move_step MCancel (Some (Flow ph n)) (Some (Flow Cancelled n)).

(** The label of an operation: the workflows it names and the move it may make. *)
Record label := { lb_names : string -> Prop; lb_move : flow_move }.

Definition flow_does (l : label) (id : string) (o o' : option flow) : Prop :=
  o' = o \/ (lb_names l id /\ move_step (lb_move l) o o').

(** One operation makes its move once. *)
Lemma move_step_once m a b c : move_step m a b -> move_step m b c -> c = b.
Proof.
  destruct 1 as [|n|ph ph' n Hn|ph n Ho|ph n Hf Hw|ph n Hf|n|n|ph n Hf|ph n Hf]; intros Hs; inversion Hs; subst; try done;
    by destruct ph; cbn in *; simplify_eq.
Qed.

#[export] Instance flow_does_preorder l id : PreOrder (flow_does l id).
Proof.
  split; [by left|]. intros a b c [->|[Hn Hab]] [->|[Hn' Hbc]]; [by left | by right | by right|].
  right. split; [done|]. by rewrite (move_step_once _ _ _ _ Hab Hbc).
Qed.

Definition is_snapshot (w : Workflow) : bool := String.eqb (wf_Type w) "snapshot".

Definition flow_of (w : Workflow) : option flow :=
  if is_snapshot w
  then (fun ph => Flow ph (wf_Attempt w - wf_GenerationRecoveryCount w))
         <$> phase_of (wf_State w)
  else None.

(** The abstract workflow of an id. *)
Definition row_flow (d : WDB) (id : string) : option flow := wd_workflows d !! id ≫= flow_of.

(** What a retry of a snapshot resumes in. *)
Definition resume_inv (w : Workflow) : Prop :=
  is_snapshot w = true -> wf_ResumeState w = None \/ wf_ResumeState w = Some "quiescing"%string.

(** The constraints of the table, and the resumed phase. *)
Definition flow_inv (d : WDB) : Prop :=
  workflows_ok (wd_workflows d) = true
  /\ forall id w, wd_workflows d !! id = Some w -> resume_inv w.

(** What a statement of an operation with this label may do to the workflows. *)
Definition flows (l : label) (d d' : WDB) : Prop :=
  flow_inv d -> flow_inv d' /\ forall id, flow_does l id (row_flow d id) (row_flow d' id).

#[export] Instance flows_preorder l : PreOrder (flows l).
Proof.
  split.
  - intros d Hi. by split; [|intros id; left].
  - intros d1 d2 d3 H12 H23 Hi. destruct (H12 Hi) as [Hi2 Hs2]. destruct (H23 Hi2) as [Hi3 Hs3].
    split; [done|]. intros id. etrans; [apply Hs2 | apply Hs3].
Qed.

Lemma same_workflows_flows l d d' : wd_workflows d' = wd_workflows d -> flows l d d'.
Proof.
  intros E Hi. split; [unfold flow_inv in *; by rewrite E|]. intros id. unfold row_flow. left. by rewrite E.
Qed.

Lemma same_flow_flows l d d' : same_flow d d' -> flows l d d'.
Proof. intros [E _]. by apply same_workflows_flows. Qed.

Lemma phase_of_name ph : phase_of (phase_name ph) = Some ph.
Proof. by destruct ph. Qed.

Lemma phase_name_inj ph ph' : phase_name ph = phase_name ph' -> ph = ph'.
Proof. intros E. apply (f_equal phase_of) in E. rewrite !phase_of_name in E. by injection E. Qed.

Lemma terminal_name ph : is_terminal (phase_name ph) = finished ph.
Proof. by destruct ph. Qed.

(** The phase of a row the table accepts. *)
Definition in_phase (w : Workflow) (ph : phase) : Prop := wf_State w = phase_name ph.

Lemma workflows_ok_row m id w :
  workflows_ok m = true -> m !! id = Some w -> workflow_ok w = true /\ shares_user m id w = false.
Proof.
  intros Hok Hl. apply (rows_where_none _ _ _ _ Hok) in Hl. b2p. done.
Qed.

Lemma workflow_ok_phase w : workflow_ok w = true -> exists ph, in_phase w ph.
Proof.
  unfold workflow_ok, in_phase. intros Hok. b2p.
  match goal with Hin : wf_State w ∈ workflow_states |- _ => apply list_elem_of_In in Hin; cbn in Hin end.
  repeat match goal with Hin : _ \/ _ |- _ => destruct Hin as [Hin|Hin] end; try done;
    match goal with Hin : ?s = wf_State w |- _ => exists (default Failed (phase_of s)); by rewrite <- Hin end.
Qed.

(** What an update of a row must do for the workflow it models. *)
Definition row_steps (l : label) (id : string) (w w' : Workflow) : Prop :=
  forall ph, in_phase w ph -> resume_inv w ->
  wf_Type w' = wf_Type w /\ resume_inv w'
  /\ (is_snapshot w = true -> flow_does l id (flow_of w) (flow_of w')).

Lemma update_flows_at l p f d n d' :
  update_workflows p f d = Ok (n, d') ->
  (forall id w, wd_workflows d !! id = Some w -> p d id w = true -> row_steps l id w (f w)) ->
  flows l d d'.
Proof.
  intros E Hf [Hok Hi]. apply update_workflows_ok in E as (Hok' & _ & ->). cbn.
  assert (forall id w, wd_workflows d !! id = Some w ->
    let w' := if p d id w then f w else w in
    wf_Type w' = wf_Type w /\ resume_inv w' /\ (is_snapshot w = true -> flow_does l id (flow_of w) (flow_of w'))) as Hrow.
  { intros id w Hl. destruct (workflow_ok_phase w) as [ph Hph]; [by eapply workflows_ok_row|].
    cbv zeta. destruct (p d id w) eqn:Ep; [by eapply Hf; eauto|]. split; [done|]. split; [by eapply Hi | by left]. }
  split; [split; [done|]|].
  - intros id w' Hl. cbn in Hl. rewrite update_where_lookup in Hl.
    destruct (wd_workflows d !! id) as [w|] eqn:Hw; [|done]. cbn in Hl. injection Hl as <-.
    by destruct (Hrow _ _ Hw) as (_ & Hr & _).
  - intros id. unfold row_flow. cbn. rewrite update_where_lookup.
    destruct (wd_workflows d !! id) as [w|] eqn:Hw; [|by left]. cbn.
    destruct (Hrow _ _ Hw) as (Ht & _ & Hs). destruct (is_snapshot w) eqn:Esn; [by apply Hs|].
    left. unfold flow_of, is_snapshot in *. by rewrite Ht, Esn.
Qed.

Lemma update_flows l p f :
  (forall d id w, wd_workflows d !! id = Some w -> p d id w = true -> row_steps l id w (f w)) ->
  tx_rel (flows l) (update_workflows p f).
Proof. intros Hf d n d' E. eapply update_flows_at; [done|]. intros id w. apply Hf. Qed.

(** A row whose phase and counters stay. *)
Lemma row_steps_same l id w w' :
  wf_State w' = wf_State w -> wf_Type w' = wf_Type w -> wf_Attempt w' = wf_Attempt w ->
  wf_GenerationRecoveryCount w' = wf_GenerationRecoveryCount w -> wf_ResumeState w' = wf_ResumeState w ->
  row_steps l id w w'.
Proof.
  intros E1 E2 E3 E4 E5 ph Hst Hre. unfold resume_inv, flow_of, is_snapshot in *.
  rewrite E1, E2, E3, E4, E5. split; [done|]. split; [done|]. by left.
Qed.

(** A row the operation names, whose phase changes by its move. *)
Lemma row_steps_phase l id w w' ph' :
  lb_names l id -> wf_Type w' = wf_Type w ->
  wf_ResumeState w' = None \/ wf_ResumeState w' = wf_ResumeState w
    \/ (is_snapshot w = true -> wf_ResumeState w' = Some "quiescing"%string) ->
  (forall ph, in_phase w ph -> resume_inv w -> is_snapshot w = true -> in_phase w' ph' /\ move_step (lb_move l)
     (Some (Flow ph (wf_Attempt w - wf_GenerationRecoveryCount w)))
     (Some (Flow ph' (wf_Attempt w' - wf_GenerationRecoveryCount w')))) ->
  row_steps l id w w'.
Proof.
  intros Hn E3 Hre Hst ph Hph Hi. assert (is_snapshot w' = is_snapshot w) as E4 by (unfold is_snapshot; by rewrite E3).
  split; [done|split].
  - intros Es. rewrite E4 in Es. destruct Hre as [-> | [-> | Hre]]; [by left | by apply Hi | right; by apply Hre].
  - intros Es. destruct (Hst _ Hph Hi Es) as [E1 Hstep]. unfold flow_of.
    rewrite E4, Es, Hph, E1, !phase_of_name. cbn. by right.
Qed.

(** The phase of a row with a known state. *)
Lemma in_phase_is w ph ph' : in_phase w ph -> wf_State w = phase_name ph' -> ph = ph'.
Proof. unfold in_phase. intros Hp Hs. apply phase_name_inj. congruence. Qed.

#[export] Hint Resolve same_flow_flows : tx_frame.

(** A statement of another table. *)
Lemma frame_flows {A} l (m : WTx A) : tx_rel same_flow m -> tx_rel (flows l) m.
Proof. intros Hm d a d' E. by eapply same_flow_flows, Hm. Qed.

#[export] Hint Extern 2 (tx_rel (flows _) _) => apply frame_flows : tx_frame.

Lemma revoke_caps_flows l wid : tx_rel (flows l) (revoke_caps wid).
Proof. intros d n d' [= <- <-]. by apply same_workflows_flows. Qed.

#[export] Hint Resolve revoke_caps_flows : tx_frame.

(** ** The operations *)

Section Operations.
Context `{Postgres}.

(** The labels of operations that move nothing, and of those that move the workflow
    they are called for. *)
Definition stay : label := {| lb_names := fun _ => False; lb_move := MStay |}.
Definition named (wid : string) (m : flow_move) : label := {| lb_names := fun id => uuid_in wid = Some id; lb_move := m |}.

(** An operation that starts by reading the id it is called with. *)
Lemma named_flows {A} l wid (k : string -> WTx A) :
  (forall id, uuid_in wid = Some id -> tx_rel (flows l) (k id)) -> tx_rel (flows l) (tx_bind (uuid_param wid) k).
Proof.
  intros Hk d a d' E. unfold tx_bind, uuid_param in E. destruct (uuid_in wid) as [id|]; [|done]. by eapply Hk.
Qed.

Lemma open_phase w ph : in_phase w ph -> is_open w = true -> finished ph = false.
Proof. unfold is_open, in_phase. intros ->. rewrite terminal_name. by destruct (finished ph). Qed.

(** An update that gives an open workflow its last phase. *)
Lemma row_steps_abandon l id w w' ph' :
  lb_names l id -> is_open w = true -> (lb_move l, ph') = (MFail, Failed) \/ (lb_move l, ph') = (MCancel, Cancelled) ->
  wf_State w' = phase_name ph' -> wf_Type w' = wf_Type w ->
  wf_ResumeState w' = wf_ResumeState w -> wf_Attempt w' = wf_Attempt w ->
  wf_GenerationRecoveryCount w' = wf_GenerationRecoveryCount w -> row_steps l id w w'.
Proof.
  intros Hn Ho Hph E1 E2 E3 E4 E5. apply (row_steps_phase l id w w' ph'); [done | done | by right; left|].
  intros ph Hst _ _. rewrite E4, E5. split; [done|]. pose proof (open_phase _ _ Hst Ho) as Hf.
  destruct Hph as [[= -> ->]|[= -> ->]]; by constructor.
Qed.

Lemma update_workflow_flows l wid p f :
  (forall id w, row_steps l id w (f w)) -> tx_rel (flows l) (update_workflow wid p f).
Proof.
  intros Hf. unfold update_workflow. tx_frame. apply update_flows. intros d id w _ _. apply Hf.
Qed.

Lemma guarded_update_flows l wid p f d :
  (forall id w, row_steps l id w (f w)) -> flows l d (guarded_update wid p f d).2.
Proof.
  intros Hf. unfold guarded_update. apply (tx_rel_run (flows l)).
  apply tx_rel_bind; [exact _ | by apply update_workflow_flows | intros b]. apply tx_rel_require; exact _.
Qed.

(** A row that only gets new lease, error or time columns. *)
Ltac touch := intros; by apply row_steps_same.

Lemma Claim_flows wid w now ttl d : flows stay d (ClaimSnapshotWorkflow wid w now ttl d).2.
Proof.
  unfold ClaimSnapshotWorkflow. destruct (_ || _); [done|].
  apply (tx_rel_run (flows stay)). apply update_workflow_flows. touch.
Qed.

Lemma Renew_flows wid w now ttl later d : flows stay d (RenewSnapshotWorkflow wid w now ttl later d).2.
Proof.
  unfold RenewSnapshotWorkflow. destruct (_ || _); [done|].
  pose proof (tx_rel_run (flows stay) (update_workflow wid (fun d w' => workable d w' && lease_held w now w')
    (fun w => wf_set_LeaseUntil (Some (ts (now + ttl))) (wf_set_UpdatedAt (ts now) w))) d) as Hr.
  destruct (runTx _ d) as [[[]|e] d2]; cbn in *; apply Hr, update_workflow_flows; touch.
Qed.

Lemma Release_flows wid w d : flows stay d (ReleaseSnapshotWorkflow wid w d).2.
Proof.
  unfold ReleaseSnapshotWorkflow. destruct (_ || _); [done|]. apply (tx_rel_run (flows stay)).
  apply tx_rel_bind; [exact _ | apply update_workflow_flows; touch | intros b; apply tx_rel_ret; exact _].
Qed.

Lemma Defer_flows clock wid c s now delay d : flows stay d (DeferSnapshotWorkflow clock wid c s now delay d).2.
Proof. unfold DeferSnapshotWorkflow. destruct (_ || _); [done|]. apply guarded_update_flows. touch. Qed.

Lemma Clear_flows clock wid now d : flows stay d (ClearSnapshotWorkflowDeferral clock wid now d).2.
Proof. unfold ClearSnapshotWorkflowDeferral. destruct (String.eqb _ _); [done|]. apply guarded_update_flows. touch. Qed.

Lemma Switch_flows clock wid now d : flows stay d (SwitchSnapshotWorkflowToRelay clock wid now d).2.
Proof. unfold SwitchSnapshotWorkflowToRelay. destruct (String.eqb _ _); [done|]. apply guarded_update_flows. touch. Qed.

Lemma Adopt_flows clock locked now limit d : flows stay d (AdoptStaleSnapshotWorkflows clock locked now limit d).2.
Proof.
  unfold AdoptStaleSnapshotWorkflows. destruct (active_generation _); [|done].
  apply (tx_rel_run (flows stay)). apply update_flows. touch.
Qed.

Lemma cancel_flows l wid reason now :
  lb_move l = MCancel -> lb_names l wid -> tx_rel (flows l) (cancelSnapshotWorkflowTx wid reason now).
Proof.
  intros Hm Hn. unfold cancelSnapshotWorkflowTx. tx_frame. apply update_flows. intros d id w _ Hp. b2p. subst id.
  apply (row_steps_abandon l wid w _ Cancelled); try done. right. by rewrite Hm.
Qed.

#[local] Hint Resolve cancel_flows : tx_frame.

Lemma Cancel_flows clock wid reason now d :
  flows (named wid MCancel) d (CancelSnapshotWorkflow clock wid reason now d).2.
Proof.
  unfold CancelSnapshotWorkflow. destruct (String.eqb _ _); [done|]. apply (tx_rel_run (flows _)).
  apply named_flows. intros id Hid. by apply cancel_flows.
Qed.

(** The next statement of a transaction that was taken apart. *)
Ltac next_flows :=
  match goal with
  | Hm : update_workflows _ _ ?d = Ok (_, ?e) |- flows _ ?d _ => transitivity e; [eapply update_flows_at; [exact Hm | cbv beta]|]
  | Hm : ?m ?d = Ok (_, ?e) |- flows ?l ?d _ =>
      transitivity e; [assert (tx_rel (flows l) m) as Hrel by tx_frame; eapply Hrel; exact Hm|]
  | |- flows _ ?d ?d => reflexivity
  end.

(** The workflow of a backup job. *)
Definition of_job (d : WDB) (job : Z) : label :=
  {| lb_names := fun id => exists j, wd_jobs d !! job = Some j /\ bj_WorkflowID j = Some id; lb_move := MCancel |}.

(** What a transaction does from one database. *)
Lemma run_at {A} (R : WDB -> WDB -> Prop) `{!PreOrder R} (m : WTx A) d :
  (forall a d', m d = Ok (a, d') -> R d d') -> R d (runTx m d).2.
Proof. intros Hm. unfold runTx. destruct (m d) as [[a d']|e] eqn:E; cbn; [by eapply Hm | reflexivity]. Qed.

Lemma Abort_flows clock id reason now d :
  flows (of_job d id) d (AbortBackupJobAndSnapshotWorkflow clock id reason now d).2.
Proof.
  unfold AbortBackupJobAndSnapshotWorkflow. destruct (_ <=? _); [done|]. apply (run_at (flows (of_job d id))).
  intros u d' E. tx_split. rename x into j. next_flows.
  destruct (bj_WorkflowID j) as [wid|] eqn:Hw; [|by tx_split].
  destruct (String.eqb wid ""); [by tx_split|].
  eapply cancel_flows; [done | by exists j | done].
Qed.

Lemma Fail_flows clock wid code s now d : flows (named wid MFail) d (FailSnapshotWorkflow clock wid code s now d).2.
Proof.
  unfold FailSnapshotWorkflow. destruct (_ || _); [done|]. apply (tx_rel_run (flows _)).
  apply named_flows. intros wid' Hid. tx_frame.
  - apply update_flows. intros d0 id w _ Hp. b2p. subst id. apply (row_steps_abandon _ _ w _ Failed); try done. by left.
  - intros d0 u d' E. apply tx_write_ok in E as [_ ->].
    destruct (_ ≫= _) as [[u0 g]|]; [|done]. destruct (wf_TargetNodeID _); [|done].
    apply same_workflows_flows. by destruct (match _ with Some _ => _ | None => _ end).
Qed.

Lemma Prepare_flows clock wid g now d :
  flows (named wid MReceive) d (PrepareRecoveredSnapshotCompletion clock wid g now d).2.
Proof.
  unfold PrepareRecoveredSnapshotCompletion. destruct (_ || _); [done|]. apply (tx_rel_run (flows _)).
  apply named_flows. intros wid' Hid. tx_frame.
  apply update_flows. intros d0 id w _ Hp. b2p. subst id.
  destruct (decide (wf_State w = "publishing"%string)) as [Ep|Hne]; [by apply row_steps_same|].
  apply (row_steps_phase _ _ w _ Publishing); [done | done | by right; left|]. intros ph Hph _ _. split; [done|].
  apply M_receive.
  match goal with Hin : wf_State w ∈ _ |- _ => rewrite Hph in Hin; apply list_elem_of_In in Hin end.
  unfold in_phase in *. destruct ph; cbn in *; naive_solver.
Qed.

(** A row that is put back for another attempt. *)
Lemma row_steps_wait l id w w' :
  lb_names l id -> is_open w = true -> wf_State w' = "retry_wait" -> wf_Type w' = wf_Type w ->
  (is_snapshot w = true -> wf_ResumeState w' = Some "quiescing"%string) ->
  (lb_move l = MRetry /\ wf_State w <> "retry_wait"
   /\ wf_Attempt w' - wf_GenerationRecoveryCount w' = wf_Attempt w - wf_GenerationRecoveryCount w + 1)
  \/ (lb_move l = MRegenerate
      /\ wf_Attempt w' - wf_GenerationRecoveryCount w' = wf_Attempt w - wf_GenerationRecoveryCount w) ->
  row_steps l id w w'.
Proof.
  intros Hn Ho E1 E2 E3 E4. apply (row_steps_phase l id w w' Waiting); [done | done | by right; right|].
  intros ph Hph _ _. split; [done|]. pose proof (open_phase _ _ Hph Ho) as Hf. destruct E4 as [(-> & Hne & ->) | [-> ->]].
  - apply M_retry; [done|]. intros ->. by rewrite Hph in Hne.
  - by apply M_regenerate.
Qed.

Definition same_table (d d' : WDB) : Prop := wd_workflows d' = wd_workflows d.

#[local] Instance same_table_preorder : PreOrder same_table.
Proof. split; [done|]. unfold same_table. intros d1 d2 d3. congruence. Qed.

Lemma frame_table {A} (m : WTx A) : tx_rel same_flow m -> tx_rel same_table m.
Proof. intros Hm d a d' E. by apply Hm in E as [E _]. Qed.

Lemma revoke_caps_table wid : tx_rel same_table (revoke_caps wid).
Proof. by intros d n d' [= <- <-]. Qed.

#[local] Hint Resolve revoke_caps_table : tx_frame.
#[local] Hint Extern 2 (tx_rel same_table _) => apply frame_table : tx_frame.

(** The table of workflows is still the one an earlier statement read. *)
Ltac same_rows :=
  repeat match goal with
  | Hm : ?m ?d = Ok (_, ?e) |- context [wd_workflows ?e] =>
      lazymatch d with e => fail | _ => idtac end;
      assert (tx_rel same_table m) as Hrel by tx_frame; rewrite (Hrel _ _ _ Hm); clear Hrel
  end.

(** What a reset makes of the workflow: another attempt, or the end if its job was
    aborted. *)
Definition reset_move (d : WDB) (workflowID : string) : flow_move :=
  match uuid_in workflowID ≫= job_of d with
  | Some (_, j) => if String.eqb (bj_Status j) "aborted" then MCancel else MRegenerate
  | None => MStay
  end.

Lemma Reset_flows clock wid g now d :
  flows (named wid (reset_move d wid)) d (ResetRecoveredSnapshotWorkflow clock wid g now d).2.
Proof.
  unfold ResetRecoveredSnapshotWorkflow. destruct (_ || _); [done|].
  apply (run_at (flows (named wid (reset_move d wid)))).
  intros u d' E. unfold reset_move. tx_split. rename x into id, x1 into j.
  assert (exists w jid, wd_workflows d !! id = Some w /\ job_of d id = Some (jid, j) /\ is_open w = true)
    as (w & jid & Hl & Hj & Ho).
  { unfold recovering_job in *. destruct (wd_workflows d !! id) as [w|]; [|done].
    destruct (job_of d id) as [[jid j']|]; [|done].
    match goal with Hr : (if ?b then _ else _) = Some _ |- _ => destruct b eqn:Eb; [|done] end. b2p. simplify_eq. eauto. }
  match goal with Hu : uuid_in wid = Some id |- _ => rename Hu into Hid end. rewrite Hid. cbn. rewrite Hj. next_flows.
  destruct (String.eqb (bj_Status j) "aborted"); [by eapply (cancel_flows _ id); [|exact Hid|]|].
  tx_split. next_flows. next_flows.
  { intros id' w'. same_rows. intros Hl' Hp. b2p. subst id'. simplify_eq.
    apply row_steps_wait; try done. right. cbn. split; [done|]. lia. }
  next_flows. next_flows. next_flows.
Qed.

Lemma retry_plan_snapshot w resume steps :
  retry_plan (wf_Type w) = Some (resume, steps) -> is_snapshot w = true -> resume = "quiescing"%string.
Proof. unfold is_snapshot, retry_plan. intros Hp Hs. rewrite Hs in Hp. congruence. Qed.

Lemma Retry_flows wid code s now delay d :
  flows (named wid MRetry) d (ScheduleSnapshotRetry wid code s now delay d).2.
Proof.
  unfold ScheduleSnapshotRetry. destruct (_ || _); [done|]. apply (tx_rel_run (flows _)).
  intros d0 u d' E. tx_split. rename x into id, x1 into w0.
  destruct (wd_workflows d0 !! id) as [w|] eqn:Hl; [|done].
  match goal with Hw : (if ?b then _ else _) = Some _ |- _ => destruct b eqn:Eb; [|done]; injection Hw as <- end. b2p.
  destruct (retry_plan (wf_Type w)) as [[resume steps]|] eqn:Hplan; [|done]. tx_split. next_flows.
  { intros id' w' Hl' Hp. b2p. simplify_eq.
    apply row_steps_wait; try done.
    - intros Es. cbn. by rewrite (retry_plan_snapshot _ _ _ Hplan Es).
    - left. do 2 (split; [done|]). cbn. lia. }
  assert (tx_rel (flows (named wid MRetry)) (when (bool_decide (wf_Type w ∈ ["snapshot"; "restore"]))
    (let! n := revoke_caps id in require (Nat.eqb n 1) ErrSnapshotStateConflict) tt)) as Hwhen.
  { unfold when. tx_frame. }
  match goal with Hw : when _ _ _ _ = _ |- _ => transitivity x2; [by eapply Hwhen|] end.
  next_flows. next_flows. reflexivity.
Qed.

Lemma Resume_flows wid now d : flows (named wid MResume) d (ResumeSnapshotRetry wid now d).2.
Proof.
  unfold ResumeSnapshotRetry. destruct (_ || _); [done|]. apply (tx_rel_run (flows _)).
  apply named_flows. intros id Hid. apply tx_rel_bind; [exact _ | tx_frame | intros w0].
  apply tx_rel_bind; [exact _ | | intros n]; [|tx_frame].
  apply update_flows. intros d0 id' w _ Hp. cbv beta zeta in Hp. b2p. subst id'.
  match goal with Hs : is_Some (wf_ResumeState w) |- _ => destruct Hs as [r Hr] end.
  apply (row_steps_phase _ _ w _ Quiescing); [done | done | by left|]. intros ph Hph Hre Es.
  assert (r = "quiescing"%string) as -> by (destruct (Hre Es); congruence).
  rewrite (in_phase_is _ _ Waiting Hph) by done. split; [|apply M_resume].
  unfold in_phase. cbn. by rewrite Hr.
Qed.

Lemma insert_cap_flows l cid wid sid s t h g e now : tx_rel (flows l) (insert_cap cid wid sid s t h g e now).
Proof.
  intros d u d' E. unfold insert_cap, write_caps in E. destruct (wd_caps d !! cid); [done|].
  destruct (caps_ok _); [|done]. injection E as _ <-. by apply same_workflows_flows.
Qed.

#[local] Hint Resolve insert_cap_flows : tx_frame.

Lemma Rotate_flows wid cid h e now d : flows stay d (RotateSnapshotCapability wid cid h e now d).2.
Proof. unfold RotateSnapshotCapability. destruct (_ || _); [done|]. apply (tx_rel_run (flows stay)). tx_frame. Qed.

(** The one phase change the Controller itself makes of a snapshot. *)
Lemma Begin_flows clock wid now d :
  flows (named wid MBegin) d (SetSnapshotWorkflowState clock wid "scheduled" "quiescing" now d).2.
Proof.
  unfold SetSnapshotWorkflowState. destruct (_ || _); [done|]. apply (tx_rel_run (flows _)).
  apply named_flows. intros wid' Hid. tx_frame.
  apply update_flows. intros d0 id w _ Hp. b2p. subst id.
  apply (row_steps_phase _ _ w _ Quiescing); [done | done | by right; left|]. intros ph Hph _ _.
  rewrite (in_phase_is _ _ Scheduled Hph) by done. split; [done|]. apply M_begin.
Qed.

(** The table of reports is the order of the phases. *)
Lemma allowed_next toState from actor :
  allowed toState = Some (from, actor) ->
  exists ph ph', from = phase_name ph /\ toState = phase_name ph' /\ next_phase ph = Some ph'.
Proof.
  unfold allowed. intros E.
  repeat match type of E with (if ?b then _ else _) = _ => destruct b eqn:?; [b2p; simplify_eq|] end; [..|done];
    eauto 8; [by exists Quiescing, Drained | by exists Drained, Snapshotting | by exists Snapshotting, Transferring
    | by exists Transferring, Verifying | by exists Verifying, Publishing].
Qed.

(** The move of a report. *)
Definition report_move (toState : string) : flow_move :=
  match phase_of toState with Some ph => MReport ph | None => MStay end.

Lemma progress_flows wid sid n toState now :
  tx_rel (flows (named wid (report_move toState))) (setSnapshotWorkflowProgressOnce wid sid n toState now).
Proof.
  intros d u d' E. unfold setSnapshotWorkflowProgressOnce in E. tx_split.
  repeat match goal with q : (_ * _)%type |- _ => destruct q end. tx_split.
  destruct (allowed toState) as [[from actor]|] eqn:Ha; [|done]. tx_split.
  destruct (allowed_next _ _ _ Ha) as (ph & ph' & -> & -> & Hnext).
  destruct (String.eqb _ (phase_name ph')); tx_split; [reflexivity|]. next_flows.
  { intros id w Hl Hp. b2p. subst id. unfold progress_row in *. rewrite Hl in *.
    destruct (wd_manifests _ !! _); [|done]. destruct (wf_SourceNodeID w), (wf_TargetNodeID w); try done.
    destruct (String.eqb _ _); [|done]. simplify_eq.
    apply (row_steps_phase _ _ w _ ph'); [done | done | by right; left|]. intros ph0 Hph _ _.
    rewrite (in_phase_is _ _ ph Hph) by done. split; [done|]. cbn. unfold report_move. rewrite phase_of_name.
    by apply M_report. }
  unfold one_step in *.
  destruct (completed_step _); destruct (running_step _); tx_split; repeat next_flows.
Qed.

Lemma Progress_flows clock wid sid n toState now d :
  flows (named wid (report_move toState)) d (SetSnapshotWorkflowProgress clock wid sid n toState now d).2.
Proof.
  unfold SetSnapshotWorkflowProgress. destruct (_ || _); [done|]. apply (tx_rel_run (flows _)), progress_flows.
Qed.

Lemma Step_flows clock wid step now later d : flows stay d (CompleteSnapshotWorkflowStep clock wid step now later d).2.
Proof.
  unfold CompleteSnapshotWorkflowStep. destruct (_ || _); [done|]. destruct (uuid_in wid) as [id|]; [|done].
  match goal with |- context [runTx ?m d] => pose proof (tx_rel_run (flows stay) m d) as Hr; destruct (runTx m d) as [[n|e] d2] end.
  - assert (flows stay d d2) as Hd by (apply Hr; tx_frame). by destruct n as [|[|n]].
  - apply Hr. tx_frame.
Qed.

Lemma consume_cap_flows l wid h now : tx_rel (flows l) (consume_cap wid h now).
Proof.
  intros d u d' E. unfold consume_cap in E. destruct (Nat.eqb _ 1); [|done]. injection E as _ <-.
  by apply same_workflows_flows.
Qed.

Lemma consume_cap_table wid h now : tx_rel same_table (consume_cap wid h now).
Proof. intros d u d' E. unfold consume_cap in E. destruct (Nat.eqb _ 1); [|done]. by injection E as _ <-. Qed.

#[local] Hint Resolve consume_cap_flows consume_cap_table : tx_frame.

Lemma publish_flows newid cid p wid u l now d v d' :
  publish_tx newid cid p wid u l now d = Ok (v, d') -> uuid_in (cp_WorkflowID p) = Some wid ->
  (forall w, wd_workflows d !! wid = Some w -> wf_State w = "publishing") ->
  flows (named (cp_WorkflowID p) MPublish) d d'.
Proof.
  intros E Hid Hst. unfold publish_tx in E. tx_split.
  do 10 next_flows.
  { intros id w. same_rows. intros Hl Hp. b2p. subst id. specialize (Hst _ Hl).
    apply (row_steps_phase _ _ w _ Succeeded); [done | done | by right; left|]. intros ph Hph _ _.
    rewrite (in_phase_is _ _ Publishing Hph) by done. split; [done|]. apply M_publish. }
  repeat next_flows.
Qed.

Lemma Complete_flows clock newid cid p d :
  flows (named (cp_WorkflowID p) MPublish) d (CompleteSnapshotWorkflow clock newid cid p d).2.
Proof.
  unfold CompleteSnapshotWorkflow. destruct (complete_valid p); [|done]. apply (tx_rel_run (flows _)).
  intros d0 v d' E. unfold complete_tx in E. tx_split.
  match goal with q : (_ * _ * _)%type |- _ => destruct q as [[w u] l] end.
  destruct (String.eqb (wf_State w) "succeeded"); tx_split.
  { match goal with q : (_ * _)%type |- _ => destruct q as [jid j] end. cbn in *.
    destruct (bj_DataVersion j); tx_split; done. }
  eapply publish_flows; [done | done|]. intros w' Hl. unfold completion_row in *. rewrite Hl in *.
  match goal with Hc : (match ?o with _ => _ end) = Some _ |- _ => destruct o as [[u' g]|]; [|done];
    destruct (gu_LegacyUserID g); [|done]; injection Hc as <- <- <- end.
  by b2p.
Qed.

(** The row of a new workflow. *)
Lemma insert_workflow_flows l wid op u s t e g mode now :
  lb_move l = MCreate -> lb_names l wid -> tx_rel (flows l) (insert_workflow wid op "snapshot" u s t e g mode now).
Proof.
  intros Hm Hnm d a d' E [Hok Hi]. unfold insert_workflow, write_workflows in E.
  destruct (wd_workflows d !! wid) eqn:Hn; [done|]. destruct (_ && _); [|done].
  destruct (workflows_ok _) eqn:Hok'; [|done]. injection E as _ <-. split; [split; [done|]|].
  - intros id w. cbn. rewrite lookup_insert_Some. intros [[<- <-] | [_ Hl]]; [by left | by eapply Hi].
  - intros id. unfold row_flow. cbn. destruct (decide (wid = id)) as [<-|Hne].
    + rewrite lookup_insert_eq, Hn. cbn. right. split; [done|]. rewrite Hm. apply M_create.
    + left. by rewrite lookup_insert_ne.
Qed.

#[local] Hint Resolve insert_workflow_flows : tx_frame.

Lemma when_flows {A} l b (m : WTx A) other : tx_rel (flows l) m -> tx_rel (flows l) (when b m other).
Proof. unfold when. destruct b; [done | intros _; apply tx_rel_ret; exact _]. Qed.

(** The statements of the creation before the workflow is inserted, and after. *)
Ltac create_frame :=
  repeat first
    [ apply named_flows; intros ? ?
    | apply tx_rel_bind; [exact _ | first [by apply insert_workflow_flows | tx_frame; apply when_flows; tx_frame] | intros ?] ];
  tx_frame.

Lemma Create_flows clock p d : flows (named (sp_WorkflowID p) MCreate) d (CreateSnapshotWorkflow clock p d).2.
Proof.
  unfold CreateSnapshotWorkflow. destruct (create_valid _ _); [|done]. apply (tx_rel_run (flows _)).
  unfold create_tx. create_frame.
  intros d0 b d' E. by apply (tx_rel_lift (flows (named (sp_WorkflowID p) MCreate))) in E.
Qed.

(** ** Runs *)

Inductive snapshot_event :=
| SCreate (clock : time) (p : CreateSnapshotWorkflowParams)
| SRepair (wid op : string) (user source target epoch generation : Z) (mode cid sid hash : string) (expires now : time)
| SClaim (wid worker : string) (now : time) (ttl : duration)
| SRenew (wid worker : string) (now : time) (ttl : duration) (later : WDB -> WDB)
| SRelease (wid worker : string)
| SAdopt (clock : time) (locked : string -> bool) (now : time) (limit : Z)
| SPrepare (clock : time) (wid : string) (generation : Z) (now : time)
| SReset (clock : time) (wid : string) (generation : Z) (now : time)
| SRetry (wid code summary : string) (now : time) (delay : duration)
| SResume (wid : string) (now : time)
| SDefer (clock : time) (wid code summary : string) (now : time) (delay : duration)
| SClear (clock : time) (wid : string) (now : time)
| SSwitch (clock : time) (wid : string) (now : time)
| SRotate (wid cid hash : string) (expires now : time)
| SBegin (clock : time) (wid : string) (now : time)
| SProgress (clock : time) (wid sid : string) (node : Z) (toState : string) (now : time)
| SStep (clock : time) (wid step : string) (now : time) (later : WDB -> WDB)
| SComplete (clock : time) (newid : Z -> string) (copy_id : string) (p : CompleteSnapshotWorkflowParams)
| SFail (clock : time) (wid code summary : string) (now : time)
| SCancel (clock : time) (wid reason : string) (now : time)
| SAbort (clock : time) (job : Z) (reason : string) (now : time)
| SJobStatus (clock : time) (job : Z) (status : string) (version bytes files : Z) (error : string)
| SSupersede (ids : list string) (code summary : string) (now : time)
| SRevokeNode (node : Z)
| SOther (f : WDB -> WDB).

(** The rows of a storage repair that its transaction adds to the two tables. *)
Definition repair_rows (wid op : string) (user source target epoch generation : Z) (mode cid sid hash : string)
  (expires now : time) : WTx unit :=
  let! _ := insert_workflow wid op "snapshot" user source target epoch generation mode now in
  insert_cap cid wid sid source target hash generation expires now.

(** The workflows of superseded or conflicting reconciliations are cancelled and
    their capabilities revoked. *)
Definition revoke_where (p : string -> TransferCapability -> bool) : WTx unit := tx_write (fun d =>
  put_caps (update_where (fun cid c => p cid c && String.eqb (tc_State c) "prepared")
              (fun c => cap_set_state "revoked" (tc_ConsumedAt c) c) (wd_caps d)) d).

Definition supersede_workflows (ids : list string) (code summary : string) (now : time) : WTx unit :=
  let! _ := update_workflows (fun _ id w => bool_decide (id ∈ ids) && is_open w)
    (fun w => wf_set_State "cancelled" (wf_set_ErrorCode (Some code) (wf_set_ErrorSummary (Some summary)
       (wf_set_CleanupState "pending" (wf_set_UpdatedAt (ts now) (wf_set_FinishedAt (Some (ts now)) w)))))) in
  revoke_where (fun _ c => bool_decide (tc_WorkflowID c ∈ ids)).

(** The capabilities of a node that is being retired. *)
Definition revoke_node_caps (node : Z) : WTx unit :=
  revoke_where (fun _ c => (tc_SourceNodeID c =? node) || (tc_TargetNodeID c =? node)).

(** A change elsewhere: it may rewrite every other table and the workflows of other
    types with their capabilities, under the same constraints. *)
Definition of_snapshot (m : gmap string Workflow) (c : TransferCapability) : option bool :=
  is_snapshot <$> m !! tc_WorkflowID c.

Definition keep_rows (m m' : gmap string Workflow) : gmap string Workflow :=
  filter (fun kw => is_snapshot kw.2 = true) m ∪ filter (fun kw => is_snapshot kw.2 = false) m'.

Definition keep_caps (m rows : gmap string Workflow) (c c' : gmap string TransferCapability)
  : gmap string TransferCapability :=
  filter (fun kc => of_snapshot m kc.2 = Some true) c ∪ filter (fun kc => of_snapshot rows kc.2 = Some false) c'.

Definition foreign (f : WDB -> WDB) (d : WDB) : WDB :=
  let rows := keep_rows (wd_workflows d) (wd_workflows (f d)) in
  let caps := keep_caps (wd_workflows d) rows (wd_caps d) (wd_caps (f d)) in
  if workflows_ok rows && caps_ok caps then put_caps caps (put_workflows rows (f d)) else d.

Definition snapshot_effect (ev : snapshot_event) (d : WDB) : WDB :=
  match ev with
  | SCreate clock p => (CreateSnapshotWorkflow clock p d).2
  | SRepair wid op u s t e g mode cid sid hash expires now =>
      (runTx (repair_rows wid op u s t e g mode cid sid hash expires now) d).2
  | SClaim wid w now ttl => (ClaimSnapshotWorkflow wid w now ttl d).2
  | SRenew wid w now ttl later => (RenewSnapshotWorkflow wid w now ttl later d).2
  | SRelease wid w => (ReleaseSnapshotWorkflow wid w d).2
  | SAdopt clock locked now limit => (AdoptStaleSnapshotWorkflows clock locked now limit d).2
  | SPrepare clock wid g now => (PrepareRecoveredSnapshotCompletion clock wid g now d).2
  | SReset clock wid g now => (ResetRecoveredSnapshotWorkflow clock wid g now d).2
  | SRetry wid c s now delay => (ScheduleSnapshotRetry wid c s now delay d).2
  | SResume wid now => (ResumeSnapshotRetry wid now d).2
  | SDefer clock wid c s now delay => (DeferSnapshotWorkflow clock wid c s now delay d).2
  | SClear clock wid now => (ClearSnapshotWorkflowDeferral clock wid now d).2
  | SSwitch clock wid now => (SwitchSnapshotWorkflowToRelay clock wid now d).2
  | SRotate wid cid h e now => (RotateSnapshotCapability wid cid h e now d).2
  | SBegin clock wid now => (SetSnapshotWorkflowState clock wid "scheduled" "quiescing" now d).2
  | SProgress clock wid sid n st now => (SetSnapshotWorkflowProgress clock wid sid n st now d).2
  | SStep clock wid step now later => (CompleteSnapshotWorkflowStep clock wid step now later d).2
  | SComplete clock newid cid p => (CompleteSnapshotWorkflow clock newid cid p d).2
  | SFail clock wid c s now => (FailSnapshotWorkflow clock wid c s now d).2
  | SCancel clock wid r now => (CancelSnapshotWorkflow clock wid r now d).2
  | SAbort clock j r now => (AbortBackupJobAndSnapshotWorkflow clock j r now d).2
  | SJobStatus clock j st v b n e => (UpdateBackupJobStatus clock j st v b n e d).2
  | SSupersede ids c s now => (runTx (supersede_workflows ids c s now) d).2
  | SRevokeNode n => (runTx (revoke_node_caps n) d).2
  | SOther f => foreign f d
  end.

Definition snapshot_run (d : WDB) (evs : list snapshot_event) : WDB :=
  foldl (fun d ev => snapshot_effect ev d) d evs.

(** ** Every event refines the abstract workflow *)

Lemma revoke_where_flows l p : tx_rel (flows l) (revoke_where p).
Proof. intros d u d' E. unfold revoke_where in E. apply tx_write_ok in E as [_ ->]. by apply same_workflows_flows. Qed.

#[local] Hint Resolve revoke_where_flows : tx_frame.

Lemma keep_rows_lookup m m' id w :
  keep_rows m m' !! id = Some w ->
  (m !! id = Some w /\ is_snapshot w = true) \/ (m' !! id = Some w /\ is_snapshot w = false).
Proof.
  unfold keep_rows. intros [E | [_ E]]%lookup_union_Some_raw; apply map_lookup_filter_Some in E; [by left | by right].
Qed.

Lemma keep_rows_snapshot m m' id w : m !! id = Some w -> is_snapshot w = true -> keep_rows m m' !! id = Some w.
Proof. intros Hl Hs. unfold keep_rows. apply lookup_union_Some_l. by apply map_lookup_filter_Some. Qed.

Lemma foreign_flows f d : flows stay d (foreign f d).
Proof.
  unfold foreign. destruct (_ && _) eqn:Ec; [|reflexivity]. b2p. intros [Hok Hi]. split; [split; [done|]|].
  - intros id w Hl. cbn in Hl. destruct (keep_rows_lookup _ _ _ _ Hl) as [[Hl' Hs] | [Hl' Hs]]; [by eapply Hi|].
    intros Hs'. congruence.
  - intros id. left. unfold row_flow. cbn.
    destruct (wd_workflows d !! id) as [w|] eqn:Hl; [destruct (is_snapshot w) eqn:Es|].
    + by rewrite (keep_rows_snapshot _ _ _ _ Hl Es).
    + assert (flow_of w = None) as Hn by (unfold flow_of; by rewrite Es). cbn. rewrite Hn.
      destruct (keep_rows _ _ !! id) as [w'|] eqn:Hk; [|done]. cbn.
      destruct (keep_rows_lookup _ _ _ _ Hk) as [[Hl' Hs] | [Hl' Hs]]; [congruence|]. unfold flow_of. by rewrite Hs.
    + cbn. destruct (keep_rows _ _ !! id) as [w'|] eqn:Hk; [|done]. cbn.
      destruct (keep_rows_lookup _ _ _ _ Hk) as [[Hl' Hs] | [Hl' Hs]]; [congruence|]. unfold flow_of. by rewrite Hs.
Qed.

Definition among (ids : list string) : label := {| lb_names := fun id => id ∈ ids; lb_move := MCancel |}.

Lemma supersede_flows ids code s now : tx_rel (flows (among ids)) (supersede_workflows ids code s now).
Proof.
  unfold supersede_workflows. tx_frame. apply update_flows. intros d id w _ Hp. b2p.
  apply (row_steps_abandon _ _ w _ Cancelled); try done. by right.
Qed.

(** The label of each operation: which workflows it names, and its move. *)
Definition event_label (ev : snapshot_event) (d : WDB) : label :=
  match ev with
  | SCreate _ p => named (sp_WorkflowID p) MCreate
  | SRepair wid _ _ _ _ _ _ _ _ _ _ _ _ => {| lb_names := eq wid; lb_move := MCreate |}
  | SBegin _ wid _ => named wid MBegin
  | SProgress _ wid _ _ toState _ => named wid (report_move toState)
  | SPrepare _ wid _ _ => named wid MReceive
  | SReset _ wid _ _ => named wid (reset_move d wid)
  | SRetry wid _ _ _ _ => named wid MRetry
  | SResume wid _ => named wid MResume
  | SComplete _ _ _ p => named (cp_WorkflowID p) MPublish
  | SFail _ wid _ _ _ => named wid MFail
  | SCancel _ wid _ _ => named wid MCancel
  | SAbort _ job _ _ => of_job d job
  | SSupersede ids _ _ _ => among ids
  | _ => stay
  end.

Lemma event_flows ev d : flows (event_label ev d) d (snapshot_effect ev d).
Proof.
  destruct ev; cbn [snapshot_effect event_label].
  - apply Create_flows.
  - apply (tx_rel_run (flows _)). unfold repair_rows. apply tx_rel_bind; [exact _ | by apply insert_workflow_flows | intros _].
    tx_frame.
  - apply Claim_flows.
  - apply Renew_flows.
  - apply Release_flows.
  - apply Adopt_flows.
  - apply Prepare_flows.
  - apply Reset_flows.
  - apply Retry_flows.
  - apply Resume_flows.
  - apply Defer_flows.
  - apply Clear_flows.
  - apply Switch_flows.
  - apply Rotate_flows.
  - apply Begin_flows.
  - apply Progress_flows.
  - apply Step_flows.
  - apply Complete_flows.
  - apply Fail_flows.
  - apply Cancel_flows.
  - apply Abort_flows.
  - by apply same_workflows_flows.
  - apply (tx_rel_run (flows _)), supersede_flows.
  - apply (tx_rel_run (flows stay)). unfold revoke_node_caps. tx_frame.
  - apply foreign_flows.
Qed.

Lemma run_flow_inv evs d : flow_inv d -> flow_inv (snapshot_run d evs).
Proof.
  revert d. induction evs as [|ev evs IH]; intros d Hi; [done|]. apply (IH (snapshot_effect ev d)).
  by apply event_flows.
Qed.

(** A finished workflow makes no move. *)
Lemma finished_stuck l id a b : flow_does l id (Some a) b -> finished (fl_phase a) = true -> b = Some a.
Proof.
  intros [->|[_ Hs]] Hf; [done|]. inversion Hs; subst; cbn in *; try congruence.
  - by destruct ph.
  - by match goal with Ho : _ \/ _ |- _ => destruct Ho; subst end.
Qed.

Lemma run_finished evs id a : finished (fl_phase a) = true -> forall d, flow_inv d ->
  row_flow d id = Some a -> row_flow (snapshot_run d evs) id = Some a.
Proof.
  intros Hf. induction evs as [|ev evs IH]; intros d Hi Hd; [done|].
  destruct (event_flows ev d Hi) as [Hi' Hs]. apply (IH (snapshot_effect ev d)); [done|].
  specialize (Hs id). rewrite Hd in Hs. by eapply finished_stuck.
Qed.

(** ** Capabilities *)

(** The unique indexes, and that a prepared capability belongs to an open workflow. *)
Record caps_wf (d : WDB) : Prop := {
  kw_token : forall i j ci cj, wd_caps d !! i = Some ci -> wd_caps d !! j = Some cj ->
    tc_TokenHash ci = tc_TokenHash cj -> i = j;
  kw_prepared : forall i j ci cj, wd_caps d !! i = Some ci -> wd_caps d !! j = Some cj ->
    tc_WorkflowID ci = tc_WorkflowID cj -> tc_State ci = "prepared" -> tc_State cj = "prepared" -> i = j;
  kw_open : forall i c, wd_caps d !! i = Some c ->
    exists w, wd_workflows d !! tc_WorkflowID c = Some w
      /\ (is_snapshot w = true -> tc_State c = "prepared" -> is_open w = true)
}.

Definition keeps_caps (d d' : WDB) : Prop := caps_wf d -> caps_wf d'.

#[local] Instance keeps_caps_preorder : PreOrder keeps_caps.
Proof. split; [by intros d Hd | intros d1 d2 d3 H12 H23 Hd; by apply H23, H12]. Qed.

Lemma caps_ok_wf m :
  caps_ok m = true ->
  (forall i j ci cj, m !! i = Some ci -> m !! j = Some cj -> tc_TokenHash ci = tc_TokenHash cj -> i = j)
  /\ (forall i j ci cj, m !! i = Some ci -> m !! j = Some cj -> tc_WorkflowID ci = tc_WorkflowID cj ->
        tc_State ci = "prepared" -> tc_State cj = "prepared" -> i = j).
Proof.
  intros Hok.
  assert (forall i j ci cj, m !! i = Some ci -> m !! j = Some cj -> i <> j ->
    tc_TokenHash cj <> tc_TokenHash ci
    /\ (tc_WorkflowID cj = tc_WorkflowID ci -> tc_State ci = "prepared" -> tc_State cj = "prepared" -> False)) as Hn.
  { intros i j ci cj Hi Hj Hne. apply (rows_where_none _ _ _ _ Hok) in Hi. apply negb_false_iff in Hi.
    apply (rows_where_none _ _ _ _ Hi) in Hj. apply andb_false_iff in Hj as [Hj|Hj].
    { apply negb_false_iff, String.eqb_eq in Hj. congruence. }
    apply orb_false_iff in Hj as [Ht Hp]. apply String.eqb_neq in Ht. split; [done|].
    intros E0 E1 E2. by rewrite E0, E1, E2, !String.eqb_refl in Hp. }
  split; intros i j ci cj Hi Hj; (destruct (decide (i = j)) as [|Hne]; [done|]);
    destruct (Hn i j ci cj Hi Hj Hne) as [H1 H2]; naive_solver.
Qed.

(** Rows of workflows stay, and stay open, except for those of [ids]; capabilities
    only leave the prepared state, and those of [ids] do. *)
Lemma caps_wf_change (ids : list string) d d' :
  (forall id w, wd_workflows d !! id = Some w -> exists w', wd_workflows d' !! id = Some w'
     /\ wf_Type w' = wf_Type w /\ (id ∉ ids -> is_snapshot w = true -> is_open w = true -> is_open w' = true)) ->
  (forall i c', wd_caps d' !! i = Some c' -> exists c, wd_caps d !! i = Some c
     /\ tc_WorkflowID c' = tc_WorkflowID c /\ tc_TokenHash c' = tc_TokenHash c
     /\ (tc_State c' = "prepared" -> tc_State c = "prepared" /\ tc_WorkflowID c ∉ ids)) ->
  keeps_caps d d'.
Proof.
  intros Hrows Hcaps [Ht Hp Ho]. split.
  - intros i j ci cj Hi Hj E. destruct (Hcaps _ _ Hi) as (ci0 & Hi0 & _ & Ei & _).
    destruct (Hcaps _ _ Hj) as (cj0 & Hj0 & _ & Ej & _). eapply Ht; eauto. congruence.
  - intros i j ci cj Hi Hj E Pi Pj. destruct (Hcaps _ _ Hi) as (ci0 & Hi0 & Ei & _ & Hpi).
    destruct (Hcaps _ _ Hj) as (cj0 & Hj0 & Ej & _ & Hpj). apply (Hp i j ci0 cj0); eauto; [congruence|naive_solver..].
  - intros i c Hi. destruct (Hcaps _ _ Hi) as (c0 & Hi0 & Ew & _ & Hpi). destruct (Ho _ _ Hi0) as (w & Hw & Hopen).
    destruct (Hrows _ _ Hw) as (w' & Hw' & Ety & Hstay). exists w'. rewrite Ew. split; [done|].
    intros Es Pc. destruct (Hpi Pc) as [Pc0 Hnin].
    assert (is_snapshot w = true) as Es0 by (unfold is_snapshot in *; by rewrite <- Ety). by apply Hstay, Hopen.
Qed.

Lemma same_flow_caps d d' : same_flow d d' -> keeps_caps d d'.
Proof. intros [E1 E2] [Ht Hp Ho]. split; rewrite ?E1, ?E2; done. Qed.

Lemma frame_caps {A} (m : WTx A) : tx_rel same_flow m -> tx_rel keeps_caps m.
Proof. intros Hm d a d' E. by eapply same_flow_caps, Hm. Qed.

#[local] Hint Extern 2 (tx_rel keeps_caps _) => apply frame_caps : tx_frame.

(** An update that keeps open workflows open. *)
Lemma update_caps_at p f d n d' :
  update_workflows p f d = Ok (n, d') ->
  (forall id w, wd_workflows d !! id = Some w -> p d id w = true ->
     wf_Type (f w) = wf_Type w /\ (is_snapshot w = true -> is_open w = true -> is_open (f w) = true)) ->
  keeps_caps d d'.
Proof.
  intros E Hf. apply update_workflows_ok in E as (_ & _ & ->). apply (caps_wf_change []).
  - intros id w Hl. exists (if p d id w then f w else w). cbn. rewrite update_where_lookup, Hl. split; [done|].
    destruct (p d id w) eqn:Ep; [|done]. destruct (Hf _ _ Hl Ep) as [Ht Ho]. by split.
  - intros i c Hc. exists c. cbn in Hc. split; [done|]. split; [done|]. split; [done|]. intros ->. split; [done|].
    apply not_elem_of_nil.
Qed.

Lemma update_caps p f :
  (forall d id w, wd_workflows d !! id = Some w -> p d id w = true ->
     wf_Type (f w) = wf_Type w /\ (is_snapshot w = true -> is_open w = true -> is_open (f w) = true)) ->
  tx_rel keeps_caps (update_workflows p f).
Proof. intros Hf d n d' E. eapply update_caps_at; [done|]. intros id w. apply Hf. Qed.

(** Revocation. *)
Lemma revoked_caps (q : string -> TransferCapability -> bool) (ids : list string) m i c' :
  update_where q (fun c => cap_set_state "revoked" (tc_ConsumedAt c) c) m !! i = Some c' ->
  (forall c, m !! i = Some c -> tc_State c = "prepared" -> tc_WorkflowID c ∈ ids -> q i c = true) ->
  exists c, m !! i = Some c /\ tc_WorkflowID c' = tc_WorkflowID c /\ tc_TokenHash c' = tc_TokenHash c
     /\ (tc_State c' = "prepared" -> tc_State c = "prepared" /\ tc_WorkflowID c ∉ ids).
Proof.
  rewrite update_where_lookup. intros E Hq. destruct (m !! i) as [c|] eqn:Hi; [|done]. cbn in E. injection E as <-.
  exists c. destruct (q i c) eqn:Eq; [by repeat split|]. repeat split; try done.
  intros Hin. specialize (Hq _ eq_refl). rewrite Eq in Hq. by discriminate Hq.
Qed.

Lemma revoke_where_caps p : tx_rel keeps_caps (revoke_where p).
Proof.
  intros d u d' E. unfold revoke_where in E. apply tx_write_ok in E as [_ ->]. apply (caps_wf_change []).
  - intros id w Hl. by exists w.
  - intros i c' Hc. cbn in Hc. eapply revoked_caps; [done|]. intros c _ _ []%not_elem_of_nil.
Qed.

Lemma revoke_caps_keep wid : tx_rel keeps_caps (revoke_caps wid).
Proof.
  intros d n d' [= <- <-]. apply (caps_wf_change []).
  - intros id w Hl. by exists w.
  - intros i c' Hc. cbn in Hc. eapply revoked_caps; [done|]. intros c _ _ []%not_elem_of_nil.
Qed.

#[local] Hint Resolve revoke_where_caps revoke_caps_keep : tx_frame.

(** An update of columns other than the state and the type. *)
Definition keeps_state (f : Workflow -> Workflow) : Prop :=
  forall w, wf_State (f w) = wf_State w /\ wf_Type (f w) = wf_Type w.

Lemma keeps_state_caps p f : keeps_state f -> tx_rel keeps_caps (update_workflows p f).
Proof.
  intros Hf. apply update_caps. intros d id w _ _. destruct (Hf w) as [Es Et]. split; [done|].
  unfold is_open. by rewrite Es.
Qed.

Lemma update_workflow_caps wid p f : keeps_state f -> tx_rel keeps_caps (update_workflow wid p f).
Proof. intros Hf. unfold update_workflow. tx_frame. by apply keeps_state_caps. Qed.

Lemma guarded_update_caps wid p f d : keeps_state f -> keeps_caps d (guarded_update wid p f d).2.
Proof.
  intros Hf. unfold guarded_update. apply (tx_rel_run keeps_caps). apply tx_rel_bind; [exact _ | | intros b; tx_frame].
  by apply update_workflow_caps.
Qed.

(** An update to a phase that is open. *)
Lemma to_open_caps p f : (forall w, wf_Type (f w) = wf_Type w /\ is_open (f w) = true) ->
  tx_rel keeps_caps (update_workflows p f).
Proof. intros Hf. apply update_caps. intros d id w _ _. destruct (Hf w) as [Et Eo]. by split. Qed.

(** The workflows of [ids] are finished and their capabilities revoked. *)
Lemma finish_caps (ids : list string) p f d n d1 (q : string -> TransferCapability -> bool) d' :
  update_workflows p f d = Ok (n, d1) ->
  (forall w, wf_Type (f w) = wf_Type w) ->
  (forall id w, p d id w = true -> id ∈ ids) ->
  (forall i c, tc_State c = "prepared" -> tc_WorkflowID c ∈ ids -> q i c = true) ->
  wd_workflows d' = wd_workflows d1 ->
  wd_caps d' = update_where q (fun c => cap_set_state "revoked" (tc_ConsumedAt c) c) (wd_caps d1) ->
  keeps_caps d d'.
Proof.
  intros E Ht Hids Hq Ew Ec. apply update_workflows_ok in E as (_ & _ & ->). cbn in Ew, Ec.
  apply (caps_wf_change ids).
  - intros id w Hl. exists (if p d id w then f w else w). rewrite Ew, update_where_lookup, Hl. split; [done|].
    destruct (p d id w) eqn:Ep; [|done]. split; [apply Ht|]. intros Hnin. destruct Hnin. by eapply Hids.
  - intros i c' Hc. rewrite Ec in Hc. eapply revoked_caps; [done|]. intros c _ Hp Hin. by apply Hq.
Qed.

Lemma cancel_caps wid reason now : tx_rel keeps_caps (cancelSnapshotWorkflowTx wid reason now).
Proof.
  intros d u d' E. unfold cancelSnapshotWorkflowTx in E. tx_split.
  match goal with Hs : update_steps _ _ _ = _ |- _ => apply update_steps_ok in Hs as [_ ->] end.
  match goal with Hr : revoke_caps _ _ = _ |- _ => injection Hr as <- <- end.
  eapply (finish_caps [wid] _ _ _ _ _ (fun _ => prepared_for wid)); [done | done | | | done | done].
  - intros id w Hp. cbv beta in Hp. b2p. subst. apply list_elem_of_here.
  - intros i c Hp Hin. apply list_elem_of_singleton in Hin. unfold prepared_for. rewrite Hin, Hp.
    by rewrite String.eqb_refl.
Qed.

#[local] Hint Resolve cancel_caps : tx_frame.

Lemma supersede_caps ids code s now : tx_rel keeps_caps (supersede_workflows ids code s now).
Proof.
  intros d u d' E. unfold supersede_workflows, revoke_where in E. tx_split.
  eapply (finish_caps ids _ _ _ _ _ (fun _ c => bool_decide (tc_WorkflowID c ∈ ids) && String.eqb (tc_State c) "prepared"));
    [done | done | | | done | done].
  - intros id w Hp. cbv beta in Hp. by b2p.
  - intros i c Hp Hin. rewrite Hp. by rewrite bool_decide_true.
Qed.

Lemma Fail_caps clock wid code s now d : keeps_caps d (FailSnapshotWorkflow clock wid code s now d).2.
Proof.
  unfold FailSnapshotWorkflow. destruct (_ || _); [done|]. apply (tx_rel_run keeps_caps).
  intros d0 u d' E. tx_split.
  match goal with Hs : update_steps _ _ _ = _ |- _ => apply update_steps_ok in Hs as [_ ->] end.
  match goal with Hr : revoke_caps _ _ = _ |- _ => injection Hr as <- <- end.
  match goal with Hj : update_jobs _ _ _ = _ |- _ => injection Hj as <- <- end.
  eapply (finish_caps [x] _ _ _ _ _ (fun _ => prepared_for x)); [done | done | | | |].
  - intros id w Hp. cbv beta in Hp. b2p. subst. apply list_elem_of_here.
  - intros i c Hp Hin. apply list_elem_of_singleton in Hin. unfold prepared_for. rewrite Hin, Hp. by rewrite String.eqb_refl.
  - destruct (_ ≫= _) as [[u0 g]|]; [|done]. destruct (wf_TargetNodeID _); [|done].
    by destruct (match _ with Some _ => _ | None => _ end).
  - destruct (_ ≫= _) as [[u0 g]|]; [|done]. destruct (wf_TargetNodeID _); [|done].
    by destruct (match _ with Some _ => _ | None => _ end).
Qed.

Lemma insert_cap_at cid wid sid s t h g e now d u d' :
  insert_cap cid wid sid s t h g e now d = Ok (u, d') ->
  (exists w, wd_workflows d !! wid = Some w /\ is_open w = true) -> keeps_caps d d'.
Proof.
  intros E (w & Hw & Ho) [_ _ Hk]. unfold insert_cap, write_caps in E. destruct (wd_caps d !! cid) eqn:Hn; [done|].
  destruct (caps_ok _) eqn:Hok; [|done]. injection E as _ <-. destruct (caps_ok_wf _ Hok) as [Ht Hp].
  split; cbn; [done | done|]. intros i c. rewrite lookup_insert_Some. intros [[<- <-] | [_ Hl]]; [|by eapply Hk].
  exists w. by split.
Qed.

Lemma Rotate_caps wid cid h e now d : keeps_caps d (RotateSnapshotCapability wid cid h e now d).2.
Proof.
  unfold RotateSnapshotCapability. destruct (_ || _); [done|]. apply (tx_rel_run keeps_caps).
  intros d0 u d' E. tx_split. match goal with q : (_ * _ * _ * _)%type |- _ => destruct q as [[[sid s] t] g] end.
  tx_split. match goal with Hr : revoke_caps _ _ = Ok (_, ?e) |- _ =>
    transitivity e; [by eapply revoke_caps_keep|]; pose proof (revoke_caps_table _ _ _ _ Hr) as Hrows end.
  eapply insert_cap_at; [done|]. unfold same_table in Hrows. rewrite Hrows. unfold rotation_scope in *.
  destruct (wd_workflows d0 !! x) as [w|]; [|done]. destruct (manifest_of d0 x) as [[sid' ?]|]; [|done].
  destruct (wf_SourceNodeID w), (wf_TargetNodeID w); try done. destruct (_ && _) eqn:Eo; [|done]. b2p. eauto.
Qed.

(** The row that is inserted is open. *)
Lemma insert_workflow_caps wid op ty u s t e g mode now d a d' :
  insert_workflow wid op ty u s t e g mode now d = Ok (a, d') ->
  keeps_caps d d' /\ exists w, wd_workflows d' !! wid = Some w /\ is_open w = true.
Proof.
  unfold insert_workflow, write_workflows. intros E. destruct (wd_workflows d !! wid) eqn:Hn; [done|].
  destruct (_ && _); [|done]. destruct (workflows_ok _); [|done]. injection E as _ <-. split.
  - apply (caps_wf_change []); cbn.
    + intros id w Hl. exists w. rewrite lookup_insert_ne by congruence. done.
    + intros i c Hc. exists c. split; [done|]. split; [done|]. split; [done|]. intros ->. split; [done|].
      apply not_elem_of_nil.
  - cbn. rewrite lookup_insert_eq. eauto.
Qed.

Lemma repair_caps wid op u s t e g mode cid sid h ex now :
  tx_rel keeps_caps (repair_rows wid op u s t e g mode cid sid h ex now).
Proof.
  intros d a d' E. unfold repair_rows in E. tx_split.
  match goal with Hi : insert_workflow _ _ _ _ _ _ _ _ _ _ _ = Ok (_, ?e) |- _ =>
    apply insert_workflow_caps in Hi as [Hk Ho]; transitivity e; [done|] end.
  by eapply insert_cap_at.
Qed.

(** The next statement, for the capabilities. *)
Ltac next_caps :=
  match goal with
  | Hm : ?m ?d = Ok (_, ?e) |- keeps_caps ?d _ =>
      transitivity e; [assert (tx_rel keeps_caps m) as Hrel by tx_frame; eapply Hrel; exact Hm|]
  | |- keeps_caps ?d ?d => reflexivity
  end.

Lemma when_caps {A} b (m : WTx A) other : tx_rel keeps_caps m -> tx_rel keeps_caps (when b m other).
Proof. unfold when. destruct b; [done | intros _; apply tx_rel_ret; exact _]. Qed.

Lemma create_nodes_flow p :
  tx_rel same_flow (let! ready := (fun d => tx_lift (snapshot_nodes_ready p d) d) in
                    require ready ErrInvalidSnapshotWorkflow).
Proof. tx_frame. intros d0 b d' E. by apply (tx_rel_lift same_flow) in E. Qed.

Lemma create_reconciliation_flow p g :
  tx_rel same_flow (let! ready := tx_read (reconciliation_ready p g) in
                    require ready ErrIndependentReconciliationState).
Proof. tx_frame. Qed.

Lemma create_provision_flow p wid now :
  tx_rel same_flow (let! handle := select1 (standby_handle p) ErrInvalidSnapshotWorkflow in
               prepareWorkflowTargetAccount wid (sp_GlobalUserID p) (sp_TargetNodeID p) handle now).
Proof. tx_frame. Qed.

#[local] Hint Resolve create_nodes_flow create_reconciliation_flow create_provision_flow : tx_frame.

(** The next statement that leaves the two tables alone. *)
Ltac next_same :=
  match goal with
  | |- same_flow ?d ?d => reflexivity
  | Hm : ?m ?d = Ok (_, ?e) |- same_flow ?d _ =>
      transitivity e; [assert (tx_rel same_flow m) as Hrel by tx_frame; eapply Hrel; exact Hm|]
  end.

(** What creating a workflow does to the two tables. *)
Lemma create_tables p now d r d' :
  create_tx p now d = Ok (r, d') ->
  exists wid op epoch generation cid sid d1 d2 d3 u1 u2,
    uuid_in (sp_WorkflowID p) = Some wid /\ uuid_in (sp_CapabilityID p) = Some cid
    /\ uuid_in (sp_SnapshotID p) = Some sid /\ same_flow d d1
    /\ insert_workflow wid op "snapshot" (sp_GlobalUserID p) (sp_SourceNodeID p) (sp_TargetNodeID p) epoch
         generation (transfer_mode p) now d1 = Ok (u1, d2)
    /\ same_flow d2 d3
    /\ exists d4, insert_cap cid wid sid (sp_SourceNodeID p) (sp_TargetNodeID p) (sp_CapabilityHash p) generation
         (sp_CapabilityExpires p) now d3 = Ok (u2, d4)
    /\ same_flow d4 d'.
Proof.
  intros E. unfold create_tx in E. tx_split.
  match goal with
  | Hi : insert_workflow ?wid ?op _ _ _ _ ?epoch ?generation _ _ ?a = Ok (?u1, ?b),
    Hc : insert_cap ?cid _ ?sid _ _ _ _ _ _ ?c = Ok (?u2, ?e) |- _ =>
      exists wid, op, epoch, generation, cid, sid, a, b, c, u1, u2;
      split; [done|]; split; [done|]; split; [done|];
      split; [|split; [exact Hi|split; [|exists e; split; [exact Hc|]]]]
  end; repeat next_same.
Qed.

Lemma Create_caps clock p d : keeps_caps d (CreateSnapshotWorkflow clock p d).2.
Proof.
  unfold CreateSnapshotWorkflow. destruct (create_valid _ _); [|done]. apply (tx_rel_run keeps_caps).
  intros d0 r d' E.
  destruct (create_tables _ _ _ _ _ E) as (wid & op & ep & g & cid & sid & d1 & d2 & d3 & u1 & u2 & _ & _ & _
    & H1 & Hi & H2 & d4 & Hc & H3).
  apply insert_workflow_caps in Hi as [Hk (w & Hw & Ho)].
  transitivity d1; [by apply same_flow_caps|]. transitivity d2; [done|]. transitivity d3; [by apply same_flow_caps|].
  transitivity d4; [|by apply same_flow_caps]. eapply insert_cap_at; [done|]. exists w. destruct H2 as [-> _]. done.
Qed.

(** What publishing does to the two tables. *)
Definition published_row (now : time) (w : Workflow) : Workflow :=
  wf_set_State "succeeded" (wf_set_CleanupState "succeeded" (wf_set_UpdatedAt (ts now)
    (wf_set_FinishedAt (Some (ts now)) w))).

Lemma publish_tables newid cid p wid u l now d v d' :
  publish_tx newid cid p wid u l now d = Ok (v, d') ->
  exists d1 d2 d3 d4 u1 n,
    same_flow d d1 /\ consume_cap wid (cp_CapabilityHash p) now d1 = Ok (u1, d2) /\ same_flow d2 d3
    /\ update_workflows (fun _ id _ => String.eqb id wid) (published_row now) d3 = Ok (n, d4) /\ same_flow d4 d'.
Proof.
  intros E. unfold publish_tx in E. tx_split.
  match goal with
  | Hc : consume_cap _ _ _ ?a = Ok (?u1, ?b), Hu : update_workflows _ _ ?c = Ok (?n, ?e) |- _ =>
      exists a, b, c, e, u1, n; split; [|split; [exact Hc|split; [|split; [exact Hu|]]]]
  end; repeat next_same.
Qed.

(** The one prepared capability of the workflow is consumed. *)
Lemma consume_cap_ok wid h now d u d' :
  consume_cap wid h now d = Ok (u, d') ->
  exists i c, wd_caps d !! i = Some c /\ tc_WorkflowID c = wid /\ tc_State c = "prepared" /\ tc_TokenHash c = h
    /\ d' = put_caps (update_where (fun _ c => prepared_for wid c && String.eqb (tc_TokenHash c) h)
                        (cap_set_state "consumed" (Some (ts now))) (wd_caps d)) d.
Proof.
  unfold consume_cap. intros E. destruct (Nat.eqb _ 1) eqn:En; [|done]. injection E as _ <-. apply Nat.eqb_eq in En.
  destruct (rows_where _ (wd_caps d)) as [|[i c] rows] eqn:Er; [done|].
  assert ((i, c) ∈ rows_where (fun _ c => prepared_for wid c && String.eqb (tc_TokenHash c) h) (wd_caps d)) as Hin
    by (rewrite Er; apply list_elem_of_here).
  apply rows_where_elem in Hin as [Hl Hp]. unfold prepared_for in Hp. b2p. by exists i, c.
Qed.

Lemma publish_caps newid cid p wid u l now : tx_rel keeps_caps (publish_tx newid cid p wid u l now).
Proof.
  intros d v d' E.
  destruct (publish_tables _ _ _ _ _ _ _ _ _ _ E) as (d1 & d2 & d3 & d4 & u1 & n & H1 & Hc & [Hw3 Hc3] & Hu & H4).
  transitivity d1; [by apply same_flow_caps|]. transitivity d4; [|by apply same_flow_caps].
  apply consume_cap_ok in Hc as (i & c & Hi & Hwid & Hst & Hh & ->). apply update_workflows_ok in Hu as (_ & _ & ->).
  intros Hwf. eapply (caps_wf_change [wid]); [..|exact Hwf]; cbn.
  - intros id w Hl. rewrite update_where_lookup, Hw3. cbn. rewrite Hl. eexists. split; [done|].
    destruct (String.eqb id wid) eqn:Eid; [|done]. b2p. subst id. split; [done|]. intros Hn. destruct Hn.
    apply list_elem_of_here.
  - intros j c' Hj. rewrite Hc3 in Hj. cbn in Hj. rewrite update_where_lookup in Hj.
    destruct (wd_caps d1 !! j) as [cj|] eqn:Ej; [|done]. cbn in Hj. injection Hj as <-. exists cj. split; [done|].
    destruct (prepared_for wid cj && _) eqn:Ep; [done|]. do 3 (split; [done|]).
    intros Hin%list_elem_of_singleton.
    assert (j = i) as -> by (eapply (kw_prepared _ Hwf); eauto; congruence). simplify_eq.
    unfold prepared_for in Ep. rewrite Hst, Hh, !String.eqb_refl in Ep. discriminate Ep.
Qed.

Lemma Complete_caps clock newid cid p d : keeps_caps d (CompleteSnapshotWorkflow clock newid cid p d).2.
Proof.
  unfold CompleteSnapshotWorkflow. destruct (complete_valid p); [|done]. apply (tx_rel_run keeps_caps).
  unfold complete_tx. tx_frame. apply publish_caps.
Qed.

Lemma Retry_caps wid code s now delay d : keeps_caps d (ScheduleSnapshotRetry wid code s now delay d).2.
Proof.
  unfold ScheduleSnapshotRetry. destruct (_ || _); [done|]. apply (tx_rel_run keeps_caps). tx_frame.
  - by apply to_open_caps.
  - apply when_caps. tx_frame.
Qed.

Lemma Reset_caps clock wid g now d : keeps_caps d (ResetRecoveredSnapshotWorkflow clock wid g now d).2.
Proof.
  unfold ResetRecoveredSnapshotWorkflow. destruct (_ || _); [done|]. apply (tx_rel_run keeps_caps). tx_frame.
  by apply to_open_caps.
Qed.

Lemma Resume_caps wid now d : flow_inv d -> keeps_caps d (ResumeSnapshotRetry wid now d).2.
Proof.
  intros [_ Hi]. unfold ResumeSnapshotRetry. destruct (_ || _); [done|].
  unfold runTx. match goal with |- context [tx_bind ?m ?k d] => destruct (tx_bind m k d) as [[a d']|] eqn:E; [|done] end.
  cbn. tx_split. match goal with Hu : update_workflows _ _ _ = Ok (_, ?e) |- _ => transitivity e end.
  { eapply update_caps_at; [done|]. intros id w Hl Hp. cbv beta zeta in Hp. b2p. split; [done|]. intros Es _.
    match goal with Hs : is_Some (wf_ResumeState w) |- _ => destruct Hs as [r Hr] end.
    unfold is_open. cbn. rewrite Hr. destruct (Hi _ _ Hl Es) as [Hn|Hn]; simplify_eq; congruence || done. }
  destruct (retry_plan _) as [[resume steps]|]; [|done]. tx_split. repeat next_caps.
Qed.

Lemma Prepare_caps clock wid g now d : keeps_caps d (PrepareRecoveredSnapshotCompletion clock wid g now d).2.
Proof.
  unfold PrepareRecoveredSnapshotCompletion. destruct (_ || _); [done|]. apply (tx_rel_run keeps_caps). tx_frame.
  by apply to_open_caps.
Qed.

Lemma Begin_caps clock wid now d :
  keeps_caps d (SetSnapshotWorkflowState clock wid "scheduled" "quiescing" now d).2.
Proof.
  unfold SetSnapshotWorkflowState. destruct (_ || _); [done|]. apply (tx_rel_run keeps_caps). tx_frame.
  by apply to_open_caps.
Qed.

Lemma one_step_flow wid step f : tx_rel same_flow (one_step wid step f).
Proof. unfold one_step. tx_frame. Qed.

#[local] Hint Resolve one_step_flow : tx_frame.

Lemma Progress_caps clock wid sid n toState now d :
  keeps_caps d (SetSnapshotWorkflowProgress clock wid sid n toState now d).2.
Proof.
  unfold SetSnapshotWorkflowProgress. destruct (_ || _); [done|]. apply (tx_rel_run keeps_caps).
  unfold setSnapshotWorkflowProgressOnce. destruct (allowed toState) as [[from actor]|] eqn:Ha; tx_frame.
  destruct (allowed_next _ _ _ Ha) as (ph & ph' & _ & -> & Hn). apply to_open_caps. intros w. split; [done|].
  destruct ph; cbn in Hn; try discriminate Hn; injection Hn as <-; reflexivity.
Qed.

Lemma Step_caps clock wid step now later d : keeps_caps d (CompleteSnapshotWorkflowStep clock wid step now later d).2.
Proof.
  unfold CompleteSnapshotWorkflowStep. destruct (_ || _); [done|]. destruct (uuid_in wid) as [id|]; [|done].
  match goal with |- context [runTx ?m d] =>
    pose proof (tx_rel_run keeps_caps m d) as Hr; destruct (runTx m d) as [[n|e] d2] end.
  - assert (keeps_caps d d2) as Hd by (apply Hr; tx_frame). by destruct n as [|[|n]].
  - apply Hr. tx_frame.
Qed.

Lemma foreign_caps f d : keeps_caps d (foreign f d).
Proof.
  unfold foreign. destruct (_ && _) eqn:Ec; [|reflexivity]. b2p. intros [_ _ Ho].
  match goal with Hc : caps_ok _ = true |- _ => destruct (caps_ok_wf _ Hc) as [Ht Hp] end.
  split; cbn; [done | done|]. intros i c Hl. unfold keep_caps in Hl.
  apply lookup_union_Some_raw in Hl as [Hl | [_ Hl]]; apply map_lookup_filter_Some in Hl as [Hl Hs]; cbn in Hs.
  - destruct (Ho _ _ Hl) as (w & Hw & Hopen). unfold of_snapshot in Hs. rewrite Hw in Hs. cbn in Hs. simplify_eq.
    exists w. split; [by apply keep_rows_snapshot | done].
  - unfold of_snapshot in Hs. destruct (keep_rows _ _ !! _) as [w|]; [|done]. cbn in Hs. simplify_eq.
    exists w. split; [done|]. congruence.
Qed.

Lemma event_caps ev d : flow_inv d -> keeps_caps d (snapshot_effect ev d).
Proof.
  intros Hi. destruct ev; cbn [snapshot_effect].
  - apply Create_caps.
  - apply (tx_rel_run keeps_caps), repair_caps.
  - unfold ClaimSnapshotWorkflow. destruct (_ || _); [done|]. by apply (tx_rel_run keeps_caps), update_workflow_caps.
  - unfold RenewSnapshotWorkflow. destruct (_ || _); [done|].
    match goal with |- context [runTx ?m d] =>
      pose proof (tx_rel_run keeps_caps m d) as Hr; destruct (runTx m d) as [[[]|e] d2] end;
      apply Hr; by apply update_workflow_caps.
  - unfold ReleaseSnapshotWorkflow. destruct (_ || _); [done|]. apply (tx_rel_run keeps_caps).
    apply tx_rel_bind; [exact _ | by apply update_workflow_caps | intros b; tx_frame].
  - unfold AdoptStaleSnapshotWorkflows. destruct (active_generation _); [|done].
    by apply (tx_rel_run keeps_caps), keeps_state_caps.
  - apply Prepare_caps.
  - apply Reset_caps.
  - apply Retry_caps.
  - by apply Resume_caps.
  - unfold DeferSnapshotWorkflow. destruct (_ || _); [done|]. by apply guarded_update_caps.
  - unfold ClearSnapshotWorkflowDeferral. destruct (String.eqb _ _); [done|]. by apply guarded_update_caps.
  - unfold SwitchSnapshotWorkflowToRelay. destruct (String.eqb _ _); [done|]. by apply guarded_update_caps.
  - apply Rotate_caps.
  - apply Begin_caps.
  - apply Progress_caps.
  - apply Step_caps.
  - apply Complete_caps.
  - apply Fail_caps.
  - unfold CancelSnapshotWorkflow. destruct (String.eqb _ _); [done|]. apply (tx_rel_run keeps_caps). tx_frame.
  - unfold AbortBackupJobAndSnapshotWorkflow. destruct (_ <=? _); [done|]. apply (tx_rel_run keeps_caps). tx_frame.
  - by apply same_flow_caps.
  - apply (tx_rel_run keeps_caps), supersede_caps.
  - apply (tx_rel_run keeps_caps). unfold revoke_node_caps. tx_frame.
  - apply foreign_caps.
Qed.

Lemma run_caps evs d : flow_inv d -> caps_wf d -> caps_wf (snapshot_run d evs).
Proof.
  revert d. induction evs as [|ev evs IH]; intros d Hi Hc; cbn; [done|].
  apply IH; [by apply event_flows | by apply event_caps].
Qed.

(** ** What publishing writes *)

Lemma seal_manifest_ok p wid sid d u d' :
  seal_manifest p wid sid d = Ok (u, d') ->
  exists s, wd_manifests d !! sid = Some s /\ sm_State s = "building" /\ sm_WorkflowID s = wid
    /\ exists s', d' = put_manifests (<[sid := s']> (wd_manifests d)) d
      /\ sm_State s' = "immutable" /\ sm_ManifestSHA256 s' = cp_ManifestSHA256 p
      /\ sm_ArchiveSHA256 s' = Some (cp_ArchiveSHA256 p) /\ sm_WorkflowID s' = wid.
Proof.
  unfold seal_manifest. intros E. destruct (wd_manifests d !! sid) as [s|] eqn:Hl; [|done].
  destruct (_ && _) eqn:Ec; [|done]. injection E as _ <-. b2p. exists s. repeat split; try done.
  eexists. split; [done|]. by repeat split.
Qed.

Lemma cancel_cleanups_ok u n now d a d' :
  cancel_cleanups u n now d = Ok (a, d') -> exists m, d' = put_cleanups m d.
Proof. unfold cancel_cleanups. cbv zeta. destruct (Nat.eqb _ 0); [|done]. intros [= _ <-]. by eexists. Qed.

Lemma schedule_cleanups_ok newid now rows d :
  exists m, foldl (schedule_cleanup newid now) d rows = put_cleanups m d.
Proof.
  revert d. induction rows as [|[[u n] c] rows IH]; intros d; cbn [foldl].
  - exists (wd_cleanups d). by destruct d.
  - assert (exists m, schedule_cleanup newid now d ((u, n), c) = put_cleanups m d) as [m ->].
    { cbn. destruct (rc_SnapshotID c), (db_users (wd_core d) !! u ≫= gu_LegacyUserID);
        try by (exists (wd_cleanups d); destruct d).
      destruct (db_legacy (wd_core d) !! _); [|by (exists (wd_cleanups d); destruct d)].
      destruct (negb _); [by (exists (wd_cleanups d); destruct d) | by eexists]. }
    destruct (IH (put_cleanups m d)) as [m' ->]. by exists m'.
Qed.

Definition stale_replica (legacy node : Z) (k : Z * Z) (r : UserReplica) : bool :=
  (k.1 =? legacy) && negb (k.2 =? node) && String.eqb (ur_Kind r) "archive" && String.eqb (ur_State r) "ready".

Lemma supersede_archives_ok newid u l n now d a d' :
  supersede_archives newid u l n now d = Ok (a, d') ->
  exists m, d' = put_replicas (update_where (stale_replica l n) (replica_set_state "stale") (wd_replicas d))
    (put_cleanups m (put_copies (update_where (other_archive u n) (copy_stale now) (wd_copies d)) d)).
Proof.
  unfold supersede_archives. cbv zeta. destruct (fresh_ids _ _ _); [|done]. intros [= _ <-].
  destruct (schedule_cleanups_ok newid now (rows_where (other_archive u n) (wd_copies d))
    (put_copies (update_where (other_archive u n) (copy_stale now) (wd_copies d)) d)) as [m ->]. by exists m.
Qed.

Lemma publish_copy_ok cid p u sid now d a d' :
  publish_copy cid p u sid now d = Ok (a, d') ->
  exists c, d' = put_copies (<[(u, cp_TargetNodeID p) := c]> (wd_copies d)) d
    /\ rc_SnapshotID c = Some sid /\ rc_Kind c = cp_ReplicaKind p /\ rc_State c = "ready"
    /\ rc_PublishedAt c = Some (ts now)
    /\ (length (rows_where (ready_archive u) (<[(u, cp_TargetNodeID p) := c]> (wd_copies d))) <= 1)%nat.
Proof.
  unfold publish_copy. cbv zeta. destruct (_ && _) eqn:Ec; [|done]. intros [= _ <-]. b2p. eexists. split; [done|].
  do 4 (split; [done|]). match goal with Hn : Nat.ltb 1 _ = false |- _ => apply Nat.ltb_ge in Hn; exact Hn end.
Qed.

Lemma resolve_alert_ok u n now d a d' : resolve_alert u n now d = Ok (a, d') -> exists m, d' = put_alerts m d.
Proof.
  unfold resolve_alert. intros E. apply tx_write_ok in E as [_ ->].
  destruct (wd_copies d !! (u, n)); [by eexists|]. exists (wd_alerts d). by destruct d.
Qed.

Lemma delete_manifest_ok old sid d a d' :
  delete_manifest old sid d = Ok (a, d') ->
  exists m, d' = put_manifests m d /\ m !! sid = wd_manifests d !! sid.
Proof.
  unfold delete_manifest. intros E. apply tx_write_ok in E as [_ ->].
  destruct old as [o|]; [destruct (String.eqb o sid) eqn:Eo|];
    [exists (wd_manifests d); by destruct d | | exists (wd_manifests d); by destruct d].
  b2p. eexists. split; [done|]. cbn. rewrite update_where_lookup.
  destruct (wd_manifests d !! sid); [|done]. cbn. destruct (String.eqb sid o) eqn:E2; [b2p; congruence | done].
Qed.

Definition done_job (version bytes files : Z) (now : time) (j : BackupJob) : BackupJob :=
  {| bj_UserID := bj_UserID j; bj_SrcNodeID := bj_SrcNodeID j; bj_DstNodeID := bj_DstNodeID j;
     bj_Trigger := bj_Trigger j; bj_Status := "done"; bj_DataVersion := Some version; bj_Bytes := Some bytes;
     bj_FileCount := Some files; bj_Error := None; bj_StartedAt := bj_StartedAt j;
     bj_FinishedAt := Some (ts now); bj_CreatedAt := bj_CreatedAt j; bj_WorkflowID := bj_WorkflowID j;
     bj_SnapshotID := bj_SnapshotID j; bj_ActivityEpoch := bj_ActivityEpoch j |}.

Lemma finish_job_ok wid v b f now d a d' :
  finish_job wid v b f now d = Ok (a, d') ->
  d' = put_jobs (update_where (fun _ => of_workflow wid) (done_job v b f now) (wd_jobs d)) d
  /\ length (rows_where (fun _ => of_workflow wid) (wd_jobs d)) = 1%nat.
Proof.
  unfold finish_job. intros E. tx_split. match goal with Hj : update_jobs _ _ _ = _ |- _ => injection Hj as <- <- end.
  split; [done|]. match goal with Hn : Nat.eqb _ 1 = true |- _ => apply Nat.eqb_eq in Hn; exact Hn end.
Qed.

Lemma finish_replica_ok l n v c b now d a d' :
  finish_replica l n v c b now d = Ok (a, d') ->
  exists r, d' = put_replicas (<[(l, n) := r]> (wd_replicas d)) d
    /\ ur_State r = "ready" /\ ur_DataVersion r = v /\ ur_Checksum r = Some c.
Proof.
  unfold finish_replica. destruct (wd_replicas d !! (l, n)); [|done]. intros [= _ <-]. eexists. by repeat split.
Qed.

(** A new version exceeds every version of the user's replicas. *)
Lemma foldl_max_le v vs : v <= foldl Z.max v vs /\ forall x, x ∈ vs -> x <= foldl Z.max v vs.
Proof.
  revert v. induction vs as [|y vs IH]; intros v; cbn; [split; [lia|by intros x []%not_elem_of_nil]|].
  destruct (IH (Z.max v y)) as [H1 H2]. split; [lia|]. intros x [-> | Hx]%elem_of_cons; [lia | by apply H2].
Qed.

Lemma next_version_new d l n r : wd_replicas d !! (l, n) = Some r -> ur_DataVersion r < next_version d l.
Proof.
  intros Hl. unfold next_version, max_version.
  assert (ur_DataVersion r ∈ map (fun kr => ur_DataVersion kr.2) (rows_where (fun k _ => k.1 =? l) (wd_replicas d))) as Hin.
  { apply list_elem_of_fmap. exists ((l, n), r). split; [done|]. apply rows_where_elem. split; [done|].
    cbn. apply Z.eqb_refl. }
  destruct (map _ _) as [|v vs]; [by apply elem_of_nil in Hin|].
  destruct (foldl_max_le v vs) as [H1 H2]. apply elem_of_cons in Hin as [-> | Hin]; [lia|]. specialize (H2 _ Hin). lia.
Qed.

(** What a publication leaves behind. *)
Record published (d : WDB) (p : CompleteSnapshotWorkflowParams) (now : time) (wid : string) (w : Workflow)
  (user legacy version : Z) (d' : WDB) : Prop := {
  pb_workflow : wd_workflows d' !! wid = Some (published_row now w);
  pb_manifest : exists sid s, uuid_in (cp_SnapshotID p) = Some sid /\ wd_manifests d' !! sid = Some s
    /\ sm_WorkflowID s = wid /\ sm_State s = "immutable" /\ sm_ManifestSHA256 s = cp_ManifestSHA256 p
    /\ exists c, wd_copies d' !! (user, cp_TargetNodeID p) = Some c /\ rc_SnapshotID c = Some sid
      /\ rc_Kind c = cp_ReplicaKind p /\ rc_State c = "ready";
  pb_archive : cp_ReplicaKind p = "archive" -> forall n c, wd_copies d' !! (user, n) = Some c ->
    rc_Kind c = "archive" -> rc_State c = "ready" -> n = cp_TargetNodeID p;
  pb_version : forall n r, wd_replicas d !! (legacy, n) = Some r -> ur_DataVersion r < version;
  pb_replica : exists r, wd_replicas d' !! (legacy, cp_TargetNodeID p) = Some r
    /\ ur_State r = "ready" /\ ur_DataVersion r = version;
  pb_caps : forall i c, wd_caps d' !! i = Some c -> tc_WorkflowID c = wid -> tc_State c <> "prepared";
  pb_job : exists jid j, job_of d' wid = Some (jid, j) /\ bj_Status j = "done" /\ bj_DataVersion j = Some version;
  pb_user : db_users (wd_core d') = db_users (wd_core d)
}.

(** At most one row of a table passes a test. *)
Lemma rows_where_one `{Countable K} {V} (q : K -> V -> bool) (m : gmap K V) i j ci cj :
  (length (rows_where q m) <= 1)%nat -> m !! i = Some ci -> m !! j = Some cj -> q i ci = true -> q j cj = true -> i = j.
Proof.
  intros Hn Hi Hj Qi Qj.
  assert ((i, ci) ∈ rows_where q m) as Hini by (by apply rows_where_elem).
  assert ((j, cj) ∈ rows_where q m) as Hinj by (by apply rows_where_elem).
  destruct (rows_where q m) as [|x [|y l]]; [by apply elem_of_nil in Hini | | cbn in Hn; lia].
  apply list_elem_of_singleton in Hini, Hinj. congruence.
Qed.

Lemma job_of_done wid v b f now m d :
  length (rows_where (fun _ => of_workflow wid) m) = 1%nat ->
  wd_jobs d = update_where (fun _ => of_workflow wid) (done_job v b f now) m ->
  exists jid j, job_of d wid = Some (jid, j) /\ bj_Status j = "done" /\ bj_DataVersion j = Some v.
Proof.
  intros Hone Ej. destruct (rows_where (fun _ => of_workflow wid) m) as [|[jid j] l] eqn:Er; [done|].
  assert ((jid, j) ∈ rows_where (fun _ => of_workflow wid) m) as Hin by (rewrite Er; apply list_elem_of_here).
  apply rows_where_elem in Hin as [Hl Hq]. cbn in Hq. exists jid, (done_job v b f now j). split; [|done].
  unfold job_of. apply rows_where_head.
  - rewrite Ej, update_where_lookup, Hl. cbn. by rewrite Hq.
  - exact Hq.
  - intros jid' j' Hl' Hq'. rewrite Ej, update_where_lookup in Hl'.
    destruct (m !! jid') as [j0|] eqn:Hj0; [|done]. cbn in Hl'. injection Hl' as <-.
    assert (of_workflow wid j0 = true) as Hq0.
    { destruct (of_workflow wid j0) eqn:E0; [done|]. cbv beta in Hq'. unfold of_workflow in E0. congruence. }
    eapply (rows_where_one (fun _ => of_workflow wid) m); eauto. rewrite Er. cbn in *. lia.
Qed.

(** The superseded archives: three tables change. *)
Lemma when_supersede_ok b newid u l n now d a d' :
  when b (supersede_archives newid u l n now) tt d = Ok (a, d') ->
  exists mr mk mc, d' = put_replicas mr (put_cleanups mk (put_copies mc d)).
Proof.
  unfold when. destruct b; intros E; [apply supersede_archives_ok in E as [m ->]; by eauto|].
  apply tx_ret_ok in E as [_ ->]. exists (wd_replicas d), (wd_cleanups d), (wd_copies d). by destruct d.
Qed.

Lemma publish_tx_published newid cid p wid w user legacy now d v d' :
  caps_wf d -> wd_workflows d !! wid = Some w ->
  publish_tx newid cid p wid user legacy now d = Ok (v, d') -> published d p now wid w user legacy v d'.
Proof.
  intros Hwf Hw E.
  assert (forall i c, wd_caps d' !! i = Some c -> tc_WorkflowID c = wid -> tc_State c <> "prepared") as Hcaps.
  { pose proof (publish_caps _ _ _ _ _ _ _ _ _ _ E Hwf) as Hwf'.
    destruct (publish_tables _ _ _ _ _ _ _ _ _ _ E) as (d1 & d2 & d3 & d4 & u1 & n & [H1 K1] & Hc & [H2 K2] & Hu & [H3 K3]).
    apply consume_cap_ok in Hc as (i0 & c0 & Hi0 & Hwid & Hst & Hh & ->).
    apply update_workflows_ok in Hu as (_ & _ & ->). cbn in *. rewrite K1 in *.
    intros i c Hi Hc0 Hp. rewrite K3 in Hi. cbn in Hi. rewrite K2, update_where_lookup in Hi.
    destruct (wd_caps d !! i) as [ci|] eqn:Ei; [|done]. cbn in Hi. injection Hi as <-.
    destruct (prepared_for wid ci && _) eqn:Ep; [done|].
    assert (i = i0) as -> by (eapply (kw_prepared _ Hwf); eauto; congruence). simplify_eq.
    unfold prepared_for in Ep. rewrite Hst, Hh, !String.eqb_refl in Ep. discriminate Ep. }
  unfold publish_tx in E. tx_split.
  repeat match goal with
  | Hm : seal_manifest _ _ _ _ = _ |- _ =>
      apply seal_manifest_ok in Hm as (s & Hs & _ & _ & s' & -> & Hs1 & Hs2 & _ & Hs3)
  | Hm : cancel_cleanups _ _ _ _ = _ |- _ => apply cancel_cleanups_ok in Hm as [mc ->]
  | Hm : resolve_alert _ _ _ _ = _ |- _ => apply resolve_alert_ok in Hm as [ma ->]
  | Hm : consume_cap _ _ _ _ = _ |- _ => apply consume_cap_ok in Hm as (i0 & c0 & _ & _ & _ & _ & ->)
  | Hm : update_workflows _ _ _ = _ |- _ => apply update_workflows_ok in Hm as (_ & _ & ->)
  | Hm : update_steps _ _ _ = _ |- _ => apply update_steps_ok in Hm as (_ & ->)
  end.
  repeat match goal with
  | Hm : when _ _ _ _ = _ |- _ => apply when_supersede_ok in Hm as (mr & mk & mcop & ->)
  | Hm : publish_copy _ _ _ _ _ _ = _ |- _ => apply publish_copy_ok in Hm as (c & -> & Hc1 & Hc2 & Hc3 & _ & Hc5)
  | Hm : delete_manifest _ _ _ = _ |- _ => apply delete_manifest_ok in Hm as (mm & -> & Hmm)
  | Hm : finish_job _ _ _ _ _ _ = _ |- _ => apply finish_job_ok in Hm as (-> & Hone)
  | Hm : finish_replica _ _ _ _ _ _ _ = _ |- _ => apply finish_replica_ok in Hm as (r & -> & Hr1 & Hr2 & _)
  end.
  split; [.. | exact Hcaps | |]; clear Hcaps.
  - cbn. by rewrite update_where_lookup, Hw, String.eqb_refl.
  - exists x, s'. cbn in *. rewrite Hmm, lookup_insert_eq. do 5 (split; [done|]). exists c. by rewrite lookup_insert_eq.
  - intros Ek n c' Hl Hk Hst. cbn in Hl.
    enough ((user, n) = (user, cp_TargetNodeID p)) by congruence.
    eapply (rows_where_one (ready_archive user)); [exact Hc5 | exact Hl | apply lookup_insert_eq | |];
      unfold ready_archive; cbn; rewrite Z.eqb_refl.
    + by rewrite Hk, Hst.
    + by rewrite Hc2, Hc3, Ek.
  - intros n r0 Hl. apply (next_version_new (put_manifests (<[x:=s']> (wd_manifests d)) d) legacy n r0 Hl).
  - exists r. cbn. by rewrite lookup_insert_eq.
  - eapply job_of_done; [exact Hone | done].
  - done.
Qed.

Lemma complete_published clock newid cid p d v d' wid w :
  caps_wf d -> uuid_in (cp_WorkflowID p) = Some wid -> wd_workflows d !! wid = Some w ->
  wf_State w = "publishing" ->
  CompleteSnapshotWorkflow clock newid cid p d = (Ok v, d') ->
  exists user legacy, wf_UserID w = Some user
    /\ (db_users (wd_core d) !! user ≫= gu_LegacyUserID) = Some legacy
    /\ published d p (now_or clock (cp_Now p)) wid w user legacy v d'.
Proof.
  intros Hwf Hwid Hw Hst E. unfold CompleteSnapshotWorkflow, runTx in E. destruct (complete_valid p); [|done].
  destruct (complete_tx _ _ _ _ d) as [[v' d2]|] eqn:Et; [|done]. injection E as <- <-.
  unfold complete_tx in Et. tx_split. simplify_eq.
  match goal with q : (_ * _ * _)%type |- _ => destruct q as [[w1 u1] l1] end.
  unfold completion_row in *. rewrite Hw in *. destruct (wf_UserID w) as [u|] eqn:Hu; [|done]. cbn in *.
  destruct (db_users (wd_core d) !! u) as [g|] eqn:Hg; [|done]. cbn in *.
  destruct (gu_LegacyUserID g) as [l|] eqn:Hl; [|done]. cbn in *. simplify_eq.
  rewrite Hst in *. cbn in *. tx_split. exists u1, l1. rewrite Hg. cbn. split; [done|]. split; [done|].
  by eapply publish_tx_published.
Qed.

(** C22: a successful publication is complete.  When CompleteSnapshotWorkflow
    returns a data version for a workflow that was publishing, the same commit has
    marked the workflow and its backup job done, sealed the manifest with the
    reported digest, made the target's copy the ready copy of that snapshot (the only
    ready archive of the user if it is an archive), left no prepared transfer
    capability, and recorded a data version above every earlier one of the user. *)
Theorem publication_complete clock newid cid p d v d' wid w :
  caps_wf d -> uuid_in (cp_WorkflowID p) = Some wid -> wd_workflows d !! wid = Some w ->
  wf_State w = "publishing" ->
  CompleteSnapshotWorkflow clock newid cid p d = (Ok v, d') ->
  exists user legacy, wf_UserID w = Some user
    /\ (db_users (wd_core d) !! user ≫= gu_LegacyUserID) = Some legacy
    /\ published d p (now_or clock (cp_Now p)) wid w user legacy v d'.
Proof. apply complete_published. Qed.

(** Publishing again changes nothing: once a workflow is published, every
    later valid CompleteSnapshotWorkflow for it, whatever its other arguments,
    returns the version of the first and leaves the database as it is. *)
Theorem publication_idempotent clock newid cid p d v d' wid w clock2 newid2 cid2 p2 :
  caps_wf d -> uuid_in (cp_WorkflowID p) = Some wid -> wd_workflows d !! wid = Some w ->
  wf_State w = "publishing" ->
  CompleteSnapshotWorkflow clock newid cid p d = (Ok v, d') ->
  cp_WorkflowID p2 = cp_WorkflowID p -> complete_valid p2 = true ->
  CompleteSnapshotWorkflow clock2 newid2 cid2 p2 d' = (Ok v, d').
Proof.
  intros Hwf Hwid Hw Hst E E2 Hok.
  destruct (complete_published _ _ _ _ _ _ _ _ _ Hwf Hwid Hw Hst E) as (u & l & Hu & Hl & [Pw _ _ _ _ _ (jid & j & Hj & _ & Hv) Hus]).
  unfold CompleteSnapshotWorkflow, runTx, complete_tx, tx_bind, uuid_param, select1. rewrite Hok, E2, Hwid. cbn.
  unfold completion_row. rewrite Pw. cbn. rewrite Hu. cbn. rewrite Hus.
  destruct (db_users (wd_core d) !! u) as [g|]; [|done]. cbn in *. rewrite Hl. cbn. rewrite Hj. cbn. by rewrite Hv.
Qed.

(** ** Retrying *)

(** A workflow without a prepared capability. *)
Definition no_capability (d : WDB) (wid : string) : Prop :=
  forall i c, wd_caps d !! i = Some c -> prepared_for wid c = false.

Lemma retry_refused d wid id code s now delay :
  uuid_in wid = Some id -> no_capability d id ->
  (forall w, wd_workflows d !! id = Some w -> wf_Type w ∈ ["snapshot"; "restore"]) ->
  exists e, ScheduleSnapshotRetry wid code s now delay d = (Fail e, d).
Proof.
  intros Hid Hno Hty. unfold ScheduleSnapshotRetry. destruct (_ || _); [by eexists|]. unfold runTx.
  match goal with |- context [tx_bind ?m ?k d] => destruct (tx_bind m k d) as [[a d']|e] eqn:E end; [|by eexists].
  exfalso. tx_split. simplify_eq. destruct (wd_workflows d !! id) as [w|] eqn:Hl; [|done].
  match goal with Hw : (if ?b then _ else _) = Some _ |- _ => destruct b eqn:Eb; [|done]; injection Hw as <- end.
  destruct (retry_plan (wf_Type w)) as [[resume steps]|] eqn:Hplan; [|done]. tx_split.
  match goal with Hu : update_workflows _ _ _ = _ |- _ => apply update_workflows_ok in Hu as (_ & _ & ->) end.
  unfold when in *. rewrite bool_decide_true in * by (by apply Hty). tx_split.
  match goal with Hr : revoke_caps _ _ = _ |- _ => injection Hr as <- <- end. cbn in *.
  match goal with Hn : Nat.eqb (length ?l) 1 = true |- _ => assert (l = []) as Hnil end; [|by rewrite Hnil in *].
  apply rows_where_empty. intros i c Hc. by apply Hno with i.
Qed.

(** Revoking every prepared capability of a workflow. *)
Lemma revoke_caps_none wid d n d' : revoke_caps wid d = Ok (n, d') -> no_capability d' wid.
Proof.
  intros [= <- <-] i c Hc. cbn in Hc. rewrite update_where_lookup in Hc.
  destruct (wd_caps d !! i) as [c0|]; [|done]. cbn in Hc. injection Hc as <-.
  destruct (prepared_for wid c0) eqn:Ep; [|done]. unfold prepared_for. cbn. apply andb_false_r.
Qed.

Lemma same_caps_none wid d d' : wd_caps d' = wd_caps d -> no_capability d wid -> no_capability d' wid.
Proof. intros E Hn i c. rewrite E. apply Hn. Qed.

(** What scheduling a retry of a snapshot leaves behind. *)
Lemma retry_effect wid id code s now delay d n d' w :
  uuid_in wid = Some id -> wd_workflows d !! id = Some w -> is_snapshot w = true ->
  ScheduleSnapshotRetry wid code s now delay d = (Ok n, d') ->
  n = wf_Attempt w + 1 /\ no_capability d' id
  /\ exists w', wd_workflows d' !! id = Some w' /\ is_snapshot w' = true /\ wf_State w' = "retry_wait"
    /\ wf_Attempt w' = n /\ wf_GenerationRecoveryCount w' = wf_GenerationRecoveryCount w
    /\ wf_LeaseOwner w' = None /\ wf_NextAttemptAt w' = Some (ts (now + delay)).
Proof.
  intros Hid Hl Hs E. unfold ScheduleSnapshotRetry, runTx in E. destruct (_ || _); [done|].
  match type of E with context [tx_bind ?m ?k d] => destruct (tx_bind m k d) as [[a d2]|e] eqn:Et; [|done] end.
  injection E as <- <-. tx_split. simplify_eq. rewrite Hl in *.
  match goal with Hw : (if ?b then _ else _) = Some _ |- _ => destruct b eqn:Eb; [|done]; injection Hw as <- end.
  destruct (retry_plan (wf_Type w)) as [[resume steps]|] eqn:Hplan; [|done]. tx_split.
  match goal with Hu : update_workflows _ _ _ = _ |- _ => apply update_workflows_ok in Hu as (_ & _ & ->) end.
  assert (wf_Type w = "snapshot"%string) as Hty by (unfold is_snapshot in Hs; by b2p).
  unfold when in *. rewrite bool_decide_true in * by (rewrite Hty; set_solver). tx_split.
  match goal with Hr : revoke_caps _ _ = Ok (_, ?e) |- _ =>
    assert (no_capability e id) as Hno by (by eapply revoke_caps_none); injection Hr as <- <- end.
  match goal with Hf : fence_relays _ _ _ = _ |- _ => apply fence_relays_flow in Hf as [Hfw Hfc] end.
  match goal with Hu : update_steps _ _ _ = _ |- _ => apply update_steps_ok in Hu as (_ & ->) end.
  split; [done|]. split; [eapply same_caps_none, Hno; exact Hfc|].
  eexists. cbn. rewrite Hfw. cbn. rewrite update_where_lookup, Hl. cbn. rewrite !String.eqb_refl. by repeat split.
Qed.

Lemma resume_effect wid id now d u d' w :
  uuid_in wid = Some id -> wd_workflows d !! id = Some w ->
  ResumeSnapshotRetry wid now d = (Ok u, d') ->
  wd_caps d' = wd_caps d /\ wf_State w = "retry_wait"
  /\ exists w' r, wf_ResumeState w = Some r /\ wd_workflows d' !! id = Some w' /\ wf_Type w' = wf_Type w
    /\ wf_State w' = r /\ wf_Attempt w' = wf_Attempt w /\ wf_NextAttemptAt w' = None.
Proof.
  intros Hid Hl E. unfold ResumeSnapshotRetry, runTx in E. destruct (_ || _); [done|].
  match type of E with context [tx_bind ?m ?k d] => destruct (tx_bind m k d) as [[a d2]|e] eqn:Et; [|done] end.
  injection E as <- <-. tx_split. simplify_eq. rewrite Hl in *.
  match goal with Hw : (if ?b then _ else _) = Some _ |- _ => destruct b eqn:Eb; [|done]; injection Hw as <- end.
  match goal with Hu : update_workflows _ _ _ = _ |- _ => apply update_workflows_ok in Hu as (_ & _ & ->) end.
  destruct (retry_plan (wf_Type w)) as [[resume steps]|] eqn:Hplan; [|done]. tx_split.
  match goal with Hf : fence_relays _ _ _ = _ |- _ => apply fence_relays_flow in Hf as [Hfw Hfc] end.
  match goal with Hu : update_steps _ _ _ = _ |- _ => apply update_steps_ok in Hu as (_ & ->) end.
  assert (wf_State w = "retry_wait"%string /\ is_Some (wf_ResumeState w)) as [Hst [r Hr]] by (clear -Eb; by b2p).
  split; [exact Hfc|]. split; [done|]. exists (wf_set_State (default (wf_State w) (wf_ResumeState w)) (wf_set_ResumeState None
    (wf_set_NextAttemptAt None (wf_set_ErrorCode None (wf_set_ErrorSummary None (wf_set_UpdatedAt (ts now) w)))))), r.
  split; [done|]. cbn. rewrite Hfw. cbn. rewrite update_where_lookup, Hl. cbn. rewrite String.eqb_refl, Eb. cbn.
  rewrite Hr. by repeat split.
Qed.

(** A retried snapshot cannot be retried again until its capability is
    rotated: ScheduleSnapshotRetry revokes the prepared capability and requires that
    there was one, so after a retry was scheduled and resumed every further
    ScheduleSnapshotRetry is refused and changes nothing.  A failure before the
    rotation is therefore never counted against the retry budget. *)
Theorem second_retry_refused wid id w code s now delay d n d1 now2 u d2 code2 s2 now3 delay2 :
  uuid_in wid = Some id -> wd_workflows d !! id = Some w -> is_snapshot w = true ->
  ScheduleSnapshotRetry wid code s now delay d = (Ok n, d1) ->
  ResumeSnapshotRetry wid now2 d1 = (Ok u, d2) ->
  exists e, ScheduleSnapshotRetry wid code2 s2 now3 delay2 d2 = (Fail e, d2).
Proof.
  intros Hid Hl Hs E1 E2.
  destruct (retry_effect _ _ _ _ _ _ _ _ _ _ Hid Hl Hs E1) as (_ & Hno & w1 & Hl1 & Hs1 & _).
  destruct (resume_effect _ _ _ _ _ _ _ Hid Hl1 E2) as (Hc & _ & w2 & r & _ & Hl2 & Ht & _).
  eapply retry_refused; [done | by eapply same_caps_none|]. intros w' Hl'. rewrite Hl2 in Hl'. injection Hl' as <-.
  rewrite Ht. unfold is_snapshot in Hs1. b2p. rewrite Hs1. set_solver.
Qed.

(** ** The life of a workflow *)

(** C21: at every point of every run of the store's operations, each operation leaves
    each snapshot workflow in its phase or makes the one move the operation stands
    for, of a workflow it names.  A creation makes a scheduled one; the Controller
    begins a scheduled one; a report of a phase takes the workflow to that phase only
    from the phase before it; a receipt takes a transfer under way to publishing; a
    retry puts an open workflow that does not wait back to wait and counts, a reset
    after a change of generation does not count and cancels instead if the job was
    aborted; a resumption leads from waiting to the first phase of an attempt; a
    completion finishes only a publishing workflow; failure and cancellation end only
    an open one.  The constraints on the table hold throughout. *)
Theorem snapshot_workflow_refines d evs ev (d' := snapshot_run d evs) :
  flow_inv d ->
  flow_inv d'
  /\ forall id, flow_does (event_label ev d') id (row_flow d' id) (row_flow (snapshot_effect ev d') id).
Proof.
  intros Hi. pose proof (run_flow_inv evs d Hi) as Hi'. split; [done|]. by apply event_flows.
Qed.

(** The abstract workflow of a row. *)
Lemma row_flow_of d id w ph :
  wd_workflows d !! id = Some w -> is_snapshot w = true -> in_phase w ph ->
  row_flow d id = Some (Flow ph (wf_Attempt w - wf_GenerationRecoveryCount w)).
Proof. intros Hl Hs Hp. unfold row_flow. rewrite Hl. cbn. unfold flow_of. by rewrite Hs, Hp, phase_of_name. Qed.

Lemma row_flow_inv d id a :
  row_flow d id = Some a -> exists w, wd_workflows d !! id = Some w /\ is_snapshot w = true
    /\ phase_of (wf_State w) = Some (fl_phase a) /\ fl_retries a = wf_Attempt w - wf_GenerationRecoveryCount w.
Proof.
  unfold row_flow. destruct (wd_workflows d !! id) as [w|]; [|done]. cbn. unfold flow_of.
  destruct (is_snapshot w) eqn:Es; [|done]. destruct (phase_of (wf_State w)) as [ph|] eqn:Ep; [|done].
  cbn. intros [= <-]. exists w. by rewrite Ep.
Qed.

(** A finished workflow stays finished.  Once a snapshot workflow has succeeded,
    failed or been cancelled, no run of operations changes its state or its count of
    retries, and it never again has a prepared transfer capability. *)
Theorem finished_workflow_final d evs id w :
  flow_inv d -> caps_wf d ->
  wd_workflows d !! id = Some w -> is_snapshot w = true -> is_terminal (wf_State w) = true ->
  exists w', wd_workflows (snapshot_run d evs) !! id = Some w' /\ wf_State w' = wf_State w
    /\ wf_Attempt w' - wf_GenerationRecoveryCount w' = wf_Attempt w - wf_GenerationRecoveryCount w
    /\ forall i c, wd_caps (snapshot_run d evs) !! i = Some c -> tc_WorkflowID c = id -> tc_State c <> "prepared".
Proof.
  intros Hi Hc Hl Hs Ht. destruct (workflow_ok_phase w) as [ph Hph]; [by eapply workflows_ok_row; [apply Hi|]|].
  pose proof (row_flow_of _ _ _ _ Hl Hs Hph) as Hf. destruct (run_flow_inv evs d Hi) as [Hok' Hi'].
  rewrite Hph, terminal_name in Ht. pose proof (run_finished evs id (Flow ph _) Ht d Hi Hf) as Hf'. destruct (row_flow_inv _ _ _ Hf') as (w' & Hl' & Hs' & Hp' & Hn').
  destruct (workflow_ok_phase w') as [ph' Hph']; [by eapply workflows_ok_row|].
  rewrite Hph', phase_of_name in Hp'. cbn in Hp', Hn'. injection Hp' as ->.
  exists w'. split; [done|]. split; [by rewrite Hph, Hph'|]. split; [done|].
  intros i c Hci Hw Hp. destruct (kw_open _ (run_caps evs d Hi Hc) _ _ Hci) as (w2 & Hl2 & Hopen).
  rewrite Hw, Hl' in Hl2. injection Hl2 as <-. specialize (Hopen Hs' Hp). unfold is_open in Hopen.
  by rewrite Hph', terminal_name, Ht in Hopen.
Qed.

End Operations.

(** ** A concrete deployment *)

Definition wid1 : string := "00000000-0000-4000-8000-0000000000f1".
Definition wop1 : string := "00000000-0000-4000-8000-0000000000f2".
Definition sid1 : string := "00000000-0000-4000-8000-0000000000f3".
Definition cid1 : string := "00000000-0000-4000-8000-0000000000f4".
Definition cid2 : string := "00000000-0000-4000-8000-0000000000f5".

Definition storage_node : Node :=
  {| nd_Role := "storage"; nd_BaseURL := "https://s.example"; nd_Status := "online";
     nd_ConnectivityState := "online"; nd_OperationalState := "active";
     nd_CompatibilityState := "compatible"; nd_ControllerGeneration := 4;
     nd_AgentVersion := None; nd_TavernVersion := None; nd_LastSeenAt := None; nd_Control := demo_control;
     nd_Capacity := nd_Capacity demo_node |}.

(** Alice's data on node 1, a storage node 9, and a pending backup job. *)
Definition demo_wdb : WDB :=
  Build_WDB (set_nodes (<[9 := storage_node]> (db_nodes demo_db)) demo_db)
    {[ 9 := {| nt_TransferURL := "https://s.example/t"; nt_IsBackupTarget := true |} ]} {[ 3 := 1 ]}
    ∅ ∅ ∅ ∅ ∅
    {[ 5 := {| bj_UserID := 3; bj_SrcNodeID := 1; bj_DstNodeID := 9; bj_Trigger := "offline";
               bj_Status := "pending"; bj_DataVersion := None; bj_Bytes := None; bj_FileCount := None;
               bj_Error := None; bj_StartedAt := None; bj_FinishedAt := None; bj_CreatedAt := store_now;
               bj_WorkflowID := None; bj_SnapshotID := None; bj_ActivityEpoch := None |} ]} 6
    ∅ ∅ ∅ ∅ ∅ ∅ ∅ ∅ [] ∅ ∅.

Definition demo_create : CreateSnapshotWorkflowParams :=
  {| sp_WorkflowID := wid1; sp_OperationID := wop1; sp_SnapshotID := sid1; sp_CapabilityID := cid1;
     sp_CapabilityHash := digest32; sp_LegacyBackupJobID := 5; sp_LegacyUserID := 3; sp_GlobalUserID := 7;
     sp_SourceNodeID := 1; sp_TargetNodeID := 9; sp_DestinationKind := "archive"; sp_TransferMode := "";
     sp_IndependentReconciliationID := ""; sp_IndependentMarker := ""; sp_RetirementItemID := "";
     sp_RetirementTrigger := ""; sp_CapabilityExpires := store_now + 8 * Hour; sp_Now := store_now |}.

Definition demo_complete : CompleteSnapshotWorkflowParams :=
  {| cp_WorkflowID := wid1; cp_SnapshotID := sid1; cp_CapabilityHash := digest32; cp_TargetNodeID := 9;
     cp_ReplicaKind := "archive"; cp_ReplicaOrigin := "configured"; cp_ManifestSHA256 := digest32;
     cp_ArchiveSHA256 := digest32; cp_FileCount := 4; cp_TotalBytes := 2048; cp_Now := store_now |}.

(** The workflow is created, drained, transferred and verified. *)
Definition to_publishing : list snapshot_event :=
  [SCreate 0 demo_create; SBegin 0 wid1 store_now; SProgress 0 wid1 sid1 1 "drained" store_now;
   SProgress 0 wid1 sid1 1 "snapshotting" store_now; SProgress 0 wid1 sid1 1 "transferring" store_now;
   SProgress 0 wid1 sid1 9 "verifying" store_now; SProgress 0 wid1 sid1 9 "publishing" store_now].

#[local] Existing Instance demo_postgres.

Lemma demo_flow_inv : flow_inv demo_wdb.
Proof. split; [done|]. intros id w Hl. cbn in Hl. by rewrite lookup_empty in Hl. Qed.

Lemma demo_caps_wf : caps_wf demo_wdb.
Proof.
  split; cbn; [intros i j ci cj Hi | intros i j ci cj Hi | intros i c Hi]; by rewrite lookup_empty in Hi.
Qed.

#[local] Notation demo_publishing := (snapshot_run demo_wdb to_publishing).
#[local] Notation demo_publish := (CompleteSnapshotWorkflow 0 (fun _ => cid2) cid2 demo_complete demo_publishing).

Definition demo_row : Workflow :=
  Eval vm_compute in default
    {| wf_OperationID := ""; wf_Type := ""; wf_State := ""; wf_UserID := None; wf_SourceNodeID := None;
       wf_TargetNodeID := None; wf_ActivityEpoch := None; wf_ControllerGeneration := 0; wf_Attempt := 0;
       wf_NextAttemptAt := None; wf_ErrorCode := None; wf_ErrorSummary := None; wf_CleanupState := "";
       wf_LeaseOwner := None; wf_LeaseUntil := None; wf_ResumeState := None; wf_TransferMode := "";
       wf_GenerationRecoveryCount := 0; wf_CreatedAt := 0; wf_UpdatedAt := 0; wf_FinishedAt := None |}
    (wd_workflows demo_publishing !! wid1).

Lemma demo_publishing_row : wd_workflows demo_publishing !! wid1 = Some demo_row.
Proof. vm_compute. reflexivity. Qed.

(** A result whose first part is known. *)
Lemma pair_fst {A B} (x : A * B) (a : A) : x.1 = a -> x = (a, x.2).
Proof. by destruct x; cbn; intros ->. Qed.

Lemma demo_published : demo_publish = (Ok 1, demo_publish.2).
Proof. refine (pair_fst _ _ _). vm_compute. reflexivity. Qed.

Lemma publication_complete_witness :
  exists user legacy, wf_UserID demo_row = Some user
    /\ (db_users (wd_core demo_publishing) !! user ≫= gu_LegacyUserID) = Some legacy
    /\ published demo_publishing demo_complete store_now wid1 demo_row user legacy 1 demo_publish.2.
Proof.
  apply (publication_complete 0 (fun _ => cid2) cid2 demo_complete demo_publishing 1 demo_publish.2 wid1 demo_row).
  - exact (run_caps to_publishing demo_wdb demo_flow_inv demo_caps_wf).
  - vm_compute. reflexivity.
  - exact demo_publishing_row.
  - reflexivity.
  - exact demo_published.
Defined.

Lemma publication_idempotent_witness :
  CompleteSnapshotWorkflow 5 (fun _ => cid1) cid1 demo_complete demo_publish.2 = (Ok 1, demo_publish.2).
Proof.
  apply (publication_idempotent 0 (fun _ => cid2) cid2 demo_complete demo_publishing 1 demo_publish.2 wid1 demo_row).
  - exact (run_caps to_publishing demo_wdb demo_flow_inv demo_caps_wf).
  - vm_compute. reflexivity.
  - exact demo_publishing_row.
  - reflexivity.
  - exact demo_published.
  - reflexivity.
  - reflexivity.
Defined.

#[local] Notation demo_retry := (ScheduleSnapshotRetry wid1 "snapshot_failed" "" store_now (5 * Second) demo_publishing).
#[local] Notation demo_resumed := (ResumeSnapshotRetry wid1 (store_now + 5 * Second) demo_retry.2).

Lemma second_retry_refused_witness :
  exists e, ScheduleSnapshotRetry wid1 "target_account_provision_failed" "" store_now (10 * Second) demo_resumed.2
            = (Fail e, demo_resumed.2).
Proof.
  apply (second_retry_refused wid1 wid1 demo_row "snapshot_failed" "" store_now (5 * Second) demo_publishing 1
    demo_retry.2 (store_now + 5 * Second) tt demo_resumed.2).
  - vm_compute. reflexivity.
  - exact demo_publishing_row.
  - reflexivity.
  - refine (pair_fst _ _ _). vm_compute. reflexivity.
  - refine (pair_fst _ _ _). vm_compute. reflexivity.
Defined.

Definition demo_completion : snapshot_event := SComplete 0 (fun _ => cid2) cid2 demo_complete.

Lemma snapshot_workflow_refines_witness :
  row_flow demo_publishing wid1 = Some (Flow Publishing 0)
  /\ row_flow (snapshot_effect demo_completion demo_publishing) wid1 = Some (Flow Succeeded 0)
  /\ lb_move (event_label demo_completion demo_publishing) = MPublish
  /\ flow_inv demo_publishing
  /\ forall id, flow_does (event_label demo_completion demo_publishing) id (row_flow demo_publishing id)
       (row_flow (snapshot_effect demo_completion demo_publishing) id).
Proof.
  split; [vm_compute; reflexivity|]. split; [vm_compute; reflexivity|]. split; [reflexivity|].
  exact (snapshot_workflow_refines demo_wdb to_publishing demo_completion demo_flow_inv).
Defined.

(** A workflow that failed, and a later attempt to start it again. *)
#[local] Notation demo_failed := (snapshot_run demo_wdb (to_publishing ++ [SFail 0 wid1 "snapshot_failed" "" store_now])).

Lemma finished_workflow_final_witness :
  exists w w', wd_workflows demo_failed !! wid1 = Some w
    /\ wd_workflows (snapshot_run demo_failed [SBegin 0 wid1 store_now; SResume wid1 (store_now + Hour)]) !! wid1 = Some w'
    /\ wf_State w' = wf_State w.
Proof.
  destruct (wd_workflows demo_failed !! wid1) as [w|] eqn:Hl; [|exfalso; revert Hl; vm_compute; discriminate].
  assert (is_snapshot w = true /\ is_terminal (wf_State w) = true) as [Hs Ht]
    by (revert Hl; vm_compute; intros [= <-]; split; reflexivity).
  destruct (finished_workflow_final demo_failed [SBegin 0 wid1 store_now; SResume wid1 (store_now + Hour)] wid1 w
    (run_flow_inv _ demo_wdb demo_flow_inv) (run_caps _ demo_wdb demo_flow_inv demo_caps_wf) Hl Hs Ht)
    as (w' & Hl' & Hst & _ & _).
  exists w, w'. split; [reflexivity|]. split; [exact Hl' | exact Hst].
Defined.
