(* ===== verification/Procs.v ===== *)
(** * Procedures that interleave

    A handler of the Controller is a sequence of atomic actions - a statement or
    transaction of the store, a file operation, a command of an Agent - between which
    other handlers run.  It is a tree of actions ([proc]); an action reads an input
    of its environment (the clock, random names, what a disk or an Agent answers) and
    the world, and yields a value and a new world.

    [exec] runs one procedure alone.  A [system] is a world with a pool of
    procedures that the scheduler advances in any order.  Two rules reason about all
    schedules: [pool_moves], when every action is a step of one relation, and
    [pool_safe], a rely-guarantee rule with assertions that belong to one
    procedure. *)

From Stdlib Require Import Lia.
From stdpp Require Import base list gmap relations.

Section Procs.
Context {E W : Type}.

Inductive proc (A : Type) : Type :=
| Ret (a : A)
| Act (R : Type) (f : E -> W -> R * W) (k : R -> proc A).

#[global] Arguments Ret {A} a.
#[global] Arguments Act {A R} f k.

Fixpoint pbind {A B} (m : proc A) (k : A -> proc B) : proc B :=
  match m with
  | Ret a => k a
  | Act f k' => Act f (fun r => pbind (k' r) k)
  end.

(** One action. *)
Definition call {R} (f : E -> W -> R * W) : proc R := Act f Ret.

(** A reading of the environment. *)
Definition ask {R} (f : E -> R) : proc R := call (fun e w => (f e, w)).

(** ** One procedure alone *)

(** The [i]-th action reads the [i]-th input. *)
Fixpoint exec {A} (p : proc A) (env : nat -> E) (i : nat) (w : W) : A * W * nat :=
  match p with
  | Ret a => (a, w, i)
  | Act f k => let '(r, w') := f (env i) w in exec (k r) env (S i) w'
  end.

Definition run {A} (p : proc A) (env : nat -> E) (w : W) : A * W := (exec p env 0 w).1.

Lemma exec_bind {A B} (m : proc A) (k : A -> proc B) env i w :
  exec (pbind m k) env i w = let '(a, w', j) := exec m env i w in exec (k a) env j w'.
Proof.
  revert i w. induction m as [a|R f k' IH]; intros i w; cbn; [done|].
  destruct (f (env i) w) as [r w']. apply IH.
Qed.

(** ** Many procedures *)

Record system (A : Type) := { sys_world : W; sys_pool : gmap nat (proc A) }.
#[global] Arguments sys_world {A} s.
#[global] Arguments sys_pool {A} s.
#[global] Arguments Build_system {A} _ _.

(** The next action of one procedure, the start of one, or a change from outside. *)
Inductive turn (A : Type) :=
| Turn (tid : nat) (e : E)
| Spawn (tid : nat) (p : proc A)
| Outside (f : W -> W).
#[global] Arguments Turn {A} tid e.
#[global] Arguments Spawn {A} tid p.
#[global] Arguments Outside {A} f.

Definition sys_step {A} (s : system A) (t : turn A) : system A :=
  match t with
  | Turn tid e =>
      match sys_pool s !! tid with
      | Some (Act f k) =>
          let '(r, w') := f e (sys_world s) in {| sys_world := w'; sys_pool := <[tid := k r]> (sys_pool s) |}
      | _ => s
      end
  | Spawn tid p =>
      match sys_pool s !! tid with
      | Some _ => s
      | None => {| sys_world := sys_world s; sys_pool := <[tid := p]> (sys_pool s) |}
      end
  | Outside f => {| sys_world := f (sys_world s); sys_pool := sys_pool s |}
  end.

Definition sys_run {A} (s : system A) (ts : list (turn A)) : system A := foldl sys_step s ts.

(** ** Every action is a step of a relation *)

Fixpoint moves (G : W -> W -> Prop) {A} (p : proc A) : Prop :=
  match p with
  | Ret _ => True
  | Act f k => (forall e w, G w (f e w).2) /\ forall r, moves G (k r)
  end.

Lemma moves_bind G {A B} (m : proc A) (k : A -> proc B) :
  moves G m -> (forall a, moves G (k a)) -> moves G (pbind m k).
Proof. intros Hm Hk. induction m as [a|R f k' IH]; cbn; [done|]. destruct Hm as [H1 H2]. split; [done|]. auto. Qed.

Lemma moves_call G {R} (f : E -> W -> R * W) : (forall e w, G w (f e w).2) -> moves G (call f).
Proof. by intros Hf. Qed.

Lemma moves_ask G `{!Reflexive G} {R} (f : E -> R) : moves G (ask f).
Proof. split; [done|]. by intros r. Qed.

Lemma moves_run G `{!PreOrder G} {A} (p : proc A) env w : moves G p -> G w (run p env w).2.
Proof.
  unfold run. generalize 0%nat. revert w. induction p as [a|R f k IH]; intros w i; cbn; [done|].
  intros [Hf Hk]. specialize (Hf (env i) w). destruct (f (env i) w) as [r w'] eqn:Ef. cbn in Hf.
  etrans; [exact Hf|]. by apply IH.
Qed.

Definition turn_moves (G : W -> W -> Prop) {A} (t : turn A) : Prop :=
  match t with
  | Turn _ _ => True
  | Spawn _ p => moves G p
  | Outside f => forall w, G w (f w)
  end.

Definition pool_in (G : W -> W -> Prop) {A} (s : system A) : Prop := map_Forall (fun _ p => moves G p) (sys_pool s).

Theorem pool_moves G `{!PreOrder G} {A} (s : system A) ts :
  pool_in G s -> Forall (turn_moves G) ts -> G (sys_world s) (sys_world (sys_run s ts)) /\ pool_in G (sys_run s ts).
Proof.
  intros Hs Hts. revert s Hs. induction Hts as [|t ts Ht Hts IH]; intros s Hs; [done|]. cbn.
  assert (G (sys_world s) (sys_world (sys_step s t)) /\ pool_in G (sys_step s t)) as [Hg Hs'].
  { destruct t as [tid e|tid p|f]; cbn.
    - destruct (sys_pool s !! tid) as [[a|R f k]|] eqn:El; try done. destruct (Hs _ _ El) as [Hf Hk].
      specialize (Hf e (sys_world s)). destruct (f e (sys_world s)) as [r w']. split; [done|].
      apply map_Forall_insert_2; [apply Hk | exact Hs].
    - destruct (sys_pool s !! tid) eqn:El; [done|]. split; [done|]. apply map_Forall_insert_2; [exact Ht | exact Hs].
    - split; [apply Ht | done]. }
  destruct (IH _ Hs') as [Hg2 Hs2]. split; [by etrans | done].
Qed.

(** ** Rely and guarantee *)

Section RelyGuarantee.
Context (Inv : W -> Prop) (G : nat -> W -> W -> Prop) (Out : W -> W -> Prop).

(** The other procedures and the outside keep an assertion. *)
Definition stable (tid : nat) (P : W -> Prop) : Prop :=
  forall w w', Inv w -> P w -> (exists tid', tid' <> tid /\ G tid' w w') \/ Out w w' -> P w'.

(** From [P] every action keeps the invariant and the guarantee, and the result
    satisfies [Q]. *)
Fixpoint safe (tid : nat) {A} (P : W -> Prop) (Q : A -> W -> Prop) (p : proc A) : Prop :=
  match p with
  | Ret a => forall w, Inv w -> P w -> Q a w
  | Act f k => forall e w, Inv w -> P w ->
      Inv (f e w).2 /\ G tid w (f e w).2
      /\ exists P', stable tid P' /\ P' (f e w).2 /\ safe tid P' Q (k (f e w).1)
  end.

(** A procedure with its assertion. *)
Definition safe_at {A} (Q : A -> W -> Prop) (w : W) (tid : nat) (p : proc A) : Prop :=
  exists P, stable tid P /\ P w /\ safe tid P Q p.

Definition turn_safe {A} (Q : A -> W -> Prop) (t : turn A) : Prop :=
  match t with
  | Turn _ _ => True
  | Spawn tid p => safe tid (fun _ => True) Q p
  | Outside f => forall w, Inv w -> Inv (f w) /\ Out w (f w)
  end.

Lemma stable_true tid : stable tid (fun _ => True).
Proof. done. Qed.

Lemma stable_and tid P P' : stable tid P -> stable tid P' -> stable tid (fun w => P w /\ P' w).
Proof. intros H1 H2 w w' Hi [HP HP'] Hr. split; eauto. Qed.

Lemma stable_pure tid (X : Prop) : stable tid (fun _ => X).
Proof. by intros w w' _ HX _. Qed.

Lemma safe_weaken tid {A} (P P0 : W -> Prop) (Q : A -> W -> Prop) (p : proc A) :
  (forall w, Inv w -> P0 w -> P w) -> safe tid P Q p -> safe tid P0 Q p.
Proof. intros Hw. destruct p as [a|R f k]; cbn; auto. Qed.

(** A part of the assertion that does not speak of the world. *)
Lemma safe_pure tid (X : Prop) {A} (P : W -> Prop) (Q : A -> W -> Prop) (p : proc A) :
  (X -> safe tid P Q p) -> safe tid (fun w => X /\ P w) Q p.
Proof.
  intros Hp. destruct p as [a|R f k]; cbn.
  - intros w Hi [HX HP]. by apply (Hp HX).
  - intros e w Hi [HX HP]. by apply (Hp HX).
Qed.

Lemma safe_exists tid {X A} (P : X -> W -> Prop) (Q : A -> W -> Prop) (p : proc A) :
  (forall x, safe tid (P x) Q p) -> safe tid (fun w => exists x, P x w) Q p.
Proof.
  intros Hp. destruct p as [a|R f k]; cbn.
  - intros w Hi [x HP]. by apply (Hp x).
  - intros e w Hi [x HP]. by apply (Hp x).
Qed.

Lemma safe_post tid {A} (P : W -> Prop) (M Q : A -> W -> Prop) (p : proc A) :
  (forall a w, Inv w -> M a w -> Q a w) -> safe tid P M p -> safe tid P Q p.
Proof.
  intros Hq. revert P. induction p as [a|R f k IH]; intros P Hp; cbn; [by auto|]. intros e w Hi HP.
  destruct (Hp e w Hi HP) as (Hi' & Hg & P' & Hs & HP' & Hk). split; [done|]. split; [done|]. exists P'. auto.
Qed.

Lemma safe_bind tid {A B} (P : W -> Prop) (M : A -> W -> Prop) (Q : B -> W -> Prop) (m : proc A) (k : A -> proc B) :
  safe tid P M m -> (forall a, safe tid (M a) Q (k a)) -> safe tid P Q (pbind m k).
Proof.
  intros Hm Hk. revert P Hm. induction m as [a|R f k' IH]; intros P Hm; cbn.
  - eapply safe_weaken; [|apply Hk]. auto.
  - intros e w Hi HP. destruct (Hm e w Hi HP) as (Hi' & Hg & P' & Hs & HP' & Hk'). split; [done|]. split; [done|].
    exists P'. split; [done|]. split; [done|]. by apply IH.
Qed.

Lemma safe_ret tid {A} (P : W -> Prop) (Q : A -> W -> Prop) (a : A) : (forall w, Inv w -> P w -> Q a w) -> safe tid P Q (Ret a).
Proof. done. Qed.

(** One action with a stable postcondition. *)
Lemma safe_call tid {R} (P : W -> Prop) (Q : R -> W -> Prop) (f : E -> W -> R * W) :
  (forall r, stable tid (Q r)) ->
  (forall e w, Inv w -> P w -> Inv (f e w).2 /\ G tid w (f e w).2 /\ Q (f e w).1 (f e w).2) -> safe tid P Q (call f).
Proof.
  intros Hs Hf e w Hi HP. destruct (Hf e w Hi HP) as (Hi' & Hg & HQ). split; [done|]. split; [done|].
  exists (Q (f e w).1). split; [done|]. split; [done|]. by intros w' _.
Qed.

Theorem pool_safe {A} (Q : A -> W -> Prop) (s : system A) ts :
  Inv (sys_world s) -> map_Forall (safe_at Q (sys_world s)) (sys_pool s) -> Forall (turn_safe Q) ts ->
  Inv (sys_world (sys_run s ts)) /\ map_Forall (safe_at Q (sys_world (sys_run s ts))) (sys_pool (sys_run s ts)).
Proof.
  intros Hi Hs Hts. revert s Hi Hs. induction Hts as [|t ts Ht Hts IH]; intros s Hi Hs; [done|]. cbn. apply IH; clear IH.
  - destruct t as [tid e|tid p|f]; cbn.
    + destruct (sys_pool s !! tid) as [[a|R f k]|] eqn:El; try done. destruct (Hs _ _ El) as (P & _ & HP & Hsafe).
      destruct (Hsafe e _ Hi HP) as (Hi' & _). by destruct (f e (sys_world s)).
    + by destruct (sys_pool s !! tid).
    + by apply Ht.
  - destruct t as [tid e|tid p|f]; cbn.
    + destruct (sys_pool s !! tid) as [[a|R f k]|] eqn:El; try done. destruct (Hs _ _ El) as (P & _ & HP & Hsafe).
      destruct (Hsafe e _ Hi HP) as (Hi' & Hg & P' & Hst & HP' & Hk). destruct (f e (sys_world s)) as [r w'] eqn:Ef. cbn in *.
      intros tid2 p2 [[<- <-]|[Hne Hl2]]%lookup_insert_Some; [by exists P'|].
      destruct (Hs _ _ Hl2) as (P2 & Hq & HQ & Hk2). exists P2. split; [done|]. split; [|done].
      eapply Hq; [exact Hi | exact HQ|]. left. by exists tid.
    + destruct (sys_pool s !! tid) eqn:El; [done|]. apply map_Forall_insert_2; [|done].
      exists (fun _ => True). split; [apply stable_true | done].
    + intros tid p Hl. destruct (Hs _ _ Hl) as (P2 & Hq & HQ & Hk). exists P2. split; [done|]. split; [|done].
      eapply Hq; [exact Hi | exact HQ|]. right. by apply Ht.
Qed.

End RelyGuarantee.
End Procs.

Declare Scope proc_scope.
Notation "'let*' x ':=' m 'in' k" := (pbind m (fun x => k))
  (at level 10, x pattern, m at level 100, k at level 200,
   format "'[v' 'let*'  x  ':='  m  'in' '/' k ']'") : proc_scope.
#[global] Open Scope proc_scope.
