(* ===== verification/RelayTransfers.v ===== *)
(** * Relay transfers in the store

    src/internal/store/relay.go: the encrypted archive of a snapshot, or of the
    evidence of a conflict, that cannot travel directly is uploaded to the Controller
    under one bearer token and downloaded under another.  The row of the transfer
    is its state machine: prepared, uploading, stored, downloading, consumed or
    expired, with leases on the two active states.

    Every function is one statement or two; between the two of one call other
    transactions run, which the argument [later] stands for.  [clock] is Go's
    [time.Now]. *)

From Stdlib Require Import ZArith Lia Ascii String.
From stdpp Require Import base list gmap strings relations.
From S2P Require Import Prelude GoStrings AgentState Schema Leases Handoffs WorkflowSchema SnapshotStore SnapshotLife.
#[local] Open Scope Z_scope.

Definition ErrInvalidRelayTransfer : string := "invalid relay transfer input".
Definition ErrRelayTransferState : string := "relay transfer state conflict".
Definition ErrRelayTransferTerminal : string := "relay transfer is terminal".

(** What a statement returns of a transfer: the Go type RelayTransfer. *)
Record RelayFact := {
  rf_ID : string;
  rf_WorkflowID : string;
  rf_TransportScopeID : string;
  rf_SnapshotID : string;
  rf_SourceNodeID : Z;
  rf_TargetNodeID : Z;
  rf_Attempt : Z;
  rf_State : string;
  rf_ControllerGeneration : Z;
  rf_MaxCiphertextBytes : Z;
  rf_PlaintextBytes : option Z;
  rf_CiphertextBytes : option Z;
  rf_ArchiveSHA256 : option string;
  rf_CiphertextSHA256 : option string;
  rf_StoragePath : option string;
  rf_ExpiresAt : time
}.

Definition scanRelayTransfer (id : string) (t : RelayTransfer) : RelayFact :=
  {| rf_ID := id; rf_WorkflowID := rt_WorkflowID t; rf_TransportScopeID := rt_TransportScopeID t;
     rf_SnapshotID := rt_SnapshotID t; rf_SourceNodeID := rt_SourceNodeID t; rf_TargetNodeID := rt_TargetNodeID t;
     rf_Attempt := rt_Attempt t; rf_State := rt_State t; rf_ControllerGeneration := rt_ControllerGeneration t;
     rf_MaxCiphertextBytes := rt_MaxCiphertextBytes t; rf_PlaintextBytes := rt_PlaintextBytes t;
     rf_CiphertextBytes := rt_CiphertextBytes t; rf_ArchiveSHA256 := rt_ArchiveSHA256 t;
     rf_CiphertextSHA256 := rt_CiphertextSHA256 t; rf_StoragePath := rt_StoragePath t;
     rf_ExpiresAt := rt_ExpiresAt t |}.

Record CreateRelayTransferParams := {
  rp_ID : string;
  rp_WorkflowID : string;
  rp_SnapshotID : string;
  rp_SourceNodeID : Z;
  rp_TargetNodeID : Z;
  rp_Attempt : Z;
  rp_UploadTokenHash : string;
  rp_DownloadTokenHash : string;
  rp_MaxCiphertextBytes : Z;
  rp_ExpiresAt : time;
  rp_Now : time
}.

(** ** The table *)

(** The CHECK constraints of relay_transfers an UPDATE could violate. *)
Definition positive_or_null (x : option Z) : bool := match x with Some n => 0 <? n | None => true end.
Definition digest_or_null (x : option string) : bool := match x with Some s => slen s =? 32 | None => true end.

Definition holds_content (state : string) : bool := bool_decide (state ∈ ["stored"; "downloading"; "consumed"]).

Definition relay_states : list string :=
  ["prepared"; "uploading"; "stored"; "downloading"; "consumed"; "expired"; "failed"].

Definition relay_ok (t : RelayTransfer) : bool :=
  bool_decide (rt_State t ∈ relay_states) && positive_or_null (rt_PlaintextBytes t) && positive_or_null (rt_CiphertextBytes t)
  && digest_or_null (rt_ArchiveSHA256 t) && digest_or_null (rt_CiphertextSHA256 t)
  && (negb (holds_content (rt_State t))
      || (bool_decide (is_Some (rt_StoragePath t)) && bool_decide (is_Some (rt_CiphertextSHA256 t))
          && bool_decide (is_Some (rt_CiphertextBytes t)))).

Section Operations.
Context `{Postgres}.

(** [UPDATE relay_transfers SET f WHERE id=$1::uuid AND p RETURNING ...]. *)
Definition update_relay (id : string) (p : WDB -> RelayTransfer -> bool) (f : RelayTransfer -> RelayTransfer)
  : WTx (option RelayFact) :=
  let! rid := uuid_param id in
  fun d => match wd_relays d !! rid with
  | Some t =>
      if p d t then
        if relay_ok (f t) then Ok (Some (scanRelayTransfer rid (f t)), put_relays (<[rid := f t]> (wd_relays d)) d)
        else Fail sql_error
      else Ok (None, d)
  | None => Ok (None, d)
  end.

(** [SELECT ... FROM relay_transfers WHERE id=$1::uuid AND p]. *)
Definition select_relay (id : string) (p : WDB -> RelayTransfer -> bool) (d : WDB) : result (option RelayFact) :=
  match uuid_in id with
  | None => Fail sql_error
  | Some rid => Ok (wd_relays d !! rid ≫= fun t => if p d t then Some (scanRelayTransfer rid t) else None)
  end.

(** The join with the active epoch. *)
Definition relay_active (d : WDB) (t : RelayTransfer) : bool := generation_active (rt_ControllerGeneration t) d.

Definition upload_bearer (hash : string) (t : RelayTransfer) : bool := String.eqb (rt_UploadTokenHash t) hash.
Definition download_bearer (hash : string) (t : RelayTransfer) : bool := String.eqb (rt_DownloadTokenHash t) hash.

(** A comparison with a column that may be null. *)
Definition ended (lease : option time) (now : time) : bool := match lease with Some u => u <=? ts now | None => false end.
Definition running (lease : option time) (now : time) : bool := match lease with Some u => u >? ts now | None => false end.
Definition unset_or {A} `{EqDecision A} (column : option A) (x : A) : bool :=
  match column with None => true | Some y => bool_decide (y = x) end.

(** ** Creation *)

Definition create_relay_valid (p : CreateRelayTransferParams) : bool :=
  negb (String.eqb (rp_ID p) "" || String.eqb (rp_WorkflowID p) "" || String.eqb (rp_SnapshotID p) ""
        || (rp_SourceNodeID p <=? 0) || (rp_TargetNodeID p <=? 0) || (rp_SourceNodeID p =? rp_TargetNodeID p)
        || (rp_Attempt p <? 0) || negb (slen (rp_UploadTokenHash p) =? 32) || negb (slen (rp_DownloadTokenHash p) =? 32)
        || (rp_MaxCiphertextBytes p <=? 0)).

Definition new_relay (p : CreateRelayTransferParams) (wid scope sid : string) (generation : Z) (now : time) : RelayTransfer :=
  {| rt_WorkflowID := wid; rt_TransportScopeID := scope; rt_SnapshotID := sid;
     rt_SourceNodeID := rp_SourceNodeID p; rt_TargetNodeID := rp_TargetNodeID p; rt_Attempt := rp_Attempt p;
     rt_State := "prepared"; rt_UploadTokenHash := rp_UploadTokenHash p;
     rt_DownloadTokenHash := rp_DownloadTokenHash p; rt_ControllerGeneration := generation;
     rt_MaxCiphertextBytes := rp_MaxCiphertextBytes p; rt_PlaintextBytes := None; rt_CiphertextBytes := None;
     rt_ArchiveSHA256 := None; rt_CiphertextSHA256 := None; rt_StoragePath := None;
     rt_UploadLeaseUntil := None; rt_DownloadLeaseUntil := None; rt_ExpiresAt := ts (rp_ExpiresAt p);
     rt_CreatedAt := ts now; rt_UpdatedAt := ts now; rt_ConsumedAt := None |}.

(** The unique key (workflow_id, attempt, snapshot_id). *)
Definition same_task (wid sid : string) (attempt : Z) (t : RelayTransfer) : bool :=
  String.eqb (rt_WorkflowID t) wid && (rt_Attempt t =? attempt) && String.eqb (rt_SnapshotID t) sid.

Definition task_of (wid sid : string) (attempt : Z) (d : WDB) : option (string * RelayTransfer) :=
  head (rows_where (fun _ => same_task wid sid attempt) (wd_relays d)).

(** [INSERT ... SELECT ... ON CONFLICT (workflow_id,attempt,snapshot_id) DO NOTHING RETURNING];
    [source] is the SELECT: the transport scope and the generation of the row. *)
Definition insert_relay (p : CreateRelayTransferParams) (source : string -> string -> WDB -> option (string * Z)) (now : time)
  : WTx (option RelayFact) :=
  let! rid := uuid_param (rp_ID p) in
  let! wid := uuid_param (rp_WorkflowID p) in
  let! sid := uuid_param (rp_SnapshotID p) in
  let! _ := require (rp_Attempt p <=? MaxInt32) sql_error in
  fun d => match source wid sid d with
  | None => Ok (None, d)
  | Some (scope, generation) =>
      match task_of wid sid (rp_Attempt p) d, wd_relays d !! rid with
      | Some _, _ => Ok (None, d)
      | None, Some _ => Fail sql_error
      | None, None =>
          let t := new_relay p wid scope sid generation now in
          Ok (Some (scanRelayTransfer rid t), put_relays (<[rid := t]> (wd_relays d)) d)
      end
  end.

(** The reading of an existing task and the comparison with the request; [exact] is
    what the two kinds of transfer compare. *)
Definition existing_relay (p : CreateRelayTransferParams) (exact : RelayFact -> bool) (d : WDB) : result RelayFact :=
  match uuid_in (rp_WorkflowID p), uuid_in (rp_SnapshotID p) with
  | Some wid, Some sid =>
      match task_of wid sid (rp_Attempt p) d with
      | None => Fail ErrRelayTransferState
      | Some (id, t) =>
          let out := scanRelayTransfer id t in
          if negb (String.eqb (rf_ID out) (rp_ID p)) || negb (exact out)
             || negb (rf_SourceNodeID out =? rp_SourceNodeID p) || negb (rf_TargetNodeID out =? rp_TargetNodeID p)
             || negb (rf_MaxCiphertextBytes out =? rp_MaxCiphertextBytes p)
             || negb (upload_bearer (rp_UploadTokenHash p) t) || negb (download_bearer (rp_DownloadTokenHash p) t)
          then Fail ErrRelayTransferState else Ok out
      end
  | _, _ => Fail sql_error
  end.

Definition create_relay (clock : time) (p : CreateRelayTransferParams) (source : string -> string -> WDB -> option (string * Z))
  (exact : RelayFact -> bool) (later : WDB -> WDB) (d : WDB) : result RelayFact * WDB :=
  let now := now_or clock (rp_Now p) in
  if rp_ExpiresAt p <=? now then (Fail ErrInvalidRelayTransfer, d)
  else match runTx (insert_relay p source now) d with
  | (Ok (Some out), d) => (Ok out, d)
  | (Fail e, d) => (Fail e, d)
  | (Ok None, d) => (existing_relay p exact (later d), d)
  end.

(** The SELECT of a snapshot's transfer. *)
Definition snapshot_relay_source (p : CreateRelayTransferParams) (wid sid : string) (d : WDB) : option (string * Z) :=
  match wd_workflows d !! wid, wd_manifests d !! sid with
  | Some w, Some m =>
      if String.eqb (sm_WorkflowID m) wid && generation_active (wf_ControllerGeneration w) d
         && bool_decide (wf_SourceNodeID w = Some (rp_SourceNodeID p))
         && bool_decide (wf_TargetNodeID w = Some (rp_TargetNodeID p))
         && (wf_Attempt w =? rp_Attempt p) && String.eqb (wf_TransferMode w) "relay" && is_open w
      then Some (wid, wf_ControllerGeneration w) else None
  | _, _ => None
  end.

Definition CreateRelayTransfer (clock : time) (p : CreateRelayTransferParams) (later : WDB -> WDB) (d : WDB)
  : result RelayFact * WDB :=
  if negb (create_relay_valid p) then (Fail ErrInvalidRelayTransfer, d)
  else create_relay clock p (snapshot_relay_source p) (fun out => String.eqb (rf_SnapshotID out) (rp_SnapshotID p)) later d.

(** The SELECT of a transfer of conflict evidence: the operation belongs to the
    workflow, and a ready source of its conflict has the evidence on the node. *)
Definition conflict_relay_source (p : CreateRelayTransferParams) (oid wid sid : string) (d : WDB) : option (string * Z) :=
  match wd_workflows d !! wid, wd_conflicts d !! oid with
  | Some w, Some o =>
      match wd_evidence d !! (cf_ConflictID o, rp_SourceNodeID p) with
      | Some s =>
          if String.eqb (cf_WorkflowID o) wid && bool_decide (cs_EvidenceID s = Some sid)
             && String.eqb (cs_EvidenceState s) "ready" && generation_active (wf_ControllerGeneration w) d
             && String.eqb (wf_Type w) "conflict_resolution" && (cf_BaseNodeID o =? rp_TargetNodeID p)
             && (wf_Attempt w =? rp_Attempt p) && is_open w
          then Some (cf_ConflictID o, wf_ControllerGeneration w) else None
      | None => None
      end
  | _, _ => None
  end.

Definition CreateConflictRelayTransfer (clock : time) (p : CreateRelayTransferParams) (operationID : string)
  (later : WDB -> WDB) (d : WDB) : result RelayFact * WDB :=
  if negb (create_relay_valid p) || String.eqb operationID "" then (Fail ErrInvalidRelayTransfer, d)
  else match uuid_in operationID with
  | Some oid => create_relay clock p (conflict_relay_source p oid) (fun _ => true) later d
  | None => if rp_ExpiresAt p <=? now_or clock (rp_Now p) then (Fail ErrInvalidRelayTransfer, d) else (Fail sql_error, d)
  end.

(** ** Upload *)

Definition set_uploading (plain : Z) (archive : string) (until now : time) (t : RelayTransfer) : RelayTransfer :=
  rt_set_State "uploading" (rt_set_PlaintextBytes (Some plain) (rt_set_ArchiveSHA256 (Some archive)
    (rt_set_UploadLeaseUntil (Some (ts until)) (rt_set_UpdatedAt (ts now) t)))).

(** What both claims of an upload ask; [free] is the condition on the state. *)
Definition uploadable (hash : string) (plain cipher : Z) (archive : string) (now : time)
  (free : RelayTransfer -> bool) (d : WDB) (t : RelayTransfer) : bool :=
  upload_bearer hash t && relay_active d t && (rt_ExpiresAt t >? ts now) && (cipher <=? rt_MaxCiphertextBytes t)
  && free t && unset_or (rt_PlaintextBytes t) plain && unset_or (rt_ArchiveSHA256 t) archive.

(** The exact retry of an upload that is already stored. *)
Definition already_stored (hash : string) (plain cipher : Z) (archive : string) (now : time) (d : WDB) (t : RelayTransfer) : bool :=
  upload_bearer hash t && relay_active d t && holds_content (rt_State t) && (rt_ExpiresAt t >? ts now)
  && bool_decide (rt_PlaintextBytes t = Some plain) && bool_decide (rt_CiphertextBytes t = Some cipher)
  && bool_decide (rt_ArchiveSHA256 t = Some archive).

Definition claim_upload (free : time -> RelayTransfer -> bool) (clock : time) (id uploadTokenHash : string)
  (plaintextBytes ciphertextBytes : Z) (archiveSHA256 : string) (now : time) (leaseTTL : duration)
  (later : WDB -> WDB) (d : WDB) : result RelayFact * WDB :=
  if String.eqb id "" || negb (slen uploadTokenHash =? 32) || (plaintextBytes <=? 0) || (ciphertextBytes <=? 0)
     || negb (slen archiveSHA256 =? 32) || (leaseTTL <=? 0)
  then (Fail ErrInvalidRelayTransfer, d)
  else
    let now := now_or clock now in
    match runTx (update_relay id (uploadable uploadTokenHash plaintextBytes ciphertextBytes archiveSHA256 now (free now))
                   (set_uploading plaintextBytes archiveSHA256 (now + leaseTTL) now)) d with
    | (Ok (Some out), d) => (Ok out, d)
    | (Fail e, d) => (Fail e, d)
    | (Ok None, d) =>
        (match select_relay id (already_stored uploadTokenHash plaintextBytes ciphertextBytes archiveSHA256 now) (later d) with
         | Ok (Some out) => Ok out
         | Ok None => Fail ErrRelayTransferState
         | Fail e => Fail e
         end, d)
    end.

(** A single request owns its upload: only a lease that ended is taken over. *)
Definition upload_free (now : time) (t : RelayTransfer) : bool :=
  String.eqb (rt_State t) "prepared"
  || (String.eqb (rt_State t) "uploading" && ended (rt_UploadLeaseUntil t) now).

Definition ClaimRelayUpload := claim_upload upload_free.

(** The parts of a multipart upload refresh the lease. *)
Definition multipart_free (now : time) (t : RelayTransfer) : bool :=
  bool_decide (rt_State t ∈ ["prepared"; "uploading"]).

Definition ClaimRelayMultipartUpload := claim_upload multipart_free.

Definition set_stored (cipher : Z) (sha path : string) (now : time) (t : RelayTransfer) : RelayTransfer :=
  rt_set_State "stored" (rt_set_CiphertextBytes (Some cipher) (rt_set_CiphertextSHA256 (Some sha)
    (rt_set_StoragePath (Some path) (rt_set_UploadLeaseUntil None (rt_set_UpdatedAt (ts now) t))))).

Definition upload_completable (hash : string) (now : time) (d : WDB) (t : RelayTransfer) : bool :=
  upload_bearer hash t && String.eqb (rt_State t) "uploading" && relay_active d t && (rt_ExpiresAt t >? ts now)
  && running (rt_UploadLeaseUntil t) now && bool_decide (rt_CiphertextBytes t = None).

Definition CompleteRelayUpload (clock : time) (id uploadTokenHash ciphertextSHA256 : string) (ciphertextBytes : Z)
  (storagePath : string) (now : time) (d : WDB) : result unit * WDB :=
  if String.eqb id "" || negb (slen uploadTokenHash =? 32) || negb (slen ciphertextSHA256 =? 32)
     || (ciphertextBytes <=? 0) || String.eqb storagePath ""
  then (Fail ErrInvalidRelayTransfer, d)
  else
    let now := now_or clock now in
    match runTx (update_relay id (upload_completable uploadTokenHash now)
                   (set_stored ciphertextBytes ciphertextSHA256 storagePath now)) d with
    | (Ok (Some _), d) => (Ok tt, d)
    | (Ok None, d) => (Fail ErrRelayTransferState, d)
    | (Fail e, d) => (Fail e, d)
    end.

(** A statement whose row count is not looked at. *)
Definition exec_relay (id : string) (p : WDB -> RelayTransfer -> bool) (f : RelayTransfer -> RelayTransfer) (d : WDB)
  : result unit * WDB := runTx (let! _ := update_relay id p f in tx_ret tt) d.

Definition ReleaseRelayUpload (clock : time) (id uploadTokenHash : string) (now : time) (d : WDB) : result unit * WDB :=
  if String.eqb id "" || negb (slen uploadTokenHash =? 32) then (Fail ErrInvalidRelayTransfer, d)
  else
    let now := now_or clock now in
    exec_relay id (fun d t => upload_bearer uploadTokenHash t && String.eqb (rt_State t) "uploading" && relay_active d t)
      (fun t => rt_set_State "prepared" (rt_set_PlaintextBytes None (rt_set_ArchiveSHA256 None
                  (rt_set_UploadLeaseUntil None (rt_set_UpdatedAt (ts now) t))))) d.

(** ** Download *)

Definition download_invalid (id hash : string) : bool := String.eqb id "" || negb (slen hash =? 32).

Definition downloadable (hash : string) (now : time) (d : WDB) (t : RelayTransfer) : bool :=
  download_bearer hash t && relay_active d t && (rt_ExpiresAt t >? ts now)
  && (String.eqb (rt_State t) "stored"
      || (String.eqb (rt_State t) "downloading" && ended (rt_DownloadLeaseUntil t) now)).

Definition relay_terminal (hash : string) (now : time) (d : WDB) (t : RelayTransfer) : bool :=
  download_bearer hash t
  && (bool_decide (rt_State t ∈ ["failed"; "expired"; "consumed"]) || (rt_ExpiresAt t <=? ts now)).

Definition ClaimRelayDownload (clock : time) (id downloadTokenHash : string) (now : time) (leaseTTL : duration)
  (later : WDB -> WDB) (d : WDB) : result RelayFact * WDB :=
  if download_invalid id downloadTokenHash || (leaseTTL <=? 0) then (Fail ErrInvalidRelayTransfer, d)
  else
    let now := now_or clock now in
    match runTx (update_relay id (downloadable downloadTokenHash now)
                   (fun t => rt_set_State "downloading" (rt_set_DownloadLeaseUntil (Some (ts (now + leaseTTL)))
                               (rt_set_UpdatedAt (ts now) t)))) d with
    | (Ok (Some out), d) => (Ok out, d)
    | (Fail e, d) => (Fail e, d)
    | (Ok None, d) =>
        (match select_relay id (relay_terminal downloadTokenHash now) (later d) with
         | Fail e => Fail e
         | Ok (Some _) => Fail ErrRelayTransferTerminal
         | Ok None => Fail ErrRelayTransferState
         end, d)
    end.

(** An open download whose lease runs. *)
Definition downloading (hash : string) (d : WDB) (t : RelayTransfer) : bool :=
  download_bearer hash t && relay_active d t && String.eqb (rt_State t) "downloading".

Definition download_live (hash : string) (now : time) (d : WDB) (t : RelayTransfer) : bool :=
  downloading hash d t && (rt_ExpiresAt t >? ts now) && running (rt_DownloadLeaseUntil t) now.

Definition lease_download (until now : time) (t : RelayTransfer) : RelayTransfer :=
  rt_set_DownloadLeaseUntil (Some (ts until)) (rt_set_UpdatedAt (ts now) t).

Definition ContinueRelayDownload (clock : time) (id downloadTokenHash : string) (now : time) (leaseTTL : duration) (d : WDB)
  : result RelayFact * WDB :=
  if download_invalid id downloadTokenHash || (leaseTTL <=? 0) then (Fail ErrInvalidRelayTransfer, d)
  else
    let now := now_or clock now in
    match runTx (update_relay id (download_live downloadTokenHash now) (lease_download (now + leaseTTL) now)) d with
    | (Ok (Some out), d) => (Ok out, d)
    | (Ok None, d) => (Fail ErrRelayTransferState, d)
    | (Fail e, d) => (Fail e, d)
    end.

Definition ReleaseRelayDownload (clock : time) (id downloadTokenHash : string) (now : time) (d : WDB) : result unit * WDB :=
  if download_invalid id downloadTokenHash then (Fail ErrInvalidRelayTransfer, d)
  else
    let now := now_or clock now in
    exec_relay id (downloading downloadTokenHash)
      (fun t => rt_set_State "stored" (rt_set_DownloadLeaseUntil None (rt_set_UpdatedAt (ts now) t))) d.

Definition ClampRelayDownloadLease (clock : time) (id downloadTokenHash : string) (now : time) (maxTTL : duration) (d : WDB)
  : result unit * WDB :=
  if download_invalid id downloadTokenHash || (maxTTL <=? 0) then (Fail ErrInvalidRelayTransfer, d)
  else
    let now := now_or clock now in
    exec_relay id (fun d t => downloading downloadTokenHash d t && running (rt_DownloadLeaseUntil t) (now + maxTTL))
      (lease_download (now + maxTTL) now) d.

Definition RenewRelayDownload (clock : time) (id downloadTokenHash : string) (now : time) (leaseTTL : duration) (d : WDB)
  : result bool * WDB :=
  if download_invalid id downloadTokenHash || (leaseTTL <=? 0) then (Fail ErrInvalidRelayTransfer, d)
  else
    let now := now_or clock now in
    runTx (let! out := update_relay id (download_live downloadTokenHash now) (lease_download (now + leaseTTL) now) in
           tx_ret (bool_decide (is_Some out))) d.

(** Consuming returns the path of the ciphertext, also to a repeated request: the
    second SELECT of the statement reads what was there before it.  A null path
    cannot be scanned into a string. *)
Definition CompleteRelayDownload (clock : time) (id downloadTokenHash : string) (now : time) (d : WDB) : result string * WDB :=
  if download_invalid id downloadTokenHash then (Fail ErrInvalidRelayTransfer, d)
  else
    let now := now_or clock now in
    match runTx (update_relay id (downloading downloadTokenHash)
                   (fun t => rt_set_State "consumed" (rt_set_DownloadLeaseUntil None (rt_set_UpdatedAt (ts now)
                               (rt_set_ConsumedAt (coalesce (rt_ConsumedAt t) (ts now)) t))))) d with
    | (Fail e, d') => (Fail e, d')
    | (Ok (Some out), d') => (match rf_StoragePath out with Some path => Ok path | None => Fail sql_error end, d')
    | (Ok None, d') =>
        (match select_relay id (fun d t => download_bearer downloadTokenHash t && String.eqb (rt_State t) "consumed"
                                            && relay_active d t) d with
         | Ok (Some out) => match rf_StoragePath out with Some path => Ok path | None => Fail sql_error end
         | Ok None => Fail ErrRelayTransferState
         | Fail e => Fail e
         end, d')
    end.

(** ** Expiry *)

Record ExpiredRelayTransfer := { xr_ID : string; xr_StoragePath : option string }.

Fixpoint insert_by_expiry (x : string * RelayTransfer) (l : list (string * RelayTransfer)) : list (string * RelayTransfer) :=
  match l with
  | [] => [x]
  | y :: r => if rt_ExpiresAt x.2 <=? rt_ExpiresAt y.2 then x :: y :: r else y :: insert_by_expiry x r
  end.

(** [locked] are the rows other transactions hold. *)
Definition expired_relays (locked : string -> bool) (now : time) (limit : Z) (d : WDB) : list (string * RelayTransfer) :=
  take (batch limit) (foldr insert_by_expiry []
    (rows_where (fun id t => negb (locked id) && (rt_ExpiresAt t <=? ts now) && relay_open t) (wd_relays d))).

Definition set_expired (now : time) (t : RelayTransfer) : RelayTransfer :=
  rt_set_State "expired" (rt_set_UploadLeaseUntil None (rt_set_DownloadLeaseUntil None (rt_set_UpdatedAt (ts now) t))).

Definition ExpireRelayTransfers (clock : time) (locked : string -> bool) (now : time) (limit : Z) (d : WDB)
  : result (list ExpiredRelayTransfer) * WDB :=
  let now := now_or clock now in
  let rows := expired_relays locked now limit d in
  runTx (let! _ := tx_write (fun d => put_relays (foldl (fun m x => alter (set_expired now) x.1 m) (wd_relays d) rows) d) in
         tx_ret (map (fun x => {| xr_ID := x.1; xr_StoragePath := rt_StoragePath x.2 |}) rows)) d.

(** ** Runs *)

(** An operation of relay.go, the statement by which a retry or a recovery of the
    workflow fences its transfers (snapshots.go, conflict_resolutions.go), or any
    change that leaves the table alone. *)
Inductive relay_event :=
| RCreate (clock : time) (p : CreateRelayTransferParams) (later : WDB -> WDB)
| RCreateConflict (clock : time) (p : CreateRelayTransferParams) (operation : string) (later : WDB -> WDB)
| RClaimUpload (clock : time) (id hash : string) (plain cipher : Z) (archive : string) (now : time) (ttl : duration) (later : WDB -> WDB)
| RClaimMultipart (clock : time) (id hash : string) (plain cipher : Z) (archive : string) (now : time) (ttl : duration) (later : WDB -> WDB)
| RCompleteUpload (clock : time) (id hash sha : string) (cipher : Z) (path : string) (now : time)
| RReleaseUpload (clock : time) (id hash : string) (now : time)
| RClaimDownload (clock : time) (id hash : string) (now : time) (ttl : duration) (later : WDB -> WDB)
| RContinue (clock : time) (id hash : string) (now : time) (ttl : duration)
| RReleaseDownload (clock : time) (id hash : string) (now : time)
| RClamp (clock : time) (id hash : string) (now : time) (ttl : duration)
| RRenew (clock : time) (id hash : string) (now : time) (ttl : duration)
| RConsume (clock : time) (id hash : string) (now : time)
| RExpire (clock : time) (locked : string -> bool) (now : time) (limit : Z)
| RFence (wid : string) (now : time)
| RElse (f : WDB -> WDB).

Definition relay_effect (ev : relay_event) (d : WDB) : WDB :=
  match ev with
  | RCreate clock p later => (CreateRelayTransfer clock p later d).2
  | RCreateConflict clock p operation later => (CreateConflictRelayTransfer clock p operation later d).2
  | RClaimUpload clock id h plain cipher archive now ttl later => (ClaimRelayUpload clock id h plain cipher archive now ttl later d).2
  | RClaimMultipart clock id h plain cipher archive now ttl later =>
      (ClaimRelayMultipartUpload clock id h plain cipher archive now ttl later d).2
  | RCompleteUpload clock id h sha cipher path now => (CompleteRelayUpload clock id h sha cipher path now d).2
  | RReleaseUpload clock id h now => (ReleaseRelayUpload clock id h now d).2
  | RClaimDownload clock id h now ttl later => (ClaimRelayDownload clock id h now ttl later d).2
  | RContinue clock id h now ttl => (ContinueRelayDownload clock id h now ttl d).2
  | RReleaseDownload clock id h now => (ReleaseRelayDownload clock id h now d).2
  | RClamp clock id h now ttl => (ClampRelayDownloadLease clock id h now ttl d).2
  | RRenew clock id h now ttl => (RenewRelayDownload clock id h now ttl d).2
  | RConsume clock id h now => (CompleteRelayDownload clock id h now d).2
  | RExpire clock locked now limit => (ExpireRelayTransfers clock locked now limit d).2
  | RFence wid now => (runTx (fence_relays wid now) d).2
  | RElse f => put_relays (wd_relays d) (f d)
  end.

Definition relay_run (d : WDB) (evs : list relay_event) : WDB := foldl (fun d ev => relay_effect ev d) d evs.

(** ** The abstract transfer *)

(** What a stored transfer holds. *)
Record content := {
  ct_plain : option Z; ct_cipher : option Z; ct_archive : option string; ct_sha : option string; ct_path : option string
}.

Inductive relay_view :=
| Receiving
| Holding (c : content)
| Consumed (c : content)
| Closed.

Inductive view_step : relay_view -> relay_view -> Prop :=
| view_store c : view_step Receiving (Holding c)
| view_consume c : view_step (Holding c) (Consumed c)
| view_abandon : view_step Receiving Closed
| view_discard c : view_step (Holding c) Closed.

Definition content_of (t : RelayTransfer) : content :=
  {| ct_plain := rt_PlaintextBytes t; ct_cipher := rt_CiphertextBytes t; ct_archive := rt_ArchiveSHA256 t;
     ct_sha := rt_CiphertextSHA256 t; ct_path := rt_StoragePath t |}.

Definition view_of (t : RelayTransfer) : relay_view :=
  if bool_decide (rt_State t ∈ ["prepared"; "uploading"]) then Receiving
  else if bool_decide (rt_State t ∈ ["stored"; "downloading"]) then Holding (content_of t)
  else if String.eqb (rt_State t) "consumed" then Consumed (content_of t) else Closed.

(** The columns that never change. *)
Definition relay_key (t : RelayTransfer) :=
  (rt_WorkflowID t, rt_TransportScopeID t, rt_SnapshotID t, rt_SourceNodeID t, rt_TargetNodeID t, rt_Attempt t,
   rt_UploadTokenHash t, rt_DownloadTokenHash t, rt_ControllerGeneration t, rt_MaxCiphertextBytes t).

Record relay_le (t t' : RelayTransfer) : Prop := {
  rl_key : relay_key t' = relay_key t;
  rl_expiry : rt_ExpiresAt t' <= rt_ExpiresAt t;
  rl_view : rtc view_step (view_of t) (view_of t')
}.

#[export] Instance relay_le_preorder : PreOrder relay_le.
Proof.
  split; [by intros t; split|]. intros t1 t2 t3 [K1 E1 V1] [K2 E2 V2].
  split; [congruence | lia | by etrans].
Qed.

(** What becomes of a row. *)
Definition relay_row (o o' : option RelayTransfer) : Prop :=
  match o, o' with
  | Some t, Some t' => relay_le t t'
  | Some _, None => False
  | None, Some t' => rtc view_step Receiving (view_of t')
  | None, None => True
  end.

#[export] Instance relay_row_preorder : PreOrder relay_row.
Proof.
  split; [by intros [t|]|]. intros [t1|] [t2|] [t3|]; cbn; try done; [by intros ?; etrans|].
  intros V1 [_ _ V2]. by etrans.
Qed.

Definition relays_ok (d : WDB) : Prop := forall id t, wd_relays d !! id = Some t -> relay_ok t = true.

Definition relays_step (d d' : WDB) : Prop :=
  relays_ok d -> relays_ok d' /\ forall id, relay_row (wd_relays d !! id) (wd_relays d' !! id).

#[export] Instance relays_step_preorder : PreOrder relays_step.
Proof.
  split; [by intros d ?; split|]. intros d1 d2 d3 S1 S2 O1. destruct (S1 O1) as [O2 R1], (S2 O2) as [O3 R2].
  split; [done|]. intros id. by etrans; [apply R1 | apply R2].
Qed.

(** ** Every operation is a step *)

Lemma same_relays_step d d' : wd_relays d' = wd_relays d -> relays_step d d'.
Proof. intros E. unfold relays_step, relays_ok. by rewrite E. Qed.

Lemma update_relay_ok id p f d out d' :
  update_relay id p f d = Ok (out, d') ->
  (out = None /\ d' = d)
  \/ exists rid t, uuid_in id = Some rid /\ wd_relays d !! rid = Some t /\ p d t = true /\ relay_ok (f t) = true
     /\ out = Some (scanRelayTransfer rid (f t)) /\ d' = put_relays (<[rid := f t]> (wd_relays d)) d.
Proof.
  unfold update_relay. intros E. tx_split. destruct (wd_relays d !! _) as [t|] eqn:Hl; [|by simplify_eq; left].
  destruct (p d t) eqn:Hp; [|by simplify_eq; left]. destruct (relay_ok (f t)) eqn:Ho; [|done].
  simplify_eq. right. by do 2 eexists.
Qed.

Lemma insert_row_step rid t t' d :
  wd_relays d !! rid = Some t -> relay_ok t' = true -> relay_le t t' ->
  relays_step d (put_relays (<[rid := t']> (wd_relays d)) d).
Proof.
  intros Hl Ho Hle Hok. split; cbn.
  - intros id u. cbn. destruct (decide (id = rid)) as [->|].
    + rewrite lookup_insert_eq. by intros [= <-].
    + rewrite lookup_insert_ne by done. apply Hok.
  - intros id. destruct (decide (id = rid)) as [->|].
    + by rewrite lookup_insert_eq, Hl.
    + by rewrite lookup_insert_ne.
Qed.

Lemma update_relay_step id p f :
  (forall d t, p d t = true -> relay_le t (f t)) -> tx_rel relays_step (update_relay id p f).
Proof.
  intros Hf d out d' E. apply update_relay_ok in E as [[_ ->]|(rid & t & _ & Hl & Hp & Ho & _ & ->)]; [done|].
  eapply insert_row_step; eauto.
Qed.

(** A change that keeps the view. *)
Lemma relay_le_view t t' :
  relay_key t' = relay_key t -> rt_ExpiresAt t' = rt_ExpiresAt t -> view_of t' = view_of t -> relay_le t t'.
Proof. intros K E V. split; [done | by rewrite E | by rewrite V]. Qed.

Lemma relay_le_step t t' :
  relay_key t' = relay_key t -> rt_ExpiresAt t' = rt_ExpiresAt t -> view_step (view_of t) (view_of t') -> relay_le t t'.
Proof. intros K E V. split; [done | by rewrite E | by apply rtc_once]. Qed.

(** The cases of a membership in a list of states. *)
Ltac in_cases H := repeat (apply elem_of_cons in H as [H|H]); [.. | by apply elem_of_nil in H].

Lemma view_receiving t : rt_State t ∈ ["prepared"; "uploading"] -> view_of t = Receiving.
Proof. intros E. unfold view_of. in_cases E; by rewrite E. Qed.

Lemma view_holding t : rt_State t ∈ ["stored"; "downloading"] -> view_of t = Holding (content_of t).
Proof. intros E. unfold view_of. in_cases E; by rewrite E. Qed.

Lemma view_consumed t : rt_State t = "consumed"%string -> view_of t = Consumed (content_of t).
Proof. intros E. unfold view_of. by rewrite E. Qed.

Lemma view_closed t : rt_State t ∈ ["expired"; "failed"] -> view_of t = Closed.
Proof. intros E. unfold view_of. in_cases E; by rewrite E. Qed.

(** The test of a statement says which view it starts from. *)
Ltac relay_change :=
  intros; b2p; match goal with
  | E : String.eqb (rt_State ?t) _ = true |- _ => apply String.eqb_eq in E
  | _ => idtac end;
  first [ apply relay_le_view; [done | done |
            first [ rewrite !view_receiving; [done|cbn; set_solver..] | rewrite !view_holding; [done|cbn; set_solver..] | done ]]
        | apply relay_le_step; [done | done |
            first [ rewrite view_receiving, view_holding; [constructor|cbn; set_solver..]
                  | rewrite view_holding, view_consumed; [constructor|done|cbn; set_solver] ]] ].

Lemma claim_upload_step free clock id h plain cipher archive now ttl later d :
  (forall now t, free now t = true -> rt_State t ∈ ["prepared"; "uploading"]) ->
  relays_step d (claim_upload free clock id h plain cipher archive now ttl later d).2.
Proof.
  intros Hfree. unfold claim_upload. destruct (_ || _); [done|]. cbv zeta.
  match goal with |- context [runTx ?m d] => pose proof (tx_rel_run relays_step m d) as Hs; destruct (runTx m d) as [[[out|]|e] d'] end;
    apply Hs, update_relay_step; intros d0 t Hp; unfold uploadable in Hp; b2p;
    match goal with Hf : free _ _ = true |- _ => apply Hfree in Hf end;
    apply relay_le_view; try done; rewrite !view_receiving; done || (cbn; set_solver).
Qed.

Lemma upload_free_state now t : upload_free now t = true -> rt_State t ∈ ["prepared"; "uploading"].
Proof. unfold upload_free. rewrite orb_true_iff, andb_true_iff, !String.eqb_eq. intros [->|[-> _]]; set_solver. Qed.

Lemma multipart_free_state now t : multipart_free now t = true -> rt_State t ∈ ["prepared"; "uploading"].
Proof. unfold multipart_free. by rewrite bool_decide_eq_true. Qed.

Lemma complete_upload_step clock id h sha cipher path now d :
  relays_step d (CompleteRelayUpload clock id h sha cipher path now d).2.
Proof.
  unfold CompleteRelayUpload. destruct (_ || _); [done|]. cbv zeta.
  match goal with |- context [runTx ?m d] => pose proof (tx_rel_run relays_step m d) as Hs; destruct (runTx m d) as [[[out|]|e] d'] end;
    apply Hs, update_relay_step; unfold upload_completable; relay_change.
Qed.

Lemma exec_relay_step id p f d :
  (forall d t, p d t = true -> relay_le t (f t)) -> relays_step d (exec_relay id p f d).2.
Proof.
  intros Hf. unfold exec_relay. apply tx_rel_run; [exact _|]. apply tx_rel_bind; [exact _ | by apply update_relay_step|].
  intros ?. apply tx_rel_ret. exact _.
Qed.

Lemma claim_download_step clock id h now ttl later d :
  relays_step d (ClaimRelayDownload clock id h now ttl later d).2.
Proof.
  unfold ClaimRelayDownload. destruct (_ || _); [done|]. cbv zeta.
  match goal with |- context [runTx ?m d] => pose proof (tx_rel_run relays_step m d) as Hs; destruct (runTx m d) as [[[out|]|e] d'] end;
    apply Hs, update_relay_step; unfold downloadable; intros d0 t Hp; b2p;
    match goal with Ho : (_ || _) = true |- _ => apply orb_true_iff in Ho as [Ho|Ho]; b2p end; relay_change.
Qed.

(** A lease that moves keeps the view. *)
Lemma lease_download_le until now t : relay_le t (lease_download until now t).
Proof. by apply relay_le_view. Qed.

Lemma continue_step clock id h now ttl d : relays_step d (ContinueRelayDownload clock id h now ttl d).2.
Proof.
  unfold ContinueRelayDownload. destruct (_ || _); [done|]. cbv zeta.
  match goal with |- context [runTx ?m d] => pose proof (tx_rel_run relays_step m d) as Hs; destruct (runTx m d) as [[[out|]|e] d'] end;
    apply Hs, update_relay_step; intros; apply lease_download_le.
Qed.

Lemma release_upload_step clock id h now d : relays_step d (ReleaseRelayUpload clock id h now d).2.
Proof.
  unfold ReleaseRelayUpload. destruct (_ || _); [done|]. apply exec_relay_step. relay_change.
Qed.

Lemma release_download_step clock id h now d : relays_step d (ReleaseRelayDownload clock id h now d).2.
Proof.
  unfold ReleaseRelayDownload. destruct (download_invalid _ _); [done|]. apply exec_relay_step. unfold downloading. relay_change.
Qed.

Lemma clamp_step clock id h now ttl d : relays_step d (ClampRelayDownloadLease clock id h now ttl d).2.
Proof.
  unfold ClampRelayDownloadLease. destruct (_ || _); [done|]. apply exec_relay_step. intros. apply lease_download_le.
Qed.

Lemma renew_step clock id h now ttl d : relays_step d (RenewRelayDownload clock id h now ttl d).2.
Proof.
  unfold RenewRelayDownload. destruct (_ || _); [done|]. apply tx_rel_run; [exact _|].
  apply tx_rel_bind; [exact _ | apply update_relay_step; intros; apply lease_download_le | intros ?; apply tx_rel_ret; exact _].
Qed.

Lemma consume_step clock id h now d : relays_step d (CompleteRelayDownload clock id h now d).2.
Proof.
  unfold CompleteRelayDownload. destruct (download_invalid _ _); [done|]. cbv zeta.
  match goal with |- context [runTx ?m d] => pose proof (tx_rel_run relays_step m d) as Hs; destruct (runTx m d) as [[[out|]|e] d'] end;
    apply Hs, update_relay_step; unfold downloading; relay_change.
Qed.

(** A change of the rows that satisfy a test. *)
Lemma relays_pointwise d m :
  (forall id, match wd_relays d !! id, m !! id with
              | Some t, Some t' => relay_ok t = true -> relay_le t t' /\ relay_ok t' = true
              | None, None => True | _, _ => False end) ->
  relays_step d (put_relays m d).
Proof.
  intros Hp Hok. split.
  - intros id t Ht. cbn in Ht. specialize (Hp id). rewrite Ht in Hp.
    destruct (wd_relays d !! id) as [t0|] eqn:E0; [|done]. apply Hp, (Hok id), E0.
  - intros id. specialize (Hp id). cbn. destruct (wd_relays d !! id) eqn:E0, (m !! id); cbn; try done.
    apply Hp, (Hok id), E0.
Qed.

Lemma relay_open_state t : relay_ok t = true -> relay_open t = true ->
  rt_State t ∈ ["prepared"; "uploading"] \/ rt_State t ∈ ["stored"; "downloading"].
Proof.
  unfold relay_ok, relay_open. intros Ho Hs. b2p. unfold relay_states in *.
  match goal with Hi : rt_State t ∈ _ |- _ => in_cases Hi end; set_solver.
Qed.

Lemma fence_step wid now : tx_rel relays_step (fence_relays wid now).
Proof.
  intros d u d' E. unfold fence_relays in E. apply tx_write_ok in E as [_ ->]. apply relays_pointwise. intros id.
  rewrite update_where_lookup. destruct (wd_relays d !! id) as [t|]; [|done]. cbn. destruct (_ && _); [|done].
  intros Hok. split; [|done]. split; [done | cbn; lia | done].
Qed.

Lemma set_expired_le now t : relay_open t = true -> relay_ok t = true -> relay_le t (set_expired now t).
Proof.
  intros Ho Hk. apply relay_le_step; [done..|]. rewrite (view_closed (set_expired now t)) by (cbn; set_solver).
  destruct (relay_open_state _ Hk Ho) as [Hs|Hs]; [rewrite view_receiving by done | rewrite view_holding by done]; constructor.
Qed.

Lemma set_expired_ok now t : relay_ok t = true -> relay_ok (set_expired now t) = true.
Proof. unfold relay_ok. intros Ho. b2p. cbn. by repeat (match goal with E : _ = true |- _ => rewrite E; clear E end). Qed.

Lemma expire_rows_lookup now (rows : list (string * RelayTransfer)) (m : gmap string RelayTransfer) id :
  foldl (fun m x => alter (set_expired now) x.1 m) m rows !! id
  = if bool_decide (id ∈ rows.*1) then set_expired now <$> m !! id else m !! id.
Proof.
  revert m. induction rows as [|[k t] rows IH]; intros m; [done|]. cbn. rewrite IH.
  destruct (decide (id = k)) as [->|Hne].
  - rewrite lookup_alter_eq, (bool_decide_true (k ∈ _ :: _)) by set_solver. case_bool_decide; [|done].
    by destruct (m !! k).
  - rewrite lookup_alter_ne by done. destruct (decide (id ∈ rows.*1)).
    + rewrite !bool_decide_true; [done | set_solver | done].
    + rewrite !bool_decide_false; [done | set_solver | done].
Qed.

Lemma insert_by_expiry_in x l y : y ∈ insert_by_expiry x l -> y = x \/ y ∈ l.
Proof.
  induction l as [|z l IH]; cbn; [set_solver|]. destruct (_ <=? _); [set_solver|].
  intros [->|Hy]%elem_of_cons; [set_solver|]. destruct (IH Hy); set_solver.
Qed.

Lemma expired_relays_in locked now limit d id t :
  (id, t) ∈ expired_relays locked now limit d ->
  wd_relays d !! id = Some t /\ rt_ExpiresAt t <= ts now /\ relay_open t = true.
Proof.
  unfold expired_relays. intros Hin. apply elem_of_take in Hin as (i & Hin & _). apply list_elem_of_lookup_2 in Hin.
  assert (forall l, (id, t) ∈ foldr insert_by_expiry [] l -> (id, t) ∈ l) as Hsort.
  { intros l. induction l as [|x l IH]; cbn; [done|]. intros [->|Hy]%insert_by_expiry_in; set_solver. }
  apply Hsort, rows_where_elem in Hin as [Hl Hp]. b2p. split; [done|]. split; [lia|done].
Qed.

Lemma expire_step clock locked now limit d : relays_step d (ExpireRelayTransfers clock locked now limit d).2.
Proof.
  unfold ExpireRelayTransfers. cbv zeta. unfold runTx, tx_bind, tx_write, tx_ret. cbn. apply relays_pointwise. intros id.
  rewrite expire_rows_lookup. destruct (wd_relays d !! id) as [t|] eqn:El; case_bool_decide as Hin; try done.
  cbn. intros Hok. apply list_elem_of_fmap in Hin as ([k t'] & -> & Hin). cbn in *.
  apply expired_relays_in in Hin as (Hl & _ & Ho). rewrite El in Hl. injection Hl as ->.
  split; [by apply set_expired_le | by apply set_expired_ok].
Qed.

(** A new row is prepared. *)
Lemma insert_relay_step p source now : tx_rel relays_step (insert_relay p source now).
Proof.
  intros d out d' E. unfold insert_relay in E. tx_split. destruct (source _ _ d) as [[scope g]|]; [|by simplify_eq].
  destruct (task_of _ _ _ d); [by simplify_eq|]. destruct (wd_relays d !! _) eqn:El; [done|]. simplify_eq.
  intros Hok. split; cbn.
  - intros id t. cbn. destruct (decide (id = x)) as [->|].
    + rewrite lookup_insert_eq. by intros [= <-].
    + rewrite lookup_insert_ne by done. apply Hok.
  - intros id. destruct (decide (id = x)) as [->|]; [rewrite lookup_insert_eq, El; apply rtc_refl | by rewrite lookup_insert_ne].
Qed.

Lemma create_relay_step clock p source exact later d : relays_step d (create_relay clock p source exact later d).2.
Proof.
  unfold create_relay. cbv zeta. destruct (_ <=? _); [done|].
  match goal with |- context [runTx ?m d] => pose proof (tx_rel_run relays_step m d) as Hs; destruct (runTx m d) as [[[out|]|e] d'] end;
    apply Hs, insert_relay_step.
Qed.

Lemma relay_event_step ev d : relays_step d (relay_effect ev d).
Proof.
  destruct ev; cbn [relay_effect].
  - unfold CreateRelayTransfer. destruct (negb _); [done|]. apply create_relay_step.
  - unfold CreateConflictRelayTransfer. destruct (_ || _); [done|]. destruct (uuid_in _); [apply create_relay_step|]. by destruct (_ <=? _).
  - apply claim_upload_step, upload_free_state.
  - apply claim_upload_step, multipart_free_state.
  - apply complete_upload_step.
  - apply release_upload_step.
  - apply claim_download_step.
  - apply continue_step.
  - apply release_download_step.
  - apply clamp_step.
  - apply renew_step.
  - apply consume_step.
  - apply expire_step.
  - apply tx_rel_run; [exact _ | apply fence_step].
  - by apply same_relays_step.
Qed.

Lemma relay_run_step evs d : relays_step d (relay_run d evs).
Proof.
  revert d. induction evs as [|ev evs IH]; intros d; [done|]. cbn. etrans; [apply relay_event_step | apply IH].
Qed.

(** ** What the runs show *)

(** C24: along any run of the store every relay transfer follows the abstract
    life: it receives, then holds one content, which is consumed or discarded; a
    content never changes once it is held, a consumed or closed transfer stays so, the
    owner, the tokens and the generation of a transfer never change, and its expiry is
    never put off. *)
Theorem relay_transfer_refines d evs :
  relays_ok d ->
  relays_ok (relay_run d evs)
  /\ forall id, relay_row (wd_relays d !! id) (wd_relays (relay_run d evs) !! id).
Proof. apply relay_run_step. Qed.

Lemma holding_kept c v : rtc view_step (Holding c) v -> v = Holding c \/ v = Consumed c \/ v = Closed.
Proof.
  intros Hr. inversion Hr as [|x y z H1 H2]; subst; [by left|]. inversion H1; subst;
    (inversion H2 as [|x' y' z' H3 H4]; subst; [by eauto|]); inversion H3.
Qed.

(** The row in a later state of the table. *)
Lemma relay_row_later d evs id t :
  relays_ok d -> wd_relays d !! id = Some t ->
  exists t', wd_relays (relay_run d evs) !! id = Some t' /\ relay_le t t'.
Proof.
  intros Hok Hl. destruct (relay_run_step evs d Hok) as [_ Hr]. specialize (Hr id). rewrite Hl in Hr.
  destruct (wd_relays (relay_run d evs) !! id) as [t'|]; [|done]. by exists t'.
Qed.

(** The content a fact describes. *)
Definition fact_content (out : RelayFact) : content :=
  {| ct_plain := rf_PlaintextBytes out; ct_cipher := rf_CiphertextBytes out; ct_archive := rf_ArchiveSHA256 out;
     ct_sha := rf_CiphertextSHA256 out; ct_path := rf_StoragePath out |}.

Lemma run_update_relay id p f d r d' :
  runTx (update_relay id p f) d = (r, d') ->
  (exists e, r = Fail e) \/ r = Ok None
  \/ exists rid t, uuid_in id = Some rid /\ wd_relays d !! rid = Some t /\ p d t = true /\ relay_ok (f t) = true
     /\ r = Ok (Some (scanRelayTransfer rid (f t))) /\ d' = put_relays (<[rid := f t]> (wd_relays d)) d.
Proof.
  unfold runTx. destruct (update_relay id p f d) as [[out d1]|e] eqn:E; intros [= <- <-]; [|by left; eexists].
  apply update_relay_ok in E as [[-> ->]|(rid & t & H1 & H2 & H3 & H4 & -> & ->)]; [by right; left|].
  right; right. by exists rid, t.
Qed.

Lemma complete_upload_row clock id h sha n path now d d1 :
  CompleteRelayUpload clock id h sha n path now d = (Ok tt, d1) ->
  exists rid t, uuid_in id = Some rid /\ wd_relays d !! rid = Some t /\ relay_ok (set_stored n sha path (now_or clock now) t) = true
    /\ d1 = put_relays (<[rid := set_stored n sha path (now_or clock now) t]> (wd_relays d)) d.
Proof.
  unfold CompleteRelayUpload. destruct (_ || _); [done|]. cbv zeta.
  destruct (runTx _ d) as [r d'] eqn:E. apply run_update_relay in E as [[e ->]|[->|(rid & t & H1 & H2 & _ & H4 & -> & ->)]]; try done.
  intros [= <-]. by exists rid, t.
Qed.

Lemma claim_download_row clock id h now ttl later d out d1 :
  ClaimRelayDownload clock id h now ttl later d = (Ok out, d1) ->
  exists rid t, uuid_in id = Some rid /\ wd_relays d !! rid = Some t /\ rt_State t ∈ ["stored"; "downloading"]
    /\ fact_content out = content_of t.
Proof.
  unfold ClaimRelayDownload. destruct (_ || _); [done|]. cbv zeta.
  destruct (runTx _ d) as [r d'] eqn:E. apply run_update_relay in E as [[e ->]|[->|(rid & t & H1 & H2 & H3 & _ & -> & ->)]]; try done.
  - by destruct (select_relay _ _ _) as [[?|]|?].
  - intros [= <- <-]. exists rid, t. split_and!; try done. unfold downloadable in H3. b2p.
    match goal with Ho : (_ || _) = true |- _ => apply orb_true_iff in Ho as [Ho|Ho]; b2p end;
      match goal with Es : rt_State t = _ |- _ => rewrite Es; set_solver end.
Qed.

Lemma continue_download_row clock id h now ttl d out d1 :
  ContinueRelayDownload clock id h now ttl d = (Ok out, d1) ->
  exists rid t, uuid_in id = Some rid /\ wd_relays d !! rid = Some t /\ rt_State t ∈ ["stored"; "downloading"]
    /\ fact_content out = content_of t.
Proof.
  unfold ContinueRelayDownload. destruct (_ || _); [done|]. cbv zeta.
  destruct (runTx _ d) as [r d'] eqn:E. apply run_update_relay in E as [[e ->]|[->|(rid & t & H1 & H2 & H3 & _ & -> & ->)]]; try done.
  intros [= <- <-]. exists rid, t. split_and!; try done. unfold download_live, downloading in H3. b2p.
  match goal with Es : rt_State t = _ |- _ => rewrite Es; set_solver end.
Qed.

(** The path that a completed download frees. *)
Lemma consume_row clock id h now d path d1 :
  CompleteRelayDownload clock id h now d = (Ok path, d1) ->
  exists rid t, uuid_in id = Some rid /\ wd_relays d !! rid = Some t
    /\ rt_State t ∈ ["downloading"; "consumed"] /\ rt_StoragePath t = Some path.
Proof.
  unfold CompleteRelayDownload. destruct (download_invalid _ _); [done|]. cbv zeta.
  destruct (runTx _ d) as [r d'] eqn:E. apply run_update_relay in E as [[e ->]|[->|(rid & t & H1 & H2 & H3 & _ & -> & ->)]]; [done|..].
  - unfold select_relay. destruct (uuid_in id) as [rid|]; [|done]. destruct (wd_relays d !! rid) as [t|] eqn:Hl; [|done]. cbn.
    destruct (_ && _) eqn:Ep; [|done]. cbn. destruct (rt_StoragePath t) eqn:Es; [|done]. intros [= <- <-].
    exists rid, t. b2p. split_and!; try done. match goal with Hs : rt_State t = _ |- _ => rewrite Hs; set_solver end.
  - cbn. destruct (rt_StoragePath t) eqn:Es; [|done]. intros [= <- <-]. exists rid, t. unfold downloading in H3. b2p.
    split_and!; try done. match goal with Hs : rt_State t = _ |- _ => rewrite Hs; set_solver end.
Qed.

(** What a download is told is what the upload stored.  After
    CompleteRelayUpload stored a ciphertext, whatever runs in between, every
    download that is granted or continued names its digest, size and path with the
    plaintext size and digest the upload was claimed for, and completing the download
    frees that path. *)
Theorem relay_download_is_upload clock id h sha n path now d d1 rid t evs :
  relays_ok d -> uuid_in id = Some rid -> wd_relays d !! rid = Some t ->
  CompleteRelayUpload clock id h sha n path now d = (Ok tt, d1) ->
  let c := {| ct_plain := rt_PlaintextBytes t; ct_cipher := Some n; ct_archive := rt_ArchiveSHA256 t;
              ct_sha := Some sha; ct_path := Some path |} in
  (forall clock h now ttl later out d3,
     ClaimRelayDownload clock id h now ttl later (relay_run d1 evs) = (Ok out, d3) -> fact_content out = c)
  /\ (forall clock h now ttl out d3,
     ContinueRelayDownload clock id h now ttl (relay_run d1 evs) = (Ok out, d3) -> fact_content out = c)
  /\ (forall clock h now freed d3,
     CompleteRelayDownload clock id h now (relay_run d1 evs) = (Ok freed, d3) -> freed = path).
Proof.
  intros Hok Hid Hl E c. pose proof (complete_upload_step clock id h sha n path now d Hok) as [Hok1 _]. rewrite E in Hok1. cbn in Hok1.
  apply complete_upload_row in E as (rid' & t' & Hid' & Hl' & _ & Ed1). assert (rid' = rid) as -> by congruence.
  assert (t' = t) as -> by congruence. clear Hid' Hl'.
  destruct (relay_row_later d1 evs rid (set_stored n sha path (now_or clock now) t) Hok1) as (t2 & Hl2 & [_ _ Hv]).
  { rewrite Ed1. cbn. by rewrite lookup_insert_eq. }
  rewrite (view_holding (set_stored _ _ _ _ _)) in Hv by (cbn; set_solver). apply holding_kept in Hv.
  assert (content_of (set_stored n sha path (now_or clock now) t) = c) as Ec by done. rewrite Ec in Hv.
  assert (rt_State t2 ∈ ["stored"; "downloading"; "consumed"] -> content_of t2 = c) as Hc.
  { intros Hs. in_cases Hs; (rewrite view_holding in Hv by (rewrite Hs; set_solver)) || rewrite view_consumed in Hv by done;
      destruct Hv as [Hv|[Hv|Hv]]; congruence. }
  split_and!.
  - intros ??????? (r & u & Hr & Hu & Hs & ->)%claim_download_row. simplify_eq. apply Hc. set_solver.
  - intros ?????? (r & u & Hr & Hu & Hs & ->)%continue_download_row. simplify_eq. apply Hc. set_solver.
  - intros ????? (r & u & Hr & Hu & Hs & Hp)%consume_row. simplify_eq. specialize (Hc ltac:(set_solver)).
    apply (f_equal ct_path) in Hc. cbn in Hc. congruence.
Qed.

(** What scheduling a retry does to the transfers of the workflow. *)
Lemma retry_relays wid id code s now delay d n d1 :
  uuid_in wid = Some id -> ScheduleSnapshotRetry wid code s now delay d = (Ok n, d1) ->
  wd_relays d1 = wd_relays (runTx (fence_relays id now) d).2.
Proof.
  intros Hid E. unfold ScheduleSnapshotRetry, runTx in E. destruct (_ || _); [done|].
  match type of E with context [tx_bind ?m ?k d] => destruct (tx_bind m k d) as [[a d2]|e] eqn:Et; [|done] end.
  injection E as <- <-. tx_split. simplify_eq.
  match goal with Hp : (match retry_plan ?x with _ => _ end) _ = _ |- _ => destruct (retry_plan x) as [[resume steps]|]; [|done] end.
  tx_split. match goal with Hu : update_workflows _ _ _ = _ |- _ => apply update_workflows_ok in Hu as (_ & _ & ->) end.
  match goal with Hu : update_steps _ _ _ = _ |- _ => apply update_steps_ok in Hu as (_ & ->) end.
  match goal with Hf : fence_relays _ _ ?e = _, Hm : when _ _ _ ?e0 = Ok (_, ?e) |- _ =>
    assert (wd_relays e = wd_relays d) as Hrel; [|unfold fence_relays in Hf; apply tx_write_ok in Hf as [_ ->]] end.
  { unfold when in *. destruct (bool_decide _); [|by tx_split; simplify_eq]. tx_split.
    match goal with Hr : revoke_caps _ _ = _ |- _ => by injection Hr as <- <- end. }
  cbn. by rewrite Hrel.
Qed.

Lemma fenced_row id now d rid t :
  wd_relays d !! rid = Some t -> rt_WorkflowID t = id -> relay_open t = true ->
  exists t1, wd_relays (runTx (fence_relays id now) d).2 !! rid = Some t1 /\ rt_ExpiresAt t1 <= ts now.
Proof.
  intros Hl Hw Ho. cbn. rewrite update_where_lookup, Hl. cbn. rewrite Hw, String.eqb_refl, Ho. cbn.
  eexists. split; [done|]. cbn. lia.
Qed.

(** An expired row is neither uploaded to nor handed out. *)
Lemma past_expiry t now u : rt_ExpiresAt t <= ts u -> ts u <= ts now -> (rt_ExpiresAt t >? ts now) = false.
Proof. intros. rewrite Z.gtb_ltb. apply Z.ltb_ge. lia. Qed.

Lemma update_relay_none id rid p f d t :
  uuid_in id = Some rid -> wd_relays d !! rid = Some t -> p d t = false -> runTx (update_relay id p f) d = (Ok None, d).
Proof. intros Hid Hl Hp. unfold runTx, update_relay, tx_bind, uuid_param. rewrite Hid. cbn. by rewrite Hl, Hp. Qed.

Lemma expired_upload_refused free clock id rid h plain cipher archive now ttl later d t t2 :
  uuid_in id = Some rid -> wd_relays d !! rid = Some t -> wd_relays (later d) !! rid = Some t2 ->
  (rt_ExpiresAt t >? ts (now_or clock now)) = false -> (rt_ExpiresAt t2 >? ts (now_or clock now)) = false ->
  exists e, claim_upload free clock id h plain cipher archive now ttl later d = (Fail e, d).
Proof.
  intros Hid Hl Hl2 Hx Hx2. unfold claim_upload. destruct (_ || _); [by eexists|]. cbv zeta.
  erewrite update_relay_none; [|done..|by unfold uploadable; rewrite Hx, andb_false_r].
  unfold select_relay. rewrite Hid, Hl2. cbn. unfold already_stored. rewrite Hx2, andb_false_r. by eexists.
Qed.

Lemma expired_download_refused clock id rid h now ttl later d t :
  uuid_in id = Some rid -> wd_relays d !! rid = Some t -> (rt_ExpiresAt t >? ts (now_or clock now)) = false ->
  exists e, ClaimRelayDownload clock id h now ttl later d = (Fail e, d).
Proof.
  intros Hid Hl Hx. unfold ClaimRelayDownload. destruct (_ || _); [by eexists|]. cbv zeta.
  erewrite update_relay_none; [|done..|by unfold downloadable; rewrite Hx, andb_false_r].
  destruct (select_relay _ _ _) as [[?|]|?]; by eexists.
Qed.

Lemma expired_continue_refused clock id rid h now ttl d t :
  uuid_in id = Some rid -> wd_relays d !! rid = Some t -> (rt_ExpiresAt t >? ts (now_or clock now)) = false ->
  exists e, ContinueRelayDownload clock id h now ttl d = (Fail e, d).
Proof.
  intros Hid Hl Hx. unfold ContinueRelayDownload. destruct (_ || _); [by eexists|]. cbv zeta.
  erewrite update_relay_none; [|done..|by unfold download_live; rewrite Hx, andb_false_r]. by eexists.
Qed.

Lemma expired_complete_refused clock id rid h sha n path now d t :
  uuid_in id = Some rid -> wd_relays d !! rid = Some t -> (rt_ExpiresAt t >? ts (now_or clock now)) = false ->
  exists e, CompleteRelayUpload clock id h sha n path now d = (Fail e, d).
Proof.
  intros Hid Hl Hx. unfold CompleteRelayUpload. destruct (_ || _); [by eexists|]. cbv zeta.
  erewrite update_relay_none; [|done..|by unfold upload_completable; rewrite Hx, andb_false_r]. by eexists.
Qed.

(** A retry closes the transfers of the attempt it ends.  After
    ScheduleSnapshotRetry of a workflow, no transfer of it that was open takes an
    upload, completes one, or is handed out for download at any time from the retry
    on, whatever runs in between: the agents of the abandoned attempt are shut out. *)
Theorem retried_relay_closed wid code s now delay d n d1 id rid t evs clock now' :
  relays_ok d -> uuid_in wid = Some (rt_WorkflowID t) -> uuid_in id = Some rid ->
  wd_relays d !! rid = Some t -> relay_open t = true ->
  ScheduleSnapshotRetry wid code s now delay d = (Ok n, d1) ->
  ts now <= ts (now_or clock now') ->
  let d2 := relay_run d1 evs in
  (forall h plain cipher archive ttl evs2, exists e,
     ClaimRelayUpload clock id h plain cipher archive now' ttl (fun d => relay_run d evs2) d2 = (Fail e, d2))
  /\ (forall h plain cipher archive ttl evs2, exists e,
     ClaimRelayMultipartUpload clock id h plain cipher archive now' ttl (fun d => relay_run d evs2) d2 = (Fail e, d2))
  /\ (forall h sha size path, exists e, CompleteRelayUpload clock id h sha size path now' d2 = (Fail e, d2))
  /\ (forall h ttl later, exists e, ClaimRelayDownload clock id h now' ttl later d2 = (Fail e, d2))
  /\ (forall h ttl, exists e, ContinueRelayDownload clock id h now' ttl d2 = (Fail e, d2)).
Proof.
  intros Hok Hw Hid Hl Ho E Ht d2. pose proof (retry_relays _ _ _ _ _ _ _ _ _ Hw E) as Er.
  destruct (fenced_row (rt_WorkflowID t) now d rid t Hl eq_refl Ho) as (t1 & Hl1 & Hx1). rewrite <- Er in Hl1.
  assert (relays_ok d1) as Hok1.
  { intros i u. rewrite Er. apply (relay_event_step (RFence (rt_WorkflowID t) now) d Hok). }
  destruct (relay_row_later d1 evs rid t1 Hok1 Hl1) as (t2 & Hl2 & [_ Hx2 _]).
  assert (forall u, rt_ExpiresAt u <= rt_ExpiresAt t2 -> (rt_ExpiresAt u >? ts (now_or clock now')) = false) as Hpast.
  { intros u Hu. apply past_expiry with now; lia. }
  assert (relays_ok d2) as Hok2 by (apply relay_run_step; done).
  assert (forall evs2, exists t3, wd_relays (relay_run d2 evs2) !! rid = Some t3
            /\ (rt_ExpiresAt t3 >? ts (now_or clock now')) = false) as Hlater.
  { intros evs2. destruct (relay_row_later d2 evs2 rid t2 Hok2 Hl2) as (t3 & Hl3 & [_ Hx3 _]). eauto. }
  split_and!; intros.
  - destruct (Hlater evs2) as (t3 & Hl3 & Hx3). eapply (expired_upload_refused upload_free); eauto. apply Hpast. lia.
  - destruct (Hlater evs2) as (t3 & Hl3 & Hx3). eapply (expired_upload_refused multipart_free); eauto. apply Hpast. lia.
  - eapply expired_complete_refused; eauto. apply Hpast. lia.
  - eapply expired_download_refused; eauto. apply Hpast. lia.
  - eapply expired_continue_refused; eauto. apply Hpast. lia.
Qed.

End Operations.

(** ** A concrete transfer *)

#[local] Existing Instance demo_postgres.

Definition relay_rid : string := "00000000-0000-4000-8000-0000000000e2".

(** Alice's snapshot, sent by relay. *)
Definition relay_create : CreateSnapshotWorkflowParams :=
  {| sp_WorkflowID := wid1; sp_OperationID := wop1; sp_SnapshotID := sid1; sp_CapabilityID := cid1;
     sp_CapabilityHash := digest32; sp_LegacyBackupJobID := 5; sp_LegacyUserID := 3; sp_GlobalUserID := 7;
     sp_SourceNodeID := 1; sp_TargetNodeID := 9; sp_DestinationKind := "archive"; sp_TransferMode := "relay";
     sp_IndependentReconciliationID := ""; sp_IndependentMarker := ""; sp_RetirementItemID := "";
     sp_RetirementTrigger := ""; sp_CapabilityExpires := store_now + 8 * Hour; sp_Now := store_now |}.

Definition relay_params : CreateRelayTransferParams :=
  {| rp_ID := relay_rid; rp_WorkflowID := wid1; rp_SnapshotID := sid1; rp_SourceNodeID := 1; rp_TargetNodeID := 9;
     rp_Attempt := 0; rp_UploadTokenHash := digest32; rp_DownloadTokenHash := digest32;
     rp_MaxCiphertextBytes := 4096; rp_ExpiresAt := store_now + Hour; rp_Now := store_now |}.

#[local] Notation relay_db := (snapshot_run demo_wdb [SCreate 0 relay_create; SBegin 0 wid1 store_now]).

Definition uploaded : list relay_event :=
  [RCreate 0 relay_params id; RClaimMultipart 0 relay_rid digest32 1000 1100 digest32 store_now Hour id].

#[local] Notation uploading_db := (relay_run relay_db uploaded).
#[local] Notation demo_stored := (CompleteRelayUpload 0 relay_rid digest32 digest32 1100 "/spool/a" (store_now + Second) uploading_db).
#[local] Notation demo_download db := (ClaimRelayDownload 0 relay_rid digest32 (store_now + 2 * Second) Hour id db).

Lemma relay_db_ok : relays_ok relay_db.
Proof.
  assert (wd_relays relay_db = ∅) as E by (vm_compute; reflexivity). intros i t. by rewrite E, lookup_empty.
Qed.

Lemma uploading_ok : relays_ok uploading_db.
Proof. apply relay_run_step, relay_db_ok. Qed.

Definition demo_relay : RelayTransfer :=
  Eval vm_compute in default (new_relay relay_params "" "" "" 0 0) (wd_relays uploading_db !! relay_rid).

Lemma demo_relay_row : wd_relays uploading_db !! relay_rid = Some demo_relay.
Proof. vm_compute. reflexivity. Qed.

Lemma relay_transfer_refines_witness :
  relays_ok uploading_db /\ relay_row (wd_relays relay_db !! relay_rid) (wd_relays uploading_db !! relay_rid)
  /\ (view_of <$> wd_relays uploading_db !! relay_rid) = Some Receiving.
Proof.
  destruct (relay_transfer_refines relay_db uploaded relay_db_ok) as [Hok Hr].
  split; [exact Hok|]. split; [apply Hr | vm_compute; reflexivity].
Defined.

#[local] Notation demo_downloaded := (demo_download (relay_run demo_stored.2 [])).

Definition demo_fact : RelayFact :=
  Eval vm_compute in scanRelayTransfer relay_rid (set_stored 1100 digest32 "/spool/a" store_now demo_relay).

Definition demo_handed : RelayFact :=
  Eval vm_compute in match demo_downloaded.1 with Ok out => out | Fail _ => demo_fact end.

Lemma relay_download_is_upload_witness :
  demo_downloaded.1 = Ok demo_handed
  /\ fact_content demo_handed = {| ct_plain := Some 1000; ct_cipher := Some 1100; ct_archive := Some digest32;
                                   ct_sha := Some digest32; ct_path := Some "/spool/a" |}.
Proof.
  assert (demo_stored = (Ok tt, demo_stored.2)) as E by (refine (pair_fst _ _ _); vm_compute; reflexivity).
  assert (demo_downloaded = (Ok demo_handed, demo_downloaded.2)) as Ed by (refine (pair_fst _ _ _); vm_compute; reflexivity).
  assert (uuid_in relay_rid = Some relay_rid) as Hid by (vm_compute; reflexivity).
  split; [vm_compute; reflexivity|].
  exact (proj1 (relay_download_is_upload 0 relay_rid digest32 digest32 1100 "/spool/a" (store_now + Second) uploading_db
    demo_stored.2 relay_rid demo_relay [] uploading_ok Hid demo_relay_row E) _ _ _ _ _ _ _ Ed).
Defined.

#[local] Notation relay_retry := (ScheduleSnapshotRetry wid1 "relay_upload_failed" "" store_now (5 * Second) uploading_db).

Lemma retried_relay_closed_witness :
  exists e, CompleteRelayUpload 0 relay_rid digest32 digest32 1100 "/spool/a" store_now (relay_run relay_retry.2 [])
            = (Fail e, relay_run relay_retry.2 []).
Proof.
  apply (retried_relay_closed wid1 "relay_upload_failed" "" store_now (5 * Second) uploading_db 1 relay_retry.2
           relay_rid relay_rid demo_relay [] 0 store_now).
  - exact uploading_ok.
  - vm_compute. reflexivity.
  - vm_compute. reflexivity.
  - exact demo_relay_row.
  - vm_compute. reflexivity.
  - refine (pair_fst _ _ _). vm_compute. reflexivity.
  - vm_compute. discriminate.
Defined.
