(* ===== verification/SnapshotExecutor.v ===== *)
(** * The executor of snapshot workflows

    src/internal/controller/backup.go and snapshot_relay.go: the background worker
    that takes a snapshot workflow through its phases, by statements of the store
    (SnapshotStore.v, RelayTransfers.v) and commands of the two Agents.  Each such
    call is one action of a procedure (Procs.v); between two of them anything else may
    happen.  What an Agent answers, whether a statement reaches the database and
    whether its answer comes back are inputs.

    Also here: the preparation of the account on the target (store/restores.go) and
    the choice of a target node. *)

From Stdlib Require Import ZArith Lia Ascii String.
From stdpp Require Import base list gmap strings pretty relations.
From S2P Require Import Prelude GoStrings Sha256 Base64 AgentState Protocol Secrets RuntimeState.
From S2P Require Import Schema Leases Handoffs AgentApi WorkflowSchema SnapshotStore SnapshotLife RelayTransfers Procs.
#[local] Open Scope Z_scope.

(** ** Constants *)

Definition snapshotCapabilityTTL : duration := 8 * Hour.
Definition snapshotWorkflowLeaseTTL : duration := 30 * Second.
Definition snapshotWorkflowLeaseRenew : duration := 10 * Second.
Definition snapshotNodeReadinessDelay : duration := 30 * Second.
Definition snapshotGenerationRecovery : string := "controller_generation_recovery".

(** ** The account on the target *)

Record WorkflowTargetAccountProvision := {
  wt_WorkflowID : string;
  wt_GlobalUserID : Z;
  wt_TargetNodeID : Z;
  wt_Handle : string;
  wt_Status : string;
  wt_LocalUserID : string;
  wt_AccountVersion : Z;
  wt_PasswordHash : string;
  wt_PasswordSalt : string;
  wt_OAuthProvider : string;
  wt_OAuthSubject : string
}.

(** The first of the two providers an account has a subject of. *)
Definition oauth_subject (m : AccountMaterial) : string * string :=
  match am_PasswordHash m with
  | Some _ => ("", "")%string
  | None =>
      match list_find (fun x => x.1 = "discord"%string) (am_OAuthSubjects m),
            list_find (fun x => x.1 = "linuxdo"%string) (am_OAuthSubjects m) with
      | Some (_, (_, s)), _ => ("discord"%string, s)
      | None, Some (_, (_, s)) => ("linuxdo"%string, s)
      | None, None => ("", "")%string
      end
  end.

Section Executor.
Context `{Postgres}.

(** The joins of the query: the workflow, its user, a compute target and the
    account on it. *)
Definition provision_of (wid : string) (d : WDB) : option WorkflowTargetAccountProvision :=
  w ← wd_workflows d !! wid;
  u ← wf_UserID w; t ← wf_TargetNodeID w;
  g ← db_users (wd_core d) !! u; l ← gu_LegacyUserID g; us ← db_legacy (wd_core d) !! l;
  n ← node_of d t; a ← db_accounts (wd_core d) !! (u, t); m ← wd_materials d !! (u, t);
  if bool_decide (wf_Type w ∈ ["restore"; "snapshot"]) && String.eqb (nd_Role n) "compute"
  then Some {| wt_WorkflowID := wid; wt_GlobalUserID := u; wt_TargetNodeID := t; wt_Handle := us_Username us;
               wt_Status := na_Status a; wt_LocalUserID := default ""%string (am_LocalUserID m);
               wt_AccountVersion := am_AccountVersion m; wt_PasswordHash := default ""%string (am_PasswordHash m);
               wt_PasswordSalt := default ""%string (am_PasswordSalt m);
               wt_OAuthProvider := (oauth_subject m).1; wt_OAuthSubject := (oauth_subject m).2 |}
  else None.

Definition GetWorkflowTargetAccountProvision (workflowID : string) (d : WDB) : result (option WorkflowTargetAccountProvision) :=
  if negb (validUUIDText workflowID) then Fail ErrInvalidRestoreWorkflow
  else match uuid_in workflowID with
  | None => Fail sql_error
  | Some wid => Ok (provision_of wid d)
  end.

(** The row that the transaction locks. *)
Definition provision_row (wid : string) (d : WDB) : option (Z * Z * string * NodeAccount * AccountMaterial) :=
  w ← wd_workflows d !! wid;
  u ← wf_UserID w; t ← wf_TargetNodeID w;
  a ← db_accounts (wd_core d) !! (u, t); m ← wd_materials d !! (u, t);
  if bool_decide (wf_Type w ∈ ["restore"; "snapshot"]) then Some (u, t, wf_State w, a, m) else None.

(** The unique index on (node_id, local_user_id). *)
Definition local_user_taken (d : WDB) (user node : Z) (local : string) : bool :=
  negb (Nat.eqb (length (rows_where (fun k m => (k.2 =? node) && negb (k.1 =? user)
    && bool_decide (am_LocalUserID m = Some local)) (wd_materials d))) 0).

Definition activate_account (user node : Z) (local : string) (a : NodeAccount) (m : AccountMaterial) (now : time) : WTx unit :=
  fun d => if local_user_taken d user node local then Fail sql_error else
  Ok (tt, put_materials (<[(user, node) :=
       {| am_AccountVersion := am_AccountVersion m; am_PasswordMaterialVersion := am_PasswordMaterialVersion m;
          am_PasswordHash := am_PasswordHash m; am_PasswordSalt := am_PasswordSalt m;
          am_OAuthSubjects := am_OAuthSubjects m; am_ProvisioningWorkflowID := None;
          am_LocalUserID := Some local; am_UpdatedAt := ts now |}]> (wd_materials d))
     (put_core (set_accounts (<[(user, node) := {| na_LocalHandle := na_LocalHandle a; na_Status := "active" |}]>
        (db_accounts (wd_core d))) (wd_core d)) d)).

Definition CompleteWorkflowTargetAccountProvision (clock : time) (workflowID : string) (accountVersion : Z)
  (localUserID : string) (now : time) (d : WDB) : result unit * WDB :=
  if String.eqb workflowID "" || (accountVersion <=? 0) || String.eqb localUserID ""
  then (Fail ErrInvalidRestoreWorkflow, d)
  else
    let now := now_or clock now in
    runTx (
      let! wid := uuid_param workflowID in
      let! row := select1 (provision_row wid) ErrNoRows in
      let '(user, node, state, a, m) := row in
      if String.eqb (na_Status a) "active" then
        require ((am_AccountVersion m =? accountVersion)
                 && match am_LocalUserID m with Some x => String.eqb x localUserID | None => true end) ErrRestoreConflict
      else
        let! _ := require (negb (is_terminal state) && String.eqb (na_Status a) "pending"
                           && (am_AccountVersion m =? accountVersion)) ErrRestoreConflict in
        let! _ := activate_account user node localUserID a m now in
        let! n := update_steps (fun k s => String.eqb k.1 wid && String.eqb k.2 "provision_account"
                                           && negb (String.eqb (st_State s) "succeeded"))
                    (fun s => st_set_State "succeeded" (st_set_FinishedAt (Some (ts now)) (st_set_UpdatedAt (ts now) s))) in
        require (Nat.eqb n 1) ErrRestoreConflict) d.

(** ** Nodes *)

(** A node as GetNodeByID returns it. *)
Record NodeView := { nv_ID : Z; nv_Node : Node; nv_Transfer : NodeTransfer }.

Definition GetNodeByID (id : Z) (d : WDB) : option NodeView :=
  (fun n => {| nv_ID := id; nv_Node := n; nv_Transfer := SnapshotStore.transfer_of d id |}) <$> node_of d id.

(** [ORDER BY id]. *)
Fixpoint insert_node (x : NodeView) (l : list NodeView) : list NodeView :=
  match l with
  | [] => [x]
  | y :: r => if nv_ID x <=? nv_ID y then x :: y :: r else y :: insert_node x r
  end.

Definition ListNodes (d : WDB) : list NodeView :=
  foldr insert_node [] (map (fun kn => {| nv_ID := kn.1; nv_Node := kn.2; nv_Transfer := SnapshotStore.transfer_of d kn.1 |})
    (map_to_list (db_nodes (wd_core d)))).

Definition snapshotNodeReady (v : NodeView) : bool :=
  reachable (nv_Node v) && String.eqb (nd_OperationalState (nv_Node v)) "active" && managed (nv_Node v).

Definition snapshotSourceReady (v : NodeView) (trigger : string) : bool :=
  let n := nv_Node v in
  reachable n
  && (if bool_decide (trigger ∈ ["node_retirement"; "node_retirement_storage"]) then
        String.eqb (nd_Role n) "compute"
        && (String.eqb (nd_OperationalState n) "draining" || String.eqb (nd_OperationalState n) "retiring") && managed n
      else if String.eqb trigger "independent_reconciliation" then
        String.eqb (nd_Role n) "compute" && String.eqb (nd_OperationalState n) "active"
        && String.eqb (nc_ControlMode (nd_Control n)) "independent-draining"
        && String.eqb (nc_DesiredControlMode (nd_Control n)) "independent-draining"
      else snapshotNodeReady v).

Definition nodeReadyForManagedOperation (v : NodeView) : bool := snapshotNodeReady v.

Definition nodeAcceptsNewData (v : NodeView) : bool :=
  nodeReadyForManagedOperation v && has_capacity (nv_Node v).

(** ** Receipts, capabilities and identifiers *)

(** The receipt of AgentState.v; replica rows have a field of the same name. *)
#[local] Notation sr_SnapshotID := AgentState.rc_SnapshotID.
#[local] Notation sr_ManifestSHA256 := AgentState.rc_ManifestSHA256.
#[local] Notation sr_ArchiveSHA256 := AgentState.rc_ArchiveSHA256.
#[local] Notation sr_FileCount := AgentState.rc_FileCount.
#[local] Notation sr_TotalBytes := AgentState.rc_TotalBytes.
#[local] Notation sr_RelayPending := AgentState.rc_RelayPending.

Definition matchingRelayReceipts (source target : SnapshotTransferReceipt) : bool :=
  sr_RelayPending source && negb (sr_RelayPending target)
  && String.eqb (sr_SnapshotID source) (sr_SnapshotID target)
  && String.eqb (sr_ManifestSHA256 source) (sr_ManifestSHA256 target)
  && String.eqb (sr_ArchiveSHA256 source) (sr_ArchiveSHA256 target)
  && (sr_FileCount source =? sr_FileCount target) && (sr_TotalBytes source =? sr_TotalBytes target).

Definition decodeSnapshotDigest (value : string) : option string :=
  match hex_decode value with
  | Some digest => if slen digest =? 32 then Some digest else None
  | None => None
  end.

Definition snapshotReplicaOrigin (trigger : string) : string :=
  if String.eqb trigger "storage_repair" then "automatic_repair"
  else if String.eqb trigger "node_retirement" || String.eqb trigger "node_retirement_storage" then "migration"
  else "configured".

(** [base64.RawURLEncoding]. *)
Definition raw_url (s : string) : string := of_bytes (map url_char (b64_encode false (bytes_of s))).

Definition deriveTransferCapability (key capabilityID : string) : string :=
  raw_url (hmac_sha256 key ("stcontrol-snapshot-transfer:v1:" +:+ capabilityID)).

Definition deriveRelayBearer (key taskID purpose : string) : string :=
  raw_url (hmac_sha256 key ("stcontrol-relay-bearer:v1:" +:+ purpose +:+ ":" +:+ taskID)).

(** A digest as the text of a version 4 UUID. *)
Definition set_byte (i : nat) (f : Z -> Z) (l : list ascii) : list ascii := alter (fun c => byte_of (f (byte_val c))) i l.

Definition uuid_text (b : list ascii) : string :=
  let b := set_byte 8 (fun v => Z.lor (Z.land v 63) 128) (set_byte 6 (fun v => Z.lor (Z.land v 15) 64) b) in
  let h := hex_encode (of_bytes (take 16 b)) in
  substring 0 8 h +:+ "-" +:+ substring 8 4 h +:+ "-" +:+ substring 12 4 h +:+ "-" +:+ substring 16 4 h +:+ "-" +:+ substring 20 12 h.

Definition deriveWorkflowOperationID (workflowID step : string) : string :=
  uuid_text (bytes_of (sha256 ("stcontrol-workflow-operation:v1:" +:+ workflowID +:+ ":" +:+ step))).

(** ** The delay of a retry *)

(** [for i := 0; i < attempts && delay < 5*time.Minute; i++ { delay *= 2 }]; after six
    doublings the bound stops it. *)
Fixpoint double_delay (attempts : nat) (delay : duration) : duration :=
  match attempts with
  | O => delay
  | S n => if delay <? 5 * Minute then double_delay n (2 * delay) else delay
  end.

Definition retry_delay (ordinaryAttempts : Z) : duration := double_delay (Z.to_nat ordinaryAttempts) (5 * Second).

(** ** The world of the Controller *)

Record StartSnapshotRequest := {
  sq_JobID : Z;
  sq_WorkflowID : string;
  sq_SnapshotID : string;
  sq_GlobalUserID : Z;
  sq_Handle : string;
  sq_ActivityEpoch : Z;
  sq_TargetNodeID : Z;
  sq_TargetTransferURL : string;
  sq_TransferCapability : string;
  sq_CapabilityExpires : time;
  sq_DestinationKind : string;
  sq_TransferMode : string;
  sq_RelayTaskID : string;
  sq_RelayUploadURL : string;
  sq_RelayUploadToken : string;
  sq_RelayTargetKey : string
}.

Record StartRelayReceiveRequest := {
  rr_WorkflowID : string;
  rr_SnapshotID : string;
  rr_RelayTaskID : string;
  rr_RelayDownloadURL : string;
  rr_RelayDownloadToken : string;
  rr_TransferCapability : string;
  rr_CapabilityExpires : time
}.

(** The commands the executor sends, with their payloads. *)
Inductive agent_command :=
| prepare_snapshot_receive (p : PrepareSnapshotReceiveRequest)
| start_snapshot (p : StartSnapshotRequest)
| start_relay_receive (p : StartRelayReceiveRequest)
| get_snapshot_receipt (workflowID snapshotID : string)
| restore_user_account (p : WorkflowTargetAccountProvision).

(** The fields of a result that the executor reads. *)
Record agentSummary := {
  as_Snapshot : option SnapshotTransferReceipt;
  as_RelayPublicKey : string;
  as_LocalUserID : string
}.

(** A result, or an error with its code (agentCommandErrorCode), which is empty when
    the error is not the Agent's, and its text. *)
Inductive agent_reply :=
| Replied (s : agentSummary)
| CommandFailed (code text : string).

(** A statement takes effect and is answered, never arrives, or its answer is lost. *)
Inductive db_fate := DbAnswers | DbDown | DbLost.

Record ctrlEnv := {
  ce_now : time;
  ce_uuid : option string;
  ce_fate : db_fate;
  ce_later : WDB -> WDB;
  ce_reply : agent_command -> agent_reply;
  ce_enqueue : option string;
  ce_cancelled : bool;
  ce_newid : Z -> string;
  ce_copy : string;
  ce_lease_error : option string;
  ce_slot : bool;
  ce_ready : bool;
  ce_locked : string -> bool;
  ce_hint : list Z
}.

(** The database, and the commands enqueued so far, to which node and under which
    operation, the latest first. *)
Record ctrl := { cw_db : WDB; cw_sent : list (Z * agent_command * string) }.

Definition cproc (A : Type) : Type := proc (E := ctrlEnv) (W := ctrl) A.

Definition db_unavailable : string := "database unavailable".
Definition context_canceled : string := "context canceled".
Definition deadline : string := "context deadline exceeded".

(** A call of the store. *)
Definition store {A} (f : ctrlEnv -> WDB -> result A * WDB) : cproc (result A) :=
  call (fun e w => match ce_fate e with
  | DbDown => (Fail db_unavailable, w)
  | DbAnswers => let '(r, d) := f e (cw_db w) in (r, {| cw_db := d; cw_sent := cw_sent w |})
  | DbLost => let '(_, d) := f e (cw_db w) in (Fail db_unavailable, {| cw_db := d; cw_sent := cw_sent w |})
  end).

(** A call that only reads. *)
Definition query {A} (f : WDB -> result A) : cproc (result A) := store (fun _ d => (f d, d)).

(** runAgentCommandWithOperation: enqueue the command and wait for its result. *)
Definition runAgentCommand (node : Z) (c : agent_command) (operationID : string) : cproc agent_reply :=
  call (fun e w => (ce_reply e c, {| cw_db := cw_db w; cw_sent := (node, c, operationID) :: cw_sent w |})).

(** enqueueAgentCommand: only enqueue it. *)
Definition enqueueAgentCommand (node : Z) (c : agent_command) (operationID : string) : cproc (option string) :=
  call (fun e w => (ce_enqueue e, {| cw_db := cw_db w; cw_sent := (node, c, operationID) :: cw_sent w |})).

(** ** Configuration *)

Record parsedURL := { pu_Scheme : string; pu_Host : string; pu_User : bool; pu_RawQuery : string; pu_Fragment : string; pu_Path : string }.

Record ctrlConfig := {
  cc_workflowWorkerID : string;
  cc_secretKey : string;
  cc_RelayPublicURL : string;
  cc_RelayDataDir : string;
  cc_RelayMaxBytes : Z;
  cc_RelayRetentionMin : Z;
  cc_RelayMaxConcurrent : Z;
  cc_RetryMax : Z
}.

(** [url_Parse] and [url_String] are net/url's. *)
Context (url_Parse : string -> option parsedURL) (url_String : parsedURL -> string) (cfg : ctrlConfig).

Definition relayAvailable : bool :=
  negb (String.eqb (cc_RelayPublicURL cfg) "") && negb (String.eqb (cc_RelayDataDir cfg) "")
  && (0 <? cc_RelayMaxBytes cfg) && (0 <? cc_RelayRetentionMin cfg) && (0 <? cc_RelayMaxConcurrent cfg).

Fixpoint trim_right_slashes (l : list ascii) : list ascii :=
  match l with
  | [] => []
  | c :: r => match trim_right_slashes r with
              | [] => if byte_val c =? 47 then [] else [c]
              | r' => c :: r'
              end
  end.

Definition snapshotRelayEndpoint (publicURL taskID : string) : option string :=
  match url_Parse publicURL with
  | None => None
  | Some base =>
      if String.eqb (pu_Host base) "" || pu_User base || negb (String.eqb (pu_RawQuery base) "")
         || negb (String.eqb (pu_Fragment base) "")
         || (negb (String.eqb (pu_Scheme base) "https") && negb (String.eqb (pu_Scheme base) "http"))
         || negb (isUUID taskID)
      then None
      else Some (url_String {| pu_Scheme := pu_Scheme base; pu_Host := pu_Host base; pu_User := pu_User base;
        pu_RawQuery := pu_RawQuery base; pu_Fragment := pu_Fragment base;
        pu_Path := of_bytes (trim_right_slashes (bytes_of (pu_Path base))) +:+ "/relay/v1/transfers/" +:+ taskID |})
  end.

Definition nodeHasSnapshotDataPath (v : NodeView) : bool :=
  negb (String.eqb (nt_TransferURL (nv_Transfer v)) "") || relayAvailable.

Definition snapshotTransferMode (v : NodeView) : result string :=
  if negb (String.eqb (nt_TransferURL (nv_Transfer v)) "") then Ok "direct"%string
  else if relayAvailable then Ok "relay"%string
  else Fail "目标节点没有直连数据地址，且总控加密中转未启用".

(** ** Failing and retrying *)

Definition GetBackupJob (id : Z) (d : WDB) : result (option BackupJob) := Ok (wd_jobs d !! id).

Definition is_aborted (j : result (option BackupJob)) : bool :=
  match j with Ok (Some j) => String.eqb (bj_Status j) "aborted" | _ => false end.

Definition user_resumed : string := "用户恢复使用，取消未发布快照".

Definition failSnapshotWorkflow (jobID : Z) (workflowID code summary : string) : cproc unit :=
  let* current := query (GetBackupJob jobID) in
  if is_aborted current then
    let* _ := store (fun e d => CancelSnapshotWorkflow (ce_now e) workflowID user_resumed (ce_now e) d) in Ret tt
  else
    let* _ := store (fun e d => FailSnapshotWorkflow (ce_now e) workflowID code summary (ce_now e) d) in Ret tt.

Definition retrySnapshotWorkflow (x : SnapshotWorkflowExecution) (code summary : string) (cause : option string)
  : cproc (option string) :=
  let* cancelled := ask ce_cancelled in
  if cancelled then Ret (Some context_canceled) else
  let* current := query (GetBackupJob (ex_LegacyBackupJobID x)) in
  match current with
  | Fail e => Ret (Some e)
  | Ok _ =>
      if is_aborted current then
        let* r := store (fun e d => CancelSnapshotWorkflow (ce_now e) (ex_WorkflowID x) user_resumed (ce_now e) d) in
        match r with
        | Fail e => Ret (Some e)
        | Ok _ => Ret (Some "snapshot workflow aborted"%string)
        end
      else
        let ordinaryAttempts := Z.max 0 (ex_Attempt x - ex_GenerationRecoveries x) in
        let* attempt := store (fun e d => ScheduleSnapshotRetry (ex_WorkflowID x) code summary (ce_now e)
                                            (retry_delay ordinaryAttempts) d) in
        match attempt with
        | Fail e => Ret (Some e)
        | Ok attempt =>
            let maxAttempts := if cc_RetryMax cfg <=? 0 then 3 else cc_RetryMax cfg in
            let* _ := (if maxAttempts <=? attempt - ex_GenerationRecoveries x
                       then failSnapshotWorkflow (ex_LegacyBackupJobID x) (ex_WorkflowID x) code summary else Ret tt) in
            Ret (Some (default code cause))
        end
  end.

Definition deferSnapshotForNodeReadiness (x : SnapshotWorkflowExecution) (code summary : string) : cproc (option string) :=
  let* r := store (fun e d => DeferSnapshotWorkflow (ce_now e) (ex_WorkflowID x) code summary (ce_now e)
                                snapshotNodeReadinessDelay d) in
  match r with
  | Fail e => Ret (Some e)
  | Ok _ => Ret (Some code)
  end.

(** ** Receipts *)

Definition reply_error (r : agent_reply) : option string :=
  match r with Replied _ => None | CommandFailed _ text => Some text end.

Definition reply_receipt (r : agent_reply) : option SnapshotTransferReceipt :=
  match r with Replied s => as_Snapshot s | CommandFailed _ _ => None end.

(** [fmt.Sprintf("prefix:%s:%d", ...)]. *)
Definition step_id (prefix id : string) (attempt : Z) : string := prefix +:+ ":" +:+ id +:+ ":" +:+ pretty attempt.

Definition loadPublishedSnapshotReceipt (x : SnapshotWorkflowExecution) (target : NodeView)
  : cproc (result SnapshotTransferReceipt) :=
  let* r := runAgentCommand (nv_ID target) (get_snapshot_receipt (ex_WorkflowID x) (ex_SnapshotID x))
              (deriveWorkflowOperationID (ex_WorkflowID x) (step_id "target-receipt" (ex_CapabilityID x) (ex_Attempt x))) in
  match r with
  | CommandFailed _ text => Ret (Fail text)
  | Replied s => match as_Snapshot s with
                 | Some receipt => Ret (Ok receipt)
                 | None => Ret (Fail "snapshot receipt missing"%string)
                 end
  end.

Definition completeSnapshotExecution (x : SnapshotWorkflowExecution) (receipt : SnapshotTransferReceipt)
  : cproc (option string) :=
  if sr_RelayPending receipt || negb (String.eqb (sr_SnapshotID receipt) (ex_SnapshotID x))
  then Ret (Some "snapshot receipt scope mismatch"%string)
  else match decodeSnapshotDigest (sr_ManifestSHA256 receipt), decodeSnapshotDigest (sr_ArchiveSHA256 receipt) with
  | Some manifestDigest, Some archiveDigest =>
      let* r := store (fun e d => CompleteSnapshotWorkflow (ce_now e) (ce_newid e) (ce_copy e)
        {| cp_WorkflowID := ex_WorkflowID x; cp_SnapshotID := ex_SnapshotID x; cp_CapabilityHash := ex_CapabilityHash x;
           cp_TargetNodeID := ex_TargetNodeID x; cp_ReplicaKind := ex_DestinationKind x;
           cp_ReplicaOrigin := snapshotReplicaOrigin (ex_Trigger x); cp_ManifestSHA256 := manifestDigest;
           cp_ArchiveSHA256 := archiveDigest; cp_FileCount := sr_FileCount receipt;
           cp_TotalBytes := sr_TotalBytes receipt; cp_Now := ce_now e |} d) in
      match r with Ok _ => Ret None | Fail e => Ret (Some e) end
  | _, _ => Ret (Some "invalid snapshot digest"%string)
  end.

(** A reading of the execution: an error ends the caller with it, a missing row with
    nil. *)
Definition with_execution (workflowID : string) (k : SnapshotWorkflowExecution -> cproc (option string)) : cproc (option string) :=
  let* r := query (GetSnapshotWorkflowExecution workflowID) in
  match r with
  | Fail e => Ret (Some e)
  | Ok None => Ret None
  | Ok (Some x) => k x
  end.

(** ** After a change of generation *)

Definition recoverSnapshotAfterControllerGeneration (x : SnapshotWorkflowExecution) (target : NodeView) : cproc (option string) :=
  let reset :=
    let* r := store (fun e d => ResetRecoveredSnapshotWorkflow (ce_now e) (ex_WorkflowID x) (ex_ControllerGeneration x) (ce_now e) d) in
    match r with Ok _ => Ret None | Fail e => Ret (Some e) end in
  if bool_decide (ex_State x ∈ ["transferring"; "verifying"; "publishing"]) then
    let* r := runAgentCommand (nv_ID target) (get_snapshot_receipt (ex_WorkflowID x) (ex_SnapshotID x))
                (deriveWorkflowOperationID (ex_WorkflowID x)
                   (step_id ("generation-recovery-receipt:" +:+ pretty (ex_ControllerGeneration x)) (ex_CapabilityID x) (ex_Attempt x))) in
    match r with
    | Replied s =>
        match as_Snapshot s with
        | Some receipt =>
            let* p := store (fun e d => PrepareRecoveredSnapshotCompletion (ce_now e) (ex_WorkflowID x)
                                          (ex_ControllerGeneration x) (ce_now e) d) in
            match p with
            | Fail e => Ret (Some e)
            | Ok _ => with_execution (ex_WorkflowID x) (fun recovered => completeSnapshotExecution recovered receipt)
            end
        | None => reset
        end
    | CommandFailed code text =>
        if negb (String.eqb code "snapshot_receipt_unavailable") then Ret (Some text) else reset
    end
  else reset.

(** ** The account of a hot standby *)

Definition provisionSnapshotTargetAccount (x : SnapshotWorkflowExecution) (account : WorkflowTargetAccountProvision)
  (target : NodeView) : cproc (option string) :=
  let* r := runAgentCommand (nv_ID target) (restore_user_account account)
              (deriveWorkflowOperationID (wt_WorkflowID account)
                 (step_id "snapshot-account" (pretty (wt_AccountVersion account)) (ex_Attempt x))) in
  match r with
  | CommandFailed _ text => Ret (Some text)
  | Replied s =>
      if String.eqb (as_LocalUserID s) "" then Ret (Some "snapshot target account identity missing"%string)
      else
        let* p := store (fun e d => CompleteWorkflowTargetAccountProvision (ce_now e) (wt_WorkflowID account)
                                      (wt_AccountVersion account) (as_LocalUserID s) (ce_now e) d) in
        match p with Ok _ => Ret None | Fail e => Ret (Some e) end
  end.

(** What comes before the transfer: a hot standby needs an active account. *)
Definition account_ready (x : SnapshotWorkflowExecution) (target : NodeView) (k : cproc (option string)) : cproc (option string) :=
  if negb (String.eqb (ex_DestinationKind x) "hot_standby") then k else
  let unavailable summary err := retrySnapshotWorkflow x "target_account_unavailable" summary err in
  let active account := if String.eqb (wt_Status account) "active" then k
                        else retrySnapshotWorkflow x "target_account_not_active" "目标账号尚未就绪" None in
  let* r := query (GetWorkflowTargetAccountProvision (ex_WorkflowID x)) in
  match r with
  | Fail e => unavailable "目标账号准备事实不可用"%string (Some e)
  | Ok None => unavailable "目标账号准备事实不可用"%string None
  | Ok (Some account) =>
      if String.eqb (wt_Status account) "pending" then
        let* failed := provisionSnapshotTargetAccount x account target in
        match failed with
        | Some e => retrySnapshotWorkflow x "target_account_provision_failed" "目标账号供应未完成" (Some e)
        | None =>
            let* r := query (GetWorkflowTargetAccountProvision (ex_WorkflowID x)) in
            match r with
            | Fail e => unavailable "目标账号供应回执不可用"%string (Some e)
            | Ok None => unavailable "目标账号供应回执不可用"%string None
            | Ok (Some account) => active account
            end
        end
      else active account
  end.

Definition rotateSnapshotExecutionCapability (x : SnapshotWorkflowExecution) : cproc (result unit) :=
  let* id := ask ce_uuid in
  match id with
  | None => Ret (Fail "rand"%string)
  | Some capabilityID =>
      let digest := sha256 (deriveTransferCapability (cc_secretKey cfg) capabilityID) in
      store (fun e d => RotateSnapshotCapability (ex_WorkflowID x) capabilityID digest
                          (ce_now e + snapshotCapabilityTTL) (ce_now e) d)
  end.

(** ** Transfer by relay *)

Record snapshotRelayExecution := { rx_TaskID : string; rx_Endpoint : string; rx_UploadToken : string; rx_DownloadToken : string }.

Definition prepareSnapshotRelay (x : SnapshotWorkflowExecution) : cproc (result snapshotRelayExecution) :=
  if negb relayAvailable || negb (String.eqb (ex_TransferMode x) "relay")
  then Ret (Fail "encrypted snapshot relay is unavailable"%string)
  else
    let taskID := deriveWorkflowOperationID (ex_WorkflowID x) ("relay-task:" +:+ pretty (ex_Attempt x)) in
    let uploadToken := deriveRelayBearer (cc_secretKey cfg) taskID "upload" in
    let downloadToken := deriveRelayBearer (cc_secretKey cfg) taskID "download" in
    let* now := ask ce_now in
    let* r := store (fun e d => CreateRelayTransfer (ce_now e)
      {| rp_ID := taskID; rp_WorkflowID := ex_WorkflowID x; rp_SnapshotID := ex_SnapshotID x;
         rp_SourceNodeID := ex_SourceNodeID x; rp_TargetNodeID := ex_TargetNodeID x; rp_Attempt := ex_Attempt x;
         rp_UploadTokenHash := sha256 uploadToken; rp_DownloadTokenHash := sha256 downloadToken;
         rp_MaxCiphertextBytes := cc_RelayMaxBytes cfg;
         rp_ExpiresAt := now + cc_RelayRetentionMin cfg * Minute; rp_Now := now |} (ce_later e) d) in
    match r with
    | Fail e => Ret (Fail e)
    | Ok transfer =>
        if negb (String.eqb (rf_ID transfer) taskID) || (rf_ExpiresAt transfer <=? now)
           || String.eqb (rf_State transfer) "expired" || String.eqb (rf_State transfer) "failed"
        then Ret (Fail "encrypted snapshot relay task is not usable"%string)
        else match snapshotRelayEndpoint (cc_RelayPublicURL cfg) taskID with
        | None => Ret (Fail "invalid encrypted relay public URL"%string)
        | Some endpoint => Ret (Ok {| rx_TaskID := taskID; rx_Endpoint := endpoint;
                                      rx_UploadToken := uploadToken; rx_DownloadToken := downloadToken |})
        end
    end.

Definition recoverOrRetryRelaySnapshot (x : SnapshotWorkflowExecution) (target : NodeView) (code summary : string)
  (cause : option string) : cproc (option string) :=
  let* latest := query (GetSnapshotWorkflowExecution (ex_WorkflowID x)) in
  let retry := retrySnapshotWorkflow x code summary cause in
  match latest with
  | Ok (Some latest) =>
      if String.eqb (ex_State latest) "publishing" then
        let* receipt := loadPublishedSnapshotReceipt latest target in
        match receipt with
        | Ok receipt => completeSnapshotExecution latest receipt
        | Fail _ => retry
        end
      else retry
  | _ => retry
  end.

(** The payload by which the target prepares to receive. *)
Definition receive_request (x : SnapshotWorkflowExecution) (relayTaskID : string) : PrepareSnapshotReceiveRequest :=
  {| pq_WorkflowID := ex_WorkflowID x; pq_SnapshotID := ex_SnapshotID x; pq_GlobalUserID := ex_GlobalUserID x;
     pq_Handle := ex_Handle x; pq_DestinationKind := ex_DestinationKind x; pq_SourceNodeID := ex_SourceNodeID x;
     pq_ActivityEpoch := ex_ActivityEpoch x; pq_CapabilityHash := hex_encode (ex_CapabilityHash x);
     pq_ExpiresAt := ex_CapabilityExpires x; pq_RelayTaskID := relayTaskID |}.

(** The step prepare_target is done; the job is shown as running. *)
Definition target_prepared (x : SnapshotWorkflowExecution) (k : cproc (option string)) : cproc (option string) :=
  let* done := store (fun e d => CompleteSnapshotWorkflowStep (ce_now e) (ex_WorkflowID x) "prepare_target" (ce_now e) (ce_later e) d) in
  match done with
  | Fail e => Ret (Some e)
  | Ok _ =>
      let* _ := store (fun e d => UpdateBackupJobStatus (ce_now e) (ex_LegacyBackupJobID x) "running" 0 0 0 "" d) in
      k
  end.

Definition executeRelaySnapshotWorkflow (x : SnapshotWorkflowExecution) (source target : NodeView) (capability : string)
  : cproc (option string) :=
  let* r := prepareSnapshotRelay x in
  match r with
  | Fail e => retrySnapshotWorkflow x "relay_prepare_failed" "加密中转任务准备失败" (Some e)
  | Ok relay =>
      let* prepared := runAgentCommand (nv_ID target) (prepare_snapshot_receive (receive_request x (rx_TaskID relay)))
        (deriveWorkflowOperationID (ex_WorkflowID x) (step_id "prepare-relay-target" (ex_CapabilityID x) (ex_Attempt x))) in
      let failed := retrySnapshotWorkflow x "relay_target_prepare_failed" "目标节点未确认加密中转接收准备" (reply_error prepared) in
      match prepared with
      | CommandFailed _ _ => failed
      | Replied s =>
          if String.eqb (as_RelayPublicKey s) "" then failed else
          target_prepared x (
            let receive := start_relay_receive
              {| rr_WorkflowID := ex_WorkflowID x; rr_SnapshotID := ex_SnapshotID x; rr_RelayTaskID := rx_TaskID relay;
                 rr_RelayDownloadURL := rx_Endpoint relay; rr_RelayDownloadToken := rx_DownloadToken relay;
                 rr_TransferCapability := capability; rr_CapabilityExpires := ex_CapabilityExpires x |} in
            let receiveOperationID := deriveWorkflowOperationID (ex_WorkflowID x) (step_id "receive-relay" (rx_TaskID relay) (ex_Attempt x)) in
            let* failed := enqueueAgentCommand (nv_ID target) receive receiveOperationID in
            match failed with
            | Some e => retrySnapshotWorkflow x "relay_receiver_enqueue_failed" "目标节点加密中转接收任务排队失败" (Some e)
            | None =>
                let* sourceResult := runAgentCommand (nv_ID source) (start_snapshot
                  {| sq_JobID := ex_LegacyBackupJobID x; sq_WorkflowID := ex_WorkflowID x; sq_SnapshotID := ex_SnapshotID x;
                     sq_GlobalUserID := ex_GlobalUserID x; sq_Handle := ex_Handle x; sq_ActivityEpoch := ex_ActivityEpoch x;
                     sq_TargetNodeID := ex_TargetNodeID x; sq_TargetTransferURL := ""; sq_TransferCapability := capability;
                     sq_CapabilityExpires := ex_CapabilityExpires x; sq_DestinationKind := ex_DestinationKind x;
                     sq_TransferMode := "relay"; sq_RelayTaskID := rx_TaskID relay; sq_RelayUploadURL := rx_Endpoint relay;
                     sq_RelayUploadToken := rx_UploadToken relay; sq_RelayTargetKey := as_RelayPublicKey s |})
                  (deriveWorkflowOperationID (ex_WorkflowID x) (step_id "start-relay-source" (rx_TaskID relay) (ex_Attempt x))) in
                let upload_failed := recoverOrRetryRelaySnapshot x target "relay_upload_failed" "源节点未完成加密中转上传" (reply_error sourceResult) in
                match reply_receipt sourceResult with
                | None => upload_failed
                | Some sourceReceipt =>
                    if negb (sr_RelayPending sourceReceipt) then upload_failed else
                    let* targetResult := runAgentCommand (nv_ID target) receive receiveOperationID in
                    match reply_receipt targetResult with
                    | None => recoverOrRetryRelaySnapshot x target "relay_receive_failed" "目标节点未完成加密中转接收" (reply_error targetResult)
                    | Some targetReceipt =>
                        if negb (matchingRelayReceipts sourceReceipt targetReceipt)
                        then retrySnapshotWorkflow x "relay_receipt_mismatch" "加密中转两端回执不一致" None
                        else completeSnapshotExecution x targetReceipt
                    end
                end
            end)
      end
  end.

(** ** Direct transfer *)

Definition executeDirectSnapshot (x : SnapshotWorkflowExecution) (source target : NodeView) (capability : string)
  : cproc (option string) :=
  let* prepared := runAgentCommand (nv_ID target) (prepare_snapshot_receive (receive_request x ""))
    (deriveWorkflowOperationID (ex_WorkflowID x) (step_id "prepare-target" (ex_CapabilityID x) (ex_Attempt x))) in
  match prepared with
  | CommandFailed _ text => retrySnapshotWorkflow x "target_prepare_failed" "目标节点未确认接收准备" (Some text)
  | Replied _ =>
      target_prepared x (
        let* result := runAgentCommand (nv_ID source) (start_snapshot
          {| sq_JobID := ex_LegacyBackupJobID x; sq_WorkflowID := ex_WorkflowID x; sq_SnapshotID := ex_SnapshotID x;
             sq_GlobalUserID := ex_GlobalUserID x; sq_Handle := ex_Handle x; sq_ActivityEpoch := ex_ActivityEpoch x;
             sq_TargetNodeID := ex_TargetNodeID x; sq_TargetTransferURL := nt_TransferURL (nv_Transfer target);
             sq_TransferCapability := capability; sq_CapabilityExpires := ex_CapabilityExpires x;
             sq_DestinationKind := ex_DestinationKind x; sq_TransferMode := ""; sq_RelayTaskID := "";
             sq_RelayUploadURL := ""; sq_RelayUploadToken := ""; sq_RelayTargetKey := "" |})
          (deriveWorkflowOperationID (ex_WorkflowID x) (step_id "start-source" (ex_CapabilityID x) (ex_Attempt x))) in
        match reply_receipt result with
        | Some receipt =>
            if sr_RelayPending receipt
            then retrySnapshotWorkflow x "unexpected_relay_receipt" "直连传输返回了无效中转回执" None
            else completeSnapshotExecution x receipt
        | None =>
            let* latest := query (GetSnapshotWorkflowExecution (ex_WorkflowID x)) in
            let failed :=
              if String.eqb (match result with CommandFailed code _ => code | Replied _ => "" end) "snapshot_direct_unreachable"
                 && relayAvailable then
                let* switched := store (fun e d => SwitchSnapshotWorkflowToRelay (ce_now e) (ex_WorkflowID x) (ce_now e) d) in
                match switched with
                | Fail e => retrySnapshotWorkflow x "relay_switch_failed" "直连失败且无法切换加密中转" (Some e)
                | Ok _ => retrySnapshotWorkflow x "direct_unreachable_relay_queued" "节点直连失败，已排队使用端到端加密中转" (reply_error result)
                end
              else retrySnapshotWorkflow x "snapshot_failed" "源或目标节点未完成快照" (reply_error result) in
            match latest with
            | Ok (Some latest) =>
                if String.eqb (ex_State latest) "publishing" then
                  let* receipt := loadPublishedSnapshotReceipt latest target in
                  match receipt with
                  | Ok receipt => completeSnapshotExecution latest receipt
                  | Fail _ => failed
                  end
                else failed
            | _ => failed
            end
        end)
  end.

(** ** One execution *)

(** The capability is derived again from its id and compared with what is stored. *)
Definition transfer_snapshot (x : SnapshotWorkflowExecution) (source target : NodeView) : cproc (option string) :=
  let capability := deriveTransferCapability (cc_secretKey cfg) (ex_CapabilityID x) in
  if negb (String.eqb (sha256 capability) (ex_CapabilityHash x)) then
    let* _ := failSnapshotWorkflow (ex_LegacyBackupJobID x) (ex_WorkflowID x) "capability_key_mismatch" "控制面密钥无法恢复传输授权" in
    Ret (Some "snapshot capability key mismatch"%string)
  else if String.eqb (ex_TransferMode x) "relay" then executeRelaySnapshotWorkflow x source target capability
  else executeDirectSnapshot x source target capability.

(** The transfer needs a prepared capability that is valid for two more minutes. *)
Definition with_capability (workflowID : string) (x : SnapshotWorkflowExecution) (k : SnapshotWorkflowExecution -> cproc (option string))
  : cproc (option string) :=
  let* now := ask ce_now in
  if negb (String.eqb (ex_CapabilityState x) "prepared") || (ex_CapabilityExpires x <=? now + 2 * Minute) then
    if negb (String.eqb (ex_State x) "quiescing") || String.eqb (ex_CapabilityState x) "consumed"
    then retrySnapshotWorkflow x "capability_expired" "传输授权已过期" None
    else
      let* rotated := rotateSnapshotExecutionCapability x in
      match rotated with
      | Fail e => retrySnapshotWorkflow x "capability_rotate_failed" "传输授权轮换失败" (Some e)
      | Ok _ => with_execution workflowID k
      end
  else k x.

Definition set_ex_State (state : string) (x : SnapshotWorkflowExecution) : SnapshotWorkflowExecution :=
  {| ex_WorkflowID := ex_WorkflowID x; ex_State := state; ex_Attempt := ex_Attempt x;
     ex_GenerationRecoveries := ex_GenerationRecoveries x; ex_ErrorCode := ex_ErrorCode x;
     ex_SnapshotID := ex_SnapshotID x; ex_ActivityEpoch := ex_ActivityEpoch x;
     ex_ControllerGeneration := ex_ControllerGeneration x; ex_GlobalUserID := ex_GlobalUserID x;
     ex_LegacyUserID := ex_LegacyUserID x; ex_Handle := ex_Handle x; ex_SourceNodeID := ex_SourceNodeID x;
     ex_TargetNodeID := ex_TargetNodeID x; ex_CapabilityID := ex_CapabilityID x;
     ex_CapabilityHash := ex_CapabilityHash x; ex_CapabilityExpires := ex_CapabilityExpires x;
     ex_CapabilityState := ex_CapabilityState x; ex_LegacyBackupJobID := ex_LegacyBackupJobID x;
     ex_Trigger := ex_Trigger x; ex_DestinationKind := ex_DestinationKind x; ex_TransferMode := ex_TransferMode x |}.

(** From the scheduled phase on. *)
Definition start_phases (workflowID : string) (x : SnapshotWorkflowExecution) (source target : NodeView) : cproc (option string) :=
  let go x :=
    if String.eqb (ex_State x) "publishing" then
      let* receipt := loadPublishedSnapshotReceipt x target in
      match receipt with
      | Fail e => retrySnapshotWorkflow x "receipt_unavailable" "目标发布回执暂不可用" (Some e)
      | Ok receipt => completeSnapshotExecution x receipt
      end
    else with_capability workflowID x (fun x => transfer_snapshot x source target) in
  if String.eqb (ex_State x) "scheduled" then
    let* r := store (fun e d => SetSnapshotWorkflowState (ce_now e) (ex_WorkflowID x) "scheduled" "quiescing" (ce_now e) d) in
    match r with
    | Fail e => Ret (Some e)
    | Ok _ => go (set_ex_State "quiescing" x)
    end
  else go x.

(** The source, then the deferral that is over, then the account and the phases. *)
Definition source_ready (workflowID : string) (x : SnapshotWorkflowExecution) (source target : NodeView) : cproc (option string) :=
  if negb (snapshotSourceReady source (ex_Trigger x))
  then deferSnapshotForNodeReadiness x "source_not_ready" "源节点尚未就绪"
  else
    let go := account_ready x target (start_phases workflowID x source target) in
    if String.eqb (ex_ErrorCode x) "source_not_ready" || String.eqb (ex_ErrorCode x) "target_not_ready" then
      let* r := store (fun e d => ClearSnapshotWorkflowDeferral (ce_now e) (ex_WorkflowID x) (ce_now e) d) in
      match r with Fail e => Ret (Some e) | Ok _ => go end
    else go.

(** The two nodes of the execution. *)
Definition with_nodes (x : SnapshotWorkflowExecution) (k : NodeView -> NodeView -> cproc (option string)) : cproc (option string) :=
  let node id := query (fun d => Ok (GetNodeByID id d)) in
  let* source := node (ex_SourceNodeID x) in
  match source with
  | Fail e => retrySnapshotWorkflow x "source_unavailable" "源节点不可用" (Some e)
  | Ok None => retrySnapshotWorkflow x "source_unavailable" "源节点不可用" None
  | Ok (Some source) =>
      let* target := node (ex_TargetNodeID x) in
      let unavailable err := retrySnapshotWorkflow x "target_unavailable" "目标数据面不可用" err in
      match target with
      | Fail e => unavailable (Some e)
      | Ok None => unavailable None
      | Ok (Some target) =>
          if (negb (String.eqb (ex_TransferMode x) "relay") && String.eqb (nt_TransferURL (nv_Transfer target)) "")
             || (String.eqb (ex_TransferMode x) "relay" && negb relayAvailable)
          then unavailable None
          else k source target
      end
  end.

Definition execute_with (workflowID : string) (x : SnapshotWorkflowExecution) : cproc (option string) :=
  with_nodes x (fun source target =>
    if negb (snapshotNodeReady target) then
      if String.eqb (ex_ErrorCode x) snapshotGenerationRecovery then
        let* r := store (fun e d => DeferSnapshotWorkflow (ce_now e) (ex_WorkflowID x) snapshotGenerationRecovery
                           "主控换代，等待目标节点就绪后核对快照回执" (ce_now e) snapshotNodeReadinessDelay d) in
        match r with
        | Fail e => Ret (Some e)
        | Ok _ => Ret (Some "target_not_ready"%string)
        end
      else deferSnapshotForNodeReadiness x "target_not_ready" "目标节点尚未就绪"
    else if String.eqb (ex_ErrorCode x) snapshotGenerationRecovery
    then recoverSnapshotAfterControllerGeneration x target
    else source_ready workflowID x source target).

(** What runs under the lease. *)
Definition execute_claimed (workflowID : string) : cproc (option string) :=
  with_execution workflowID (fun x =>
    if String.eqb (ex_State x) "retry_wait" then
      let* r := store (fun e d => ResumeSnapshotRetry workflowID (ce_now e) d) in
      match r with
      | Fail e => Ret (Some e)
      | Ok _ => with_execution workflowID (execute_with workflowID)
      end
    else execute_with workflowID x).

(** The claim, the body, and the deferred release; an error of the lease keeper
    replaces nil and the errors of a cancelled context. *)
Definition executeSnapshotWorkflow (workflowID : string) : cproc (option string) :=
  if String.eqb (cc_workflowWorkerID cfg) "" then Ret (Some "snapshot worker identity unavailable"%string) else
  let* id := ask ce_uuid in
  match id with
  | None => Ret (Some "create snapshot lease identity"%string)
  | Some leaseOwnerID =>
      let* claimed := store (fun e d => ClaimSnapshotWorkflow workflowID leaseOwnerID (ce_now e) snapshotWorkflowLeaseTTL d) in
      match claimed with
      | Fail e => Ret (Some e)
      | Ok false => Ret None
      | Ok true =>
          let* err := execute_claimed workflowID in
          let* lease := ask ce_lease_error in
          let err := match lease, err with
                     | Some le, None => Some le
                     | Some le, Some e => if bool_decide (e ∈ [context_canceled; deadline]) then Some le else Some e
                     | None, err => err
                     end in
          let* _ := store (fun e d => ReleaseSnapshotWorkflow workflowID leaseOwnerID d) in
          Ret err
      end
  end.

(** The keeper of the lease, for a number of ticks: it stops when the context ends
    or a renewal fails. *)
Fixpoint maintainSnapshotWorkflowLease (ticks : nat) (workflowID workerID : string) : cproc (option string) :=
  match ticks with
  | O => Ret None
  | S ticks =>
      let* finished := ask ce_cancelled in
      if finished then Ret None else
      let* r := store (fun e d => RenewSnapshotWorkflow workflowID workerID (ce_now e) snapshotWorkflowLeaseTTL (ce_later e) d) in
      match r with
      | Ok _ => maintainSnapshotWorkflowLease ticks workflowID workerID
      | Fail e =>
          let* finished := ask ce_cancelled in
          Ret (if finished then None else Some ("snapshot workflow lease renewal failed: " +:+ e)%string)
      end
  end.

(** One round of the reconciler: the workflows it may take; each is then executed by
    its own goroutine while there are slots. *)
Definition resumeSnapshotWorkflows : cproc (list string) :=
  let* ready := ask ce_ready in
  if negb ready then Ret [] else
  let* adopted := store (fun e d => AdoptStaleSnapshotWorkflows (ce_now e) (ce_locked e) (ce_now e) 100 d) in
  match adopted with
  | Fail _ => Ret []
  | Ok _ =>
      let* ids := store (fun e d => (Ok (ListResumableSnapshotWorkflowIDs (ce_now e) 100 d), d)) in
      match ids with Ok ids => Ret ids | Fail _ => Ret [] end
  end.

(** ** The choice of a target *)

(** [position[id] = idx] for the ids of the hint, in order; ids without one come
    after all of them. *)
Definition position (hint : list Z) (id : Z) : Z :=
  default (Z.of_nat (length hint))
    (foldl (fun found ik => if ik.2 =? id then Some (Z.of_nat ik.1) else found) None (imap pair hint)).

Definition capacity_state (v : NodeView) : string := cc_State (nd_Capacity (nv_Node v)).

Definition repair_eligible (srcNodeID : Z) (relay : bool) (v : NodeView) : bool :=
  negb (nv_ID v =? srcNodeID) && String.eqb (nd_Role (nv_Node v)) "storage" && nt_IsBackupTarget (nv_Transfer v)
  && (negb (String.eqb (nt_TransferURL (nv_Transfer v)) "") || relay) && nodeAcceptsNewData v.

(** Whether the next eligible node replaces the best so far. *)
Definition repair_better (hint : list Z) (best node : NodeView) : bool :=
  if String.eqb (capacity_state best) "busy" && String.eqb (capacity_state node) "open" then true
  else if String.eqb (capacity_state best) (capacity_state node) then
    let nodePos := position hint (nv_ID node) in
    let bestPos := position hint (nv_ID best) in
    if negb (nodePos =? bestPos) then nodePos <? bestPos else nv_ID node <? nv_ID best
  else false.

Definition chooseStorageRepairTarget (nodes : list NodeView) (srcNodeID : Z) (hint : list Z) (relay : bool) : option NodeView :=
  foldl (fun best node =>
    if negb (repair_eligible srcNodeID relay node) then best
    else match best with
         | None => Some node
         | Some b => if repair_better hint b node then Some node else best
         end) None nodes.

(** A ready replica of one kind on a node that fits. *)
Definition replica_target (srcNodeID : Z) (kind : string) (d : WDB) (rep : (Z * Z) * UserReplica) : option NodeView :=
  let '((_, node), r) := rep in
  if negb (String.eqb (ur_Kind r) kind) || negb (String.eqb (ur_State r) "ready") || (node =? srcNodeID) then None
  else match GetNodeByID node d with
  | Some n =>
      if nodeHasSnapshotDataPath n && nodeAcceptsNewData n
         && ((String.eqb kind "archive" && String.eqb (nd_Role (nv_Node n)) "storage")
             || (String.eqb kind "hot_standby" && String.eqb (nd_Role (nv_Node n)) "compute"))
      then Some n else None
  | None => None
  end.

Definition ListReplicasByUser (userID : Z) (d : WDB) : list ((Z * Z) * UserReplica) :=
  rows_where (fun k _ => k.1 =? userID) (wd_replicas d).

Definition default_target (hint : list Z) (srcNodeID : Z) (nodes : list NodeView) : option NodeView :=
  foldl (fun best n =>
    if (nv_ID n =? srcNodeID) || negb (nt_IsBackupTarget (nv_Transfer n) && nodeHasSnapshotDataPath n && nodeAcceptsNewData n)
    then best
    else match best with
         | None => Some n
         | Some b => if position hint (nv_ID n) <? position hint (nv_ID b) then Some n else best
         end) None nodes.

Fixpoint first_some {A B} (f : A -> option B) (l : list A) : option B :=
  match l with [] => None | x :: r => match f x with Some y => Some y | None => first_some f r end end.

Definition pickBackupTarget (hint : list Z) (userID srcNodeID : Z) (d : WDB) : option (NodeView * string) :=
  let replicas := ListReplicasByUser userID d in
  match first_some (fun kind => (fun n => (n, kind)) <$> first_some (replica_target srcNodeID kind d) replicas)
          ["archive"; "hot_standby"]%string with
  | Some x => Some x
  | None => (fun n => (n, if String.eqb (nd_Role (nv_Node n)) "compute" then "hot_standby" else "archive")%string)
              <$> default_target hint srcNodeID (ListNodes d)
  end.

(** ** Creating a backup *)

(** The legacy user with its global id, 0 without one. *)
Definition GetUserByID (id : Z) (d : WDB) : option (Z * LegacyUser) :=
  (fun us => (default 0 (fst <$> head (rows_where (fun _ g => bool_decide (gu_LegacyUserID g = Some id)) (db_users (wd_core d)))), us))
    <$> db_legacy (wd_core d) !! id.

Definition uuids4 (k : string -> string -> string -> string -> cproc (option string)) : cproc (option string) :=
  let* a := ask ce_uuid in
  let* b := ask ce_uuid in
  let* c := ask ce_uuid in
  let* d := ask ce_uuid in
  match a, b, c, d with
  | Some a, Some b, Some c, Some d => k a b c d
  | _, _, _, _ => Ret (Some "rand"%string)
  end.

Definition dispatchSnapshotWorkflow (workflowID : string) (executeInline : bool) : cproc (option string) :=
  if negb executeInline then Ret None else
  let* slot := ask ce_slot in
  if slot then executeSnapshotWorkflow workflowID else Ret None.

Definition createUserBackup (userID srcNodeID : Z) (trigger : string) (executeInline : bool) : cproc (option string) :=
  let* ready := ask ce_ready in
  if negb ready then Ret (Some "control plane not ready"%string)
  else if String.eqb trigger "storage_repair"
  then Ret (Some "storage repair must be created by the durable repair reconciler"%string)
  else
  let* user := query (fun d => Ok (GetUserByID userID d)) in
  match user with
  | Fail e => Ret (Some e)
  | Ok None => Ret None
  | Ok (Some (globalID, _)) =>
  let* src := query (fun d => Ok (GetNodeByID srcNodeID d)) in
  match src with
  | Fail e => Ret (Some e)
  | Ok None => Ret None
  | Ok (Some src) =>
  let* hint := ask ce_hint in
  let* picked := query (fun d => Ok (pickBackupTarget hint userID srcNodeID d)) in
  match picked with
  | Fail _ | Ok None => Ret None
  | Ok (Some (dst, kind)) =>
  match snapshotTransferMode dst with
  | Fail e => Ret (Some e)
  | Ok transferMode =>
  let* job := store (fun e d => CreateBackupJob (ce_now e) userID srcNodeID (nv_ID dst) trigger "pending" d) in
  match job with
  | Fail e => Ret (Some e)
  | Ok jobID =>
  uuids4 (fun workflowID operationID snapshotID capabilityID =>
    let capabilityHash := sha256 (deriveTransferCapability (cc_secretKey cfg) capabilityID) in
    let* workflow := store (fun e d => CreateSnapshotWorkflow (ce_now e)
      {| sp_WorkflowID := workflowID; sp_OperationID := operationID; sp_SnapshotID := snapshotID;
         sp_CapabilityID := capabilityID; sp_CapabilityHash := capabilityHash; sp_LegacyBackupJobID := jobID;
         sp_LegacyUserID := userID; sp_GlobalUserID := globalID; sp_SourceNodeID := nv_ID src;
         sp_TargetNodeID := nv_ID dst; sp_DestinationKind := kind; sp_TransferMode := transferMode;
         sp_IndependentReconciliationID := ""; sp_IndependentMarker := ""; sp_RetirementItemID := "";
         sp_RetirementTrigger := ""; sp_CapabilityExpires := ce_now e + snapshotCapabilityTTL; sp_Now := ce_now e |} d) in
    match workflow with
    | Fail e =>
        let* _ := store (fun en d => UpdateBackupJobStatus (ce_now en) jobID "failed" 0 0 0 "快照工作流创建失败" d) in
        Ret (Some e)
    | Ok workflow => dispatchSnapshotWorkflow (sw_WorkflowID workflow) executeInline
    end)
  end end end end end.

(** ** Every action of the executor is a step of the store *)

(** An event of SnapshotLife.v, or a change elsewhere. *)
Definition db_step (d d' : WDB) : Prop := (exists ev, d' = snapshot_effect ev d) \/ same_flow d d'.

Definition ctrl_steps (w w' : ctrl) : Prop := rtc db_step (cw_db w) (cw_db w').

#[export] Instance ctrl_steps_preorder : PreOrder ctrl_steps.
Proof. split; [intros w; apply rtc_refl | intros w1 w2 w3 H1 H2; unfold ctrl_steps in *; by etrans]. Qed.

Lemma event_step ev d : db_step d (snapshot_effect ev d).
Proof. left. by exists ev. Qed.

Lemma moves_store {A} (f : ctrlEnv -> WDB -> result A * WDB) :
  (forall e d, db_step d (f e d).2) -> moves ctrl_steps (store f).
Proof.
  intros Hf. apply moves_call. intros e w. specialize (Hf e (cw_db w)). unfold ctrl_steps.
  destruct (ce_fate e), (f e (cw_db w)) as [r d]; cbn in *; (by apply rtc_once) || done.
Qed.

Lemma moves_query {A} (f : WDB -> result A) : moves ctrl_steps (query f).
Proof. apply moves_store. intros e d. by right. Qed.

Lemma moves_agent node c op : moves ctrl_steps (runAgentCommand node c op).
Proof. apply moves_call. intros e w. apply rtc_refl. Qed.

Lemma moves_enqueue node c op : moves ctrl_steps (enqueueAgentCommand node c op).
Proof. apply moves_call. intros e w. apply rtc_refl. Qed.

Lemma account_flow user node l a m now : tx_rel same_flow (activate_account user node l a m now).
Proof. intros d u d' E. unfold activate_account in E. destruct (local_user_taken _ _ _ _); [done|]. by injection E as _ <-. Qed.

Lemma provision_flow clock wid v l now d : same_flow d (CompleteWorkflowTargetAccountProvision clock wid v l now d).2.
Proof.
  unfold CompleteWorkflowTargetAccountProvision. destruct (_ || _); [done|]. apply (tx_rel_run same_flow).
  apply tx_rel_bind; [exact _ | tx_frame | intros id]. apply tx_rel_bind; [exact _ | tx_frame | intros [[[[u n] st] a] m]].
  destruct (String.eqb _ _); tx_frame. apply account_flow.
Qed.

Lemma create_relay_flow clock p later d : same_flow d (CreateRelayTransfer clock p later d).2.
Proof.
  unfold CreateRelayTransfer. destruct (negb _); [done|]. unfold create_relay. cbv zeta. destruct (_ <=? _); [done|].
  assert (tx_rel same_flow (insert_relay p (snapshot_relay_source p) (now_or clock (rp_Now p)))) as Hi.
  { unfold insert_relay. tx_frame. intros d0 o d1 E. destruct (snapshot_relay_source _ _ _ _) as [[sc g]|]; [|by simplify_eq].
    destruct (task_of _ _ _ _); [by simplify_eq|]. destruct (wd_relays d0 !! _); [done|]. by simplify_eq. }
  apply (tx_rel_run same_flow _ d) in Hi. by destruct (runTx _ d) as [[[o|]|e] d'].
Qed.

Lemma create_job_flow clock u s t tr st d : same_flow d (CreateBackupJob clock u s t tr st d).2.
Proof. unfold CreateBackupJob. apply (tx_rel_run same_flow), insert_job_flow. Qed.

Ltac store_event :=
  cbv beta;
  lazymatch goal with
  | |- db_step _ (ClaimSnapshotWorkflow _ _ _ _ _).2 => exact (event_step (SClaim _ _ _ _) _)
  | |- db_step _ (ReleaseSnapshotWorkflow _ _ _).2 => exact (event_step (SRelease _ _) _)
  | |- db_step _ (RenewSnapshotWorkflow _ _ _ _ _ _).2 => exact (event_step (SRenew _ _ _ _ _) _)
  | |- db_step _ (AdoptStaleSnapshotWorkflows _ _ _ _ _).2 => exact (event_step (SAdopt _ _ _ _) _)
  | |- db_step _ (PrepareRecoveredSnapshotCompletion _ _ _ _ _).2 => exact (event_step (SPrepare _ _ _ _) _)
  | |- db_step _ (ResetRecoveredSnapshotWorkflow _ _ _ _ _).2 => exact (event_step (SReset _ _ _ _) _)
  | |- db_step _ (ScheduleSnapshotRetry _ _ _ _ _ _).2 => exact (event_step (SRetry _ _ _ _ _) _)
  | |- db_step _ (ResumeSnapshotRetry _ _ _).2 => exact (event_step (SResume _ _) _)
  | |- db_step _ (DeferSnapshotWorkflow _ _ _ _ _ _ _).2 => exact (event_step (SDefer _ _ _ _ _ _) _)
  | |- db_step _ (ClearSnapshotWorkflowDeferral _ _ _ _).2 => exact (event_step (SClear _ _ _) _)
  | |- db_step _ (SwitchSnapshotWorkflowToRelay _ _ _ _).2 => exact (event_step (SSwitch _ _ _) _)
  | |- db_step _ (RotateSnapshotCapability _ _ _ _ _ _).2 => exact (event_step (SRotate _ _ _ _ _) _)
  | |- db_step _ (CompleteSnapshotWorkflowStep _ _ _ _ _ _).2 => exact (event_step (SStep _ _ _ _ _) _)
  | |- db_step _ (CompleteSnapshotWorkflow _ _ _ _ _).2 => exact (event_step (SComplete _ _ _ _) _)
  | |- db_step _ (FailSnapshotWorkflow _ _ _ _ _ _).2 => exact (event_step (SFail _ _ _ _ _) _)
  | |- db_step _ (CancelSnapshotWorkflow _ _ _ _ _).2 => exact (event_step (SCancel _ _ _ _) _)
  | |- db_step _ (UpdateBackupJobStatus _ _ _ _ _ _ _ _).2 => exact (event_step (SJobStatus _ _ _ _ _ _ _) _)
  | |- db_step _ (CreateSnapshotWorkflow _ _ _).2 => exact (event_step (SCreate _ _) _)
  | |- db_step _ (SetSnapshotWorkflowState _ _ _ _ _ _).2 => exact (event_step (SBegin _ _ _) _)
  | |- db_step _ (CompleteWorkflowTargetAccountProvision _ _ _ _ _ _).2 => right; apply provision_flow
  | |- db_step _ (CreateRelayTransfer _ _ _ _).2 => right; apply create_relay_flow
  | |- db_step _ (CreateBackupJob _ _ _ _ _ _ _).2 => right; apply create_job_flow
  | |- db_step _ (_, _).2 => right; reflexivity
  end.

Create HintDb executor discriminated.
#[local] Hint Constants Opaque : executor.

(** Through the branches of a procedure; [st] and [ag] close the calls of the store
    and the commands. *)
Ltac moves_with st ag :=
  cbv zeta;
  repeat match goal with
  | |- moves _ (pbind _ _) => apply moves_bind; [|intros ?]
  | |- moves _ (Ret _) => exact I
  | |- moves _ (ask _) => apply moves_ask; exact _
  | |- moves _ (query _) => st
  | |- moves _ (store _) => st
  | |- moves _ (runAgentCommand _ _ _) => ag
  | |- moves _ (enqueueAgentCommand _ _ _) => ag
  | |- moves _ (if ?b then _ else _) => destruct b eqn:?
  | |- moves _ (match ?x with _ => _ end) => destruct x eqn:?
  | |- moves _ _ => solve [eauto 3 with executor]
  end.

Ltac moves_on := moves_with
  ltac:(first [apply moves_query | apply moves_store; intros ? ?; store_event])
  ltac:(first [apply moves_agent | apply moves_enqueue]).

Lemma fail_moves j wid c s : moves ctrl_steps (failSnapshotWorkflow j wid c s).
Proof. unfold failSnapshotWorkflow. moves_on. Qed.
#[local] Hint Resolve fail_moves : executor.

Lemma retry_moves x c s cause : moves ctrl_steps (retrySnapshotWorkflow x c s cause).
Proof. unfold retrySnapshotWorkflow. moves_on. Qed.
#[local] Hint Resolve retry_moves : executor.

Lemma defer_moves x c s : moves ctrl_steps (deferSnapshotForNodeReadiness x c s).
Proof. unfold deferSnapshotForNodeReadiness. moves_on. Qed.

Lemma receipt_moves x v : moves ctrl_steps (loadPublishedSnapshotReceipt x v).
Proof. unfold loadPublishedSnapshotReceipt. moves_on. Qed.

Lemma complete_moves x r : moves ctrl_steps (completeSnapshotExecution x r).
Proof. unfold completeSnapshotExecution. moves_on. Qed.

Lemma with_execution_moves wid k : (forall x, moves ctrl_steps (k x)) -> moves ctrl_steps (with_execution wid k).
Proof. intros Hk. unfold with_execution. moves_on. Qed.
#[local] Hint Resolve defer_moves receipt_moves complete_moves with_execution_moves : executor.

Lemma recover_moves x v : moves ctrl_steps (recoverSnapshotAfterControllerGeneration x v).
Proof. unfold recoverSnapshotAfterControllerGeneration. moves_on. Qed.

Lemma provision_moves x a v : moves ctrl_steps (provisionSnapshotTargetAccount x a v).
Proof. unfold provisionSnapshotTargetAccount. moves_on. Qed.

Lemma account_moves x v k : moves ctrl_steps k -> moves ctrl_steps (account_ready x v k).
Proof. intros Hk. pose proof provision_moves. unfold account_ready. moves_on; auto. Qed.

Lemma rotate_moves x : moves ctrl_steps (rotateSnapshotExecutionCapability x).
Proof. unfold rotateSnapshotExecutionCapability. moves_on. Qed.

Lemma relay_moves x : moves ctrl_steps (prepareSnapshotRelay x).
Proof. unfold prepareSnapshotRelay. moves_on. Qed.

Lemma relay_retry_moves x v c s cause : moves ctrl_steps (recoverOrRetryRelaySnapshot x v c s cause).
Proof. unfold recoverOrRetryRelaySnapshot. moves_on. Qed.

Lemma prepared_moves x k : moves ctrl_steps k -> moves ctrl_steps (target_prepared x k).
Proof. intros Hk. unfold target_prepared. moves_on; auto. Qed.
#[local] Hint Resolve account_moves rotate_moves relay_moves relay_retry_moves prepared_moves : executor.

Lemma execute_relay_moves x s v c : moves ctrl_steps (executeRelaySnapshotWorkflow x s v c).
Proof. unfold executeRelaySnapshotWorkflow. moves_on. apply prepared_moves. moves_on. Qed.

Lemma execute_direct_moves x s v c : moves ctrl_steps (executeDirectSnapshot x s v c).
Proof. unfold executeDirectSnapshot. moves_on. apply prepared_moves. moves_on. Qed.
#[local] Hint Resolve execute_relay_moves execute_direct_moves : executor.

Lemma transfer_moves x s v : moves ctrl_steps (transfer_snapshot x s v).
Proof. unfold transfer_snapshot. moves_on. Qed.

Lemma with_capability_moves wid x k : (forall x, moves ctrl_steps (k x)) -> moves ctrl_steps (with_capability wid x k).
Proof. intros Hk. unfold with_capability. moves_on. Qed.
#[local] Hint Resolve transfer_moves with_capability_moves recover_moves : executor.

Lemma start_moves wid x s v : moves ctrl_steps (start_phases wid x s v).
Proof. unfold start_phases. moves_on. Qed.
#[local] Hint Resolve start_moves : executor.

Lemma source_moves wid x s v : moves ctrl_steps (source_ready wid x s v).
Proof. unfold source_ready. moves_on. Qed.

Lemma with_nodes_moves x k : (forall s v, moves ctrl_steps (k s v)) -> moves ctrl_steps (with_nodes x k).
Proof. intros Hk. unfold with_nodes. moves_on. Qed.
#[local] Hint Resolve source_moves : executor.

Lemma execute_with_moves wid x : moves ctrl_steps (execute_with wid x).
Proof. unfold execute_with. apply with_nodes_moves. intros s v. moves_on. Qed.
#[local] Hint Resolve execute_with_moves : executor.

Lemma execute_claimed_moves wid : moves ctrl_steps (execute_claimed wid).
Proof. unfold execute_claimed. apply with_execution_moves. intros x. moves_on. Qed.
#[local] Hint Resolve execute_claimed_moves : executor.

Lemma execute_moves wid : moves ctrl_steps (executeSnapshotWorkflow wid).
Proof. unfold executeSnapshotWorkflow. moves_on. Qed.
#[local] Hint Resolve execute_moves : executor.

Lemma maintain_moves ticks wid worker : moves ctrl_steps (maintainSnapshotWorkflowLease ticks wid worker).
Proof. induction ticks as [|n IH]; cbn [maintainSnapshotWorkflowLease]; [exact I|]. moves_on; auto. Qed.

Lemma resume_moves : moves ctrl_steps resumeSnapshotWorkflows.
Proof. unfold resumeSnapshotWorkflows. moves_on. Qed.

Lemma backup_moves u n t inline : moves ctrl_steps (createUserBackup u n t inline).
Proof. unfold createUserBackup, uuids4, dispatchSnapshotWorkflow. moves_on. Qed.

(** ** The executor keeps to the life of a workflow *)

Lemma db_step_life d d' :
  db_step d d' -> flow_inv d -> caps_wf d ->
  flow_inv d' /\ caps_wf d'
  /\ forall id a, row_flow d id = Some a -> finished (fl_phase a) = true -> row_flow d' id = Some a.
Proof.
  intros [[ev ->]|Hs] Hi Hc.
  - destruct (event_flows ev d Hi) as [Hi' Hd]. split; [done|]. split; [by apply event_caps|].
    intros id a Ha Hf. specialize (Hd id). rewrite Ha in Hd. by eapply finished_stuck.
  - pose proof (same_flow_caps _ _ Hs Hc) as Hc'. destruct (same_flow_flows stay _ _ Hs Hi) as [Hi' Hd].
    split; [done|]. split; [done|]. intros id a Ha _. destruct (Hd id) as [->|[[] _]]. done.
Qed.

Lemma db_steps_life d d' :
  rtc db_step d d' -> flow_inv d -> caps_wf d ->
  flow_inv d' /\ caps_wf d'
  /\ forall id a, row_flow d id = Some a -> finished (fl_phase a) = true -> row_flow d' id = Some a.
Proof.
  induction 1 as [d|d1 d2 d3 Hd _ IH]; intros Hi Hc; [done|].
  destruct (db_step_life _ _ Hd Hi Hc) as (Hi2 & Hc2 & Hf). destruct (IH Hi2 Hc2) as (Hi3 & Hc3 & Hf3).
  split_and!; try done. intros id a Ha Hfin. by apply Hf3, Hfin; apply Hf.
Qed.

(** What the Controller may have running: executions, lease keepers, rounds of the
    reconciler and new backups. *)
Inductive worker : cproc (option string) -> Prop :=
| worker_execute wid : worker (executeSnapshotWorkflow wid)
| worker_lease ticks wid id : worker (maintainSnapshotWorkflowLease ticks wid id)
| worker_round : worker (pbind resumeSnapshotWorkflows (fun _ => Ret None))
| worker_backup user node trigger inline : worker (createUserBackup user node trigger inline).

Lemma worker_moves p : worker p -> moves ctrl_steps p.
Proof.
  intros [wid|ticks wid id| |u n t i]; [apply execute_moves | apply maintain_moves | | apply backup_moves].
  apply moves_bind; [apply resume_moves | by intros].
Qed.

(** A schedule of the Controller: its workers take turns and new ones start, and any
    operation of the store runs in between. *)
Definition scheduled (t : turn (E := ctrlEnv) (W := ctrl) (option string)) : Prop :=
  match t with
  | Turn _ _ => True
  | Spawn _ p => worker p
  | Outside f => forall w, rtc db_step (cw_db w) (cw_db (f w))
  end.

(** Whatever workers of the Controller run at once, in whatever order their
    statements interleave with each other and with any other operation of the store,
    and whichever statements or answers are lost, the constraints on workflows and
    capabilities hold, and a finished workflow stays finished. *)
Theorem executor_keeps_constraints w ts :
  flow_inv (cw_db w) -> caps_wf (cw_db w) -> Forall scheduled ts ->
  let w' := sys_world (sys_run {| sys_world := w; sys_pool := ∅ |} ts) in
  flow_inv (cw_db w') /\ caps_wf (cw_db w')
  /\ forall id a, row_flow (cw_db w) id = Some a -> finished (fl_phase a) = true -> row_flow (cw_db w') id = Some a.
Proof.
  intros Hi Hc Hts w'. refine (db_steps_life _ _ _ Hi Hc).
  refine (proj1 (pool_moves ctrl_steps {| sys_world := w; sys_pool := ∅ |} ts _ _)); [apply map_Forall_empty|].
  eapply Forall_impl; [exact Hts|]. intros [tid e|tid p|f]; cbn; [done | apply worker_moves | done].
Qed.

(** ** Statements that succeed *)

(** The columns that the constraints on workflows read. *)
Definition checked (w : Workflow) :=
  (wf_OperationID w, wf_Type w, wf_State w, wf_UserID w, wf_ControllerGeneration w, wf_Attempt w,
   wf_GenerationRecoveryCount w, wf_CleanupState w, wf_TransferMode w).

Lemma checked_ok w w' : checked w' = checked w -> workflow_ok w' = workflow_ok w.
Proof. unfold checked. intros [= E1 E2 E3 E4 E5 E6 E7 E8 E9]. unfold workflow_ok. by rewrite E2, E3, E5, E6, E7, E8, E9. Qed.

Lemma checked_holds u w w' : checked w' = checked w -> holds_user u w' = holds_user u w.
Proof. unfold checked. intros [= E1 E2 E3 E4 E5 E6 E7 E8 E9]. unfold holds_user, is_open. by rewrite E2, E3, E4. Qed.

(** Replacing a row without touching those columns. *)
Lemma insert_lookup_checked (m : gmap string Workflow) id w w' k v :
  m !! id = Some w -> checked w' = checked w -> <[id := w']> m !! k = Some v ->
  exists v0, m !! k = Some v0 /\ checked v = checked v0.
Proof.
  intros Hl Hc [[<- <-]|[_ Hk]]%lookup_insert_Some; [by exists w | by exists v].
Qed.

Lemma rows_where_gone {V} (q q' : string -> V -> bool) (m m' : gmap string V) :
  (forall k v, m' !! k = Some v -> exists v0, m !! k = Some v0 /\ q' k v = q k v0) ->
  Nat.eqb (length (rows_where q m)) 0 = true -> Nat.eqb (length (rows_where q' m')) 0 = true.
Proof.
  intros Hq E. rewrite (rows_where_empty q' m'); [done|]. intros k v Hk. destruct (Hq k v Hk) as (v0 & Hk0 & ->).
  by eapply rows_where_none.
Qed.

Lemma workflows_ok_insert m id w w' :
  workflows_ok m = true -> m !! id = Some w -> checked w' = checked w -> workflows_ok (<[id := w']> m) = true.
Proof.
  intros Hok Hl Hc. unfold workflows_ok in *. revert Hok. apply rows_where_gone. intros k v Hk.
  destruct (insert_lookup_checked m id w w' k v Hl Hc Hk) as (v0 & Hk0 & Ev). exists v0. split; [done|].
  assert (forall q : string -> Workflow -> bool, (forall k v v0, checked v = checked v0 -> q k v = q k v0) ->
    Nat.eqb (length (rows_where q (<[id := w']> m))) 0 = Nat.eqb (length (rows_where q m)) 0) as Hsame.
  { intros q Hq. apply eq_true_iff_eq. split; apply rows_where_gone; intros k1 v1 Hk1.
    - destruct (decide (k1 = id)) as [->|Hne].
      + exists w'. rewrite lookup_insert_eq. split; [done|]. assert (v1 = w) as -> by congruence. by apply Hq.
      + exists v1. by rewrite lookup_insert_ne.
    - destruct (insert_lookup_checked m id w w' k1 v1 Hl Hc Hk1) as (v2 & ? & E2). exists v2. split; [done|]. by apply Hq. }
  rewrite (checked_ok v v0) by done. assert (wf_UserID v = wf_UserID v0 /\ wf_OperationID v = wf_OperationID v0) as [Eu Eo].
  { unfold checked in Ev. by injection Ev as ? ? ? ? ? ? ? ? ?. }
  unfold shares_user. rewrite Eu, Eo. rewrite Hsame.
  2:{ intros k1 v1 v2 E. assert (wf_OperationID v1 = wf_OperationID v2) as -> by (unfold checked in E; by injection E). done. }
  destruct (wf_UserID v0) as [u|]; [|done]. rewrite (checked_holds u v v0) by done. rewrite Hsame; [done|].
  intros k1 v1 v2 E. by rewrite (checked_holds u v1 v2).
Qed.

Lemma update_where_one (m : gmap string Workflow) id w (p : Workflow -> bool) f :
  m !! id = Some w -> p w = true -> update_where (fun k v => String.eqb k id && p v) f m = <[id := f w]> m.
Proof.
  intros Hl Hp. apply map_eq. intros k. rewrite update_where_lookup. destruct (decide (k = id)) as [->|Hne].
  - by rewrite Hl, lookup_insert_eq, String.eqb_refl; cbn; rewrite Hp.
  - rewrite lookup_insert_ne by done. destruct (String.eqb_spec k id); [done|]. by destruct (m !! k).
Qed.

Lemma run_update_workflow wid id p f d w :
  uuid_in wid = Some id -> wd_workflows d !! id = Some w -> workflows_ok (wd_workflows d) = true ->
  p d w = true -> checked (f w) = checked w ->
  runTx (update_workflow wid p f) d = (Ok true, put_workflows (<[id := f w]> (wd_workflows d)) d).
Proof.
  intros Hid Hl Hok Hp Hc. unfold runTx, update_workflow, tx_bind, uuid_param. rewrite Hid. cbn.
  unfold update_workflows, write_workflows. rewrite (update_where_one _ id w (p d)) by done.
  rewrite (workflows_ok_insert _ _ w) by done. cbn.
  rewrite (rows_where_single _ _ id w); [done | done | by rewrite String.eqb_refl | intros k v _ E; b2p; done].
Qed.

(** ** Executions that are not disturbed *)

(** Every statement is answered and the context stays alive. *)
Record answering (e : ctrlEnv) : Prop := {
  an_fate : ce_fate e = DbAnswers;
  an_alive : ce_cancelled e = false;
  an_lease : ce_lease_error e = None;
  an_uuid : exists s, ce_uuid e = Some s /\ s <> ""%string
}.

Lemma exec_store {A B} (f : ctrlEnv -> WDB -> result A * WDB) (k : result A -> cproc B) env i w :
  ce_fate (env i) = DbAnswers ->
  exec (pbind (store f) k) env i w
  = exec (k (f (env i) (cw_db w)).1) env (S i) {| cw_db := (f (env i) (cw_db w)).2; cw_sent := cw_sent w |}.
Proof. intros E. cbn. rewrite E. by destruct (f (env i) (cw_db w)). Qed.

Lemma exec_query {A B} (f : WDB -> result A) (k : result A -> cproc B) env i w :
  ce_fate (env i) = DbAnswers -> exec (pbind (query f) k) env i w = exec (k (f (cw_db w))) env (S i) w.
Proof. intros E. unfold query. rewrite exec_store by done. by destruct w. Qed.

Lemma exec_ask {A B} (f : ctrlEnv -> A) (k : A -> cproc B) env i w :
  exec (pbind (ask f) k) env i w = exec (k (f (env i))) env (S i) w.
Proof. done. Qed.

(** What an execution is read from. *)
Definition read_columns (w : Workflow) :=
  (wf_State w, wf_Attempt w, wf_GenerationRecoveryCount w, wf_ErrorCode w, wf_ActivityEpoch w,
   wf_ControllerGeneration w, wf_UserID w, wf_SourceNodeID w, wf_TargetNodeID w, wf_TransferMode w).

Lemma execution_of_row d id w w' :
  wd_workflows d !! id = Some w -> read_columns w' = read_columns w ->
  execution_of (put_workflows (<[id := w']> (wd_workflows d)) d) id = execution_of d id.
Proof.
  unfold read_columns. intros Hl [= E1 E2 E3 E4 E5 E6 E7 E8 E9 E10]. unfold execution_of. cbn [wd_workflows put_workflows].
  rewrite lookup_insert_eq, Hl. unfold joined_execution. by rewrite E1, E2, E3, E4, E5, E6, E7, E8, E9, E10.
Qed.

(** A claim and a release change the lease only. *)
Definition leased (w w' : Workflow) : Prop := exists owner until updated,
  w' = wf_set_LeaseOwner owner (wf_set_LeaseUntil until (wf_set_UpdatedAt updated w)).

Lemma claim_leases wid id worker now ttl d w :
  uuid_in wid = Some id -> wid <> ""%string -> worker <> ""%string -> 0 < ttl ->
  wd_workflows d !! id = Some w -> workflows_ok (wd_workflows d) = true -> workable d w = true -> SnapshotStore.lease_free now w = true ->
  exists w1, leased w w1 /\ wf_LeaseOwner w1 = Some worker
    /\ ClaimSnapshotWorkflow wid worker now ttl d = (Ok true, put_workflows (<[id := w1]> (wd_workflows d)) d).
Proof.
  intros Hid Hwid Hwk Httl Hl Hok Hw Hf. unfold ClaimSnapshotWorkflow.
  destruct (String.eqb_spec wid ""); [done|]. destruct (String.eqb_spec worker ""); [done|].
  destruct (Z.leb_spec ttl 0); [lia|]. cbn.
  erewrite (run_update_workflow _ id _ _ _ w) by (done || by rewrite Hw, Hf).
  eexists. split; [by do 3 eexists|]. split; [|reflexivity]. done.
Qed.

Lemma release_unleases wid id worker d w :
  uuid_in wid = Some id -> wid <> ""%string -> worker <> ""%string ->
  wd_workflows d !! id = Some w -> workflows_ok (wd_workflows d) = true -> wf_LeaseOwner w = Some worker ->
  ReleaseSnapshotWorkflow wid worker d
  = (Ok tt, put_workflows (<[id := wf_set_LeaseOwner None (wf_set_LeaseUntil None w)]> (wd_workflows d)) d).
Proof.
  intros Hid Hwid Hwk Hl Hok Ho. unfold ReleaseSnapshotWorkflow.
  destruct (String.eqb_spec wid ""); [done|]. destruct (String.eqb_spec worker ""); [done|]. cbn.
  pose proof (run_update_workflow wid id (fun _ w => bool_decide (wf_LeaseOwner w = Some worker))
    (fun w => wf_set_LeaseOwner None (wf_set_LeaseUntil None w)) d w Hid Hl Hok) as Hu.
  unfold runTx, tx_bind in *. rewrite bool_decide_true in Hu by done. specialize (Hu eq_refl eq_refl).
  destruct (update_workflow _ _ _ d) as [[b d1]|e]; [|done]. injection Hu as -> ->. done.
Qed.

(** ** A retry that is never counted *)

(** A workflow that was retried, whose capability is not rotated yet and whose target
    lost its data path. *)
Record stranded (d : WDB) (id : string) (w : Workflow) : Prop := {
  sd_row : wd_workflows d !! id = Some w;
  sd_ok : workflows_ok (wd_workflows d) = true;
  sd_workable : workable d w = true;
  sd_state : wf_State w = "quiescing"%string;
  sd_free : wf_LeaseUntil w = None;
  sd_caps : no_capability d id;
  sd_execution : exists x, execution_of d id = Some (Some x) /\ is_Some (node_of d (ex_SourceNodeID x))
    /\ nt_TransferURL (SnapshotStore.transfer_of d (ex_TargetNodeID x)) = ""%string
    /\ ex_TransferMode x = "direct"%string
    /\ forall j, wd_jobs d !! ex_LegacyBackupJobID x = Some j -> bj_Status j <> "aborted"%string
}.

Lemma leased_checked w w' : leased w w' -> checked w' = checked w /\ read_columns w' = read_columns w.
Proof. by intros (o & u & t & ->). Qed.

Lemma stranded_leased d id w w' :
  stranded d id w -> leased w w' -> wf_LeaseUntil w' = None ->
  stranded (put_workflows (<[id := w']> (wd_workflows d)) d) id w'.
Proof.
  intros [Hl Hok Hw Hs _ Hc (x & Hx & Hn & Ht & Hm & Hj)] Hle Hf. destruct (leased_checked _ _ Hle) as [Hck Hrd].
  destruct Hle as (o & u & t & ->). split; cbn; try done.
  - by rewrite lookup_insert_eq.
  - by eapply workflows_ok_insert.
  - exists x. split; [by rewrite (execution_of_row _ _ w)|]. done.
Qed.

(** The joins an execution is read from. *)
Ltac execution_cases E :=
  repeat match type of E with
  | match ?y with _ => _ end = _ => destruct y eqn:?; try done
  | Some (match ?y with _ => _ end) = _ => destruct y eqn:?; try done
  end; injection E as <-.

Lemma execution_workflow d id x : execution_of d id = Some (Some x) -> ex_WorkflowID x = id.
Proof.
  unfold execution_of. intros E. destruct (wd_workflows d !! id); [|done]. unfold joined_execution in E. by execution_cases E.
Qed.

(** A retry that is refused leaves the execution where it was. *)
Lemma refused_retry x code s cause env i c :
  (forall j, answering (env j)) -> uuid_in (ex_WorkflowID x) = Some (ex_WorkflowID x) ->
  no_capability (cw_db c) (ex_WorkflowID x) ->
  (forall w, wd_workflows (cw_db c) !! ex_WorkflowID x = Some w -> wf_Type w ∈ ["snapshot"; "restore"]) ->
  (forall j, wd_jobs (cw_db c) !! ex_LegacyBackupJobID x = Some j -> bj_Status j <> "aborted"%string) ->
  exists e, exec (retrySnapshotWorkflow x code s cause) env i c = (Some e, c, (i + 3)%nat).
Proof.
  intros Ha Hid Hno Hty Hj. unfold retrySnapshotWorkflow. rewrite exec_ask, (an_alive _ (Ha i)).
  rewrite exec_query by apply Ha. unfold GetBackupJob, is_aborted.
  assert (match wd_jobs (cw_db c) !! ex_LegacyBackupJobID x with
          | Some j => String.eqb (bj_Status j) "aborted" | None => false end = false) as ->.
  { destruct (wd_jobs (cw_db c) !! _) as [j|] eqn:E; [|done]. apply String.eqb_neq. by apply (Hj j). }
  cbv zeta. rewrite exec_store by apply Ha.
  match goal with |- context [ScheduleSnapshotRetry ?a ?b ?s ?n ?dl ?d] =>
    destruct (retry_refused d a (ex_WorkflowID x) b s n dl Hid Hno Hty) as [e ->] end.
  exists e. cbn. destruct c. by replace (i + 3)%nat with (S (S (S i))) by lia.
Qed.

Lemma stranded_execution wid id env c w :
  cc_workflowWorkerID cfg <> ""%string -> (forall i, answering (env i)) ->
  uuid_in wid = Some id -> wid <> ""%string -> stranded (cw_db c) id w ->
  exists w' err, leased w w' /\ wf_LeaseUntil w' = None
    /\ run (executeSnapshotWorkflow wid) env c
       = (Some err, {| cw_db := put_workflows (<[id := w']> (wd_workflows (cw_db c))) (cw_db c); cw_sent := cw_sent c |}).
Proof.
  intros Hcfg Ha Hid Hwid Hs. pose proof Hs as [Hl Hok Hw Hst Hf Hc (x & Hx & Hn & Ht & Hm & Hj)].
  destruct c as [d sent]. cbn [cw_db cw_sent] in *. pose proof (execution_workflow _ _ _ Hx) as Ex.
  destruct (an_uuid _ (Ha 0%nat)) as (worker & Hu & Hwk).
  destruct (claim_leases wid id worker (ce_now (env 1%nat)) snapshotWorkflowLeaseTTL d w) as (w1 & Hle & Ho & Ecl); try done.
  { by unfold SnapshotStore.lease_free; rewrite Hf. }
  set (d1 := put_workflows (<[id := w1]> (wd_workflows d)) d).
  assert (execution_of d1 id = Some (Some x)) as Hx1.
  { unfold d1. by rewrite (execution_of_row _ _ w) by (done || by apply leased_checked). }
  assert (wd_workflows d1 !! id = Some w1) as Hl1 by (cbn; by rewrite lookup_insert_eq).
  assert (wf_State w1 = "quiescing"%string /\ wf_Type w1 = wf_Type w) as [Hst1 Hty1] by (by destruct Hle as (?&?&?&->)).
  assert (ex_State x = "quiescing"%string) as Exs.
  { revert Hx1. unfold execution_of. rewrite Hl1. unfold joined_execution. intros E. by execution_cases E. }
  unfold run, executeSnapshotWorkflow. destruct (String.eqb_spec (cc_workflowWorkerID cfg) ""); [done|].
  rewrite exec_ask, Hu. rewrite exec_store by apply Ha. cbn [cw_db cw_sent]. rewrite Ecl. cbn [fst snd]. fold d1.
  rewrite exec_bind. unfold execute_claimed, with_execution. rewrite exec_query by apply Ha. cbn [cw_db].
  unfold GetSnapshotWorkflowExecution at 1. destruct (String.eqb_spec wid ""); [done|]. rewrite Hid, Hx1, Exs.
  change (String.eqb "quiescing" "retry_wait") with false. cbv iota.
  unfold execute_with, with_nodes. cbv zeta. rewrite exec_query by apply Ha.
  destruct Hn as [ns Hns]. unfold GetNodeByID at 1. change (node_of (cw_db {| cw_db := d1; cw_sent := sent |}) (ex_SourceNodeID x)) with (node_of d (ex_SourceNodeID x)).
  rewrite Hns. cbn [fmap option_fmap option_map]. rewrite exec_query by apply Ha.
  destruct (refused_retry x "target_unavailable" "目标数据面不可用" None env 5 {| cw_db := d1; cw_sent := sent |}) as (e & Er).
  { done. } { rewrite Ex. by eapply uuid_canonical. } { rewrite Ex. by eapply same_caps_none. }
  { rewrite Ex. cbn [cw_db]. intros w' Hw'. rewrite Hl1 in Hw'. injection Hw' as <-. rewrite Hty1. unfold workable in Hw. b2p.
    match goal with E : wf_Type w = _ |- _ => rewrite E; set_solver end. }
  { done. }
  match goal with |- context [exec ?p env 5 ?c] => assert (exec p env 5 c = (Some e, {| cw_db := d1; cw_sent := sent |}, 8%nat)) as -> end.
  { change (SnapshotStore.transfer_of d (ex_TargetNodeID x)) with (SnapshotStore.transfer_of d1 (ex_TargetNodeID x)) in Ht.
    unfold GetNodeByID. cbn [cw_db]. destruct (node_of d1 (ex_TargetNodeID x)); cbn [fmap option_fmap option_map]; [|exact Er].
    cbn [nv_Transfer]. rewrite Ht, Hm. exact Er. }
  rewrite exec_ask, (an_lease _ (Ha 8%nat)). rewrite exec_store by apply Ha. cbn [cw_db cw_sent].
  erewrite (release_unleases wid id worker d1 w1) by (done || by eapply workflows_ok_insert, leased_checked).
  eexists _, e. split; [|split; [|cbn; unfold d1, put_workflows; cbn; by rewrite insert_insert_eq]]; [|done].
  destruct Hle as (o & u & t & ->). by eexists _, _, _.
Qed.

(** One execution after the other. *)
Definition executions (wid : string) (envs : list (nat -> ctrlEnv)) (c : ctrl) : ctrl :=
  foldl (fun c env => (run (executeSnapshotWorkflow wid) env c).2) c envs.

Lemma leased_trans w1 w2 w3 : leased w1 w2 -> leased w2 w3 -> leased w1 w3.
Proof. intros (o & u & t & ->) (o2 & u2 & t2 & ->). by exists o2, u2, t2. Qed.

(** C34: a snapshot whose target has lost its data path after a retry is tried again
    without end.  However often it is executed, with every statement answered, it stays
    quiescing with the same number of attempts and due at the same time, no command is
    sent, and no failure is recorded: the retry budget never ends it. *)
Theorem stranded_retry_never_counts wid id envs c w :
  cc_workflowWorkerID cfg <> ""%string -> Forall (fun env => forall i, answering (env i)) envs ->
  uuid_in wid = Some id -> wid <> ""%string -> stranded (cw_db c) id w ->
  exists w', stranded (cw_db (executions wid envs c)) id w'
    /\ wf_State w' = "quiescing"%string /\ wf_Attempt w' = wf_Attempt w /\ wf_ErrorCode w' = wf_ErrorCode w
    /\ wf_NextAttemptAt w' = wf_NextAttemptAt w /\ cw_sent (executions wid envs c) = cw_sent c.
Proof.
  intros Hcfg Henvs Hid Hwid. revert c w. induction Henvs as [|env envs Ha _ IH]; intros c w Hs.
  { exists w. by pose proof (sd_state _ _ _ Hs). }
  destruct (stranded_execution wid id env c w Hcfg Ha Hid Hwid Hs) as (w1 & e & Hle & Hf & Er).
  assert (stranded (cw_db (run (executeSnapshotWorkflow wid) env c).2) id w1) as Hs1.
  { rewrite Er. cbn [snd cw_db]. by eapply stranded_leased. }
  destruct (IH _ _ Hs1) as (w2 & Hs2 & E1 & E2 & E3 & E4 & E5). exists w2.
  change (executions wid (env :: envs) c) with (executions wid envs (run (executeSnapshotWorkflow wid) env c).2).
  split; [done|]. destruct Hle as (o & u & t & ->). rewrite E1, E2, E3, E4, E5, Er. done.
Qed.

(** ** A retirement that is never ready *)

(** What CreateSnapshotWorkflow demands of the source when it moves an archive off a
    retiring storage node, and what the executor demands later. *)
Lemma archive_source_never_ready v :
  retirement_source_eligible "archive_replica" (nv_Node v) = true ->
  snapshotSourceReady v "node_retirement_storage" = false.
Proof.
  unfold retirement_source_eligible, snapshotSourceReady. intros E. b2p.
  rewrite bool_decide_true by set_solver. match goal with Es : nd_OperationalState _ = _ |- _ => rewrite Es end.
  cbn. by rewrite !andb_false_r.
Qed.

Lemma exec_defer x code s env i d sent id w :
  (forall j, answering (env j)) ->
  ex_WorkflowID x = id -> id <> ""%string -> uuid_in id = Some id -> ValidMachineReasonCode code = true ->
  wd_workflows d !! id = Some w -> workflows_ok (wd_workflows d) = true -> workable d w = true ->
  exists w', exec (deferSnapshotForNodeReadiness x code s) env i {| cw_db := d; cw_sent := sent |}
    = (Some code, {| cw_db := put_workflows (<[id := w']> (wd_workflows d)) d; cw_sent := sent |}, S i)
    /\ wf_State w' = wf_State w /\ wf_Attempt w' = wf_Attempt w /\ wf_ErrorCode w' = Some code /\ wf_LeaseOwner w' = None
    /\ wf_NextAttemptAt w' = Some (ts (ce_now (env i) + snapshotNodeReadinessDelay)) /\ checked w' = checked w
    /\ wf_LeaseUntil w' = None /\ wf_ActivityEpoch w' = wf_ActivityEpoch w
    /\ wf_SourceNodeID w' = wf_SourceNodeID w /\ wf_TargetNodeID w' = wf_TargetNodeID w.
Proof.
  intros Ha Ex Hne Hid Hv Hl Hok Hw. unfold deferSnapshotForNodeReadiness. rewrite exec_store by apply Ha. cbn [cw_db cw_sent].
  unfold DeferSnapshotWorkflow. rewrite Ex, Hv. destruct (String.eqb_spec id ""); [done|].
  change (snapshotNodeReadinessDelay <=? 0) with false. cbn [negb orb]. unfold now_or.
  replace (if is_zero (ce_now (env i)) then ce_now (env i) else ce_now (env i)) with (ce_now (env i)) by (by destruct (is_zero _)).
  unfold guarded_update. pose proof (run_update_workflow id id workable
    (fun w => wf_set_NextAttemptAt (Some (ts (ce_now (env i) + snapshotNodeReadinessDelay))) (wf_set_ErrorCode (Some code)
       (wf_set_ErrorSummary (nullIfEmpty (clip s)) (wf_set_LeaseOwner None (wf_set_LeaseUntil None
         (wf_set_UpdatedAt (ts (ce_now (env i))) w)))))) d w Hid Hl Hok Hw eq_refl) as Hu.
  unfold runTx, tx_bind in *. destruct (update_workflow _ _ _ d) as [[b d1]|e]; [|done]. injection Hu as -> ->.
  eexists. split; [reflexivity|]. done.
Qed.

(** A change of the row that keeps what the joins use. *)
Lemma execution_of_deferred d id w w' x :
  wd_workflows d !! id = Some w -> execution_of d id = Some (Some x) ->
  checked w' = checked w -> wf_ActivityEpoch w' = wf_ActivityEpoch w ->
  wf_SourceNodeID w' = wf_SourceNodeID w -> wf_TargetNodeID w' = wf_TargetNodeID w ->
  exists x', execution_of (put_workflows (<[id := w']> (wd_workflows d)) d) id = Some (Some x')
    /\ ex_Trigger x' = ex_Trigger x /\ ex_SourceNodeID x' = ex_SourceNodeID x /\ ex_TargetNodeID x' = ex_TargetNodeID x
    /\ ex_TransferMode x' = ex_TransferMode x /\ ex_ErrorCode x' = default ""%string (wf_ErrorCode w').
Proof.
  unfold checked. intros Hl Hx [= E1 E2 E3 E4 E5 E6 E7 E8 E9] Ea Es Et. revert Hx. unfold execution_of. cbn [wd_workflows put_workflows].
  rewrite lookup_insert_eq, Hl. change (joined_execution (put_workflows (<[id := w']> (wd_workflows d)) d) id w') with (joined_execution d id w').
  unfold joined_execution. rewrite E4, Et, Ea, Es. intros E. execution_cases E.
  eexists. split; [reflexivity|]. cbn. by rewrite E9.
Qed.

(** A release by a worker that no longer holds the lease. *)
Lemma release_other wid id worker d w :
  uuid_in wid = Some id -> wid <> ""%string -> worker <> ""%string ->
  wd_workflows d !! id = Some w -> workflows_ok (wd_workflows d) = true -> wf_LeaseOwner w = None ->
  ReleaseSnapshotWorkflow wid worker d = (Ok tt, d).
Proof.
  intros Hid Hwid Hwk Hl Hok Ho. unfold ReleaseSnapshotWorkflow.
  destruct (String.eqb_spec wid ""); [done|]. destruct (String.eqb_spec worker ""); [done|]. cbn.
  unfold runTx, tx_bind, update_workflow, tx_bind, uuid_param. rewrite Hid. cbn. unfold update_workflows, write_workflows.
  match goal with |- context [update_where ?p ?f ?m] => assert (update_where p f m = m) as -> end.
  { apply map_eq. intros k. rewrite update_where_lookup. destruct (wd_workflows d !! k) as [v|] eqn:Ek; [|done]. cbn.
    destruct (String.eqb_spec k id) as [->|]; [|done]. rewrite Hl in Ek. injection Ek as <-. by rewrite Ho. }
  rewrite Hok. cbn. by destruct d.
Qed.

(** An archive that is to be moved off a retiring storage node, as
    CreateSnapshotWorkflow leaves it: the user's active home is the source. *)
Record retiring_archive (d : WDB) (id : string) (w : Workflow) : Prop := {
  ra_row : wd_workflows d !! id = Some w;
  ra_ok : workflows_ok (wd_workflows d) = true;
  ra_workable : workable d w = true;
  ra_state : wf_State w = "scheduled"%string;
  ra_free : wf_LeaseUntil w = None;
  ra_code : wf_ErrorCode w <> Some snapshotGenerationRecovery;
  ra_execution : exists x s v, execution_of d id = Some (Some x)
    /\ ex_Trigger x = "node_retirement_storage"%string
    /\ node_of d (ex_SourceNodeID x) = Some s /\ retirement_source_eligible "archive_replica" s = true
    /\ GetNodeByID (ex_TargetNodeID x) d = Some v /\ snapshotNodeReady v = true
    /\ ((ex_TransferMode x = "direct"%string /\ nt_TransferURL (nv_Transfer v) <> ""%string)
        \/ (ex_TransferMode x = "relay"%string /\ relayAvailable = true))
}.

Lemma retiring_archive_execution wid id env c w :
  cc_workflowWorkerID cfg <> ""%string -> (forall i, answering (env i)) ->
  uuid_in wid = Some id -> wid <> ""%string -> id <> ""%string -> retiring_archive (cw_db c) id w ->
  exists w', retiring_archive (cw_db (run (executeSnapshotWorkflow wid) env c).2) id w'
    /\ wf_Attempt w' = wf_Attempt w /\ wf_ErrorCode w' = Some "source_not_ready"%string
    /\ (run (executeSnapshotWorkflow wid) env c).1 = Some "source_not_ready"%string
    /\ cw_sent (run (executeSnapshotWorkflow wid) env c).2 = cw_sent c.
Proof.
  intros Hcfg Ha Hid Hwid Hne [Hl Hok Hw Hst Hf Hcode (x & s & v & Hx & Htr & Hs & He & Hv & Hr & Hpath)].
  destruct c as [d sent]. cbn [cw_db cw_sent] in *. pose proof (execution_workflow _ _ _ Hx) as Ex.
  destruct (an_uuid _ (Ha 0%nat)) as (worker & Hu & Hwk).
  destruct (claim_leases wid id worker (ce_now (env 1%nat)) snapshotWorkflowLeaseTTL d w) as (w1 & Hle & Ho & Ecl); try done.
  { by unfold SnapshotStore.lease_free; rewrite Hf. }
  set (d1 := put_workflows (<[id := w1]> (wd_workflows d)) d).
  destruct (leased_checked _ _ Hle) as [Hck Hrd].
  assert (execution_of d1 id = Some (Some x)) as Hx1 by (unfold d1; by rewrite (execution_of_row _ _ w)).
  assert (wd_workflows d1 !! id = Some w1) as Hl1 by (cbn; by rewrite lookup_insert_eq).
  assert (workflows_ok (wd_workflows d1) = true) as Hok1 by (by eapply workflows_ok_insert).
  assert (workable d1 w1 = true) as Hw1 by (by destruct Hle as (?&?&?&->)).
  assert (ex_State x = "scheduled"%string /\ ex_ErrorCode x = default ""%string (wf_ErrorCode w)) as [Exs Exc].
  { revert Hx. unfold execution_of. rewrite Hl. unfold joined_execution. intros E. by execution_cases E. }
  destruct (exec_defer x "source_not_ready" "源节点尚未就绪" env 5 d1 sent id w1) as (w2 & Ed & E1 & E2 & E3 & E4 & E5 & E6 & E7 & E8 & E9 & E10);
    [exact Ha | exact Ex | exact Hne | by eapply uuid_canonical | reflexivity | exact Hl1 | exact Hok1 | exact Hw1 |].
  set (d2 := put_workflows (<[id := w2]> (wd_workflows d1)) d1) in *.
  assert (wd_workflows d2 !! id = Some w2) as Hl2 by (cbn; by rewrite lookup_insert_eq).
  assert (workflows_ok (wd_workflows d2) = true) as Hok2 by (by eapply workflows_ok_insert).
  assert (run (executeSnapshotWorkflow wid) env {| cw_db := d; cw_sent := sent |}
          = (Some "source_not_ready"%string, {| cw_db := d2; cw_sent := sent |})) as ->.
  { unfold run, executeSnapshotWorkflow. destruct (String.eqb_spec (cc_workflowWorkerID cfg) ""); [done|].
    rewrite exec_ask, Hu. rewrite exec_store by apply Ha. cbn [cw_db cw_sent]. rewrite Ecl. cbn [fst snd]. fold d1.
    rewrite exec_bind. unfold execute_claimed, with_execution. rewrite exec_query by apply Ha. cbn [cw_db].
    unfold GetSnapshotWorkflowExecution at 1. destruct (String.eqb_spec wid ""); [done|]. rewrite Hid, Hx1, Exs.
    change (String.eqb "scheduled" "retry_wait") with false. cbv iota.
    unfold execute_with, with_nodes. cbv zeta. rewrite exec_query by apply Ha.
    unfold GetNodeByID at 1. change (node_of (cw_db {| cw_db := d1; cw_sent := sent |}) (ex_SourceNodeID x)) with (node_of d (ex_SourceNodeID x)).
    rewrite Hs. cbn [fmap option_fmap option_map]. rewrite exec_query by apply Ha.
    change (GetNodeByID (ex_TargetNodeID x) (cw_db {| cw_db := d1; cw_sent := sent |})) with (GetNodeByID (ex_TargetNodeID x) d).
    rewrite Hv, Hr. cbn [negb].
    assert ((negb (String.eqb (ex_TransferMode x) "relay") && String.eqb (nt_TransferURL (nv_Transfer v)) "")
            || (String.eqb (ex_TransferMode x) "relay" && negb relayAvailable) = false) as ->.
    { destruct Hpath as [[-> Hp]|[-> ->]]; [|done]. apply String.eqb_neq in Hp. by rewrite Hp. }
    assert (String.eqb (ex_ErrorCode x) snapshotGenerationRecovery = false) as ->.
    { rewrite Exc. apply String.eqb_neq. destruct (wf_ErrorCode w) as [c|]; cbn; [congruence | done]. }
    unfold source_ready. rewrite Htr, archive_source_never_ready by done. cbn [negb].
    rewrite Ed. rewrite exec_ask, (an_lease _ (Ha 6%nat)). rewrite exec_store by apply Ha. cbn [cw_db cw_sent].
    by rewrite (release_other wid id worker d2 w2). }
  exists w2. cbn [fst snd cw_db cw_sent]. split_and!; try done; [|by rewrite E2; destruct Hle as (?&?&?&->)].
  assert (wf_Type w2 = wf_Type w1 /\ wf_ControllerGeneration w2 = wf_ControllerGeneration w1) as [Et Eg] by (unfold checked in E6; by injection E6).
  destruct (execution_of_deferred d1 id w1 w2 x Hl1 Hx1 E6 E8 E9 E10) as (x2 & Hx2 & F1 & F2 & F3 & F4 & _).
  split; try done.
  - unfold workable, is_open in *. by rewrite Et, E1, Eg.
  - rewrite E1. by destruct Hle as (?&?&?&->).
  - by rewrite E3.
  - exists x2, s, v. rewrite F1, F2, F3, F4. done.
Qed.

(** C33: a snapshot that moves an archive off a retiring storage node never starts.
    CreateSnapshotWorkflow requires its source, the user's home, to be active, and the
    executor requires the source of such a snapshot to be draining or retiring.  While
    the nodes stay as they were at the creation, every execution, with every statement
    answered, only defers the workflow as source_not_ready: it stays scheduled, no
    attempt is counted and no command is sent. *)
Theorem storage_retirement_never_starts wid id envs c w :
  cc_workflowWorkerID cfg <> ""%string -> Forall (fun env => forall i, answering (env i)) envs ->
  uuid_in wid = Some id -> wid <> ""%string -> id <> ""%string -> retiring_archive (cw_db c) id w ->
  exists w', retiring_archive (cw_db (executions wid envs c)) id w'
    /\ wf_State w' = "scheduled"%string /\ wf_Attempt w' = wf_Attempt w
    /\ (envs <> [] -> wf_ErrorCode w' = Some "source_not_ready"%string)
    /\ cw_sent (executions wid envs c) = cw_sent c.
Proof.
  intros Hcfg Henvs Hid Hwid Hne. revert c w. induction Henvs as [|env envs Ha _ IH]; intros c w Hr.
  { exists w. split; [done|]. by pose proof (ra_state _ _ _ Hr). }
  destruct (retiring_archive_execution wid id env c w Hcfg Ha Hid Hwid Hne Hr) as (w1 & Hr1 & E1 & E2 & _ & E3).
  destruct (IH _ _ Hr1) as (w2 & Hr2 & F1 & F2 & F3 & F4). exists w2.
  change (executions wid (env :: envs) c) with (executions wid envs (run (executeSnapshotWorkflow wid) env c).2).
  split_and!; try done; [by rewrite F2 | | by rewrite F4]. intros _. destruct envs as [|env2 envs]; [|by apply F3].
  pose proof (ra_row _ _ _ Hr2) as Hl2. cbn in Hl2. rewrite (ra_row _ _ _ Hr1) in Hl2. by injection Hl2 as <-.
Qed.

(** ** The capability of a transfer *)

(** The commands of one execution: each names its workflow and snapshot; the target
    is told the hash of the capability, and the source the capability. *)
Definition capability_of (x : SnapshotWorkflowExecution) : string := deriveTransferCapability (cc_secretKey cfg) (ex_CapabilityID x).

Definition speaks_for (x : SnapshotWorkflowExecution) (c : agent_command) : Prop :=
  match c with
  | prepare_snapshot_receive p => pq_WorkflowID p = ex_WorkflowID x /\ pq_SnapshotID p = ex_SnapshotID x
      /\ pq_CapabilityHash p = hex_encode (sha256 (capability_of x)) /\ pq_ExpiresAt p = ex_CapabilityExpires x
  | start_snapshot q => sq_WorkflowID q = ex_WorkflowID x /\ sq_SnapshotID q = ex_SnapshotID x
      /\ sq_TransferCapability q = capability_of x
  | start_relay_receive r => rr_WorkflowID r = ex_WorkflowID x /\ rr_SnapshotID r = ex_SnapshotID x
      /\ rr_TransferCapability r = capability_of x
  | get_snapshot_receipt _ _ | restore_user_account _ => True
  end.

Definition sent_for (x : SnapshotWorkflowExecution) (w w' : ctrl) : Prop :=
  exists new, cw_sent w' = new ++ cw_sent w /\ Forall (fun m => speaks_for x m.1.2) new.

#[local] Instance sent_for_preorder x : PreOrder (sent_for x).
Proof.
  split; [intros w; by exists []|]. intros w1 w2 w3 (n1 & E1 & F1) (n2 & E2 & F2). exists (n2 ++ n1).
  rewrite E2, E1, app_assoc. split; [done|]. by apply Forall_app.
Qed.

Lemma store_sent x {A} (f : ctrlEnv -> WDB -> result A * WDB) : moves (sent_for x) (store f).
Proof. apply moves_call. intros e w. exists []. split; [|done]. by destruct (ce_fate e), (f e (cw_db w)). Qed.

Lemma agent_sent x node c op : speaks_for x c -> moves (sent_for x) (runAgentCommand node c op).
Proof. intros Hc. apply moves_call. intros e w. exists [(node, c, op)]. split; [done|]. by repeat constructor. Qed.

Lemma enqueue_sent x node c op : speaks_for x c -> moves (sent_for x) (enqueueAgentCommand node c op).
Proof. intros Hc. apply moves_call. intros e w. exists [(node, c, op)]. split; [done|]. by repeat constructor. Qed.

Ltac sent_on := moves_with ltac:(apply store_sent) ltac:(first [apply agent_sent | apply enqueue_sent]; cbn; try done).

Lemma retry_sent x y c s cause : moves (sent_for x) (retrySnapshotWorkflow y c s cause).
Proof. unfold retrySnapshotWorkflow, failSnapshotWorkflow. sent_on. Qed.

Lemma receipt_sent x y v : moves (sent_for x) (loadPublishedSnapshotReceipt y v).
Proof. unfold loadPublishedSnapshotReceipt. sent_on. Qed.

Lemma complete_sent x y r : moves (sent_for x) (completeSnapshotExecution y r).
Proof. unfold completeSnapshotExecution. sent_on. Qed.
#[local] Hint Resolve retry_sent receipt_sent complete_sent : executor.

Lemma relay_retry_sent x y v c s cause : moves (sent_for x) (recoverOrRetryRelaySnapshot y v c s cause).
Proof. unfold recoverOrRetryRelaySnapshot. sent_on. Qed.

Lemma prepared_sent x y k : moves (sent_for x) k -> moves (sent_for x) (target_prepared y k).
Proof. intros Hk. unfold target_prepared. sent_on; auto. Qed.
#[local] Hint Resolve relay_retry_sent : executor.

Lemma direct_sent x s v :
  ex_CapabilityHash x = sha256 (capability_of x) -> moves (sent_for x) (executeDirectSnapshot x s v (capability_of x)).
Proof.
  intros Eh. unfold executeDirectSnapshot. sent_on; [by rewrite Eh|]. apply prepared_sent. sent_on.
Qed.

Lemma relay_sent x s v :
  ex_CapabilityHash x = sha256 (capability_of x) -> moves (sent_for x) (executeRelaySnapshotWorkflow x s v (capability_of x)).
Proof.
  intros Eh. unfold executeRelaySnapshotWorkflow, prepareSnapshotRelay. sent_on; [by rewrite Eh|]. apply prepared_sent. sent_on.
Qed.

Lemma transfer_sent x s v : moves (sent_for x) (transfer_snapshot x s v).
Proof.
  unfold transfer_snapshot. cbv zeta. destruct (String.eqb_spec (sha256 (deriveTransferCapability (cc_secretKey cfg) (ex_CapabilityID x))) (ex_CapabilityHash x)) as [Eh|]; cbn [negb].
  - destruct (String.eqb _ _); [by apply relay_sent | by apply direct_sent].
  - unfold failSnapshotWorkflow. sent_on.
Qed.

(** What an Agent that prepared a transfer keeps of it. *)
Definition armed (a : Agent) (snapshotID workflowID hash : string) : Prop :=
  exists t, transfers a !! snapshotID = Some t /\ tr_State t = "prepared"%string
    /\ tr_WorkflowID t = workflowID /\ tr_CapabilityHash t = hash.

Lemma prepare_locked_armed sv now t (a a1 : Agent) :
  prepareTransferLocked sv now t a = (Ok tt, a1) -> armed a1 (tr_SnapshotID t) (tr_WorkflowID t) (tr_CapabilityHash t).
Proof.
  unfold prepareTransferLocked.
  assert (saveRuntimeStateLocked sv (RuntimeState.put_transfer a (tr_SnapshotID t) (move t "prepared" now (tr_Receipt t))) = (Ok tt, a1) ->
    armed a1 (tr_SnapshotID t) (tr_WorkflowID t) (tr_CapabilityHash t)) as Harm.
  { unfold saveRuntimeStateLocked. destruct sv; [|done]. intros [= <-]. exists (move t "prepared" now (tr_Receipt t)).
    unfold transfers, RuntimeState.put_transfer. cbn. by rewrite lookup_insert_eq. }
  destruct (transfers a !! tr_SnapshotID t) as [x|] eqn:El; [|done]. unfold may_replace. cbv zeta.
  destruct (_ && String.eqb (tr_State x) "prepared") eqn:Es.
  - destruct (_ && _) eqn:Ex in |- *; [|by destruct (_ || _); [|destruct (_ || _)]].
    intros [= <-]. b2p. exists x. repeat split; (done || congruence).
  - by destruct (_ || _).
Qed.

Lemma prepare_receive_armed sv now keys p (a a1 : Agent) k :
  prepareSnapshotReceive sv now keys (Some p) a = (Ok k, a1) ->
  armed a1 (pq_SnapshotID p) (pq_WorkflowID p) (pq_CapabilityHash p).
Proof.
  unfold prepareSnapshotReceive. cbv zeta.
  match goal with |- context [if ?b then (Fail "invalid_command_payload", a) else _] => destruct b; [done|] end.
  destruct (negb (String.eqb (pq_RelayTaskID p) "")).
  - destruct (prepareRelayTransfer _ _ _ _ _ _) as [[r|e] a2] eqn:Ep; [|done]. intros [= _ <-].
    unfold prepareRelayTransfer in Ep. destruct (negb _); [done|]. cbv zeta in Ep.
    assert (forall keys2 r a2, (match keys2 with
      | None => (Fail "relay key generation failed", a)
      | Some (privateKey, publicKey) =>
          let '(err, a) := prepareTransferLocked sv now (with_relay (RuntimeState.transfer_of a p) (pq_RelayTaskID p) privateKey publicKey) a in
          match err with Ok _ => (Ok publicKey, a) | Fail e => (Fail e, a) end end) = (Ok r, a2) ->
      armed a2 (pq_SnapshotID p) (pq_WorkflowID p) (pq_CapabilityHash p)) as Hfresh.
    { intros [[pr pu]|] r0 a3; [|done]. destruct (prepareTransferLocked _ _ _ a) as [[[]|e] a4] eqn:E4; [|done].
      intros [= _ <-]. by apply prepare_locked_armed in E4. }
    destruct (transfers a !! _) as [x|] eqn:El; [|by eapply Hfresh].
    destruct (_ && _) eqn:Ex in Ep; [|by eapply Hfresh]. injection Ep as _ <-. b2p. exists x. repeat split; (done || congruence).
  - destruct (prepareTransfer _ _ _ _) as [[[]|e] a2] eqn:Ep; [|done]. intros [= _ <-]. by apply prepare_locked_armed in Ep.
Qed.


(** ** The chosen targets *)

(** The order of preference: open before busy, then the place in the hint, then the
    id. *)
Definition repair_rank (hint : list Z) (v : NodeView) : Z * Z * Z :=
  (if String.eqb (capacity_state v) "busy" then 1 else 0, position hint (nv_ID v), nv_ID v).

Definition rank_lt (a b : Z * Z * Z) : Prop :=
  a.1.1 < b.1.1 \/ (a.1.1 = b.1.1 /\ (a.1.2 < b.1.2 \/ (a.1.2 = b.1.2 /\ a.2 < b.2))).

Lemma eligible_capacity src relay v :
  repair_eligible src relay v = true -> capacity_state v = "open"%string \/ capacity_state v = "busy"%string.
Proof.
  unfold repair_eligible, nodeAcceptsNewData, has_capacity, capacity_state. intros E. b2p.
  match goal with Hc : _ ∈ _ |- _ => revert Hc end. rewrite !elem_of_cons, elem_of_nil. tauto.
Qed.

Lemma repair_better_rank hint src relay best v :
  repair_eligible src relay best = true -> repair_eligible src relay v = true ->
  repair_better hint best v = true <-> rank_lt (repair_rank hint v) (repair_rank hint best).
Proof.
  intros Hb Hv. unfold repair_better, rank_lt, repair_rank.
  destruct (eligible_capacity _ _ _ Hb) as [-> | ->], (eligible_capacity _ _ _ Hv) as [-> | ->]; cbn;
    try (destruct (Z.eqb_spec (position hint (nv_ID v)) (position hint (nv_ID best))); cbn; rewrite ?Z.ltb_lt); lia.
Qed.

Lemma repair_fold hint src relay nodes best :
  (forall b, best = Some b -> repair_eligible src relay b = true) ->
  let chosen := foldl (fun best node =>
    if negb (repair_eligible src relay node) then best
    else match best with
         | None => Some node
         | Some b => if repair_better hint b node then Some node else best
         end) best nodes in
  match chosen with
  | None => best = None /\ Forall (fun v => repair_eligible src relay v = false) nodes
  | Some b => (best = Some b \/ b ∈ nodes) /\ repair_eligible src relay b = true
      /\ (forall v, best = Some v \/ v ∈ nodes -> repair_eligible src relay v = true ->
            ~ rank_lt (repair_rank hint v) (repair_rank hint b))
  end.
Proof.
  revert best. induction nodes as [|n nodes IH]; intros best Hbest; cbn [foldl].
  { destruct best as [b|]; [|done]. split; [by left|]. split; [by apply Hbest|].
    intros v [[= ->]|Hv%elem_of_nil] _; [|done]. unfold rank_lt. lia. }
  destruct (repair_eligible src relay n) eqn:En; cbn [negb].
  - set (best' := match best with None => Some n | Some b => if repair_better hint b n then Some n else best end).
    assert (forall b, best' = Some b -> repair_eligible src relay b = true) as Hb'.
    { subst best'. destruct best as [b|]; [destruct (repair_better hint b n)|]; intros b0 [= <-]; auto. }
    specialize (IH best' Hb'). cbv zeta in IH. fold best'. destruct (foldl _ best' nodes) as [c|].
    2:{ destruct IH as [E _]. subst best'. destruct best as [b|]; [destruct (repair_better hint b n)|]; done. }
    destruct IH as (Hin & Hc & Hmin). split; [|split; [done|]].
    + subst best'. destruct best as [b|]; [destruct (repair_better hint b n)|]; destruct Hin as [[= ->]|Hin];
        (by left) || (right; by apply elem_of_cons; left) || (right; by apply elem_of_cons; right).
    + assert (forall v, best = Some v \/ v = n -> repair_eligible src relay v = true ->
        exists m, best' = Some m /\ ~ rank_lt (repair_rank hint v) (repair_rank hint m)) as Hold.
      { intros v Hv Ev. subst best'. destruct best as [b|].
        - pose proof (repair_better_rank hint src relay b n (Hbest _ eq_refl) En) as Hr.
          destruct (repair_better hint b n); eexists; (split; [done|]); destruct Hv as [[= ->]| ->];
            unfold rank_lt in *; try lia; intros ?; assert (false = true) by (apply Hr; lia); done.
        - destruct Hv as [| ->]; [done|]. exists n. split; [done|]. unfold rank_lt. lia. }
      intros v Hv Ev. destruct Hv as [Hv|[-> |Hv]%elem_of_cons]; [| |by apply Hmin; [right|]].
      * destruct (Hold v (or_introl Hv) Ev) as (m & Em & Hm). specialize (Hmin m (or_introl Em) (Hb' _ Em)).
        unfold rank_lt in *. lia.
      * destruct (Hold n (or_intror eq_refl) Ev) as (m & Em & Hm). specialize (Hmin m (or_introl Em) (Hb' _ Em)).
        unfold rank_lt in *. lia.
  - specialize (IH best Hbest). cbv zeta in IH. destruct (foldl _ best nodes) as [c|].
    + destruct IH as (Hin & Hc & Hmin). split; [rewrite elem_of_cons; tauto|]. split; [done|].
      intros v [Hv|[-> |Hv]%elem_of_cons] Ev; [by apply Hmin; [left|] | congruence | by apply Hmin; [right|]].
    + destruct IH as [-> HF]. split; [done|]. by constructor.
Qed.

(** The storage node a repair is sent to is the most preferred of all eligible
    ones, in whatever order the nodes are listed: a node with room before a busy one,
    then by the place in the hint, then by the lowest id; and there is none only when no
    node is eligible. *)
Theorem repair_target_best hint src relay nodes :
  match chooseStorageRepairTarget nodes src hint relay with
  | None => Forall (fun v => repair_eligible src relay v = false) nodes
  | Some b => b ∈ nodes /\ repair_eligible src relay b = true
      /\ forall v, v ∈ nodes -> repair_eligible src relay v = true -> ~ rank_lt (repair_rank hint v) (repair_rank hint b)
  end.
Proof.
  pose proof (repair_fold hint src relay nodes None) as Hf. cbv zeta in Hf. unfold chooseStorageRepairTarget.
  destruct (foldl _ None nodes) as [b|]; [|by apply Hf].
  destruct Hf as ([?|Hb] & He & Hm); [done..|]. split; [done|]. split; [done|]. intros v Hv. apply Hm. by right.
Qed.

(** The delay before a retry doubles with each attempt from five seconds and stays
    between five seconds and five minutes and twenty seconds. *)
Theorem retry_delay_bounds n :
  5 * Second <= retry_delay n <= 320 * Second
  /\ (0 <= n <= 6 -> retry_delay n = 5 * Second * 2 ^ n) /\ (6 <= n -> retry_delay n = 320 * Second).
Proof.
  assert (forall k, double_delay (6 + k) (5 * Second) = 320 * Second) as Hcap by (by intros [|k]).
  assert (6 <= n -> retry_delay n = 320 * Second) as Hbig.
  { intros Hn. unfold retry_delay. replace (Z.to_nat n) with (6 + (Z.to_nat n - 6))%nat by lia. apply Hcap. }
  assert (0 <= n <= 6 -> retry_delay n = 5 * Second * 2 ^ n) as Hsmall.
  { intros Hn. assert (n = 0 \/ n = 1 \/ n = 2 \/ n = 3 \/ n = 4 \/ n = 5 \/ n = 6) as [->|[->|[->|[->|[->|[->| ->]]]]]] by lia; done. }
  split; [|done]. destruct (Z.le_gt_cases 6 n) as [Hn|Hn]; [rewrite (Hbig Hn); unfold Second; lia|].
  destruct (Z.le_gt_cases 0 n) as [H0|H0].
  - rewrite Hsmall by lia. assert (1 <= 2 ^ n <= 2 ^ 6) by (split; [apply (Z.pow_le_mono_r 2 0) | apply Z.pow_le_mono_r]; lia).
    unfold Second. lia.
  - unfold retry_delay. replace (Z.to_nat n) with 0%nat by lia. cbn. unfold Second. lia.
Qed.

End Executor.

(** ** A concrete Controller *)

#[local] Existing Instance demo_postgres.

Definition demo_url : string -> option parsedURL := fun _ =>
  Some {| pu_Scheme := "https"; pu_Host := "relay.example"; pu_User := false; pu_RawQuery := ""; pu_Fragment := ""; pu_Path := "" |}.
Definition demo_url_text (u : parsedURL) : string := pu_Scheme u +:+ "://" +:+ pu_Host u +:+ pu_Path u.

Definition demo_cfg : ctrlConfig :=
  {| cc_workflowWorkerID := "worker-1"; cc_secretKey := digest32; cc_RelayPublicURL := ""; cc_RelayDataDir := "";
     cc_RelayMaxBytes := 0; cc_RelayRetentionMin := 0; cc_RelayMaxConcurrent := 0; cc_RetryMax := 3 |}.

Definition demo_receipt : SnapshotTransferReceipt :=
  {| AgentState.rc_OK := true; AgentState.rc_SnapshotID := sid1; AgentState.rc_ManifestSHA256 := hex_encode digest32;
     AgentState.rc_ArchiveSHA256 := hex_encode digest32; AgentState.rc_FileCount := 4; AgentState.rc_TotalBytes := 2048;
     AgentState.rc_RelayPending := false |}.

(** Both Agents answer and so does the database. *)
Definition demo_env (uuid : string) : ctrlEnv :=
  {| ce_now := store_now + Minute; ce_uuid := Some uuid; ce_fate := DbAnswers; ce_later := fun d => d;
     ce_reply := fun _ => Replied {| as_Snapshot := Some demo_receipt; as_RelayPublicKey := ""; as_LocalUserID := "alice" |};
     ce_enqueue := None; ce_cancelled := false; ce_newid := fun _ => cid2; ce_copy := cid2; ce_lease_error := None;
     ce_slot := true; ce_ready := true; ce_locked := fun _ => false; ce_hint := [] |}.

Lemma demo_answering uuid : uuid <> ""%string -> answering (demo_env uuid).
Proof. intros Hu. split; [done..|]. by exists uuid. Qed.

#[local] Notation ctrl_of d := {| cw_db := d; cw_sent := [] |}.
#[local] Notation demo_execute := (executeSnapshotWorkflow demo_url demo_url_text demo_cfg).

(** One worker creates the backup of Alice while another Controller's reconciler takes
    a round; then the workflow is executed. *)
Definition demo_schedule : list (turn (E := ctrlEnv) (W := ctrl) (option string)) :=
  [Spawn 1 (createUserBackup demo_url demo_url_text demo_cfg 3 1 "offline" false);
   Spawn 2 (pbind resumeSnapshotWorkflows (fun _ => Ret None))]
  ++ map (fun u => Turn 1 (demo_env u)) [wop1; wop1; wop1; wop1; wop1; wop1] ++ [Turn 2 (demo_env wop1); Turn 2 (demo_env wop1)]
  ++ map (fun u => Turn 1 (demo_env u)) [wid1; wop1; sid1; cid1; wop1; wop1]
  ++ [Spawn 3 (demo_execute wid1)] ++ replicate 8 (Turn 3 (demo_env cid2)).

Lemma demo_scheduled : Forall (fun t => scheduled demo_url demo_url_text demo_cfg t) demo_schedule.
Proof. repeat constructor. Qed.

Example demo_schedule_constraints :
  let w' := sys_world (sys_run {| sys_world := ctrl_of demo_wdb; sys_pool := ∅ |} demo_schedule) in
  row_flow (cw_db w') wid1 = Some (Flow Quiescing 0) /\ flow_inv (cw_db w') /\ caps_wf (cw_db w').
Proof.
  split; [vm_compute; reflexivity|].
  destruct (executor_keeps_constraints demo_url demo_url_text demo_cfg (ctrl_of demo_wdb) demo_schedule
    demo_flow_inv demo_caps_wf demo_scheduled) as (Hi & Hc & _). exact (conj Hi Hc).
Qed.

(** Two executions. *)
Definition demo_envs : list (nat -> ctrlEnv) := [(fun _ => demo_env cid1); (fun _ => demo_env cid2)].

Lemma demo_envs_answer : Forall (fun env => forall i, answering (env i)) demo_envs.
Proof.
  apply Forall_cons. split; [intros _; by apply demo_answering|]. apply Forall_cons. split; [intros _; by apply demo_answering | apply Forall_nil_2].
Qed.

(** The snapshot of Alice was retried, and its target lost its transfer URL. *)
#[local] Notation demo_stranded :=
  (put_transfer {[ 9 := {| nt_TransferURL := ""; nt_IsBackupTarget := true |} ]}
     (ResumeSnapshotRetry wid1 (store_now + 5 * Second)
        (ScheduleSnapshotRetry wid1 "snapshot_failed" "" store_now (5 * Second) (snapshot_run demo_wdb to_publishing)).2).2).

Definition stranded_row : Workflow :=
  Eval vm_compute in match wd_workflows demo_stranded !! wid1 with Some w => w | None => demo_row end.

Definition no_execution : SnapshotWorkflowExecution :=
  {| ex_WorkflowID := ""; ex_State := ""; ex_Attempt := 0; ex_GenerationRecoveries := 0; ex_ErrorCode := "";
     ex_SnapshotID := ""; ex_ActivityEpoch := 0; ex_ControllerGeneration := 0; ex_GlobalUserID := 0; ex_LegacyUserID := 0;
     ex_Handle := ""; ex_SourceNodeID := 0; ex_TargetNodeID := 0; ex_CapabilityID := ""; ex_CapabilityHash := "";
     ex_CapabilityExpires := 0; ex_CapabilityState := ""; ex_LegacyBackupJobID := 0; ex_Trigger := "";
     ex_DestinationKind := ""; ex_TransferMode := "" |}.

Definition stranded_reading : SnapshotWorkflowExecution :=
  Eval vm_compute in match execution_of demo_stranded wid1 with Some (Some x) => x | _ => no_execution end.

Lemma status_not (o : option BackupJob) j status :
  option_map bj_Status o <> Some status -> o = Some j -> bj_Status j <> status.
Proof. by intros Ho -> <-. Qed.

Lemma demo_is_stranded : stranded demo_stranded wid1 stranded_row.
Proof.
  split.
  1-5: vm_compute; reflexivity.
  - assert (forallb (fun kc => negb (prepared_for wid1 kc.2)) (map_to_list (wd_caps demo_stranded)) = true) as Hall
      by (vm_compute; reflexivity).
    intros i c Hc. rewrite forallb_forall in Hall. apply elem_of_map_to_list, list_elem_of_In in Hc.
    specialize (Hall _ Hc). cbn in Hall. by destruct (prepared_for wid1 c).
  - exists stranded_reading. split; [vm_compute; reflexivity|]. split; [vm_compute; eexists; reflexivity|].
    split; [vm_compute; reflexivity|]. split; [vm_compute; reflexivity|].
    intros j. apply status_not. vm_compute. discriminate.
Qed.

Lemma stranded_retry_never_counts_witness :
  exists w', stranded (cw_db (executions demo_url demo_url_text demo_cfg wid1
      demo_envs (ctrl_of demo_stranded))) wid1 w'
    /\ wf_State w' = "quiescing"%string /\ wf_Attempt w' = 1.
Proof.
  destruct (stranded_retry_never_counts demo_url demo_url_text demo_cfg wid1 wid1
    demo_envs (ctrl_of demo_stranded) stranded_row) as (w' & Hs & E1 & E2 & _).
  - discriminate.
  - exact demo_envs_answer.
  - vm_compute; reflexivity.
  - discriminate.
  - exact demo_is_stranded.
  - exists w'. split; [exact Hs|]. split; [exact E1|]. rewrite E2. reflexivity.
Defined.

(** Node 8, which held an archive of Alice, retires: the archive is to be made again
    from her home, node 1, on the storage node 9. *)
Definition item1 : string := "00000000-0000-4000-8000-0000000000e1".
Definition retirement1 : string := "00000000-0000-4000-8000-0000000000e2".

Definition retiring_wdb : WDB :=
  put_items {[ item1 := {| it_RetirementID := retirement1; it_UserID := 7; it_LegacyUserID := Some 3; it_SourceNodeID := 8;
                           it_TargetNodeID := None; it_ItemKind := "archive_replica"; it_State := "pending";
                           it_WorkflowID := None; it_NextAttemptAt := None; it_ErrorCode := None; it_UpdatedAt := store_now |} ]}
    (put_retirements {[ retirement1 := {| op_NodeID := 8; op_State := "migrating"; op_ControllerGeneration := 4 |} ]}
      (put_jobs ∅ demo_wdb)).

Definition demo_retire : CreateSnapshotWorkflowParams :=
  {| sp_WorkflowID := wid1; sp_OperationID := wop1; sp_SnapshotID := sid1; sp_CapabilityID := cid1;
     sp_CapabilityHash := digest32; sp_LegacyBackupJobID := 0; sp_LegacyUserID := 3; sp_GlobalUserID := 7;
     sp_SourceNodeID := 1; sp_TargetNodeID := 9; sp_DestinationKind := "archive"; sp_TransferMode := "";
     sp_IndependentReconciliationID := ""; sp_IndependentMarker := ""; sp_RetirementItemID := item1;
     sp_RetirementTrigger := "node_retirement_storage"; sp_CapabilityExpires := store_now + 8 * Hour; sp_Now := store_now |}.

#[local] Notation retiring := (CreateSnapshotWorkflow 0 demo_retire retiring_wdb).2.

Definition retiring_row : Workflow :=
  Eval vm_compute in match wd_workflows retiring !! wid1 with Some w => w | None => demo_row end.

Definition retiring_reading : SnapshotWorkflowExecution :=
  Eval vm_compute in match execution_of retiring wid1 with Some (Some x) => x | _ => no_execution end.

Definition storage_view : NodeView :=
  {| nv_ID := 9; nv_Node := storage_node; nv_Transfer := {| nt_TransferURL := "https://s.example/t"; nt_IsBackupTarget := true |} |}.

Lemma demo_is_retiring : retiring_archive demo_cfg retiring wid1 retiring_row.
Proof.
  split.
  1-5: vm_compute; reflexivity.
  - vm_compute. discriminate.
  - exists retiring_reading, demo_node, storage_view.
    split; [vm_compute; reflexivity|]. split; [reflexivity|].
    do 4 (split; [vm_compute; reflexivity|]). left. split; [reflexivity|]. vm_compute. discriminate.
Qed.

Lemma storage_retirement_never_starts_witness :
  exists w', retiring_archive demo_cfg (cw_db (executions demo_url demo_url_text demo_cfg wid1 demo_envs (ctrl_of retiring))) wid1 w'
    /\ wf_State w' = "scheduled"%string /\ wf_ErrorCode w' = Some "source_not_ready"%string.
Proof.
  destruct (storage_retirement_never_starts demo_url demo_url_text demo_cfg wid1 wid1 demo_envs (ctrl_of retiring) retiring_row)
    as (w' & Hr & E1 & _ & E2 & _).
  - discriminate.
  - exact demo_envs_answer.
  - vm_compute; reflexivity.
  - discriminate.
  - discriminate.
  - exact demo_is_retiring.
  - exists w'. split; [exact Hr|]. split; [exact E1|]. apply E2. discriminate.
Defined.

(** The backup of the schedule above, at the start of its transfer, and the Agent of
    its target. *)
#[local] Notation demo_quiescing :=
  (cw_db (sys_world (sys_run {| sys_world := ctrl_of demo_wdb; sys_pool := ∅ |} demo_schedule))).

Definition demo_transfer : SnapshotWorkflowExecution :=
  Eval vm_compute in match execution_of demo_quiescing wid1 with Some (Some x) => x | _ => no_execution end.

Definition home_view : NodeView :=
  {| nv_ID := 1; nv_Node := demo_node; nv_Transfer := {| nt_TransferURL := ""; nt_IsBackupTarget := false |} |}.

Definition storage_agent : Agent :=
  {| ag_Cfg := {| cfg_NodeID := 9; cfg_Role := "storage"; cfg_AgentPSK := "psk"; cfg_CredentialVersion := 1;
                  cfg_ControllerGeneration := 1; cfg_Disaster := cfg_Disaster (ag_Cfg (demo_agent 9 [])) |};
     ag_state := initial_runtime_state; ag_disk := Some initial_runtime_state; ag_audit := [];
     ag_witnessNonces := ∅; ag_witnessSecret := digest32 |}.

Definition demo_capability : string := Eval vm_compute in capability_of demo_cfg demo_transfer.

#[local] Notation demo_run :=
  (run (transfer_snapshot demo_url demo_url_text demo_cfg demo_transfer home_view storage_view) (fun _ => demo_env cid2) (ctrl_of demo_quiescing)).
#[local] Notation demo_armed := (prepareSnapshotReceive true store_now None (Some (receive_request demo_transfer "")) storage_agent).

Definition demo_sent : list (Z * agent_command * string) := Eval vm_compute in cw_sent demo_run.2.

Lemma demo_sent_eq :
  take (length (cw_sent demo_run.2) - length (cw_sent (ctrl_of demo_quiescing))) (cw_sent demo_run.2) = demo_sent.
Proof. vm_compute. reflexivity. Qed.

Definition demo_armed_agent : Agent := Eval vm_compute in demo_armed.2.

