(* ===== verification/RelayPlane.v ===== *)
(** * The relay data plane

    src/internal/controller/relay.go: the HTTP handlers by which Agents upload and
    download the ciphertext of a snapshot in one request or in parts, and the cleanup
    of the spool directory.  A handler is a procedure (Procs.v) whose actions are the
    statements of RelayTransfers.v and operations on the file system; whether a disk or
    the database answers, and how much of a body arrives, are inputs.

    A file is a name that refers to an inode, so that a hard link and a file that is
    removed while it is open keep their content. *)

From Stdlib Require Import ZArith Lia Ascii String.
From stdpp Require Import base list gmap sets strings pretty.
From S2P Require Import Prelude GoStrings Sha256 Protocol RelayCrypto Schema Leases Handoffs AgentApi.
From S2P Require Import WorkflowSchema SnapshotStore SnapshotLife RelayTransfers Procs.
#[local] Open Scope Z_scope.

(** ** Paths *)

(** [strings.Split(path, "/")]. *)
Fixpoint split_slash (l : list ascii) : list (list ascii) :=
  match l with
  | [] => [[]]
  | c :: r =>
      if byte_val c =? 47 then [] :: split_slash r
      else match split_slash r with
           | s :: rest => (c :: s) :: rest
           | [] => [[c]]
           end
  end.

Definition segments (path : string) : list string := map of_bytes (split_slash (bytes_of path)).

(** filepath.Clean of a rooted path, as its list of elements: [.] and empty elements
    go, and [..] removes the one before it. *)
Definition clean_step (acc : list string) (seg : string) : list string :=
  if String.eqb seg "" || String.eqb seg "." then acc
  else if String.eqb seg ".." then removelast acc
  else acc ++ [seg].

Definition clean_rooted (segs : list string) : list string := foldl clean_step [] segs.

Definition is_abs (path : string) : bool := match path with String c _ => byte_val c =? 47 | EmptyString => false end.

(** filepath.Abs, with the working directory given by its elements. *)
Definition abs_path (cwd : list string) (path : string) : list string :=
  if is_abs path then clean_rooted (segments path) else clean_rooted (cwd ++ segments path).

(** filepath.Rel of two clean rooted paths. *)
Fixpoint rel_path (base target : list string) : list string :=
  match base, target with
  | b :: base', t :: target' => if String.eqb b t then rel_path base' target' else map (fun _ => ".."%string) base ++ target
  | _, _ => map (fun _ => ".."%string) base ++ target
  end.

Fixpoint join_path (segs : list string) : string :=
  match segs with [] => "" | s :: r => "/" +:+ s +:+ join_path r end.

(** An escape begins with the element [..]; no elements is the relative path [.]. *)
Definition safeSpoolPath (cwd root : list string) (raw : string) : option string :=
  if String.eqb raw "" then None
  else
    let path := abs_path cwd raw in
    match rel_path root path with
    | [] => None
    | s :: _ => if String.eqb s ".." then None else Some (join_path path)
    end.

(** ** Parts *)

Definition relayContentType : string := "application/vnd.stcontrol.relay.v1".
Definition relayDownloadLeaseTTL : duration := 2 * Minute.
Definition relayPartBytes : Z := 16777216.

Definition relayPartCount (ciphertextBytes : Z) : Z :=
  if ciphertextBytes <=? 0 then 0
  else Z.quot (wrap64 (wrap64 (ciphertextBytes + relayPartBytes) - 1)) relayPartBytes.

Definition relayPartSize (ciphertextBytes part : Z) : Z * bool :=
  let count := relayPartCount ciphertextBytes in
  if (part <? 0) || (part >=? count) then (0, false)
  else
    let offset := wrap64 (part * relayPartBytes) in
    let remaining := wrap64 (ciphertextBytes - offset) in
    let remaining := if remaining >? relayPartBytes then relayPartBytes else remaining in
    (remaining, 0 <? remaining).

(** [fmt.Sprintf("%08d.part", part)]. *)
Definition pad8 (n : Z) : string :=
  let digits := pretty n in of_bytes (repeat (byte_of 48) (8 - String.length digits)) +:+ digits.

Definition relayMultipartPartPath (dir : string) (part : Z) : string := dir +:+ "/" +:+ pad8 part +:+ ".part".

Definition equalRelayDigest (left right : string) : bool :=
  (slen left =? 32) && (slen right =? 32) && String.eqb left right.

(** ** Requests and answers *)

Record RelayRequest := {
  lr_ID : string;  (* the URL parameter *)
  lr_Part : string;  (* the URL parameter *)
  lr_Authorization : string;
  lr_ContentType : string;
  lr_PlaintextLength : string;
  lr_CiphertextLength : string;
  lr_ArchiveSha256 : string;
  lr_PartSha256 : string;
  lr_CiphertextSha256 : string;
  lr_UploadSession : string;
  lr_WorkflowID : string;
  lr_SnapshotID : string;
  lr_AgentVersion : string;
  lr_ContentLength : Z;
  lr_Body : string;  (* what arrives before the end or an error *)
  lr_BodyError : bool
}.

Record relayMultipartPart := { mp_Index : Z; mp_Bytes : Z; mp_SHA256 : string }.

Record relayMultipartStartResponse := {
  ms_State : string; ms_PartBytes : Z; ms_PartCount : Z; ms_CiphertextBytes : Z; ms_Received : list relayMultipartPart
}.

Record relayMultipartManifest := {
  mm_WorkflowID : string; mm_SnapshotID : string; mm_PlaintextBytes : Z; mm_CiphertextBytes : Z;
  mm_ArchiveSHA256 : string; mm_CiphertextSHA256 : string; mm_PartBytes : Z; mm_PartCount : Z
}.

(** An answer: an error, the state of an upload, the answers of the multipart
    protocol, or ciphertext with its headers. *)
Inductive relayAnswer :=
| RelayError (status : Z)
| RelayClosed
| RelayState (status : Z) (state : string)
| RelayStart (r : relayMultipartStartResponse)
| RelayManifest (m : relayMultipartManifest)
| RelayFile (workflow snapshot archive cipher : string) (plain size : Z) (sent : string)
| RelayPart (index offset size : Z) (sent : string)
| RelayOK.

(** [len(token) < 32 || len(token) > 256 || strings.TrimSpace(token) != token]. *)
Definition relayBearerHash (r : RelayRequest) : option string :=
  if String.prefix "Bearer " (lr_Authorization r) then
    let token := substring 7 (String.length (lr_Authorization r) - 7) (lr_Authorization r) in
    if (slen token <? 32) || (slen token >? 256) || negb (String.eqb (trim_space token) token) then None
    else Some (sha256 token)
  else None.

Definition relayTransportScope (t : RelayFact) : string :=
  if negb (String.eqb (rf_TransportScopeID t) "") then rf_TransportScopeID t else rf_WorkflowID t.

(** A digest of 32 bytes; a null column is an empty slice. *)
Definition digest_column (c : option string) : string := default ""%string c.

Definition validStoredRelayTransfer (t : RelayFact) : bool :=
  bool_decide (is_Some (rf_StoragePath t)) && bool_decide (is_Some (rf_CiphertextBytes t))
  && bool_decide (is_Some (rf_PlaintextBytes t)) && (slen (digest_column (rf_ArchiveSHA256 t)) =? 32)
  && (slen (digest_column (rf_CiphertextSHA256 t)) =? 32).

Record relayUploadMetadata := {
  um_id : string; um_tokenHash : string; um_uploadSession : string; um_workflowID : string; um_snapshotID : string;
  um_plaintextBytes : Z; um_ciphertextBytes : Z; um_archiveSHA256 : string
}.

(** A session is 16 bytes in lower-case hexadecimal; what decodes is ASCII. *)
Definition valid_session (s : string) : bool :=
  match hex_decode s with Some b => (slen b =? 16) && String.eqb s (of_bytes (map ascii_lower (bytes_of s))) | None => false end.

Definition decode_digest (s : string) : option string :=
  match hex_decode s with Some b => if slen b =? 32 then Some b else None | None => None end.

Definition parseMultipartUploadMetadata (maxBytes : Z) (r : RelayRequest) : option relayUploadMetadata :=
  match relayBearerHash r, parse_int64 (lr_PlaintextLength r), parse_int64 (lr_CiphertextLength r),
        decode_digest (lr_ArchiveSha256 r) with
  | Some tokenHash, Some plaintextBytes, Some ciphertextBytes, Some archiveSHA256 =>
      if negb (isUUID (lr_ID r)) || (plaintextBytes <=? 0) || (ciphertextBytes <=? 0) || (ciphertextBytes >? maxBytes)
         || negb (String.eqb (lr_ContentType r) relayContentType) || String.eqb (lr_WorkflowID r) ""
         || String.eqb (lr_SnapshotID r) "" || negb (valid_session (lr_UploadSession r))
      then None
      else match RelayCiphertextSize plaintextBytes with
      | Ok expected =>
          if negb (expected =? ciphertextBytes) then None
          else Some {| um_id := lr_ID r; um_tokenHash := tokenHash; um_uploadSession := lr_UploadSession r;
                       um_workflowID := lr_WorkflowID r; um_snapshotID := lr_SnapshotID r;
                       um_plaintextBytes := plaintextBytes; um_ciphertextBytes := ciphertextBytes;
                       um_archiveSHA256 := archiveSHA256 |}
      | Fail _ => None
      end
  | _, _, _, _ => None
  end.

(** ** The file system *)

(** [fs_owner] is which handler created an inode; only proofs read it. *)
Record FileSystem := {
  fs_names : gmap string nat;
  fs_dirs : gset string;
  fs_data : gmap nat string;
  fs_next : nat;
  fs_owner : gmap nat nat
}.

Definition fs_create (tid : nat) (path : string) (f : FileSystem) : FileSystem :=
  {| fs_names := <[path := fs_next f]> (fs_names f); fs_dirs := fs_dirs f;
     fs_data := <[fs_next f := ""%string]> (fs_data f); fs_next := S (fs_next f);
     fs_owner := <[fs_next f := tid]> (fs_owner f) |}.

Definition fs_append (i : nat) (bytes : string) (f : FileSystem) : FileSystem :=
  {| fs_names := fs_names f; fs_dirs := fs_dirs f; fs_data := alter (fun s => s +:+ bytes) i (fs_data f);
     fs_next := fs_next f; fs_owner := fs_owner f |}.

Definition fs_rename (names : gmap string nat) (dirs : gset string) (f : FileSystem) : FileSystem :=
  {| fs_names := names; fs_dirs := dirs; fs_data := fs_data f; fs_next := fs_next f; fs_owner := fs_owner f |}.

Definition fs_remove (path : string) (f : FileSystem) : FileSystem := fs_rename (delete path (fs_names f)) (fs_dirs f) f.

Definition fs_link (path : string) (i : nat) (f : FileSystem) : FileSystem :=
  fs_rename (<[path := i]> (fs_names f)) (fs_dirs f) f.

(** [os.RemoveAll]. *)
Definition fs_remove_all (dir : string) (f : FileSystem) : FileSystem :=
  fs_rename (filter (fun kv => String.prefix (dir +:+ "/") kv.1 = false) (fs_names f)) (fs_dirs f ∖ {[ dir ]}) f.

(** The content of an open file. *)
Definition fs_read (i : nat) (f : FileSystem) : string := default ""%string (fs_data f !! i).

(** ** The world of a handler *)

Record relayWorld := { rw_db : WDB; rw_fs : FileSystem; rw_slots : Z }.

(** What happens at an action: the clock, the fate of a statement, whether the
    context ended, whether a file operation succeeds, how much of a copy is made when it
    stops early, and what an operation of another transaction sees or holds. *)
Inductive relay_fate := FateAnswers | FateDown | FateLost.

Record relayEnv := {
  rv_now : time;
  rv_fate : relay_fate;
  rv_later : WDB -> WDB;
  rv_done : bool;
  rv_ok : bool;
  rv_copied : option nat;
  rv_old : string -> bool;
  rv_locked : string -> bool
}.

Definition rproc (A : Type) : Type := proc (E := relayEnv) (W := relayWorld) A.

Definition put_db (d : WDB) (w : relayWorld) : relayWorld := {| rw_db := d; rw_fs := rw_fs w; rw_slots := rw_slots w |}.
Definition put_fs (f : FileSystem) (w : relayWorld) : relayWorld := {| rw_db := rw_db w; rw_fs := f; rw_slots := rw_slots w |}.

Definition db_gone : string := "database unavailable".

(** A statement of the store. *)
Definition statement {A} (f : relayEnv -> WDB -> result A * WDB) : rproc (result A) :=
  call (fun e w => match rv_fate e with
  | FateDown => (Fail db_gone, w)
  | FateAnswers => let '(r, d) := f e (rw_db w) in (r, put_db d w)
  | FateLost => let '(_, d) := f e (rw_db w) in (Fail db_gone, put_db d w)
  end).

(** A file operation that changes the file system when it succeeds. *)
Definition file_op (f : FileSystem -> FileSystem) : rproc bool :=
  call (fun e w => if rv_ok e then (true, put_fs (f (rw_fs w)) w) else (false, w)).

(** [io.Copy]: all of it, or the first bytes and an error. *)
Definition copied (e : relayEnv) (s : string) : string * bool :=
  match rv_copied e with None => (s, true) | Some n => (substring 0 n s, false) end.

Section Plane.
Context `{Postgres}.

(** The configuration; [rnd] is the supply of random names of os.CreateTemp, which do
    not repeat and are made of digits. *)
Context (cwd root : list string) (maxBytes : Z) (retention : duration) (maxConcurrent : Z) (rnd : nat -> string).
Context `{!Inj (=) (=) rnd} (rnd_digits : forall k, rnd k <> ""%string /\ Forall is_digit (bytes_of (rnd k))).

Definition root_path : string := join_path root.
Definition spool_path (k : nat) : string := root_path +:+ "/.relay-upload-" +:+ rnd k +:+ ".ciphertext".
Definition part_temp_path (dir : string) (k : nat) : string := dir +:+ "/.part-upload-" +:+ rnd k.

(** os.CreateTemp: the path and the inode of a new file. *)
Definition create_temp (tid : nat) (dir : string) (path : nat -> string) : rproc (option (string * nat)) :=
  call (fun e w =>
    let k := fs_next (rw_fs w) in
    if rv_ok e && bool_decide (dir ∈ fs_dirs (rw_fs w)) && bool_decide (fs_names (rw_fs w) !! path k = None)
    then (Some (path k, k), put_fs (fs_create tid (path k) (rw_fs w)) w)
    else (None, w)).

(** What reaches an open file of some bytes: the bytes, and whether that was all. *)
Definition write_file (i : nat) (bytes : string) (err : bool) : rproc (string * bool) :=
  call (fun e w => let '(s, all) := copied e bytes in ((s, all && negb err), put_fs (fs_append i s (rw_fs w)) w)).

Definition close_files : rproc bool := ask rv_ok.
Definition remove_file (path : string) : rproc unit := let* _ := file_op (fs_remove path) in Ret tt.
Definition now_utc : rproc time := ask rv_now.

(** os.Open of a path, or Lstat followed by an open of the same path. *)
Definition open_file (path : string) : rproc (option nat) :=
  call (fun e w => (if rv_ok e then fs_names (rw_fs w) !! path else None, w)).

Definition file_content (i : nat) : rproc string := call (fun _ w => (fs_read i (rw_fs w), w)).

(** ** Slots *)

Inductive slot := SlotTaken | SlotDone | SlotBusy.

(** The select: a ready context and a free slot may both be chosen. *)
Definition acquire : rproc slot :=
  call (fun e w =>
    if rv_done e then (SlotDone, w)
    else if rw_slots w <? maxConcurrent then (SlotTaken, {| rw_db := rw_db w; rw_fs := rw_fs w; rw_slots := rw_slots w + 1 |})
    else (SlotBusy, w)).

Definition release : rproc unit :=
  call (fun _ w => (tt, {| rw_db := rw_db w; rw_fs := rw_fs w; rw_slots := rw_slots w - 1 |})).

Definition with_slot (k : rproc relayAnswer) : rproc relayAnswer :=
  let* got := acquire in
  match got with
  | SlotDone => Ret RelayClosed
  | SlotBusy => Ret (RelayError 503)
  | SlotTaken => let* a := k in let* _ := release in Ret a
  end.

(** ** Upload in one request *)

Definition is_stored (state : string) : bool := bool_decide (state ∈ ["stored"; "downloading"; "consumed"]).

Definition release_upload (id tokenHash : string) : rproc unit :=
  let* now := now_utc in
  let* _ := statement (fun e d => ReleaseRelayUpload (rv_now e) id tokenHash now d) in Ret tt.

(** MaxBytesReader: a body beyond the limit is an error after the limit. *)
Definition limited_body (r : RelayRequest) (limit : Z) : string * bool :=
  if slen (lr_Body r) <=? limit then (lr_Body r, lr_BodyError r) else (substring 0 (Z.to_nat limit) (lr_Body r), true).

(** The copy of a body into a temporary file, with the syncs that follow; the value is
    what was written when nothing failed. *)
Definition spool_body (i : nat) (r : RelayRequest) (expected : Z) : rproc (option string) :=
  let '(body, err) := limited_body r expected in
  let* written := write_file i body err in
  let* closed := close_files in
  Ret (if written.2 && closed && (slen written.1 =? expected) then Some written.1 else None).

Definition upload_claimed (tid : nat) (r : RelayRequest) (tokenHash : string) (expected : Z) : rproc relayAnswer :=
  let id := lr_ID r in
  let* temporary := create_temp tid root_path spool_path in
  match temporary with
  | None => let* _ := release_upload id tokenHash in Ret (RelayError 507)
  | Some (path, i) =>
      let* chmod := ask rv_ok in
      if negb chmod then
        let* _ := release_upload id tokenHash in let* _ := remove_file path in Ret (RelayError 507)
      else
        let* content := spool_body i r expected in
        match content with
        | None => let* _ := release_upload id tokenHash in let* _ := remove_file path in Ret (RelayError 422)
        | Some content =>
            let* now := now_utc in
            let* stored := statement (fun e d => CompleteRelayUpload (rv_now e) id tokenHash (sha256 content) (slen content) path now d) in
            match stored with
            | Fail _ => let* _ := release_upload id tokenHash in let* _ := remove_file path in Ret (RelayError 409)
            | Ok _ => Ret (RelayState 201 "stored")
            end
        end
  end.

Definition handleUpload (tid : nat) (r : RelayRequest) : rproc relayAnswer :=
  with_slot (
    match relayBearerHash r, parse_int64 (lr_PlaintextLength r), decode_digest (lr_ArchiveSha256 r) with
    | Some tokenHash, Some plaintextBytes, Some archiveSHA256 =>
        if negb (isUUID (lr_ID r)) || (plaintextBytes <=? 0) || negb (String.eqb (lr_ContentType r) relayContentType)
           || (lr_ContentLength r <=? 0) || (lr_ContentLength r >? maxBytes)
        then Ret (RelayError 403)
        else match RelayCiphertextSize plaintextBytes with
        | Fail _ => Ret (RelayError 413)
        | Ok expected =>
            if negb (expected =? lr_ContentLength r) then Ret (RelayError 413)
            else
              let* now := now_utc in
              let* claim := statement (fun e d => ClaimRelayUpload (rv_now e) (lr_ID r) tokenHash plaintextBytes
                              (lr_ContentLength r) archiveSHA256 now retention (rv_later e) d) in
              match claim with
              | Fail _ => Ret (RelayError 403)
              | Ok transfer =>
                  if negb (String.eqb (relayTransportScope transfer) (lr_WorkflowID r))
                     || negb (String.eqb (rf_SnapshotID transfer) (lr_SnapshotID r))
                     || (lr_ContentLength r >? rf_MaxCiphertextBytes transfer)
                  then Ret (RelayError 403)
                  else if is_stored (rf_State transfer) then Ret (RelayState 200 (rf_State transfer))
                  else upload_claimed tid r tokenHash expected
              end
        end
    | _, _, _ => Ret (RelayError 403)
    end).

(** ** Upload in parts *)

Definition multipart_dir (id uploadSession : string) : string :=
  root_path +:+ "/.relay-upload-" +:+ id +:+ "-" +:+ uploadSession +:+ ".parts".

(** MkdirAll, Lstat and Chmod of the directory of one session. *)
Definition ensureMultipartDir (id uploadSession : string) : rproc (option string) :=
  if negb (isUUID id) || negb (valid_session uploadSession) then Ret None
  else
    let dir := multipart_dir id uploadSession in
    let* made := file_op (fun f => fs_rename (fs_names f) (fs_dirs f ∪ {[ dir ]}) f) in
    Ret (if made then Some dir else None).

(** A file with its size and digest; [None] when there is none, an error when it
    cannot be read. *)
Definition file_facts (path : string) : rproc (result (option string)) :=
  call (fun e w => (if negb (rv_ok e) then Fail "io"%string
                    else match fs_names (rw_fs w) !! path with
                         | None => Ok None
                         | Some i => Ok (Some (fs_read i (rw_fs w)))
                         end, w)).

Definition relayPartMatches (path : string) (expectedBytes : Z) (expectedDigest : string) : rproc (result bool) :=
  let* facts := file_facts path in
  match facts with
  | Fail e => Ret (Fail e)
  | Ok None => Ret (Ok false)
  | Ok (Some content) =>
      if negb (slen content =? expectedBytes) then Ret (Fail "invalid relay part"%string)
      else Ret (Ok (equalRelayDigest (sha256 content) expectedDigest))
  end.

Fixpoint receivedMultipartParts (n : nat) (part : Z) (dir : string) (ciphertextBytes : Z)
  : rproc (result (list relayMultipartPart)) :=
  match n with
  | O => Ret (Ok [])
  | S n =>
      let expectedBytes := (relayPartSize ciphertextBytes part).1 in
      let* facts := file_facts (relayMultipartPartPath dir part) in
      let rest := receivedMultipartParts n (part + 1) dir ciphertextBytes in
      match facts with
      | Fail e => Ret (Fail e)
      | Ok None => rest
      | Ok (Some content) =>
          if negb (slen content =? expectedBytes) then Ret (Fail "invalid relay part"%string)
          else
            let* parts := rest in
            match parts with
            | Fail e => Ret (Fail e)
            | Ok parts => Ret (Ok ({| mp_Index := part; mp_Bytes := expectedBytes; mp_SHA256 := hex_encode (sha256 content) |} :: parts))
            end
      end
  end.

(** The claim that every request of a multipart upload starts with. *)
Definition claimMultipartUpload (r : RelayRequest) (k : relayUploadMetadata -> RelayFact -> rproc relayAnswer) : rproc relayAnswer :=
  match parseMultipartUploadMetadata maxBytes r with
  | None => Ret (RelayError 403)
  | Some metadata =>
      let* claim := statement (fun e d => ClaimRelayMultipartUpload (rv_now e) (um_id metadata) (um_tokenHash metadata)
                      (um_plaintextBytes metadata) (um_ciphertextBytes metadata) (um_archiveSHA256 metadata)
                      (rv_now e) retention (rv_later e) d) in
      match claim with
      | Fail _ => Ret (RelayError 403)
      | Ok transfer =>
          if negb (String.eqb (relayTransportScope transfer) (um_workflowID metadata))
             || negb (String.eqb (rf_SnapshotID transfer) (um_snapshotID metadata))
             || (um_ciphertextBytes metadata >? rf_MaxCiphertextBytes transfer)
          then Ret (RelayError 403)
          else k metadata transfer
      end
  end.

Definition handleMultipartStart (r : RelayRequest) : rproc relayAnswer :=
  with_slot (claimMultipartUpload r (fun metadata transfer =>
    let count := relayPartCount (um_ciphertextBytes metadata) in
    let response received := RelayStart {| ms_State := rf_State transfer; ms_PartBytes := relayPartBytes; ms_PartCount := count;
                                           ms_CiphertextBytes := um_ciphertextBytes metadata; ms_Received := received |} in
    if is_stored (rf_State transfer) then Ret (response [])
    else
      let* dir := ensureMultipartDir (um_id metadata) (um_uploadSession metadata) in
      match dir with
      | None => Ret (RelayError 507)
      | Some dir =>
          let* received := receivedMultipartParts (Z.to_nat count) 0 dir (um_ciphertextBytes metadata) in
          match received with
          | Fail _ => Ret (RelayError 422)
          | Ok received => Ret (response received)
          end
      end)).

(** Publication of a part: a hard link that replaces nothing, then a sync of the
    directory, whose failure takes back a link that was made. *)
Definition link_file (path : string) (i : nat) : rproc bool :=
  call (fun e w => if rv_ok e && bool_decide (fs_names (rw_fs w) !! path = None)
                   then (true, put_fs (fs_link path i (rw_fs w)) w) else (false, w)).

Definition publish_part (path : string) (i : nat) (part expectedBytes : Z) (partDigest : string) : rproc relayAnswer :=
  let* linked := link_file path i in
  let synced :=
    let* ok := close_files in
    if ok then Ret (RelayState 201 "received")
    else let* _ := (if linked then remove_file path else Ret tt) in Ret (RelayError 507) in
  if linked then synced
  else
    let* same := relayPartMatches path expectedBytes partDigest in
    match same with
    | Ok true => synced
    | _ => Ret (RelayError 409)
    end.

Definition receive_part (tid : nat) (r : RelayRequest) (dir path : string) (part expectedBytes : Z) (partDigest : string) : rproc relayAnswer :=
  let* temporary := create_temp tid dir (part_temp_path dir) in
  match temporary with
  | None => Ret (RelayError 507)
  | Some (temporaryPath, i) =>
      let* chmod := ask rv_ok in
      let* answer := (if negb chmod then Ret (RelayError 507)
        else
          let* content := spool_body i r expectedBytes in
          match content with
          | Some content =>
              if equalRelayDigest (sha256 content) partDigest then publish_part path i part expectedBytes partDigest
              else Ret (RelayError 422)
          | None => Ret (RelayError 422)
          end) in
      let* _ := remove_file temporaryPath in
      Ret answer
  end.

Definition handleMultipartUploadPart (tid : nat) (r : RelayRequest) : rproc relayAnswer :=
  with_slot (claimMultipartUpload r (fun metadata transfer =>
    if is_stored (rf_State transfer) then Ret (RelayState 200 (rf_State transfer))
    else match parse_int64 (lr_Part r), decode_digest (lr_PartSha256 r) with
    | Some part, Some partDigest =>
        let '(expectedBytes, sizeOK) := relayPartSize (um_ciphertextBytes metadata) part in
        if negb sizeOK || negb (lr_ContentLength r =? expectedBytes) || (expectedBytes >? relayPartBytes)
        then Ret (RelayError 403)
        else
          let* dir := ensureMultipartDir (um_id metadata) (um_uploadSession metadata) in
          match dir with
          | None => Ret (RelayError 507)
          | Some dir =>
              let path := relayMultipartPartPath dir part in
              let* same := relayPartMatches path expectedBytes partDigest in
              match same with
              | Fail _ => Ret (RelayError 422)
              | Ok true => Ret (RelayState 200 "received")
              | Ok false => receive_part tid r dir path part expectedBytes partDigest
              end
          end
    | _, _ => Ret (RelayError 403)
    end)).

(** The parts are copied one after the other; the value is all that was written. *)
Fixpoint assemble (n : nat) (part : Z) (dir : string) (ciphertextBytes : Z) (i : nat) (written : string) : rproc (Z + string) :=
  match n with
  | O => Ret (inr written)
  | S n =>
      let expectedBytes := (relayPartSize ciphertextBytes part).1 in
      let* file := open_file (relayMultipartPartPath dir part) in
      match file with
      | None => Ret (inl 425)
      | Some j =>
          let* content := file_content j in
          if negb (slen content =? expectedBytes) then Ret (inl 422)
          else
            let* copy := write_file i content false in
            if negb copy.2 || negb (slen copy.1 =? expectedBytes) then Ret (inl 422)
            else assemble n (part + 1) dir ciphertextBytes i (written +:+ copy.1)
      end
  end.

Definition complete_parts (tid : nat) (metadata : relayUploadMetadata) (wantDigest : string) : rproc relayAnswer :=
  let* dir := ensureMultipartDir (um_id metadata) (um_uploadSession metadata) in
  match dir with
  | None => Ret (RelayError 507)
  | Some dir =>
      let* temporary := create_temp tid root_path spool_path in
      match temporary with
      | None => Ret (RelayError 507)
      | Some (path, i) =>
          let fail status := let* _ := remove_file path in Ret (RelayError status) in
          let* chmod := ask rv_ok in
          if negb chmod then fail 507
          else
            let* written := assemble (Z.to_nat (relayPartCount (um_ciphertextBytes metadata))) 0 dir (um_ciphertextBytes metadata) i "" in
            match written with
            | inl status => fail status
            | inr content =>
                if negb (slen content =? um_ciphertextBytes metadata) || negb (equalRelayDigest (sha256 content) wantDigest) then fail 422
                else
                  let* closed := close_files in
                  if negb closed then fail 507
                  else
                    let* now := now_utc in
                    let* stored := statement (fun e d => CompleteRelayUpload (rv_now e) (um_id metadata) (um_tokenHash metadata)
                                     wantDigest (slen content) path now d) in
                    match stored with
                    | Fail _ => fail 409
                    | Ok _ => let* _ := file_op (fs_remove_all dir) in Ret (RelayState 201 "stored")
                    end
            end
      end
  end.

Definition handleMultipartUploadComplete (tid : nat) (r : RelayRequest) : rproc relayAnswer :=
  with_slot (claimMultipartUpload r (fun metadata transfer =>
    match decode_digest (lr_CiphertextSha256 r) with
    | None => Ret (RelayError 403)
    | Some wantDigest =>
        if is_stored (rf_State transfer) then
          if negb (equalRelayDigest (digest_column (rf_CiphertextSHA256 transfer)) wantDigest) then Ret (RelayError 409)
          else Ret (RelayState 200 (rf_State transfer))
        else complete_parts tid metadata wantDigest
    end)).

(** ** Download *)

Definition release_download (id tokenHash : string) : rproc unit :=
  let* now := now_utc in
  let* _ := statement (fun e d => ReleaseRelayDownload (rv_now e) id tokenHash now d) in Ret tt.

(** The lease of an Agent that can resume is short, and an older one is shortened. *)
Definition download_lease (r : RelayRequest) (tokenHash : string) (now : time) (k : duration -> rproc relayAnswer) : rproc relayAnswer :=
  if compareControllerAgentVersions (lr_AgentVersion r) minimumSelfUpdatingAgentVersion >=? 0 then
    let* clamped := statement (fun e d => ClampRelayDownloadLease (rv_now e) (lr_ID r) tokenHash now relayDownloadLeaseTTL d) in
    match clamped with
    | Fail _ => Ret (RelayError 503)
    | Ok _ => k relayDownloadLeaseTTL
    end
  else k retention.

(** The file of a stored transfer is opened, measured and sent. *)
Definition send_file (id tokenHash : string) (transfer : RelayFact) : rproc relayAnswer :=
  let fail status := let* _ := release_download id tokenHash in Ret (RelayError status) in
  match safeSpoolPath cwd root (default ""%string (rf_StoragePath transfer)) with
  | None => fail 422
  | Some path =>
      let* file := open_file path in
      match file with
      | None => fail 410
      | Some i =>
          let* content := file_content i in
          let* stat := ask rv_ok in
          if negb stat || negb (slen content =? default 0 (rf_CiphertextBytes transfer)) then fail 422
          else
            let* sent := ask (fun e => copied e content) in
            let* _ := (if sent.2 then Ret tt else release_download id tokenHash) in
            Ret (RelayFile (relayTransportScope transfer) (rf_SnapshotID transfer)
                   (hex_encode (digest_column (rf_ArchiveSHA256 transfer))) (hex_encode (digest_column (rf_CiphertextSHA256 transfer)))
                   (default 0 (rf_PlaintextBytes transfer)) (slen content) sent.1)
      end
  end.

Definition handleDownload (r : RelayRequest) : rproc relayAnswer :=
  with_slot (
    match relayBearerHash r with
    | None => Ret (RelayError 403)
    | Some tokenHash =>
        if negb (isUUID (lr_ID r)) then Ret (RelayError 403)
        else
          let* now := now_utc in
          download_lease r tokenHash now (fun leaseTTL =>
            let* claim := statement (fun e d => ClaimRelayDownload (rv_now e) (lr_ID r) tokenHash now leaseTTL (rv_later e) d) in
            match claim with
            | Fail e => Ret (RelayError (if String.eqb e ErrRelayTransferTerminal then 410 else 425))
            | Ok transfer => if negb (validStoredRelayTransfer transfer) then Ret (RelayError 425)
                             else send_file (lr_ID r) tokenHash transfer
            end)
    end).

(** The path of the ciphertext, when a file of the recorded size is there. *)
Definition validRelayStoragePath (transfer : RelayFact) : rproc (option string) :=
  if negb (validStoredRelayTransfer transfer) then Ret None
  else match safeSpoolPath cwd root (default ""%string (rf_StoragePath transfer)) with
  | None => Ret None
  | Some path =>
      let* facts := file_facts path in
      Ret (match facts with
           | Ok (Some content) => if slen content =? default 0 (rf_CiphertextBytes transfer) then Some path else None
           | _ => None
           end)
  end.

Definition handleMultipartDownloadManifest (r : RelayRequest) : rproc relayAnswer :=
  with_slot (
    match relayBearerHash r with
    | None => Ret (RelayError 403)
    | Some tokenHash =>
        if negb (isUUID (lr_ID r)) then Ret (RelayError 403)
        else
          let* now := now_utc in
          let* claim := statement (fun e d => ClaimRelayDownload (rv_now e) (lr_ID r) tokenHash now relayDownloadLeaseTTL (rv_later e) d) in
          let* claim := (match claim with
                         | Fail e => if String.eqb e ErrRelayTransferState
                                     then statement (fun e d => ContinueRelayDownload (rv_now e) (lr_ID r) tokenHash now relayDownloadLeaseTTL d)
                                     else Ret claim
                         | Ok _ => Ret claim
                         end) in
          match claim with
          | Fail e => Ret (RelayError (if String.eqb e ErrRelayTransferTerminal then 410 else 425))
          | Ok transfer =>
              if negb (validStoredRelayTransfer transfer) then Ret (RelayError 425)
              else
                let* path := validRelayStoragePath transfer in
                match path with
                | None => let* _ := release_download (lr_ID r) tokenHash in Ret (RelayError 422)
                | Some _ =>
                    let size := default 0 (rf_CiphertextBytes transfer) in
                    Ret (RelayManifest {| mm_WorkflowID := relayTransportScope transfer; mm_SnapshotID := rf_SnapshotID transfer;
                      mm_PlaintextBytes := default 0 (rf_PlaintextBytes transfer); mm_CiphertextBytes := size;
                      mm_ArchiveSHA256 := hex_encode (digest_column (rf_ArchiveSHA256 transfer));
                      mm_CiphertextSHA256 := hex_encode (digest_column (rf_CiphertextSHA256 transfer));
                      mm_PartBytes := relayPartBytes; mm_PartCount := relayPartCount size |})
                end
          end
    end).

(** The bytes of a section of a file. *)
Definition section (s : string) (offset n : Z) : string := substring (Z.to_nat offset) (Z.to_nat n) s.

Definition handleMultipartDownloadPart (r : RelayRequest) : rproc relayAnswer :=
  with_slot (
    match relayBearerHash r, parse_int64 (lr_Part r) with
    | Some tokenHash, Some part =>
        if negb (isUUID (lr_ID r)) then Ret (RelayError 403)
        else
          let* claim := statement (fun e d => ContinueRelayDownload (rv_now e) (lr_ID r) tokenHash (rv_now e) relayDownloadLeaseTTL d) in
          match claim with
          | Fail _ => Ret (RelayError 409)
          | Ok transfer =>
              if negb (validStoredRelayTransfer transfer) then Ret (RelayError 409)
              else
                let '(partBytes, sizeOK) := relayPartSize (default 0 (rf_CiphertextBytes transfer)) part in
                if negb sizeOK then Ret (RelayError 404)
                else
                  let* path := validRelayStoragePath transfer in
                  match path with
                  | None => Ret (RelayError 422)
                  | Some path =>
                      let* file := open_file path in
                      match file with
                      | None => Ret (RelayError 410)
                      | Some i =>
                          let* content := file_content i in
                          let offset := wrap64 (part * relayPartBytes) in
                          let* sent := ask (fun e => copied e (section content offset partBytes)) in
                          Ret (RelayPart part offset partBytes sent.1)
                      end
                  end
          end
    | _, _ => Ret (RelayError 403)
    end).

Definition handleRenewDownload (r : RelayRequest) : rproc relayAnswer :=
  match relayBearerHash r with
  | None => Ret (RelayError 403)
  | Some tokenHash =>
      if negb (isUUID (lr_ID r)) then Ret (RelayError 403)
      else
        let* renewed := statement (fun e d => RenewRelayDownload (rv_now e) (lr_ID r) tokenHash (rv_now e) relayDownloadLeaseTTL d) in
        Ret (match renewed with Fail _ => RelayError 503 | Ok false => RelayError 409 | Ok true => RelayOK end)
  end.

(** A spool file that may be removed. *)
Definition discard (path : string) : rproc unit :=
  match safeSpoolPath cwd root path with Some safe => remove_file safe | None => Ret tt end.

Definition handleComplete (r : RelayRequest) : rproc relayAnswer :=
  match relayBearerHash r with
  | None => Ret (RelayError 403)
  | Some tokenHash =>
      if negb (isUUID (lr_ID r)) then Ret (RelayError 403)
      else
        let* path := statement (fun e d => CompleteRelayDownload (rv_now e) (lr_ID r) tokenHash (rv_now e) d) in
        match path with
        | Fail _ => Ret (RelayError 409)
        | Ok path => let* _ := discard path in Ret RelayOK
        end
  end.

(** ** Cleanup *)

Fixpoint for_each {A} (f : A -> rproc unit) (l : list A) : rproc unit :=
  match l with [] => Ret tt | x :: r => let* _ := f x in for_each f r end.

(** The name of a direct entry of the data directory. *)
Definition entry_name (path : string) : option string :=
  let prefix := root_path +:+ "/" in
  if String.prefix prefix path then
    let name := substring (String.length prefix) (String.length path - String.length prefix) path in
    if existsb (fun c => byte_val c =? 47) (bytes_of name) then None else Some name
  else None.

Definition has_suffix (suffix s : string) : bool :=
  String.eqb (substring (String.length s - String.length suffix) (String.length suffix) s) suffix.

(** os.ReadDir: the paths of the entries, with whether each is a directory, that
    belong to uploads and are older than the cutoff. *)
Definition old_entries : rproc (list (string * bool)) :=
  call (fun e w =>
    let f := rw_fs w in
    let old path := match entry_name path with Some name => String.prefix ".relay-upload-" name && rv_old e path | None => false end in
    (if rv_ok e then map (fun p => (p, true)) (List.filter old (elements (fs_dirs f)))
                     ++ map (fun p => (p, false)) (List.filter old (map fst (map_to_list (fs_names f))))
     else [], w)).

Definition Cleanup : rproc unit :=
  let* now := now_utc in
  let* expired := statement (fun e d => ExpireRelayTransfers (rv_now e) (rv_locked e) now 200 d) in
  let* _ := (match expired with
             | Ok items => for_each (fun item => match xr_StoragePath item with Some path => discard path | None => Ret tt end) items
             | Fail _ => Ret tt
             end) in
  let* entries := old_entries in
  for_each (fun entry : string * bool =>
    let '(path, isDir) := entry in
    if isDir then
      if has_suffix ".parts" path then let* _ := file_op (fs_remove_all path) in Ret tt else Ret tt
    else remove_file path) entries.

(** ** Paths of the spool *)

Definition good_segment (s : string) : bool :=
  negb (String.eqb s "") && negb (String.eqb s ".") && negb (String.eqb s "..")
  && forallb (fun c => negb (byte_val c =? 47)) (bytes_of s).

Lemma split_no_slash l : forallb (fun c => negb (byte_val c =? 47)) l = true -> split_slash l = [l].
Proof.
  induction l as [|c l IH]; cbn; [done|]. intros [Hc Hl]%andb_true_iff. rewrite (IH Hl).
  by destruct (byte_val c =? 47).
Qed.

Lemma split_join_cons s l :
  forallb (fun c => negb (byte_val c =? 47)) s = true -> split_slash (s ++ byte_of 47 :: l) = s :: split_slash l.
Proof.
  induction s as [|c s IH]; cbn [forallb app split_slash]; [done|]. intros [Hc Hs]%andb_true_iff. rewrite (IH Hs).
  by destruct (byte_val c =? 47).
Qed.

Lemma good_no_slash s : good_segment s = true -> forallb (fun c => negb (byte_val c =? 47)) (bytes_of s) = true.
Proof. unfold good_segment. intros E. by b2p. Qed.

Lemma join_path_cons s segs : join_path (s :: segs) = "/" +:+ s +:+ join_path segs.
Proof. done. Qed.

Lemma segments_join segs : Forall (fun s => good_segment s = true) segs -> segments (join_path segs) = match segs with [] => [""%string] | _ => ""%string :: segs end.
Proof.
  unfold segments. induction segs as [|s segs IH]; intros Hg; [done|]. inversion_clear Hg as [|? ? Hs Hsegs]. specialize (IH Hsegs).
  rewrite join_path_cons. change ("/" +:+ s +:+ join_path segs)%string with (String (byte_of 47) (s +:+ join_path segs)).
  cbn [bytes_of list_ascii_of_string split_slash]. change (byte_val (byte_of 47) =? 47) with true. cbv iota. cbn [map]. f_equal.
  change (list_ascii_of_string (s +:+ join_path segs)) with (bytes_of (s +:+ join_path segs)). rewrite bytes_of_app.
  destruct segs as [|s2 segs].
  - cbn [join_path]. rewrite app_nil_r, split_no_slash by by apply good_no_slash. cbn. by rewrite of_bytes_of.
  - rewrite join_path_cons in *.
    change ("/" +:+ s2 +:+ join_path segs)%string with (String (byte_of 47) (s2 +:+ join_path segs)) in *.
    cbn [bytes_of list_ascii_of_string split_slash] in *. change (byte_val (byte_of 47) =? 47) with true in IH. cbv iota in IH.
    rewrite split_join_cons by by apply good_no_slash. cbn [map] in *. injection IH as IH. rewrite IH. by rewrite of_bytes_of.
Qed.

Lemma clean_good acc segs : Forall (fun s => good_segment s = true) segs -> foldl clean_step acc segs = acc ++ segs.
Proof.
  intros Hg. revert acc. induction Hg as [|s segs Hs _ IH]; intros acc; cbn; [by rewrite app_nil_r|].
  rewrite IH. unfold clean_step. unfold good_segment in Hs. b2p.
  destruct (String.eqb_spec s ""); [done|]. destruct (String.eqb_spec s "."); [done|]. destruct (String.eqb_spec s ".."); [done|].
  cbn. by rewrite <- app_assoc.
Qed.

Lemma rel_path_app base target : rel_path base (base ++ target) = target.
Proof. induction base as [|b base IH]; cbn; [by destruct target|]. by rewrite String.eqb_refl. Qed.

Lemma split_slash_free l : Forall (fun s => forallb (fun c => negb (byte_val c =? 47)) s = true) (split_slash l).
Proof.
  induction l as [|c l IH]; cbn; [by repeat constructor|]. destruct (byte_val c =? 47) eqn:Ec; [by constructor|].
  destruct (split_slash l) as [|s r]; [repeat constructor; cbn; by rewrite Ec|].
  inversion_clear IH as [|? ? Hs Hr]. constructor; [|done]. cbn. by rewrite Ec.
Qed.

Lemma clean_step_good acc l :
  Forall (fun s => good_segment s = true) acc -> forallb (fun c => negb (byte_val c =? 47)) l = true ->
  Forall (fun s => good_segment s = true) (clean_step acc (of_bytes l)).
Proof.
  intros Ha Hl. unfold clean_step. destruct (String.eqb (of_bytes l) "") eqn:E1; [done|].
  destruct (String.eqb (of_bytes l) ".") eqn:E2; [done|]. destruct (String.eqb (of_bytes l) "..") eqn:E3; cbn.
  - destruct acc as [|x acc _] using rev_ind; [done|]. rewrite removelast_last. by apply Forall_app in Ha as [Ha _].
  - apply Forall_app. split; [done|]. repeat constructor. unfold good_segment. by rewrite E1, E2, E3, bytes_of_bytes.
Qed.

Lemma clean_rooted_good acc path :
  Forall (fun s => good_segment s = true) acc -> Forall (fun s => good_segment s = true) (foldl clean_step acc (segments path)).
Proof.
  unfold segments. generalize (split_slash_free (bytes_of path)). intros Hs. revert acc.
  induction Hs as [|l ls Hl _ IH]; intros acc Ha; cbn; [done|]. apply IH. by apply clean_step_good.
Qed.

Lemma rel_path_inside base target s rest :
  rel_path base target = s :: rest -> s <> ".."%string -> target = base ++ s :: rest.
Proof.
  revert target. induction base as [|b base IH]; intros target E Hs; [by destruct target|].
  destruct target as [|t target]; cbn in E; [by simplify_eq|].
  destruct (String.eqb_spec b t) as [->|]; [by rewrite (IH _ E Hs) | by simplify_eq].
Qed.

(** A path the data plane accepts is below its directory: the elements of the directory
    come first and no element after them leads out. *)
Theorem spool_path_confined raw path :
  Forall (fun s => good_segment s = true) cwd -> safeSpoolPath cwd root raw = Some path ->
  exists rest, rest <> [] /\ Forall (fun s => good_segment s = true) rest /\ path = join_path (root ++ rest).
Proof.
  intros Hcwd. unfold safeSpoolPath. destruct (String.eqb raw ""); [done|]. cbv zeta.
  assert (Forall (fun s => good_segment s = true) (abs_path cwd raw)) as Hg.
  { unfold abs_path, clean_rooted. destruct (is_abs raw); [by apply clean_rooted_good|].
    rewrite foldl_app, (clean_good [] cwd Hcwd). cbn [app]. by apply clean_rooted_good. }
  destruct (rel_path root (abs_path cwd raw)) as [|s rest] eqn:Er; [done|].
  destruct (String.eqb_spec s ".."); [done|]. intros [= <-]. apply rel_path_inside in Er; [|done]. rewrite Er in *.
  exists (s :: rest). split; [done|]. split; [by apply Forall_app in Hg as [_ Hg] | done].
Qed.

(** The path of a spool file is accepted as it is. *)
Lemma join_path_app a b : join_path (a ++ b) = join_path a +:+ join_path b.
Proof.
  induction a as [|s a IH]; cbn [app join_path]; [done|]. rewrite IH. apply bytes_of_inj. rewrite !bytes_of_app. by rewrite <- !app_assoc.
Qed.

Lemma spool_name_good k : good_segment (".relay-upload-" +:+ rnd k +:+ ".ciphertext") = true.
Proof.
  unfold good_segment. destruct (rnd_digits k) as [_ Hd].
  assert (forallb (fun c => negb (byte_val c =? 47)) (bytes_of (".relay-upload-" +:+ rnd k +:+ ".ciphertext")) = true) as ->.
  { rewrite !bytes_of_app, !forallb_app. rewrite (proj2 (forallb_forall _ (bytes_of (rnd k)))); [done|].
    intros c Hc%list_elem_of_In. rewrite Forall_forall in Hd. specialize (Hd c Hc). unfold is_digit in Hd. apply negb_true_iff, Z.eqb_neq. lia. }
  done.
Qed.

Lemma spool_path_join k : spool_path k = join_path (root ++ [(".relay-upload-" +:+ rnd k +:+ ".ciphertext")%string]).
Proof. unfold spool_path, root_path. rewrite join_path_app. cbn [join_path]. apply bytes_of_inj. rewrite !bytes_of_app. cbn. by rewrite app_nil_r. Qed.

Context (root_good : Forall (fun s => good_segment s = true) root).

Lemma spool_path_safe k : safeSpoolPath cwd root (spool_path k) = Some (spool_path k).
Proof.
  assert (Forall (fun s => good_segment s = true) (root ++ [(".relay-upload-" +:+ rnd k +:+ ".ciphertext")%string])) as Hg
    by (apply Forall_app; split; [done | constructor; [apply spool_name_good | done]]).
  assert (abs_path cwd (spool_path k) = root ++ [(".relay-upload-" +:+ rnd k +:+ ".ciphertext")%string]) as Ea.
  { rewrite spool_path_join. unfold abs_path, clean_rooted.
    assert (is_abs (join_path (root ++ [(".relay-upload-" +:+ rnd k +:+ ".ciphertext")%string])) = true) as -> by (by destruct root).
    rewrite segments_join by done. assert (root ++ [(".relay-upload-" +:+ rnd k +:+ ".ciphertext")%string] <> []) as Hne by (by destruct root).
    revert Hg Hne. generalize (root ++ [(".relay-upload-" +:+ rnd k +:+ ".ciphertext")%string]). intros [|s segs] Hg Hne; [done|].
    change (foldl clean_step [] (""%string :: s :: segs)) with (foldl clean_step [] (s :: segs)). by rewrite clean_good. }
  unfold safeSpoolPath. destruct (String.eqb_spec (spool_path k) "") as [E|]; [rewrite spool_path_join in E; by destruct root|].
  cbv zeta. rewrite Ea, rel_path_app. by rewrite spool_path_join.
Qed.

(** Spool paths are different from each other and from the paths of parts. *)
Lemma spool_path_inj k k' : spool_path k = spool_path k' -> k = k'.
Proof.
  unfold spool_path. intros E%(f_equal bytes_of). rewrite !bytes_of_app in E. apply app_inv_head in E. apply app_inv_head in E.
  apply app_inv_tail in E. apply bytes_of_inj in E. by apply (inj rnd).
Qed.

Lemma part_path_not_spool dir part k : relayMultipartPartPath dir part <> spool_path k.
Proof.
  unfold relayMultipartPartPath, spool_path. intros E%(f_equal bytes_of). rewrite !bytes_of_app in E.
  apply (f_equal (@rev _)) in E. rewrite !rev_app_distr in E. cbn in E. discriminate.
Qed.

Lemma part_temp_not_spool dir j k : part_temp_path dir j <> spool_path k.
Proof.
  unfold part_temp_path, spool_path. intros E%(f_equal bytes_of). rewrite !bytes_of_app in E.
  destruct (rnd_digits j) as [Hne Hd]. apply (f_equal (@rev _)) in E. rewrite !rev_app_distr in E.
  destruct (rev (bytes_of (rnd j))) as [|c l] eqn:Er.
  { apply (f_equal (@rev _)) in Er. rewrite rev_involutive in Er. destruct Hne. by apply bytes_of_inj. }
  assert (c ∈ bytes_of (rnd j)) as Hc by (apply list_elem_of_In, in_rev; rewrite Er; by left).
  rewrite Forall_forall in Hd. specialize (Hd c Hc). cbn in E. injection E as -> _. unfold is_digit in Hd. vm_compute in Hd. by destruct Hd as [_ Hd].
Qed.

(** ** What other handlers may do *)

Definition stored_columns (t : RelayTransfer) : option string * option Z * option string :=
  (rt_StoragePath t, rt_CiphertextBytes t, rt_CiphertextSHA256 t).

(** No row gets a path, and rows with one keep it. *)
Record rows_kept (d d' : WDB) : Prop := {
  rk_back : forall id t', wd_relays d' !! id = Some t' -> rt_StoragePath t' <> None ->
              exists t, wd_relays d !! id = Some t /\ stored_columns t' = stored_columns t;
  rk_on : forall id t, wd_relays d !! id = Some t -> rt_StoragePath t <> None ->
            exists t', wd_relays d' !! id = Some t' /\ stored_columns t' = stored_columns t
}.

#[local] Instance rows_kept_preorder : PreOrder rows_kept.
Proof.
  split; [intros d; split; eauto|]. intros d1 d2 d3 [B1 O1] [B2 O2]. split.
  - intros id t3 H3 Hp. destruct (B2 _ _ H3 Hp) as (t2 & H2 & E2).
    assert (rt_StoragePath t2 <> None) as Hp2 by (intros E; apply Hp; unfold stored_columns in E2; congruence).
    destruct (B1 _ _ H2 Hp2) as (t1 & H1 & E1). exists t1. split; [done|]. by rewrite E2.
  - intros id t1 H1 Hp. destruct (O1 _ _ H1 Hp) as (t2 & H2 & E2).
    assert (rt_StoragePath t2 <> None) as Hp2 by (intros E; apply Hp; unfold stored_columns in E2; congruence).
    destruct (O2 _ _ H2 Hp2) as (t3 & H3 & E3). exists t3. split; [done|]. by rewrite E3.
Qed.

Lemma update_kept id p f :
  (forall t, stored_columns (f t) = stored_columns t) -> tx_rel rows_kept (update_relay id p f).
Proof.
  intros Hf d out d' E. apply update_relay_ok in E as [[_ ->]|(rid & t & _ & Hl & _ & _ & _ & ->)]; [done|].
  split; cbn; intros k u Hk Hp.
  - apply lookup_insert_Some in Hk as [[<- <-]|[_ Hk]]; [by exists t|]. by exists u.
  - destruct (decide (k = rid)) as [->|].
    + exists (f t). rewrite lookup_insert_eq. rewrite Hl in Hk. by injection Hk as <-.
    + exists u. by rewrite lookup_insert_ne.
Qed.

Lemma run_kept {A} (m : WTx A) d : tx_rel rows_kept m -> rows_kept d (runTx m d).2.
Proof. intros Hm. by apply (tx_rel_run rows_kept). Qed.

Lemma exec_kept id p f d : (forall t, stored_columns (f t) = stored_columns t) -> rows_kept d (exec_relay id p f d).2.
Proof.
  intros Hf. unfold exec_relay. apply run_kept. apply tx_rel_bind; [exact _ | by apply update_kept | intros ?]. by intros d0 u d1 [= _ <-].
Qed.

Lemma claim_upload_kept free clock id h plain cipher archive now ttl later d :
  rows_kept d (claim_upload free clock id h plain cipher archive now ttl later d).2.
Proof.
  unfold claim_upload. destruct (_ || _); [done|]. cbv zeta.
  match goal with |- context [runTx ?m d] => pose proof (run_kept m d) as Hk; destruct (runTx m d) as [[[out|]|e] d'] end;
    by apply Hk, update_kept.
Qed.

Lemma claim_download_kept clock id h now ttl later d : rows_kept d (ClaimRelayDownload clock id h now ttl later d).2.
Proof.
  unfold ClaimRelayDownload. destruct (_ || _); [done|]. cbv zeta.
  match goal with |- context [runTx ?m d] => pose proof (run_kept m d) as Hk; destruct (runTx m d) as [[[out|]|e] d'] end;
    by apply Hk, update_kept.
Qed.

Lemma continue_kept clock id h now ttl d : rows_kept d (ContinueRelayDownload clock id h now ttl d).2.
Proof.
  unfold ContinueRelayDownload. destruct (_ || _); [done|]. cbv zeta.
  match goal with |- context [runTx ?m d] => pose proof (run_kept m d) as Hk; destruct (runTx m d) as [[[out|]|e] d'] end;
    by apply Hk, update_kept.
Qed.

Lemma consume_kept clock id h now d : rows_kept d (CompleteRelayDownload clock id h now d).2.
Proof.
  unfold CompleteRelayDownload. destruct (download_invalid _ _); [done|]. cbv zeta.
  match goal with |- context [runTx ?m d] => pose proof (run_kept m d) as Hk; destruct (runTx m d) as [[[out|]|e] d'] end;
    by apply Hk, update_kept.
Qed.

Lemma renew_kept clock id h now ttl d : rows_kept d (RenewRelayDownload clock id h now ttl d).2.
Proof.
  unfold RenewRelayDownload. destruct (_ || _); [done|]. apply run_kept.
  apply tx_rel_bind; [exact _ | by apply update_kept | intros ?]. by intros d0 u d1 [= _ <-].
Qed.

Lemma release_upload_kept clock id h now d : rows_kept d (ReleaseRelayUpload clock id h now d).2.
Proof. unfold ReleaseRelayUpload. destruct (_ || _); [done|]. by apply exec_kept. Qed.

Lemma release_download_kept clock id h now d : rows_kept d (ReleaseRelayDownload clock id h now d).2.
Proof. unfold ReleaseRelayDownload. destruct (download_invalid _ _); [done|]. by apply exec_kept. Qed.

Lemma clamp_kept clock id h now ttl d : rows_kept d (ClampRelayDownloadLease clock id h now ttl d).2.
Proof. unfold ClampRelayDownloadLease. destruct (_ || _); [done|]. by apply exec_kept. Qed.

Lemma expire_kept clock locked now limit d : rows_kept d (ExpireRelayTransfers clock locked now limit d).2.
Proof.
  unfold ExpireRelayTransfers. cbv zeta. unfold runTx, tx_bind, tx_write, tx_ret. cbn. split; cbn; intros id t; rewrite expire_rows_lookup.
  - case_bool_decide; [|by exists t]. destruct (wd_relays d !! id) as [u|]; [|done]. cbn. intros [= <-] _. by exists u.
  - intros Hl Hp. rewrite Hl. case_bool_decide; by eexists.
Qed.

(** A step that neither creates nor writes a file: names of the spool are only
    removed. *)
Record quiet_step (w w' : relayWorld) : Prop := {
  qs_rows : rows_kept (rw_db w) (rw_db w');
  qs_data : fs_data (rw_fs w') = fs_data (rw_fs w);
  qs_next : fs_next (rw_fs w') = fs_next (rw_fs w);
  qs_owner : fs_owner (rw_fs w') = fs_owner (rw_fs w);
  qs_names : forall k i, fs_names (rw_fs w') !! spool_path k = Some i -> fs_names (rw_fs w) !! spool_path k = Some i
}.

(** Every row with a path is the record of a spool file. *)
Definition refers (d : WDB) (k : nat) : Prop := exists id t, wd_relays d !! id = Some t /\ rt_StoragePath t = Some (spool_path k).

Record spool_inv (w : relayWorld) : Prop := {
  si_rows : forall id t p, wd_relays (rw_db w) !! id = Some t -> rt_StoragePath t = Some p ->
    exists k c, p = spool_path k /\ fs_data (rw_fs w) !! k = Some c
      /\ rt_CiphertextBytes t = Some (slen c) /\ rt_CiphertextSHA256 t = Some (sha256 c);
  si_names : forall k i, fs_names (rw_fs w) !! spool_path k = Some i -> i = k;
  si_next : forall k, is_Some (fs_data (rw_fs w) !! k) \/ is_Some (fs_owner (rw_fs w) !! k) -> (k < fs_next (rw_fs w))%nat
}.

(** What one handler may do to the files of the others, and to a file a row refers
    to. *)
Record guarantee (tid : nat) (w w' : relayWorld) : Prop := {
  gu_owner : forall k o, fs_owner (rw_fs w) !! k = Some o -> fs_owner (rw_fs w') !! k = Some o;
  gu_data : forall k o, fs_owner (rw_fs w) !! k = Some o -> o <> tid -> fs_data (rw_fs w') !! k = fs_data (rw_fs w) !! k;
  gu_refers : forall k o, fs_owner (rw_fs w) !! k = Some o -> o <> tid -> refers (rw_db w') k -> refers (rw_db w) k;
  gu_sealed : forall k, refers (rw_db w) k -> fs_data (rw_fs w') !! k = fs_data (rw_fs w) !! k /\ refers (rw_db w') k
}.

Lemma kept_refers d d' k : rows_kept d d' -> refers d' k -> refers d k.
Proof.
  intros Hk (id & t & Hl & Hp). destruct (rk_back _ _ Hk _ _ Hl) as (t0 & H0 & E); [by rewrite Hp|].
  exists id, t0. split; [done|]. unfold stored_columns in E. congruence.
Qed.

Lemma kept_refers_on d d' k : rows_kept d d' -> refers d k -> refers d' k.
Proof.
  intros Hk (id & t & Hl & Hp). destruct (rk_on _ _ Hk _ _ Hl) as (t0 & H0 & E); [by rewrite Hp|].
  exists id, t0. split; [done|]. unfold stored_columns in E. congruence.
Qed.

Lemma quiet_inv w w' : quiet_step w w' -> spool_inv w -> spool_inv w'.
Proof.
  intros [Qr Qd Qn Qo Qm] [Ir In Ix]. split.
  - intros id t p Hl Hp. destruct (rk_back _ _ Qr _ _ Hl) as (t0 & H0 & E); [by rewrite Hp|]. unfold stored_columns in E.
    destruct (Ir id t0 p H0) as (k & c & -> & Hd & Hn & Hs); [congruence|]. exists k, c. rewrite Qd. split; [done|]. split; [done|].
    split; congruence.
  - intros k i Hk. by apply In, Qm.
  - intros k. rewrite Qd, Qn, Qo. apply Ix.
Qed.

Lemma quiet_guarantee tid w w' : quiet_step w w' -> guarantee tid w w'.
Proof.
  intros [Qr Qd Qn Qo Qm]. split.
  - by rewrite Qo.
  - by rewrite Qd.
  - intros k o _ _. by apply kept_refers.
  - intros k Hr. rewrite Qd. split; [done | by eapply kept_refers_on].
Qed.

(** ** Assertions of one handler *)

#[local] Notation hstable := (stable spool_inv guarantee quiet_step).
#[local] Notation hsafe := (safe spool_inv guarantee quiet_step).

(** A file of the handler that no row refers to, with what was written to it. *)
Record own (tid k : nat) (c : string) (w : relayWorld) : Prop := {
  ow_owner : fs_owner (rw_fs w) !! k = Some tid;
  ow_data : fs_data (rw_fs w) !! k = Some c;
  ow_free : ~ refers (rw_db w) k
}.

(** A file that a row refers to. *)
Definition sealed (k : nat) (c : string) (w : relayWorld) : Prop := refers (rw_db w) k /\ fs_data (rw_fs w) !! k = Some c.

Lemma own_stable tid k c : hstable tid (own tid k c).
Proof.
  intros w w' Hi [Ho Hd Hf] [(tid' & Hne & [Go Gd Gr Gs])|[Qr Qd Qn Qo Qm]].
  - split; [by apply Go | by rewrite (Gd _ tid) | intros Hr; apply Hf; by apply (Gr _ tid)].
  - split; [by rewrite Qo | by rewrite Qd | intros Hr; apply Hf; by eapply kept_refers].
Qed.

Lemma sealed_stable tid k c : hstable tid (sealed k c).
Proof.
  intros w w' Hi [Hr Hd] [(tid' & Hne & [Go Gd Gr Gs])|Hq].
  - destruct (Gs _ Hr) as [E Hr']. split; [done | by rewrite E].
  - destruct (quiet_guarantee 0%nat _ _ Hq) as [_ _ _ Gs]. destruct (Gs _ Hr) as [E Hr']. split; [done | by rewrite E].
Qed.

(** ** Actions *)

(** A quiet action keeps what is stable. *)
Lemma safe_quiet tid {R} P (f : relayEnv -> relayWorld -> R * relayWorld) :
  hstable tid P -> (forall e w, quiet_step w (f e w).2) -> hsafe tid P (fun _ => P) (call f).
Proof.
  intros HP Hf. apply safe_call; [by intros|]. intros e w Hi HPw. specialize (Hf e w).
  split; [by eapply quiet_inv|]. split; [by apply quiet_guarantee|]. eapply HP; [exact Hi | exact HPw | by right].
Qed.

Lemma rows_quiet d w : rows_kept (rw_db w) d -> quiet_step w (put_db d w).
Proof. by split. Qed.

Lemma safe_statement tid {A} P (f : relayEnv -> WDB -> result A * WDB) :
  hstable tid P -> (forall e d, rows_kept d (f e d).2) -> hsafe tid P (fun _ => P) (statement f).
Proof.
  intros HP Hf. apply safe_quiet; [done|]. intros e w. specialize (Hf e (rw_db w)).
  destruct (rv_fate e), (f e (rw_db w)) as [r d]; cbn; (by apply rows_quiet) || done.
Qed.

Lemma safe_ask tid {R} P (f : relayEnv -> R) : hstable tid P -> hsafe tid P (fun _ => P) (ask f).
Proof. intros HP. by apply safe_quiet. Qed.

(** Removing names, and adding names outside the spool. *)
Lemma names_quiet names dirs w :
  (forall k i, names !! spool_path k = Some i -> fs_names (rw_fs w) !! spool_path k = Some i) ->
  quiet_step w (put_fs (fs_rename names dirs (rw_fs w)) w).
Proof. by split. Qed.

Lemma safe_file_op tid P f :
  hstable tid P -> (forall w, quiet_step w (put_fs (f (rw_fs w)) w)) -> hsafe tid P (fun _ => P) (file_op f).
Proof. intros HP Hf. apply safe_quiet; [done|]. intros e w. by destruct (rv_ok e). Qed.

Lemma remove_quiet path w : quiet_step w (put_fs (fs_remove path (rw_fs w)) w).
Proof. apply names_quiet. intros k i. by intros [_ Hl]%lookup_delete_Some. Qed.

Lemma remove_all_quiet dir w : quiet_step w (put_fs (fs_remove_all dir (rw_fs w)) w).
Proof. apply names_quiet. intros k i. by intros [Hl _]%map_lookup_filter_Some. Qed.

Lemma safe_remove tid P path : hstable tid P -> hsafe tid P (fun _ => P) (remove_file path).
Proof.
  intros HP. eapply safe_bind; [apply safe_file_op; [done | intros w; apply remove_quiet]|].
  intros b. by apply safe_ret.
Qed.

Lemma safe_link tid P path i : hstable tid P -> (forall k, path <> spool_path k) -> hsafe tid P (fun _ => P) (link_file path i).
Proof.
  intros HP Hne. apply safe_quiet; [done|]. intros e w. destruct (rv_ok e && _); [|done]. apply names_quiet.
  intros k j Hl. rewrite lookup_insert_ne in Hl by apply Hne. done.
Qed.

Lemma safe_open tid P path : hstable tid P -> hsafe tid P (fun _ => P) (open_file path).
Proof. intros HP. by apply safe_quiet. Qed.

Lemma safe_content tid P i : hstable tid P -> hsafe tid P (fun _ => P) (file_content i).
Proof. intros HP. by apply safe_quiet. Qed.

Lemma safe_facts tid P path : hstable tid P -> hsafe tid P (fun _ => P) (file_facts path).
Proof. intros HP. by apply safe_quiet. Qed.

(** A new file belongs to its creator. *)
Lemma create_inv tid path w :
  spool_inv w -> fs_names (rw_fs w) !! path = None -> (forall k, path = spool_path k -> k = fs_next (rw_fs w)) ->
  let w' := put_fs (fs_create tid path (rw_fs w)) w in
  spool_inv w' /\ guarantee tid w w' /\ (~ refers (rw_db w) (fs_next (rw_fs w)) -> own tid (fs_next (rw_fs w)) "" w').
Proof.
  intros [Ir In Ix] Hnone Hk w'. set (n := fs_next (rw_fs w)) in *.
  assert (forall k, is_Some (fs_data (rw_fs w) !! k) \/ is_Some (fs_owner (rw_fs w) !! k) -> k <> n) as Hfresh
    by (intros k Hx; specialize (Ix k Hx); lia).
  assert (forall k, refers (rw_db w) k -> is_Some (fs_data (rw_fs w) !! k)) as Href.
  { intros k (id & t & Hl & Hp). destruct (Ir _ _ _ Hl Hp) as (k' & c & E & Hd & _). apply spool_path_inj in E as ->. by rewrite Hd. }
  split; [|split].
  - split; cbn.
    + intros id t p Hl Hp. destruct (Ir _ _ _ Hl Hp) as (k & c & -> & Hd & Hn & Hs). exists k, c.
      rewrite lookup_insert_ne by (apply not_eq_sym, Hfresh; by left). done.
    + intros k i Hl. apply lookup_insert_Some in Hl as [[-> <-]|[_ Hl]]; [by rewrite (Hk k) | by apply In].
    + intros k Hx. fold n. destruct (decide (k = n)) as [->|Hne]; [lia|]. rewrite !lookup_insert_ne in Hx by done.
      specialize (Ix k Hx). fold n in Ix. lia.
  - split; cbn.
    + intros k o Ho. rewrite lookup_insert_ne; [done|]. apply not_eq_sym, Hfresh. right. by rewrite Ho.
    + intros k o Ho _. rewrite lookup_insert_ne; [done|]. apply not_eq_sym, Hfresh. right. by rewrite Ho.
    + done.
    + intros k Hr. rewrite lookup_insert_ne; [done|]. apply not_eq_sym, Hfresh. left. by apply Href.
  - intros Hf. split; cbn; [by rewrite lookup_insert_eq.. | done].
Qed.

Lemma unreferred w : spool_inv w -> ~ refers (rw_db w) (fs_next (rw_fs w)).
Proof.
  intros [Ir In Ix] (id & t & Hl & Hp). destruct (Ir _ _ _ Hl Hp) as (k & c & E & Hd & _). apply spool_path_inj in E as <-.
  assert (fs_next (rw_fs w) < fs_next (rw_fs w))%nat; [|lia]. apply Ix. left. by rewrite Hd.
Qed.

Definition created (tid : nat) (path : nat -> string) (o : option (string * nat)) (w : relayWorld) : Prop :=
  match o with Some (p, k) => p = path k /\ own tid k "" w | None => True end.

Lemma safe_create tid dir path :
  (forall n k, path n = spool_path k -> k = n) -> hsafe tid (fun _ => True) (created tid path) (create_temp tid dir path).
Proof.
  intros Hpath. apply safe_call.
  { intros [[p k]|]; [|apply stable_true]. apply stable_and; [apply stable_pure | apply own_stable]. }
  intros e w Hi _. cbv zeta. destruct (_ && _ && _) eqn:E.
  - cbn [fst snd created]. apply andb_true_iff in E as [_ E%bool_decide_eq_true].
    destruct (create_inv tid (path (fs_next (rw_fs w))) w Hi E) as (H1 & H2 & H3); [intros k Ek; by eapply Hpath|].
    split; [done|]. split; [done|]. split; [done|]. by apply H3, unreferred.
  - split; [done|]. split; [|done]. by apply quiet_guarantee.
Qed.

Lemma safe_create_spool tid : hsafe tid (fun _ => True) (created tid spool_path) (create_temp tid root_path spool_path).
Proof. apply safe_create. intros n k E. symmetry. by apply spool_path_inj. Qed.

Lemma safe_create_part tid dir : hsafe tid (fun _ => True) (created tid (part_temp_path dir)) (create_temp tid dir (part_temp_path dir)).
Proof. apply safe_create. intros n k E. by destruct (part_temp_not_spool dir n k). Qed.

(** Only the owner writes, and only before a row refers to the file. *)
Lemma safe_write tid k c bytes err : hsafe tid (own tid k c) (fun r => own tid k (c +:+ r.1)) (write_file k bytes err).
Proof.
  apply safe_call; [intros r; apply own_stable|]. intros e w [Ir In Ix] [Ho Hd Hf].
  destruct (copied e bytes) as [s all]. cbn [fst snd]. split; [|split].
  - split; cbn.
    + intros id t p Hl Hp. destruct (Ir _ _ _ Hl Hp) as (j & cj & -> & Hj & Hn & Hs). exists j, cj.
      rewrite lookup_alter_ne; [done|]. intros ->. apply Hf. by exists id, t.
    + done.
    + intros j Hx. apply Ix. destruct Hx as [Hx|Hx]; [left|by right]. destruct (decide (j = k)) as [->|]; [by rewrite Hd|].
      by rewrite lookup_alter_ne in Hx.
  - split; cbn; [done | | done |].
    + intros j o Hj Hne. rewrite lookup_alter_ne; [done|]. intros ->. congruence.
    + intros j Hr. split; [|done]. rewrite lookup_alter_ne; [done|]. by intros ->.
  - split; cbn; [done | by rewrite lookup_alter_eq, Hd | done].
Qed.

(** The completed upload is recorded with the digest and the size of its file. *)
Lemma safe_complete_upload tid k c (id h : string) now :
  hsafe tid (own tid k c) (fun _ _ => True)
    (statement (fun e d => CompleteRelayUpload (rv_now e) id h (sha256 c) (slen c) (spool_path k) now d)).
Proof.
  apply safe_call; [intros r; apply stable_true|]. intros e w Hi Hown.
  assert (spool_inv (put_db (rw_db w) w) /\ guarantee tid w (put_db (rw_db w) w)) as Hsame.
  { assert (quiet_step w (put_db (rw_db w) w)) by by apply rows_quiet. split; [by eapply quiet_inv | by apply quiet_guarantee]. }
  assert (forall r d, CompleteRelayUpload (rv_now e) id h (sha256 c) (slen c) (spool_path k) now (rw_db w) = (r, d) ->
    spool_inv (put_db d w) /\ guarantee tid w (put_db d w)) as Hstep.
  { intros r d. unfold CompleteRelayUpload. destruct (_ || _); [by intros [= <- <-]|]. cbv zeta.
    destruct (runTx _ _) as [r1 d1] eqn:E.
    assert (spool_inv (put_db d1 w) /\ guarantee tid w (put_db d1 w)) as Hs.
    2:{ destruct r1 as [[out|]|e1]; by intros [= <- <-]. }
    unfold runTx in E. destruct (update_relay _ _ _ (rw_db w)) as [[out d2]|e2] eqn:Eu; injection E as <- <-; [|done].
    apply update_relay_ok in Eu as [[_ ->]|(rid & t & _ & Hl & Hp & _ & _ & ->)]; [done|].
    unfold upload_completable in Hp. b2p. destruct Hi as [Ir In Ix], Hown as [Ho Hd Hf].
    assert (rt_StoragePath t = None) as Hnone.
    { destruct (rt_StoragePath t) as [p|] eqn:Ep; [|done]. destruct (Ir _ _ _ Hl Ep) as (? & ? & _ & _ & Hb & _). congruence. }
    split.
    - split; cbn; [|done|done]. intros i u p Hu Hup. apply lookup_insert_Some in Hu as [[<- <-]|[_ Hu]]; [|by eapply Ir].
      cbn in Hup. injection Hup as <-. by exists k, c.
    - split; cbn; [done | done | |].
      + intros j o Hj Hne (i & u & Hu & Hup). cbn in Hu. apply lookup_insert_Some in Hu as [[<- <-]|[_ Hu]]; [|by exists i, u].
        cbn in Hup. injection Hup as E. apply spool_path_inj in E as <-. congruence.
      + intros j (i & u & Hu & Hup). split; [done|]. exists i, u. split; [|done]. cbn. rewrite lookup_insert_ne; [done|].
        intros <-. congruence. }
  destruct (CompleteRelayUpload _ _ _ _ _ _ _ _) as [r d]. destruct (Hstep r d eq_refl) as [H1 H2].
  destruct (rv_fate e); cbn; (done || (split; [done|]; split; [by apply quiet_guarantee | done])).
Qed.

(** ** Handlers *)

(** A procedure of quiet actions keeps what is stable. *)
Lemma safe_moves tid P {A} (p : rproc A) : hstable tid P -> moves quiet_step p -> hsafe tid P (fun _ => P) p.
Proof.
  intros HP. induction p as [a|R f k IH]; cbn; [by intros|]. intros [Hf Hk] e w Hi HPw. specialize (Hf e w).
  split; [by eapply quiet_inv|]. split; [by apply quiet_guarantee|]. exists P. split; [done|].
  split; [eapply HP; [exact Hi | exact HPw | by right]|]. apply IH, Hk.
Qed.

Lemma safe_then tid P {A} (Q : A -> relayWorld -> Prop) (p : rproc A) :
  hstable tid P -> moves quiet_step p -> (forall a w, Q a w) -> hsafe tid P Q p.
Proof.
  intros HP Hm HQ. eapply safe_post; [|by apply safe_moves]. auto.
Qed.

Lemma moves_statement {A} (f : relayEnv -> WDB -> result A * WDB) :
  (forall e d, rows_kept d (f e d).2) -> moves quiet_step (statement f).
Proof.
  intros Hf. apply moves_call. intros e w. specialize (Hf e (rw_db w)).
  destruct (rv_fate e), (f e (rw_db w)) as [r d]; cbn; (by apply rows_quiet) || done.
Qed.

Lemma moves_file_op f : (forall w, quiet_step w (put_fs (f (rw_fs w)) w)) -> moves quiet_step (file_op f).
Proof. intros Hf. apply moves_call. intros e w. by destruct (rv_ok e). Qed.

Ltac kept := first [apply claim_upload_kept | apply claim_download_kept | apply continue_kept | apply consume_kept
  | apply renew_kept | apply release_upload_kept | apply release_download_kept | apply clamp_kept | apply expire_kept].

(** Through the branches of a procedure of quiet actions. *)
Ltac quiet :=
  cbv zeta;
  repeat match goal with
  | |- moves _ (pbind _ _) => apply moves_bind; [|intros ?]
  | |- moves _ (Ret _) => exact I
  | |- moves _ (ask _) => by apply moves_call
  | |- moves _ (statement _) => apply moves_statement; intros ? ?; cbv beta; kept
  | |- moves _ (file_op (fs_remove _)) => apply moves_file_op; intros ?; apply remove_quiet
  | |- moves _ (file_op (fs_remove_all _)) => apply moves_file_op; intros ?; apply remove_all_quiet
  | |- moves _ (file_op _) => apply moves_file_op; intros ?; by apply names_quiet
  | |- moves _ (if ?b then _ else _) => destruct b
  | |- moves _ (match ?x with _ => _ end) => destruct x
  | |- moves _ (let '(_, _) := ?x in _) => destruct x
  | |- moves _ _ => solve [eauto 2 with relay]
  end.

Create HintDb relay discriminated.
#[local] Hint Constants Opaque : relay.

Lemma open_quiet path : moves quiet_step (open_file path).
Proof. by apply moves_call. Qed.
Lemma content_quiet i : moves quiet_step (file_content i).
Proof. by apply moves_call. Qed.
Lemma facts_quiet path : moves quiet_step (file_facts path).
Proof. by apply moves_call. Qed.
Lemma now_quiet : moves quiet_step now_utc.
Proof. by apply moves_call. Qed.
Lemma close_quiet : moves quiet_step close_files.
Proof. by apply moves_call. Qed.
Lemma release_quiet : moves quiet_step release.
Proof. by apply moves_call. Qed.
Lemma acquire_quiet : moves quiet_step acquire.
Proof. apply moves_call. intros e w. destruct (rv_done e); [done|]. by destruct (_ <? _). Qed.
Lemma entries_quiet : moves quiet_step old_entries.
Proof. by apply moves_call. Qed.
#[local] Hint Resolve open_quiet content_quiet facts_quiet now_quiet close_quiet release_quiet acquire_quiet entries_quiet : relay.

Lemma remove_file_quiet path : moves quiet_step (remove_file path).
Proof. unfold remove_file. quiet. Qed.
Lemma release_upload_quiet id h : moves quiet_step (release_upload id h).
Proof. unfold release_upload. quiet. Qed.
Lemma release_download_quiet id h : moves quiet_step (release_download id h).
Proof. unfold release_download. quiet. Qed.
Lemma ensure_quiet id session : moves quiet_step (ensureMultipartDir id session).
Proof. unfold ensureMultipartDir. quiet. Qed.
Lemma matches_quiet path n digest : moves quiet_step (relayPartMatches path n digest).
Proof. unfold relayPartMatches. quiet. Qed.
#[local] Hint Resolve remove_file_quiet release_upload_quiet release_download_quiet ensure_quiet matches_quiet : relay.

Lemma received_quiet n part dir size : moves quiet_step (receivedMultipartParts n part dir size).
Proof. revert part. induction n as [|n IH]; intros part; cbn [receivedMultipartParts]; [done|]. quiet; apply IH. Qed.
Lemma discard_quiet path : moves quiet_step (discard path).
Proof. unfold discard. quiet. Qed.
Lemma storage_path_quiet t : moves quiet_step (validRelayStoragePath t).
Proof. unfold validRelayStoragePath. quiet. Qed.
#[local] Hint Resolve received_quiet discard_quiet storage_path_quiet : relay.

Lemma for_each_quiet {A} (f : A -> rproc unit) l : (forall x, moves quiet_step (f x)) -> moves quiet_step (for_each f l).
Proof. intros Hf. induction l as [|x l IH]; cbn; [done|]. by apply moves_bind. Qed.

Lemma cleanup_quiet : moves quiet_step Cleanup.
Proof.
  unfold Cleanup. apply moves_bind; [apply now_quiet | intros now]. apply moves_bind; [quiet | intros expired].
  apply moves_bind; [destruct expired; [|done]; apply for_each_quiet; intros x; quiet | intros _].
  apply moves_bind; [apply entries_quiet | intros entries]. apply for_each_quiet. intros [path isDir]. quiet.
Qed.

Lemma slot_quiet k : moves quiet_step k -> moves quiet_step (with_slot k).
Proof. intros Hk. unfold with_slot. quiet. Qed.

Lemma claim_quiet r k : (forall m t, moves quiet_step (k m t)) -> moves quiet_step (claimMultipartUpload r k).
Proof. intros Hk. unfold claimMultipartUpload. quiet. Qed.

Lemma start_quiet r : moves quiet_step (handleMultipartStart r).
Proof. apply slot_quiet, claim_quiet. intros m t. quiet. Qed.
Lemma manifest_quiet r : moves quiet_step (handleMultipartDownloadManifest r).
Proof. apply slot_quiet. quiet. Qed.
Lemma part_quiet r : moves quiet_step (handleMultipartDownloadPart r).
Proof. apply slot_quiet. quiet. Qed.
Lemma renew_quiet r : moves quiet_step (handleRenewDownload r).
Proof. unfold handleRenewDownload. quiet. Qed.
Lemma consume_quiet r : moves quiet_step (handleComplete r).
Proof. unfold handleComplete. quiet. Qed.

(** What an answer with ciphertext says of it: the bytes are the start of a content
    whose digest and size are those of the headers. *)
Definition answer_ok (a : relayAnswer) : Prop :=
  match a with
  | RelayFile _ _ _ cipher _ size sent =>
      exists c n, hex_encode (sha256 c) = cipher /\ slen c = size /\ sent = substring 0 n c
  | _ => True
  end.

#[local] Notation served := (fun (a : relayAnswer) (_ : relayWorld) => answer_ok a).

Lemma safe_slot tid k : hsafe tid (fun _ => True) served k -> hsafe tid (fun _ => True) served (with_slot k).
Proof.
  intros Hk. unfold with_slot. eapply safe_bind; [by apply safe_moves; [apply stable_true | apply acquire_quiet]|].
  intros [| |]; [|by apply safe_ret..]. eapply safe_bind; [exact Hk|]. intros a. cbn beta.
  eapply safe_bind; [apply safe_moves; [apply stable_pure | apply release_quiet]|]. intros u. by apply safe_ret.
Qed.

(** A quiet tail with an answer that carries no ciphertext. *)
Fixpoint answers_plainly (p : rproc relayAnswer) : Prop :=
  match p with
  | Ret a => match a with RelayFile _ _ _ _ _ _ _ => False | _ => True end
  | Act f k => forall r, answers_plainly (k r)
  end.

Lemma plain_bind {A} (m : rproc A) (k : A -> rproc relayAnswer) :
  (forall a, answers_plainly (k a)) -> answers_plainly (pbind m k).
Proof. intros Hk. induction m as [a|R f k' IH]; cbn; auto. Qed.

Lemma plain_slot k : answers_plainly k -> answers_plainly (with_slot k).
Proof.
  intros Hk. unfold with_slot. apply plain_bind. intros [| |]; try exact I. induction k as [a|R f k IH]; cbn in *; [done|]. auto.
Qed.

Lemma safe_plain tid P (p : rproc relayAnswer) :
  hstable tid P -> moves quiet_step p -> answers_plainly p -> hsafe tid P served p.
Proof.
  intros HP Hm Ha. induction p as [a|R f k IH]; cbn in *; [intros w _ _; by destruct a|].
  destruct Hm as [Hf Hk]. intros e w Hi HPw. specialize (Hf e w).
  split; [by eapply quiet_inv|]. split; [by apply quiet_guarantee|]. exists P. split; [done|].
  split; [eapply HP; [exact Hi | exact HPw | by right]|]. apply IH; auto.
Qed.

Ltac plainly :=
  repeat (cbv beta zeta; match goal with
  | |- answers_plainly (pbind _ _) => apply plain_bind; intros ?
  | |- answers_plainly (Ret (match ?x with _ => _ end)) => destruct x
  | |- answers_plainly (Ret _) => exact I
  | |- answers_plainly (if ?b then _ else _) => destruct b
  | |- answers_plainly (match ?x with _ => _ end) => destruct x
  end).

(** A procedure that only answers errors after quiet actions, from any assertion. *)
Ltac plain_tail := apply safe_plain; [first [apply stable_true | apply own_stable | apply stable_pure] | quiet | plainly].

Lemma safe_spool_body tid k r n :
  hsafe tid (own tid k "") (fun o w => match o with Some c => own tid k c w | None => True end) (spool_body k r n).
Proof.
  unfold spool_body. destruct (limited_body r n) as [body err].
  eapply safe_bind; [apply safe_write|]. intros [s all]. cbn [fst snd].
  eapply safe_bind; [apply safe_moves; [apply own_stable | apply close_quiet]|]. intros closed. apply safe_ret. intros w _ Ho.
  by destruct (_ && _ && _).
Qed.

Lemma safe_upload_claimed tid r h n : hsafe tid (fun _ => True) served (upload_claimed tid r h n).
Proof.
  unfold upload_claimed. eapply safe_bind; [apply safe_create_spool|]. intros [[path k]|]; cbn [created]; [|plain_tail].
  apply safe_pure. intros ->.
  eapply safe_bind; [apply safe_moves; [apply own_stable | by apply moves_call]|]. intros chmod. destruct (negb chmod); [plain_tail|].
  eapply safe_bind; [apply safe_spool_body|]. intros [c|]; [|plain_tail].
  eapply safe_bind; [apply safe_moves; [apply own_stable | apply now_quiet]|]. intros now.
  eapply safe_bind; [apply safe_complete_upload|]. intros [[]|e]; [by apply safe_ret | plain_tail].
Qed.

Lemma upload_safe tid r : hsafe tid (fun _ => True) served (handleUpload tid r).
Proof.
  apply safe_slot. destruct (relayBearerHash r) as [h|]; [|by apply safe_ret]. destruct (parse_int64 _); [|by apply safe_ret].
  destruct (decode_digest _); [|by apply safe_ret]. destruct (_ || _); [by apply safe_ret|].
  destruct (RelayCiphertextSize _) as [n|]; [|by apply safe_ret]. destruct (negb _); [by apply safe_ret|].
  eapply safe_bind; [apply safe_moves; [apply stable_true | apply now_quiet]|]. intros now.
  eapply safe_bind; [apply safe_moves; [apply stable_true | quiet]|]. intros [t|e]; [|by apply safe_ret].
  destruct (_ || _); [by apply safe_ret|]. destruct (is_stored _); [by apply safe_ret|]. apply safe_upload_claimed.
Qed.

Lemma safe_claim tid r k :
  (forall m t, hsafe tid (fun _ => True) served (k m t)) -> hsafe tid (fun _ => True) served (claimMultipartUpload r k).
Proof.
  intros Hk. unfold claimMultipartUpload. destruct (parseMultipartUploadMetadata _ _) as [m|]; [|by apply safe_ret].
  eapply safe_bind; [apply safe_moves; [apply stable_true | quiet]|]. intros [t|e]; [|by apply safe_ret].
  destruct (_ || _); [by apply safe_ret | apply Hk].
Qed.

Lemma link_quiet dir part i : moves quiet_step (link_file (relayMultipartPartPath dir part) i).
Proof.
  apply moves_call. intros e w. destruct (rv_ok e && _); [|done]. apply names_quiet. intros k j Hl.
  rewrite lookup_insert_ne in Hl by apply part_path_not_spool. done.
Qed.
#[local] Hint Resolve link_quiet : relay.

Lemma publish_quiet dir part i n digest : moves quiet_step (publish_part (relayMultipartPartPath dir part) i part n digest).
Proof. unfold publish_part. quiet. Qed.

Lemma safe_receive tid r dir part n digest :
  hsafe tid (fun _ => True) served (receive_part tid r dir (relayMultipartPartPath dir part) part n digest).
Proof.
  unfold receive_part. eapply safe_bind; [apply safe_create_part|]. intros [[temp k]|]; cbn [created]; [|by apply safe_ret].
  apply safe_pure. intros ->. eapply safe_bind; [apply safe_moves; [apply own_stable | by apply moves_call]|]. intros chmod.
  eapply safe_bind with (M := served).
  - destruct (negb chmod); [by apply safe_ret|]. eapply safe_bind; [apply safe_spool_body|].
    intros [c|]; [|by apply safe_ret]. destruct (equalRelayDigest _ _); [|by apply safe_ret].
    apply safe_plain; [apply own_stable | apply publish_quiet |]. unfold publish_part. plainly.
  - intros a. eapply safe_bind; [apply safe_moves; [apply stable_pure | apply remove_file_quiet]|]. intros u. by apply safe_ret.
Qed.

Lemma upload_part_safe tid r : hsafe tid (fun _ => True) served (handleMultipartUploadPart tid r).
Proof.
  apply safe_slot, safe_claim. intros m t. destruct (is_stored _); [by apply safe_ret|].
  destruct (parse_int64 (lr_Part r)) as [part|]; [|by apply safe_ret]. destruct (decode_digest _) as [digest|]; [|by apply safe_ret].
  destruct (relayPartSize _ _) as [n ok]. destruct (_ || _); [by apply safe_ret|].
  eapply safe_bind; [apply safe_moves; [apply stable_true | apply ensure_quiet]|]. intros [dir|]; [|by apply safe_ret]. cbv zeta.
  eapply safe_bind; [apply safe_moves; [apply stable_true | apply matches_quiet]|]. intros [[|]|e]; [by apply safe_ret | | by apply safe_ret].
  apply safe_receive.
Qed.

Lemma safe_assemble tid k dir size n part c :
  hsafe tid (own tid k c) (fun r w => match r with inr c' => own tid k c' w | inl _ => True end) (assemble n part dir size k c).
Proof.
  revert part c. induction n as [|n IH]; intros part c; cbn [assemble]; [by apply safe_ret|]. cbv zeta.
  eapply safe_bind; [apply safe_moves; [apply own_stable | apply open_quiet]|]. intros [j|]; [|by apply safe_ret].
  eapply safe_bind; [apply safe_moves; [apply own_stable | apply content_quiet]|]. intros s. destruct (negb _); [by apply safe_ret|].
  eapply safe_bind; [apply safe_write|]. intros [s' all]. cbn [fst snd]. destruct (_ || _); [by apply safe_ret|]. apply IH.
Qed.

Lemma digest_equal a b : equalRelayDigest a b = true -> a = b.
Proof. unfold equalRelayDigest. intros E. by b2p. Qed.

Lemma safe_complete_parts tid m digest : hsafe tid (fun _ => True) served (complete_parts tid m digest).
Proof.
  unfold complete_parts. eapply safe_bind; [apply safe_moves; [apply stable_true | apply ensure_quiet]|].
  intros [dir|]; [|by apply safe_ret]. eapply safe_bind; [apply safe_create_spool|].
  intros [[path k]|]; cbn [created]; [|by apply safe_ret]. apply safe_pure. intros ->.
  eapply safe_bind; [apply safe_moves; [apply own_stable | by apply moves_call]|]. intros chmod. destruct (negb chmod); [plain_tail|].
  eapply safe_bind; [apply safe_assemble|]. intros [status|c]; [plain_tail|].
  destruct (negb (slen c =? um_ciphertextBytes m) || negb (equalRelayDigest (sha256 c) digest)) eqn:E; [plain_tail|].
  apply orb_false_iff in E as [_ E%negb_false_iff%digest_equal]. subst digest.
  eapply safe_bind; [apply safe_moves; [apply own_stable | apply close_quiet]|]. intros closed. destruct (negb closed); [plain_tail|].
  eapply safe_bind; [apply safe_moves; [apply own_stable | apply now_quiet]|]. intros now.
  eapply safe_bind; [apply safe_complete_upload|]. intros [[]|e]; plain_tail.
Qed.

Lemma upload_complete_safe tid r : hsafe tid (fun _ => True) served (handleMultipartUploadComplete tid r).
Proof.
  apply safe_slot, safe_claim. intros m t. destruct (decode_digest _) as [digest|]; [|by apply safe_ret].
  destruct (is_stored _); [|apply safe_complete_parts]. by destruct (negb _); apply safe_ret.
Qed.

(** What a claim or a renewal of a download returns describes a sealed file. *)
Definition described (out : RelayFact) (w : relayWorld) : Prop :=
  forall p, rf_StoragePath out = Some p ->
    exists k c, p = spool_path k /\ sealed k c w /\ rf_CiphertextBytes out = Some (slen c) /\ rf_CiphertextSHA256 out = Some (sha256 c).

Lemma described_stable tid out : hstable tid (described out).
Proof.
  intros w w' Hi Hd Hr p Hp. destruct (Hd p Hp) as (k & c & -> & Hs & Hn & Hc). exists k, c. split; [done|].
  split; [|done]. eapply sealed_stable; [exact Hi | exact Hs | exact Hr].
Qed.

Lemma row_described w id t : spool_inv w -> wd_relays (rw_db w) !! id = Some t -> described (scanRelayTransfer id t) w.
Proof.
  intros Hi Hl p Hp. cbn in Hp. destruct (si_rows _ Hi _ _ _ Hl Hp) as (k & c & -> & Hd & Hn & Hs). exists k, c.
  split; [done|]. split; [|done]. split; [by exists id, t | done].
Qed.

Lemma claim_download_scan clock id h now ttl later d out d1 :
  ClaimRelayDownload clock id h now ttl later d = (Ok out, d1) ->
  exists rid t, wd_relays d1 !! rid = Some t /\ out = scanRelayTransfer rid t.
Proof.
  unfold ClaimRelayDownload. destruct (_ || _); [done|]. cbv zeta. destruct (runTx _ d) as [r d'] eqn:E.
  apply run_update_relay in E as [[e ->]|[->|(rid & t & _ & _ & _ & _ & -> & ->)]]; [done| |].
  - by destruct (select_relay _ _ _) as [[?|]|].
  - intros [= <- <-]. exists rid. eexists. split; [|done]. cbn. by rewrite lookup_insert_eq.
Qed.

Lemma safe_claim_download tid id h now ttl :
  hsafe tid (fun _ => True) (fun r w => forall out, r = Ok out -> described out w)
    (statement (fun e d => ClaimRelayDownload (rv_now e) id h now ttl (rv_later e) d)).
Proof.
  apply safe_call.
  { intros r w w' Hi Hd Hr out E. eapply described_stable; [exact Hi | by apply Hd | exact Hr]. }
  intros e w Hi _. pose proof (claim_download_kept (rv_now e) id h now ttl (rv_later e) (rw_db w)) as Hk.
  destruct (ClaimRelayDownload _ _ _ _ _ _ _) as [r d] eqn:Ec. cbn in Hk. apply rows_quiet in Hk.
  destruct (rv_fate e); cbn; (split; [first [done | by eapply quiet_inv] | split; [by apply quiet_guarantee|]]); try by intros out [=].
  intros out ->. apply claim_download_scan in Ec as (rid & t & Hl & ->). apply row_described; [by eapply quiet_inv | done].
Qed.

(** The inode a spool path is opened to. *)
Definition opened (k : nat) (c : string) (o : option nat) (w : relayWorld) : Prop :=
  sealed k c w /\ forall i, o = Some i -> i = k.

Lemma safe_open_spool tid k c : hsafe tid (sealed k c) (opened k c) (open_file (spool_path k)).
Proof.
  apply safe_call.
  { intros o. apply stable_and; [apply sealed_stable | apply stable_pure]. }
  intros e w Hi Hs. split; [done|]. split; [by apply quiet_guarantee|]. split; [done|]. cbn.
  intros i. destruct (rv_ok e); [|done]. apply (si_names _ Hi).
Qed.

Lemma safe_read_sealed tid k c : hsafe tid (sealed k c) (fun s _ => s = c) (file_content k).
Proof.
  apply safe_call; [intros s; apply stable_pure|]. intros e w Hi [_ Hd]. split; [done|]. split; [by apply quiet_guarantee|].
  cbn. unfold fs_read. by rewrite Hd.
Qed.

Lemma substring_all s : substring 0 (String.length s) s = s.
Proof. induction s as [|a s IH]; [done|]. cbn. by rewrite IH. Qed.

Lemma copied_start e c : exists n, (copied e c).1 = substring 0 n c.
Proof. unfold copied. destruct (rv_copied e) as [n|]; [by exists n|]. exists (String.length c). cbn. by rewrite substring_all. Qed.

Lemma safe_copied tid (c : string) : hsafe tid (fun _ => True) (fun r _ => exists n, r.1 = substring 0 n c) (ask (fun e => copied e c)).
Proof.
  apply safe_call; [intros s; apply stable_pure|]. intros e w Hi _. split; [done|]. split; [by apply quiet_guarantee|]. apply copied_start.
Qed.

Lemma safe_send tid id h t :
  validStoredRelayTransfer t = true -> hsafe tid (described t) served (send_file id h t).
Proof.
  intros Hv. unfold send_file. unfold validStoredRelayTransfer in Hv. b2p.
  destruct (rf_StoragePath t) as [p|] eqn:Ep; [|match goal with E : is_Some None |- _ => by destruct E end].
  apply (safe_weaken _ _ _ _ (fun w => exists k c, p = spool_path k /\ sealed k c w /\ rf_CiphertextBytes t = Some (slen c)
    /\ rf_CiphertextSHA256 t = Some (sha256 c))); [intros w _ Hd; by apply Hd|].
  apply safe_exists. intros k. apply safe_exists. intros c. apply safe_pure. intros ->. change (default ""%string (Some (spool_path k))) with (spool_path k). rewrite spool_path_safe.
  apply (safe_weaken _ _ _ _ (fun w => (rf_CiphertextBytes t = Some (slen c) /\ rf_CiphertextSHA256 t = Some (sha256 c)) /\ sealed k c w));
    [by intros w _ (? & ? & ?)|].
  apply safe_pure. intros [En Es]. eapply safe_bind; [apply safe_open_spool|]. intros [i|].
  2:{ apply (safe_weaken _ _ _ _ (fun _ => True)); [done|]. plain_tail. }
  apply (safe_weaken _ _ _ _ (fun w => i = k /\ sealed k c w)); [intros w _ [Hs Hi]; auto|]. apply safe_pure. intros ->.
  eapply safe_bind; [apply safe_read_sealed|]. intros s. apply (safe_weaken _ _ _ _ (fun _ => s = c /\ True)); [done|].
  apply safe_pure. intros ->. eapply safe_bind; [apply safe_moves; [apply stable_true | by apply moves_call]|]. intros stat.
  rewrite En, Es. change (default 0 (Some (slen c))) with (slen c). change (digest_column (Some (sha256 c))) with (sha256 c). destruct (_ || _); [plain_tail|].
  eapply safe_bind; [apply safe_copied|]. intros [s all]. cbn [fst snd].
  eapply safe_bind; [apply safe_moves; [apply stable_pure | quiet]|]. intros u. apply safe_ret. intros w _ [n ->].
  by exists c, n.
Qed.

Lemma download_safe tid r : hsafe tid (fun _ => True) served (handleDownload r).
Proof.
  apply safe_slot. destruct (relayBearerHash r) as [h|]; [|by apply safe_ret]. destruct (negb _); [by apply safe_ret|].
  eapply safe_bind; [apply safe_moves; [apply stable_true | apply now_quiet]|]. intros now.
  assert (forall ttl, hsafe tid (fun _ => True) served (
    let* claim := statement (fun e d => ClaimRelayDownload (rv_now e) (lr_ID r) h now ttl (rv_later e) d) in
    match claim with
    | Fail e => Ret (RelayError (if String.eqb e ErrRelayTransferTerminal then 410 else 425))
    | Ok transfer => if negb (validStoredRelayTransfer transfer) then Ret (RelayError 425)
                     else send_file (lr_ID r) h transfer
    end)) as Hclaim.
  { intros ttl. eapply safe_bind; [apply safe_claim_download|]. intros [t|e]; [|by apply safe_ret].
    destruct (validStoredRelayTransfer t) eqn:Ev; cbn [negb]; [|by apply safe_ret].
    eapply safe_weaken; [|by apply safe_send]. intros w _ Hd. by apply Hd. }
  unfold download_lease. destruct (_ >=? 0); [|apply Hclaim].
  eapply safe_bind; [apply safe_moves; [apply stable_true | quiet]|]. intros [u|e]; [apply Hclaim | by apply safe_ret].
Qed.

(** ** The data plane *)

(** The handler of each request, and a round of the cleanup. *)
Inductive plane_request := UploadReq | StartReq | PartReq | CompleteReq | ManifestReq | DownloadPartReq | DownloadReq | RenewReq | ConsumeReq | CleanupRun.

Definition handler (tid : nat) (q : plane_request) (r : RelayRequest) : rproc relayAnswer :=
  match q with
  | UploadReq => handleUpload tid r
  | StartReq => handleMultipartStart r
  | PartReq => handleMultipartUploadPart tid r
  | CompleteReq => handleMultipartUploadComplete tid r
  | ManifestReq => handleMultipartDownloadManifest r
  | DownloadPartReq => handleMultipartDownloadPart r
  | DownloadReq => handleDownload r
  | RenewReq => handleRenewDownload r
  | ConsumeReq => handleComplete r
  | CleanupRun => let* _ := Cleanup in Ret RelayOK
  end.

Lemma handler_safe tid q r : hsafe tid (fun _ => True) served (handler tid q r).
Proof.
  destruct q; cbn [handler]; [apply upload_safe | | apply upload_part_safe | apply upload_complete_safe | | | apply download_safe | | |];
    apply safe_plain; try apply stable_true.
  - apply start_quiet.
  - apply plain_slot. unfold claimMultipartUpload. plainly.
  - apply manifest_quiet.
  - apply plain_slot. plainly.
  - apply part_quiet.
  - apply plain_slot. plainly.
  - apply renew_quiet.
  - unfold handleRenewDownload. plainly.
  - apply consume_quiet.
  - unfold handleComplete. plainly.
  - apply moves_bind; [apply cleanup_quiet | by intros].
  - plainly.
Qed.

(** Handlers take turns and new requests come; in between the database may change in
    any way that gives no transfer a path. *)
Definition plane_turn (t : turn (E := relayEnv) (W := relayWorld) relayAnswer) : Prop :=
  match t with
  | Turn _ _ => True
  | Spawn tid p => exists q r, p = handler tid q r
  | Outside f => forall w, quiet_step w (f w)
  end.

(** C25: what the relay stores and sends is what was recorded.  However the requests of
    Agents and rounds of the cleanup interleave, whichever file operations fail or stop
    early, and whichever statements or answers are lost: the file a transfer names, if
    it is there, has the recorded size and digest, and whatever a download receives is
    the start of a ciphertext with the announced size and digest.  Temporary names are
    taken never to repeat. *)
Theorem relay_spool_intact w ts :
  spool_inv w -> Forall plane_turn ts ->
  let s := sys_run {| sys_world := w; sys_pool := ∅ |} ts in
  spool_inv (sys_world s)
  /\ (forall id t p i, wd_relays (rw_db (sys_world s)) !! id = Some t -> rt_StoragePath t = Some p ->
        fs_names (rw_fs (sys_world s)) !! p = Some i ->
        exists c, fs_data (rw_fs (sys_world s)) !! i = Some c
          /\ rt_CiphertextBytes t = Some (slen c) /\ rt_CiphertextSHA256 t = Some (sha256 c))
  /\ (forall tid workflow snapshot archive cipher plain size sent,
        sys_pool s !! tid = Some (Ret (RelayFile workflow snapshot archive cipher plain size sent)) ->
        exists c n, hex_encode (sha256 c) = cipher /\ slen c = size /\ sent = substring 0 n c).
Proof.
  intros Hw Hts s.
  destruct (pool_safe spool_inv guarantee quiet_step served {| sys_world := w; sys_pool := ∅ |} ts) as [Hi Hp]; [done | apply map_Forall_empty | |].
  { eapply Forall_impl; [exact Hts|]. intros [tid e|tid p|f]; cbn; [done | |].
    - intros (q & r & ->). apply handler_safe.
    - intros Hf w0 Hi. split; [by eapply quiet_inv | apply Hf]. }
  fold s in Hi, Hp. split; [done|]. split.
  - intros id t p i Hl Hpath Hn. destruct (si_rows _ Hi _ _ _ Hl Hpath) as (k & c & -> & Hd & Hb & Hs).
    apply (si_names _ Hi) in Hn as ->. by exists c.
  - intros tid workflow snapshot archive cipher plain size sent Hl. destruct (Hp _ _ Hl) as (P & _ & HP & Hs).
    by specialize (Hs _ Hi HP).
Qed.

(** ** A completion whose answer is lost *)

Lemma exec_step {A B} (f : relayEnv -> relayWorld -> A * relayWorld) (k : A -> rproc B) env i w :
  exec (pbind (call f) k) env i w = let '(a, w') := f (env i) w in exec (k a) env (S i) w'.
Proof. done. Qed.

Lemma release_upload_stored clock id h now d :
  (forall rid t, uuid_in id = Some rid -> wd_relays d !! rid = Some t -> rt_State t <> "uploading"%string) ->
  (ReleaseRelayUpload clock id h now d).2 = d.
Proof.
  intros Hs. unfold ReleaseRelayUpload. destruct (_ || _); [done|]. cbv zeta. unfold exec_relay, runTx, tx_bind.
  destruct (update_relay _ _ _ d) as [[out d1]|e] eqn:E; [|done]. cbn.
  apply update_relay_ok in E as [[_ ->]|(rid & t & Hid & Hl & Hp & _)]; [done|]. b2p. by destruct (Hs rid t Hid Hl).
Qed.

(** C35: an upload whose completion is committed but whose answer is lost loses its file.
    The handler takes the error for a refusal and removes the spool file: the transfer is
    stored, its path names no file, and the uploader is told of a conflict. *)
Theorem lost_completion_loses_file tid r h expected env w d1 :
  let k := fs_next (rw_fs w) in
  root_path ∈ fs_dirs (rw_fs w) -> fs_names (rw_fs w) !! spool_path k = None ->
  (forall i, rv_ok (env i) = true /\ rv_copied (env i) = None) ->
  rv_fate (env 5%nat) = FateLost -> rv_fate (env 7%nat) = FateAnswers ->
  lr_BodyError r = false -> slen (lr_Body r) = expected ->
  CompleteRelayUpload (rv_now (env 5%nat)) (lr_ID r) h (sha256 (lr_Body r)) expected (spool_path k) (rv_now (env 4%nat)) (rw_db w)
  = (Ok tt, d1) ->
  let '(answer, w') := run (upload_claimed tid r h expected) env w in
  answer = RelayError 409
  /\ exists id t, wd_relays (rw_db w') !! id = Some t /\ rt_State t = "stored"%string /\ rt_StoragePath t = Some (spool_path k)
     /\ fs_names (rw_fs w') !! spool_path k = None.
Proof.
  intros k Hroot Hfree Henv Hlost Hans Hbody Hlen Hc. subst expected.
  destruct (complete_upload_row _ _ _ _ _ _ _ _ _ Hc) as (rid & t & Hid & Hl & _ & ->).
  unfold run, upload_claimed. cbv zeta. unfold create_temp. rewrite exec_step. cbv zeta.
  rewrite (proj1 (Henv 0%nat)), bool_decide_true, bool_decide_true by done. cbn [andb].
  unfold ask at 1. rewrite exec_step, (proj1 (Henv 1%nat)). cbn [negb].
  unfold spool_body, limited_body. rewrite Z.leb_refl, Hbody.
  unfold write_file, close_files, ask, copied. rewrite exec_bind, exec_step, (proj2 (Henv 2%nat)). cbn [fst snd andb negb].
  rewrite exec_step, (proj1 (Henv 3%nat)). cbn [fst snd andb]. rewrite Z.eqb_refl. cbn [exec].
  unfold now_utc, ask, statement. rewrite exec_step, exec_step, Hlost. cbn [rw_db put_fs]. fold k. rewrite Hc.
  unfold release_upload, now_utc, ask, statement. rewrite !exec_bind. cbn [call exec]. rewrite exec_step, Hans. cbn [rw_db put_db put_fs exec].
  match goal with |- context [ReleaseRelayUpload ?a ?b ?c ?n ?d] => pose proof (release_upload_stored a b c n d) as Hrel;
    destruct (ReleaseRelayUpload a b c n d) as [rr dd] end.
  cbn [snd] in Hrel. rewrite Hrel; clear Hrel.
  2:{ intros rid' t' Hid' Hl'. rewrite Hid in Hid'. injection Hid' as <-. cbn in Hl'. rewrite lookup_insert_eq in Hl'.
      by injection Hl' as <-. }
  unfold remove_file, file_op. cbn [call pbind exec]. rewrite (proj1 (Henv 8%nat)). cbn. split; [done|].
  exists rid. eexists. rewrite lookup_insert_eq. split; [done|]. split; [done|]. split; [done|]. by rewrite lookup_delete_eq.
Qed.

(** ** The parts of a ciphertext *)

Lemma substring_bytes m n s : bytes_of (substring m n s) = take n (drop m (bytes_of s)).
Proof.
  revert m n. induction s as [|a s IH]; intros m n; [by destruct m, n|].
  destruct m as [|m]; [|exact (IH m n)]. destruct n as [|n]; [done|]. cbn. f_equal. exact (IH 0%nat n).
Qed.

Lemma part_count_exact c :
  0 < c <= MaxInt64 - relayPartBytes + 1 -> relayPartCount c = (c + relayPartBytes - 1) / relayPartBytes.
Proof.
  intros Hc. unfold relayPartCount. destruct (Z.leb_spec c 0); [lia|].
  replace (wrap64 (wrap64 (c + relayPartBytes) - 1)) with (c + relayPartBytes - 1).
  { apply Z.quot_div_nonneg; unfold relayPartBytes in *; lia. }
  unfold wrap64, MaxInt64, relayPartBytes in *.
  assert (c + 16777216 < 2 ^ 63 \/ c + 16777216 = 2 ^ 63) as [Hs| ->] by lia.
  - rewrite (Z.mod_small (c + 16777216 + 2 ^ 63)) by lia. rewrite Z.mod_small; lia.
  - done.
Qed.

Lemma part_count_bounds c :
  0 < c <= MaxInt64 - relayPartBytes + 1 ->
  (relayPartCount c - 1) * relayPartBytes < c <= relayPartCount c * relayPartBytes.
Proof.
  intros Hc. rewrite part_count_exact by done. pose proof (Z.div_mod (c + relayPartBytes - 1) relayPartBytes).
  pose proof (Z.mod_pos_bound (c + relayPartBytes - 1) relayPartBytes). unfold relayPartBytes in *. lia.
Qed.

Lemma part_size_exact c part :
  0 < c <= MaxInt64 - relayPartBytes + 1 -> 0 <= part < relayPartCount c ->
  relayPartSize c part = (Z.min relayPartBytes (c - part * relayPartBytes), true)
  /\ 0 < Z.min relayPartBytes (c - part * relayPartBytes) <= relayPartBytes.
Proof.
  intros Hc Hp. pose proof (part_count_bounds c Hc) as Hb. unfold relayPartSize.
  destruct (Z.ltb_spec part 0); [lia|]. destruct (Z.geb_spec part (relayPartCount c)); [lia|]. cbn [orb]. cbv zeta.
  assert (0 <= part * relayPartBytes < c) as Ho by (unfold relayPartBytes in *; nia).
  rewrite (wrap64_id (part * relayPartBytes)) by (unfold int64, MinInt64, MaxInt64, relayPartBytes in *; lia).
  rewrite wrap64_id by (unfold int64, MinInt64, MaxInt64, relayPartBytes in *; lia).
  destruct (Z.gtb_spec (c - part * relayPartBytes) relayPartBytes).
  - rewrite Z.min_l by lia. split; [done | unfold relayPartBytes; lia].
  - rewrite Z.min_r by lia. split; [|lia]. f_equal. lia.
Qed.

(** The parts of a ciphertext cover it exactly.  For every positive 64 bit size up to
    the last where the sum of the count does not overflow, each part has a positive size
    of at most 16 MiB, begins where the one before ends, and the last ends with the
    ciphertext; for a larger size the overflow leaves no part at all. *)
Theorem relay_parts_exact c :
  0 < c <= MaxInt64 ->
  (c <= MaxInt64 - relayPartBytes + 1 ->
     0 < relayPartCount c
     /\ (forall part, 0 <= part < relayPartCount c ->
           exists n, relayPartSize c part = (n, true) /\ 0 < n <= relayPartBytes
             /\ (if part + 1 =? relayPartCount c then part * relayPartBytes + n = c else n = relayPartBytes))
     /\ (forall part, part < 0 \/ relayPartCount c <= part -> relayPartSize c part = (0, false)))
  /\ (MaxInt64 - relayPartBytes + 1 < c -> forall part, relayPartSize c part = (0, false)).
Proof.
  intros Hc. split.
  - intros Hm. pose proof (part_count_bounds c (conj (proj1 Hc) Hm)) as Hb.
    split; [unfold relayPartBytes in *; lia|]. split.
    + intros part Hp. destruct (part_size_exact c part) as [E Hn]; [lia..|]. eexists. split; [exact E|]. split; [exact Hn|].
      destruct (Z.eqb_spec (part + 1) (relayPartCount c)) as [Ee|Ene]; unfold relayPartBytes in *; lia.
    + intros part Hp. unfold relayPartSize. destruct (Z.ltb_spec part 0); [done|]. by destruct (Z.geb_spec part (relayPartCount c)); [|lia].
  - intros Hm part. unfold relayPartSize. assert (relayPartCount c <= 0) as Hz.
    { unfold relayPartCount. destruct (Z.leb_spec c 0); [lia|].
      rewrite (wrap64_over (c + relayPartBytes)) by (unfold MaxInt64, relayPartBytes in *; lia).
      rewrite wrap64_id by (unfold int64, MinInt64, MaxInt64, relayPartBytes in *; lia).
      unfold MaxInt64, relayPartBytes in *. rewrite <- (Z.opp_involutive (_ - 1)), Z.quot_opp_l by done.
      pose proof (Z.quot_pos (- (c + 16777216 - 2 ^ 64 - 1)) 16777216). lia. }
    destruct (Z.ltb_spec part 0); [done|]. by destruct (Z.geb_spec part (relayPartCount c)); [|lia].
Qed.

(** The bytes of one part. *)
Definition part_of (s : string) (part : Z) : string := section s (wrap64 (part * relayPartBytes)) (relayPartSize (slen s) part).1.

Fixpoint all_parts (s : string) (part : Z) (n : nat) : string :=
  match n with O => "" | S n => part_of s part +:+ all_parts s (part + 1) n end.

(** The start of a ciphertext, up to a part. *)
Definition before_part (s : string) (part : Z) : string := substring 0 (Z.to_nat (part * relayPartBytes)) s.

Lemma part_offset c part : 0 < c <= MaxInt64 - relayPartBytes + 1 -> 0 <= part < relayPartCount c ->
  wrap64 (part * relayPartBytes) = part * relayPartBytes.
Proof.
  intros Hc Hp. pose proof (part_count_bounds c Hc). apply wrap64_id. unfold int64, MinInt64, MaxInt64, relayPartBytes in *. nia.
Qed.

Lemma before_next s part :
  0 < slen s <= MaxInt64 - relayPartBytes + 1 -> 0 <= part < relayPartCount (slen s) ->
  before_part s part +:+ part_of s part = before_part s (part + 1)
  /\ slen (part_of s part) = (relayPartSize (slen s) part).1.
Proof.
  intros Hc Hp. destruct (part_size_exact _ _ Hc Hp) as [E Hn]. unfold part_of, section, before_part.
  rewrite (part_offset _ _ Hc Hp), E. cbn [fst]. pose proof (part_count_bounds _ Hc) as Hb.
  assert (0 <= part * relayPartBytes < slen s) as Ho by (unfold relayPartBytes in *; nia).
  rewrite slen_bytes_of in *. split.
  - apply bytes_of_inj. rewrite bytes_of_app, !substring_bytes, !drop_0.
    set (a := Z.to_nat (part * relayPartBytes)). set (b := Z.to_nat (Z.min _ _)).
    transitivity (take (a + b) (bytes_of s)).
    { rewrite <- (take_drop a (bytes_of s)) at 3. rewrite take_app. f_equal.
      - rewrite take_take. f_equal. lia.
      - rewrite length_take, Nat.min_l by (unfold a; lia). f_equal. lia. }
    destruct (Z.min_spec relayPartBytes (Z.of_nat (length (bytes_of s)) - part * relayPartBytes)) as [[Hm Em]|[Hm Em]].
    + f_equal. unfold a, b. rewrite Em. unfold relayPartBytes in *. lia.
    + rewrite !take_ge; [done | |]; unfold a, b; rewrite ?Em; unfold relayPartBytes in *; lia.
  - rewrite slen_bytes_of, substring_bytes, length_take, length_drop. unfold relayPartBytes in *. lia.
Qed.

Lemma before_all s : 0 < slen s <= MaxInt64 - relayPartBytes + 1 -> before_part s (relayPartCount (slen s)) = s.
Proof.
  intros Hc. pose proof (part_count_bounds _ Hc) as Hb. unfold before_part. apply bytes_of_inj. rewrite substring_bytes, drop_0, take_ge; [done|].
  rewrite slen_bytes_of in *. lia.
Qed.

Lemma parts_concat s n part :
  0 < slen s <= MaxInt64 - relayPartBytes + 1 -> 0 <= part -> part + Z.of_nat n = relayPartCount (slen s) ->
  before_part s part +:+ all_parts s part n = s.
Proof.
  intros Hc. revert part. induction n as [|n IH]; intros part Hp Hn; cbn [all_parts].
  - replace part with (relayPartCount (slen s)) by lia. rewrite before_all by done. apply bytes_of_inj. rewrite bytes_of_app. cbn. by rewrite app_nil_r.
  - transitivity (before_part s (part + 1) +:+ all_parts s (part + 1) n); [|apply IH; lia].
    destruct (before_next s part Hc ltac:(lia)) as [<- _]. apply bytes_of_inj. rewrite !bytes_of_app. by rewrite app_assoc.
Qed.

(** The files of all parts, none of which is the file written to. *)
Definition parts_present (s dir : string) (i : nat) (w : relayWorld) : Prop :=
  forall part, 0 <= part < relayPartCount (slen s) ->
    exists j, fs_names (rw_fs w) !! relayMultipartPartPath dir part = Some j /\ fs_read j (rw_fs w) = part_of s part /\ j <> i.

Lemma assemble_all s dir i env n part j w :
  0 < slen s <= MaxInt64 - relayPartBytes + 1 -> 0 <= part -> part + Z.of_nat n = relayPartCount (slen s) ->
  (forall k, rv_ok (env k) = true /\ rv_copied (env k) = None) ->
  parts_present s dir i w -> fs_data (rw_fs w) !! i = Some (before_part s part) ->
  exists w' j', exec (assemble n part dir (slen s) i (before_part s part)) env j w = (inr s, w', j')
    /\ fs_data (rw_fs w') !! i = Some s.
Proof.
  intros Hc. revert part j w. induction n as [|n IH]; intros part j w Hp Hn Henv Hpres Hd; cbn [assemble].
  { replace part with (relayPartCount (slen s)) in * by lia. rewrite before_all in * by done. by eexists _, _. }
  cbv zeta. destruct (Hpres part ltac:(lia)) as (f & Hf & Hread & Hne).
  destruct (before_next s part Hc ltac:(lia)) as [Hnext Hlen].
  unfold open_file. rewrite exec_step, (proj1 (Henv j)), Hf. unfold file_content. rewrite exec_step, Hread, Hlen, Z.eqb_refl. cbn [negb].
  unfold write_file. rewrite exec_step. unfold copied. rewrite (proj2 (Henv (S (S j)))). cbn [fst snd andb negb]. rewrite Hlen, Z.eqb_refl.
  cbn [negb orb]. rewrite Hnext. apply IH; [lia | lia | done | | by cbn; rewrite lookup_alter_eq, Hd; cbn; by rewrite Hnext].
  intros q Hq. destruct (Hpres q Hq) as (g & Hg & Hgr & Hgne). exists g. split; [done|]. split; [|done].
  unfold fs_read in *. cbn. by rewrite lookup_alter_ne.
Qed.

(** A ciphertext survives its division into parts.  When the file of each part holds
    the bytes of that part, an undisturbed assembly writes the whole ciphertext; and the
    parts that downloads are given, one after the other, are again the whole
    ciphertext. *)
Theorem relay_parts_roundtrip s dir i env j w :
  0 < slen s <= MaxInt64 - relayPartBytes + 1 -> (forall k, rv_ok (env k) = true /\ rv_copied (env k) = None) ->
  parts_present s dir i w -> fs_data (rw_fs w) !! i = Some ""%string ->
  let n := Z.to_nat (relayPartCount (slen s)) in
  (exists w' j', exec (assemble n 0 dir (slen s) i "") env j w = (inr s, w', j') /\ fs_data (rw_fs w') !! i = Some s)
  /\ all_parts s 0 n = s.
Proof.
  intros Hc Henv Hpres Hd n. pose proof (part_count_bounds _ Hc) as Hb.
  assert (0 + Z.of_nat n = relayPartCount (slen s)) as Hn by (unfold n, relayPartBytes in *; lia).
  assert (before_part s 0 = ""%string) as E0 by (by destruct s).
  pose proof (assemble_all s dir i env n 0 j w Hc) as Ha. pose proof (parts_concat s n 0 Hc) as Hp. rewrite E0 in Ha, Hp.
  split; [by apply Ha | by apply Hp].
Qed.

End Plane.

(** ** A concrete relay *)

#[local] Existing Instance demo_postgres.

(** Decimal numbers as random names. *)
Definition demo_rnd (k : nat) : string := pretty (N.of_nat k).

Lemma demo_rnd_inj : Inj (=) (=) demo_rnd.
Proof. intros a b E. unfold demo_rnd in E. apply (inj pretty) in E. lia. Qed.

Lemma demo_rnd_digits k : demo_rnd k <> ""%string /\ Forall is_digit (bytes_of (demo_rnd k)).
Proof.
  destruct (pretty_N_digits (N.of_nat k)) as (_ & Hd & Hne). split; [|exact Hd]. unfold demo_rnd.
  intros E. apply Hne. by rewrite E.
Qed.

Definition demo_root : list string := ["var"; "relay"].

Lemma demo_root_good : Forall (fun s => good_segment s = true) demo_root.
Proof. repeat constructor. Qed.

Definition demo_bearer : string := digest32.
Definition demo_cipher : string := Eval vm_compute in
  of_bytes (repeat (byte_of 120) (Z.to_nat (match RelayCiphertextSize 5 with Ok n => n | Fail _ => 0 end))).

Definition plane_params : CreateRelayTransferParams :=
  {| rp_ID := relay_rid; rp_WorkflowID := wid1; rp_SnapshotID := sid1; rp_SourceNodeID := 1; rp_TargetNodeID := 9;
     rp_Attempt := 0; rp_UploadTokenHash := sha256 demo_bearer; rp_DownloadTokenHash := sha256 demo_bearer;
     rp_MaxCiphertextBytes := 4096; rp_ExpiresAt := store_now + Hour; rp_Now := store_now |}.

#[local] Notation plane_db :=
  (relay_run (snapshot_run demo_wdb [SCreate 0 relay_create; SBegin 0 wid1 store_now]) [RCreate 0 plane_params id]).

Definition demo_fs : FileSystem :=
  {| fs_names := ∅; fs_dirs := {[ root_path demo_root ]}; fs_data := ∅; fs_next := 0; fs_owner := ∅ |}.

#[local] Notation plane_world := {| rw_db := plane_db; rw_fs := demo_fs; rw_slots := 0 |}.

Definition demo_upload : RelayRequest :=
  {| lr_ID := relay_rid; lr_Part := ""; lr_Authorization := "Bearer " +:+ demo_bearer; lr_ContentType := relayContentType;
     lr_PlaintextLength := "5"; lr_CiphertextLength := ""; lr_ArchiveSha256 := hex_encode digest32; lr_PartSha256 := "";
     lr_CiphertextSha256 := ""; lr_UploadSession := ""; lr_WorkflowID := wid1; lr_SnapshotID := sid1;
     lr_AgentVersion := "0.4.0"; lr_ContentLength := slen demo_cipher; lr_Body := demo_cipher; lr_BodyError := false |}.

Definition plane_env (fate : relay_fate) : relayEnv :=
  {| rv_now := store_now + Second; rv_fate := fate; rv_later := id; rv_done := false; rv_ok := true; rv_copied := None;
     rv_old := fun _ => false; rv_locked := fun _ => false |}.

(** An upload and a download that begins before the upload ends. *)
Definition demo_turns : list (turn (E := relayEnv) (W := relayWorld) relayAnswer) :=
  [Spawn 1 (handler [] demo_root 4096 Hour 2 demo_rnd 1 UploadReq demo_upload)]
  ++ replicate 5 (Turn 1 (plane_env FateAnswers))
  ++ [Spawn 2 (handler [] demo_root 4096 Hour 2 demo_rnd 2 DownloadReq demo_upload)]
  ++ replicate 3 (Turn 2 (plane_env FateAnswers)) ++ replicate 10 (Turn 1 (plane_env FateAnswers))
  ++ replicate 10 (Turn 2 (plane_env FateAnswers)).

#[local] Notation demo_end := (sys_run {| sys_world := plane_world; sys_pool := ∅ |} demo_turns).

Lemma no_paths (m : gmap string RelayTransfer) :
  forallb (fun kt => bool_decide (rt_StoragePath kt.2 = None)) (map_to_list m) = true ->
  forall i t, m !! i = Some t -> rt_StoragePath t = None.
Proof.
  rewrite forallb_forall. intros Hall i t Hl. apply elem_of_map_to_list, list_elem_of_In, Hall in Hl. by apply bool_decide_eq_true in Hl.
Qed.

Lemma plane_no_paths : forallb (fun kt => bool_decide (rt_StoragePath kt.2 = None)) (map_to_list (wd_relays plane_db)) = true.
Proof. vm_compute. reflexivity. Qed.

Lemma demo_spool_inv : spool_inv demo_root demo_rnd plane_world.
Proof.
  split.
  - intros i t p Hl Hp. pose proof (no_paths _ plane_no_paths i t Hl) as E. congruence.
  - intros k i. cbn [rw_fs demo_fs fs_names]. by rewrite lookup_empty.
  - intros k. cbn [rw_fs demo_fs fs_data fs_owner]. rewrite !lookup_empty. by intros [[? ?]|[? ?]].
Qed.

Lemma demo_plane_turns : Forall (plane_turn [] demo_root 4096 Hour 2 demo_rnd) demo_turns.
Proof.
  unfold demo_turns. cbn [replicate app].
  repeat (apply Forall_cons; split; [first [exact I | by do 2 eexists]|]). apply Forall_nil_2.
Qed.

Lemma relay_spool_intact_witness :
  exists c n, hex_encode (sha256 c) = hex_encode (sha256 demo_cipher) /\ slen c = 99 /\ demo_cipher = substring 0 n c.
Proof.
  pose proof (relay_spool_intact [] demo_root 4096 Hour 2 demo_rnd (Inj0 := demo_rnd_inj) demo_rnd_digits demo_root_good
    plane_world demo_turns demo_spool_inv demo_plane_turns) as (_ & _ & Hs).
  apply (Hs 2%nat wid1 sid1 (hex_encode digest32) (hex_encode (sha256 demo_cipher)) 5 99 demo_cipher).
  vm_compute. reflexivity.
Defined.

(** The upload after its claim; the answer of the completion is lost. *)
#[local] Notation claimed_db :=
  (ClaimRelayUpload 0 relay_rid (sha256 demo_bearer) 5 (slen demo_cipher) digest32 (store_now + Second) Hour id plane_db).2.
#[local] Notation claimed_world := {| rw_db := claimed_db; rw_fs := demo_fs; rw_slots := 1 |}.

Definition lossy_env (i : nat) : relayEnv := plane_env (if Nat.eqb i 5 then FateLost else FateAnswers).

#[local] Notation demo_completion := (CompleteRelayUpload (store_now + Second) relay_rid (sha256 demo_bearer) (sha256 demo_cipher)
  (slen demo_cipher) (spool_path demo_root demo_rnd 0) (store_now + Second) claimed_db).

Lemma lost_completion_loses_file_witness :
  let '(answer, w') := run (upload_claimed demo_root demo_rnd 1 demo_upload (sha256 demo_bearer) (slen demo_cipher)) lossy_env claimed_world in
  answer = RelayError 409
  /\ exists id t, wd_relays (rw_db w') !! id = Some t /\ rt_State t = "stored"%string
     /\ rt_StoragePath t = Some (spool_path demo_root demo_rnd 0) /\ fs_names (rw_fs w') !! spool_path demo_root demo_rnd 0 = None.
Proof.
  apply (lost_completion_loses_file demo_root demo_rnd 1 demo_upload (sha256 demo_bearer) (slen demo_cipher)
    lossy_env claimed_world demo_completion.2).
  - cbn. set_solver.
  - reflexivity.
  - intros i. by split.
  - reflexivity.
  - reflexivity.
  - reflexivity.
  - reflexivity.
  - refine (pair_fst _ _ _). vm_compute. reflexivity.
Defined.

Lemma relay_parts_exact_witness :
  relayPartCount 40000000 = 3 /\ relayPartSize 40000000 2 = (6445568, true)
  /\ exists n, relayPartSize 40000000 2 = (n, true) /\ 0 < n <= relayPartBytes
     /\ (if 2 + 1 =? relayPartCount 40000000 then 2 * relayPartBytes + n = 40000000 else n = relayPartBytes).
Proof.
  split; [reflexivity|]. split; [reflexivity|].
  destruct (relay_parts_exact 40000000 ltac:(unfold MaxInt64; lia)) as [Hs _].
  destruct (Hs ltac:(unfold MaxInt64, relayPartBytes; lia)) as (_ & Hp & _). apply Hp. vm_compute. split; [discriminate | reflexivity].
Defined.

(** A ciphertext of one part, received in the directory of a session. *)
Definition parts_world : relayWorld :=
  {| rw_db := demo_wdb; rw_slots := 0;
     rw_fs := {| fs_names := {[ relayMultipartPartPath "/d" 0 := 0%nat ]}; fs_dirs := {[ "/d"%string ]};
                 fs_data := <[0%nat := demo_cipher]> {[ 1%nat := ""%string ]}; fs_next := 2; fs_owner := ∅ |} |}.

Lemma demo_parts_present : parts_present demo_cipher "/d" 1 parts_world.
Proof.
  intros part Hp. assert (part = 0) as -> by (assert (relayPartCount (slen demo_cipher) = 1) as E by reflexivity; lia).
  exists 0%nat. split; [vm_compute; reflexivity|]. split; [vm_compute; reflexivity | done].
Qed.

Lemma relay_parts_roundtrip_witness :
  (exists w' j', exec (assemble 1 0 "/d" (slen demo_cipher) 1 "") (fun _ => plane_env FateAnswers) 0 parts_world = (inr demo_cipher, w', j')
     /\ fs_data (rw_fs w') !! 1%nat = Some demo_cipher)
  /\ all_parts demo_cipher 0 1 = demo_cipher.
Proof.
  apply (relay_parts_roundtrip demo_cipher "/d" 1 (fun _ => plane_env FateAnswers) 0 parts_world).
  - vm_compute. split; [reflexivity | discriminate].
  - intros k. by split.
  - exact demo_parts_present.
  - vm_compute. reflexivity.
Defined.
