(* ===== verification/RecoverySchema.v ===== *)
(** * The recovery tables

    The tables of src/internal/store/migrations behind the recovery of a user: the
    protection states (0016), takeovers (0016), archive restores (0017), replica
    conflicts (0018), data faults (0033, 0051), the further columns of alerts, users
    and nodes that these statements read, and the tickets of the first version.  A
    recovery database is the database of the workflows with these tables beside it,
    and a statement of the workflows runs on it unchanged ([in_w]).

    A parameter of a statement that the server can give no type is an error before
    the statement runs ([infer_params]): the type of a parameter comes from a cast, a
    column or an operator, and an argument of a function of [VARIADIC "any"], such as
    [jsonb_build_object], gives it none. *)

From Stdlib Require Import ZArith Lia Ascii String.
From stdpp Require Import base list gmap strings.
From S2P Require Import Prelude GoStrings Schema Leases WorkflowSchema SnapshotStore.
#[local] Open Scope Z_scope.

(** ** Rows *)

Record Protection := {
  pr_State : string;
  pr_ReasonCode : string;
  pr_AuthoritativeNodeID : option Z;
  pr_RecoveryNodeID : option Z;
  pr_LatestRecoverySnapshotID : option string;
  pr_LatestRecoveryAt : option time;
  pr_Version : Z;
  pr_ChangedAt : time;
  pr_EvaluatedAt : time
}.

Record TakeoverOperation := {
  to_RequestDigest : string;
  to_UserID : Z;
  to_SourceNodeID : Z;
  to_TargetNodeID : Z;
  to_SnapshotID : string;
  to_SnapshotPublishedAt : time;
  to_PreviousActivityEpoch : option Z;
  to_ControllerGeneration : Z;
  to_AcknowledgedAt : time;
  to_CompletedAt : time
}.

Record RestoreOperation := {
  rs_ID : Z;
  rs_RequestDigest : string;
  rs_WorkflowID : string;
  rs_UserID : Z;
  rs_SourceNodeID : Z;
  rs_TargetNodeID : Z;
  rs_SourceSnapshotID : string;
  rs_RestoreSnapshotID : string;
  rs_SourcePublishedAt : time;
  rs_AcknowledgedAt : time;
  rs_CompletedAt : option time
}.

(** The columns of migration 0051: the release of the freeze on the node. *)
Record Release := {
  rl_State : string;
  rl_OperationID : option string;
  rl_ControllerGeneration : option Z;
  rl_Attempt : Z;
  rl_LeaseOwner : option string;
  rl_LeaseUntil : option time;
  rl_NextAttemptAt : option time;
  rl_ErrorCode : option string;
  rl_ReleasedAt : option time
}.

Record DataFault := {
  fa_OperationID : string;
  fa_RequestDigest : string;
  fa_UserID : Z;
  fa_LegacyUserID : Z;
  fa_NodeID : Z;
  fa_LocalHandle : string;
  fa_ReasonCode : string;
  fa_State : string;
  fa_ActivityEpoch : Z;
  fa_ControllerGeneration : Z;
  fa_FreezeOperationID : option string;
  fa_Attempt : Z;
  fa_LeaseOwner : option string;
  fa_LeaseUntil : option time;
  fa_NextAttemptAt : option time;
  fa_ProtectionState : option string;
  fa_ErrorCode : option string;
  fa_ReportedByAdminID : Z;
  fa_ResolutionKind : option string;
  fa_ResolutionOperationID : option string;
  fa_ReportedAt : time;
  fa_FrozenAt : option time;
  fa_ResolvedAt : option time;
  fa_UpdatedAt : time;
  fa_Release : Release
}.

Record AlertFacts := {
  af_Severity : string;
  af_Category : string;
  af_UserID : option Z;
  af_NodeID : option Z;
  af_Summary : string;
  af_FirstSeenAt : time;
  af_NotifyAfter : option time;
  af_OccurrenceCount : Z
}.

Record LegacyTicket := { lt_UserID : Z; lt_UsedAt : option time }.

Record Conflict := {
  cn_UserID : Z;
  cn_State : string;
  cn_ProtectionVersion : Z;
  cn_ControllerGeneration : option Z;
  cn_Version : Z;
  cn_DetectedAt : time;
  cn_SourcesCapturedAt : option time;
  cn_UpdatedAt : time;
  cn_ResolvedAt : option time
}.

Record SourceFacts := {
  so_NodeName : string;
  so_NodeRole : string;
  so_LocalHandle : option string;
  so_SnapshotID : option string;
  so_SourceKind : string;
  so_ReplicaState : string;
  so_IsAuthoritative : bool;
  so_ManifestSHA256 : option string;
  so_FileCount : option Z;
  so_TotalBytes : option Z;
  so_PublishedAt : option time;
  so_LegacyDataVersion : option Z;
  so_LegacyChecksum : option string;
  so_CapturedAt : time
}.

(** ** The database *)

Record RDB := {
  rd_w : WDB;  (* the tables of WorkflowSchema.v *)
  rd_protection : gmap Z Protection;  (* user_protection_states, by user *)
  rd_takeovers : gmap string TakeoverOperation;  (* replica_takeover_operations *)
  rd_restores : gmap string RestoreOperation;  (* restore_operations, by operation_id *)
  rd_restore_seq : Z;  (* the sequence of restore_operations.id *)
  rd_faults : gmap string DataFault;  (* user_data_faults, by id *)
  rd_alerts : gmap string AlertFacts;  (* alerts: the further columns, by deduplication_key *)
  rd_tickets : gmap string LegacyTicket;  (* tickets, by jti *)
  rd_conflicts : gmap string Conflict;  (* replica_conflicts, by id *)
  rd_sources : gmap (string * Z) SourceFacts;  (* replica_conflict_sources, beside the evidence columns *)
  rd_display : gmap Z string;  (* global_users: display_name *)
  rd_names : gmap Z (string * option string)  (* nodes: name, region *)
}.

Definition set_rd_w (x : WDB) (d : RDB) : RDB :=
  Build_RDB x (rd_protection d) (rd_takeovers d) (rd_restores d) (rd_restore_seq d) (rd_faults d)
    (rd_alerts d) (rd_tickets d) (rd_conflicts d) (rd_sources d) (rd_display d) (rd_names d).
Definition set_rd_protection (x : gmap Z Protection) (d : RDB) : RDB :=
  Build_RDB (rd_w d) x (rd_takeovers d) (rd_restores d) (rd_restore_seq d) (rd_faults d) (rd_alerts d)
    (rd_tickets d) (rd_conflicts d) (rd_sources d) (rd_display d) (rd_names d).
Definition set_rd_takeovers (x : gmap string TakeoverOperation) (d : RDB) : RDB :=
  Build_RDB (rd_w d) (rd_protection d) x (rd_restores d) (rd_restore_seq d) (rd_faults d) (rd_alerts d)
    (rd_tickets d) (rd_conflicts d) (rd_sources d) (rd_display d) (rd_names d).
Definition set_rd_restores (x : gmap string RestoreOperation) (d : RDB) : RDB :=
  Build_RDB (rd_w d) (rd_protection d) (rd_takeovers d) x (rd_restore_seq d) (rd_faults d) (rd_alerts d)
    (rd_tickets d) (rd_conflicts d) (rd_sources d) (rd_display d) (rd_names d).
Definition set_rd_restore_seq (x : Z) (d : RDB) : RDB :=
  Build_RDB (rd_w d) (rd_protection d) (rd_takeovers d) (rd_restores d) x (rd_faults d) (rd_alerts d)
    (rd_tickets d) (rd_conflicts d) (rd_sources d) (rd_display d) (rd_names d).
Definition set_rd_faults (x : gmap string DataFault) (d : RDB) : RDB :=
  Build_RDB (rd_w d) (rd_protection d) (rd_takeovers d) (rd_restores d) (rd_restore_seq d) x (rd_alerts d)
    (rd_tickets d) (rd_conflicts d) (rd_sources d) (rd_display d) (rd_names d).
Definition set_rd_alerts (x : gmap string AlertFacts) (d : RDB) : RDB :=
  Build_RDB (rd_w d) (rd_protection d) (rd_takeovers d) (rd_restores d) (rd_restore_seq d) (rd_faults d) x
    (rd_tickets d) (rd_conflicts d) (rd_sources d) (rd_display d) (rd_names d).
Definition set_rd_tickets (x : gmap string LegacyTicket) (d : RDB) : RDB :=
  Build_RDB (rd_w d) (rd_protection d) (rd_takeovers d) (rd_restores d) (rd_restore_seq d) (rd_faults d)
    (rd_alerts d) x (rd_conflicts d) (rd_sources d) (rd_display d) (rd_names d).
Definition set_rd_conflicts (x : gmap string Conflict) (d : RDB) : RDB :=
  Build_RDB (rd_w d) (rd_protection d) (rd_takeovers d) (rd_restores d) (rd_restore_seq d) (rd_faults d)
    (rd_alerts d) (rd_tickets d) x (rd_sources d) (rd_display d) (rd_names d).
Definition set_rd_sources (x : gmap (string * Z) SourceFacts) (d : RDB) : RDB :=
  Build_RDB (rd_w d) (rd_protection d) (rd_takeovers d) (rd_restores d) (rd_restore_seq d) (rd_faults d)
    (rd_alerts d) (rd_tickets d) (rd_conflicts d) x (rd_display d) (rd_names d).
Definition set_rd_display (x : gmap Z string) (d : RDB) : RDB :=
  Build_RDB (rd_w d) (rd_protection d) (rd_takeovers d) (rd_restores d) (rd_restore_seq d) (rd_faults d)
    (rd_alerts d) (rd_tickets d) (rd_conflicts d) (rd_sources d) x (rd_names d).
Definition set_rd_names (x : gmap Z (string * option string)) (d : RDB) : RDB :=
  Build_RDB (rd_w d) (rd_protection d) (rd_takeovers d) (rd_restores d) (rd_restore_seq d) (rd_faults d)
    (rd_alerts d) (rd_tickets d) (rd_conflicts d) (rd_sources d) (rd_display d) x.

(** ** One column at a time *)

Definition fa_set_State (x : string) (r : DataFault) : DataFault :=
  {| fa_OperationID := fa_OperationID r; fa_RequestDigest := fa_RequestDigest r; fa_UserID := fa_UserID r;
     fa_LegacyUserID := fa_LegacyUserID r; fa_NodeID := fa_NodeID r; fa_LocalHandle := fa_LocalHandle r;
     fa_ReasonCode := fa_ReasonCode r; fa_State := x; fa_ActivityEpoch := fa_ActivityEpoch r;
     fa_ControllerGeneration := fa_ControllerGeneration r; fa_FreezeOperationID := fa_FreezeOperationID r;
     fa_Attempt := fa_Attempt r; fa_LeaseOwner := fa_LeaseOwner r; fa_LeaseUntil := fa_LeaseUntil r;
     fa_NextAttemptAt := fa_NextAttemptAt r; fa_ProtectionState := fa_ProtectionState r;
     fa_ErrorCode := fa_ErrorCode r; fa_ReportedByAdminID := fa_ReportedByAdminID r;
     fa_ResolutionKind := fa_ResolutionKind r; fa_ResolutionOperationID := fa_ResolutionOperationID r;
     fa_ReportedAt := fa_ReportedAt r; fa_FrozenAt := fa_FrozenAt r; fa_ResolvedAt := fa_ResolvedAt r;
     fa_UpdatedAt := fa_UpdatedAt r; fa_Release := fa_Release r |}.
Definition fa_set_ControllerGeneration (x : Z) (r : DataFault) : DataFault :=
  {| fa_OperationID := fa_OperationID r; fa_RequestDigest := fa_RequestDigest r; fa_UserID := fa_UserID r;
     fa_LegacyUserID := fa_LegacyUserID r; fa_NodeID := fa_NodeID r; fa_LocalHandle := fa_LocalHandle r;
     fa_ReasonCode := fa_ReasonCode r; fa_State := fa_State r; fa_ActivityEpoch := fa_ActivityEpoch r;
     fa_ControllerGeneration := x; fa_FreezeOperationID := fa_FreezeOperationID r; fa_Attempt := fa_Attempt r;
     fa_LeaseOwner := fa_LeaseOwner r; fa_LeaseUntil := fa_LeaseUntil r;
     fa_NextAttemptAt := fa_NextAttemptAt r; fa_ProtectionState := fa_ProtectionState r;
     fa_ErrorCode := fa_ErrorCode r; fa_ReportedByAdminID := fa_ReportedByAdminID r;
     fa_ResolutionKind := fa_ResolutionKind r; fa_ResolutionOperationID := fa_ResolutionOperationID r;
     fa_ReportedAt := fa_ReportedAt r; fa_FrozenAt := fa_FrozenAt r; fa_ResolvedAt := fa_ResolvedAt r;
     fa_UpdatedAt := fa_UpdatedAt r; fa_Release := fa_Release r |}.
Definition fa_set_FreezeOperationID (x : option string) (r : DataFault) : DataFault :=
  {| fa_OperationID := fa_OperationID r; fa_RequestDigest := fa_RequestDigest r; fa_UserID := fa_UserID r;
     fa_LegacyUserID := fa_LegacyUserID r; fa_NodeID := fa_NodeID r; fa_LocalHandle := fa_LocalHandle r;
     fa_ReasonCode := fa_ReasonCode r; fa_State := fa_State r; fa_ActivityEpoch := fa_ActivityEpoch r;
     fa_ControllerGeneration := fa_ControllerGeneration r; fa_FreezeOperationID := x;
     fa_Attempt := fa_Attempt r; fa_LeaseOwner := fa_LeaseOwner r; fa_LeaseUntil := fa_LeaseUntil r;
     fa_NextAttemptAt := fa_NextAttemptAt r; fa_ProtectionState := fa_ProtectionState r;
     fa_ErrorCode := fa_ErrorCode r; fa_ReportedByAdminID := fa_ReportedByAdminID r;
     fa_ResolutionKind := fa_ResolutionKind r; fa_ResolutionOperationID := fa_ResolutionOperationID r;
     fa_ReportedAt := fa_ReportedAt r; fa_FrozenAt := fa_FrozenAt r; fa_ResolvedAt := fa_ResolvedAt r;
     fa_UpdatedAt := fa_UpdatedAt r; fa_Release := fa_Release r |}.
Definition fa_set_Attempt (x : Z) (r : DataFault) : DataFault :=
  {| fa_OperationID := fa_OperationID r; fa_RequestDigest := fa_RequestDigest r; fa_UserID := fa_UserID r;
     fa_LegacyUserID := fa_LegacyUserID r; fa_NodeID := fa_NodeID r; fa_LocalHandle := fa_LocalHandle r;
     fa_ReasonCode := fa_ReasonCode r; fa_State := fa_State r; fa_ActivityEpoch := fa_ActivityEpoch r;
     fa_ControllerGeneration := fa_ControllerGeneration r; fa_FreezeOperationID := fa_FreezeOperationID r;
     fa_Attempt := x; fa_LeaseOwner := fa_LeaseOwner r; fa_LeaseUntil := fa_LeaseUntil r;
     fa_NextAttemptAt := fa_NextAttemptAt r; fa_ProtectionState := fa_ProtectionState r;
     fa_ErrorCode := fa_ErrorCode r; fa_ReportedByAdminID := fa_ReportedByAdminID r;
     fa_ResolutionKind := fa_ResolutionKind r; fa_ResolutionOperationID := fa_ResolutionOperationID r;
     fa_ReportedAt := fa_ReportedAt r; fa_FrozenAt := fa_FrozenAt r; fa_ResolvedAt := fa_ResolvedAt r;
     fa_UpdatedAt := fa_UpdatedAt r; fa_Release := fa_Release r |}.
Definition fa_set_LeaseOwner (x : option string) (r : DataFault) : DataFault :=
  {| fa_OperationID := fa_OperationID r; fa_RequestDigest := fa_RequestDigest r; fa_UserID := fa_UserID r;
     fa_LegacyUserID := fa_LegacyUserID r; fa_NodeID := fa_NodeID r; fa_LocalHandle := fa_LocalHandle r;
     fa_ReasonCode := fa_ReasonCode r; fa_State := fa_State r; fa_ActivityEpoch := fa_ActivityEpoch r;
     fa_ControllerGeneration := fa_ControllerGeneration r; fa_FreezeOperationID := fa_FreezeOperationID r;
     fa_Attempt := fa_Attempt r; fa_LeaseOwner := x; fa_LeaseUntil := fa_LeaseUntil r;
     fa_NextAttemptAt := fa_NextAttemptAt r; fa_ProtectionState := fa_ProtectionState r;
     fa_ErrorCode := fa_ErrorCode r; fa_ReportedByAdminID := fa_ReportedByAdminID r;
     fa_ResolutionKind := fa_ResolutionKind r; fa_ResolutionOperationID := fa_ResolutionOperationID r;
     fa_ReportedAt := fa_ReportedAt r; fa_FrozenAt := fa_FrozenAt r; fa_ResolvedAt := fa_ResolvedAt r;
     fa_UpdatedAt := fa_UpdatedAt r; fa_Release := fa_Release r |}.
Definition fa_set_LeaseUntil (x : option time) (r : DataFault) : DataFault :=
  {| fa_OperationID := fa_OperationID r; fa_RequestDigest := fa_RequestDigest r; fa_UserID := fa_UserID r;
     fa_LegacyUserID := fa_LegacyUserID r; fa_NodeID := fa_NodeID r; fa_LocalHandle := fa_LocalHandle r;
     fa_ReasonCode := fa_ReasonCode r; fa_State := fa_State r; fa_ActivityEpoch := fa_ActivityEpoch r;
     fa_ControllerGeneration := fa_ControllerGeneration r; fa_FreezeOperationID := fa_FreezeOperationID r;
     fa_Attempt := fa_Attempt r; fa_LeaseOwner := fa_LeaseOwner r; fa_LeaseUntil := x;
     fa_NextAttemptAt := fa_NextAttemptAt r; fa_ProtectionState := fa_ProtectionState r;
     fa_ErrorCode := fa_ErrorCode r; fa_ReportedByAdminID := fa_ReportedByAdminID r;
     fa_ResolutionKind := fa_ResolutionKind r; fa_ResolutionOperationID := fa_ResolutionOperationID r;
     fa_ReportedAt := fa_ReportedAt r; fa_FrozenAt := fa_FrozenAt r; fa_ResolvedAt := fa_ResolvedAt r;
     fa_UpdatedAt := fa_UpdatedAt r; fa_Release := fa_Release r |}.
Definition fa_set_NextAttemptAt (x : option time) (r : DataFault) : DataFault :=
  {| fa_OperationID := fa_OperationID r; fa_RequestDigest := fa_RequestDigest r; fa_UserID := fa_UserID r;
     fa_LegacyUserID := fa_LegacyUserID r; fa_NodeID := fa_NodeID r; fa_LocalHandle := fa_LocalHandle r;
     fa_ReasonCode := fa_ReasonCode r; fa_State := fa_State r; fa_ActivityEpoch := fa_ActivityEpoch r;
     fa_ControllerGeneration := fa_ControllerGeneration r; fa_FreezeOperationID := fa_FreezeOperationID r;
     fa_Attempt := fa_Attempt r; fa_LeaseOwner := fa_LeaseOwner r; fa_LeaseUntil := fa_LeaseUntil r;
     fa_NextAttemptAt := x; fa_ProtectionState := fa_ProtectionState r; fa_ErrorCode := fa_ErrorCode r;
     fa_ReportedByAdminID := fa_ReportedByAdminID r; fa_ResolutionKind := fa_ResolutionKind r;
     fa_ResolutionOperationID := fa_ResolutionOperationID r; fa_ReportedAt := fa_ReportedAt r;
     fa_FrozenAt := fa_FrozenAt r; fa_ResolvedAt := fa_ResolvedAt r; fa_UpdatedAt := fa_UpdatedAt r;
     fa_Release := fa_Release r |}.
Definition fa_set_ProtectionState (x : option string) (r : DataFault) : DataFault :=
  {| fa_OperationID := fa_OperationID r; fa_RequestDigest := fa_RequestDigest r; fa_UserID := fa_UserID r;
     fa_LegacyUserID := fa_LegacyUserID r; fa_NodeID := fa_NodeID r; fa_LocalHandle := fa_LocalHandle r;
     fa_ReasonCode := fa_ReasonCode r; fa_State := fa_State r; fa_ActivityEpoch := fa_ActivityEpoch r;
     fa_ControllerGeneration := fa_ControllerGeneration r; fa_FreezeOperationID := fa_FreezeOperationID r;
     fa_Attempt := fa_Attempt r; fa_LeaseOwner := fa_LeaseOwner r; fa_LeaseUntil := fa_LeaseUntil r;
     fa_NextAttemptAt := fa_NextAttemptAt r; fa_ProtectionState := x; fa_ErrorCode := fa_ErrorCode r;
     fa_ReportedByAdminID := fa_ReportedByAdminID r; fa_ResolutionKind := fa_ResolutionKind r;
     fa_ResolutionOperationID := fa_ResolutionOperationID r; fa_ReportedAt := fa_ReportedAt r;
     fa_FrozenAt := fa_FrozenAt r; fa_ResolvedAt := fa_ResolvedAt r; fa_UpdatedAt := fa_UpdatedAt r;
     fa_Release := fa_Release r |}.
Definition fa_set_ErrorCode (x : option string) (r : DataFault) : DataFault :=
  {| fa_OperationID := fa_OperationID r; fa_RequestDigest := fa_RequestDigest r; fa_UserID := fa_UserID r;
     fa_LegacyUserID := fa_LegacyUserID r; fa_NodeID := fa_NodeID r; fa_LocalHandle := fa_LocalHandle r;
     fa_ReasonCode := fa_ReasonCode r; fa_State := fa_State r; fa_ActivityEpoch := fa_ActivityEpoch r;
     fa_ControllerGeneration := fa_ControllerGeneration r; fa_FreezeOperationID := fa_FreezeOperationID r;
     fa_Attempt := fa_Attempt r; fa_LeaseOwner := fa_LeaseOwner r; fa_LeaseUntil := fa_LeaseUntil r;
     fa_NextAttemptAt := fa_NextAttemptAt r; fa_ProtectionState := fa_ProtectionState r; fa_ErrorCode := x;
     fa_ReportedByAdminID := fa_ReportedByAdminID r; fa_ResolutionKind := fa_ResolutionKind r;
     fa_ResolutionOperationID := fa_ResolutionOperationID r; fa_ReportedAt := fa_ReportedAt r;
     fa_FrozenAt := fa_FrozenAt r; fa_ResolvedAt := fa_ResolvedAt r; fa_UpdatedAt := fa_UpdatedAt r;
     fa_Release := fa_Release r |}.
Definition fa_set_ResolutionKind (x : option string) (r : DataFault) : DataFault :=
  {| fa_OperationID := fa_OperationID r; fa_RequestDigest := fa_RequestDigest r; fa_UserID := fa_UserID r;
     fa_LegacyUserID := fa_LegacyUserID r; fa_NodeID := fa_NodeID r; fa_LocalHandle := fa_LocalHandle r;
     fa_ReasonCode := fa_ReasonCode r; fa_State := fa_State r; fa_ActivityEpoch := fa_ActivityEpoch r;
     fa_ControllerGeneration := fa_ControllerGeneration r; fa_FreezeOperationID := fa_FreezeOperationID r;
     fa_Attempt := fa_Attempt r; fa_LeaseOwner := fa_LeaseOwner r; fa_LeaseUntil := fa_LeaseUntil r;
     fa_NextAttemptAt := fa_NextAttemptAt r; fa_ProtectionState := fa_ProtectionState r;
     fa_ErrorCode := fa_ErrorCode r; fa_ReportedByAdminID := fa_ReportedByAdminID r; fa_ResolutionKind := x;
     fa_ResolutionOperationID := fa_ResolutionOperationID r; fa_ReportedAt := fa_ReportedAt r;
     fa_FrozenAt := fa_FrozenAt r; fa_ResolvedAt := fa_ResolvedAt r; fa_UpdatedAt := fa_UpdatedAt r;
     fa_Release := fa_Release r |}.
Definition fa_set_ResolutionOperationID (x : option string) (r : DataFault) : DataFault :=
  {| fa_OperationID := fa_OperationID r; fa_RequestDigest := fa_RequestDigest r; fa_UserID := fa_UserID r;
     fa_LegacyUserID := fa_LegacyUserID r; fa_NodeID := fa_NodeID r; fa_LocalHandle := fa_LocalHandle r;
     fa_ReasonCode := fa_ReasonCode r; fa_State := fa_State r; fa_ActivityEpoch := fa_ActivityEpoch r;
     fa_ControllerGeneration := fa_ControllerGeneration r; fa_FreezeOperationID := fa_FreezeOperationID r;
     fa_Attempt := fa_Attempt r; fa_LeaseOwner := fa_LeaseOwner r; fa_LeaseUntil := fa_LeaseUntil r;
     fa_NextAttemptAt := fa_NextAttemptAt r; fa_ProtectionState := fa_ProtectionState r;
     fa_ErrorCode := fa_ErrorCode r; fa_ReportedByAdminID := fa_ReportedByAdminID r;
     fa_ResolutionKind := fa_ResolutionKind r; fa_ResolutionOperationID := x; fa_ReportedAt := fa_ReportedAt r;
     fa_FrozenAt := fa_FrozenAt r; fa_ResolvedAt := fa_ResolvedAt r; fa_UpdatedAt := fa_UpdatedAt r;
     fa_Release := fa_Release r |}.
Definition fa_set_FrozenAt (x : option time) (r : DataFault) : DataFault :=
  {| fa_OperationID := fa_OperationID r; fa_RequestDigest := fa_RequestDigest r; fa_UserID := fa_UserID r;
     fa_LegacyUserID := fa_LegacyUserID r; fa_NodeID := fa_NodeID r; fa_LocalHandle := fa_LocalHandle r;
     fa_ReasonCode := fa_ReasonCode r; fa_State := fa_State r; fa_ActivityEpoch := fa_ActivityEpoch r;
     fa_ControllerGeneration := fa_ControllerGeneration r; fa_FreezeOperationID := fa_FreezeOperationID r;
     fa_Attempt := fa_Attempt r; fa_LeaseOwner := fa_LeaseOwner r; fa_LeaseUntil := fa_LeaseUntil r;
     fa_NextAttemptAt := fa_NextAttemptAt r; fa_ProtectionState := fa_ProtectionState r;
     fa_ErrorCode := fa_ErrorCode r; fa_ReportedByAdminID := fa_ReportedByAdminID r;
     fa_ResolutionKind := fa_ResolutionKind r; fa_ResolutionOperationID := fa_ResolutionOperationID r;
     fa_ReportedAt := fa_ReportedAt r; fa_FrozenAt := x; fa_ResolvedAt := fa_ResolvedAt r;
     fa_UpdatedAt := fa_UpdatedAt r; fa_Release := fa_Release r |}.
Definition fa_set_ResolvedAt (x : option time) (r : DataFault) : DataFault :=
  {| fa_OperationID := fa_OperationID r; fa_RequestDigest := fa_RequestDigest r; fa_UserID := fa_UserID r;
     fa_LegacyUserID := fa_LegacyUserID r; fa_NodeID := fa_NodeID r; fa_LocalHandle := fa_LocalHandle r;
     fa_ReasonCode := fa_ReasonCode r; fa_State := fa_State r; fa_ActivityEpoch := fa_ActivityEpoch r;
     fa_ControllerGeneration := fa_ControllerGeneration r; fa_FreezeOperationID := fa_FreezeOperationID r;
     fa_Attempt := fa_Attempt r; fa_LeaseOwner := fa_LeaseOwner r; fa_LeaseUntil := fa_LeaseUntil r;
     fa_NextAttemptAt := fa_NextAttemptAt r; fa_ProtectionState := fa_ProtectionState r;
     fa_ErrorCode := fa_ErrorCode r; fa_ReportedByAdminID := fa_ReportedByAdminID r;
     fa_ResolutionKind := fa_ResolutionKind r; fa_ResolutionOperationID := fa_ResolutionOperationID r;
     fa_ReportedAt := fa_ReportedAt r; fa_FrozenAt := fa_FrozenAt r; fa_ResolvedAt := x;
     fa_UpdatedAt := fa_UpdatedAt r; fa_Release := fa_Release r |}.
Definition fa_set_UpdatedAt (x : time) (r : DataFault) : DataFault :=
  {| fa_OperationID := fa_OperationID r; fa_RequestDigest := fa_RequestDigest r; fa_UserID := fa_UserID r;
     fa_LegacyUserID := fa_LegacyUserID r; fa_NodeID := fa_NodeID r; fa_LocalHandle := fa_LocalHandle r;
     fa_ReasonCode := fa_ReasonCode r; fa_State := fa_State r; fa_ActivityEpoch := fa_ActivityEpoch r;
     fa_ControllerGeneration := fa_ControllerGeneration r; fa_FreezeOperationID := fa_FreezeOperationID r;
     fa_Attempt := fa_Attempt r; fa_LeaseOwner := fa_LeaseOwner r; fa_LeaseUntil := fa_LeaseUntil r;
     fa_NextAttemptAt := fa_NextAttemptAt r; fa_ProtectionState := fa_ProtectionState r;
     fa_ErrorCode := fa_ErrorCode r; fa_ReportedByAdminID := fa_ReportedByAdminID r;
     fa_ResolutionKind := fa_ResolutionKind r; fa_ResolutionOperationID := fa_ResolutionOperationID r;
     fa_ReportedAt := fa_ReportedAt r; fa_FrozenAt := fa_FrozenAt r; fa_ResolvedAt := fa_ResolvedAt r;
     fa_UpdatedAt := x; fa_Release := fa_Release r |}.
Definition fa_set_Release (x : Release) (r : DataFault) : DataFault :=
  {| fa_OperationID := fa_OperationID r; fa_RequestDigest := fa_RequestDigest r; fa_UserID := fa_UserID r;
     fa_LegacyUserID := fa_LegacyUserID r; fa_NodeID := fa_NodeID r; fa_LocalHandle := fa_LocalHandle r;
     fa_ReasonCode := fa_ReasonCode r; fa_State := fa_State r; fa_ActivityEpoch := fa_ActivityEpoch r;
     fa_ControllerGeneration := fa_ControllerGeneration r; fa_FreezeOperationID := fa_FreezeOperationID r;
     fa_Attempt := fa_Attempt r; fa_LeaseOwner := fa_LeaseOwner r; fa_LeaseUntil := fa_LeaseUntil r;
     fa_NextAttemptAt := fa_NextAttemptAt r; fa_ProtectionState := fa_ProtectionState r;
     fa_ErrorCode := fa_ErrorCode r; fa_ReportedByAdminID := fa_ReportedByAdminID r;
     fa_ResolutionKind := fa_ResolutionKind r; fa_ResolutionOperationID := fa_ResolutionOperationID r;
     fa_ReportedAt := fa_ReportedAt r; fa_FrozenAt := fa_FrozenAt r; fa_ResolvedAt := fa_ResolvedAt r;
     fa_UpdatedAt := fa_UpdatedAt r; fa_Release := x |}.

(** ** Statements *)

Notation RTx := (TxS RDB).

(** A statement on the tables of the workflows. *)
Definition in_w {A} (m : WTx A) : RTx A := fun d =>
  match m (rd_w d) with Ok (a, w) => Ok (a, set_rd_w w d) | Fail e => Fail e end.

(** [QueryRow ... Scan]. *)
Definition rselect {A} (q : RDB -> option A) (missing : string) : RTx A :=
  fun d => match q d with Some a => Ok (a, d) | None => Fail missing end.

(** How a statement uses one parameter at one place. *)
Inductive param_use := Typed | AnyArgument.

Definition is_typed (u : param_use) : bool := match u with Typed => true | AnyArgument => false end.

(** The places of $1, $2, ...: each parameter needs one that gives it a type. *)
Definition infer_params (uses : list (list param_use)) : RTx unit :=
  require (forallb (existsb is_typed) uses) "pq: could not determine data type of parameter".

(** [n] parameters that are cast or compared or stored. *)
Definition typed (n : nat) : list (list param_use) := replicate n [Typed].

(** [INSERT INTO audit_events]. *)
Definition insert_audit (uses : list (list param_use)) (action : string) (target : Z) (op : string)
  (generation : Z) (detail : list (string * detail_value)) : RTx unit :=
  let! _ := infer_params uses in
  in_w (tx_write (fun w => put_core (set_audit ({| ae_Action := action; ae_TargetID := target;
    ae_OperationID := op; ae_ControllerGeneration := generation; ae_Detail := detail |} :: db_audit (wd_core w))
    (wd_core w)) w)).

Definition set_users (x : gmap Z GlobalUser) (d : DB) : DB :=
  Build_DB x (db_legacy d) (db_admins d) (db_nodes d) (db_accounts d) (db_epochs d)
    (db_leases d) (db_lease_ops d) (db_tickets d) (db_sessions d) (db_commands d)
    (db_credentials d) (db_rotations d) (db_rebuilds d) (db_rebuild_nodes d)
    (db_enrollments d) (db_nonces d) (db_audit d).
Definition set_legacy (x : gmap Z LegacyUser) (d : DB) : DB :=
  Build_DB (db_users d) x (db_admins d) (db_nodes d) (db_accounts d) (db_epochs d)
    (db_leases d) (db_lease_ops d) (db_tickets d) (db_sessions d) (db_commands d)
    (db_credentials d) (db_rotations d) (db_rebuilds d) (db_rebuild_nodes d)
    (db_enrollments d) (db_nonces d) (db_audit d).

Definition core (d : RDB) : DB := wd_core (rd_w d).

(** [global_users JOIN users]: the user, the legacy id and the legacy user. *)
Definition joined_user (d : RDB) (user : Z) : option (GlobalUser * Z * LegacyUser) :=
  match db_users (core d) !! user with
  | Some g => match gu_LegacyUserID g with
              | Some l => (fun us => (g, l, us)) <$> db_legacy (core d) !! l
              | None => None
              end
  | None => None
  end.

Definition both_active (x : GlobalUser * Z * LegacyUser) : bool :=
  String.eqb (gu_Status x.1.1) "active" && String.eqb (us_Status x.2) "active".

(** [role=... AND connectivity_state='online' AND operational_state='active' AND
    compatibility_state='compatible']. *)
Definition node_healthy (role : string) (n : Node) : bool :=
  String.eqb (nd_Role n) role && reachable n && String.eqb (nd_OperationalState n) "active".

Definition healthy_at (d : RDB) (role : string) (id : Z) : bool :=
  match node_of (rd_w d) id with Some n => node_healthy role n | None => false end.

(** The account of a user on a node has a status. *)
Definition account_is (d : RDB) (user node : Z) (status : string) : bool :=
  bool_decide (na_Status <$> db_accounts (core d) !! (user, node) = Some status).

(** The manifest of a snapshot of the user that can no longer change. *)
Definition immutable_of (d : RDB) (user : Z) (sid : string) : option SnapshotManifest :=
  match wd_manifests (rd_w d) !! sid with
  | Some s => if (sm_UserID s =? user) && String.eqb (sm_State s) "immutable" then Some s else None
  | None => None
  end.

(** The error of every operation that would move the home of a user who may still
    write. *)
Definition ErrReplicaTakeoverLeaseActive : string := "source writer lease is still active".

(** ** Replicas *)

(** The two unique indexes of replica_copies: one authoritative copy and one ready
    archive per user. *)
Definition copies_ok (m : gmap (Z * Z) ReplicaCopy) : bool :=
  Nat.eqb (length (rows_where (fun k c => negb (Nat.eqb (length (rows_where (fun k' c' =>
    (k'.1 =? k.1) && negb (k'.2 =? k.2)
    && ((rc_IsAuthoritative c && rc_IsAuthoritative c')
        || (ready_archive k.1 k c && ready_archive k.1 k' c'))) m)) 0)) m)) 0.

Definition write_copies (m : gmap (Z * Z) ReplicaCopy) : RTx unit := fun d =>
  if copies_ok m then Ok (tt, set_rd_w (put_copies m (rd_w d)) d) else Fail sql_error.

(** [UPDATE replica_copies]; the columns that statements set. *)
Definition copy_set (kind state origin : string) (authoritative : bool) (now : time) (c : ReplicaCopy) : ReplicaCopy :=
  {| rc_ID := rc_ID c; rc_SnapshotID := rc_SnapshotID c; rc_Kind := kind; rc_State := state; rc_Origin := origin;
     rc_IsAuthoritative := authoritative; rc_CompatibilityState := rc_CompatibilityState c;
     rc_PublishedAt := rc_PublishedAt c; rc_VerifiedAt := rc_VerifiedAt c; rc_CreatedAt := rc_CreatedAt c;
     rc_UpdatedAt := now; rc_Integrity := rc_Integrity c |}.

(** The integrity columns of a new row take their defaults. *)
Definition integrity_default (clock : time) : Integrity :=
  {| ig_State := "due"; ig_CheckKind := "deep"; ig_OperationID := None; ig_ControllerGeneration := None;
     ig_LeaseUntil := None; ig_Attempt := 0; ig_CheckedAt := None; ig_LastLightAt := None; ig_LastDeepAt := None;
     ig_NextCheckAt := clock; ig_DeepCheckAt := Some clock; ig_ErrorCode := None |}.

(** [INSERT INTO replica_copies (...) ON CONFLICT (user_id,node_id) DO UPDATE]: the
    row of the pair, made new from [fresh] or changed by [again]. *)
Definition upsert_copy (user node : Z) (fresh : ReplicaCopy) (again : ReplicaCopy -> ReplicaCopy) : RTx unit := fun d =>
  if user_exists (rd_w d) user && node_exists (rd_w d) node
  then match wd_copies (rd_w d) !! (user, node) with
       | Some c => write_copies (<[(user, node) := again c]> (wd_copies (rd_w d))) d
       | None =>
           if Nat.eqb (length (rows_where (fun _ c => String.eqb (rc_ID c) (rc_ID fresh)) (wd_copies (rd_w d)))) 0
           then write_copies (<[(user, node) := fresh]> (wd_copies (rd_w d))) d else Fail sql_error
       end
  else Fail sql_error.

(** [UPDATE user_replicas SET kind, state]. *)
Definition replica_set (kind state : string) (r : UserReplica) : UserReplica :=
  {| ur_Kind := kind; ur_DataVersion := ur_DataVersion r; ur_State := state; ur_LastSyncAt := ur_LastSyncAt r;
     ur_Checksum := ur_Checksum r; ur_SizeBytes := ur_SizeBytes r |}.

(** An UPDATE of the replica of one pair, with the number of rows. *)
Definition update_replica (legacy node : Z) (p : UserReplica -> bool) (f : UserReplica -> UserReplica) : RTx bool :=
  fun d => match wd_replicas (rd_w d) !! (legacy, node) with
  | Some r => if p r then Ok (true, set_rd_w (put_replicas (<[(legacy, node) := f r]> (wd_replicas (rd_w d))) (rd_w d)) d)
              else Ok (false, d)
  | None => Ok (false, d)
  end.

(** [UPDATE users SET home_node_id=$2 WHERE id=$1]. *)
Definition set_home (legacy node : Z) : RTx bool := fun d =>
  match db_legacy (core d) !! legacy with
  | Some _ => if node_exists (rd_w d) node
              then Ok (true, set_rd_w (put_homes (<[legacy := node]> (wd_homes (rd_w d))) (rd_w d)) d)
              else Fail sql_error
  | None => Ok (false, d)
  end.

(** ** The fence of a changed home *)

(** [UPDATE user_activity_leases SET state='ended',lease_expires_at=$2,updated_at=$2]. *)
Definition lease_ended (now : time) (l : ActivityLease) : ActivityLease :=
  {| ls_UserID := ls_UserID l; ls_WriterNodeID := ls_WriterNodeID l; ls_SessionID := ls_SessionID l;
     ls_ActivityEpoch := ls_ActivityEpoch l; ls_State := "ended"; ls_LeaseExpiresAt := now;
     ls_LastPageHeartbeatAt := ls_LastPageHeartbeatAt l; ls_LastRequestAt := ls_LastRequestAt l;
     ls_InFlightReads := ls_InFlightReads l; ls_InFlightWrites := ls_InFlightWrites l;
     ls_ControllerGeneration := ls_ControllerGeneration l; ls_UpdatedAt := now |}.

Definition end_user_lease (user : Z) (now : time) : RTx unit := in_w (tx_write (fun w =>
  put_core (set_leases (update_where (fun u _ => u =? user) (lease_ended now) (db_leases (wd_core w))) (wd_core w)) w)).

Definition ticket_revoked (now : time) (t : ControlTicket) : ControlTicket :=
  {| tk_OperationID := tk_OperationID t; tk_SecretHash := tk_SecretHash t; tk_TicketType := tk_TicketType t;
     tk_Issuer := tk_Issuer t; tk_Audience := tk_Audience t; tk_Subject := tk_Subject t; tk_UserID := tk_UserID t;
     tk_TargetNodeID := tk_TargetNodeID t; tk_SessionID := tk_SessionID t; tk_ActivityEpoch := tk_ActivityEpoch t;
     tk_KeyID := tk_KeyID t; tk_ControllerGeneration := tk_ControllerGeneration t; tk_IssuedAt := tk_IssuedAt t;
     tk_NotBefore := tk_NotBefore t; tk_ExpiresAt := tk_ExpiresAt t; tk_ConsumedAt := tk_ConsumedAt t;
     tk_ConsumedByNodeID := tk_ConsumedByNodeID t; tk_RevokedAt := coalesce (tk_RevokedAt t) now |}.

(** [UPDATE control_tickets SET revoked_at=COALESCE(revoked_at,$2) WHERE user_id=$1
    AND consumed_at IS NULL]. *)
Definition revoke_user_tickets (user : Z) (now : time) : RTx unit := in_w (tx_write (fun w =>
  put_core (set_tickets (update_where (fun _ t => bool_decide (tk_UserID t = Some user) && bool_decide (tk_ConsumedAt t = None))
    (ticket_revoked now) (db_tickets (wd_core w))) (wd_core w)) w)).

(** [UPDATE node_accounts SET status=CASE WHEN node_id=$2 THEN 'active' ELSE 'stale'
    END WHERE user_id=$1 AND node_id IN ($2,$4)], and the number of rows. *)
Definition swap_accounts (user target old : Z) (now : time) : RTx nat := fun d =>
  let here {V} (k : Z * Z) (_ : V) := (k.1 =? user) && ((k.2 =? target) || (k.2 =? old)) in
  Ok (length (rows_where here (db_accounts (core d))),
    set_rd_w (put_materials (update_where here (fun m =>
        {| am_AccountVersion := am_AccountVersion m; am_PasswordMaterialVersion := am_PasswordMaterialVersion m;
           am_PasswordHash := am_PasswordHash m; am_PasswordSalt := am_PasswordSalt m;
           am_OAuthSubjects := am_OAuthSubjects m; am_ProvisioningWorkflowID := am_ProvisioningWorkflowID m;
           am_LocalUserID := am_LocalUserID m; am_UpdatedAt := now |}) (wd_materials (rd_w d)))
      (put_core (set_accounts (map_imap (fun k a => Some (if here k a
          then {| na_LocalHandle := na_LocalHandle a; na_Status := if k.2 =? target then "active" else "stale" |} else a))
          (db_accounts (core d))) (core d)) (rd_w d))) d).

(** ** Protection *)

Definition protection_states : list string :=
  ["protected"; "temporary"; "unprotected"; "takeover_available"; "restore_required"; "unavailable"; "conflict"].

(** [INSERT INTO user_protection_states ('unprotected', ...) ON CONFLICT (user_id) DO
    UPDATE]: the user has a new home and no copy of it yet. *)
Definition protect_anew (user node : Z) (reason : string) (now : time) : RTx unit := fun d =>
  if user_exists (rd_w d) user && node_exists (rd_w d) node
  then
    let version := match rd_protection d !! user with Some p => pr_Version p + 1 | None => 1 end in
    if version <=? MaxInt64
    then Ok (tt, set_rd_protection (<[user :=
      {| pr_State := "unprotected"; pr_ReasonCode := reason; pr_AuthoritativeNodeID := Some node;
         pr_RecoveryNodeID := None; pr_LatestRecoverySnapshotID := None; pr_LatestRecoveryAt := None;
         pr_Version := version; pr_ChangedAt := now; pr_EvaluatedAt := now |}]> (rd_protection d)) d)
    else Fail sql_error
  else Fail sql_error.
