(* ===== verification/DataFaults.v ===== *)
(** * Data faults of users

    src/internal/store/user_data_faults.go: an administrator reports that the data of
    a user on its home node is damaged.  The report closes the user for writing in
    one transaction; a worker of the Controller then freezes the data on the node
    (claim, retry, completion), the user recovers by a takeover or a restore, which
    resolve the fault, and a second round of claims releases the node's gate.

    A row of the store stands for the flattened status that the source scans it
    into: a null column is [None] there and the zero value in the status. *)

From Stdlib Require Import ZArith Lia Ascii String.
From stdpp Require Import base list gmap strings pretty.
From S2P Require Import Prelude GoStrings Schema Leases Handoffs WorkflowSchema SnapshotStore RecoverySchema.
#[local] Open Scope Z_scope.

Definition ErrInvalidUserDataFault : string := "invalid user data fault input".
Definition ErrUserDataFaultNotFound : string := "user data fault not found".
Definition ErrUserDataFaultOperationConflict : string := "user data fault operation conflict".
Definition ErrUserDataFaultAlreadyOpen : string := "user already has an open data fault".
Definition ErrUserDataFaultHomeConflict : string := "reported home node does not match authoritative home".
Definition ErrUserDataFaultAuthoritativeConflict : string := "user has conflicting authoritative replicas".
Definition ErrUserDataFaultState : string := "user data fault state conflict".

Definition userDataFaultReasonCodes : list string :=
  ["authoritative_integrity_mismatch"; "user_directory_missing"; "user_directory_unreadable"; "user_database_corrupt"].

Record ReportUserDataFaultParams := {
  rp_OperationID : string;
  rp_RequestDigest : string;
  rp_UserUUID : string;
  rp_ExpectedHomeNodeID : Z;
  rp_ReasonCode : string;
  rp_AdminID : Z;
  rp_Now : time
}.

Record UserDataFaultStatus := {
  ds_ID : string;
  ds_UserUUID : string;
  ds_Fault : DataFault;
  ds_Replayed : bool
}.

Record UserDataFaultTask := {
  ft_ID : string;
  ft_OperationID : string;
  ft_GlobalUserID : Z;
  ft_UserUUID : string;
  ft_NodeID : Z;
  ft_Handle : string;
  ft_ActivityEpoch : Z;
  ft_Attempt : Z;
  ft_ControllerGeneration : Z
}.

(** The two Go types have the same fields. *)
Definition UserDataFaultReleaseTask : Type := UserDataFaultTask.

(** ** Constraints of the table *)

Definition fault_states : list string :=
  ["reported"; "freezing"; "retry_wait"; "recovery_available"; "recovery_unavailable"; "resolved"].
Definition release_states : list string :=
  ["not_required"; "pending"; "releasing"; "retry_wait"; "released"; "superseded"].

Definition isSome {A} (o : option A) : bool := match o with Some _ => true | None => false end.
Definition isNone {A} (o : option A) : bool := negb (isSome o).

Definition code_ok (o : option string) : bool :=
  match o with Some c => ValidMachineReasonCode c | None => true end.

(** ck_user_data_fault_release_shape. *)
Definition release_shape (r : Release) : bool :=
  let idle := isNone (rl_OperationID r) && isNone (rl_ControllerGeneration r) && (rl_Attempt r =? 0) in
  let tried := isSome (rl_OperationID r) && isSome (rl_ControllerGeneration r) && (0 <? rl_Attempt r) in
  let unleased := isNone (rl_LeaseOwner r) && isNone (rl_LeaseUntil r) in
  let shape (base lease next error released : bool) :=
    base && lease && Bool.eqb (isSome (rl_NextAttemptAt r)) next && Bool.eqb (isSome (rl_ErrorCode r)) error
    && Bool.eqb (isSome (rl_ReleasedAt r)) released in
  let at_state (s : string) := String.eqb (rl_State r) s in
  (at_state "not_required"%string && shape idle unleased false false false)
  || (at_state "pending"%string && shape idle unleased true false false)
  || (at_state "releasing"%string && shape tried (isSome (rl_LeaseOwner r) && isSome (rl_LeaseUntil r)) false false false)
  || (at_state "retry_wait"%string && shape tried unleased true true false)
  || (at_state "released"%string && shape tried unleased false false true)
  || (at_state "superseded"%string && shape idle unleased false false false).

Definition is_resolved (f : DataFault) : bool := String.eqb (fa_State f) "resolved".

(** The CHECK constraints of a row. *)
Definition fault_ok (f : DataFault) : bool :=
  (slen (fa_RequestDigest f) =? 32) && (1 <=? slen (fa_LocalHandle f)) && (slen (fa_LocalHandle f) <=? 255)
  && bool_decide (fa_ReasonCode f ∈ userDataFaultReasonCodes) && bool_decide (fa_State f ∈ fault_states)
  && (0 <? fa_ActivityEpoch f) && (0 <=? fa_Attempt f) && (fa_Attempt f <=? MaxInt32)
  && match fa_ProtectionState f with
     | Some s => bool_decide (s ∈ ["takeover_available"; "restore_required"; "unavailable"; "conflict"])
     | None => true end
  && code_ok (fa_ErrorCode f)
  && match fa_ResolutionKind f with Some k => bool_decide (k ∈ ["takeover"; "restore"]) | None => true end
  && (if String.eqb (fa_State f) "freezing"
      then isSome (fa_FreezeOperationID f) && isSome (fa_LeaseOwner f) && isSome (fa_LeaseUntil f)
      else isNone (fa_LeaseOwner f) && isNone (fa_LeaseUntil f))
  && (if is_resolved f
      then isSome (fa_FrozenAt f) && isSome (fa_ResolvedAt f) && isSome (fa_ResolutionKind f)
           && isSome (fa_ResolutionOperationID f)
      else isNone (fa_ResolvedAt f) && isNone (fa_ResolutionKind f) && isNone (fa_ResolutionOperationID f))
  && (0 <=? rl_Attempt (fa_Release f)) && (rl_Attempt (fa_Release f) <=? MaxInt32)
  && code_ok (rl_ErrorCode (fa_Release f))
  && Bool.eqb (is_resolved f) (negb (String.eqb (rl_State (fa_Release f)) "not_required"))
  && release_shape (fa_Release f).

(** The rows of uq_user_data_fault_release_open. *)
Definition release_open (f : DataFault) : bool :=
  is_resolved f && negb (bool_decide (rl_State (fa_Release f) ∈ ["released"; "superseded"])).

Definition same_some (a b : option string) : bool := isSome a && bool_decide (a = b).

(** Two rows a unique index refuses. *)
Definition faults_clash (f f' : DataFault) : bool :=
  String.eqb (fa_OperationID f) (fa_OperationID f')
  || ((fa_UserID f =? fa_UserID f')
      && ((negb (is_resolved f) && negb (is_resolved f')) || (release_open f && release_open f')))
  || same_some (fa_FreezeOperationID f) (fa_FreezeOperationID f')
  || same_some (rl_OperationID (fa_Release f)) (rl_OperationID (fa_Release f')).

Definition faults_ok (m : gmap string DataFault) : bool :=
  Nat.eqb (length (rows_where (fun id f => negb (fault_ok f)
    || negb (Nat.eqb (length (rows_where (fun id' f' => negb (String.eqb id' id) && faults_clash f f') m)) 0)) m)) 0.

Definition write_faults (m : gmap string DataFault) : RTx unit := fun d =>
  if faults_ok m then Ok (tt, set_rd_faults m d) else Fail sql_error.

(** [UPDATE user_data_faults SET f WHERE id=$1 AND p]. *)
Definition update_fault (fid : string) (p : RDB -> DataFault -> bool) (f : DataFault -> DataFault) : RTx bool := fun d =>
  match rd_faults d !! fid with
  | Some x => if p d x
              then match write_faults (<[fid := f x]> (rd_faults d)) d with
                   | Ok (_, d') => Ok (true, d') | Fail e => Fail e end
              else Ok (false, d)
  | None => Ok (false, d)
  end.

(** The generation of a fault or of its release is the active one. *)
Definition generation_current (d : RDB) (g : Z) : bool := generation_active g (rd_w d).

(** [$4 >= t], false for a null. *)
Definition due_at (now : time) (o : option time) : bool := match o with Some t => t <=? now | None => false end.
Definition live_at (now : time) (o : option time) : bool := match o with Some t => now <? t | None => false end.

Section DataFaults.
Context `{Postgres}.

(** ** Reading *)

(** [user_data_faults JOIN global_users]. *)
Definition fault_status (replayed : bool) (d : RDB) (x : string * DataFault) : option UserDataFaultStatus :=
  (fun g => {| ds_ID := x.1; ds_UserUUID := gu_UUID g; ds_Fault := x.2; ds_Replayed := replayed |})
    <$> db_users (core d) !! fa_UserID x.2.

Definition GetUserDataFaultByID (faultID : string) (d : RDB) : result UserDataFaultStatus :=
  if negb (validUUIDText faultID) then Fail ErrInvalidUserDataFault
  else match uuid_in faultID with
  | None => Fail sql_error
  | Some fid => match rd_faults d !! fid ≫= fun f => fault_status false d (fid, f) with
                | Some s => Ok s
                | None => Fail ErrUserDataFaultNotFound
                end
  end.

(** [ORDER BY fault.reported_at DESC,fault.id DESC LIMIT 1]. *)
Definition later_fault (best : option (string * DataFault)) (x : string * DataFault) : option (string * DataFault) :=
  match best with
  | Some b => if (fa_ReportedAt b.2 <? fa_ReportedAt x.2)
                 || ((fa_ReportedAt b.2 =? fa_ReportedAt x.2) && String.ltb b.1 x.1) then Some x else best
  | None => Some x
  end.

Definition GetUserDataFaultByUserUUID (userUUID : string) (d : RDB) : result (option UserDataFaultStatus) :=
  if negb (validUUIDText userUUID) then Fail ErrInvalidUserDataFault
  else match uuid_in userUUID with
  | None => Fail sql_error
  | Some uuid =>
      Ok (foldl later_fault None (rows_where (fun _ f =>
            bool_decide (gu_UUID <$> db_users (core d) !! fa_UserID f = Some uuid)) (rd_faults d))
          ≫= fault_status false d)
  end.

(** [ORDER BY updated_at,id]. *)
Definition fault_before (key : DataFault -> time) (x y : string * DataFault) : bool :=
  (key x.2 <? key y.2)
  || ((key x.2 =? key y.2) && ((fa_UpdatedAt x.2 <? fa_UpdatedAt y.2)
      || ((fa_UpdatedAt x.2 =? fa_UpdatedAt y.2) && negb (String.ltb y.1 x.1)))).

Fixpoint insert_fault (key : DataFault -> time) (x : string * DataFault) (l : list (string * DataFault)) :=
  match l with
  | [] => [x]
  | y :: r => if fault_before key x y then x :: y :: r else y :: insert_fault key x r
  end.

Definition order_faults (key : DataFault -> time) (l : list (string * DataFault)) : list (string * DataFault) :=
  foldr (insert_fault key) [] l.

(** What a worker may freeze next. *)
Definition freezable (now : time) (f : DataFault) : bool :=
  String.eqb (fa_State f) "reported"
  || (String.eqb (fa_State f) "retry_wait" && due_at now (fa_NextAttemptAt f))
  || (String.eqb (fa_State f) "freezing" && due_at now (fa_LeaseUntil f)).

Definition ListSchedulableUserDataFaultIDs (clock : time) (limit : Z) (d : RDB) : list string :=
  map fst (take (batch limit) (order_faults fa_UpdatedAt
    (rows_where (fun _ => freezable (ts clock)) (rd_faults d)))).

(** What a worker may release next. *)
Definition releasable (now : time) (f : DataFault) : bool :=
  let r := fa_Release f in
  is_resolved f
  && (String.eqb (rl_State r) "pending"
      || (String.eqb (rl_State r) "retry_wait" && due_at now (rl_NextAttemptAt r))
      || (String.eqb (rl_State r) "releasing" && due_at now (rl_LeaseUntil r))).

(** [COALESCE(release_next_attempt_at,release_lease_until)], which the shape of such
    a row makes non-null. *)
Definition release_key (f : DataFault) : time :=
  default (default 0 (rl_LeaseUntil (fa_Release f))) (rl_NextAttemptAt (fa_Release f)).

Definition ListSchedulableUserDataFaultReleaseIDs (clock : time) (limit : Z) (d : RDB) : list string :=
  map fst (take (batch limit) (order_faults release_key
    (rows_where (fun _ => releasable (ts clock)) (rd_faults d)))).

(** ** Reporting *)

Definition report_valid (p : ReportUserDataFaultParams) : bool :=
  validUUIDText (rp_OperationID p) && validUUIDText (rp_UserUUID p) && (slen (rp_RequestDigest p) =? 32)
  && (0 <? rp_ExpectedHomeNodeID p) && (0 <? rp_AdminID p)
  && bool_decide (rp_ReasonCode p ∈ userDataFaultReasonCodes).

Definition fault_by_operation (op : string) (d : RDB) : option (string * DataFault) :=
  head (rows_where (fun _ f => String.eqb (fa_OperationID f) op) (rd_faults d)).

(** A repeated report must be the same report. *)
Definition same_report (p : ReportUserDataFaultParams) (s : UserDataFaultStatus) : bool :=
  String.eqb (ds_UserUUID s) (rp_UserUUID p) && (fa_NodeID (ds_Fault s) =? rp_ExpectedHomeNodeID p)
  && String.eqb (fa_ReasonCode (ds_Fault s)) (rp_ReasonCode p)
  && (fa_ReportedByAdminID (ds_Fault s) =? rp_AdminID p)
  && String.eqb (fa_RequestDigest (ds_Fault s)) (rp_RequestDigest p).

Record reported_user := { ru_User : Z; ru_Legacy : Z; ru_Home : option Z; ru_Role : option string;
                          ru_Handle : string; ru_Epoch : Z }.

(** The user of the report with its home, the role of the node and its handle there. *)
Definition report_row (uuid : string) (d : RDB) : option reported_user :=
  match head (rows_where (fun u g => String.eqb (gu_UUID g) uuid
                            && match joined_user d u with Some x => both_active x | None => false end)
                (db_users (core d))) with
  | Some (u, _) =>
      match joined_user d u with
      | Some (_, l, us) =>
          let home := wd_homes (rd_w d) !! l in
          Some {| ru_User := u; ru_Legacy := l; ru_Home := home;
                  ru_Role := home ≫= fun n => nd_Role <$> node_of (rd_w d) n;
                  ru_Handle := default (us_Username us) (home ≫= fun n => na_LocalHandle <$> db_accounts (core d) !! (u, n));
                  ru_Epoch := default 1 (ls_ActivityEpoch <$> db_leases (core d) !! u) |}
      | None => None
      end
  | None => None
  end.

(** Another node holds an authoritative copy. *)
Definition authority_elsewhere (user home : Z) (d : RDB) : bool :=
  negb (Nat.eqb (length (rows_where (fun k c => (k.1 =? user) && rc_IsAuthoritative c && negb (k.2 =? home))
                           (wd_copies (rd_w d)))) 0).

(** A fault of the user that is open, or whose release is. *)
Definition fault_unfinished (user : Z) (f : DataFault) : bool :=
  (fa_UserID f =? user)
  && (negb (is_resolved f) || negb (bool_decide (rl_State (fa_Release f) ∈ ["released"; "superseded"]))).

Definition no_release : Release :=
  {| rl_State := "not_required"; rl_OperationID := None; rl_ControllerGeneration := None; rl_Attempt := 0;
     rl_LeaseOwner := None; rl_LeaseUntil := None; rl_NextAttemptAt := None; rl_ErrorCode := None;
     rl_ReleasedAt := None |}.

(** [INSERT INTO user_data_faults]. *)
Definition insert_report (fid op : string) (p : ReportUserDataFaultParams) (u : reported_user) (home generation : Z)
  (now : time) : RTx unit := fun d =>
  match rd_faults d !! fid with
  | Some _ => Fail sql_error
  | None =>
      if bool_decide (is_Some (db_admins (core d) !! rp_AdminID p))
      then write_faults (<[fid :=
        {| fa_OperationID := op; fa_RequestDigest := rp_RequestDigest p; fa_UserID := ru_User u;
           fa_LegacyUserID := ru_Legacy u; fa_NodeID := home; fa_LocalHandle := ru_Handle u;
           fa_ReasonCode := rp_ReasonCode p; fa_State := "reported"; fa_ActivityEpoch := ru_Epoch u;
           fa_ControllerGeneration := generation; fa_FreezeOperationID := None; fa_Attempt := 0;
           fa_LeaseOwner := None; fa_LeaseUntil := None; fa_NextAttemptAt := None; fa_ProtectionState := None;
           fa_ErrorCode := None; fa_ReportedByAdminID := rp_AdminID p; fa_ResolutionKind := None;
           fa_ResolutionOperationID := None; fa_ReportedAt := now; fa_FrozenAt := None; fa_ResolvedAt := None;
           fa_UpdatedAt := now; fa_Release := no_release |}]> (rd_faults d)) d
      else Fail sql_error
  end.

(** The home replica of the user is corrupt. *)
Definition corrupt_replica (legacy node : Z) (now : time) : RTx unit := fun d =>
  if legacy_exists (rd_w d) legacy && node_exists (rd_w d) node
  then let old := wd_replicas (rd_w d) !! (legacy, node) in
       Ok (tt, set_rd_w (put_replicas (<[(legacy, node) :=
         {| ur_Kind := "home"; ur_DataVersion := default 0 (ur_DataVersion <$> old); ur_State := "corrupt";
            ur_LastSyncAt := Some now; ur_Checksum := old ≫= ur_Checksum; ur_SizeBytes := old ≫= ur_SizeBytes |}]>
         (wd_replicas (rd_w d))) (rd_w d)) d)
  else Fail sql_error.

Definition corrupt_integrity (reason : string) (i : Integrity) : Integrity :=
  {| ig_State := "corrupt"; ig_CheckKind := ig_CheckKind i; ig_OperationID := None;
     ig_ControllerGeneration := ig_ControllerGeneration i; ig_LeaseUntil := None; ig_Attempt := ig_Attempt i;
     ig_CheckedAt := ig_CheckedAt i; ig_LastLightAt := ig_LastLightAt i; ig_LastDeepAt := ig_LastDeepAt i;
     ig_NextCheckAt := ig_NextCheckAt i; ig_DeepCheckAt := ig_DeepCheckAt i; ig_ErrorCode := Some reason |}.

(** The authoritative copy of the user is corrupt and has no snapshot. *)
Definition corrupt_copy (clock : time) (copy_id : string) (user node : Z) (reason : string) (now : time) : RTx unit :=
  upsert_copy user node
    {| rc_ID := copy_id; rc_SnapshotID := None; rc_Kind := "active"; rc_State := "corrupt"; rc_Origin := "primary";
       rc_IsAuthoritative := true; rc_CompatibilityState := "compatible"; rc_PublishedAt := None;
       rc_VerifiedAt := None; rc_CreatedAt := now; rc_UpdatedAt := now;
       rc_Integrity := corrupt_integrity reason (integrity_default clock) |}
    (fun c => {| rc_ID := rc_ID c; rc_SnapshotID := None; rc_Kind := "active"; rc_State := "corrupt";
       rc_Origin := "primary"; rc_IsAuthoritative := true; rc_CompatibilityState := rc_CompatibilityState c;
       rc_PublishedAt := rc_PublishedAt c; rc_VerifiedAt := rc_VerifiedAt c; rc_CreatedAt := rc_CreatedAt c;
       rc_UpdatedAt := now; rc_Integrity := corrupt_integrity reason (rc_Integrity c) |}).

(** The writer lease ends, and no request is in flight any more. *)
Definition close_lease (user : Z) (now : time) : RTx unit := in_w (tx_write (fun w =>
  put_core (set_leases (update_where (fun u l => (u =? user) && negb (String.eqb (ls_State l) "ended"))
    (fun l => {| ls_UserID := ls_UserID l; ls_WriterNodeID := ls_WriterNodeID l; ls_SessionID := ls_SessionID l;
       ls_ActivityEpoch := ls_ActivityEpoch l; ls_State := "ended"; ls_LeaseExpiresAt := now;
       ls_LastPageHeartbeatAt := ls_LastPageHeartbeatAt l; ls_LastRequestAt := ls_LastRequestAt l;
       ls_InFlightReads := 0; ls_InFlightWrites := 0; ls_ControllerGeneration := ls_ControllerGeneration l;
       ls_UpdatedAt := now |}) (db_leases (wd_core w))) (wd_core w)) w)).

(** The control tickets of the user are revoked and the old tickets used up. *)
Definition close_tickets (user legacy : Z) (now : time) : RTx unit :=
  let! _ := in_w (tx_write (fun w => put_core (set_tickets (update_where (fun _ t =>
      bool_decide (tk_UserID t = Some user) && bool_decide (tk_ConsumedAt t = None)
      && bool_decide (tk_RevokedAt t = None)) (ticket_revoked now) (db_tickets (wd_core w))) (wd_core w)) w)) in
  tx_write (fun d => set_rd_tickets (update_where (fun _ t => (lt_UserID t =? legacy) && bool_decide (lt_UsedAt t = None))
    (fun t => {| lt_UserID := lt_UserID t; lt_UsedAt := Some now |}) (rd_tickets d)) d).

Definition fault_alert (user : Z) : string := "user-data-fault:" +:+ pretty user.

(** [INSERT INTO alerts ... ON CONFLICT (deduplication_key) DO UPDATE]. *)
Definition raise_alert (user node : Z) (now : time) : RTx unit := tx_write (fun d =>
  let key := fault_alert user in
  let facts := match rd_alerts d !! key with
    | Some a => {| af_Severity := "critical"; af_Category := af_Category a; af_UserID := af_UserID a;
                   af_NodeID := Some node; af_Summary := af_Summary a; af_FirstSeenAt := af_FirstSeenAt a;
                   af_NotifyAfter := Some now; af_OccurrenceCount := af_OccurrenceCount a + 1 |}
    | None => {| af_Severity := "critical"; af_Category := "user_data_fault"; af_UserID := Some user;
                 af_NodeID := Some node; af_Summary := "用户权威数据故障：写入已关闭，等待冻结与恢复判定";
                 af_FirstSeenAt := now; af_NotifyAfter := Some now; af_OccurrenceCount := 1 |}
    end in
  set_rd_alerts (<[key := facts]> (rd_alerts d))
    (set_rd_w (put_alerts (<[key := {| at_State := "open"; at_ResolvedAt := None; at_LastSeenAt := now |}]>
       (wd_alerts (rd_w d))) (rd_w d)) d)).

(** The statements of a new report, after its checks. *)
Definition report_writes (clock : time) (fid copy_id op : string) (p : ReportUserDataFaultParams) (u : reported_user)
  (home generation : Z) (now : time) : RTx unit :=
  let! _ := insert_report fid op p u home generation now in
  let! _ := corrupt_replica (ru_Legacy u) home now in
  let! _ := corrupt_copy (ts clock) copy_id (ru_User u) home (rp_ReasonCode p) now in
  let! _ := close_lease (ru_User u) now in
  let! _ := close_tickets (ru_User u) (ru_Legacy u) now in
  let! _ := raise_alert (ru_User u) home now in
  insert_audit (typed 9) "user-data-fault-reported" (ru_User u) op generation
    [("fault_id", DText fid); ("node_id", DInt home); ("reason_code", DText (rp_ReasonCode p));
     ("activity_epoch", DInt (ru_Epoch u)); ("state", DText "reported")]%string.

(** A null role cannot be scanned into a string, so a user without a home node is an
    error of the database here. *)
Definition report_tx (clock : time) (fid copy_id : string) (p : ReportUserDataFaultParams) (now : time)
  : RTx (option UserDataFaultStatus) :=
  let! op := uuid_param (rp_OperationID p) in
  let! old := tx_read (fun d => fault_by_operation op d ≫= fault_status true d) in
  match old with
  | Some s => let! _ := require (same_report p s) ErrUserDataFaultOperationConflict in tx_ret (Some s)
  | None =>
      let! uuid := uuid_param (rp_UserUUID p) in
      let! u := rselect (report_row uuid) ErrUserDataFaultNotFound in
      let! role := tx_lift (match ru_Role u with Some r => Ok r | None => Fail sql_error end) in
      let home := default 0 (ru_Home u) in
      let! _ := require (bool_decide (ru_Home u = Some (rp_ExpectedHomeNodeID p)) && String.eqb role "compute")
                  ErrUserDataFaultHomeConflict in
      let! elsewhere := tx_read (authority_elsewhere (ru_User u) home) in
      let! _ := require (negb elsewhere) ErrUserDataFaultAuthoritativeConflict in
      let! open := tx_read (fun d => rows_where (fun _ => fault_unfinished (ru_User u)) (rd_faults d)) in
      let! _ := require (Nat.eqb (length open) 0) ErrUserDataFaultAlreadyOpen in
      let! generation := rselect (fun d => active_generation (core d)) ErrNoActiveController in
      let! _ := report_writes clock fid copy_id op p u home generation now in
      tx_ret None
  end.

(** [fid] and [copy_id] are the ids the server makes; [later] is what other
    transactions made of the database before the fault is read again. *)
Definition ReportUserDataFault (clock : time) (fid copy_id : string) (p : ReportUserDataFaultParams)
  (later : RDB -> RDB) (d : RDB) : result UserDataFaultStatus * RDB :=
  if negb (report_valid p) then (Fail ErrInvalidUserDataFault, d)
  else match runTx (report_tx clock fid copy_id p (ts (now_or clock (rp_Now p)))) d with
  | (Ok (Some s), d) => (Ok s, d)
  | (Ok None, d) => (GetUserDataFaultByID fid (later d), d)
  | (Fail e, d) => (Fail e, d)
  end.

(** ** Freezing *)

Definition task_of (d : RDB) (fid op : string) (attempt generation : Z) (f : DataFault) : option UserDataFaultTask :=
  (fun g => {| ft_ID := fid; ft_OperationID := op; ft_GlobalUserID := fa_UserID f; ft_UserUUID := gu_UUID g;
     ft_NodeID := fa_NodeID f; ft_Handle := fa_LocalHandle f; ft_ActivityEpoch := fa_ActivityEpoch f;
     ft_Attempt := attempt; ft_ControllerGeneration := generation |}) <$> db_users (core d) !! fa_UserID f.

(** A freeze keeps its operation id within a generation. *)
Definition claimed_operation (g : Z) (fresh : string) (f : DataFault) : string :=
  if fa_ControllerGeneration f =? g then default fresh (fa_FreezeOperationID f) else fresh.

Definition claimed_fault (g : Z) (op worker : string) (now until : time) (f : DataFault) : DataFault :=
  fa_set_State "freezing" (fa_set_FreezeOperationID (Some (claimed_operation g op f)) (fa_set_ControllerGeneration g
    (fa_set_LeaseOwner (Some worker) (fa_set_LeaseUntil (Some until) (fa_set_Attempt (fa_Attempt f + 1)
      (fa_set_NextAttemptAt None (fa_set_ErrorCode None (fa_set_UpdatedAt now f)))))))).

(** A claim: the row, when the predicate holds of it and a generation is active. *)
Definition claim_fault (fid : string) (p : DataFault -> bool) (f : Z -> DataFault -> DataFault)
  (task : RDB -> string -> DataFault -> option UserDataFaultTask) : RTx (option UserDataFaultTask) := fun d =>
  match rd_faults d !! fid, active_generation (core d) with
  | Some x, Some g =>
      if p x
      then match write_faults (<[fid := f g x]> (rd_faults d)) d with
           | Ok (_, d') => Ok (task d' fid (f g x), d')
           | Fail e => Fail e
           end
      else Ok (None, d)
  | _, _ => Ok (None, d)
  end.

Definition ClaimUserDataFault (clock : time) (faultID freezeOperationID workerID : string) (now : time)
  (leaseTTL : duration) (d : RDB) : result (option UserDataFaultTask) * RDB :=
  if negb (validUUIDText faultID && validUUIDText freezeOperationID && validUUIDText workerID) || (leaseTTL <=? 0)
  then (Fail ErrInvalidUserDataFault, d)
  else
    let now := now_or clock now in
    runTx (
      let! fid := uuid_param faultID in
      let! op := uuid_param freezeOperationID in
      let! worker := uuid_param workerID in
      claim_fault fid (freezable (ts now)) (fun g => claimed_fault g op worker (ts now) (ts (now + leaseTTL)))
        (fun d id f => task_of d id (default ""%string (fa_FreezeOperationID f)) (fa_Attempt f)
                         (fa_ControllerGeneration f) f)) d.

(** The worker holds the freeze, in the active generation. *)
Definition freeze_held (op worker : string) (now : time) (d : RDB) (f : DataFault) : bool :=
  bool_decide (fa_FreezeOperationID f = Some op) && bool_decide (fa_LeaseOwner f = Some worker)
  && String.eqb (fa_State f) "freezing" && live_at now (fa_LeaseUntil f)
  && generation_current d (fa_ControllerGeneration f).

(** What the protection of the user says of the recovery. *)
Definition frozen_state (protection : string) : string :=
  if bool_decide (protection ∈ ["takeover_available"; "restore_required"]) then "recovery_available"
  else "recovery_unavailable".
Definition frozen_protection (protection : string) : string :=
  if bool_decide (protection ∈ ["takeover_available"; "restore_required"; "unavailable"; "conflict"]) then protection
  else "unavailable".

Definition frozen_fault (protection : string) (now : time) (f : DataFault) : DataFault :=
  fa_set_State (frozen_state protection) (fa_set_ProtectionState (Some (frozen_protection protection))
    (fa_set_FrozenAt (Some now) (fa_set_LeaseOwner None (fa_set_LeaseUntil None (fa_set_NextAttemptAt None
      (fa_set_ErrorCode None (fa_set_UpdatedAt now f))))))).

(** The fault of the claim, with the protection state of its user. *)
Definition freezing_row (fid op worker : string) (now : time) (d : RDB) : option (DataFault * string) :=
  match rd_faults d !! fid with
  | Some f => if freeze_held op worker now d f
              then (fun p => (f, pr_State p)) <$> rd_protection d !! fa_UserID f else None
  | None => None
  end.

Definition CompleteUserDataFaultFreeze (clock : time) (faultID freezeOperationID workerID : string) (now : time)
  (later : RDB -> RDB) (d : RDB) : result UserDataFaultStatus * RDB :=
  if negb (validUUIDText faultID && validUUIDText freezeOperationID && validUUIDText workerID)
  then (Fail ErrInvalidUserDataFault, d)
  else
    let now := ts (now_or clock now) in
    match runTx (
      let! fid := uuid_param faultID in
      let! op := uuid_param freezeOperationID in
      let! worker := uuid_param workerID in
      let! (f, protection) := rselect (freezing_row fid op worker now) ErrUserDataFaultState in
      let! _ := update_fault fid (fun _ _ => true) (frozen_fault protection now) in
      insert_audit (typed 6) "user-data-fault-frozen" (fa_UserID f) op (fa_ControllerGeneration f)
        [("fault_id", DText faultID); ("state", DText (frozen_state protection));
         ("protection_state", DText (frozen_protection protection))]%string) d with
    | (Ok _, d) => (GetUserDataFaultByID faultID (later d), d)
    | (Fail e, d) => (Fail e, d)
    end.

Definition retried_fault (code : string) (next now : time) (f : DataFault) : DataFault :=
  fa_set_State "retry_wait" (fa_set_LeaseOwner None (fa_set_LeaseUntil None (fa_set_NextAttemptAt (Some next)
    (fa_set_ErrorCode (Some code) (fa_set_UpdatedAt now f))))).

Definition RetryUserDataFault (clock : time) (faultID freezeOperationID workerID errorCode : string) (now : time)
  (retryAfter : duration) (d : RDB) : result unit * RDB :=
  if negb (validUUIDText faultID && validUUIDText freezeOperationID && validUUIDText workerID
           && ValidMachineReasonCode errorCode) || (retryAfter <=? 0)
  then (Fail ErrInvalidUserDataFault, d)
  else
    let now := now_or clock now in
    runTx (
      let! fid := uuid_param faultID in
      let! op := uuid_param freezeOperationID in
      let! worker := uuid_param workerID in
      let! one := update_fault fid (freeze_held op worker (ts now)) (retried_fault errorCode (ts (now + retryAfter)) (ts now)) in
      require one ErrUserDataFaultState) d.

(** ** Recovery *)

(** The open fault of a user; uq_user_data_fault_open keeps one. *)
Definition open_fault (user : Z) (d : RDB) : option (string * DataFault) :=
  head (rows_where (fun _ f => (fa_UserID f =? user) && negb (is_resolved f)) (rd_faults d)).

Definition requireUserDataFaultRecoveryReadyLocked (userID : Z) : RTx unit := fun d =>
  match open_fault userID d with
  | None => Ok (tt, d)
  | Some (_, f) => if String.eqb (fa_State f) "recovery_available" then Ok (tt, d) else Fail ErrUserDataFaultState
  end.

Definition pending_release (now : time) : Release :=
  {| rl_State := "pending"; rl_OperationID := None; rl_ControllerGeneration := None; rl_Attempt := 0;
     rl_LeaseOwner := None; rl_LeaseUntil := None; rl_NextAttemptAt := Some now; rl_ErrorCode := None;
     rl_ReleasedAt := None |}.

Definition resolved_fault (kind op : string) (now : time) (f : DataFault) : DataFault :=
  fa_set_State "resolved" (fa_set_ResolutionKind (Some kind) (fa_set_ResolutionOperationID (Some op)
    (fa_set_ResolvedAt (Some now) (fa_set_UpdatedAt now (fa_set_ErrorCode None (fa_set_NextAttemptAt None
      (fa_set_Release (pending_release now) f))))))).

Definition recoverable_fault (user : Z) (f : DataFault) : bool :=
  (fa_UserID f =? user) && String.eqb (fa_State f) "recovery_available".

Definition resolve_fault_alert (user : Z) (now : time) : RTx unit := in_w (tx_write (fun w =>
  put_alerts (update_where (fun k a => String.eqb k (fault_alert user) && bool_decide (at_State a ∈ ["open"; "acknowledged"]))
    (fun _ => {| at_State := "resolved"; at_ResolvedAt := Some now; at_LastSeenAt := now |}) (wd_alerts w)) w)).

Definition resolveUserDataFaultLocked (userID : Z) (resolutionKind resolutionOperationID : string) (now : time) : RTx unit :=
  let! _ := require (bool_decide (resolutionKind ∈ ["takeover"; "restore"]) && validUUIDText resolutionOperationID)
              ErrInvalidUserDataFault in
  let! op := uuid_param resolutionOperationID in
  let! rows := tx_read (fun d => length (rows_where (fun _ => recoverable_fault userID) (rd_faults d))) in
  let! _ := (fun d => write_faults (update_where (fun _ => recoverable_fault userID)
               (resolved_fault resolutionKind op now) (rd_faults d)) d) in
  match rows with
  | O => tx_ret tt
  | S O => resolve_fault_alert userID now
  | _ => tx_fail ErrUserDataFaultState
  end.

(** ** Releasing *)

Definition claimed_release_operation (g : Z) (fresh : string) (r : Release) : string :=
  if bool_decide (rl_ControllerGeneration r = Some g) then default fresh (rl_OperationID r)
  else match rl_ControllerGeneration r with Some _ => fresh | None => default fresh (rl_OperationID r) end.

Definition claimed_release (g : Z) (op worker : string) (now until : time) (f : DataFault) : DataFault :=
  let r := fa_Release f in
  fa_set_Release {| rl_State := "releasing"; rl_OperationID := Some (claimed_release_operation g op r);
     rl_ControllerGeneration := Some g; rl_Attempt := rl_Attempt r + 1; rl_LeaseOwner := Some worker;
     rl_LeaseUntil := Some until; rl_NextAttemptAt := None; rl_ErrorCode := None; rl_ReleasedAt := rl_ReleasedAt r |}
    (fa_set_UpdatedAt now f).

Definition ClaimUserDataFaultRelease (clock : time) (faultID releaseOperationID workerID : string) (now : time)
  (leaseTTL : duration) (d : RDB) : result (option UserDataFaultReleaseTask) * RDB :=
  if negb (validUUIDText faultID && validUUIDText releaseOperationID && validUUIDText workerID) || (leaseTTL <=? 0)
  then (Fail ErrInvalidUserDataFault, d)
  else
    let now := now_or clock now in
    runTx (
      let! fid := uuid_param faultID in
      let! op := uuid_param releaseOperationID in
      let! worker := uuid_param workerID in
      claim_fault fid (releasable (ts now)) (fun g => claimed_release g op worker (ts now) (ts (now + leaseTTL)))
        (fun d id f => task_of d id (default ""%string (rl_OperationID (fa_Release f))) (rl_Attempt (fa_Release f))
                         (default 0 (rl_ControllerGeneration (fa_Release f))) f)) d.

Definition release_done (now : time) (f : DataFault) : DataFault :=
  let r := fa_Release f in
  fa_set_Release {| rl_State := "released"; rl_OperationID := rl_OperationID r;
     rl_ControllerGeneration := rl_ControllerGeneration r; rl_Attempt := rl_Attempt r; rl_LeaseOwner := None;
     rl_LeaseUntil := None; rl_NextAttemptAt := None; rl_ErrorCode := None; rl_ReleasedAt := Some now |}
    (fa_set_UpdatedAt now f).

(** The texts of the stored ids are compared with the arguments. *)
Definition release_held (op worker : string) (generation : Z) (f : DataFault) : bool :=
  let r := fa_Release f in
  is_resolved f && String.eqb (rl_State r) "releasing" && bool_decide (rl_OperationID r = Some op)
  && bool_decide (rl_ControllerGeneration r = Some generation) && bool_decide (rl_LeaseOwner r = Some worker).

Definition CompleteUserDataFaultRelease (clock : time) (faultID releaseOperationID workerID : string) (now : time)
  (d : RDB) : result unit * RDB :=
  if negb (validUUIDText faultID && validUUIDText releaseOperationID && validUUIDText workerID)
  then (Fail ErrInvalidUserDataFault, d)
  else
    let now := ts (now_or clock now) in
    runTx (
      let! generation := rselect (fun d => active_generation (core d)) ErrNoActiveController in
      let! fid := uuid_param faultID in
      let! f := rselect (fun d => rd_faults d !! fid) ErrUserDataFaultState in
      if String.eqb (rl_State (fa_Release f)) "released" && bool_decide (rl_OperationID (fa_Release f) = Some releaseOperationID)
      then tx_ret tt
      else
        let! _ := require (release_held releaseOperationID workerID generation f) ErrUserDataFaultState in
        let! op := uuid_param releaseOperationID in
        let! worker := uuid_param workerID in
        let! one := update_fault fid (fun _ f => release_held op worker generation f && live_at now (rl_LeaseUntil (fa_Release f)))
                      (release_done now) in
        let! _ := require one ErrUserDataFaultState in
        insert_audit (typed 5) "user-data-fault-release-completed" (fa_UserID f) op generation
          [("fault_id", DText faultID); ("release_state", DText "released")]%string) d.

Definition release_retried (code : string) (next now : time) (f : DataFault) : DataFault :=
  let r := fa_Release f in
  fa_set_Release {| rl_State := "retry_wait"; rl_OperationID := rl_OperationID r;
     rl_ControllerGeneration := rl_ControllerGeneration r; rl_Attempt := rl_Attempt r; rl_LeaseOwner := None;
     rl_LeaseUntil := None; rl_NextAttemptAt := Some next; rl_ErrorCode := Some code; rl_ReleasedAt := rl_ReleasedAt r |}
    (fa_set_UpdatedAt now f).

Definition RetryUserDataFaultRelease (clock : time) (faultID releaseOperationID workerID errorCode : string) (now : time)
  (retryAfter : duration) (d : RDB) : result unit * RDB :=
  if negb (validUUIDText faultID && validUUIDText releaseOperationID && validUUIDText workerID
           && ValidMachineReasonCode errorCode) || (retryAfter <=? 0)
  then (Fail ErrInvalidUserDataFault, d)
  else
    let now := now_or clock now in
    runTx (
      let! fid := uuid_param faultID in
      let! op := uuid_param releaseOperationID in
      let! worker := uuid_param workerID in
      let! one := update_fault fid (fun d f => let r := fa_Release f in
            is_resolved f && bool_decide (rl_OperationID r = Some op) && bool_decide (rl_LeaseOwner r = Some worker)
            && String.eqb (rl_State r) "releasing" && live_at (ts now) (rl_LeaseUntil r)
            && match rl_ControllerGeneration r with Some g => generation_current d g | None => false end)
          (release_retried errorCode (ts (now + retryAfter)) (ts now)) in
      require one ErrUserDataFaultState) d.

End DataFaults.
