(* ===== verification/Protection.v ===== *)
(** * Protection of users

    src/internal/store/protection.go: [ReconcileProtectionStates] projects the health
    of nodes and replicas into one protection state per user, opens conflicts with
    their evidence, freezes conflicted users and keeps the alerts;
    [ConfirmReplicaTakeover] makes a hot standby the home of a user.

    The reconciliation runs at READ COMMITTED: its statements are one step here,
    which is what they are when no other transaction commits between them.  Ids that
    the server makes are arguments ([newid], by user or by conflict and node). *)

From Stdlib Require Import ZArith Lia Ascii String.
From stdpp Require Import base list gmap strings pretty.
From S2P Require Import Prelude GoStrings Schema Leases Handoffs WorkflowSchema SnapshotStore RecoverySchema DataFaults.
#[local] Open Scope Z_scope.

Definition ErrInvalidReplicaTakeover : string := "invalid replica takeover input".
Definition ErrReplicaTakeoverConflict : string := "replica takeover conflicts with existing facts".
Definition ErrReplicaTakeoverUnavailable : string := "replica takeover is unavailable".

Record ProtectionReconcileResult := { rr_Evaluated : Z; rr_Alerted : Z; rr_Resolved : Z }.

Record ConfirmReplicaTakeoverParams := {
  kp_OperationID : string;
  kp_RequestDigest : string;
  kp_GlobalUserID : Z;
  kp_TargetNodeID : Z;
  kp_ExpectedRecoveryAt : time;
  kp_Now : time
}.

Record ReplicaTakeoverResult := {
  kr_SourceNodeID : Z;
  kr_TargetNodeID : Z;
  kr_SnapshotID : string;
  kr_SnapshotPublishedAt : time;
  kr_ControllerGeneration : Z;
  kr_Replayed : bool
}.

(** ** The facts of a user *)

(** A copy a user can be recovered from: its node, snapshot and time. *)
Record recovery_point := { rv_Node : Z; rv_Snapshot : string; rv_At : time }.

(** [ORDER BY copy.published_at DESC,replica.node_id LIMIT 1]. *)
Definition newer_point (best : option recovery_point) (x : recovery_point) : option recovery_point :=
  match best with
  | Some b => if (rv_At b <? rv_At x) || ((rv_At b =? rv_At x) && (rv_Node x <? rv_Node b)) then Some x else best
  | None => Some x
  end.

(** The joins of a candidate: a ready replica of the kind with a ready copy of an
    immutable snapshot on a healthy node of the role. *)
Definition point_of (kind role : string) (account : bool) (d : RDB) (user : Z) (x : (Z * Z) * UserReplica)
  : option recovery_point :=
  let '((_, node), r) := x in
  match wd_copies (rd_w d) !! (user, node) with
  | Some c =>
      match rc_SnapshotID c, rc_PublishedAt c with
      | Some sid, Some at_ =>
          if String.eqb (ur_Kind r) kind && String.eqb (ur_State r) "ready" && isSome (ur_LastSyncAt r)
             && healthy_at d role node && String.eqb (rc_Kind c) kind && String.eqb (rc_State c) "ready"
             && String.eqb (rc_CompatibilityState c) "compatible"
             && (negb account || account_is d user node "active") && isSome (immutable_of d user sid)
          then Some {| rv_Node := node; rv_Snapshot := sid; rv_At := at_ |} else None
      | _, _ => None
      end
  | None => None
  end.

Definition best_point (kind role : string) (account : bool) (d : RDB) (user legacy : Z) : option recovery_point :=
  foldl newer_point None (omap (point_of kind role account d user)
    (rows_where (fun k _ => k.1 =? legacy) (wd_replicas (rd_w d)))).

Definition hot_point (d : RDB) (user legacy : Z) : option recovery_point := best_point "hot_standby" "compute" true d user legacy.
Definition archive_point (d : RDB) (user legacy : Z) : option recovery_point := best_point "archive" "storage" false d user legacy.

Definition replica_is (d : RDB) (legacy node : Z) (p : UserReplica -> bool) : bool :=
  match wd_replicas (rd_w d) !! (legacy, node) with Some r => p r | None => false end.
Definition copy_is (d : RDB) (user node : Z) (p : ReplicaCopy -> bool) : bool :=
  match wd_copies (rd_w d) !! (user, node) with Some c => p c | None => false end.

(** The home node is healthy and holds the ready, authoritative data. *)
Definition authoritative_ready (d : RDB) (user legacy : Z) (home : option Z) : bool :=
  match home with
  | Some n =>
      healthy_at d "compute" n
      && replica_is d legacy n (fun r => String.eqb (ur_Kind r) "home" && String.eqb (ur_State r) "ready")
      && negb (copy_is d user n (fun c => negb (String.eqb (rc_Kind c) "active" && String.eqb (rc_State c) "ready"
                                                && rc_IsAuthoritative c)))
  | None => false
  end.

(** A conflict, once seen, stays. *)
Definition has_conflict (d : RDB) (user legacy : Z) : bool :=
  bool_decide (pr_State <$> rd_protection d !! user = Some "conflict"%string)
  || negb (Nat.eqb (length (rows_where (fun k r => (k.1 =? legacy) && String.eqb (ur_State r) "conflict") (wd_replicas (rd_w d)))) 0)
  || negb (Nat.eqb (length (rows_where (fun k c => (k.1 =? user) && String.eqb (rc_State c) "conflict") (wd_copies (rd_w d)))) 0).

Definition authoritative_corrupt (d : RDB) (user legacy : Z) (home : option Z) : bool :=
  match home with
  | Some n => replica_is d legacy n (fun r => String.eqb (ur_State r) "corrupt")
              || copy_is d user n (fun c => String.eqb (rc_State c) "corrupt")
  | None => false
  end.

Record protection_facts := { pf_Home : option Z; pf_Ready : bool; pf_Conflict : bool; pf_Corrupt : bool;
                             pf_Hot : option recovery_point; pf_Archive : option recovery_point }.

Definition facts (d : RDB) (user legacy : Z) : protection_facts :=
  let home := wd_homes (rd_w d) !! legacy in
  {| pf_Home := home; pf_Ready := authoritative_ready d user legacy home; pf_Conflict := has_conflict d user legacy;
     pf_Corrupt := authoritative_corrupt d user legacy home; pf_Hot := hot_point d user legacy;
     pf_Archive := archive_point d user legacy |}.

(** ** The projection *)

Definition desired_state (f : protection_facts) : string :=
  let hot := isSome (pf_Hot f) in let archive := isSome (pf_Archive f) in
  if pf_Conflict f then "conflict"
  else if pf_Corrupt f && hot then "takeover_available"
  else if pf_Corrupt f && archive then "restore_required"
  else if pf_Corrupt f then "unavailable"
  else if pf_Ready f && archive then "protected"
  else if pf_Ready f && hot then "temporary"
  else if pf_Ready f then "unprotected"
  else if hot then "takeover_available"
  else if archive then "restore_required"
  else "unavailable".

Definition desired_reason (f : protection_facts) : string :=
  let hot := isSome (pf_Hot f) in let archive := isSome (pf_Archive f) in
  if pf_Conflict f then "replica_conflict"
  else if pf_Corrupt f then "authoritative_corrupt"
  else if pf_Ready f && archive then "healthy_archive"
  else if pf_Ready f && hot then "temporary_compute_replica"
  else if pf_Ready f then "no_recovery_replica"
  else if hot then "hot_standby_ready"
  else if archive then "archive_restore_required"
  else "no_recovery_replica".

(** The recovery point of the row, as its three columns. *)
Definition desired_point (f : protection_facts) : option recovery_point :=
  if pf_Conflict f then None
  else if (pf_Corrupt f || negb (pf_Ready f)) && isSome (pf_Hot f) then pf_Hot f
  else if isSome (pf_Archive f) then pf_Archive f else pf_Hot f.

Definition desired (f : protection_facts) (now : time) : Protection :=
  {| pr_State := desired_state f; pr_ReasonCode := desired_reason f; pr_AuthoritativeNodeID := pf_Home f;
     pr_RecoveryNodeID := rv_Node <$> desired_point f; pr_LatestRecoverySnapshotID := rv_Snapshot <$> desired_point f;
     pr_LatestRecoveryAt := rv_At <$> desired_point f; pr_Version := 1; pr_ChangedAt := now; pr_EvaluatedAt := now |}.

(** The columns that count as a change. *)
Definition same_verdict (p q : Protection) : bool :=
  String.eqb (pr_State p) (pr_State q) && String.eqb (pr_ReasonCode p) (pr_ReasonCode q)
  && bool_decide (pr_AuthoritativeNodeID p = pr_AuthoritativeNodeID q)
  && bool_decide (pr_RecoveryNodeID p = pr_RecoveryNodeID q)
  && bool_decide (pr_LatestRecoverySnapshotID p = pr_LatestRecoverySnapshotID q)
  && bool_decide (pr_LatestRecoveryAt p = pr_LatestRecoveryAt q).

(** [ON CONFLICT (user_id) DO UPDATE]. *)
Definition project (old : option Protection) (new : Protection) : Protection :=
  match old with
  | None => new
  | Some p =>
      {| pr_State := pr_State new; pr_ReasonCode := pr_ReasonCode new;
         pr_AuthoritativeNodeID := pr_AuthoritativeNodeID new; pr_RecoveryNodeID := pr_RecoveryNodeID new;
         pr_LatestRecoverySnapshotID := pr_LatestRecoverySnapshotID new; pr_LatestRecoveryAt := pr_LatestRecoveryAt new;
         pr_Version := if same_verdict p new then pr_Version p else pr_Version p + 1;
         pr_ChangedAt := if same_verdict p new then pr_ChangedAt p else pr_ChangedAt new;
         pr_EvaluatedAt := pr_EvaluatedAt new |}
  end.

(** The users the projection is about, with their legacy ids. *)
Definition projected_users (d : RDB) : gmap Z Z :=
  omap (fun g => match gu_LegacyUserID g with
                 | Some l => if negb (String.eqb (gu_Status g) "deleted") && legacy_exists (rd_w d) l then Some l else None
                 | None => None end) (db_users (core d)).

Definition projected (d : RDB) (now : time) : gmap Z Protection :=
  map_imap (fun u l => Some (project (rd_protection d !! u) (desired (facts d u l) now))) (projected_users d)
  ∪ rd_protection d.

Definition project_states (now : time) : RTx Z := fun d =>
  let m := projected d now in
  if Nat.eqb (length (rows_where (fun _ p => MaxInt64 <? pr_Version p) m)) 0
  then Ok (Z.of_nat (size (projected_users d)), set_rd_protection m d) else Fail sql_error.

(** ** Conflicts *)

Definition conflict_open (c : Conflict) : bool := negb (bool_decide (cn_State c ∈ ["resolved"; "failed"])).
Definition has_open_conflict (d : RDB) (user : Z) : bool :=
  negb (Nat.eqb (length (rows_where (fun _ c => (cn_UserID c =? user) && conflict_open c) (rd_conflicts d))) 0).

Definition conflicted (d : RDB) : list (Z * Protection) :=
  rows_where (fun _ p => String.eqb (pr_State p) "conflict") (rd_protection d).

(** [INSERT INTO replica_conflicts ... ON CONFLICT DO NOTHING], row by row. *)
Definition open_conflict (newid : Z -> string) (generation : option Z) (now : time) (d : RDB) (x : Z * Protection) : RDB :=
  if has_open_conflict d x.1 || isSome (rd_conflicts d !! newid x.1) then d
  else set_rd_conflicts (<[newid x.1 :=
    {| cn_UserID := x.1; cn_State := "detected"; cn_ProtectionVersion := pr_Version x.2;
       cn_ControllerGeneration := generation; cn_Version := 1; cn_DetectedAt := now; cn_SourcesCapturedAt := None;
       cn_UpdatedAt := now; cn_ResolvedAt := None |}]> (rd_conflicts d)) d.

Definition open_conflicts (newid : Z -> string) (now : time) : RTx unit := tx_write (fun d =>
  foldl (open_conflict newid (active_generation (core d)) now) d (conflicted d)).

(** A conflict whose evidence is still collected. *)
Definition collecting (d : RDB) (id : string) (c : Conflict) : bool :=
  bool_decide (cn_State c ∈ ["detected"; "inspecting"; "awaiting_decision"])
  && Nat.eqb (length (rows_where (fun _ o => String.eqb (cf_ConflictID o) id) (wd_conflicts (rd_w d)))) 0.

(** The columns of a source that the copy of the node gives. *)
Definition copy_source (d : RDB) (user legacy node : Z) (c : ReplicaCopy) (now : time) : SourceFacts :=
  let s := rc_SnapshotID c ≫= fun sid => (fun s => (sid, s)) <$> immutable_of d user sid in
  let r := wd_replicas (rd_w d) !! (legacy, node) in
  {| so_NodeName := default ""%string (fst <$> rd_names d !! node);
     so_NodeRole := default ""%string (nd_Role <$> node_of (rd_w d) node);
     so_LocalHandle := na_LocalHandle <$> db_accounts (core d) !! (user, node); so_SnapshotID := fst <$> s;
     so_SourceKind := rc_Kind c; so_ReplicaState := rc_State c; so_IsAuthoritative := rc_IsAuthoritative c;
     so_ManifestSHA256 := (fun x => sm_ManifestSHA256 x.2) <$> s; so_FileCount := (fun x => sm_FileCount x.2) <$> s;
     so_TotalBytes := (fun x => sm_TotalBytes x.2) <$> s; so_PublishedAt := rc_PublishedAt c;
     so_LegacyDataVersion := ur_DataVersion <$> r; so_LegacyChecksum := r ≫= ur_Checksum; so_CapturedAt := now |}.

(** The columns of a source that only the replica of the first version gives. *)
Definition legacy_source (d : RDB) (user node : Z) (home : option Z) (r : UserReplica) (now : time) : SourceFacts :=
  {| so_NodeName := default ""%string (fst <$> rd_names d !! node);
     so_NodeRole := default ""%string (nd_Role <$> node_of (rd_w d) node);
     so_LocalHandle := na_LocalHandle <$> db_accounts (core d) !! (user, node); so_SnapshotID := None;
     so_SourceKind := if String.eqb (ur_Kind r) "home" then "active"
                      else if bool_decide (ur_Kind r ∈ ["archive"; "hot_standby"]) then ur_Kind r else "unknown";
     so_ReplicaState := ur_State r; so_IsAuthoritative := bool_decide (home = Some node); so_ManifestSHA256 := None;
     so_FileCount := None; so_TotalBytes := None; so_PublishedAt := ur_LastSyncAt r;
     so_LegacyDataVersion := Some (ur_DataVersion r); so_LegacyChecksum := ur_Checksum r; so_CapturedAt := now |}.

(** The source of a conflict on a node: the copy first. *)
Definition source_of (d : RDB) (user legacy node : Z) (now : time) : option SourceFacts :=
  let home := wd_homes (rd_w d) !! legacy in
  let marked := replica_is d legacy node (fun r => String.eqb (ur_State r) "conflict") in
  match node_of (rd_w d) node with
  | None => None
  | Some _ =>
      match wd_copies (rd_w d) !! (user, node), wd_replicas (rd_w d) !! (legacy, node) with
      | Some c, r =>
          if String.eqb (rc_State c) "conflict" || rc_IsAuthoritative c || marked
          then Some (copy_source d user legacy node c now)
          else match r with
               | Some r => if bool_decide (home = Some node) then Some (legacy_source d user node home r now) else None
               | None => None
               end
      | None, Some r => if marked || bool_decide (home = Some node) then Some (legacy_source d user node home r now) else None
      | None, None => None
      end
  end.

(** The sources of one conflict that it has no row of yet. *)
Definition new_sources (d : RDB) (now : time) (id : string) (c : Conflict) : list (Z * SourceFacts) :=
  match joined_user d (cn_UserID c) with
  | Some (_, l, _) =>
      omap (fun n => match rd_sources d !! (id, n) with
                     | Some _ => None
                     | None => (fun s => (n, s)) <$> source_of d (cn_UserID c) l n now end)
        (map fst (map_to_list (db_nodes (core d))))
  | None => []
  end.

Definition conflict_set (state : string) (version : Z) (captured : option time) (now : time) (c : Conflict) : Conflict :=
  {| cn_UserID := cn_UserID c; cn_State := state; cn_ProtectionVersion := cn_ProtectionVersion c;
     cn_ControllerGeneration := cn_ControllerGeneration c; cn_Version := version; cn_DetectedAt := cn_DetectedAt c;
     cn_SourcesCapturedAt := captured; cn_UpdatedAt := now; cn_ResolvedAt := cn_ResolvedAt c |}.

(** One conflict takes its new sources; one that was captured before is inspected
    again. *)
Definition capture_conflict (newid : string -> Z -> string) (now : time) (d0 d : RDB) (x : string * Conflict) : RDB :=
  let rows := new_sources d0 now x.1 x.2 in
  let d := foldl (fun d y =>
      set_rd_sources (<[(x.1, y.1) := y.2]> (rd_sources d))
        (set_rd_w (put_evidence (<[(x.1, y.1) := {| cs_EvidenceID := Some (newid x.1 y.1); cs_EvidenceState := "pending" |}]>
           (wd_evidence (rd_w d))) (rd_w d)) d)) d rows in
  if isSome (cn_SourcesCapturedAt x.2) && negb (Nat.eqb (length rows) 0)
  then set_rd_conflicts (<[x.1 := conflict_set "inspecting" (cn_Version x.2 + 1) (cn_SourcesCapturedAt x.2) now x.2]>
         (rd_conflicts d)) d
  else d.

Definition capture_sources (newid : string -> Z -> string) (now : time) : RTx unit := tx_write (fun d =>
  foldl (capture_conflict newid now d) d (rows_where (collecting d) (rd_conflicts d))).

Definition finish_capture (now : time) : RTx unit := tx_write (fun d =>
  set_rd_conflicts (update_where (fun id c => collecting d id c && isNone (cn_SourcesCapturedAt c))
    (fun c => conflict_set (cn_State c) (cn_Version c) (Some now) now c) (rd_conflicts d)) d).

(** The users in conflict can neither log in nor write. *)
Definition freeze_users (now : time) : RTx unit := tx_write (fun d =>
  let held (u : Z) := bool_decide (pr_State <$> rd_protection d !! u = Some "conflict"%string)
                      && isSome (db_users (core d) !! u) in
  let held_legacy (l : Z) := negb (Nat.eqb (length (rows_where (fun u g => held u && bool_decide (gu_LegacyUserID g = Some l))
                                                      (db_users (core d)))) 0) in
  let users := update_where (fun u _ => held u)
    (fun g => {| gu_UUID := gu_UUID g; gu_LegacyUserID := gu_LegacyUserID g; gu_Status := "conflict" |}) (db_users (core d)) in
  let legacy := update_where (fun l _ => held_legacy l)
    (fun us => {| us_Username := us_Username us; us_Status := "conflict" |}) (db_legacy (core d)) in
  let tickets := update_where (fun _ t => match tk_UserID t with Some u => held u | None => false end
      && bool_decide (tk_ConsumedAt t = None) && bool_decide (tk_RevokedAt t = None)) (ticket_revoked now) (db_tickets (core d)) in
  let leases := update_where (fun u l => held u && negb (String.eqb (ls_State l) "conflict"))
    (fun l => {| ls_UserID := ls_UserID l; ls_WriterNodeID := ls_WriterNodeID l; ls_SessionID := ls_SessionID l;
       ls_ActivityEpoch := ls_ActivityEpoch l; ls_State := "conflict"; ls_LeaseExpiresAt := now;
       ls_LastPageHeartbeatAt := ls_LastPageHeartbeatAt l; ls_LastRequestAt := ls_LastRequestAt l;
       ls_InFlightReads := ls_InFlightReads l; ls_InFlightWrites := ls_InFlightWrites l;
       ls_ControllerGeneration := ls_ControllerGeneration l; ls_UpdatedAt := now |}) (db_leases (core d)) in
  set_rd_w (put_core (set_users users (set_legacy legacy (set_tickets tickets (set_leases leases (core d))))) (rd_w d)) d).

(** ** Alerts *)

Definition protection_alert (user : Z) : string := "user-protection:" +:+ pretty user.

Definition alert_severity (state : string) : string :=
  if bool_decide (state ∈ ["conflict"; "unavailable"]) then "critical" else "warning".

Definition alert_summary (state : string) : string :=
  if String.eqb state "temporary" then "用户仅有临时计算保护副本"
  else if String.eqb state "unprotected" then "用户当前没有可恢复副本"
  else if String.eqb state "takeover_available" then "家节点不可用，存在可确认接管的热备"
  else if String.eqb state "restore_required" then "家节点不可用，需要从存储副本恢复"
  else if String.eqb state "conflict" then "用户副本存在冲突，必须冻结并人工处理"
  else "用户家节点不可用且没有合格恢复副本".

(** The alert of one unprotected user is opened or refreshed. *)
Definition open_alert (now grace : time) (d : RDB) (x : Z * Protection) : RDB :=
  let key := protection_alert x.1 in
  let p := x.2 in
  let notify := if bool_decide (pr_State p ∈ ["temporary"; "unprotected"]) then grace else now in
  let '(a, f) :=
    match wd_alerts (rd_w d) !! key, rd_alerts d !! key with
    | Some a, Some f =>
        let again := String.eqb (at_State a) "resolved" in
        ({| at_State := if again then "open"%string else at_State a; at_ResolvedAt := None; at_LastSeenAt := now |},
         {| af_Severity := alert_severity (pr_State p); af_Category := af_Category f; af_UserID := af_UserID f;
            af_NodeID := pr_AuthoritativeNodeID p; af_Summary := alert_summary (pr_State p);
            af_FirstSeenAt := af_FirstSeenAt f;
            af_NotifyAfter := if notify <=? now then Some notify else if again then Some notify else af_NotifyAfter f;
            af_OccurrenceCount := af_OccurrenceCount f + if again then 1 else 0 |})
    | _, _ =>
        ({| at_State := "open"; at_ResolvedAt := None; at_LastSeenAt := now |},
         {| af_Severity := alert_severity (pr_State p); af_Category := "user_protection"; af_UserID := Some x.1;
            af_NodeID := pr_AuthoritativeNodeID p; af_Summary := alert_summary (pr_State p); af_FirstSeenAt := now;
            af_NotifyAfter := Some notify; af_OccurrenceCount := 1 |})
    end in
  set_rd_alerts (<[key := f]> (rd_alerts d)) (set_rd_w (put_alerts (<[key := a]> (wd_alerts (rd_w d))) (rd_w d)) d).

Definition open_alerts (now grace : time) : RTx Z := fun d =>
  let rows := rows_where (fun _ p => negb (String.eqb (pr_State p) "protected")) (rd_protection d) in
  Ok (Z.of_nat (length rows), foldl (open_alert now grace) d rows).

(** The alert belongs to a user that is protected now. *)
Definition alert_over (d : RDB) (key : string) (a : Alert) : bool :=
  match rd_alerts d !! key with
  | Some f => String.eqb (af_Category f) "user_protection" && negb (String.eqb (at_State a) "resolved")
              && bool_decide ((af_UserID f ≫= fun u => pr_State <$> rd_protection d !! u) = Some "protected"%string)
  | None => false
  end.

Definition resolve_alerts (now : time) : RTx Z := fun d =>
  Ok (Z.of_nat (length (rows_where (alert_over d) (wd_alerts (rd_w d)))),
      set_rd_w (put_alerts (update_where (alert_over d)
        (fun _ => {| at_State := "resolved"; at_ResolvedAt := Some now; at_LastSeenAt := now |}) (wd_alerts (rd_w d))) (rd_w d)) d).

(** ** The reconciliation *)

Section Protection.
Context `{Postgres}.

Definition reconcileProtectionStatesOnce (newid : Z -> string) (evidence : string -> Z -> string) (now : time)
  (unprotectedGrace : duration) : RTx ProtectionReconcileResult :=
  let! evaluated := project_states (ts now) in
  let! _ := open_conflicts newid (ts now) in
  let! _ := capture_sources evidence (ts now) in
  let! _ := finish_capture (ts now) in
  let! _ := freeze_users (ts now) in
  let! alerted := open_alerts (ts now) (ts (now + unprotectedGrace)) in
  let! resolved := resolve_alerts (ts now) in
  tx_ret {| rr_Evaluated := evaluated; rr_Alerted := alerted; rr_Resolved := resolved |}.

(** [retrySerializable] repeats the transaction only after the server rolled it back. *)
Definition ReconcileProtectionStates (clock : time) (newid : Z -> string) (evidence : string -> Z -> string) (now : time)
  (unprotectedGrace : duration) (d : RDB) : result ProtectionReconcileResult * RDB :=
  if unprotectedGrace <=? 0 then (Fail "invalid unprotected alert grace", d)
  else runTx (reconcileProtectionStatesOnce newid evidence (now_or clock now) unprotectedGrace) d.

(** ** Readings *)

Record UserProtectionState := {
  up_UserID : Z;
  up_Protection : Protection;
  up_AuthoritativeNodeName : option string;
  up_RecoveryNodeName : option string;
  up_ActiveWriterNodeID : option Z;
  up_ActiveWriterNodeName : option string
}.

(** The writer of a lease of the active generation that has not run out. *)
Definition active_writer (clock : time) (user : Z) (d : RDB) : option Z :=
  match db_leases (core d) !! user with
  | Some l => if bool_decide (active_generation (core d) = Some (ls_ControllerGeneration l))
                 && bool_decide (ls_State l ∈ ["active"; "quiescing"; "drained"; "independent"])
                 && (ts clock <? ls_LeaseExpiresAt l) then Some (ls_WriterNodeID l) else None
  | None => None
  end.

Definition name_of (d : RDB) (n : option Z) : option string := n ≫= fun n => fst <$> rd_names d !! n.

Definition GetUserProtectionState (clock : time) (globalUserID : Z) (d : RDB) : result (option UserProtectionState) :=
  if globalUserID <=? 0 then Fail "invalid global user"
  else Ok ((fun p => {| up_UserID := globalUserID; up_Protection := p;
                        up_AuthoritativeNodeName := name_of d (pr_AuthoritativeNodeID p);
                        up_RecoveryNodeName := name_of d (pr_RecoveryNodeID p);
                        up_ActiveWriterNodeID := active_writer clock globalUserID d;
                        up_ActiveWriterNodeName := name_of d (active_writer clock globalUserID d) |})
           <$> rd_protection d !! globalUserID).

Definition GetImmutableHotStandbyRecoveryPoint (globalUserID nodeID : Z) (d : RDB) : result (option time) :=
  if (globalUserID <=? 0) || (nodeID <=? 0) then Fail "invalid hot standby recovery point input"
  else Ok (c ← wd_copies (rd_w d) !! (globalUserID, nodeID);
           sid ← rc_SnapshotID c;
           _ ← immutable_of d globalUserID sid;
           if account_is d globalUserID nodeID "active" && String.eqb (rc_Kind c) "hot_standby"
              && String.eqb (rc_State c) "ready" && String.eqb (rc_CompatibilityState c) "compatible"
           then rc_PublishedAt c else None).

Record StorageRepairCandidate := { sr_LegacyUserID : Z; sr_GlobalUserID : Z; sr_HomeNodeID : Z }.

(** A ready archive on a healthy storage node. *)
Definition archived (d : RDB) (user legacy : Z) : bool :=
  negb (Nat.eqb (length (rows_where (fun k c => (k.1 =? user) && String.eqb (rc_Kind c) "archive" && String.eqb (rc_State c) "ready"
      && String.eqb (rc_CompatibilityState c) "compatible"
      && match rc_SnapshotID c with Some sid => isSome (immutable_of d user sid) | None => false end
      && healthy_at d "storage" k.2
      && replica_is d legacy k.2 (fun r => String.eqb (ur_Kind r) "archive" && String.eqb (ur_State r) "ready"))
    (wd_copies (rd_w d)))) 0).

(** The lease keeps the user's data from being copied. *)
Definition lease_busy (now : time) (l : ActivityLease) : bool :=
  (now <? ls_LeaseExpiresAt l) || negb (ls_InFlightReads l =? 0) || negb (ls_InFlightWrites l =? 0)
  || bool_decide (ls_State l ∈ ["independent"; "quiescing"]).

Definition repair_candidate (now : time) (d : RDB) (user : Z) (p : Protection) : option StorageRepairCandidate :=
  match joined_user d user with
  | Some (g, l, us) =>
      match wd_homes (rd_w d) !! l with
      | Some home =>
          if both_active (g, l, us) && bool_decide (pr_State p ∈ ["temporary"; "unprotected"])
             && healthy_at d "compute" home
             && replica_is d l home (fun r => String.eqb (ur_Kind r) "home" && String.eqb (ur_State r) "ready")
             && negb (archived d user l)
             && match db_leases (core d) !! user with Some x => negb (lease_busy now x) | None => true end
             && Nat.eqb (length (rows_where (fun _ => holds_user user) (wd_workflows (rd_w d)))) 0
             && negb (has_open_conflict d user)
             && isNone (open_fault user d)
          then Some {| sr_LegacyUserID := l; sr_GlobalUserID := user; sr_HomeNodeID := home |} else None
      | None => None
      end
  | None => None
  end.

(** [ORDER BY protection.changed_at,protection.user_id]. *)
Definition changed_before (x y : Z * Protection) : bool :=
  (pr_ChangedAt x.2 <? pr_ChangedAt y.2) || ((pr_ChangedAt x.2 =? pr_ChangedAt y.2) && (x.1 <=? y.1)).

Fixpoint insert_changed (x : Z * Protection) (l : list (Z * Protection)) : list (Z * Protection) :=
  match l with
  | [] => [x]
  | y :: r => if changed_before x y then x :: y :: r else y :: insert_changed x r
  end.

Definition ListStorageRepairCandidates (clock : time) (limit : Z) (now : time) (d : RDB) : list StorageRepairCandidate :=
  let limit := if (limit <=? 0) || (200 <? limit) then 50 else limit in
  take (Z.to_nat limit) (omap (fun x => repair_candidate (ts (now_or clock now)) d x.1 x.2)
    (foldr insert_changed [] (map_to_list (rd_protection d)))).

(** ** Takeover *)

Definition takeover_valid (p : ConfirmReplicaTakeoverParams) : bool :=
  negb (String.eqb (kp_OperationID p) "") && (slen (kp_RequestDigest p) =? 32) && (0 <? kp_GlobalUserID p)
  && (0 <? kp_TargetNodeID p) && negb (is_zero (kp_ExpectedRecoveryAt p)).

Definition getReplicaTakeoverOperation (p : ConfirmReplicaTakeoverParams) : RTx (option ReplicaTakeoverResult) :=
  let! op := uuid_param (kp_OperationID p) in
  fun d => match rd_takeovers d !! op with
  | None => Ok (None, d)
  | Some o =>
      if (to_UserID o =? kp_GlobalUserID p) && (to_TargetNodeID o =? kp_TargetNodeID p)
         && String.eqb (to_RequestDigest o) (kp_RequestDigest p)
      then Ok (Some {| kr_SourceNodeID := to_SourceNodeID o; kr_TargetNodeID := to_TargetNodeID o;
                       kr_SnapshotID := to_SnapshotID o; kr_SnapshotPublishedAt := to_SnapshotPublishedAt o;
                       kr_ControllerGeneration := to_ControllerGeneration o; kr_Replayed := true |}, d)
      else Fail ErrReplicaTakeoverConflict
  end.

(** The user with its legacy id and its home. *)
Definition takeover_user (user : Z) (d : RDB) : option (Z * Z) :=
  match joined_user d user with
  | Some (g, l, us) => if both_active (g, l, us) then (fun h => (l, h)) <$> wd_homes (rd_w d) !! l else None
  | None => None
  end.

(** The standby the user was shown: its snapshot and its time. *)
Definition standby_row (user legacy target : Z) (expected : time) (d : RDB) : option (string * time) :=
  r ← wd_replicas (rd_w d) !! (legacy, target);
  v ← point_of "hot_standby" "compute" true d user ((legacy, target), r);
  if rv_At v =? expected then Some (rv_Snapshot v, rv_At v) else None.

(** The standby becomes the home in user_replicas and users. *)
Definition promote_replica (legacy old target : Z) : RTx unit :=
  let! one := update_replica legacy old (fun r => String.eqb (ur_Kind r) "home") (replica_set "hot_standby" "stale") in
  let! _ := require one ErrReplicaTakeoverUnavailable in
  let! one := update_replica legacy target (fun r => String.eqb (ur_Kind r) "hot_standby" && String.eqb (ur_State r) "ready")
                (replica_set "home" "ready") in
  let! _ := require one ErrReplicaTakeoverUnavailable in
  let! _ := set_home legacy target in
  tx_ret tt.

(** The authority moves in replica_copies. *)
Definition promote_copy (clock : time) (copy_id sid : string) (user old target : Z) (now : time) : RTx unit :=
  let! _ := (fun d => write_copies (update_where (fun k c => (k.1 =? user) && rc_IsAuthoritative c)
      (fun c => copy_set (rc_Kind c) (rc_State c) (rc_Origin c) false now c) (wd_copies (rd_w d))) d) in
  let! _ := upsert_copy user old
      {| rc_ID := copy_id; rc_SnapshotID := None; rc_Kind := "hot_standby"; rc_State := "stale"; rc_Origin := "primary";
         rc_IsAuthoritative := false; rc_CompatibilityState := "unknown"; rc_PublishedAt := None; rc_VerifiedAt := None;
         rc_CreatedAt := now; rc_UpdatedAt := now; rc_Integrity := integrity_default (ts clock) |}
      (copy_set "hot_standby" "stale" "primary" false now) in
  fun d => match wd_copies (rd_w d) !! (user, target) with
  | Some c =>
      if bool_decide (rc_SnapshotID c = Some sid) && String.eqb (rc_State c) "ready"
      then write_copies (<[(user, target) := copy_set "active" "ready" "recovery" true now c]> (wd_copies (rd_w d))) d
      else Fail ErrReplicaTakeoverUnavailable
  | None => Fail ErrReplicaTakeoverUnavailable
  end.

(** [INSERT INTO replica_takeover_operations]. *)
Definition insert_takeover (op : string) (o : TakeoverOperation) : RTx unit := fun d =>
  match rd_takeovers d !! op with
  | Some _ => Fail sql_error
  | None => if negb (to_SourceNodeID o =? to_TargetNodeID o) && (0 <? to_ControllerGeneration o)
            then Ok (tt, set_rd_takeovers (<[op := o]> (rd_takeovers d)) d) else Fail sql_error
  end.

(** The statements that make the target the home. *)
Definition take_over (clock : time) (copy_id op : string) (p : ConfirmReplicaTakeoverParams) (legacy old generation : Z)
  (lease : option ActivityLease) (sid : string) (at_ now : time) : RTx unit :=
  let user := kp_GlobalUserID p in let target := kp_TargetNodeID p in
  let! _ := promote_replica legacy old target in
  let! _ := (if isSome lease then end_user_lease user (ts now) else tx_ret tt) in
  let! _ := revoke_user_tickets user (ts now) in
  let! _ := promote_copy clock copy_id sid user old target (ts now) in
  let! _ := swap_accounts user target old (ts now) in
  let! _ := insert_takeover op
     {| to_RequestDigest := kp_RequestDigest p; to_UserID := user; to_SourceNodeID := old; to_TargetNodeID := target;
        to_SnapshotID := sid; to_SnapshotPublishedAt := at_; to_PreviousActivityEpoch := ls_ActivityEpoch <$> lease;
        to_ControllerGeneration := generation; to_AcknowledgedAt := ts now; to_CompletedAt := ts now |} in
  let! _ := protect_anew user target "takeover_completed_backup_required" (ts now) in
  let! _ := resolveUserDataFaultLocked user "takeover" (kp_OperationID p) (ts now) in
  insert_audit (typed 7) "replica-takeover" user op generation
     [("source_node_id", DInt old); ("target_node_id", DInt target); ("snapshot_published_at", DTime at_)]%string.

(** A new takeover: what the transaction checks, and then writes. *)
Definition new_takeover (clock : time) (copy_id : string) (p : ConfirmReplicaTakeoverParams) (now : time)
  : RTx ReplicaTakeoverResult :=
  let user := kp_GlobalUserID p in let target := kp_TargetNodeID p in
  let! (legacy, old) := rselect (takeover_user user) ErrReplicaTakeoverUnavailable in
  let! _ := require (negb (old =? target)) ErrReplicaTakeoverUnavailable in
  let! _ := requireUserDataFaultRecoveryReadyLocked user in
  let! generation := rselect (fun d => active_generation (core d)) ErrNoActiveController in
  let! lease := tx_read (fun d => db_leases (core d) !! user) in
  let! _ := require (negb match lease with Some l => leaseBlocksNewWriter l now | None => false end)
              ErrReplicaTakeoverLeaseActive in
  let! (sid, at_) := rselect (standby_row user legacy target (ts (kp_ExpectedRecoveryAt p))) ErrReplicaTakeoverUnavailable in
  let! op := uuid_param (kp_OperationID p) in
  let! _ := take_over clock copy_id op p legacy old generation lease sid at_ now in
  tx_ret {| kr_SourceNodeID := old; kr_TargetNodeID := target; kr_SnapshotID := sid; kr_SnapshotPublishedAt := at_;
            kr_ControllerGeneration := generation; kr_Replayed := false |}.

Definition ConfirmReplicaTakeover (clock : time) (copy_id : string) (p : ConfirmReplicaTakeoverParams) (d : RDB)
  : result ReplicaTakeoverResult * RDB :=
  if negb (takeover_valid p) then (Fail ErrInvalidReplicaTakeover, d)
  else runTx (
    let! _ := rselect (fun d => db_users (core d) !! kp_GlobalUserID p) ErrGlobalUserNotFound in
    let! replay := getReplicaTakeoverOperation p in
    match replay with
    | Some r => tx_ret r
    | None => new_takeover clock copy_id p (now_or clock (kp_Now p))
    end) d.

End Protection.
