(* ===== verification/RestoreStore.v ===== *)
(** * Restores from an archive

    src/internal/store/restores.go: a user whose home node is lost or damaged asks to
    have the newest archive restored to another compute node.  The restore is a
    workflow of its own type; when the target has published the data, one transaction
    makes the target the home of the user.

    The provision of the account on the target is in SnapshotStore.v and
    SnapshotExecutor.v, which snapshots share.  Ids that the server makes are
    arguments; [clock] is the server's [now()] and Go's [time.Now]. *)

From Stdlib Require Import ZArith Lia Ascii String.
From stdpp Require Import base list gmap strings pretty.
From S2P Require Import Prelude GoStrings AgentState Schema Leases Handoffs WorkflowSchema SnapshotStore SnapshotExecutor.
From S2P Require Import RecoverySchema DataFaults.
#[local] Open Scope Z_scope.

Record RestoreTarget := { rt_NodeID : Z; rt_Name : string; rt_Region : string }.

Record CreateRestoreWorkflowParams := {
  cr_OpID : string;
  cr_RequestDigest : string;
  cr_WorkflowID : string;
  cr_RestoreSnapshotID : string;
  cr_CapabilityID : string;
  cr_CapabilityHash : string;
  cr_GlobalUserID : Z;
  cr_TargetNodeID : Z;
  cr_ExpectedRecoveryAt : time;
  cr_CapabilityExpires : time;
  cr_Now : time
}.

Record RestoreWorkflowExecution := {
  rw_JobID : Z;
  rw_OperationID : string;
  rw_WorkflowID : string;
  rw_State : string;
  rw_Attempt : Z;
  rw_GlobalUserID : Z;
  rw_LegacyUserID : Z;
  rw_Handle : string;
  rw_DisplayName : string;
  rw_SourceNodeID : Z;
  rw_TargetNodeID : Z;
  rw_SourceSnapshotID : string;
  rw_RestoreSnapshotID : string;
  rw_SourceManifestSHA256 : string;
  rw_SourcePublishedAt : time;
  rw_ActivityEpoch : Z;
  rw_ControllerGeneration : Z;
  rw_CapabilityID : string;
  rw_CapabilityHash : string;
  rw_CapabilityExpires : time;
  rw_CapabilityState : string;
  rw_TargetAccountStatus : string;
  rw_TargetLocalUserID : string;
  rw_AccountVersion : Z;
  rw_PasswordHash : string;
  rw_PasswordSalt : string;
  rw_OAuthProvider : string;
  rw_OAuthSubject : string
}.

Record RestoreOperationStatus := {
  rq_OperationID : string;
  rq_State : string;
  rq_TargetNodeID : Z;
  rq_TargetNodeName : string;
  rq_SourcePublishedAt : time;
  rq_ErrorSummary : string
}.

Record CompleteRestoreWorkflowParams := {
  cm_WorkflowID : string;
  cm_RestoreSnapshotID : string;
  cm_CapabilityHash : string;
  cm_ManifestSHA256 : string;
  cm_ArchiveSHA256 : string;
  cm_FileCount : Z;
  cm_TotalBytes : Z;
  cm_Now : time
}.

(** ** Targets *)

(** A compute node that may take new data. *)
Definition target_open (d : RDB) (id : Z) (n : Node) : bool :=
  node_healthy "compute" n && has_capacity n && negb (String.eqb (nt_TransferURL (transfer_of (rd_w d) id)) "").

(** No conflict, cleanup or foreign account stands in the way. *)
Definition target_clear (d : RDB) (user id : Z) (handle : string) : bool :=
  negb (bool_decide (rc_State <$> wd_copies (rd_w d) !! (user, id) = Some "conflict"%string))
  && negb (cleanup_active (rd_w d) user [id])
  && negb (account_is d user id "disabled" || account_is d user id "conflict" || handle_taken (rd_w d) user id handle).

(** The user can get an account on the node. *)
Definition account_possible (d : RDB) (user id : Z) : bool :=
  account_is d user id "active"
  || negb (Nat.eqb (length (rows_where (fun k m => (k.1 =? user) && isSome (am_PasswordHash m) && isSome (am_PasswordSalt m))
                              (wd_materials (rd_w d)))) 0)
  || existsb (fun i => (ai_UserID i =? user) && String.eqb (ai_Status i) "active"
                       && bool_decide (ai_Provider i ∈ ["discord"; "linuxdo"])) (wd_identities (rd_w d)).

(** [ORDER BY CASE node.capacity_state WHEN 'open' THEN 0 ELSE 1 END,node.id]. *)
Definition target_before (x y : Z * Node) : bool :=
  let rank (x : Z * Node) := if String.eqb (cc_State (nd_Capacity x.2)) "open" then 0 else 1 in
  (rank x <? rank y) || ((rank x =? rank y) && (x.1 <=? y.1)).

Fixpoint insert_target (x : Z * Node) (l : list (Z * Node)) : list (Z * Node) :=
  match l with
  | [] => [x]
  | y :: r => if target_before x y then x :: y :: r else y :: insert_target x r
  end.

Definition restore_target (d : RDB) (user : Z) (handle : string) (p : Protection) (id : Z) (n : Node) : bool :=
  target_open d id n && negb (id =? default 0 (pr_AuthoritativeNodeID p)) && negb (id =? default 0 (pr_RecoveryNodeID p))
  && target_clear d user id handle && account_possible d user id.

Definition ListRestoreTargets (globalUserID limit : Z) (d : RDB) : result (list RestoreTarget) :=
  if globalUserID <=? 0 then Fail ErrInvalidRestoreWorkflow
  else
    let limit := if (limit <=? 0) || (100 <? limit) then 50 else limit in
    Ok (match rd_protection d !! globalUserID, joined_user d globalUserID with
        | Some p, Some x =>
            if String.eqb (pr_State p) "restore_required" && both_active x
            then map (fun y => {| rt_NodeID := y.1; rt_Name := default ""%string (fst <$> rd_names d !! y.1);
                                  rt_Region := default ""%string (rd_names d !! y.1 ≫= snd) |})
                   (take (Z.to_nat limit) (foldr insert_target []
                     (rows_where (restore_target d globalUserID (us_Username x.2) p) (db_nodes (core d)))))
            else []
        | _, _ => []
        end).

Section RestoreStore.
Context `{Postgres}.

(** ** Reading *)

Definition restore_by_workflow (d : RDB) (wid : string) : option (string * RestoreOperation) :=
  head (rows_where (fun _ o => String.eqb (rs_WorkflowID o) wid) (rd_restores d)).

(** The joins of the two queries for an operation, which take the nodes from the
    operation or from the workflow; the newest capability is the one of the snapshot
    query, which also orders those of one instant.  A null column that is scanned
    into an integer is an error, which [Some None] stands for. *)
Definition restore_execution (nodes : Workflow -> RestoreOperation -> option (Z * Z)) (d : RDB) (op : string)
  (o : RestoreOperation) : option (option RestoreWorkflowExecution) :=
  match wd_workflows (rd_w d) !! rs_WorkflowID o with
  | None => None
  | Some w =>
      match (wf_UserID w ≫= fun u => (fun x => (u, x)) <$> joined_user d u), wd_manifests (rd_w d) !! rs_SourceSnapshotID o,
            db_accounts (core d) !! (rs_UserID o, rs_TargetNodeID o), wd_materials (rd_w d) !! (rs_UserID o, rs_TargetNodeID o),
            latest_cap (rd_w d) (rs_WorkflowID o) with
      | Some (u, (_, l, us)), Some s, Some a, Some m, Some (cid, c) =>
          Some (match wf_ActivityEpoch w, nodes w o with
          | Some epoch, Some (source, target) => Some
              {| rw_JobID := rs_ID o; rw_OperationID := op; rw_WorkflowID := rs_WorkflowID o; rw_State := wf_State w;
                 rw_Attempt := wf_Attempt w; rw_GlobalUserID := u; rw_LegacyUserID := l; rw_Handle := us_Username us;
                 rw_DisplayName := default ""%string (rd_display d !! u); rw_SourceNodeID := source;
                 rw_TargetNodeID := target; rw_SourceSnapshotID := rs_SourceSnapshotID o;
                 rw_RestoreSnapshotID := rs_RestoreSnapshotID o; rw_SourceManifestSHA256 := sm_ManifestSHA256 s;
                 rw_SourcePublishedAt := rs_SourcePublishedAt o; rw_ActivityEpoch := epoch;
                 rw_ControllerGeneration := wf_ControllerGeneration w; rw_CapabilityID := cid;
                 rw_CapabilityHash := tc_TokenHash c; rw_CapabilityExpires := tc_ExpiresAt c;
                 rw_CapabilityState := tc_State c; rw_TargetAccountStatus := na_Status a;
                 rw_TargetLocalUserID := default ""%string (am_LocalUserID m); rw_AccountVersion := am_AccountVersion m;
                 rw_PasswordHash := default ""%string (am_PasswordHash m);
                 rw_PasswordSalt := default ""%string (am_PasswordSalt m);
                 rw_OAuthProvider := (oauth_subject m).1; rw_OAuthSubject := (oauth_subject m).2 |}
          | _, _ => None
          end)
      | _, _, _, _, _ => None
      end
  end.

Definition operation_nodes (_ : Workflow) (o : RestoreOperation) : option (Z * Z) := Some (rs_SourceNodeID o, rs_TargetNodeID o).
Definition workflow_nodes (w : Workflow) (_ : RestoreOperation) : option (Z * Z) :=
  match wf_SourceNodeID w, wf_TargetNodeID w with Some s, Some t => Some (s, t) | _, _ => None end.

(** The replay of a creation: the stored operation must be the requested one. *)
Definition getRestoreOperation (p : CreateRestoreWorkflowParams) : RTx (option RestoreWorkflowExecution) :=
  let! op := uuid_param (cr_OpID p) in
  fun d => match rd_restores d !! op with
  | None => Ok (None, d)
  | Some o =>
      match restore_execution operation_nodes d op o with
      | None => Ok (None, d)
      | Some None => Fail sql_error
      | Some (Some x) =>
          if (rs_UserID o =? cr_GlobalUserID p) && (rs_TargetNodeID o =? cr_TargetNodeID p)
             && (rs_SourcePublishedAt o =? cr_ExpectedRecoveryAt p) && String.eqb (rs_RequestDigest o) (cr_RequestDigest p)
          then Ok (Some x, d) else Fail ErrRestoreConflict
      end
  end.

Definition GetRestoreWorkflowExecution (workflowID : string) (d : RDB) : result (option RestoreWorkflowExecution) :=
  if String.eqb workflowID "" then Fail ErrInvalidRestoreWorkflow
  else match uuid_in workflowID with
  | None => Fail sql_error
  | Some wid => match restore_by_workflow d wid ≫= fun x => restore_execution workflow_nodes d x.1 x.2 with
                | None => Ok None
                | Some (Some x) => Ok (Some x)
                | Some None => Fail sql_error
                end
  end.

Definition GetRestoreOperationStatus (globalUserID : Z) (operationID : string) (d : RDB)
  : result (option RestoreOperationStatus) :=
  if (globalUserID <=? 0) || String.eqb operationID "" then Fail ErrInvalidRestoreWorkflow
  else match uuid_in operationID with
  | None => Fail sql_error
  | Some op =>
      Ok (o ← rd_restores d !! op; w ← wd_workflows (rd_w d) !! rs_WorkflowID o; _ ← node_of (rd_w d) (rs_TargetNodeID o);
          if rs_UserID o =? globalUserID
          then Some {| rq_OperationID := op; rq_State := wf_State w; rq_TargetNodeID := rs_TargetNodeID o;
                       rq_TargetNodeName := default ""%string (fst <$> rd_names d !! rs_TargetNodeID o);
                       rq_SourcePublishedAt := rs_SourcePublishedAt o;
                       rq_ErrorSummary := default ""%string (wf_ErrorSummary w) |}
          else None)
  end.

(** ** Creating *)

Definition restore_valid (p : CreateRestoreWorkflowParams) : bool :=
  negb (String.eqb (cr_OpID p) "") && (slen (cr_RequestDigest p) =? 32) && negb (String.eqb (cr_WorkflowID p) "")
  && negb (String.eqb (cr_RestoreSnapshotID p) "") && negb (String.eqb (cr_CapabilityID p) "")
  && (slen (cr_CapabilityHash p) =? 32) && (0 <? cr_GlobalUserID p) && (0 <? cr_TargetNodeID p)
  && negb (is_zero (cr_ExpectedRecoveryAt p)).

(** The user may be writing, or its requests are in flight. *)
Definition user_writing (lease : option ActivityLease) (now : time) : bool :=
  match lease with
  | Some l => leaseBlocksNewWriter l now || negb (ls_InFlightReads l =? 0) || negb (ls_InFlightWrites l =? 0)
              || String.eqb (ls_State l) "independent" || String.eqb (ls_State l) "quiescing"
  | None => false
  end.

Definition require_idle (user : Z) (now : time) : RTx unit :=
  let! lease := tx_read (fun d => db_leases (core d) !! user) in
  require (negb (user_writing lease now)) ErrReplicaTakeoverLeaseActive.

Definition workflow_active (user : Z) (d : RDB) : bool :=
  negb (Nat.eqb (length (rows_where (fun _ => holds_user user) (wd_workflows (rd_w d)))) 0).

Record restore_source := { sc_Legacy : Z; sc_Handle : string; sc_Display : string; sc_OldHome : option Z;
  sc_Node : Z; sc_Snapshot : string; sc_PublishedAt : time; sc_Manifest : string; sc_Epoch : Z }.

(** The recovery point the user was shown, with its archive on a healthy storage
    node. *)
Definition source_row (p : CreateRestoreWorkflowParams) (d : RDB) : option restore_source :=
  x ← joined_user d (cr_GlobalUserID p);
  pr ← rd_protection d !! cr_GlobalUserID p;
  n ← pr_RecoveryNodeID pr; sid ← pr_LatestRecoverySnapshotID pr; at_ ← pr_LatestRecoveryAt pr;
  c ← wd_copies (rd_w d) !! (cr_GlobalUserID p, n);
  s ← immutable_of d (cr_GlobalUserID p) sid;
  if both_active x && String.eqb (pr_State pr) "restore_required" && (at_ =? ts (cr_ExpectedRecoveryAt p))
     && bool_decide (rc_SnapshotID c = Some sid) && String.eqb (rc_Kind c) "archive" && String.eqb (rc_State c) "ready"
     && String.eqb (rc_CompatibilityState c) "compatible" && healthy_at d "storage" n
  then Some {| sc_Legacy := x.1.2; sc_Handle := us_Username x.2;
               sc_Display := default ""%string (rd_display d !! cr_GlobalUserID p);
               sc_OldHome := wd_homes (rd_w d) !! x.1.2; sc_Node := n; sc_Snapshot := sid; sc_PublishedAt := at_;
               sc_Manifest := sm_ManifestSHA256 s; sc_Epoch := sm_ActivityEpoch s |}
  else None.

Definition target_ready (user target : Z) (handle : string) (d : RDB) : bool :=
  match node_of (rd_w d) target with
  | Some n => target_open d target n && target_clear d user target handle
  | None => false
  end.

Definition restore_plan (provision : bool) : list (string * string) :=
  [("provision_account", if provision then "pending" else "succeeded"); ("prepare_target", "pending");
   ("transfer", "pending"); ("verify", "pending"); ("publish", "pending")]%string.

(** [INSERT INTO restore_operations ... RETURNING id]. *)
Definition insert_restore (op : string) (o : Z -> RestoreOperation) : RTx Z := fun d =>
  let id := rd_restore_seq d in
  let o := o id in
  match rd_restores d !! op with
  | Some _ => Fail sql_error
  | None =>
      if negb (rs_SourceNodeID o =? rs_TargetNodeID o)
         && Nat.eqb (length (rows_where (fun _ o' => String.eqb (rs_WorkflowID o') (rs_WorkflowID o)
                                || String.eqb (rs_RestoreSnapshotID o') (rs_RestoreSnapshotID o)) (rd_restores d))) 0
      then Ok (id, set_rd_restore_seq (id + 1) (set_rd_restores (<[op := o]> (rd_restores d)) d))
      else Fail sql_error
  end.

(** The replica row of the target is a standby that is being filled. *)
Definition syncing_replica (legacy node : Z) : RTx unit := fun d =>
  if legacy_exists (rd_w d) legacy && node_exists (rd_w d) node
  then Ok (tt, set_rd_w (put_replicas (<[(legacy, node) :=
         match wd_replicas (rd_w d) !! (legacy, node) with
         | Some r => replica_set "hot_standby" "syncing" r
         | None => {| ur_Kind := "hot_standby"; ur_DataVersion := 0; ur_State := "syncing"; ur_LastSyncAt := None;
                      ur_Checksum := None; ur_SizeBytes := None |}
         end]> (wd_replicas (rd_w d))) (rd_w d)) d)
  else Fail sql_error.

(** The rows of a new restore, after the checks. *)
Definition restore_rows (p : CreateRestoreWorkflowParams) (s : restore_source) (op : string) (generation : Z) (now : time)
  : RTx (Z * bool) :=
  let user := cr_GlobalUserID p in let target := cr_TargetNodeID p in
  let! wid := uuid_param (cr_WorkflowID p) in
  let! _ := in_w (insert_workflow wid op "restore" user (sc_Node s) target (sc_Epoch s) generation "direct" now) in
  let! provision := in_w (prepareWorkflowTargetAccount wid user target (sc_Handle s) now) in
  let! sid := uuid_param (cr_RestoreSnapshotID p) in
  let! _ := in_w (insert_manifest sid wid user (sc_Node s) (sc_Epoch s) now) in
  let! cid := uuid_param (cr_CapabilityID p) in
  let! _ := in_w (insert_cap cid wid sid (sc_Node s) target (cr_CapabilityHash p) generation (cr_CapabilityExpires p) now) in
  let! _ := in_w (insert_steps wid (restore_plan provision) now) in
  let! job := insert_restore op (fun id =>
     {| rs_ID := id; rs_RequestDigest := cr_RequestDigest p; rs_WorkflowID := wid; rs_UserID := user;
        rs_SourceNodeID := sc_Node s; rs_TargetNodeID := target; rs_SourceSnapshotID := sc_Snapshot s;
        rs_RestoreSnapshotID := sid; rs_SourcePublishedAt := sc_PublishedAt s; rs_AcknowledgedAt := ts now;
        rs_CompletedAt := None |}) in
  let! _ := syncing_replica (sc_Legacy s) target in
  let! _ := insert_audit (typed 8) "archive-restore" user op generation
     [("outcome", DText "scheduled"); ("source_node_id", DInt (sc_Node s)); ("target_node_id", DInt target);
      ("source_snapshot_id", DText (sc_Snapshot s)); ("source_published_at", DTime (sc_PublishedAt s))]%string in
  tx_ret (job, provision).

(** The execution that a creation returns; the columns of the account are not read. *)
Definition created_execution (p : CreateRestoreWorkflowParams) (s : restore_source) (generation job : Z) (provision : bool)
  : RestoreWorkflowExecution :=
  {| rw_JobID := job; rw_OperationID := cr_OpID p; rw_WorkflowID := cr_WorkflowID p; rw_State := "scheduled";
     rw_Attempt := 0; rw_GlobalUserID := cr_GlobalUserID p; rw_LegacyUserID := sc_Legacy s; rw_Handle := sc_Handle s;
     rw_DisplayName := sc_Display s; rw_SourceNodeID := sc_Node s; rw_TargetNodeID := cr_TargetNodeID p;
     rw_SourceSnapshotID := sc_Snapshot s; rw_RestoreSnapshotID := cr_RestoreSnapshotID p;
     rw_SourceManifestSHA256 := sc_Manifest s; rw_SourcePublishedAt := sc_PublishedAt s; rw_ActivityEpoch := sc_Epoch s;
     rw_ControllerGeneration := generation; rw_CapabilityID := cr_CapabilityID p; rw_CapabilityHash := cr_CapabilityHash p;
     rw_CapabilityExpires := cr_CapabilityExpires p; rw_CapabilityState := "prepared";
     rw_TargetAccountStatus := if provision then "pending" else "active"; rw_TargetLocalUserID := "";
     rw_AccountVersion := 0; rw_PasswordHash := ""; rw_PasswordSalt := ""; rw_OAuthProvider := ""; rw_OAuthSubject := "" |}.

(** A new restore: what the transaction checks, and then writes. *)
Definition new_restore (p : CreateRestoreWorkflowParams) (now : time) : RTx RestoreWorkflowExecution :=
  let user := cr_GlobalUserID p in
  let! _ := requireUserDataFaultRecoveryReadyLocked user in
  let! generation := rselect (fun d => active_generation (core d)) ErrNoActiveController in
  let! _ := require_idle user now in
  let! busy := tx_read (workflow_active user) in
  let! _ := require (negb busy) ErrRestoreConflict in
  let! s := rselect (source_row p) ErrRestoreUnavailable in
  let! home := tx_lift (match sc_OldHome s with Some h => Ok h | None => Fail sql_error end) in
  let! _ := require (negb ((sc_Node s =? cr_TargetNodeID p) || (home =? cr_TargetNodeID p))) ErrRestoreUnavailable in
  let! ready := tx_read (target_ready user (cr_TargetNodeID p) (sc_Handle s)) in
  let! _ := require ready ErrRestoreUnavailable in
  let! op := uuid_param (cr_OpID p) in
  let! (job, provision) := restore_rows p s op generation now in
  tx_ret (created_execution p s generation job provision).

Definition create_restore_tx (p : CreateRestoreWorkflowParams) (now : time) : RTx RestoreWorkflowExecution :=
  let! _ := rselect (fun d => db_users (core d) !! cr_GlobalUserID p) ErrGlobalUserNotFound in
  let! replay := getRestoreOperation p in
  match replay with
  | Some x => tx_ret x
  | None => new_restore p now
  end.

Definition CreateRestoreWorkflow (clock : time) (p : CreateRestoreWorkflowParams) (d : RDB)
  : result RestoreWorkflowExecution * RDB :=
  let now := now_or clock (cr_Now p) in
  if restore_valid p && after (cr_CapabilityExpires p) now then runTx (create_restore_tx p now) d
  else (Fail ErrInvalidRestoreWorkflow, d).

(** ** Driving *)

(** An operation of the workflows on the whole database. *)
Definition on_w {A} (f : WDB -> result A * WDB) (d : RDB) : result A * RDB :=
  let '(r, w) := f (rd_w d) in (r, set_rd_w w d).

Definition CompleteRestoreAccountProvision (clock : time) (workflowID : string) (accountVersion : Z) (localUserID : string)
  (now : time) (d : RDB) : result unit * RDB :=
  on_w (CompleteWorkflowTargetAccountProvision clock workflowID accountVersion localUserID now) d.

Definition restore_resumable : list string := ["scheduled"; "transferring"; "verifying"; "publishing"; "retry_wait"].

(** [ORDER BY updated_at LIMIT $1]; rows of one instant in the order of their ids. *)
Definition ListResumableRestoreWorkflowIDs (clock : time) (limit : Z) (d : RDB) : list string :=
  map fst (take (batch limit) (order_rows (rows_where (fun _ w => String.eqb (wf_Type w) "restore"
    && bool_decide (wf_State w ∈ restore_resumable)
    && match wf_NextAttemptAt w with None => true | Some t => t <=? ts clock end) (wd_workflows (rd_w d))))).

(** A restore that the active Controller may still work on. *)
Definition restorable (w : WDB) (r : Workflow) : bool :=
  String.eqb (wf_Type r) "restore" && is_open r && generation_active (wf_ControllerGeneration r) w.

Definition ClaimRestoreWorkflow (workflowID workerID : string) (now : time) (ttl : duration) (d : RDB) : result bool * RDB :=
  if String.eqb workflowID "" || String.eqb workerID "" || (ttl <=? 0) then (Fail ErrInvalidRestoreWorkflow, d)
  else runTx (in_w (update_workflow workflowID (fun w r => restorable w r && lease_free now r)
         (fun r => wf_set_LeaseOwner (Some workerID) (wf_set_LeaseUntil (Some (ts (now + ttl)))
                     (wf_set_UpdatedAt (ts now) r))))) d.

Definition ResetRestoreTransferForRetry (clock : time) (workflowID : string) (now : time) (d : RDB) : result unit * RDB :=
  if String.eqb workflowID "" then (Fail ErrInvalidRestoreWorkflow, d)
  else
    let now := now_or clock now in
    runTx (in_w (
      let! wid := uuid_param workflowID in
      let! n := update_workflows (fun w id r => String.eqb id wid && String.eqb (wf_Type r) "restore"
                    && bool_decide (wf_State r ∈ ["transferring"; "verifying"])
                    && generation_active (wf_ControllerGeneration r) w)
                  (fun r => wf_set_State "transferring" (wf_set_UpdatedAt (ts now) r)) in
      let! _ := require (Nat.eqb n 1) ErrRestoreConflict in
      let! _ := update_steps (step_in wid ["transfer"; "verify"; "publish"])
                  (fun s => st_set_State "pending" (st_set_FinishedAt None (st_set_ErrorCode None (st_set_UpdatedAt (ts now) s)))) in
      tx_ret tt)) d.

(** ** Completing *)

Definition complete_restore_valid (p : CompleteRestoreWorkflowParams) : bool :=
  negb (String.eqb (cm_WorkflowID p) "") && negb (String.eqb (cm_RestoreSnapshotID p) "")
  && (slen (cm_CapabilityHash p) =? 32) && (slen (cm_ManifestSHA256 p) =? 32) && (slen (cm_ArchiveSHA256 p) =? 32)
  && (0 <=? cm_FileCount p) && (0 <=? cm_TotalBytes p).

Record restore_row := { rr_Workflow : Workflow; rr_OpID : string; rr_Operation : RestoreOperation;
  rr_User : Z; rr_GlobalStatus : string; rr_Legacy : Z; rr_LegacyStatus : string; rr_OldHome : option Z }.

(** [workflows JOIN restore_operations JOIN global_users JOIN users]. *)
Definition completing_row (wid sid : string) (d : RDB) : option restore_row :=
  w ← wd_workflows (rd_w d) !! wid;
  x ← restore_by_workflow d wid;
  u ← wf_UserID w; y ← joined_user d u;
  if String.eqb (rs_RestoreSnapshotID x.2) sid
  then Some {| rr_Workflow := w; rr_OpID := x.1; rr_Operation := x.2; rr_User := u; rr_GlobalStatus := gu_Status y.1.1;
               rr_Legacy := y.1.2; rr_LegacyStatus := us_Status y.2; rr_OldHome := wd_homes (rd_w d) !! y.1.2 |}
  else None.

(** The archive the restore was made from is still there. *)
Definition source_verified (user : Z) (o : RestoreOperation) (d : RDB) : bool :=
  match wd_copies (rd_w d) !! (user, rs_SourceNodeID o) with
  | Some c => bool_decide (rc_SnapshotID c = Some (rs_SourceSnapshotID o)) && String.eqb (rc_Kind c) "archive"
              && String.eqb (rc_State c) "ready" && String.eqb (rc_CompatibilityState c) "compatible"
              && bool_decide (rc_PublishedAt c = Some (rs_SourcePublishedAt o))
              && isSome (immutable_of d user (rs_SourceSnapshotID o))
  | None => false
  end.

Definition target_account_ready (user target : Z) (d : RDB) : bool :=
  account_is d user target "active" && healthy_at d "compute" target.

(** [UPDATE snapshot_manifests SET ..., state='immutable' ... AND state='building']. *)
Definition seal_restore (p : CompleteRestoreWorkflowParams) (wid sid : string) : WTx unit := fun d =>
  match wd_manifests d !! sid with
  | Some s =>
      if String.eqb (sm_WorkflowID s) wid && String.eqb (sm_State s) "building"
      then Ok (tt, put_manifests (<[sid :=
        {| sm_WorkflowID := sm_WorkflowID s; sm_UserID := sm_UserID s; sm_SourceNodeID := sm_SourceNodeID s;
           sm_ActivityEpoch := sm_ActivityEpoch s; sm_FormatVersion := sm_FormatVersion s;
           sm_ManifestSHA256 := cm_ManifestSHA256 p; sm_ArchiveSHA256 := Some (cm_ArchiveSHA256 p);
           sm_FileCount := cm_FileCount p; sm_TotalBytes := cm_TotalBytes p; sm_State := "immutable";
           sm_CreatedAt := sm_CreatedAt s |}]> (wd_manifests d)) d)
      else Fail ErrRestoreConflict
  | None => Fail ErrRestoreConflict
  end.

(** The home moves in user_replicas and users: the old home is a stale standby. *)
Definition move_home (p : CompleteRestoreWorkflowParams) (legacy old target version : Z) (now : time) : RTx unit :=
  let! one := update_replica legacy old (fun r => String.eqb (ur_Kind r) "home") (replica_set "hot_standby" "stale") in
  let! _ := require one ErrRestoreConflict in
  let! one := update_replica legacy target (fun _ => true) (fun _ =>
      {| ur_Kind := "home"; ur_DataVersion := version; ur_State := "ready"; ur_LastSyncAt := Some (ts now);
         ur_Checksum := Some (hex_encode (cm_ManifestSHA256 p)); ur_SizeBytes := Some (cm_TotalBytes p) |}) in
  let! _ := require one ErrRestoreConflict in
  let! one := set_home legacy target in
  require one ErrRestoreConflict.

(** The authority moves in replica_copies. *)
Definition move_authority (clock : time) (copy_id sid : string) (user old target : Z) (now : time) : RTx unit :=
  let! _ := (fun d => write_copies (map_imap (fun k c => Some
      (if (k.1 =? user) && (rc_IsAuthoritative c || (k.2 =? old))
       then copy_set (rc_Kind c) (if k.2 =? old then "stale" else rc_State c) (rc_Origin c) false (ts now) c else c))
      (wd_copies (rd_w d))) d) in
  let published (id : string) (created : time) (i : Integrity) :=
    {| rc_ID := id; rc_SnapshotID := Some sid; rc_Kind := "active"; rc_State := "ready"; rc_Origin := "recovery";
       rc_IsAuthoritative := true; rc_CompatibilityState := "compatible"; rc_PublishedAt := Some (ts now);
       rc_VerifiedAt := Some (ts now); rc_CreatedAt := created; rc_UpdatedAt := ts now; rc_Integrity := i |} in
  upsert_copy user target (published copy_id (ts now) (integrity_default (ts clock)))
    (fun c => published (rc_ID c) (rc_CreatedAt c) (rc_Integrity c)).

(** The capability is used up and the workflow, its steps and its operation end. *)
Definition finish_restore (p : CompleteRestoreWorkflowParams) (wid op : string) (o : RestoreOperation) (now : time) : RTx unit :=
  let here (_ : string) c := prepared_for wid c && String.eqb (tc_TokenHash c) (cm_CapabilityHash p) in
  let! caps := tx_read (fun d => length (rows_where here (wd_caps (rd_w d)))) in
  let! _ := in_w (tx_write (fun w => put_caps (update_where here (cap_set_state "consumed" (Some (ts now))) (wd_caps w)) w)) in
  let! _ := require (Nat.eqb caps 1) ErrRestoreConflict in
  let! n := in_w (update_workflows (fun _ id r => String.eqb id wid && String.eqb (wf_State r) "publishing")
      (fun r => wf_set_State "succeeded" (wf_set_CleanupState "succeeded" (wf_set_UpdatedAt (ts now)
         (wf_set_FinishedAt (Some (ts now)) r))))) in
  let! _ := require (Nat.eqb n 1) ErrRestoreConflict in
  let! _ := in_w (update_steps (fun k _ => String.eqb k.1 wid) (finish_step now)) in
  let! _ := require (bool_decide (rs_CompletedAt o = None)) ErrRestoreConflict in
  tx_write (fun d => set_rd_restores (<[op :=
    {| rs_ID := rs_ID o; rs_RequestDigest := rs_RequestDigest o; rs_WorkflowID := rs_WorkflowID o; rs_UserID := rs_UserID o;
       rs_SourceNodeID := rs_SourceNodeID o; rs_TargetNodeID := rs_TargetNodeID o;
       rs_SourceSnapshotID := rs_SourceSnapshotID o; rs_RestoreSnapshotID := rs_RestoreSnapshotID o;
       rs_SourcePublishedAt := rs_SourcePublishedAt o; rs_AcknowledgedAt := rs_AcknowledgedAt o;
       rs_CompletedAt := Some (ts now) |}]> (rd_restores d)) d).

(** The restored copy becomes the home of the user. *)
Definition publish_restore (clock : time) (copy_id : string) (p : CompleteRestoreWorkflowParams) (wid sid : string)
  (r : restore_row) (old : Z) (now : time) : RTx unit :=
  let user := rr_User r in let legacy := rr_Legacy r in let o := rr_Operation r in let target := rs_TargetNodeID o in
  let! _ := in_w (seal_restore p wid sid) in
  let! version := tx_read (fun d => next_version (rd_w d) legacy) in
  let! _ := require (version <=? MaxInt64) sql_error in
  let! _ := move_home p legacy old target version now in
  let! _ := move_authority clock copy_id sid user old target now in
  let! n := swap_accounts user target old (ts now) in
  let! _ := require (negb (Nat.eqb n 0)) ErrRestoreConflict in
  let! _ := end_user_lease user (ts now) in
  let! _ := revoke_user_tickets user (ts now) in
  let! _ := finish_restore p wid (rr_OpID r) o now in
  let! _ := protect_anew user target "restore_completed_backup_required" (ts now) in
  let! _ := resolveUserDataFaultLocked user "restore" (rr_OpID r) (ts now) in
  insert_audit (typed 9) "archive-restore" user (rr_OpID r) (wf_ControllerGeneration (rr_Workflow r))
    [("outcome", DText "succeeded"); ("source_node_id", DInt (rs_SourceNodeID o)); ("target_node_id", DInt target);
     ("source_snapshot_id", DText (rs_SourceSnapshotID o)); ("source_published_at", DTime (rs_SourcePublishedAt o));
     ("restore_snapshot_id", DText sid)]%string.

Definition complete_restore_tx (clock : time) (copy_id : string) (p : CompleteRestoreWorkflowParams) (now : time) : RTx unit :=
  let! wid := uuid_param (cm_WorkflowID p) in
  let! sid := uuid_param (cm_RestoreSnapshotID p) in
  let! r := rselect (completing_row wid sid) ErrNoRows in
  let! old := tx_lift (match rr_OldHome r with Some h => Ok h | None => Fail sql_error end) in
  if String.eqb (wf_State (rr_Workflow r)) "succeeded" then tx_ret tt
  else
    let! _ := require (String.eqb (wf_State (rr_Workflow r)) "publishing") ErrRestoreConflict in
    let! _ := require (String.eqb (rr_GlobalStatus r) "active" && String.eqb (rr_LegacyStatus r) "active") ErrRestoreConflict in
    let! _ := requireUserDataFaultRecoveryReadyLocked (rr_User r) in
    let! active := rselect (fun d => active_generation (core d)) ErrNoRows in
    let! _ := require (wf_ControllerGeneration (rr_Workflow r) =? active) ErrRestoreConflict in
    let! _ := require_idle (rr_User r) now in
    let! ok := tx_read (source_verified (rr_User r) (rr_Operation r)) in
    let! _ := require ok ErrRestoreUnavailable in
    let! ok := tx_read (target_account_ready (rr_User r) (rs_TargetNodeID (rr_Operation r))) in
    let! _ := require ok ErrRestoreUnavailable in
    publish_restore clock copy_id p wid sid r old now.

Definition CompleteRestoreWorkflow (clock : time) (copy_id : string) (p : CompleteRestoreWorkflowParams) (d : RDB)
  : result unit * RDB :=
  if complete_restore_valid p then runTx (complete_restore_tx clock copy_id p (now_or clock (cm_Now p))) d
  else (Fail ErrInvalidRestoreWorkflow, d).

(** ** Failing *)

(** [$5] and [$6] are arguments of [jsonb_build_object] and nothing else. *)
Definition failure_audit_params : list (list param_use) :=
  [[Typed; Typed]; [Typed]; [Typed]; [Typed]; [AnyArgument]; [AnyArgument]].

Definition failing_row (wid : string) (d : RDB) : option (Workflow * string * RestoreOperation * Z * option Z) :=
  w ← wd_workflows (rd_w d) !! wid;
  x ← restore_by_workflow d wid;
  u ← wf_UserID w; g ← db_users (core d) !! u;
  Some (w, x.1, x.2, u, gu_LegacyUserID g).

(** The partial replica and the pending account of the target are in error. *)
Definition abandon_target (user legacy target : Z) (now : time) : RTx unit :=
  let! _ := update_replica legacy target (fun r => String.eqb (ur_Kind r) "hot_standby" && String.eqb (ur_State r) "syncing")
              (replica_set_state "error") in
  in_w (tx_write (fun w =>
    match db_accounts (wd_core w) !! (user, target) with
    | Some a =>
        if String.eqb (na_Status a) "pending"
        then put_materials (update_where (fun k _ => bool_decide (k = (user, target))) (fun m =>
               {| am_AccountVersion := am_AccountVersion m; am_PasswordMaterialVersion := am_PasswordMaterialVersion m;
                  am_PasswordHash := am_PasswordHash m; am_PasswordSalt := am_PasswordSalt m;
                  am_OAuthSubjects := am_OAuthSubjects m; am_ProvisioningWorkflowID := None;
                  am_LocalUserID := am_LocalUserID m; am_UpdatedAt := now |}) (wd_materials w))
             (put_core (set_accounts (<[(user, target) := {| na_LocalHandle := na_LocalHandle a; na_Status := "error" |}]>
                (db_accounts (wd_core w))) (wd_core w)) w)
        else w
    | None => w
    end)).

Definition fail_restore_tx (workflowID errorCode errorSummary : string) (now : time) : RTx unit :=
  let! wid := uuid_param workflowID in
  let! (w, op, o, user, legacy) := rselect (failing_row wid) ErrNoRows in
  let! legacy := tx_lift (match legacy with Some l => Ok l | None => Fail sql_error end) in
  let! target := tx_lift (match wf_TargetNodeID w with Some t => Ok t | None => Fail sql_error end) in
  if String.eqb (wf_State w) "failed" then tx_ret tt
  else
    let! _ := require (negb (bool_decide (wf_State w ∈ ["succeeded"; "cancelled"]))) ErrRestoreConflict in
    let! n := in_w (update_workflows (fun _ id r => String.eqb id wid && is_open r)
       (fun r => wf_set_State "failed" (wf_set_ErrorCode (Some errorCode) (wf_set_ErrorSummary (nullIfEmpty errorSummary)
          (wf_set_CleanupState "pending" (wf_set_UpdatedAt (ts now) (wf_set_FinishedAt (Some (ts now))
          (wf_set_LeaseOwner None (wf_set_LeaseUntil None r))))))))) in
    let! _ := require (Nat.eqb n 1) ErrRestoreConflict in
    let! _ := in_w (update_steps (fun k s => String.eqb k.1 wid && negb (String.eqb (st_State s) "succeeded"))
       (fun s => st_set_State "failed" (st_set_ErrorCode (Some errorCode) (st_set_FinishedAt (Some (ts now))
          (st_set_UpdatedAt (ts now) s))))) in
    let! _ := in_w (revoke_caps wid) in
    let! _ := in_w (tx_write (fun w => put_manifests (update_where (fun _ s => String.eqb (sm_WorkflowID s) wid
         && String.eqb (sm_State s) "building") (fun s =>
       {| sm_WorkflowID := sm_WorkflowID s; sm_UserID := sm_UserID s; sm_SourceNodeID := sm_SourceNodeID s;
          sm_ActivityEpoch := sm_ActivityEpoch s; sm_FormatVersion := sm_FormatVersion s;
          sm_ManifestSHA256 := sm_ManifestSHA256 s; sm_ArchiveSHA256 := sm_ArchiveSHA256 s;
          sm_FileCount := sm_FileCount s; sm_TotalBytes := sm_TotalBytes s; sm_State := "invalid";
          sm_CreatedAt := sm_CreatedAt s |}) (wd_manifests w)) w)) in
    let! _ := abandon_target user legacy target (ts now) in
    let! _ := tx_write (fun d => set_rd_restores (<[op :=
       {| rs_ID := rs_ID o; rs_RequestDigest := rs_RequestDigest o; rs_WorkflowID := rs_WorkflowID o; rs_UserID := rs_UserID o;
          rs_SourceNodeID := rs_SourceNodeID o; rs_TargetNodeID := rs_TargetNodeID o;
          rs_SourceSnapshotID := rs_SourceSnapshotID o; rs_RestoreSnapshotID := rs_RestoreSnapshotID o;
          rs_SourcePublishedAt := rs_SourcePublishedAt o; rs_AcknowledgedAt := rs_AcknowledgedAt o;
          rs_CompletedAt := coalesce (rs_CompletedAt o) (ts now) |}]> (rd_restores d)) d) in
    insert_audit failure_audit_params "archive-restore" user op (wf_ControllerGeneration w)
      [("outcome", DText "failed"); ("target_node_id", DInt target); ("error_code", DText errorCode)]%string.

Definition FailRestoreWorkflow (clock : time) (workflowID errorCode errorSummary : string) (now : time) (d : RDB)
  : result unit * RDB :=
  if String.eqb workflowID "" || String.eqb errorCode "" then (Fail ErrInvalidRestoreWorkflow, d)
  else runTx (fail_restore_tx workflowID errorCode (clip errorSummary) (now_or clock now)) d.

End RestoreStore.
