(* ===== verification/RecoverySystem.v ===== *)
(** * Runs of the recovery

    The operations of RestoreStore.v, Protection.v and DataFaults.v with those of the
    snapshot workflows, called in any order by any number of Controllers and
    administrators, and between them any change of the tables of Schema.v - leases,
    logins, heartbeats, promotions - that keeps the identity of the users.  The file
    has the events, and what each statement leaves alone. *)

From Stdlib Require Import ZArith Lia Ascii String.
From stdpp Require Import base list gmap strings relations.
From S2P Require Import Prelude GoStrings AgentState Schema Leases Handoffs WorkflowSchema SnapshotStore SnapshotLife.
From S2P Require Import SnapshotExecutor RecoverySchema DataFaults Protection RestoreStore.
#[local] Open Scope Z_scope.

(** ** Events *)

Inductive recovery_event :=
| RCore (f : DB -> DB)
| RSnapshot (ev : snapshot_event)
| RReport (clock : time) (fid copy_id : string) (p : ReportUserDataFaultParams) (later : RDB -> RDB)
| RFreezeClaim (clock : time) (fid op worker : string) (now : time) (ttl : duration)
| RFreeze (clock : time) (fid op worker : string) (now : time) (later : RDB -> RDB)
| RFreezeRetry (clock : time) (fid op worker code : string) (now : time) (delay : duration)
| RReleaseClaim (clock : time) (fid op worker : string) (now : time) (ttl : duration)
| RReleased (clock : time) (fid op worker : string) (now : time)
| RReleaseRetry (clock : time) (fid op worker code : string) (now : time) (delay : duration)
| RReconcile (clock : time) (newid : Z -> string) (evidence : string -> Z -> string) (now : time) (grace : duration)
| RTakeover (clock : time) (copy_id : string) (p : ConfirmReplicaTakeoverParams)
| RCreate (clock : time) (p : CreateRestoreWorkflowParams)
| RProvision (clock : time) (wid : string) (version : Z) (local : string) (now : time)
| RClaim (wid worker : string) (now : time) (ttl : duration)
| RBegin (clock : time) (wid : string) (now : time)
| RReset (clock : time) (wid : string) (now : time)
| RComplete (clock : time) (copy_id : string) (p : CompleteRestoreWorkflowParams)
| RFail (clock : time) (wid code summary : string) (now : time).

(** Who is who: the legacy ids of the users. *)
Definition legacy_ids (d : DB) : gmap Z (option Z) := gu_LegacyUserID <$> db_users d.

(** Another change of the core tables. *)
Definition core_change (f : DB -> DB) (d : RDB) : RDB :=
  if bool_decide (legacy_ids (f (core d)) = legacy_ids (core d))
  then set_rd_w (put_core (f (core d)) (rd_w d)) d else d.

(** The operations of snapshots.go, without the placeholder for other tables. *)
Definition is_operation (ev : snapshot_event) : bool := match ev with SOther _ => false | _ => true end.

Section System.
Context `{Postgres}.

Definition recovery_effect (ev : recovery_event) (d : RDB) : RDB :=
  match ev with
  | RCore f => core_change f d
  | RSnapshot ev => if is_operation ev then set_rd_w (snapshot_effect ev (rd_w d)) d else d
  | RReport clock fid cid p later => (ReportUserDataFault clock fid cid p later d).2
  | RFreezeClaim clock fid op w now ttl => (ClaimUserDataFault clock fid op w now ttl d).2
  | RFreeze clock fid op w now later => (CompleteUserDataFaultFreeze clock fid op w now later d).2
  | RFreezeRetry clock fid op w code now delay => (RetryUserDataFault clock fid op w code now delay d).2
  | RReleaseClaim clock fid op w now ttl => (ClaimUserDataFaultRelease clock fid op w now ttl d).2
  | RReleased clock fid op w now => (CompleteUserDataFaultRelease clock fid op w now d).2
  | RReleaseRetry clock fid op w code now delay => (RetryUserDataFaultRelease clock fid op w code now delay d).2
  | RReconcile clock newid ev now grace => (ReconcileProtectionStates clock newid ev now grace d).2
  | RTakeover clock cid p => (ConfirmReplicaTakeover clock cid p d).2
  | RCreate clock p => (CreateRestoreWorkflow clock p d).2
  | RProvision clock wid v l now => (CompleteRestoreAccountProvision clock wid v l now d).2
  | RClaim wid w now ttl => (ClaimRestoreWorkflow wid w now ttl d).2
  | RBegin clock wid now => (on_w (SetSnapshotWorkflowState clock wid "scheduled" "transferring" now) d).2
  | RReset clock wid now => (ResetRestoreTransferForRetry clock wid now d).2
  | RComplete clock cid p => (CompleteRestoreWorkflow clock cid p d).2
  | RFail clock wid code s now => (FailRestoreWorkflow clock wid code s now d).2
  end.

Definition recovery_run (d : RDB) (evs : list recovery_event) : RDB :=
  foldl (fun d ev => recovery_effect ev d) d evs.

End System.

(** ** Statements on the larger database *)

Lemma in_w_ok {A} (m : WTx A) d a d' :
  in_w m d = Ok (a, d') -> exists w, m (rd_w d) = Ok (a, w) /\ d' = set_rd_w w d.
Proof. unfold in_w. destruct (m (rd_w d)) as [[b w]|e]; [|done]. intros [= <- <-]. by exists w. Qed.

Lemma rselect_ok {A} (q : RDB -> option A) e d a d' : rselect q e d = Ok (a, d') -> q d = Some a /\ d' = d.
Proof. unfold rselect. destruct (q d); [|done]. by intros [= <- <-]. Qed.

Lemma tx_lift_ok {S A} (r : result A) (d : S) a d' : tx_lift r d = Ok (a, d') -> r = Ok a /\ d' = d.
Proof. unfold tx_lift. destruct r; [|done]. by intros [= <- <-]. Qed.

Lemma infer_params_ok uses d u d' : infer_params uses d = Ok (u, d') -> forallb (existsb is_typed) uses = true /\ d' = d.
Proof. apply require_ok. Qed.

(** Take a committed transaction of the recovery apart. *)
Ltac rtx_split :=
  repeat (tx_split; match goal with
  | H : rselect _ _ _ = Ok (_, _) |- _ => apply rselect_ok in H as [? ->]
  | H : tx_lift _ _ = Ok (_, _) |- _ => apply tx_lift_ok in H as [? ->]
  | H : in_w _ _ = Ok (_, _) |- _ => apply in_w_ok in H as (? & ? & ->)
  end); tx_split.

Lemma tx_rel_in_w {A} (R : RDB -> RDB -> Prop) (Rw : WDB -> WDB -> Prop) (m : WTx A) :
  (forall d w, Rw (rd_w d) w -> R d (set_rd_w w d)) -> tx_rel Rw m -> tx_rel R (in_w m).
Proof. intros HR Hm d a d' (w & E & ->)%in_w_ok. eauto. Qed.

Lemma tx_rel_rselect {A} R `{!PreOrder R} (q : RDB -> option A) e : tx_rel R (rselect q e).
Proof. by intros d a d' [_ ->]%rselect_ok. Qed.

(** The statements one after the other; [in_w] by the rule of the relation. *)
Ltac rtx_frame w :=
  repeat match goal with
  | |- tx_rel _ (tx_bind _ _) => apply tx_rel_bind; [exact _ | | intros ?]
  | |- tx_rel _ (tx_ret _) => apply tx_rel_ret; exact _
  | |- tx_rel _ (tx_fail _) => apply tx_rel_fail
  | |- tx_rel _ (tx_read _) => apply tx_rel_read; exact _
  | |- tx_rel _ (tx_lift _) => apply tx_rel_lift; exact _
  | |- tx_rel _ (require _ _) => apply tx_rel_require; exact _
  | |- tx_rel _ (infer_params _) => apply tx_rel_require; exact _
  | |- tx_rel _ (uuid_param _) => apply tx_rel_uuid; exact _
  | |- tx_rel _ (rselect _ _) => apply tx_rel_rselect; exact _
  | |- tx_rel _ (in_w _) => w
  | |- tx_rel _ (if ?b then _ else _) => destruct b
  | |- tx_rel _ (match ?x with _ => _ end) => destruct x
  | |- tx_rel _ _ => solve [eauto 4 with rtx_frame]
  end.

Create HintDb rtx_frame discriminated.
