(* ===== verification/RecoveryFaults.v ===== *)
(** * The life of a data fault

    The abstract life of a fault of user_data_faults.go - reported, freezing, waiting
    to freeze again, recoverable or not, resolved and then released - and the theorem
    that every run of the recovery refines it.  A fault that was frozen while no copy
    could be recovered from has no further step: it stays, and with it the user stays
    without takeover and without restore, whatever copies appear later. *)

From Stdlib Require Import ZArith Lia Ascii String.
From stdpp Require Import base list gmap strings relations.
From S2P Require Import Prelude GoStrings AgentState Schema Leases Handoffs WorkflowSchema SnapshotStore SnapshotLife.
From S2P Require Import SnapshotExecutor RecoverySchema DataFaults Protection RestoreStore RecoverySystem.
#[local] Open Scope Z_scope.

(** ** The abstract life *)

Inductive release_phase := LPending | LReleasing | LWaiting | LReleased | LSuperseded.
Inductive fault_phase := FReported | FFreezing | FWaiting | FAvailable | FUnavailable | FResolved (r : release_phase).

Inductive fault_step : option fault_phase -> option fault_phase -> Prop :=
| fs_report : fault_step None (Some FReported)
| fs_claim ph : ph = FReported \/ ph = FWaiting \/ ph = FFreezing -> fault_step (Some ph) (Some FFreezing)
| fs_retry : fault_step (Some FFreezing) (Some FWaiting)
| fs_available : fault_step (Some FFreezing) (Some FAvailable)
| fs_unavailable : fault_step (Some FFreezing) (Some FUnavailable)
| fs_resolve : fault_step (Some FAvailable) (Some (FResolved LPending))
| fs_release_claim r : r = LPending \/ r = LWaiting \/ r = LReleasing ->
    fault_step (Some (FResolved r)) (Some (FResolved LReleasing))
| fs_release_retry : fault_step (Some (FResolved LReleasing)) (Some (FResolved LWaiting))
| fs_released : fault_step (Some (FResolved LReleasing)) (Some (FResolved LReleased)).

#[export] Hint Constructors fault_step : stc.

Definition release_phase_of (state : string) : option release_phase :=
  if String.eqb state "pending" then Some LPending
  else if String.eqb state "releasing" then Some LReleasing
  else if String.eqb state "retry_wait" then Some LWaiting
  else if String.eqb state "released" then Some LReleased
  else if String.eqb state "superseded" then Some LSuperseded else None.

Definition fault_phase_of (f : DataFault) : option fault_phase :=
  if String.eqb (fa_State f) "reported" then Some FReported
  else if String.eqb (fa_State f) "freezing" then Some FFreezing
  else if String.eqb (fa_State f) "retry_wait" then Some FWaiting
  else if String.eqb (fa_State f) "recovery_available" then Some FAvailable
  else if String.eqb (fa_State f) "recovery_unavailable" then Some FUnavailable
  else if String.eqb (fa_State f) "resolved" then FResolved <$> release_phase_of (rl_State (fa_Release f)) else None.

Definition fault_life (d : RDB) (fid : string) : option fault_phase := rd_faults d !! fid ≫= fault_phase_of.

(** What the report said, which nothing changes. *)
Definition report_of (f : DataFault) :=
  (fa_OperationID f, fa_RequestDigest f, fa_UserID f, fa_LegacyUserID f, fa_NodeID f, fa_LocalHandle f, fa_ReasonCode f,
   fa_ActivityEpoch f, fa_ReportedByAdminID f, fa_ReportedAt f).

(** ** What a step does to the faults *)

Definition faults_move (d d' : RDB) : Prop :=
  faults_ok (rd_faults d) = true ->
  faults_ok (rd_faults d') = true
  /\ (forall id, rtc fault_step (fault_life d id) (fault_life d' id))
  /\ forall id f, rd_faults d !! id = Some f -> exists f', rd_faults d' !! id = Some f' /\ report_of f' = report_of f.

#[export] Instance faults_move_preorder : PreOrder faults_move.
Proof.
  split.
  - intros d Hok. split; [done|]. split; [by intros id|]. intros id f Hl. by exists f.
  - intros d1 d2 d3 H12 H23 Hok. destruct (H12 Hok) as (Hok2 & Hl2 & Hr2). destruct (H23 Hok2) as (Hok3 & Hl3 & Hr3).
    split; [done|]. split.
    + intros id. etrans; [apply Hl2 | apply Hl3].
    + intros id f Hf. destruct (Hr2 _ _ Hf) as (f2 & Hf2 & E2). destruct (Hr3 _ _ Hf2) as (f3 & Hf3 & E3).
      exists f3. split; [done|]. congruence.
Qed.

Lemma same_faults_move d d' : rd_faults d' = rd_faults d -> faults_move d d'.
Proof.
  intros E Hok. rewrite E. split; [done|]. split.
  - intros id. unfold fault_life. by rewrite E.
  - intros id f Hl. by exists f.
Qed.

Lemma write_faults_ok m d u d' : write_faults m d = Ok (u, d') -> faults_ok m = true /\ d' = set_rd_faults m d.
Proof. unfold write_faults. destruct (faults_ok m); [|done]. by intros [= <- <-]. Qed.

(** One row makes one step. *)
Lemma move_one fid f f' d u d' :
  write_faults (<[fid := f']> (rd_faults d)) d = Ok (u, d') -> rd_faults d !! fid = Some f ->
  fault_step (fault_phase_of f) (fault_phase_of f') -> report_of f' = report_of f -> faults_move d d'.
Proof.
  intros [Hok' ->]%write_faults_ok Hl Hs Hr Hok. split; [done|]. cbn. split.
  - intros id. unfold fault_life. cbn. destruct (decide (id = fid)) as [->|Hn].
    + rewrite lookup_insert_eq, Hl. by apply rtc_once.
    + by rewrite lookup_insert_ne by done.
  - intros id g Hg. destruct (decide (id = fid)) as [->|Hn].
    + exists f'. rewrite lookup_insert_eq. split; [done|]. congruence.
    + exists g. by rewrite lookup_insert_ne by done.
Qed.

Lemma update_fault_move fid p f d b d' :
  update_fault fid p f d = Ok (b, d') ->
  (forall x, rd_faults d !! fid = Some x -> p d x = true ->
     fault_step (fault_phase_of x) (fault_phase_of (f x)) /\ report_of (f x) = report_of x) ->
  faults_move d d'.
Proof.
  unfold update_fault. destruct (rd_faults d !! fid) as [x|] eqn:Hl; [|by intros [= _ <-]].
  destruct (p d x) eqn:Hp; [|by intros [= _ <-]]. intros E Hs.
  destruct (write_faults _ d) as [[u d1]|e] eqn:Ew; [|done]. injection E as _ <-.
  destruct (Hs x eq_refl Hp). by eapply move_one.
Qed.

Lemma in_w_move {A} (m : WTx A) : tx_rel faults_move (in_w m).
Proof. intros d a d' (w & _ & ->)%in_w_ok. by apply same_faults_move. Qed.

Ltac faults_frame := rtx_frame ltac:(apply in_w_move).

(** A statement that is one test and one write elsewhere. *)
Ltac other_write :=
  intros ? ? ? Hw; cbv beta zeta in Hw;
  repeat match type of Hw with
  | (match ?x with _ => _ end) = Ok _ => destruct x eqn:?; try discriminate Hw
  end; injection Hw as ? <-; by apply same_faults_move.

Section Moves.
Context `{Postgres}.

Lemma audit_move uses a t op g det : tx_rel faults_move (insert_audit uses a t op g det).
Proof. unfold insert_audit. faults_frame. Qed.

Lemma write_copies_move m : tx_rel faults_move (write_copies m).
Proof. unfold write_copies. other_write. Qed.

Lemma upsert_copy_move u n fresh again : tx_rel faults_move (upsert_copy u n fresh again).
Proof.
  intros d a d' E. unfold upsert_copy in E. destruct (_ && _); [|done].
  destruct (wd_copies _ !! _); [by eapply write_copies_move|]. destruct (Nat.eqb _ 0); [|done]. by eapply write_copies_move.
Qed.

Lemma update_replica_move l n p f : tx_rel faults_move (update_replica l n p f).
Proof. unfold update_replica. other_write. Qed.

Lemma set_home_move l n : tx_rel faults_move (set_home l n).
Proof. unfold set_home. other_write. Qed.

Lemma end_user_lease_move u now : tx_rel faults_move (end_user_lease u now).
Proof. apply in_w_move. Qed.

Lemma revoke_user_tickets_move u now : tx_rel faults_move (revoke_user_tickets u now).
Proof. apply in_w_move. Qed.

Lemma swap_accounts_move u t o now : tx_rel faults_move (swap_accounts u t o now).
Proof. unfold swap_accounts. other_write. Qed.

Lemma protect_anew_move u n r now : tx_rel faults_move (protect_anew u n r now).
Proof. unfold protect_anew. other_write. Qed.

Lemma corrupt_replica_move l n now : tx_rel faults_move (corrupt_replica l n now).
Proof. unfold corrupt_replica. other_write. Qed.

Lemma corrupt_copy_move clock cid u n r now : tx_rel faults_move (corrupt_copy clock cid u n r now).
Proof. apply upsert_copy_move. Qed.

Lemma write_move (f : RDB -> RDB) : (forall d, rd_faults (f d) = rd_faults d) -> tx_rel faults_move (tx_write f).
Proof. intros Hf d a d' [_ ->]%tx_write_ok. by apply same_faults_move. Qed.

Lemma ready_move u : tx_rel faults_move (requireUserDataFaultRecoveryReadyLocked u).
Proof.
  intros d a d' E. unfold requireUserDataFaultRecoveryReadyLocked in E.
  destruct (open_fault u d) as [[fid f]|]; [destruct (String.eqb _ _); [|done]|]; by injection E as _ <-.
Qed.

Lemma resolve_alert_move u now : tx_rel faults_move (resolve_fault_alert u now).
Proof. apply in_w_move. Qed.

(** A recoverable fault is resolved. *)
Lemma resolve_rows_move u kind op now :
  tx_rel faults_move (fun d => write_faults (update_where (fun _ => recoverable_fault u) (resolved_fault kind op now) (rd_faults d)) d).
Proof.
  intros d a d' [Hok' ->]%write_faults_ok Hok. split; [done|]. cbn. split.
  - intros id. unfold fault_life. cbn. rewrite update_where_lookup. destruct (rd_faults d !! id) as [f|]; [|done]. cbn.
    unfold recoverable_fault. destruct (_ && _) eqn:Er; [|done]. apply andb_true_iff in Er as [_ Es]. b2p. apply rtc_once.
    unfold fault_phase_of at 1. rewrite Es. cbn. apply fs_resolve.
  - intros id f Hl. rewrite update_where_lookup, Hl. cbn. destruct (recoverable_fault u f); by eexists.
Qed.

#[local] Hint Resolve audit_move write_copies_move upsert_copy_move update_replica_move set_home_move end_user_lease_move
  revoke_user_tickets_move swap_accounts_move protect_anew_move corrupt_replica_move corrupt_copy_move ready_move
  resolve_alert_move resolve_rows_move : rtx_frame.

Lemma resolve_move u kind op now : tx_rel faults_move (resolveUserDataFaultLocked u kind op now).
Proof. unfold resolveUserDataFaultLocked. faults_frame. Qed.

#[local] Hint Resolve resolve_move : rtx_frame.

(** ** The operations *)

Lemma insert_report_move fid op p u home g now : tx_rel faults_move (insert_report fid op p u home g now).
Proof.
  intros d a d' E. unfold insert_report in E. destruct (rd_faults d !! fid) eqn:Hl; [done|]. destruct (bool_decide _); [|done].
  apply write_faults_ok in E as [Hok' ->]. intros Hok. split; [done|]. cbn. split.
  - intros id. unfold fault_life. cbn. destruct (decide (id = fid)) as [->|Hn].
    + rewrite lookup_insert_eq, Hl. apply rtc_once, fs_report.
    + by rewrite lookup_insert_ne by done.
  - intros id g' Hg. destruct (decide (id = fid)) as [->|Hn]; [congruence|]. exists g'. by rewrite lookup_insert_ne by done.
Qed.

#[local] Hint Resolve insert_report_move : rtx_frame.

Lemma close_tickets_move u l now : tx_rel faults_move (close_tickets u l now).
Proof. unfold close_tickets. faults_frame. by apply write_move. Qed.

Lemma raise_alert_move u n now : tx_rel faults_move (raise_alert u n now).
Proof. by apply write_move. Qed.

Lemma close_lease_move u now : tx_rel faults_move (close_lease u now).
Proof. apply in_w_move. Qed.

#[local] Hint Resolve close_tickets_move raise_alert_move close_lease_move : rtx_frame.

Lemma Report_move clock fid cid p later d : faults_move d (ReportUserDataFault clock fid cid p later d).2.
Proof.
  unfold ReportUserDataFault. destruct (negb _); [done|].
  pose proof (tx_rel_run faults_move (report_tx clock fid cid p (ts (now_or clock (rp_Now p)))) d) as Hm.
  destruct (runTx _ d) as [[[s|]|e] d1]; cbn in *; apply Hm; unfold report_tx, report_writes; faults_frame.
Qed.

Lemma freezable_phase now f : freezable now f = true ->
  exists ph, fault_phase_of f = Some ph /\ (ph = FReported \/ ph = FWaiting \/ ph = FFreezing).
Proof.
  unfold freezable, fault_phase_of. rewrite !orb_true_iff, !andb_true_iff. intros [[E|[E _]]|[E _]]; b2p; rewrite E; eauto.
Qed.

Lemma claim_fault_move fid p f task d a d' :
  claim_fault fid p f task d = Ok (a, d') ->
  (forall g x, rd_faults d !! fid = Some x -> p x = true ->
     fault_step (fault_phase_of x) (fault_phase_of (f g x)) /\ report_of (f g x) = report_of x) ->
  faults_move d d'.
Proof.
  unfold claim_fault. destruct (rd_faults d !! fid) as [x|] eqn:Hl; [|by intros [= _ <-]].
  destruct (active_generation _) as [g|]; [|by intros [= _ <-]]. destruct (p x) eqn:Hp; [|by intros [= _ <-]].
  intros E Hs. destruct (write_faults _ d) as [[u d1]|e] eqn:Ew; [|done]. injection E as _ <-.
  destruct (Hs g x eq_refl Hp). by eapply move_one.
Qed.

Lemma Claim_move clock fid op w now ttl d : faults_move d (ClaimUserDataFault clock fid op w now ttl d).2.
Proof.
  unfold ClaimUserDataFault. destruct (_ || _); [done|]. apply (tx_rel_run faults_move). faults_frame.
  intros d0 t d' E. eapply claim_fault_move; [exact E|]. intros g x _ (ph & Hph & Hin)%freezable_phase. split; [|done].
  rewrite Hph. by apply fs_claim.
Qed.

Lemma freeze_held_phase op w now d f : freeze_held op w now d f = true -> fault_phase_of f = Some FFreezing.
Proof. unfold freeze_held. rewrite !andb_true_iff. intros ((((_ & _) & Hs) & _) & _). b2p. unfold fault_phase_of. by rewrite Hs. Qed.

Lemma frozen_phase protection now f :
  fault_phase_of (frozen_fault protection now f) = Some FAvailable \/ fault_phase_of (frozen_fault protection now f) = Some FUnavailable.
Proof. unfold frozen_fault, frozen_state. destruct (bool_decide _); [by left | by right]. Qed.

(** The statements of a completed freeze, after its parameters. *)
Lemma freeze_rows_move fid op w now (uses : list (list param_use)) action detail :
  tx_rel faults_move
    (let! (f, protection) := rselect (freezing_row fid op w now) ErrUserDataFaultState in
     let! _ := update_fault fid (fun _ _ => true) (frozen_fault protection now) in
     insert_audit uses action (fa_UserID f) op (fa_ControllerGeneration f) (detail protection)).
Proof.
  intros d a d' E. apply tx_bind_ok in E as ([f protection] & d1 & Er & E). apply rselect_ok in Er as [Hr ->].
  apply tx_bind_ok in E as (b & d2 & Eu & Ea). etrans; [|by eapply audit_move].
  eapply update_fault_move; [exact Eu|]. intros x Hx _. unfold freezing_row in Hr. rewrite Hx in Hr.
  destruct (freeze_held _ _ _ _ _) eqn:Eh; [|done]. apply freeze_held_phase in Eh. rewrite Eh. split; [|done].
  destruct (frozen_phase protection now x) as [->| ->]; auto with stc.
Qed.

Lemma Freeze_move clock fid op w now later d : faults_move d (CompleteUserDataFaultFreeze clock fid op w now later d).2.
Proof.
  unfold CompleteUserDataFaultFreeze. destruct (negb _); [done|].
  match goal with |- context [runTx ?m d] => assert (tx_rel faults_move m) as Hm end.
  { do 3 (apply tx_rel_bind; [exact _ | apply tx_rel_uuid; exact _ | intros ?]). apply (freeze_rows_move _ _ _ _ (typed 6)). }
  pose proof (tx_rel_run faults_move _ d Hm) as Hr. by destruct (runTx _ d) as [[u|e] d1].
Qed.

Lemma Retry_move clock fid op w code now delay d : faults_move d (RetryUserDataFault clock fid op w code now delay d).2.
Proof.
  unfold RetryUserDataFault. destruct (_ || _); [done|]. apply (tx_rel_run faults_move). faults_frame.
  intros d0 b d' E. eapply update_fault_move; [exact E|]. intros x _ Hh%freeze_held_phase. rewrite Hh. split; [apply fs_retry | done].
Qed.

Lemma releasable_phase now f : releasable now f = true ->
  exists r, fault_phase_of f = Some (FResolved r) /\ (r = LPending \/ r = LWaiting \/ r = LReleasing).
Proof.
  unfold releasable, is_resolved, fault_phase_of, release_phase_of. intros [Es E]%andb_true_iff. b2p. rewrite Es. cbn.
  rewrite !orb_true_iff, !andb_true_iff in E. destruct E as [[E|[E _]]|[E _]]; b2p; rewrite E; cbn; eauto.
Qed.

Lemma resolved_phase f r f' :
  fault_phase_of f = Some (FResolved r) -> fa_State f' = fa_State f -> fault_phase_of f' = FResolved <$> release_phase_of (rl_State (fa_Release f')).
Proof.
  unfold fault_phase_of. intros E ->. repeat match goal with |- (if ?b then _ else _) = _ => destruct b; try done end.
Qed.

Lemma ReleaseClaim_move clock fid op w now ttl d : faults_move d (ClaimUserDataFaultRelease clock fid op w now ttl d).2.
Proof.
  unfold ClaimUserDataFaultRelease. destruct (_ || _); [done|]. apply (tx_rel_run faults_move). faults_frame.
  intros d0 t d' E. eapply claim_fault_move; [exact E|]. intros g x _ (r & Hr & Hin)%releasable_phase. split; [|done].
  rewrite (resolved_phase _ _ (claimed_release _ _ _ _ _ x) Hr eq_refl), Hr. by apply fs_release_claim.
Qed.

Lemma release_held_phase op w g f : release_held op w g f = true -> fault_phase_of f = Some (FResolved LReleasing).
Proof.
  unfold release_held, is_resolved. rewrite !andb_true_iff. intros ((((Hs & Ht) & _) & _) & _). b2p.
  unfold fault_phase_of. rewrite Hs. cbn. unfold release_phase_of. by rewrite Ht.
Qed.

Lemma Released_move clock fid op w now d : faults_move d (CompleteUserDataFaultRelease clock fid op w now d).2.
Proof.
  unfold CompleteUserDataFaultRelease. destruct (negb _); [done|]. apply (tx_rel_run faults_move). faults_frame.
  intros d0 b d' E. eapply update_fault_move; [exact E|]. intros x _ [Hh%release_held_phase _]%andb_true_iff.
  rewrite (resolved_phase _ _ (release_done _ x) Hh eq_refl), Hh. split; [apply fs_released | done].
Qed.

Lemma ReleaseRetry_move clock fid op w code now delay d :
  faults_move d (RetryUserDataFaultRelease clock fid op w code now delay d).2.
Proof.
  unfold RetryUserDataFaultRelease. destruct (_ || _); [done|]. apply (tx_rel_run faults_move). faults_frame.
  intros d0 b d' E. eapply update_fault_move; [exact E|]. intros x _ Hx. cbv zeta in Hx.
  rewrite !andb_true_iff in Hx. destruct Hx as (((((Hs & _) & _) & Ht) & _) & _). unfold is_resolved in Hs. b2p.
  assert (fault_phase_of x = Some (FResolved LReleasing)) as Hp.
  { unfold fault_phase_of. rewrite Hs. cbn. unfold release_phase_of. by rewrite Ht. }
  rewrite (resolved_phase _ _ (release_retried _ _ _ x) Hp eq_refl), Hp. split; [apply fs_release_retry | done].
Qed.

Lemma project_states_move now : tx_rel faults_move (project_states now).
Proof. unfold project_states. other_write. Qed.

Lemma foldl_faults {X} (f : RDB -> X -> RDB) (l : list X) d :
  (forall d x, rd_faults (f d x) = rd_faults d) -> rd_faults (foldl f d l) = rd_faults d.
Proof. intros Hf. revert d. induction l as [|x l IH]; intros d; cbn; [done|]. by rewrite IH, Hf. Qed.

Lemma open_conflict_faults newid g now d x : rd_faults (open_conflict newid g now d x) = rd_faults d.
Proof. unfold open_conflict. by destruct (_ || _). Qed.

Lemma capture_conflict_faults newid now d0 d x : rd_faults (capture_conflict newid now d0 d x) = rd_faults d.
Proof. unfold capture_conflict. destruct (_ && _); cbn; by apply foldl_faults. Qed.

Lemma open_alert_faults now grace d x : rd_faults (open_alert now grace d x) = rd_faults d.
Proof. unfold open_alert. by repeat case_match. Qed.

Lemma Reconcile_move clock newid ev now grace d : faults_move d (ReconcileProtectionStates clock newid ev now grace d).2.
Proof.
  unfold ReconcileProtectionStates. destruct (grace <=? 0); [done|]. apply (tx_rel_run faults_move).
  unfold reconcileProtectionStatesOnce. faults_frame.
  - apply project_states_move.
  - apply write_move. intros d0. apply foldl_faults, open_conflict_faults.
  - apply write_move. intros d0. apply foldl_faults. intros d1 x. apply capture_conflict_faults.
  - by apply write_move.
  - by apply write_move.
  - intros d0 n d' [= _ <-]. apply same_faults_move. apply foldl_faults, open_alert_faults.
  - unfold resolve_alerts. other_write.
Qed.

Lemma takeover_operation_move p : tx_rel faults_move (getReplicaTakeoverOperation p).
Proof. unfold getReplicaTakeoverOperation. faults_frame. other_write. Qed.

Lemma promote_copy_move clock cid sid u o t now : tx_rel faults_move (promote_copy clock cid sid u o t now).
Proof.
  unfold promote_copy. faults_frame.
  - intros d0 b d' E. by eapply write_copies_move.
  - intros d0 b d' E. destruct (wd_copies _ !! _); [|done]. destruct (_ && _); [|done]. by eapply write_copies_move.
Qed.

Lemma promote_replica_move l o t : tx_rel faults_move (promote_replica l o t).
Proof. unfold promote_replica. faults_frame. Qed.

Lemma insert_takeover_move op o : tx_rel faults_move (insert_takeover op o).
Proof. unfold insert_takeover. other_write. Qed.

#[local] Hint Resolve takeover_operation_move promote_copy_move promote_replica_move insert_takeover_move : rtx_frame.

Lemma Takeover_move clock cid p d : faults_move d (ConfirmReplicaTakeover clock cid p d).2.
Proof.
  unfold ConfirmReplicaTakeover. destruct (negb _); [done|]. apply (tx_rel_run faults_move).
  unfold new_takeover, take_over. faults_frame.
Qed.

Lemma restore_operation_move p : tx_rel faults_move (getRestoreOperation p).
Proof. unfold getRestoreOperation. faults_frame. other_write. Qed.

Lemma require_idle_move u now : tx_rel faults_move (require_idle u now).
Proof. unfold require_idle. faults_frame. Qed.

Lemma insert_restore_move op o : tx_rel faults_move (insert_restore op o).
Proof. unfold insert_restore. other_write. Qed.

Lemma syncing_replica_move l n : tx_rel faults_move (syncing_replica l n).
Proof. unfold syncing_replica. other_write. Qed.

Lemma move_home_move p l o t v now : tx_rel faults_move (move_home p l o t v now).
Proof. unfold move_home. faults_frame. Qed.

Lemma move_authority_move clock cid sid u o t now : tx_rel faults_move (move_authority clock cid sid u o t now).
Proof. unfold move_authority. faults_frame. intros d0 b d' E. by eapply write_copies_move. Qed.

#[local] Hint Resolve restore_operation_move require_idle_move insert_restore_move syncing_replica_move move_home_move
  move_authority_move : rtx_frame.

Lemma Create_move clock p d : faults_move d (CreateRestoreWorkflow clock p d).2.
Proof.
  unfold CreateRestoreWorkflow. destruct (_ && _); [|done]. apply (tx_rel_run faults_move).
  unfold create_restore_tx, new_restore, restore_rows. faults_frame.
Qed.

Lemma finish_restore_move p wid op o now : tx_rel faults_move (finish_restore p wid op o now).
Proof. unfold finish_restore. faults_frame. by apply write_move. Qed.

#[local] Hint Resolve finish_restore_move : rtx_frame.

Lemma Complete_move clock cid p d : faults_move d (CompleteRestoreWorkflow clock cid p d).2.
Proof.
  unfold CompleteRestoreWorkflow. destruct (complete_restore_valid p); [|done]. apply (tx_rel_run faults_move).
  unfold complete_restore_tx, publish_restore. faults_frame.
Qed.

Lemma Fail_move clock wid code s now d : faults_move d (FailRestoreWorkflow clock wid code s now d).2.
Proof.
  unfold FailRestoreWorkflow. destruct (_ || _); [done|]. apply (tx_rel_run faults_move).
  unfold fail_restore_tx, abandon_target. faults_frame. by apply write_move.
Qed.

Lemma on_w_move {A} (f : WDB -> result A * WDB) d : faults_move d (on_w f d).2.
Proof. unfold on_w. destruct (f (rd_w d)). by apply same_faults_move. Qed.

Lemma event_move ev d : faults_move d (recovery_effect ev d).
Proof.
  destruct ev; cbn [recovery_effect].
  - unfold core_change. destruct (bool_decide _); by apply same_faults_move.
  - destruct (is_operation ev); by apply same_faults_move.
  - apply Report_move.
  - apply Claim_move.
  - apply Freeze_move.
  - apply Retry_move.
  - apply ReleaseClaim_move.
  - apply Released_move.
  - apply ReleaseRetry_move.
  - apply Reconcile_move.
  - apply Takeover_move.
  - apply Create_move.
  - apply on_w_move.
  - unfold ClaimRestoreWorkflow. destruct (_ || _); [done|]. apply (tx_rel_run faults_move), in_w_move.
  - apply on_w_move.
  - unfold ResetRestoreTransferForRetry. destruct (String.eqb _ _); [done|]. apply (tx_rel_run faults_move), in_w_move.
  - apply Complete_move.
  - apply Fail_move.
Qed.

Lemma run_move evs d : faults_move d (recovery_run d evs).
Proof.
  revert d. induction evs as [|ev evs IH]; intros d; [reflexivity|]. cbn. etrans; [apply event_move | apply IH].
Qed.

(** C9: The store refines the life of a data fault.  From a table that satisfies its
    constraints, in every run of reports, claims, completions and retries of the
    freeze and of the release, takeovers, restores, reconciliations, snapshot
    operations and other changes of the core tables: the table still satisfies its
    constraints, every fault has made steps of the abstract life only - in
    particular it is resolved only from recoverable, and released only after that -
    and what its report said is unchanged. *)
Theorem data_fault_refines d evs :
  faults_ok (rd_faults d) = true ->
  faults_ok (rd_faults (recovery_run d evs)) = true
  /\ (forall id, rtc fault_step (fault_life d id) (fault_life (recovery_run d evs) id))
  /\ forall id f, rd_faults d !! id = Some f ->
       exists f', rd_faults (recovery_run d evs) !! id = Some f' /\ report_of f' = report_of f.
Proof. apply run_move. Qed.

End Moves.

(** ** A fault without a recovery point *)

(** The indexes keep one open fault per user. *)
Lemma open_fault_is d fid f :
  faults_ok (rd_faults d) = true -> rd_faults d !! fid = Some f -> is_resolved f = false ->
  open_fault (fa_UserID f) d = Some (fid, f).
Proof.
  intros Hok Hl Hn. apply rows_where_head; [done| by rewrite Z.eqb_refl, Hn|].
  intros id g Hg [Hu Hr]%andb_true_iff. b2p. destruct (decide (id = fid)) as [->|Hne]; [done|].
  pose proof (rows_where_none _ _ _ _ Hok Hl) as Hc. apply orb_false_iff in Hc as [_ Hc]. apply negb_false_iff in Hc.
  pose proof (rows_where_none _ _ _ _ Hc Hg) as Hx. cbv beta in Hx. rewrite (proj2 (String.eqb_neq id fid) Hne) in Hx.
  cbn in Hx. unfold faults_clash in Hx. rewrite Hn, Hr, Hu, Z.eqb_refl, !orb_true_r in Hx. done.
Qed.

Lemma unavailable_stuck b : rtc fault_step (Some FUnavailable) b -> b = Some FUnavailable.
Proof. intros Hr. inversion Hr as [|x y z Hs]; [done|]. inversion Hs; subst. by destruct_or!. Qed.

Lemma unavailable_state f : fault_phase_of f = Some FUnavailable <-> fa_State f = "recovery_unavailable"%string.
Proof.
  split; [|by unfold fault_phase_of; intros ->]. unfold fault_phase_of.
  repeat match goal with |- (if ?b then _ else _) = _ -> _ => destruct b eqn:?; try done end.
  - intros _. by b2p.
  - by destruct (release_phase_of _).
Qed.

Section Unrecoverable.
Context `{Postgres}.

(** The user has an open fault that cannot be recovered from. *)
Definition unrecoverable (d : RDB) (user : Z) : Prop :=
  exists fid f, open_fault user d = Some (fid, f) /\ fa_State f = "recovery_unavailable"%string.

Lemma unrecoverable_refused d user u d' :
  unrecoverable d user -> requireUserDataFaultRecoveryReadyLocked user d = Ok (u, d') -> False.
Proof. intros (fid & f & Ho & Hs). unfold requireUserDataFaultRecoveryReadyLocked. by rewrite Ho, Hs. Qed.

Lemma unchanged_run {S A} (m : TxS S A) d : (forall a d', m d = Ok (a, d') -> d' = d) -> (runTx m d).2 = d.
Proof. intros Hm. unfold runTx. destruct (m d) as [[a d']|e] eqn:E; [|done]. cbn. by eapply Hm. Qed.

Lemma takeover_replay_same p d r d' : getReplicaTakeoverOperation p d = Ok (r, d') -> d' = d.
Proof.
  intros (op & d1 & [_ ->]%uuid_param_ok & E)%tx_bind_ok. destruct (rd_takeovers d !! op); [destruct (_ && _); [|done]|];
    by injection E as _ <-.
Qed.

Lemma restore_replay_same p d r d' : getRestoreOperation p d = Ok (r, d') -> d' = d.
Proof.
  intros (op & d1 & [_ ->]%uuid_param_ok & E)%tx_bind_ok. destruct (rd_restores d !! op) as [o|]; [|by injection E as _ <-].
  destruct (restore_execution _ _ _ _) as [[x|]|]; [destruct (_ && _); [|done]|done|]; by injection E as _ <-.
Qed.

Lemma no_takeover clock cid p d : unrecoverable d (kp_GlobalUserID p) -> (ConfirmReplicaTakeover clock cid p d).2 = d.
Proof.
  intros Hu. unfold ConfirmReplicaTakeover. destruct (negb _); [done|]. apply unchanged_run. intros a d' E.
  apply tx_bind_ok in E as (g & d1 & [_ ->]%rselect_ok & E). apply tx_bind_ok in E as (r & d1 & Er & E).
  apply takeover_replay_same in Er as ->. destruct r as [r|]; [by apply tx_ret_ok in E as [_ ->]|]. exfalso.
  apply tx_bind_ok in E as ([legacy old] & d1 & [_ ->]%rselect_ok & E).
  apply tx_bind_ok in E as (u & d1 & [_ ->]%require_ok & E). apply tx_bind_ok in E as (u2 & d1 & E1 & _).
  by eapply unrecoverable_refused.
Qed.

Lemma no_restore clock p d : unrecoverable d (cr_GlobalUserID p) -> (CreateRestoreWorkflow clock p d).2 = d.
Proof.
  intros Hu. unfold CreateRestoreWorkflow. destruct (_ && _); [|done]. apply unchanged_run. intros a d' E.
  apply tx_bind_ok in E as (g & d1 & [_ ->]%rselect_ok & E). apply tx_bind_ok in E as (r & d1 & Er & E).
  apply restore_replay_same in Er as ->. destruct r as [r|]; [by apply tx_ret_ok in E as [_ ->]|]. exfalso.
  apply tx_bind_ok in E as (u2 & d1 & E1 & _). by eapply unrecoverable_refused.
Qed.

Lemma no_completion clock cid p d wid w user :
  uuid_in (cm_WorkflowID p) = Some wid -> wd_workflows (rd_w d) !! wid = Some w -> wf_UserID w = Some user ->
  unrecoverable d user -> (CompleteRestoreWorkflow clock cid p d).2 = d.
Proof.
  intros Hid Hl Hw Hu. unfold CompleteRestoreWorkflow. destruct (complete_restore_valid p); [|done]. apply unchanged_run.
  intros a d' E. apply tx_bind_ok in E as (wid' & d1 & [Hid' ->]%uuid_param_ok & E). simplify_eq.
  apply tx_bind_ok in E as (sid & d1 & [_ ->]%uuid_param_ok & E). apply tx_bind_ok in E as (r & d1 & [Hr ->]%rselect_ok & E).
  assert (rr_User r = user) as Hru.
  { unfold completing_row in Hr. rewrite Hl in Hr. cbn in Hr. destruct (restore_by_workflow d wid); [|done]. cbn in Hr.
    rewrite Hw in Hr. cbn in Hr. destruct (joined_user d user); [|done]. cbn in Hr. destruct (String.eqb _ _); [|done].
    by injection Hr as <-. }
  apply tx_bind_ok in E as (old & d1 & [_ ->]%tx_lift_ok & E).
  destruct (String.eqb _ "succeeded"); [by apply tx_ret_ok in E as [_ ->]|]. exfalso.
  apply tx_bind_ok in E as (u1 & d1 & [_ ->]%require_ok & E). apply tx_bind_ok in E as (u2 & d1 & [_ ->]%require_ok & E).
  apply tx_bind_ok in E as (u3 & d1 & E1 & _). rewrite Hru in E1. by eapply unrecoverable_refused.
Qed.

(** C36: A data fault that was frozen while the user had no recovery point keeps the
    user locked out for good.  In every later run - storage nodes may come back,
    snapshots may be published, reconciliations may find a hot standby or an archive -
    the fault stays in 'recovery_unavailable', and no takeover is confirmed, no
    restore created and no restore completed for its user: each of these
    transactions leaves the database as it was.  Only 'recovery_available' passes
    their check and nothing turns one state into the other, although the page of the
    administrator calls this state one without a recovery point for the time being. *)
Theorem unrecoverable_fault_final d evs fid f :
  faults_ok (rd_faults d) = true -> rd_faults d !! fid = Some f -> fa_State f = "recovery_unavailable"%string ->
  let d' := recovery_run d evs in
  (exists f', rd_faults d' !! fid = Some f' /\ fa_State f' = "recovery_unavailable"%string /\ report_of f' = report_of f)
  /\ (forall clock cid p, kp_GlobalUserID p = fa_UserID f -> (ConfirmReplicaTakeover clock cid p d').2 = d')
  /\ (forall clock p, cr_GlobalUserID p = fa_UserID f -> (CreateRestoreWorkflow clock p d').2 = d')
  /\ (forall clock cid p wid w, uuid_in (cm_WorkflowID p) = Some wid -> wd_workflows (rd_w d') !! wid = Some w ->
        wf_UserID w = Some (fa_UserID f) -> (CompleteRestoreWorkflow clock cid p d').2 = d').
Proof.
  intros Hok Hl Hs d'. destruct (run_move evs d Hok) as (Hok' & Hlife & Hrep). fold d' in Hok', Hlife, Hrep.
  destruct (Hrep _ _ Hl) as (f' & Hl' & Hr). specialize (Hlife fid). unfold fault_life in Hlife. rewrite Hl, Hl' in Hlife.
  cbn in Hlife. rewrite (proj2 (unavailable_state f) Hs) in Hlife. apply unavailable_stuck, unavailable_state in Hlife.
  assert (fa_UserID f' = fa_UserID f) as Hu by (by injection Hr).
  assert (unrecoverable d' (fa_UserID f)) as Hun.
  { exists fid, f'. split; [|done]. rewrite <- Hu. apply open_fault_is; try done. unfold is_resolved. by rewrite Hlife. }
  split; [by exists f'|]. split; [intros clock cid p Hp; apply no_takeover; by rewrite Hp|].
  split; [intros clock p Hp; apply no_restore; by rewrite Hp|]. intros clock cid p wid w Hid Hw Hwu. by eapply no_completion.
Qed.

End Unrecoverable.
