(* ===== verification/RecoveryHomes.v ===== *)
(** * The home of a user

    Where a user's data is authoritative is written in three places: the home node of
    the legacy user, the replica of kind 'home' and the authoritative copy.  The file
    proves that they agree in every run of the recovery, that the home moves only by
    a confirmed takeover or a completed restore, and under which conditions; and that
    the takeover the protection state offers can be confirmed. *)

From Stdlib Require Import ZArith Lia Ascii String.
From stdpp Require Import base list gmap strings relations.
From S2P Require Import Prelude GoStrings AgentState Schema Leases Handoffs WorkflowSchema SnapshotStore SnapshotLife.
From S2P Require Import SnapshotExecutor RecoverySchema DataFaults Protection RestoreStore RecoverySystem RecoveryFaults.
#[local] Open Scope Z_scope.

(** ** The three places *)

Record places_agree (w : WDB) : Prop := {
  pa_copy : forall user legacy node c, legacy_ids (wd_core w) !! user = Some (Some legacy) ->
    wd_copies w !! (user, node) = Some c -> rc_IsAuthoritative c = true -> wd_homes w !! legacy = Some node;
  pa_replica : forall legacy node r, wd_replicas w !! (legacy, node) = Some r -> ur_Kind r = "home"%string ->
    wd_homes w !! legacy = Some node;
  (** the unique column global_users.legacy_user_id *)
  pa_legacy : forall user user' legacy, legacy_ids (wd_core w) !! user = Some (Some legacy) ->
    legacy_ids (wd_core w) !! user' = Some (Some legacy) -> user' = user
}.

(** A change that moves no home and makes no authority. *)
Record keeps_places (w w' : WDB) : Prop := {
  kp_homes : wd_homes w' = wd_homes w;
  kp_ids : legacy_ids (wd_core w') = legacy_ids (wd_core w);
  kp_copies : forall k c', wd_copies w' !! k = Some c' -> rc_IsAuthoritative c' = true ->
    exists c, wd_copies w !! k = Some c /\ rc_IsAuthoritative c = true;
  kp_replicas : forall k r', wd_replicas w' !! k = Some r' -> ur_Kind r' = "home"%string ->
    exists r, wd_replicas w !! k = Some r /\ ur_Kind r = "home"%string
}.

#[export] Instance keeps_places_preorder : PreOrder keeps_places.
Proof.
  split.
  - intros w. split; eauto.
  - intros w1 w2 w3 [H1 I1 C1 R1] [H2 I2 C2 R2]. split; [congruence | congruence | |].
    + intros k c3 Hc Ha. destruct (C2 _ _ Hc Ha) as (c2 & Hc2 & Ha2). eauto.
    + intros k r3 Hr Hk. destruct (R2 _ _ Hr Hk) as (r2 & Hr2 & Hk2). eauto.
Qed.

Lemma keeps_agree w w' : keeps_places w w' -> places_agree w -> places_agree w'.
Proof.
  intros [Hh Hi Hc Hr] [A1 A2 A3]. split; rewrite ?Hi, ?Hh.
  - intros u l n c' Hu Hl Ha. destruct (Hc _ _ Hl Ha) as (c & Hl0 & Ha0). eauto.
  - intros l n r' Hl Hk. destruct (Hr _ _ Hl Hk) as (r & Hl0 & Hk0). eauto.
  - eauto.
Qed.

Lemma same_places w w' :
  wd_homes w' = wd_homes w -> legacy_ids (wd_core w') = legacy_ids (wd_core w) -> wd_copies w' = wd_copies w ->
  wd_replicas w' = wd_replicas w -> keeps_places w w'.
Proof. intros E1 E2 E3 E4. split; rewrite ?E1, ?E2, ?E3, ?E4; eauto. Qed.

(** A change of the replicas that makes no home. *)
Lemma replicas_kept m w :
  (forall k r', m !! k = Some r' -> ur_Kind r' = "home"%string -> exists r, wd_replicas w !! k = Some r /\ ur_Kind r = "home"%string) ->
  keeps_places w (put_replicas m w).
Proof. intros Hm. split; cbn; eauto. Qed.

Lemma update_replicas_kept p f w :
  (forall r, ur_Kind (f r) = "home"%string -> ur_Kind r = "home"%string) ->
  keeps_places w (put_replicas (update_where p f (wd_replicas w)) w).
Proof.
  intros Hf. apply replicas_kept. intros k r' Hl Hk. rewrite update_where_lookup in Hl.
  destruct (wd_replicas w !! k) as [r|]; [|done]. cbn in Hl. injection Hl as <-. exists r. split; [done|].
  destruct (p k r); auto.
Qed.

(** ** The snapshot workflows keep the places *)

(** A statement that is one test and one write, elsewhere. *)
Ltac elsewhere :=
  intros ? ? ? Hw; cbv beta zeta in Hw;
  repeat match type of Hw with
  | (match ?x with _ => _ end) = Ok _ => destruct x eqn:?; try discriminate Hw
  end; injection Hw as ? <-; apply same_places; reflexivity.

Section Homes.
Context `{Postgres}.

Lemma insert_job_places u s t tr st now : tx_rel keeps_places (insert_job u s t tr st now).
Proof. unfold insert_job. elsewhere. Qed.

Lemma insert_step_places wid step state now : tx_rel keeps_places (insert_step wid step state now).
Proof. unfold insert_step. elsewhere. Qed.

Lemma insert_steps_places wid steps now : tx_rel keeps_places (insert_steps wid steps now).
Proof.
  induction steps as [|[step state] steps IH]; cbn; [apply tx_rel_ret; exact _|].
  apply tx_rel_bind; [exact _ | apply insert_step_places | done].
Qed.

Lemma insert_manifest_places sid wid u s e now : tx_rel keeps_places (insert_manifest sid wid u s e now).
Proof. unfold insert_manifest. elsewhere. Qed.

Lemma put_pending_account_places wid u n h v ph ps sub now : tx_rel keeps_places (put_pending_account wid u n h v ph ps sub now).
Proof. unfold put_pending_account. elsewhere. Qed.

Lemma snapshot_epoch_places p now : tx_rel keeps_places (snapshot_epoch p now).
Proof. unfold snapshot_epoch. elsewhere. Qed.

Lemma link_job_places jid p wid sid e : tx_rel keeps_places (link_job jid p wid sid e).
Proof. unfold link_job. elsewhere. Qed.

Lemma fence_relays_places wid now : tx_rel keeps_places (fence_relays wid now).
Proof. unfold fence_relays, tx_write. elsewhere. Qed.

Lemma update_jobs_places p f : tx_rel keeps_places (update_jobs p f).
Proof. unfold update_jobs. elsewhere. Qed.

Lemma update_steps_places p f : tx_rel keeps_places (update_steps p f).
Proof. unfold update_steps. elsewhere. Qed.

Lemma write_workflows_places m : tx_rel keeps_places (write_workflows m).
Proof. unfold write_workflows. elsewhere. Qed.

Lemma update_workflows_places p f : tx_rel keeps_places (update_workflows p f).
Proof.
  intros d n d' E. unfold update_workflows in E. destruct (write_workflows _ d) as [[u d1]|e] eqn:Ew; [|done].
  injection E as _ <-. by eapply write_workflows_places.
Qed.

Lemma insert_workflow_places wid op ty u s t e g mode now : tx_rel keeps_places (insert_workflow wid op ty u s t e g mode now).
Proof.
  intros d a d' E. unfold insert_workflow in E. destruct (wd_workflows d !! wid); [done|]. destruct (_ && _); [|done].
  by eapply write_workflows_places.
Qed.

Lemma insert_cap_places cid wid sid s t h g e now : tx_rel keeps_places (insert_cap cid wid sid s t h g e now).
Proof. unfold insert_cap, write_caps. elsewhere. Qed.

Lemma revoke_caps_places wid : tx_rel keeps_places (revoke_caps wid).
Proof. unfold revoke_caps. elsewhere. Qed.

Lemma revoke_where_places p : tx_rel keeps_places (revoke_where p).
Proof. unfold revoke_where, tx_write. elsewhere. Qed.

Lemma consume_cap_places wid h now : tx_rel keeps_places (consume_cap wid h now).
Proof. unfold consume_cap. elsewhere. Qed.

#[local] Hint Resolve insert_job_places insert_step_places insert_steps_places insert_manifest_places
  put_pending_account_places snapshot_epoch_places link_job_places fence_relays_places update_jobs_places
  update_steps_places update_workflows_places insert_workflow_places insert_cap_places revoke_caps_places
  revoke_where_places consume_cap_places : tx_frame.

Lemma take_reconciliation_places p wid now : tx_rel keeps_places (take_reconciliation p wid now).
Proof. unfold take_reconciliation. apply tx_rel_bind; [exact _ | apply tx_rel_uuid; exact _ | intros id]. elsewhere. Qed.

Lemma take_item_places p wid now : tx_rel keeps_places (take_item p wid now).
Proof. unfold take_item. apply tx_rel_bind; [exact _ | apply tx_rel_uuid; exact _ | intros id]. elsewhere. Qed.

Lemma prepareWorkflowTargetAccount_places wid u n h now : tx_rel keeps_places (prepareWorkflowTargetAccount wid u n h now).
Proof.
  intros d b d' E. unfold prepareWorkflowTargetAccount in E. cbv zeta in E.
  destruct (bool_decide _); [by injection E as <- <-|]. destruct (_ || _); [done|].
  assert (forall v ph ps sub, tx_rel keeps_places
    (tx_bind (put_pending_account wid u n h v ph ps sub now) (fun _ => tx_ret true))) as Hput by (intros; tx_frame).
  destruct (password_material d u); [by eapply Hput|].
  destruct (oauth_identity d u); [by eapply Hput | done].
Qed.

Lemma create_retirement_places p g now : tx_rel keeps_places (create_retirement p g now).
Proof. unfold create_retirement. tx_frame. Qed.

Lemma when_places {A} b (m : WTx A) other : tx_rel keeps_places m -> tx_rel keeps_places (when b m other).
Proof. unfold when. destruct b; [done | intros _; apply tx_rel_ret; exact _]. Qed.

Lemma upsert_replica_places u n kind : kind <> "home"%string -> tx_rel keeps_places (upsert_replica u n kind).
Proof.
  intros Hk d a d' E. unfold upsert_replica in E. destruct (negb _); [done|]. injection E as _ <-. apply replicas_kept.
  intros k r' [[<- <-]|[_ Hl]]%lookup_insert_Some; [|by eauto].
  destruct (wd_replicas d !! (u, n)) as [r|]; [destruct (String.eqb _ "ready")|]; cbn; eauto; done.
Qed.

Lemma seal_manifest_places p wid sid : tx_rel keeps_places (seal_manifest p wid sid).
Proof. unfold seal_manifest. elsewhere. Qed.

Lemma cancel_cleanups_places u n now : tx_rel keeps_places (cancel_cleanups u n now).
Proof. unfold cancel_cleanups. elsewhere. Qed.

Lemma schedule_cleanup_places newid now d x : keeps_places d (schedule_cleanup newid now d x).
Proof.
  destruct x as [[u n] c]. cbn. destruct (rc_SnapshotID c), (db_users (wd_core d) !! u ≫= gu_LegacyUserID); try done.
  destruct (db_legacy (wd_core d) !! _); [|done]. destruct (negb _); [done|]. by apply same_places.
Qed.

Lemma supersede_archives_places newid u l n now : tx_rel keeps_places (supersede_archives newid u l n now).
Proof.
  intros d a d' E. unfold supersede_archives in E. destruct (fresh_ids _ _ _); [|done]. injection E as _ <-.
  assert (forall rows d0, keeps_places d0 (foldl (schedule_cleanup newid now) d0 rows)) as Hfold.
  { intros rows. induction rows as [|x rows IH]; intros d0; cbn; [done|].
    etrans; [apply schedule_cleanup_places | apply IH]. }
  etrans; [|by apply update_replicas_kept]. etrans; [|apply Hfold]. split; cbn; eauto.
  intros k c' Hl Ha. rewrite update_where_lookup in Hl. destruct (wd_copies d !! k) as [c|]; [|done]. cbn in Hl.
  injection Hl as <-. exists c. split; [done|]. by destruct (other_archive u n k c).
Qed.

Lemma publish_copy_places cid p u sid now : tx_rel keeps_places (publish_copy cid p u sid now).
Proof.
  intros d a d' E. unfold publish_copy in E. cbv zeta in E. destruct (_ && _); [|done]. injection E as _ <-. split; cbn; eauto.
  intros k c' [[<- <-]|[_ Hl]]%lookup_insert_Some Ha; [|by eauto]. cbn in Ha.
  destruct (wd_copies d !! (u, cp_TargetNodeID p)) as [c|]; [by eauto | done].
Qed.

Lemma resolve_alert_places u n now : tx_rel keeps_places (resolve_alert u n now).
Proof.
  intros d a d' E. unfold resolve_alert in E. apply tx_write_ok in E as [_ ->].
  destruct (wd_copies d !! (u, n)); [by apply same_places | done].
Qed.

Lemma delete_manifest_places old sid : tx_rel keeps_places (delete_manifest old sid).
Proof.
  intros d a d' E. unfold delete_manifest in E. apply tx_write_ok in E as [_ ->].
  destruct old as [o|]; [|done]. destruct (String.eqb o sid); [done | by apply same_places].
Qed.

Lemma finish_job_places wid v b f now : tx_rel keeps_places (finish_job wid v b f now).
Proof. unfold finish_job. tx_frame. Qed.

Lemma finish_replica_places l n v c b now : tx_rel keeps_places (finish_replica l n v c b now).
Proof.
  intros d a d' E. unfold finish_replica in E. destruct (wd_replicas d !! (l, n)) as [r|] eqn:Hl; [|done].
  injection E as _ <-. apply replicas_kept. intros k r' [[<- <-]|[_ Hk]]%lookup_insert_Some; cbn; eauto.
Qed.

Lemma activate_account_places u n l a m now : tx_rel keeps_places (activate_account u n l a m now).
Proof. unfold activate_account. elsewhere. Qed.

#[local] Hint Resolve take_reconciliation_places take_item_places prepareWorkflowTargetAccount_places create_retirement_places
  when_places seal_manifest_places cancel_cleanups_places supersede_archives_places publish_copy_places resolve_alert_places
  delete_manifest_places finish_job_places finish_replica_places activate_account_places : tx_frame.

Lemma create_places p now : create_valid p now = true -> tx_rel keeps_places (create_tx p now).
Proof.
  intros Hv. assert (sp_DestinationKind p <> "home"%string) as Hk.
  { intros E. unfold create_valid in Hv. rewrite E in Hv. rewrite !andb_true_iff in Hv. by destruct_and!. }
  unfold create_tx. tx_frame; try (apply when_places; tx_frame); try by apply upsert_replica_places.
  intros d0 b d' E. by apply (tx_rel_lift keeps_places) in E.
Qed.

Lemma update_workflow_places wid p f : tx_rel keeps_places (update_workflow wid p f).
Proof. unfold update_workflow. tx_frame. Qed.

#[local] Hint Resolve update_workflow_places : tx_frame.

Lemma guarded_places wid p f d : keeps_places d (guarded_update wid p f d).2.
Proof. unfold guarded_update. apply (tx_rel_run keeps_places). tx_frame. Qed.

Lemma cancel_places wid r now : tx_rel keeps_places (cancelSnapshotWorkflowTx wid r now).
Proof. unfold cancelSnapshotWorkflowTx. tx_frame. Qed.

#[local] Hint Resolve cancel_places : tx_frame.

Lemma one_step_places wid step f : tx_rel keeps_places (one_step wid step f).
Proof. unfold one_step. tx_frame. Qed.

#[local] Hint Resolve one_step_places : tx_frame.

Lemma step_places clock wid step now later d : keeps_places d (CompleteSnapshotWorkflowStep clock wid step now later d).2.
Proof.
  unfold CompleteSnapshotWorkflowStep. destruct (_ || _); [done|]. destruct (uuid_in wid) as [id|]; [|done].
  match goal with |- context [runTx ?m d] => assert (tx_rel keeps_places m) as Hm by tx_frame;
    pose proof (tx_rel_run keeps_places m d Hm) as Hr; destruct (runTx m d) as [[n|e] d1] end; [|done].
  by destruct n as [|[|n]].
Qed.

Lemma renew_places wid w now ttl later d : keeps_places d (RenewSnapshotWorkflow wid w now ttl later d).2.
Proof.
  unfold RenewSnapshotWorkflow. destruct (_ || _); [done|].
  match goal with |- context [runTx ?m d] => assert (tx_rel keeps_places m) as Hm by tx_frame;
    pose proof (tx_rel_run keeps_places m d Hm) as Hr; destruct (runTx m d) as [[[]|e] d1] end; done.
Qed.

Lemma fail_places clock wid c s now d : keeps_places d (FailSnapshotWorkflow clock wid c s now d).2.
Proof.
  unfold FailSnapshotWorkflow. destruct (_ || _); [done|]. apply (tx_rel_run keeps_places). tx_frame.
  intros d0 u d' [_ ->]%tx_write_ok. destruct (_ ≫= _) as [[u0 g]|]; [|done]. destruct (wf_TargetNodeID _); [|done].
  cbv zeta. match goal with |- keeps_places _ (if ?b then _ else _) => destruct b end; [done|].
  by apply update_replicas_kept.
Qed.

(** An operation of the store: refused before its transaction, or the transaction. *)
Ltac operation :=
  repeat match goal with |- keeps_places _ (if ?b then _ else _).2 => destruct b; [done|] end;
  repeat match goal with |- keeps_places _ (if ?b then _ else _).2 => destruct b; [|done] end;
  apply (tx_rel_run keeps_places); tx_frame.

Lemma snapshot_places ev d : is_operation ev = true -> keeps_places d (snapshot_effect ev d).
Proof.
  intros Hop. destruct ev; cbn [snapshot_effect]; try done.
  - unfold CreateSnapshotWorkflow. destruct (create_valid _ _) eqn:Hv; [|done]. by apply (tx_rel_run keeps_places), create_places.
  - apply (tx_rel_run keeps_places). unfold repair_rows. tx_frame.
  - unfold ClaimSnapshotWorkflow. operation.
  - apply renew_places.
  - unfold ReleaseSnapshotWorkflow. operation.
  - unfold AdoptStaleSnapshotWorkflows. destruct (active_generation _); [|done]. operation.
  - unfold PrepareRecoveredSnapshotCompletion. operation.
  - unfold ResetRecoveredSnapshotWorkflow. operation.
  - unfold ScheduleSnapshotRetry. operation. apply when_places. tx_frame.
  - unfold ResumeSnapshotRetry. operation.
  - unfold DeferSnapshotWorkflow. destruct (_ || _); [done|]. apply guarded_places.
  - unfold ClearSnapshotWorkflowDeferral. destruct (String.eqb _ _); [done|]. apply guarded_places.
  - unfold SwitchSnapshotWorkflowToRelay. destruct (String.eqb _ _); [done|]. apply guarded_places.
  - unfold RotateSnapshotCapability. operation.
  - unfold SetSnapshotWorkflowState. operation.
  - unfold SetSnapshotWorkflowProgress. destruct (_ || _); [done|]. apply (tx_rel_run keeps_places).
    unfold setSnapshotWorkflowProgressOnce. tx_frame.
  - apply step_places.
  - unfold CompleteSnapshotWorkflow. destruct (complete_valid p); [|done]. apply (tx_rel_run keeps_places).
    unfold complete_tx, publish_tx. tx_frame.
  - apply fail_places.
  - unfold CancelSnapshotWorkflow. operation.
  - unfold AbortBackupJobAndSnapshotWorkflow. operation.
  - by apply same_places.
  - apply (tx_rel_run keeps_places). unfold supersede_workflows. tx_frame.
  - apply (tx_rel_run keeps_places). unfold revoke_node_caps. tx_frame.
Qed.

Lemma provision_places clock wid v l now d : keeps_places d (CompleteWorkflowTargetAccountProvision clock wid v l now d).2.
Proof. unfold CompleteWorkflowTargetAccountProvision. operation. Qed.

(** ** The operations of the recovery that keep the places *)

Definition r_keeps (d d' : RDB) : Prop := keeps_places (rd_w d) (rd_w d').

#[local] Instance r_keeps_preorder : PreOrder r_keeps.
Proof. unfold r_keeps. split; [by intros d | intros d1 d2 d3 H1 H2; by etrans]. Qed.

Lemma same_w d d' : rd_w d' = rd_w d -> r_keeps d d'.
Proof. unfold r_keeps. by intros ->. Qed.

Lemma in_w_keeps {A} (m : WTx A) : tx_rel keeps_places m -> tx_rel r_keeps (in_w m).
Proof. by apply tx_rel_in_w. Qed.

Lemma write_keeps (f : RDB -> RDB) : (forall d, r_keeps d (f d)) -> tx_rel r_keeps (tx_write f).
Proof. intros Hf d a d' [_ ->]%tx_write_ok. apply Hf. Qed.

Lemma w_write_keeps (f : WDB -> WDB) : (forall w, keeps_places w (f w)) -> tx_rel r_keeps (in_w (tx_write f)).
Proof. intros Hf. apply in_w_keeps. intros w a w' [_ ->]%tx_write_ok. apply Hf. Qed.

Ltac keeps_frame := rtx_frame ltac:(first [apply in_w_keeps; solve [tx_frame] | apply w_write_keeps; intros ?; solve [by apply same_places]]).

(** A statement that is one test and one write in another table. *)
Ltac other_table :=
  intros ? ? ? Hw; cbv beta zeta in Hw;
  repeat match type of Hw with
  | (match ?x with _ => _ end) = Ok _ => destruct x eqn:?; try discriminate Hw
  end; injection Hw as ? <-; first [by apply same_w | by apply same_places].

Lemma audit_r_keeps uses a t op g det : tx_rel r_keeps (insert_audit uses a t op g det).
Proof. unfold insert_audit. keeps_frame. Qed.

Lemma write_faults_keeps m : tx_rel r_keeps (write_faults m).
Proof. unfold write_faults. other_table. Qed.

Lemma update_fault_keeps fid p f : tx_rel r_keeps (update_fault fid p f).
Proof.
  intros d b d' E. unfold update_fault in E. destruct (rd_faults d !! fid); [|by injection E as _ <-].
  destruct (p d _); [|by injection E as _ <-]. destruct (write_faults _ d) as [[u d1]|] eqn:Ew; [|done].
  injection E as _ <-. by eapply write_faults_keeps.
Qed.

Lemma claim_fault_keeps fid p f task : tx_rel r_keeps (claim_fault fid p f task).
Proof.
  intros d b d' E. unfold claim_fault in E. destruct (rd_faults d !! fid); [|by injection E as _ <-].
  destruct (active_generation _); [|by injection E as _ <-].
  destruct (p _); [|by injection E as _ <-]. destruct (write_faults _ d) as [[u d1]|] eqn:Ew; [|done].
  injection E as _ <-. by eapply write_faults_keeps.
Qed.

Lemma ready_keeps u : tx_rel r_keeps (requireUserDataFaultRecoveryReadyLocked u).
Proof.
  intros d a d' E. unfold requireUserDataFaultRecoveryReadyLocked in E.
  destruct (open_fault u d) as [[fid f]|]; [destruct (String.eqb _ _); [|done]|]; by injection E as _ <-.
Qed.

#[local] Hint Resolve audit_r_keeps write_faults_keeps update_fault_keeps claim_fault_keeps ready_keeps : rtx_frame.

(** An operation: refused before its transaction, or the transaction. *)
Ltac r_operation :=
  repeat match goal with |- r_keeps _ (if ?b then _ else _).2 => destruct b; [done|] end;
  repeat match goal with |- r_keeps _ (if ?b then _ else _).2 => destruct b; [|done] end;
  apply (tx_rel_run r_keeps); keeps_frame.

Lemma Freeze_keeps clock fid op w now later d : r_keeps d (CompleteUserDataFaultFreeze clock fid op w now later d).2.
Proof.
  unfold CompleteUserDataFaultFreeze. destruct (negb _); [done|]. cbv zeta.
  match goal with |- context [runTx ?m d] => assert (tx_rel r_keeps m) as Hm by keeps_frame;
    pose proof (tx_rel_run r_keeps m d Hm) as Hr; destruct (runTx m d) as [[?|?] ?] end; done.
Qed.

Lemma foldl_keeps {X} (f : RDB -> X -> RDB) (l : list X) d : (forall d x, r_keeps d (f d x)) -> r_keeps d (foldl f d l).
Proof. intros Hf. revert d. induction l as [|x l IH]; intros d; cbn; [done|]. etrans; [apply Hf | apply IH]. Qed.

Lemma freeze_users_keeps now : tx_rel r_keeps (freeze_users now).
Proof.
  apply write_keeps. intros d. apply same_places; try reflexivity. cbn. unfold legacy_ids. cbn. apply map_eq. intros u.
  rewrite !lookup_fmap, update_where_lookup. unfold core. destruct (db_users _ !! u) as [g|]; [|done]. cbn.
  match goal with |- context [if ?b then _ else _] => by destruct b end.
Qed.

Lemma Reconcile_keeps clock newid ev now grace d : r_keeps d (ReconcileProtectionStates clock newid ev now grace d).2.
Proof.
  unfold ReconcileProtectionStates. destruct (grace <=? 0); [done|]. apply (tx_rel_run r_keeps).
  unfold reconcileProtectionStatesOnce. keeps_frame.
  - unfold project_states. other_table.
  - apply write_keeps. intros d0. apply foldl_keeps. intros d1 x. unfold open_conflict. destruct (_ || _); by apply same_w.
  - apply write_keeps. intros d0. apply foldl_keeps. intros d1 x. unfold capture_conflict. cbv zeta.
    match goal with |- context [foldl ?f d1 ?l] => assert (r_keeps d1 (foldl f d1 l)) as Hf end.
    { apply foldl_keeps. intros d2 y. by apply same_places. }
    destruct (_ && _); [|done]. etrans; [exact Hf | by apply same_w].
  - apply write_keeps. intros d0. by apply same_w.
  - apply freeze_users_keeps.
  - intros d0 n d' [= _ <-]. apply foldl_keeps. intros d1 x. unfold open_alert. cbv zeta.
    repeat case_match; by apply same_places.
  - unfold resolve_alerts. other_table.
Qed.

Lemma update_replica_keeps l n p f :
  (forall r, ur_Kind (f r) = "home"%string -> ur_Kind r = "home"%string) -> tx_rel r_keeps (update_replica l n p f).
Proof.
  intros Hf d b d' E. unfold update_replica in E. destruct (wd_replicas _ !! _) as [r|] eqn:Hl; [|by injection E as _ <-].
  destruct (p r); [|by injection E as _ <-]. injection E as _ <-. apply replicas_kept.
  intros k r' [[<- <-]|[_ Hk]]%lookup_insert_Some Hh; eauto.
Qed.

Lemma syncing_replica_keeps l n : tx_rel r_keeps (syncing_replica l n).
Proof.
  intros d a d' E. unfold syncing_replica in E. destruct (_ && _); [|done]. injection E as _ <-. apply replicas_kept.
  intros k r' [[<- <-]|[_ Hk]]%lookup_insert_Some Hh; [|by eauto]. by destruct (wd_replicas _ !! _).
Qed.

Lemma insert_restore_keeps op o : tx_rel r_keeps (insert_restore op o).
Proof. unfold insert_restore. other_table. Qed.

Lemma restore_operation_keeps p : tx_rel r_keeps (getRestoreOperation p).
Proof. intros d r d' E. by rewrite (restore_replay_same p d r d' E). Qed.

Lemma require_idle_keeps u now : tx_rel r_keeps (require_idle u now).
Proof. unfold require_idle. keeps_frame. Qed.

#[local] Hint Resolve syncing_replica_keeps insert_restore_keeps restore_operation_keeps require_idle_keeps : rtx_frame.

Lemma Create_keeps clock p d : r_keeps d (CreateRestoreWorkflow clock p d).2.
Proof. unfold CreateRestoreWorkflow, create_restore_tx, new_restore, restore_rows. r_operation. Qed.

Lemma Fail_keeps clock wid code s now d : r_keeps d (FailRestoreWorkflow clock wid code s now d).2.
Proof.
  unfold FailRestoreWorkflow, fail_restore_tx, abandon_target. r_operation.
  - by apply update_replica_keeps.
  - apply w_write_keeps. intros w0. destruct (db_accounts _ !! _); [|done]. destruct (String.eqb _ _); by apply same_places.
  - apply write_keeps. intros d0. by apply same_w.
Qed.

Lemma on_w_keeps {A} (f : WDB -> result A * WDB) d : keeps_places (rd_w d) (f (rd_w d)).2 -> r_keeps d (on_w f d).2.
Proof. unfold on_w. by destruct (f (rd_w d)). Qed.

(** The events that can change a place: a report, a takeover and a completion. *)
Definition moves_places (ev : recovery_event) : bool :=
  match ev with RReport _ _ _ _ _ | RTakeover _ _ _ | RComplete _ _ _ => true | _ => false end.

Lemma event_keeps ev d : moves_places ev = false -> r_keeps d (recovery_effect ev d).
Proof.
  destruct ev; try done; intros _; cbn [recovery_effect].
  - unfold core_change. destruct (bool_decide _) eqn:E; [|done]. b2p. by apply same_places.
  - destruct (is_operation ev) eqn:E; [|done]. by apply snapshot_places.
  - unfold ClaimUserDataFault. r_operation.
  - apply Freeze_keeps.
  - unfold RetryUserDataFault. r_operation.
  - unfold ClaimUserDataFaultRelease. r_operation.
  - unfold CompleteUserDataFaultRelease. r_operation.
  - unfold RetryUserDataFaultRelease. r_operation.
  - apply Reconcile_keeps.
  - apply Create_keeps.
  - apply on_w_keeps, provision_places.
  - unfold ClaimRestoreWorkflow. r_operation.
  - apply on_w_keeps. unfold SetSnapshotWorkflowState. operation.
  - unfold ResetRestoreTransferForRetry. r_operation.
  - apply Fail_keeps.
Qed.

End Homes.
