(* ===== verification/RecoveryMoves.v ===== *)
(** * How a home moves

    The three operations that write where the data of a user is authoritative: the
    report of a data fault, the confirmed takeover and the completed restore.  The
    file proves that the places of RecoveryHomes.v agree after each of them, what
    must hold when a home moves, and what holds afterwards. *)

From Stdlib Require Import ZArith Lia Ascii String.
From stdpp Require Import base list gmap strings relations.
From S2P Require Import Prelude GoStrings AgentState Schema Leases Handoffs WorkflowSchema SnapshotStore SnapshotLife.
From S2P Require Import SnapshotExecutor RecoverySchema DataFaults Protection RestoreStore RecoverySystem RecoveryFaults.
From S2P Require Import RecoveryHomes.
#[local] Open Scope Z_scope.

(** ** What a move is about *)

(** The columns of the database that say where a user may write. *)
Record Places := {
  pl_homes : gmap Z Z;
  pl_ids : gmap Z (option Z);
  pl_copies : gmap (Z * Z) ReplicaCopy;
  pl_replicas : gmap (Z * Z) UserReplica;
  pl_faults : gmap string DataFault;
  pl_leases : gmap Z ActivityLease;
  pl_tickets : gmap string ControlTicket
}.

Definition places (d : RDB) : Places :=
  {| pl_homes := wd_homes (rd_w d); pl_ids := legacy_ids (core d); pl_copies := wd_copies (rd_w d);
     pl_replicas := wd_replicas (rd_w d); pl_faults := rd_faults d; pl_leases := db_leases (core d);
     pl_tickets := db_tickets (core d) |}.

Definition unmoved (d d' : RDB) : Prop := places d' = places d.

#[local] Instance unmoved_preorder : PreOrder unmoved.
Proof. unfold unmoved. split; [by intros d | intros d1 d2 d3 H1 H2; congruence]. Qed.

(** The same of the tables of the workflows. *)
Definition w_unmoved (w w' : WDB) : Prop :=
  wd_homes w' = wd_homes w /\ legacy_ids (wd_core w') = legacy_ids (wd_core w) /\ wd_copies w' = wd_copies w
  /\ wd_replicas w' = wd_replicas w /\ db_leases (wd_core w') = db_leases (wd_core w)
  /\ db_tickets (wd_core w') = db_tickets (wd_core w).

#[local] Instance w_unmoved_preorder : PreOrder w_unmoved.
Proof. unfold w_unmoved. split; [done | intros w1 w2 w3 H1 H2; destruct_and!; repeat split; congruence]. Qed.

Lemma in_w_unmoved {A} (m : WTx A) : tx_rel w_unmoved m -> tx_rel unmoved (in_w m).
Proof.
  apply tx_rel_in_w. intros d w (H1 & H2 & H3 & H4 & H5 & H6). unfold unmoved, places, core. cbn.
  by rewrite H1, H2, H3, H4, H5, H6.
Qed.

Ltac unmoved_frame := rtx_frame ltac:(first [apply in_w_unmoved; solve [tx_frame] | idtac]).

(** A statement that is one test and one write in another table. *)
Ltac unmoved_write :=
  intros ? ? ? Hw; cbv beta zeta in Hw;
  repeat match type of Hw with
  | (match ?x with _ => _ end) = Ok _ => destruct x eqn:?; try discriminate Hw
  end; injection Hw as ? <-; done.

Section Moves.
Context `{Postgres}.

(** ** Statements that move nothing *)

Lemma w_write_unmoved (f : WDB -> WDB) : (forall w, w_unmoved w (f w)) -> tx_rel unmoved (in_w (tx_write f)).
Proof. intros Hf. apply in_w_unmoved. intros w a w' [_ ->]%tx_write_ok. apply Hf. Qed.

Lemma audit_unmoved uses a t op g det : tx_rel unmoved (insert_audit uses a t op g det).
Proof. unfold insert_audit. unmoved_frame. by apply w_write_unmoved. Qed.

Lemma protect_anew_unmoved u n r now : tx_rel unmoved (protect_anew u n r now).
Proof. unfold protect_anew. unmoved_write. Qed.

Lemma insert_takeover_unmoved op o : tx_rel unmoved (insert_takeover op o).
Proof. unfold insert_takeover. unmoved_write. Qed.

Lemma swap_accounts_unmoved u t o now : tx_rel unmoved (swap_accounts u t o now).
Proof. unfold swap_accounts. unmoved_write. Qed.

Lemma seal_restore_unmoved p wid sid : tx_rel w_unmoved (seal_restore p wid sid).
Proof. unfold seal_restore. unmoved_write. Qed.

Lemma update_workflows_unmoved p f : tx_rel w_unmoved (update_workflows p f).
Proof.
  intros d n d' E. unfold update_workflows in E. destruct (write_workflows _ d) as [[u d1]|e] eqn:Ew; [|done].
  injection E as _ <-. revert Ew. unfold write_workflows. case_match; [|done]. by intros [= _ <-].
Qed.

Lemma update_steps_unmoved p f : tx_rel w_unmoved (update_steps p f).
Proof. unfold update_steps. unmoved_write. Qed.

Lemma resolve_fault_alert_unmoved u now : tx_rel unmoved (resolve_fault_alert u now).
Proof. by apply w_write_unmoved. Qed.

Lemma raise_alert_unmoved u n now : tx_rel unmoved (raise_alert u n now).
Proof. by intros d a d' [_ ->]%tx_write_ok. Qed.

#[local] Hint Resolve seal_restore_unmoved update_workflows_unmoved update_steps_unmoved : tx_frame.
#[local] Hint Resolve audit_unmoved protect_anew_unmoved insert_takeover_unmoved swap_accounts_unmoved
  resolve_fault_alert_unmoved raise_alert_unmoved : rtx_frame.

Lemma finish_restore_unmoved p wid op o now : tx_rel unmoved (finish_restore p wid op o now).
Proof.
  unfold finish_restore. unmoved_frame; [by apply w_write_unmoved|]. by intros d b d' [_ ->]%tx_write_ok.
Qed.

(** ** Statements that move *)

Lemma end_lease_places u now d a d' : end_user_lease u now d = Ok (a, d') ->
  places d' = {| pl_homes := pl_homes (places d); pl_ids := pl_ids (places d); pl_copies := pl_copies (places d);
    pl_replicas := pl_replicas (places d); pl_faults := pl_faults (places d);
    pl_leases := update_where (fun u' _ => u' =? u) (lease_ended now) (pl_leases (places d));
    pl_tickets := pl_tickets (places d) |}.
Proof. intros (w & [_ ->]%tx_write_ok & ->)%in_w_ok. done. Qed.

Lemma revoke_places u now d a d' : revoke_user_tickets u now d = Ok (a, d') ->
  places d' = {| pl_homes := pl_homes (places d); pl_ids := pl_ids (places d); pl_copies := pl_copies (places d);
    pl_replicas := pl_replicas (places d); pl_faults := pl_faults (places d); pl_leases := pl_leases (places d);
    pl_tickets := update_where (fun _ t => bool_decide (tk_UserID t = Some u) && bool_decide (tk_ConsumedAt t = None))
      (ticket_revoked now) (pl_tickets (places d)) |}.
Proof. intros (w & [_ ->]%tx_write_ok & ->)%in_w_ok. done. Qed.

(** The faults of a user after its recovery. *)
Lemma resolve_places u kind op now d a d' : resolveUserDataFaultLocked u kind op now d = Ok (a, d') ->
  exists op', places d' = {| pl_homes := pl_homes (places d); pl_ids := pl_ids (places d); pl_copies := pl_copies (places d);
    pl_replicas := pl_replicas (places d);
    pl_faults := update_where (fun _ => recoverable_fault u) (resolved_fault kind op' now) (pl_faults (places d));
    pl_leases := pl_leases (places d); pl_tickets := pl_tickets (places d) |}.
Proof.
  intros E. unfold resolveUserDataFaultLocked in E. apply tx_bind_ok in E as (u1 & d1 & [_ ->]%require_ok & E).
  apply tx_bind_ok in E as (op' & d1 & [_ ->]%uuid_param_ok & E). apply tx_bind_ok in E as (n & d1 & [_ ->]%tx_read_ok & E).
  apply tx_bind_ok in E as (u2 & d1 & [_ ->]%write_faults_ok & E). exists op'.
  assert (unmoved (set_rd_faults (update_where (fun _ => recoverable_fault u) (resolved_fault kind op' now) (rd_faults d)) d) d')
    as ->; [|done].
  destruct n as [|[|n]]; [by apply tx_ret_ok in E as [_ ->] | by eapply resolve_fault_alert_unmoved | done].
Qed.

(** The only authoritative copy of the user is the one of the target. *)
Definition authority_moved (user target : Z) (m m' : gmap (Z * Z) ReplicaCopy) : Prop :=
  (exists c, m' !! (user, target) = Some c /\ rc_Kind c = "active"%string /\ rc_State c = "ready"%string
             /\ rc_IsAuthoritative c = true)
  /\ (forall k c, m' !! k = Some c -> rc_IsAuthoritative c = true ->
        k = (user, target) \/ (k.1 <> user /\ m !! k = Some c)).

(** The replica of the target is the home, the one of the old home is none. *)
Definition home_moved (legacy old target : Z) (m m' : gmap (Z * Z) UserReplica) : Prop :=
  (exists r, m !! (legacy, old) = Some r /\ ur_Kind r = "home"%string)
  /\ (exists r, m' !! (legacy, target) = Some r /\ ur_Kind r = "home"%string /\ ur_State r = "ready"%string)
  /\ (forall k r, m' !! k = Some r -> ur_Kind r = "home"%string ->
        k = (legacy, target) \/ (k <> (legacy, old) /\ m !! k = Some r)).

Lemma write_copies_ok m d u d' : write_copies m d = Ok (u, d') -> d' = set_rd_w (put_copies m (rd_w d)) d.
Proof. unfold write_copies. destruct (copies_ok m); [|done]. by intros [= _ <-]. Qed.

Lemma upsert_copy_ok u n fresh again d a d' : upsert_copy u n fresh again d = Ok (a, d') ->
  exists c', d' = set_rd_w (put_copies (<[(u, n) := c']> (wd_copies (rd_w d))) (rd_w d)) d
    /\ (c' = fresh \/ exists c, wd_copies (rd_w d) !! (u, n) = Some c /\ c' = again c).
Proof.
  unfold upsert_copy. destruct (_ && _); [|done]. destruct (wd_copies _ !! _) as [c|].
  - intros ->%write_copies_ok. eexists. split; [reflexivity | eauto].
  - destruct (Nat.eqb _ 0); [|done]. intros ->%write_copies_ok. eexists. split; [reflexivity | by left].
Qed.

Lemma update_replica_ok l n p f d b d' : update_replica l n p f d = Ok (b, d') -> b = true ->
  exists r, wd_replicas (rd_w d) !! (l, n) = Some r /\ p r = true
    /\ d' = set_rd_w (put_replicas (<[(l, n) := f r]> (wd_replicas (rd_w d))) (rd_w d)) d.
Proof.
  unfold update_replica. destruct (wd_replicas _ !! _) as [r|]; [|by intros [= <- <-]]. destruct (p r) eqn:Hp.
  - intros [= <- <-] _. by exists r.
  - by intros [= <- <-].
Qed.

Lemma set_home_ok l n d b d' : set_home l n d = Ok (b, d') -> b = true \/ is_Some (db_legacy (core d) !! l) ->
  d' = set_rd_w (put_homes (<[l := n]> (wd_homes (rd_w d))) (rd_w d)) d.
Proof.
  unfold set_home. destruct (db_legacy _ !! _); [|intros [= <- <-] [?|[? ?]]; done].
  destruct (node_exists _ _); [|done]. by intros [= <- <-].
Qed.

(** Two updates that take the kind 'home' from one replica and give it to another. *)
Lemma replicas_moved (l old target : Z) (r r2 : UserReplica) (f1 f2 : UserReplica -> UserReplica)
  (m : gmap (Z * Z) UserReplica) :
  m !! (l, old) = Some r -> ur_Kind r = "home"%string -> ur_Kind (f1 r) <> "home"%string ->
  ur_Kind (f2 r2) = "home"%string -> ur_State (f2 r2) = "ready"%string ->
  home_moved l old target m (<[(l, target) := f2 r2]> (<[(l, old) := f1 r]> m)).
Proof.
  intros Hl Hk H1 H2 H3. split; [by eauto|]. split; [exists (f2 r2); by rewrite lookup_insert_eq|].
  intros k r' [[<- <-]|[Hn Hr]]%lookup_insert_Some Hh; [by left|]. right.
  apply lookup_insert_Some in Hr as [[<- <-]|[Hn' Hr]]; [by destruct (H1 Hh)|done].
Qed.

Lemma promote_replica_places l old t d a d' :
  is_Some (db_legacy (core d) !! l) -> promote_replica l old t d = Ok (a, d') ->
  exists m, home_moved l old t (pl_replicas (places d)) m
    /\ places d' = {| pl_homes := <[l := t]> (pl_homes (places d)); pl_ids := pl_ids (places d);
         pl_copies := pl_copies (places d); pl_replicas := m; pl_faults := pl_faults (places d);
         pl_leases := pl_leases (places d); pl_tickets := pl_tickets (places d) |}.
Proof.
  intros Hx E. unfold promote_replica in E. apply tx_bind_ok in E as (b & d1 & E1 & E).
  apply tx_bind_ok in E as (u1 & d2 & [Hb ->]%require_ok & E). apply tx_bind_ok in E as (b2 & d3 & E3 & E).
  apply tx_bind_ok in E as (u2 & d4 & [Hb2 ->]%require_ok & E). apply tx_bind_ok in E as (b3 & d5 & E5 & E).
  apply tx_ret_ok in E as [_ ->]. apply (update_replica_ok _ _ _ _ _ _ _ E1) in Hb as (r & Hr & Hp & ->).
  apply (update_replica_ok _ _ _ _ _ _ _ E3) in Hb2 as (r2 & Hr2 & Hp2 & ->). apply set_home_ok in E5 as ->; [|by right].
  b2p. eexists. split; [|reflexivity].
  by apply (replicas_moved l old t r r2 (replica_set "hot_standby" "stale") (replica_set "home" "ready")).
Qed.

Lemma move_home_places p l old t v now d a d' : move_home p l old t v now d = Ok (a, d') ->
  exists m, home_moved l old t (pl_replicas (places d)) m
    /\ places d' = {| pl_homes := <[l := t]> (pl_homes (places d)); pl_ids := pl_ids (places d);
         pl_copies := pl_copies (places d); pl_replicas := m; pl_faults := pl_faults (places d);
         pl_leases := pl_leases (places d); pl_tickets := pl_tickets (places d) |}.
Proof.
  intros E. unfold move_home in E. apply tx_bind_ok in E as (b & d1 & E1 & E).
  apply tx_bind_ok in E as (u1 & d2 & [Hb ->]%require_ok & E). apply tx_bind_ok in E as (b2 & d3 & E3 & E).
  apply tx_bind_ok in E as (u2 & d4 & [Hb2 ->]%require_ok & E). apply tx_bind_ok in E as (b3 & d5 & E5 & E).
  apply require_ok in E as [Hb3 ->]. apply (update_replica_ok _ _ _ _ _ _ _ E1) in Hb as (r & Hr & Hp & ->).
  apply (update_replica_ok _ _ _ _ _ _ _ E3) in Hb2 as (r2 & Hr2 & Hp2 & ->). apply set_home_ok in E5 as ->; [|by left].
  b2p. eexists. split; [|reflexivity].
  cbn. match goal with |- home_moved _ _ _ _ (<[_ := ?x]> _) =>
    by apply (replicas_moved l old t r r2 (replica_set "hot_standby" "stale") (fun _ => x) (pl_replicas (places d))) end.
Qed.

Lemma promote_copy_places clock cid sid u old t now d a d' : promote_copy clock cid sid u old t now d = Ok (a, d') ->
  exists m, authority_moved u t (pl_copies (places d)) m
    /\ places d' = {| pl_homes := pl_homes (places d); pl_ids := pl_ids (places d); pl_copies := m;
         pl_replicas := pl_replicas (places d); pl_faults := pl_faults (places d); pl_leases := pl_leases (places d);
         pl_tickets := pl_tickets (places d) |}.
Proof.
  intros E. unfold promote_copy in E. apply tx_bind_ok in E as (u1 & d1 & ->%write_copies_ok & E).
  apply tx_bind_ok in E as (u2 & d2 & (c0 & -> & Hc0)%upsert_copy_ok & E). cbn in E.
  destruct (<[(u, old) := c0]> _ !! (u, t)) as [c|] eqn:Hc; [|done]. destruct (_ && _) eqn:Hg; [|done].
  apply write_copies_ok in E as ->. eexists. split; [|reflexivity]. split.
  - eexists. cbn. rewrite lookup_insert_eq. done.
  - cbn. intros k c' [[<- <-]|[Hn Hl]]%lookup_insert_Some Ha; [by left|]. right.
    apply lookup_insert_Some in Hl as [[<- <-]|[Hn' Hl]].
    + by destruct Hc0 as [->|(c1 & _ & ->)].
    + rewrite update_where_lookup in Hl. destruct (wd_copies (rd_w d) !! k) as [c1|]; [|done]. cbn in Hl.
      injection Hl as <-. destruct ((k.1 =? u) && rc_IsAuthoritative c1) eqn:Hq; [discriminate Ha|]. rewrite Ha, andb_true_r in Hq. b2p. split; done.
Qed.

Lemma move_authority_places clock cid sid u old t now d a d' : move_authority clock cid sid u old t now d = Ok (a, d') ->
  exists m, authority_moved u t (pl_copies (places d)) m
    /\ places d' = {| pl_homes := pl_homes (places d); pl_ids := pl_ids (places d); pl_copies := m;
         pl_replicas := pl_replicas (places d); pl_faults := pl_faults (places d); pl_leases := pl_leases (places d);
         pl_tickets := pl_tickets (places d) |}.
Proof.
  intros E. unfold move_authority in E. apply tx_bind_ok in E as (u1 & d1 & ->%write_copies_ok & E).
  apply upsert_copy_ok in E as (c0 & -> & Hc0). eexists. split; [|reflexivity]. cbn. split.
  - exists c0. rewrite lookup_insert_eq. by destruct Hc0 as [->|(c1 & _ & ->)].
  - intros k c' [[<- <-]|[Hn Hl]]%lookup_insert_Some Ha; [by left|]. right. rewrite map_lookup_imap in Hl.
    destruct (wd_copies (rd_w d) !! k) as [c1|]; [|done]. cbn in Hl. injection Hl as <-.
    destruct (_ && _) eqn:Hq; [done|]. rewrite Ha in Hq. cbn in Hq. rewrite andb_true_r in Hq. b2p. done.
Qed.

(** ** The moves *)

Lemma joined_ids d user g l us : joined_user d user = Some (g, l, us) ->
  legacy_ids (core d) !! user = Some (Some l) /\ is_Some (db_legacy (core d) !! l).
Proof.
  unfold joined_user, legacy_ids. rewrite lookup_fmap. destruct (db_users (core d) !! user) as [g'|]; [|done]. cbn.
  destruct (gu_LegacyUserID g') as [l'|] eqn:Hl; [|done]. destruct (db_legacy (core d) !! l') eqn:Hx; [|done]. cbn.
  intros [= -> -> ->]. by rewrite Hx.
Qed.

(** What holds of a move of a home, before and after it. *)
Record home_move (user legacy old target : Z) (now : time) (d d' : RDB) : Prop := {
  hm_user : exists g us, joined_user d user = Some (g, legacy, us) /\ both_active (g, legacy, us) = true;
  hm_old : wd_homes (rd_w d) !! legacy = Some old;
  (** nobody may still be writing to the old home *)
  hm_idle : forall l, db_leases (core d) !! user = Some l -> leaseBlocksNewWriter l now = false;
  (** an open data fault was frozen with a recovery point *)
  hm_fault : forall id f, open_fault user d = Some (id, f) -> fa_State f = "recovery_available"%string;
  (** a Controller is active *)
  hm_generation : is_Some (active_generation (core d));
  hm_new : wd_homes (rd_w d') = <[legacy := target]> (wd_homes (rd_w d));
  hm_ids : legacy_ids (core d') = legacy_ids (core d);
  hm_replica : home_moved legacy old target (wd_replicas (rd_w d)) (wd_replicas (rd_w d'));
  hm_copy : authority_moved user target (wd_copies (rd_w d)) (wd_copies (rd_w d'));
  (** the fault is resolved, and no session or login ticket of the old home is good *)
  hm_resolved : open_fault user d' = None;
  hm_ended : forall l, db_leases (core d') !! user = Some l -> ls_State l = "ended"%string /\ ls_LeaseExpiresAt l = ts now;
  hm_revoked : forall j t, db_tickets (core d') !! j = Some t -> tk_UserID t = Some user -> tk_ConsumedAt t = None ->
    is_Some (tk_RevokedAt t)
}.

(** The places after the statements of a move. *)
Definition moved_places (user legacy target : Z) (kind op : string) (now : time) copies replicas (pl : Places) : Places :=
  {| pl_homes := <[legacy := target]> (pl_homes pl); pl_ids := pl_ids pl; pl_copies := copies; pl_replicas := replicas;
     pl_faults := update_where (fun _ => recoverable_fault user) (resolved_fault kind op now) (pl_faults pl);
     pl_leases := update_where (fun u _ => u =? user) (lease_ended now) (pl_leases pl);
     pl_tickets := update_where (fun _ t => bool_decide (tk_UserID t = Some user) && bool_decide (tk_ConsumedAt t = None))
       (ticket_revoked now) (pl_tickets pl) |}.

Definition fault_ready (user : Z) (d : RDB) : Prop :=
  forall id f, open_fault user d = Some (id, f) -> fa_State f = "recovery_available"%string.

Lemma ready_ok user d u d' : requireUserDataFaultRecoveryReadyLocked user d = Ok (u, d') -> fault_ready user d /\ d' = d.
Proof.
  unfold requireUserDataFaultRecoveryReadyLocked, fault_ready. destruct (open_fault user d) as [[i f]|].
  - destruct (String.eqb _ _) eqn:E; [|done]. b2p. intros [= _ <-]. split; [|done]. by intros ? ? [= <- <-].
  - by intros [= _ <-].
Qed.

Lemma none_open user kind op now d d' :
  faults_ok (rd_faults d) = true -> fault_ready user d ->
  rd_faults d' = update_where (fun _ => recoverable_fault user) (resolved_fault kind op now) (rd_faults d) ->
  open_fault user d' = None.
Proof.
  intros Hok Hr E. destruct (open_fault user d') as [[id f]|] eqn:Ho; [exfalso|done].
  assert ((id, f) ∈ rows_where (fun _ f => (fa_UserID f =? user) && negb (is_resolved f)) (rd_faults d')) as Hin.
  { unfold open_fault in Ho. destruct (rows_where _ (rd_faults d')) as [|x l]; [done|]. injection Ho as ->. by left. }
  apply rows_where_elem in Hin as [Hl Hp]. rewrite E, update_where_lookup in Hl.
  destruct (rd_faults d !! id) as [f0|] eqn:Hl0; [|done]. cbn in Hl. apply andb_true_iff in Hp as [Hu Hn].
  destruct (recoverable_fault user f0) eqn:Hrec; injection Hl as <-; [done|]. b2p. subst user.
  pose proof (open_fault_is d id f0 Hok Hl0 Hn) as Hopen. apply Hr in Hopen. unfold recoverable_fault in Hrec.
  by rewrite Z.eqb_refl, Hopen in Hrec.
Qed.

Lemma moved_places_move user legacy old target kind op now (d d' : RDB) copies replicas g us :
  faults_ok (rd_faults d) = true ->
  joined_user d user = Some (g, legacy, us) -> both_active (g, legacy, us) = true ->
  wd_homes (rd_w d) !! legacy = Some old ->
  (forall l, db_leases (core d) !! user = Some l -> leaseBlocksNewWriter l now = false) ->
  fault_ready user d -> is_Some (active_generation (core d)) ->
  home_moved legacy old target (wd_replicas (rd_w d)) replicas -> authority_moved user target (wd_copies (rd_w d)) copies ->
  places d' = moved_places user legacy target kind op (ts now) copies replicas (places d) ->
  home_move user legacy old target now d d'.
Proof.
  intros Hok Hj Ha Hh Hi Hf Hg Hr Hc [= E1 E2 E3 E4 E5 E6 E7]. split; try done.
  - by exists g, us.
  - by rewrite E4.
  - by rewrite E3.
  - by eapply none_open.
  - intros l. rewrite E6, update_where_lookup, Z.eqb_refl. destruct (db_leases (core d) !! user); [|done].
    by intros [= <-].
  - intros j t. rewrite E7, update_where_lookup. destruct (db_tickets (core d) !! j) as [t0|]; [|done]. cbn.
    intros [= <-] Hu Hcons. destruct (_ && _) eqn:Hq; cbn in *; [destruct (tk_RevokedAt t0); by eexists|].
    by rewrite Hu, Hcons, !bool_decide_eq_true_2 in Hq.
Qed.

Lemma update_absent (user : Z) f (m : gmap Z ActivityLease) :
  m !! user = None -> update_where (fun u _ => u =? user) f m = m.
Proof.
  intros Hn. apply map_eq. intros u. rewrite update_where_lookup. destruct (m !! u) eqn:Hu; [|done]. cbn.
  destruct (u =? user) eqn:E; [|done]. b2p. congruence.
Qed.

Lemma lease_places user now lease d a d' : lease = db_leases (core d) !! user ->
  (if isSome lease then end_user_lease user now else tx_ret tt) d = Ok (a, d') ->
  places d' = {| pl_homes := pl_homes (places d); pl_ids := pl_ids (places d); pl_copies := pl_copies (places d);
    pl_replicas := pl_replicas (places d); pl_faults := pl_faults (places d);
    pl_leases := update_where (fun u _ => u =? user) (lease_ended now) (pl_leases (places d));
    pl_tickets := pl_tickets (places d) |}.
Proof.
  intros -> E. destruct (db_leases (core d) !! user) eqn:Hl; cbn [isSome] in E; [by apply end_lease_places in E|].
  apply tx_ret_ok in E as [_ ->]. cbn. by rewrite update_absent.
Qed.

Lemma take_over_places clock cid op p l old g lease sid at_ now d a d' :
  is_Some (db_legacy (core d) !! l) -> lease = db_leases (core d) !! kp_GlobalUserID p ->
  take_over clock cid op p l old g lease sid at_ now d = Ok (a, d') ->
  exists op' copies replicas, home_moved l old (kp_TargetNodeID p) (wd_replicas (rd_w d)) replicas
    /\ authority_moved (kp_GlobalUserID p) (kp_TargetNodeID p) (wd_copies (rd_w d)) copies
    /\ places d' = moved_places (kp_GlobalUserID p) l (kp_TargetNodeID p) "takeover" op' (ts now) copies replicas (places d).
Proof.
  intros Hx Hlease E. unfold take_over in E. cbv zeta in E.
  apply tx_bind_ok in E as (u1 & d1 & (replicas & Hr & E1)%promote_replica_places & E); [|done].
  apply tx_bind_ok in E as (u2 & d2 & E2%lease_places & E); [|apply (f_equal pl_leases) in E1; cbn in E1; by rewrite E1].
  apply tx_bind_ok in E as (u3 & d3 & E3%revoke_places & E).
  apply tx_bind_ok in E as (u4 & d4 & (copies & Hc & E4)%promote_copy_places & E).
  apply tx_bind_ok in E as (u5 & d5 & E5%swap_accounts_unmoved & E).
  apply tx_bind_ok in E as (u6 & d6 & E6%insert_takeover_unmoved & E).
  apply tx_bind_ok in E as (u7 & d7 & E7%protect_anew_unmoved & E).
  apply tx_bind_ok in E as (u8 & d8 & (op' & E8)%resolve_places & E). apply audit_unmoved in E as E9.
  unfold unmoved in *. exists op', copies, replicas. rewrite E3, E2, E1 in Hc. split; [done|]. split; [done|].
  by rewrite E9, E8, E7, E6, E5, E4, E3, E2, E1.
Qed.

(** A takeover leaves the database as it was or moves the home of its user. *)
Lemma takeover_moves clock cid p d : faults_ok (rd_faults d) = true ->
  let d' := (ConfirmReplicaTakeover clock cid p d).2 in
  d' = d \/ exists legacy old,
    home_move (kp_GlobalUserID p) legacy old (kp_TargetNodeID p) (now_or clock (kp_Now p)) d d'.
Proof.
  intros Hok d'. subst d'. unfold ConfirmReplicaTakeover. destruct (negb _); [by left|]. unfold runTx.
  destruct (tx_bind _ _ d) as [[r d']|e] eqn:E; [|by left].
  apply tx_bind_ok in E as (g0 & d1 & [_ ->]%rselect_ok & E). apply tx_bind_ok in E as (replay & d1 & E1 & E).
  apply takeover_replay_same in E1 as ->. destruct replay; [apply tx_ret_ok in E as [_ ->]; by left|]. right.
  unfold new_takeover in E. cbv zeta in E. apply tx_bind_ok in E as ([l old] & d1 & [Hu ->]%rselect_ok & E).
  apply tx_bind_ok in E as (u1 & d1 & [_ ->]%require_ok & E). apply tx_bind_ok in E as (u2 & d1 & [Hf ->]%ready_ok & E).
  apply tx_bind_ok in E as (g & d1 & [Hg ->]%rselect_ok & E). apply tx_bind_ok in E as (lease & d1 & [Hlease ->]%tx_read_ok & E).
  apply tx_bind_ok in E as (u3 & d1 & [Hi ->]%require_ok & E). apply tx_bind_ok in E as ([sid at_] & d1 & [_ ->]%rselect_ok & E).
  apply tx_bind_ok in E as (op & d1 & [_ ->]%uuid_param_ok & E). apply tx_bind_ok in E as (u4 & d1 & E & E').
  apply tx_ret_ok in E' as [_ ->]. exists l, old. unfold takeover_user in Hu.
  destruct (joined_user d _) as [[[g1 l1] us]|] eqn:Hj; [|done]. destruct (both_active _) eqn:Ha; [|done].
  destruct (wd_homes (rd_w d) !! l1) eqn:Hh; [|done]. injection Hu as -> ->.
  destruct (joined_ids d _ _ _ _ Hj) as [_ Hx].
  destruct (take_over_places _ _ _ _ _ _ _ _ _ _ _ _ _ _ Hx Hlease E) as (op' & copies & replicas & Hr & Hc & Hp).
  eapply moved_places_move; try done. intros ls Hls. rewrite Hlease, Hls in Hi. by apply negb_true_iff in Hi.
Qed.

Lemma publish_restore_places clock cid p wid sid r old now d a d' :
  publish_restore clock cid p wid sid r old now d = Ok (a, d') ->
  let target := rs_TargetNodeID (rr_Operation r) in
  exists op' copies replicas, home_moved (rr_Legacy r) old target (wd_replicas (rd_w d)) replicas
    /\ authority_moved (rr_User r) target (wd_copies (rd_w d)) copies
    /\ places d' = moved_places (rr_User r) (rr_Legacy r) target "restore" op' (ts now) copies replicas (places d).
Proof.
  intros E. unfold publish_restore in E. cbv zeta in E.
  apply tx_bind_ok in E as (u1 & d1 & E1 & E). apply (in_w_unmoved (seal_restore p wid sid)) in E1; [|apply seal_restore_unmoved].
  apply tx_bind_ok in E as (v & d2 & [_ ->]%tx_read_ok & E). apply tx_bind_ok in E as (u2 & d2 & [_ ->]%require_ok & E).
  apply tx_bind_ok in E as (u3 & d3 & (replicas & Hr & E3)%move_home_places & E).
  apply tx_bind_ok in E as (u4 & d4 & (copies & Hc & E4)%move_authority_places & E).
  apply tx_bind_ok in E as (n & d5 & E5%swap_accounts_unmoved & E). apply tx_bind_ok in E as (u6 & d6 & [_ ->]%require_ok & E).
  apply tx_bind_ok in E as (u7 & d7 & E7%end_lease_places & E). apply tx_bind_ok in E as (u8 & d8 & E8%revoke_places & E).
  apply tx_bind_ok in E as (u9 & d9 & E9%finish_restore_unmoved & E).
  apply tx_bind_ok in E as (u10 & d10 & E10%protect_anew_unmoved & E).
  apply tx_bind_ok in E as (u11 & d11 & (op' & E11)%resolve_places & E). apply audit_unmoved in E as E12.
  unfold unmoved in *. exists op', copies, replicas. rewrite E3, E1 in Hc. rewrite E1 in Hr. split; [done|]. split; [done|].
  by rewrite E12, E11, E10, E9, E8, E7, E5, E4, E3, E1.
Qed.

(** The restore that a completion is called for: a publishing workflow of this user
    with an operation for this target. *)
Definition publishing_restore (d : RDB) (p : CompleteRestoreWorkflowParams) (user target : Z) : Prop :=
  exists wid w x, uuid_in (cm_WorkflowID p) = Some wid /\ wd_workflows (rd_w d) !! wid = Some w
    /\ wf_State w = "publishing"%string /\ wf_UserID w = Some user
    /\ restore_by_workflow d wid = Some x /\ rs_TargetNodeID x.2 = target.

(** A completion leaves the database as it was or moves the home of its user. *)
Lemma completion_moves clock cid p d : faults_ok (rd_faults d) = true ->
  let d' := (CompleteRestoreWorkflow clock cid p d).2 in
  d' = d \/ exists user legacy old target, publishing_restore d p user target
    /\ home_move user legacy old target (now_or clock (cm_Now p)) d d'.
Proof.
  intros Hok d'. subst d'. unfold CompleteRestoreWorkflow. destruct (complete_restore_valid p); [|by left]. unfold runTx.
  destruct (complete_restore_tx _ _ _ _ d) as [[u d']|e] eqn:E; [|by left]. unfold complete_restore_tx in E.
  apply tx_bind_ok in E as (wid & d1 & [Hid ->]%uuid_param_ok & E). apply tx_bind_ok in E as (sid & d1 & [_ ->]%uuid_param_ok & E).
  apply tx_bind_ok in E as (r & d1 & [Hr ->]%rselect_ok & E). apply tx_bind_ok in E as (old & d1 & [Hold ->]%tx_lift_ok & E).
  destruct (String.eqb _ "succeeded"); [apply tx_ret_ok in E as [_ ->]; by left|]. right.
  apply tx_bind_ok in E as (u1 & d1 & [Hpub ->]%require_ok & E). apply tx_bind_ok in E as (u2 & d1 & [Ha ->]%require_ok & E).
  apply tx_bind_ok in E as (u3 & d1 & [Hf ->]%ready_ok & E). apply tx_bind_ok in E as (g & d1 & [Hg ->]%rselect_ok & E).
  apply tx_bind_ok in E as (u4 & d1 & [_ ->]%require_ok & E). apply tx_bind_ok in E as (u5 & d1 & E5 & E).
  unfold require_idle in E5. apply tx_bind_ok in E5 as (lease & d2 & [Hlease ->]%tx_read_ok & [Hi ->]%require_ok).
  apply tx_bind_ok in E as (b & d1 & [_ ->]%tx_read_ok & E). apply tx_bind_ok in E as (u6 & d1 & [_ ->]%require_ok & E).
  apply tx_bind_ok in E as (b2 & d1 & [_ ->]%tx_read_ok & E). apply tx_bind_ok in E as (u7 & d1 & [_ ->]%require_ok & E).
  destruct (publish_restore_places _ _ _ _ _ _ _ _ _ _ _ E) as (op' & copies & replicas & Hrep & Hc & Hp).
  unfold completing_row in Hr. destruct (wd_workflows _ !! wid) as [w|] eqn:Hw; [|done]. cbn in Hr.
  destruct (restore_by_workflow d wid) as [x|] eqn:Hx; [|done]. cbn in Hr.
  destruct (wf_UserID w) as [user|] eqn:Hu; [|done]. cbn in Hr.
  destruct (joined_user d user) as [[[g1 l1] us]|] eqn:Hj; [|done]. cbn in Hr. destruct (String.eqb _ sid); [|done].
  injection Hr as <-. cbn in *. destruct (wd_homes (rd_w d) !! l1) eqn:Hh; [|done]. injection Hold as ->.
  exists user, l1, old, (rs_TargetNodeID x.2). split; [apply String.eqb_eq in Hpub; by exists wid, w, x|].
  eapply moved_places_move; try done.
  intros ls Hls. subst lease. rewrite Hls in Hi. unfold user_writing in Hi. apply negb_true_iff in Hi.
  rewrite !orb_false_iff in Hi. by destruct_and!.
Qed.

(** ** The report *)

Lemma corrupt_replica_places l n now d a d' : corrupt_replica l n now d = Ok (a, d') ->
  exists r, places d' = {| pl_homes := pl_homes (places d); pl_ids := pl_ids (places d); pl_copies := pl_copies (places d);
    pl_replicas := <[(l, n) := r]> (pl_replicas (places d)); pl_faults := pl_faults (places d);
    pl_leases := pl_leases (places d); pl_tickets := pl_tickets (places d) |}.
Proof. unfold corrupt_replica. destruct (_ && _); [|done]. intros [= _ <-]. eexists. reflexivity. Qed.

Lemma corrupt_copy_places clock cid u n r now d a d' : corrupt_copy clock cid u n r now d = Ok (a, d') ->
  exists c, places d' = {| pl_homes := pl_homes (places d); pl_ids := pl_ids (places d);
    pl_copies := <[(u, n) := c]> (pl_copies (places d)); pl_replicas := pl_replicas (places d);
    pl_faults := pl_faults (places d); pl_leases := pl_leases (places d); pl_tickets := pl_tickets (places d) |}.
Proof. intros (c & -> & _)%upsert_copy_ok. by exists c. Qed.

(** Where the data is: the first four columns of the places. *)
Definition where_data (d : RDB) := (pl_homes (places d), pl_ids (places d), pl_copies (places d), pl_replicas (places d)).

Lemma close_lease_where u now d a d' : close_lease u now d = Ok (a, d') -> where_data d' = where_data d.
Proof. by intros (w & [_ ->]%tx_write_ok & ->)%in_w_ok. Qed.

Lemma close_tickets_where u l now d a d' : close_tickets u l now d = Ok (a, d') -> where_data d' = where_data d.
Proof.
  unfold close_tickets. intros (u1 & d1 & (w & [_ ->]%tx_write_ok & ->)%in_w_ok & [_ ->]%tx_write_ok)%tx_bind_ok. done.
Qed.

Lemma insert_report_where fid op p u home g now d a d' :
  insert_report fid op p u home g now d = Ok (a, d') -> where_data d' = where_data d.
Proof.
  unfold insert_report. destruct (rd_faults d !! fid); [done|]. destruct (bool_decide _); [|done].
  by intros [_ ->]%write_faults_ok.
Qed.

(** A report marks the replica and the copy of the home and nothing elsewhere. *)
Lemma report_where clock fid cid p later d :
  let d' := (ReportUserDataFault clock fid cid p later d).2 in
  where_data d' = where_data d \/ exists user legacy home r c,
    legacy_ids (core d) !! user = Some (Some legacy) /\ wd_homes (rd_w d) !! legacy = Some home
    /\ where_data d' = (wd_homes (rd_w d), legacy_ids (core d), <[(user, home) := c]> (wd_copies (rd_w d)),
                        <[(legacy, home) := r]> (wd_replicas (rd_w d))).
Proof.
  intros d'. subst d'. unfold ReportUserDataFault. destruct (negb _); [by left|]. unfold runTx.
  destruct (report_tx _ _ _ _ _ d) as [[s d']|e] eqn:E; [|by left].
  unfold report_tx in E. apply tx_bind_ok in E as (op & d1 & [_ ->]%uuid_param_ok & E).
  apply tx_bind_ok in E as (oldf & d1 & [_ ->]%tx_read_ok & E).
  destruct oldf as [f|].
  { apply tx_bind_ok in E as (u1 & d1 & [_ ->]%require_ok & E). apply tx_ret_ok in E as [-> ->]. by left. }
  apply tx_bind_ok in E as (uuid & d1 & [_ ->]%uuid_param_ok & E). apply tx_bind_ok in E as (u & d1 & [Hu ->]%rselect_ok & E).
  apply tx_bind_ok in E as (role & d1 & [_ ->]%tx_lift_ok & E). cbv zeta in E.
  apply tx_bind_ok in E as (u1 & d1 & [Hh ->]%require_ok & E). apply tx_bind_ok in E as (b & d1 & [_ ->]%tx_read_ok & E).
  apply tx_bind_ok in E as (u2 & d1 & [_ ->]%require_ok & E). apply tx_bind_ok in E as (op2 & d1 & [_ ->]%tx_read_ok & E).
  apply tx_bind_ok in E as (u3 & d1 & [_ ->]%require_ok & E). apply tx_bind_ok in E as (g & d1 & [_ ->]%rselect_ok & E).
  apply tx_bind_ok in E as (u4 & d1 & E & E'). apply tx_ret_ok in E' as [-> ->]. cbn. right.
  unfold report_writes in E. apply tx_bind_ok in E as (u5 & d2 & E2%insert_report_where & E).
  apply tx_bind_ok in E as (u6 & d3 & (r & E3)%corrupt_replica_places & E).
  apply tx_bind_ok in E as (u7 & d4 & (c & E4)%corrupt_copy_places & E).
  apply tx_bind_ok in E as (u8 & d5 & E5%close_lease_where & E). apply tx_bind_ok in E as (u9 & d6 & E6%close_tickets_where & E).
  apply tx_bind_ok in E as (u10 & d7 & E7%raise_alert_unmoved & E). apply audit_unmoved in E as E8.
  apply andb_true_iff in Hh as [Hh _]. b2p. unfold report_row in Hu. destruct (head _) as [[user g0]|]; [|done].
  destruct (joined_user d user) as [[[g1 l] us]|] eqn:Hj; [|done]. cbv zeta in Hu. injection Hu as <-. cbn in Hh.
  exists user, l, (rp_ExpectedHomeNodeID p), r, c. destruct (joined_ids _ _ _ _ _ Hj) as [Hid _]. split; [done|]. split; [done|].
  unfold where_data in *. rewrite E8, E7, E6, E5, E4, E3. cbn. injection E2 as -> -> -> ->. by rewrite Hh.
Qed.

(** ** Agreement *)

Lemma report_agrees clock fid cid p later d :
  places_agree (rd_w d) -> places_agree (rd_w (ReportUserDataFault clock fid cid p later d).2).
Proof.
  intros [A1 A2 A3]. destruct (report_where clock fid cid p later d) as [E|(u & l & h & r & c & Hu & Hh & E)];
    injection E as E1 E2 E3 E4; unfold core in *; split; rewrite ?E1, ?E2, ?E3, ?E4; eauto.
  - intros u' l' n c' Hu' [[[= <- <-] <-]|[_ Hl]]%lookup_insert_Some Ha; [congruence | eauto].
  - intros l' n r' [[[= <- <-] <-]|[_ Hl]]%lookup_insert_Some Hk; [done | eauto].
Qed.

Lemma move_agrees user legacy old target now d d' :
  home_move user legacy old target now d d' -> places_agree (rd_w d) -> places_agree (rd_w d').
Proof.
  intros Hm [A1 A2 A3]. destruct (hm_user _ _ _ _ _ _ _ Hm) as (g & us & Hj & _). destruct (joined_ids _ _ _ _ _ Hj) as [Hid _].
  pose proof (hm_old _ _ _ _ _ _ _ Hm) as Hold. pose proof (hm_ids _ _ _ _ _ _ _ Hm) as Hids. unfold core in *. split.
  - intros u l n c. rewrite Hids, (hm_new _ _ _ _ _ _ _ Hm). intros Hu Hl Ha.
    destruct (proj2 (hm_copy _ _ _ _ _ _ _ Hm) _ _ Hl Ha) as [[= -> ->]|[Hn Hl0]].
    + assert (l = legacy) as -> by congruence. by rewrite lookup_insert_eq.
    + rewrite lookup_insert_ne; [by eapply A1|]. intros ->. by destruct (Hn (A3 _ _ _ Hid Hu)).
  - intros l n r. rewrite (hm_new _ _ _ _ _ _ _ Hm). intros Hl Hk.
    destruct (hm_replica _ _ _ _ _ _ _ Hm) as (_ & _ & Hr). destruct (Hr _ _ Hl Hk) as [[= -> ->]|[Hn Hl0]].
    + by rewrite lookup_insert_eq.
    + rewrite lookup_insert_ne; [by eapply A2|]. intros <-. pose proof (A2 _ _ _ Hl0 Hk). by destruct Hn; congruence.
  - rewrite Hids. eauto.
Qed.

(** A user has one authoritative copy, and a legacy user one home replica. *)
Definition one_authority (w : WDB) : Prop :=
  (forall user legacy n n' c c', legacy_ids (wd_core w) !! user = Some (Some legacy) ->
     wd_copies w !! (user, n) = Some c -> wd_copies w !! (user, n') = Some c' ->
     rc_IsAuthoritative c = true -> rc_IsAuthoritative c' = true -> n = n')
  /\ (forall legacy n n' r r', wd_replicas w !! (legacy, n) = Some r -> wd_replicas w !! (legacy, n') = Some r' ->
     ur_Kind r = "home"%string -> ur_Kind r' = "home"%string -> n = n').

Lemma agreed_one w : places_agree w -> one_authority w.
Proof.
  intros [A1 A2 A3]. split.
  - intros user legacy n n' c c' Hu Hc Hc' Ha Ha'. pose proof (A1 _ _ _ _ Hu Hc Ha). pose proof (A1 _ _ _ _ Hu Hc' Ha').
    congruence.
  - intros legacy n n' r r' Hr Hr' Hk Hk'. pose proof (A2 _ _ _ Hr Hk). pose proof (A2 _ _ _ Hr' Hk'). congruence.
Qed.

Lemma faults_stay ev d : faults_ok (rd_faults d) = true -> faults_ok (rd_faults (recovery_effect ev d)) = true.
Proof. intros Hok. by destruct (event_move ev d Hok). Qed.

Lemma event_agrees ev d : faults_ok (rd_faults d) = true -> places_agree (rd_w d) ->
  places_agree (rd_w (recovery_effect ev d)).
Proof.
  intros Hok Hp. destruct (moves_places ev) eqn:Hm; [|by eapply keeps_agree; [apply event_keeps|]].
  destruct ev; try done; cbn [recovery_effect].
  - by apply report_agrees.
  - destruct (takeover_moves clock copy_id p d Hok) as [->|(l & old & Hv)]; [done | by eapply move_agrees].
  - destruct (completion_moves clock copy_id p d Hok) as [->|(u & l & old & t & _ & Hv)]; [done | by eapply move_agrees].
Qed.

Lemma run_agrees evs d :
  faults_ok (rd_faults d) = true -> places_agree (rd_w d) -> places_agree (rd_w (recovery_run d evs)).
Proof.
  revert d. induction evs as [|ev evs IH]; intros d Hok Hp; [done|]. cbn. apply IH; [by apply faults_stay | by apply event_agrees].
Qed.

(** C8: The three places that say where the data of a user is authoritative always
    agree.  From a database in which they do, in every run of reports, freezes,
    reconciliations, takeovers, restores and snapshots, with any changes of leases,
    logins and nodes between them: an authoritative copy lies on the home node of its
    user, and a replica of kind 'home' on the home node of its legacy user.  So no
    user ever has two homes, whichever table is asked. *)
Theorem authority_follows_home d evs :
  faults_ok (rd_faults d) = true -> places_agree (rd_w d) ->
  places_agree (rd_w (recovery_run d evs)) /\ one_authority (rd_w (recovery_run d evs)).
Proof. intros Hok Hp. pose proof (run_agrees evs d Hok Hp) as Ha. split; [done | by apply agreed_one]. Qed.

(** The two operations that move a home, with the user, the node and the time of the
    move. *)
Definition moves_home (ev : recovery_event) (d : RDB) (user target : Z) (now : time) : Prop :=
  match ev with
  | RTakeover clock _ p =>
      kp_GlobalUserID p = user /\ kp_TargetNodeID p = target /\ now_or clock (kp_Now p) = now
  | RComplete clock _ p => publishing_restore d p user target /\ now_or clock (cm_Now p) = now
  | _ => False
  end.

(** C7: A home moves only when it is safe.  An event of the recovery that changes the
    home of anybody is a confirmed takeover, and moves the user and to the node it is
    called for, or the completion of a restore, and moves the user of that publishing
    restore to its target.  The user was active; the lease of the user, in that
    transaction, did not let anybody write; there was no open data fault but one frozen
    with a recovery point; a Controller was active; the replica of the old home was the
    home.  After it the new node holds the only authoritative copy and the home
    replica, both ready, the fault is resolved, the lease of the user has ended and
    every login ticket that was not used is revoked. *)
Theorem home_moves_safely ev d :
  faults_ok (rd_faults d) = true -> wd_homes (rd_w (recovery_effect ev d)) <> wd_homes (rd_w d) ->
  exists user legacy old target now,
    moves_home ev d user target now /\ home_move user legacy old target now d (recovery_effect ev d).
Proof.
  intros Hok Hne. destruct (moves_places ev) eqn:Hm; [|by destruct Hne; apply (kp_homes _ _ (event_keeps ev d Hm))].
  destruct ev; try done; cbn [recovery_effect] in *.
  - destruct (report_where clock fid copy_id p later d) as [E|(u & l & h & r & c & _ & _ & E)]; by injection E.
  - destruct (takeover_moves clock copy_id p d Hok) as [E|(l & old & Hv)]; [by rewrite E in Hne|].
    do 5 eexists. split; [by split_and!|exact Hv].
  - destruct (completion_moves clock copy_id p d Hok) as [E|(u & l & old & t & Hr & Hv)]; [by rewrite E in Hne|].
    do 5 eexists. split; [by split|exact Hv].
Qed.

End Moves.
