(* ===== verification/RecoveryRuns.v ===== *)
(** * Recoveries, run

    A small deployment with a home, a hot standby and an archive, and the recoveries
    of its user: the instances at which the theorems of RecoveryFaults.v and
    RecoveryMoves.v are used.  The file also proves what the store cannot do: record
    that a restore failed, and notice that the user wrote while a restore was under
    way. *)

From Stdlib Require Import ZArith Lia Ascii String.
From stdpp Require Import base list gmap strings relations pretty.
From S2P Require Import Prelude GoStrings AgentState Schema Leases Handoffs WorkflowSchema SnapshotStore SnapshotLife.
From S2P Require Import SnapshotExecutor RecoverySchema DataFaults Protection RestoreStore RecoverySystem RecoveryFaults.
From S2P Require Import RecoveryHomes RecoveryMoves.
#[local] Open Scope Z_scope.

(** ** What a completion does not read *)

(** The same database with other activity leases. *)
Definition w_leases (l : gmap Z ActivityLease) (w : WDB) : WDB := put_core (set_leases l (wd_core w)) w.
Definition with_leases (l : gmap Z ActivityLease) (d : RDB) : RDB := set_rd_w (w_leases l (rd_w d)) d.

(** A transaction that commutes with a change of the database. *)
Definition shifted {S A} (f : S -> S) (r : result (A * S)) : result (A * S) :=
  match r with Ok (a, d) => Ok (a, f d) | Fail e => Fail e end.
Definition commutes {S A} (f : S -> S) (m : TxS S A) : Prop := forall d, m (f d) = shifted f (m d).

(** A transaction that succeeds or fails whatever the leases are, with the same outcome
    but for the leases. *)
Definition lease_blind {A} (m : RTx A) : Prop := forall l d,
  match m d with
  | Ok (a, d') => exists l', m (with_leases l d) = Ok (a, with_leases l' d')
  | Fail e => m (with_leases l d) = Fail e
  end.

Section Blind.
Context `{Postgres}.

Lemma commutes_blind {A} (m : RTx A) : (forall l, commutes (with_leases l) m) -> lease_blind m.
Proof.
  intros Hm l d. specialize (Hm l d). destruct (m d) as [[a d']|e]; cbn in Hm; [by exists l | done].
Qed.

Lemma blind_bind {A B} (m : RTx A) (k : A -> RTx B) :
  lease_blind m -> (forall a, lease_blind (k a)) -> lease_blind (tx_bind m k).
Proof.
  intros Hm Hk l d. specialize (Hm l d). unfold tx_bind. destruct (m d) as [[a d1]|e]; [|by rewrite Hm].
  destruct Hm as [l1 ->]. exact (Hk a l1 d1).
Qed.

Lemma commutes_in_w {A} (m : WTx A) l : commutes (w_leases l) m -> commutes (with_leases l) (in_w m).
Proof.
  intros Hm d. unfold in_w. change (rd_w (with_leases l d)) with (w_leases l (rd_w d)). rewrite Hm.
  by destruct (m (rd_w d)) as [[a w]|e].
Qed.

(** A statement that reads no lease: both sides take the same branches. *)
Ltac same_branches :=
  intros ?; cbv beta zeta;
  repeat match goal with
  | |- match ?y with _ => _ end = shifted _ (match ?x with _ => _ end) => change y with x; destruct x
  | |- (if ?y then _ else _) = shifted _ (if ?x then _ else _) => change y with x; destruct x
  end; reflexivity.

Lemma ret_blind {A} (a : A) : lease_blind (tx_ret a).
Proof. apply commutes_blind. by intros l d. Qed.
Lemma fail_blind {A} e : lease_blind (A := A) (tx_fail e).
Proof. apply commutes_blind. by intros l d. Qed.
Lemma require_blind b e : lease_blind (require b e).
Proof. destruct b; [apply ret_blind | apply fail_blind]. Qed.
Lemma lift_blind {A} (r : result A) : lease_blind (tx_lift r).
Proof. apply commutes_blind. intros l d. by destruct r. Qed.
Lemma uuid_blind s : lease_blind (uuid_param s).
Proof. apply commutes_blind. intros l d. unfold uuid_param. by destruct (uuid_in s). Qed.
Lemma read_blind {A} (q : RDB -> A) : (forall l d, q (with_leases l d) = q d) -> lease_blind (tx_read q).
Proof. intros Hq. apply commutes_blind. intros l d. unfold tx_read. cbn. by rewrite Hq. Qed.
Lemma rselect_blind {A} (q : RDB -> option A) e : (forall l d, q (with_leases l d) = q d) -> lease_blind (rselect q e).
Proof. intros Hq. apply commutes_blind. intros l d. unfold rselect. rewrite Hq. by destruct (q d). Qed.
Lemma write_blind (f : RDB -> RDB) : (forall l d, f (with_leases l d) = with_leases l (f d)) -> lease_blind (tx_write f).
Proof. intros Hf. apply commutes_blind. intros l d. unfold tx_write. cbn. by rewrite Hf. Qed.
Lemma in_w_blind {A} (m : WTx A) : (forall l, commutes (w_leases l) m) -> lease_blind (in_w m).
Proof. intros Hm. apply commutes_blind. intros l. by apply commutes_in_w. Qed.

Lemma end_lease_blind u now : lease_blind (end_user_lease u now).
Proof. intros l d. cbn. by eexists. Qed.

Lemma update_replica_blind l n p f : lease_blind (update_replica l n p f).
Proof. apply commutes_blind. intros ls. unfold update_replica. same_branches. Qed.
Lemma set_home_blind l n : lease_blind (set_home l n).
Proof. apply commutes_blind. intros ls. unfold set_home. same_branches. Qed.
Lemma upsert_copy_blind u n fresh again : lease_blind (upsert_copy u n fresh again).
Proof. apply commutes_blind. intros ls. unfold upsert_copy, write_copies. same_branches. Qed.
Lemma write_copies_blind (m : RDB -> gmap (Z * Z) ReplicaCopy) :
  (forall l d, m (with_leases l d) = m d) -> lease_blind (fun d => write_copies (m d) d).
Proof. intros Hm. apply commutes_blind. intros l d. unfold write_copies. rewrite Hm. by destruct (copies_ok _). Qed.
Lemma write_faults_blind (m : RDB -> gmap string DataFault) :
  (forall l d, m (with_leases l d) = m d) -> lease_blind (fun d => write_faults (m d) d).
Proof. intros Hm. apply commutes_blind. intros l d. unfold write_faults. rewrite Hm. by destruct (faults_ok _). Qed.
Lemma swap_accounts_blind u t o now : lease_blind (swap_accounts u t o now).
Proof. apply commutes_blind. intros l d. reflexivity. Qed.
Lemma protect_anew_blind u n r now : lease_blind (protect_anew u n r now).
Proof. apply commutes_blind. intros l. unfold protect_anew. same_branches. Qed.
Lemma ready_commutes u l : commutes (with_leases l) (requireUserDataFaultRecoveryReadyLocked u).
Proof.
  intros d. unfold requireUserDataFaultRecoveryReadyLocked.
  change (open_fault u (with_leases l d)) with (open_fault u d). destruct (open_fault u d) as [[i f]|]; [|done].
  by destruct (String.eqb _ _).
Qed.
Lemma ready_blind u : lease_blind (requireUserDataFaultRecoveryReadyLocked u).
Proof. apply commutes_blind, ready_commutes. Qed.
Lemma seal_restore_blind p wid sid : lease_blind (in_w (seal_restore p wid sid)).
Proof. apply in_w_blind. intros l. unfold seal_restore. same_branches. Qed.
Lemma update_workflows_blind p f : (forall l w, p (w_leases l w) = p w) -> lease_blind (in_w (update_workflows p f)).
Proof.
  intros Hp. apply in_w_blind. intros l w. unfold update_workflows, write_workflows. rewrite Hp.
  change (wd_workflows (w_leases l w)) with (wd_workflows w). by destruct (workflows_ok _).
Qed.
Lemma update_steps_blind p f : lease_blind (in_w (update_steps p f)).
Proof. apply in_w_blind. intros l. unfold update_steps. same_branches. Qed.
Lemma w_write_blind (f : WDB -> WDB) : (forall l w, f (w_leases l w) = w_leases l (f w)) -> lease_blind (in_w (tx_write f)).
Proof. intros Hf. apply in_w_blind. intros l w. unfold tx_write. cbn. by rewrite Hf. Qed.

Hint Resolve ret_blind fail_blind require_blind lift_blind uuid_blind end_lease_blind update_replica_blind set_home_blind
  upsert_copy_blind swap_accounts_blind protect_anew_blind ready_blind seal_restore_blind update_steps_blind : lease_blind.

(** The statements of a transaction one after the other. *)
Ltac blind_frame :=
  repeat match goal with
  | |- lease_blind (tx_bind _ _) => apply blind_bind; [|intros ?]
  | |- lease_blind (tx_read _) => apply read_blind; reflexivity
  | |- lease_blind (rselect _ _) => apply rselect_blind; reflexivity
  | |- lease_blind (in_w (tx_write _)) => apply w_write_blind; reflexivity
  | |- lease_blind (in_w (update_workflows _ _)) => apply update_workflows_blind; reflexivity
  | |- lease_blind (tx_write _) => apply write_blind; reflexivity
  | |- lease_blind (fun d => write_copies _ d) => apply write_copies_blind; reflexivity
  | |- lease_blind (fun d => write_faults _ d) => apply write_faults_blind; reflexivity
  | |- lease_blind (if ?b then _ else _) => destruct b
  | |- lease_blind (match ?x with _ => _ end) => destruct x
  | |- lease_blind _ => solve [eauto 2 with lease_blind]
  end.

Lemma audit_blind uses a t op g det : lease_blind (insert_audit uses a t op g det).
Proof. unfold insert_audit, infer_params. blind_frame. Qed.

Lemma resolve_blind u kind op now : lease_blind (resolveUserDataFaultLocked u kind op now).
Proof. unfold resolveUserDataFaultLocked, resolve_fault_alert. blind_frame. Qed.

Hint Resolve audit_blind resolve_blind : lease_blind.

Lemma publish_restore_blind clock cid p wid sid r old now : lease_blind (publish_restore clock cid p wid sid r old now).
Proof. unfold publish_restore, move_home, move_authority, finish_restore, revoke_user_tickets. cbv zeta. blind_frame. Qed.

(** C38: A restore does not see what the user did while it was under way.  If a
    completion succeeds, it succeeds just the same, with the same database but for the
    lease, when the user has any other lease that lets nobody write at that moment - one
    of a later activity epoch, granted at the old home after the restore was created and
    ended before the transfer arrived.  The completion compares no epoch and no time of
    activity with the archive it restores, although its comment promises never to
    promote a restored copy over live data; [restore_discards_later_work] runs it. *)
Theorem restore_ignores_later_work clock cid p d d1 wid w user l :
  CompleteRestoreWorkflow clock cid p d = (Ok tt, d1) ->
  uuid_in (cm_WorkflowID p) = Some wid -> wd_workflows (rd_w d) !! wid = Some w -> wf_UserID w = Some user ->
  user_writing (Some l) (now_or clock (cm_Now p)) = false ->
  exists ls, CompleteRestoreWorkflow clock cid p (with_leases (<[user := l]> (db_leases (core d))) d)
             = (Ok tt, with_leases ls d1).
Proof.
  intros E Hid Hw Hu Hl. unfold CompleteRestoreWorkflow in *. destruct (complete_restore_valid p); [|done].
  unfold runTx in *. destruct (complete_restore_tx _ _ _ _ d) as [[[] d']|e] eqn:Et; [|done]. injection E as ->.
  set (ls := <[user := l]> (db_leases (core d))).
  enough (exists ls', complete_restore_tx clock cid p (now_or clock (cm_Now p)) (with_leases ls d) = Ok (tt, with_leases ls' d1))
    as [ls' ->] by (by exists ls').
  unfold complete_restore_tx in *. cbv zeta in *.
  apply tx_bind_ok in Et as (wid' & d0 & [Hid' ->]%uuid_param_ok & E). rewrite Hid in Hid'. injection Hid' as <-.
  apply tx_bind_ok in E as (sid & d0 & [Hsid ->]%uuid_param_ok & E).
  apply tx_bind_ok in E as (r & d0 & [Hr ->]%rselect_ok & E). apply tx_bind_ok in E as (old & d0 & [Hold ->]%tx_lift_ok & E).
  assert (rr_User r = user) as Hru.
  { unfold completing_row in Hr. rewrite Hw in Hr. cbn in Hr. destruct (restore_by_workflow d wid); [|done]. cbn in Hr.
    rewrite Hu in Hr. cbn in Hr. destruct (joined_user d user) as [[[g1 l1] us]|]; [|done]. cbn in Hr.
    destruct (String.eqb _ _); [|done]. by injection Hr as <-. }
  assert (Hpre : forall A (k : _ -> _ -> _ -> _ -> RTx A) res,
    k wid sid r old (with_leases ls d) = res ->
    (let! wid := uuid_param (cm_WorkflowID p) in let! sid := uuid_param (cm_RestoreSnapshotID p) in
     let! r := rselect (completing_row wid sid) ErrNoRows in
     let! old := tx_lift (match rr_OldHome r with Some h => Ok h | None => Fail sql_error end) in k wid sid r old)
      (with_leases ls d) = res).
  { intros A k res <-. unfold tx_bind, uuid_param, tx_ret, rselect, tx_lift. rewrite Hid, Hsid.
    change (completing_row wid sid (with_leases ls d)) with (completing_row wid sid d). by rewrite Hr, Hold. }
  destruct (String.eqb _ "succeeded") eqn:Es; [apply tx_ret_ok in E as [_ ->]; exists ls; apply Hpre; by rewrite Es|].
  apply tx_bind_ok in E as (u1 & d0 & [H1 ->]%require_ok & E). apply tx_bind_ok in E as (u2 & d0 & [H2 ->]%require_ok & E).
  apply tx_bind_ok in E as (u3 & d0 & E3 & E). pose proof (ready_ok _ _ _ _ E3) as [_ ->].
  apply tx_bind_ok in E as (g & d0 & [H4 ->]%rselect_ok & E). apply tx_bind_ok in E as (u5 & d0 & [H5 ->]%require_ok & E).
  apply tx_bind_ok in E as (u6 & d0 & E6 & E). unfold require_idle in E6.
  apply tx_bind_ok in E6 as (lease & d2 & [Hlease ->]%tx_read_ok & [Hi ->]%require_ok).
  apply tx_bind_ok in E as (b & d0 & [H7 ->]%tx_read_ok & E). apply tx_bind_ok in E as (u8 & d0 & [H8 ->]%require_ok & E).
  apply tx_bind_ok in E as (b2 & d0 & [H9 ->]%tx_read_ok & E). apply tx_bind_ok in E as (u10 & d0 & [H10 ->]%require_ok & E).
  pose proof (publish_restore_blind clock cid p wid sid r old (now_or clock (cm_Now p)) ls d) as Hpub. rewrite E in Hpub.
  destruct Hpub as [ls' Hpub]. exists ls'. apply Hpre. rewrite Es.
  assert (Hreq : forall b e, b = true -> @require RDB b e (with_leases ls d) = Ok (tt, with_leases ls d)) by (by intros b0 e ->).
  assert (Hready : requireUserDataFaultRecoveryReadyLocked (rr_User r) (with_leases ls d) = Ok (u3, with_leases ls d))
    by (rewrite ready_commutes, E3; reflexivity).
  do 2 (apply tx_bind_ok; eexists _, _; split; [by apply Hreq|]).
  apply tx_bind_ok; eexists _, _; split; [exact Hready|].
  apply tx_bind_ok; exists g, (with_leases ls d); split; [unfold rselect; change (core (with_leases ls d)) with (set_leases ls (core d)); by change (active_generation (set_leases ls (core d))) with (active_generation (core d)); rewrite H4|].
  apply tx_bind_ok; eexists _, _; split; [by apply Hreq|].
  apply tx_bind_ok; eexists _, _; split.
  { unfold require_idle. apply tx_bind_ok. eexists _, _. split; [reflexivity|]. apply Hreq.
    change (db_leases (core (with_leases ls d))) with ls. subst ls. by rewrite Hru, lookup_insert_eq, Hl. }
  do 2 (apply tx_bind_ok; eexists _, _; split; [reflexivity|]; apply tx_bind_ok; eexists _, _; split; [apply Hreq; subst; assumption|]).
  exact Hpub.
Qed.
End Blind.

(** ** Failures that leave no trace *)

Section Failures.
Context `{Postgres}.

(** No transaction that has more to do than to repeat itself ends with this audit row. *)
Lemma failure_audit_fails action u op g detail d a d' :
  insert_audit failure_audit_params action u op g detail d = Ok (a, d') -> False.
Proof. unfold insert_audit. intros (u1 & d1 & [E _]%infer_params_ok & _)%tx_bind_ok. done. Qed.

Lemma fail_restore_replays wid code s now d u d' :
  fail_restore_tx wid code s now d = Ok (u, d') ->
  d' = d /\ exists id w, uuid_in wid = Some id /\ wd_workflows (rd_w d) !! id = Some w /\ wf_State w = "failed"%string.
Proof.
  unfold fail_restore_tx. intros E. apply tx_bind_ok in E as (id & d1 & [Hid ->]%uuid_param_ok & E).
  apply tx_bind_ok in E as ([[[[w op] o] user] l] & d1 & [Hr ->]%rselect_ok & E).
  apply tx_bind_ok in E as (l' & d1 & [_ ->]%tx_lift_ok & E). apply tx_bind_ok in E as (t & d1 & [_ ->]%tx_lift_ok & E).
  destruct (String.eqb (wf_State w) "failed") eqn:Hs.
  - apply tx_ret_ok in E as [_ ->]. split; [done|]. b2p. exists id, w. split; [done|]. split; [|done].
    unfold failing_row in Hr. destruct (wd_workflows _ !! id) as [w'|]; [|done]. cbn in Hr.
    destruct (restore_by_workflow d id); [|done]. cbn in Hr. destruct (wf_UserID w'); [|done]. cbn in Hr.
    destruct (db_users _ !! _); [|done]. cbn in Hr. by injection Hr as ->.
  - exfalso. apply tx_bind_ok in E as (u1 & d1 & _ & E). apply tx_bind_ok in E as (n & d2 & _ & E).
    apply tx_bind_ok in E as (u2 & d3 & _ & E). apply tx_bind_ok in E as (u3 & d4 & _ & E).
    apply tx_bind_ok in E as (u4 & d5 & _ & E). apply tx_bind_ok in E as (u5 & d6 & _ & E).
    apply tx_bind_ok in E as (u6 & d7 & _ & E). apply tx_bind_ok in E as (u7 & d8 & _ & E).
    by apply failure_audit_fails in E.
Qed.

Lemma fail_restore_no_effect clock wid code s now d : (FailRestoreWorkflow clock wid code s now d).2 = d.
Proof.
  unfold FailRestoreWorkflow. destruct (_ || _); [done|]. apply unchanged_run.
  intros a d' E. by apply fail_restore_replays in E as [-> _].
Qed.

(** An open workflow of the user keeps any restore from being created. *)
Lemma open_workflow_blocks clock p d wid w :
  wd_workflows (rd_w d) !! wid = Some w -> holds_user (cr_GlobalUserID p) w = true ->
  (CreateRestoreWorkflow clock p d).2 = d.
Proof.
  intros Hl Hw. unfold CreateRestoreWorkflow. destruct (_ && _); [|done]. apply unchanged_run. intros a d' E.
  apply tx_bind_ok in E as (g & d1 & [_ ->]%rselect_ok & E). apply tx_bind_ok in E as (r & d1 & ->%restore_replay_same & E).
  destruct r; [by apply tx_ret_ok in E as [_ ->]|]. exfalso. unfold new_restore in E. cbv zeta in E.
  apply tx_bind_ok in E as (u1 & d1 & [_ ->]%ready_ok & E). apply tx_bind_ok in E as (g1 & d1 & [_ ->]%rselect_ok & E).
  apply tx_bind_ok in E as (u2 & d1 & E2 & E). unfold require_idle in E2.
  apply tx_bind_ok in E2 as (lease & d2 & [_ ->]%tx_read_ok & [_ ->]%require_ok).
  apply tx_bind_ok in E as (busy & d1 & [-> ->]%tx_read_ok & E). apply tx_bind_ok in E as (u3 & d1 & [Hb _]%require_ok & _).
  unfold workflow_active in Hb. rewrite negb_involutive in Hb.
  pose proof (rows_where_none _ _ _ _ Hb Hl) as Hx. cbv beta in Hx. congruence.
Qed.

(** Every creation of a restore for the user leaves the database as it is. *)
Definition restores_blocked (user : Z) (d : RDB) : Prop :=
  forall clock p, cr_GlobalUserID p = user -> (CreateRestoreWorkflow clock p d).2 = d.

(** C37: A restore that fails is never recorded as failed.  FailRestoreWorkflow ends
    with an audit row whose statement gives the server no type for two of its
    parameters, so its transaction is rolled back: the database stays as it was, and
    the call succeeds only when the workflow was 'failed' before.  The restore
    therefore stays open, and while it does every further restore of its user is
    refused. *)
Theorem failed_restore_stays_open clock id wid code s now d w :
  uuid_in wid = Some id -> wd_workflows (rd_w d) !! id = Some w -> wf_Type w = "restore"%string -> is_open w = true ->
  let '(r, d') := FailRestoreWorkflow clock wid code s now d in
  d' = d /\ (exists e, r = Fail e) /\ (forall user, wf_UserID w = Some user -> restores_blocked user d').
Proof.
  intros Hid Hl Ht Ho. pose proof (fail_restore_no_effect clock wid code s now d) as Hd.
  assert (exists e, (FailRestoreWorkflow clock wid code s now d).1 = Fail e) as He.
  { unfold FailRestoreWorkflow in *. destruct (_ || _); [by eexists|]. unfold runTx in *.
    destruct (fail_restore_tx _ _ _ _ d) as [[u d']|e] eqn:E; [exfalso | by eexists].
    apply fail_restore_replays in E as (_ & id' & w' & Hid' & Hl' & Hs). simplify_eq.
    unfold is_open in Ho. by rewrite Hs in Ho. }
  destruct (FailRestoreWorkflow clock wid code s now d) as [r d']. cbn in Hd, He. subst d'. split; [done|]. split; [done|].
  intros user Hu clock' p <-. eapply open_workflow_blocks; [done|]. unfold holds_user. rewrite Ht, Ho, Hu.
  by rewrite !bool_decide_eq_true_2 by set_solver.
Qed.

End Failures.

(** ** A deployment *)

#[local] Existing Instance demo_postgres.

Definition rid (n : string) : string := "00000000-0000-4000-8000-0000000001" +:+ n.
Definition admin_id : Z := 5.
Definition saved_at : time := store_now - 60 * Minute.

Definition replica_at (kind state : string) : UserReplica :=
  {| ur_Kind := kind; ur_DataVersion := 1; ur_State := state; ur_LastSyncAt := Some saved_at; ur_Checksum := None;
     ur_SizeBytes := Some 10 |}.
Definition copy_at (id kind : string) (sid : option string) (authoritative : bool) : ReplicaCopy :=
  {| rc_ID := id; rc_SnapshotID := sid; rc_Kind := kind; rc_State := "ready"; rc_Origin := "configured";
     rc_IsAuthoritative := authoritative; rc_CompatibilityState := "compatible"; rc_PublishedAt := Some saved_at;
     rc_VerifiedAt := Some saved_at; rc_CreatedAt := saved_at; rc_UpdatedAt := saved_at;
     rc_Integrity := integrity_default saved_at |}.
Definition saved_manifest : SnapshotManifest :=
  {| sm_WorkflowID := rid "01"; sm_UserID := 7; sm_SourceNodeID := 1; sm_ActivityEpoch := 1; sm_FormatVersion := 1;
     sm_ManifestSHA256 := digest32; sm_ArchiveSHA256 := Some digest32; sm_FileCount := 1; sm_TotalBytes := 10;
     sm_State := "immutable"; sm_CreatedAt := saved_at |}.

Definition down (n : Node) : Node :=
  {| nd_Role := nd_Role n; nd_BaseURL := nd_BaseURL n; nd_Status := nd_Status n; nd_ConnectivityState := "offline";
     nd_OperationalState := nd_OperationalState n; nd_CompatibilityState := nd_CompatibilityState n;
     nd_ControllerGeneration := nd_ControllerGeneration n; nd_AgentVersion := nd_AgentVersion n;
     nd_TavernVersion := nd_TavernVersion n; nd_LastSeenAt := nd_LastSeenAt n; nd_Control := nd_Control n;
     nd_Capacity := nd_Capacity n |}.

(** Alice's home is node 1; [copies] are her other replicas, all of one snapshot. *)
Definition deployment (home : Node) (copies : list (Z * string)) : RDB :=
  let core := Build_DB (db_users demo_db) (db_legacy demo_db) {[ admin_id := {| ad_Username := "root"; ad_Status := "active" |} ]}
    (<[1 := home]> (<[2 := demo_node]> {[ 9 := storage_node ]})) (db_accounts demo_db) (db_epochs demo_db)
    ∅ ∅ ∅ ∅ ∅ ∅ ∅ ∅ ∅ ∅ ∅ [] in
  Build_RDB
    (Build_WDB core (<[2 := {| nt_TransferURL := "https://n2.example/t"; nt_IsBackupTarget := false |}]>
         {[ 9 := {| nt_TransferURL := "https://s.example/t"; nt_IsBackupTarget := true |} ]}) {[ 3 := 1 ]}
       ∅ ∅ {[ rid "02" := saved_manifest ]} ∅ ∅ ∅ 6
       (list_to_map (((3, 1), replica_at "home" "ready") :: map (fun x => ((3, x.1), replica_at x.2 "ready")) copies))
       (list_to_map (((7, 1), copy_at (rid "10") "active" None true)
          :: map (fun x => ((7, x.1), copy_at (rid (pretty (x.1 + 10))) x.2 (Some (rid "02")) false)) copies))
       ∅ ∅ ∅ ∅ ∅
       (<[(7, 1) := {| am_AccountVersion := 1; am_PasswordMaterialVersion := 1; am_PasswordHash := Some "h"%string; am_PasswordSalt := Some "s"%string;
             am_OAuthSubjects := []; am_ProvisioningWorkflowID := None; am_LocalUserID := Some "alice"%string; am_UpdatedAt := saved_at |}]>
         {[ (7, 2) := {| am_AccountVersion := 1; am_PasswordMaterialVersion := 1; am_PasswordHash := Some "h"%string; am_PasswordSalt := Some "s"%string;
             am_OAuthSubjects := []; am_ProvisioningWorkflowID := None; am_LocalUserID := Some "alice"%string; am_UpdatedAt := saved_at |} ]})
       [] ∅ ∅)
    ∅ ∅ ∅ 1 ∅ ∅ ∅ ∅ ∅ ∅ ∅.

(** The fault of the home, the freeze and the takeover by the standby. *)
Definition demo_report : ReportUserDataFaultParams :=
  {| rp_OperationID := rid "21"; rp_RequestDigest := digest32; rp_UserUUID := id_user; rp_ExpectedHomeNodeID := 1;
     rp_ReasonCode := hd ""%string userDataFaultReasonCodes; rp_AdminID := admin_id; rp_Now := store_now |}.
Definition demo_takeover : ConfirmReplicaTakeoverParams :=
  {| kp_OperationID := rid "22"; kp_RequestDigest := digest32; kp_GlobalUserID := 7; kp_TargetNodeID := 2;
     kp_ExpectedRecoveryAt := saved_at; kp_Now := store_now + Minute |}.

Definition reconcile (now : time) : recovery_event := RReconcile now (fun u => rid (pretty (u + 30))) (fun _ n => rid (pretty (n + 50))) now Hour.

Definition frozen_run : list recovery_event :=
  [reconcile store_now; RReport store_now (rid "23") (rid "24") demo_report id; reconcile (store_now + Second);
   RFreezeClaim store_now (rid "23") (rid "25") (rid "26") (store_now + Second) Minute;
   RFreeze store_now (rid "23") (rid "25") (rid "26") (store_now + 2 * Second) id].

Definition with_standby : RDB := deployment demo_node [(2, "hot_standby"%string); (9, "archive"%string)].
Definition only_home : RDB := deployment demo_node [].

(** The restore of the archive to node 2 while node 1 is down. *)
Definition demo_restore : CreateRestoreWorkflowParams :=
  {| cr_OpID := rid "31"; cr_RequestDigest := digest32; cr_WorkflowID := rid "32"; cr_RestoreSnapshotID := rid "33";
     cr_CapabilityID := rid "34"; cr_CapabilityHash := digest32; cr_GlobalUserID := 7; cr_TargetNodeID := 2;
     cr_ExpectedRecoveryAt := saved_at; cr_CapabilityExpires := store_now + Hour; cr_Now := store_now + Second |}.

Definition restore_run : list recovery_event :=
  [reconcile store_now; RCreate store_now demo_restore; RClaim (rid "32") (rid "35") (store_now + Second) Hour;
   RSnapshot (SStep store_now (rid "32") "prepare_target" (store_now + Second) id);
   RBegin store_now (rid "32") (store_now + Second)].

Definition come_back (d : DB) : DB :=
  let d := set_nodes (<[1 := demo_node]> (db_nodes d)) d in
  let d := (AcquireActivityLease 0 no_abort (lease_request id_op id_sid 1 4 (store_now + Minute)) d).2 in
  (EndActivityLease 0 7 1 id_sid 1 4 (store_now + 20 * Minute) d).2.

Definition arrived_run : list recovery_event :=
  [RSnapshot (SProgress store_now (rid "32") (rid "33") 2 "verifying" (store_now + 30 * Minute));
   RSnapshot (SProgress store_now (rid "32") (rid "33") 2 "publishing" (store_now + 31 * Minute))].

Definition demo_completion : CompleteRestoreWorkflowParams :=
  {| cm_WorkflowID := rid "32"; cm_RestoreSnapshotID := rid "33"; cm_CapabilityHash := digest32;
     cm_ManifestSHA256 := digest32; cm_ArchiveSHA256 := digest32; cm_FileCount := 1; cm_TotalBytes := 10;
     cm_Now := store_now + 32 * Minute |}.

Definition only_archive : RDB := deployment (down demo_node) [(9, "archive"%string)].

(** ** The theorems at work *)

Definition recovered_run : list recovery_event := frozen_run ++ [RTakeover store_now (rid "27") demo_takeover].

Lemma data_fault_refines_witness :
  fault_life (recovery_run with_standby recovered_run) (rid "23") = Some (FResolved LPending)
  /\ rtc fault_step (fault_life with_standby (rid "23")) (fault_life (recovery_run with_standby recovered_run) (rid "23")).
Proof.
  split; [vm_compute; reflexivity|].
  exact (proj1 (proj2 (data_fault_refines with_standby recovered_run ltac:(vm_compute; reflexivity))) (rid "23")).
Defined.

(** The archive of node 9 comes when the fault is frozen already. *)
Definition late_archive (w : WDB) : WDB :=
  put_replicas (<[(3, 9) := replica_at "archive" "ready"]> (wd_replicas w))
    (put_copies (<[(7, 9) := copy_at (rid "19") "archive" (Some (rid "02")) false]> (wd_copies w)) w).

Definition locked_out : RDB :=
  let d := recovery_run only_home frozen_run in set_rd_w (late_archive (rd_w d)) d.

(** The reconciliation offers the restore, and the store refuses it. *)
Lemma unrecoverable_fault_final_witness :
  let d' := recovery_run locked_out [reconcile (store_now + Hour)] in
  (pr_State <$> rd_protection d' !! 7) = Some "restore_required"%string
  /\ (CreateRestoreWorkflow store_now demo_restore d').2 = d'.
Proof.
  split; [vm_compute; reflexivity|].
  assert ((fun f => (fa_State f, fa_UserID f)) <$> rd_faults locked_out !! rid "23" = Some ("recovery_unavailable"%string, 7))
    as (f & Hl & Hf)%fmap_Some by (vm_compute; reflexivity). injection Hf as Hs Hu.
  destruct (unrecoverable_fault_final locked_out [reconcile (store_now + Hour)] (rid "23") f) as (_ & _ & Hc & _);
    [vm_compute; reflexivity | exact Hl | exact (eq_sym Hs) | exact (Hc store_now demo_restore Hu)].
Defined.

Lemma deployed_agree home copies : Forall (fun x => x.1 <> 1 /\ x.2 <> "home"%string) copies ->
  places_agree (rd_w (deployment home copies)).
Proof.
  intros Hc. split; cbn.
  - intros user legacy node c Hu Hl Ha. apply lookup_insert_Some in Hl as [[[= <- <-] <-]|[_ Hl]].
    + unfold legacy_ids in Hu. rewrite lookup_fmap in Hu. by injection Hu as <-.
    + apply elem_of_list_to_map_2, list_elem_of_fmap in Hl as ([n k] & [= -> -> ->] & _). discriminate Ha.
  - intros legacy node r Hl Hk. apply lookup_insert_Some in Hl as [[[= <- <-] <-]|[_ Hl]]; [done|].
    apply elem_of_list_to_map_2, list_elem_of_fmap in Hl as ([n k] & [= -> -> ->] & Hin).
    rewrite Forall_forall in Hc. by destruct (Hc _ Hin) as [_ []].
  - intros u u' l. unfold legacy_ids. rewrite !lookup_fmap.
    intros (g & [<- _]%lookup_singleton_Some & _)%fmap_Some (g' & [<- _]%lookup_singleton_Some & _)%fmap_Some. done.
Qed.

(** The home after the takeover is node 2, and the other places agree. *)
Lemma authority_follows_home_witness :
  wd_homes (rd_w (recovery_run with_standby recovered_run)) !! 3 = Some 2
  /\ places_agree (rd_w (recovery_run with_standby recovered_run))
  /\ one_authority (rd_w (recovery_run with_standby recovered_run)).
Proof.
  split; [vm_compute; reflexivity|]. apply (authority_follows_home with_standby recovered_run); [vm_compute; reflexivity|].
  apply deployed_agree. repeat constructor; done.
Defined.

(** The move of the takeover. *)
Lemma home_moves_safely_witness :
  exists user legacy old target now,
    moves_home (RTakeover store_now (rid "27") demo_takeover) (recovery_run with_standby frozen_run) user target now
    /\ home_move user legacy old target now (recovery_run with_standby frozen_run)
    (recovery_effect (RTakeover store_now (rid "27") demo_takeover) (recovery_run with_standby frozen_run)).
Proof.
  apply (home_moves_safely (RTakeover store_now (rid "27") demo_takeover) (recovery_run with_standby frozen_run));
    [vm_compute; reflexivity|].
  intros E. apply (f_equal (fun m => m !! 3)) in E. revert E. vm_compute. discriminate.
Defined.

Lemma failed_restore_stays_open_witness :
  let d := recovery_run only_archive restore_run in
  let '(r, d') := FailRestoreWorkflow 0 (rid "32") "capability_key_mismatch" "" store_now d in
  d' = d /\ (exists e, r = Fail e) /\ (CreateRestoreWorkflow store_now demo_restore d').2 = d'.
Proof.
  assert ((fun w => (wf_Type w, is_open w, wf_UserID w)) <$> wd_workflows (rd_w (recovery_run only_archive restore_run)) !! rid "32"
    = Some ("restore"%string, true, Some 7)) as (w & Hl & Hw)%fmap_Some by (vm_compute; reflexivity). injection Hw as Ht Ho Hu.
  pose proof (failed_restore_stays_open (H := demo_postgres) 0 (rid "32") (rid "32") "capability_key_mismatch" "" store_now
    (recovery_run only_archive restore_run) w ltac:(vm_compute; reflexivity) Hl (eq_sym Ht) (eq_sym Ho)) as Hf.
  cbv zeta. destruct (FailRestoreWorkflow _ _ _ _ _ _) as [r d']. destruct Hf as (Hd & He & Hc).
  split; [exact Hd|]. split; [exact He|]. exact (Hc 7 (eq_sym Hu) store_now demo_restore eq_refl).
Defined.

(** The run of a restore that replaces later work.  Node 1, the home of the user, is
    down and a restore to node 2 is created; node 1 comes back, the user is granted a
    lease there, works for twenty minutes and leaves; then the transfer arrives.  The
    completion succeeds: node 2, with the old snapshot, is the home, and the copy of
    node 1, which has the later work, is stale. *)
Example restore_discards_later_work :
  let d1 := recovery_run only_archive restore_run in
  let d2 := recovery_run d1 (RCore come_back :: arrived_run) in
  let '(r, d3) := CompleteRestoreWorkflow store_now (rid "36") demo_completion d2 in
  db_leases (core d1) !! 7 = None
  /\ (exists l, db_leases (core d2) !! 7 = Some l /\ ls_WriterNodeID l = 1 /\ ls_State l = "ended"%string
        /\ ls_ActivityEpoch l = 1 /\ ls_LeaseExpiresAt l = store_now + 20 * Minute)
  /\ cr_Now demo_restore < store_now + 20 * Minute
  /\ r = Ok tt /\ wd_homes (rd_w d3) !! 3 = Some 2
  /\ (exists c, wd_copies (rd_w d3) !! (7, 1) = Some c /\ rc_State c = "stale"%string /\ rc_IsAuthoritative c = false).
Proof.
  vm_compute. split; [reflexivity|]. split; [by eexists|]. split; [reflexivity|]. split; [reflexivity|]. split; [reflexivity|].
  by eexists.
Qed.

(** The database in which the transfer has arrived, and the lease of the user there. *)
Definition arrived : RDB := recovery_run (recovery_run only_archive restore_run) (RCore come_back :: arrived_run).

#[local] Notation never_came_back := (with_leases ∅ arrived).
#[local] Notation completed d := (CompleteRestoreWorkflow store_now (rid "36") demo_completion d).

Lemma restore_ignores_later_work_witness : exists l ls,
  db_leases (core arrived) !! 7 = Some l /\ ls_ActivityEpoch l = 1 /\ ls_WriterNodeID l = 1
  /\ cr_Now demo_restore < ls_LeaseExpiresAt l
  /\ completed (with_leases (<[7 := l]> (db_leases (core never_came_back))) never_came_back)
     = (Ok tt, with_leases ls (completed never_came_back).2)
  /\ wd_homes (rd_w (completed never_came_back).2) !! 3 = Some 2.
Proof.
  assert ((fun w => wf_UserID w) <$> wd_workflows (rd_w never_came_back) !! rid "32" = Some (Some 7)) as (w & Hw & Hu)%fmap_Some
    by (vm_compute; reflexivity).
  destruct (db_leases (core arrived) !! 7) as [l|] eqn:Hl; [|exfalso; revert Hl; vm_compute; discriminate].
  assert ((ls_ActivityEpoch l = 1 /\ ls_WriterNodeID l = 1) /\ cr_Now demo_restore < ls_LeaseExpiresAt l
    /\ user_writing (Some l) (now_or store_now (cm_Now demo_completion)) = false) as ((He & Hn) & Ht & Hi).
  { revert Hl. vm_compute. intros [= <-]. repeat split; reflexivity. }
  destruct (restore_ignores_later_work store_now (rid "36") demo_completion never_came_back (completed never_came_back).2
    (rid "32") w 7 l) as [ls Hls]; [|vm_compute; reflexivity | exact Hw | exact (eq_sym Hu) | exact Hi|].
  - refine (pair_fst _ _ _). vm_compute. reflexivity.
  - exists l, ls. split; [reflexivity|]. split; [exact He|]. split; [exact Hn|]. split; [exact Ht|]. split; [exact Hls|].
    vm_compute. reflexivity.
Defined.
