(* ===== verification/ReplicaCleanup.v ===== *)
(** * Replica cleanup

    src/internal/store/replica_cleanup.go: superseded archives and temporary standbys
    are deleted from their nodes.  A round of the Controller schedules tasks, claims
    them one at a time under a lease, sends the node a command that names the snapshot
    and the user, and settles the task with the answer; the worker is
    src/internal/controller/replica_cleanup.go.  The column updated_at of
    user_replicas, which a failed task writes and no statement reads, is left out.

    A statement that no other transaction delays sees the rows in the order of its
    ORDER BY; [locked] says which rows others hold, as for the adoption of workflows.
    The ids that the server makes up are the argument [newid], by user and node. *)

From Stdlib Require Import ZArith Lia Ascii String.
From stdpp Require Import base list gmap strings.
From S2P Require Import Prelude GoStrings AgentState Schema Leases WorkflowSchema SnapshotStore RecoverySchema.
From S2P Require Import DataFaults Protection RestoreStore.
#[local] Open Scope Z_scope.

Definition ErrInvalidReplicaCleanup : string := "invalid replica cleanup".
Definition ErrReplicaCleanupFence : string := "replica cleanup fence mismatch".

Definition ReplicaCleanupStabilityWindow : duration := 10 * Minute.
Definition ReplicaCleanupProjectionMaxAge : duration := 2 * Minute.

(** The task as the worker holds it. *)
Record ReplicaCleanupTask := {
  ck_ID : string;
  ck_ReplicaID : string;
  ck_GlobalUserID : Z;
  ck_LegacyUserID : Z;
  ck_NodeID : Z;
  ck_SnapshotID : string;
  ck_Handle : string;
  ck_ReplicaKind : string;
  ck_ReasonCode : string;
  ck_Attempt : Z;
  ck_OperationID : string;
  ck_ControllerGeneration : Z;
  ck_LeaseOwner : string
}.

(** ** One column at a time *)

Definition ct_set_State (x : string) (t : CleanupTask) : CleanupTask :=
  {| ct_ReplicaID := ct_ReplicaID t; ct_UserID := ct_UserID t; ct_LegacyUserID := ct_LegacyUserID t;
     ct_NodeID := ct_NodeID t; ct_SnapshotID := ct_SnapshotID t; ct_Handle := ct_Handle t;
     ct_ReplicaKind := ct_ReplicaKind t; ct_ReasonCode := ct_ReasonCode t; ct_State := x;
     ct_NextAttemptAt := ct_NextAttemptAt t; ct_LeaseOwner := ct_LeaseOwner t;
     ct_LeaseUntil := ct_LeaseUntil t; ct_ErrorCode := ct_ErrorCode t; ct_CreatedAt := ct_CreatedAt t;
     ct_UpdatedAt := ct_UpdatedAt t; ct_FinishedAt := ct_FinishedAt t; ct_Run := ct_Run t |}.
Definition ct_set_NextAttemptAt (x : time) (t : CleanupTask) : CleanupTask :=
  {| ct_ReplicaID := ct_ReplicaID t; ct_UserID := ct_UserID t; ct_LegacyUserID := ct_LegacyUserID t;
     ct_NodeID := ct_NodeID t; ct_SnapshotID := ct_SnapshotID t; ct_Handle := ct_Handle t;
     ct_ReplicaKind := ct_ReplicaKind t; ct_ReasonCode := ct_ReasonCode t; ct_State := ct_State t;
     ct_NextAttemptAt := x; ct_LeaseOwner := ct_LeaseOwner t; ct_LeaseUntil := ct_LeaseUntil t;
     ct_ErrorCode := ct_ErrorCode t; ct_CreatedAt := ct_CreatedAt t; ct_UpdatedAt := ct_UpdatedAt t;
     ct_FinishedAt := ct_FinishedAt t; ct_Run := ct_Run t |}.
Definition ct_set_LeaseOwner (x : option string) (t : CleanupTask) : CleanupTask :=
  {| ct_ReplicaID := ct_ReplicaID t; ct_UserID := ct_UserID t; ct_LegacyUserID := ct_LegacyUserID t;
     ct_NodeID := ct_NodeID t; ct_SnapshotID := ct_SnapshotID t; ct_Handle := ct_Handle t;
     ct_ReplicaKind := ct_ReplicaKind t; ct_ReasonCode := ct_ReasonCode t; ct_State := ct_State t;
     ct_NextAttemptAt := ct_NextAttemptAt t; ct_LeaseOwner := x; ct_LeaseUntil := ct_LeaseUntil t;
     ct_ErrorCode := ct_ErrorCode t; ct_CreatedAt := ct_CreatedAt t; ct_UpdatedAt := ct_UpdatedAt t;
     ct_FinishedAt := ct_FinishedAt t; ct_Run := ct_Run t |}.
Definition ct_set_LeaseUntil (x : option time) (t : CleanupTask) : CleanupTask :=
  {| ct_ReplicaID := ct_ReplicaID t; ct_UserID := ct_UserID t; ct_LegacyUserID := ct_LegacyUserID t;
     ct_NodeID := ct_NodeID t; ct_SnapshotID := ct_SnapshotID t; ct_Handle := ct_Handle t;
     ct_ReplicaKind := ct_ReplicaKind t; ct_ReasonCode := ct_ReasonCode t; ct_State := ct_State t;
     ct_NextAttemptAt := ct_NextAttemptAt t; ct_LeaseOwner := ct_LeaseOwner t; ct_LeaseUntil := x;
     ct_ErrorCode := ct_ErrorCode t; ct_CreatedAt := ct_CreatedAt t; ct_UpdatedAt := ct_UpdatedAt t;
     ct_FinishedAt := ct_FinishedAt t; ct_Run := ct_Run t |}.
Definition ct_set_ErrorCode (x : option string) (t : CleanupTask) : CleanupTask :=
  {| ct_ReplicaID := ct_ReplicaID t; ct_UserID := ct_UserID t; ct_LegacyUserID := ct_LegacyUserID t;
     ct_NodeID := ct_NodeID t; ct_SnapshotID := ct_SnapshotID t; ct_Handle := ct_Handle t;
     ct_ReplicaKind := ct_ReplicaKind t; ct_ReasonCode := ct_ReasonCode t; ct_State := ct_State t;
     ct_NextAttemptAt := ct_NextAttemptAt t; ct_LeaseOwner := ct_LeaseOwner t;
     ct_LeaseUntil := ct_LeaseUntil t; ct_ErrorCode := x; ct_CreatedAt := ct_CreatedAt t;
     ct_UpdatedAt := ct_UpdatedAt t; ct_FinishedAt := ct_FinishedAt t; ct_Run := ct_Run t |}.
Definition ct_set_UpdatedAt (x : time) (t : CleanupTask) : CleanupTask :=
  {| ct_ReplicaID := ct_ReplicaID t; ct_UserID := ct_UserID t; ct_LegacyUserID := ct_LegacyUserID t;
     ct_NodeID := ct_NodeID t; ct_SnapshotID := ct_SnapshotID t; ct_Handle := ct_Handle t;
     ct_ReplicaKind := ct_ReplicaKind t; ct_ReasonCode := ct_ReasonCode t; ct_State := ct_State t;
     ct_NextAttemptAt := ct_NextAttemptAt t; ct_LeaseOwner := ct_LeaseOwner t;
     ct_LeaseUntil := ct_LeaseUntil t; ct_ErrorCode := ct_ErrorCode t; ct_CreatedAt := ct_CreatedAt t;
     ct_UpdatedAt := x; ct_FinishedAt := ct_FinishedAt t; ct_Run := ct_Run t |}.
Definition ct_set_FinishedAt (x : option time) (t : CleanupTask) : CleanupTask :=
  {| ct_ReplicaID := ct_ReplicaID t; ct_UserID := ct_UserID t; ct_LegacyUserID := ct_LegacyUserID t;
     ct_NodeID := ct_NodeID t; ct_SnapshotID := ct_SnapshotID t; ct_Handle := ct_Handle t;
     ct_ReplicaKind := ct_ReplicaKind t; ct_ReasonCode := ct_ReasonCode t; ct_State := ct_State t;
     ct_NextAttemptAt := ct_NextAttemptAt t; ct_LeaseOwner := ct_LeaseOwner t;
     ct_LeaseUntil := ct_LeaseUntil t; ct_ErrorCode := ct_ErrorCode t; ct_CreatedAt := ct_CreatedAt t;
     ct_UpdatedAt := ct_UpdatedAt t; ct_FinishedAt := x; ct_Run := ct_Run t |}.
Definition ct_set_Run (x : CleanupProgress) (t : CleanupTask) : CleanupTask :=
  {| ct_ReplicaID := ct_ReplicaID t; ct_UserID := ct_UserID t; ct_LegacyUserID := ct_LegacyUserID t;
     ct_NodeID := ct_NodeID t; ct_SnapshotID := ct_SnapshotID t; ct_Handle := ct_Handle t;
     ct_ReplicaKind := ct_ReplicaKind t; ct_ReasonCode := ct_ReasonCode t; ct_State := ct_State t;
     ct_NextAttemptAt := ct_NextAttemptAt t; ct_LeaseOwner := ct_LeaseOwner t;
     ct_LeaseUntil := ct_LeaseUntil t; ct_ErrorCode := ct_ErrorCode t; ct_CreatedAt := ct_CreatedAt t;
     ct_UpdatedAt := ct_UpdatedAt t; ct_FinishedAt := ct_FinishedAt t; ct_Run := x |}.

(** ** What the statements ask *)

Definition state_in (states : list string) (t : CleanupTask) : bool := bool_decide (ct_State t ∈ states).
Definition waiting : CleanupTask -> bool := state_in ["pending"; "retry_wait"].
Definition running : CleanupTask -> bool := state_in ["running"].

(** [legacy.home_node_id<>node], which a null home does not satisfy. *)
Definition home_elsewhere (d : RDB) (legacy node : Z) : bool :=
  match db_legacy (core d) !! legacy, wd_homes (rd_w d) !! legacy with
  | Some _, Some h => negb (h =? node)
  | _, _ => false
  end.

(** The copy of a task is still the one it was made for, and not authoritative. *)
Definition scope_copy (d : RDB) (t : CleanupTask) : option ReplicaCopy :=
  c ← wd_copies (rd_w d) !! (ct_UserID t, ct_NodeID t);
  if String.eqb (rc_ID c) (ct_ReplicaID t) && bool_decide (rc_SnapshotID c = Some (ct_SnapshotID t))
     && String.eqb (rc_Kind c) (ct_ReplicaKind t) && negb (rc_IsAuthoritative c)
  then Some c else None.

Definition in_scope (d : RDB) (t : CleanupTask) : bool :=
  isSome (scope_copy d t) && home_elsewhere d (ct_LegacyUserID t) (ct_NodeID t).

(** A ready and verified archive of the user, of an immutable snapshot, on a healthy
    storage node. *)
Definition current_archive (d : RDB) (user : Z) (k : Z * Z) (c : ReplicaCopy) : bool :=
  (k.1 =? user) && String.eqb (rc_Kind c) "archive" && String.eqb (rc_State c) "ready"
  && String.eqb (ig_State (rc_Integrity c)) "verified" && healthy_at d "storage" k.2
  && match rc_SnapshotID c ≫= fun sid => wd_manifests (rd_w d) !! sid with
     | Some s => String.eqb (sm_State s) "immutable"
     | None => false
     end.

Definition archived_besides (d : RDB) (user : Z) (id : string) : bool :=
  negb (Nat.eqb (length (rows_where (fun k c => current_archive d user k c && negb (String.eqb (rc_ID c) id))
                           (wd_copies (rd_w d)))) 0).

(** The same, published long enough ago. *)
Definition archived_since (d : RDB) (user : Z) (stable : time) : bool :=
  negb (Nat.eqb (length (rows_where (fun k c => current_archive d user k c
                             && match rc_PublishedAt c with Some t => t <=? stable | None => false end)
                           (wd_copies (rd_w d)))) 0).

(** Nothing else is being done with the data of the user. *)
Definition undisturbed (d : RDB) (user : Z) : bool :=
  Nat.eqb (length (rows_where (fun _ w => bool_decide (wf_UserID w = Some user) && is_open w) (wd_workflows (rd_w d)))) 0
  && negb (has_open_conflict d user)
  && Nat.eqb (length (rows_where (fun _ f => (fa_UserID f =? user) && negb (is_resolved f)) (rd_faults d))) 0.

(** The projection says protected, has said so for the window and is fresh. *)
Definition protected_since (d : RDB) (user : Z) (stable fresh : time) : bool :=
  match rd_protection d !! user with
  | Some p => String.eqb (pr_State p) "protected" && (pr_ChangedAt p <=? stable) && (fresh <=? pr_EvaluatedAt p)
  | None => false
  end.

(** The home of the user is a healthy compute node with a ready replica. *)
Definition home_ready (d : RDB) (legacy : Z) : bool :=
  match wd_homes (rd_w d) !! legacy with
  | Some h => healthy_at d "compute" h
              && match wd_replicas (rd_w d) !! (legacy, h) with
                 | Some r => String.eqb (ur_Kind r) "home" && String.eqb (ur_State r) "ready"
                 | None => false
                 end
  | None => false
  end.

(** [ORDER BY ... LIMIT 1]. *)
Definition first_by {A} (before : A -> A -> bool) (l : list A) : option A :=
  foldr (fun x best => match best with
                       | Some y => if before x y then Some x else Some y
                       | None => Some x
                       end) None l.

Lemma first_by_in {A} (before : A -> A -> bool) l x : first_by before l = Some x -> x ∈ l.
Proof.
  revert x. induction l as [|y l IH]; intros x E; [done|]. change (first_by before (y :: l)) with
    (match first_by before l with Some z => if before y z then Some y else Some z | None => Some y end) in E.
  destruct (first_by before l) as [z|]; [destruct (before y z)|]; injection E as ->; [by left | right; by apply IH | by left].
Qed.

(** ** Scheduling *)

(** The rows of the two SELECTs, with the legacy id and the name of the user. *)
Definition superseded_archive (d : RDB) (k : Z * Z) (c : ReplicaCopy) : bool :=
  String.eqb (rc_Kind c) "archive" && String.eqb (rc_State c) "stale" && isSome (rc_SnapshotID c)
  && match joined_user d k.1 with Some (_, l, _) => home_elsewhere d l k.2 | None => false end
  && archived_besides d k.1 (rc_ID c) && undisturbed d k.1.

Definition unneeded_standby (d : RDB) (stable fresh : time) (k : Z * Z) (c : ReplicaCopy) : bool :=
  String.eqb (rc_Kind c) "hot_standby" && String.eqb (rc_State c) "ready" && isSome (rc_SnapshotID c)
  && negb (rc_IsAuthoritative c)
  && match joined_user d k.1 with Some (_, l, _) => home_elsewhere d l k.2 && home_ready d l | None => false end
  && protected_since d k.1 stable fresh && archived_since d k.1 stable && undisturbed d k.1.

(** The unique index of a task. *)
Definition task_key (node : Z) (sid kind : string) (t : CleanupTask) : bool :=
  (ct_NodeID t =? node) && String.eqb (ct_SnapshotID t) sid && String.eqb (ct_ReplicaKind t) kind.

Definition reopened (now : time) (t : CleanupTask) : CleanupTask :=
  let t := if state_in ["cancelled"; "failed"] t
           then ct_set_State "pending" (ct_set_NextAttemptAt now (ct_set_ErrorCode None t)) else t in
  ct_set_UpdatedAt now t.

(** [INSERT ... ON CONFLICT (node_id,snapshot_id,replica_kind) DO UPDATE] of one row. *)
Definition upsert_task (newid : Z * Z -> string) (kind reason : string) (now : time) (d : RDB)
  (x : (Z * Z) * ReplicaCopy) : RDB :=
  match rc_SnapshotID x.2, joined_user d x.1.1 with
  | Some sid, Some (_, legacy, us) =>
      let m := wd_cleanups (rd_w d) in
      let m := if Nat.eqb (length (rows_where (fun _ => task_key x.1.2 sid kind) m)) 0
               then <[newid x.1 :=
                 {| ct_ReplicaID := rc_ID x.2; ct_UserID := x.1.1; ct_LegacyUserID := legacy; ct_NodeID := x.1.2;
                    ct_SnapshotID := sid; ct_Handle := us_Username us; ct_ReplicaKind := kind; ct_ReasonCode := reason;
                    ct_State := "pending"; ct_NextAttemptAt := now; ct_LeaseOwner := None; ct_LeaseUntil := None;
                    ct_ErrorCode := None; ct_CreatedAt := now; ct_UpdatedAt := now; ct_FinishedAt := None;
                    ct_Run := new_run |}]> m
               else update_where (fun _ => task_key x.1.2 sid kind) (reopened now) m in
      set_rd_w (put_cleanups m (rd_w d)) d
  | _, _ => d
  end.

(** One of the two statements: new ids are new, and no task may be met twice. *)
Definition schedule_tasks (newid : Z * Z -> string) (kind reason : string) (now : time)
  (rows : RDB -> list ((Z * Z) * ReplicaCopy)) : RTx nat := fun d =>
  let l := rows d in
  if forallb (fun x => bool_decide (wd_cleanups (rd_w d) !! newid x.1 = None)) l
     && bool_decide (NoDup (map (fun x => newid x.1) l))
     && bool_decide (NoDup (map (fun x : (Z * Z) * ReplicaCopy => (x.1.2, rc_SnapshotID x.2)) l))
  then Ok (length l, foldl (upsert_task newid kind reason now) d l) else Fail sql_error.

(** Waiting tasks whose copy or home changed are cancelled. *)
Definition cancel_out_of_scope (now : time) : RTx unit := tx_write (fun d =>
  set_rd_w (put_cleanups (update_where (fun _ t => waiting t && negb (in_scope d t))
    (fun t => ct_set_State "cancelled" (ct_set_LeaseOwner None (ct_set_LeaseUntil None
       (ct_set_ErrorCode (Some "replica_scope_changed"%string) (ct_set_UpdatedAt now (ct_set_FinishedAt (Some now) t))))))
    (wd_cleanups (rd_w d))) (rd_w d)) d).

Section ReplicaCleanup.
Context `{Postgres}.

Definition ScheduleReplicaCleanupTasks (clock : time) (newid : Z * Z -> string) (now : time) (d : RDB)
  : result Z * RDB :=
  let now := now_or clock now in
  runTx (
    let! _ := cancel_out_of_scope (ts now) in
    let! archives := schedule_tasks newid "archive" "superseded_archive" (ts now)
                       (fun d => rows_where (superseded_archive d) (wd_copies (rd_w d))) in
    let! standbys := schedule_tasks newid "hot_standby" "stable_archive_available" (ts now)
                       (fun d => rows_where (unneeded_standby d (ts (now - ReplicaCleanupStabilityWindow))
                                   (ts (now - ReplicaCleanupProjectionMaxAge))) (wd_copies (rd_w d))) in
    tx_ret (Z.of_nat archives + Z.of_nat standbys)) d.

(** ** Claiming *)

(** The states from which a copy may be deleted. *)
Definition deletable (kind state : string) : bool :=
  bool_decide (state ∈ [if String.eqb kind "archive" then "stale" else "ready"; "deleting"]%string).

Definition claimable (d : RDB) (now : time) (t : CleanupTask) : bool :=
  let stable := ts (now - ReplicaCleanupStabilityWindow) in
  waiting t && (ct_NextAttemptAt t <=? ts now) && in_scope d t && undisturbed d (ct_UserID t)
  && isSome (wd_homes (rd_w d) !! ct_LegacyUserID t ≫= node_of (rd_w d))
  && match scope_copy d t, node_of (rd_w d) (ct_NodeID t) with
     | Some c, Some n =>
         reachable n && String.eqb (nd_OperationalState n) "active"
         && String.eqb (nc_ControlMode (nd_Control n)) "managed" && deletable (ct_ReplicaKind t) (rc_State c)
         && ((String.eqb (ct_ReplicaKind t) "archive" && String.eqb (nd_Role n) "storage"
              && archived_besides d (ct_UserID t) (rc_ID c))
             || (String.eqb (ct_ReplicaKind t) "hot_standby" && String.eqb (nd_Role n) "compute"
                 && home_ready d (ct_LegacyUserID t)
                 && protected_since d (ct_UserID t) stable (ts (now - ReplicaCleanupProjectionMaxAge))
                 && archived_since d (ct_UserID t) stable))
     | _, _ => false
     end.

(** The type of the column id: its text is canonical. *)
Definition is_uuid (id : string) : bool := bool_decide (uuid_in id = Some id).

(** [ORDER BY task.next_attempt_at,task.created_at,task.id]. *)
Definition task_before (x y : string * CleanupTask) : bool :=
  (ct_NextAttemptAt x.2 <? ct_NextAttemptAt y.2)
  || ((ct_NextAttemptAt x.2 =? ct_NextAttemptAt y.2)
      && ((ct_CreatedAt x.2 <? ct_CreatedAt y.2)
          || ((ct_CreatedAt x.2 =? ct_CreatedAt y.2) && negb (String.ltb y.1 x.1)))).

Definition first_task : list (string * CleanupTask) -> option (string * CleanupTask) := first_by task_before.

(** A task whose lease ran out waits again. *)
Definition expired (now : time) (t : CleanupTask) : bool :=
  running t && match ct_LeaseUntil t with Some u => u <=? now | None => false end.

Definition expire_leases (now : time) : RTx unit := in_w (tx_write (fun w =>
  put_cleanups (update_where (fun _ => expired now)
    (fun t => ct_set_State "retry_wait" (ct_set_LeaseOwner None (ct_set_LeaseUntil None
       (ct_set_ErrorCode (Some "lease_expired"%string) (ct_set_NextAttemptAt now (ct_set_UpdatedAt now
       (ct_set_Run {| pg_Attempt := pg_Attempt (ct_Run t); pg_OperationID := None; pg_ControllerGeneration := None;
                      pg_AgentOutcome := pg_AgentOutcome (ct_Run t) |} t)))))))
    (wd_cleanups w)) w)).

(** An UPDATE of the tasks, with the number of rows. *)
Definition update_tasks (p : string -> CleanupTask -> bool) (f : CleanupTask -> CleanupTask) : RTx nat := fun d =>
  let m := update_where p f (wd_cleanups (rd_w d)) in
  if Nat.eqb (length (rows_where (fun _ t => MaxInt32 <? pg_Attempt (ct_Run t)) m)) 0
  then Ok (length (rows_where p (wd_cleanups (rd_w d))), set_rd_w (put_cleanups m (rd_w d)) d) else Fail sql_error.

(** An UPDATE of the copies, with the number of rows. *)
Definition update_copies (p : Z * Z -> ReplicaCopy -> bool) (f : ReplicaCopy -> ReplicaCopy) : RTx nat := fun d =>
  match write_copies (update_where p f (wd_copies (rd_w d))) d with
  | Ok (_, d') => Ok (length (rows_where p (wd_copies (rd_w d))), d')
  | Fail e => Fail e
  end.

Definition copy_set_state (state : string) (now : time) (c : ReplicaCopy) : ReplicaCopy :=
  copy_set (rc_Kind c) state (rc_Origin c) (rc_IsAuthoritative c) now c.

(** The three UPDATEs of a claim. *)
Definition start_deletion (tid : string) (t : CleanupTask) (operationID leaseOwner : string) (generation : Z)
  (now : time) (ttl : duration) : RTx unit :=
  let! op := uuid_param operationID in
  let! n := update_tasks (fun id t => String.eqb id tid && waiting t)
    (fun t => ct_set_State "running" (ct_set_LeaseOwner (Some leaseOwner) (ct_set_LeaseUntil (Some (ts (now + ttl)))
       (ct_set_ErrorCode None (ct_set_UpdatedAt (ts now)
       (ct_set_Run {| pg_Attempt := pg_Attempt (ct_Run t) + 1; pg_OperationID := Some op;
                      pg_ControllerGeneration := Some generation; pg_AgentOutcome := pg_AgentOutcome (ct_Run t) |} t)))))) in
  let! _ := require (Nat.eqb n 1) ErrReplicaCleanupFence in
  let! n := update_copies (fun _ c => String.eqb (rc_ID c) (ct_ReplicaID t)
      && bool_decide (rc_SnapshotID c = Some (ct_SnapshotID t)) && String.eqb (rc_Kind c) (ct_ReplicaKind t)
      && negb (rc_IsAuthoritative c) && deletable (ct_ReplicaKind t) (rc_State c))
    (copy_set_state "deleting" (ts now)) in
  let! _ := require (Nat.eqb n 1) ErrReplicaCleanupFence in
  let! one := update_replica (ct_LegacyUserID t) (ct_NodeID t)
    (fun r => String.eqb (ur_Kind r) (ct_ReplicaKind t) && deletable (ct_ReplicaKind t) (ur_State r))
    (replica_set_state "deleting") in
  require one ErrReplicaCleanupFence.

Definition claimed_task (tid : string) (t : CleanupTask) (operationID leaseOwner : string) (generation : Z)
  : ReplicaCleanupTask :=
  {| ck_ID := tid; ck_ReplicaID := ct_ReplicaID t; ck_GlobalUserID := ct_UserID t; ck_LegacyUserID := ct_LegacyUserID t;
     ck_NodeID := ct_NodeID t; ck_SnapshotID := ct_SnapshotID t; ck_Handle := ct_Handle t;
     ck_ReplicaKind := ct_ReplicaKind t; ck_ReasonCode := ct_ReasonCode t; ck_Attempt := pg_Attempt (ct_Run t) + 1;
     ck_OperationID := operationID; ck_ControllerGeneration := generation; ck_LeaseOwner := leaseOwner |}.

Definition ClaimReplicaCleanupTask (locked : string -> bool) (operationID leaseOwner : string) (now : time)
  (ttl : duration) (d : RDB) : result (option ReplicaCleanupTask) * RDB :=
  if String.eqb operationID "" || String.eqb leaseOwner "" || is_zero now || (ttl <=? 0)
  then (Fail ErrInvalidReplicaCleanup, d)
  else runTx (
    let! _ := expire_leases (ts now) in
    let! generation := rselect (fun d => active_generation (core d)) ErrNoRows in
    let! first := tx_read (fun d => first_task (rows_where (fun id t => is_uuid id && negb (locked id) && claimable d now t)
                                                  (wd_cleanups (rd_w d)))) in
    match first with
    | None => tx_ret None
    | Some (tid, t) =>
        let! _ := rselect (fun d => db_users (core d) !! ct_UserID t) ErrGlobalUserNotFound in
        let! _ := start_deletion tid t operationID leaseOwner generation now ttl in
        tx_ret (Some (claimed_task tid t operationID leaseOwner generation))
    end) d.

(** ** Settling *)

(** [WHERE id=$1 AND operation_id=$2 AND controller_generation=$3 AND lease_owner=...
    AND state='running']. *)
Definition held_task (task : ReplicaCleanupTask) (tid op : string) (id : string) (t : CleanupTask) : bool :=
  String.eqb id tid && bool_decide (pg_OperationID (ct_Run t) = Some op)
  && bool_decide (pg_ControllerGeneration (ct_Run t) = Some (ck_ControllerGeneration task))
  && bool_decide (ct_LeaseOwner t = Some (ck_LeaseOwner task)) && running t.

Definition finish_task (state : string) (code : option string) (outcome : option string) (now : time) (t : CleanupTask)
  : CleanupTask :=
  ct_set_State state (ct_set_ErrorCode code (ct_set_LeaseOwner None (ct_set_LeaseUntil None (ct_set_UpdatedAt now
    (ct_set_FinishedAt (Some now)
    (ct_set_Run {| pg_Attempt := pg_Attempt (ct_Run t); pg_OperationID := pg_OperationID (ct_Run t);
                   pg_ControllerGeneration := pg_ControllerGeneration (ct_Run t); pg_AgentOutcome := outcome |} t)))))).

(** [DELETE FROM replica_copies]: the copy of the task, unless its node is the home of
    the user by now. *)
Definition deleted_copy (task : ReplicaCleanupTask) (replica sid : string) (d : RDB) (k : Z * Z) (c : ReplicaCopy) : bool :=
  String.eqb (rc_ID c) replica && bool_decide (k = (ck_GlobalUserID task, ck_NodeID task))
  && bool_decide (rc_SnapshotID c = Some sid) && String.eqb (rc_Kind c) (ck_ReplicaKind task)
  && String.eqb (rc_State c) "deleting" && negb (rc_IsAuthoritative c)
  && negb match joined_user d k.1 with
          | Some (_, l, _) => bool_decide (wd_homes (rd_w d) !! l = Some k.2)
          | None => false
          end.

Definition delete_copy (task : ReplicaCleanupTask) (replica sid : string) : RTx bool := fun d =>
  let k := (ck_GlobalUserID task, ck_NodeID task) in
  match wd_copies (rd_w d) !! k with
  | Some c => if deleted_copy task replica sid d k c
              then Ok (true, set_rd_w (put_copies (delete k (wd_copies (rd_w d))) (rd_w d)) d) else Ok (false, d)
  | None => Ok (false, d)
  end.

(** The replica row of the copy goes with it. *)
Definition delete_replica (task : ReplicaCleanupTask) : RTx unit := tx_write (fun d =>
  let k := (ck_LegacyUserID task, ck_NodeID task) in
  match wd_replicas (rd_w d) !! k with
  | Some r => if String.eqb (ur_Kind r) (ck_ReplicaKind task) && String.eqb (ur_State r) "deleting"
                 && home_elsewhere d (ck_LegacyUserID task) (ck_NodeID task)
              then set_rd_w (put_replicas (delete k (wd_replicas (rd_w d))) (rd_w d)) d else d
  | None => d
  end).

(** A snapshot without copies, which no open conflict shows, is deleted. *)
Definition unused_snapshot (d : RDB) (sid : string) : bool :=
  Nat.eqb (length (rows_where (fun _ c => bool_decide (rc_SnapshotID c = Some sid)) (wd_copies (rd_w d)))) 0
  && Nat.eqb (length (rows_where (fun k s => bool_decide (so_SnapshotID s = Some sid)
       && match rd_conflicts d !! k.1 with Some c => conflict_open c | None => false end) (rd_sources d))) 0.

Definition delete_snapshot (sid : string) : RTx unit := tx_write (fun d =>
  set_rd_w (put_manifests (update_where (fun id s => String.eqb id sid && String.eqb (sm_State s) "immutable"
                                           && unused_snapshot d sid)
    (fun s => {| sm_WorkflowID := sm_WorkflowID s; sm_UserID := sm_UserID s; sm_SourceNodeID := sm_SourceNodeID s;
       sm_ActivityEpoch := sm_ActivityEpoch s; sm_FormatVersion := sm_FormatVersion s;
       sm_ManifestSHA256 := sm_ManifestSHA256 s; sm_ArchiveSHA256 := sm_ArchiveSHA256 s; sm_FileCount := sm_FileCount s;
       sm_TotalBytes := sm_TotalBytes s; sm_State := "deleted"; sm_CreatedAt := sm_CreatedAt s |})
    (wd_manifests (rd_w d))) (rd_w d)) d).

Definition cleanup_audit (task : ReplicaCleanupTask) (op outcome : string) (detail : string * string) (n : nat) : RTx unit :=
  insert_audit (typed n) "delete-snapshot-replica" (ck_GlobalUserID task) op (ck_ControllerGeneration task)
    [("outcome", DText outcome); ("cleanup_id", DText (ck_ID task)); ("node_id", DInt (ck_NodeID task));
     ("snapshot_id", DText (ck_SnapshotID task)); ("replica_kind", DText (ck_ReplicaKind task));
     ("reason_code", DText (ck_ReasonCode task)); (detail.1, DText detail.2)]%string.

Definition cleanup_outcomes : list string := ["deleted"; "already_absent"; "superseded"].

(** The rows go, and the task ends; a task whose copy is no longer the one to delete
    is cancelled. *)
Definition delete_rows (task : ReplicaCleanupTask) (tid outcome : string) (now : time) : RTx unit :=
  let! replica := uuid_param (ck_ReplicaID task) in
  let! sid := uuid_param (ck_SnapshotID task) in
  let! one := delete_copy task replica sid in
  let! _ := (if one then let! _ := delete_replica task in delete_snapshot sid else tx_ret tt) in
  let final := if one then "succeeded"%string else "cancelled"%string in
  let! op := uuid_param (ck_OperationID task) in
  let! n := update_tasks (held_task task tid op)
    (finish_task final (if one then None else Some "replica_scope_changed"%string) (Some outcome) (ts now)) in
  let! _ := require (Nat.eqb n 1) ErrReplicaCleanupFence in
  cleanup_audit task op final ("agent_outcome"%string, outcome) 11.

Definition CompleteReplicaCleanupTask (task : ReplicaCleanupTask) (agentOutcome : string) (now : time) (d : RDB)
  : result unit * RDB :=
  if String.eqb (ck_ID task) "" || String.eqb (ck_OperationID task) "" || String.eqb (ck_LeaseOwner task) ""
     || String.eqb (ck_SnapshotID task) "" || negb (bool_decide (agentOutcome ∈ cleanup_outcomes)) || is_zero now
  then (Fail ErrInvalidReplicaCleanup, d)
  else runTx (
    let! generation := rselect (fun d => active_generation (core d)) ErrNoRows in
    let! _ := require (generation =? ck_ControllerGeneration task) ErrReplicaCleanupFence in
    let! tid := uuid_param (ck_ID task) in
    let! t := rselect (fun d => wd_cleanups (rd_w d) !! tid) ErrNoRows in
    let! g := tx_lift (match pg_ControllerGeneration (ct_Run t) with Some g => Ok g | None => Fail sql_error end) in
    let mine := bool_decide (pg_OperationID (ct_Run t) = Some (ck_OperationID task)) && (g =? ck_ControllerGeneration task) in
    if state_in ["succeeded"] t && mine then tx_ret tt
    else
      let! _ := require (running t && mine && bool_decide (ct_LeaseOwner t = Some (ck_LeaseOwner task)))
                  ErrReplicaCleanupFence in
      delete_rows task tid agentOutcome now) d.

Definition RetryReplicaCleanupTask (task : ReplicaCleanupTask) (errorCode : string) (now : time) (delay : duration)
  (d : RDB) : result unit * RDB :=
  if String.eqb (ck_ID task) "" || String.eqb (ck_OperationID task) "" || String.eqb (ck_LeaseOwner task) ""
     || String.eqb errorCode "" || is_zero now || (delay <=? 0)
  then (Fail ErrInvalidReplicaCleanup, d)
  else runTx (
    let! tid := uuid_param (ck_ID task) in
    let! op := uuid_param (ck_OperationID task) in
    let! n := update_tasks (held_task task tid op)
      (fun t => ct_set_State "retry_wait" (ct_set_NextAttemptAt (ts (now + delay)) (ct_set_ErrorCode (Some errorCode)
         (ct_set_LeaseOwner None (ct_set_LeaseUntil None (ct_set_UpdatedAt (ts now) t)))))) in
    require (Nat.eqb n 1) (ErrReplicaCleanupFence ++ ": retry")) d.

(** The state a copy had before its deletion started. *)
Definition kept_state (kind : string) : string := if String.eqb kind "archive" then "stale" else "ready".

Definition FailReplicaCleanupTask (task : ReplicaCleanupTask) (errorCode : string) (now : time) (d : RDB)
  : result unit * RDB :=
  if String.eqb (ck_ID task) "" || String.eqb (ck_OperationID task) "" || String.eqb (ck_LeaseOwner task) ""
     || String.eqb errorCode "" || is_zero now
  then (Fail ErrInvalidReplicaCleanup, d)
  else runTx (
    let! tid := uuid_param (ck_ID task) in
    let! op := uuid_param (ck_OperationID task) in
    let! n := update_tasks (held_task task tid op)
      (fun t => finish_task "failed" (Some errorCode) (pg_AgentOutcome (ct_Run t)) (ts now) t) in
    let! _ := require (Nat.eqb n 1) (ErrReplicaCleanupFence ++ ": fail") in
    let! replica := uuid_param (ck_ReplicaID task) in
    let! _ := update_copies (fun _ c => String.eqb (rc_ID c) replica && String.eqb (rc_State c) "deleting"
                               && negb (rc_IsAuthoritative c))
                (fun c => copy_set_state (kept_state (rc_Kind c)) (ts now) c) in
    let! _ := update_replica (ck_LegacyUserID task) (ck_NodeID task)
                (fun r => String.eqb (ur_Kind r) (ck_ReplicaKind task) && String.eqb (ur_State r) "deleting")
                (fun r => replica_set_state (kept_state (ur_Kind r)) r) in
    cleanup_audit task op "failed" ("error_code"%string, errorCode) 10) d.

(** ** The worker *)

Record DeleteReplicaReceipt := {
  dl_CleanupID : string;
  dl_SnapshotID : string;
  dl_GlobalUserID : Z;
  dl_Handle : string;
  dl_ReplicaKind : string;
  dl_TargetNodeID : Z;
  dl_Outcome : string
}.

Definition matchingReplicaCleanupReceipt (receipt : option DeleteReplicaReceipt) (task : ReplicaCleanupTask) : bool :=
  match receipt with
  | None => false
  | Some r =>
      String.eqb (dl_CleanupID r) (ck_ID task) && String.eqb (dl_SnapshotID r) (ck_SnapshotID task)
      && (dl_GlobalUserID r =? ck_GlobalUserID task) && String.eqb (dl_Handle r) (ck_Handle task)
      && String.eqb (dl_ReplicaKind r) (ck_ReplicaKind task) && (dl_TargetNodeID r =? ck_NodeID task)
      && bool_decide (dl_Outcome r ∈ cleanup_outcomes)
  end.

Definition safeReplicaCleanupFailureCode (code : string) : string :=
  if bool_decide (code ∈ ["invalid_command_payload"; "replica_cleanup_failed"; "replica_identity_unavailable"]%string)
  then code else "agent_command_unavailable".

(** [for current := 1; current < attempt && delay < 6*time.Hour; current++]: the fuel
    bounds the number of doublings, of which nine reach the limit. *)
Fixpoint delay_doubled (fuel : nat) (current attempt : Z) (delay : duration) : duration :=
  match fuel with
  | O => delay
  | S fuel => if (current <? attempt) && (delay <? 6 * Hour)
              then delay_doubled fuel (current + 1) attempt (delay * 2) else delay
  end.

Definition replicaCleanupRetryDelay (attempt : Z) : duration :=
  let delay := delay_doubled 16 1 attempt Minute in
  if 6 * Hour <? delay then 6 * Hour else delay.

(** The answer of the node: a receipt, none, or the code of an error. *)
Inductive cleanup_reply := CleanupReceipt (r : option DeleteReplicaReceipt) | CleanupError (code : string).

(** The node can be asked. *)
Definition cleanup_node_ready (task : ReplicaCleanupTask) (d : RDB) : bool :=
  match node_of (rd_w d) (ck_NodeID task) with
  | Some n => reachable n && String.eqb (nd_OperationalState n) "active" && managed n
              && negb (String.eqb (ck_ReplicaKind task) "archive" && negb (String.eqb (nd_Role n) "storage"))
              && negb (String.eqb (ck_ReplicaKind task) "hot_standby" && negb (String.eqb (nd_Role n) "compute"))
  | None => false
  end.

Definition retryReplicaCleanupTask (task : ReplicaCleanupTask) (code : string) (now : time) (d : RDB) : RDB :=
  (RetryReplicaCleanupTask task code now (replicaCleanupRetryDelay (ck_Attempt task)) d).2.

(** What the worker does with the answer. *)
Definition settle_cleanup (task : ReplicaCleanupTask) (reply : cleanup_reply) (now : time) (d : RDB) : RDB :=
  match reply with
  | CleanupError code =>
      let code := safeReplicaCleanupFailureCode code in
      if String.eqb code "replica_identity_unavailable" then (FailReplicaCleanupTask task code now d).2
      else retryReplicaCleanupTask task code now d
  | CleanupReceipt r =>
      if matchingReplicaCleanupReceipt r task
      then match r with Some r => (CompleteReplicaCleanupTask task (dl_Outcome r) now d).2 | None => d end
      else retryReplicaCleanupTask task "receipt_mismatch" now d
  end.

(** [executeReplicaCleanupTask]: the node is not ready and the task is put back, or the
    command is sent; other transactions run until it is answered. *)
Definition executeReplicaCleanupTask (task : ReplicaCleanupTask) (reply : cleanup_reply) (now later : time)
  (meanwhile : RDB -> RDB) (d : RDB) : RDB :=
  if cleanup_node_ready task d then settle_cleanup task reply later (meanwhile d)
  else retryReplicaCleanupTask task "node_unavailable" now d.

End ReplicaCleanup.

(** ** The delay of a retry *)

Lemma capped_power base k : 6 * Hour <= base -> 0 <= k -> Z.min (6 * Hour) (base * 2 ^ k) = 6 * Hour.
Proof. intros Hb Hk. assert (1 <= 2 ^ k) by (pose proof (Z.pow_pos_nonneg 2 k); lia).
  assert (0 < 6 * Hour) by reflexivity. nia. Qed.

(** With enough fuel the loop doubles once per earlier attempt, up to the limit. *)
Lemma delay_doubled_closed fuel : forall current attempt base,
  0 < base -> 6 * Hour <= base * 2 ^ Z.of_nat fuel ->
  Z.min (6 * Hour) (delay_doubled fuel current attempt base) = Z.min (6 * Hour) (base * 2 ^ Z.max 0 (attempt - current)).
Proof.
  induction fuel as [|fuel IH]; intros current attempt base Hb Hf.
  { rewrite Z.pow_0_r, Z.mul_1_r in Hf. rewrite capped_power by lia. cbn. lia. }
  cbn [delay_doubled]. destruct ((current <? attempt) && (base <? 6 * Hour)) eqn:Hg.
  - b2p. rewrite Nat2Z.inj_succ, Z.pow_succ_r in Hf by lia. rewrite IH by lia.
    replace (Z.max 0 (attempt - current)) with (Z.succ (Z.max 0 (attempt - (current + 1)))) by lia.
    rewrite Z.pow_succ_r by lia. f_equal. lia.
  - apply andb_false_iff in Hg as [Hg|Hg]; b2p.
    + replace (Z.max 0 (attempt - current)) with 0 by lia. by rewrite Z.pow_0_r, Z.mul_1_r.
    + rewrite capped_power by lia. lia.
Qed.
