(* ===== verification/ReplicaIntegrity.v ===== *)
(** * Replica integrity

    src/internal/store/replica_integrity.go and the worker of
    src/internal/controller/replica_integrity.go: the archives on the storage nodes
    are read again, lightly every day and fully every thirty days.  A check is claimed
    under a lease in the integrity columns of the copy itself and settled with the
    answer of the node: the copy is verified, a light anomaly is checked fully, and a
    full mismatch makes the copy corrupt and raises an alert.

    [locked] are the rows other transactions hold, as in ReplicaCleanup.v. *)

From Stdlib Require Import ZArith Lia Ascii String.
From stdpp Require Import base list gmap strings.
From S2P Require Import Prelude GoStrings AgentState Schema Leases WorkflowSchema SnapshotStore RecoverySchema.
From S2P Require Import DataFaults Protection RestoreStore ReplicaCleanup.
#[local] Open Scope Z_scope.

Definition ErrInvalidReplicaIntegrity : string := "invalid replica integrity input".
Definition ErrReplicaIntegrityState : string := "replica integrity state conflict".

Record ReplicaIntegrityTask := {
  ik_ReplicaID : string;
  ik_OperationID : string;
  ik_GlobalUserID : Z;
  ik_LegacyUserID : Z;
  ik_NodeID : Z;
  ik_SnapshotID : string;
  ik_Handle : string;
  ik_ManifestSHA256 : string;
  ik_ArchiveSHA256 : string;
  ik_FileCount : Z;
  ik_TotalBytes : Z;
  ik_CheckKind : string;
  ik_Attempt : Z;
  ik_ControllerGeneration : Z
}.

Record CompleteReplicaIntegrityParams := {
  ci_ReplicaID : string;
  ci_OperationID : string;
  ci_SnapshotID : string;
  ci_ManifestSHA256 : string;
  ci_ArchiveSHA256 : string;
  ci_FileCount : Z;
  ci_TotalBytes : Z;
  ci_CheckKind : string;
  ci_Now : time;
  ci_NextCheckAfter : duration;
  ci_NextDeepAfter : duration
}.

(** [UPDATE replica_copies SET state, verified_at, updated_at] and integrity columns. *)
Definition copy_checked (state : string) (verified : option time) (i : Integrity) (now : time) (c : ReplicaCopy) : ReplicaCopy :=
  {| rc_ID := rc_ID c; rc_SnapshotID := rc_SnapshotID c; rc_Kind := rc_Kind c; rc_State := state;
     rc_Origin := rc_Origin c; rc_IsAuthoritative := rc_IsAuthoritative c;
     rc_CompatibilityState := rc_CompatibilityState c; rc_PublishedAt := rc_PublishedAt c; rc_VerifiedAt := verified;
     rc_CreatedAt := rc_CreatedAt c; rc_UpdatedAt := now; rc_Integrity := i |}.

Definition due (o : option time) (now : time) : bool := match o with Some t => t <=? now | None => false end.

(** The manifest a copy was published from, if it belongs to the user, can no longer
    change and has the digest of its archive. *)
Definition checkable_manifest (d : RDB) (user : Z) (c : ReplicaCopy) : option SnapshotManifest :=
  sid ← rc_SnapshotID c; s ← immutable_of d user sid; if isSome (sm_ArchiveSHA256 s) then Some s else None.

(** A check of the copy may start. *)
Definition check_due (d : RDB) (now : time) (k : Z * Z) (c : ReplicaCopy) : bool :=
  let i := rc_Integrity c in
  String.eqb (rc_Kind c) "archive" && String.eqb (rc_State c) "ready" && String.eqb (rc_CompatibilityState c) "compatible"
  && match node_of (rd_w d) k.2 with
     | Some n => reachable n && String.eqb (nd_OperationalState n) "active"
     | None => false
     end
  && isSome (checkable_manifest d k.1 c) && (ig_NextCheckAt i <=? now)
  && (bool_decide (ig_State i ∈ ["due"; "verified"; "retry_wait"]%string)
      || (String.eqb (ig_State i) "checking" && due (ig_LeaseUntil i) now)).

(** [ORDER BY copy.integrity_next_check_at,copy.id]. *)
Definition check_before (x y : (Z * Z) * ReplicaCopy) : bool :=
  let tx := ig_NextCheckAt (rc_Integrity x.2) in let ty := ig_NextCheckAt (rc_Integrity y.2) in
  (tx <? ty) || ((tx =? ty) && negb (String.ltb (rc_ID y.2) (rc_ID x.2))).

Definition first_check : list ((Z * Z) * ReplicaCopy) -> option ((Z * Z) * ReplicaCopy) := first_by check_before.

Definition checking (op : string) (generation : Z) (now : time) (ttl_end : time) (c : ReplicaCopy) : ReplicaCopy :=
  let i := rc_Integrity c in
  copy_checked (rc_State c) (rc_VerifiedAt c)
    {| ig_State := "checking"; ig_CheckKind := if due (ig_DeepCheckAt i) now then "deep" else "light";
       ig_OperationID := Some op; ig_ControllerGeneration := Some generation; ig_LeaseUntil := Some ttl_end;
       ig_Attempt := ig_Attempt i + 1; ig_CheckedAt := ig_CheckedAt i; ig_LastLightAt := ig_LastLightAt i;
       ig_LastDeepAt := ig_LastDeepAt i; ig_NextCheckAt := ig_NextCheckAt i; ig_DeepCheckAt := ig_DeepCheckAt i;
       ig_ErrorCode := None |} now c.

(** The last SELECT of the claim: the task, when the user still joins. *)
Definition integrity_task (d : RDB) (operationID : string) (k : Z * Z) (c : ReplicaCopy) (generation : Z)
  : option ReplicaIntegrityTask :=
  x ← joined_user d k.1; sid ← rc_SnapshotID c; s ← wd_manifests (rd_w d) !! sid; a ← sm_ArchiveSHA256 s;
  Some {| ik_ReplicaID := rc_ID c; ik_OperationID := operationID; ik_GlobalUserID := k.1; ik_LegacyUserID := x.1.2;
          ik_NodeID := k.2; ik_SnapshotID := sid; ik_Handle := us_Username x.2;
          ik_ManifestSHA256 := sm_ManifestSHA256 s; ik_ArchiveSHA256 := a; ik_FileCount := sm_FileCount s;
          ik_TotalBytes := sm_TotalBytes s; ik_CheckKind := ig_CheckKind (rc_Integrity c);
          ik_Attempt := ig_Attempt (rc_Integrity c); ik_ControllerGeneration := generation |}.

(** The conditions every answer has in common: the check is the one that is running,
    under the active Controller. *)
Definition checked_by (replica op : string) (now : time) (d : RDB) (c : ReplicaCopy) : bool :=
  let i := rc_Integrity c in
  String.eqb (rc_ID c) replica && bool_decide (ig_OperationID i = Some op) && String.eqb (ig_State i) "checking"
  && match ig_LeaseUntil i with Some t => now <? t | None => false end
  && match ig_ControllerGeneration i with Some g => generation_active g (rd_w d) | None => false end.

Definition corrupt_alert (replicaID : string) : string := "replica-integrity:" +:+ replicaID.

(** [INSERT INTO alerts ... ON CONFLICT (deduplication_key) DO UPDATE]. *)
Definition raise_integrity_alert (replicaID : string) (user node : Z) (now : time) : RTx unit := tx_write (fun d =>
  let key := corrupt_alert replicaID in
  let facts := match rd_alerts d !! key with
    | Some a => {| af_Severity := "critical"; af_Category := af_Category a; af_UserID := af_UserID a;
                   af_NodeID := af_NodeID a; af_Summary := af_Summary a; af_FirstSeenAt := af_FirstSeenAt a;
                   af_NotifyAfter := Some now; af_OccurrenceCount := af_OccurrenceCount a + 1 |}
    | None => {| af_Severity := "critical"; af_Category := "replica_integrity"; af_UserID := Some user;
                 af_NodeID := Some node; af_Summary := "用户存储副本完整性校验失败"; af_FirstSeenAt := now;
                 af_NotifyAfter := Some now; af_OccurrenceCount := 1 |}
    end in
  set_rd_alerts (<[key := facts]> (rd_alerts d))
    (set_rd_w (put_alerts (<[key := {| at_State := "open"; at_ResolvedAt := None; at_LastSeenAt := now |}]>
       (wd_alerts (rd_w d))) (rd_w d)) d)).

Section ReplicaIntegrity.
Context `{Postgres}.

Definition ClaimReplicaIntegrityTask (clock : time) (locked : string -> bool) (operationID : string) (now : time)
  (leaseTTL : duration) (d : RDB) : result (option ReplicaIntegrityTask) * RDB :=
  if negb (slen operationID =? 36) || (leaseTTL <=? 0) then (Fail ErrInvalidReplicaIntegrity, d)
  else
    let now := now_or clock now in
    runTx (
      let! op := uuid_param operationID in
      let! first := tx_read (fun d => first_check (rows_where (fun k c => negb (locked (rc_ID c)) && check_due d (ts now) k c)
                                                     (wd_copies (rd_w d)))) in
      let! active := tx_read (fun d => active_generation (core d)) in
      match first, active with
      | Some (k, c), Some g =>
          let c' := checking op g (ts now) (ts (now + leaseTTL)) c in
          let! _ := require (ig_Attempt (rc_Integrity c') <=? MaxInt32) sql_error in
          let! _ := (fun d => write_copies (<[k := c']> (wd_copies (rd_w d))) d) in
          tx_read (fun d => integrity_task d operationID k c' g)
      | _, _ => tx_ret None
      end) d.

Definition complete_integrity_valid (p : CompleteReplicaIntegrityParams) : bool :=
  (slen (ci_ReplicaID p) =? 36) && (slen (ci_OperationID p) =? 36) && (slen (ci_SnapshotID p) =? 36)
  && (slen (ci_ManifestSHA256 p) =? 32) && (slen (ci_ArchiveSHA256 p) =? 32) && (0 <=? ci_FileCount p)
  && (0 <=? ci_TotalBytes p) && bool_decide (ci_CheckKind p ∈ ["light"; "deep"]%string)
  && (0 <? ci_NextCheckAfter p) && (0 <? ci_NextDeepAfter p).

(** The manifest says what the node found. *)
Definition manifest_confirmed (p : CompleteReplicaIntegrityParams) (sid : string) (d : RDB) : bool :=
  match wd_manifests (rd_w d) !! sid with
  | Some s => String.eqb (sm_State s) "immutable" && String.eqb (sm_ManifestSHA256 s) (ci_ManifestSHA256 p)
              && bool_decide (sm_ArchiveSHA256 s = Some (ci_ArchiveSHA256 p)) && (sm_FileCount s =? ci_FileCount p)
              && (sm_TotalBytes s =? ci_TotalBytes p)
  | None => false
  end.

Definition CompleteReplicaIntegrityTask (clock : time) (p : CompleteReplicaIntegrityParams) (d : RDB) : result unit * RDB :=
  if negb (complete_integrity_valid p) then (Fail ErrInvalidReplicaIntegrity, d)
  else
    let now := now_or clock (ci_Now p) in
    let deep := String.eqb (ci_CheckKind p) "deep" in
    runTx (
      let! replica := uuid_param (ci_ReplicaID p) in
      let! op := uuid_param (ci_OperationID p) in
      let! sid := uuid_param (ci_SnapshotID p) in
      let! ok := tx_read (manifest_confirmed p sid) in
      let! n := (fun d => update_copies (fun _ c => checked_by replica op (ts now) d c
            && String.eqb (ig_CheckKind (rc_Integrity c)) (ci_CheckKind p) && bool_decide (rc_SnapshotID c = Some sid)
            && ok && String.eqb (rc_State c) "ready")
          (fun c => let i := rc_Integrity c in
            copy_checked (rc_State c) (Some (ts now))
             {| ig_State := "verified"; ig_CheckKind := ig_CheckKind i; ig_OperationID := ig_OperationID i;
                ig_ControllerGeneration := ig_ControllerGeneration i; ig_LeaseUntil := None; ig_Attempt := ig_Attempt i;
                ig_CheckedAt := Some (ts now); ig_LastLightAt := Some (ts now);
                ig_LastDeepAt := if deep then Some (ts now) else ig_LastDeepAt i;
                ig_NextCheckAt := ts (now + ci_NextCheckAfter p);
                ig_DeepCheckAt := if deep then Some (ts (now + ci_NextDeepAfter p)) else ig_DeepCheckAt i;
                ig_ErrorCode := None |} (ts now) c) d) in
      require (Nat.eqb n 1) ErrReplicaIntegrityState) d.

Definition EscalateReplicaIntegrityTask (clock : time) (replicaID operationID errorCode : string) (now : time) (d : RDB)
  : result unit * RDB :=
  if negb (slen replicaID =? 36) || negb (slen operationID =? 36) || negb (ValidMachineReasonCode errorCode)
  then (Fail ErrInvalidReplicaIntegrity, d)
  else
    let now := now_or clock now in
    runTx (
      let! replica := uuid_param replicaID in
      let! op := uuid_param operationID in
      let! n := (fun d => update_copies (fun _ c => checked_by replica op (ts now) d c
            && String.eqb (ig_CheckKind (rc_Integrity c)) "light")
          (fun c => let i := rc_Integrity c in
            copy_checked (rc_State c) (rc_VerifiedAt c)
             {| ig_State := "due"; ig_CheckKind := "deep"; ig_OperationID := ig_OperationID i;
                ig_ControllerGeneration := ig_ControllerGeneration i; ig_LeaseUntil := None; ig_Attempt := ig_Attempt i;
                ig_CheckedAt := Some (ts now); ig_LastLightAt := ig_LastLightAt i; ig_LastDeepAt := ig_LastDeepAt i;
                ig_NextCheckAt := ts now; ig_DeepCheckAt := Some (ts now); ig_ErrorCode := Some errorCode |} (ts now) c) d) in
      require (Nat.eqb n 1) ErrReplicaIntegrityState) d.

(** The row the UPDATE of a failed check returns. *)
Definition failing_check (replica op : string) (corrupt : bool) (now : time) (d : RDB) (k : Z * Z) (c : ReplicaCopy) : bool :=
  checked_by replica op now d c && user_exists (rd_w d) k.1
  && (negb corrupt || String.eqb (ig_CheckKind (rc_Integrity c)) "deep").

Definition check_failed (corrupt : bool) (errorCode : string) (now next : time) (c : ReplicaCopy) : ReplicaCopy :=
  let i := rc_Integrity c in
  copy_checked (if corrupt then "corrupt" else "ready") (rc_VerifiedAt c)
    {| ig_State := if corrupt then "corrupt" else "retry_wait"; ig_CheckKind := ig_CheckKind i;
       ig_OperationID := ig_OperationID i; ig_ControllerGeneration := ig_ControllerGeneration i; ig_LeaseUntil := None;
       ig_Attempt := ig_Attempt i; ig_CheckedAt := Some now; ig_LastLightAt := ig_LastLightAt i;
       ig_LastDeepAt := ig_LastDeepAt i; ig_NextCheckAt := next; ig_DeepCheckAt := ig_DeepCheckAt i;
       ig_ErrorCode := Some errorCode |} now c.

Definition FailReplicaIntegrityTask (clock : time) (replicaID operationID errorCode : string) (corrupt : bool) (now : time)
  (retryAfter : duration) (d : RDB) : result unit * RDB :=
  if negb (slen replicaID =? 36) || negb (slen operationID =? 36) || String.eqb errorCode "" || (128 <? slen errorCode)
     || (retryAfter <=? 0)
  then (Fail ErrInvalidReplicaIntegrity, d)
  else
    let now := now_or clock now in
    runTx (
      let! replica := uuid_param replicaID in
      let! op := uuid_param operationID in
      let! (k, c) := rselect (fun d => head (rows_where (failing_check replica op corrupt (ts now) d) (wd_copies (rd_w d))))
                       ErrReplicaIntegrityState in
      let! _ := (fun d => write_copies (<[k := check_failed corrupt errorCode (ts now) (ts (now + retryAfter)) c]>
                                          (wd_copies (rd_w d))) d) in
      let! legacy := rselect (fun d => db_users (core d) !! k.1 ≫= gu_LegacyUserID) sql_error in
      if corrupt
      then
        let! _ := update_replica legacy k.2 (fun r => String.eqb (ur_Kind r) "archive") (replica_set_state "corrupt") in
        raise_integrity_alert replicaID k.1 k.2 (ts now)
      else tx_ret tt) d.

(** ** The worker *)

Definition safeReplicaIntegrityFailureCode (code : string) : string :=
  if bool_decide (code ∈ ["replica_integrity_mismatch"; "replica_integrity_unavailable"; "invalid_command_payload"]%string)
  then code else "agent_command_unavailable".

Definition replicaIntegrityRetryDelay (attempt : Z) : duration :=
  let delay := delay_doubled 16 1 attempt (5 * Minute) in
  if 6 * Hour <? delay then 6 * Hour else delay.

Record ReplicaIntegrityReceipt := {
  vr_SnapshotID : string;
  vr_CheckKind : string;
  vr_ManifestSHA256 : string;
  vr_ArchiveSHA256 : string;
  vr_FileCount : Z;
  vr_TotalBytes : Z
}.

Definition matchingIntegrityDigest (value expected : string) : bool :=
  match hex_decode value with Some digest => String.eqb digest expected | None => false end.

Definition matchingReplicaIntegrityReceipt (receipt : option ReplicaIntegrityReceipt) (task : ReplicaIntegrityTask) : bool :=
  match receipt with
  | None => false
  | Some r =>
      String.eqb (vr_SnapshotID r) (ik_SnapshotID task) && String.eqb (vr_CheckKind r) (ik_CheckKind task)
      && (vr_FileCount r =? ik_FileCount task) && (vr_TotalBytes r =? ik_TotalBytes task)
      && matchingIntegrityDigest (vr_ManifestSHA256 r) (ik_ManifestSHA256 task)
      && matchingIntegrityDigest (vr_ArchiveSHA256 r) (ik_ArchiveSHA256 task)
  end.

(** The answer of the node: a receipt, none, or the code of an error. *)
Inductive integrity_reply := IntegrityReceipt (r : option ReplicaIntegrityReceipt) | IntegrityError (code : string).

Definition escalateReplicaIntegrityTask (clock : time) (task : ReplicaIntegrityTask) (code : string) (d : RDB) : RDB :=
  (EscalateReplicaIntegrityTask clock (ik_ReplicaID task) (ik_OperationID task) code clock d).2.

Definition failReplicaIntegrityTask (clock : time) (task : ReplicaIntegrityTask) (code : string) (corrupt : bool) (d : RDB)
  : RDB :=
  (FailReplicaIntegrityTask clock (ik_ReplicaID task) (ik_OperationID task) code corrupt clock
     (replicaIntegrityRetryDelay (ik_Attempt task)) d).2.

Definition completion_params (task : ReplicaIntegrityTask) (now : time) : CompleteReplicaIntegrityParams :=
  {| ci_ReplicaID := ik_ReplicaID task; ci_OperationID := ik_OperationID task; ci_SnapshotID := ik_SnapshotID task;
     ci_ManifestSHA256 := ik_ManifestSHA256 task; ci_ArchiveSHA256 := ik_ArchiveSHA256 task;
     ci_FileCount := ik_FileCount task; ci_TotalBytes := ik_TotalBytes task; ci_CheckKind := ik_CheckKind task;
     ci_Now := now; ci_NextCheckAfter := ReplicaIntegrityLightInterval; ci_NextDeepAfter := ReplicaIntegrityDeepInterval |}.

(** What the worker does with the answer. *)
Definition settle_integrity (clock : time) (task : ReplicaIntegrityTask) (reply : integrity_reply) (d : RDB) : RDB :=
  let light := String.eqb (ik_CheckKind task) "light" in
  match reply with
  | IntegrityError code =>
      let code := safeReplicaIntegrityFailureCode code in
      let mismatch := String.eqb code "replica_integrity_mismatch" in
      if mismatch && light then escalateReplicaIntegrityTask clock task "lightweight_integrity_anomaly" d
      else failReplicaIntegrityTask clock task code mismatch d
  | IntegrityReceipt r =>
      if matchingReplicaIntegrityReceipt r task
      then (CompleteReplicaIntegrityTask clock (completion_params task clock) d).2
      else if light then escalateReplicaIntegrityTask clock task "lightweight_receipt_mismatch" d
      else failReplicaIntegrityTask clock task "receipt_mismatch" true d
  end.

Definition executeReplicaIntegrityTask (task : ReplicaIntegrityTask) (reply : integrity_reply) (now later : time)
  (meanwhile : RDB -> RDB) (d : RDB) : RDB :=
  if match node_of (rd_w d) (ik_NodeID task) with
     | Some n => reachable n && String.eqb (nd_OperationalState n) "active" && managed n
     | None => false
     end
  then settle_integrity later task reply (meanwhile d)
  else failReplicaIntegrityTask now task "node_unavailable" false d.

End ReplicaIntegrity.

(** The retries of both workers back off and are capped.  The delay after the n-th
    attempt is one minute for a cleanup and five for a check, doubled for every earlier
    attempt, and never more than six hours; the loop's early exit and its last test
    give exactly that, for every attempt number. *)
Theorem retry_delays_capped attempt :
  replicaCleanupRetryDelay attempt = Z.min (6 * Hour) (Minute * 2 ^ Z.max 0 (attempt - 1))
  /\ replicaIntegrityRetryDelay attempt = Z.min (6 * Hour) (5 * Minute * 2 ^ Z.max 0 (attempt - 1)).
Proof.
  assert (forall d, (if 6 * Hour <? d then 6 * Hour else d) = Z.min (6 * Hour) d) as Hcap.
  { intros d. destruct (6 * Hour <? d) eqn:E; b2p; lia. }
  unfold replicaCleanupRetryDelay, replicaIntegrityRetryDelay. cbv zeta. rewrite !Hcap.
  split; (apply delay_doubled_closed; [reflexivity | vm_compute; discriminate]).
Qed.
