(* ===== verification/RetentionFrame.v ===== *)
(** * What the workflows leave to the cleanup

    While a copy is being deleted on its node, nothing else may start to use its place:
    no workflow may publish there, no takeover may make it the home.  The file has the
    relation [calm] between two databases across which this is kept, and proves that
    every operation of the snapshot workflows is calm: a publication refuses a place
    whose cleanup is running, and the rest leaves the running cleanups alone. *)

From Stdlib Require Import ZArith Lia Ascii String.
From stdpp Require Import base list gmap strings relations.
From S2P Require Import Prelude GoStrings AgentState Schema Leases Handoffs WorkflowSchema SnapshotStore SnapshotLife.
From S2P Require Import SnapshotExecutor RecoverySchema DataFaults Protection RestoreStore RecoverySystem ReplicaCleanup.
#[local] Open Scope Z_scope.

(** ** The relation *)

(** What a task is about; no statement changes it. *)
Record scope := {
  ks_ReplicaID : string;
  ks_UserID : Z;
  ks_LegacyUserID : Z;
  ks_NodeID : Z;
  ks_SnapshotID : string;
  ks_Handle : string;
  ks_ReplicaKind : string
}.

Definition task_scope (t : CleanupTask) : scope :=
  {| ks_ReplicaID := ct_ReplicaID t; ks_UserID := ct_UserID t; ks_LegacyUserID := ct_LegacyUserID t;
     ks_NodeID := ct_NodeID t; ks_SnapshotID := ct_SnapshotID t; ks_Handle := ct_Handle t;
     ks_ReplicaKind := ct_ReplicaKind t |}.

(** A task is running, and what it is about. *)
Definition running_at (w : WDB) (id : string) (s : scope) : Prop :=
  exists t, wd_cleanups w !! id = Some t /\ running t = true /\ task_scope t = s.

(** The unique index of replica_cleanup_tasks. *)
Definition tasks_unique (m : gmap string CleanupTask) : Prop :=
  forall id id' t t', m !! id = Some t -> m !! id' = Some t' -> ct_NodeID t = ct_NodeID t' ->
    ct_SnapshotID t = ct_SnapshotID t' -> ct_ReplicaKind t = ct_ReplicaKind t' -> id = id'.

(** A task has the legacy id of its user. *)
Definition tasks_owned (w : WDB) : Prop :=
  forall id t, wd_cleanups w !! id = Some t -> legacy_ids (wd_core w) !! ct_UserID t = Some (Some (ct_LegacyUserID t)).

(** Rows of workflows stay, keep their user, and none that is finished opens again. *)
Definition flows_stay (m m' : gmap string Workflow) : Prop :=
  forall id w, m !! id = Some w ->
    exists w', m' !! id = Some w' /\ wf_UserID w' = wf_UserID w /\ (is_open w' = true -> is_open w = true).

(** The legacy ids are unique, and the task has the one of its user. *)
Definition owner_known (w : WDB) (s : scope) : Prop :=
  (forall user user' legacy, legacy_ids (wd_core w) !! user = Some (Some legacy) ->
     legacy_ids (wd_core w) !! user' = Some (Some legacy) -> user' = user)
  /\ legacy_ids (wd_core w) !! ks_UserID s = Some (Some (ks_LegacyUserID s)).

Record calm (w w' : WDB) : Prop := {
  ca_homes : wd_homes w' = wd_homes w;
  ca_ids : legacy_ids (wd_core w') = legacy_ids (wd_core w);
  ca_running : forall id s, running_at w' id s -> running_at w id s;
  ca_unique : tasks_unique (wd_cleanups w) -> tasks_unique (wd_cleanups w');
  ca_owned : tasks_owned w -> tasks_owned w';
  ca_scope : forall id t, wd_cleanups w !! id = Some t ->
    exists t', wd_cleanups w' !! id = Some t' /\ task_scope t' = task_scope t;
  ca_copies : forall id s c', running_at w' id s -> wd_copies w' !! (ks_UserID s, ks_NodeID s) = Some c' ->
    exists c, wd_copies w !! (ks_UserID s, ks_NodeID s) = Some c /\ rc_SnapshotID c' = rc_SnapshotID c
              /\ rc_Kind c' = rc_Kind c /\ (rc_IsAuthoritative c' = true -> rc_IsAuthoritative c = true);
  ca_replicas : forall id s r', owner_known w s -> running_at w' id s ->
    wd_replicas w' !! (ks_LegacyUserID s, ks_NodeID s) = Some r' -> ur_State r' = "ready"%string ->
    exists r, wd_replicas w !! (ks_LegacyUserID s, ks_NodeID s) = Some r /\ ur_State r = "ready"%string;
  ca_flows : flows_stay (wd_workflows w) (wd_workflows w')
}.

Lemma flows_stay_refl m : flows_stay m m.
Proof. intros id w Hl. eauto. Qed.

#[export] Instance calm_preorder : PreOrder calm.
Proof.
  split.
  - intros w. split; eauto using flows_stay_refl.
  - intros w1 w2 w3 [H1 I1 R1 U1 O1 S1 C1 P1 F1] [H2 I2 R2 U2 O2 S2 C2 P2 F2].
    split; [congruence | congruence | eauto | eauto | eauto | | | | ].
    + intros id t Hl. destruct (S1 _ _ Hl) as (t2 & Hl2 & E2). destruct (S2 _ _ Hl2) as (t3 & Hl3 & E3).
      exists t3. split; [done | congruence].
    + intros id s c3 Hr Hc. destruct (C2 _ _ _ Hr Hc) as (c2 & Hc2 & E1 & E2 & E3).
      destruct (C1 _ _ _ (R2 _ _ Hr) Hc2) as (c1 & Hc1 & E4 & E5 & E6).
      exists c1. repeat split; [done | congruence | congruence | auto].
    + intros id s r3 Ho Hr Hp Hs. assert (owner_known w2 s) as Ho2 by (unfold owner_known; by rewrite I1).
      destruct (P2 _ _ _ Ho2 Hr Hp Hs) as (r2 & Hp2 & Hs2). eauto.
    + intros id w Hl. destruct (F1 _ _ Hl) as (w' & Hl' & E1 & E2). destruct (F2 _ _ Hl') as (w'' & Hl'' & E3 & E4).
      exists w''. repeat split; [done | congruence | auto].
Qed.

(** ** One table changes *)

Lemma same_calm w w' :
  wd_homes w' = wd_homes w -> legacy_ids (wd_core w') = legacy_ids (wd_core w) -> wd_cleanups w' = wd_cleanups w ->
  wd_copies w' = wd_copies w -> wd_replicas w' = wd_replicas w -> wd_workflows w' = wd_workflows w -> calm w w'.
Proof.
  intros E1 E2 E3 E4 E5 E6. split; unfold running_at, tasks_owned; rewrite ?E1, ?E2, ?E3, ?E4, ?E5, ?E6; eauto 6 using flows_stay_refl.
Qed.

Lemma replicas_calm m w :
  (forall k r', m !! k = Some r' -> ur_State r' = "ready"%string ->
     exists r, wd_replicas w !! k = Some r /\ ur_State r = "ready"%string) ->
  calm w (put_replicas m w).
Proof. intros Hm. split; cbn; eauto 6 using flows_stay_refl. Qed.

Lemma insert_replica_calm k r w : ur_State r <> "ready"%string -> calm w (put_replicas (<[k := r]> (wd_replicas w)) w).
Proof. intros Hr. apply replicas_calm. intros k' r' [[<- <-]|[_ Hl]]%lookup_insert_Some Hs; [done | eauto]. Qed.

Lemma update_replicas_calm p f w :
  (forall r, ur_State (f r) = "ready"%string -> ur_State r = "ready"%string) ->
  calm w (put_replicas (update_where p f (wd_replicas w)) w).
Proof.
  intros Hf. apply replicas_calm. intros k r' Hl Hs. rewrite update_where_lookup in Hl.
  destruct (wd_replicas w !! k) as [r|]; [|done]. cbn in Hl. injection Hl as <-. exists r. split; [done|].
  destruct (p k r); auto.
Qed.

Lemma flows_calm m w : flows_stay (wd_workflows w) m -> calm w (put_workflows m w).
Proof. intros Hm. split; cbn; eauto 6. Qed.

(** The tasks change, and none starts to run. *)
Lemma tasks_calm m w :
  (forall id t, m !! id = Some t -> running t = true -> running_at w id (task_scope t)) ->
  (tasks_unique (wd_cleanups w) -> tasks_unique m) -> (tasks_owned w -> tasks_owned (put_cleanups m w)) ->
  (forall id t, wd_cleanups w !! id = Some t -> exists t', m !! id = Some t' /\ task_scope t' = task_scope t) ->
  calm w (put_cleanups m w).
Proof. intros H1 H2 H3 H4. split; cbn; eauto 6 using flows_stay_refl. intros id s (t & Hl & Hr & <-). eauto. Qed.

(** An UPDATE of the tasks keeps their scopes. *)
Lemma update_scope p (f : CleanupTask -> CleanupTask) (m : gmap string CleanupTask) :
  (forall t, task_scope (f t) = task_scope t) ->
  (forall id t', update_where p f m !! id = Some t' -> exists t, m !! id = Some t /\ task_scope t' = task_scope t)
  /\ (tasks_unique m -> tasks_unique (update_where p f m))
  /\ (forall id t, m !! id = Some t -> exists t', update_where p f m !! id = Some t' /\ task_scope t' = task_scope t).
Proof.
  intros Hf. assert (forall id t', update_where p f m !! id = Some t' ->
    exists t, m !! id = Some t /\ task_scope t' = task_scope t) as Hb.
  { intros id t' Hl. rewrite update_where_lookup in Hl. destruct (m !! id) as [t|]; [|done]. cbn in Hl.
    injection Hl as <-. exists t. split; [done|]. by destruct (p id t). }
  split; [done | split].
  - intros Hu id id' t t' Hl Hl' E1 E2 E3. apply Hb in Hl as (t0 & Hl & Es). apply Hb in Hl' as (t0' & Hl' & Es').
    unfold task_scope in *. simplify_eq. apply (Hu id id' t0 t0'); congruence.
  - intros id t Hl. exists (if p id t then f t else t). rewrite update_where_lookup, Hl. split; [done|].
    by destruct (p id t).
Qed.

Lemma update_owned p f w :
  (forall t, task_scope (f t) = task_scope t) -> tasks_owned w -> tasks_owned (put_cleanups (update_where p f (wd_cleanups w)) w).
Proof.
  intros Hf Ho id t Hl. destruct (update_scope p f (wd_cleanups w) Hf) as (Hb & _ & _). cbn in Hl.
  apply Hb in Hl as (t0 & Hl & [=]). cbn. pose proof (Ho _ _ Hl). congruence.
Qed.

Lemma update_tasks_calm p f w :
  (forall t, task_scope (f t) = task_scope t) -> (forall t, running (f t) = true -> running t = true) ->
  calm w (put_cleanups (update_where p f (wd_cleanups w)) w).
Proof.
  intros Hs Hr. destruct (update_scope p f (wd_cleanups w) Hs) as (_ & Hu & He).
  apply tasks_calm; [|done | by apply update_owned | done].
  intros id t Hl Ht. rewrite update_where_lookup in Hl. destruct (wd_cleanups w !! id) as [t0|] eqn:Hl0; [|done]. cbn in Hl.
  injection Hl as <-. exists t0. destruct (p id t0); [by rewrite Hs; eauto | done].
Qed.

(** No cleanup runs at a place. *)
Definition idle_place (user node : Z) (w : WDB) : Prop :=
  forall id s, running_at w id s -> ks_UserID s = user -> ks_NodeID s = node -> False.

Lemma calm_idle user node w w' : calm w w' -> idle_place user node w -> idle_place user node w'.
Proof. intros Hc Hi id s Hr. by eapply Hi, (ca_running _ _ Hc). Qed.

(** A statement that is one test and one write, elsewhere. *)
Ltac calm_elsewhere :=
  intros ? ? ? Hw; cbv beta zeta in Hw;
  repeat match type of Hw with
  | (match ?x with _ => _ end) = Ok _ => destruct x eqn:?; try discriminate Hw
  end; injection Hw as ? <-; apply same_calm; reflexivity.

(** A row that keeps its user, and is open only if it was. *)
Definition row_stays (w w' : Workflow) : Prop :=
  wf_UserID w' = wf_UserID w /\ (is_open w' = true -> is_open w = true).

Lemma row_stays_state w w' : wf_UserID w' = wf_UserID w -> wf_State w' = wf_State w -> row_stays w w'.
Proof. intros E1 E2. split; [done|]. unfold is_open. by rewrite E2. Qed.

Lemma row_stays_open w w' : wf_UserID w' = wf_UserID w -> is_open w = true -> row_stays w w'.
Proof. intros E1 E2. by split. Qed.

Lemma row_stays_closed w w' : wf_UserID w' = wf_UserID w -> is_open w' = false -> row_stays w w'.
Proof. intros E1 E2. split; [done|]. by rewrite E2. Qed.

Lemma update_rows_calm p f d n d' :
  update_workflows p f d = Ok (n, d') ->
  (forall id w, wd_workflows d !! id = Some w -> p d id w = true -> row_stays w (f w)) -> calm d d'.
Proof.
  intros (_ & _ & ->)%update_workflows_ok Hf. apply flows_calm. intros id w Hl.
  exists (if p d id w then f w else w). rewrite update_where_lookup, Hl. cbn. split; [done|].
  destruct (p d id w) eqn:Ep; [|done]. by apply (Hf id w).
Qed.

Lemma update_workflows_calm p f :
  (forall d id w, p d id w = true -> row_stays w (f w)) -> tx_rel calm (update_workflows p f).
Proof. intros Hf d n d' E. eapply update_rows_calm; [done|]. intros id w _. apply Hf. Qed.

Section Calm.
Context `{Postgres}.

(** ** Statements *)

Lemma insert_job_calm u s t tr st now : tx_rel calm (insert_job u s t tr st now).
Proof. unfold insert_job. calm_elsewhere. Qed.

Lemma insert_step_calm wid step state now : tx_rel calm (insert_step wid step state now).
Proof. unfold insert_step. calm_elsewhere. Qed.

Lemma insert_steps_calm wid steps now : tx_rel calm (insert_steps wid steps now).
Proof.
  induction steps as [|[step state] steps IH]; cbn; [apply tx_rel_ret; exact _|].
  apply tx_rel_bind; [exact _ | apply insert_step_calm | done].
Qed.

Lemma insert_manifest_calm sid wid u s e now : tx_rel calm (insert_manifest sid wid u s e now).
Proof. unfold insert_manifest. calm_elsewhere. Qed.

Lemma put_pending_account_calm wid u n h v ph ps sub now : tx_rel calm (put_pending_account wid u n h v ph ps sub now).
Proof. unfold put_pending_account. calm_elsewhere. Qed.

Lemma snapshot_epoch_calm p now : tx_rel calm (snapshot_epoch p now).
Proof. unfold snapshot_epoch. calm_elsewhere. Qed.

Lemma link_job_calm jid p wid sid e : tx_rel calm (link_job jid p wid sid e).
Proof. unfold link_job. calm_elsewhere. Qed.

Lemma fence_relays_calm wid now : tx_rel calm (fence_relays wid now).
Proof. unfold fence_relays, tx_write. calm_elsewhere. Qed.

Lemma update_jobs_calm p f : tx_rel calm (update_jobs p f).
Proof. unfold update_jobs. calm_elsewhere. Qed.

Lemma update_steps_calm p f : tx_rel calm (update_steps p f).
Proof. unfold update_steps. calm_elsewhere. Qed.

Lemma insert_workflow_calm wid op ty u s t e g mode now : tx_rel calm (insert_workflow wid op ty u s t e g mode now).
Proof.
  intros d a d' E. unfold insert_workflow, write_workflows in E. destruct (wd_workflows d !! wid) eqn:Hn; [done|].
  destruct (_ && _); [|done]. destruct (workflows_ok _); [|done]. injection E as _ <-. apply flows_calm.
  intros id w Hl. exists w. rewrite lookup_insert_ne by congruence. done.
Qed.

Lemma insert_cap_calm cid wid sid s t h g e now : tx_rel calm (insert_cap cid wid sid s t h g e now).
Proof. unfold insert_cap, write_caps. calm_elsewhere. Qed.

Lemma revoke_caps_calm wid : tx_rel calm (revoke_caps wid).
Proof. unfold revoke_caps. calm_elsewhere. Qed.

Lemma revoke_where_calm p : tx_rel calm (revoke_where p).
Proof. unfold revoke_where, tx_write. calm_elsewhere. Qed.

Lemma consume_cap_calm wid h now : tx_rel calm (consume_cap wid h now).
Proof. unfold consume_cap. calm_elsewhere. Qed.

#[local] Hint Resolve insert_job_calm insert_step_calm insert_steps_calm insert_manifest_calm
  put_pending_account_calm snapshot_epoch_calm link_job_calm fence_relays_calm update_jobs_calm
  update_steps_calm insert_workflow_calm insert_cap_calm revoke_caps_calm revoke_where_calm consume_cap_calm : tx_frame.

Lemma take_reconciliation_calm p wid now : tx_rel calm (take_reconciliation p wid now).
Proof. unfold take_reconciliation. apply tx_rel_bind; [exact _ | apply tx_rel_uuid; exact _ | intros id]. calm_elsewhere. Qed.

Lemma take_item_calm p wid now : tx_rel calm (take_item p wid now).
Proof. unfold take_item. apply tx_rel_bind; [exact _ | apply tx_rel_uuid; exact _ | intros id]. calm_elsewhere. Qed.

Lemma prepareWorkflowTargetAccount_calm wid u n h now : tx_rel calm (prepareWorkflowTargetAccount wid u n h now).
Proof.
  intros d b d' E. unfold prepareWorkflowTargetAccount in E. cbv zeta in E.
  destruct (bool_decide _); [by injection E as <- <-|]. destruct (_ || _); [done|].
  assert (forall v ph ps sub, tx_rel calm
    (tx_bind (put_pending_account wid u n h v ph ps sub now) (fun _ => tx_ret true))) as Hput by (intros; tx_frame).
  destruct (password_material d u); [by eapply Hput|].
  destruct (oauth_identity d u); [by eapply Hput | done].
Qed.

Lemma create_retirement_calm p g now : tx_rel calm (create_retirement p g now).
Proof. unfold create_retirement. tx_frame. Qed.

Lemma when_calm {A} b (m : WTx A) other : tx_rel calm m -> tx_rel calm (when b m other).
Proof. unfold when. destruct b; [done | intros _; apply tx_rel_ret; exact _]. Qed.

Lemma upsert_replica_calm u n kind : tx_rel calm (upsert_replica u n kind).
Proof.
  intros d a d' E. unfold upsert_replica in E. destruct (negb _); [done|]. injection E as _ <-. apply replicas_calm.
  intros k r' [[<- <-]|[_ Hl]]%lookup_insert_Some Hs; [|by eauto].
  destruct (wd_replicas d !! (u, n)) as [r|]; [|done]. destruct (String.eqb_spec (ur_State r) "ready"); [eauto | done].
Qed.

Lemma seal_manifest_calm p wid sid : tx_rel calm (seal_manifest p wid sid).
Proof. unfold seal_manifest. calm_elsewhere. Qed.

(** A publication refuses a place whose cleanup is running. *)
Lemma cancel_cleanups_idle u n now d a d' :
  cancel_cleanups u n now d = Ok (a, d') -> calm d d' /\ idle_place u n d'.
Proof.
  intros E. unfold cancel_cleanups in E. cbv zeta in E.
  match type of E with (if ?b then _ else _) = _ => destruct b eqn:Hb; [|done] end. injection E as _ <-. split.
  - by apply update_tasks_calm.
  - intros id s (t & Hl & Hr & <-) Hu Hn. apply (rows_where_none _ _ _ _ Hb) in Hl. cbn in Hu, Hn. unfold running, state_in in Hr.
    b2p. rewrite Hu, Hn, !Z.eqb_refl in Hl. cbn in Hl. b2p. by apply list_elem_of_singleton in Hr.
Qed.

Lemma resolve_alert_calm u n now : tx_rel calm (resolve_alert u n now).
Proof.
  intros d a d' E. unfold resolve_alert in E. apply tx_write_ok in E as [_ ->].
  destruct (wd_copies d !! (u, n)); [by apply same_calm | done].
Qed.

Lemma delete_manifest_calm old sid : tx_rel calm (delete_manifest old sid).
Proof.
  intros d a d' E. unfold delete_manifest in E. apply tx_write_ok in E as [_ ->].
  destruct old as [o|]; [|done]. destruct (String.eqb o sid); [done | by apply same_calm].
Qed.

Lemma finish_job_calm wid v b f now : tx_rel calm (finish_job wid v b f now).
Proof. unfold finish_job. tx_frame. Qed.

(** ** The publication *)

(** New tasks that wait, of new ids and keys. *)
Lemma insert_task_calm id t w :
  wd_cleanups w !! id = None -> running t = false ->
  legacy_ids (wd_core w) !! ct_UserID t = Some (Some (ct_LegacyUserID t)) ->
  (forall id' t', wd_cleanups w !! id' = Some t' -> ct_NodeID t' = ct_NodeID t -> ct_SnapshotID t' = ct_SnapshotID t ->
     ct_ReplicaKind t' = ct_ReplicaKind t -> False) ->
  calm w (put_cleanups (<[id := t]> (wd_cleanups w)) w).
Proof.
  intros Hn Hr Hown Hk. apply tasks_calm.
  - intros id' t' [[<- <-]|[_ Hl]]%lookup_insert_Some Ht; [congruence | by exists t'].
  - intros Hu i i' t1 t2 [[<- <-]|[_ Hl]]%lookup_insert_Some [[<- <-]|[_ Hl']]%lookup_insert_Some E1 E2 E3; [done|..].
    + by destruct (Hk _ _ Hl').
    + by destruct (Hk _ _ Hl).
    + by eapply Hu.
  - intros Ho id' t' Hl. cbn in Hl. apply lookup_insert_Some in Hl as [[<- <-]|[_ Hl]]; [done | by eapply Ho].
  - intros id' t' Hl. exists t'. rewrite lookup_insert_ne by congruence. done.
Qed.

Lemma schedule_cleanup_calm newid now d x :
  wd_cleanups d !! newid x.1.2 = None ->
  calm d (schedule_cleanup newid now d x)
  /\ (forall id, id <> newid x.1.2 -> wd_cleanups (schedule_cleanup newid now d x) !! id = wd_cleanups d !! id).
Proof.
  destruct x as [[u n] c]. cbn. intros Hn.
  destruct (rc_SnapshotID c) as [sid|], (db_users (wd_core d) !! u ≫= gu_LegacyUserID) as [l|] eqn:Hown; try done.
  destruct (db_legacy (wd_core d) !! _) as [us|]; [|done]. destruct (negb _) eqn:Hb; [done|].
  b2p. split; [|intros id Hne; cbn; by rewrite lookup_insert_ne].
  apply insert_task_calm; [done | done | |].
  { cbn. unfold legacy_ids. rewrite lookup_fmap. destruct (db_users (wd_core d) !! u); [|done]. cbn in *. by rewrite Hown. }
  cbn. intros id t Hl E1 E2 E3.
  apply (rows_where_none _ _ _ _ Hb) in Hl. by rewrite E1, E2, E3, Z.eqb_refl, !String.eqb_refl in Hl.
Qed.

Lemma schedule_cleanups_calm newid now rows : forall d,
  Forall (fun x => wd_cleanups d !! newid x.1.2 = None) rows -> NoDup (map (fun x : (Z * Z) * ReplicaCopy => newid x.1.2) rows) ->
  calm d (foldl (schedule_cleanup newid now) d rows).
Proof.
  induction rows as [|x rows IH]; intros d Hf Hd; cbn; [done|]. apply Forall_cons in Hf as [Hx Hf].
  apply NoDup_cons in Hd as [Hnot Hd]. destruct (schedule_cleanup_calm newid now d x Hx) as [Hc Hsame].
  etrans; [exact Hc|]. apply IH; [|done]. rewrite Forall_forall in Hf |- *. intros y Hy. rewrite Hsame; [by apply Hf|].
  intros E. apply Hnot. rewrite <- E. by apply (list_elem_of_fmap_2 (fun x : (Z * Z) * ReplicaCopy => newid x.1.2)).
Qed.

Lemma supersede_archives_calm newid u l n now : tx_rel calm (supersede_archives newid u l n now).
Proof.
  intros d a d' E. unfold supersede_archives in E. destruct (fresh_ids _ _ _) eqn:Hf; [|done]. injection E as _ <-.
  etrans; [|by apply update_replicas_calm]. etrans; [|apply schedule_cleanups_calm].
  - split; cbn; eauto 6 using flows_stay_refl. intros id s c' Hr Hc. rewrite update_where_lookup in Hc.
    destruct (wd_copies d !! _) as [c|]; [|done]. cbn in Hc. injection Hc as <-. exists c. split; [done|].
    by destruct (other_archive u n _ c).
  - unfold fresh_ids in Hf. b2p. apply Forall_forall. intros x Hx. cbn.
    match goal with Hb : forallb _ _ = true |- _ => rewrite forallb_forall in Hb;
      apply list_elem_of_In, Hb in Hx end. by b2p.
  - unfold fresh_ids in Hf. by b2p.
Qed.

(** A copy is published where no cleanup runs. *)
Lemma publish_copy_calm cid p u sid now d a d' :
  publish_copy cid p u sid now d = Ok (a, d') -> idle_place u (cp_TargetNodeID p) d -> calm d d'.
Proof.
  intros E Hi. unfold publish_copy in E. cbv zeta in E. destruct (_ && _); [|done]. injection E as _ <-.
  split; cbn; eauto 6 using flows_stay_refl. intros id s c' Hr Hc.
  apply lookup_insert_Some in Hc as [[[= E1 E2] _]|[_ Hc]]; [by destruct (Hi _ _ Hr) | eauto].
Qed.

(** So is its replica, of the legacy id of the user. *)
Lemma finish_replica_calm l n v c b now u d a d' :
  finish_replica l n v c b now d = Ok (a, d') -> legacy_ids (wd_core d) !! u = Some (Some l) -> idle_place u n d -> calm d d'.
Proof.
  intros E Hu Hi. unfold finish_replica in E. destruct (wd_replicas d !! (l, n)) as [r|] eqn:Hr; [|done].
  injection E as _ <-. split; cbn; eauto 6 using flows_stay_refl. intros id s r' [Ho1 Ho2] Ht Hp Hs.
  apply lookup_insert_Some in Hp as [[[= E1 E2] _]|[_ Hp]]; [|by eauto].
  subst l. destruct (Hi _ _ Ht); [by eapply Ho1 | done].
Qed.

#[local] Hint Resolve take_reconciliation_calm take_item_calm prepareWorkflowTargetAccount_calm create_retirement_calm
  when_calm upsert_replica_calm seal_manifest_calm supersede_archives_calm resolve_alert_calm delete_manifest_calm
  finish_job_calm : tx_frame.

(** The next statement of a transaction that was taken apart. *)
Ltac calm_next :=
  match goal with
  | |- calm ?d ?d => reflexivity
  | Hm : ?m ?d = Ok (_, ?e) |- calm ?d _ =>
      transitivity e; [assert (tx_rel calm m) as Hrel by tx_frame; eapply Hrel; exact Hm|]
  end.

Lemma publish_calm newid cid p wid u l now d v d' :
  publish_tx newid cid p wid u l now d = Ok (v, d') -> legacy_ids (wd_core d) !! u = Some (Some l) -> calm d d'.
Proof.
  intros E Hu. unfold publish_tx in E. tx_split.
  match goal with Hc : cancel_cleanups _ _ _ ?d1 = Ok (_, ?d2), Hp : publish_copy _ _ _ _ _ ?d3 = Ok (_, ?d4),
      Hr : finish_replica _ _ _ _ _ _ ?d5 = Ok (_, ?d6) |- _ =>
    assert (calm d d1) as C1 by repeat calm_next; apply cancel_cleanups_idle in Hc as [C2 Hi];
    assert (calm d2 d3) as C3 by repeat calm_next;
    pose proof (publish_copy_calm _ _ _ _ _ _ _ _ Hp (calm_idle _ _ _ _ C3 Hi)) as C4;
    assert (calm d4 d5) as C5 by repeat calm_next;
    assert (calm d d5) as C6 by (do 4 (etrans; [eassumption|]); done);
    assert (calm d5 d6) as C7 by (eapply finish_replica_calm; [exact Hr | by rewrite (ca_ids _ _ C6) |];
      eapply calm_idle; [exact C5|]; eapply calm_idle; [exact C4|]; by eapply calm_idle);
    transitivity d5; [exact C6|]; transitivity d6; [exact C7|]
  end.
  assert (tx_rel calm (update_workflows (fun _ id _ => String.eqb id wid)
    (fun w => wf_set_State "succeeded" (wf_set_CleanupState "succeeded" (wf_set_UpdatedAt (ts now)
       (wf_set_FinishedAt (Some (ts now)) w)))))) as Hu2.
  { apply update_workflows_calm. intros. by apply row_stays_closed. }
  match goal with Hm : update_workflows _ _ _ = Ok (_, ?e) |- _ => transitivity e; [by eapply Hu2 | repeat calm_next] end.
Qed.

Lemma complete_calm newid cid p now : tx_rel calm (complete_tx newid cid p now).
Proof.
  intros d0 v d' E. unfold complete_tx in E. tx_split.
  match goal with q : (_ * _ * _)%type |- _ => destruct q as [[w u] l] end.
  destruct (String.eqb (wf_State w) "succeeded"); tx_split.
  { match goal with q : (_ * _)%type |- _ => destruct q as [jid j] end. cbn in *.
    destruct (bj_DataVersion j); tx_split; done. }
  eapply publish_calm; [done|]. unfold completion_row in *. unfold legacy_ids. rewrite lookup_fmap.
  destruct (wd_workflows d0 !! _) as [w'|]; [|done]. destruct (wf_UserID w') as [u'|]; [|done]. cbn in *.
  destruct (db_users (wd_core d0) !! u') as [g|] eqn:Hg; [|done]. cbn in *.
  destruct (gu_LegacyUserID g) as [l'|] eqn:Hl; [|done]. simplify_eq/=. rewrite Hg. cbn. by rewrite Hl.
Qed.

(** ** The operations *)

Lemma state_open w states :
  wf_State w ∈ states -> forallb (fun s => negb (is_terminal s)) states = true -> is_open w = true.
Proof. intros Hin Hf. rewrite forallb_forall in Hf. apply list_elem_of_In in Hin. by apply Hf. Qed.

Lemma state_is_open w s : wf_State w = s -> is_terminal s = false -> is_open w = true.
Proof. unfold is_open. by intros -> ->. Qed.

(** The rows of an UPDATE: the state is kept, or the guard asks for an open one. *)
Ltac rows_stay :=
  apply update_workflows_calm; intros; b2p;
  first [ by apply row_stays_state
        | by apply row_stays_closed
        | apply row_stays_open; [done | first [done | by eapply state_open | by eapply state_is_open]] ].

Lemma create_calm p now : tx_rel calm (create_tx p now).
Proof.
  unfold create_tx. tx_frame; try (apply when_calm; tx_frame).
  intros d0 b d' E. by apply (tx_rel_lift calm) in E.
Qed.

Lemma update_workflow_calm wid p f :
  (forall w, row_stays w (f w)) -> tx_rel calm (update_workflow wid p f).
Proof. intros Hf. unfold update_workflow. tx_frame. apply update_workflows_calm. eauto. Qed.

Lemma guarded_calm wid p f d : (forall w, row_stays w (f w)) -> calm d (guarded_update wid p f d).2.
Proof.
  intros Hf. unfold guarded_update. apply (tx_rel_run calm).
  apply tx_rel_bind; [exact _ | by apply update_workflow_calm | intros b]. tx_frame.
Qed.

Lemma cancel_calm wid r now : tx_rel calm (cancelSnapshotWorkflowTx wid r now).
Proof. unfold cancelSnapshotWorkflowTx. tx_frame. rows_stay. Qed.

#[local] Hint Resolve cancel_calm : tx_frame.

Lemma one_step_calm wid step f : tx_rel calm (one_step wid step f).
Proof. unfold one_step. tx_frame. Qed.

#[local] Hint Resolve one_step_calm : tx_frame.

Lemma step_calm clock wid step now later d : calm d (CompleteSnapshotWorkflowStep clock wid step now later d).2.
Proof.
  unfold CompleteSnapshotWorkflowStep. destruct (_ || _); [done|]. destruct (uuid_in wid) as [id|]; [|done].
  match goal with |- context [runTx ?m d] => assert (tx_rel calm m) as Hm by tx_frame;
    pose proof (tx_rel_run calm m d Hm) as Hr; destruct (runTx m d) as [[n|e] d1] end; [|done].
  by destruct n as [|[|n]].
Qed.

Lemma renew_calm wid w now ttl later d : calm d (RenewSnapshotWorkflow wid w now ttl later d).2.
Proof.
  unfold RenewSnapshotWorkflow. destruct (_ || _); [done|].
  match goal with |- context [runTx ?m d] => assert (tx_rel calm m) as Hm by (apply update_workflow_calm; intros; by apply row_stays_state);
    pose proof (tx_rel_run calm m d Hm) as Hr; destruct (runTx m d) as [[[]|e] d1] end; done.
Qed.

Lemma fail_calm clock wid c s now d : calm d (FailSnapshotWorkflow clock wid c s now d).2.
Proof.
  unfold FailSnapshotWorkflow. destruct (_ || _); [done|]. apply (tx_rel_run calm). tx_frame; [rows_stay|].
  intros d0 u d' [_ ->]%tx_write_ok. destruct (_ ≫= _) as [[u0 g]|]; [|done]. destruct (wf_TargetNodeID _); [|done].
  cbv zeta. match goal with |- calm _ (if ?b then _ else _) => destruct b end; [done|].
  by apply update_replicas_calm.
Qed.

Lemma reset_calm clock wid g now d : calm d (ResetRecoveredSnapshotWorkflow clock wid g now d).2.
Proof.
  unfold ResetRecoveredSnapshotWorkflow. destruct (_ || _); [done|]. apply (tx_rel_run calm).
  intros d0 u d' E. tx_split. rename x into id, x1 into j.
  match goal with Hf : fence_relays _ _ _ = Ok (_, ?e) |- _ => pose proof (proj1 (fence_relays_flow _ _ _ _ _ Hf)) as Hsame end.
  calm_next. destruct (String.eqb (bj_Status j) "aborted"); [by eapply cancel_calm|]. tx_split.
  match goal with Hr : revoke_caps _ _ = Ok (_, ?e) |- _ => pose proof Hr as Hr2; injection Hr2 as _ Hr2 end.
  calm_next.
  match goal with Hm : update_workflows _ _ _ = Ok (_, ?e) |- _ => transitivity e; [eapply update_rows_calm; [exact Hm|]|] end.
  { cbv beta. intros id' w Hl Hp. b2p. subst. apply row_stays_open; [done|]. cbn in Hl. rewrite Hsame in Hl.
    unfold recovering_job in *. rewrite Hl in *. destruct (job_of d0 id) as [[jid j']|]; [|done].
    match goal with Hr : (if ?b then _ else _) = Some _ |- _ => destruct b eqn:Eb; [|done] end. by b2p. }
  repeat calm_next.
Qed.

Lemma retry_calm wid code s now delay d : calm d (ScheduleSnapshotRetry wid code s now delay d).2.
Proof.
  unfold ScheduleSnapshotRetry. destruct (_ || _); [done|]. apply (tx_rel_run calm).
  intros d0 u d' E. tx_split. rename x into id, x1 into w0.
  destruct (wd_workflows d0 !! id) as [w|] eqn:Hl; [|done].
  match goal with Hw : (if ?b then _ else _) = Some _ |- _ => destruct b eqn:Eb; [|done]; injection Hw as <- end. b2p.
  destruct (retry_plan (wf_Type w)) as [[resume steps]|]; [|done]. tx_split.
  match goal with Hm : update_workflows _ _ _ = Ok (_, ?e) |- _ => transitivity e; [eapply update_rows_calm; [exact Hm|]|] end.
  { cbv beta. intros id' w' Hl' Hp. b2p. simplify_eq. by apply row_stays_open. }
  match goal with Hw : when _ _ _ _ = Ok (_, ?e) |- _ => transitivity e; [eapply when_calm; [|exact Hw]; tx_frame|] end.
  repeat calm_next.
Qed.

Lemma resume_calm wid now d : calm d (ResumeSnapshotRetry wid now d).2.
Proof.
  unfold ResumeSnapshotRetry. destruct (_ || _); [done|]. apply (tx_rel_run calm). cbv zeta. tx_frame.
  rows_stay.
Qed.

Lemma progress_calm wid sid n toState now : tx_rel calm (setSnapshotWorkflowProgressOnce wid sid n toState now).
Proof.
  intros d u d' E. unfold setSnapshotWorkflowProgressOnce in E. tx_split.
  repeat match goal with q : (_ * _)%type |- _ => destruct q end. tx_split.
  destruct (allowed toState) as [[from actor]|] eqn:Ha; [|done]. tx_split.
  destruct (allowed_next _ _ _ Ha) as (ph & ph' & -> & -> & Hnext).
  destruct (String.eqb _ (phase_name ph')); tx_split; [reflexivity|].
  match goal with Hm : update_workflows _ _ _ = Ok (_, ?e) |- _ => transitivity e; [eapply update_rows_calm; [exact Hm|]|] end.
  { cbv beta. intros id w Hl Hp. b2p. subst. unfold progress_row in *. rewrite Hl in *.
    destruct (wd_manifests _ !! _); [|done]. destruct (wf_SourceNodeID w), (wf_TargetNodeID w); try done.
    destruct (String.eqb _ _); [|done]. simplify_eq. apply row_stays_open; [done|]. eapply state_is_open; [done|].
    rewrite terminal_name. by destruct ph. }
  unfold one_step in *.
  destruct (completed_step _); destruct (running_step _); tx_split; repeat calm_next.
Qed.

(** An operation of the store: refused before its transaction, or the transaction. *)
Ltac calm_operation :=
  repeat match goal with |- calm _ (if ?b then _ else _).2 => destruct b; [done|] end;
  repeat match goal with |- calm _ (if ?b then _ else _).2 => destruct b; [|done] end;
  apply (tx_rel_run calm); tx_frame.

Lemma snapshot_calm ev d : is_operation ev = true -> calm d (snapshot_effect ev d).
Proof.
  intros Hop. destruct ev; cbn [snapshot_effect]; try done.
  - unfold CreateSnapshotWorkflow. destruct (create_valid _ _); [|done]. apply (tx_rel_run calm), create_calm.
  - apply (tx_rel_run calm). unfold repair_rows. tx_frame.
  - unfold ClaimSnapshotWorkflow. destruct (_ || _); [done|]. apply (tx_rel_run calm), update_workflow_calm.
    intros. by apply row_stays_state.
  - apply renew_calm.
  - unfold ReleaseSnapshotWorkflow. destruct (_ || _); [done|]. apply (tx_rel_run calm).
    apply tx_rel_bind; [exact _ | apply update_workflow_calm; intros; by apply row_stays_state | intros b; tx_frame].
  - unfold AdoptStaleSnapshotWorkflows. destruct (active_generation _); [|done]. calm_operation. rows_stay.
  - unfold PrepareRecoveredSnapshotCompletion. calm_operation. rows_stay.
  - apply reset_calm.
  - apply retry_calm.
  - apply resume_calm.
  - unfold DeferSnapshotWorkflow. destruct (_ || _); [done|]. apply guarded_calm. intros. by apply row_stays_state.
  - unfold ClearSnapshotWorkflowDeferral. destruct (String.eqb _ _); [done|]. apply guarded_calm. intros. by apply row_stays_state.
  - unfold SwitchSnapshotWorkflowToRelay. destruct (String.eqb _ _); [done|]. apply guarded_calm. intros. by apply row_stays_state.
  - unfold RotateSnapshotCapability. calm_operation.
  - unfold SetSnapshotWorkflowState. calm_operation. rows_stay.
  - unfold SetSnapshotWorkflowProgress. destruct (_ || _); [done|]. apply (tx_rel_run calm), progress_calm.
  - apply step_calm.
  - unfold CompleteSnapshotWorkflow. destruct (complete_valid p); [|done]. apply (tx_rel_run calm), complete_calm.
  - apply fail_calm.
  - unfold CancelSnapshotWorkflow. calm_operation.
  - unfold AbortBackupJobAndSnapshotWorkflow. calm_operation.
  - by apply same_calm.
  - apply (tx_rel_run calm). unfold supersede_workflows. tx_frame. rows_stay.
  - apply (tx_rel_run calm). unfold revoke_node_caps. tx_frame.
Qed.

Lemma activate_account_calm u n l a m now : tx_rel calm (activate_account u n l a m now).
Proof. unfold activate_account. calm_elsewhere. Qed.

#[local] Hint Resolve activate_account_calm : tx_frame.

Lemma provision_calm clock wid v l now d : calm d (CompleteWorkflowTargetAccountProvision clock wid v l now d).2.
Proof. unfold CompleteWorkflowTargetAccountProvision. calm_operation. Qed.

Lemma set_state_calm clock wid from to now d :
  is_terminal from = false -> calm d (SetSnapshotWorkflowState clock wid from to now d).2.
Proof. intros Hf. unfold SetSnapshotWorkflowState. calm_operation. rows_stay. Qed.

End Calm.

#[export] Hint Resolve insert_job_calm insert_step_calm insert_steps_calm insert_manifest_calm
  put_pending_account_calm snapshot_epoch_calm link_job_calm fence_relays_calm update_jobs_calm
  update_steps_calm insert_workflow_calm insert_cap_calm revoke_caps_calm revoke_where_calm consume_cap_calm
  prepareWorkflowTargetAccount_calm : tx_frame.
