(* ===== verification/RetentionSafety.v ===== *)
(** * No deletion of what is in use

    A cleanup deletes the files of a copy on its node while other transactions go on.
    The file says what must hold of the place of a running cleanup, proves that every
    operation of the recovery keeps it - the takeover and the restore, which move
    homes, among them - and that the operations of the cleanup and of the integrity
    checks do; so it holds in every run in which all of them interleave. *)

From Stdlib Require Import ZArith Lia Ascii String.
From stdpp Require Import base list gmap strings relations.
From S2P Require Import Prelude GoStrings AgentState Schema Leases Handoffs WorkflowSchema SnapshotStore SnapshotLife.
From S2P Require Import SnapshotExecutor RecoverySchema DataFaults Protection RestoreStore RecoverySystem RecoveryFaults.
From S2P Require Import RecoveryHomes RecoveryMoves ReplicaCleanup ReplicaIntegrity RetentionFrame.
#[local] Open Scope Z_scope.

(** ** What must hold *)

(** The place of a running task: it is not the home of the user, the copy there is the
    one to delete and not authoritative, its replica is not ready, so that nothing can
    promote it, and no open restore is filling it. *)
Record reserved (d : RDB) (s : scope) : Prop := {
  re_owner : legacy_ids (core d) !! ks_UserID s = Some (Some (ks_LegacyUserID s));
  re_home : wd_homes (rd_w d) !! ks_LegacyUserID s <> Some (ks_NodeID s);
  re_copy : forall c, wd_copies (rd_w d) !! (ks_UserID s, ks_NodeID s) = Some c ->
    rc_SnapshotID c = Some (ks_SnapshotID s) /\ rc_Kind c = ks_ReplicaKind s /\ rc_IsAuthoritative c = false;
  re_replica : forall r, wd_replicas (rd_w d) !! (ks_LegacyUserID s, ks_NodeID s) = Some r -> ur_State r <> "ready"%string;
  re_restore : forall op o w, rd_restores d !! op = Some o -> rs_TargetNodeID o = ks_NodeID s ->
    wd_workflows (rd_w d) !! rs_WorkflowID o = Some w -> wf_UserID w = Some (ks_UserID s) -> is_open w = false
}.

Record deletions_safe (d : RDB) : Prop := {
  (** the unique column global_users.legacy_user_id *)
  de_legacy : forall user user' legacy, legacy_ids (core d) !! user = Some (Some legacy) ->
    legacy_ids (core d) !! user' = Some (Some legacy) -> user' = user;
  (** the foreign key of restore_operations *)
  de_restores : forall op o, rd_restores d !! op = Some o -> is_Some (wd_workflows (rd_w d) !! rs_WorkflowID o);
  de_unique : tasks_unique (wd_cleanups (rd_w d));
  de_owned : tasks_owned (rd_w d);
  de_reserved : forall id s, running_at (rd_w d) id s -> reserved d s;
  (** one cleanup runs at a place *)
  de_alone : forall id id' s s', running_at (rd_w d) id s -> running_at (rd_w d) id' s' ->
    ks_UserID s = ks_UserID s' -> ks_NodeID s = ks_NodeID s' -> id = id'
}.

(** The operations of restores keep their workflow and their target. *)
Definition ops_stay (m m' : gmap string RestoreOperation) : Prop :=
  forall op o', m' !! op = Some o' ->
    exists o, m !! op = Some o /\ rs_WorkflowID o' = rs_WorkflowID o /\ rs_TargetNodeID o' = rs_TargetNodeID o.

Definition r_calm (d d' : RDB) : Prop := calm (rd_w d) (rd_w d') /\ ops_stay (rd_restores d) (rd_restores d').

#[export] Instance r_calm_preorder : PreOrder r_calm.
Proof.
  split.
  - intros d. split; [done|]. intros op o Hl. eauto.
  - intros d1 d2 d3 [H1 O1] [H2 O2]. split; [by etrans|]. intros op o3 Hl. destruct (O2 _ _ Hl) as (o2 & Hl2 & E1 & E2).
    destruct (O1 _ _ Hl2) as (o1 & Hl1 & E3 & E4). exists o1. repeat split; congruence.
Qed.

Lemma ops_stay_refl m : ops_stay m m.
Proof. intros op o Hl. eauto. Qed.

Lemma reserved_owner d s : deletions_safe d -> reserved d s -> owner_known (rd_w d) s.
Proof. intros Hs Ht. split; [apply (de_legacy _ Hs) | apply (re_owner _ _ Ht)]. Qed.

Lemma calm_reserved d d' id s :
  r_calm d d' -> deletions_safe d -> running_at (rd_w d') id s -> reserved d' s.
Proof.
  intros [Hc Ho] Hs Hr. pose proof (ca_running _ _ Hc _ _ Hr) as Hr0. pose proof (de_reserved _ Hs _ _ Hr0) as Ht.
  split; unfold core in *.
  - rewrite (ca_ids _ _ Hc). apply (re_owner _ _ Ht).
  - rewrite (ca_homes _ _ Hc). apply (re_home _ _ Ht).
  - intros c' Hc'. destruct (ca_copies _ _ Hc _ _ _ Hr Hc') as (c & Hc0 & -> & -> & Ha).
    destruct (re_copy _ _ Ht _ Hc0) as (H1 & H2 & H3). repeat split; [done | done |].
    destruct (rc_IsAuthoritative c'); [|done]. by rewrite Ha in H3.
  - intros r' Hr' Hrd. destruct (ca_replicas _ _ Hc _ _ _ (reserved_owner _ _ Hs Ht) Hr Hr' Hrd) as (r & Hr1 & Hrd0).
    by apply (re_replica _ _ Ht _ Hr1).
  - intros op o' w' Hop Ht' Hw Hu. destruct (Ho _ _ Hop) as (o & Hop0 & E1 & E2). rewrite E1 in Hw. rewrite E2 in Ht'.
    destruct (de_restores _ Hs _ _ Hop0) as [w Hw0]. destruct (ca_flows _ _ Hc _ _ Hw0) as (w2 & Hw2 & E3 & E4).
    assert (w2 = w') as -> by congruence. rewrite E3 in Hu. pose proof (re_restore _ _ Ht _ _ _ Hop0 Ht' Hw0 Hu) as Hclosed.
    destruct (is_open w'); [|done]. by rewrite E4 in Hclosed.
Qed.

Lemma calm_safe d d' : r_calm d d' -> deletions_safe d -> deletions_safe d'.
Proof.
  intros Hrc Hs. pose proof Hrc as [Hc Ho]. split.
  - unfold core. rewrite (ca_ids _ _ Hc). apply (de_legacy _ Hs).
  - intros op o' Hop. destruct (Ho _ _ Hop) as (o & Hop0 & -> & _). destruct (de_restores _ Hs _ _ Hop0) as [w Hw].
    destruct (ca_flows _ _ Hc _ _ Hw) as (w' & Hw' & _). eauto.
  - apply (ca_unique _ _ Hc), (de_unique _ Hs).
  - apply (ca_owned _ _ Hc), (de_owned _ Hs).
  - intros id s Hr. by eapply calm_reserved.
  - intros id id' s s' Hr Hr'. apply (de_alone _ Hs); by apply (ca_running _ _ Hc).
Qed.

(** The tasks stay, with what they are about. *)
Definition scopes_stay (d d' : RDB) : Prop :=
  forall id t, wd_cleanups (rd_w d) !! id = Some t ->
    exists t', wd_cleanups (rd_w d') !! id = Some t' /\ task_scope t' = task_scope t.

(** A step that keeps both. *)
Definition kept_safe (d d' : RDB) : Prop := deletions_safe d' /\ scopes_stay d d'.

Lemma scopes_refl d : scopes_stay d d.
Proof. intros id t Hl. eauto. Qed.

Lemma kept_trans d1 d2 d3 : kept_safe d1 d2 -> kept_safe d2 d3 -> kept_safe d1 d3.
Proof.
  intros [_ H1] [Hs H2]. split; [done|]. intros id t Hl. destruct (H1 _ _ Hl) as (t2 & Hl2 & E2).
  destruct (H2 _ _ Hl2) as (t3 & Hl3 & E3). exists t3. split; [done | congruence].
Qed.

Lemma calm_kept d d' : r_calm d d' -> deletions_safe d -> kept_safe d d'.
Proof. intros Hc Hs. split; [by eapply calm_safe | exact (ca_scope _ _ (proj1 Hc))]. Qed.

Lemma same_kept d : deletions_safe d -> kept_safe d d.
Proof. intros Hs. split; [done | apply scopes_refl]. Qed.

(** Idle places. *)
Lemma home_idle d user legacy home :
  deletions_safe d -> legacy_ids (core d) !! user = Some (Some legacy) -> wd_homes (rd_w d) !! legacy = Some home ->
  idle_place user home (rd_w d).
Proof.
  intros Hs Hu Hh id s Hr <- <-. pose proof (de_reserved _ Hs _ _ Hr) as Ht. apply (re_home _ _ Ht).
  pose proof (re_owner _ _ Ht). congruence.
Qed.

Lemma ready_idle d user legacy node r :
  deletions_safe d -> legacy_ids (core d) !! user = Some (Some legacy) ->
  wd_replicas (rd_w d) !! (legacy, node) = Some r -> ur_State r = "ready"%string -> idle_place user node (rd_w d).
Proof.
  intros Hs Hu Hr Hs' id s Ht <- <-. pose proof (de_reserved _ Hs _ _ Ht) as Hres.
  pose proof (re_owner _ _ Hres) as Ho. apply (re_replica _ _ Hres r); [|done]. by simplify_eq.
Qed.

(** ** Statements of the recovery *)

Lemma same_w_calm d d' : rd_w d' = rd_w d -> rd_restores d' = rd_restores d -> r_calm d d'.
Proof. intros E1 E2. split; rewrite ?E1, ?E2; [done | apply ops_stay_refl]. Qed.

Lemma w_calm d w : calm (rd_w d) w -> r_calm d (set_rd_w w d).
Proof. intros Hc. split; [done | apply ops_stay_refl]. Qed.

Lemma in_w_calm {A} (m : WTx A) : tx_rel calm m -> tx_rel r_calm (in_w m).
Proof. apply tx_rel_in_w. apply w_calm. Qed.

Lemma write_calm (f : RDB -> RDB) : (forall d, r_calm d (f d)) -> tx_rel r_calm (tx_write f).
Proof. intros Hf d a d' [_ ->]%tx_write_ok. apply Hf. Qed.

Lemma w_write_calm (f : WDB -> WDB) : (forall w, calm w (f w)) -> tx_rel r_calm (in_w (tx_write f)).
Proof. intros Hf. apply in_w_calm. intros w a w' [_ ->]%tx_write_ok. apply Hf. Qed.

(** A change of copies at idle places; elsewhere only the authority goes. *)
Lemma copies_calm (m : gmap (Z * Z) ReplicaCopy) w :
  (forall user node c', m !! (user, node) = Some c' -> idle_place user node w \/
     exists c, wd_copies w !! (user, node) = Some c /\ rc_SnapshotID c' = rc_SnapshotID c /\ rc_Kind c' = rc_Kind c
               /\ (rc_IsAuthoritative c' = true -> rc_IsAuthoritative c = true)) ->
  calm w (put_copies m w).
Proof.
  intros Hm. split; cbn; eauto 6 using flows_stay_refl. intros id s c' Hr Hc.
  destruct (Hm _ _ _ Hc) as [Hi|Hx]; [by destruct (Hi _ _ Hr) | done].
Qed.

Lemma upsert_copy_calm u n fresh again d a d' :
  upsert_copy u n fresh again d = Ok (a, d') -> idle_place u n (rd_w d) -> r_calm d d'.
Proof.
  intros (c' & -> & _)%upsert_copy_ok Hi. apply w_calm, copies_calm.
  intros u' n' c [[[= -> ->] <-]|[_ Hl]]%lookup_insert_Some; [by left | right; eauto 6].
Qed.

Section Retention.
Context `{Postgres}.

Ltac calm_frame := rtx_frame ltac:(first [apply in_w_calm; solve [tx_frame] | apply w_write_calm; intros ?; solve [by apply same_calm]]).

(** A statement that is one test and one write in another table. *)
Ltac calm_table :=
  intros ? ? ? Hw; cbv beta zeta in Hw;
  repeat match type of Hw with
  | (match ?x with _ => _ end) = Ok _ => destruct x eqn:?; try discriminate Hw
  end; injection Hw as ? <-; first [by apply same_w_calm | by apply w_calm, same_calm].

Lemma audit_calm uses a t op g det : tx_rel r_calm (insert_audit uses a t op g det).
Proof. unfold insert_audit. calm_frame. Qed.

Lemma write_faults_calm m : tx_rel r_calm (write_faults m).
Proof. unfold write_faults. calm_table. Qed.

Lemma update_fault_calm fid p f : tx_rel r_calm (update_fault fid p f).
Proof.
  intros d b d' E. unfold update_fault in E. destruct (rd_faults d !! fid); [|by injection E as _ <-].
  destruct (p d _); [|by injection E as _ <-]. destruct (write_faults _ d) as [[u d1]|] eqn:Ew; [|done].
  injection E as _ <-. by eapply write_faults_calm.
Qed.

Lemma claim_fault_calm fid p f task : tx_rel r_calm (claim_fault fid p f task).
Proof.
  intros d b d' E. unfold claim_fault in E. destruct (rd_faults d !! fid); [|by injection E as _ <-].
  destruct (active_generation _); [|by injection E as _ <-].
  destruct (p _); [|by injection E as _ <-]. destruct (write_faults _ d) as [[u d1]|] eqn:Ew; [|done].
  injection E as _ <-. by eapply write_faults_calm.
Qed.

Lemma ready_calm u : tx_rel r_calm (requireUserDataFaultRecoveryReadyLocked u).
Proof. intros d a d' [_ ->]%ready_ok. done. Qed.

#[local] Hint Resolve audit_calm write_faults_calm update_fault_calm claim_fault_calm ready_calm : rtx_frame.

(** An operation: refused before its transaction, or the transaction. *)
Ltac calm_op :=
  repeat match goal with |- r_calm _ (if ?b then _ else _).2 => destruct b; [done|] end;
  repeat match goal with |- r_calm _ (if ?b then _ else _).2 => destruct b; [|done] end;
  apply (tx_rel_run r_calm); calm_frame.

Lemma freeze_calm clock fid op w now later d : r_calm d (CompleteUserDataFaultFreeze clock fid op w now later d).2.
Proof.
  unfold CompleteUserDataFaultFreeze. destruct (negb _); [done|]. cbv zeta.
  match goal with |- context [runTx ?m d] => assert (tx_rel r_calm m) as Hm by calm_frame;
    pose proof (tx_rel_run r_calm m d Hm) as Hr; destruct (runTx m d) as [[?|?] ?] end; done.
Qed.

Lemma foldl_calm {X} (f : RDB -> X -> RDB) (l : list X) d : (forall d x, r_calm d (f d x)) -> r_calm d (foldl f d l).
Proof. intros Hf. revert d. induction l as [|x l IH]; intros d; cbn; [done|]. etrans; [apply Hf | apply IH]. Qed.

Lemma freeze_users_calm now : tx_rel r_calm (freeze_users now).
Proof.
  apply write_calm. intros d. apply w_calm, same_calm; try reflexivity. cbn. unfold legacy_ids. cbn. apply map_eq. intros u.
  rewrite !lookup_fmap, update_where_lookup. unfold core. destruct (db_users _ !! u) as [g|]; [|done]. cbn.
  match goal with |- context [if ?b then _ else _] => by destruct b end.
Qed.

Lemma reconcile_calm clock newid ev now grace d : r_calm d (ReconcileProtectionStates clock newid ev now grace d).2.
Proof.
  unfold ReconcileProtectionStates. destruct (grace <=? 0); [done|]. apply (tx_rel_run r_calm).
  unfold reconcileProtectionStatesOnce. calm_frame.
  - unfold project_states. calm_table.
  - apply write_calm. intros d0. apply foldl_calm. intros d1 x. unfold open_conflict. destruct (_ || _); by apply same_w_calm.
  - apply write_calm. intros d0. apply foldl_calm. intros d1 x. unfold capture_conflict. cbv zeta.
    match goal with |- context [foldl ?f d1 ?l] => assert (r_calm d1 (foldl f d1 l)) as Hf end.
    { apply foldl_calm. intros d2 y. by apply (w_calm d2), same_calm. }
    destruct (_ && _); [|done]. etrans; [exact Hf | by apply same_w_calm].
  - apply write_calm. intros d0. by apply same_w_calm.
  - apply freeze_users_calm.
  - intros d0 n d' [= _ <-]. apply foldl_calm. intros d1 x. unfold open_alert. cbv zeta.
    repeat case_match; by apply (w_calm d1), same_calm.
  - unfold resolve_alerts. calm_table.
Qed.

Lemma update_replica_calm l n p f :
  (forall r, ur_State (f r) <> "ready"%string) -> tx_rel r_calm (update_replica l n p f).
Proof.
  intros Hf d b d' E. unfold update_replica in E. destruct (wd_replicas _ !! _) as [r|] eqn:Hl; [|by injection E as _ <-].
  destruct (p r); [|by injection E as _ <-]. injection E as _ <-. by apply w_calm, insert_replica_calm.
Qed.

(** ** Restores *)

Lemma syncing_replica_calm l n : tx_rel r_calm (syncing_replica l n).
Proof.
  intros d a d' E. unfold syncing_replica in E. destruct (_ && _); [|done]. injection E as _ <-.
  apply w_calm, insert_replica_calm. by destruct (wd_replicas _ !! _).
Qed.

Lemma restore_operation_calm p : tx_rel r_calm (getRestoreOperation p).
Proof. intros d r d' E. by rewrite (restore_replay_same p d r d' E). Qed.

Lemma require_idle_calm u now : tx_rel r_calm (require_idle u now).
Proof. unfold require_idle. calm_frame. Qed.

#[local] Hint Resolve syncing_replica_calm restore_operation_calm require_idle_calm : rtx_frame.

(** A new restore of a target that no cleanup is deleting. *)
Lemma insert_restore_safe op o d id d' w user :
  insert_restore op o d = Ok (id, d') -> deletions_safe d -> wd_workflows (rd_w d) !! rs_WorkflowID (o id) = Some w ->
  wf_UserID w = Some user -> idle_place user (rs_TargetNodeID (o id)) (rd_w d) -> kept_safe d d'.
Proof.
  intros E Hs Hw Hu Hi. assert (rd_w d' = rd_w d) as Hsame by (unfold insert_restore in E; repeat case_match; by simplify_eq).
  split; [|intros tid t Hl; rewrite Hsame; eauto]. clear Hsame. unfold insert_restore in E. destruct (rd_restores d !! op); [done|].
  destruct (_ && _); [|done]. injection E as <- <-. destruct Hs as [D1 D2 D3 D3o D4 D5]. split; try done.
  - intros op' o' Hl. cbn in Hl. apply lookup_insert_Some in Hl as [[<- <-]|[_ Hl]]; [by eexists | by eapply D2].
  - intros tid s Hr. destruct (D4 _ _ Hr) as [R1 R2 R3 R4 R5]. split; try done.
    intros op' o' w' Hop Ht Hw' Hu'. cbn in Hop, Hw'. apply lookup_insert_Some in Hop as [[<- <-]|[_ Hop]]; [|by eapply R5].
    simplify_eq. by destruct (Hi _ _ Hr).
Qed.

Lemma target_clear_idle d user node handle : target_clear d user node handle = true -> idle_place user node (rd_w d).
Proof.
  unfold target_clear, cleanup_active. intros Hc. b2p. intros id s (t & Hl & Hr & <-) Hu Hn.
  match goal with Hq : Nat.eqb _ 0 = true |- _ => apply (rows_where_none _ _ _ _ Hq) in Hl end.
  cbn in Hu, Hn. unfold running, state_in in Hr. b2p. apply list_elem_of_singleton in Hr. unfold cleanup_open in Hl.
  rewrite Hu, Hn, Hr, Z.eqb_refl, bool_decide_eq_true_2 in Hl; [done | by left].
Qed.

Lemma insert_workflow_row wid op ty u s t e g mode now d a d' :
  insert_workflow wid op ty u s t e g mode now d = Ok (a, d') ->
  exists w, wd_workflows d' !! wid = Some w /\ wf_UserID w = Some u.
Proof.
  intros E. unfold insert_workflow, write_workflows in E. destruct (wd_workflows d !! wid); [done|].
  destruct (_ && _); [|done]. destruct (workflows_ok _); [|done]. injection E as _ <-. cbn.
  rewrite lookup_insert_eq. eexists. split; [reflexivity | done].
Qed.

Lemma restore_rows_safe p s op g now d x d' :
  restore_rows p s op g now d = Ok (x, d') -> deletions_safe d ->
  idle_place (cr_GlobalUserID p) (cr_TargetNodeID p) (rd_w d) -> kept_safe d d'.
Proof.
  intros E Hs Hi. unfold restore_rows in E. cbv zeta in E.
  apply tx_bind_ok in E as (wid & d0 & [_ ->]%uuid_param_ok & E).
  apply tx_bind_ok in E as (u1 & d1 & E1 & E). pose proof E1 as (w1 & Ew & ->)%in_w_ok.
  destruct (insert_workflow_row _ _ _ _ _ _ _ _ _ _ _ _ _ Ew) as (w & Hw & Hu).
  assert (r_calm d (set_rd_w w1 d)) as C1 by (by apply w_calm, (insert_workflow_calm _ _ _ _ _ _ _ _ _ _ _ _ _ Ew)).
  apply tx_bind_ok in E as (prov & d2 & E2 & E). assert (r_calm (set_rd_w w1 d) d2) as C2 by
    (by eapply (in_w_calm _ (prepareWorkflowTargetAccount_calm _ _ _ _ _))).
  apply tx_bind_ok in E as (sid & d0 & [_ ->]%uuid_param_ok & E). apply tx_bind_ok in E as (u3 & d3 & E3 & E).
  assert (r_calm d2 d3) as C3 by (by eapply (in_w_calm _ (insert_manifest_calm _ _ _ _ _ _))).
  apply tx_bind_ok in E as (cid & d0 & [_ ->]%uuid_param_ok & E). apply tx_bind_ok in E as (u4 & d4 & E4 & E).
  assert (r_calm d3 d4) as C4 by (by eapply (in_w_calm _ (insert_cap_calm _ _ _ _ _ _ _ _ _))).
  apply tx_bind_ok in E as (u5 & d5 & E5 & E).
  assert (r_calm d4 d5) as C5 by (by eapply (in_w_calm _ (insert_steps_calm _ _ _))).
  apply tx_bind_ok in E as (job & d6 & E6 & E).
  assert (r_calm (set_rd_w w1 d) d5) as C25 by (do 3 (etrans; [eassumption|]); done).
  assert (r_calm d d5) as C15 by (by etrans).
  destruct (ca_flows _ _ (proj1 C25) _ _ Hw) as (w5 & Hw5 & Hu5 & _). rewrite Hu in Hu5.
  apply (insert_restore_safe _ _ _ _ _ w5 (cr_GlobalUserID p)) in E6;
    [|by apply (calm_safe d) | done | done | by apply (calm_idle _ _ (rd_w d)); [apply C15|]].
  match type of E with ?m _ = _ => assert (tx_rel r_calm m) as Hrest by calm_frame end.
  apply (kept_trans d d5); [by apply calm_kept|]. apply (kept_trans d5 d6); [done|].
  apply calm_kept; [exact (Hrest _ _ _ E) | apply E6].
Qed.

Lemma create_safe clock p d : deletions_safe d -> kept_safe d (CreateRestoreWorkflow clock p d).2.
Proof.
  intros Hs. pose proof (same_kept _ Hs) as Hsame. unfold CreateRestoreWorkflow. cbv zeta. destruct (_ && _); [|done]. unfold runTx.
  destruct (create_restore_tx _ _ d) as [[x d']|e] eqn:E; [|done]. cbn. unfold create_restore_tx in E.
  apply tx_bind_ok in E as (g0 & d0 & [_ ->]%rselect_ok & E). apply tx_bind_ok in E as (replay & d0 & E0 & E).
  apply restore_replay_same in E0 as ->. destruct replay; [by apply tx_ret_ok in E as [_ ->]|].
  unfold new_restore in E. cbv zeta in E. apply tx_bind_ok in E as (u1 & d0 & [_ ->]%ready_ok & E).
  apply tx_bind_ok in E as (g & d0 & [_ ->]%rselect_ok & E). apply tx_bind_ok in E as (u2 & d0 & E2 & E).
  assert (d0 = d) as ->. { unfold require_idle in E2. apply tx_bind_ok in E2 as (l & d1 & [_ ->]%tx_read_ok & [_ ->]%require_ok). done. }
  apply tx_bind_ok in E as (b & d0 & [_ ->]%tx_read_ok & E). apply tx_bind_ok in E as (u3 & d0 & [_ ->]%require_ok & E).
  apply tx_bind_ok in E as (s & d0 & [_ ->]%rselect_ok & E). apply tx_bind_ok in E as (h & d0 & [_ ->]%tx_lift_ok & E).
  apply tx_bind_ok in E as (u4 & d0 & [_ ->]%require_ok & E). apply tx_bind_ok in E as (ready & d0 & [Hr ->]%tx_read_ok & E).
  apply tx_bind_ok in E as (u5 & d0 & [Hready ->]%require_ok & E). apply tx_bind_ok in E as (op & d0 & [_ ->]%uuid_param_ok & E).
  apply tx_bind_ok in E as ([job prov] & d1 & E1 & E). apply tx_ret_ok in E as [_ ->].
  eapply restore_rows_safe; [exact E1 | done |]. subst ready. unfold target_ready in Hready.
  destruct (node_of _ _); [|done]. b2p. by eapply target_clear_idle.
Qed.

Lemma rows_head_in `{Countable K} {V} (p : K -> V -> bool) (m : gmap K V) k v :
  head (rows_where p m) = Some (k, v) -> m !! k = Some v /\ p k v = true.
Proof.
  intros Hh. apply rows_where_elem. destruct (rows_where p m) as [|x l]; [done|]. injection Hh as ->. by left.
Qed.

Lemma restore_by_workflow_row d wid op o :
  restore_by_workflow d wid = Some (op, o) -> rd_restores d !! op = Some o /\ rs_WorkflowID o = wid.
Proof. intros [Hl Hp]%rows_head_in. by b2p. Qed.

(** A row of the operations is written back with its workflow and its target. *)
Lemma rewrite_restore_calm op o o' d :
  rd_restores d !! op = Some o -> rs_WorkflowID o' = rs_WorkflowID o -> rs_TargetNodeID o' = rs_TargetNodeID o ->
  r_calm d (set_rd_restores (<[op := o']> (rd_restores d)) d).
Proof.
  intros Hl E1 E2. split; [done|]. intros op' o2 Hl2. cbn in Hl2. apply lookup_insert_Some in Hl2 as [[<- <-]|[_ Hl2]]; eauto.
Qed.

(** The operations are not touched by a statement of the workflows. *)
Definition same_ops (d d' : RDB) : Prop := rd_restores d' = rd_restores d.

#[local] Instance same_ops_preorder : PreOrder same_ops.
Proof. split; [done|]. unfold same_ops. intros d1 d2 d3. congruence. Qed.

Lemma in_w_ops {A} (m : WTx A) : tx_rel same_ops (in_w m).
Proof. by intros d a d' (w & _ & ->)%in_w_ok. Qed.

Lemma abandon_target_ops u l t now : tx_rel same_ops (abandon_target u l t now).
Proof.
  unfold abandon_target. apply tx_rel_bind; [exact _ | | intros b; apply in_w_ops].
  intros d b d' E. unfold update_replica in E. repeat case_match; by injection E as _ <-.
Qed.

Lemma abandon_target_calm u l t now : tx_rel r_calm (abandon_target u l t now).
Proof.
  unfold abandon_target. calm_frame; [by apply update_replica_calm|].
  apply w_write_calm. intros w0. destruct (db_accounts _ !! _); [|done]. destruct (String.eqb _ _); by apply same_calm.
Qed.

#[local] Hint Resolve abandon_target_calm : rtx_frame.

(** A finite sequence of calm statements before the operation is written back. *)
Lemma fail_restore_calm clock wid code s now d : r_calm d (FailRestoreWorkflow clock wid code s now d).2.
Proof.
  unfold FailRestoreWorkflow. destruct (_ || _); [done|]. apply (tx_rel_run r_calm). intros d0 a d' E.
  unfold fail_restore_tx in E. apply tx_bind_ok in E as (id & d1 & [_ ->]%uuid_param_ok & E).
  apply tx_bind_ok in E as (x & d1 & [Hrow ->]%rselect_ok & E). destruct x as [[[[w op] o] user] legacy].
  apply tx_bind_ok in E as (l & d1 & [_ ->]%tx_lift_ok & E). apply tx_bind_ok in E as (t & d1 & [_ ->]%tx_lift_ok & E).
  destruct (String.eqb (wf_State w) "failed"); [by apply tx_ret_ok in E as [_ ->]|].
  apply tx_bind_ok in E as (u1 & d1 & [_ ->]%require_ok & E).
  assert (rd_restores d0 !! op = Some o) as Hop.
  { unfold failing_row in Hrow. destruct (wd_workflows _ !! _); [|done]. cbn in Hrow.
    destruct (restore_by_workflow d0 id) as [[op0 o0]|] eqn:Hx; [|done]. cbn in Hrow. destruct (wf_UserID _); [|done].
    cbn in Hrow. destruct (db_users _ !! _); [|done]. cbn in Hrow. simplify_eq. by eapply restore_by_workflow_row. }
  apply tx_bind_ok in E as (n & d1 & E1 & E). apply tx_bind_ok in E as (u2 & d2 & [_ ->]%require_ok & E).
  apply tx_bind_ok in E as (u3 & d3 & E3 & E). apply tx_bind_ok in E as (u4 & d4 & E4 & E).
  apply tx_bind_ok in E as (u5 & d5 & E5 & E). apply tx_bind_ok in E as (u6 & d6 & E6 & E).
  apply tx_bind_ok in E as (u7 & d7 & E7 & E).
  etrans; [eapply in_w_calm; [|exact E1]; apply update_workflows_calm; intros; b2p; by apply row_stays_open|].
  etrans; [eapply in_w_calm; [|exact E3]; apply update_steps_calm|]. etrans; [eapply in_w_calm; [|exact E4]; apply revoke_caps_calm|].
  etrans; [eapply w_write_calm; [|exact E5]; intros; by apply same_calm|]. etrans; [by eapply abandon_target_calm|].
  apply in_w_ops in E1, E3, E4, E5. apply abandon_target_ops in E6. apply tx_write_ok in E7 as [_ ->].
  etrans; [|by eapply audit_calm]. apply (rewrite_restore_calm op o); [|done|done].
  unfold same_ops in *. by rewrite E6, E5, E4, E3, E1.
Qed.

(** ** Homes that move *)

(** The replica of the target becomes the ready home, the old one is stale. *)
Lemma rehome_safe d user legacy old target r1 r2 :
  deletions_safe d -> legacy_ids (core d) !! user = Some (Some legacy) -> idle_place user target (rd_w d) ->
  ur_State r1 <> "ready"%string ->
  deletions_safe (set_rd_w (put_homes (<[legacy := target]> (wd_homes (rd_w d)))
    (put_replicas (<[(legacy, target) := r2]> (<[(legacy, old) := r1]> (wd_replicas (rd_w d)))) (rd_w d))) d).
Proof.
  intros [D1 D2 D3 D3o D4 D5] Hu Hi Hr1. split; try done. intros id s Hr. destruct (D4 _ _ Hr) as [R1 R2 R3 R4 R5].
  assert (ks_LegacyUserID s = legacy -> ks_NodeID s <> target) as Hne.
  { intros <- <-. apply (Hi _ _ Hr); [|done]. by eapply D1. }
  split; try done; cbn.
  - intros [[E1 E2]|[_ Hh]]%lookup_insert_Some; [by apply Hne | done].
  - intros r [[[= E1 E2] _]|[_ Hp]]%lookup_insert_Some; [by destruct Hne|].
    apply lookup_insert_Some in Hp as [[_ <-]|[_ Hp]]; [done | by eapply R4].
Qed.

Lemma promote_replica_safe user l old t d a d' :
  promote_replica l old t d = Ok (a, d') -> deletions_safe d -> legacy_ids (core d) !! user = Some (Some l) ->
  is_Some (db_legacy (core d) !! l) -> wd_homes (rd_w d) !! l = Some old ->
  kept_safe d d' /\ idle_place user old (rd_w d') /\ idle_place user t (rd_w d') /\ rd_restores d' = rd_restores d.
Proof.
  intros E Hs Hu Hx Hh. unfold promote_replica in E. apply tx_bind_ok in E as (b & d1 & E1 & E).
  apply tx_bind_ok in E as (u1 & d2 & [Hb ->]%require_ok & E). apply tx_bind_ok in E as (b2 & d3 & E3 & E).
  apply tx_bind_ok in E as (u2 & d4 & [Hb2 ->]%require_ok & E). apply tx_bind_ok in E as (b3 & d5 & E5 & E).
  apply tx_ret_ok in E as [_ ->]. apply (update_replica_ok _ _ _ _ _ _ _ E1) in Hb as (r & Hr & Hp & ->).
  apply (update_replica_ok _ _ _ _ _ _ _ E3) in Hb2 as (r2 & Hr2 & Hp2 & ->). apply set_home_ok in E5 as ->; [|by right].
  b2p. assert (idle_place user t (rd_w d)) as Hi.
  { cbn in Hr2. apply lookup_insert_Some in Hr2 as [[_ E]|[_ Hr2]]; [subst r2; done | by eapply ready_idle]. }
  split; [|split; [exact (home_idle d user l old Hs Hu Hh) | done]]. split; [|intros id t0 Hl; eauto].
  by apply (rehome_safe d user l old t (replica_set "hot_standby" "stale" r) (replica_set "home" "ready" r2)).
Qed.

Lemma promote_copy_calm clock cid sid u old t now d a d' :
  promote_copy clock cid sid u old t now d = Ok (a, d') -> idle_place u old (rd_w d) -> idle_place u t (rd_w d) -> r_calm d d'.
Proof.
  intros E Ho Ht. unfold promote_copy in E. apply tx_bind_ok in E as (u1 & d1 & ->%write_copies_ok & E).
  apply tx_bind_ok in E as (u2 & d2 & E2 & E).
  match type of E2 with _ ?e = _ => assert (r_calm d e) as C1 end.
  { apply w_calm, copies_calm. intros u' n' c' Hl. right. rewrite update_where_lookup in Hl.
    destruct (wd_copies (rd_w d) !! (u', n')) as [c|]; [|done]. cbn in Hl. injection Hl as <-. exists c. split; [done|].
    by destruct (_ && _). }
  etrans; [exact C1|]. pose proof (upsert_copy_calm _ _ _ _ _ _ _ E2 (calm_idle _ _ _ _ (proj1 C1) Ho)) as C2.
  etrans; [exact C2|]. destruct (wd_copies (rd_w d2) !! (u, t)) as [c|]; [|done]. destruct (_ && _); [|done].
  apply write_copies_ok in E as ->. apply w_calm, copies_calm.
  intros u' n' c' [[[= <- <-] <-]|[_ Hl]]%lookup_insert_Some; [left | right; eauto 6].
  eapply calm_idle; [apply C2|]. by eapply calm_idle; [apply C1|].
Qed.

Lemma move_home_safe user p l old t v now d a d' :
  move_home p l old t v now d = Ok (a, d') -> deletions_safe d -> legacy_ids (core d) !! user = Some (Some l) ->
  idle_place user t (rd_w d) ->
  kept_safe d d' /\ (forall u n, idle_place u n (rd_w d) -> idle_place u n (rd_w d')) /\ rd_restores d' = rd_restores d.
Proof.
  intros E Hs Hu Hi. unfold move_home in E. apply tx_bind_ok in E as (b & d1 & E1 & E).
  apply tx_bind_ok in E as (u1 & d2 & [Hb ->]%require_ok & E). apply tx_bind_ok in E as (b2 & d3 & E3 & E).
  apply tx_bind_ok in E as (u2 & d4 & [Hb2 ->]%require_ok & E). apply tx_bind_ok in E as (b3 & d5 & E5 & E).
  apply require_ok in E as [Hb3 ->]. apply (update_replica_ok _ _ _ _ _ _ _ E1) in Hb as (r & Hr & Hp & ->).
  apply (update_replica_ok _ _ _ _ _ _ _ E3) in Hb2 as (r2 & Hr2 & Hp2 & ->). apply set_home_ok in E5 as ->; [|by left].
  split; [|done]. split; [|intros id t0 Hl; eauto]. by apply (rehome_safe d user l old t (replica_set "hot_standby" "stale" r)).
Qed.

Lemma move_authority_calm clock cid sid u old t now d a d' :
  move_authority clock cid sid u old t now d = Ok (a, d') -> idle_place u t (rd_w d) -> r_calm d d'.
Proof.
  intros E Ht. unfold move_authority in E. apply tx_bind_ok in E as (u1 & d1 & ->%write_copies_ok & E).
  match type of E with _ ?e = _ => assert (r_calm d e) as C1 end.
  { apply w_calm, copies_calm. intros u' n' c' Hl. right. rewrite map_lookup_imap in Hl.
    destruct (wd_copies (rd_w d) !! (u', n')) as [c|]; [|done]. cbn in Hl. injection Hl as <-. exists c. split; [done|].
    by destruct (_ && _). }
  etrans; [exact C1|]. eapply upsert_copy_calm; [exact E|]. by eapply calm_idle; [apply C1|].
Qed.

Lemma end_lease_calm u now : tx_rel r_calm (end_user_lease u now).
Proof. apply w_write_calm. intros w. by apply same_calm. Qed.

Lemma revoke_tickets_calm u now : tx_rel r_calm (revoke_user_tickets u now).
Proof. apply w_write_calm. intros w. by apply same_calm. Qed.

Lemma swap_accounts_calm u t o now : tx_rel r_calm (swap_accounts u t o now).
Proof. unfold swap_accounts. calm_table. Qed.

Lemma insert_takeover_calm op o : tx_rel r_calm (insert_takeover op o).
Proof. unfold insert_takeover. calm_table. Qed.

Lemma protect_anew_calm u n r now : tx_rel r_calm (protect_anew u n r now).
Proof. unfold protect_anew. calm_table. Qed.

Lemma resolve_fault_alert_calm u now : tx_rel r_calm (resolve_fault_alert u now).
Proof. apply w_write_calm. intros w. by apply same_calm. Qed.

#[local] Hint Resolve end_lease_calm revoke_tickets_calm swap_accounts_calm insert_takeover_calm protect_anew_calm
  resolve_fault_alert_calm : rtx_frame.

Lemma resolve_fault_calm u k op now : tx_rel r_calm (resolveUserDataFaultLocked u k op now).
Proof. unfold resolveUserDataFaultLocked. calm_frame. intros ? ? ? E. by eapply write_faults_calm. Qed.

#[local] Hint Resolve resolve_fault_calm : rtx_frame.

Lemma take_over_safe clock cid op p l old g lease sid at_ now d a d' :
  take_over clock cid op p l old g lease sid at_ now d = Ok (a, d') -> deletions_safe d ->
  legacy_ids (core d) !! kp_GlobalUserID p = Some (Some l) -> is_Some (db_legacy (core d) !! l) ->
  wd_homes (rd_w d) !! l = Some old -> kept_safe d d'.
Proof.
  intros E Hs Hu Hx Hh. unfold take_over in E. cbv zeta in E. apply tx_bind_ok in E as (u1 & d1 & E1 & E).
  destruct (promote_replica_safe _ _ _ _ _ _ _ E1 Hs Hu Hx Hh) as (Hs1 & Ho & Ht & _).
  apply tx_bind_ok in E as (u2 & d2 & E2 & E). apply tx_bind_ok in E as (u3 & d3 & E3 & E).
  assert (r_calm d1 d3) as C1.
  { etrans; [|by eapply revoke_tickets_calm]. destruct lease; [exact (end_lease_calm _ _ _ _ _ E2)|].
    by apply (tx_ret_ok tt) in E2 as [_ ->]. }
  apply tx_bind_ok in E as (u4 & d4 & E4 & E).
  apply promote_copy_calm in E4; [|by eapply calm_idle; [apply C1|]..].
  match type of E with ?m _ = _ => assert (tx_rel r_calm m) as Hrest by calm_frame end. apply Hrest in E.
  apply (kept_trans d d1); [done|]. apply calm_kept; [|apply Hs1]. by do 2 (etrans; [eassumption|]).
Qed.

Lemma takeover_safe clock cid p d : deletions_safe d -> kept_safe d (ConfirmReplicaTakeover clock cid p d).2.
Proof.
  intros Hs. pose proof (same_kept _ Hs) as Hsame. unfold ConfirmReplicaTakeover. destruct (negb _); [done|]. unfold runTx.
  destruct (tx_bind _ _ d) as [[r d']|e] eqn:E; [|done]. cbn.
  apply tx_bind_ok in E as (g0 & d1 & [_ ->]%rselect_ok & E). apply tx_bind_ok in E as (replay & d1 & E1 & E).
  apply takeover_replay_same in E1 as ->. destruct replay; [by apply tx_ret_ok in E as [_ ->]|].
  unfold new_takeover in E. cbv zeta in E. apply tx_bind_ok in E as ([l old] & d1 & [Hu ->]%rselect_ok & E).
  apply tx_bind_ok in E as (u1 & d1 & [_ ->]%require_ok & E). apply tx_bind_ok in E as (u2 & d1 & [Hf ->]%ready_ok & E).
  apply tx_bind_ok in E as (g & d1 & [Hg ->]%rselect_ok & E). apply tx_bind_ok in E as (lease & d1 & [Hlease ->]%tx_read_ok & E).
  apply tx_bind_ok in E as (u3 & d1 & [Hi ->]%require_ok & E). apply tx_bind_ok in E as ([sid at_] & d1 & [_ ->]%rselect_ok & E).
  apply tx_bind_ok in E as (op & d1 & [_ ->]%uuid_param_ok & E). apply tx_bind_ok in E as (u4 & d1 & E & E').
  apply tx_ret_ok in E' as [_ ->]. unfold takeover_user in Hu.
  destruct (joined_user d _) as [[[g1 l1] us]|] eqn:Hj; [|done]. destruct (both_active _) eqn:Ha; [|done].
  destruct (wd_homes (rd_w d) !! l1) eqn:Hh; [|done]. injection Hu as -> ->.
  destruct (joined_ids d _ _ _ _ Hj) as [Hid Hx]. by eapply take_over_safe.
Qed.

Lemma seal_restore_calm p wid sid : tx_rel calm (seal_restore p wid sid).
Proof. unfold seal_restore. calm_elsewhere. Qed.

(** The end of a restore, whose operation is still the row that was read. *)
Lemma finish_restore_calm p wid op o now d a d' :
  finish_restore p wid op o now d = Ok (a, d') -> rd_restores d !! op = Some o -> r_calm d d'.
Proof.
  intros E Hop. unfold finish_restore in E. cbv zeta in E.
  apply tx_bind_ok in E as (caps & d1 & [_ ->]%tx_read_ok & E). apply tx_bind_ok in E as (u1 & d1 & E1 & E).
  apply tx_bind_ok in E as (u2 & d2 & [_ ->]%require_ok & E). apply tx_bind_ok in E as (n & d2 & E2 & E).
  apply tx_bind_ok in E as (u3 & d3 & [_ ->]%require_ok & E). apply tx_bind_ok in E as (u4 & d4 & E4 & E).
  apply tx_bind_ok in E as (u5 & d5 & [_ ->]%require_ok & E). apply tx_write_ok in E as [_ ->].
  etrans; [eapply w_write_calm; [|exact E1]; intros; by apply same_calm|].
  etrans; [eapply in_w_calm; [|exact E2]; apply update_workflows_calm; intros; by apply row_stays_closed|].
  etrans; [eapply in_w_calm; [|exact E4]; apply update_steps_calm|].
  apply (rewrite_restore_calm op o); [|done|done]. apply in_w_ops in E1, E2, E4. unfold same_ops in *.
  by rewrite E4, E2, E1.
Qed.

Lemma publish_restore_safe clock cid p wid sid r old now d a d' :
  publish_restore clock cid p wid sid r old now d = Ok (a, d') -> deletions_safe d ->
  legacy_ids (core d) !! rr_User r = Some (Some (rr_Legacy r)) ->
  idle_place (rr_User r) (rs_TargetNodeID (rr_Operation r)) (rd_w d) ->
  rd_restores d !! rr_OpID r = Some (rr_Operation r) -> kept_safe d d'.
Proof.
  intros E Hs Hu Hi Hop. unfold publish_restore in E. cbv zeta in E. apply tx_bind_ok in E as (u1 & d1 & E1 & E).
  pose proof (in_w_ops _ _ _ _ E1) as O1. apply (in_w_calm _ (seal_restore_calm _ _ _)) in E1 as C1.
  apply tx_bind_ok in E as (v & d2 & [_ ->]%tx_read_ok & E). apply tx_bind_ok in E as (u2 & d2 & [_ ->]%require_ok & E).
  apply tx_bind_ok in E as (u3 & d3 & E3 & E).
  apply (move_home_safe (rr_User r)) in E3 as (Hs3 & Hidle & O3);
    [|by apply (calm_safe d) | unfold core; by rewrite (ca_ids _ _ (proj1 C1)) | by eapply calm_idle; [apply C1|]].
  apply tx_bind_ok in E as (u4 & d4 & E4 & E).
  assert (rd_restores d4 = rd_restores d3) as O4.
  { unfold move_authority in E4. apply tx_bind_ok in E4 as (u5 & d5 & ->%write_copies_ok & (c & -> & _)%upsert_copy_ok). done. }
  apply move_authority_calm in E4 as C4; [|apply Hidle; by eapply calm_idle; [apply C1|]].
  apply tx_bind_ok in E as (n & d5 & E5 & E). assert (rd_restores d5 = rd_restores d4) as O5 by (by injection E5 as _ <-).
  apply swap_accounts_calm in E5 as C5. apply tx_bind_ok in E as (u6 & d6 & [_ ->]%require_ok & E).
  apply tx_bind_ok in E as (u7 & d7 & E7 & E). pose proof (in_w_ops _ _ _ _ E7) as O7. apply end_lease_calm in E7 as C7.
  apply tx_bind_ok in E as (u8 & d8 & E8 & E). pose proof (in_w_ops _ _ _ _ E8) as O8. apply revoke_tickets_calm in E8 as C8.
  apply tx_bind_ok in E as (u9 & d9 & E9 & E). unfold same_ops in *.
  apply finish_restore_calm in E9 as C9; [|by rewrite O8, O7, O5, O4, O3, O1].
  match type of E with ?m _ = _ => assert (tx_rel r_calm m) as Hrest by calm_frame end. apply Hrest in E as C10.
  apply (kept_trans d d1); [by apply calm_kept|]. apply (kept_trans d1 d3); [done|]. apply calm_kept; [|apply Hs3].
  by do 5 (etrans; [eassumption|]).
Qed.

Lemma complete_safe clock cid p d : deletions_safe d -> kept_safe d (CompleteRestoreWorkflow clock cid p d).2.
Proof.
  intros Hs. pose proof (same_kept _ Hs) as Hsame. unfold CompleteRestoreWorkflow. destruct (complete_restore_valid p); [|done]. unfold runTx.
  destruct (complete_restore_tx _ _ _ _ d) as [[u d']|e] eqn:E; [|done]. cbn. unfold complete_restore_tx in E.
  apply tx_bind_ok in E as (wid & d1 & [_ ->]%uuid_param_ok & E). apply tx_bind_ok in E as (sid & d1 & [_ ->]%uuid_param_ok & E).
  apply tx_bind_ok in E as (r & d1 & [Hr ->]%rselect_ok & E). apply tx_bind_ok in E as (old & d1 & [Hold ->]%tx_lift_ok & E).
  destruct (String.eqb _ "succeeded"); [by apply tx_ret_ok in E as [_ ->]|].
  apply tx_bind_ok in E as (u1 & d1 & [Hpub ->]%require_ok & E). apply tx_bind_ok in E as (u2 & d1 & [Ha ->]%require_ok & E).
  apply tx_bind_ok in E as (u3 & d1 & [Hf ->]%ready_ok & E). apply tx_bind_ok in E as (g & d1 & [Hg ->]%rselect_ok & E).
  apply tx_bind_ok in E as (u4 & d1 & [_ ->]%require_ok & E). apply tx_bind_ok in E as (u5 & d1 & E5 & E).
  unfold require_idle in E5. apply tx_bind_ok in E5 as (lease & d2 & [Hlease ->]%tx_read_ok & [Hi ->]%require_ok).
  apply tx_bind_ok in E as (b & d1 & [_ ->]%tx_read_ok & E). apply tx_bind_ok in E as (u6 & d1 & [_ ->]%require_ok & E).
  apply tx_bind_ok in E as (b2 & d1 & [_ ->]%tx_read_ok & E). apply tx_bind_ok in E as (u7 & d1 & [_ ->]%require_ok & E).
  unfold completing_row in Hr. destruct (wd_workflows _ !! wid) as [w|] eqn:Hw; [|done]. cbn in Hr.
  destruct (restore_by_workflow d wid) as [[op o]|] eqn:Ho; [|done]. cbn in Hr. destruct (wf_UserID w) as [user|] eqn:Hu; [|done].
  cbn in Hr. destruct (joined_user d user) as [[[g1 l1] us]|] eqn:Hj; [|done]. cbn in Hr. destruct (String.eqb _ sid); [|done].
  injection Hr as <-. cbn in *. apply restore_by_workflow_row in Ho as [Hop Hwid].
  destruct (joined_ids _ _ _ _ _ Hj) as [Hid _]. eapply publish_restore_safe; [exact E | done | done | | done]. cbn.
  intros id s Ht Hu1 Hn. pose proof (re_restore _ _ (de_reserved _ Hs _ _ Ht) _ _ w Hop) as Hc.
  b2p. unfold is_open in Hc. rewrite Hpub, Hwid, Hn, Hu1 in Hc. discriminate (Hc eq_refl Hw Hu).
Qed.

(** ** Reports *)

Lemma report_safe clock fid cid p later d : deletions_safe d -> kept_safe d (ReportUserDataFault clock fid cid p later d).2.
Proof.
  intros Hs. pose proof (same_kept _ Hs) as Hsame. unfold ReportUserDataFault. destruct (negb _); [done|]. unfold runTx.
  destruct (report_tx _ _ _ _ _ d) as [[s d']|e] eqn:E; [|done].
  unfold report_tx in E. apply tx_bind_ok in E as (op & d1 & [_ ->]%uuid_param_ok & E).
  apply tx_bind_ok in E as (oldf & d1 & [_ ->]%tx_read_ok & E).
  destruct oldf as [f|].
  { apply tx_bind_ok in E as (u1 & d1 & [_ ->]%require_ok & E). by apply tx_ret_ok in E as [-> ->]. }
  apply tx_bind_ok in E as (uuid & d1 & [_ ->]%uuid_param_ok & E). apply tx_bind_ok in E as (u & d1 & [Hu ->]%rselect_ok & E).
  apply tx_bind_ok in E as (role & d1 & [_ ->]%tx_lift_ok & E). cbv zeta in E.
  apply tx_bind_ok in E as (u1 & d1 & [Hh ->]%require_ok & E). apply tx_bind_ok in E as (b & d1 & [_ ->]%tx_read_ok & E).
  apply tx_bind_ok in E as (u2 & d1 & [_ ->]%require_ok & E). apply tx_bind_ok in E as (op2 & d1 & [_ ->]%tx_read_ok & E).
  apply tx_bind_ok in E as (u3 & d1 & [_ ->]%require_ok & E). apply tx_bind_ok in E as (g & d1 & [_ ->]%rselect_ok & E).
  apply tx_bind_ok in E as (u4 & d1 & E & E'). apply tx_ret_ok in E' as [-> ->]. cbn.
  apply andb_true_iff in Hh as [Hh _]. b2p. unfold report_row in Hu. destruct (head _) as [[user g0]|]; [|done].
  destruct (joined_user d user) as [[[g1 l] us]|] eqn:Hj; [|done]. cbv zeta in Hu. injection Hu as <-. cbn in Hh.
  destruct (joined_ids _ _ _ _ _ Hj) as [Hid _]. apply calm_kept; [|exact Hs].
  pose proof (home_idle _ _ _ _ Hs Hid Hh) as Hi. unfold report_writes in E. cbn in E. rewrite Hh in E.
  cbn in E.
  apply tx_bind_ok in E as (u5 & d2 & E2 & E). apply tx_bind_ok in E as (u6 & d3 & E3 & E).
  assert (r_calm d d2) as C2.
  { unfold insert_report in E2. destruct (rd_faults d !! fid); [done|]. destruct (bool_decide _); [|done].
    by eapply write_faults_calm. }
  assert (r_calm d2 d3) as C3.
  { unfold corrupt_replica in E3. destruct (_ && _); [|done]. injection E3 as _ <-. by apply w_calm, insert_replica_calm. }
  apply tx_bind_ok in E as (u7 & d4 & E4 & E).
  apply upsert_copy_calm in E4 as C4; [|eapply calm_idle; [apply C3|]; by eapply calm_idle; [apply C2|]].
  match type of E with ?m _ = _ => assert (tx_rel r_calm m) as Hrest end.
  { unfold close_lease, close_tickets, raise_alert. calm_frame; apply write_calm; intros d0;
      [by apply same_w_calm | by apply (w_calm d0), same_calm]. }
  apply Hrest in E as C5. by do 3 (etrans; [eassumption|]).
Qed.

(** Every event of the recovery. *)
Lemma recovery_safe ev d : deletions_safe d -> kept_safe d (recovery_effect ev d).
Proof.
  intros Hs. assert (forall d', r_calm d d' -> kept_safe d d') as Hc by (intros; by apply calm_kept).
  assert (forall A (f : WDB -> result A * WDB), calm (rd_w d) (f (rd_w d)).2 -> r_calm d (on_w f d).2) as Hon.
  { intros A f Hf. unfold on_w. destruct (f (rd_w d)). by apply w_calm. }
  destruct ev; cbn [recovery_effect].
  - apply Hc. unfold core_change. destruct (bool_decide _) eqn:E; [|done]. b2p. by apply w_calm, same_calm.
  - apply Hc. destruct (is_operation ev) eqn:E; [|done]. by apply w_calm, snapshot_calm.
  - by apply report_safe.
  - apply Hc. unfold ClaimUserDataFault. calm_op.
  - apply Hc, freeze_calm.
  - apply Hc. unfold RetryUserDataFault. calm_op.
  - apply Hc. unfold ClaimUserDataFaultRelease. calm_op.
  - apply Hc. unfold CompleteUserDataFaultRelease. calm_op.
  - apply Hc. unfold RetryUserDataFaultRelease. calm_op.
  - apply Hc, reconcile_calm.
  - by apply takeover_safe.
  - by apply create_safe.
  - by apply Hc, Hon, provision_calm.
  - apply Hc. unfold ClaimRestoreWorkflow. destruct (_ || _); [done|]. apply (tx_rel_run r_calm), in_w_calm.
    apply update_workflow_calm. intros. by apply row_stays_state.
  - by apply Hc, Hon, set_state_calm.
  - apply Hc. unfold ResetRestoreTransferForRetry. destruct (String.eqb _ _); [done|].
    apply (tx_rel_run r_calm), in_w_calm. tx_frame. apply update_workflows_calm. intros. b2p.
    apply row_stays_open; [done|]. by eapply state_open.
  - by apply complete_safe.
  - apply Hc, fail_restore_calm.
Qed.
End Retention.
