(* ===== verification/RetentionSystem.v ===== *)
(** * Runs of the retention

    The operations of the cleanup and of the integrity checks, called by the workers
    of any number of Controllers between the operations of the recovery.  A worker
    settles a task it has claimed, whenever the node answers; the tasks that were
    handed out are part of the state.  The file proves that no run deletes what is in
    use, and what a claim spares. *)

From Stdlib Require Import ZArith Lia Ascii String.
From stdpp Require Import base list gmap strings relations.
From S2P Require Import Prelude GoStrings AgentState Schema Leases Handoffs WorkflowSchema SnapshotStore SnapshotLife.
From S2P Require Import SnapshotExecutor RecoverySchema DataFaults Protection RestoreStore RecoverySystem RecoveryFaults.
From S2P Require Import RecoveryHomes RecoveryMoves ReplicaCleanup ReplicaIntegrity RetentionFrame RetentionSafety.
#[local] Open Scope Z_scope.

(** ** Events *)

(** The database, and the cleanup tasks the workers have claimed. *)
Record retention := { rv_db : RDB; rv_claimed : list ReplicaCleanupTask }.

Inductive retention_event :=
| VRecovery (ev : recovery_event)
| VSchedule (clock : time) (newid : Z * Z -> string) (now : time)
| VClaim (locked : string -> bool) (op owner : string) (now : time) (ttl : duration)
| VUnavailable (i : nat) (now : time)
| VSettle (i : nat) (reply : cleanup_reply) (now : time)
| VCheck (clock : time) (locked : string -> bool) (op : string) (now : time) (ttl : duration)
| VCheckUnavailable (clock : time) (task : ReplicaIntegrityTask)
| VChecked (clock : time) (task : ReplicaIntegrityTask) (reply : integrity_reply).

Section System.
Context `{Postgres}.

Definition on_db (f : RDB -> RDB) (s : retention) : retention := {| rv_db := f (rv_db s); rv_claimed := rv_claimed s |}.

(** A worker with the i-th task that was claimed. *)
Definition on_task (i : nat) (f : ReplicaCleanupTask -> RDB -> RDB) (s : retention) : retention :=
  match rv_claimed s !! i with Some task => on_db (f task) s | None => s end.

Definition retention_effect (ev : retention_event) (s : retention) : retention :=
  match ev with
  | VRecovery ev => on_db (recovery_effect ev) s
  | VSchedule clock newid now => on_db (fun d => (ScheduleReplicaCleanupTasks clock newid now d).2) s
  | VClaim locked op owner now ttl =>
      match ClaimReplicaCleanupTask locked op owner now ttl (rv_db s) with
      | (Ok (Some task), d) => {| rv_db := d; rv_claimed := rv_claimed s ++ [task] |}
      | (_, d) => {| rv_db := d; rv_claimed := rv_claimed s |}
      end
  | VUnavailable i now => on_task i (fun task d =>
      if cleanup_node_ready task d then d else retryReplicaCleanupTask task "node_unavailable" now d) s
  | VSettle i reply now => on_task i (fun task => settle_cleanup task reply now) s
  | VCheck clock locked op now ttl => on_db (fun d => (ClaimReplicaIntegrityTask clock locked op now ttl d).2) s
  | VCheckUnavailable clock task => on_db (failReplicaIntegrityTask clock task "node_unavailable" false) s
  | VChecked clock task reply => on_db (settle_integrity clock task reply) s
  end.

Definition retention_run (s : retention) (evs : list retention_event) : retention :=
  foldl (fun s ev => retention_effect ev s) s evs.

(** ** The statements of the cleanup *)

Lemma update_tasks_ok p f d n d' : update_tasks p f d = Ok (n, d') ->
  n = length (rows_where p (wd_cleanups (rd_w d)))
  /\ d' = set_rd_w (put_cleanups (update_where p f (wd_cleanups (rd_w d))) (rd_w d)) d.
Proof. unfold update_tasks. destruct (Nat.eqb _ 0); [|done]. by intros [= <- <-]. Qed.

Lemma update_tasks_r_calm p f :
  (forall t, task_scope (f t) = task_scope t) -> (forall t, running (f t) = true -> running t = true) ->
  tx_rel r_calm (update_tasks p f).
Proof. intros Hs Hr d n d' [_ ->]%update_tasks_ok. by apply w_calm, update_tasks_calm. Qed.

Lemma update_copies_ok p f d n d' : update_copies p f d = Ok (n, d') ->
  n = length (rows_where p (wd_copies (rd_w d)))
  /\ d' = set_rd_w (put_copies (update_where p f (wd_copies (rd_w d))) (rd_w d)) d.
Proof.
  unfold update_copies. destruct (write_copies _ d) as [[u d1]|] eqn:E; [|done]. intros [= <- <-].
  by apply write_copies_ok in E as ->.
Qed.

(** A change of the copies that keeps what they are copies of. *)
Definition same_copy (c c' : ReplicaCopy) : Prop :=
  rc_SnapshotID c' = rc_SnapshotID c /\ rc_Kind c' = rc_Kind c /\ rc_IsAuthoritative c' = rc_IsAuthoritative c.

Lemma update_copies_calm p f : (forall c, same_copy c (f c)) -> tx_rel r_calm (update_copies p f).
Proof.
  intros Hf d n d' [_ ->]%update_copies_ok. apply w_calm, copies_calm. intros u n' c' Hl. right.
  rewrite update_where_lookup in Hl. destruct (wd_copies (rd_w d) !! (u, n')) as [c|]; [|done]. cbn in Hl.
  injection Hl as <-. exists c. destruct (Hf c) as (E1 & E2 & E3). split; [done|].
  by destruct (p _ c); rewrite ?E1, ?E2, ?E3.
Qed.

Lemma insert_copy_calm k c c' d u d' :
  write_copies (<[k := c']> (wd_copies (rd_w d))) d = Ok (u, d') -> wd_copies (rd_w d) !! k = Some c -> same_copy c c' ->
  r_calm d d'.
Proof.
  intros ->%write_copies_ok Hk (E1 & E2 & E3). apply w_calm, copies_calm. intros u' n' c2 Hl. right.
  apply lookup_insert_Some in Hl as [[-> <-]|[_ Hl]]; [|by eauto 6]. exists c. by rewrite E1, E2, E3.
Qed.

(** One task at a time is scheduled, under a new id. *)
Lemma upsert_task_calm newid kind reason now d x :
  wd_cleanups (rd_w d) !! newid x.1 = None ->
  r_calm d (upsert_task newid kind reason now d x)
  /\ (forall id, id <> newid x.1 -> wd_cleanups (rd_w d) !! id = None ->
        wd_cleanups (rd_w (upsert_task newid kind reason now d x)) !! id = None).
Proof.
  intros Hn. unfold upsert_task. destruct (rc_SnapshotID x.2) as [sid|]; [|done].
  destruct (joined_user d x.1.1) as [[[g l] us]|] eqn:Hj; [|done]. cbv zeta. destruct (Nat.eqb _ 0) eqn:Hb.
  - split; [|intros id Hne Hid; cbn; by rewrite lookup_insert_ne]. apply w_calm, insert_task_calm; [done | done | |].
    { cbn. by destruct (joined_ids _ _ _ _ _ Hj) as [Hid _]. }
    cbn. intros id t Hl E1 E2 E3. apply (rows_where_none _ _ _ _ Hb) in Hl. unfold task_key in Hl.
    by rewrite E1, E2, E3, Z.eqb_refl, !String.eqb_refl in Hl.
  - split; [|intros id Hne Hid; cbn; by rewrite update_where_lookup, Hid]. apply w_calm, update_tasks_calm.
    + intros t. unfold reopened. by destruct (state_in _ t).
    + intros t. unfold reopened. destruct (state_in _ t); [done|]. done.
Qed.

Lemma upsert_tasks_calm newid kind reason now l : forall d,
  Forall (fun x => wd_cleanups (rd_w d) !! newid x.1 = None) l -> NoDup (map (fun x : (Z * Z) * ReplicaCopy => newid x.1) l) ->
  r_calm d (foldl (upsert_task newid kind reason now) d l).
Proof.
  induction l as [|x l IH]; intros d Hf Hd; cbn; [done|]. apply Forall_cons in Hf as [Hx Hf].
  apply NoDup_cons in Hd as [Hnot Hd]. destruct (upsert_task_calm newid kind reason now d x Hx) as [Hc Hsame].
  etrans; [exact Hc|]. apply IH; [|done]. rewrite Forall_forall in Hf |- *. intros y Hy. apply Hsame; [|by apply Hf].
  intros E. apply Hnot. rewrite <- E. by apply (list_elem_of_fmap_2 (fun x : (Z * Z) * ReplicaCopy => newid x.1)).
Qed.

Lemma schedule_tasks_calm newid kind reason now rows : tx_rel r_calm (schedule_tasks newid kind reason now rows).
Proof.
  intros d n d' E. unfold schedule_tasks in E. cbv zeta in E.
  match type of E with (if ?b then _ else _) = _ => destruct b eqn:Hb; [|done] end. injection E as _ <-. b2p.
  apply upsert_tasks_calm; [|done]. apply Forall_forall. intros x Hx.
  match goal with Hf : forallb _ _ = true |- _ => rewrite forallb_forall in Hf; apply list_elem_of_In, Hf in Hx end. by b2p.
Qed.

Lemma schedule_calm clock newid now d : r_calm d (ScheduleReplicaCleanupTasks clock newid now d).2.
Proof.
  unfold ScheduleReplicaCleanupTasks. apply (tx_rel_run r_calm).
  apply tx_rel_bind; [exact _ | | intros ?; apply tx_rel_bind; [exact _ | apply schedule_tasks_calm | intros ?];
    apply tx_rel_bind; [exact _ | apply schedule_tasks_calm | intros ?; apply tx_rel_ret; exact _]].
  apply write_calm. intros d0. by apply w_calm, update_tasks_calm.
Qed.

Lemma expire_calm now : tx_rel r_calm (expire_leases now).
Proof. apply w_write_calm. intros w. by apply update_tasks_calm. Qed.

(** ** The claim *)

(** What a claimable row is. *)
Lemma claimable_scope d now t : claimable d now t = true ->
  waiting t = true /\ undisturbed d (ct_UserID t) = true
  /\ (exists h, wd_homes (rd_w d) !! ct_LegacyUserID t = Some h /\ h <> ct_NodeID t)
  /\ (exists c, wd_copies (rd_w d) !! (ct_UserID t, ct_NodeID t) = Some c /\ rc_ID c = ct_ReplicaID t
       /\ rc_SnapshotID c = Some (ct_SnapshotID t) /\ rc_Kind c = ct_ReplicaKind t /\ rc_IsAuthoritative c = false).
Proof.
  unfold claimable, in_scope, home_elsewhere. cbv zeta. intros Hc. b2p.
  destruct (db_legacy _ !! _); [|done]. destruct (wd_homes _ !! _) as [h|]; [|done]. b2p.
  split; [done|]. split; [done|]. split; [by exists h|]. unfold scope_copy in *.
  destruct (wd_copies _ !! _) as [c|]; [|done]. cbn in *. destruct (_ && _) eqn:Hs; [|done]. b2p. by exists c.
Qed.

Lemma undisturbed_closed d user id w : undisturbed d user = true -> wd_workflows (rd_w d) !! id = Some w ->
  wf_UserID w = Some user -> is_open w = false.
Proof.
  unfold undisturbed. intros Hu Hl Hw. b2p.
  match goal with Hq : Nat.eqb (length (rows_where _ (wd_workflows _))) 0 = true |- _ =>
    apply (rows_where_none _ _ _ _ Hq) in Hl end. rewrite Hw, bool_decide_eq_true_2 in Hl by done. done.
Qed.

Lemma waiting_idle t : waiting t = true -> running t = false.
Proof. unfold waiting, running, state_in. intros Hw. b2p. apply bool_decide_eq_false.
  intros Hr%list_elem_of_singleton. rewrite Hr in Hw. apply list_elem_of_In in Hw. by destruct Hw as [Hw|[Hw|[]]]. Qed.

(** The databases before and after the three UPDATEs of a claim. *)
Lemma start_deletion_ok tid t op owner g now ttl d a d' :
  start_deletion tid t op owner g now ttl d = Ok (a, d') ->
  exists f r, (forall t, task_scope (f t) = task_scope t) /\ (forall t, running (f t) = true)
    /\ wd_replicas (rd_w d) !! (ct_LegacyUserID t, ct_NodeID t) = Some r
    /\ ur_Kind r = ct_ReplicaKind t
    /\ (exists copies, (forall k c', copies !! k = Some c' -> exists c, wd_copies (rd_w d) !! k = Some c /\ same_copy c c')
       /\ copies = update_where (fun _ c => String.eqb (rc_ID c) (ct_ReplicaID t)
            && bool_decide (rc_SnapshotID c = Some (ct_SnapshotID t)) && String.eqb (rc_Kind c) (ct_ReplicaKind t)
            && negb (rc_IsAuthoritative c) && deletable (ct_ReplicaKind t) (rc_State c))
            (copy_set_state "deleting" (ts now)) (wd_copies (rd_w d))
       /\ d' = set_rd_w (put_replicas (<[(ct_LegacyUserID t, ct_NodeID t) := replica_set_state "deleting" r]>
                   (wd_replicas (rd_w d)))
                (put_copies copies (put_cleanups (update_where (fun id t => String.eqb id tid && waiting t) f
                   (wd_cleanups (rd_w d))) (rd_w d)))) d).
Proof.
  unfold start_deletion. intros E. apply tx_bind_ok in E as (op' & d1 & [_ ->]%uuid_param_ok & E).
  apply tx_bind_ok in E as (n & d1 & E1 & E). match type of E1 with update_tasks _ ?f _ = _ => exists f end.
  apply update_tasks_ok in E1 as [_ ->]. apply tx_bind_ok in E as (u1 & d2 & [_ ->]%require_ok & E).
  apply tx_bind_ok in E as (n2 & d2 & [_ ->]%update_copies_ok & E). apply tx_bind_ok in E as (u2 & d3 & [_ ->]%require_ok & E).
  apply tx_bind_ok in E as (b & d3 & E3 & E). apply require_ok in E as [Hb ->].
  apply (update_replica_ok _ _ _ _ _ _ _ E3) in Hb as (r & Hr & Hp & ->). b2p.
  exists r. split; [done|]. split; [reflexivity|]. split; [exact Hr|]. split; [done|].
  eexists. split; [|split; reflexivity]. cbn. intros k c' Hl. rewrite update_where_lookup in Hl.
  destruct (wd_copies (rd_w d) !! k) as [c|]; [|done]. cbn in Hl. injection Hl as <-. exists c. split; [done|].
  by destruct (_ && _).
Qed.

Lemma start_deletion_safe tid t op owner g now ttl d a d' :
  start_deletion tid t op owner g now ttl d = Ok (a, d') -> deletions_safe d -> wd_cleanups (rd_w d) !! tid = Some t ->
  claimable d now t = true -> kept_safe d d'.
Proof.
  intros E Hs Hl Hc. destruct (start_deletion_ok _ _ _ _ _ _ _ _ _ _ E) as (f & r & Hf & Hrun & Hr & Hk & copies & Hcop & _ & ->).
  destruct (claimable_scope _ _ _ Hc) as (Hw & Hu & (h & Hh & Hne) & (c & Hcl & _ & Hsid & Hkind & Hauth)).
  destruct (update_scope (fun id t => String.eqb id tid && waiting t) f (wd_cleanups (rd_w d)) Hf) as (Hb & Huni & Hscope).
  split; [|exact Hscope]. match goal with |- deletions_safe ?e => set (d1 := e) end.
  (** a running task of the new database is an old one or the claimed one *)
  assert (forall id s, running_at (rd_w d1) id s -> running_at (rd_w d) id s \/ (id = tid /\ s = task_scope t)) as Hrunning.
  { intros id s (t' & Hl' & Hr' & <-). cbn in Hl'. rewrite update_where_lookup in Hl'.
    destruct (wd_cleanups (rd_w d) !! id) as [t0|] eqn:Hl0; [|done]. cbn in Hl'. injection Hl' as <-.
    destruct (String.eqb id tid && waiting t0) eqn:Hp; [|by left; exists t0]. b2p. subst id. right.
    assert (t0 = t) as -> by congruence. split; [done | apply Hf]. }
  assert (forall id s, running_at (rd_w d) id s -> ks_UserID s = ct_UserID t -> ks_NodeID s = ct_NodeID t -> False) as Hidle.
  { intros id s Hra E1 E2. pose proof (de_reserved _ Hs _ _ Hra) as Hres. destruct Hra as (t0 & Hl0 & Hr0 & <-).
    cbn in E1, E2. destruct (re_copy _ _ Hres c) as (E3 & E4 & _); [cbn; by rewrite E1, E2|]. cbn in E3, E4.
    assert (id = tid) as -> by (apply (de_unique _ Hs _ _ _ _ Hl0 Hl); congruence).
    assert (t0 = t) as -> by congruence. by rewrite waiting_idle in Hr0. }
  assert (forall id s, running_at (rd_w d1) id s -> reserved d s -> reserved d1 s) as Hkeep.
  { intros id s _ [R1 R2 R3 R4 R5]. split; try done; cbn.
    - intros c' Hc'. destruct (Hcop _ _ Hc') as (c0 & Hc0 & E1 & E2 & E3). rewrite E1, E2, E3. by apply R3.
    - intros r' [[_ <-]|[_ Hr']]%lookup_insert_Some; [done | by apply R4]. }
  destruct Hs as [D1 D2 D3 D3o D4 D5]. split.
  - exact D1.
  - exact D2.
  - by apply Huni.
  - by apply (update_owned _ _ _ Hf).
  - intros id s Hra. destruct (Hrunning _ _ Hra) as [Hold|[-> ->]]; [eauto|]. split; cbn.
    + by apply (D3o tid).
    + congruence.
    + intros c' Hc'. destruct (Hcop _ _ Hc') as (c0 & Hc0 & E1 & E2 & E3). assert (c0 = c) as -> by congruence.
      by rewrite E1, E2, E3.
    + intros r' Hr'. rewrite lookup_insert_eq in Hr'. by injection Hr' as <-.
    + intros op' o w _ _ Hw' Hu'. by eapply undisturbed_closed.
  - intros id id' s s' Hra Hra' E1 E2. destruct (Hrunning _ _ Hra) as [Ho|[-> ->]], (Hrunning _ _ Hra') as [Ho'|[-> ->]]; [by eapply D5 | | | done].
    + by destruct (Hidle _ _ Ho).
    + by destruct (Hidle _ _ Ho').
Qed.

(** A task a worker holds is the one of its row. *)
Definition claimed_known (d : RDB) (task : ReplicaCleanupTask) : Prop :=
  uuid_in (ck_ID task) = Some (ck_ID task)
  /\ exists t, wd_cleanups (rd_w d) !! ck_ID task = Some t
       /\ ck_LegacyUserID task = ct_LegacyUserID t /\ ck_NodeID task = ct_NodeID t.

Lemma known_scope (d d' : RDB) task :
  scopes_stay d d' -> claimed_known d task -> claimed_known d' task.
Proof.
  intros Hk (Hid & t & Hl & E1 & E2). split; [done|]. destruct (Hk _ _ Hl) as (t' & Hl' & [=]). exists t'.
  repeat split; congruence.
Qed.

(** What a claim does. *)
Lemma claim_cases locked op owner now ttl d :
  let r := ClaimReplicaCleanupTask locked op owner now ttl d in
  (forall task, r.1 <> Ok (Some task)) /\ (r_calm d r.2)
  \/ exists d1 d2 tid t g u, expire_leases (ts now) d = Ok (u, d1) /\ r_calm d d1
      /\ wd_cleanups (rd_w d1) !! tid = Some t /\ uuid_in tid = Some tid /\ claimable d1 now t = true
      /\ active_generation (core d1) = Some g
      /\ start_deletion tid t op owner g now ttl d1 = Ok (tt, d2)
      /\ r = (Ok (Some (claimed_task tid t op owner g)), d2).
Proof.
  cbv zeta. unfold ClaimReplicaCleanupTask. destruct (_ || _); [by left|]. unfold runTx.
  destruct (tx_bind _ _ d) as [[o d2]|e] eqn:E; [|by left].
  apply tx_bind_ok in E as (u & d1 & E1 & E). pose proof (expire_calm _ _ _ _ E1) as C1.
  apply tx_bind_ok in E as (g & d0 & [Hg ->]%rselect_ok & E). apply tx_bind_ok in E as (first & d0 & [Hfirst ->]%tx_read_ok & E).
  destruct first as [[tid t]|].
  - right. apply tx_bind_ok in E as (gu & d0 & [_ ->]%rselect_ok & E). apply tx_bind_ok in E as ([] & d3 & E3 & E).
    apply tx_ret_ok in E as [-> ->]. symmetry in Hfirst. apply first_by_in in Hfirst.
    apply rows_where_elem in Hfirst as [Hl Hp]. unfold is_uuid in Hp. b2p. exists d1, d3, tid, t, g, u. done.
  - apply tx_ret_ok in E as [-> ->]. by left.
Qed.

(** ** The answers *)

Lemma delete_copy_calm task replica sid : tx_rel r_calm (delete_copy task replica sid).
Proof.
  intros d b d' E. unfold delete_copy in E. cbv zeta in E. destruct (wd_copies (rd_w d) !! _); [|by injection E as _ <-].
  destruct (deleted_copy _ _ _ _ _ _); injection E as _ <-; [|done]. apply w_calm, copies_calm. intros u n c' Hl. right.
  apply lookup_delete_Some in Hl as [_ Hl]. eauto 6.
Qed.

Lemma delete_replica_calm task : tx_rel r_calm (delete_replica task).
Proof.
  apply write_calm. intros d. cbv zeta. case_match; [|done]. destruct (_ && _); [|done].
  apply w_calm, replicas_calm. intros k r' [_ Hl]%lookup_delete_Some Hs. eauto.
Qed.

Lemma delete_snapshot_calm sid : tx_rel r_calm (delete_snapshot sid).
Proof. apply write_calm. intros d. by apply w_calm, same_calm. Qed.

#[local] Hint Resolve delete_copy_calm delete_replica_calm delete_snapshot_calm audit_calm : rtx_frame.

Lemma complete_cleanup_calm task outcome now d : r_calm d (CompleteReplicaCleanupTask task outcome now d).2.
Proof.
  unfold CompleteReplicaCleanupTask. destruct (_ || _); [done|]. apply (tx_rel_run r_calm). unfold delete_rows, cleanup_audit.
  rtx_frame ltac:(idtac).
  match goal with |- context [if ?one then _ else _] => destruct one; by apply update_tasks_r_calm end.
Qed.

Lemma retry_cleanup_calm task code now delay d : r_calm d (RetryReplicaCleanupTask task code now delay d).2.
Proof.
  unfold RetryReplicaCleanupTask. destruct (_ || _); [done|]. apply (tx_rel_run r_calm).
  rtx_frame ltac:(idtac). by apply update_tasks_r_calm.
Qed.

(** The one row an answer finds. *)
Lemma held_row task tid op (d : RDB) :
  length (rows_where (held_task task tid op) (wd_cleanups (rd_w d))) = 1%nat ->
  exists t, wd_cleanups (rd_w d) !! tid = Some t /\ held_task task tid op tid t = true.
Proof.
  destruct (rows_where (held_task task tid op) (wd_cleanups (rd_w d))) as [|[id t] l] eqn:Hrows; [done|]. intros _.
  assert ((id, t) ∈ rows_where (held_task task tid op) (wd_cleanups (rd_w d))) as Hin by (rewrite Hrows; by left).
  apply rows_where_elem in Hin as [Hl Hp]. assert (id = tid) as -> by (unfold held_task in Hp; by b2p). eauto.
Qed.

(** The task that fails leaves the running ones; its place was its own. *)
Lemma fail_cleanup_safe task code now d :
  deletions_safe d -> claimed_known d task -> kept_safe d (FailReplicaCleanupTask task code now d).2.
Proof.
  intros Hs (Hid & t & Hl & E1 & E2). pose proof (same_kept _ Hs) as Hsame. unfold FailReplicaCleanupTask. destruct (_ || _); [done|]. unfold runTx.
  destruct (tx_bind _ _ d) as [[u d']|e] eqn:E; [|done]. cbn.
  apply tx_bind_ok in E as (tid & d0 & [Htid ->]%uuid_param_ok & E). assert (tid = ck_ID task) as -> by congruence.
  apply tx_bind_ok in E as (op & d0 & [_ ->]%uuid_param_ok & E). apply tx_bind_ok in E as (n & d1 & E3 & E).
  pose proof E3 as [Hn Hd1]%update_tasks_ok. apply tx_bind_ok in E as (u1 & d2 & [H1 ->]%require_ok & E).
  assert (r_calm d d1) as C1 by (eapply update_tasks_r_calm; [..|exact E3]; done).
  apply tx_bind_ok in E as (replica & d0 & [_ ->]%uuid_param_ok & E). apply tx_bind_ok in E as (n2 & d2 & E4 & E).
  assert (r_calm d1 d2) as C2 by (eapply update_copies_calm; [|exact E4]; done).
  apply tx_bind_ok in E as (b & d3 & E5 & E).
  assert (kept_safe d d2) as [Hs2 Hsc2] by (apply calm_kept; [by etrans | done]).
  (** the row of the task ran, and does not any more *)
  apply Nat.eqb_eq in H1. rewrite H1 in Hn. symmetry in Hn. apply held_row in Hn as (t0 & Hl0 & Hheld).
  assert (t0 = t) as -> by congruence. assert (running t = true) as Hrun by (unfold held_task in Hheld; by b2p).
  assert (forall id s, running_at (rd_w d2) id s -> ks_LegacyUserID s = ck_LegacyUserID task -> ks_NodeID s = ck_NodeID task -> False)
    as Hfree.
  { intros id s Hra E6 E7. pose proof (ca_running _ _ (proj1 C2) _ _ Hra) as Hra1.
    pose proof (ca_running _ _ (proj1 C1) _ _ Hra1) as Hra0. pose proof (de_reserved _ Hs _ _ Hra0) as Hres.
    assert (id = ck_ID task) as ->.
    { eapply (de_alone _ Hs); [exact Hra0 | by exists t | | cbn; congruence]. cbn.
      eapply (de_legacy _ Hs); [by apply (de_owned _ Hs (ck_ID task)) | rewrite (re_owner _ _ Hres); congruence]. }
    destruct Hra1 as (t1 & Hl1 & Hr1 & _). rewrite Hd1 in Hl1. cbn in Hl1. rewrite update_where_lookup, Hl in Hl1. cbn in Hl1.
    rewrite Hheld in Hl1. by injection Hl1 as <-. }
  assert (kept_safe d2 d3) as K3; [|apply (kept_trans d d2); [done|]; apply (kept_trans d2 d3); [done|];
    apply calm_kept; [by eapply audit_calm | apply K3]].
  pose proof (same_kept _ Hs2) as Hsame2.
  unfold update_replica in E5. destruct (wd_replicas (rd_w d2) !! _) as [r|] eqn:Hr; [|by injection E5 as _ <-].
  destruct (_ && _); injection E5 as _ <-; [|done]. split; [|intros id t1 Hl1; eauto].
  destruct Hs2 as [D1 D2 D3 D3o D4 D5]. split; try done.
  intros id s Hra. destruct (D4 _ _ Hra) as [R1 R2 R3 R4 R5]. split; try done. cbn.
  intros r' [[[= E6 E7] _]|[_ Hr']]%lookup_insert_Some; [by destruct (Hfree _ _ Hra) | by apply R4].
Qed.

(** ** The integrity checks *)

Lemma check_calm clock locked op now ttl d : r_calm d (ClaimReplicaIntegrityTask clock locked op now ttl d).2.
Proof.
  unfold ClaimReplicaIntegrityTask. destruct (_ || _); [done|]. cbv zeta. apply (tx_rel_run r_calm). intros d0 a d' E.
  apply tx_bind_ok in E as (op' & d1 & [_ ->]%uuid_param_ok & E). apply tx_bind_ok in E as (first & d1 & [Hf ->]%tx_read_ok & E).
  apply tx_bind_ok in E as (active & d1 & [_ ->]%tx_read_ok & E). destruct first as [[k c]|]; [|by apply tx_ret_ok in E as [_ ->]].
  destruct active as [g|]; [|by apply tx_ret_ok in E as [_ ->]]. apply tx_bind_ok in E as (u1 & d1 & [_ ->]%require_ok & E).
  apply tx_bind_ok in E as (u2 & d1 & E1 & E). apply tx_read_ok in E as [_ ->].
  apply (insert_copy_calm _ c) in E1; [done | | done]. symmetry in Hf. apply first_by_in in Hf.
  by apply rows_where_elem in Hf as [Hl _].
Qed.

Lemma complete_integrity_calm clock p d : r_calm d (CompleteReplicaIntegrityTask clock p d).2.
Proof.
  unfold CompleteReplicaIntegrityTask. destruct (negb _); [done|]. cbv zeta. apply (tx_rel_run r_calm).
  rtx_frame ltac:(idtac). intros d0 n d' E. revert E. apply update_copies_calm. done.
Qed.

Lemma escalate_calm clock replica op code now d : r_calm d (EscalateReplicaIntegrityTask clock replica op code now d).2.
Proof.
  unfold EscalateReplicaIntegrityTask. destruct (_ || _); [done|]. cbv zeta. apply (tx_rel_run r_calm).
  rtx_frame ltac:(idtac). intros d0 n d' E. revert E. apply update_copies_calm. done.
Qed.

Lemma fail_integrity_calm clock replica op code corrupt now after d :
  r_calm d (FailReplicaIntegrityTask clock replica op code corrupt now after d).2.
Proof.
  unfold FailReplicaIntegrityTask. destruct (_ || _); [done|]. cbv zeta. apply (tx_rel_run r_calm). intros d0 a d' E.
  apply tx_bind_ok in E as (rep & d1 & [_ ->]%uuid_param_ok & E). apply tx_bind_ok in E as (op' & d1 & [_ ->]%uuid_param_ok & E).
  apply tx_bind_ok in E as ([k c] & d1 & [Hf ->]%rselect_ok & E). apply tx_bind_ok in E as (u & d1 & E1 & E).
  apply tx_bind_ok in E as (l & d2 & [_ ->]%rselect_ok & E).
  apply (insert_copy_calm _ c) in E1 as C1; [|by apply rows_head_in in Hf as [Hl _] | done]. etrans; [exact C1|].
  destruct corrupt; [|by apply tx_ret_ok in E as [_ ->]]. apply tx_bind_ok in E as (b & d3 & E3 & E).
  apply update_replica_calm in E3 as C3; [|done]. etrans; [exact C3|]. apply tx_write_ok in E as [_ ->].
  by apply (w_calm d3), same_calm.
Qed.

Lemma settle_integrity_calm clock task reply d : r_calm d (settle_integrity clock task reply d).
Proof.
  unfold settle_integrity, escalateReplicaIntegrityTask, failReplicaIntegrityTask. destruct reply; cbv zeta.
  - destruct (matchingReplicaIntegrityReceipt _ _); [apply complete_integrity_calm|].
    destruct (String.eqb _ _); [apply escalate_calm | apply fail_integrity_calm].
  - destruct (_ && _); [apply escalate_calm | apply fail_integrity_calm].
Qed.

(** ** Runs *)

Definition retention_safe (s : retention) : Prop :=
  deletions_safe (rv_db s) /\ Forall (claimed_known (rv_db s)) (rv_claimed s).

Lemma kept_retention s d' : retention_safe s -> kept_safe (rv_db s) d' ->
  retention_safe {| rv_db := d'; rv_claimed := rv_claimed s |}.
Proof.
  intros [_ Hk] [Hs Hst]. split; [done|]. eapply Forall_impl; [exact Hk|]. intros task. by apply known_scope.
Qed.

Lemma calm_retention s d' : retention_safe s -> r_calm (rv_db s) d' -> retention_safe {| rv_db := d'; rv_claimed := rv_claimed s |}.
Proof. intros Hs Hc. apply kept_retention; [done | by apply calm_kept; [|apply Hs]]. Qed.

Lemma claim_retention locked op owner now ttl s :
  retention_safe s -> retention_safe (retention_effect (VClaim locked op owner now ttl) s).
Proof.
  intros Hs. cbn [retention_effect].
  destruct (claim_cases locked op owner now ttl (rv_db s)) as [[Hn Hc]|(d1 & d2 & tid & t & g & u & _ & C1 & Hl & Hid & Hcl & _ & E & ->)].
  - destruct (ClaimReplicaCleanupTask _ _ _ _ _ _) as [[[task|]|e] d']; cbn in *;
      [by destruct (Hn task) | by apply calm_retention..].
  - assert (deletions_safe d1) as Hs1 by (by eapply calm_safe; [|apply Hs]).
    pose proof (start_deletion_safe _ _ _ _ _ _ _ _ _ _ E Hs1 Hl Hcl) as K.
    assert (kept_safe (rv_db s) d2) as K2 by (apply (kept_trans _ d1); [by apply calm_kept; [|apply Hs] | done]).
    destruct (kept_retention s d2 Hs K2) as [Hs2 Hk]. split; [done|]. cbn in *. apply Forall_app. split; [done|].
    apply Forall_singleton. split; [done|]. destruct (proj2 K _ _ Hl) as (t' & Hl' & [=]). exists t'. cbn.
    repeat split; [done | congruence | congruence].
Qed.

Lemma settle_retention i f s :
  retention_safe s ->
  (forall task, deletions_safe (rv_db s) -> claimed_known (rv_db s) task -> kept_safe (rv_db s) (f task (rv_db s))) ->
  retention_safe (on_task i f s).
Proof.
  intros Hs Hf. unfold on_task. destruct (rv_claimed s !! i) as [task|] eqn:Hi; [|done]. apply kept_retention; [done|].
  apply Hf; [apply Hs|]. eapply Forall_lookup_1; [apply Hs | done].
Qed.

Lemma event_retention ev s : retention_safe s -> retention_safe (retention_effect ev s).
Proof.
  intros Hs. destruct ev.
  - apply kept_retention; [done|]. apply recovery_safe, Hs.
  - apply calm_retention; [done | apply schedule_calm].
  - by apply claim_retention.
  - apply settle_retention; [done|]. intros task Hd _. apply calm_kept; [|done].
    destruct (cleanup_node_ready _ _); [done | apply retry_cleanup_calm].
  - apply settle_retention; [done|]. intros task Hd Hk. unfold settle_cleanup. destruct reply as [r|code].
    + destruct (matchingReplicaCleanupReceipt r task); [|by apply calm_kept; [apply retry_cleanup_calm|]].
      destruct r; [|by apply same_kept]. by apply calm_kept; [apply complete_cleanup_calm|].
    + cbv zeta. destruct (String.eqb _ _); [by apply fail_cleanup_safe|]. by apply calm_kept; [apply retry_cleanup_calm|].
  - apply calm_retention; [done | apply check_calm].
  - apply calm_retention; [done | apply fail_integrity_calm].
  - apply calm_retention; [done | apply settle_integrity_calm].
Qed.

Lemma run_retention evs s : retention_safe s -> retention_safe (retention_run s evs).
Proof. revert s. induction evs as [|ev evs IH]; intros s Hs; [done|]. cbn. by apply IH, event_retention. Qed.

(** C10: No deletion of what is in use.  From a database in which it holds, in every
    run in which snapshots, reports, reconciliations, takeovers and restores interleave
    with the scheduling, claims and answers of cleanups and with the integrity checks:
    while a cleanup is running - its command may be deleting the files of the user on
    the node at any moment - that node is not the home of the user, the copy there is
    the very snapshot the command names and not authoritative, its replica is not
    ready, so no takeover can promote it, no open restore is filling the place, and no
    other cleanup runs there. *)
Theorem deletion_excludes_use s evs id sc :
  retention_safe s -> running_at (rd_w (rv_db (retention_run s evs))) id sc ->
  reserved (rv_db (retention_run s evs)) sc
  /\ (forall id' sc', running_at (rd_w (rv_db (retention_run s evs))) id' sc' -> ks_UserID sc' = ks_UserID sc ->
        ks_NodeID sc' = ks_NodeID sc -> id' = id).
Proof.
  intros Hs Hr. destruct (run_retention evs s Hs) as [Hd _]. split; [by apply (de_reserved _ Hd id)|].
  intros id' sc' Hr' E1 E2. by apply (de_alone _ Hd _ _ _ _ Hr' Hr).
Qed.

(** ** What a claim spares *)

(** Another copy of the user that a restore can start from. *)
Record spare_archive (d : RDB) (user node : Z) (c : ReplicaCopy) : Prop := {
  sv_row : wd_copies (rd_w d) !! (user, node) = Some c;
  sv_archive : rc_Kind c = "archive"%string /\ rc_State c = "ready"%string;
  sv_verified : ig_State (rc_Integrity c) = "verified"%string;
  sv_snapshot : exists sid m, rc_SnapshotID c = Some sid /\ wd_manifests (rd_w d) !! sid = Some m
    /\ sm_State m = "immutable"%string;
  sv_node : healthy_at d "storage" node = true
}.

Lemma current_spare d user k c :
  wd_copies (rd_w d) !! k = Some c -> current_archive d user k c = true -> k.1 = user /\ spare_archive d user k.2 c.
Proof.
  destruct k as [u n]. unfold current_archive. cbn. intros Hl Hc. b2p. subst u. split; [done|]. split; try done.
  destruct (rc_SnapshotID c) as [sid|]; [|done]. cbn in *. destruct (wd_manifests _ !! sid) as [m|] eqn:Hm; [|done].
  b2p. by exists sid, m.
Qed.

Lemma some_row `{Countable K} {V} (p : K -> V -> bool) (m : gmap K V) :
  negb (Nat.eqb (length (rows_where p m)) 0) = true -> exists k v, m !! k = Some v /\ p k v = true.
Proof.
  destruct (rows_where p m) as [|[k v] l] eqn:E; [done|]. intros _. exists k, v. apply rows_where_elem. rewrite E. by left.
Qed.

(** The archive that a claimable task leaves. *)
Lemma claimable_spare d now t : claimable d now t = true ->
  exists n c, spare_archive d (ct_UserID t) n c /\ n <> ct_NodeID t
    /\ (rc_ID c <> ct_ReplicaID t \/ ct_ReplicaKind t = "hot_standby"%string)
    /\ (ct_ReplicaKind t = "hot_standby"%string ->
         home_ready d (ct_LegacyUserID t) = true
         /\ exists at_, rc_PublishedAt c = Some at_ /\ at_ <= ts (now - ReplicaCleanupStabilityWindow)).
Proof.
  intros Hc. destruct (claimable_scope _ _ _ Hc) as (_ & _ & _ & c0 & Hl0 & Hid & _ & Hk & _).
  unfold claimable in Hc. cbv zeta in Hc. b2p. assert (scope_copy d t = Some c0 \/ scope_copy d t = None) as Hsc.
  { unfold scope_copy. rewrite Hl0. cbn. destruct (_ && _); auto. }
  destruct Hsc as [Hsc|Hsc]; rewrite Hsc in *; [|done]. destruct (node_of _ _) as [n|]; [|done]. b2p.
  match goal with Ho : _ || _ = true |- _ => apply orb_true_iff in Ho as [Ho|Ho] end; b2p.
  - match goal with Ha : archived_besides _ _ _ = true |- _ => apply some_row in Ha as ([u' n'] & c & Hl & Hp) end. b2p.
    destruct (current_spare _ (ct_UserID t) _ _ Hl) as [Eu Hs]; [done|]. cbn in Eu, Hs. subst u'. exists n', c. split; [done|].
    split; [intros ->; congruence|]. split; [left; congruence|]. intros E. congruence.
  - match goal with Ha : archived_since _ _ _ = true |- _ => apply some_row in Ha as ([u' n'] & c & Hl & Hp) end. b2p.
    destruct (current_spare _ (ct_UserID t) _ _ Hl) as [Eu Hs]; [done|]. cbn in Eu, Hs. subst u'. exists n', c. split; [done|].
    split. { intros ->. destruct (sv_archive _ _ _ _ Hs). assert (c = c0) as -> by congruence. congruence. }
    split; [by right|]. intros _. split; [done|]. destruct (rc_PublishedAt c) as [at_|]; [|done]. b2p. eauto.
Qed.

(** C11: A claim spares an archive.  When a worker gets a cleanup task, the copy it may
    delete was not authoritative, not on the home node of the user, and is now marked
    as being deleted; no workflow, conflict or data fault of the user was open; and
    another node still holds, untouched, a ready and verified archive of an immutable
    snapshot of the user on a healthy storage node.  For a standby, that archive was
    published at least ten minutes ago and the home of the user is healthy and ready. *)
Theorem claim_spares_archive locked op owner now ttl d task d' :
  ClaimReplicaCleanupTask locked op owner now ttl d = (Ok (Some task), d') ->
  undisturbed d (ck_GlobalUserID task) = true
  /\ (exists c c', wd_copies (rd_w d) !! (ck_GlobalUserID task, ck_NodeID task) = Some c /\ rc_IsAuthoritative c = false
       /\ wd_copies (rd_w d') !! (ck_GlobalUserID task, ck_NodeID task) = Some c' /\ rc_State c' = "deleting"%string
       /\ rc_SnapshotID c' = Some (ck_SnapshotID task))
  /\ (exists h, wd_homes (rd_w d) !! ck_LegacyUserID task = Some h /\ h <> ck_NodeID task)
  /\ exists n c, n <> ck_NodeID task /\ spare_archive d (ck_GlobalUserID task) n c
       /\ spare_archive d' (ck_GlobalUserID task) n c
       /\ (ck_ReplicaKind task = "hot_standby"%string -> home_ready d (ck_LegacyUserID task) = true
            /\ exists at_, rc_PublishedAt c = Some at_ /\ at_ <= ts (now - ReplicaCleanupStabilityWindow)).
Proof.
  intros E. destruct (claim_cases locked op owner now ttl d) as [[Hn _]|(d1 & d2 & tid & t & g & u & Ex & _ & Hl & _ & Hc & _ & Es & Hr)];
    rewrite E in *; [by destruct (Hn task)|]. injection Hr as -> ->. cbn.
  apply in_w_ok in Ex as (w & [_ ->]%tx_write_ok & ->).
  destruct (claimable_scope _ _ _ Hc) as (_ & Hu & Hh & (c & Hcl & Hid & Hsid & Hk & Ha)).
  destruct (claimable_spare _ _ _ Hc) as (n & c2 & Hspare & Hne & Hother & Hhot).
  destruct (start_deletion_ok _ _ _ _ _ _ _ _ _ _ Es) as (f & r & _ & _ & _ & _ & copies & _ & Hcop & Hd2).
  assert (forall k c0, wd_copies (rd_w d) !! k = Some c0 -> exists b : bool, wd_copies (rd_w d2) !! k = Some
    (if b then copy_set_state "deleting" (ts now) c0 else c0) /\ (b = true -> rc_ID c0 = ct_ReplicaID t /\ rc_Kind c0 = ct_ReplicaKind t)
    /\ (rc_ID c0 = ct_ReplicaID t -> rc_SnapshotID c0 = Some (ct_SnapshotID t) -> rc_Kind c0 = ct_ReplicaKind t ->
        rc_IsAuthoritative c0 = false -> deletable (ct_ReplicaKind t) (rc_State c0) = true -> b = true)) as Hafter.
  { intros k c0 Hk0. eexists. subst d2 copies. cbn. rewrite update_where_lookup, Hk0. split; [reflexivity|].
    split; [intros Hb; by b2p|]. intros -> -> -> -> ->. by rewrite !String.eqb_refl, bool_decide_eq_true_2. }
  split; [exact Hu|]. split; [|split; [exact Hh|]].
  - destruct (Hafter _ _ Hcl) as (b & Hb & _ & Htrue). exists c. eexists. split; [exact Hcl|]. split; [done|].
    split; [exact Hb|]. assert (b = true) as ->; [|done]. apply Htrue; try done.
    unfold claimable in Hc. cbv zeta in Hc. b2p.
    destruct (scope_copy _ t) as [c1|] eqn:Hsc; [|done]. destruct (node_of _ _); [|done]. b2p.
    assert (c1 = c) as -> by (unfold scope_copy in Hsc; rewrite Hcl in Hsc; cbn in Hsc; destruct (_ && _); [congruence | done]). done.
  - exists n, c2. split; [done|]. split; [by destruct Hspare|]. split; [|exact Hhot].
    destruct (Hafter _ _ (sv_row _ _ _ _ Hspare)) as (b & Hb & Hfalse & _). destruct b.
    + destruct (Hfalse eq_refl) as [Ei Ek]. destruct Hother as [Ho|Ho]; [done|]. destruct (sv_archive _ _ _ _ Hspare). congruence.
    + destruct Hspare as [V1 V2 V3 V4 V5]. split; [done..| |]; rewrite Hd2; done.
Qed.

End System.
