(* ===== verification/RetentionRuns.v ===== *)
(** * Retention, run

    A deployment in which the standby of a user is no longer needed: the instances at
    which the theorems of RetentionSystem.v are used.  The file also proves that a
    cleanup that fails for good is scheduled again in the next round. *)

From Stdlib Require Import ZArith Lia Ascii String.
From stdpp Require Import base list gmap strings relations pretty.
From S2P Require Import Prelude GoStrings AgentState Schema Leases Handoffs WorkflowSchema SnapshotStore SnapshotLife.
From S2P Require Import SnapshotExecutor RecoverySchema DataFaults Protection RestoreStore RecoverySystem RecoveryFaults.
From S2P Require Import RecoveryHomes RecoveryMoves RecoveryRuns ReplicaCleanup ReplicaIntegrity RetentionFrame.
From S2P Require Import RetentionSafety RetentionSystem.
#[local] Open Scope Z_scope.

(** ** A cleanup that fails for good *)

Section Returns.
Context `{Postgres}.

(** The statements that select the copy of a task for deletion. *)
Definition selected (d : RDB) (now : time) (k : Z * Z) (c : ReplicaCopy) : bool :=
  superseded_archive d k c
  || unneeded_standby d (ts (now - ReplicaCleanupStabilityWindow)) (ts (now - ReplicaCleanupProjectionMaxAge)) k c.

(** The same task, due again and without its error. *)
Definition due_again (now : time) (t t' : CleanupTask) : Prop :=
  ct_State t' = "pending"%string /\ ct_ErrorCode t' = None /\ ct_NextAttemptAt t' = now /\ ct_Run t' = ct_Run t.

Definition same_cleanup (t t' : CleanupTask) : Prop :=
  ct_NodeID t' = ct_NodeID t /\ ct_SnapshotID t' = ct_SnapshotID t /\ ct_ReplicaKind t' = ct_ReplicaKind t
  /\ ct_ReplicaID t' = ct_ReplicaID t.

(** What scheduling makes of a task that failed: nothing, or the task due again. *)
Definition returning (now : time) (t t' : CleanupTask) : Prop :=
  same_cleanup t t' /\ (ct_State t' = "failed"%string /\ ct_Run t' = ct_Run t \/ due_again now t t').

Lemma reopened_due now t t' : returning now t t' -> due_again now t (reopened now t') /\ same_cleanup t (reopened now t').
Proof.
  unfold returning, due_again, same_cleanup, reopened, state_in.
  intros [(E1 & E2 & E3 & E4) [[Es Er]|(Es & Ee & En & Er)]]; rewrite Es; cbn.
  - by split_and!.
  - by split_and!; rewrite ?Es.
Qed.

Lemma upsert_task_core newid kind reason now d x :
  exists m, upsert_task newid kind reason now d x = set_rd_w (put_cleanups m (rd_w d)) d.
Proof.
  assert (set_rd_w (put_cleanups (wd_cleanups (rd_w d)) (rd_w d)) d = d) as Hd by (by destruct d as [[]]).
  unfold upsert_task. destruct (rc_SnapshotID x.2) as [sid|]; [|by eexists].
  destruct (joined_user d x.1.1) as [[[g l] us]|]; [|by eexists]. cbv zeta. by eexists.
Qed.

(** One row of the statement, seen on one task. *)
Lemma upsert_task_at newid kind reason now d x tid t t' :
  wd_cleanups (rd_w d) !! tid = Some t' -> newid x.1 <> tid -> returning now t t' ->
  exists t2, wd_cleanups (rd_w (upsert_task newid kind reason now d x)) !! tid = Some t2 /\ returning now t t2
    /\ (due_again now t t' -> due_again now t t2)
    /\ (rc_SnapshotID x.2 = Some (ct_SnapshotID t) -> is_Some (joined_user d x.1.1) -> x.1.2 = ct_NodeID t ->
        kind = ct_ReplicaKind t -> due_again now t t2).
Proof.
  intros Hl Hne Hr. destruct (reopened_due _ _ _ Hr) as [Hdue Hsame]. pose proof Hr as [(E1 & E2 & E3 & _) _].
  unfold upsert_task. destruct (rc_SnapshotID x.2) as [sid|] eqn:Hsid; [|by exists t'; split_and!].
  destruct (joined_user d x.1.1) as [[[g l] us]|]; [|exists t'; split_and!; try done; by intros _ [? ?]].
  cbv zeta. destruct (Nat.eqb _ 0) eqn:Hb; cbn.
  - exists t'. rewrite lookup_insert_ne by done. split_and!; try done. intros [= ->] _ Hn ->.
    apply (rows_where_none _ _ _ _ Hb) in Hl. unfold task_key in Hl.
    by rewrite E1, E2, E3, Hn, Z.eqb_refl, !String.eqb_refl in Hl.
  - rewrite update_where_lookup, Hl. cbn. eexists. split; [done|].
    destruct (task_key x.1.2 sid kind t') eqn:Hk.
    + split; [split; [done|by right]|]. by split_and!.
    + split_and!; try done. intros [= ->] _ Hn ->. unfold task_key in Hk.
      by rewrite E1, E2, E3, Hn, Z.eqb_refl, !String.eqb_refl in Hk.
Qed.

Lemma upsert_tasks_at newid kind reason now tid t l : forall d t',
  wd_cleanups (rd_w d) !! tid = Some t' -> Forall (fun x : (Z * Z) * ReplicaCopy => newid x.1 <> tid) l -> returning now t t' ->
  exists t2, wd_cleanups (rd_w (foldl (upsert_task newid kind reason now) d l)) !! tid = Some t2 /\ returning now t t2
    /\ (due_again now t t' -> due_again now t t2)
    /\ (forall x, x ∈ l -> rc_SnapshotID x.2 = Some (ct_SnapshotID t) -> is_Some (joined_user d x.1.1) ->
        x.1.2 = ct_NodeID t -> kind = ct_ReplicaKind t -> due_again now t t2).
Proof.
  induction l as [|y l IH]; intros d t' Hl Hf Hr; cbn [foldl].
  { exists t'. split_and!; try done. by intros x ?%elem_of_nil. }
  apply Forall_cons in Hf as [Hy Hf].
  destruct (upsert_task_at newid kind reason now d y tid t t' Hl Hy Hr) as (t1 & Hl1 & Hr1 & Hk1 & Hd1).
  destruct (IH _ _ Hl1 Hf Hr1) as (t2 & Hl2 & Hr2 & Hk2 & Hd2). exists t2. split_and!; try done; [by auto|].
  destruct (upsert_task_core newid kind reason now d y) as [m Em].
  intros x [->|Hx]%elem_of_cons Hs Hj Hn Hkind; [by apply Hk2, Hd1|].
  apply (Hd2 x); try done. by rewrite Em.
Qed.

Lemma upsert_tasks_core newid kind reason now l : forall d,
  exists m, foldl (upsert_task newid kind reason now) d l = set_rd_w (put_cleanups m (rd_w d)) d.
Proof.
  induction l as [|x l IH]; intros d; cbn [foldl].
  { exists (wd_cleanups (rd_w d)). by destruct d as [[]]. }
  destruct (upsert_task_core newid kind reason now d x) as [m ->]. destruct (IH (set_rd_w (put_cleanups m (rd_w d)) d)) as [m' ->].
  by exists m'.
Qed.

(** One of the two statements, seen on one task. *)
Lemma schedule_tasks_at newid kind reason now rows d n d' tid t t' :
  schedule_tasks newid kind reason now rows d = Ok (n, d') -> wd_cleanups (rd_w d) !! tid = Some t' -> returning now t t' ->
  exists t2 m, wd_cleanups (rd_w d') !! tid = Some t2 /\ returning now t t2
    /\ (due_again now t t' -> due_again now t t2)
    /\ (forall x, x ∈ rows d -> rc_SnapshotID x.2 = Some (ct_SnapshotID t) -> is_Some (joined_user d x.1.1) ->
        x.1.2 = ct_NodeID t -> kind = ct_ReplicaKind t -> due_again now t t2)
    /\ d' = set_rd_w (put_cleanups m (rd_w d)) d.
Proof.
  intros E Hl Hr. unfold schedule_tasks in E. cbv zeta in E.
  match type of E with (if ?b then _ else _) = _ => destruct b eqn:Hb; [|done] end. injection E as _ <-. b2p.
  destruct (upsert_tasks_at newid kind reason now tid t (rows d) d t' Hl) as (t2 & Q1 & Q2 & Q3 & Q4); [|done|].
  - apply Forall_forall. intros x Hx.
    match goal with Hf : forallb _ _ = true |- _ => rewrite forallb_forall in Hf; apply list_elem_of_In, Hf in Hx end.
    b2p. intros E. congruence.
  - destruct (upsert_tasks_core newid kind reason now (rows d) d) as [m Em]. exists t2, m. by split_and!.
Qed.

(** A selected copy has a user. *)
Lemma selected_user d now k c : selected d now k c = true -> is_Some (joined_user d k.1).
Proof.
  unfold selected, superseded_archive, unneeded_standby. intros [E|E]%orb_true_iff; b2p;
    by destruct (joined_user d k.1) as [[[g l] us]|].
Qed.

Lemma schedule_returns clock newid now d n d' tid t k c :
  ScheduleReplicaCleanupTasks clock newid now d = (Ok n, d') ->
  wd_cleanups (rd_w d) !! tid = Some t -> ct_State t = "failed"%string ->
  wd_copies (rd_w d) !! k = Some c -> selected d (now_or clock now) k c = true ->
  k.2 = ct_NodeID t -> rc_SnapshotID c = Some (ct_SnapshotID t) -> rc_Kind c = ct_ReplicaKind t ->
  exists t', wd_cleanups (rd_w d') !! tid = Some t' /\ due_again (ts (now_or clock now)) t t' /\ same_cleanup t t'.
Proof.
  intros E Hl Hs Hc Hsel Hn Hsid Hkind. unfold ScheduleReplicaCleanupTasks, runTx in E.
  destruct (tx_bind _ _ d) as [[r d3]|e] eqn:Et; [|done]. injection E as <- <-.
  apply tx_bind_ok in Et as (u & d1 & [_ ->]%tx_write_ok & Et).
  apply tx_bind_ok in Et as (a & d1 & E1 & Et). apply tx_bind_ok in Et as (b & d2 & E2 & [_ ->]%tx_ret_ok).
  destruct (schedule_tasks_at _ _ _ _ _ _ _ _ tid t t E1) as (t1 & m1 & Hl1 & Hr1 & _ & Hd1 & Em1).
  { cbn. rewrite update_where_lookup, Hl. cbn. unfold waiting, state_in. by rewrite Hs. }
  { split; [by split_and!|]. by left. }
  destruct (schedule_tasks_at _ _ _ _ _ _ _ _ tid t t1 E2 Hl1 Hr1) as (t2 & m2 & Hl2 & [Hsame _] & Hk2 & Hd2 & _).
  exists t2. split; [done|]. split; [|done]. pose proof (selected_user _ _ _ _ Hsel) as Hj.
  unfold selected in Hsel. apply orb_true_iff in Hsel as [Hsel|Hsel].
  - apply Hk2, (Hd1 (k, c)); [by apply rows_where_elem | done | done | done|].
    rewrite <- Hkind. unfold superseded_archive in Hsel. by b2p.
  - apply (Hd2 (k, c)); [rewrite Em1; by apply rows_where_elem | done | by rewrite Em1 | done|].
    rewrite <- Hkind. unfold unneeded_standby in Hsel. by b2p.
Qed.

Lemma audit_rows uses a t op g det d u d' : insert_audit uses a t op g det d = Ok (u, d') ->
  wd_cleanups (rd_w d') = wd_cleanups (rd_w d) /\ wd_copies (rd_w d') = wd_copies (rd_w d).
Proof.
  unfold insert_audit. intros E. apply tx_bind_ok in E as (u1 & d1 & [_ ->]%infer_params_ok & E).
  by apply in_w_ok in E as (w & [_ ->]%tx_write_ok & ->).
Qed.

(** C39: A permanent failure of a cleanup lasts until the next round.  When
    FailReplicaCleanupTask succeeds, the task is 'failed' with its error code and the
    copy is back in the state from which it was scheduled ('stale' for an archive,
    'ready' for a standby), as the comment says.  So nothing keeps the next round from
    selecting the copy again; and if a round that succeeds selects it, the same task is
    'pending' at once, its error code forgotten and its attempt kept. *)
Theorem failed_cleanup_returns task code now d d1 tid replica :
  FailReplicaCleanupTask task code now d = (Ok tt, d1) ->
  uuid_in (ck_ID task) = Some tid -> uuid_in (ck_ReplicaID task) = Some replica ->
  (forall k c, wd_copies (rd_w d) !! k = Some c -> rc_ID c = replica -> rc_State c = "deleting"%string ->
     rc_IsAuthoritative c = false ->
     exists c1, wd_copies (rd_w d1) !! k = Some c1 /\ rc_State c1 = kept_state (rc_Kind c)
       /\ rc_SnapshotID c1 = rc_SnapshotID c /\ rc_Kind c1 = rc_Kind c)
  /\ exists t, wd_cleanups (rd_w d1) !! tid = Some t /\ ct_State t = "failed"%string /\ ct_ErrorCode t = Some code
     /\ forall clock newid now2 n d2 k c,
          ScheduleReplicaCleanupTasks clock newid now2 d1 = (Ok n, d2) ->
          wd_copies (rd_w d1) !! k = Some c -> selected d1 (now_or clock now2) k c = true ->
          k.2 = ct_NodeID t -> rc_SnapshotID c = Some (ct_SnapshotID t) -> rc_Kind c = ct_ReplicaKind t ->
          exists t', wd_cleanups (rd_w d2) !! tid = Some t' /\ due_again (ts (now_or clock now2)) t t' /\ same_cleanup t t'.
Proof.
  intros E Htid Hrep. unfold FailReplicaCleanupTask in E. destruct (_ || _); [done|]. unfold runTx in E.
  destruct (tx_bind _ _ d) as [[u d']|e] eqn:Et; [|done]. injection E as _ <-.
  apply tx_bind_ok in Et as (tid' & d0 & [Htid' ->]%uuid_param_ok & E). rewrite Htid in Htid'. injection Htid' as <-.
  apply tx_bind_ok in E as (op & d0 & [_ ->]%uuid_param_ok & E).
  apply tx_bind_ok in E as (n & d1 & [Hn ->]%update_tasks_ok & E). apply tx_bind_ok in E as (u1 & d2 & [H1 ->]%require_ok & E).
  apply tx_bind_ok in E as (rep' & d0 & [Hrep' ->]%uuid_param_ok & E). rewrite Hrep in Hrep'. injection Hrep' as <-.
  apply tx_bind_ok in E as (n2 & d2 & [_ ->]%update_copies_ok & E). apply tx_bind_ok in E as (b & d3 & E3 & E).
  assert (wd_cleanups (rd_w d3) = update_where (held_task task tid op)
      (fun t => finish_task "failed" (Some code) (pg_AgentOutcome (ct_Run t)) (ts now) t) (wd_cleanups (rd_w d))
    /\ wd_copies (rd_w d3) = update_where (fun _ c => String.eqb (rc_ID c) replica && String.eqb (rc_State c) "deleting"
                               && negb (rc_IsAuthoritative c))
                (fun c => copy_set_state (kept_state (rc_Kind c)) (ts now) c) (wd_copies (rd_w d))) as [Ec Ek].
  { unfold update_replica in E3. destruct (wd_replicas _ !! _) as [r|]; [destruct (_ && _)|]; by injection E3 as _ <-. }
  apply audit_rows in E as [Ec' Ek']. rewrite Ec in Ec'. rewrite Ek in Ek'. clear Ec Ek E3.
  apply Nat.eqb_eq in H1. rewrite H1 in Hn. symmetry in Hn. apply held_row in Hn as (t0 & Hl0 & Hheld).
  split.
  - intros k c Hl <- Hs Ha. rewrite Ek', update_where_lookup, Hl. cbn. rewrite String.eqb_refl, Hs, Ha. cbn. by eexists.
  - eexists. rewrite Ec', update_where_lookup, Hl0. cbn. rewrite Hheld. split; [reflexivity|]. split; [done|]. split; [done|].
    intros clock newid now2 m d2 k c Hsch Hc Hsel Hnode Hsid Hkind.
    eapply schedule_returns; [exact Hsch| |done|exact Hc|exact Hsel|done|done|done].
    rewrite Ec', update_where_lookup, Hl0. cbn. by rewrite Hheld.
Qed.
End Returns.

#[local] Existing Instance demo_postgres.

(** ** A database without cleanups and restores is safe *)

Lemma fresh_retention_safe d :
  (forall user user' legacy, legacy_ids (core d) !! user = Some (Some legacy) ->
    legacy_ids (core d) !! user' = Some (Some legacy) -> user' = user) ->
  rd_restores d = ∅ -> wd_cleanups (rd_w d) = ∅ -> retention_safe {| rv_db := d; rv_claimed := [] |}.
Proof.
  intros Hl Hr Hc. split; [cbn | constructor].
  assert (forall id t, wd_cleanups (rd_w d) !! id = Some t -> False) as Hno.
  { intros id t. rewrite Hc. by rewrite lookup_empty. }
  split.
  - exact Hl.
  - intros op o. rewrite Hr. by rewrite lookup_empty.
  - intros id id' t t' H1. by destruct (Hno _ _ H1).
  - intros id t H1. by destruct (Hno _ _ H1).
  - intros id s (t & H1 & _). by destruct (Hno _ _ H1).
  - intros id id' s s' (t & H1 & _). by destruct (Hno _ _ H1).
Qed.

(** ** A deployment with an unneeded standby *)

Definition with_copy (user node : Z) (f : ReplicaCopy -> ReplicaCopy) (d : RDB) : RDB :=
  set_rd_w (put_copies (alter f (user, node) (wd_copies (rd_w d))) (rd_w d)) d.

Definition verified_copy (c : ReplicaCopy) : ReplicaCopy :=
  copy_checked (rc_State c) (rc_VerifiedAt c) (verified_now saved_at) saved_at c.

(** Home, standby and a verified archive. *)
Definition kept_archive : retention := {| rv_db := with_copy 7 9 verified_copy with_standby; rv_claimed := [] |}.

Definition task_id (k : Z * Z) : string := rid (pretty (k.2 + 60)).

Definition cleanup_run : list retention_event :=
  [VRecovery (reconcile (store_now - 30 * Minute)); VRecovery (reconcile store_now); VSchedule store_now task_id store_now;
   VClaim (fun _ => false) (rid "70") (rid "71") store_now (5 * Minute)].

Lemma kept_archive_safe : retention_safe kept_archive.
Proof.
  apply fresh_retention_safe; [|vm_compute; reflexivity | vm_compute; reflexivity].
  apply (pa_legacy (rd_w with_standby)), deployed_agree. repeat constructor; done.
Qed.

Definition standby_task : string := task_id (7, 2).

(** The scope of the cleanup that the run leaves running. *)
Definition standby_scope : scope :=
  {| ks_ReplicaID := rid "12"; ks_UserID := 7; ks_LegacyUserID := 3; ks_NodeID := 2; ks_SnapshotID := rid "02";
     ks_Handle := "alice"; ks_ReplicaKind := "hot_standby" |}.

Lemma deletion_excludes_use_witness :
  running_at (rd_w (rv_db (retention_run kept_archive cleanup_run))) standby_task standby_scope
  /\ reserved (rv_db (retention_run kept_archive cleanup_run)) standby_scope.
Proof.
  assert (running_at (rd_w (rv_db (retention_run kept_archive cleanup_run))) standby_task standby_scope) as Hr.
  { eexists. split; [vm_compute; reflexivity|]. split; vm_compute; reflexivity. }
  split; [exact Hr|]. exact (proj1 (deletion_excludes_use kept_archive cleanup_run standby_task standby_scope kept_archive_safe Hr)).
Defined.

(** The database when the cleanup is scheduled, and its claim. *)
Definition scheduled : RDB := rv_db (retention_run kept_archive (take 3 cleanup_run)).

#[local] Notation demo_claim := (ClaimReplicaCleanupTask (fun _ => false) (rid "70") (rid "71") store_now (5 * Minute) scheduled).

Definition standby_claimed : ReplicaCleanupTask :=
  {| ck_ID := standby_task; ck_ReplicaID := rid "12"; ck_GlobalUserID := 7; ck_LegacyUserID := 3; ck_NodeID := 2;
     ck_SnapshotID := rid "02"; ck_Handle := "alice"; ck_ReplicaKind := "hot_standby";
     ck_ReasonCode := "stable_archive_available"; ck_Attempt := 1; ck_OperationID := rid "70"; ck_ControllerGeneration := 4;
     ck_LeaseOwner := rid "71" |}.

Lemma claim_spares_archive_witness :
  demo_claim.1 = Ok (Some standby_claimed)
  /\ exists n c, n <> 2 /\ spare_archive scheduled 7 n c /\ spare_archive demo_claim.2 7 n c.
Proof.
  assert (demo_claim.1 = Ok (Some standby_claimed)) as E by (vm_compute; reflexivity). split; [exact E|].
  destruct (claim_spares_archive (H := demo_postgres) (fun _ => false) (rid "70") (rid "71") store_now (5 * Minute) scheduled
    standby_claimed demo_claim.2 (pair_fst _ _ E)) as (_ & _ & _ & n & c & Hn & H1 & H2 & _).
  exists n, c. split; [exact Hn|]. split; [exact H1 | exact H2].
Defined.

(** ** The run of a cleanup that fails for good *)

(** The node says that it cannot tell whose files they are; the next rounds follow. *)
Definition identity_lost : list retention_event :=
  cleanup_run ++ [VSettle 0 (CleanupError "replica_identity_unavailable") (store_now + Second)].

Definition next_round : list retention_event :=
  [VSchedule store_now (fun k => rid (pretty (k.2 + 80))) (store_now + Minute);
   VClaim (fun _ => false) (rid "72") (rid "71") (store_now + Minute) (5 * Minute)].

Definition task_view (s : retention) : option (string * Z * option string) :=
  (fun t => (ct_State t, pg_Attempt (ct_Run t), ct_ErrorCode t)) <$> wd_cleanups (rd_w (rv_db s)) !! standby_task.

Definition standby_state (s : retention) : option string := rc_State <$> wd_copies (rd_w (rv_db s)) !! (7, 2).

(** The same deletion is under way again a minute later. *)
Example demo_cleanup_returns :
  let failed := retention_run kept_archive identity_lost in
  let again := retention_run failed next_round in
  task_view failed = Some ("failed"%string, 1, Some "replica_identity_unavailable"%string)
  /\ standby_state failed = Some "ready"%string
  /\ task_view again = Some ("running"%string, 2, None)
  /\ standby_state again = Some "deleting"%string
  /\ ck_ID <$> rv_claimed again = [standby_task; standby_task].
Proof. vm_compute. repeat split; reflexivity. Qed.

#[local] Notation deleting_db := (rv_db (retention_run kept_archive cleanup_run)).
#[local] Notation demo_fail :=
  (FailReplicaCleanupTask standby_claimed "replica_identity_unavailable" (store_now + Second) deleting_db).
#[local] Notation demo_round :=
  (ScheduleReplicaCleanupTasks store_now (fun k => rid (pretty (k.2 + 80))) (store_now + Minute) demo_fail.2).

Lemma failed_cleanup_returns_witness : exists t t',
  wd_cleanups (rd_w demo_fail.2) !! standby_task = Some t /\ ct_State t = "failed"%string
  /\ wd_cleanups (rd_w demo_round.2) !! standby_task = Some t' /\ due_again (store_now + Minute) t t'.
Proof.
  assert (demo_fail.1 = Ok tt) as Ef by (vm_compute; reflexivity).
  assert (demo_round.1 = Ok 1) as Er by (vm_compute; reflexivity).
  assert (exists c, wd_copies (rd_w demo_fail.2) !! (7, 2) = Some c /\ selected demo_fail.2 (store_now + Minute) (7, 2) c = true
    /\ rc_SnapshotID c = Some (rid "02") /\ rc_Kind c = "hot_standby"%string) as (c & Hc & Hsel & Hsid & Hkind).
  { eexists. split; [vm_compute; reflexivity|]. repeat split; vm_compute; reflexivity. }
  destruct (failed_cleanup_returns standby_claimed "replica_identity_unavailable" (store_now + Second) deleting_db demo_fail.2
    standby_task (rid "12") (pair_fst _ _ Ef) ltac:(vm_compute; reflexivity) ltac:(vm_compute; reflexivity))
    as (_ & t & Hl & Hs & _ & Hagain).
  assert (ct_NodeID t = 2 /\ ct_SnapshotID t = rid "02" /\ ct_ReplicaKind t = "hot_standby"%string) as (E1 & E2 & E3).
  { clear Hagain. revert Hl. vm_compute. intros [= <-]. repeat split; reflexivity. }
  destruct (Hagain store_now (fun k => rid (pretty (k.2 + 80))) (store_now + Minute) 1 demo_round.2 (7, 2) c (pair_fst _ _ Er) Hc)
    as (t' & Hl' & Hd & _); [exact Hsel | exact (eq_sym E1) | rewrite E2; exact Hsid | rewrite E3; exact Hkind|].
  exists t, t'. split; [exact Hl|]. split; [exact Hs|]. split; [exact Hl' | exact Hd].
Defined.
