(* ===== verification/StorageRepair.v ===== *)
(** * Storage repair

    src/internal/store/storage_repair.go: a user without a healthy archive gets one.
    An intent per user is scheduled, claimed together with a storage node whose free
    space is reserved, carried out by a snapshot workflow and settled when that is
    over; the round of the Controller is src/internal/controller/storage_repair.go.

    The tables are those of the recovery with storage_repair_tasks (migrations 0039 and
    0045) and the columns of nodes about their disks.  The claim runs at READ COMMITTED:
    its statement that chooses the target reads the database as it was when that
    statement began, and then locks the row of the node; that database is the argument
    [seen].  A node whose row another transaction has locked is skipped ([busy]), as is a
    task ([locked]); attempts of the claim that the server aborts change nothing. *)

From Stdlib Require Import ZArith Lia Ascii String.
From stdpp Require Import base list gmap strings.
From S2P Require Import Prelude GoStrings Sha256 AgentState Schema Leases Handoffs Leadership Rebuilds WorkflowSchema SnapshotStore.
From S2P Require Import SnapshotExecutor RecoverySchema DataFaults Protection RestoreStore ReplicaCleanup.
#[local] Open Scope Z_scope.

Definition storageRepairDefaultEstimate : Z := Z.shiftl 1 30.
Definition storageRepairMinimumEstimate : Z := Z.shiftl 64 20.

Definition ErrInvalidStorageRepairExecution : string := "invalid storage repair execution input".

Record CreateStorageRepairExecutionParams := {
  cx_ExecutionID : string;
  cx_LeaseOwner : string;
  cx_WorkflowID : string;
  cx_OperationID : string;
  cx_SnapshotID : string;
  cx_CapabilityID : string;
  cx_CapabilityHash : string;
  cx_CapabilityExpires : time;
  cx_LeaseTTL : duration;
  cx_OfflineGrace : duration;
  cx_MaxAttempts : Z;
  cx_RelayAvailable : bool;
  cx_Now : time
}.

Record StorageRepairExecution := {
  sx_TaskID : string;
  sx_WorkflowID : string;
  sx_SnapshotID : string;
  sx_LegacyBackupJobID : Z;
  sx_LegacyUserID : Z;
  sx_GlobalUserID : Z;
  sx_SourceNodeID : Z;
  sx_TargetNodeID : Z;
  sx_EstimatedBytes : Z;
  sx_ActivityEpoch : Z;
  sx_ControllerGeneration : Z
}.

(** ** Tables *)

Record RepairTask := {
  rk_UserID : Z;
  rk_LegacyUserID : Z;
  rk_SourceNodeID : Z;
  rk_TargetNodeID : option Z;
  rk_LastTargetNodeID : option Z;
  rk_PreferredTargetNodeID : option Z;
  rk_EstimatedBytes : Z;
  rk_ReservedBytes : Z;
  rk_State : string;
  rk_Attempt : Z;
  rk_NextAttemptAt : time;
  rk_ExecutionID : option string;
  rk_LeaseOwner : option string;
  rk_LeaseUntil : option time;
  rk_ControllerGeneration : option Z;
  rk_WorkflowID : option string;
  rk_LastWorkflowID : option string;
  rk_BackupJobID : option Z;
  rk_LastErrorCode : option string;
  rk_CreatedAt : time;
  rk_UpdatedAt : time;
  rk_FinishedAt : option time
}.

(** The columns of nodes that a heartbeat fills in. *)
Record NodeDisk := {
  dk_MetricsObservedAt : option time;
  dk_AvailableBytes : option Z;
  dk_QuotaBytes : option Z;
  dk_AllocatedBytes : option Z
}.

Record SDB := {
  sd_r : RDB;  (* the tables of RecoverySchema.v *)
  sd_tasks : gmap string RepairTask;  (* storage_repair_tasks, by id *)
  sd_disks : gmap Z NodeDisk  (* nodes: the disk columns *)
}.

Definition set_sd_r (x : RDB) (d : SDB) : SDB := {| sd_r := x; sd_tasks := sd_tasks d; sd_disks := sd_disks d |}.
Definition set_sd_tasks (x : gmap string RepairTask) (d : SDB) : SDB :=
  {| sd_r := sd_r d; sd_tasks := x; sd_disks := sd_disks d |}.
Definition set_sd_disks (x : gmap Z NodeDisk) (d : SDB) : SDB :=
  {| sd_r := sd_r d; sd_tasks := sd_tasks d; sd_disks := x |}.

Notation STx := (TxS SDB).

(** A statement on the other tables. *)
Definition in_r {A} (m : RTx A) : STx A := fun d =>
  match m (sd_r d) with Ok (a, r) => Ok (a, set_sd_r r d) | Fail e => Fail e end.

Definition sselect {A} (q : SDB -> option A) (missing : string) : STx A :=
  fun d => match q d with Some a => Ok (a, d) | None => Fail missing end.

(** ** Constraints *)

Definition repair_in (states : list string) (t : RepairTask) : bool := bool_decide (rk_State t ∈ states).
Definition repair_waiting : RepairTask -> bool := repair_in ["pending"; "retry_wait"].
Definition repair_running : RepairTask -> bool := repair_in ["workflow_running"].
Definition repair_active : RepairTask -> bool := repair_in ["pending"; "retry_wait"; "workflow_running"].

Definition repair_states : list string :=
  ["pending"; "retry_wait"; "workflow_running"; "succeeded"; "cancelled"; "failed"].

(** The CHECK constraints of a row. *)
Definition repair_ok (t : RepairTask) : bool :=
  bool_decide (rk_State t ∈ repair_states) && (0 <? rk_EstimatedBytes t) && (0 <=? rk_ReservedBytes t)
  && (0 <=? rk_Attempt t) && (rk_Attempt t <=? MaxInt32)
  && match rk_LastErrorCode t with Some c => ValidMachineReasonCode c | None => true end
  && negb (rk_SourceNodeID t =? default 0 (rk_TargetNodeID t))
  && (if repair_running t
      then isSome (rk_TargetNodeID t) && (rk_ReservedBytes t =? rk_EstimatedBytes t) && isSome (rk_ExecutionID t)
           && isSome (rk_LeaseOwner t) && isSome (rk_LeaseUntil t) && isSome (rk_ControllerGeneration t)
           && isSome (rk_WorkflowID t) && isSome (rk_BackupJobID t)
      else (rk_ReservedBytes t =? 0) && bool_decide (rk_WorkflowID t = None)).

Definition same_some (x y : option string) : bool := isSome x && bool_decide (x = y).

(** Two rows that the unique indexes do not allow together. *)
Definition repairs_clash (t u : RepairTask) : bool :=
  (repair_active t && repair_active u && (rk_UserID t =? rk_UserID u))
  || same_some (rk_ExecutionID t) (rk_ExecutionID u) || same_some (rk_LeaseOwner t) (rk_LeaseOwner u)
  || same_some (rk_WorkflowID t) (rk_WorkflowID u).

Definition repairs_ok (m : gmap string RepairTask) : bool :=
  Nat.eqb (length (rows_where (fun id t => negb (repair_ok t)
    || negb (Nat.eqb (length (rows_where (fun id' u => negb (String.eqb id' id) && repairs_clash t u) m)) 0)) m)) 0.

Definition write_repairs (m : gmap string RepairTask) : STx unit := fun d =>
  if repairs_ok m then Ok (tt, set_sd_tasks m d) else Fail sql_error.

(** An UPDATE of the tasks, with the number of rows. *)
Definition update_repairs (p : string -> RepairTask -> bool) (f : RepairTask -> RepairTask) : STx nat := fun d =>
  match write_repairs (update_where p f (sd_tasks d)) d with
  | Ok (_, d') => Ok (length (rows_where p (sd_tasks d)), d')
  | Fail e => Fail e
  end.

(** ** What the statements ask *)

(** An archive that makes a repair unnecessary. *)
Definition keeps_archive (d : RDB) (user legacy : Z) (k : Z * Z) (c : ReplicaCopy) : bool :=
  (k.1 =? user) && String.eqb (rc_Kind c) "archive" && String.eqb (rc_State c) "ready"
  && String.eqb (rc_CompatibilityState c) "compatible" && isSome (rc_PublishedAt c) && isSome (rc_VerifiedAt c)
  && match rc_SnapshotID c with Some sid => isSome (immutable_of d user sid) | None => false end
  && match node_of (rd_w d) k.2 with Some n => node_healthy "storage" n && managed n | None => false end
  && replica_is d legacy k.2 (fun r => String.eqb (ur_Kind r) "archive" && String.eqb (ur_State r) "ready").

Definition archive_kept (d : RDB) (user legacy : Z) : bool :=
  negb (Nat.eqb (length (rows_where (keeps_archive d user legacy) (wd_copies (rd_w d)))) 0).

(** The projection asks for a repair. *)
Definition unprotected (d : RDB) (user : Z) : bool :=
  match rd_protection d !! user with
  | Some p => bool_decide (pr_State p ∈ ["temporary"; "unprotected"]%string)
  | None => false
  end.

Definition repair_type (w : Workflow) : bool :=
  bool_decide (wf_Type w ∈ ["snapshot"; "restore"; "conflict_resolution"]%string).

(** The home may be copied: healthy and managed, with a ready replica, under a ready
    control plane, and nothing else is done with the data. *)
Definition copyable (d : RDB) (user legacy home : Z) : bool :=
  unprotected d user
  && match node_of (rd_w d) home with Some n => node_healthy "compute" n && managed n | None => false end
  && replica_is d legacy home (fun r => String.eqb (ur_Kind r) "home" && String.eqb (ur_State r) "ready")
  && IsControlPlaneReady (core d) && negb (archive_kept d user legacy)
  && Nat.eqb (length (rows_where (fun _ w => bool_decide (wf_UserID w = Some user) && repair_type w && is_open w)
                        (wd_workflows (rd_w d)))) 0
  && negb (has_open_conflict d user)
  && Nat.eqb (length (rows_where (fun _ f => (fa_UserID f =? user) && negb (is_resolved f)) (rd_faults d))) 0
  && negb (cleanup_active (rd_w d) user [home]).

(** The lease of the user admits no writer and was not used lately. *)
Definition lease_quiet (l : ActivityLease) (now cutoff : time) : bool :=
  negb ((now <? ls_LeaseExpiresAt l) || negb (ls_InFlightReads l =? 0) || negb (ls_InFlightWrites l =? 0)
        || bool_decide (ls_State l ∈ ["independent"; "quiescing"; "conflict"]%string)
        || (cutoff <? Z.max (ls_LastPageHeartbeatAt l) (ls_LastRequestAt l))).

Definition ListActiveStorageRepairUserIDs (d : SDB) : gset Z :=
  list_to_set (map (fun x : string * RepairTask => rk_UserID x.2) (rows_where (fun _ => repair_active) (sd_tasks d))).

(** ** Changes of a row *)

Definition repair_cancelled (now : time) (t : RepairTask) : RepairTask :=
  {| rk_UserID := rk_UserID t; rk_LegacyUserID := rk_LegacyUserID t; rk_SourceNodeID := rk_SourceNodeID t;
     rk_TargetNodeID := rk_TargetNodeID t; rk_LastTargetNodeID := rk_LastTargetNodeID t;
     rk_PreferredTargetNodeID := rk_PreferredTargetNodeID t; rk_EstimatedBytes := rk_EstimatedBytes t;
     rk_ReservedBytes := 0; rk_State := "cancelled"; rk_Attempt := rk_Attempt t; rk_NextAttemptAt := rk_NextAttemptAt t;
     rk_ExecutionID := rk_ExecutionID t; rk_LeaseOwner := rk_LeaseOwner t; rk_LeaseUntil := rk_LeaseUntil t;
     rk_ControllerGeneration := rk_ControllerGeneration t; rk_WorkflowID := None; rk_LastWorkflowID := rk_LastWorkflowID t;
     rk_BackupJobID := rk_BackupJobID t; rk_LastErrorCode := Some "protection_already_available"%string;
     rk_CreatedAt := rk_CreatedAt t; rk_UpdatedAt := now; rk_FinishedAt := Some now |}.

Definition repair_preferred (target : option Z) (now : time) (t : RepairTask) : RepairTask :=
  {| rk_UserID := rk_UserID t; rk_LegacyUserID := rk_LegacyUserID t; rk_SourceNodeID := rk_SourceNodeID t;
     rk_TargetNodeID := rk_TargetNodeID t; rk_LastTargetNodeID := rk_LastTargetNodeID t;
     rk_PreferredTargetNodeID := target; rk_EstimatedBytes := rk_EstimatedBytes t;
     rk_ReservedBytes := rk_ReservedBytes t; rk_State := rk_State t; rk_Attempt := rk_Attempt t;
     rk_NextAttemptAt := rk_NextAttemptAt t; rk_ExecutionID := rk_ExecutionID t; rk_LeaseOwner := rk_LeaseOwner t;
     rk_LeaseUntil := rk_LeaseUntil t; rk_ControllerGeneration := rk_ControllerGeneration t;
     rk_WorkflowID := rk_WorkflowID t; rk_LastWorkflowID := rk_LastWorkflowID t; rk_BackupJobID := rk_BackupJobID t;
     rk_LastErrorCode := rk_LastErrorCode t; rk_CreatedAt := rk_CreatedAt t; rk_UpdatedAt := now;
     rk_FinishedAt := rk_FinishedAt t |}.

(** The row of a claimed intent, and the row when its workflow is over. *)
Definition repair_claimed (target generation job : Z)
  (execution owner wid : string) (now : time) (until : time) (t : RepairTask) : RepairTask :=
  {| rk_UserID := rk_UserID t; rk_LegacyUserID := rk_LegacyUserID t; rk_SourceNodeID := rk_SourceNodeID t;
     rk_TargetNodeID := Some target; rk_LastTargetNodeID := rk_LastTargetNodeID t;
     rk_PreferredTargetNodeID := rk_PreferredTargetNodeID t; rk_EstimatedBytes := rk_EstimatedBytes t;
     rk_ReservedBytes := rk_EstimatedBytes t; rk_State := "workflow_running"; rk_Attempt := rk_Attempt t + 1;
     rk_NextAttemptAt := rk_NextAttemptAt t; rk_ExecutionID := Some execution; rk_LeaseOwner := Some owner;
     rk_LeaseUntil := Some until; rk_ControllerGeneration := Some generation; rk_WorkflowID := Some wid;
     rk_LastWorkflowID := rk_LastWorkflowID t; rk_BackupJobID := Some job; rk_LastErrorCode := None;
     rk_CreatedAt := rk_CreatedAt t; rk_UpdatedAt := now; rk_FinishedAt := rk_FinishedAt t |}.

(** [make_interval(secs => LEAST(3600,(30*power(2,LEAST(GREATEST(attempt-1,0),7)))::int))]. *)
Definition repair_backoff (attempt : Z) : duration :=
  Z.min 3600 (30 * 2 ^ Z.min (Z.max (attempt - 1) 0) 7) * Second.

Definition repair_outcome (w : Workflow) (maxAttempts : Z) (t : RepairTask) : string :=
  if String.eqb (wf_State w) "succeeded" then "succeeded"
  else if maxAttempts <=? rk_Attempt t then "failed" else "retry_wait".

Definition repair_error (w : Workflow) : option string :=
  if String.eqb (wf_State w) "succeeded" then None
  else match wf_ErrorCode w with
       | Some c => if ValidMachineReasonCode c then Some c
                   else Some (if String.eqb (wf_State w) "cancelled" then "snapshot_workflow_cancelled"
                              else "snapshot_workflow_failed")%string
       | None => Some (if String.eqb (wf_State w) "cancelled" then "snapshot_workflow_cancelled"
                       else "snapshot_workflow_failed")%string
       end.

Definition repair_settled (ts_ : time -> time) (w : Workflow) (maxAttempts : Z) (now : time) (t : RepairTask) : RepairTask :=
  let over := String.eqb (wf_State w) "succeeded" || (maxAttempts <=? rk_Attempt t) in
  {| rk_UserID := rk_UserID t; rk_LegacyUserID := rk_LegacyUserID t; rk_SourceNodeID := rk_SourceNodeID t;
     rk_TargetNodeID := None; rk_LastTargetNodeID := rk_TargetNodeID t;
     rk_PreferredTargetNodeID := rk_PreferredTargetNodeID t; rk_EstimatedBytes := rk_EstimatedBytes t;
     rk_ReservedBytes := 0; rk_State := repair_outcome w maxAttempts t; rk_Attempt := rk_Attempt t;
     rk_NextAttemptAt := if over then ts_ now else ts_ now + repair_backoff (rk_Attempt t);
     rk_ExecutionID := rk_ExecutionID t; rk_LeaseOwner := None; rk_LeaseUntil := None;
     rk_ControllerGeneration := rk_ControllerGeneration t; rk_WorkflowID := None; rk_LastWorkflowID := rk_WorkflowID t;
     rk_BackupJobID := rk_BackupJobID t; rk_LastErrorCode := repair_error w; rk_CreatedAt := rk_CreatedAt t;
     rk_UpdatedAt := ts_ now; rk_FinishedAt := if over then Some (ts_ now) else None |}.

Definition repair_exhausted (now : time) (t : RepairTask) : RepairTask :=
  {| rk_UserID := rk_UserID t; rk_LegacyUserID := rk_LegacyUserID t; rk_SourceNodeID := rk_SourceNodeID t;
     rk_TargetNodeID := rk_TargetNodeID t; rk_LastTargetNodeID := rk_LastTargetNodeID t;
     rk_PreferredTargetNodeID := rk_PreferredTargetNodeID t; rk_EstimatedBytes := rk_EstimatedBytes t;
     rk_ReservedBytes := rk_ReservedBytes t; rk_State := "failed"; rk_Attempt := rk_Attempt t;
     rk_NextAttemptAt := rk_NextAttemptAt t; rk_ExecutionID := rk_ExecutionID t; rk_LeaseOwner := rk_LeaseOwner t;
     rk_LeaseUntil := rk_LeaseUntil t; rk_ControllerGeneration := rk_ControllerGeneration t;
     rk_WorkflowID := rk_WorkflowID t; rk_LastWorkflowID := rk_LastWorkflowID t; rk_BackupJobID := rk_BackupJobID t;
     rk_LastErrorCode := Some "attempt_limit_reached"%string; rk_CreatedAt := rk_CreatedAt t; rk_UpdatedAt := now;
     rk_FinishedAt := Some now |}.

(** ** Scheduling *)

(** [ORDER BY snapshot.created_at DESC,snapshot.id DESC LIMIT 1]. *)
Definition newer_manifest (x y : string * SnapshotManifest) : bool :=
  (sm_CreatedAt y.2 <? sm_CreatedAt x.2)
  || ((sm_CreatedAt y.2 =? sm_CreatedAt x.2) && String.ltb y.1 x.1).

Definition nonzero (z : Z) : option Z := if z =? 0 then None else Some z.

(** The size of the home, of the newest snapshot, or a default; at least a minimum. *)
Definition estimate (d : RDB) (user legacy home : Z) : Z :=
  let bytes := r ← wd_replicas (rd_w d) !! (legacy, home); b ← ur_SizeBytes r; nonzero b in
  let snapshot := x ← first_by newer_manifest (rows_where (fun _ s => (sm_UserID s =? user)
                                                 && String.eqb (sm_State s) "immutable") (wd_manifests (rd_w d)));
                  nonzero (sm_TotalBytes x.2) in
  Z.max (match bytes, snapshot with
         | Some s, _ => s
         | None, Some s => s
         | None, None => storageRepairDefaultEstimate
         end) storageRepairMinimumEstimate.

(** The rows of the SELECT: the users to repair, with legacy id and home. *)
Definition repair_wanted (d : RDB) (now cutoff : time) (user : Z) : option (Z * Z * Z) :=
  match joined_user d user with
  | Some (g, legacy, us) =>
      match wd_homes (rd_w d) !! legacy with
      | Some home =>
          if both_active (g, legacy, us) && copyable d user legacy home
             && match db_leases (core d) !! user with Some l => lease_quiet l now cutoff | None => true end
          then Some (user, legacy, home) else None
      | None => None
      end
  | None => None
  end.

Definition new_repair (d : RDB) (now : time) (x : Z * Z * Z) : RepairTask :=
  let '(user, legacy, home) := x in
  {| rk_UserID := user; rk_LegacyUserID := legacy; rk_SourceNodeID := home; rk_TargetNodeID := None;
     rk_LastTargetNodeID := None; rk_PreferredTargetNodeID := None; rk_EstimatedBytes := estimate d user legacy home;
     rk_ReservedBytes := 0; rk_State := "pending"; rk_Attempt := 0; rk_NextAttemptAt := now; rk_ExecutionID := None;
     rk_LeaseOwner := None; rk_LeaseUntil := None; rk_ControllerGeneration := None; rk_WorkflowID := None;
     rk_LastWorkflowID := None; rk_BackupJobID := None; rk_LastErrorCode := None; rk_CreatedAt := now;
     rk_UpdatedAt := now; rk_FinishedAt := None |}.

(** [ON CONFLICT DO NOTHING]: a row that clashes with another is left out. *)
Definition insert_repair (newid : Z -> string) (d : RDB) (now : time) (m : gmap string RepairTask) (x : Z * Z * Z)
  : gmap string RepairTask :=
  let t := new_repair d now x in
  if isSome (m !! newid x.1.1) || negb (Nat.eqb (length (rows_where (fun _ u => repairs_clash t u) m)) 0) then m
  else <[newid x.1.1 := t]> m.

(** A waiting intent is obsolete when the user is protected or has an archive. *)
Definition obsolete (d : RDB) (t : RepairTask) : bool :=
  repair_waiting t && (negb (unprotected d (rk_UserID t)) || archive_kept d (rk_UserID t) (rk_LegacyUserID t)).

Section StorageRepair.
Context `{Postgres}.

Definition nullInt64 (value : Z) : option Z := if value <=? 0 then None else Some value.

Definition SetStorageRepairPreferredTarget (clock : time) (globalUserID targetNodeID : Z) (now : time) (d : SDB)
  : result unit * SDB :=
  if (globalUserID <=? 0) || (targetNodeID <? 0) then (Fail ErrInvalidStorageRepairExecution, d)
  else
    let now := now_or clock now in
    if (0 <? targetNodeID)
       && negb match node_of (rd_w (sd_r d)) targetNodeID with Some n => String.eqb (nd_Role n) "storage" | None => false end
    then (Fail ErrInvalidStorageRepairExecution, d)
    else runTx (
      let! n := update_repairs (fun _ t => (rk_UserID t =? globalUserID) && repair_waiting t)
                  (repair_preferred (nullInt64 targetNodeID) (ts now)) in
      require (negb (Nat.eqb n 0)) ErrNoRows) d.

Definition ScheduleStorageRepairTasks (clock : time) (newid : Z -> string) (now : time) (offlineGrace : duration) (d : SDB)
  : result Z * SDB :=
  if offlineGrace <=? 0 then (Fail ErrInvalidStorageRepairExecution, d)
  else
    let now := now_or clock now in
    runTx (
      let! _ := (fun d => update_repairs (fun _ => obsolete (sd_r d)) (repair_cancelled (ts now)) d) in
      let! n := tx_read (fun d => size (sd_tasks d)) in
      let! _ := (fun d => write_repairs (foldl (insert_repair newid (sd_r d) (ts now)) (sd_tasks d)
                   (omap (fun x : Z * Protection => repair_wanted (sd_r d) (ts now) (ts (now - offlineGrace)) x.1)
                      (map_to_list (rd_protection (sd_r d))))) d) in
      tx_read (fun d => Z.of_nat (size (sd_tasks d)) - Z.of_nat n)) d.

(** ** The claim *)

(** The bytes that repairs have reserved on a node. *)
Definition reservation (node : Z) (t : RepairTask) : Z :=
  if repair_running t && bool_decide (rk_TargetNodeID t = Some node) then rk_ReservedBytes t else 0.

Definition reserved_at (node : Z) (m : gmap string RepairTask) : Z := map_fold (fun _ t sum => reservation node t + sum) 0 m.

(** What is left of the disk and of the quota of a node; [None] without metrics. *)
Definition disk_left (d : SDB) (node : Z) : option (Z * Z) :=
  k ← sd_disks d !! node; avail ← dk_AvailableBytes k; quota ← dk_QuotaBytes k; allocated ← dk_AllocatedBytes k;
  let r := reserved_at node (sd_tasks d) in Some (avail - r, quota - allocated - r).

Definition repair_claimable (d : SDB) (now : time) (maxAttempts : Z) (t : RepairTask) : bool :=
  repair_waiting t && (rk_NextAttemptAt t <=? now) && (rk_Attempt t <? maxAttempts)
  && match joined_user (sd_r d) (rk_UserID t) with
     | Some (g, legacy, us) => (legacy =? rk_LegacyUserID t) && both_active (g, legacy, us)
     | None => false
     end
  && bool_decide (wd_homes (rd_w (sd_r d)) !! rk_LegacyUserID t = Some (rk_SourceNodeID t))
  && copyable (sd_r d) (rk_UserID t) (rk_LegacyUserID t) (rk_SourceNodeID t).

(** [ORDER BY task.next_attempt_at,task.created_at,task.id]. *)
Definition repair_before (x y : string * RepairTask) : bool :=
  (rk_NextAttemptAt x.2 <? rk_NextAttemptAt y.2)
  || ((rk_NextAttemptAt x.2 =? rk_NextAttemptAt y.2)
      && ((rk_CreatedAt x.2 <? rk_CreatedAt y.2)
          || ((rk_CreatedAt x.2 =? rk_CreatedAt y.2) && String.ltb x.1 y.1))).

(** A storage node that can take the archive. *)
Definition repair_target (d : SDB) (relay : bool) (fresh : time) (t : RepairTask) (id : Z) (n : Node) : bool :=
  negb (id =? rk_SourceNodeID t) && node_healthy "storage" n && nt_IsBackupTarget (transfer_of (rd_w (sd_r d)) id)
  && managed n && has_capacity n
  && (relay || negb (String.eqb (nt_TransferURL (transfer_of (rd_w (sd_r d)) id)) ""))
  && match sd_disks d !! id ≫= dk_MetricsObservedAt with Some at_ => fresh <=? at_ | None => false end
  && match disk_left d id with
     | Some (free, quota) => (rk_EstimatedBytes t <=? free) && (rk_EstimatedBytes t <=? quota)
     | None => false
     end
  && negb (cleanup_active (rd_w (sd_r d)) (rk_UserID t) [id]).

(** [ORDER BY] of the targets: the preferred one, open ones, the emptiest, the first. *)
Definition storage_before (d : SDB) (preferred : option Z) (x y : Z * Node) : bool :=
  let rank z := if bool_decide (preferred = Some z) then 0 else 1 in
  let state n := if String.eqb (cc_State (nd_Capacity n)) "open" then 0 else 1 in
  let left z := match disk_left d z with Some (free, quota) => Z.min free quota | None => 0 end in
  (rank x.1 <? rank y.1)
  || ((rank x.1 =? rank y.1)
      && ((state x.2 <? state y.2)
          || ((state x.2 =? state y.2)
              && ((left y.1 <? left x.1) || ((left x.1 =? left y.1) && (x.1 <? y.1)))))).

(** The statement that chooses the target, on the database it has seen. *)
Definition choose_target (seen : SDB) (busy : Z -> bool) (p : CreateStorageRepairExecutionParams) (t : RepairTask)
  : option (Z * Node) :=
  first_by (storage_before seen (rk_PreferredTargetNodeID t))
    (rows_where (fun id n => negb (busy id) && repair_target seen (cx_RelayAvailable p) (ts (cx_Now p - 2 * Minute)) t id n)
       (db_nodes (core (sd_r seen)))).

Definition repair_steps : list string :=
  ["quiesce"; "snapshot"; "prepare_target"; "transfer"; "verify"; "publish"; "cleanup"].

(** The job, the workflow with its steps, the manifest, the capability and the replica. *)
Definition create_repair (p : CreateStorageRepairExecutionParams) (t : RepairTask) (target epoch generation : Z)
  (mode wid : string) : RTx Z :=
  let now := cx_Now p in
  let! job := in_w (insert_job (rk_LegacyUserID t) (rk_SourceNodeID t) target "storage_repair" "pending" now) in
  let! op := uuid_param (cx_OperationID p) in
  let! _ := in_w (insert_workflow wid op "snapshot" (rk_UserID t) (rk_SourceNodeID t) target epoch generation mode now) in
  let! _ := in_w (insert_steps wid (map (fun s => (s, "pending"%string)) repair_steps) now) in
  let! sid := uuid_param (cx_SnapshotID p) in
  let! _ := in_w (insert_manifest sid wid (rk_UserID t) (rk_SourceNodeID t) epoch now) in
  let! cid := uuid_param (cx_CapabilityID p) in
  let! _ := in_w (insert_cap cid wid sid (rk_SourceNodeID t) target (cx_CapabilityHash p) generation
                    (cx_CapabilityExpires p) now) in
  let! n := in_w (update_jobs (fun id j => (id =? job) && (bj_UserID j =? rk_LegacyUserID t)
                                && (bj_SrcNodeID j =? rk_SourceNodeID t) && (bj_DstNodeID j =? target))
                    (set_job_workflow wid sid epoch)) in
  let! _ := require (Nat.eqb n 1) ErrInvalidStorageRepairExecution in
  let! _ := in_w (upsert_replica (rk_LegacyUserID t) target "archive") in
  tx_ret job.

(** The claim when the target is chosen. *)
Definition begin_repair (p : CreateStorageRepairExecutionParams) (tid : string) (t : RepairTask) (target epoch generation : Z)
  (mode : string) : STx StorageRepairExecution :=
  let! wid := uuid_param (cx_WorkflowID p) in
  let! job := in_r (create_repair p t target epoch generation mode wid) in
  let! execution := uuid_param (cx_ExecutionID p) in
  let! owner := uuid_param (cx_LeaseOwner p) in
  let! n := update_repairs (fun id u => String.eqb id tid && repair_waiting u && (rk_Attempt u =? rk_Attempt t))
    (repair_claimed target generation job execution owner wid (ts (cx_Now p)) (ts (cx_Now p + cx_LeaseTTL p))) in
  let! _ := require (Nat.eqb n 1) ErrInvalidStorageRepairExecution in
  let! _ := in_r (insert_audit (typed 11) "storage-repair" (rk_UserID t) execution generation
    [("outcome", DText "scheduled"); ("actor_id", DText (cx_LeaseOwner p)); ("task_id", DText tid);
     ("workflow_id", DText (cx_WorkflowID p)); ("source_node_id", DInt (rk_SourceNodeID t)); ("target_node_id", DInt target);
     ("estimated_bytes", DInt (rk_EstimatedBytes t)); ("attempt", DInt (rk_Attempt t + 1))]%string) in
  tx_ret {| sx_TaskID := tid; sx_WorkflowID := cx_WorkflowID p; sx_SnapshotID := cx_SnapshotID p;
            sx_LegacyBackupJobID := job; sx_LegacyUserID := rk_LegacyUserID t; sx_GlobalUserID := rk_UserID t;
            sx_SourceNodeID := rk_SourceNodeID t; sx_TargetNodeID := target; sx_EstimatedBytes := rk_EstimatedBytes t;
            sx_ActivityEpoch := epoch; sx_ControllerGeneration := generation |}.

Definition claimAndCreateStorageRepairOnce (seen : SDB) (locked : string -> bool) (busy : Z -> bool)
  (p : CreateStorageRepairExecutionParams) : STx (option StorageRepairExecution) :=
  let now := cx_Now p in
  let! first := tx_read (fun d => first_by repair_before
    (rows_where (fun id t => is_uuid id && negb (locked id) && repair_claimable d (ts now) (cx_MaxAttempts p) t) (sd_tasks d))) in
  match first with
  | None => tx_ret None
  | Some (tid, t) =>
      let! generation := sselect (fun d => active_generation (core (sd_r d))) ErrNoActiveController in
      let! lease := tx_read (fun d => db_leases (core (sd_r d)) !! rk_UserID t) in
      if match lease with
         | Some l => negb ((ls_WriterNodeID l =? rk_SourceNodeID t) && lease_quiet l now (now - cx_OfflineGrace p))
         | None => false
         end
      then tx_ret None
      else match choose_target seen busy p t with
           | None => tx_ret None
           | Some (target, _) =>
               let mode := if cx_RelayAvailable p && String.eqb (nt_TransferURL (transfer_of (rd_w (sd_r seen)) target)) ""
                           then "relay"%string else "direct"%string in
               let epoch := match lease with Some l => ls_ActivityEpoch l | None => 1 end in
               let! x := begin_repair p tid t target epoch generation mode in
               tx_ret (Some x)
           end
  end.

Definition repair_params_valid (p : CreateStorageRepairExecutionParams) : bool :=
  validUUIDText (cx_ExecutionID p) && validUUIDText (cx_LeaseOwner p) && validUUIDText (cx_WorkflowID p)
  && validUUIDText (cx_OperationID p) && validUUIDText (cx_SnapshotID p) && validUUIDText (cx_CapabilityID p)
  && (slen (cx_CapabilityHash p) =? 32) && (0 <? cx_LeaseTTL p) && (0 <? cx_OfflineGrace p) && (0 <? cx_MaxAttempts p).

Definition repair_now (now : time) (p : CreateStorageRepairExecutionParams) : CreateStorageRepairExecutionParams :=
  {| cx_ExecutionID := cx_ExecutionID p; cx_LeaseOwner := cx_LeaseOwner p; cx_WorkflowID := cx_WorkflowID p;
     cx_OperationID := cx_OperationID p; cx_SnapshotID := cx_SnapshotID p; cx_CapabilityID := cx_CapabilityID p;
     cx_CapabilityHash := cx_CapabilityHash p; cx_CapabilityExpires := cx_CapabilityExpires p; cx_LeaseTTL := cx_LeaseTTL p;
     cx_OfflineGrace := cx_OfflineGrace p; cx_MaxAttempts := cx_MaxAttempts p; cx_RelayAvailable := cx_RelayAvailable p;
     cx_Now := now |}.

Definition ClaimAndCreateStorageRepair (clock : time) (seen : SDB) (locked : string -> bool) (busy : Z -> bool)
  (p : CreateStorageRepairExecutionParams) (d : SDB) : result (option StorageRepairExecution) * SDB :=
  if negb (repair_params_valid p) then (Fail ErrInvalidStorageRepairExecution, d)
  else
    let p := repair_now (now_or clock (cx_Now p)) p in
    if negb (cx_Now p <? cx_CapabilityExpires p) then (Fail ErrInvalidStorageRepairExecution, d)
    else runTx (claimAndCreateStorageRepairOnce seen locked busy p) d.

(** ** Settling *)

(** The rows of the join: a running task whose workflow is over. *)
Definition over_workflow (d : SDB) (t : RepairTask) : option Workflow :=
  if repair_running t
  then wid ← rk_WorkflowID t; w ← wd_workflows (rd_w (sd_r d)) !! wid; if is_open w then None else Some w
  else None.

Definition repair_over (d : SDB) (t : RepairTask) : bool := isSome (over_workflow d t).

Definition DOptInt (o : option Z) : detail_value := match o with Some z => DInt z | None => DText "null" end.
Definition DOptText (o : option string) : detail_value := DText (default "null"%string o).

(** [INSERT INTO audit_events ... SELECT]: a row per task. *)
Fixpoint audit_repairs (outcome : RepairTask -> string) (detail : string * RepairTask -> list (string * detail_value))
  (rows : list (string * RepairTask)) : RTx unit :=
  match rows with
  | [] => tx_ret tt
  | x :: rest =>
      let! _ := insert_audit (typed 2) "storage-repair" (rk_UserID x.2) (default ""%string (rk_ExecutionID x.2))
                  (default 0 (rk_ControllerGeneration x.2)) (("outcome"%string, DText (outcome x.2)) :: detail x) in
      audit_repairs outcome detail rest
  end.

Definition settled_detail (d : SDB) (x : string * RepairTask) : list (string * detail_value) :=
  [("actor_id", DOptText (rk_LeaseOwner x.2)); ("task_id", DText x.1); ("workflow_id", DOptText (rk_WorkflowID x.2));
   ("source_node_id", DInt (rk_SourceNodeID x.2)); ("target_node_id", DOptInt (rk_TargetNodeID x.2));
   ("estimated_bytes", DInt (rk_EstimatedBytes x.2)); ("attempt", DInt (rk_Attempt x.2));
   ("workflow_state", DOptText (wf_State <$> over_workflow d x.2));
   ("error_code", DOptText (over_workflow d x.2 ≫= wf_ErrorCode))]%string.

Definition exhausted_detail (x : string * RepairTask) : list (string * detail_value) :=
  [("task_id", DText x.1); ("last_workflow_id", DOptText (rk_LastWorkflowID x.2));
   ("last_target_node_id", DOptInt (rk_LastTargetNodeID x.2)); ("estimated_bytes", DInt (rk_EstimatedBytes x.2));
   ("attempt", DInt (rk_Attempt x.2)); ("error_code", DText "attempt_limit_reached")]%string.

Definition settle_task (d : SDB) (maxAttempts : Z) (now : time) (t : RepairTask) : RepairTask :=
  match over_workflow d t with Some w => repair_settled ts w maxAttempts now t | None => t end.

Definition out_of_attempts (maxAttempts : Z) (t : RepairTask) : bool := repair_waiting t && (maxAttempts <=? rk_Attempt t).

Definition ReconcileStorageRepairTasks (clock : time) (now : time) (maxAttempts : Z) (d : SDB) : result Z * SDB :=
  if maxAttempts <=? 0 then (Fail ErrInvalidStorageRepairExecution, d)
  else
    let now := now_or clock now in
    runTx (
      let! _ := (fun d => in_r (audit_repairs
          (fun t => match over_workflow d t with Some w => repair_outcome w maxAttempts t | None => ""%string end)
          (settled_detail d) (rows_where (fun _ => repair_over d) (sd_tasks d))) d) in
      let! rows := (fun d => update_repairs (fun _ => repair_over d) (settle_task d maxAttempts now) d) in
      let! _ := (fun d => in_r (audit_repairs (fun _ => "failed"%string) exhausted_detail
          (rows_where (fun _ => out_of_attempts maxAttempts) (sd_tasks d))) d) in
      let! exhausted := update_repairs (fun _ => out_of_attempts maxAttempts) (repair_exhausted (ts now)) in
      tx_ret (Z.of_nat rows + Z.of_nat exhausted)) d.

(** ** The round of the Controller *)

Definition storageRepairTaskLeaseTTL : duration := 8 * Hour.

Definition storageRepairMaxAttempts (retryMax : Z) : Z :=
  let maxAttempts := if 0 <? retryMax then retryMax else 3 in
  if 8 <? maxAttempts then 8 else maxAttempts.

(** The ids that are drawn for an execution. *)
Record repair_ids := { id_execution : string; id_owner : string; id_workflow : string; id_operation : string;
                       id_snapshot : string; id_capability : string }.

(** An execution needs a key and the identity of the worker. *)
Definition newStorageRepairExecutionParams (secretKey workerID : string) (retryMax graceMin : Z) (relay : bool)
  (ids : repair_ids) (now : time) : option CreateStorageRepairExecutionParams :=
  if String.eqb secretKey "" || negb (validUUID workerID) then None
  else Some
    {| cx_ExecutionID := id_execution ids; cx_LeaseOwner := id_owner ids; cx_WorkflowID := id_workflow ids;
       cx_OperationID := id_operation ids; cx_SnapshotID := id_snapshot ids; cx_CapabilityID := id_capability ids;
       cx_CapabilityHash := sha256 (deriveTransferCapability secretKey (id_capability ids));
       cx_CapabilityExpires := now + snapshotCapabilityTTL; cx_LeaseTTL := storageRepairTaskLeaseTTL;
       cx_OfflineGrace := graceMin * Minute; cx_MaxAttempts := storageRepairMaxAttempts retryMax;
       cx_RelayAvailable := relay; cx_Now := now |}.

(** The claims of a round, one per free slot, until one finds nothing or fails. *)
Fixpoint claim_repairs (locked : string -> bool) (busy : Z -> bool)
  (params : list (option CreateStorageRepairExecutionParams)) (d : SDB) : bool * list StorageRepairExecution * SDB :=
  match params with
  | [] => (true, [], d)
  | None :: _ => (false, [], d)
  | Some p :: rest =>
      match ClaimAndCreateStorageRepair (cx_Now p) d locked busy p d with
      | (Ok (Some x), d) => let '(ok, l, d) := claim_repairs locked busy rest d in (ok, x :: l, d)
      | (Ok None, d) => (true, [], d)
      | (Fail _, d) => (false, [], d)
      end
  end.

(** [gate] says whether new operations are allowed. *)
Definition scheduleStorageRepairs (retryMax graceMin : Z) (gate : bool) (newid : Z -> string) (locked : string -> bool)
  (busy : Z -> bool) (params : list (option CreateStorageRepairExecutionParams)) (now : time) (d : SDB)
  : bool * list StorageRepairExecution * SDB :=
  match ReconcileStorageRepairTasks now now (storageRepairMaxAttempts retryMax) d with
  | (Fail _, d) => (false, [], d)
  | (Ok _, d) =>
      if gate
      then match ScheduleStorageRepairTasks now newid now (graceMin * Minute) d with
           | (Fail _, d) => (false, [], d)
           | (Ok _, d) => claim_repairs locked busy params d
           end
      else (false, [], d)
  end.

End StorageRepair.
