(* ===== verification/RepairSystem.v ===== *)
(** * Runs of the storage repair

    The operations of StorageRepair.v by any number of Controllers, between the
    snapshots, the operations of the recovery and the heartbeats that report the disks.
    The file has the abstract life of a repair, the theorem that the table refines it,
    what a claim reserves, and what claims that overlap reserve. *)

From Stdlib Require Import ZArith Lia Ascii String.
From stdpp Require Import base list gmap strings relations.
From S2P Require Import Prelude GoStrings Schema Leases WorkflowSchema SnapshotStore SnapshotLife RecoverySchema DataFaults Protection.
From S2P Require Import RestoreStore RecoverySystem ReplicaCleanup StorageRepair.
#[local] Open Scope Z_scope.

(** ** The life of a repair *)

(** How often it was tried, and while it runs the workflow, its target and the bytes
    that are reserved there. *)
Inductive repair_life :=
| LWaiting (n : Z)
| LRunning (n : Z) (wid : option string) (node : option Z) (bytes : Z)
| LOver (ok : bool) (n : Z).

(** At most [limit] workflows are begun. *)
Inductive life_step (limit : Z) : option repair_life -> option repair_life -> Prop :=
| life_new : life_step limit None (Some (LWaiting 0))
| life_claim n wid node bytes : n < limit ->
    life_step limit (Some (LWaiting n)) (Some (LRunning (n + 1) (Some wid) (Some node) bytes))
| life_retry n wid node bytes :
    life_step limit (Some (LRunning n wid node bytes)) (Some (LWaiting n))
| life_done ok n wid node bytes : life_step limit (Some (LRunning n wid node bytes)) (Some (LOver ok n))
| life_dropped n : life_step limit (Some (LWaiting n)) (Some (LOver false n)).

Definition life_of (t : RepairTask) : repair_life :=
  if repair_waiting t then LWaiting (rk_Attempt t)
  else if repair_running t
       then LRunning (rk_Attempt t) (rk_WorkflowID t) (rk_TargetNodeID t) (rk_ReservedBytes t)
       else LOver (String.eqb (rk_State t) "succeeded") (rk_Attempt t).

Definition life_at (d : SDB) (id : string) : option repair_life := life_of <$> sd_tasks d !! id.

(** What a repair is about. *)
Definition repair_scope (t : RepairTask) : Z * Z * Z * Z :=
  (rk_UserID t, rk_LegacyUserID t, rk_SourceNodeID t, rk_EstimatedBytes t).

Definition tried (l : repair_life) : Z := match l with LWaiting n | LRunning n _ _ _ | LOver _ n => n end.

Lemma life_bounded limit x y : rtc (life_step limit) x y ->
  (forall l, x = Some l -> tried l <= Z.max 0 limit) -> forall l, y = Some l -> tried l <= Z.max 0 limit.
Proof.
  intros Hr. induction Hr as [|x y z Hs _ IH]; [done|]. intros Hx. apply IH. intros l ->.
  inversion Hs; subst; cbn; try lia; (specialize (Hx _ eq_refl); cbn in Hx; lia).
Qed.

(** ** Events *)

Inductive repair_event :=
| ERecovery (ev : recovery_event)
| EDisks (f : gmap Z NodeDisk -> gmap Z NodeDisk)
| EPrefer (clock : time) (user target : Z) (now : time)
| ESchedule (clock : time) (newid : Z -> string) (now : time) (grace : duration)
| EClaim (clock : time) (seen : SDB) (locked : string -> bool) (busy : Z -> bool) (p : CreateStorageRepairExecutionParams)
| EReconcile (clock : time) (now : time) (maxAttempts : Z).

(** Claims try no task more often than [limit]. *)
Definition capped (limit : Z) (ev : repair_event) : Prop :=
  match ev with EClaim _ _ _ _ p => cx_MaxAttempts p <= limit | _ => True end.

Section System.
Context `{Postgres}.

Definition repair_effect (ev : repair_event) (d : SDB) : SDB :=
  match ev with
  | ERecovery ev => set_sd_r (recovery_effect ev (sd_r d)) d
  | EDisks f => set_sd_disks (f (sd_disks d)) d
  | EPrefer clock user target now => (SetStorageRepairPreferredTarget clock user target now d).2
  | ESchedule clock newid now grace => (ScheduleStorageRepairTasks clock newid now grace d).2
  | EClaim clock seen locked busy p => (ClaimAndCreateStorageRepair clock seen locked busy p d).2
  | EReconcile clock now max => (ReconcileStorageRepairTasks clock now max d).2
  end.

Definition repair_run (d : SDB) (evs : list repair_event) : SDB := foldl (fun d ev => repair_effect ev d) d evs.

(** ** Every statement takes steps of the life *)

Record repairs_go (limit : Z) (d d' : SDB) : Prop := {
  rg_ok : repairs_ok (sd_tasks d) = true -> repairs_ok (sd_tasks d') = true;
  rg_life : forall id, rtc (life_step limit) (life_at d id) (life_at d' id);
  rg_scope : forall id t, sd_tasks d !! id = Some t ->
    exists t', sd_tasks d' !! id = Some t' /\ repair_scope t' = repair_scope t
}.

#[local] Instance repairs_go_preorder limit : PreOrder (repairs_go limit).
Proof.
  split.
  - intros d. split; [done | reflexivity | eauto].
  - intros d1 d2 d3 [O1 L1 S1] [O2 L2 S2]. split; [eauto | intros id; etrans; eauto |].
    intros id t Hl. destruct (S1 _ _ Hl) as (t2 & Hl2 & E2). destruct (S2 _ _ Hl2) as (t3 & Hl3 & E3).
    exists t3. split; congruence.
Qed.

Lemma same_tasks limit d d' : sd_tasks d' = sd_tasks d -> repairs_go limit d d'.
Proof. intros E. split; unfold life_at; rewrite E; [done | reflexivity | eauto]. Qed.

Lemma in_r_ok {A} (m : RTx A) d a d' :
  in_r m d = Ok (a, d') -> exists r, m (sd_r d) = Ok (a, r) /\ d' = set_sd_r r d.
Proof. unfold in_r. destruct (m (sd_r d)) as [[b r]|e]; [|done]. intros [= <- <-]. by exists r. Qed.

Lemma in_r_go limit {A} (m : RTx A) : tx_rel (repairs_go limit) (in_r m).
Proof. intros d a d' (r & _ & ->)%in_r_ok. by apply same_tasks. Qed.

Lemma sselect_ok {A} (q : SDB -> option A) e d a d' : sselect q e d = Ok (a, d') -> q d = Some a /\ d' = d.
Proof. unfold sselect. destruct (q d); [|done]. by intros [= <- <-]. Qed.

Lemma write_repairs_ok m d u d' : write_repairs m d = Ok (u, d') -> repairs_ok m = true /\ d' = set_sd_tasks m d.
Proof. unfold write_repairs. destruct (repairs_ok m); [|done]. by intros [= _ <-]. Qed.

Lemma update_repairs_ok p f d n d' : update_repairs p f d = Ok (n, d') ->
  n = length (rows_where p (sd_tasks d)) /\ repairs_ok (update_where p f (sd_tasks d)) = true
  /\ d' = set_sd_tasks (update_where p f (sd_tasks d)) d.
Proof.
  unfold update_repairs. destruct (write_repairs _ d) as [[u d1]|] eqn:E; [|done]. intros [= <- <-].
  by apply write_repairs_ok in E as [Ho ->].
Qed.

(** An UPDATE whose rows each take a step. *)
Lemma update_repairs_go limit p f :
  (forall id t, p id t = true -> rtc (life_step limit) (Some (life_of t)) (Some (life_of (f t))) /\ repair_scope (f t) = repair_scope t) ->
  tx_rel (repairs_go limit) (update_repairs p f).
Proof.
  intros Hf d n d' (_ & Ho & ->)%update_repairs_ok. split; [done | |].
  - intros id. unfold life_at. cbn. rewrite update_where_lookup. destruct (sd_tasks d !! id) as [t|]; [|reflexivity].
    cbn. destruct (p id t) eqn:Hp; [exact (proj1 (Hf _ _ Hp)) | reflexivity].
  - intros id t Hl. cbn. rewrite update_where_lookup, Hl. cbn. eexists. split; [reflexivity|].
    destruct (p id t) eqn:Hp; [by apply (Hf id t) | done].
Qed.

Lemma waiting_life t : repair_waiting t = true -> life_of t = LWaiting (rk_Attempt t).
Proof. unfold life_of. by intros ->. Qed.

Lemma running_life t : repair_running t = true ->
  life_of t = LRunning (rk_Attempt t) (rk_WorkflowID t) (rk_TargetNodeID t) (rk_ReservedBytes t).
Proof.
  unfold life_of, repair_running, repair_waiting, repair_in. intros Hr. b2p. apply list_elem_of_In in Hr as [Hr|[]].
  by rewrite <- Hr.
Qed.

Lemma repair_waiting_idle t : repair_waiting t = true -> repair_running t = false.
Proof.
  unfold repair_waiting, repair_running, repair_in. intros Hw. b2p. apply list_elem_of_In in Hw as [<-|[<-|[]]]; reflexivity.
Qed.

Lemma cancelled_step limit now t : repair_waiting t = true ->
  rtc (life_step limit) (Some (life_of t)) (Some (life_of (repair_cancelled now t))).
Proof. intros Hw. rewrite (waiting_life _ Hw). apply rtc_once. change (life_of (repair_cancelled now t)) with (LOver false (rk_Attempt t)). apply life_dropped. Qed.

Lemma exhausted_step limit now t : repair_waiting t = true ->
  rtc (life_step limit) (Some (life_of t)) (Some (life_of (repair_exhausted now t))).
Proof. intros Hw. rewrite (waiting_life _ Hw). apply rtc_once. change (life_of (repair_exhausted now t)) with (LOver false (rk_Attempt t)). apply life_dropped. Qed.

Lemma settled_step limit f w max now t : repair_running t = true ->
  rtc (life_step limit) (Some (life_of t)) (Some (life_of (repair_settled f w max now t))).
Proof.
  intros Hr. rewrite (running_life _ Hr). apply rtc_once. unfold life_of, repair_settled, repair_outcome.
  destruct (String.eqb (wf_State w) "succeeded"); [apply life_done|]. destruct (max <=? rk_Attempt t); [apply life_done|].
  apply life_retry.
Qed.

(** ** The operations *)

Lemma prefer_go limit clock user target now d : repairs_go limit d (SetStorageRepairPreferredTarget clock user target now d).2.
Proof.
  unfold SetStorageRepairPreferredTarget. destruct (_ || _); [reflexivity|]. cbv zeta. destruct (_ && _); [reflexivity|].
  apply (tx_rel_run (repairs_go limit)). apply tx_rel_bind; [exact _ | | intros n; apply tx_rel_require; exact _].
  apply update_repairs_go. intros id t _. split; [|done]. reflexivity.
Qed.

(** New rows, one after the other: the old ones stay, the new ones begin to wait. *)
Lemma insert_repair_lookup newid r now m x id :
  insert_repair newid r now m x !! id = m !! id
  \/ (m !! id = None /\ insert_repair newid r now m x !! id = Some (new_repair r now x)).
Proof.
  unfold insert_repair. cbv zeta. destruct (m !! newid x.1.1) as [t0|] eqn:Hn; cbn; [by left|].
  destruct (negb _); [by left|]. destruct (decide (newid x.1.1 = id)) as [<-|Hne].
  - right. by rewrite lookup_insert_eq.
  - left. by rewrite lookup_insert_ne.
Qed.

Lemma insert_repairs_lookup newid r now l : forall m id,
  foldl (insert_repair newid r now) m l !! id = m !! id
  \/ (m !! id = None /\ exists x, foldl (insert_repair newid r now) m l !! id = Some (new_repair r now x)).
Proof.
  induction l as [|x l IH]; intros m id; cbn; [by left|].
  destruct (IH (insert_repair newid r now m x) id) as [->|[Hn (y & ->)]];
    destruct (insert_repair_lookup newid r now m x id) as [E|[Hm E]].
  - by left.
  - right. rewrite E. eauto.
  - right. rewrite <- E. eauto.
  - congruence.
Qed.

Lemma inserts_go limit newid (r : SDB -> RDB) now (l : SDB -> list (Z * Z * Z)) :
  tx_rel (repairs_go limit) (fun d => write_repairs (foldl (insert_repair newid (r d) now) (sd_tasks d) (l d)) d).
Proof.
  intros d u d' [Ho ->]%write_repairs_ok. split; [done | |].
  - intros id. unfold life_at. cbn. destruct (insert_repairs_lookup newid (r d) now (l d) (sd_tasks d) id) as [->|[-> (x & ->)]];
      [reflexivity|]. apply rtc_once. destruct x as [[user legacy] home]. apply life_new.
  - intros id t Hl. cbn. destruct (insert_repairs_lookup newid (r d) now (l d) (sd_tasks d) id) as [->|[Hn _]]; [eauto | congruence].
Qed.

Lemma schedule_go limit clock newid now grace d : repairs_go limit d (ScheduleStorageRepairTasks clock newid now grace d).2.
Proof.
  unfold ScheduleStorageRepairTasks. destruct (grace <=? 0); [reflexivity|]. cbv zeta. apply (tx_rel_run (repairs_go limit)).
  apply tx_rel_bind; [exact _ | | intros ?; apply tx_rel_bind; [exact _ | apply tx_rel_read; exact _ | intros ?];
    apply tx_rel_bind; [exact _ | apply inserts_go | intros ?; apply tx_rel_read; exact _]].
  intros d0 n d' E. revert E. apply update_repairs_go. intros id t Ho. unfold obsolete in Ho. b2p.
  split; [by apply cancelled_step | done].
Qed.

Lemma reconcile_go limit clock now max d : repairs_go limit d (ReconcileStorageRepairTasks clock now max d).2.
Proof.
  unfold ReconcileStorageRepairTasks. destruct (max <=? 0); [reflexivity|]. cbv zeta. apply (tx_rel_run (repairs_go limit)).
  apply tx_rel_bind; [exact _ | intros d0 u0 d'; apply (in_r_go limit) | intros ?].
  apply tx_rel_bind; [exact _ | | intros rows].
  { intros d0 n d' E. revert E. apply update_repairs_go. intros id t Ho. unfold repair_over, settle_task in *.
    destruct (over_workflow d0 t) as [w|] eqn:Hw; [|done]. split; [|done]. apply settled_step.
    unfold over_workflow in Hw. by destruct (repair_running t). }
  apply tx_rel_bind; [exact _ | intros d0 u0 d'; apply (in_r_go limit) | intros ?].
  apply tx_rel_bind; [exact _ | | intros ?; apply tx_rel_ret; exact _].
  apply update_repairs_go. intros id t Ho. unfold out_of_attempts in Ho. b2p. split; [by apply exhausted_step | done].
Qed.

Lemma begin_go limit p tid t target epoch generation mode : rk_Attempt t < limit ->
  tx_rel (repairs_go limit) (begin_repair p tid t target epoch generation mode).
Proof.
  intros Hn. unfold begin_repair. apply tx_rel_bind; [exact _ | apply tx_rel_uuid; exact _ | intros wid].
  apply tx_rel_bind; [exact _ | apply in_r_go | intros job].
  do 2 (apply tx_rel_bind; [exact _ | apply tx_rel_uuid; exact _ | intros ?]).
  apply tx_rel_bind; [exact _ | | intros n; apply tx_rel_bind; [exact _ | apply tx_rel_require; exact _ | intros ?];
    apply tx_rel_bind; [exact _ | apply in_r_go | intros ?; apply tx_rel_ret; exact _]].
  apply update_repairs_go. intros id u Hu. b2p. split; [|done].
  rewrite (waiting_life u) by done. apply rtc_once. apply life_claim. lia.
Qed.

(** A claim changes nothing, or begins a repair. *)
Lemma claim_repair_cases seen locked busy p d r d' :
  claimAndCreateStorageRepairOnce seen locked busy p d = Ok (r, d') ->
  (r = None /\ d' = d)
  \/ exists x tid t generation lease target node mode epoch,
       r = Some x /\ sd_tasks d !! tid = Some t /\ repair_claimable d (ts (cx_Now p)) (cx_MaxAttempts p) t = true
       /\ active_generation (core (sd_r d)) = Some generation
       /\ lease = db_leases (core (sd_r d)) !! rk_UserID t
       /\ match lease with
          | Some l => (ls_WriterNodeID l =? rk_SourceNodeID t) && lease_quiet l (cx_Now p) (cx_Now p - cx_OfflineGrace p) = true
                      /\ epoch = ls_ActivityEpoch l
          | None => epoch = 1
          end
       /\ choose_target seen busy p t = Some (target, node)
       /\ begin_repair p tid t target epoch generation mode d = Ok (x, d').
Proof.
  unfold claimAndCreateStorageRepairOnce. cbv zeta. intros E. apply tx_bind_ok in E as (first & d1 & [Hf ->]%tx_read_ok & E).
  destruct first as [[tid t]|]; [|apply tx_ret_ok in E as [-> ->]; by left].
  symmetry in Hf. apply first_by_in in Hf. apply rows_where_elem in Hf as [Hl Hc]. b2p.
  apply tx_bind_ok in E as (g & d1 & [Hg ->]%sselect_ok & E). apply tx_bind_ok in E as (lease & d1 & [Hlease ->]%tx_read_ok & E).
  match type of E with (if ?b then _ else _) _ = _ => destruct b eqn:Hb end; [apply tx_ret_ok in E as [-> ->]; by left|].
  destruct (choose_target seen busy p t) as [[target node]|] eqn:Ht; [|apply tx_ret_ok in E as [-> ->]; by left].
  apply tx_bind_ok in E as (x & d1 & E & E2). apply tx_ret_ok in E2 as [-> ->]. right.
  exists x, tid, t, g, lease, target, node. do 2 eexists. do 5 (split; [done|]). split; [|split; [done | exact E]].
  destruct lease as [l|]; [|done]. split; [by apply negb_false_iff in Hb | done].
Qed.

Lemma claim_go limit clock seen locked busy p d : cx_MaxAttempts p <= limit ->
  repairs_go limit d (ClaimAndCreateStorageRepair clock seen locked busy p d).2.
Proof.
  intros Hm. unfold ClaimAndCreateStorageRepair. destruct (negb _); [reflexivity|]. cbv zeta. destruct (negb _); [reflexivity|].
  apply (tx_rel_run (repairs_go limit)). intros d0 r d' E.
  apply claim_repair_cases in E as [[_ ->]|(x & tid & t & g & lease & target & node & mode & epoch & _ & _ & Hc & _ & _ & _ & _ & E)]; [reflexivity|].
  eapply begin_go, E. unfold repair_claimable in Hc. b2p. cbn in *. lia.
Qed.

Lemma event_go limit ev d : capped limit ev -> repairs_go limit d (repair_effect ev d).
Proof.
  destruct ev; cbn; intros Hc; [by apply same_tasks | by apply same_tasks | apply prefer_go | apply schedule_go | by apply claim_go | apply reconcile_go].
Qed.

Lemma run_go limit evs d : Forall (capped limit) evs -> repairs_go limit d (repair_run d evs).
Proof.
  revert d. induction evs as [|ev evs IH]; intros d Hc; [reflexivity|]. apply Forall_cons in Hc as [Hev Hc].
  cbn. etrans; [by apply event_go | by apply IH].
Qed.

(** C13: The table of repairs refines the life of a repair.  In every run of scheduling,
    claims, reconciliations and overrides by administrators between snapshots,
    recoveries, heartbeats and failures, a repair begins by waiting, is tried by one
    workflow at a time, waits again or is over when that ends, and once over stays
    over; it never changes the user, the source or the size it was made for, and is
    tried no more often than the limit of the claims.  The constraints of the table
    hold throughout: one active repair per user, and bytes reserved exactly while a
    workflow with a target runs. *)
Theorem repair_task_refines limit s evs :
  Forall (capped limit) evs -> repairs_ok (sd_tasks s) = true ->
  let s' := repair_run s evs in
  repairs_ok (sd_tasks s') = true
  /\ (forall id, rtc (life_step limit) (life_at s id) (life_at s' id))
  /\ (forall id t, sd_tasks s !! id = Some t ->
        exists t', sd_tasks s' !! id = Some t' /\ repair_scope t' = repair_scope t)
  /\ (forall id t', sd_tasks s !! id = None -> sd_tasks s' !! id = Some t' -> rk_Attempt t' <= Z.max 0 limit).
Proof.
  intros Hc Ho s'. destruct (run_go limit evs s Hc) as [G1 G2 G3]. split; [by apply G1|]. split; [exact G2|]. split; [exact G3|].
  intros id t' Hn Hl. pose proof (life_bounded _ _ _ (G2 id)) as Hb. unfold life_at in Hb. rewrite Hn in Hb.
  change (repair_run s evs) with s' in Hb. rewrite Hl in Hb.
  specialize (Hb ltac:(done) _ eq_refl). unfold life_of in Hb. destruct (repair_waiting t'), (repair_running t'); done.
Qed.

(** ** What a reconciliation settles *)

Lemma audit_repairs_same outcome detail rows : forall r u r',
  audit_repairs outcome detail rows r = Ok (u, r') -> wd_workflows (rd_w r') = wd_workflows (rd_w r).
Proof.
  induction rows as [|x rows IH]; intros r u r' E; cbn in E; [by apply tx_ret_ok in E as [_ ->]|].
  apply IH in E. by rewrite E.
Qed.

(** After a reconciliation no reservation outlives its workflow, and what still waits
    may be tried again. *)
Theorem reservations_end_with_workflow clock now max d n d' id t :
  ReconcileStorageRepairTasks clock now max d = (Ok n, d') -> sd_tasks d' !! id = Some t ->
  (repair_running t = true -> forall wid w, rk_WorkflowID t = Some wid -> wd_workflows (rd_w (sd_r d')) !! wid = Some w -> is_open w = true)
  /\ (repair_waiting t = true -> rk_Attempt t < max).
Proof.
  unfold ReconcileStorageRepairTasks. destruct (max <=? 0); [done|]. cbv zeta. unfold runTx.
  match goal with |- context [match ?m d with _ => _ end] => destruct (m d) as [[a d1]|e] eqn:E; [|done] end. intros [= <- <-] Hl.
  apply tx_bind_ok in E as (u1 & d2 & (r2 & E2%audit_repairs_same & ->)%in_r_ok & E).
  apply tx_bind_ok in E as (rows & d3 & (_ & _ & ->)%update_repairs_ok & E).
  apply tx_bind_ok in E as (u2 & d4 & (r4 & E4%audit_repairs_same & ->)%in_r_ok & E).
  apply tx_bind_ok in E as (ex & d5 & (_ & _ & ->)%update_repairs_ok & E). apply tx_ret_ok in E as [-> ->]. cbn in *.
  rewrite !update_where_lookup in Hl. destruct (sd_tasks d !! id) as [t0|]; [|done]. cbn in Hl. injection Hl as <-.
  match goal with |- context [out_of_attempts max ?u] => set (t1 := u); destruct (out_of_attempts max t1) eqn:Ho end; [done|]. split.
  - subst t1. unfold settle_task, repair_over in *. destruct (over_workflow _ t0) as [w0|] eqn:Hw; cbn [isSome] in *.
    + intros _ wid w [=].
    + intros Hr wid w Hwid Hfw. unfold over_workflow in Hw. rewrite Hr, Hwid in Hw. cbn in Hw. rewrite E4 in Hfw. rewrite Hfw in Hw. cbn in Hw.
      by destruct (is_open w).
  - intros Hw. unfold out_of_attempts in Ho. rewrite Hw in Ho. by apply Z.leb_gt in Ho.
Qed.

(** ** What a claim reserves *)

Lemma reserved_insert node m tid t t' : m !! tid = Some t ->
  reserved_at node (<[tid := t']> m) = reserved_at node m - reservation node t + reservation node t'.
Proof.
  intros Hl. unfold reserved_at. rewrite <- (insert_delete_id m tid t Hl) at 2. rewrite <- insert_delete_eq.
  rewrite !map_fold_insert_L; [lia | | by rewrite lookup_delete_eq | | by rewrite lookup_delete_eq]; intros; lia.
Qed.

Lemma update_where_at {V} (m : gmap string V) tid (p : string -> V -> bool) f t :
  m !! tid = Some t -> p tid t = true -> (forall id u, id <> tid -> p id u = false) -> update_where p f m = <[tid := f t]> m.
Proof.
  intros Hl Hp Hn. apply map_eq. intros id. rewrite update_where_lookup. destruct (decide (id = tid)) as [->|Hne].
  - rewrite Hl, lookup_insert_eq. cbn. by rewrite Hp.
  - rewrite lookup_insert_ne by done. destruct (m !! id) as [u|]; [|done]. cbn. by rewrite Hn.
Qed.

(** The row a workflow of a repair begins with. *)
Definition repair_flow (w : Workflow) (t : RepairTask) (target : Z) : Prop :=
  wf_Type w = "snapshot"%string /\ wf_State w = "scheduled"%string /\ wf_UserID w = Some (rk_UserID t)
  /\ wf_SourceNodeID w = Some (rk_SourceNodeID t) /\ wf_TargetNodeID w = Some target.

Lemma create_repair_flow p t target epoch generation mode wid r job r' :
  create_repair p t target epoch generation mode wid r = Ok (job, r') ->
  exists w, wd_workflows (rd_w r') !! wid = Some w /\ repair_flow w t target.
Proof.
  unfold create_repair. cbv zeta. intros E. rtx_split.
  repeat match goal with
  | Hs : insert_job _ _ _ _ _ _ _ = Ok _ |- _ => apply insert_job_flow in Hs as [Hs _]
  | Hs : insert_steps _ _ _ _ = Ok _ |- _ => apply insert_steps_flow in Hs as [Hs _]
  | Hs : insert_manifest _ _ _ _ _ _ _ = Ok _ |- _ => apply insert_manifest_flow in Hs as [Hs _]
  | Hs : update_jobs _ _ _ = Ok _ |- _ => apply update_jobs_flow in Hs as [Hs _]
  | Hs : upsert_replica _ _ _ _ = Ok _ |- _ => apply upsert_replica_flow in Hs as [Hs _]
  end. cbn in *.
  match goal with Hi : insert_workflow _ _ _ _ _ _ _ _ _ _ _ = Ok (_, ?w6), Hc : insert_cap _ _ _ _ _ _ _ _ _ ?w14 = Ok (_, ?w12) |- _ =>
    assert (exists w, wd_workflows w6 !! wid = Some w /\ repair_flow w t target) as (w & Hw & Hf); [|assert (wd_workflows w12 = wd_workflows w14) as E12] end.
  - match goal with Hi : insert_workflow _ _ _ _ _ _ _ _ _ _ _ = _ |- _ => unfold insert_workflow, write_workflows in Hi;
      destruct (wd_workflows _ !! wid); [done|]; destruct (_ && _); [|done]; destruct (workflows_ok _); [|done]; injection Hi as _ <- end.
    cbn. rewrite lookup_insert_eq. eexists. split; [reflexivity|]. done.
  - match goal with Hc : insert_cap _ _ _ _ _ _ _ _ _ _ = _ |- _ => unfold insert_cap, write_caps in Hc;
      destruct (wd_caps _ !! _); [done|]; destruct (caps_ok _); [|done]; injection Hc as _ <- end. done.
  - exists w. split; [congruence | done].
Qed.

(** What a claim has placed. *)
Record repair_placed (d d' : SDB) (now : time) (grace : duration) (x : StorageRepairExecution) : Prop := {
  (** all reservations of the target fit its disk and its quota *)
  pl_fits : exists k avail quota allocated, sd_disks d' !! sx_TargetNodeID x = Some k
    /\ dk_AvailableBytes k = Some avail /\ dk_QuotaBytes k = Some quota /\ dk_AllocatedBytes k = Some allocated
    /\ reserved_at (sx_TargetNodeID x) (sd_tasks d') <= avail
    /\ allocated + reserved_at (sx_TargetNodeID x) (sd_tasks d') <= quota;
  pl_target : exists n, db_nodes (core (sd_r d)) !! sx_TargetNodeID x = Some n /\ node_healthy "storage" n = true
    /\ managed n = true /\ cleanup_active (rd_w (sd_r d)) (sx_GlobalUserID x) [sx_TargetNodeID x] = false;
  (** the source is the home, which nobody writes and nothing else uses *)
  pl_source : wd_homes (rd_w (sd_r d)) !! sx_LegacyUserID x = Some (sx_SourceNodeID x)
    /\ sx_TargetNodeID x <> sx_SourceNodeID x
    /\ copyable (sd_r d) (sx_GlobalUserID x) (sx_LegacyUserID x) (sx_SourceNodeID x) = true;
  pl_quiet : forall l, db_leases (core (sd_r d)) !! sx_GlobalUserID x = Some l ->
    ls_WriterNodeID l = sx_SourceNodeID x /\ ls_ActivityEpoch l = sx_ActivityEpoch x
    /\ lease_quiet l now (now - grace) = true;
  (** the task holds the reservation for the new workflow *)
  pl_task : exists t wid w, sd_tasks d' !! sx_TaskID x = Some t /\ uuid_in (sx_WorkflowID x) = Some wid
    /\ life_of t = LRunning (rk_Attempt t) (Some wid) (Some (sx_TargetNodeID x)) (sx_EstimatedBytes x)
    /\ wd_workflows (rd_w (sd_r d')) !! wid = Some w /\ repair_flow w t (sx_TargetNodeID x)
}.

Lemma chosen_target d busy p t target n : choose_target d busy p t = Some (target, n) ->
  db_nodes (core (sd_r d)) !! target = Some n
  /\ repair_target d (cx_RelayAvailable p) (ts (cx_Now p - 2 * Minute)) t target n = true.
Proof. intros [Hl Hp]%first_by_in%rows_where_elem. b2p. done. Qed.

Lemma begin_repair_ok p tid t target epoch generation mode d x d' :
  begin_repair p tid t target epoch generation mode d = Ok (x, d') -> sd_tasks d !! tid = Some t -> repair_waiting t = true ->
  sd_disks d' = sd_disks d
  /\ x = {| sx_TaskID := tid; sx_WorkflowID := cx_WorkflowID p; sx_SnapshotID := cx_SnapshotID p;
            sx_LegacyBackupJobID := sx_LegacyBackupJobID x; sx_LegacyUserID := rk_LegacyUserID t; sx_GlobalUserID := rk_UserID t;
            sx_SourceNodeID := rk_SourceNodeID t; sx_TargetNodeID := target; sx_EstimatedBytes := rk_EstimatedBytes t;
            sx_ActivityEpoch := epoch; sx_ControllerGeneration := generation |}
  /\ exists wid w t', uuid_in (cx_WorkflowID p) = Some wid /\ sd_tasks d' = <[tid := t']> (sd_tasks d)
       /\ repair_scope t' = repair_scope t
       /\ life_of t' = LRunning (rk_Attempt t') (Some wid) (Some target) (rk_EstimatedBytes t)
       /\ reservation target t' = rk_EstimatedBytes t
       /\ wd_workflows (rd_w (sd_r d')) !! wid = Some w /\ repair_flow w t target.
Proof.
  unfold begin_repair. intros E Hl Hw. apply tx_bind_ok in E as (wid & d1 & [Hwid ->]%uuid_param_ok & E).
  apply tx_bind_ok in E as (job & d1 & (r & Hr & ->)%in_r_ok & E). apply create_repair_flow in Hr as (w & Hflow & Hf).
  apply tx_bind_ok in E as (ex & d1 & [_ ->]%uuid_param_ok & E). apply tx_bind_ok in E as (owner & d1 & [_ ->]%uuid_param_ok & E).
  apply tx_bind_ok in E as (n & d1 & (_ & _ & ->)%update_repairs_ok & E). apply tx_bind_ok in E as (u1 & d1 & [_ ->]%require_ok & E).
  apply tx_bind_ok in E as (u2 & d1 & (r2 & Ha & ->)%in_r_ok & E). apply tx_ret_ok in E as [-> ->]. cbn in *.
  split; [done|]. split; [done|]. exists wid, w. eexists. split; [done|]. split.
  { apply update_where_at; [done | by rewrite String.eqb_refl, Hw, Z.eqb_refl|].
    intros id u Hne. apply String.eqb_neq in Hne. by rewrite Hne. }
  unfold reservation. cbn. rewrite bool_decide_eq_true_2 by done. do 3 (split; [reflexivity|]). split; [|done].
  by injection Ha as _ <-.
Qed.

(** C12: A claim places its repair where it fits.  When a claim that no other claim
    overtakes begins a repair, all reservations of the node it chose, with the new
    one, fit the free space of its disk and what is left of its quota, as last
    reported; the node is a healthy, managed storage node where no cleanup of the
    user is open, and not the source; the source is the home of the user, healthy and
    ready, the lease of the user is that of the source and admits no writer, nothing
    else is under way with the data; and the workflow of the repair exists, with the
    source, the target and the user of the task that holds the reservation. *)
Theorem repair_reservations_fit clock locked busy p d x d' :
  ClaimAndCreateStorageRepair clock d locked busy p d = (Ok (Some x), d') ->
  repair_placed d d' (now_or clock (cx_Now p)) (cx_OfflineGrace p) x.
Proof.
  unfold ClaimAndCreateStorageRepair. destruct (negb _); [done|]. cbv zeta. destruct (negb _); [done|]. unfold runTx.
  destruct (claimAndCreateStorageRepairOnce _ _ _ _ d) as [[r d1]|e] eqn:E; [|done]. intros [= -> ->].
  apply claim_repair_cases in E as [[? _]|(x' & tid & t & g & lease & target & node & mode & epoch & [= <-] & Hl & Hc & _ & -> & Hq & Ht & E)]; [done|].
  apply chosen_target in Ht as [Hn Ht]. assert (repair_running t = false) as Hidle.
  { apply repair_waiting_idle. unfold repair_claimable in Hc. by destruct (repair_waiting t). }
  unfold repair_claimable in Hc. unfold repair_target in Ht. b2p.
  destruct (begin_repair_ok _ _ _ _ _ _ _ _ _ _ E Hl) as (Hd & -> & wid & w & t' & Hwid & Htasks & Hsc & Hlife & Hres & Hflow & Hf); [done|].
  split; cbn.
  - unfold disk_left in *. rewrite Hd. destruct (sd_disks d !! target) as [k|]; [|done]. cbn in *.
    destruct (dk_AvailableBytes k) as [avail|] eqn:E1; [|done]. cbn in *. destruct (dk_QuotaBytes k) as [quota|] eqn:E2; [|done]. cbn in *.
    destruct (dk_AllocatedBytes k) as [allocated|] eqn:E3; [|done]. cbn in *. b2p. exists k, avail, quota, allocated.
    do 4 (split; [done|]). rewrite Htasks, (reserved_insert _ _ _ t) by done. rewrite Hres.
    assert (reservation target t = 0) as ->; [|lia]. unfold reservation.
    by rewrite Hidle.
  - by exists node.
  - done.
  - intros l Hlease. rewrite Hlease in Hq. destruct Hq as [Hq ->]. b2p. done.
  - exists t', wid, w. rewrite Htasks, lookup_insert_eq. repeat split; try done; unfold repair_flow in Hf; injection Hsc as E1 E2 E3 E4;
      rewrite ?E1, ?E3; apply Hf.
Qed.

(** ** Claims that overlap *)

(** What a claim leaves of its target, which it chose on [seen]. *)
Lemma claim_takes clock seen locked busy p d x d' : let node := sx_TargetNodeID x in let size := sx_EstimatedBytes x in
  ClaimAndCreateStorageRepair clock seen locked busy p d = (Ok (Some x), d') ->
  (exists free quota, disk_left seen node = Some (free, quota) /\ size <= free /\ size <= quota)
  /\ disk_left d' node = prod_map (Z.add (- size)) (Z.add (- size)) <$> disk_left d node.
Proof.
  unfold ClaimAndCreateStorageRepair. destruct (negb _); [done|]. cbv zeta. destruct (negb _); [done|]. unfold runTx.
  destruct (claimAndCreateStorageRepairOnce _ _ _ _ d) as [[r d1]|e] eqn:E; [|done]. intros [= -> ->].
  apply claim_repair_cases in E as [[? _]|(x' & tid & t & g & lease & target & node & mode & epoch & [= <-] & Hl & Hc & _ & _ & _ & Ht & E)]; [done|].
  apply chosen_target in Ht as [_ Ht]. assert (repair_waiting t = true) as Hw.
  { unfold repair_claimable in Hc. by destruct (repair_waiting t). }
  destruct (begin_repair_ok _ _ _ _ _ _ _ _ _ _ E Hl Hw) as (Hd & -> & wid & w & t' & _ & Htasks & _ & _ & Hres & _). cbn. split.
  - unfold repair_target in Ht. b2p. destruct (disk_left seen target) as [[free quota]|]; [|done]. exists free, quota. b2p. done.
  - assert (reservation target t = 0) as H0 by (unfold reservation; by rewrite (repair_waiting_idle t Hw)).
    unfold disk_left. rewrite Hd, Htasks, (reserved_insert _ _ _ t), Hres, H0 by done.
    destruct (sd_disks d !! target) as [k|]; [|done]. cbn. destruct (dk_AvailableBytes k), (dk_QuotaBytes k), (dk_AllocatedBytes k); try done.
    cbn. apply (f_equal Some), (f_equal2 pair); lia.
Qed.

(** Claims that commit one after the other and begin the repairs [xs] on a node, each
    of which began the statement that chose it while [seen] was committed. *)
Inductive overlapping (seen : SDB) (node : Z) : SDB -> list StorageRepairExecution -> SDB -> Prop :=
  | overlapping_none d : overlapping seen node d [] d
  | overlapping_claim clock locked busy p d x d1 xs d2 :
      ClaimAndCreateStorageRepair clock seen locked busy p d = (Ok (Some x), d1) -> sx_TargetNodeID x = node ->
      overlapping seen node d1 xs d2 -> overlapping seen node d (x :: xs) d2.

Definition total_bytes (xs : list StorageRepairExecution) : Z := foldr (fun x sum => sx_EstimatedBytes x + sum) 0 xs.

Lemma overlapping_takes seen node d xs d' : overlapping seen node d xs d' ->
  Forall (fun x => exists free quota, disk_left seen node = Some (free, quota) /\ sx_EstimatedBytes x <= free /\ sx_EstimatedBytes x <= quota) xs
  /\ disk_left d' node = prod_map (Z.add (- total_bytes xs)) (Z.add (- total_bytes xs)) <$> disk_left d node.
Proof.
  induction 1 as [d|clock locked busy p d x d1 xs d2 [Hf Hx]%claim_takes <- _ [IH1 IH2]].
  - split; [constructor|]. by destruct (disk_left d node) as [[]|].
  - split; [by constructor|]. rewrite IH2, Hx. destruct (disk_left d _) as [[free quota]|]; [|done].
    cbn. unfold total_bytes. cbn. apply (f_equal Some), (f_equal2 pair); lia.
Qed.

(** C40: Overlapping claims overcommit a node.  A claim runs at READ COMMITTED: the
    statement that chooses the target sums the reservations as they were when it
    began, and the lock it then takes on the row of the node, which no claim ever
    changes, does not make it sum again.  So when any number of claims begin that
    statement on the same committed database and then, one after the other, get the
    lock and begin their repairs on the same node, each is compared with all that was
    free and none with the others: every one of them fits alone, and what is left is
    what was free less all of them together, which may be less than nothing. *)
Theorem overlapping_claims_overcommit d node x xs d' :
  overlapping d node d (x :: xs) d' ->
  exists free quota, disk_left d node = Some (free, quota)
    /\ (forall y, y ∈ x :: xs -> sx_EstimatedBytes y <= free /\ sx_EstimatedBytes y <= quota)
    /\ disk_left d' node = Some (free - total_bytes (x :: xs), quota - total_bytes (x :: xs)).
Proof.
  intros [Hf Hl]%overlapping_takes. rewrite Forall_forall in Hf. destruct (Hf x) as (free & quota & E & _); [by left|].
  exists free, quota. split; [done|]. split.
  - intros y (? & ? & E' & Hy)%Hf. rewrite E in E'. by injection E' as <- <-.
  - rewrite Hl, E. cbn. apply (f_equal Some), (f_equal2 pair); lia.
Qed.

End System.
