(* ===== verification/RepairRuns.v ===== *)
(** * Storage repairs, run

    Two users without an archive and one storage node: the instances at which the
    theorems of RepairSystem.v are used, two claims that overlap among them. *)

From Stdlib Require Import ZArith Lia Ascii String.
From stdpp Require Import base list gmap strings relations pretty.
From S2P Require Import Prelude GoStrings AgentState Schema Leases Handoffs WorkflowSchema SnapshotStore SnapshotLife.
From S2P Require Import SnapshotExecutor RecoverySchema DataFaults Protection RestoreStore RecoverySystem RecoveryRuns.
From S2P Require Import ReplicaCleanup StorageRepair RepairSystem.
#[local] Open Scope Z_scope.

#[local] Existing Instance demo_postgres.

(** ** A deployment without archives *)

Definition MiB : Z := Z.shiftl 1 20.

(** Bob beside Alice: his home is node 2. *)
Definition two_users : RDB :=
  let d := only_home in
  let c := core d in
  let c := set_users (<[8 := {| gu_UUID := rid "08"; gu_LegacyUserID := Some 4; gu_Status := "active" |}]> (db_users c)) c in
  let c := set_legacy (<[4 := {| us_Username := "bob"; us_Status := "active" |}]> (db_legacy c)) c in
  let w := put_core c (rd_w d) in
  let w := put_homes (<[4 := 2]> (wd_homes w)) w in
  let w := put_replicas (<[(4, 2) := replica_at "home" "ready"]> (wd_replicas w)) w in
  let w := put_copies (<[(8, 2) := copy_at (rid "11") "active" None true]> (wd_copies w)) w in
  set_rd_w w d.

(** Node 9 has room for one archive. *)
Definition one_disk : gmap Z NodeDisk :=
  {[ 9 := {| dk_MetricsObservedAt := Some store_now; dk_AvailableBytes := Some (100 * MiB);
             dk_QuotaBytes := Some (500 * MiB); dk_AllocatedBytes := Some (20 * MiB) |} ]}.

Definition unrepaired : SDB := {| sd_r := two_users; sd_tasks := ∅; sd_disks := one_disk |}.

Definition repair_request (n : Z) : CreateStorageRepairExecutionParams :=
  {| cx_ExecutionID := rid (pretty (n + 1)); cx_LeaseOwner := rid (pretty (n + 2)); cx_WorkflowID := rid (pretty (n + 3));
     cx_OperationID := rid (pretty (n + 4)); cx_SnapshotID := rid (pretty (n + 5)); cx_CapabilityID := rid (pretty (n + 6));
     cx_CapabilityHash := of_bytes (repeat (ascii_of_nat (Z.to_nat n)) 32); cx_CapabilityExpires := store_now + Hour;
     cx_LeaseTTL := 8 * Hour; cx_OfflineGrace := 10 * Minute; cx_MaxAttempts := 3; cx_RelayAvailable := false;
     cx_Now := store_now + Second |}.

Definition planned_run : list repair_event :=
  [ERecovery (reconcile store_now); ESchedule store_now (fun u => rid (pretty (u + 80))) (store_now + Second) (10 * Minute)].

Definition planned : SDB := repair_run unrepaired planned_run.

#[local] Notation claim_a := (ClaimAndCreateStorageRepair store_now planned (fun _ => false) (fun _ => false) (repair_request 40) planned).

(** ** The theorems at work *)

Lemma repair_task_refines_witness :
  let s' := repair_run unrepaired (planned_run ++ [EClaim store_now planned (fun _ => false) (fun _ => false) (repair_request 40)]) in
  life_at s' (rid "87") = Some (LRunning 1 (Some (rid "43")) (Some 9) (64 * MiB))
  /\ rtc (life_step 3) (life_at unrepaired (rid "87")) (life_at s' (rid "87")).
Proof.
  split; [vm_compute; reflexivity|].
  refine (proj1 (proj2 (repair_task_refines 3 unrepaired
    (planned_run ++ [EClaim store_now planned (fun _ => false) (fun _ => false) (repair_request 40)]) _ _)) (rid "87")).
  - repeat constructor. vm_compute. discriminate.
  - vm_compute. reflexivity.
Defined.

Definition alice_repair : StorageRepairExecution :=
  {| sx_TaskID := rid "87"; sx_WorkflowID := rid "43"; sx_SnapshotID := rid "45"; sx_LegacyBackupJobID := 6;
     sx_LegacyUserID := 3; sx_GlobalUserID := 7; sx_SourceNodeID := 1; sx_TargetNodeID := 9; sx_EstimatedBytes := 64 * MiB;
     sx_ActivityEpoch := 1; sx_ControllerGeneration := 4 |}.

Lemma repair_reservations_fit_witness :
  claim_a.1 = Ok (Some alice_repair)
  /\ repair_placed planned claim_a.2 (now_or store_now (store_now + Second)) (10 * Minute) alice_repair.
Proof.
  assert (claim_a.1 = Ok (Some alice_repair)) as E by (vm_compute; reflexivity). split; [exact E|].
  exact (repair_reservations_fit (H := demo_postgres) store_now (fun _ => false) (fun _ => false) (repair_request 40) planned
    alice_repair claim_a.2 (pair_fst _ _ E)).
Defined.

(** ** Two claims that overlap *)

(** Bob's claim comes second; [seen] is what its choice of a target reads. *)
#[local] Notation claim_b seen := (ClaimAndCreateStorageRepair store_now seen (fun _ => false) (fun _ => false) (repair_request 60) claim_a.2).

Definition bob_repair : StorageRepairExecution :=
  {| sx_TaskID := rid "88"; sx_WorkflowID := rid "63"; sx_SnapshotID := rid "65"; sx_LegacyBackupJobID := 7;
     sx_LegacyUserID := 4; sx_GlobalUserID := 8; sx_SourceNodeID := 2; sx_TargetNodeID := 9; sx_EstimatedBytes := 64 * MiB;
     sx_ActivityEpoch := 1; sx_ControllerGeneration := 4 |}.

(** Bob's claim chose its target before Alice's was committed: 128 MiB are reserved
    on a node with 100 MiB left. *)
Lemma overlapping_claims_overcommit_witness :
  disk_left (claim_b planned).2 9 = Some (-28 * MiB, 352 * MiB)
  /\ exists free quota, disk_left planned 9 = Some (free, quota)
       /\ (forall y, y ∈ [alice_repair; bob_repair] -> sx_EstimatedBytes y <= free /\ sx_EstimatedBytes y <= quota)
       /\ disk_left (claim_b planned).2 9
          = Some (free - total_bytes [alice_repair; bob_repair], quota - total_bytes [alice_repair; bob_repair]).
Proof.
  split; [vm_compute; reflexivity|].
  assert (claim_a.1 = Ok (Some alice_repair)) as E1 by (vm_compute; reflexivity).
  assert ((claim_b planned).1 = Ok (Some bob_repair)) as E2 by (vm_compute; reflexivity).
  exact (overlapping_claims_overcommit (H := demo_postgres) planned 9 alice_repair [bob_repair] (claim_b planned).2
    (overlapping_claim (H := demo_postgres) planned 9 store_now (fun _ => false) (fun _ => false) (repair_request 40) planned alice_repair claim_a.2
       [bob_repair] (claim_b planned).2 (pair_fst _ _ E1) eq_refl
       (overlapping_claim (H := demo_postgres) planned 9 store_now (fun _ => false) (fun _ => false) (repair_request 60) claim_a.2 bob_repair
          (claim_b planned).2 [] (claim_b planned).2 (pair_fst _ _ E2) eq_refl (overlapping_none planned 9 (claim_b planned).2)))).
Defined.

(** Had it chosen after that, it would have found no target. *)
Example demo_claims_in_turn : (claim_b claim_a.2).1 = Ok None.
Proof. vm_compute. reflexivity. Qed.
