(* ===== verification/StoreSystem.v ===== *)
(** * Runs of the Controller store

    The operations of Leases.v, Handoffs.v and Leadership.v interleaved in any
    order, over the database and the advisory lock, together with every change
    other components make to the tables these operations only read.  The
    theorems speak about whole runs: the epoch of a lease identifies its writer,
    a superseded session stays fenced, a ticket is redeemed once, a promotion
    fences every older session and ticket, and one generation is active. *)

From Stdlib Require Import ZArith Lia Ascii String.
From stdpp Require Import base list gmap strings.
From S2P Require Import Prelude GoStrings Schema Leases Handoffs Leadership.
#[local] Open Scope Z_scope.

Section StoreSystem.
Context `{Postgres}.

Record Store := { st_db : DB; st_lock : Advisory }.

(** Tables this development's lease, ticket, session and epoch operations own
    stay; any other table may change in any way. *)
Definition other_change (new d : DB) : DB :=
  Build_DB (db_users new) (db_legacy new) (db_admins new) (db_nodes new) (db_accounts new)
    (db_epochs d) (db_leases d) (db_lease_ops d) (db_tickets d) (db_sessions d)
    (db_commands new) (db_credentials new) (db_rotations new) (db_rebuilds new)
    (db_rebuild_nodes new) (db_enrollments new) (db_nonces new) (db_audit new).

Inductive store_event :=
| EvAcquire (clock : time) (env : nat -> attempt) (p : AcquireActivityLeaseParams)
| EvRenew (clock : time) (u w : Z) (s : string) (e g : Z) (now : time) (ttl : duration)
| EvTelemetry (clock : time) (p : ActivityLeaseTelemetry)
| EvEnd (clock : time) (u w : Z) (s : string) (e g : Z) (now : time)
| EvFence (u : Z) (conflict : bool) (w : option Z) (clear : bool) (now : time)
| EvHandoff (clock : time) (env : nat -> attempt) (p : CreateLoginHandoffParams)
| EvConsume (clock : time) (jti h : string) (n : Z) (issuer key : string) (now : time) (ttl : duration)
| EvRevokeTickets (p : string -> ControlTicket -> bool) (now : time)
| EvLock (conn : Z)
| EvUnlock (conn : Z)
| EvMark (clock : time) (conn g : Z) (now : time)
| EvResume (clock : time) (source : string) (gap : duration) (now : time)
| EvPromote (clock : time) (op rb ct source : string) (now : time)
| EvSession (clock : time) (p : CreateControllerSessionParams)
| EvTouch (clock : time) (id : string) (now : time)
| EvRevokeSession (clock : time) (tok : string) (now : time)
| EvCleanup (clock now : time)
| EvOther (new : DB).

Definition db_event (lock : Advisory) (ev : store_event) (d : DB) : DB :=
  match ev with
  | EvAcquire clock env p => (AcquireActivityLease clock env p d).2
  | EvRenew clock u w s e g now ttl => (RenewActivityLease clock u w s e g now ttl d).2
  | EvTelemetry clock p => (UpdateActivityLeaseTelemetry clock p d).2
  | EvEnd clock u w s e g now => (EndActivityLease clock u w s e g now d).2
  | EvFence u c w cl now => fenceLease u c w cl now d
  | EvHandoff clock env p => (CreateLoginHandoff clock env p d).2
  | EvConsume clock jti h n i k now ttl => (ConsumeLoginHandoff clock jti h n i k now ttl d).2
  | EvRevokeTickets p now => revokeTickets p now d
  | EvLock _ | EvUnlock _ => d
  | EvMark clock conn g now => (MarkCleanShutdown clock lock conn g now d).2
  | EvResume clock source gap now => (ResumeControllerEpoch clock source gap now d).2
  | EvPromote clock op rb ct source now => (PromoteControllerEpoch clock op rb ct source now d).2
  | EvSession clock p => (CreateControllerSession clock p d).2
  | EvTouch clock id now => (TouchControllerSession clock id now d).2
  | EvRevokeSession clock tok now => (RevokeControllerSession clock tok now d).2
  | EvCleanup clock now => (CleanupControllerSessions clock now d).2
  | EvOther new => other_change new d
  end.

Definition lock_event (ev : store_event) (lock : Advisory) : Advisory :=
  match ev with
  | EvLock conn => (TryAcquireControllerLeadership conn lock).2
  | EvUnlock conn => Close conn lock
  | _ => lock
  end.

Definition store_step (s : Store) (ev : store_event) : Store :=
  {| st_db := db_event (st_lock s) ev (st_db s); st_lock := lock_event ev (st_lock s) |}.

Definition store_run (s : Store) (evs : list store_event) : Store := foldl store_step s evs.

(** ** Which tables an operation writes *)

Lemma event_writes lock ev d :
  let d' := db_event lock ev d in
  match ev with
  | EvAcquire _ _ _ | EvRenew _ _ _ _ _ _ _ _ | EvTelemetry _ _ | EvEnd _ _ _ _ _ _ _
  | EvFence _ _ _ _ _ => lease_writes d d'
  | EvHandoff _ _ _ | EvConsume _ _ _ _ _ _ _ _ => handoff_writes d d'
  | EvRevokeTickets _ _ => exists tickets, d' = set_tickets tickets d
  | EvMark _ _ _ _ | EvResume _ _ _ _ => epoch_writes d d'
  | EvSession _ _ | EvTouch _ _ _ | EvRevokeSession _ _ _ | EvCleanup _ _ => session_writes d d'
  | EvLock _ | EvUnlock _ => d' = d
  | EvPromote _ _ _ _ _ _ => True
  | EvOther new => d' = other_change new d
  end.
Proof.
  destruct ev; cbn zeta; cbn [db_event]; eauto with stc.
Qed.

Lemma promote_steps clock op rb ct source now d :
  let d' := (PromoteControllerEpoch clock op rb ct source now d).2 in
  lease_step d d' /\ tickets_step d d' /\ epoch_step d d'.
Proof.
  destruct (PromoteControllerEpoch _ _ _ _ _ _ _) as [r d'] eqn:E. cbn.
  apply PromoteControllerEpoch_cases in E as [[-> _]|(current & next & _ & Hg & Hp)].
  { split; [done|]. split; [done|]. reflexivity. }
  split; [apply lease_step_frame; apply Hp|]. split; [eapply tickets_step_revoke; apply Hp|].
  intros g Hw. assert (current = g) as ->.
  { rewrite (epochs_wf_generation _ _ Hw) in Hg. congruence. }
  exists next. destruct (promotion_wf _ _ _ _ _ Hp Hw). split; [lia|done].
Qed.

(** Which tables stay, read off [event_writes]. *)
Lemma event_frames lock ev d (d' := db_event lock ev d) :
  match ev with
  | EvAcquire _ _ _ | EvRenew _ _ _ _ _ _ _ _ | EvTelemetry _ _ | EvEnd _ _ _ _ _ _ _
  | EvFence _ _ _ _ _ =>
      db_tickets d' = db_tickets d /\ db_sessions d' = db_sessions d /\ db_epochs d' = db_epochs d
  | EvHandoff _ _ _ | EvConsume _ _ _ _ _ _ _ _ =>
      db_sessions d' = db_sessions d /\ db_epochs d' = db_epochs d
  | EvPromote _ _ _ _ _ _ => True
  | EvRevokeTickets _ _ =>
      db_leases d' = db_leases d /\ db_lease_ops d' = db_lease_ops d
      /\ db_sessions d' = db_sessions d /\ db_epochs d' = db_epochs d
  | EvMark _ _ _ _ | EvResume _ _ _ _ =>
      db_leases d' = db_leases d /\ db_lease_ops d' = db_lease_ops d
      /\ db_tickets d' = db_tickets d /\ db_sessions d' = db_sessions d
  | EvSession _ _ | EvTouch _ _ _ | EvRevokeSession _ _ _ | EvCleanup _ _ =>
      db_leases d' = db_leases d /\ db_lease_ops d' = db_lease_ops d
      /\ db_tickets d' = db_tickets d /\ db_epochs d' = db_epochs d
  | EvLock _ | EvUnlock _ | EvOther _ =>
      db_leases d' = db_leases d /\ db_lease_ops d' = db_lease_ops d
      /\ db_tickets d' = db_tickets d /\ db_sessions d' = db_sessions d
      /\ db_epochs d' = db_epochs d
  end.
Proof.
  subst d'. pose proof (event_writes lock ev d) as Hw. cbn zeta in Hw.
  unfold handoff_writes, lease_writes, epoch_writes, session_writes in Hw.
  destruct ev; first
    [ exact I
    | rewrite Hw; done
    | destruct Hw as (? & E); rewrite E; done
    | destruct Hw as (? & ? & E); rewrite E; done
    | destruct Hw as (? & ? & (? & ? & ->) & E); rewrite E; done ].
Qed.

Lemma event_lease_step lock ev d : lease_step d (db_event lock ev d).
Proof.
  pose proof (event_frames lock ev d) as Hf. cbn zeta in Hf.
  destruct ev; try (by apply lease_step_frame; apply Hf); cbn [db_event]; auto with stc.
  apply promote_steps.
Qed.

Lemma event_tickets_step lock ev d : tickets_step d (db_event lock ev d).
Proof.
  pose proof (event_frames lock ev d) as Hf. cbn zeta in Hf.
  destruct ev; try (by apply tickets_step_frame; apply Hf); cbn [db_event]; auto with stc.
  apply promote_steps.
Qed.

Lemma event_epoch_step lock ev d : epoch_step d (db_event lock ev d).
Proof.
  pose proof (event_frames lock ev d) as Hf. cbn zeta in Hf.
  destruct ev; try (intros g0 Hw; exists g0; split; [lia|];
                    by eapply epochs_wf_frame; [apply Hf|exact Hw]).
  - intros g0 Hw. exists g0. split; [lia|]. by apply MarkCleanShutdown_wf.
  - intros g0 Hw. exists g0. split; [lia|]. by apply ResumeControllerEpoch_wf.
  - apply promote_steps.
Qed.

(** A relation every event keeps holds along a run. *)
Lemma store_run_rel (R : DB -> DB -> Prop) `{!PreOrder R} s evs :
  (forall lock ev d, R d (db_event lock ev d)) -> R (st_db s) (st_db (store_run s evs)).
Proof.
  intros Hev. revert s. induction evs as [|ev evs IH]; intros s; [reflexivity|].
  etrans; [apply (Hev (st_lock s) ev)|]. apply (IH (store_step s ev)).
Qed.

Lemma run_leases s evs : lease_step (st_db s) (st_db (store_run s evs)).
Proof. apply store_run_rel; [apply _|apply event_lease_step]. Qed.

Lemma run_tickets s evs : tickets_step (st_db s) (st_db (store_run s evs)).
Proof. apply store_run_rel; [apply _|apply event_tickets_step]. Qed.

Lemma run_epochs s evs : epoch_step (st_db s) (st_db (store_run s evs)).
Proof. apply store_run_rel; [apply _|apply event_epoch_step]. Qed.

(** ** Leases along runs *)

(** C1: The activity epoch of a user identifies the writer.  Along any run the
    epoch of a user's lease never decreases, and while two observations show an
    active lease with the same epoch it is the same lease: same writer node,
    same session, same Controller generation.  So at most one session of at most
    one node can act under an epoch. *)
Theorem epoch_identifies_writer s evs u l l' :
  lease_rows_ok (st_db s) -> db_leases (st_db s) !! u = Some l ->
  db_leases (st_db (store_run s evs)) !! u = Some l' ->
  ls_ActivityEpoch l <= ls_ActivityEpoch l'
  /\ (ls_ActivityEpoch l = ls_ActivityEpoch l' -> ls_State l' = "active" ->
      ls_State l = "active" /\ ls_WriterNodeID l = ls_WriterNodeID l'
      /\ ls_SessionID l = ls_SessionID l' /\ ls_ControllerGeneration l = ls_ControllerGeneration l').
Proof.
  intros Hok Hl Hl'. destruct (run_leases s evs) as [_ Hstep]. destruct (Hstep Hok) as [_ Hle].
  destruct (Hle _ _ Hl) as (l2 & Hl2 & [Hlt|[He Hsame]]); simplify_eq; split; try lia; auto.
Qed.

(** A lease has left a session behind: a later epoch, or the row is not active
    any more under that epoch. *)
Definition superseded (d : DB) (u epoch : Z) : Prop :=
  exists l, db_leases d !! u = Some l
    /\ (epoch < ls_ActivityEpoch l \/ (ls_ActivityEpoch l = epoch /\ ls_State l <> "active")).

Lemma superseded_run s evs u epoch :
  lease_rows_ok (st_db s) -> superseded (st_db s) u epoch ->
  lease_rows_ok (st_db (store_run s evs)) /\ superseded (st_db (store_run s evs)) u epoch.
Proof.
  intros Hok (l & Hl & Hsup). destruct (run_leases s evs) as [_ Hstep].
  destruct (Hstep Hok) as [Hok' Hle]. split; [done|].
  destruct (Hle _ _ Hl) as (l' & Hl' & [Hlt|[He Hsame]]); exists l'; (split; [done|]).
  - left. destruct Hsup as [|[]]; lia.
  - destruct Hsup as [|[Hee Hna]]; [left; lia|]. right. split; [lia|]. intros Ha.
    by destruct (Hsame Ha) as [? _].
Qed.

(** A superseded session stays fenced.  Once the lease of a user has moved past
    an epoch, or is no longer active under it, no later renewal or telemetry
    report that names the epoch changes the database, and none is confirmed;
    no ticket of that epoch is redeemed. *)
Theorem superseded_session_fenced s evs u epoch (d := st_db (store_run s evs)) :
  lease_rows_ok (st_db s) -> superseded (st_db s) u epoch ->
  (forall clock w sid g now ttl, exists r,
     RenewActivityLease clock u w sid epoch g now ttl d = (r, d) /\ r <> Ok true)
  /\ (forall clock p, lt_UserID p = u -> lt_ActivityEpoch p = epoch -> exists r,
       UpdateActivityLeaseTelemetry clock p d = (r, d) /\ forall t, r <> Ok (t, true))
  /\ (forall clock jti jti' t h n iss key now ttl,
       uuid_in jti = Some jti' -> db_tickets d !! jti' = Some t ->
       tk_UserID t = Some u -> tk_ActivityEpoch t = Some epoch -> exists r,
       ConsumeLoginHandoff clock jti h n iss key now ttl d = (r, d) /\ forall lr, r <> Ok (Some lr)).
Proof.
  intros Hok Hsup. destruct (superseded_run s evs u epoch Hok Hsup) as [_ (l & Hl & Hpast)].
  fold d in Hl. split; [|split].
  - intros clock w sid g now ttl. unfold RenewActivityLease.
    match goal with |- context [if ?b then _ else _] => destruct b; [by eexists|] end.
    destruct (uuid_in sid); [|by eexists]. rewrite Hl.
    destruct (fenced _ _ _ _ _ && _) eqn:E; [|by eexists]. unfold fenced in E. b2p.
    destruct Hpast as [|[]]; [lia|done].
  - intros clock p Hu He. unfold UpdateActivityLeaseTelemetry.
    match goal with |- context [if ?b then _ else _] => destruct b; [by eexists|] end.
    destruct (uuid_in _); [|by eexists].
    match goal with |- context [if ?b then (Fail sql_error, _) else _] => destruct b; [by eexists|] end.
    rewrite Hu, Hl. destruct (fenced _ _ _ _ _ && _) eqn:E; [|by eexists]. unfold fenced in E. b2p.
    destruct Hpast as [|[]]; [lia|done].
  - intros clock jti jti' t h n iss key now ttl Hj Ht Htu Hte.
    destruct (ConsumeLoginHandoff clock jti h n iss key now ttl d) as [r d'] eqn:E.
    apply ConsumeLoginHandoff_cases in E as [[-> Hr]|(j & t' & uid & l' & gu & a & Hj' & Ht' & Hred & _)];
      [by exists r|].
    apply redeemable_facts in Hred as (Hu' & _ & He' & _ & _ & _ & _ & _ & _ & _ & Hl' & _ & _ & Hact & _).
    simplify_eq. destruct Hpast as [|[]]; [lia|done].
Qed.

(** A lease request is idempotent.  After a request was answered, and whatever
    the system did since, repeating it under the same operation id without a
    server abort returns the same writer, session, epoch and flags, and changes
    nothing. *)
Theorem acquire_idempotent clock env p d r d1 lock evs clock2 env2
  (d2 := st_db (store_run {| st_db := d1; st_lock := lock |} evs)) :
  lease_rows_ok d -> AcquireActivityLease clock env p d = (Ok r, d1) ->
  uuid_in (ap_SessionID p) = Some (ap_SessionID p) -> is_Some (db_users d2 !! ap_UserID p) ->
  at_abort (env2 0%nat) = None ->
  exists r2, AcquireActivityLease clock2 env2 p d2 = (Ok r2, d2) /\ same_answer r r2.
Proof.
  intros Hok Ha Hcan Hu Hab. unfold AcquireActivityLease in Ha |- *.
  destruct (validateActivityLeaseParams p) eqn:Ev; [|done].
  apply retrySerializable_spec, acquireOnce_cases in Ha as (_ & rep & Hc).
  destruct (acquire_journal _ _ _ _ _ Hc Hok Hcan) as (opid & o & Hop & Ho & Hou & Hon & Hos & Hsame).
  destruct (run_leases {| st_db := d1; st_lock := lock |} evs) as [Hops _].
  exists (replayed_result o). split; [|done].
  unfold retrySerializable, serializableRetryLimit. cbn [retry_loop]. rewrite Hab. unfold runTx.
  by rewrite (acquireOnce_replay (with_now clock2 p) d2 opid o Hu Hop (Hops _ _ Ho) Hou Hon Hos).
Qed.

(** ** Tickets along runs *)

(** C3: A login ticket is redeemed at most once.  After a redemption succeeded, no
    redemption of the same ticket succeeds again, whatever happens in between. *)
Theorem ticket_single_use clock jti h n iss key now ttl d lr d1 lock evs clock2 jti2 h2 n2 iss2 key2 now2 ttl2
  (d2 := st_db (store_run {| st_db := d1; st_lock := lock |} evs)) :
  ConsumeLoginHandoff clock jti h n iss key now ttl d = (Ok (Some lr), d1) ->
  uuid_in jti2 = uuid_in jti ->
  forall lr2, (ConsumeLoginHandoff clock2 jti2 h2 n2 iss2 key2 now2 ttl2 d2).1 <> Ok (Some lr2).
Proof.
  intros Hc Hj lr2.
  apply ConsumeLoginHandoff_cases in Hc as [[_ Hno]|(j & t & uid & l & gu & a & Hj1 & Ht & Hr & -> & _)];
    [by destruct (Hno lr)|].
  destruct (run_tickets {| st_db := set_leases (<[uid :=
      set_times l (ls_State l) (ts (now_or clock now + ttl)) (ls_LastPageHeartbeatAt l)
        (ts (now_or clock now)) (ts (now_or clock now)) (ls_InFlightReads l)
        (ls_InFlightWrites l)]> (db_leases d))
      (set_tickets (<[j := consume t n (ts (now_or clock now))]> (db_tickets d)) d); st_lock := lock |}
      evs j (consume t n (ts (now_or clock now)))) as (t2 & Ht2 & _ & Hcons & _).
  { cbn. by rewrite lookup_insert_eq. }
  fold d2 in Ht2. specialize (Hcons ltac:(done)).
  destruct (ConsumeLoginHandoff clock2 _ _ _ _ _ _ _ d2) as [r d3] eqn:E. cbn.
  apply ConsumeLoginHandoff_cases in E as [[_ Hno]|(j' & t' & ? & ? & ? & ? & Hj' & Ht' & Hr' & _)]; [done|].
  rewrite Hj, Hj1 in Hj'. injection Hj' as <-. rewrite Ht2 in Ht'. injection Ht' as <-.
  apply redeemable_facts in Hr' as (_ & _ & _ & _ & _ & _ & _ & Hc' & _). by rewrite Hc' in Hcons.
Qed.

(** ** Generations along runs *)

Definition is_promotion (ev : store_event) : bool :=
  match ev with EvPromote _ _ _ _ _ _ => true | _ => false end.

Lemma event_same_generation lock ev d g :
  is_promotion ev = false -> epochs_wf d g -> epochs_wf (db_event lock ev d) g.
Proof.
  intros Hp Hw. pose proof (event_frames lock ev d) as Hf. cbn zeta in Hf.
  destruct ev; try done; try (by eapply epochs_wf_frame; [apply Hf|exact Hw]).
  - by apply MarkCleanShutdown_wf.
  - by apply ResumeControllerEpoch_wf.
Qed.

(** One Controller generation is active, and it changes only by promotion.
    Along any run from a database with one active generation there is again
    exactly one active generation, not smaller than before; without a promotion
    in the run it is the same one. *)
Theorem one_active_generation s evs g :
  epochs_wf (st_db s) g ->
  exists g', g <= g' /\ epochs_wf (st_db (store_run s evs)) g'
    /\ active_generation (st_db (store_run s evs)) = Some g'
    /\ (forallb (fun ev => negb (is_promotion ev)) evs = true -> g' = g).
Proof.
  intros Hw. destruct (run_epochs s evs _ Hw) as (g' & Hle & Hw'). exists g'.
  split; [done|]. split; [done|]. split; [by apply epochs_wf_generation|]. intros Hnp.
  assert (epochs_wf (st_db (store_run s evs)) g) as Hsame.
  { clear Hw' Hle. revert s Hw. induction evs as [|ev evs IH]; intros s Hw; [done|].
    cbn in Hnp. apply andb_true_iff in Hnp as [Hp Hnp]. b2p.
    apply (IH Hnp (store_step s ev)). by apply event_same_generation. }
  apply epochs_wf_generation in Hsame, Hw'. congruence.
Qed.

(** The active epoch carries no clean-shutdown mark. *)
Definition unmarked (d : DB) : Prop :=
  forall g e, active_epoch d = Some (g, e) -> ep_CleanShutdownAt e = None.

Lemma unmarked_frame d d' : db_epochs d' = db_epochs d -> unmarked d -> unmarked d'.
Proof. unfold unmarked, active_epoch, active_epochs. intros E. by rewrite E. Qed.

(** The lookup of the active epoch, in a database with one. *)
Lemma active_epoch_lookup d g e :
  epochs_wf d g -> db_epochs d !! g = Some e -> active_epoch d = Some (g, e).
Proof.
  intros Hw He. destruct (epochs_wf_active _ _ Hw) as (e' & Ha & He'). rewrite Ha. congruence.
Qed.

Lemma unmarked_intro d g e :
  epochs_wf d g -> db_epochs d !! g = Some e -> ep_CleanShutdownAt e = None -> unmarked d.
Proof. intros Hw He Hc g' e' Ha. rewrite (active_epoch_lookup _ _ _ Hw He) in Ha. by simplify_eq. Qed.

(** Only a leader that holds the lock marks. *)
Lemma event_unmarked lock ev d g :
  epochs_wf d g -> unmarked d ->
  unmarked (db_event lock ev d)
  \/ exists clock conn gen now, ev = EvMark clock conn gen now /\ lock = Some conn.
Proof.
  intros Hw Hu. pose proof (event_frames lock ev d) as Hf. cbn zeta in Hf.
  destruct ev; try (left; by eapply unmarked_frame; [apply Hf|]).
  - cbn. unfold MarkCleanShutdown. destruct (g0 <=? 0); [by left|].
    destruct (db_epochs d !! g0) as [e|]; [|by left].
    destruct (String.eqb (ep_State e) "active"); [|by left].
    destruct (bool_decide (lock = Some conn)) eqn:El; [|by left]. b2p. right. eauto 10.
  - left. cbn. unfold ResumeControllerEpoch.
    match goal with |- context [if ?b then _ else _] => destruct b end; [done|].
    destruct (epochs_wf_active _ _ Hw) as (e & Ha & _). rewrite Ha. by rewrite (Hu _ _ Ha).
  - left. cbn. destruct (PromoteControllerEpoch _ _ _ _ _ _ _) as [r d'] eqn:E.
    apply PromoteControllerEpoch_cases in E as [[-> _]|(current & next & _ & Hg & Hp)]; [done|].
    rewrite (epochs_wf_generation _ _ Hw) in Hg. injection Hg as <-.
    destruct (promotion_wf _ _ _ _ _ Hp Hw) as [Hw' _].
    destruct (pr_current _ _ _ _ _ Hp) as (e & e' & _ & _ & _ & _ & _ & He & Hc).
    eapply unmarked_intro; [exact Hw'| |exact Hc]. cbn. by rewrite He, lookup_insert_eq.
Qed.

Lemma run_unmarked s evs g :
  epochs_wf (st_db s) g -> unmarked (st_db s) ->
  unmarked (st_db (store_run s evs))
  \/ exists evs1 evs2 c conn gen t, evs = evs1 ++ EvMark c conn gen t :: evs2
       /\ st_lock (store_run s evs1) = Some conn.
Proof.
  intros Hw Hu. induction evs as [|ev evs IH] using rev_ind; [by left|].
  destruct IH as [IH|(evs1 & evs2 & c & conn & gen & t & -> & Hl)].
  - destruct (run_epochs s evs _ Hw) as (g2 & _ & Hw2).
    destruct (event_unmarked (st_lock (store_run s evs)) ev _ _ Hw2 IH)
      as [Hun|(c & conn & gen & t & -> & Hl)].
    + left. unfold store_run. by rewrite foldl_app.
    + right. exists evs, [], c, conn, gen, t. done.
  - right. exists evs1, (evs2 ++ [ev]), c, conn, gen, t. by rewrite <- (assoc_L (++)).
Qed.

(** A generation is continued only after a clean stop of its leader.  Starting
    from an unmarked active generation, a resume that succeeds after any run
    means that during the run a process that held the advisory lock marked a
    clean shutdown.  The resume returns the active generation, the mark is at
    most the allowed gap old (or a minute in the future), the mark is used up,
    and sessions, tickets and leases are untouched. *)
Theorem resume_needs_clean_stop s evs g clock source gap now r d'
  (s' := store_run s evs) :
  epochs_wf (st_db s) g -> unmarked (st_db s) ->
  ResumeControllerEpoch clock source gap now (st_db s') = (Ok (Some r), d') ->
  (exists evs1 evs2 c conn gen t, evs = evs1 ++ EvMark c conn gen t :: evs2
     /\ st_lock (store_run s evs1) = Some conn)
  /\ active_generation (st_db s') = Some r
  /\ (exists e t, db_epochs (st_db s') !! r = Some e /\ ep_CleanShutdownAt e = Some t
       /\ resumable (now_or clock now) t gap = true)
  /\ unmarked d' /\ epochs_wf d' r
  /\ db_sessions d' = db_sessions (st_db s') /\ db_tickets d' = db_tickets (st_db s')
  /\ db_leases d' = db_leases (st_db s').
Proof.
  intros Hw Hu Hr.
  destruct (run_epochs s evs _ Hw) as (g2 & _ & Hw2). fold s' in Hw2.
  destruct (epochs_wf_active _ _ Hw2) as (e & Ha & He).
  assert (epochs_wf d' g2) as Hw3.
  { pose proof (ResumeControllerEpoch_wf clock source gap now _ _ Hw2) as Hx. by rewrite Hr in Hx. }
  unfold ResumeControllerEpoch in Hr.
  match type of Hr with (if ?b then _ else _) = _ => destruct b; [done|] end. rewrite Ha in Hr.
  destruct (ep_CleanShutdownAt e) as [t|] eqn:Ec; [|done].
  destruct (resumable (now_or clock now) t gap) eqn:Eg; [|done].
  injection Hr as <- <-. split.
  - destruct (run_unmarked s evs g Hw Hu) as [Hun|?]; [|done]. by rewrite (Hun _ _ Ha) in Ec.
  - split; [by apply epochs_wf_generation|]. split; [by exists e, t|]. split; [|done].
    eapply unmarked_intro; [exact Hw3|cbn; by rewrite lookup_insert_eq|done].
Qed.

(** C5: A promotion fences every browser session and every open ticket.  After a
    promotion, along any later run: a session that resolves belongs to the new
    generation or a later one, so it is not one that existed before; and a
    ticket that is redeemed did not exist before. *)
Theorem promotion_fences clock op rb ct source now d next d1 lock evs g
  (d2 := st_db (store_run {| st_db := d1; st_lock := lock |} evs)) :
  epochs_wf d g -> sessions_ok d g ->
  PromoteControllerEpoch clock op rb ct source now d = (Ok next, d1) ->
  g < next
  /\ (forall clock2 tok now2 cs, GetControllerSession clock2 tok now2 d2 = Ok (Some cs) ->
       next <= cs_ControllerGeneration cs
       /\ forall old, db_sessions d !! cs_ID cs = Some old ->
            se_ControllerGeneration old < cs_ControllerGeneration cs)
  /\ (forall clock2 jti j h n iss key now2 ttl lr d3,
       ConsumeLoginHandoff clock2 jti h n iss key now2 ttl d2 = (Ok (Some lr), d3) ->
       uuid_in jti = Some j -> db_tickets d !! j = None).
Proof.
  intros Hw Hs Hp.
  apply PromoteControllerEpoch_cases in Hp as [[_ Hno]|(current & next' & Hr & Hg & Hp)];
    [by destruct (Hno next)|].
  injection Hr as <-. rewrite (epochs_wf_generation _ _ Hw) in Hg. injection Hg as <-.
  destruct (promotion_wf _ _ _ _ _ Hp Hw) as [Hw1 Hlt]. split; [done|].
  destruct (run_epochs {| st_db := d1; st_lock := lock |} evs _ Hw1) as (g2 & Hle & Hw2). fold d2 in Hw2.
  split.
  - intros clock2 tok now2 cs Hget.
    apply GetControllerSession_found in Hget as (row & _ & _ & _ & Hact & Hgen & _).
    rewrite (epochs_wf_generation _ _ Hw2) in Hact. injection Hact as Hact. rewrite Hgen.
    split; [lia|]. intros old Hold. specialize (Hs _ _ Hold). lia.
  - intros clock2 jti j h n iss key now2 ttl lr d3 Hc Hj.
    destruct (db_tickets d !! j) as [t|] eqn:Et; [|done]. exfalso.
    assert (exists t1, db_tickets d1 !! j = Some t1 /\ (tk_ConsumedAt t1 <> None \/ tk_RevokedAt t1 <> None))
      as (t1 & Ht1 & Hclosed).
    { rewrite (pr_tickets _ _ _ _ _ Hp), update_where_lookup, Et. eexists. split; [done|].
      destruct (tk_ConsumedAt t) eqn:Ec, (tk_RevokedAt t) eqn:Erv; cbn; rewrite ?Ec, ?Erv; auto. }
    destruct (run_tickets {| st_db := d1; st_lock := lock |} evs _ _ Ht1) as (t2 & Ht2 & _ & Hc2 & Hr2).
    apply ConsumeLoginHandoff_cases in Hc as [[_ Hno]|(j' & t' & ? & ? & ? & ? & Hj' & Ht' & Hr' & _)];
      [by destruct (Hno lr)|].
    rewrite Hj in Hj'. injection Hj' as <-. fold d2 in Ht2. rewrite Ht2 in Ht'. injection Ht' as <-.
    apply redeemable_facts in Hr' as (_ & _ & _ & _ & _ & _ & _ & Hcn & Hrn & _).
    destruct Hclosed as [Hx|Hx]; [rewrite <- (Hc2 Hx) in Hx|rewrite <- (Hr2 Hx) in Hx]; done.
Qed.

End StoreSystem.

(** ** Concrete runs *)

#[local] Existing Instance demo_postgres.

Definition demo_store : Store := {| st_db := demo_leased; st_lock := Some 42 |}.

(** The first lease ends, and node 2 acquires the next one. *)
Definition demo_switch : list store_event :=
  [EvEnd 0 7 1 id_sid 1 4 (store_now + Minute);
   EvAcquire 0 no_abort (lease_request id_op2 id_sid2 2 4 (store_now + 2 * Minute))].

Lemma epoch_identifies_writer_witness :
  exists l l', db_leases demo_leased !! 7 = Some l
    /\ db_leases (st_db (store_run demo_store demo_switch)) !! 7 = Some l'
    /\ ls_ActivityEpoch l <= ls_ActivityEpoch l' /\ ls_WriterNodeID l' = 2.
Proof.
  assert (exists l, db_leases demo_leased !! 7 = Some l) as [l Hl] by (eexists; vm_compute; reflexivity).
  assert (exists l', db_leases (st_db (store_run demo_store demo_switch)) !! 7 = Some l'
    /\ ls_WriterNodeID l' = 2) as (l' & Hl' & Hw) by (eexists; split; vm_compute; reflexivity).
  exists l, l'. split; [exact Hl|]. split; [exact Hl'|]. split; [|exact Hw].
  exact (proj1 (epoch_identifies_writer demo_store demo_switch 7 l l' demo_leased_ok Hl Hl')).
Defined.

Lemma superseded_session_fenced_witness :
  let s := store_run demo_store demo_switch in
  let d := st_db (store_run s [EvRenew 0 7 2 id_sid2 2 4 (store_now + 3 * Minute) Minute]) in
  exists r, RenewActivityLease 0 7 1 id_sid 1 4 (store_now + 4 * Minute) Minute d = (r, d) /\ r <> Ok true.
Proof.
  intros s d.
  assert (lease_rows_ok (st_db s)) as Hok by apply (run_leases demo_store demo_switch), demo_leased_ok.
  assert (superseded (st_db s) 7 1) as Hsup.
  { assert (exists l, db_leases (st_db s) !! 7 = Some l /\ ls_ActivityEpoch l = 2) as (l & Hl & He)
      by (eexists; split; vm_compute; reflexivity).
    exists l. split; [exact Hl|]. left. rewrite He. lia. }
  exact (proj1 (superseded_session_fenced s [EvRenew 0 7 2 id_sid2 2 4 (store_now + 3 * Minute) Minute]
    7 1 Hok Hsup) 0 1 id_sid 4 (store_now + 4 * Minute) Minute).
Defined.

Lemma acquire_idempotent_witness :
  let d2 := st_db (store_run demo_store demo_switch) in
  exists r r2, AcquireActivityLease 0 no_abort (lease_request id_op id_sid 1 4 store_now) d2 = (Ok r2, d2)
    /\ same_answer r r2 /\ ls_WriterNodeID (ar_Lease r) = 1.
Proof.
  intros d2.
  destruct (AcquireActivityLease 0 no_abort (lease_request id_op id_sid 1 4 store_now) demo_db).1
    as [r|e] eqn:E; [|exfalso; vm_compute in E; discriminate E].
  assert (ls_WriterNodeID (ar_Lease r) = 1) as Hw
    by (vm_compute in E; injection E as <-; reflexivity).
  assert (AcquireActivityLease 0 no_abort (lease_request id_op id_sid 1 4 store_now) demo_db
          = (Ok r, demo_leased)) as Hr.
  { unfold demo_leased. destruct (AcquireActivityLease _ _ _ _). cbn in *. congruence. }
  destruct (acquire_idempotent 0 no_abort (lease_request id_op id_sid 1 4 store_now) demo_db r demo_leased
    (Some 42) demo_switch 0 no_abort demo_db_lease_rows_ok Hr) as (r2 & Hr2 & Hs);
    [vm_compute; reflexivity|eexists; vm_compute; reflexivity|reflexivity|].
  exists r, r2. split; [exact Hr2|]. split; [exact Hs|exact Hw].
Defined.

Definition demo_redeemed : result (option LoginRedemption) * DB :=
  ConsumeLoginHandoff 0 id_jti digest32 1 "https://controller.example" "k1" (store_now + Second)
    (5 * Minute) demo_handed.2.

Lemma ticket_single_use_witness :
  (exists lr, demo_redeemed.1 = Ok (Some lr))
  /\ ~ exists lr2, (ConsumeLoginHandoff 0 id_jti digest32 1 "https://controller.example" "k1"
                      (store_now + 2 * Second) (5 * Minute) demo_redeemed.2).1 = Ok (Some lr2).
Proof.
  destruct demo_redeemed.1 as [[lr|]|e] eqn:E;
    [|exfalso; vm_compute in E; discriminate E|exfalso; vm_compute in E; discriminate E].
  assert (demo_redeemed = (Ok (Some lr), demo_redeemed.2)) as Hr
    by (destruct demo_redeemed; cbn in *; congruence).
  split; [by exists lr|]. intros [lr2 H2]. revert H2.
  exact (ticket_single_use 0 id_jti digest32 1 "https://controller.example" "k1" (store_now + Second)
    (5 * Minute) demo_handed.2 lr demo_redeemed.2 None [] 0 id_jti digest32 1
    "https://controller.example" "k1" (store_now + 2 * Second) (5 * Minute) Hr eq_refl lr2).
Defined.

Definition demo_restart : list store_event :=
  [EvLock 42; EvMark 0 42 4 (store_now + Minute); EvUnlock 42; EvLock 43].

Lemma one_active_generation_witness :
  exists g', 4 <= g' /\ active_generation (st_db (store_run {| st_db := demo_db; st_lock := None |} demo_restart)) = Some g'
    /\ g' = 4.
Proof.
  destruct (one_active_generation {| st_db := demo_db; st_lock := None |} demo_restart 4 demo_epochs_wf)
    as (g' & Hle & _ & Hg & Hsame).
  exists g'. split; [exact Hle|]. split; [exact Hg|]. apply Hsame. reflexivity.
Defined.

Lemma resume_needs_clean_stop_witness :
  let s := {| st_db := demo_db; st_lock := None |} in
  exists d', ResumeControllerEpoch 0 "restart" (5 * Minute) (store_now + 2 * Minute)
      (st_db (store_run s demo_restart)) = (Ok (Some 4), d') /\ unmarked d'.
Proof.
  intros s.
  assert (exists x, (ResumeControllerEpoch 0 "restart" (5 * Minute) (store_now + 2 * Minute)
      (st_db (store_run s demo_restart))).1 = x /\ x = Ok (Some 4)) as (x & E & ->)
    by (eexists; split; [vm_compute; reflexivity|reflexivity]).
  exists (ResumeControllerEpoch 0 "restart" (5 * Minute) (store_now + 2 * Minute)
      (st_db (store_run s demo_restart))).2.
  assert (ResumeControllerEpoch 0 "restart" (5 * Minute) (store_now + 2 * Minute)
      (st_db (store_run s demo_restart)) = (Ok (Some 4),
      (ResumeControllerEpoch 0 "restart" (5 * Minute) (store_now + 2 * Minute)
      (st_db (store_run s demo_restart))).2)) as Hr
    by (destruct (ResumeControllerEpoch _ _ _ _ _); cbn in *; congruence).
  split; [exact Hr|].
  refine (proj1 (proj2 (proj2 (proj2 (resume_needs_clean_stop s demo_restart 4 0 "restart" (5 * Minute)
    (store_now + 2 * Minute) 4 _ demo_epochs_wf _ Hr))))).
  refine (unmarked_intro demo_db 4 demo_epoch demo_epochs_wf _ _); reflexivity.
Defined.

Definition demo_session : CreateControllerSessionParams :=
  {| sp_ID := id_sid; sp_UserID := Some 7; sp_AdminID := None; sp_TokenHash := digest32;
     sp_CSRFHash := digest32; sp_ExpiresAt := store_now + 24 * Hour; sp_Now := store_now |}.

(** A session and a ticket exist when generation 5 is promoted. *)
Definition demo_before : DB := (CreateControllerSession 0 demo_session demo_handed.2).2.
Definition demo_promoted : result Z * DB :=
  PromoteControllerEpoch 0 id_op2 id_sid2 id_user "failover" (store_now + Second) demo_before.

Lemma demo_before_wf : epochs_wf demo_before 4 /\ sessions_ok demo_before 4.
Proof.
  assert (exists r, CreateControllerSession 0 demo_session demo_handed.2 = (r, demo_before)) as [r E].
  { exists (CreateControllerSession 0 demo_session demo_handed.2).1. unfold demo_before.
    by destruct (CreateControllerSession _ _ _). }
  assert (db_epochs demo_before = db_epochs demo_db) as Ee by (vm_compute; reflexivity).
  split; [apply (epochs_wf_frame demo_db); [exact Ee|exact demo_epochs_wf]|].
  intros id s Hs.
  assert (map_Forall (fun _ x => se_ControllerGeneration x <=? 4 = true) (db_sessions demo_before)) as Hall.
  { apply (bool_decide_unpack _). vm_compute. exact I. }
  apply Hall in Hs. by apply Z.leb_le.
Qed.

Lemma promotion_fences_witness :
  4 < 5 /\ (ConsumeLoginHandoff 0 id_jti digest32 1 "https://controller.example" "k1"
             (store_now + 2 * Second) (5 * Minute) demo_promoted.2).1 = Ok None.
Proof.
  assert (demo_promoted.1 = Ok 5) as E by (vm_compute; reflexivity).
  assert (demo_promoted = (Ok 5, demo_promoted.2)) as Hp by (destruct demo_promoted; cbn in *; congruence).
  destruct demo_before_wf as [Hw Hs].
  destruct (promotion_fences 0 id_op2 id_sid2 id_user "failover" (store_now + Second) demo_before 5
    demo_promoted.2 None [] 4 Hw Hs Hp) as (Hlt & _ & Hticket).
  split; [exact Hlt|].
  destruct (ConsumeLoginHandoff 0 id_jti digest32 1 "https://controller.example" "k1"
             (store_now + 2 * Second) (5 * Minute) demo_promoted.2) as [[[lr|]|e] d3] eqn:Ec.
  - exfalso. specialize (Hticket _ _ id_jti _ _ _ _ _ _ _ _ Ec ltac:(vm_compute; reflexivity)).
    vm_compute in Hticket. discriminate Hticket.
  - reflexivity.
  - exfalso. vm_compute in Ec. discriminate Ec.
Defined.
