(* ===== verification/Handles.v ===== *)
(** * User handles

    src/internal/controller/handle.go: the normal form of a user name and the test
    for a valid handle.  The lemmas show what a normal form looks like and that
    normalising is idempotent, so the normal forms are exactly the fixed points. *)

From Stdlib Require Import ZArith Lia Ascii String.
From stdpp Require Import base list strings.
From S2P Require Import Prelude GoStrings.
#[local] Open Scope Z_scope.

Section Handles.
Context `{UnicodeTables}.

(** [-+] replaced by one dash. *)
Fixpoint collapse_dashes (l : list ascii) : list ascii :=
  match l with
  | c :: r =>
      match r with
      | d :: _ => if Ascii.eqb c dash && Ascii.eqb d dash then collapse_dashes r
                  else c :: collapse_dashes r
      | [] => [c]
      end
  | [] => []
  end.

Fixpoint trim_left_dashes (l : list ascii) : list ascii :=
  match l with
  | c :: r => if Ascii.eqb c dash then trim_left_dashes r else l
  | [] => []
  end.

Definition trim_dashes (l : list ascii) : list ascii :=
  rev (trim_left_dashes (rev (trim_left_dashes l))).

(** A rune outside [a-z0-9-] becomes a dash; each byte of its encoding does here,
    which the collapse of dashes makes the same. *)
Definition NormalizeHandle (h : string) : string :=
  if String.eqb h "" then "" else
  let l := bytes_of (trim_space (to_lower h)) in
  of_bytes (trim_dashes (collapse_dashes (map (fun c => if handle_char c then c else dash) l))).

Definition isValidHandle (h : string) : bool :=
  if (slen h <? 3) || (32 <? slen h) then false else forallb handle_char (bytes_of h).

(** ** Normal forms *)

Definition no_double_dash (l : list ascii) : Prop := forall l1 l2, l <> l1 ++ dash :: dash :: l2.

Lemma no_double_dash_cons c l :
  no_double_dash (c :: l) <-> no_double_dash l /\ ~ (c = dash /\ head l = Some dash).
Proof.
  split.
  - intros Hn. split.
    + intros l1 l2 ->. by apply (Hn (c :: l1) l2).
    + intros [-> Hh]. destruct l as [|d l]; [done|]. injection Hh as ->. by apply (Hn [] l).
  - intros [Hn Hc] l1 l2 E. destruct l1 as [|x l1].
    + injection E as -> ->. by apply Hc.
    + injection E as -> ->. by apply (Hn l1 l2).
Qed.

Lemma no_double_dash_rev l : no_double_dash l -> no_double_dash (rev l).
Proof.
  intros Hn l1 l2 E. apply (Hn (rev l2) (rev l1)).
  rewrite <- (rev_involutive l), E, rev_app_distr. cbn. by rewrite <- !app_assoc.
Qed.

Lemma collapse_cons c d l :
  collapse_dashes (c :: d :: l)
  = if Ascii.eqb c dash && Ascii.eqb d dash then collapse_dashes (d :: l)
    else c :: collapse_dashes (d :: l).
Proof. reflexivity. Qed.

Lemma collapse_head c l : head (collapse_dashes (c :: l)) = Some c.
Proof.
  revert c. induction l as [|d l IH]; intros c; [done|]. rewrite collapse_cons.
  destruct (Ascii.eqb c dash && Ascii.eqb d dash) eqn:E; [|done].
  apply andb_true_iff in E as [Ec Ed]. apply Ascii.eqb_eq in Ec, Ed. subst. apply IH.
Qed.

Lemma collapse_no_double l : no_double_dash (collapse_dashes l).
Proof.
  induction l as [|c l IH]; [intros [] ?; done|]. destruct l as [|d l].
  { cbn. apply no_double_dash_cons. split; [intros [] ?; done|by intros [_ ?]]. }
  rewrite collapse_cons. destruct (Ascii.eqb c dash && Ascii.eqb d dash) eqn:E; [exact IH|].
  apply no_double_dash_cons. split; [exact IH|]. intros [-> Hh]. rewrite collapse_head in Hh.
  injection Hh as ->. by rewrite Ascii.eqb_refl in E.
Qed.

Lemma collapse_id l : no_double_dash l -> collapse_dashes l = l.
Proof.
  induction l as [|c l IH]; [done|]. rewrite no_double_dash_cons. intros [Hl Hc].
  destruct l as [|d l]; [done|]. rewrite collapse_cons.
  destruct (Ascii.eqb c dash && Ascii.eqb d dash) eqn:E; [|by rewrite (IH Hl)].
  exfalso. apply andb_true_iff in E as [Ec Ed]. apply Ascii.eqb_eq in Ec, Ed. subst. by apply Hc.
Qed.

Lemma trim_left_suffix l : exists k, l = k ++ trim_left_dashes l.
Proof.
  induction l as [|c l [k IH]]; [by exists []|]. cbn [trim_left_dashes]. destruct (Ascii.eqb c dash); [|by exists []].
  exists (c :: k). cbn. by rewrite <- IH.
Qed.

Lemma trim_left_head l : head (trim_left_dashes l) <> Some dash.
Proof.
  induction l as [|c l IH]; [done|]. cbn [trim_left_dashes]. destruct (Ascii.eqb c dash) eqn:E; [exact IH|].
  cbn. intros [= ->]. by rewrite Ascii.eqb_refl in E.
Qed.

Lemma trim_left_id l : head l <> Some dash -> trim_left_dashes l = l.
Proof.
  destruct l as [|c l]; [done|]. cbn [trim_left_dashes head]. intros Hc. destruct (Ascii.eqb c dash) eqn:E; [|done].
  apply Ascii.eqb_eq in E. by subst.
Qed.

Lemma suffix_no_double k l : no_double_dash (k ++ l) -> no_double_dash l.
Proof. intros Hn l1 l2 ->. apply (Hn (k ++ l1) l2). by rewrite <- app_assoc. Qed.

Lemma trim_left_no_double l : no_double_dash l -> no_double_dash (trim_left_dashes l).
Proof. destruct (trim_left_suffix l) as [k E]. rewrite E at 1. apply suffix_no_double. Qed.

Lemma trim_left_last l c :
  head (rev (trim_left_dashes l)) = Some c -> head (rev l) = Some c.
Proof.
  destruct (trim_left_suffix l) as [k E]. rewrite E at 2. rewrite rev_app_distr.
  by destruct (rev (trim_left_dashes l)).
Qed.

Lemma trim_dashes_ends l (t := trim_dashes l) : head t <> Some dash /\ head (rev t) <> Some dash.
Proof.
  subst t. unfold trim_dashes. split.
  - intros Hh. apply trim_left_last in Hh. rewrite rev_involutive in Hh. by apply trim_left_head in Hh.
  - rewrite rev_involutive. apply trim_left_head.
Qed.

Lemma trim_dashes_no_double l : no_double_dash l -> no_double_dash (trim_dashes l).
Proof.
  intros Hn. unfold trim_dashes.
  by apply no_double_dash_rev, trim_left_no_double, no_double_dash_rev, trim_left_no_double.
Qed.

Lemma trim_dashes_id l : head l <> Some dash -> head (rev l) <> Some dash -> trim_dashes l = l.
Proof.
  intros H1 H2. unfold trim_dashes. by rewrite (trim_left_id l H1), (trim_left_id _ H2), rev_involutive.
Qed.

Lemma collapse_In c l : In c (collapse_dashes l) -> In c l.
Proof.
  induction l as [|d l IH]; [done|]. destruct l as [|e l]; [done|]. rewrite collapse_cons.
  destruct (_ && _); [intros Hi; right; auto|]. intros [->|Hi]; [by left|right; auto].
Qed.

Lemma trim_dashes_In c l : In c (trim_dashes l) -> In c l.
Proof.
  unfold trim_dashes. rewrite <- in_rev. intros Hi.
  destruct (trim_left_suffix (rev (trim_left_dashes l))) as [k E].
  assert (In c (rev (trim_left_dashes l))) as Hj by (rewrite E; apply in_or_app; by right).
  apply in_rev in Hj. destruct (trim_left_suffix l) as [k' ->]. apply in_or_app. by right.
Qed.

(** ** Idempotence *)

Lemma handle_char_dash : handle_char dash = true.
Proof. reflexivity. Qed.

Lemma handle_char_byte c : handle_char c = true ->
  byte_val c = 45 \/ 48 <= byte_val c <= 57 \/ 97 <= byte_val c <= 122.
Proof. unfold handle_char. intros Hc. apply orb_true_iff in Hc as [Hc|Hc]; [apply orb_true_iff in Hc as [Hc|Hc]|]; b2p; lia. Qed.

(** No white space encoding begins or ends with a character of a handle. *)
Lemma spaces_not_handle c ps :
  ps = space_seqs \/ ps = map (@rev ascii) space_seqs ->
  handle_char c = true -> forall l, strip_any ps (c :: l) = None.
Proof.
  intros Hps Hc l.
  assert (forallb (fun p => match p with d :: _ => negb (handle_char d) | [] => false end) ps = true) as Hall
    by (destruct Hps as [-> | ->]; vm_compute; reflexivity).
  clear Hps. induction ps as [|p ps IH]; [done|]. cbn [forallb] in Hall.
  apply andb_true_iff in Hall as [Hp Hall]. destruct p as [|d r]; [done|].
  cbn [strip_any strip_prefix]. destruct (Ascii.eqb d c) eqn:E; [|by apply IH].
  apply Ascii.eqb_eq in E. subst. by rewrite Hc in Hp.
Qed.

Lemma trim_seqs_id fuel ps l :
  (forall c r, l = c :: r -> forall x, strip_any ps (c :: x) = None) -> (ps <> [] -> strip_any ps [] = None) ->
  trim_seqs fuel ps l = l.
Proof.
  intros Hc He. destruct fuel as [|fuel]; [done|]. cbn.
  destruct l as [|c r]; [|by rewrite (Hc c r eq_refl)].
  destruct ps as [|p ps]; [done|]. by rewrite He.
Qed.

Lemma trim_space_handle l : (forall c, In c l -> handle_char c = true) -> trim_space (of_bytes l) = of_bytes l.
Proof.
  intros Hl. unfold trim_space. rewrite bytes_of_bytes.
  rewrite (trim_seqs_id (length l) space_seqs l); [|intros c r -> x|reflexivity].
  2: { apply spaces_not_handle; [by left|]. apply Hl. by left. }
  rewrite trim_seqs_id; [by rewrite rev_involutive|intros c r E x|reflexivity].
  apply spaces_not_handle; [by right|]. apply Hl. apply in_rev. rewrite E. by left.
Qed.

Lemma to_lower_handle l : (forall c, In c l -> handle_char c = true) -> to_lower (of_bytes l) = of_bytes l.
Proof.
  intros Hl. unfold to_lower, is_ascii. rewrite bytes_of_bytes.
  assert (forallb (fun c => byte_val c <? 128) l = true) as ->.
  { apply forallb_forall. intros c Hc. apply Hl, handle_char_byte in Hc. apply Z.ltb_lt. lia. }
  f_equal. rewrite <- (map_id l) at 2. apply map_ext_in. intros c Hc. apply Hl, handle_char_byte in Hc.
  unfold ascii_lower. destruct (_ && _) eqn:E; [|done]. b2p. lia.
Qed.

(** A list of handle characters without double dashes and dashes at the ends. *)
Definition normal_form (l : list ascii) : Prop :=
  (forall c, In c l -> handle_char c = true) /\ no_double_dash l
  /\ head l <> Some dash /\ head (rev l) <> Some dash.

Lemma normalize_normal h : normal_form (bytes_of (NormalizeHandle h)).
Proof.
  unfold NormalizeHandle. destruct (String.eqb h "").
  { split_and!; try done. by intros [] ?. }
  cbn zeta. rewrite bytes_of_bytes. split_and!; try apply trim_dashes_ends.
  - intros c Hc. apply trim_dashes_In, collapse_In, in_map_iff in Hc as (d & <- & _).
    by destruct (handle_char d) eqn:E.
  - apply trim_dashes_no_double, collapse_no_double.
Qed.

Lemma normalize_fixed l : normal_form l -> NormalizeHandle (of_bytes l) = of_bytes l.
Proof.
  intros (Hc & Hn & H1 & H2). unfold NormalizeHandle.
  destruct (String.eqb (of_bytes l) "") eqn:E; [apply String.eqb_eq in E; by rewrite E|].
  rewrite to_lower_handle, trim_space_handle, bytes_of_bytes by done. f_equal.
  rewrite (map_ext_in _ id), map_id; [by rewrite collapse_id, trim_dashes_id|].
  intros c Hin. by rewrite Hc.
Qed.

Lemma normalize_idempotent h : NormalizeHandle (NormalizeHandle h) = NormalizeHandle h.
Proof.
  rewrite <- (of_bytes_of (NormalizeHandle h)) at 1. rewrite normalize_fixed by apply normalize_normal.
  apply of_bytes_of.
Qed.

End Handles.
