(* ===== verification/NodeModes.v ===== *)
(** * The control-mode handshake between an Agent and the Controller

    src/internal/agent/control_mode.go reports a node's mode, the heartbeat
    handler of src/internal/controller/agent.go normalises the report,
    src/internal/store/control_modes.go decides which mode the node should have
    next and under which mode generation, and the Agent applies the answer
    (ControlMode.v).  The report, its normalisation, the decision, its guards and
    the columns it writes are modelled; the recording of synchronization facts,
    takeovers, mode events and rebuild progress (Rebuilds.v) in the same transaction
    is not.  [durablePending] is the answer of the query for unfinished
    reconciliations of the node, [allowed] that of
    controllerRebuildAllowsOldCredentialLocked. *)

From Stdlib Require Import ZArith Lia Ascii String.
From stdpp Require Import base list gmap strings.
From S2P Require Import Prelude GoStrings Sha256 Protocol AgentState PeerWitness Ownership ControlMode Schema Handles.
#[local] Open Scope Z_scope.

(** ** The report, as the protocol carries it *)

Record IndependentSyncUser := {
  su_Handle : string;
  su_Marker : string;
  su_ChangedAt : Z;
  su_Reason : string
}.

Record IndependentTakeover := {
  it_OperationID : string;
  it_Handle : string;
  it_ParentClaimID : string;
  it_ClaimID : string;
  it_ControllerGeneration : Z;
  it_ActivityEpoch : Z;
  it_TakeoverSequence : Z;
  it_ConfirmedAt : Z
}.

Record NodeControlModeReport := {
  nr_Mode : string;
  nr_ModeGeneration : Z;
  nr_ControllerGeneration : Z;
  nr_ReasonCode : string;
  nr_ConsecutiveHeartbeatFails : Z;
  nr_ConsecutiveHealthProbeFails : Z;
  nr_ConsecutivePeerWitnessFails : Z;
  nr_OutageStartedAt : time;
  nr_ConfirmedOutageStartedAt : time;
  nr_LastControllerSuccessAt : time;
  nr_IndependentSince : time;
  nr_ActiveIndependentSessions : Z;
  nr_PendingUserSyncs : Z;
  nr_PendingUsers : list IndependentSyncUser;
  nr_ConfirmedTakeovers : list IndependentTakeover
}.

(** ** The report, as the store records it *)

Record IndependentSyncFact := {
  sf_Handle : string;
  sf_Marker : string;
  sf_ChangedAt : time;
  sf_Reason : string
}.

Record IndependentTakeoverFact := {
  tf_OperationID : string;
  tf_Handle : string;
  tf_ParentClaimID : string;
  tf_ClaimID : string;
  tf_ControllerGeneration : Z;
  tf_ActivityEpoch : Z;
  tf_TakeoverSequence : Z;
  tf_ConfirmedAt : time
}.

Record NodeControlModeFact := {
  nf_Mode : string;
  nf_ModeGeneration : Z;
  nf_ControllerGeneration : Z;
  nf_ReasonCode : string;
  nf_ConsecutiveHeartbeatFails : Z;
  nf_ConsecutiveHealthProbeFails : Z;
  nf_ConsecutivePeerWitnessFails : Z;
  nf_OutageStartedAt : time;
  nf_ConfirmedOutageStartedAt : time;
  nf_LastControllerSuccessAt : time;
  nf_IndependentSince : time;
  nf_ActiveIndependentSessions : Z;
  nf_PendingUserSyncs : Z;
  nf_PendingUsers : list IndependentSyncFact;
  nf_ConfirmedTakeovers : list IndependentTakeoverFact;
  nf_ObservedAt : time
}.

Record NodeControlModeDecision := {
  de_ControllerGeneration : Z;
  de_DesiredMode : string;
  de_ModeGeneration : Z
}.

Definition ErrStaleNodeControlMode : string := "stale node control mode generation".
Definition ErrStaleControllerMode : string := "node report belongs to stale controller generation".

Section NodeModes.
Context `{UnicodeTables}.

Definition validControlMode (mode : string) : bool :=
  bool_decide (mode ∈ [NodeModeManaged; NodeModeControllerUnreachable; NodeModeIndependent;
                       NodeModeIndependentDraining]).

Definition validSHA256Text (value : string) : bool :=
  if negb (slen value =? 64) || negb (String.eqb (to_lower value) value) then false
  else match hex_decode value with Some decoded => slen decoded =? 32 | None => false end.

(** [unicode.IsControl]: the code points below 32, 127, and 128 to 159, which
    UTF-8 encodes as the byte 194 and a byte below 160. *)
Fixpoint has_control (l : list ascii) : bool :=
  match l with
  | [] => false
  | c :: r =>
      (byte_val c <? 32) || (byte_val c =? 127)
      || match r with
         | c' :: _ => (byte_val c =? 194) && (128 <=? byte_val c') && (byte_val c' <? 160)
         | [] => false
         end
      || has_control r
  end.

Definition validControlModeHandle (value : string) : bool :=
  negb (String.eqb value "") && (slen value <=? 128) && String.eqb (to_lower value) value
  && String.eqb (trim_space value) value && negb (has_control (bytes_of value)).

(** [strings.ContainsAny(s, "\r\n")]. *)
Definition has_line_break (s : string) : bool :=
  existsb (fun c => (byte_val c =? 10) || (byte_val c =? 13)) (bytes_of s).

Fixpoint takeover_facts_ok (generation : Z) (observedAt : time) (ops claims : gset string)
  (l : list IndependentTakeoverFact) : bool :=
  match l with
  | [] => true
  | t :: l =>
      if negb (validUUIDText (tf_OperationID t)) || negb (validControlModeHandle (tf_Handle t))
         || negb (validSHA256Text (tf_ParentClaimID t)) || negb (validSHA256Text (tf_ClaimID t))
         || String.eqb (tf_ParentClaimID t) (tf_ClaimID t) || (tf_ControllerGeneration t <=? 0)
         || (generation <? tf_ControllerGeneration t) || (tf_ActivityEpoch t <=? 0)
         || (tf_TakeoverSequence t <=? 0) || is_zero (tf_ConfirmedAt t)
         || after (tf_ConfirmedAt t) (observedAt + Minute)
      then false
      else if bool_decide (tf_OperationID t ∈ ops) then false
      else if bool_decide (tf_ClaimID t ∈ claims) then false
      else takeover_facts_ok generation observedAt ({[tf_OperationID t]} ∪ ops)
             ({[tf_ClaimID t]} ∪ claims) l
  end.

Definition validNodeControlModeFact (fact : NodeControlModeFact) : bool :=
  if negb (validControlMode (nf_Mode fact)) || (nf_ModeGeneration fact <=? 0)
     || (nf_ControllerGeneration fact <=? 0) || (nf_ConsecutiveHeartbeatFails fact <? 0)
     || (nf_ConsecutiveHealthProbeFails fact <? 0) || (nf_ConsecutivePeerWitnessFails fact <? 0)
     || (nf_ActiveIndependentSessions fact <? 0) || (nf_PendingUserSyncs fact <? 0)
     || is_zero (nf_ObservedAt fact) || (128 <? slen (nf_ReasonCode fact))
     || has_line_break (nf_ReasonCode fact)
  then false
  else if negb (Z.of_nat (length (nf_PendingUsers fact)) =? nf_PendingUserSyncs fact)
          || (500 <? Z.of_nat (length (nf_PendingUsers fact)))
  then false
  else if 1000 <? Z.of_nat (length (nf_ConfirmedTakeovers fact)) then false
  else if negb (takeover_facts_ok (nf_ControllerGeneration fact) (nf_ObservedAt fact) ∅ ∅
                  (nf_ConfirmedTakeovers fact))
  then false
  else if existsb (fun t => negb (is_zero t) && after t (nf_ObservedAt fact + Minute))
            [nf_OutageStartedAt fact; nf_ConfirmedOutageStartedAt fact;
             nf_LastControllerSuccessAt fact; nf_IndependentSince fact]
  then false
  else if String.eqb (nf_Mode fact) NodeModeIndependent
          && (is_zero (nf_IndependentSince fact) || is_zero (nf_ConfirmedOutageStartedAt fact)
              || (nf_ConsecutivePeerWitnessFails fact <=? 0))
  then false
  else true.

Definition maxInt64 (left right : Z) : Z := if right <? left then left else right.

Definition nullableControlModeTime (value : time) : option time :=
  if is_zero value then None else Some value.

(** ** Normalisation in the heartbeat handler *)

Fixpoint normalizePendingUsers (now : time) (handles markers : gset string)
  (l : list IndependentSyncUser) : result (list IndependentSyncFact) :=
  match l with
  | [] => Ok []
  | u :: l =>
      let changedAt := of_unix_milli (su_ChangedAt u) in
      if negb (isValidHandle (su_Handle u))
         || negb (String.eqb (NormalizeHandle (su_Handle u)) (su_Handle u))
         || negb (validUUID (su_Marker u)) || (su_ChangedAt u <=? 0)
         || after changedAt (now + Minute) || String.eqb (su_Reason u) "" || (128 <? slen (su_Reason u))
         || negb (String.eqb (trim_space (su_Reason u)) (su_Reason u)) || has_line_break (su_Reason u)
      then Fail "invalid pending independent synchronization fact"
      else if bool_decide (su_Handle u ∈ handles)
      then Fail "duplicate pending independent synchronization handle"
      else if bool_decide (su_Marker u ∈ markers)
      then Fail "duplicate pending independent synchronization marker"
      else match normalizePendingUsers now ({[su_Handle u]} ∪ handles) ({[su_Marker u]} ∪ markers) l with
           | Ok facts => Ok ({| sf_Handle := su_Handle u; sf_Marker := su_Marker u;
                                sf_ChangedAt := changedAt; sf_Reason := su_Reason u |} :: facts)
           | Fail e => Fail e
           end
  end.

(** The takeover as the store records it. *)
Definition recorded_takeover (t : IndependentTakeover) : IndependentTakeoverFact :=
  {| tf_OperationID := it_OperationID t; tf_Handle := it_Handle t;
     tf_ParentClaimID := it_ParentClaimID t; tf_ClaimID := it_ClaimID t;
     tf_ControllerGeneration := it_ControllerGeneration t; tf_ActivityEpoch := it_ActivityEpoch t;
     tf_TakeoverSequence := it_TakeoverSequence t; tf_ConfirmedAt := of_unix_milli (it_ConfirmedAt t) |}.

Fixpoint normalizeTakeovers (generation : Z) (now : time) (ops claims : gset string)
  (l : list IndependentTakeover) : result (list IndependentTakeoverFact) :=
  match l with
  | [] => Ok []
  | t :: l =>
      if negb (validUUID (it_OperationID t)) || negb (isValidHandle (it_Handle t))
         || negb (String.eqb (NormalizeHandle (it_Handle t)) (it_Handle t))
         || negb (valid_sha256_hex (it_ParentClaimID t)) || negb (valid_sha256_hex (it_ClaimID t))
         || negb (String.eqb (to_lower (it_ParentClaimID t)) (it_ParentClaimID t))
         || negb (String.eqb (to_lower (it_ClaimID t)) (it_ClaimID t))
         || String.eqb (it_ParentClaimID t) (it_ClaimID t) || (it_ControllerGeneration t <=? 0)
         || (generation <? it_ControllerGeneration t) || (it_ActivityEpoch t <=? 0)
         || (it_TakeoverSequence t <=? 0) || (it_ConfirmedAt t <=? 0)
         || after (of_unix_milli (it_ConfirmedAt t)) (now + Minute)
      then Fail "invalid confirmed independent takeover"
      else if bool_decide (it_OperationID t ∈ ops)
      then Fail "duplicate confirmed independent takeover operation"
      else if bool_decide (it_ClaimID t ∈ claims)
      then Fail "duplicate confirmed independent takeover claim"
      else match normalizeTakeovers generation now ({[it_OperationID t]} ∪ ops)
                   ({[it_ClaimID t]} ∪ claims) l with
           | Ok facts => Ok (recorded_takeover t :: facts)
           | Fail e => Fail e
           end
  end.

Definition fact_of_report (report : NodeControlModeReport) (now : time)
  (users : list IndependentSyncFact) (takeovers : list IndependentTakeoverFact) : NodeControlModeFact :=
  {| nf_Mode := nr_Mode report; nf_ModeGeneration := nr_ModeGeneration report;
     nf_ControllerGeneration := nr_ControllerGeneration report; nf_ReasonCode := nr_ReasonCode report;
     nf_ConsecutiveHeartbeatFails := nr_ConsecutiveHeartbeatFails report;
     nf_ConsecutiveHealthProbeFails := nr_ConsecutiveHealthProbeFails report;
     nf_ConsecutivePeerWitnessFails := nr_ConsecutivePeerWitnessFails report;
     nf_OutageStartedAt := nr_OutageStartedAt report;
     nf_ConfirmedOutageStartedAt := nr_ConfirmedOutageStartedAt report;
     nf_LastControllerSuccessAt := nr_LastControllerSuccessAt report;
     nf_IndependentSince := nr_IndependentSince report;
     nf_ActiveIndependentSessions := nr_ActiveIndependentSessions report;
     nf_PendingUserSyncs := nr_PendingUserSyncs report; nf_PendingUsers := users;
     nf_ConfirmedTakeovers := takeovers; nf_ObservedAt := now |}.

Definition normalizeNodeControlMode (report : NodeControlModeReport) (now : time)
  : result NodeControlModeFact :=
  if negb (validControlMode (nr_Mode report)) then Fail "invalid node control mode"
  else if (nr_ModeGeneration report <=? 0) || (nr_ControllerGeneration report <=? 0)
     || (nr_ConsecutiveHeartbeatFails report <? 0) || (nr_ConsecutiveHealthProbeFails report <? 0)
     || (nr_ConsecutivePeerWitnessFails report <? 0) || (nr_ActiveIndependentSessions report <? 0)
     || (nr_PendingUserSyncs report <? 0) || (128 <? slen (nr_ReasonCode report))
     || has_line_break (nr_ReasonCode report)
  then Fail "invalid node control mode evidence"
  else if String.eqb (nr_Mode report) NodeModeIndependent
          && (is_zero (nr_IndependentSince report) || is_zero (nr_ConfirmedOutageStartedAt report)
              || (nr_ConsecutivePeerWitnessFails report <=? 0))
  then Fail "independent mode is missing activation time"
  else if negb (Z.of_nat (length (nr_PendingUsers report)) =? nr_PendingUserSyncs report)
          || (500 <? Z.of_nat (length (nr_PendingUsers report)))
  then Fail "pending independent synchronization count mismatch"
  else match normalizePendingUsers now ∅ ∅ (nr_PendingUsers report) with
       | Fail e => Fail e
       | Ok users =>
           if 1000 <? Z.of_nat (length (nr_ConfirmedTakeovers report))
           then Fail "too many confirmed independent takeovers"
           else match normalizeTakeovers (nr_ControllerGeneration report) now ∅ ∅
                        (nr_ConfirmedTakeovers report) with
                | Fail e => Fail e
                | Ok takeovers => Ok (fact_of_report report now users takeovers)
                end
       end.

(** ** The decision *)

Definition desired_mode (durablePending : bool) (fact : NodeControlModeFact) : string :=
  if String.eqb (nf_Mode fact) NodeModeControllerUnreachable then NodeModeManaged
  else if String.eqb (nf_Mode fact) NodeModeIndependent then NodeModeIndependentDraining
  else if String.eqb (nf_Mode fact) NodeModeIndependentDraining then
    if (nf_ActiveIndependentSessions fact =? 0) && (nf_PendingUserSyncs fact =? 0)
       && negb durablePending
    then NodeModeManaged else nf_Mode fact
  else nf_Mode fact.

Definition desired_generation (current : NodeControl) (fact : NodeControlModeFact) (desired : string) : Z :=
  if String.eqb desired (nf_Mode fact) then nf_ModeGeneration fact
  else if String.eqb (nc_ControlMode current) (nf_Mode fact)
          && (nc_ControlModeGeneration current =? nf_ModeGeneration fact)
          && String.eqb (nc_DesiredControlMode current) desired
          && (nf_ModeGeneration fact <? nc_DesiredModeGeneration current)
  then nc_DesiredModeGeneration current
  else wrap64 (maxInt64 (nf_ModeGeneration fact) (nc_DesiredModeGeneration current) + 1).

(** The control-mode columns the update writes; the reason is NULL when empty.  The
    update also sets controller_generation to the active generation. *)
Definition reconciled_columns (fact : NodeControlModeFact) (desired : string) (generation : Z) : NodeControl :=
  {| nc_ControlMode := nf_Mode fact; nc_ControlModeGeneration := nf_ModeGeneration fact;
     nc_DesiredControlMode := desired; nc_DesiredModeGeneration := generation;
     nc_ReasonCode := if String.eqb (nf_ReasonCode fact) "" then None else Some (nf_ReasonCode fact);
     nc_ChangedAt := nf_ObservedAt fact;
     nc_OutageStartedAt := nullableControlModeTime (nf_OutageStartedAt fact);
     nc_LastControllerSuccessAt := nullableControlModeTime (nf_LastControllerSuccessAt fact);
     nc_IndependentSince := nullableControlModeTime (nf_IndependentSince fact);
     nc_HeartbeatFailures := nf_ConsecutiveHeartbeatFails fact;
     nc_HealthProbeFailures := nf_ConsecutiveHealthProbeFails fact;
     nc_ActiveIndependentSessions := nf_ActiveIndependentSessions fact;
     nc_PendingIndependentSyncs := nf_PendingUserSyncs fact;
     nc_ConfirmedOutageStartedAt := nullableControlModeTime (nf_ConfirmedOutageStartedAt fact);
     nc_PeerWitnessFailures := nf_ConsecutivePeerWitnessFails fact |}.

(** The decision of reconcileNodeControlModeAuthenticated and the control-mode
    columns after it. *)
Definition reconcileControlMode (nodeID : Z) (fact : NodeControlModeFact) (authenticated : Z)
  (role : string) (current : NodeControl) (activeGeneration : Z) (allowed durablePending : bool)
  : result (NodeControlModeDecision * NodeControl) :=
  if (nodeID <=? 0) || negb (validNodeControlModeFact fact) then Fail "invalid node control mode fact"
  else if authenticated <=? 0 then Fail ErrStaleControllerMode
  else if (activeGeneration <? authenticated) || (activeGeneration <? nf_ControllerGeneration fact)
  then Fail ErrStaleControllerMode
  else if (authenticated =? activeGeneration) && negb (nf_ControllerGeneration fact =? activeGeneration)
  then Fail ErrStaleControllerMode
  else if negb (authenticated =? activeGeneration)
          && (negb allowed || (nf_ControllerGeneration fact <? authenticated))
  then Fail ErrStaleControllerMode
  else if negb (authenticated =? activeGeneration) then
    Ok ({| de_ControllerGeneration := activeGeneration; de_DesiredMode := nf_Mode fact;
           de_ModeGeneration := nf_ModeGeneration fact |}, current)
  else if (nf_ModeGeneration fact <? nc_ControlModeGeneration current)
          || ((nf_ModeGeneration fact =? nc_ControlModeGeneration current)
              && negb (String.eqb (nf_Mode fact) (nc_ControlMode current)))
  then Fail ErrStaleNodeControlMode
  else if negb (String.eqb role "compute")
          && (String.eqb (nf_Mode fact) NodeModeIndependent
              || String.eqb (nf_Mode fact) NodeModeIndependentDraining)
  then Fail "storage node cannot enter independent mode"
  else
    let desired := desired_mode durablePending fact in
    let generation := desired_generation current fact desired in
    Ok ({| de_ControllerGeneration := activeGeneration; de_DesiredMode := desired;
           de_ModeGeneration := generation |},
        reconciled_columns fact desired generation).

(** ** The Agent's side *)

Definition reported_takeover (o : ownershipTakeoverOperation) : IndependentTakeover :=
  {| it_OperationID := to_OperationID o; it_Handle := cl_Handle (to_Claim o);
     it_ParentClaimID := to_ParentClaimID o; it_ClaimID := cl_ClaimID (to_Claim o);
     it_ControllerGeneration := cl_ControllerGeneration (to_Claim o);
     it_ActivityEpoch := cl_ActivityEpoch (to_Claim o);
     it_TakeoverSequence := cl_TakeoverSequence (to_Claim o); it_ConfirmedAt := to_UpdatedAt o |}.

(** [pendingUsers] is the field PendingIndependentUsers of the Agent's state.  Go
    ranges over the takeover journal in any order; here it is that of the map. *)
Definition controlModeReport (pendingUsers : list IndependentSyncUser) (a : Agent) : NodeControlModeReport :=
  let s := rs_ControlMode (ag_state a) in
  {| nr_Mode := cm_Mode s; nr_ModeGeneration := cm_ModeGeneration s;
     nr_ControllerGeneration := rs_HighestGeneration (ag_state a); nr_ReasonCode := cm_ReasonCode s;
     nr_ConsecutiveHeartbeatFails := cm_ConsecutiveHeartbeatFails s;
     nr_ConsecutiveHealthProbeFails := cm_ConsecutiveHealthProbeFails s;
     nr_ConsecutivePeerWitnessFails := cm_ConsecutivePeerWitnessFails s;
     nr_OutageStartedAt := cm_OutageStartedAt s;
     nr_ConfirmedOutageStartedAt := cm_ConfirmedOutageStartedAt s;
     nr_LastControllerSuccessAt := cm_LastControllerSuccessAt s;
     nr_IndependentSince := cm_IndependentSince s;
     nr_ActiveIndependentSessions := cm_ActiveIndependentSessions s;
     nr_PendingUserSyncs := cm_PendingUserSyncs s; nr_PendingUsers := pendingUsers;
     nr_ConfirmedTakeovers :=
       map reported_takeover
         (List.filter (fun o => to_Succeeded o && to_Audited o)
            (map snd (map_to_list (rs_OwnershipTakeovers (ag_state a))))) |}.

(** ** The answer *)

Definition durableTakeoverAcknowledgements (takeovers : list IndependentTakeover)
  (durablyRecorded : bool) : list string :=
  if negb durablyRecorded then [] else map it_OperationID takeovers.

(** The part of the heartbeat answer that concerns modes; [confirmedAt] and
    [leases] are the activity confirmations it carries. *)
Definition heartbeat_answer (report : NodeControlModeReport) (d : NodeControlModeDecision)
  (authenticated : Z) (confirmedAt : Z) (leases : list ActivityLeaseConfirmation) : HeartbeatResponse :=
  {| hr_ControllerGeneration := de_ControllerGeneration d; hr_DesiredMode := de_DesiredMode d;
     hr_ModeGeneration := de_ModeGeneration d;
     hr_AcknowledgedTakeoverOperations :=
       durableTakeoverAcknowledgements (nr_ConfirmedTakeovers report)
         (authenticated =? de_ControllerGeneration d);
     hr_ActivityLeaseConfirmedAt := confirmedAt; hr_ActivityLeaseConfirmations := leases |}.

(** The mode part of handleAgentHeartbeat: normalise, decide, answer. *)
Definition heartbeatMode (nodeID : Z) (report : NodeControlModeReport) (now : time) (authenticated : Z)
  (role : string) (current : NodeControl) (activeGeneration : Z) (allowed durablePending : bool)
  (confirmedAt : Z) (leases : list ActivityLeaseConfirmation) : result (HeartbeatResponse * NodeControl) :=
  match normalizeNodeControlMode report now with
  | Fail e => Fail e
  | Ok fact =>
      match reconcileControlMode nodeID fact authenticated role current activeGeneration allowed
              durablePending with
      | Fail e => Fail e
      | Ok (decision, columns) =>
          Ok (heartbeat_answer report decision authenticated confirmedAt leases, columns)
      end
  end.

(** ** What a decision guarantees *)

Lemma desired_mode_valid durable fact :
  validControlMode (nf_Mode fact) = true -> validNodeControlMode (desired_mode durable fact) = true.
Proof.
  unfold validControlMode, desired_mode, validNodeControlMode. intros Hv.
  apply bool_decide_eq_true in Hv. set_unfold in Hv.
  destruct Hv as [Hv|[Hv|[Hv|[Hv|[]]]]]; rewrite Hv; cbn; try done. by destruct (_ && _ && _).
Qed.

Lemma desired_generation_facts current fact desired :
  0 < nf_ModeGeneration fact < MaxInt64 -> nc_DesiredModeGeneration current < MaxInt64 ->
  nf_ModeGeneration fact <= desired_generation current fact desired
  /\ (nf_ModeGeneration fact = desired_generation current fact desired -> desired = nf_Mode fact).
Proof.
  intros Hf Hc. unfold desired_generation. destruct (String.eqb desired (nf_Mode fact)) eqn:E.
  { b2p. split; [lia|done]. }
  destruct (_ && (nf_ModeGeneration fact <? nc_DesiredModeGeneration current)) eqn:E2.
  { b2p. split; [lia|intros; exfalso; lia]. }
  clear E2. unfold maxInt64. rewrite wrap64_id.
  - destruct (_ <? _) eqn:E3; b2p; (split; [lia|intros; exfalso; lia]).
  - unfold int64, MinInt64, MaxInt64 in *. destruct (_ <? _) eqn:E3; b2p; lia.
Qed.

(** The takeovers of a valid report may be acknowledged as they are. *)
Lemma acknowledgements_accepted g t ops claims l :
  takeover_facts_ok g t ops claims l = true ->
  exists seen, checkAcknowledgements ops (map tf_OperationID l) = Ok seen.
Proof.
  revert ops claims. induction l as [|x l IH]; intros ops claims; cbn; [by eexists|].
  match goal with |- (if ?b then _ else _) = _ -> _ => destruct b eqn:E; [done|] end.
  do 10 (apply orb_false_iff in E as [E _]).
  change (validUUIDText (tf_OperationID x)) with (validUUID (tf_OperationID x)) in E. rewrite E.
  destruct (bool_decide (tf_OperationID x ∈ ops)); [done|].
  destruct (bool_decide (tf_ClaimID x ∈ claims)); [done|]. apply IH.
Qed.

(** The guards of the Controller, for a node with a current credential. *)
Lemma reconcile_current nodeID fact role current active allowed durable dec cols :
  reconcileControlMode nodeID fact active role current active allowed durable = Ok (dec, cols) ->
  validNodeControlModeFact fact = true /\ 0 < active /\ nf_ControllerGeneration fact = active
  /\ dec = {| de_ControllerGeneration := active; de_DesiredMode := desired_mode durable fact;
              de_ModeGeneration := desired_generation current fact (desired_mode durable fact) |}
  /\ cols = reconciled_columns fact (desired_mode durable fact)
              (desired_generation current fact (desired_mode durable fact)).
Proof.
  unfold reconcileControlMode. rewrite Z.eqb_refl. cbn [negb andb].
  guards.
  intros [= <- <-]. b2p. auto.
Qed.

Lemma valid_fact_basics fact :
  validNodeControlModeFact fact = true ->
  validControlMode (nf_Mode fact) = true /\ 0 < nf_ModeGeneration fact
  /\ (length (nf_ConfirmedTakeovers fact) <= 1000)%nat
  /\ takeover_facts_ok (nf_ControllerGeneration fact) (nf_ObservedAt fact) ∅ ∅
       (nf_ConfirmedTakeovers fact) = true.
Proof.
  unfold validNodeControlModeFact. intros Hv.
  guards_in Hv. clear Hv G4 G3. do 9 (apply orb_false_iff in G as [G _]). b2p. split_and!; [done|lia|lia|done].
Qed.

(** An answer for the generation, at or after the mode generation, that keeps the
    draining rule is applied. *)
Lemma success_applied clock now response a desired seen a1 :
  desired = hr_DesiredMode response ->
  hr_ControllerGeneration response = rs_HighestGeneration (ag_state a) ->
  0 < hr_ControllerGeneration response ->
  validNodeControlMode desired = true -> 0 < hr_ModeGeneration response ->
  (length (hr_AcknowledgedTakeoverOperations response) <= maxOwnershipTakeovers)%nat ->
  checkAcknowledgements ∅ (hr_AcknowledgedTakeoverOperations response) = Ok seen ->
  cm_ModeGeneration (mode_of a) <= hr_ModeGeneration response ->
  (hr_ModeGeneration response = cm_ModeGeneration (mode_of a) -> desired = cm_Mode (mode_of a)) ->
  (desired = NodeModeManaged -> cm_Mode (mode_of a) <> NodeModeIndependent) ->
  (desired = NodeModeManaged -> cm_Mode (mode_of a) = NodeModeIndependentDraining ->
   cm_ActiveIndependentSessions (mode_of a) <= 0 /\ cm_PendingUserSyncs (mode_of a) <= 0) ->
  recordActivityLeaseConfirmations clock now response a = (Ok tt, a1) ->
  recordControllerSuccess true true clock now response a
  = saveRuntimeStateLocked true
      (set_mode (with_state a1 (with_OwnershipTakeovers (ag_state a1)
                  (drop_acknowledged seen (rs_OwnershipTakeovers (ag_state a1)))))
         (success_state now response desired (mode_of a))).
Proof.
  intros -> Hg Hpos Hmode Hmg Hlen Hack Hle Heq Hind Hdrain Hrec.
  unfold recordControllerSuccess. rewrite (proj2 (Z.leb_gt _ _) Hpos).
  unfold acceptGeneration. rewrite <- Hg, Z.ltb_irrefl. cbn [negb].
  rewrite Hmode, (proj2 (Z.leb_gt _ _) Hmg). cbn [negb orb].
  rewrite (proj2 (Nat.ltb_ge _ _) Hlen), Hack.
  change (rs_ControlMode (ag_state a)) with (mode_of a).
  rewrite (proj2 (Z.ltb_ge _ _) Hle).
  assert (String.eqb (cm_Mode (mode_of a)) NodeModeIndependent
          && String.eqb (hr_DesiredMode response) NodeModeManaged = false) as ->.
  { apply andb_false_iff. destruct (String.eqb (hr_DesiredMode response) NodeModeManaged) eqn:E; [left|by right].
    b2p. by apply String.eqb_neq, Hind. }
  match goal with |- (if ?b then _ else _) = _ => assert (b = false) as -> end.
  { apply not_true_is_false. intros Hb. b2p. destruct (Hdrain ltac:(done) ltac:(done)) as [Hs Hp].
    match goal with Ho : _ || _ = true |- _ => apply orb_true_iff in Ho as [Ho|Ho]; apply Z.ltb_lt in Ho; lia end. }
  match goal with |- (if ?b then _ else _) = _ => assert (b = false) as -> end.
  { apply not_true_is_false. intros Hb. b2p. auto. }
  rewrite Hrec. f_equal. f_equal. f_equal.
  destruct (record_leases_state clock now response a) as [Hm _]. by rewrite Hrec in Hm.
Qed.

Lemma saved_mode a s : mode_of (snd (saveRuntimeStateLocked true (set_mode a s))) = s.
Proof. done. Qed.

Lemma normalize_takeovers_ids g now ops claims l facts :
  normalizeTakeovers g now ops claims l = Ok facts -> map tf_OperationID facts = map it_OperationID l.
Proof.
  revert ops claims facts. induction l as [|t l IH]; intros ops claims facts; cbn [normalizeTakeovers].
  { by intros [= <-]. }
  guards.
  destruct (normalizeTakeovers _ _ _ _ l) as [fs|] eqn:E; [|done].
  intros [= <-]. cbn. f_equal. by eapply IH.
Qed.

(** Normalisation copies the report. *)
Lemma normalized_fact report now fact :
  normalizeNodeControlMode report now = Ok fact ->
  exists users takeovers, fact = fact_of_report report now users takeovers
    /\ map tf_OperationID takeovers = map it_OperationID (nr_ConfirmedTakeovers report).
Proof.
  unfold normalizeNodeControlMode.
  guards.
  destruct (normalizePendingUsers _ _ _ _) as [users|]; [|done]. destruct (1000 <? _); [done|].
  destruct (normalizeTakeovers _ _ _ _ _) as [tks|] eqn:E; [|done].
  intros [= <-]. exists users, tks. split; [done|]. by eapply normalize_takeovers_ids.
Qed.

(** An answered heartbeat under a current credential. *)
Lemma heartbeat_current nodeID report now role current active allowed durable confirmedAt leases answer cols :
  heartbeatMode nodeID report now active role current active allowed durable confirmedAt leases
    = Ok (answer, cols) ->
  exists users takeovers (fact := fact_of_report report now users takeovers)
         (desired := desired_mode durable fact),
    validNodeControlModeFact fact = true /\ 0 < active /\ nr_ControllerGeneration report = active
    /\ answer = {| hr_ControllerGeneration := active; hr_DesiredMode := desired;
                   hr_ModeGeneration := desired_generation current fact desired;
                   hr_AcknowledgedTakeoverOperations := map tf_OperationID takeovers;
                   hr_ActivityLeaseConfirmedAt := confirmedAt; hr_ActivityLeaseConfirmations := leases |}
    /\ cols = reconciled_columns fact desired (desired_generation current fact desired).
Proof.
  unfold heartbeatMode. destruct (normalizeNodeControlMode report now) as [fact|] eqn:En; [|done].
  destruct (normalized_fact _ _ _ En) as (users & tks & -> & Hids).
  destruct (reconcileControlMode _ _ _ _ _ _ _ _) as [[dec c]|] eqn:Er; [|done].
  destruct (reconcile_current _ _ _ _ _ _ _ _ _ Er) as (Hv & Hpos & Hgen & -> & ->).
  intros [= <- <-]. exists users, tks. cbn zeta. split; [done|]. split; [done|]. split; [done|].
  split; [|done]. unfold heartbeat_answer, durableTakeoverAcknowledgements. cbn [de_ControllerGeneration].
  by rewrite Z.eqb_refl, Hids.
Qed.

(** Agent and Controller agree on the next mode.  When the Controller answers
    the heartbeat of an Agent with a current credential, the Agent accepts the
    answer: no generation, acknowledgement or draining check rejects it, its mode
    becomes the desired one under the decided mode generation, and its next report
    cannot be stale for the row the Controller wrote.  The mode generations must
    be below the 64 bit maximum, the state must be saved and the activity
    confirmations in the answer accepted. *)
Theorem handshake_accepted nodeID a pending now role current active allowed durable clock anow confirmedAt
  leases answer cols :
  heartbeatMode nodeID (controlModeReport pending a) now active role current active allowed durable
    confirmedAt leases = Ok (answer, cols) ->
  cm_ModeGeneration (mode_of a) < MaxInt64 -> nc_DesiredModeGeneration current < MaxInt64 ->
  fst (recordActivityLeaseConfirmations clock anow answer a) = Ok tt ->
  exists a', recordControllerSuccess true true clock anow answer a = (Ok tt, a')
    /\ cm_Mode (mode_of a') = hr_DesiredMode answer
    /\ cm_ModeGeneration (mode_of a') = hr_ModeGeneration answer
    /\ nc_ControlModeGeneration cols <= cm_ModeGeneration (mode_of a')
    /\ (nc_ControlModeGeneration cols = cm_ModeGeneration (mode_of a') ->
        nc_ControlMode cols = cm_Mode (mode_of a')).
Proof.
  intros Hr Hmax Hdmax Hconf.
  destruct (heartbeat_current _ _ _ _ _ _ _ _ _ _ _ _ Hr) as (users & tks & Hv & Hpos & Hgen & Ea & ->).
  set (fact := fact_of_report (controlModeReport pending a) now users tks) in *.
  destruct (valid_fact_basics _ Hv) as (Hmode & Hmg & Hlen & Htake).
  destruct (desired_generation_facts current fact (desired_mode durable fact)) as [Hge Heq]; [split; done|done|].
  destruct (acknowledgements_accepted _ _ _ _ _ Htake) as [seen Hseen].
  destruct (recordActivityLeaseConfirmations clock anow answer a) as [e a1] eqn:Hrec. cbn in Hconf. subst e.
  set (desired := desired_mode durable fact) in *.
  assert (recordControllerSuccess true true clock anow answer a
    = saveRuntimeStateLocked true
      (set_mode (with_state a1 (with_OwnershipTakeovers (ag_state a1)
                  (drop_acknowledged seen (rs_OwnershipTakeovers (ag_state a1)))))
         (success_state anow answer desired (mode_of a)))) as ->.
  { apply success_applied; try exact Hrec; subst answer; cbn; try done.
    - by apply desired_mode_valid.
    - lia.
    - rewrite length_map. unfold maxOwnershipTakeovers. exact Hlen.
    - intros E. by apply Heq.
    - unfold desired, desired_mode. intros Hd Hi. change (nf_Mode fact) with (cm_Mode (mode_of a)) in Hd.
      by rewrite Hi in Hd.
    - unfold desired, desired_mode. intros Hd Hi. change (nf_Mode fact) with (cm_Mode (mode_of a)) in Hd.
      rewrite Hi in Hd. cbn in Hd. destruct (_ && _ && _) eqn:E in Hd; [|done]. b2p.
      cbn in *. unfold mode_of. lia. }
  match goal with |- exists a', ?x = _ /\ _ => exists (snd x) end.
  split; [done|]. rewrite saved_mode.
  assert (cm_ModeGeneration (success_state anow answer desired (mode_of a)) = hr_ModeGeneration answer) as Hfin.
  { cbn. destruct (String.eqb desired (cm_Mode (mode_of a))) eqn:E; [|done]. b2p. subst answer. cbn.
    unfold desired_generation. change (nf_Mode fact) with (cm_Mode (mode_of a)).
    by rewrite E, String.eqb_refl. }
  rewrite Hfin. subst answer. split; [done|]. split; [done|]. split; [exact Hge|].
  intros E. symmetry. by apply Heq.
Qed.

(** ** Recovery *)

(** One heartbeat that reaches the Controller at [now] and whose answer the Agent
    handles at [anow]. *)
Definition exchange (nodeID : Z) (role : string) (active : Z) (durablePending : bool) (now anow : time)
  (st : Agent * NodeControl) : option (Agent * NodeControl) :=
  let '(a, current) := st in
  match heartbeatMode nodeID (controlModeReport [] a) now active role current active false
          durablePending 0 [] with
  | Fail _ => None
  | Ok (answer, cols) =>
      match recordControllerSuccess true true anow anow answer a with
      | (Ok _, a') => Some (a', cols)
      | (Fail _, _) => None
      end
  end.

(** The Agent has no disaster session, nothing to synchronize and no takeover to
    report, and its evidence is that of its mode. *)
Record quiet (a : Agent) (t : time) : Prop := {
  qu_time : 0 < t;
  qu_mode : validControlMode (cm_Mode (mode_of a)) = true;
  qu_gen : 0 < cm_ModeGeneration (mode_of a);
  qu_fails : 0 <= cm_ConsecutiveHeartbeatFails (mode_of a)
    /\ 0 <= cm_ConsecutiveHealthProbeFails (mode_of a) /\ 0 <= cm_ConsecutivePeerWitnessFails (mode_of a);
  qu_reason : slen (cm_ReasonCode (mode_of a)) <= 128 /\ has_line_break (cm_ReasonCode (mode_of a)) = false;
  qu_sessions : cm_ActiveIndependentSessions (mode_of a) = 0;
  qu_pending : cm_PendingUserSyncs (mode_of a) = 0;
  qu_takeovers : List.filter (fun o => to_Succeeded o && to_Audited o)
                   (map snd (map_to_list (rs_OwnershipTakeovers (ag_state a)))) = [];
  qu_times : cm_OutageStartedAt (mode_of a) <= t + Minute
    /\ cm_ConfirmedOutageStartedAt (mode_of a) <= t + Minute
    /\ cm_LastControllerSuccessAt (mode_of a) <= t + Minute /\ cm_IndependentSince (mode_of a) <= t + Minute;
  qu_evidence : cm_Mode (mode_of a) = NodeModeIndependent ->
    cm_IndependentSince (mode_of a) <> 0 /\ cm_ConfirmedOutageStartedAt (mode_of a) <> 0
    /\ 0 < cm_ConsecutivePeerWitnessFails (mode_of a)
}.

Lemma valid_fact_intro fact :
  validControlMode (nf_Mode fact) = true -> 0 < nf_ModeGeneration fact ->
  0 < nf_ControllerGeneration fact -> 0 <= nf_ConsecutiveHeartbeatFails fact ->
  0 <= nf_ConsecutiveHealthProbeFails fact -> 0 <= nf_ConsecutivePeerWitnessFails fact ->
  slen (nf_ReasonCode fact) <= 128 -> has_line_break (nf_ReasonCode fact) = false ->
  nf_ActiveIndependentSessions fact = 0 -> nf_PendingUserSyncs fact = 0 ->
  nf_PendingUsers fact = [] -> nf_ConfirmedTakeovers fact = [] -> 0 < nf_ObservedAt fact ->
  Forall (fun t => t <= nf_ObservedAt fact + Minute)
    [nf_OutageStartedAt fact; nf_ConfirmedOutageStartedAt fact;
     nf_LastControllerSuccessAt fact; nf_IndependentSince fact] ->
  (nf_Mode fact = NodeModeIndependent ->
   nf_IndependentSince fact <> 0 /\ nf_ConfirmedOutageStartedAt fact <> 0
   /\ 0 < nf_ConsecutivePeerWitnessFails fact) ->
  validNodeControlModeFact fact = true.
Proof.
  intros Hm Hg Hh Hf1 Hf2 Hf3 Hr1 Hr2 Hs Hp Hpu Hto Ht Htimes Hev.
  unfold validNodeControlModeFact, is_zero. rewrite Hm, Hr2, Hs, Hp, Hpu, Hto.
  rewrite (proj2 (Z.eqb_neq (nf_ObservedAt fact) 0)) by lia.
  rewrite (proj2 (Z.leb_gt _ _) Hg), (proj2 (Z.leb_gt _ _) Hh).
  rewrite (proj2 (Z.ltb_ge _ _) Hf1), (proj2 (Z.ltb_ge _ _) Hf2), (proj2 (Z.ltb_ge _ _) Hf3).
  rewrite (proj2 (Z.ltb_ge _ _) Hr1). cbn [negb orb Z.ltb Z.compare length Z.of_nat Z.eqb takeover_facts_ok].
  match goal with |- context [existsb ?f ?l] => assert (existsb f l = false) as -> end.
  { apply not_true_is_false. intros Hx. apply existsb_exists in Hx as (x & Hin & Hx).
    apply list_elem_of_In in Hin. rewrite Forall_forall in Htimes. specialize (Htimes _ Hin).
    unfold after in Hx. b2p. lia. }
  destruct (String.eqb (nf_Mode fact) NodeModeIndependent) eqn:E; [|done].
  b2p. destruct (Hev E) as (He1 & He2 & He3).
  rewrite (proj2 (Z.eqb_neq _ _) He1), (proj2 (Z.eqb_neq _ _) He2), (proj2 (Z.leb_gt _ _) He3). done.
Qed.

Definition quiet_fact (a : Agent) (t : time) : NodeControlModeFact :=
  fact_of_report (controlModeReport [] a) t [] [].

Lemma quiet_report_valid a t :
  quiet a t -> 0 < rs_HighestGeneration (ag_state a) ->
  validNodeControlModeFact (quiet_fact a t) = true.
Proof.
  intros [Ht Hm Hg (Hf1 & Hf2 & Hf3) [Hr1 Hr2] Hs Hp Hto (Ht1 & Ht2 & Ht3 & Ht4) Hev] Hh.
  apply valid_fact_intro; try done.
  repeat (apply Forall_cons; split; [done|]). apply Forall_nil_2.
Qed.

Lemma quiet_normalized a t :
  quiet a t -> 0 < rs_HighestGeneration (ag_state a) ->
  normalizeNodeControlMode (controlModeReport [] a) t = Ok (quiet_fact a t).
Proof.
  intros [Ht Hm Hg (Hf1 & Hf2 & Hf3) [Hr1 Hr2] Hs Hp Hto _ Hev] Hh.
  unfold normalizeNodeControlMode, controlModeReport, is_zero.
  cbn [nr_Mode nr_ModeGeneration nr_ControllerGeneration nr_ReasonCode nr_ConsecutiveHeartbeatFails
       nr_ConsecutiveHealthProbeFails nr_ConsecutivePeerWitnessFails nr_IndependentSince
       nr_ConfirmedOutageStartedAt nr_ActiveIndependentSessions nr_PendingUserSyncs nr_PendingUsers
       nr_ConfirmedTakeovers].
  change (rs_ControlMode (ag_state a)) with (mode_of a). rewrite Hto, Hm, Hs, Hp, Hr2.
  rewrite (proj2 (Z.leb_gt _ _) Hg), (proj2 (Z.leb_gt _ _) Hh).
  rewrite (proj2 (Z.ltb_ge _ _) Hf1), (proj2 (Z.ltb_ge _ _) Hf2), (proj2 (Z.ltb_ge _ _) Hf3).
  rewrite (proj2 (Z.ltb_ge _ _) Hr1).
  match goal with |- context [?x && (?y || ?z || ?w)] => assert (x && (y || z || w) = false) as -> end.
  { apply not_true_is_false. intros Hb. b2p. destruct (Hev ltac:(done)) as (? & ? & ?).
    match goal with Ho : _ || _ = true |- _ => repeat (apply orb_true_iff in Ho as [Ho|Ho]); b2p; lia end. }
  cbn. unfold quiet_fact, fact_of_report, controlModeReport. cbn.
  change (rs_ControlMode (ag_state a)) with (mode_of a). by rewrite Hs, Hp.
Qed.

(** Where a quiet node goes. *)
Definition next_mode (mode : string) : string :=
  if String.eqb mode NodeModeIndependent then NodeModeIndependentDraining else NodeModeManaged.

Definition in_step (current : NodeControl) (a : Agent) (bound : Z) : Prop :=
  nc_ControlModeGeneration current <= cm_ModeGeneration (mode_of a) <= bound
  /\ (nc_ControlModeGeneration current = cm_ModeGeneration (mode_of a) ->
      nc_ControlMode current = cm_Mode (mode_of a))
  /\ nc_DesiredModeGeneration current <= bound.

Lemma next_mode_desired a t :
  quiet a t -> desired_mode false (quiet_fact a t) = next_mode (cm_Mode (mode_of a)).
Proof.
  intros Hq. pose proof (qu_mode _ _ Hq) as Hm. unfold desired_mode, next_mode. cbn.
  change (rs_ControlMode (ag_state a)) with (mode_of a).
  rewrite (qu_sessions _ _ Hq), (qu_pending _ _ Hq). cbn.
  unfold validControlMode in Hm. apply bool_decide_eq_true in Hm. set_unfold in Hm.
  destruct Hm as [->|[->|[->|[->|[]]]]]; done.
Qed.

Lemma desired_generation_bound current fact desired B :
  0 < nf_ModeGeneration fact <= B -> nc_DesiredModeGeneration current <= B -> B < MaxInt64 ->
  desired_generation current fact desired <= B + 1.
Proof.
  intros Hf Hc HB. unfold desired_generation. destruct (String.eqb desired (nf_Mode fact)); [lia|].
  destruct (_ && _); [lia|]. unfold maxInt64. rewrite wrap64_id.
  - destruct (_ <? _); lia.
  - unfold int64, MinInt64, MaxInt64 in *. destruct (_ <? _) eqn:E; b2p; lia.
Qed.

Lemma drop_nothing j : drop_acknowledged ∅ j = j.
Proof. apply map_filter_id. intros k o _ [Hk _]. set_solver. Qed.

(** The state after a success keeps a quiet Agent quiet. *)
Lemma quiet_success now anow answer a a' t :
  quiet a now -> now <= t -> anow <= t + Minute ->
  mode_of a' = success_state anow answer (next_mode (cm_Mode (mode_of a))) (mode_of a) ->
  rs_OwnershipTakeovers (ag_state a') = rs_OwnershipTakeovers (ag_state a) ->
  0 < hr_ModeGeneration answer -> quiet a' t.
Proof.
  intros [Ht Hm Hg Hf Hr Hs Hp Hto (_ & _ & _ & Ht4) _] Hle Hale Ea' Eto Hmg.
  assert (cm_Mode (mode_of a') = next_mode (cm_Mode (mode_of a))) as Em by (by rewrite Ea').
  constructor; rewrite ?Eto; try done; rewrite ?Em; rewrite ?Ea'.
  - lia.
  - unfold next_mode, validControlMode. destruct (String.eqb _ _); apply bool_decide_eq_true; set_solver.
  - cbn. destruct (negb _); done.
  - cbn. lia.
  - cbn. destruct (negb _ && _); [done|]. by destruct (negb _ && _).
  - done.
  - done.
  - assert (0 < Minute) by done. cbn. destruct (negb _ && _); split_and!; lia.
  - unfold next_mode. by destruct (String.eqb _ _).
Qed.

(** The Controller's answer to a quiet Agent. *)
Definition quiet_answer (active : Z) (desired : string) (generation : Z) : HeartbeatResponse :=
  {| hr_ControllerGeneration := active; hr_DesiredMode := desired; hr_ModeGeneration := generation;
     hr_AcknowledgedTakeoverOperations := []; hr_ActivityLeaseConfirmedAt := 0;
     hr_ActivityLeaseConfirmations := [] |}.

Lemma heartbeat_quiet nodeID active now a current B
  (fact := quiet_fact a now) (desired := next_mode (cm_Mode (mode_of a))) :
  0 < nodeID -> quiet a now -> rs_HighestGeneration (ag_state a) = active -> 0 < active ->
  in_step current a B ->
  heartbeatMode nodeID (controlModeReport [] a) now active "compute" current active false false 0 []
  = Ok (quiet_answer active desired (desired_generation current fact desired),
        reconciled_columns fact desired (desired_generation current fact desired)).
Proof.
  intros Hid Hq Hh Hpos (Hs1 & Hs2 & Hs3).
  assert (validNodeControlModeFact fact = true) as Hv by (apply quiet_report_valid; [done|lia]).
  assert (desired_mode false fact = desired) as Hd by (by apply next_mode_desired).
  unfold heartbeatMode. rewrite quiet_normalized by (done || lia). fold fact.
  unfold reconcileControlMode. rewrite (proj2 (Z.leb_gt _ _) Hid), Hv, (proj2 (Z.leb_gt _ _) Hpos).
  change (nf_ControllerGeneration fact) with (rs_HighestGeneration (ag_state a)).
  rewrite Hh, Z.eqb_refl, Z.ltb_irrefl. cbn [negb orb andb].
  change (nf_ModeGeneration fact) with (cm_ModeGeneration (mode_of a)).
  change (nf_Mode fact) with (cm_Mode (mode_of a)).
  rewrite (proj2 (Z.ltb_ge (cm_ModeGeneration (mode_of a)) _)) by lia.
  assert ((cm_ModeGeneration (mode_of a) =? nc_ControlModeGeneration current)
            && negb (String.eqb (cm_Mode (mode_of a)) (nc_ControlMode current)) = false) as ->.
  { apply not_true_is_false. intros Hb. b2p. by rewrite Hs2 in *. }
  cbn [orb String.eqb negb andb Ascii.eqb Bool.eqb]. rewrite Hd.
  unfold heartbeat_answer, durableTakeoverAcknowledgements, controlModeReport.
  cbn [nr_ConfirmedTakeovers de_ControllerGeneration]. by rewrite (qu_takeovers _ _ Hq), Z.eqb_refl.
Qed.

(** The Agent's reaction. *)
Lemma answer_applied_quiet active clock anow now a gen (desired := next_mode (cm_Mode (mode_of a)))
  (answer := quiet_answer active desired gen) :
  quiet a now -> rs_HighestGeneration (ag_state a) = active -> 0 < active ->
  cm_ModeGeneration (mode_of a) <= gen ->
  (gen = cm_ModeGeneration (mode_of a) -> desired = cm_Mode (mode_of a)) ->
  exists a', recordControllerSuccess true true clock anow answer a = (Ok tt, a')
    /\ mode_of a' = success_state anow answer desired (mode_of a)
    /\ rs_HighestGeneration (ag_state a') = active
    /\ rs_OwnershipTakeovers (ag_state a') = rs_OwnershipTakeovers (ag_state a).
Proof.
  intros Hq Hh Hpos Hge Heq. pose proof (qu_gen _ _ Hq) as Hmg.
  assert (desired = NodeModeManaged -> cm_Mode (mode_of a) <> NodeModeIndependent) as Hni.
  { unfold desired, next_mode. intros E Hi. by rewrite Hi in E. }
  rewrite (success_applied clock anow answer a desired ∅ a); try done.
  - eexists. split; [done|]. split; [done|]. split; [done|]. cbn. apply drop_nothing.
  - unfold desired, next_mode. by destruct (String.eqb _ _).
  - cbn. lia.
  - unfold maxOwnershipTakeovers. cbn. lia.
  - intros _ _. rewrite (qu_sessions _ _ Hq), (qu_pending _ _ Hq). lia.
Qed.

Lemma exchange_step nodeID active anow now a current B :
  0 < nodeID -> quiet a now -> rs_HighestGeneration (ag_state a) = active -> 0 < active ->
  in_step current a B -> B < MaxInt64 ->
  exists a' cols, exchange nodeID "compute" active false now anow (a, current) = Some (a', cols)
    /\ cm_Mode (mode_of a') = next_mode (cm_Mode (mode_of a))
    /\ rs_HighestGeneration (ag_state a') = active
    /\ (forall t, now <= t -> anow <= t + Minute -> quiet a' t) /\ in_step cols a' (B + 1)
    /\ nc_ControlMode cols = cm_Mode (mode_of a)
    /\ nc_DesiredControlMode cols = next_mode (cm_Mode (mode_of a)).
Proof.
  intros Hid Hq Hh Hpos Hs HB. destruct (Hs) as (Hs1 & Hs2 & Hs3). pose proof (qu_gen _ _ Hq) as Hmg.
  set (fact := quiet_fact a now). set (desired := next_mode (cm_Mode (mode_of a))).
  assert (nf_ModeGeneration fact = cm_ModeGeneration (mode_of a)) as Efg by done.
  destruct (desired_generation_facts current fact desired) as [Hge Heq]; [lia|lia|].
  assert (desired_generation current fact desired <= B + 1) as Hgb
    by (apply desired_generation_bound; lia).
  destruct (answer_applied_quiet active anow anow now a (desired_generation current fact desired) Hq Hh Hpos)
    as (a' & Hrec & Ea' & Hh' & Hto'); [lia|intros E; by apply Heq|].
  exists a', (reconciled_columns fact desired (desired_generation current fact desired)).
  assert (cm_ModeGeneration (mode_of a') = desired_generation current fact desired) as Eg.
  { rewrite Ea'. cbn. destruct (String.eqb _ (cm_Mode (mode_of a))) eqn:E; [|done]. b2p.
    unfold desired_generation. change (nf_Mode fact) with (cm_Mode (mode_of a)). unfold desired.
    by rewrite E, String.eqb_refl. }
  split; [|split; [by rewrite Ea'|split; [done|split; [|split; [|done]]]]].
  - unfold exchange. rewrite (heartbeat_quiet nodeID active now a current B Hid Hq Hh Hpos Hs).
    fold fact desired in Hrec |- *. unfold fact, desired in *. by rewrite Hrec.
  - intros t Ht Hat. eapply quiet_success; [exact Hq|exact Ht|exact Hat|exact Ea'|exact Hto'|cbn; lia].
  - unfold in_step. rewrite Eg, Ea'. cbn. change (cm_ModeGeneration (rs_ControlMode (ag_state a)))
      with (cm_ModeGeneration (mode_of a)). split_and!; try lia. intros E. symmetry. by apply Heq.
Qed.

(** C28: A recovered Controller brings a quiet, enrolled compute node back to managed.
    Let the Agent hold a credential of the active generation and know no higher one,
    have no disaster session, nothing to synchronize and no takeover to report, and,
    if it is independent, still have the evidence of the outage; let the Controller's
    row not be ahead of it; let its saves succeed and its clock run at most a minute
    ahead of the Controller's.  Then, whatever mode it was left in, three heartbeats
    that reach the Controller suffice: none is rejected on either side, an independent
    node drains first, after the second the Agent is managed, and after the third the
    Controller's row says that the node is managed and should be.  The credential and
    the evidence matter: a heartbeat with a credential of an earlier generation loses
    the evidence, and the next one is refused ([recovery_echo_rejected]). *)
Theorem recovery_converges nodeID active a current B t1 t2 t3 s1 s2 s3 :
  0 < nodeID -> quiet a t1 -> t1 <= t2 -> t2 <= t3 ->
  s1 <= t2 + Minute -> s2 <= t3 + Minute ->
  rs_HighestGeneration (ag_state a) = active -> 0 < active ->
  in_step current a B -> B + 2 < MaxInt64 ->
  exists a1 c1 a2 c2 a3 c3,
    exchange nodeID "compute" active false t1 s1 (a, current) = Some (a1, c1)
    /\ exchange nodeID "compute" active false t2 s2 (a1, c1) = Some (a2, c2)
    /\ exchange nodeID "compute" active false t3 s3 (a2, c2) = Some (a3, c3)
    /\ (cm_Mode (mode_of a) = NodeModeIndependent -> cm_Mode (mode_of a1) = NodeModeIndependentDraining)
    /\ cm_Mode (mode_of a2) = NodeModeManaged
    /\ nc_ControlMode c3 = NodeModeManaged /\ nc_DesiredControlMode c3 = NodeModeManaged.
Proof.
  intros Hid Hq H12 H23 Hs1 Hs2 Hh Hpos Hs HB.
  destruct (exchange_step nodeID active s1 t1 a current B) as (a1 & c1 & E1 & M1 & Hh1 & Q1 & S1 & _);
    try done; [lia|].
  destruct (exchange_step nodeID active s2 t2 a1 c1 (B + 1)) as (a2 & c2 & E2 & M2 & Hh2 & Q2 & S2 & _);
    [done|by apply Q1|done|done|done|lia|].
  destruct (exchange_step nodeID active s3 t3 a2 c2 (B + 1 + 1)) as (a3 & c3 & E3 & M3 & _ & _ & _ & C3 & D3);
    [done|by apply Q2|done|done|done|lia|].
  assert (cm_Mode (mode_of a2) = NodeModeManaged) as Hman.
  { rewrite M2, M1. unfold next_mode. by destruct (String.eqb (cm_Mode (mode_of a)) _). }
  exists a1, c1, a2, c2, a3, c3. split; [done|]. split; [done|]. split; [done|].
  split; [intros Hi; rewrite M1, Hi; done|]. split; [done|]. rewrite C3, D3, Hman. done.
Qed.

Lemma independent_evidence_needed report now :
  nr_Mode report = NodeModeIndependent -> nr_ConfirmedOutageStartedAt report = 0 ->
  forall fact, normalizeNodeControlMode report now <> Ok fact.
Proof.
  intros Hm Hc fact. unfold normalizeNodeControlMode. rewrite Hm, Hc. cbn [String.eqb].
  repeat match goal with |- (if ?b then Fail _ else _) <> _ => destruct b eqn:?; [done|] end.
  by rewrite String.eqb_refl, orb_true_r in *.
Qed.

(** A recovery-only answer strips an independent node of its evidence.  When
    the Controller answers a node that still authenticates with an older
    generation, it echoes the reported mode; an independent Agent that accepts
    the echo stays independent but clears the confirmed outage and the witness
    count, so the heartbeat handler refuses the report the Agent makes next, with
    whatever credential. *)
Theorem recovery_echo_rejected nodeID a pending now role current active authenticated allowed durable
  confirmedAt leases answer cols svg sv clock anow a' :
  cm_Mode (mode_of a) = NodeModeIndependent -> authenticated <> active ->
  heartbeatMode nodeID (controlModeReport pending a) now authenticated role current active allowed durable
    confirmedAt leases = Ok (answer, cols) ->
  recordControllerSuccess svg sv clock anow answer a = (Ok tt, a') ->
  cols = current /\ cm_Mode (mode_of a') = NodeModeIndependent
  /\ forall pending' now' authenticated' role' current' active' allowed' durable' confirmedAt' leases' r,
       heartbeatMode nodeID (controlModeReport pending' a') now' authenticated' role' current' active'
         allowed' durable' confirmedAt' leases' <> Ok r.
Proof.
  intros Hi Hne Hr Ha. unfold heartbeatMode in Hr.
  destruct (normalizeNodeControlMode _ now) as [fact|] eqn:En; [|done].
  destruct (normalized_fact _ _ _ En) as (users & tks & Ef & _).
  destruct (reconcileControlMode _ _ _ _ _ _ _ _) as [[dec c]|] eqn:Er; [|done].
  injection Hr as <- <-.
  assert (de_DesiredMode dec = nf_Mode fact /\ c = current) as [Ed ->].
  { unfold reconcileControlMode in Er. rewrite (proj2 (Z.eqb_neq _ _) Hne) in Er. cbn [negb andb] in Er.
    guards_in Er. by simplify_eq. }
  split; [done|].
  pose proof (success_mode svg sv clock anow (heartbeat_answer (controlModeReport pending a) dec
    authenticated confirmedAt leases) a) as Hm.
  rewrite Ha in Hm.
  destruct Hm as [_ [[_ Hm]|(desired & Em & _ & _ & _ & _ & _ & _ & _ & Edes & _)]]; [done|].
  assert (desired = NodeModeIndependent) as ->.
  { rewrite Edes, Hi. cbn [heartbeat_answer hr_DesiredMode]. rewrite Ed, Ef.
    change (nf_Mode (fact_of_report _ _ _ _)) with (cm_Mode (mode_of a)). by rewrite Hi. }
  split; [by rewrite Em|]. intros. unfold heartbeatMode.
  destruct (normalizeNodeControlMode _ now') as [f|] eqn:En'; [|done]. exfalso. revert En'.
  apply independent_evidence_needed.
  - change (cm_Mode (mode_of a') = NodeModeIndependent). by rewrite Em.
  - change (cm_ConfirmedOutageStartedAt (mode_of a') = 0). by rewrite Em.
Qed.

End NodeModes.

(** ** Witnesses *)

#[local] Existing Instance ascii_tables.

(** A compute node that lost its Controller for more than a quarter of an hour. *)
Definition demo_independent : Agent :=
  Eval vm_compute in
  fst (beats demo_compute (demo_failures ++ [Failed (demo_now + 901 * Second) true true true])).
Definition demo_recovery : time := demo_now + 1000 * Second.

Lemma demo_quiet : quiet demo_independent demo_recovery.
Proof. split; vm_compute; try done; try (split_and!; done). Qed.

Lemma handshake_accepted_witness :
  exists answer cols,
    heartbeatMode 7 (controlModeReport [] demo_independent) demo_recovery 1 "compute" demo_control 1
      false false 0 [] = Ok (answer, cols)
    /\ exists a', recordControllerSuccess true true demo_recovery demo_recovery answer demo_independent
                    = (Ok tt, a')
         /\ cm_Mode (mode_of a') = NodeModeIndependentDraining.
Proof.
  destruct (heartbeatMode 7 (controlModeReport [] demo_independent) demo_recovery 1 "compute" demo_control 1
      false false 0 []) as [[answer cols]|] eqn:E; [|vm_compute in E; discriminate].
  assert (hr_DesiredMode answer = NodeModeIndependentDraining
          /\ fst (recordActivityLeaseConfirmations demo_recovery demo_recovery answer demo_independent) = Ok tt)
    as [Hd Hl] by (vm_compute in E; injection E as <- _; vm_compute; split; reflexivity).
  destruct (handshake_accepted 7 demo_independent [] demo_recovery "compute" demo_control 1 false false
    demo_recovery demo_recovery 0 [] answer cols E) as (a' & Ha & Hm & _); [done|done|exact Hl|].
  exists answer, cols. split; [reflexivity|]. exists a'. split; [exact Ha|]. by rewrite Hm.
Defined.

Lemma recovery_converges_witness :
  exists a1 c1 a2 c2 a3 c3,
    exchange 7 "compute" 1 false demo_recovery demo_recovery (demo_independent, demo_control) = Some (a1, c1)
    /\ exchange 7 "compute" 1 false (demo_recovery + Second) demo_recovery (a1, c1) = Some (a2, c2)
    /\ exchange 7 "compute" 1 false (demo_recovery + 2 * Second) demo_recovery (a2, c2) = Some (a3, c3)
    /\ cm_Mode (mode_of a1) = NodeModeIndependentDraining
    /\ cm_Mode (mode_of a2) = NodeModeManaged /\ nc_ControlMode c3 = NodeModeManaged.
Proof.
  destruct (recovery_converges 7 1 demo_independent demo_control 10 demo_recovery
    (demo_recovery + Second) (demo_recovery + 2 * Second) demo_recovery demo_recovery demo_recovery)
    as (a1 & c1 & a2 & c2 & a3 & c3 & E1 & E2 & E3 & Hd & Hm & Hc & _);
    [done|apply demo_quiet|vm_compute; discriminate|vm_compute; discriminate
    |vm_compute; discriminate|vm_compute; discriminate|reflexivity|done
    |split_and!; vm_compute; congruence|done|].
  exists a1, c1, a2, c2, a3, c3. split_and!; try assumption. apply Hd. reflexivity.
Defined.

(** After a promotion to generation 2 the node still authenticates with the
    credential of generation 1. *)
Lemma recovery_echo_rejected_witness :
  exists answer a',
    heartbeatMode 7 (controlModeReport [] demo_independent) demo_recovery 1 "compute" demo_control 2
      true false 0 [] = Ok (answer, demo_control)
    /\ recordControllerSuccess true true demo_recovery demo_recovery answer demo_independent = (Ok tt, a')
    /\ forall r, heartbeatMode 7 (controlModeReport [] a') (demo_recovery + Second) 2 "compute" demo_control 2
                   false false 0 [] <> Ok r.
Proof.
  destruct (heartbeatMode 7 (controlModeReport [] demo_independent) demo_recovery 1 "compute" demo_control 2
      true false 0 []) as [[answer cols]|] eqn:E; [|vm_compute in E; discriminate].
  destruct (recordControllerSuccess true true demo_recovery demo_recovery answer demo_independent)
    as [[[]|e] a'] eqn:Ha.
  - destruct (recovery_echo_rejected 7 demo_independent [] demo_recovery "compute" demo_control 2 1 true
      false 0 [] answer cols true true demo_recovery demo_recovery a')
      as (-> & _ & Hv); [reflexivity|lia|exact E|exact Ha|].
    exists answer, a'. split; [reflexivity|]. split; [exact Ha|]. intros r. apply Hv.
  - vm_compute in E. injection E as <- _. vm_compute in Ha. discriminate.
Defined.
