(* ===== verification/Lockout.v ===== *)
(** * Login lockout

    src/internal/controller/login_lockout.go keeps, per user name, the number of
    consecutive failed logins and the time until which the name is locked; the
    middleware asks it before the login handlers of auth.go and admin_auth.go run,
    which report the outcome.  Modelled are the lockout, the middleware and both
    handlers up to the session they open; the account lookup and the password check
    are functions of the account name they are made for.  Each handler updates the
    lockout at most once, under its mutex, so a run is a list of handler calls in
    the order of their updates; the middleware only reads. *)

From Stdlib Require Import ZArith Lia Ascii String.
From stdpp Require Import base list gmap strings.
From S2P Require Import Prelude GoStrings Ownership Handles.
#[local] Open Scope Z_scope.

Record loginFailureState := { lf_failures : Z; lf_lockedUntil : time }.

Record loginLockout := {
  ll_failures : gmap string loginFailureState;
  ll_maxFailures : Z;
  ll_baseDelay : duration;
  ll_maxDelay : duration
}.

Definition newLoginLockout (maxFailures : Z) (baseDelay maxDelay : duration) : loginLockout :=
  {| ll_failures := ∅;
     ll_maxFailures := if maxFailures <=? 0 then 5 else maxFailures;
     ll_baseDelay := if baseDelay <=? 0 then 30 * Second else baseDelay;
     ll_maxDelay := if maxDelay <=? 0 then 15 * Minute else maxDelay |}.

Definition with_failures (l : loginLockout) (m : gmap string loginFailureState) : loginLockout :=
  {| ll_failures := m; ll_maxFailures := ll_maxFailures l; ll_baseDelay := ll_baseDelay l;
     ll_maxDelay := ll_maxDelay l |}.

Definition locked (username : string) (now : time) (l : loginLockout) : bool * duration :=
  if String.eqb username "" then (false, 0)
  else match ll_failures l !! username with
       | None => (false, 0)
       | Some state =>
           if after (lf_lockedUntil state) now then (true, time_sub (lf_lockedUntil state) now)
           else (false, 0)
       end.

(** The loop that doubles the delay; [fuel] is the number of failures beyond the
    threshold, the loop's own bound. *)
Fixpoint backoff (fuel : nat) (maxDelay delay : duration) : duration :=
  match fuel with
  | O => delay
  | S fuel =>
      if delay <? maxDelay then
        let doubled := wrap64 (delay * 2) in
        backoff fuel maxDelay (if maxDelay <? doubled then maxDelay else doubled)
      else delay
  end.

Definition recordFailure (username : string) (now : time) (l : loginLockout) : loginLockout :=
  if String.eqb username "" then l
  else
    let state := match ll_failures l !! username with
                 | Some s => s
                 | None => {| lf_failures := 0; lf_lockedUntil := 0 |}
                 end in
    let failures := wrap64 (lf_failures state + 1) in
    let lockedUntil :=
      if ll_maxFailures l <=? failures
      then now + backoff (Z.to_nat (failures - ll_maxFailures l)) (ll_maxDelay l) (ll_baseDelay l)
      else lf_lockedUntil state in
    with_failures l (<[username := {| lf_failures := failures; lf_lockedUntil := lockedUntil |}]>
                       (ll_failures l)).

Definition recordSuccess (username : string) (l : loginLockout) : loginLockout :=
  if String.eqb username "" then l else with_failures l (delete username (ll_failures l)).

(** [Some wait] answers 429; [None] lets the handler run.  [username] is the field
    of the JSON body, as it was sent. *)
Definition loginLockoutMiddleware (adminLogin : bool) (username : string) (now : time) (l : loginLockout)
  : option duration :=
  let lockoutKey := if adminLogin then ("admin:" ++ username)%string else username in
  match locked lockoutKey now l with
  | (true, wait) => Some wait
  | (false, _) => None
  end.

(** What a login request meets: the origin and admission checks, decoding, the
    account row (its status), the password check and the writes that follow. *)
Record loginEnv := {
  le_originOK : bool;
  le_admitted : bool;
  le_decodes : bool;
  le_account : string -> result (option string);
  le_passwordMatches : string -> bool;
  le_recordLoginOK : bool;
  le_createSessionOK : bool
}.

Section Lockout.
Context `{UnicodeTables}.

Definition handleLogin (e : loginEnv) (username : string) (now : time) (l : loginLockout)
  : Z * loginLockout :=
  if negb (le_originOK e) then (403, l)
  else if negb (le_admitted e) then (503, l)
  else if negb (le_decodes e) then (400, l)
  else
    let handle := NormalizeHandle username in
    match le_account e handle with
    | Fail _ | Ok None => (403, recordFailure handle now l)
    | Ok (Some status) =>
        if negb (String.eqb status "active") && negb (String.eqb status "conflict") then (403, l)
        else if negb (le_passwordMatches e handle) then (403, recordFailure handle now l)
        else
          let l := recordSuccess handle l in
          if negb (le_createSessionOK e) then (503, l) else (200, l)
    end.

Definition handleAdminLogin (e : loginEnv) (username : string) (now : time) (l : loginLockout)
  : Z * loginLockout :=
  if negb (le_originOK e) then (403, l)
  else if negb (le_decodes e) then (400, l)
  else
    let username := to_lower (trim_space username) in
    match le_account e username with
    | Fail _ => (503, l)
    | Ok admin =>
        if negb (match admin with Some status => String.eqb status "active" | None => false end)
           || negb (le_passwordMatches e username)
        then (403, recordFailure ("admin:" ++ username) now l)
        else
          let l := recordSuccess ("admin:" ++ username) l in
          if negb (le_recordLoginOK e) then (503, l)
          else if negb (le_createSessionOK e) then (503, l)
          else (200, l)
    end.

(** ** Runs *)

Inductive loginCall :=
| UserLogin (e : loginEnv) (username : string) (now : time)
| AdminLogin (e : loginEnv) (username : string) (now : time).

Definition do_login (l : loginLockout) (c : loginCall) : loginLockout :=
  match c with
  | UserLogin e username now => snd (handleLogin e username now l)
  | AdminLogin e username now => snd (handleAdminLogin e username now l)
  end.

(** What a call reports to the lockout: a key with the time of a failure, or with
    nothing for a success. *)
Definition reported (c : loginCall) : option (string * option time) :=
  match c with
  | UserLogin e username now =>
      let handle := NormalizeHandle username in
      if negb (le_originOK e && le_admitted e && le_decodes e) then None
      else match le_account e handle with
           | Ok (Some status) =>
               if negb (String.eqb status "active") && negb (String.eqb status "conflict") then None
               else Some (handle, if le_passwordMatches e handle then None else Some now)
           | _ => Some (handle, Some now)
           end
  | AdminLogin e username now =>
      let username := to_lower (trim_space username) in
      if negb (le_originOK e && le_decodes e) then None
      else match le_account e username with
           | Fail _ => None
           | Ok admin =>
               Some (("admin:" ++ username)%string,
                     if match admin with Some status => String.eqb status "active" | None => false end
                        && le_passwordMatches e username
                     then None else Some now)
           end
  end.

Definition apply_report (r : option (string * option time)) (l : loginLockout) : loginLockout :=
  match r with
  | None => l
  | Some (key, Some now) => recordFailure key now l
  | Some (key, None) => recordSuccess key l
  end.

Lemma do_login_reported l c : do_login l c = apply_report (reported c) l.
Proof.
  destruct c as [e u now|e u now]; cbn [do_login reported]; unfold handleLogin, handleAdminLogin.
  - destruct (le_originOK e), (le_admitted e), (le_decodes e); cbn [negb andb]; try done.
    destruct (le_account e _) as [[status|]|]; try done. destruct (negb _ && negb _); [done|].
    destruct (le_passwordMatches e _); [|done]. by destruct (le_createSessionOK e).
  - destruct (le_originOK e), (le_decodes e); cbn [negb andb]; try done.
    destruct (le_account e _) as [admin|]; [|done].
    destruct (match admin with Some _ => _ | None => _ end); cbn [negb orb andb]; [|done].
    destruct (le_passwordMatches e _); cbn [negb]; [|done].
    by destruct (le_recordLoginOK e), (le_createSessionOK e).
Qed.

(** The times of the failures reported under a key. *)
Definition failure_of (key : string) (c : loginCall) : option time :=
  match reported c with
  | Some (k, Some t) => if String.eqb k key then Some t else None
  | _ => None
  end.
Definition failures_of (key : string) (calls : list loginCall) : list time := omap (failure_of key) calls.

(** ** The keys of the lockout *)

Definition key_ok (k : string) : Prop := NormalizeHandle k = k \/ String.prefix "admin:" k = true.

Lemma admin_prefix s : String.prefix "admin:" ("admin:" ++ s) = true.
Proof. by destruct s. Qed.

Lemma reported_key c k o : reported c = Some (k, o) -> key_ok k.
Proof.
  destruct c as [e u now|e u now]; cbn [reported]; destruct (negb _); try done.
  - destruct (le_account e _) as [[status|]|].
    1: destruct (negb _ && negb _); [done|].
    all: intros [= <- <-]; left; apply normalize_idempotent.
  - destruct (le_account e _) as [admin|]; [|done]. intros [= <- <-]. right. apply admin_prefix.
Qed.

Lemma apply_report_params r l :
  ll_maxFailures (apply_report r l) = ll_maxFailures l
  /\ ll_baseDelay (apply_report r l) = ll_baseDelay l /\ ll_maxDelay (apply_report r l) = ll_maxDelay l.
Proof.
  destruct r as [[k o]|]; [|done]. destruct o; cbn; unfold recordFailure, recordSuccess;
    by destruct (String.eqb k "").
Qed.

Lemma run_params l calls :
  ll_maxFailures (foldl do_login l calls) = ll_maxFailures l
  /\ ll_baseDelay (foldl do_login l calls) = ll_baseDelay l
  /\ ll_maxDelay (foldl do_login l calls) = ll_maxDelay l.
Proof.
  revert l. induction calls as [|c calls IH]; intros l; [done|]. cbn.
  destruct (IH (do_login l c)) as (-> & -> & ->). rewrite do_login_reported. apply apply_report_params.
Qed.

Lemma run_keys calls l :
  (forall k, is_Some (ll_failures l !! k) -> key_ok k) ->
  forall k, is_Some (ll_failures (foldl do_login l calls) !! k) -> key_ok k.
Proof.
  revert l. induction calls as [|c calls IH]; intros l Hl; [exact Hl|]. cbn. apply IH. intros k.
  rewrite do_login_reported. destruct (reported c) as [[key o]|] eqn:E; [|apply Hl].
  apply reported_key in E. cbn. destruct o; unfold recordFailure, recordSuccess;
    destruct (String.eqb key ""); try apply Hl; cbn.
  - destruct (decide (key = k)) as [->|Hne]; [done|]. rewrite lookup_insert_ne by done. apply Hl.
  - destruct (decide (key = k)) as [->|Hne]; [by rewrite lookup_delete_eq; intros []|].
    rewrite lookup_delete_ne by done. apply Hl.
Qed.

(** ** Failures accumulate *)

Lemma backoff_ge fuel maxDelay delay :
  0 < delay -> maxDelay <= 2 ^ 62 -> delay <= backoff fuel maxDelay delay.
Proof.
  revert delay. induction fuel as [|fuel IH]; intros delay Hd Hm; cbn; [lia|].
  destruct (delay <? maxDelay) eqn:E; [|lia]. apply Z.ltb_lt in E.
  rewrite wrap64_id by int64_lia.
  destruct (maxDelay <? delay * 2) eqn:E2; b2p.
  - transitivity maxDelay; [lia|]. apply IH; lia.
  - transitivity (delay * 2); [lia|]. apply IH; lia.
Qed.

Definition failure_count (l : loginLockout) (h : string) : Z :=
  match ll_failures l !! h with Some s => lf_failures s | None => 0 end.

(** No counter exceeds the number of calls. *)
Lemma count_bounded l calls h n :
  0 <= failure_count l h <= n -> n + Z.of_nat (length calls) <= MaxInt64 ->
  0 <= failure_count (foldl do_login l calls) h <= n + Z.of_nat (length calls).
Proof.
  revert l n. induction calls as [|c calls IH]; intros l n Hn Hb; cbn [foldl length] in *; [lia|].
  specialize (IH (do_login l c) (n + 1)). rewrite Nat2Z.inj_succ in *.
  enough (0 <= failure_count (do_login l c) h <= n + 1) by lia. clear IH.
  rewrite do_login_reported. destruct (reported c) as [[key [t|]]|]; cbn; [| |lia];
    unfold recordFailure, recordSuccess; (destruct (String.eqb key ""); [lia|]);
    unfold failure_count; cbn; (destruct (decide (key = h)) as [->|Hne];
    [rewrite ?lookup_insert_eq, ?lookup_delete_eq
    |rewrite ?lookup_insert_ne, ?lookup_delete_ne by done]); fold (failure_count l h); try lia.
  cbn. unfold failure_count in Hn. destruct (ll_failures l !! h) as [s|]; cbn;
    rewrite wrap64_id by int64_lia; lia.
Qed.

(** What a run of calls without a success under [h] leaves for [h]. *)
Definition accumulated (l : loginLockout) (h : string) (fs : list time) : Prop :=
  Z.of_nat (length fs) <= failure_count l h
  /\ (ll_maxFailures l <= Z.of_nat (length fs) -> forall t, last fs = Some t ->
      exists s, ll_failures l !! h = Some s /\ t + ll_baseDelay l <= lf_lockedUntil s).

Lemma accumulate l h calls :
  0 < ll_baseDelay l -> ll_maxDelay l <= 2 ^ 62 -> 0 <= failure_count l h ->
  failure_count l h + Z.of_nat (length calls) <= MaxInt64 -> h <> "" -> 0 < ll_maxFailures l ->
  (forall c, c ∈ calls -> reported c <> Some (h, None)) ->
  accumulated (foldl do_login l calls) h (failures_of h calls).
Proof.
  intros Hb Hm Hc Hmax Hh Hpos Hns. induction calls as [|c calls IH] using rev_ind.
  { split; [cbn; lia|]. intros Hx. cbn in Hx. lia. }
  rewrite length_app in Hmax. cbn [length] in Hmax.
  destruct IH as [I1 I2]; [lia|intros x Hx; apply Hns, elem_of_app; by left|].
  pose proof (count_bounded l calls h (failure_count l h)) as Hcnt.
  pose proof (run_params l calls) as (P1 & P2 & P3).
  specialize (Hns c). rewrite foldl_app. cbn [foldl]. set (l1 := foldl do_login l calls) in *.
  unfold failures_of. rewrite omap_app. fold (failures_of h calls). cbn [omap list_omap].
  rewrite do_login_reported. unfold failure_of.
  assert (accumulated l1 h (failures_of h calls ++ [])) as Hsame by (by rewrite app_nil_r).
  destruct (reported c) as [[key o]|] eqn:E; [|exact Hsame].
  destruct (decide (key = h)) as [->|Hne].
  - destruct o as [t|]; [|by destruct Hns; [set_solver|]]. cbn [apply_report].
    rewrite String.eqb_refl. unfold accumulated, recordFailure, failure_count in *.
    rewrite (proj2 (String.eqb_neq _ _) Hh). cbn. rewrite lookup_insert_eq. cbn.
    set (n := match ll_failures l1 !! h with Some s => s | None => _ end) in *.
    assert (Z.of_nat (length (failures_of h calls)) <= lf_failures n <= MaxInt64 - 1) as Hn.
    { subst n. destruct (ll_failures l1 !! h); cbn in *; lia. }
    rewrite wrap64_id by int64_lia.
    rewrite length_app, last_snoc. cbn [length]. split; [lia|]. intros Hge t' [= <-].
    eexists. split; [done|]. cbn. rewrite (proj2 (Z.leb_le _ _)) by lia. rewrite P2, P3.
    pose proof (backoff_ge (Z.to_nat (lf_failures n + 1 - ll_maxFailures l1)) (ll_maxDelay l) (ll_baseDelay l)).
    lia.
  - assert (String.eqb key h = false) as Ek by (by apply String.eqb_neq).
    assert (ll_failures (apply_report (Some (key, o)) l1) !! h = ll_failures l1 !! h) as El.
    { destruct o; cbn; unfold recordFailure, recordSuccess; destruct (String.eqb key ""); try done; cbn;
        by rewrite ?lookup_insert_ne, ?lookup_delete_ne. }
    destruct (apply_report_params (Some (key, o)) l1) as (Q1 & Q2 & _).
    unfold accumulated, failure_count in *. rewrite El, Q1, Q2. destruct o; rewrite ?Ek; exact Hsame.
Qed.

Definition server_lockout : loginLockout := newLoginLockout 5 (30 * Second) (15 * Minute).

(** The lockout protects one spelling of an account.  After five failed logins
    for the account [h] with no success in between, however they were spelled and
    whatever else happened, a login spelled [h] is rejected before the password is
    checked for at least thirty seconds after the last failure; but a login for
    the same account under any other spelling (which the handler normalises to
    [h]) is let through, because the middleware looks up the name as it was sent.
    Names beginning with "admin:" collide with the keys of administrators. *)
Theorem lockout_by_spelling pre post h t now
  (l := foldl do_login server_lockout (pre ++ post)) :
  Z.of_nat (length (pre ++ post)) <= MaxInt64 -> h <> "" ->
  (forall c, c ∈ post -> reported c <> Some (h, None)) ->
  (5 <= length (failures_of h post))%nat -> last (failures_of h post) = Some t ->
  now < t + 30 * Second ->
  (exists wait, loginLockoutMiddleware false h now l = Some wait)
  /\ forall raw now', NormalizeHandle raw = h -> raw <> h -> String.prefix "admin:" raw = false ->
       loginLockoutMiddleware false raw now' l = None.
Proof.
  intros Hlen Hh Hns H5 Hlast Hnow. rewrite length_app in Hlen. split.
  - assert (failure_count server_lockout h = 0) as H0
      by (unfold failure_count; cbn; by rewrite lookup_empty).
    pose proof (count_bounded server_lockout pre h 0 ltac:(lia) ltac:(lia)) as Hcnt.
    pose proof (run_params server_lockout pre) as (P1 & P2 & P3).
    unfold l. rewrite foldl_app. set (l1 := foldl do_login server_lockout pre) in *.
    destruct (accumulate l1 h post) as [_ Hacc]; rewrite ?P1, ?P2, ?P3; try done; try lia; try (cbn; lia).
    destruct (run_params l1 post) as (R1 & R2 & _).
    destruct (Hacc ltac:(rewrite R1, P1; cbn; lia) t Hlast) as (s & Es & Hs).
    unfold loginLockoutMiddleware, locked. rewrite (proj2 (String.eqb_neq _ _) Hh), Es.
    unfold after. rewrite (proj2 (Z.ltb_lt _ _)); [by eexists|]. rewrite R2, P2 in Hs.
    change (ll_baseDelay server_lockout) with (30 * Second) in Hs. lia.
  - intros raw now' Hn Hne Hp. unfold loginLockoutMiddleware, locked. destruct (String.eqb raw ""); [done|].
    destruct (ll_failures l !! raw) as [s|] eqn:E; [|done].
    destruct (run_keys (pre ++ post) server_lockout) with (k := raw) as [Hk|Hk].
    + intros k. cbn. rewrite lookup_empty. by intros [].
    + by exists s.
    + congruence.
    + congruence.
Qed.

End Lockout.

(** ** Witness *)

#[local] Existing Instance ascii_tables.

Definition wrong_password : loginEnv :=
  {| le_originOK := true; le_admitted := true; le_decodes := true;
     le_account := fun _ => Ok (Some "active"); le_passwordMatches := fun _ => false;
     le_recordLoginOK := true; le_createSessionOK := true |}.
Definition guesses : list loginCall := replicate 5 (UserLogin wrong_password "Alice" demo_now).

Lemma lockout_by_spelling_witness :
  let l := foldl do_login server_lockout guesses in
  (exists wait, loginLockoutMiddleware false "alice" (demo_now + Second) l = Some wait)
  /\ loginLockoutMiddleware false "Alice" (demo_now + Second) l = None.
Proof.
  intros l. destruct (lockout_by_spelling [] guesses "alice" demo_now (demo_now + Second)) as [Hl Hb].
  - vm_compute. discriminate.
  - discriminate.
  - intros c Hc. apply list_elem_of_In in Hc. cbn in Hc.
    repeat (destruct Hc as [<-|Hc]; [vm_compute; discriminate|]). destruct Hc.
  - vm_compute. lia.
  - vm_compute. reflexivity.
  - vm_compute. reflexivity.
  - split; [exact Hl|]. apply Hb; vm_compute; congruence.
Defined.
