(* ===== verification/RateLimit.v ===== *)
(** * Rate limiting

    src/internal/controller/ratelimit.go counts requests per key in fixed windows
    that start with the first request of a key; expired windows are dropped at most
    once a minute.  A call of [allow] is one step: the release of the map lock
    between fetching a bucket and counting on it is not modelled. *)

From Stdlib Require Import ZArith Lia Ascii String Sorted.
From stdpp Require Import base list gmap strings.
From S2P Require Import Prelude.
#[local] Open Scope Z_scope.

Record rateBucket := { rb_windowAt : time; rb_count : Z }.

Record rateLimiter := {
  rl_buckets : gmap string rateBucket;
  rl_limit : Z;
  rl_window : duration;
  rl_maxKeys : Z;
  rl_lastGC : time
}.

Definition newRateLimiter (limit : Z) (window : duration) (maxKeys : Z) (now : time) : rateLimiter :=
  {| rl_buckets := ∅;
     rl_limit := if limit <=? 0 then 60 else limit;
     rl_window := if window <=? 0 then Minute else window;
     rl_maxKeys := if maxKeys <=? 0 then 100000 else maxKeys;
     rl_lastGC := now |}.

Definition with_buckets (l : rateLimiter) (m : gmap string rateBucket) (gc : time) : rateLimiter :=
  {| rl_buckets := m; rl_limit := rl_limit l; rl_window := rl_window l; rl_maxKeys := rl_maxKeys l;
     rl_lastGC := gc |}.

(** The eviction of expired buckets. *)
Definition evict (now : time) (l : rateLimiter) : rateLimiter :=
  if Minute <? time_sub now (rl_lastGC l)
  then with_buckets l
         (filter (fun kb => ~ rl_window l < time_sub now (rb_windowAt kb.2)) (rl_buckets l)) now
  else l.

(** One request on a bucket, and whether it may proceed. *)
Definition count_request (limit : Z) (window : duration) (now : time) (b : rateBucket) : bool * rateBucket :=
  let b := if window <=? time_sub now (rb_windowAt b) then {| rb_windowAt := now; rb_count := 0 |} else b in
  let b := {| rb_windowAt := rb_windowAt b; rb_count := wrap64 (rb_count b + 1) |} in
  (rb_count b <=? limit, b).

Definition allow (key : string) (now : time) (l : rateLimiter) : bool * rateLimiter :=
  let l := evict now l in
  match rl_buckets l !! key with
  | None =>
      if rl_maxKeys l <=? Z.of_nat (size (rl_buckets l)) then (false, l)
      else let '(ok, b) := count_request (rl_limit l) (rl_window l) now
                             {| rb_windowAt := now; rb_count := 0 |} in
           (ok, with_buckets l (<[key := b]> (rl_buckets l)) (rl_lastGC l))
  | Some b =>
      let '(ok, b) := count_request (rl_limit l) (rl_window l) now b in
      (ok, with_buckets l (<[key := b]> (rl_buckets l)) (rl_lastGC l))
  end.

(** The times at which requests of a key were let through. *)
Fixpoint admitted (k : string) (l : rateLimiter) (calls : list (string * time)) : list time :=
  match calls with
  | [] => []
  | (key, now) :: calls =>
      let '(ok, l') := allow key now l in
      if ok && String.eqb key k then now :: admitted k l' calls else admitted k l' calls
  end.

(** ** Windows

    An admission is a pair of the start of its window and its time. *)

Definition starts_at (es : list (time * time)) (s : time) : list (time * time) :=
  filter (fun e => e.1 = s) es.

(** The admissions in the interval of length [W] that begins at [t]. *)
Definition within (W : duration) (t : time) (es : list (time * time)) : list (time * time) :=
  filter (fun e => t <= e.2 < t + W) es.

Section Windows.
Context (limit : Z) (W : duration).

Record windows (es : list (time * time)) : Prop := {
  wi_within : forall s x, (s, x) ∈ es -> s <= x < s + W;
  wi_apart : forall e f : time * time, e ∈ es -> f ∈ es -> e.1 = f.1 \/ e.1 + W <= f.1 \/ f.1 + W <= e.1;
  wi_few : forall s, Z.of_nat (length (starts_at es s)) <= limit
}.

Lemma filter_none {A} (P : A -> Prop) `{!forall x, Decision (P x)} (l : list A) :
  (forall x, x ∈ l -> ~ P x) -> filter P l = [].
Proof.
  induction l as [|x l IH]; intros Hx; [done|]. rewrite filter_cons, decide_False by (apply Hx; set_solver).
  apply IH. set_solver.
Qed.

Lemma filter_split {A} (P Q R : A -> Prop) `{!forall x, Decision (P x), !forall x, Decision (Q x),
  !forall x, Decision (R x)} (l : list A) :
  (forall x, x ∈ l -> P x -> Q x \/ R x) ->
  (length (filter P l) <= length (filter Q l) + length (filter R l))%nat.
Proof.
  induction l as [|x l IH]; intros Hx; [done|]. specialize (IH (fun y Hy => Hx y (list_elem_of_further _ _ _ Hy))).
  specialize (Hx x (list_elem_of_here _ _)). rewrite !filter_cons.
  destruct (decide (P x)) as [HP|], (decide (Q x)), (decide (R x)); cbn; try lia.
  exfalso. by destruct (Hx HP).
Qed.

Lemma two_starts t es s0 s1 :
  (forall e : time * time, e ∈ es -> t <= e.2 < t + W -> e.1 = s0 \/ e.1 = s1) ->
  (length (within W t es) <= length (starts_at es s0) + length (starts_at es s1))%nat.
Proof. apply filter_split. Qed.

(** At most two windows meet an interval of the length of a window. *)
Lemma windows_interval es t : windows es -> Z.of_nat (length (within W t es)) <= 2 * limit.
Proof.
  intros [Hin Hap Hfew].
  destruct (decide (Exists (fun e => t <= e.2 < t + W) es)) as [H0|Hno].
  2: { unfold within. rewrite filter_none; [specialize (Hfew 0); cbn; lia|].
       intros e He Ht. apply Hno, Exists_exists. eauto. }
  apply Exists_exists in H0 as ([s0 x0] & H0 & H0t). pose proof (Hfew s0) as F0.
  destruct (decide (Exists (fun e => t <= e.2 < t + W /\ e.1 <> s0) es)) as [H1|Hno].
  - apply Exists_exists in H1 as ([s1 x1] & H1 & H1t & Hne). pose proof (Hfew s1) as F1.
    pose proof (two_starts t es s0 s1) as Hs. cbn in *.
    enough (forall e : time * time, e ∈ es -> t <= e.2 < t + W -> e.1 = s0 \/ e.1 = s1) as Hx by (specialize (Hs Hx); lia).
    intros [s x] Hx Hxt.
    pose proof (Hin _ _ Hx). pose proof (Hin _ _ H0). pose proof (Hin _ _ H1).
    pose proof (Hap _ _ Hx H0). pose proof (Hap _ _ Hx H1). pose proof (Hap _ _ H0 H1). cbn in *. lia.
  - pose proof (two_starts t es s0 s0) as Hs.
    enough (forall e : time * time, e ∈ es -> t <= e.2 < t + W -> e.1 = s0 \/ e.1 = s0) as Hx by (specialize (Hs Hx); lia).
    intros e Hx Hxt. left. destruct (decide (e.1 = s0)); [done|]. exfalso. apply Hno, Exists_exists. eauto.
Qed.

Lemma starts_at_snoc es w now s :
  length (starts_at (es ++ [(w, now)]) s) = (length (starts_at es s) + if decide (w = s) then 1 else 0)%nat.
Proof.
  unfold starts_at. rewrite filter_app, length_app, filter_cons, filter_nil. f_equal. cbn [fst].
  by destruct (decide (w = s)).
Qed.

(** One more admission in the current window [w], after all others. *)
Lemma windows_snoc es w now :
  windows es -> w <= now < w + W ->
  (forall e : time * time, e ∈ es -> e.1 = w \/ e.1 + W <= w) -> Z.of_nat (length (starts_at es w)) + 1 <= limit ->
  windows (es ++ [(w, now)]).
Proof.
  intros [Hin Hap Hfew] Hw Hlast Hc. split.
  - intros s x Hx. apply elem_of_app in Hx as [Hx|Hx]; [by apply Hin|].
    apply list_elem_of_singleton in Hx. by injection Hx as -> ->.
  - intros e f He Hf. apply elem_of_app in He as [He|He], Hf as [Hf|Hf];
      rewrite ?list_elem_of_singleton in *; subst; cbn; auto.
    + destruct (Hlast e He); auto.
    + destruct (Hlast f Hf); auto.
  - intros s. rewrite starts_at_snoc. specialize (Hfew s). case_decide; subst; lia.
Qed.

(** What the bucket of a key knows about its admissions. *)
Definition bucket_knows (es : list (time * time)) (now : time) (n : nat) (b : option rateBucket) : Prop :=
  match b with
  | None => forall e : time * time, e ∈ es -> e.1 + W <= now
  | Some b => rb_windowAt b <= now /\ 0 <= rb_count b <= Z.of_nat n
              /\ Z.of_nat (length (starts_at es (rb_windowAt b))) <= rb_count b
              /\ forall e : time * time, e ∈ es -> e.1 = rb_windowAt b \/ e.1 + W <= rb_windowAt b
  end.

Lemma starts_none es s : (forall e : time * time, e ∈ es -> e.1 + W <= s) -> 0 < W -> starts_at es s = [].
Proof.
  intros He HW. unfold starts_at. apply filter_none.
  intros e Hin Hs. specialize (He e Hin). cbn beta in Hs. lia.
Qed.

Lemma fresh_bucket es now now' n :
  (forall e : time * time, e ∈ es -> e.1 + W <= now') -> now' <= now -> 0 < W ->
  bucket_knows es now n (Some {| rb_windowAt := now; rb_count := 0 |}).
Proof.
  intros He Hle HW. unfold bucket_knows. cbn [rb_windowAt rb_count]. split; [lia|]. split; [lia|].
  rewrite starts_none; [|intros e Hin; specialize (He e Hin); lia|done]. split; [cbn [length]; lia|].
  intros e Hin. right. specialize (He e Hin). lia.
Qed.

Lemma count_request_step es now0 now n b ok b' :
  0 < W <= MaxInt64 -> limit <= MaxInt64 -> Z.of_nat n < MaxInt64 -> now0 <= now ->
  windows es -> bucket_knows es now0 n (Some b) -> count_request limit W now b = (ok, b') ->
  let es' := if ok then es ++ [(rb_windowAt b', now)] else es in
  windows es' /\ bucket_knows es' now (S n) (Some b').
Proof.
  intros HW Hlim Hn Hle Hw Hb. unfold count_request.
  set (b1 := if W <=? time_sub now (rb_windowAt b) then _ else b).
  assert (bucket_knows es now n (Some b1) /\ now < rb_windowAt b1 + W) as [Hb1 Hin].
  { subst b1. unfold time_sub. destruct Hb as (B1 & B2 & B3 & B4).
    destruct (W <=? _) eqn:E; b2p.
    - split; [|cbn; lia]. apply (fresh_bucket es now (rb_windowAt b + W)); [|unfold MinInt64, MaxInt64 in *; lia|lia].
      intros e He. destruct (B4 e He) as [->|]; lia.
    - split; [|unfold MinInt64, MaxInt64 in *; lia]. split_and!; try done; lia. }
  clearbody b1. clear Hb b. destruct Hb1 as (B1 & B2 & B3 & B4).
  intros [= <- <-]. cbn [rb_windowAt]. rewrite wrap64_id by int64_lia.
  destruct (rb_count b1 + 1 <=? limit) eqn:E; b2p; cbn zeta.
  - split; [apply windows_snoc; [done|lia|done|lia]|]. cbn. split_and!; try lia.
    + rewrite starts_at_snoc. case_decide; lia.
    + intros e He. apply elem_of_app in He as [He|He]; [by apply B4|].
      apply list_elem_of_singleton in He. subst. by left.
  - split; [done|]. cbn. split_and!; try lia. exact B4.
Qed.
End Windows.

(** ** Runs *)

Lemma evict_keeps now l :
  rl_limit (evict now l) = rl_limit l /\ rl_window (evict now l) = rl_window l
  /\ rl_maxKeys (evict now l) = rl_maxKeys l.
Proof. unfold evict. by destruct (_ <? _). Qed.

Lemma evict_knows es now0 now n l k :
  0 < rl_window l -> now0 <= now -> bucket_knows (rl_window l) es now0 n (rl_buckets l !! k) ->
  bucket_knows (rl_window l) es now n (rl_buckets (evict now l) !! k).
Proof.
  intros HW Hle Hb.
  assert (bucket_knows (rl_window l) es now n (rl_buckets l !! k)) as Hb'.
  { destruct (rl_buckets l !! k) as [b|]; cbn in *; [destruct Hb as (? & ? & ? & ?); split_and!; auto; lia|].
    intros e He. specialize (Hb e He). lia. }
  unfold evict. destruct (_ <? _); [|exact Hb']. cbn [rl_buckets with_buckets].
  destruct (rl_buckets l !! k) as [b|] eqn:E.
  - destruct (decide (rl_window l < time_sub now (rb_windowAt b))) as [Hx|Hx].
    + rewrite (map_lookup_filter_None_2 _ _ _); [|right; intros y Hy; rewrite E in Hy; by injection Hy as <-; intros ?].
      cbn. intros e He. destruct Hb' as (_ & _ & _ & B4). unfold time_sub in Hx.
      destruct (B4 e He); unfold MinInt64, MaxInt64 in *; lia.
    + rewrite (map_lookup_filter_Some_2 _ _ _ b); [exact Hb'|exact E|exact Hx].
  - rewrite map_lookup_filter_None_2; [exact Hb'|by left].
Qed.

Lemma allow_step k es now0 now n l key ok l' :
  0 < rl_window l <= MaxInt64 -> rl_limit l <= MaxInt64 -> Z.of_nat n < MaxInt64 -> now0 <= now ->
  windows (rl_limit l) (rl_window l) es -> bucket_knows (rl_window l) es now0 n (rl_buckets l !! k) ->
  allow key now l = (ok, l') ->
  exists es', windows (rl_limit l) (rl_window l) es'
    /\ bucket_knows (rl_window l) es' now (S n) (rl_buckets l' !! k)
    /\ es'.*2 = es.*2 ++ (if ok && String.eqb key k then [now] else [])
    /\ rl_limit l' = rl_limit l /\ rl_window l' = rl_window l.
Proof.
  intros HW Hlim Hn Hle Hw Hb. unfold allow.
  destruct (evict_keeps now l) as (K1 & K2 & K3). rewrite K1, K2, K3.
  apply (evict_knows es now0 now n l k) in Hb; [|lia|done]. set (l1 := evict now l) in *.
  assert (bucket_knows (rl_window l) es now (S n) (rl_buckets l1 !! k)) as Hb1.
  { destruct (rl_buckets l1 !! k); cbn in *; [destruct Hb as (? & ? & ? & ?); split_and!; auto; lia|done]. }
  destruct (decide (key = k)) as [->|Hne].
  - rewrite String.eqb_refl.
    assert (forall b, bucket_knows (rl_window l) es now n (Some b) ->
      (let '(ok, b) := count_request (rl_limit l) (rl_window l) now b in
       (ok, with_buckets l1 (<[k:=b]> (rl_buckets l1)) (rl_lastGC l1))) = (ok, l') ->
      exists es', windows (rl_limit l) (rl_window l) es'
        /\ bucket_knows (rl_window l) es' now (S n) (rl_buckets l' !! k)
        /\ es'.*2 = es.*2 ++ (if ok && true then [now] else [])
        /\ rl_limit l' = rl_limit l /\ rl_window l' = rl_window l) as Hcount.
    { intros b Hbk E. destruct (count_request _ _ _ _) as [ok1 b1] eqn:Ec. injection E as <- <-.
      destruct (count_request_step _ _ es now now n b ok1 b1 HW Hlim Hn ltac:(lia) Hw Hbk Ec) as [C1 C2].
      eexists. split; [exact C1|]. cbn [rl_buckets with_buckets rl_limit rl_window]. rewrite lookup_insert_eq.
      split; [exact C2|]. split; [|done]. destruct ok1; cbn; [by rewrite fmap_app|by rewrite app_nil_r]. }
    destruct (rl_buckets l1 !! k) as [b|] eqn:El; [by apply Hcount|].
    destruct (_ <=? _).
    + intros [= <- <-]. exists es. rewrite El, app_nil_r. by split_and!.
    + apply Hcount. apply (fresh_bucket _ es now now); [exact Hb|lia|lia].
  - rewrite (proj2 (String.eqb_neq _ _) Hne), andb_false_r. intros E. exists es. rewrite app_nil_r.
    assert (rl_buckets l' !! k = rl_buckets l1 !! k /\ rl_limit l' = rl_limit l1 /\ rl_window l' = rl_window l1)
      as (-> & -> & ->); [|by split_and!].
    destruct (rl_buckets l1 !! key) as [b|]; [|destruct (_ <=? _); [by injection E as <- <-|]];
      destruct (count_request _ _ _ _); injection E as <- <-; cbn; by rewrite lookup_insert_ne.
Qed.

Lemma admitted_windows k calls : forall l es now0 n,
  0 < rl_window l <= MaxInt64 -> rl_limit l <= MaxInt64 ->
  Z.of_nat (n + length calls) <= MaxInt64 -> StronglySorted Z.le (now0 :: calls.*2) ->
  windows (rl_limit l) (rl_window l) es -> bucket_knows (rl_window l) es now0 n (rl_buckets l !! k) ->
  exists es', windows (rl_limit l) (rl_window l) es' /\ es'.*2 = es.*2 ++ admitted k l calls.
Proof.
  induction calls as [|[key now] calls IH]; intros l es now0 n HW Hlim Hn Hs Hw Hb; cbn [admitted].
  { exists es. by rewrite app_nil_r. }
  cbn [fmap list_fmap snd length] in *. apply StronglySorted_inv in Hs as [Hs H0].
  apply Forall_cons in H0 as [H0 _].
  destruct (allow key now l) as [ok l'] eqn:E.
  destruct (allow_step k es now0 now n l key ok l' HW Hlim ltac:(lia) H0 Hw Hb E)
    as (es1 & W1 & B1 & E1 & L1 & L2).
  destruct (IH l' es1 now (S n)) as (es2 & W2 & E2); rewrite ?L1, ?L2; try done; [lia|].
  exists es2. rewrite L1, L2 in W2. split; [done|]. rewrite E2, E1, <- app_assoc. by destruct (ok && _).
Qed.

(** The limiter lets at most twice the limit through in any window's length.
    Whatever requests arrive at non-decreasing times, in any interval as long as
    the window at most [2 * limit] requests of one key are admitted, across the
    restarts of its windows and the eviction of its bucket. *)
Theorem rate_window_bound limit window maxKeys start calls k t
  (l := newRateLimiter limit window maxKeys start) :
  window <= MaxInt64 -> limit <= MaxInt64 -> Z.of_nat (length calls) <= MaxInt64 ->
  StronglySorted Z.le (start :: calls.*2) ->
  Z.of_nat (length (filter (fun x => t <= x < t + rl_window l) (admitted k l calls))) <= 2 * rl_limit l.
Proof.
  intros Hwin Hlim Hlen Hs.
  assert (0 < rl_window l <= MaxInt64 /\ 0 < rl_limit l <= MaxInt64) as [HW HL].
  { subst l. unfold newRateLimiter. cbn [rl_window rl_limit].
    assert (0 < Minute <= MaxInt64 /\ 60 <= MaxInt64) by (vm_compute; split_and!; congruence).
    destruct (window <=? 0) eqn:E1; destruct (limit <=? 0) eqn:E2; b2p; lia. }
  destruct (admitted_windows k calls l [] start 0 HW (proj2 HL) Hlen Hs) as (es & We & Ee).
  - split; [by intros s x Hx%elem_of_nil|by intros e f Hx%elem_of_nil|intros s; exact (Z.lt_le_incl _ _ (proj1 HL))].
  - cbn. rewrite lookup_empty. by intros e He%elem_of_nil.
  - cbn [fmap list_fmap app] in Ee. rewrite <- Ee.
    pose proof (windows_interval _ _ es t We) as Hi.
    enough (length (filter (fun x => t <= x < t + rl_window l) es.*2)
            = length (within (rl_window l) t es)) by lia.
    clear. unfold within. induction es as [|e es IH]; [done|]. rewrite fmap_cons, !filter_cons.
    repeat case_decide; cbn [length]; rewrite ?IH; naive_solver.
Qed.

(** ** Witness *)

Definition demo_calls : list (string * time) :=
  [("k", 0); ("k", 59 * Second); ("other", 59 * Second); ("k", 59 * Second); ("k", 60 * Second);
   ("k", 61 * Second); ("k", 62 * Second)].

Lemma rate_window_bound_witness :
  admitted "k" (newRateLimiter 2 Minute 10 0) demo_calls = [0; 59 * Second; 60 * Second; 61 * Second]
  /\ Z.of_nat (length (filter (fun x => 2 * Second <= x < 2 * Second + Minute)
       (admitted "k" (newRateLimiter 2 Minute 10 0) demo_calls))) <= 4.
Proof.
  split; [vm_compute; reflexivity|].
  apply (rate_window_bound 2 Minute 10 0 demo_calls "k" (2 * Second)); try (vm_compute; congruence).
  repeat constructor; vm_compute; congruence.
Defined.
